(* ===== verification/_CoqProject ===== *)
-Q . S2P
Prelude.v
Pts.v
Delivery.v
Channel.v
ChannelFacts.v
Friend.v
SendAuth.v
Chunked.v
ChunkSession.v
Call.v
CallFacts.v
Timeline.v
TimelineFacts.v
Sync.v
SyncFacts.v
Recall.v
OfflineQueue.v
Dispatch.v
DispatchFacts.v
DispatchRun.v
Submit.v
SubmitFacts.v
Unread.v
ReadState.v
ReadStateFacts.v
QrLogin.v
DeviceSession.v
Token.v
Login.v
AuthFacts.v
Group.v
GroupService.v
Approval.v
GroupFacts.v
GroupTheorems.v
History.v
Payload.v
Send.v
SendFacts.v
Connection.v
ConnectionFacts.v
Subscribe.v
SubscribeFacts.v
Push.v
PushFacts.v
UploadToken.v
UploadTokenFacts.v
FileStore.v
FileFacts.v
WholeUpload.v
UploadFacts.v
Users.v
QrCode.v
Profile.v
ProfileFacts.v
QrFacts.v
ClientState.v
RateLimit.v
RateLimitFacts.v
Security.v
SecurityFacts.v
