(* ===== verification/Prelude.v ===== *)
(** * Verification of the PrivChat server

    PrivChat is an instant-messaging server in Rust (src/src/). This library
    models its core: who is connected and may act, the committed message timeline
    and the way it reaches clients, groups, contacts, recall, uploads, calls and
    push notifications. Operations are executable functions; theorems quantify over
    all executions and all failures the model has.

    ** The program and its parts

    A client connects and authenticates with a token bound to a device session
    ([DeviceSession], [Token], [Login]; [QrLogin] is the login by scanning a code).
    The connection manager ([Connection]) keeps which session serves which device,
    the subscription table ([Subscribe]) which session watches which channel. Before
    that, the security service ([Security]) decides whether the address is let in, from
    its violations and a limiter of token buckets ([RateLimit]); it also keeps the state
    and the trust of each device ([ClientState]).

    A message comes in through the send handler ([Send]) or the submit RPC
    ([Submit]). Both decode it ([Payload]), ask send_authorization.rs ([SendAuth])
    whether the user may write into the channel, from the channel, the blacklist,
    the friendships ([Friend]), the privacy settings and the group policy, and run
    one transaction of message_repo.rs ([Timeline]) that claims the idempotency key,
    allocates the channel's next pts, stores the row, binds the attachments, appends
    a commit and a snapshot of the recipients. The dispatch worker ([Dispatch]) takes
    the snapshot, delivers to the sessions of each recipient or to the offline queue
    ([OfflineQueue]), and retries. The push planner and worker ([Push]) notify
    devices that did not get it. Clients fetch what they lack by pts ([Sync]), the
    delivery watermark ([Delivery]) and the read cursors ([ReadState], [Unread])
    follow what they have. Groups and their members are the work of the channel
    service ([Group], [GroupService], [Approval]). History, recall and calls are
    services beside this path. A file reaches the server before the message that
    carries it: the client asks for a token ([UploadToken]), sends the sealed bytes in
    one request ([WholeUpload]) or in parts ([Chunked], [ChunkSession]), and the file
    service publishes the object and records its row ([FileStore]). Before two users are
    friends they meet: one finds the other by a search, a group, a card or a QR code
    ([QrCode]), looks at the profile, and applies ([Profile], over [Users] and [Friend]).

    ** Files

    - [Prelude] (this file): [Result] and its notations, [ServerError] with its
      texts (error.rs), machine integers ([as_i64], [as_u64], wrapping and
      saturating operations), faults, decimal texts, and the generic lemmas, hints
      and tactics used everywhere.
    - [Pts]: model/pts.rs. Modules [PtsGenerator], [DeviceSync], [UserMessageIndex],
      [UnreadCounter]. [Delivery]: service/delivery_tracker.rs.
    - [Channel], [ChannelFacts]: model/channel.rs.
    - [Friend]: modules [Blacklist] (blacklist_service.rs) and [Friends]
      (model/friend.rs, friend_service.rs), over the tables they own.
    - [SendAuth]: send_authorization.rs against the class [SendAuthorizationDeps],
      which states what the decision needs of the services it consults; [db_deps]
      discharges it with the tables of [Friend] and the privacy and policy
      columns. Modules [ReadDetail] (rpc/message/status/policy.rs) and
      [Attachment] (attachment_authorization.rs).
    - [Chunked], [ChunkSession]: chunked_upload.rs and the pure functions of
      numbered_parts.rs.
    - [UploadToken], [UploadTokenFacts]: security/upload_token.rs,
      upload_token_service.rs and the two RPCs of upload tokens.
    - [FileStore], [FileFacts]: the publication, the rows and the claims of files
      (file_service.rs, file_claim_service.rs, attachment_verify.rs,
      file_upload_repo.rs).
    - [WholeUpload], [UploadFacts]: upload_session.rs, the route of
      http/routes/upload.rs that receives a whole file, and the upload callback. The
      route is a sequence of phases ([advance]), so that a crash may fall between any
      two of them.
    - [Users]: the lookups of user_repo.rs, the two-level cache of cache_manager.rs,
      rpc/helpers.rs, and the changes of privacy settings. [QrCode], [QrFacts]:
      qrcode_service.rs with rpc/qrcode/ and the cards of rpc/user/qrcode.rs.
    - [Profile], [ProfileFacts]: the access decision of privacy_service.rs, the records
      of model/privacy.rs, and the handlers of details, searches, shared cards, friend
      requests and blacklists (rpc/account/, rpc/contact/).
    - [Call], [CallFacts]: call_service.rs and its peers.
    - [Timeline], [TimelineFacts]: the transactions of message_repo.rs with the rows
      of model/message.rs and the retention of server.rs.
    - [Sync], [SyncFacts]: sync_cache.rs, handle_get_difference and its queries.
    - [Recall]: the revocation of message_service.rs.
    - [OfflineQueue]: offline_queue_service.rs and the Redis lists.
    - [Dispatch], [DispatchFacts], [DispatchRun]:
      committed_timeline_delivery_service.rs: claims with leases, batches, offline
      fallback, settlement; the facts of the rows, then of whole runs.
    - [Submit], [SubmitFacts]: handle_client_submit of sync_service.rs and the sync
      RPCs (rpc/sync/mod.rs), with the projection to the message views that follows a
      submission.
    - [Unread]: unread_count_service.rs. [ReadState], [ReadStateFacts]:
      read_state_service.rs and the read-list RPCs.
    - [QrLogin]: qr_login_service.rs. [DeviceSession], [Token], [Login],
      [AuthFacts]: auth/, refresh_token_repository.rs, session_manager.rs, the auth
      middleware and the account RPCs.
    - [Group], [GroupService], [Approval], [GroupFacts], [GroupTheorems]: the tables
      and transactions of channel_service.rs and channel_repo.rs, approval_service.rs
      and the group RPCs.
    - [History]: message_history_service.rs, with module [HistoryFacts];
      mention_service.rs.
    - [Payload], [Send], [SendFacts]: send_message_handler.rs, with
      legacy_media_refs.rs.
    - [Connection], [ConnectionFacts]: infra/connection_manager.rs and the local half
      of infra/message_router.rs.
    - [Subscribe], [SubscribeFacts]: infra/subscribe_manager.rs,
      security/room_ticket.rs, room_history_service.rs, the subscribe handler, the
      typing limiter and its RPC.
    - [Push], [PushFacts]: push/ without the providers, and the device queries.
    - [ClientState], [RateLimit], [RateLimitFacts], [Security], [SecurityFacts]:
      security/client_state.rs, rate_limiter.rs and security_service.rs, the security
      middleware and configuration, and the acceptance of a connection in server.rs. The
      limiter is written against the class [BucketStore] of bucket tables.

    ** What the theorems show

    Timeline: in every reachable database the commits of a channel are numbered 1, 2,
    3 and so on without a gap ([timeline_gap_free]); a send is all or nothing
    ([send_is_atomic]); a repeated send or submission is answered with the first
    result and changes nothing ([submit_exactly_once], [send_retries_once]), with the two
    exceptions the statements name: the projection after a repeated submission, and
    answers after a group was dissolved; a file is attached to at most one message, of
    its uploader ([attachments_exclusive]).

    Delivery: with workers that go on and machines that recover, every recipient of a
    committed message is served ([committed_send_reaches_everyone]); what is marked
    as delivered was handed over ([delivered_means_handed_over]); the recorded attempts
    are those of the claims, at most eight ([claims_are_bounded]); the worker's loop refines the steps of its
    transactions ([dispatch_refines_steps]). A push is silent once the message has
    arrived, was recalled or the user is online ([settled_pushes_stay_silent]) and is
    tried at most four times ([push_retries_bounded]). A push over a connection
    reaches only sessions of its user ([push_reaches_only_its_user]); the indexes of
    connections and subscriptions agree ([connection_indexes_agree],
    [subscriptions_agree]); typing notices are limited ([typing_is_limited]).

    Reading: a difference contains only commits of the timeline, and exactly the next
    ones when the cache has no hole and no pts twice ([difference_is_timeline]); the
    watermark passes a pts that was not delivered only where a read forced it
    ([watermark_contiguous]); read cursors only grow ([read_cursors_never_move_back]);
    unread counts that wait are conserved ([unread_counts_conserved]); the history of a channel is what was stored
    ([history_is_exact]).

    Who may do what: sends and submissions are authorized, as the user of the token
    ([submit_is_authorized], [send_is_authorized], [requests_run_as_token_owner]);
    the decision equals a declarative policy, errors included
    ([send_decision_is_policy]); replies are true ([send_replies_are_true]); strangers
    read nothing ([strangers_read_nothing]); ended sessions and frozen devices stay
    out ([ended_sessions_never_return], [frozen_devices_stay_out]); a QR login needs a
    scan and a consent; a room ticket opens one room ([ticket_opens_one_room]); the
    rules of recall and of attachment access ([recall_rule],
    [attachment_access_rule]).

    Uploads: with requests of one session interleaved, repeated and cut off by crashes,
    a session ends in at most one file and every successful reply names it
    ([upload_exactly_once]); an object's row stays and points at the bytes its digest
    describes, as long as no publication on a local disk has left its temporary name
    linked to the object ([stored_objects_stay]); a request
    that is run to its end answers and gives its lock back ([upload_comes_to_an_end]);
    a claim of bytes already stored makes one row ([claim_makes_one_file]); a token that
    the service issued validates to the claims it was issued for
    ([issued_token_validates]), and one that validates names sizes within the limits of
    its type ([verified_claims_bounded]).

    Meeting: with searches, cards, views and applications in any order, a profile is
    shown only to somebody who met its owner in a way the server can check, and no more
    of it than that meeting allows ([profile_needs_a_meeting]); a friend request is
    stored only after such a meeting ([friend_request_needs_a_meeting]); a QR key runs
    out ([qr_keys_run_out]); an update of the privacy settings is what is read next
    ([privacy_update_reads_back]). [QrFacts] also shows what the checks let through.

    Protection: an address that is banned for its violations is refused until its time
    is over ([banned_ip_stays_out]); penalties end and trust stays within its range
    ([penalties_end]); the limiter with its sixteen locked tables answers like one with a
    single table ([sharded_limiter_is_one_map]), and calls that share no bucket do not
    influence each other ([limits_are_separate]). [SecurityFacts] and [RateLimitFacts]
    also show where the checks differ from the comments beside them.

    Groups, contacts, calls, uploads, channels: the rows of a group are consistent
    and its owner is one ([group_rows_consistent], [transfer_is_exclusive]), the latter in
    the runs in which nobody joins with the role Owner ([OwnerJoins]); a join
    request is decided once, management needs rank; friendship is mutual and
    consented; a user is in one live call; assembly returns the file; the channel
    invariant. Further theorems without a number stand beside these: the unread cells
    as a refinement, round trips of rows, the geometry of direct uploads, completeness
    of the contact sync, the replies of calls.

    ** Conventions and bounds

    Integers are [Z] at the width of the source: a cast is [as_i64] or [as_u64],
    which wrap, and arithmetic that can overflow is wrapped or saturated as the
    source does. Clock readings, random ids and the values of database sequences
    are arguments. A method under a lock, a Lua script and a database transaction
    are each one step; concurrency is the order of steps, and where a method takes
    several locks its halves are steps of their own ([micro], [push_step],
    [cluster_step]). A step relation per component ([alloc_op], [advance_op],
    [channel_step], [friend_op], [upload_op], [call_step], [tl_step], [sync_step],
    [cluster_step], [read_step], [qr_step], [session_step], [device_op],
    [group_step], [history_step], [conn_step], [sub_step], [push_step],
    [upload_step], [reach] with its log of calls, [key_step], [sec_step]) gives the
    reachable states. The dissolution of a group is a step of [group_step]; on the
    timeline, where it deletes messages, it is [dissolve_timeline], which is not part of
    [tl_step]: theorems over [tl_step] speak of runs without it, and [send_retries_once]
    of runs with it as far as it says so.

    Failures are arguments: [faults] says which of the numbered statements or
    remote calls of an operation fail, and theorems hold for every choice. A
    failed COMMIT may have taken effect. Lua numbers and sorted-set scores are
    doubles, exact below 2^53; the model uses integers. The [f64] of the rate limiter are
    binary64 numbers of the Standard Library's specification of floating point. Loops of the source
    recurse on the list they run over. Fuel: decimal printing of a u64 has twenty
    digits, enough for any value ([parse_u64_digits]); the client that pulls sync
    pages ([client_sync]) is given one page more than there are rows, which
    [friend_sync_complete] shows to be enough, and likewise [read_whole_list];
    [upload_file] runs the phases of a request with [phase_steps] of them as fuel, which
    [upload_comes_to_an_end] shows to reach the reply; the three tries of await_channel
    are those of the source.

    Code outside the repository is a parameter: the hash of bucket keys, SHA-256 and the manifest encoding
    of uploads, the protocol crate ([ProtocolCrate], [EventCodec], [PushCodec],
    [SubmitCodec], [PayloadCodec], [SendWire], [WireNames]), the token and ticket
    signatures ([JwtCrate], [TicketJwt], [UploadJwt] with the law [JwtLaws] that a
    signed text decodes to what was signed), the cipher of attachments
    ([AttachmentCrypto]), the names of detail sources ([DetailSourceCodec]), the JSON of
    privacy settings ([PrivacyColumn], with the law [JsonbLaws] of concatenation) and of
    QR codes ([QrMetadata]), UUIDs ([UuidCrate]), the transport
    ([Transport]), chrono ([Chrono], [PgTime]), PostgreSQL's messages ([Postgres]),
    the JSON texts of rows ([CommitText], [PermissionColumn]). The theorems need no
    law of them beyond the hypotheses they state; the witnesses instantiate them
    with concrete functions.

    ** Not modelled

    Left out of the steps: signalling between the peers of a call, which leaves the
    participants as they are; writes of an upload that end after its client is gone;
    overlap of two recalls or of two statements of a friendship change.

    The S3 client, presigned links, backfills, push providers and the client of the
    event service are I/O against systems the repository does not hold, and so are the
    routes, configuration and start-up code around the parts above. The presence tracker,
    dispatch between nodes, the older offline scheduler, stickers and channel listings
    keep caches that decide nothing the theorems speak of. *)

From Stdlib Require Import Ascii.
From stdpp Require Import base numbers gmap list sorting strings pretty relations.
Local Open Scope Z_scope.

(** ** Results of fallible Rust code

    [Result<T, E>] of the source; [?] is [let?]. *)
Inductive result (T E : Type) : Type :=
| Ok (t : T)
| Err (e : E).
Arguments Ok {T E} t.
Arguments Err {T E} e.

Declare Scope privchat_scope.
Delimit Scope privchat_scope with privchat.

Notation "'let?' x ':=' r 'in' k" :=
  (match r with Ok x => k | Err e => Err e end)
  (at level 10, x pattern, r at level 100, k at level 200)
  : privchat_scope.
Notation "'guard?' b 'else' e 'in' k" :=
  (if b then k else Err e)
  (at level 10, b at level 100, e at level 100, k at level 200)
  : privchat_scope.
Global Open Scope privchat_scope.

Definition is_ok {T E} (r : result T E) : bool :=
  match r with Ok _ => true | Err _ => false end.

(** [Option::ok_or]. *)
Definition ok_or {T E} (o : option T) (e : E) : result T E :=
  match o with Some t => Ok t | None => Err e end.

#[export] Instance result_eq_dec {T E} `{!EqDecision T, !EqDecision E} :
  EqDecision (result T E).
Proof. solve_decision. Defined.

Lemma ok_or_Ok {T E} (o : option T) (e : E) t : ok_or o e = Ok t <-> o = Some t.
Proof. destruct o; naive_solver. Qed.

(** ** Machine integers

    A [u64], [i64], ... of the source is a [Z]; the operations below write out
    the wrap-around, saturation and [as] casts of the release build, which has
    no overflow checks. *)
Definition u64_modulus : Z := 2 ^ 64.
Definition u64_max : Z := 2 ^ 64 - 1.
Definition u32_max : Z := 2 ^ 32 - 1.

Definition is_u64 (z : Z) : Prop := 0 <= z < 2 ^ 64.
Definition is_i64 (z : Z) : Prop := - 2 ^ 63 <= z < 2 ^ 63.

Definition u64_add (a b : Z) : Z := (a + b) mod 2 ^ 64.
Definition u64_sub (a b : Z) : Z := (a - b) mod 2 ^ 64.
Definition saturating_sub (a b : Z) : Z := Z.max 0 (a - b).
Definition u64_checked_add (a b : Z) : option Z :=
  if a + b <=? u64_max then Some (a + b) else None.

(** [x as i64] of a [u64] and [x as u64] of an [i64]: reinterpretation of the bits. *)
Definition as_i64 (z : Z) : Z := if z <? 2 ^ 63 then z else z - 2 ^ 64.
Definition as_u64 (z : Z) : Z := z mod 2 ^ 64.
Definition as_u32 (z : Z) : Z := z mod 2 ^ 32.

(** Arithmetic of an [i64] in the release build. *)
Definition i64_wrap (z : Z) : Z := as_i64 (as_u64 z).

(** [u64::div_ceil]. *)
Definition div_ceil (a b : Z) : Z := if a mod b =? 0 then a / b else a / b + 1.

Lemma u64_add_small a b : 0 <= a -> 0 <= b -> a + b < 2 ^ 64 -> u64_add a b = a + b.
Proof. intros. unfold u64_add. apply Z.mod_small. lia. Qed.

Lemma as_u64_as_i64 z : is_u64 z -> as_u64 (as_i64 z) = z.
Proof.
  unfold is_u64, as_u64, as_i64. intros Hz.
  destruct (Z.ltb_spec z (2 ^ 63)); [by apply Z.mod_small|].
  rewrite <- (Z.mod_small z (2 ^ 64)) at 2 by lia.
  rewrite <- (Z_mod_plus_full (z - 2 ^ 64) 1 (2 ^ 64)). f_equal. lia.
Qed.

Lemma div_ceil_spec a b :
  0 <= a -> 0 < b -> (div_ceil a b - 1) * b < a <= div_ceil a b * b \/ a = 0 /\ div_ceil a b = 0.
Proof.
  intros Ha Hb. unfold div_ceil.
  pose proof (Z.div_mod a b ltac:(lia)) as Hdm.
  pose proof (Z.mod_pos_bound a b Hb) as Hm.
  destruct (Z.eqb_spec (a mod b) 0); [|left; nia].
  destruct (decide (a = 0)) as [->|]; [right; rewrite Z.div_0_l by lia; done|left; nia].
Qed.

Lemma as_i64_as_u64_id z : is_i64 z -> as_i64 (as_u64 z) = z.
Proof.
  unfold is_i64, as_u64, as_i64. intros Hz.
  destruct (decide (0 <= z)).
  - rewrite Z.mod_small by lia. destruct (Z.ltb_spec z (2 ^ 63)); lia.
  - assert (z mod 2 ^ 64 = z + 2 ^ 64) as ->.
    { symmetry. apply (Z.mod_unique z (2 ^ 64) (-1)); lia. }
    destruct (Z.ltb_spec (z + 2 ^ 64) (2 ^ 63)); lia.
Qed.

Lemma as_i64_inj a b : is_u64 a -> is_u64 b -> as_i64 a = as_i64 b -> a = b.
Proof. intros Ha Hb Heq. rewrite <- (as_u64_as_i64 a), <- (as_u64_as_i64 b) by done. congruence. Qed.

Lemma as_i64_is_i64 z : is_u64 z -> is_i64 (as_i64 z).
Proof. unfold is_u64, is_i64, as_i64. intros. destruct (Z.ltb_spec z (2 ^ 63)); lia. Qed.

Lemma as_u64_is_u64 z : is_u64 (as_u64 z).
Proof. unfold is_u64, as_u64. apply Z.mod_pos_bound. lia. Qed.

(** Ranges and casts of machine integers. *)
Create HintDb privchat.
#[export] Hint Resolve as_i64_is_i64 as_u64_is_u64 as_u64_as_i64 as_i64_as_u64_id : privchat.

(** ** Errors of the service layer

    [ServerError] of src/src/error.rs. A protocol error code ([Coded]) is the
    name of the [ErrorCode] constructor of the protocol crate. *)
Inductive ServerError :=
| Coded (code : string) (status : Z) (message : string)
| Internal (m : string) | Authentication (m : string) | Authorization (m : string)
| Validation (m : string) | UserNotFound (m : string) | ChannelNotFound (m : string)
| MessageNotFound (m : string) | NotInChannel (m : string) | Database (m : string)
| Network (m : string) | Serialization (m : string) | Configuration (m : string)
| Cache (m : string) | RateLimit (m : string) | ResourceExhausted (m : string)
| Timeout (m : string) | Unsupported (m : string) | InvalidRequest (m : string)
| Duplicate (m : string) | PermissionDenied (m : string) | ServiceUnavailable (m : string)
| VersionMismatch (m : string) | Unknown (m : string)
| InvalidToken | TokenExpired | TokenRevoked
| Unauthorized (m : string) | Protocol (m : string) | BadRequest (m : string)
| NotFound (m : string) | Forbidden (m : string) | InvalidDeviceId | InvalidDeviceType
| DuplicateEntry (m : string) | PushTokenInvalid (m : string)
| ChannelResyncRequired (m : string) | EntityResyncRequired (m : string)
| FullRebuildRequired (m : string).

#[export] Instance server_error_eq_dec : EqDecision ServerError.
Proof. solve_decision. Defined.

(** [Display for ServerError]. *)
Definition server_error_display (e : ServerError) : string :=
  match e with
  | Coded _ _ m => m
  | Internal m => "Internal error: " +:+ m
  | Authentication m => "Authentication error: " +:+ m
  | Authorization m => "Authorization error: " +:+ m
  | Validation m => "Validation error: " +:+ m
  | UserNotFound m => "User not found: " +:+ m
  | ChannelNotFound m => "Channel not found: " +:+ m
  | MessageNotFound m => "Message not found: " +:+ m
  | NotInChannel m => "Not in channel: " +:+ m
  | Database m => "Database error: " +:+ m
  | Network m => "Network error: " +:+ m
  | Serialization m => "Serialization error: " +:+ m
  | Configuration m => "Configuration error: " +:+ m
  | Cache m => "Cache error: " +:+ m
  | RateLimit m => "Rate limit error: " +:+ m
  | ResourceExhausted m => "Resource exhausted: " +:+ m
  | Timeout m => "Timeout error: " +:+ m
  | Unsupported m => "Unsupported operation: " +:+ m
  | InvalidRequest m => "Invalid request: " +:+ m
  | Duplicate m => "Duplicate operation: " +:+ m
  | PermissionDenied m => "Permission denied: " +:+ m
  | ServiceUnavailable m => "Service unavailable: " +:+ m
  | VersionMismatch m => "Version mismatch: " +:+ m
  | Unknown m => "Unknown error: " +:+ m
  | InvalidToken => "Invalid token"
  | TokenExpired => "Token expired"
  | TokenRevoked => "Token revoked"
  | Unauthorized m => "Unauthorized: " +:+ m
  | Protocol m => "Protocol error: " +:+ m
  | BadRequest m => "Bad request: " +:+ m
  | NotFound m => "Not found: " +:+ m
  | Forbidden m => "Forbidden: " +:+ m
  | InvalidDeviceId => "Invalid device ID"
  | InvalidDeviceType => "Invalid device type"
  | DuplicateEntry m => "Duplicate entry: " +:+ m
  | PushTokenInvalid m => "Push token invalid: " +:+ m
  | ChannelResyncRequired m => "Channel resync required: " +:+ m
  | EntityResyncRequired m => "Entity resync required: " +:+ m
  | FullRebuildRequired m => "Full rebuild required: " +:+ m
  end.

(** ** Errors of the RPC layer

    [RpcError] of src/src/rpc/error.rs: the protocol error code by name, and the
    text. *)
Record RpcError := mkRpcError { re_code : string; re_message : string }.
Definition rpc_validation (m : string) := mkRpcError "InvalidParams" m.
Definition rpc_unauthorized (m : string) := mkRpcError "AuthRequired" m.
Definition rpc_forbidden (m : string) := mkRpcError "PermissionDenied" m.
Definition rpc_not_found (m : string) := mkRpcError "ResourceNotFound" m.
Definition rpc_internal (m : string) := mkRpcError "InternalError" m.

(** [From<ServerError> for RpcError]. *)
Definition rpc_from (e : ServerError) : RpcError :=
  match e with
  | Validation m => rpc_validation m
  | Authentication m | Unauthorized m => rpc_unauthorized m
  | Authorization m | PermissionDenied m => rpc_forbidden m
  | UserNotFound m => mkRpcError "UserNotFound" m
  | NotFound m => rpc_not_found m
  | MessageNotFound m => mkRpcError "MessageNotFound" m
  | ChannelNotFound m => mkRpcError "ChannelNotFound" m
  | ChannelResyncRequired m => mkRpcError "SyncChannelResyncRequired" m
  | EntityResyncRequired m => mkRpcError "SyncEntityResyncRequired" m
  | FullRebuildRequired m => mkRpcError "SyncFullRebuildRequired" m
  | ServiceUnavailable m => mkRpcError "ServiceUnavailable" m
  | _ => rpc_internal (server_error_display e)
  end.

(** ** Database statements that can fail

    An operation of the source is a sequence of statements, each of which can
    fail with a message of the driver. [db i = Some e] says that the [i]-th
    statement of the operation fails with [e]. *)
Definition faults := nat -> option string.
Definition no_faults : faults := fun _ => None.

(** [stmt.await.map_err(|e| Database(format!(prefix, e)))?]. *)
Notation "'exec?' db i 'else' prefix 'in' k" :=
  (match db i with Some e => Err (Database (String.append prefix e)) | None => k end)
  (at level 10, db at level 9, i at level 9, prefix at level 100, k at level 200)
  : privchat_scope.

(** [stmt] takes one statement or [?] off a computation that is known to have
    succeeded. *)
Ltac stmt :=
  match goal with
  | H : match ?db ?i with Some _ => Err _ | None => _ end = Ok _ |- _ =>
      destruct (db i) eqn:?; [discriminate H|]
  | H : match ?r with Ok _ => _ | Err _ => Err _ end = Ok _ |- _ =>
      destruct r eqn:?; [|discriminate H]
  end.

(** ** Decimal text of a [u64] *)
Definition digit_ascii (d : Z) : Ascii.ascii := Ascii.ascii_of_nat (48 + Z.to_nat d).
Definition ascii_digit (c : Ascii.ascii) : option Z :=
  let n := Z.of_nat (Ascii.nat_of_ascii c) in
  if (48 <=? n) && (n <=? 57) then Some (n - 48) else None.

(** [u64::to_string]: at most 20 digits are needed. *)
Fixpoint u64_digits (fuel : nat) (z : Z) (acc : string) : string :=
  let acc' := String (digit_ascii (z mod 10)) acc in
  match fuel with
  | O => acc'
  | S f => if z / 10 =? 0 then acc' else u64_digits f (z / 10) acc'
  end.
Definition u64_to_string (z : Z) : string := u64_digits 19 z "".

(** [str::parse::<u64>]: an optional plus sign, then decimal digits whose value
    fits; the empty string and a lone sign are errors. *)
Fixpoint parse_digits (s : string) (acc : Z) : option Z :=
  match s with
  | EmptyString => Some acc
  | String c s' =>
      d ← ascii_digit c;
      let acc' := acc * 10 + d in
      if acc' <=? u64_max then parse_digits s' acc' else None
  end.
Definition parse_u64 (s : string) : option Z :=
  match s with
  | EmptyString => None
  | String c s' =>
      if decide (c = "+"%char)
      then match s' with EmptyString => None | _ => parse_digits s' 0 end
      else parse_digits s 0
  end.

Lemma ascii_digit_ascii d : 0 <= d < 10 -> ascii_digit (digit_ascii d) = Some d.
Proof.
  intros Hd. assert (d ∈ [0;1;2;3;4;5;6;7;8;9]) as Hin.
  { rewrite !elem_of_cons. lia. }
  rewrite !elem_of_cons in Hin.
  destruct_or! Hin; try (subst; reflexivity). by apply elem_of_nil in Hin.
Qed.

Lemma parse_digits_step c s acc d :
  ascii_digit c = Some d -> acc * 10 + d <= u64_max ->
  parse_digits (String c s) acc = parse_digits s (acc * 10 + d).
Proof.
  intros Hc Hm. simpl. rewrite Hc. cbn.
  destruct (Z.leb_spec (acc * 10 + d) u64_max); [done|lia].
Qed.

Lemma parse_u64_digits fuel z acc :
  0 <= z < 10 ^ (Z.of_nat fuel + 1) -> z <= u64_max ->
  parse_digits (u64_digits fuel z acc) 0 = parse_digits acc z.
Proof.
  revert z acc. induction fuel as [|f IH]; intros z acc Hz Hm; cbn [u64_digits].
  - change (10 ^ (Z.of_nat 0 + 1)) with 10 in Hz.
    rewrite (parse_digits_step _ _ _ z); [f_equal; lia| |lia].
    rewrite Z.mod_small by lia. by apply ascii_digit_ascii.
  - pose proof (Z.mod_pos_bound z 10 ltac:(lia)) as Hmod.
    pose proof (Z.div_mod z 10 ltac:(lia)) as Hdm.
    pose proof (ascii_digit_ascii _ Hmod) as Hda.
    destruct (Z.eqb_spec (z / 10) 0) as [Hq|Hq].
    + rewrite (parse_digits_step _ _ _ _ Hda) by lia. f_equal. lia.
    + replace (Z.of_nat (S f) + 1) with (Z.succ (Z.of_nat f + 1)) in Hz by lia.
      rewrite Z.pow_succ_r in Hz by lia.
      rewrite IH, (parse_digits_step _ _ _ _ Hda) by lia. f_equal. lia.
Qed.

Lemma u64_digits_head fuel z acc :
  exists d s, 0 <= d < 10 /\ u64_digits fuel z acc = String (digit_ascii d) s.
Proof.
  revert z acc. induction fuel as [|f IH]; intros z acc; simpl.
  - exists (z mod 10), acc. split; [apply Z.mod_pos_bound; lia|done].
  - destruct (z / 10 =? 0); [|apply IH].
    exists (z mod 10), acc. split; [apply Z.mod_pos_bound; lia|done].
Qed.

(** Printing a [u64] and parsing it back gives the number. *)
(** [Display for i64]. *)
Definition i64_to_string (z : Z) : string :=
  if z <? 0 then "-" +:+ u64_to_string (- z) else u64_to_string z.

Lemma parse_u64_to_string z : is_u64 z -> parse_u64 (u64_to_string z) = Some z.
Proof.
  intros Hz. unfold u64_to_string.
  destruct (u64_digits_head 19 z "") as (d & s & Hd & Heq).
  assert (parse_digits (u64_digits 19 z "") 0 = Some z) as Hp.
  { rewrite parse_u64_digits; [done| |]; unfold is_u64, u64_max in *; simpl; lia. }
  rewrite Heq in Hp |- *. unfold parse_u64.
  destruct (decide (digit_ascii d = "+"%char)) as [Hplus|]; [|done].
  apply (f_equal ascii_digit) in Hplus. rewrite ascii_digit_ascii in Hplus by done. done.
Qed.

(** [s.trim().is_empty()] on the UTF-8 bytes of a string: every character has
    the Unicode property White_Space. *)
Definition byte_in (lo hi : nat) (c : Ascii.ascii) : bool :=
  let n := Ascii.nat_of_ascii c in Nat.leb lo n && Nat.leb n hi.
Fixpoint trim_is_empty (s : string) : bool :=
  match s with
  | EmptyString => true
  | String a r =>
      if byte_in 9 13 a || byte_in 32 32 a then trim_is_empty r else
      match r with
      | String b r2 =>
          if byte_in 194 194 a && (byte_in 133 133 b || byte_in 160 160 b) then trim_is_empty r2
          else match r2 with
               | String c r3 =>
                   if (byte_in 225 225 a && byte_in 154 154 b && byte_in 128 128 c)
                      || (byte_in 226 226 a && byte_in 128 128 b &&
                          (byte_in 128 138 c || byte_in 168 169 c || byte_in 175 175 c))
                      || (byte_in 226 226 a && byte_in 129 129 b && byte_in 159 159 c)
                      || (byte_in 227 227 a && byte_in 128 128 b && byte_in 128 128 c)
                   then trim_is_empty r3 else false
               | EmptyString => false
               end
      | EmptyString => false
      end
  end.

(** [str::trim]: drop leading and trailing White_Space characters. *)
Fixpoint trim_start (s : string) : string :=
  match s with
  | EmptyString => s
  | String a r =>
      if byte_in 9 13 a || byte_in 32 32 a then trim_start r else
      match r with
      | String b r2 =>
          if byte_in 194 194 a && (byte_in 133 133 b || byte_in 160 160 b) then trim_start r2
          else match r2 with
               | String c r3 =>
                   if (byte_in 225 225 a && byte_in 154 154 b && byte_in 128 128 c)
                      || (byte_in 226 226 a && byte_in 128 128 b &&
                          (byte_in 128 138 c || byte_in 168 169 c || byte_in 175 175 c))
                      || (byte_in 226 226 a && byte_in 129 129 b && byte_in 159 159 c)
                      || (byte_in 227 227 a && byte_in 128 128 b && byte_in 128 128 c)
                   then trim_start r3 else s
               | EmptyString => s
               end
      | EmptyString => s
      end
  end.
Fixpoint trim_end (s : string) : string :=
  if trim_is_empty s then EmptyString
  else match s with EmptyString => s | String c r => String c (trim_end r) end.
Definition trim (s : string) : string := trim_end (trim_start s).

(** [str::to_ascii_lowercase]. *)
Fixpoint to_ascii_lowercase (s : string) : string :=
  match s with
  | EmptyString => s
  | String c r =>
      String (if byte_in 65 90 c then Ascii.ascii_of_nat (Ascii.nat_of_ascii c + 32) else c)
        (to_ascii_lowercase r)
  end.

(** [str::to_lowercase] as far as a comparison with an ASCII text can tell: the one
    character beyond ASCII whose lower case is an ASCII text is the Kelvin sign
    (bytes E2 84 AA), which becomes [k]. *)
Fixpoint lowercase_keyword (s : string) : string :=
  match s with
  | String "226"%char (String "132"%char (String "170"%char r)) => String "k"%char (lowercase_keyword r)
  | String c r => to_ascii_lowercase (String c "") +:+ lowercase_keyword r
  | "" => ""
  end.

(** [str::split_once] on one character and [str::strip_suffix]. *)
Fixpoint split_once (c : Ascii.ascii) (s : string) : option (string * string) :=
  match s with
  | EmptyString => None
  | String a r =>
      if decide (a = c) then Some (EmptyString, r)
      else p ← split_once c r; Some (String a p.1, p.2)
  end.
Fixpoint strip_suffix (suffix s : string) : option string :=
  if decide (s = suffix) then Some EmptyString
  else match s with
       | EmptyString => None
       | String a r => String a <$> strip_suffix suffix r
       end.

Fixpoint string_all (P : Ascii.ascii -> bool) (s : string) : bool :=
  match s with EmptyString => true | String a r => P a && string_all P r end.

Definition is_digit (a : Ascii.ascii) : bool := byte_in 48 57 a.
(** [u8::is_ascii_hexdigit]. *)
Definition is_ascii_hexdigit (a : Ascii.ascii) : bool :=
  byte_in 48 57 a || byte_in 65 70 a || byte_in 97 102 a.

Lemma is_digit_ascii d : 0 <= d < 10 -> is_digit (digit_ascii d) = true.
Proof.
  intros Hd. assert (d ∈ [0;1;2;3;4;5;6;7;8;9]) as Hin.
  { rewrite !elem_of_cons. lia. }
  rewrite !elem_of_cons in Hin.
  destruct_or! Hin; try (subst; reflexivity). by apply elem_of_nil in Hin.
Qed.

Lemma u64_digits_all fuel z acc :
  string_all is_digit acc = true -> string_all is_digit (u64_digits fuel z acc) = true.
Proof.
  assert (forall z acc, string_all is_digit acc = true ->
            string_all is_digit (String (digit_ascii (z mod 10)) acc) = true) as Hd.
  { intros z' acc' H. cbn [string_all]. rewrite is_digit_ascii by (apply Z.mod_pos_bound; lia). exact H. }
  revert z acc. induction fuel as [|f IH]; intros z acc H; cbn [u64_digits]; [by apply Hd|].
  destruct (z / 10 =? 0); [by apply Hd|]. by apply IH, Hd.
Qed.

Lemma u64_to_string_digits z : string_all is_digit (u64_to_string z) = true.
Proof. by apply u64_digits_all. Qed.

Lemma split_once_app c s r :
  string_all (fun a => bool_decide (a <> c)) s = true ->
  split_once c (s +:+ String c r) = Some (s, r).
Proof.
  induction s as [|a s IH]; simpl; intros H; [by rewrite decide_True|].
  apply andb_true_iff in H as [Ha Hs]. apply bool_decide_eq_true in Ha.
  rewrite decide_False by done. by rewrite IH.
Qed.

Lemma string_length_app s t : String.length (s +:+ t) = (String.length s + String.length t)%nat.
Proof. induction s; simpl; auto. Qed.

Lemma strip_suffix_unfold suffix s :
  strip_suffix suffix s =
  if decide (s = suffix) then Some EmptyString
  else match s with EmptyString => None | String a r => String a <$> strip_suffix suffix r end.
Proof. by destruct s. Qed.

Lemma strip_suffix_app suffix s : strip_suffix suffix (s +:+ suffix) = Some s.
Proof.
  induction s as [|a s IH]; rewrite strip_suffix_unfold; [by rewrite decide_True|].
  rewrite decide_False; [simpl; by rewrite IH|].
  intros H. apply (f_equal String.length) in H. simpl in H. rewrite string_length_app in H. lia.
Qed.

Lemma strip_suffix_Some suffix s p : strip_suffix suffix s = Some p -> s = p +:+ suffix.
Proof.
  revert p. induction s as [|a s IH]; intros p; simpl.
  - destruct (decide _) as [<-|]; [by intros [= <-]|done].
  - destruct (decide _) as [<-|]; [by intros [= <-]|].
    destruct (strip_suffix suffix s) as [q|]; simpl; [|done]. intros [= <-].
    by rewrite (IH q eq_refl) at 1.
Qed.

Lemma string_all_impl (P Q : Ascii.ascii -> bool) s :
  (forall a, P a = true -> Q a = true) -> string_all P s = true -> string_all Q s = true.
Proof.
  intros HPQ. induction s as [|a s IH]; simpl; [done|].
  intros [Ha Hs]%andb_true_iff. by rewrite HPQ, IH.
Qed.
