(* ===== verification/Pts.v ===== *)
(** * Per-channel sequence numbers and the structures indexed by them

    Models [src/model/pts.rs]: the generator of per-channel pts, the device
    synchronisation record, the per-user message index and the unread counters.
    The [Arc<RwLock<..>>] and [AtomicU64] wrappers make each method one atomic
    step on the state; the state is passed explicitly. *)

From stdpp Require Import base numbers gmap list sorting strings.
From S2P Require Import Prelude.
Local Open Scope Z_scope.

(** ** [PtsGenerator] *)
Module PtsGenerator.

(** [counters : channel_id -> AtomicU64]. *)
Record PtsGenerator := mkPtsGenerator { counters : gmap Z Z }.

Definition pts_new : PtsGenerator := mkPtsGenerator ∅.

(** [counters.entry(channel_id).or_insert_with(|| AtomicU64::new(0))]. *)
Definition entry_counter (g : PtsGenerator) (channel_id : Z) : Z :=
  default 0 (counters g !! channel_id).

(** [fetch_add(1) + 1]: the counter and the returned value both wrap. *)
Definition next_pts (g : PtsGenerator) (channel_id : Z) : Z * PtsGenerator :=
  let old := entry_counter g channel_id in
  (u64_add old 1, mkPtsGenerator (<[channel_id := u64_add old 1]> (counters g))).

Definition allocate_range (g : PtsGenerator) (channel_id count : Z) : Z * PtsGenerator :=
  if count =? 0 then (0, g)
  else
    let old := entry_counter g channel_id in
    (u64_add old 1, mkPtsGenerator (<[channel_id := u64_add old count]> (counters g))).

Definition current_pts (g : PtsGenerator) (channel_id : Z) : Z :=
  default 0 (counters g !! channel_id).

Definition set_pts (g : PtsGenerator) (channel_id pts : Z) : PtsGenerator :=
  mkPtsGenerator (<[channel_id := pts]> (counters g)).

(** The restored entries replace those of the same key. *)
Definition init_from_db (g : PtsGenerator) (channel_pts_map : gmap Z Z) : PtsGenerator :=
  mkPtsGenerator (channel_pts_map ∪ counters g).

(** *** Interleavings of allocations

    The concurrent callers of [next_pts] and [allocate_range] take the write
    lock, so an execution is a sequence of such calls. [run] collects, call by
    call, the channel and the pts the caller owns afterwards:
    [[returned, returned + count - 1]]. *)
Inductive alloc_op :=
| NextPts (channel_id : Z)
| AllocateRange (channel_id count : Z).

Definition op_channel (op : alloc_op) : Z :=
  match op with NextPts c | AllocateRange c _ => c end.

Definition op_demand (op : alloc_op) : Z :=
  match op with NextPts _ => 1 | AllocateRange _ n => n end.

Definition run_op (g : PtsGenerator) (op : alloc_op) : list Z * PtsGenerator :=
  match op with
  | NextPts c => let '(p, g') := next_pts g c in ([p], g')
  | AllocateRange c n => let '(p, g') := allocate_range g c n in (seqZ p n, g')
  end.

Fixpoint run (g : PtsGenerator) (ops : list alloc_op) : list (Z * list Z) * PtsGenerator :=
  match ops with
  | [] => ([], g)
  | op :: rest =>
      let '(ps, g1) := run_op g op in
      let '(tr, g2) := run g1 rest in ((op_channel op, ps) :: tr, g2)
  end.

(** The pts handed out on channel [c], in the order of the calls. *)
Definition issued_on (c : Z) (tr : list (Z * list Z)) : list Z :=
  tr ≫= (fun '(c', ps) => if decide (c' = c) then ps else []).

(** How many pts the calls ask for on channel [c]. *)
Fixpoint demand (c : Z) (ops : list alloc_op) : Z :=
  match ops with
  | [] => 0
  | op :: rest => (if decide (op_channel op = c) then op_demand op else 0) + demand c rest
  end.

Definition op_wf (op : alloc_op) : Prop := 0 <= op_demand op.

#[export] Instance op_wf_dec op : Decision (op_wf op).
Proof. unfold op_wf. apply _. Defined.

(** *** Lemmas *)
Lemma seqZ_app_eq m n1 n2 :
  0 <= n1 -> 0 <= n2 -> seqZ m (n1 + n2) = seqZ m n1 ++ seqZ (m + n1) n2.
Proof. intros. by apply seqZ_app. Qed.

Lemma demand_nonneg c ops : Forall op_wf ops -> 0 <= demand c ops.
Proof. induction 1 as [|op ops Hop _ IH]; simpl; unfold op_wf in *; [lia|case_decide; lia]. Qed.

Lemma run_op_other g op c :
  op_channel op <> c -> current_pts (run_op g op).2 c = current_pts g c.
Proof.
  intros Hne. destruct op as [c'|c' n]; simpl in *; unfold current_pts, allocate_range.
  - simpl. by rewrite lookup_insert_ne.
  - destruct (n =? 0); simpl; [done|by rewrite lookup_insert_ne].
Qed.

Lemma run_op_self g op :
  op_wf op -> 0 <= current_pts g (op_channel op) ->
  current_pts g (op_channel op) + op_demand op < 2 ^ 64 ->
  (run_op g op).1 = seqZ (current_pts g (op_channel op) + 1) (op_demand op) /\
  current_pts (run_op g op).2 (op_channel op) = current_pts g (op_channel op) + op_demand op.
Proof.
  unfold op_wf, current_pts.
  destruct op as [c|c n]; simpl; intros Hwf Hcur Hlt; unfold allocate_range, entry_counter.
  - rewrite lookup_insert_eq. simpl. rewrite u64_add_small by lia. done.
  - destruct (Z.eqb_spec n 0) as [->|]; simpl; [split; [done|lia]|].
    rewrite lookup_insert_eq. simpl. rewrite !u64_add_small by lia. done.
Qed.

Lemma run_contiguous ops : forall g c,
  Forall op_wf ops -> 0 <= current_pts g c -> current_pts g c + demand c ops < 2 ^ 64 ->
  issued_on c (run g ops).1 = seqZ (current_pts g c + 1) (demand c ops) /\
  current_pts (run g ops).2 c = current_pts g c + demand c ops.
Proof.
  induction ops as [|op ops IH]; intros g c Hwf Hcur Hlt; simpl.
  { rewrite Z.add_0_r. done. }
  apply Forall_cons in Hwf as [Hop Hops]. simpl in Hlt.
  pose proof (demand_nonneg c ops Hops) as Hnn.
  pose proof (run_op_self g op Hop) as Hself. pose proof (run_op_other g op c) as Hother.
  destruct (run_op g op) as [ps g1]; simpl in *.
  specialize (IH g1 c Hops). destruct (run g1 ops) as [tr g2]; simpl in *.
  destruct (decide (op_channel op = c)) as [<-|Hne].
  - unfold op_wf in Hop. destruct Hself as [-> Hg1]; [lia..|].
    destruct IH as [IH1 IH2]; [lia..|]. rewrite Hg1 in IH1, IH2.
    unfold issued_on in *. rewrite IH1. split; [|lia].
    rewrite seqZ_app_eq by lia. do 2 f_equal. lia.
  - rewrite Hother in IH by done. destruct IH as [IH1 IH2]; [lia..|].
    split; [by unfold issued_on in *; simpl|lia].
Qed.

Lemma run_fresh_issued ops c :
  Forall op_wf ops -> demand c ops < 2 ^ 64 ->
  issued_on c (run pts_new ops).1 = seqZ 1 (demand c ops) /\
  current_pts (run pts_new ops).2 c = demand c ops.
Proof.
  intros Hwf Hlt.
  assert (current_pts pts_new c = 0) as H0.
  { unfold current_pts, pts_new. simpl. by rewrite lookup_empty. }
  destruct (run_contiguous ops pts_new c) as [H1 H2]; rewrite ?H0 in *; [done|lia..|].
  split; [rewrite H1; f_equal; lia|lia].
Qed.

End PtsGenerator.
Import PtsGenerator.

(** Gap-free allocation. In every interleaving of [next_pts] and
    [allocate_range] calls over any channels, the pts handed out on a channel
    are, in call order, exactly the consecutive numbers after the channel's
    current pts: nothing is skipped, nothing is issued twice and traffic on
    other channels does not show. The counter ends at the last one issued. *)
Theorem pts_gap_free ops g c :
  Forall op_wf ops -> 0 <= current_pts g c -> current_pts g c + demand c ops < 2 ^ 64 ->
  issued_on c (run g ops).1 = seqZ (current_pts g c + 1) (demand c ops) /\
  current_pts (run g ops).2 c = current_pts g c + demand c ops.
Proof. apply run_contiguous. Qed.

Definition example_ops : list alloc_op :=
  [NextPts 7; AllocateRange 9 4; AllocateRange 7 3; NextPts 9; NextPts 7].

Lemma pts_gap_free_witness :
  issued_on 7 (run (set_pts pts_new 7 10) example_ops).1 = [11; 12; 13; 14; 15].
Proof.
  refine (eq_trans (proj1 (pts_gap_free example_ops (set_pts pts_new 7 10) 7 _ _ _)) _).
  - apply (bool_decide_unpack _). vm_compute. exact I.
  - vm_compute. discriminate.
  - vm_compute. reflexivity.
  - vm_compute. reflexivity.
Defined.

(** ** [DeviceSyncState] *)
Module DeviceSync.

Record DeviceSyncState := mkDeviceSyncState {
  user_id : string;
  device_id : string;
  local_pts : Z;
  server_pts : Z;
  gap : Z;
  last_sync_time : Z;
  last_online_time : Z
}.

(** [new] reads the clock once. *)
Definition device_sync_new (now : Z) (uid did : string) (local : Z) : DeviceSyncState :=
  mkDeviceSyncState uid did local 0 0 now now.

Definition calculate_gap (s : DeviceSyncState) : Z :=
  saturating_sub (server_pts s) (local_pts s).

Definition device_sync_update (now : Z) (s : DeviceSyncState) (server : Z) : DeviceSyncState :=
  mkDeviceSyncState (user_id s) (device_id s) (local_pts s) server
    (saturating_sub server (local_pts s)) now (last_online_time s).

End DeviceSync.

(** ** [UserMessageIndex] *)
Module UserMessageIndex.

(** [user_id -> (pts -> message_id)]. *)
Record UserMessageIndex := mkIndex { index : gmap Z (gmap Z Z) }.

Definition index_new : UserMessageIndex := mkIndex ∅.

Definition user_index (ix : UserMessageIndex) (user_id : Z) : gmap Z Z :=
  default ∅ (index ix !! user_id).

Definition add_message (ix : UserMessageIndex) (user_id pts message_id : Z) : UserMessageIndex :=
  mkIndex (<[user_id := <[pts := message_id]> (user_index ix user_id)]> (index ix)).

(** The loop over [from_pts..=to_pts]. *)
Definition get_message_ids (ix : UserMessageIndex) (user_id from_pts to_pts : Z) : list Z :=
  match index ix !! user_id with
  | Some m => omap (fun pts => m !! pts) (seqZ from_pts (to_pts - from_pts + 1))
  | None => []
  end.

(** The map is iterated in an unspecified order; the model uses the order of
    [map_to_list], and the theorems below are insensitive to it. *)
Definition get_message_ids_above (ix : UserMessageIndex) (user_id min_pts : Z) : list Z :=
  match index ix !! user_id with
  | Some m => omap (fun '(pts, mid) => if min_pts <? pts then Some mid else None) (map_to_list m)
  | None => []
  end.

Definition get_message_ids_with_pts_above
    (ix : UserMessageIndex) (user_id min_pts : Z) : gmap Z Z :=
  match index ix !! user_id with
  | Some m =>
      foldl (fun acc '(pts, mid) => if min_pts <? pts then <[mid := pts]> acc else acc)
        ∅ (map_to_list m)
  | None => ∅
  end.

(** [user_index.keys().copied().collect()] followed by [sort_unstable]. *)
Definition sorted_pts (m : gmap Z Z) : list Z := merge_sort Z.le (map_to_list m).*1.

Definition cleanup (ix : UserMessageIndex) (user_id : Z) (keep_latest : nat) : UserMessageIndex :=
  match index ix !! user_id with
  | Some m =>
      if decide (keep_latest < size m)%nat then
        let pts_list := sorted_pts m in
        let remove_count := (length pts_list - keep_latest)%nat in
        mkIndex (<[user_id := foldl (fun acc pts => delete pts acc) m
                                (take remove_count pts_list)]> (index ix))
      else ix
  | None => ix
  end.

(** *** Lemmas *)
Lemma foldl_delete_lookup (l : list Z) : forall (m : gmap Z Z) k,
  foldl (fun acc p => delete p acc) m l !! k = if decide (k ∈ l) then None else m !! k.
Proof.
  induction l as [|p l IH]; intros m k; cbn [foldl].
  { done. }
  rewrite IH, lookup_delete. repeat case_decide; set_solver.
Qed.

Lemma sorted_pts_elem (m : gmap Z Z) p : p ∈ sorted_pts m <-> is_Some (m !! p).
Proof.
  unfold sorted_pts. rewrite (merge_sort_Permutation Z.le).
  rewrite list_elem_of_fmap. split.
  - intros ([k v] & -> & Hin). apply elem_of_map_to_list in Hin. eauto.
  - intros [v Hv]. exists (p, v). split; [done|]. by apply elem_of_map_to_list.
Qed.

Lemma sorted_pts_NoDup (m : gmap Z Z) : NoDup (sorted_pts m).
Proof. unfold sorted_pts. rewrite (merge_sort_Permutation Z.le). apply NoDup_fst_map_to_list. Qed.

Lemma sorted_pts_length (m : gmap Z Z) : length (sorted_pts m) = size m.
Proof.
  unfold sorted_pts. rewrite (merge_sort_Permutation Z.le), length_fmap.
  apply length_map_to_list.
Qed.

Lemma sorted_pts_split (m : gmap Z Z) n p q :
  p ∈ take n (sorted_pts m) -> q ∈ drop n (sorted_pts m) -> p < q.
Proof.
  intros Hp Hq.
  pose proof (StronglySorted_merge_sort Z.le (map_to_list m).*1) as Hs.
  pose proof (sorted_pts_NoDup m) as Hnd. fold (sorted_pts m) in Hs.
  rewrite <- (take_drop n (sorted_pts m)) in Hs, Hnd.
  assert (p <= q) by by eapply StronglySorted_app_1_elem_of.
  apply NoDup_app in Hnd as (_ & Hdisj & _).
  assert (p <> q) by (intros ->; by eapply Hdisj). lia.
Qed.

(** What [cleanup] leaves of a user's map: the entries outside the oldest prefix. *)
Definition keep_after (m : gmap Z Z) (n : nat) : gmap Z Z :=
  foldl (fun acc pts => delete pts acc) m (take n (sorted_pts m)).

Lemma keep_after_lookup m n p :
  keep_after m n !! p = if decide (p ∈ take n (sorted_pts m)) then None else m !! p.
Proof. apply foldl_delete_lookup. Qed.

Lemma keep_after_is_Some m n p :
  is_Some (keep_after m n !! p) <-> p ∈ drop n (sorted_pts m).
Proof.
  rewrite keep_after_lookup.
  pose proof (sorted_pts_elem m p) as He. pose proof (sorted_pts_NoDup m) as Hnd.
  rewrite <- (take_drop n (sorted_pts m)) in He, Hnd.
  rewrite elem_of_app in He. apply NoDup_app in Hnd as (_ & Hdisj & _).
  case_decide as Hin; [|naive_solver].
  split; [by intros []|]. intros Hd. destruct (Hdisj p); done.
Qed.

Lemma keep_after_size m n : size (keep_after m n) = (size m - n)%nat.
Proof.
  rewrite <- (sorted_pts_length m), <- length_drop.
  assert (dom (keep_after m n) = list_to_set (C := gset Z) (drop n (sorted_pts m))) as Hdom.
  { apply set_eq. intros p. by rewrite elem_of_dom, elem_of_list_to_set, keep_after_is_Some. }
  rewrite <- size_dom, Hdom. apply size_list_to_set.
  pose proof (sorted_pts_NoDup m) as Hnd.
  rewrite <- (take_drop n (sorted_pts m)) in Hnd. by apply NoDup_app in Hnd as (_ & _ & ?).
Qed.

Lemma cleanup_user_index ix u n m :
  index ix !! u = Some m ->
  user_index (cleanup ix u n) u = keep_after m (size m - n).
Proof.
  intros Hm. unfold cleanup, user_index. rewrite Hm.
  destruct (decide (n < size m)%nat).
  - cbn [index]. rewrite lookup_insert_eq. cbn [default]. unfold keep_after.
    by rewrite sorted_pts_length.
  - rewrite Hm. replace (size m - n)%nat with 0%nat by lia. done.
Qed.

(** The entries of [m] with pts in [from..=to], in pts order, and the entries
    with pts above a bound, as pairs: both queries are their second projections. *)
Definition entries_between (m : gmap Z Z) (from to : Z) : list (Z * Z) :=
  omap (fun p => pair p <$> m !! p) (seqZ from (to - from + 1)).

Definition entries_above (m : gmap Z Z) (min : Z) : list (Z * Z) :=
  filter (fun e => min < e.1) (map_to_list m).

Lemma entries_between_snd m from to :
  (entries_between m from to).*2 = omap (fun p => m !! p) (seqZ from (to - from + 1)).
Proof.
  unfold entries_between. induction (seqZ from (to - from + 1)) as [|p l IH]; [done|].
  simpl. destruct (m !! p); simpl; [f_equal|]; exact IH.
Qed.

Lemma entries_above_snd m min :
  (entries_above m min).*2 =
  omap (fun '(p, mid) => if min <? p then Some mid else None) (map_to_list m).
Proof.
  unfold entries_above. induction (map_to_list m) as [|[p v] l IH]; [done|].
  rewrite filter_cons. simpl. destruct (Z.ltb_spec min p).
  - rewrite decide_True by done. simpl. f_equal. exact IH.
  - rewrite decide_False by lia. exact IH.
Qed.

Lemma entries_between_elem m from to p v :
  (p, v) ∈ entries_between m from to <-> m !! p = Some v /\ from <= p <= to.
Proof.
  unfold entries_between. rewrite list_elem_of_omap. split.
  - intros (q & Hq & Hf). apply elem_of_seqZ in Hq.
    destruct (m !! q) eqn:E; simplify_eq/=. split; [done|lia].
  - intros [Hm Hr]. exists p. rewrite Hm. split; [apply elem_of_seqZ; lia|done].
Qed.

Lemma entries_between_NoDup m from to : NoDup (entries_between m from to).
Proof.
  unfold entries_between. pose proof (NoDup_seqZ from (to - from + 1)) as Hnd.
  induction Hnd as [|p l Hp Hnd IH]; simpl; [constructor|].
  destruct (m !! p) as [v|]; simpl; [|done]. constructor; [|done].
  rewrite list_elem_of_omap. intros (q & Hq & Hf).
  destruct (m !! q); simplify_eq/=. done.
Qed.

Lemma entries_agree m min to :
  map_Forall (fun p _ => p <= to) m ->
  entries_between m (min + 1) to ≡ₚ entries_above m min.
Proof.
  intros Hto. apply NoDup_Permutation.
  - apply entries_between_NoDup.
  - apply NoDup_filter, NoDup_map_to_list.
  - intros [p v]. rewrite entries_between_elem. unfold entries_above.
    rewrite list_elem_of_filter, elem_of_map_to_list. simpl.
    split; intros [? ?]; split; try done; try lia. split; [lia|].
    by eapply Hto.
Qed.

End UserMessageIndex.
Import UserMessageIndex.

(** [cleanup] keeps exactly the latest entries. After [cleanup user keep],
    the user's index is a sub-map of the old one with [min (old size) keep]
    entries, every dropped pts is smaller than every kept pts, and no other
    user's index changes. *)
Theorem cleanup_keeps_latest ix u n m :
  index ix !! u = Some m ->
  user_index (cleanup ix u n) u ⊆ m /\
  size (user_index (cleanup ix u n) u) = Nat.min (size m) n /\
  (forall p q, is_Some (user_index (cleanup ix u n) u !! p) -> is_Some (m !! q) ->
     user_index (cleanup ix u n) u !! q = None -> q < p) /\
  (forall u', u' <> u -> index (cleanup ix u n) !! u' = index ix !! u').
Proof.
  intros Hm. rewrite (cleanup_user_index ix u n m Hm). split_and!.
  - apply map_subseteq_spec. intros p v. rewrite keep_after_lookup. by case_decide.
  - rewrite keep_after_size. lia.
  - intros p q Hp%keep_after_is_Some Hq. rewrite keep_after_lookup.
    case_decide as Hin; [|intros Hn; rewrite Hn in Hq; by destruct Hq].
    intros _. by eapply sorted_pts_split.
  - intros u' Hne. unfold cleanup. rewrite Hm. case_decide; simpl; by rewrite ?lookup_insert_ne.
Qed.

Definition example_index : UserMessageIndex :=
  add_message (add_message (add_message index_new 1 30 300) 1 10 100) 1 20 200.

Lemma cleanup_keeps_latest_witness :
  user_index (cleanup example_index 1 2) 1 ⊆ user_index example_index 1 /\
  cleanup example_index 1 2 = mkIndex {[1 := {[20 := 200; 30 := 300]}]}.
Proof.
  split.
  - refine (proj1 (cleanup_keeps_latest example_index 1 2 (user_index example_index 1) _)).
    vm_compute. reflexivity.
  - vm_compute. reflexivity.
Defined.

(** The two delta queries agree. Once [to] bounds the user's pts, reading
    the range [(min, to]] pts by pts and scanning the whole index for entries
    above [min] return the same messages (as a multiset: the scan has no
    specified order). *)
Theorem range_query_complete ix u min to :
  map_Forall (fun p _ => p <= to) (user_index ix u) ->
  get_message_ids ix u (min + 1) to ≡ₚ get_message_ids_above ix u min.
Proof.
  unfold user_index, get_message_ids, get_message_ids_above.
  destruct (index ix !! u) as [m|]; cbn [default]; intros Hto; [|done].
  rewrite <- entries_between_snd, <- entries_above_snd.
  by apply fmap_Permutation, entries_agree.
Qed.

Lemma range_query_complete_witness :
  get_message_ids example_index 1 11 30 ≡ₚ get_message_ids_above example_index 1 10.
Proof.
  refine (range_query_complete example_index 1 10 30 _).
  apply (bool_decide_unpack _). vm_compute. exact I.
Defined.

(** ** [UnreadCounter] *)
Module UnreadCounter.

(** [user_id -> (channel_id -> count)]. *)
Record UnreadCounter := mkUnread { unread : gmap Z (gmap Z Z) }.

Definition unread_new : UnreadCounter := mkUnread ∅.

Definition unread_get (uc : UnreadCounter) (user_id : Z) : gmap Z Z :=
  default ∅ (unread uc !! user_id).

Definition unread_increment (uc : UnreadCounter) (user_id channel_id count : Z) : UnreadCounter :=
  let user_counters := default ∅ (unread uc !! user_id) in
  let old := default 0 (user_counters !! channel_id) in
  mkUnread (<[user_id := <[channel_id := u64_add old count]> user_counters]> (unread uc)).

Definition unread_clear (uc : UnreadCounter) (user_id : Z) : UnreadCounter :=
  mkUnread (delete user_id (unread uc)).

Definition unread_clear_channel (uc : UnreadCounter) (user_id channel_id : Z) : UnreadCounter :=
  match unread uc !! user_id with
  | Some user_counters => mkUnread (<[user_id := delete channel_id user_counters]> (unread uc))
  | None => uc
  end.

Inductive unread_op :=
| UIncrement (user_id channel_id count : Z)
| UClear (user_id : Z)
| UClearChannel (user_id channel_id : Z).

Definition apply_unread (uc : UnreadCounter) (op : unread_op) : UnreadCounter :=
  match op with
  | UIncrement u c n => unread_increment uc u c n
  | UClear u => unread_clear uc u
  | UClearChannel u c => unread_clear_channel uc u c
  end.

(** What one (user, channel) cell shows: 0 when absent. *)
Definition unread_count (uc : UnreadCounter) (u c : Z) : Z :=
  default 0 (unread_get uc u !! c).

(** *** Specification: one independent counter per (user, channel) *)
Definition cell_step (u c n : Z) (op : unread_op) : Z :=
  match op with
  | UIncrement u' c' k => if decide (u' = u /\ c' = c) then u64_add n k else n
  | UClear u' => if decide (u' = u) then 0 else n
  | UClearChannel u' c' => if decide (u' = u /\ c' = c) then 0 else n
  end.

Definition unread_spec (ops : list unread_op) (u c : Z) : Z := foldl (cell_step u c) 0 ops.

Lemma apply_unread_cell uc op u c :
  unread_count (apply_unread uc op) u c = cell_step u c (unread_count uc u c) op.
Proof.
  unfold unread_count, unread_get.
  destruct op as [u' c' k|u'|u' c']; simpl; unfold unread_clear_channel.
  - destruct (decide (u' = u)) as [->|]; [|rewrite decide_False by naive_solver;
      by rewrite lookup_insert_ne].
    rewrite lookup_insert_eq. simpl.
    destruct (decide (c' = c)) as [->|]; [rewrite decide_True by done; by rewrite lookup_insert_eq|].
    rewrite decide_False by naive_solver. by rewrite lookup_insert_ne.
  - case_decide; subst; by rewrite ?lookup_delete_eq, ?lookup_delete_ne by done.
  - destruct (unread uc !! u') as [m|] eqn:E; simpl.
    + destruct (decide (u' = u)) as [->|]; [|rewrite decide_False by naive_solver;
        by rewrite lookup_insert_ne].
      rewrite lookup_insert_eq, E. simpl. rewrite lookup_delete.
      repeat case_decide; naive_solver.
    + case_decide as Hd; [|done]. destruct Hd as [-> ->]. rewrite E. simpl.
      by rewrite lookup_empty.
Qed.

End UnreadCounter.
Import UnreadCounter.

(** The nested unread maps implement independent per-(user, channel)
    counters: after any sequence of increments, per-channel clears and
    per-user clears, every cell shows the (wrapping) sum of its own increments
    since its last clear. *)
Theorem unread_refines_cells ops u c :
  unread_count (foldl apply_unread unread_new ops) u c = unread_spec ops u c.
Proof.
  unfold unread_spec.
  assert (unread_count unread_new u c = 0) as H0.
  { unfold unread_count, unread_get, unread_new. simpl. by rewrite lookup_empty. }
  transitivity (foldl (cell_step u c) (unread_count unread_new u c) ops); [|by rewrite H0].
  clear H0. generalize unread_new.
  induction ops as [|op ops IH]; intros uc; simpl; [done|].
  rewrite IH. f_equal. apply apply_unread_cell.
Qed.
