(* ===== verification/Delivery.v ===== *)
(** * Contiguous delivery watermark

    Models [src/service/delivery_tracker.rs]. The Redis hashes [dpts:{user}]
    are one finite map from (user, channel) to the watermark; the two Lua
    scripts run atomically on it and are written out as functions. Lua numbers
    are doubles: the model is exact for pts below 2^53, far above any pts the
    generator of [Pts.v] reaches. *)

From stdpp Require Import base numbers gmap list sorting.
From S2P Require Import Prelude Pts.
Import PtsGenerator.
Local Open Scope Z_scope.

Module DeliveryTracker.

Abbreviation watermarks := (gmap (Z * Z) Z).

(** What happens to a call on its way to Redis: it is answered, the connection
    cannot be established (or the script is refused), or the script ran and
    its reply was lost. *)
Inductive redis_link := Replied | ConnectFailed | ReplyLost.

(** [tonumber(redis.call('HGET', ..) or '0')]. *)
Definition hget (st : watermarks) (user_id channel_id : Z) : Z :=
  default 0 (st !! (user_id, channel_id)).

(** The script of [try_advance]: status code and new store. *)
Definition try_advance_script (st : watermarks) (user_id channel_id pts : Z) : Z * watermarks :=
  let current := hget st user_id channel_id in
  if pts =? current + 1 then (1, <[(user_id, channel_id) := pts]> st)
  else if pts <=? current then (2, st)
  else (0, st).

Definition try_advance (link : redis_link) (st : watermarks) (user_id channel_id pts : Z)
    : bool * watermarks :=
  match link with
  | ConnectFailed => (false, st)
  | ReplyLost => (false, (try_advance_script st user_id channel_id pts).2)
  | Replied =>
      let '(code, st') := try_advance_script st user_id channel_id pts in
      ((code =? 1) || (code =? 2), st')
  end.

(** The loop of the [batch_advance] script, with its [break]. *)
Fixpoint advance_loop (current : Z) (l : list Z) : Z :=
  match l with
  | [] => current
  | p :: rest =>
      if p =? current + 1 then advance_loop p rest
      else if current + 1 <? p then current
      else advance_loop current rest
  end.

Definition batch_advance_script (st : watermarks) (user_id channel_id : Z) (l : list Z)
    : Z * watermarks :=
  let current := advance_loop (hget st user_id channel_id) l in
  (current, <[(user_id, channel_id) := current]> st).

Definition get_delivered_pts (link : redis_link) (st : watermarks) (user_id channel_id : Z) : Z :=
  match link with
  | Replied => hget st user_id channel_id
  | ConnectFailed | ReplyLost => 0
  end.

Definition batch_advance (link : redis_link) (st : watermarks) (user_id channel_id : Z)
    (sorted_pts_list : list Z) : Z * watermarks :=
  match sorted_pts_list with
  | [] => (get_delivered_pts link st user_id channel_id, st)
  | _ =>
      match link with
      | ConnectFailed => (0, st)
      | ReplyLost => (0, (batch_advance_script st user_id channel_id sorted_pts_list).2)
      | Replied => batch_advance_script st user_id channel_id sorted_pts_list
      end
  end.

Definition force_set (link : redis_link) (st : watermarks) (user_id channel_id pts : Z) : watermarks :=
  match link with
  | ConnectFailed => st
  | Replied | ReplyLost => <[(user_id, channel_id) := pts]> st
  end.

(** *** Sequences of calls that write the watermark

    The server makes only the forced ones today: [ReadStateService] aligns the
    watermark with what a user has read, and nothing calls the two that advance. *)
Inductive advance_op :=
| TryAdvance (link : redis_link) (user_id channel_id pts : Z)
| BatchAdvance (link : redis_link) (user_id channel_id : Z) (l : list Z)
| ForceSet (link : redis_link) (user_id channel_id pts : Z).

Definition apply_advance (st : watermarks) (op : advance_op) : watermarks :=
  match op with
  | TryAdvance k u c p => (try_advance k st u c p).2
  | BatchAdvance k u c l => (batch_advance k st u c l).2
  | ForceSet k u c p => force_set k st u c p
  end.

(** The pts an operation presents for one (user, channel). *)
Definition presented (u c : Z) (op : advance_op) : list Z :=
  match op with
  | TryAdvance _ u' c' p => if decide (u' = u /\ c' = c) then [p] else []
  | BatchAdvance _ u' c' l => if decide (u' = u /\ c' = c) then l else []
  | ForceSet _ _ _ _ => []
  end.
(** It moves the watermark to [p] or beyond without regard to what is missing. *)
Definition forced (u c p : Z) (op : advance_op) : Prop :=
  match op with ForceSet k u' c' q => k <> ConnectFailed /\ u' = u /\ c' = c /\ p <= q | _ => False end.

(** *** Lemmas on the loop *)
Lemma advance_loop_ge l : forall cur, cur <= advance_loop cur l.
Proof.
  induction l as [|p l IH]; intros cur; simpl; [lia|].
  destruct (Z.eqb_spec p (cur + 1)); [specialize (IH p); lia|].
  destruct (cur + 1 <? p); [lia|apply IH].
Qed.

(** Everything the loop steps over is in the list: no sortedness needed. *)
Lemma advance_loop_covered l : forall cur p, cur < p <= advance_loop cur l -> p ∈ l.
Proof.
  induction l as [|q l IH]; intros cur p; simpl; [lia|].
  destruct (Z.eqb_spec q (cur + 1)) as [->|].
  - intros Hp. destruct (decide (p = cur + 1)) as [->|]; [left|]. right. apply (IH (cur + 1)). lia.
  - destruct (cur + 1 <? q); [lia|]. intros Hp. right. by eapply IH.
Qed.

Lemma advance_loop_maximal l : forall cur,
  StronglySorted Z.le l -> advance_loop cur l + 1 ∉ l.
Proof.
  induction l as [|q l IH]; intros cur Hs; cbn [advance_loop]; [set_solver|].
  apply StronglySorted_cons in Hs as [Hq Hs]. rewrite Forall_forall in Hq.
  destruct (Z.eqb_spec q (cur + 1)) as [->|].
  - rewrite not_elem_of_cons. pose proof (advance_loop_ge l (cur + 1)). split; [lia|by apply IH].
  - destruct (Z.ltb_spec (cur + 1) q).
    + rewrite not_elem_of_cons. split; [lia|]. intros Hin. specialize (Hq _ Hin). lia.
    + rewrite not_elem_of_cons. pose proof (advance_loop_ge l cur). split; [lia|by apply IH].
Qed.

Lemma hget_insert st u c n : hget (<[(u, c) := n]> st) u c = n.
Proof. unfold hget. by rewrite lookup_insert_eq. Qed.

Lemma hget_insert_ne st u c u' c' n :
  ~ (u' = u /\ c' = c) -> hget (<[(u', c') := n]> st) u c = hget st u c.
Proof. intros Hne. unfold hget. rewrite lookup_insert_ne; naive_solver. Qed.

Lemma try_script_hget st u c p :
  hget (try_advance_script st u c p).2 u c = advance_loop (hget st u c) [p].
Proof.
  unfold try_advance_script. cbn [advance_loop].
  destruct (Z.eqb_spec p (hget st u c + 1)) as [->|]; [cbn [snd]; by rewrite hget_insert|].
  destruct (Z.leb_spec p (hget st u c)), (Z.ltb_spec (hget st u c + 1) p); (lia || done).
Qed.

(** One loop over a sorted list is the fold of single-element loops. *)
Lemma advance_loop_beyond l : forall cur,
  Forall (fun p => cur + 1 < p) l -> foldl (fun n p => advance_loop n [p]) cur l = cur.
Proof.
  induction l as [|p l IH]; intros cur Hl; simpl; [done|].
  apply Forall_cons in Hl as [Hp Hl].
  destruct (Z.eqb_spec p (cur + 1)); [lia|]. destruct (Z.ltb_spec (cur + 1) p); [|lia]. by apply IH.
Qed.

Lemma advance_loop_foldl l : forall cur,
  StronglySorted Z.le l -> foldl (fun n p => advance_loop n [p]) cur l = advance_loop cur l.
Proof.
  induction l as [|p l IH]; intros cur Hs; [done|].
  apply StronglySorted_cons in Hs as [Hp Hs]. cbn [foldl advance_loop].
  destruct (Z.eqb_spec p (cur + 1)); [by apply IH|].
  destruct (Z.ltb_spec (cur + 1) p); [|by apply IH].
  apply advance_loop_beyond. eapply Forall_impl; [exact Hp|]. simpl. lia.
Qed.

Lemma apply_advance_covered st op u c p :
  hget st u c < p <= hget (apply_advance st op) u c -> p ∈ presented u c op \/ forced u c p op.
Proof.
  destruct op as [k u' c' q|k u' c' l|k u' c' q]; simpl.
  3: { intros H. right. destruct (decide (u' = u /\ c' = c)) as [[-> ->]|Hne].
       - destruct k; simpl in H; [|lia|]; rewrite hget_insert in H; split_and!; (done || lia).
       - destruct k; simpl in H; rewrite ?hget_insert_ne in H by done; lia. }
  all: intros H; left; revert H.
  - assert (forall r, hget (try_advance_script st u' c' q).2 u c = r ->
      hget st u c < p <= r -> p ∈ (if decide (u' = u /\ c' = c) then [q] else [])) as Hs.
    { intros r <-. destruct (decide (u' = u /\ c' = c)) as [[-> ->]|Hne].
      - rewrite try_script_hget. apply advance_loop_covered.
      - unfold try_advance_script. repeat case_match; simpl; rewrite ?hget_insert_ne by done; lia. }
    unfold try_advance. destruct k; simpl; [|lia|by apply Hs].
    destruct (try_advance_script st u' c' q) as [code st']; simpl in *. by apply Hs.
  - unfold batch_advance. destruct l as [|q l]; [simpl; lia|].
    assert (hget st u c < p <= hget (batch_advance_script st u' c' (q :: l)).2 u c ->
      p ∈ (if decide (u' = u /\ c' = c) then q :: l else [])) as Hs.
    { unfold batch_advance_script. cbn [snd].
      destruct (decide (u' = u /\ c' = c)) as [[-> ->]|Hne].
      - rewrite hget_insert. apply advance_loop_covered.
      - rewrite hget_insert_ne by done. lia. }
    destruct k; [exact Hs|simpl; lia|exact Hs].
Qed.

End DeliveryTracker.
Import DeliveryTracker.

(** C30. Continuity. Starting from an empty store and whatever calls succeed, fail or
    lose their reply, every pts from 1 up to a (user, channel) watermark has been
    presented to the tracker for that user and channel, or is not beyond a pts to which
    the watermark was forced for them: advancing never jumps over an undelivered
    message, and what does is the alignment with what the user has read. *)
Theorem watermark_contiguous ops u c p :
  0 < p <= hget (foldl apply_advance ∅ ops) u c -> p ∈ (ops ≫= presented u c) \/ Exists (forced u c p) ops.
Proof.
  assert (hget ∅ u c = 0) as H0 by (unfold hget; by rewrite lookup_empty).
  rewrite <- H0. generalize (∅ : watermarks).
  induction ops as [|op ops IH]; intros st Hp; simpl in *; [lia|].
  rewrite elem_of_app, Exists_cons. destruct (decide (p <= hget (apply_advance st op) u c)).
  - destruct (apply_advance_covered st op u c p); [lia|by left; left|by right; left].
  - destruct (IH (apply_advance st op)); [lia|by left; right|by right; right].
Qed.

Definition example_advances : list advance_op :=
  [TryAdvance Replied 1 7 1; BatchAdvance ReplyLost 1 7 [2; 3; 5];
   TryAdvance ConnectFailed 1 7 4; ForceSet ConnectFailed 1 7 8; TryAdvance Replied 1 7 9].

Lemma watermark_contiguous_witness :
  hget (foldl apply_advance ∅ example_advances) 1 7 = 3 /\
  (3 ∈ (example_advances ≫= presented 1 7) \/ Exists (forced 1 7 3) example_advances).
Proof.
  split; [vm_compute; reflexivity|].
  refine (watermark_contiguous example_advances 1 7 3 _).
  vm_compute. split; [reflexivity|discriminate].
Defined.
(** A read of pts 9 takes the watermark there from 3. *)
Example reading_forces_the_watermark : hget (foldl apply_advance ∅ (example_advances ++ [ForceSet Replied 1 7 9])) 1 7 = 9.
Proof. vm_compute. reflexivity. Qed.

(** [batch_advance] goes as far as the batch allows. For a sorted,
    non-empty batch that Redis answers, the returned watermark [w] is the
    stored one, it never goes back, all of the pts it passes are in the batch
    and [w + 1] is not. *)
Theorem batch_advance_maximal st u c l :
  StronglySorted Z.le l -> l <> [] ->
  let '(w, st') := batch_advance Replied st u c l in
  hget st' u c = w /\ hget st u c <= w /\
  (forall p, hget st u c < p <= w -> p ∈ l) /\ w + 1 ∉ l.
Proof.
  intros Hs Hne. destruct l as [|q l]; [done|].
  unfold batch_advance, batch_advance_script.
  split_and!; [by rewrite hget_insert|apply advance_loop_ge|apply advance_loop_covered|].
  by apply advance_loop_maximal.
Qed.

Lemma batch_advance_maximal_witness :
  let '(w, st') := batch_advance Replied {[(1, 7) := 4]} 1 7 [3; 5; 6; 9] in
  hget st' 1 7 = w /\ hget {[(1, 7) := 4]} 1 7 <= w /\
  (forall p, hget {[(1, 7) := 4]} 1 7 < p <= w -> p ∈ [3; 5; 6; 9]) /\ w + 1 ∉ [3; 5; 6; 9].
Proof.
  refine (batch_advance_maximal {[(1, 7) := 4]} 1 7 [3; 5; 6; 9] _ _); [|discriminate].
  repeat constructor; lia.
Defined.

(** A sorted batch is equivalent to its single deliveries: presenting the
    pts one by one with [try_advance] leaves the same watermark as one
    [batch_advance]. *)
Theorem batch_advance_is_try_advance_loop st u c l :
  StronglySorted Z.le l ->
  hget (foldl (fun s p => (try_advance Replied s u c p).2) st l) u c =
  hget (batch_advance Replied st u c l).2 u c.
Proof.
  intros Hs. transitivity (advance_loop (hget st u c) l).
  - rewrite <- (advance_loop_foldl l _ Hs). clear Hs. revert st.
    induction l as [|p l IH]; intros st; simpl; [done|].
    rewrite IH. f_equal. unfold try_advance.
    pose proof (try_script_hget st u c p) as Hh.
    destruct (try_advance_script st u c p) as [code st']; simpl in *. by rewrite Hh.
  - destruct l; [done|]. unfold batch_advance, batch_advance_script. simpl. by rewrite hget_insert.
Qed.

Lemma batch_advance_is_try_advance_loop_witness :
  hget (foldl (fun s p => (try_advance Replied s 1 7 p).2) ∅ [1; 2; 4]) 1 7 =
  hget (batch_advance Replied ∅ 1 7 [1; 2; 4]).2 1 7.
Proof. refine (batch_advance_is_try_advance_loop ∅ 1 7 [1; 2; 4] _). repeat constructor; lia. Defined.

(** Allocation and delivery meet. After any interleaving of allocations
    from a fresh generator, delivering in one batch the pts issued on a channel
    brings a new device's watermark exactly to the channel's [current_pts]. *)
Theorem delivery_catches_up ops u c :
  Forall op_wf ops -> demand c ops < 2 ^ 64 ->
  hget (batch_advance Replied ∅ u c (issued_on c (run pts_new ops).1)).2 u c =
  current_pts (run pts_new ops).2 c.
Proof.
  intros Hwf Hlt. destruct (run_fresh_issued ops c Hwf Hlt) as [-> ->].
  pose proof (demand_nonneg c ops Hwf) as Hnn.
  assert (forall n cur, 0 <= n -> advance_loop cur (seqZ (cur + 1) n) = cur + n) as Hloop.
  { intros n cur Hn. revert cur. pattern n. apply natlike_ind; [|clear n Hn|done].
    - intros cur. rewrite Z.add_0_r. done.
    - intros n Hn IH cur. rewrite seqZ_cons by lia. cbn [advance_loop].
      rewrite Z.eqb_refl, Z.pred_succ, <- Z.add_1_r.
      rewrite (IH (cur + 1)). lia. }
  assert (hget ∅ u c = 0) as H0 by (unfold hget; by rewrite lookup_empty).
  specialize (Hloop (demand c ops) 0 Hnn). rewrite Z.add_0_l in Hloop.
  destruct (seqZ 1 (demand c ops)) as [|q l] eqn:E.
  - simpl in *. rewrite H0. lia.
  - unfold batch_advance, batch_advance_script. simpl. rewrite hget_insert, H0. exact Hloop.
Qed.

Lemma delivery_catches_up_witness :
  hget (batch_advance Replied ∅ 5 7 (issued_on 7 (run pts_new example_ops).1)).2 5 7 = 5.
Proof.
  refine (eq_trans (delivery_catches_up example_ops 5 7 _ _) _).
  - apply (bool_decide_unpack _). vm_compute. exact I.
  - vm_compute. reflexivity.
  - vm_compute. reflexivity.
Defined.
