(* ===== verification/Channel.v ===== *)
(** * Channels, members and roles

    Models [src/model/channel.rs]: the enumerations with their database
    numbering, members and their permissions, the mute rules, the [Channel]
    aggregate with its operations and the per-user view of a channel.

    [DateTime<Utc>] is a [Z], nanoseconds since the epoch; an operation that
    reads the clock takes the reading [now] as its first argument. A [HashMap]
    is a [gmap]; [usize] lengths are [nat]. Error texts are the source's. *)

From stdpp Require Import base numbers gmap list strings pretty.
From S2P Require Import Prelude.
Local Open Scope Z_scope.

(** ** Enumerations *)
Inductive ChannelType := Direct | Group | Room.
Inductive ChannelKind := PrivateChat | GroupChat | Broadcast.
Inductive ChannelStatus := Active | Archived | Deleted | Banned.
Inductive MemberRole := Owner | Admin | Member.

#[export] Instance ChannelType_eq_dec : EqDecision ChannelType.
Proof. solve_decision. Defined.
#[export] Instance ChannelStatus_eq_dec : EqDecision ChannelStatus.
Proof. solve_decision. Defined.
#[export] Instance MemberRole_eq_dec : EqDecision MemberRole.
Proof. solve_decision. Defined.

Definition channel_type_from_i16 (value : Z) : ChannelType :=
  if value =? 0 then Direct else if value =? 1 then Group else if value =? 2 then Room else Direct.

Definition channel_type_to_i16 (t : ChannelType) : Z :=
  match t with Direct => 0 | Group => 1 | Room => 2 end.

Definition kind_of_type (t : ChannelType) : ChannelKind :=
  match t with Direct => PrivateChat | Group => GroupChat | Room => Broadcast end.

Definition type_of_kind (k : ChannelKind) : ChannelType :=
  match k with PrivateChat => Direct | GroupChat => Group | Broadcast => Room end.

Definition channel_status_from_i16 (value : Z) : ChannelStatus :=
  if value =? 0 then Active else if value =? 1 then Archived else if value =? 2 then Deleted
  else if value =? 3 then Banned else Active.

Definition channel_status_to_i16 (s : ChannelStatus) : Z :=
  match s with Active => 0 | Archived => 1 | Deleted => 2 | Banned => 3 end.

Definition member_role_from_i16 (value : Z) : MemberRole :=
  if value =? 0 then Owner else if value =? 1 then Admin else if value =? 2 then Member else Member.

Definition member_role_to_i16 (r : MemberRole) : Z :=
  match r with Owner => 0 | Admin => 1 | Member => 2 end.

(** ** Permissions *)
Record MemberPermissions := mkPermissions {
  can_send_message : bool;
  can_invite : bool;
  can_remove_member : bool;
  can_edit_info : bool;
  can_manage_permissions : bool;
  can_revoke_any_message : bool;
  can_pin_message : bool;
  can_at_all : bool;
  can_edit_settings : bool
}.

Definition permissions_default : MemberPermissions :=
  mkPermissions true false false false false false false false false.
Definition permissions_owner : MemberPermissions :=
  mkPermissions true true true true true true true true true.
Definition permissions_admin : MemberPermissions :=
  mkPermissions true true true true false true true true false.
Definition permissions_member : MemberPermissions :=
  mkPermissions true false false false false false false false false.

Definition permissions_from_role (role : MemberRole) : MemberPermissions :=
  match role with
  | Owner => permissions_owner
  | Admin => permissions_admin
  | Member => permissions_member
  end.

(** ** Members *)
Record ChannelMember := mkMember {
  m_user_id : Z;
  display_name : option string;
  role : MemberRole;
  permissions : MemberPermissions;
  joined_at : Z;
  last_active_at : Z;
  is_muted : bool;
  mute_until : option Z;
  last_read_message_id : option Z;
  last_read_pts : Z
}.

Definition member_new (now user_id : Z) (r : MemberRole) : ChannelMember :=
  let perms := match r with
               | Owner => permissions_owner
               | Admin => permissions_admin
               | Member => permissions_member
               end in
  mkMember user_id None r perms now now false None None 0.

Definition update_last_active (now : Z) (m : ChannelMember) : ChannelMember :=
  mkMember (m_user_id m) (display_name m) (role m) (permissions m) (joined_at m) now
    (is_muted m) (mute_until m) (last_read_message_id m) (last_read_pts m).

Definition mark_read (now : Z) (m : ChannelMember) (message_id : Z) : ChannelMember :=
  update_last_active now
    (mkMember (m_user_id m) (display_name m) (role m) (permissions m) (joined_at m)
       (last_active_at m) (is_muted m) (mute_until m) (Some message_id) (last_read_pts m)).

Definition mark_read_pts (now : Z) (m : ChannelMember) (read_pts : Z) : ChannelMember :=
  update_last_active now
    (mkMember (m_user_id m) (display_name m) (role m) (permissions m) (joined_at m)
       (last_active_at m) (is_muted m) (mute_until m) (last_read_message_id m)
       (Z.max (last_read_pts m) read_pts)).

Definition with_role (m : ChannelMember) (r : MemberRole) : ChannelMember :=
  mkMember (m_user_id m) (display_name m) r (permissions m) (joined_at m) (last_active_at m)
    (is_muted m) (mute_until m) (last_read_message_id m) (last_read_pts m).

Definition with_permissions (m : ChannelMember) (p : MemberPermissions) : ChannelMember :=
  mkMember (m_user_id m) (display_name m) (role m) p (joined_at m) (last_active_at m)
    (is_muted m) (mute_until m) (last_read_message_id m) (last_read_pts m).

(** ** Mute rules *)
Definition can_moderate_mute (operator_id target_id : Z) (operator_role target_role : MemberRole)
    : result unit string :=
  if operator_id =? target_id then Err "不能对自己执行禁言操作"
  else match target_role with
  | Owner => Err "不能对群主执行禁言操作"
  | _ =>
      match operator_role with
      | Owner => Ok tt
      | Admin =>
          match target_role with
          | Admin => Err "管理员不能对其他管理员执行禁言操作"
          | _ => Ok tt
          end
      | Member => Err "只有群主或管理员可以执行禁言操作"
      end
  end.

(** Named apart from the field [is_muted] of a member: the three arguments of
    the source's [mute_is_active]. *)
Definition mute_is_active (muted : bool) (until : option Z) (now : Z) : bool :=
  muted && match until with None => true | Some u => now <? u end.

Definition nanos_per_sec : Z := 1000000000.

(** [(u - now).num_seconds()]: whole seconds, truncated toward zero. *)
Definition num_seconds (d : Z) : Z := Z.quot d nanos_per_sec.

Definition mute_reject_message (until : option Z) (now : Z) : string :=
  let PERMANENT_THRESHOLD_SECS := 50 * 365 * 86400 in
  match until with
  | None => "您已被永久禁言"
  | Some u =>
      let secs := Z.max (num_seconds (u - now)) 0 in
      if PERMANENT_THRESHOLD_SECS <=? secs then "您已被永久禁言"
      else if 86400 <=? secs then
        "您已被禁言，剩余 " +:+ pretty ((secs + 86399) / 86400) +:+ " 天"
      else if 3600 <=? secs then
        "您已被禁言，剩余 " +:+ pretty ((secs + 3599) / 3600) +:+ " 小时"
      else "您已被禁言，剩余 " +:+ pretty (Z.max ((secs + 59) / 60) 1) +:+ " 分钟"
  end.

(** One row of the truth table: repaired members and whether this row repaired one. *)
Definition apply_role_row (members : gmap Z ChannelMember) (row : Z * MemberRole)
    : gmap Z ChannelMember * nat :=
  match members !! row.1 with
  | Some m =>
      if decide (role m = row.2) then (members, 0%nat)
      else (<[row.1 := with_role m row.2]> members, 1%nat)
  | None => (members, 0%nat)
  end.

Fixpoint apply_group_role_truth (members : gmap Z ChannelMember) (truth : list (Z * MemberRole))
    : gmap Z ChannelMember * nat :=
  match truth with
  | [] => (members, 0%nat)
  | row :: rest =>
      let '(members1, n) := apply_role_row members row in
      let '(members2, repaired) := apply_group_role_truth members1 rest in
      (members2, (n + repaired)%nat)
  end.

(** ** Participant rows

    The JSON column and the conversion of stored milliseconds are library code:
    [serde_json::from_value]/[to_value] for the permissions and chrono's
    [from_timestamp_millis]/[timestamp_millis] are parameters. *)
Section Rows.
Context {Json : Type}
  (permissions_of_json : Json -> option MemberPermissions)
  (json_of_permissions : MemberPermissions -> Json)
  (from_timestamp_millis : Z -> option Z)
  (timestamp_millis : Z -> Z).

Record ChannelParticipant := mkParticipant {
  p_channel_id : Z;
  p_user_id : Z;
  p_role : MemberRole;
  p_nickname : option string;
  p_permissions : MemberPermissions;
  p_mute_until : option Z;
  p_joined_at : Z;
  p_left_at : option Z
}.

Definition participant_from_db_row (now channel_id user_id role_col : Z) (nickname : option string)
    (perms : Json) (mute_col : option Z) (joined_col : Z) (left_col : option Z)
    : ChannelParticipant :=
  mkParticipant (as_u64 channel_id) (as_u64 user_id) (member_role_from_i16 role_col) nickname
    (default permissions_default (permissions_of_json perms))
    (mute_col ≫= from_timestamp_millis)
    (default now (from_timestamp_millis joined_col))
    (left_col ≫= from_timestamp_millis).

Definition participant_to_db_values (p : ChannelParticipant)
    : Z * Z * Z * option string * Json * option Z * Z * option Z :=
  (as_i64 (p_channel_id p), as_i64 (p_user_id p), member_role_to_i16 (p_role p), p_nickname p,
   json_of_permissions (p_permissions p), timestamp_millis <$> p_mute_until p,
   timestamp_millis (p_joined_at p), timestamp_millis <$> p_left_at p).

Definition to_channel_member (now : Z) (p : ChannelParticipant) : ChannelMember :=
  mkMember (p_user_id p) (p_nickname p) (p_role p) (p_permissions p) (p_joined_at p)
    (p_joined_at p)
    (match p_mute_until p with Some dt => now <? dt | None => false end)
    (p_mute_until p) None 0.
End Rows.

(** ** Metadata, settings and group policy *)
Record ChannelMetadata := mkMetadata {
  name : option string;
  description : option string;
  avatar_url : option string;
  custom_properties : gmap string string;
  allow_invite : bool;
  max_members : option nat;
  meta_is_public : bool;
  announcement : option string;
  tags : list string
}.

Definition metadata_default : ChannelMetadata :=
  mkMetadata None None None ∅ true None false None [].

Record ChannelSettings := mkSettings {
  allow_member_post : bool;
  settings_is_muted : bool;
  settings_is_public : bool;
  allow_member_invite : bool;
  require_approval : bool;
  allow_member_add_friend : bool;
  allow_search : bool;
  join_policy : Z;
  settings_max_members : option Z;
  history_visible : bool;
  allow_anonymous : bool
}.

Definition settings_default : ChannelSettings :=
  mkSettings true false false true false true true 1 None true false.

Record GroupPolicy := mkPolicy {
  gp_allow_search : bool;
  gp_join_policy : Z;
  gp_allow_member_invite : bool;
  gp_allow_member_add_friend : bool;
  gp_all_muted : bool;
  gp_allow_member_post : bool;
  gp_forbid_forward : bool
}.

Definition policy_default : GroupPolicy := mkPolicy true 1 true true false true false.

(** ** The channel aggregate *)
Record Channel := mkChannel {
  id : Z;
  channel_type : ChannelType;
  status : ChannelStatus;
  members : gmap Z ChannelMember;
  metadata : ChannelMetadata;
  creator_id : Z;
  direct_user1_id : option Z;
  direct_user2_id : option Z;
  group_id : option Z;
  last_message_id : option Z;
  last_message_at : option Z;
  message_count : Z;
  created_at : Z;
  updated_at : Z;
  sync_version : Z;
  settings : option ChannelSettings
}.

(** Assignments to the fields the operations change. *)
Definition with_members (c : Channel) (ms : gmap Z ChannelMember) : Channel :=
  mkChannel (id c) (channel_type c) (status c) ms (metadata c) (creator_id c)
    (direct_user1_id c) (direct_user2_id c) (group_id c) (last_message_id c)
    (last_message_at c) (message_count c) (created_at c) (updated_at c) (sync_version c)
    (settings c).

Definition with_updated_at (c : Channel) (now : Z) : Channel :=
  mkChannel (id c) (channel_type c) (status c) (members c) (metadata c) (creator_id c)
    (direct_user1_id c) (direct_user2_id c) (group_id c) (last_message_id c)
    (last_message_at c) (message_count c) (created_at c) now (sync_version c) (settings c).

Definition with_status (c : Channel) (s : ChannelStatus) : Channel :=
  mkChannel (id c) (channel_type c) s (members c) (metadata c) (creator_id c)
    (direct_user1_id c) (direct_user2_id c) (group_id c) (last_message_id c)
    (last_message_at c) (message_count c) (created_at c) (updated_at c) (sync_version c)
    (settings c).

Definition nanos_per_milli : Z := 1000000.

Definition new_direct (now cid user1_id user2_id : Z) : Channel :=
  mkChannel cid Direct Active
    (<[user2_id := member_new now user2_id Member]>
       (<[user1_id := member_new now user1_id Member]> ∅))
    metadata_default user1_id (Some user1_id) (Some user2_id) None None None 0 now now
    (now / nanos_per_milli) None.

Definition new_group (now cid creator : Z) (group_name : option string) : Channel :=
  mkChannel cid Group Active {[creator := member_new now creator Owner]}
    (mkMetadata group_name None None ∅ true None false None [])
    creator None None (Some cid) None None 0 now now (now / nanos_per_milli) None.

Section ChannelRows.
Context (from_timestamp_millis : Z -> option Z) (timestamp_millis : Z -> Z).

Definition channel_from_db_row (now channel_id type_col : Z) (d1 d2 gid last_mid last_at : option Z)
    (count created_col updated_col sync_col : Z) : Channel :=
  let conv_type := channel_type_from_i16 type_col in
  let creator := match conv_type with
                 | Direct => default 0 (as_u64 <$> d1)
                 | Group => 0
                 | Room => 0
                 end in
  mkChannel (as_u64 channel_id) conv_type Active ∅ metadata_default creator
    (as_u64 <$> d1) (as_u64 <$> d2) (as_u64 <$> gid) (as_u64 <$> last_mid)
    (last_at ≫= from_timestamp_millis) count
    (default now (from_timestamp_millis created_col))
    (default now (from_timestamp_millis updated_col)) sync_col None.

Definition channel_to_db_values (c : Channel)
    : Z * Z * option Z * option Z * option Z * option Z * option Z * Z * Z * Z :=
  (as_i64 (id c), channel_type_to_i16 (channel_type c), as_i64 <$> direct_user1_id c,
   as_i64 <$> direct_user2_id c, as_i64 <$> group_id c, as_i64 <$> last_message_id c,
   timestamp_millis <$> last_message_at c, message_count c,
   timestamp_millis (created_at c), timestamp_millis (updated_at c)).
End ChannelRows.

Definition add_member (now : Z) (c : Channel) (user_id : Z) (role_opt : option MemberRole)
    : result Channel string :=
  if decide (is_Some (members c !! user_id)) then Err "Member already exists"
  else if match max_members (metadata c) with
          | Some mx => Nat.leb mx (size (members c))
          | None => false
          end then Err "Maximum members limit reached"
  else
    let member_role := default Member role_opt in
    if bool_decide (channel_type c = Direct) && bool_decide (member_role <> Member)
    then Err "Direct channels only support member role"
    else Ok (with_updated_at
               (with_members c (<[user_id := member_new now user_id member_role]> (members c))) now).

Definition remove_member (now : Z) (c : Channel) (user_id : Z)
    : result (ChannelMember * Channel) string :=
  if match members c !! user_id with
     | Some m => bool_decide (role m = Owner)
     | None => false
     end then Err "Cannot remove owner"
  else if decide (channel_type c = Direct) then Err "Cannot remove members from direct channels"
  else let? m := ok_or (members c !! user_id) "Member not found" in
       Ok (m, with_updated_at (with_members c (delete user_id (members c))) now).

Definition update_member_role (now : Z) (c : Channel) (user_id : Z) (new_role : MemberRole)
    : result Channel string :=
  let? m := ok_or (members c !! user_id) "Member not found" in
  if decide (channel_type c = Direct) then Err "Cannot change roles in direct channels"
  else if decide (role m = Owner) then Err "Cannot change owner role"
  else
    let m' := with_permissions (with_role m new_role)
                (match new_role with
                 | Owner => permissions_owner
                 | Admin => permissions_admin
                 | Member => permissions_member
                 end) in
    Ok (with_updated_at (with_members c (<[user_id := m']> (members c))) now).

Definition check_permission (c : Channel) (user_id : Z) (permission : MemberPermissions -> bool)
    : bool :=
  match members c !! user_id with
  | Some m => permission (permissions m)
  | None => false
  end.

(** The loop over [[direct_user1_id, direct_user2_id].into_iter().flatten()]. *)
Definition push_unique (ids : list Z) (o : option Z) : list Z :=
  match o with
  | Some i => if decide (i ∈ ids) then ids else ids ++ [i]
  | None => ids
  end.

Definition get_member_ids (c : Channel) : list Z :=
  if decide (channel_type c = Direct) then
    push_unique (push_unique [] (direct_user1_id c)) (direct_user2_id c)
  else (map_to_list (members c)).*1.

Definition is_member (c : Channel) (user_id : Z) : bool :=
  if decide (channel_type c = Direct) then
    bool_decide (direct_user1_id c = Some user_id) || bool_decide (direct_user2_id c = Some user_id)
  else bool_decide (is_Some (members c !! user_id)).

Definition direct_peer (c : Channel) (user_id : Z) : option Z :=
  if decide (channel_type c <> Direct) then None
  else match direct_user1_id c, direct_user2_id c with
       | Some a, Some b =>
           if a =? user_id then Some b else if b =? user_id then Some a else None
       | _, _ => None
       end.

Definition update_last_message (now : Z) (c : Channel) (message_id : Z) : Channel :=
  mkChannel (id c) (channel_type c) (status c) (members c) (metadata c) (creator_id c)
    (direct_user1_id c) (direct_user2_id c) (group_id c) (Some message_id) (Some now)
    (as_i64 (as_u64 (message_count c + 1))) (created_at c) now (sync_version c) (settings c).

Definition mark_member_read (now : Z) (c : Channel) (user_id message_id : Z)
    : result Channel string :=
  let? m := ok_or (members c !! user_id) "Member not found" in
  Ok (with_members c (<[user_id := mark_read now m message_id]> (members c))).

Definition get_unread_count (c : Channel) : nat :=
  match last_message_id c with
  | Some _ =>
      length (filter (fun e : Z * ChannelMember => last_read_message_id e.2 = None)
                (map_to_list (members c)))
  | None => 0%nat
  end.

Definition is_active (c : Channel) : bool := bool_decide (status c = Active).
Definition archive (now : Z) (c : Channel) : Channel := with_updated_at (with_status c Archived) now.
Definition unarchive (now : Z) (c : Channel) : Channel := with_updated_at (with_status c Active) now.

Fixpoint join (sep : string) (l : list string) : string :=
  match l with
  | [] => ""
  | [s] => s
  | s :: rest => s +:+ sep +:+ join sep rest
  end.

(** The member ids of a direct channel appear in the order of [map_to_list];
    the source's order is unspecified. *)
Definition get_display_name (c : Channel) : string :=
  match name (metadata c) with
  | Some n => n
  | None =>
      match channel_type c with
      | Direct => "私聊 (" +:+ join ", " (pretty <$> (map_to_list (members c)).*1) +:+ ")"
      | Group => "群聊"
      | Room => "Room 频道 " +:+ pretty (id c)
      end
  end.

Definition can_user_post (c : Channel) (user_id : Z) : bool :=
  match members c !! user_id with
  | Some m =>
      if match settings c with
         | Some s => negb (allow_member_post s) && bool_decide (role m <> Owner)
         | None => false
         end then false
      else can_send_message (permissions m)
  | None => false
  end.

(** ** The view one user has of a channel *)
Record UserChannelView := mkView {
  v_user_id : Z;
  v_channel_id : Z;
  v_last_read_message_id : option Z;
  v_is_muted : bool;
  v_is_pinned : bool;
  v_unread_count : Z;
  v_remark : option string;
  v_custom_title : option string;
  v_last_viewed_at : Z;
  v_created_at : Z;
  v_updated_at : Z;
  v_is_hidden : bool;
  v_sort_weight : Z
}.

Definition view_new (now user_id channel_id : Z) : UserChannelView :=
  mkView user_id channel_id None false false 0 None None now now now false 0.

Definition view_mark_as_read (now : Z) (v : UserChannelView) (message_id : Z) : UserChannelView :=
  mkView (v_user_id v) (v_channel_id v) (Some message_id) (v_is_muted v) (v_is_pinned v) 0
    (v_remark v) (v_custom_title v) now (v_created_at v) now (v_is_hidden v) (v_sort_weight v).

Definition view_increment_unread (now : Z) (v : UserChannelView) : UserChannelView :=
  if v_is_muted v then v
  else mkView (v_user_id v) (v_channel_id v) (v_last_read_message_id v) (v_is_muted v)
         (v_is_pinned v) (as_u32 (v_unread_count v + 1)) (v_remark v) (v_custom_title v)
         (v_last_viewed_at v) (v_created_at v) now (v_is_hidden v) (v_sort_weight v).

Definition view_set_muted (now : Z) (v : UserChannelView) (muted : bool) : UserChannelView :=
  mkView (v_user_id v) (v_channel_id v) (v_last_read_message_id v) muted (v_is_pinned v)
    (if muted then 0 else v_unread_count v) (v_remark v) (v_custom_title v)
    (v_last_viewed_at v) (v_created_at v) now (v_is_hidden v) (v_sort_weight v).

Definition view_set_pinned (now : Z) (v : UserChannelView) (pinned : bool) : UserChannelView :=
  mkView (v_user_id v) (v_channel_id v) (v_last_read_message_id v) (v_is_muted v) pinned
    (v_unread_count v) (v_remark v) (v_custom_title v) (v_last_viewed_at v) (v_created_at v)
    now (v_is_hidden v) (v_sort_weight v).

Definition view_set_remark (now : Z) (v : UserChannelView) (remark : option string)
    : UserChannelView :=
  mkView (v_user_id v) (v_channel_id v) (v_last_read_message_id v) (v_is_muted v) (v_is_pinned v)
    (v_unread_count v) remark (v_custom_title v) (v_last_viewed_at v) (v_created_at v) now
    (v_is_hidden v) (v_sort_weight v).
