(* ===== verification/ChannelFacts.v ===== *)
(** * Properties of channels

    Invariants and functional specifications of the operations of [Channel.v]:
    well-formedness and ownership over all reachable channels, the agreement of
    the membership queries, the mute rules and the database round trip. *)

From stdpp Require Import base numbers gmap list strings pretty relations.
From S2P Require Import Prelude Channel.
Local Open Scope Z_scope.

(** ** Steps of the in-memory channel

    One constructor per state-changing method of [impl Channel]; a refused
    operation leaves the channel as it is and is not a step. *)
Inductive channel_step : Channel -> Channel -> Prop :=
| step_add now c u r c' : add_member now c u r = Ok c' -> channel_step c c'
| step_remove now c u m c' : remove_member now c u = Ok (m, c') -> channel_step c c'
| step_role now c u r c' : update_member_role now c u r = Ok c' -> channel_step c c'
| step_read now c u mid c' : mark_member_read now c u mid = Ok c' -> channel_step c c'
| step_message now c mid : channel_step c (update_last_message now c mid)
| step_archive now c : channel_step c (archive now c)
| step_unarchive now c : channel_step c (unarchive now c).

(** ** Well-formedness *)
Definition member_wf (u : Z) (m : ChannelMember) : Prop :=
  m_user_id m = u /\ permissions m = permissions_from_role (role m).

Record channel_wf (c : Channel) : Prop := {
  wf_members : map_Forall member_wf (members c);
  wf_direct : channel_type c = Direct -> map_Forall (fun _ m => role m = Member) (members c);
  wf_bound : forall n, max_members (metadata c) = Some n -> (size (members c) <= n)%nat
}.

Lemma member_new_wf now u r : member_wf u (member_new now u r).
Proof. by destruct r. Qed.

Lemma mark_read_wf now u m mid : member_wf u m -> member_wf u (mark_read now m mid).
Proof. done. Qed.

Lemma mark_read_role now m mid : role (mark_read now m mid) = role m.
Proof. done. Qed.

Create HintDb channel.
#[export] Hint Resolve member_new_wf mark_read_wf : channel.

(** What each fallible operation did when it succeeded. *)
Lemma add_member_Ok now c u r c' :
  add_member now c u r = Ok c' <->
  members c !! u = None /\
  (forall n, max_members (metadata c) = Some n -> (size (members c) < n)%nat) /\
  (channel_type c = Direct -> default Member r = Member) /\
  c' = with_updated_at
         (with_members c (<[u := member_new now u (default Member r)]> (members c))) now.
Proof.
  unfold add_member. split.
  - intros H. destruct (members c !! u) eqn:HN; [by rewrite decide_True in H by eauto|].
    rewrite decide_False in H by (by intros []).
    destruct (max_members (metadata c)) as [n|]; cycle 1;
      [|destruct (Nat.leb_spec n (size (members c))); [done|]];
      (case_match eqn:E; [done|]; injection H as <-; apply andb_false_iff in E;
       rewrite !bool_decide_eq_false in E; split_and!; [done|naive_solver| |done];
       intros Hd; destruct E as [E|E]; [done|by apply dec_stable in E]).
  - intros (HN & Hb & Hd & ->). rewrite HN, decide_False by (by intros []).
    assert (bool_decide (channel_type c = Direct) && bool_decide (default Member r <> Member)
            = false) as ->.
    { apply andb_false_iff. rewrite !bool_decide_eq_false.
      destruct (decide (channel_type c = Direct)); naive_solver. }
    destruct (max_members (metadata c)) as [n|]; [|done].
    specialize (Hb n eq_refl). destruct (Nat.leb_spec n (size (members c))); [lia|done].
Qed.

Lemma remove_member_Ok now c u m c' :
  remove_member now c u = Ok (m, c') <->
  members c !! u = Some m /\ role m <> Owner /\ channel_type c <> Direct /\
  c' = with_updated_at (with_members c (delete u (members c))) now.
Proof.
  unfold remove_member. destruct (members c !! u) as [m0|]; simpl.
  - case_bool_decide; [naive_solver|]. case_decide; naive_solver.
  - case_decide; naive_solver.
Qed.

Lemma update_member_role_Ok now c u r c' :
  update_member_role now c u r = Ok c' <->
  exists m, members c !! u = Some m /\ role m <> Owner /\ channel_type c <> Direct /\
    c' = with_updated_at
           (with_members c
              (<[u := with_permissions (with_role m r) (permissions_from_role r)]> (members c))) now.
Proof.
  unfold update_member_role. destruct (members c !! u) as [m0|]; simpl; [|naive_solver].
  destruct r; repeat case_decide; naive_solver.
Qed.

Lemma mark_member_read_Ok now c u mid c' :
  mark_member_read now c u mid = Ok c' <->
  exists m, members c !! u = Some m /\
    c' = with_members c (<[u := mark_read now m mid]> (members c)).
Proof. unfold mark_member_read. destruct (members c !! u); simpl; naive_solver. Qed.

(** Inversion of a step through the [_Ok] lemmas. *)
Ltac inv_step H :=
  inversion H; subst; clear H;
  repeat match goal with
  | H : add_member _ _ _ _ = Ok _ |- _ => apply add_member_Ok in H as (?Hnew & ?Hbound & ?Hdir & ->)
  | H : remove_member _ _ _ = Ok _ |- _ => apply remove_member_Ok in H as (?Hm & ?Hrole & ?Hdir & ->)
  | H : update_member_role _ _ _ _ = Ok _ |- _ =>
      apply update_member_role_Ok in H as (?m & ?Hm & ?Hrole & ?Hdir & ->)
  | H : mark_member_read _ _ _ _ = Ok _ |- _ => apply mark_member_read_Ok in H as (?m & ?Hm & ->)
  end; simpl in *.

Lemma channel_step_wf c c' : channel_step c c' -> channel_wf c -> channel_wf c'.
Proof.
  intros Hstep [Hmem Hdirect Hsize]. inv_step Hstep; constructor; simpl; try done.
  - apply map_Forall_insert_2; auto with channel.
  - intros Ht. apply map_Forall_insert_2; [|by apply Hdirect]. by apply Hdir.
  - intros n Hn. rewrite map_size_insert_None by done. specialize (Hbound n Hn). lia.
  - by apply map_Forall_delete.
  - intros n Hn. rewrite map_size_delete, Hm. specialize (Hsize n Hn). simpl. lia.
  - apply map_Forall_insert_2; [|done]. destruct (Hmem _ _ Hm) as [Hu _]. by split.
  - intros n Hn. rewrite map_size_insert, Hm. by apply Hsize.
  - apply map_Forall_insert_2; [|done]. apply mark_read_wf. by apply (Hmem _ _ Hm).
  - intros Ht. apply map_Forall_insert_2; [|by apply Hdirect].
    rewrite mark_read_role. by apply (Hdirect Ht _ _ Hm).
  - intros n Hn. rewrite map_size_insert, Hm. by apply Hsize.
Qed.

Lemma new_group_wf now cid creator n : channel_wf (new_group now cid creator n).
Proof.
  constructor; simpl; [|done|done]. apply map_Forall_singleton. by apply member_new_wf.
Qed.

Lemma new_direct_wf now cid u1 u2 : channel_wf (new_direct now cid u1 u2).
Proof.
  constructor; simpl; [|intros _|done];
    repeat apply map_Forall_insert_2; try done; apply map_Forall_empty.
Qed.

Lemma channel_wf_reachable c c' : rtc channel_step c c' -> channel_wf c -> channel_wf c'.
Proof. induction 1; eauto using channel_step_wf. Qed.

(** Well-formedness over all histories. A channel built by [new_group] or
    [new_direct] and changed by any sequence of member additions, removals, role
    changes, read marks, messages and (un)archiving stays well-formed: every
    entry carries its own user id and the permission set of its role, a direct
    channel has only plain members and a member limit is never exceeded. *)
Theorem channel_invariant c0 c :
  (exists now cid u n, c0 = new_group now cid u n) \/
  (exists now cid u1 u2, c0 = new_direct now cid u1 u2) ->
  rtc channel_step c0 c -> channel_wf c.
Proof.
  intros Hinit Hreach. apply (channel_wf_reachable _ _ Hreach).
  destruct Hinit as [(? & ? & ? & ? & ->)|(? & ? & ? & ? & ->)];
    [apply new_group_wf|apply new_direct_wf].
Qed.

Definition example_group : Channel := new_group 5 100 1 (Some "ops").

Lemma channel_invariant_witness :
  channel_wf (archive 9 (update_last_message 8 example_group 77)).
Proof.
  refine (channel_invariant example_group _ _ _).
  - left. exists 5, 100, 1, (Some "ops"). reflexivity.
  - eapply rtc_l; [apply step_message|]. eapply rtc_l; [apply step_archive|]. apply rtc_refl.
Defined.

(** The group never loses its owner. Whatever the other members are put
    through, the creator of a group remains a member of it with the [Owner]
    role and the owner's permissions. *)
Theorem group_owner_persistent now cid creator n c :
  rtc channel_step (new_group now cid creator n) c ->
  exists m, members c !! creator = Some m /\ role m = Owner /\ permissions m = permissions_owner.
Proof.
  assert (forall c0, rtc channel_step c0 c ->
    (exists m, members c0 !! creator = Some m /\ role m = Owner /\
       permissions m = permissions_owner) ->
    exists m, members c !! creator = Some m /\ role m = Owner /\
       permissions m = permissions_owner) as Hgen.
  { induction 1 as [|c0 c1 c2 Hstep _ IH]; [done|]. intros (m & Hcr & Hr & Hp). apply IH.
    inv_step Hstep; rewrite ?lookup_insert_ne, ?lookup_delete_ne by congruence; eauto.
    destruct (decide (u = creator)) as [->|].
    - simplify_eq. rewrite lookup_insert_eq. eexists. split; [done|]. by rewrite mark_read_role.
    - rewrite lookup_insert_ne by done. eauto. }
  intros Hreach. apply (Hgen _ Hreach). simpl. rewrite lookup_singleton_eq. eauto.
Qed.

Lemma group_owner_persistent_witness :
  exists m, members (archive 9 example_group) !! 1 = Some m /\ role m = Owner /\
    permissions m = permissions_owner.
Proof.
  refine (group_owner_persistent 5 100 1 (Some "ops") _ _).
  eapply rtc_l; [apply step_archive|]. apply rtc_refl.
Defined.

(** ** Membership queries *)
Lemma push_unique_NoDup ids o : NoDup ids -> NoDup (push_unique ids o).
Proof.
  intros Hnd. destruct o as [i|]; simpl; [|done]. case_decide; [done|].
  apply NoDup_app. split_and!; [done| |apply NoDup_singleton]. set_solver.
Qed.

Lemma push_unique_elem ids o u : u ∈ push_unique ids o <-> u ∈ ids \/ o = Some u.
Proof.
  destruct o as [i|]; simpl; [|naive_solver].
  case_decide; rewrite ?elem_of_app, ?list_elem_of_singleton; naive_solver.
Qed.

(** One membership truth. On every channel, whatever stray or missing
    entries its member map has, [is_member] accepts exactly the users that
    [get_member_ids] lists, the list has no duplicates, and [direct_peer] is a
    symmetric relation between members of a direct channel. *)
Theorem membership_agrees c u :
  (is_member c u = true <-> u ∈ get_member_ids c) /\
  NoDup (get_member_ids c) /\
  (forall v, direct_peer c u = Some v ->
     direct_peer c v = Some u /\ is_member c u = true /\ is_member c v = true).
Proof.
  split_and!.
  - unfold is_member, get_member_ids. case_decide.
    + rewrite orb_true_iff, !bool_decide_eq_true, !push_unique_elem. set_solver.
    + rewrite bool_decide_eq_true, list_elem_of_fmap. split.
      * intros [m Hm]. exists (u, m). split; [done|]. by apply elem_of_map_to_list.
      * intros ([? m] & -> & Hm). apply elem_of_map_to_list in Hm. eauto.
  - unfold get_member_ids. case_decide; [|apply NoDup_fst_map_to_list].
    do 2 apply push_unique_NoDup. apply NoDup_nil_2.
  - intros v. unfold direct_peer, is_member.
    destruct (decide (channel_type c <> Direct)) as [|Hd]; [done|].
    apply dec_stable in Hd. rewrite !(decide_True (P := channel_type c = Direct)) by done.
    destruct (direct_user1_id c) as [a|], (direct_user2_id c) as [b|]; try done.
    rewrite !orb_true_iff, !bool_decide_eq_true.
    destruct (Z.eqb_spec a u) as [->|]; [|destruct (Z.eqb_spec b u) as [->|]; [|done]];
      intros [= ->]; rewrite Z.eqb_refl; [destruct (Z.eqb_spec u v)|]; naive_solver.
Qed.

(** Adding and removing a member. [add_member] succeeds exactly when the
    user is new, the limit leaves room and a direct channel gets a plain
    member; removing the user again then succeeds, for every role but [Owner]
    and outside direct channels, and restores the member map. *)
Theorem add_remove_round_trip now now' c u r c' :
  add_member now c u r = Ok c' ->
  default Member r <> Owner -> channel_type c <> Direct ->
  members c !! u = None /\
  exists c'', remove_member now' c' u = Ok (member_new now u (default Member r), c'') /\
    members c'' = members c.
Proof.
  intros (HN & _ & _ & ->)%add_member_Ok Hr Ht. split; [done|].
  eexists. split.
  - apply remove_member_Ok. simpl.
    split_and!; [by rewrite lookup_insert_eq|done|done|reflexivity].
  - simpl. by rewrite delete_insert_id.
Qed.

Lemma add_remove_round_trip_witness :
  members example_group !! 2 = None /\
  exists c'', remove_member 9 (with_updated_at (with_members example_group
      (<[2 := member_new 6 2 Admin]> (members example_group))) 6) 2 =
      Ok (member_new 6 2 Admin, c'') /\ members c'' = members example_group.
Proof.
  refine (add_remove_round_trip 6 9 example_group 2 (Some Admin) _ _ _ _).
  - vm_compute. reflexivity.
  - discriminate.
  - discriminate.
Defined.

(** ** Mute rules *)
Definition rank (r : MemberRole) : nat :=
  match r with Owner => 2 | Admin => 1 | Member => 0 end.

(** Moderation follows the hierarchy: muting or unmuting is allowed exactly
    when the operator is someone else and strictly outranks the target. *)
Theorem moderation_is_strict_rank op tgt r_op r_tgt :
  is_ok (can_moderate_mute op tgt r_op r_tgt) = true <->
  op <> tgt /\ (rank r_tgt < rank r_op)%nat.
Proof.
  unfold can_moderate_mute.
  destruct (Z.eqb_spec op tgt), r_op, r_tgt; simpl; split; intros; try done; try lia;
    naive_solver lia.
Qed.

(** The number a rejection text shows for a mute of [secs] whole seconds, in
    units of [unit]: the remaining time rounded up. *)
Definition rounds_up (secs unit n : Z) : Prop := (n - 1) * unit < secs <= n * unit.

Lemma ceil_rounds_up secs unit : 0 < unit -> rounds_up secs unit ((secs + (unit - 1)) / unit).
Proof.
  intros Hu. unfold rounds_up.
  pose proof (Z.div_mod (secs + (unit - 1)) unit ltac:(lia)).
  pose proof (Z.mod_pos_bound (secs + (unit - 1)) unit Hu). nia.
Qed.

(** The rejection text of an active mute tells the truth: a mute that
    still has at least one whole second and less than fifty years to run is
    announced in days, hours or minutes, rounded up in that unit, the unit
    being the largest one that fits. *)
Theorem mute_message_rounds_up until now :
  let secs := num_seconds (until - now) in
  0 < secs < 50 * 365 * 86400 ->
  mute_is_active true (Some until) now = true /\
  exists n unit label,
    mute_reject_message (Some until) now = "您已被禁言，剩余 " +:+ pretty n +:+ label /\
    rounds_up secs unit n /\
    ((unit = 86400 /\ label = " 天" /\ 86400 <= secs) \/
     (unit = 3600 /\ label = " 小时" /\ 3600 <= secs < 86400) \/
     (unit = 60 /\ label = " 分钟" /\ secs < 3600)).
Proof.
  intros secs Hs. split.
  { unfold mute_is_active. simpl. apply Z.ltb_lt. subst secs. unfold num_seconds, nanos_per_sec in Hs.
    destruct (decide (now < until)); [done|].
    pose proof (Z.quot_opp_l (now - until) 1000000000 ltac:(lia)) as Hq.
    replace (- (now - until)) with (until - now) in Hq by lia.
    pose proof (Z.quot_pos (now - until) 1000000000 ltac:(lia) ltac:(lia)). lia. }
  unfold mute_reject_message. fold secs. clearbody secs. rewrite (Z.max_l secs 0) by lia.
  destruct (Z.leb_spec (50 * 365 * 86400) secs); [lia|].
  destruct (Z.leb_spec 86400 secs).
  { exists ((secs + 86399) / 86400), 86400, " 天". split_and!; [done| |naive_solver].
    apply (ceil_rounds_up secs 86400). lia. }
  destruct (Z.leb_spec 3600 secs).
  { exists ((secs + 3599) / 3600), 3600, " 小时". split_and!; [done| |naive_solver].
    apply (ceil_rounds_up secs 3600). lia. }
  exists ((secs + 59) / 60), 60, " 分钟".
  pose proof (ceil_rounds_up secs 60 ltac:(lia)) as Hr.
  change (secs + (60 - 1)) with (secs + 59) in Hr.
  rewrite Z.max_l by (unfold rounds_up in Hr; lia). split_and!; [done|exact Hr|naive_solver].
Qed.

Lemma mute_message_rounds_up_witness :
  mute_is_active true (Some (90 * nanos_per_sec)) 0 = true /\
  exists n unit label,
    mute_reject_message (Some (90 * nanos_per_sec)) 0 = "您已被禁言，剩余 " +:+ pretty n +:+ label /\
    rounds_up 90 unit n /\
    ((unit = 86400 /\ label = " 天" /\ 86400 <= 90) \/
     (unit = 3600 /\ label = " 小时" /\ 3600 <= 90 < 86400) \/
     (unit = 60 /\ label = " 分钟" /\ 90 < 3600)).
Proof. refine (mute_message_rounds_up (90 * nanos_per_sec) 0 _). vm_compute. done. Defined.

(** ** Hydrating roles from the source of truth *)
Lemma apply_role_row_lookup ms row u :
  (apply_role_row ms row).1 !! u =
  (if decide (u = row.1) then (fun m => with_role m row.2) <$> ms !! u else ms !! u).
Proof.
  unfold apply_role_row. destruct (decide (u = row.1)) as [->|Hne].
  - destruct (ms !! row.1) as [m|] eqn:Hm; simpl; [|by rewrite Hm].
    case_decide as Hr; simpl.
    + rewrite Hm. f_equal. rewrite <- Hr. by destruct m.
    + by rewrite lookup_insert_eq.
  - repeat case_match; simpl; by rewrite ?lookup_insert_ne.
Qed.

(** The role the truth table assigns to [u], if it lists [u]. *)
Definition truth_role (truth : list (Z * MemberRole)) (u : Z) : option MemberRole :=
  list_to_map (M := gmap Z MemberRole) truth !! u.

Lemma apply_truth_lookup truth : forall ms u,
  NoDup truth.*1 ->
  (apply_group_role_truth ms truth).1 !! u =
  match truth_role truth u with
  | Some r => (fun m => with_role m r) <$> ms !! u
  | None => ms !! u
  end.
Proof.
  unfold truth_role. induction truth as [|[v r] truth IH]; intros ms u Hnd; cbn [list_to_map foldr].
  { by rewrite lookup_empty. }
  apply NoDup_cons in Hnd as [Hv Hnd]. cbn [apply_group_role_truth].
  pose proof (apply_role_row_lookup ms (v, r) u) as Hrow.
  destruct (apply_role_row ms (v, r)) as [ms1 n]. specialize (IH ms1 u Hnd).
  destruct (apply_group_role_truth ms1 truth) as [ms2 k]. simpl in *. rewrite IH, Hrow.
  destruct (decide (u = v)) as [->|Hne].
  - rewrite lookup_insert_eq. by rewrite not_elem_of_list_to_map_1 by done.
  - by rewrite lookup_insert_ne.
Qed.

(** Roles are repaired, permissions are not. With one row per user in the
    truth table, [apply_group_role_truth] gives every member that the table
    lists the listed role, keeps all other members and the set of members as
    they were, and leaves every member's permission bits untouched. *)
Theorem role_truth_overrides_roles_only ms truth u m :
  NoDup truth.*1 -> ms !! u = Some m ->
  exists m', (apply_group_role_truth ms truth).1 !! u = Some m' /\
    role m' = default (role m) (truth_role truth u) /\ permissions m' = permissions m /\
    dom (apply_group_role_truth ms truth).1 = dom ms.
Proof.
  intros Hnd Hm.
  assert (dom (apply_group_role_truth ms truth).1 = dom ms) as Hdom.
  { apply set_eq. intros v. rewrite !elem_of_dom, apply_truth_lookup by done.
    destruct (truth_role truth v); [|done]. by rewrite fmap_is_Some. }
  rewrite apply_truth_lookup by done. rewrite Hm.
  destruct (truth_role truth u); simpl; eexists; split_and!; done.
Qed.

(** A group whose delivery mirror recorded its owner (user 1) as a plain member. *)
Definition drifted_members : gmap Z ChannelMember := {[1 := member_new 5 1 Member]}.

Lemma role_truth_overrides_roles_only_witness :
  exists m', (apply_group_role_truth drifted_members [(1, Owner)]).1 !! 1 = Some m' /\
    role m' = Owner /\ permissions m' = permissions_member /\
    dom (apply_group_role_truth drifted_members [(1, Owner)]).1 = dom drifted_members.
Proof.
  refine (role_truth_overrides_roles_only drifted_members [(1, Owner)] 1 (member_new 5 1 Member) _ _).
  - apply NoDup_singleton.
  - reflexivity.
Defined.

(** After the repair the owner still fails the permission test that
    [ChannelService::update_member_role] applies to its caller. *)
Example repaired_owner_cannot_manage :
  check_permission (with_members example_group (apply_group_role_truth drifted_members [(1, Owner)]).1)
    1 can_manage_permissions = false.
Proof. vm_compute. reflexivity. Qed.

(** ** Database round trip *)
Lemma option_as_i64_as_u64 (o : option Z) :
  (forall z, o = Some z -> is_i64 z) -> as_i64 <$> (as_u64 <$> o) = o.
Proof. destruct o as [z|]; intros H; simpl; [|done]. f_equal. apply as_i64_as_u64_id, H. done. Qed.

Section DbRoundTrip.
Context (from_timestamp_millis : Z -> option Z) (timestamp_millis : Z -> Z).

(** chrono: the milliseconds of a date built from milliseconds are those milliseconds. *)
Hypothesis millis_of_from_millis :
  forall ts dt, from_timestamp_millis ts = Some dt -> timestamp_millis dt = ts.

(** Loading a channel row and writing it back is the identity: for a row
    with a known channel type, BIGINT columns and representable timestamps,
    [to_db_values] of [from_db_row] returns every column unchanged, negative
    BIGINTs (ids at or above 2^63) included. *)
Theorem channel_row_round_trip (now cid ty : Z) (d1 d2 gid mid at_col : option Z)
    (count cr up sync : Z) :
  is_i64 cid -> 0 <= ty <= 2 ->
  Forall is_i64 (omap (fun o => o) [d1; d2; gid; mid]) ->
  Forall (fun ts => is_Some (from_timestamp_millis ts)) (cr :: up :: option_list at_col) ->
  channel_to_db_values timestamp_millis
    (channel_from_db_row from_timestamp_millis now cid ty d1 d2 gid mid at_col count cr up sync) =
  (cid, ty, d1, d2, gid, mid, at_col, count, cr, up).
Proof.
  intros Hcid Hty Hids Hts. unfold channel_to_db_values, channel_from_db_row. simpl.
  apply Forall_cons in Hts as [[dcr Hcr] Hts]. apply Forall_cons in Hts as [[dup Hup] Hts].
  rewrite Hcr, Hup. simpl. rewrite (millis_of_from_millis _ _ Hcr), (millis_of_from_millis _ _ Hup).
  rewrite as_i64_as_u64_id by done.
  rewrite !option_as_i64_as_u64
    by (intros z ->; rewrite Forall_forall in Hids; apply Hids, list_elem_of_omap;
        eexists; split; [|reflexivity]; set_solver).
  assert (channel_type_to_i16 (channel_type_from_i16 ty) = ty) as ->.
  { assert (ty = 0 \/ ty = 1 \/ ty = 2) as [->|[->| ->]] by lia; done. }
  assert (timestamp_millis <$> (at_col ≫= from_timestamp_millis) = at_col) as ->; [|done].
  destruct at_col as [a|]; simpl in *; [|done].
  apply Forall_cons in Hts as [[da Ha] _]. rewrite Ha. simpl. f_equal. by apply millis_of_from_millis.
Qed.
End DbRoundTrip.

Lemma channel_row_round_trip_witness :
  channel_to_db_values (fun d => d / 1000000)
    (channel_from_db_row (fun ts => Some (ts * 1000000)) 77 (-5) 1 None None (Some 9) (Some (-1))
       (Some 1200) 4 1000 1100 3) =
  (-5, 1, None, None, Some 9, Some (-1), Some 1200, 4, 1000, 1100).
Proof.
  refine (channel_row_round_trip (fun ts => Some (ts * 1000000)) (fun d => d / 1000000)
            _ 77 (-5) 1 None None (Some 9) (Some (-1)) (Some 1200) 4 1000 1100 3 _ _ _ _).
  - intros ts dt [= <-]. apply Z.div_mul. lia.
  - unfold is_i64. lia.
  - lia.
  - repeat constructor; vm_compute; congruence.
  - repeat constructor; eauto.
Defined.
