(* ===== verification/Friend.v ===== *)
(** * Contacts: the blacklist and the friendship table

    Models src/src/service/blacklist_service.rs and
    src/src/service/friend_service.rs (with the friendships the administration API
    writes in channel_service.rs) over the tables they own,
    [privchat_blacklist] and [privchat_friendships] (migrations/001_baseline.sql:
    composite primary keys, and a trigger that stamps a fresh [sync_version] on
    every update). A table is a finite map keyed by its primary key, a statement
    is a function on it, and [faults] says which statements of an operation fail.

    [Contacts] below is the state of both tables. The concurrent fallback of
    [accept_friend_request_with_source] re-reads the table; a second read of the
    same state gives the same answer here unless a statement fails. *)

From stdpp Require Import base numbers gmap list sorting strings.
From S2P Require Import Prelude.
Local Open Scope Z_scope.

(** ** Blacklist *)
Module Blacklist.

Record BlacklistEntry := mkEntry {
  be_user_id : Z;
  be_blocked_user_id : Z;
  be_blocked_at : Z;
  be_reason : option string
}.

(** [privchat_blacklist]: (user_id, blocked_user_id) to (reason, created_at). *)
Definition blacklist_table := gmap (Z * Z) (option string * Z).

(** The ids of one row, as bound BIGINTs. *)
Definition pair_key (a b : Z) : Z * Z := (as_i64 a, as_i64 b).

Definition add_to_blacklist (now : Z) (db : faults) (t : blacklist_table)
    (user_id blocked_user_id : Z) (reason : option string)
    : result (BlacklistEntry * blacklist_table) ServerError :=
  if decide (user_id = blocked_user_id) then Err (Validation "不能拉黑自己")
  else exec? db 0%nat else "写入黑名单失败: " in
    let k := pair_key user_id blocked_user_id in
    let row := match t !! k with
               | Some (_, created) => (reason, created)
               | None => (reason, now)
               end in
    Ok (mkEntry user_id blocked_user_id now reason, <[k := row]> t).

Definition remove_from_blacklist (db : faults) (t : blacklist_table) (user_id blocked_user_id : Z)
    : result (bool * blacklist_table) ServerError :=
  exec? db 0%nat else "移除黑名单失败: " in
    let k := pair_key user_id blocked_user_id in
    Ok (bool_decide (is_Some (t !! k)), delete k t).

Definition is_blocked (db : faults) (t : blacklist_table) (user_id target_user_id : Z)
    : result bool ServerError :=
  exec? db 0%nat else "查询黑名单失败: " in
    Ok (bool_decide (is_Some (t !! pair_key user_id target_user_id))).

(** The rows of the query: both directions of the pair. *)
Definition mutual_rows (t : blacklist_table) (user_a user_b : Z) : list (Z * Z) :=
  filter (fun k => k = pair_key user_a user_b \/ k = pair_key user_b user_a)
    (map_to_list t).*1.

Definition check_mutual_block (db : faults) (t : blacklist_table) (user_a user_b : Z)
    : result (bool * bool) ServerError :=
  exec? db 0%nat else "查询双向拉黑失败: " in
    let rows := mutual_rows t user_a user_b in
    let a_blocks_b := existsb (fun '(u, v) => (u =? as_i64 user_a) && (v =? as_i64 user_b)) rows in
    let b_blocks_a := existsb (fun '(u, v) => (u =? as_i64 user_b) && (v =? as_i64 user_a)) rows in
    Ok (a_blocks_b, b_blocks_a).

Definition get_blacklist_count (db : faults) (t : blacklist_table) (user_id : Z)
    : result Z ServerError :=
  exec? db 0%nat else "统计黑名单失败: " in
    Ok (Z.of_nat (length (filter (fun k => k.1 = as_i64 user_id) (map_to_list t).*1))).

Lemma mutual_rows_elem t a b k :
  k ∈ mutual_rows t a b <->
  (k = pair_key a b \/ k = pair_key b a) /\ is_Some (t !! k).
Proof.
  unfold mutual_rows. rewrite list_elem_of_filter, list_elem_of_fmap.
  split.
  - intros [Hk ([k' v] & -> & Hin)]. split; [done|].
    apply elem_of_map_to_list in Hin. eauto.
  - intros [Hk [v Hv]]. split; [done|]. exists (k, v). split; [done|].
    by apply elem_of_map_to_list.
Qed.

Lemma existsb_pair (rows : list (Z * Z)) a b :
  existsb (fun '(u, v) => (u =? a) && (v =? b)) rows = true <-> (a, b) ∈ rows.
Proof.
  rewrite existsb_exists. split.
  - intros ([u v] & Hin & Heq). apply andb_true_iff in Heq as [Hu Hv].
    apply Z.eqb_eq in Hu, Hv. subst. by apply list_elem_of_In.
  - intros Hin. exists (a, b). split; [by apply list_elem_of_In|].
    by rewrite !Z.eqb_refl.
Qed.

(** The one-query form computes the two directed lookups. *)
Lemma check_mutual_block_spec t a b :
  check_mutual_block no_faults t a b =
  Ok (bool_decide (is_Some (t !! pair_key a b)), bool_decide (is_Some (t !! pair_key b a))).
Proof.
  unfold check_mutual_block; simpl. f_equal. f_equal; apply eq_bool_prop_intro;
    rewrite bool_decide_spec, Is_true_true, existsb_pair; fold (pair_key a b); fold (pair_key b a);
    rewrite mutual_rows_elem; naive_solver.
Qed.

End Blacklist.
Import Blacklist.

(** ** Friendships *)
Module Friends.

Inductive FriendshipStatus := Pending | Accepted | Blocked | Rejected | Recalled | Expired.

#[export] Instance friendship_status_eq_dec : EqDecision FriendshipStatus.
Proof. solve_decision. Defined.

Definition friendship_status_from_i16 (v : Z) : FriendshipStatus :=
  match v with
  | 0 => Pending | 1 => Accepted | 2 => Blocked | 3 => Rejected | 4 => Recalled | 5 => Expired
  | _ => Pending
  end.
Definition friendship_status_to_i16 (s : FriendshipStatus) : Z :=
  match s with
  | Pending => 0 | Accepted => 1 | Blocked => 2 | Rejected => 3 | Recalled => 4 | Expired => 5
  end.
Definition is_terminal_non_friend (s : FriendshipStatus) : bool :=
  match s with Rejected | Recalled | Expired | Blocked => true | _ => false end.

Inductive FriendRequestSource :=
| SrcSearch (search_session_id : Z)
| SrcGroup (source_group_id : Z)
| SrcCardShare (share_id : Z)
| SrcQrcode (qrcode : string)
| SrcPhone (phone : string)
| SrcConversation (source_channel_id : Z).

Definition source_to_strings (source : option FriendRequestSource)
    : option string * option string :=
  match source with
  | Some (SrcSearch i) => (Some "search", Some (u64_to_string i))
  | Some (SrcGroup i) => (Some "group", Some (u64_to_string i))
  | Some (SrcCardShare i) => (Some "card_share", Some (u64_to_string i))
  | Some (SrcQrcode q) => (Some "qrcode", Some q)
  | Some (SrcPhone p) => (Some "phone", Some p)
  | Some (SrcConversation i) => (Some "conversation", Some (u64_to_string i))
  | None => (None, None)
  end.

Definition source_from_strings (source source_id : option string) : option FriendRequestSource :=
  match source, source_id with
  | Some s, Some i =>
      if decide (s = "search") then SrcSearch <$> parse_u64 i
      else if decide (s = "group") then SrcGroup <$> parse_u64 i
      else if decide (s = "card_share") then SrcCardShare <$> parse_u64 i
      else if decide (s = "qrcode") then Some (SrcQrcode i)
      else if decide (s = "phone") then Some (SrcPhone i)
      else None
  | _, _ => None
  end.

(** A row of [privchat_friendships]; [status] is the SMALLINT column. *)
Record FriendRow := mkRow {
  fr_status : Z;
  fr_source : option string;
  fr_source_id : option string;
  fr_request_message : option string;
  fr_alias : option string;
  fr_created_at : Z;
  fr_updated_at : Z;
  fr_sync_version : Z
}.

(** The table and the sequence [privchat_friend_sync_version_seq]. *)
Record FriendTable := mkTable {
  ft_rows : gmap (Z * Z) FriendRow;
  ft_seq : Z
}.

Definition friend_table_new : FriendTable := mkTable ∅ 0.

(** [UPDATE ... WHERE key = k AND P]: the trigger stamps the next sequence
    number on a row it changes; the flag is [rows_affected > 0]. *)
Definition update_row (t : FriendTable) (k : Z * Z) (P : FriendRow -> bool)
    (f : FriendRow -> FriendRow) : bool * FriendTable :=
  match ft_rows t !! k with
  | Some r =>
      if P r then
        let r' := f r in
        let v := ft_seq t + 1 in
        (true, mkTable
           (<[k := mkRow (fr_status r') (fr_source r') (fr_source_id r') (fr_request_message r')
                     (fr_alias r') (fr_created_at r') (fr_updated_at r') v]> (ft_rows t)) v)
      else (false, t)
  | None => (false, t)
  end.

(** [INSERT ... ON CONFLICT (user_id, friend_id) DO UPDATE]: the column default
    draws one sequence number, and an update draws another. *)
Definition upsert_row (t : FriendTable) (k : Z * Z) (fresh : FriendRow)
    (f : FriendRow -> FriendRow) : FriendTable :=
  let v := ft_seq t + 1 in
  match ft_rows t !! k with
  | None =>
      mkTable (<[k := mkRow (fr_status fresh) (fr_source fresh) (fr_source_id fresh)
                        (fr_request_message fresh) (fr_alias fresh) (fr_created_at fresh)
                        (fr_updated_at fresh) v]> (ft_rows t)) v
  | Some _ => (update_row (mkTable (ft_rows t) v) k (fun _ => true) f).2
  end.

Definition set_status (s now : Z) (r : FriendRow) : FriendRow :=
  mkRow s (fr_source r) (fr_source_id r) (fr_request_message r) (fr_alias r) (fr_created_at r) now
    (fr_sync_version r).

Definition row_status (t : FriendTable) (k : Z * Z) : option Z := fr_status <$> ft_rows t !! k.

(** Does either direction of the pair carry status [s]? *)
Definition either_status (t : FriendTable) (s a b : Z) : bool :=
  bool_decide (row_status t (pair_key a b) = Some s)
  || bool_decide (row_status t (pair_key b a) = Some s).

Definition try_is_friend (db : faults) (i : nat) (t : FriendTable) (user_id friend_id : Z)
    : result bool ServerError :=
  exec? db i else "Failed to check friendship: " in Ok (either_status t 1 user_id friend_id).

Definition is_friend (db : faults) (i : nat) (t : FriendTable) (user_id friend_id : Z) : bool :=
  match try_is_friend db i t user_id friend_id with Ok b => b | Err _ => false end.

Definition try_friendship_removed (db : faults) (t : FriendTable) (user_id friend_id : Z)
    : result bool ServerError :=
  exec? db 0%nat else "Failed to check removed friendship: " in
    Ok (either_status t 2 user_id friend_id).

Definition send_friend_request_with_source (now : Z) (db : faults) (t : FriendTable)
    (from_user_id to_user_id : Z) (message : option string) (source : option FriendRequestSource)
    : result (Z * FriendTable) ServerError :=
  if from_user_id =? to_user_id then Err (Validation "Cannot add yourself as friend")
  else if is_friend db 0%nat t from_user_id to_user_id then Err (Duplicate "Already friends")
  else
    let '(source_str, source_id_str) := source_to_strings source in
    exec? db 1%nat else "Failed to save friend request: " in
      Ok (as_u64 now,
          upsert_row t (pair_key from_user_id to_user_id)
            (mkRow 0 source_str source_id_str message None now now 0)
            (fun r => mkRow (if fr_status r =? 1 then 1 else 0) source_str source_id_str message
                        (fr_alias r) (fr_created_at r) now (fr_sync_version r))).

Definition send_friend_request (now : Z) (db : faults) (t : FriendTable)
    (from_user_id to_user_id : Z) (message : option string)
    : result (Z * FriendTable) ServerError :=
  send_friend_request_with_source now db t from_user_id to_user_id message None.

Definition reject_friend_request (now : Z) (db : faults) (t : FriendTable) (user_id from_user_id : Z)
    : result (bool * FriendTable) ServerError :=
  exec? db 0%nat else "Failed to reject friend request: " in
    Ok (update_row t (pair_key from_user_id user_id) (fun r => fr_status r =? 0) (set_status 3 now)).

Definition recall_friend_request (now : Z) (db : faults) (t : FriendTable)
    (requester_id target_user_id : Z) : result (bool * FriendTable) ServerError :=
  exec? db 0%nat else "Failed to recall friend request: " in
    Ok (update_row t (pair_key requester_id target_user_id) (fun r => fr_status r =? 0)
          (set_status 4 now)).

Inductive FriendAcceptState := AcceptPending | AcceptAlreadyFriends | AcceptExpired.

Definition check_accept_state (db : faults) (t : FriendTable) (user_id from_user_id : Z)
    : FriendAcceptState :=
  if is_friend db 0%nat t user_id from_user_id then AcceptAlreadyFriends
  else
    let has_pending := match db 1%nat with
                       | Some _ => false
                       | None => bool_decide (row_status t (pair_key from_user_id user_id) = Some 0)
                       end in
    if has_pending then AcceptPending else AcceptExpired.

Inductive AcceptFriendRequestResult :=
| ReqAccepted (source : option FriendRequestSource)
| ReqAlreadyFriends.

(** The transaction commits both rows or none: a statement that fails inside it
    (begin, select, update, upsert, commit: 1 to 5) leaves the table as it was. *)
Definition accept_friend_request_with_source (now : Z) (db : faults) (t : FriendTable)
    (user_id from_user_id : Z) : result (AcceptFriendRequestResult * FriendTable) ServerError :=
  if is_friend db 0%nat t user_id from_user_id then Ok (ReqAlreadyFriends, t)
  else
    exec? db 1%nat else "Failed to begin transaction: " in
    exec? db 2%nat else "Failed to query pending request: " in
    let k := pair_key from_user_id user_id in
    match ft_rows t !! k with
    | Some r =>
        if fr_status r =? 0 then
          exec? db 3%nat else "Failed to update request status: " in
          let t1 := (update_row t k (fun r => fr_status r =? 0) (set_status 1 now)).2 in
          exec? db 4%nat else "Failed to upsert reciprocal friendship: " in
          let t2 := upsert_row t1 (pair_key user_id from_user_id)
                      (mkRow 1 (fr_source r) (fr_source_id r) None None now now 0)
                      (fun r' => mkRow 1 (fr_source r) (fr_source_id r) (fr_request_message r')
                                   (fr_alias r') (fr_created_at r') now (fr_sync_version r')) in
          exec? db 5%nat else "Failed to commit transaction: " in
          Ok (ReqAccepted (source_from_strings (fr_source r) (fr_source_id r)), t2)
        else if is_friend db 6%nat t user_id from_user_id then Ok (ReqAlreadyFriends, t)
        else Err (NotFound "Friend request expired")
    | None =>
        if is_friend db 6%nat t user_id from_user_id then Ok (ReqAlreadyFriends, t)
        else Err (NotFound "Friend request expired")
    end.

Definition accept_friend_request (now : Z) (db : faults) (t : FriendTable)
    (user_id from_user_id : Z) : result (unit * FriendTable) ServerError :=
  let? p := accept_friend_request_with_source now db t user_id from_user_id in Ok (tt, p.2).

(** One UPDATE over both directions of the pair. *)
Definition remove_friend (now : Z) (db : faults) (t : FriendTable) (user_id friend_id : Z)
    : result (unit * FriendTable) ServerError :=
  exec? db 0%nat else "Failed to remove friendship: " in
    let t1 := (update_row t (pair_key user_id friend_id) (fun _ => true) (set_status 2 now)).2 in
    let t2 := if decide (user_id = friend_id) then t1
              else (update_row t1 (pair_key friend_id user_id) (fun _ => true) (set_status 2 now)).2 in
    Ok (tt, t2).

(** The statement of [create_friendship_admin] of channel_service.rs: the
    administration API makes two users friends without a request. *)
Definition create_friendship_admin (now : Z) (db : faults) (t : FriendTable) (user1_id user2_id : Z)
    : result (unit * FriendTable) ServerError :=
  if user1_id =? user2_id then Err (Validation "不能添加自己为好友")
  else
    exec? db 0%nat else "写入好友关系失败: " in
      let fresh := mkRow 1 None None None None now now 0 in
      Ok (tt, upsert_row (upsert_row t (pair_key user1_id user2_id) fresh (set_status 1 now))
                (pair_key user2_id user1_id) fresh (set_status 1 now)).

Definition set_alias (now : Z) (db : faults) (t : FriendTable) (user_id friend_id : Z)
    (alias : option string) : result (bool * FriendTable) ServerError :=
  if negb (is_friend db 0%nat t user_id friend_id)
  then Err (Validation "不是好友关系，无法设置备注")
  else
    let alias_val := a ← alias; if trim_is_empty a then None else Some a in
    exec? db 1%nat else "Failed to set alias: " in
      Ok (true, (update_row t (pair_key user_id friend_id) (fun _ => true)
             (fun r => mkRow (fr_status r) (fr_source r) (fr_source_id r) (fr_request_message r)
                         alias_val (fr_created_at r) now (fr_sync_version r))).2).

(** [ORDER BY updated_at DESC]; the order of equal keys is left open by SQL. *)
Definition newer (x y : (Z * Z) * FriendRow) : Prop := fr_updated_at y.2 <= fr_updated_at x.2.
#[export] Instance newer_dec x y : Decision (newer x y).
Proof. unfold newer. apply _. Defined.

Definition get_friends (db : faults) (t : FriendTable) (user_id : Z)
    : result (list Z) ServerError :=
  exec? db 0%nat else "Failed to query friends: " in
    Ok ((fun p => as_u64 p.1.2) <$>
          merge_sort newer
            (filter (fun p => p.1.1 = as_i64 user_id /\ fr_status p.2 = 1) (map_to_list (ft_rows t)))).

Definition build_request_id (from_user_id to_user_id created_at : Z) : Z :=
  let ts := Z.max created_at 0 in
  Z.lxor (Z.lxor ((Z.shiftl from_user_id 32) mod 2 ^ 64) to_user_id) ts.

Record FriendRequest := mkRequest {
  rq_id : Z; rq_from : Z; rq_to : Z; rq_message : option string;
  rq_status : FriendshipStatus; rq_source : option FriendRequestSource;
  rq_created_at : Z; rq_updated_at : Z
}.

Section Requests.
Context (from_timestamp_millis : Z -> option Z).

Definition row_to_request (now : Z) (p : (Z * Z) * FriendRow) : FriendRequest :=
  let '((from_uid, to_uid), r) := p in
  mkRequest (build_request_id (as_u64 from_uid) (as_u64 to_uid) (fr_created_at r))
    (as_u64 from_uid) (as_u64 to_uid) (fr_request_message r) Pending
    (source_from_strings (fr_source r) (fr_source_id r))
    (default now (from_timestamp_millis (fr_created_at r)))
    (default now (from_timestamp_millis (fr_updated_at r))).

Definition get_pending_requests (now : Z) (db : faults) (t : FriendTable) (user_id : Z)
    : result (list FriendRequest) ServerError :=
  exec? db 0%nat else "Failed to query pending requests: " in
    Ok (row_to_request now <$>
          merge_sort newer
            (filter (fun p => p.1.2 = as_i64 user_id /\ fr_status p.2 = 0) (map_to_list (ft_rows t)))).

Definition get_sent_requests (now : Z) (db : faults) (t : FriendTable) (user_id : Z)
    : result (list FriendRequest) ServerError :=
  exec? db 0%nat else "Failed to query sent requests: " in
    Ok (row_to_request now <$>
          merge_sort newer
            (filter (fun p => p.1.1 = as_i64 user_id /\ fr_status p.2 = 0) (map_to_list (ft_rows t)))).
End Requests.

(** *** Effect of the statements on the status column *)
Lemma update_row_status t k P f k' :
  row_status (update_row t k P f).2 k' =
  if decide (k' = k)
  then (fun r => if P r then fr_status (f r) else fr_status r) <$> ft_rows t !! k
  else row_status t k'.
Proof.
  unfold update_row, row_status. destruct (decide (k' = k)) as [->|Hne].
  - destruct (ft_rows t !! k) as [r|] eqn:Hk; simpl; [|by rewrite Hk].
    destruct (P r); simpl; [by rewrite lookup_insert_eq|by rewrite Hk].
  - destruct (ft_rows t !! k) as [r|]; simpl; [|done].
    destruct (P r); simpl; [by rewrite lookup_insert_ne|done].
Qed.

Lemma upsert_row_status t k fresh f k' :
  row_status (upsert_row t k fresh f) k' =
  if decide (k' = k)
  then Some (match ft_rows t !! k with Some r => fr_status (f r) | None => fr_status fresh end)
  else row_status t k'.
Proof.
  unfold upsert_row. destruct (ft_rows t !! k) as [r|] eqn:Hk.
  - rewrite update_row_status. simpl. rewrite Hk. unfold row_status. simpl. done.
  - unfold row_status. simpl. destruct (decide (k' = k)) as [->|Hne];
      [by rewrite lookup_insert_eq|by rewrite lookup_insert_ne].
Qed.

(** *** Histories *)
Inductive friend_op :=
| OpSend (now : Z) (db : faults) (from_user to_user : Z) (m : option string)
    (src : option FriendRequestSource)
| OpAccept (now : Z) (db : faults) (user from_user : Z)
| OpReject (now : Z) (db : faults) (user from_user : Z)
| OpRecall (now : Z) (db : faults) (requester target : Z)
| OpRemove (now : Z) (db : faults) (user friend : Z)
| OpAlias (now : Z) (db : faults) (user friend : Z) (alias : option string)
| OpAdmin (now : Z) (db : faults) (user1 user2 : Z).

(** The table an operation leaves: a refused or failed one leaves it unchanged. *)
Definition after {A} (t : FriendTable) (r : result (A * FriendTable) ServerError) : FriendTable :=
  match r with Ok (_, t') => t' | Err _ => t end.

Definition apply_friend_op (t : FriendTable) (o : friend_op) : FriendTable :=
  match o with
  | OpSend now db a b m s => after t (send_friend_request_with_source now db t a b m s)
  | OpAccept now db u f => after t (accept_friend_request_with_source now db t u f)
  | OpReject now db u f => after t (reject_friend_request now db t u f)
  | OpRecall now db a b => after t (recall_friend_request now db t a b)
  | OpRemove now db a b => after t (remove_friend now db t a b)
  | OpAlias now db a b al => after t (set_alias now db t a b al)
  | OpAdmin now db a b => after t (create_friendship_admin now db t a b)
  end.

Definition friend_run (ops : list friend_op) : FriendTable :=
  foldl apply_friend_op friend_table_new ops.

Definition op_ids (o : friend_op) : Z * Z :=
  match o with
  | OpSend _ _ a b _ _ | OpAccept _ _ a b | OpReject _ _ a b | OpRecall _ _ a b
  | OpRemove _ _ a b | OpAlias _ _ a b _ | OpAdmin _ _ a b => (a, b)
  end.
Definition op_u64 (o : friend_op) : Prop := is_u64 (op_ids o).1 /\ is_u64 (op_ids o).2.

(** The statements that a transition of the status column can be. *)
Inductive status_change (t : FriendTable) (o : friend_op) (k : Z * Z) (s : option Z) : Prop :=
| SC_same : s = row_status t k -> status_change t o k s
| SC_send now db a b m src :
    o = OpSend now db a b m src -> k = pair_key a b -> row_status t k <> Some 1 -> s = Some 0 ->
    status_change t o k s
| SC_accept now db u f :
    o = OpAccept now db u f -> row_status t (pair_key f u) = Some 0 ->
    k = pair_key f u \/ k = pair_key u f -> s = Some 1 ->
    (forall k', k' = pair_key f u \/ k' = pair_key u f ->
      row_status (apply_friend_op t o) k' = Some 1) ->
    status_change t o k s
| SC_settle x : s = Some x -> x = 3 \/ x = 4 -> row_status t k = Some 0 -> status_change t o k s
| SC_remove now db a b :
    o = OpRemove now db a b -> db 0%nat = None -> k = pair_key a b \/ k = pair_key b a ->
    s = Some 2 ->
    status_change t o k s
| SC_admin now db a b :
    o = OpAdmin now db a b -> k = pair_key a b \/ k = pair_key b a -> s = Some 1 ->
    (forall k', k' = pair_key a b \/ k' = pair_key b a -> row_status (apply_friend_op t o) k' = Some 1) ->
    status_change t o k s.

Lemma send_change t now db a b m src k :
  status_change t (OpSend now db a b m src) k
    (row_status (apply_friend_op t (OpSend now db a b m src)) k).
Proof.
  simpl. unfold send_friend_request_with_source.
  destruct (a =? b); [by apply SC_same|].
  destruct (is_friend _ _ _ _ _); [by apply SC_same|].
  destruct (source_to_strings src). destruct (db 1%nat); [by apply SC_same|]. simpl.
  rewrite upsert_row_status. destruct (decide (k = pair_key a b)) as [->|]; [|by apply SC_same].
  destruct (ft_rows t !! pair_key a b) as [r|] eqn:Hk; simpl.
  - destruct (Z.eqb_spec (fr_status r) 1) as [H1|H1].
    + apply SC_same. unfold row_status. rewrite Hk. simpl. congruence.
    + eapply SC_send; eauto. unfold row_status. rewrite Hk. simpl. congruence.
  - eapply SC_send; eauto. unfold row_status. by rewrite Hk.
Qed.

(** The table after the committed transaction of an acceptance. *)
Definition accepted_table (now : Z) (t : FriendTable) (u f : Z) (r : FriendRow) : FriendTable :=
  upsert_row (update_row t (pair_key f u) (fun r => fr_status r =? 0) (set_status 1 now)).2
    (pair_key u f)
    (mkRow 1 (fr_source r) (fr_source_id r) None None now now 0)
    (fun r' => mkRow 1 (fr_source r) (fr_source_id r) (fr_request_message r')
                 (fr_alias r') (fr_created_at r') now (fr_sync_version r')).

(** An acceptance either commits both rows of a pending request or changes nothing. *)
Lemma accept_cases now db t u f :
  let out := after t (accept_friend_request_with_source now db t u f) in
  (exists r, ft_rows t !! pair_key f u = Some r /\ fr_status r = 0 /\ out = accepted_table now t u f r)
  \/ out = t.
Proof.
  cbn zeta. unfold accept_friend_request_with_source, accepted_table.
  destruct (is_friend db 0%nat t u f); [by right|].
  destruct (db 1%nat); [by right|]. destruct (db 2%nat); [by right|].
  destruct (ft_rows t !! pair_key f u) as [r|] eqn:Hk;
    [|right; by destruct (is_friend db 6%nat t u f)].
  destruct (Z.eqb_spec (fr_status r) 0) as [H0|];
    [|right; by destruct (is_friend db 6%nat t u f)].
  destruct (db 3%nat); [by right|]. destruct (db 4%nat); [by right|].
  destruct (db 5%nat); [by right|]. left. exists r. split_and!; reflexivity || done.
Qed.

Lemma accepted_statuses now t u f r k :
  ft_rows t !! pair_key f u = Some r -> fr_status r = 0 ->
  row_status (accepted_table now t u f r) k =
  if decide (k = pair_key f u \/ k = pair_key u f) then Some 1 else row_status t k.
Proof.
  intros Hk H0. unfold accepted_table.
  rewrite upsert_row_status, update_row_status, Hk. simpl. rewrite H0. simpl.
  destruct (ft_rows _ !! pair_key u f); simpl;
    repeat case_decide; subst; try done; naive_solver.
Qed.

Lemma accept_change t now db u f k :
  status_change t (OpAccept now db u f) k
    (row_status (apply_friend_op t (OpAccept now db u f)) k).
Proof.
  destruct (accept_cases now db t u f) as [(r & Hr & H0 & Heq)|Heq];
    [|apply SC_same; cbn [apply_friend_op]; by rewrite Heq].
  cbn [apply_friend_op]. rewrite Heq, accepted_statuses by done.
  destruct (decide _) as [Hk|]; [|by apply SC_same].
  eapply SC_accept; eauto.
  - unfold row_status. rewrite Hr. simpl. by rewrite H0.
  - intros k' Hk'. cbn [apply_friend_op]. rewrite Heq, accepted_statuses by done.
    by rewrite decide_True.
Qed.

Lemma update_row_settles t k s now k' :
  row_status (update_row t k (fun r => fr_status r =? 0) (set_status s now)).2 k' =
  if decide (k' = k /\ row_status t k = Some 0) then Some s else row_status t k'.
Proof.
  rewrite update_row_status. unfold row_status.
  destruct (decide (k' = k)) as [->|Hne].
  - destruct (ft_rows t !! k) as [r|]; simpl; [|by destruct (decide _) as [[? ?]|]].
    destruct (Z.eqb_spec (fr_status r) 0) as [->|]; destruct (decide _); simpl; naive_solver.
  - destruct (decide _); naive_solver.
Qed.

Lemma remove_statuses t now k k' :
  row_status (update_row t k (fun _ => true) (set_status 2 now)).2 k' =
  if decide (k' = k) then (fun _ => 2) <$> row_status t k else row_status t k'.
Proof.
  rewrite update_row_status. destruct (decide _); [|done]. unfold row_status.
  by destruct (ft_rows t !! k).
Qed.

Lemma after_ok {A} t (p : A * FriendTable) : after t (Ok p) = p.2.
Proof. by destruct p. Qed.

(** An executed removal: both directions that exist carry status 2. *)
Lemma remove_friend_statuses now db t a b k :
  db 0%nat = None ->
  row_status (apply_friend_op t (OpRemove now db a b)) k =
  if decide (k = pair_key a b \/ k = pair_key b a) then (fun _ => 2) <$> row_status t k
  else row_status t k.
Proof.
  intros Hdb. cbn [apply_friend_op]. unfold remove_friend. rewrite Hdb. cbn [after].
  destruct (decide (a = b)) as [->|]; rewrite !remove_statuses; repeat case_decide;
    subst; try done; try naive_solver.
  all: match goal with H : pair_key _ _ = pair_key _ _ |- _ => rewrite ?H in * end.
  all: by destruct (row_status t _).
Qed.

Lemma remove_change t now db a b k :
  status_change t (OpRemove now db a b) k (row_status (apply_friend_op t (OpRemove now db a b)) k).
Proof.
  destruct (db 0%nat) eqn:Hdb.
  - apply SC_same. cbn [apply_friend_op]. unfold remove_friend. by rewrite Hdb.
  - rewrite remove_friend_statuses by done.
    destruct (decide _); [|by apply SC_same].
    destruct (row_status t k) eqn:Hk; simpl; [by eapply SC_remove|by apply SC_same].
Qed.

Lemma admin_statuses now db t a b k : db 0%nat = None -> a <> b ->
  row_status (apply_friend_op t (OpAdmin now db a b)) k =
  if decide (k = pair_key a b \/ k = pair_key b a) then Some 1 else row_status t k.
Proof.
  intros Hdb Hne. cbn [apply_friend_op]. unfold create_friendship_admin.
  rewrite (proj2 (Z.eqb_neq a b) Hne), Hdb. cbn [after]. rewrite !upsert_row_status.
  destruct (ft_rows (upsert_row _ _ _ _) !! pair_key b a), (ft_rows t !! pair_key a b); simpl;
    repeat case_decide; naive_solver.
Qed.

Lemma admin_change t now db a b k :
  status_change t (OpAdmin now db a b) k (row_status (apply_friend_op t (OpAdmin now db a b)) k).
Proof.
  destruct (Z.eq_dec a b) as [->|Hne].
  { apply SC_same. cbn [apply_friend_op]. unfold create_friendship_admin. by rewrite Z.eqb_refl. }
  destruct (db 0%nat) eqn:Hdb.
  - apply SC_same. cbn [apply_friend_op]. unfold create_friendship_admin.
    by rewrite (proj2 (Z.eqb_neq a b) Hne), Hdb.
  - rewrite admin_statuses by done. destruct (decide _); [|by apply SC_same].
    eapply SC_admin; eauto. intros k' Hk'. by rewrite admin_statuses, decide_True.
Qed.

Lemma settle_change t o k s now k' :
  s = 3 \/ s = 4 ->
  status_change t o k' (row_status (update_row t k (fun r => fr_status r =? 0) (set_status s now)).2 k').
Proof.
  intros Hs. rewrite update_row_settles.
  destruct (decide _) as [[-> H0]|]; [by eapply SC_settle|by apply SC_same].
Qed.

Lemma friend_step_change t o k : status_change t o k (row_status (apply_friend_op t o) k).
Proof.
  destruct o as [| |now db u f|now db u f| |now db a b al|];
    [apply send_change|apply accept_change| | |apply remove_change| |apply admin_change].
  - cbn [apply_friend_op]. unfold reject_friend_request.
    destruct (db 0%nat); [by apply SC_same|]. rewrite after_ok. apply settle_change; auto.
  - cbn [apply_friend_op]. unfold recall_friend_request.
    destruct (db 0%nat); [by apply SC_same|]. rewrite after_ok. apply settle_change; auto.
  - apply SC_same. cbn [apply_friend_op]. unfold set_alias.
    destruct (negb _); [done|]. destruct (db 1%nat); [done|]. cbn [after].
    rewrite update_row_status. unfold row_status.
    destruct (decide _) as [->|]; [|done]. by destruct (ft_rows t !! _).
Qed.

(** *** Friendship is mutual *)
Definition mutual (t : FriendTable) : Prop :=
  forall a b, row_status t (a, b) = Some 1 -> row_status t (b, a) = Some 1.

Lemma pair_key_swap a b u v :
  (a, b) = pair_key u v \/ (a, b) = pair_key v u ->
  (b, a) = pair_key u v \/ (b, a) = pair_key v u.
Proof. unfold pair_key. intros [[= -> ->]|[= -> ->]]; auto. Qed.

Lemma removed_not_friend t now db u v k :
  db 0%nat = None -> k = pair_key u v \/ k = pair_key v u ->
  row_status (apply_friend_op t (OpRemove now db u v)) k <> Some 1.
Proof.
  intros Hdb Hk. rewrite remove_friend_statuses, decide_True by done.
  by destruct (row_status t k).
Qed.

Lemma mutual_step t o : mutual t -> mutual (apply_friend_op t o).
Proof.
  intros Hm a b Hab.
  destruct (friend_step_change t o (a, b))
    as [Hs|?????? Ho Hk Hn Hs|???? Ho H0 Hk Hs Hall|x Hs Hx|???? Ho Hdb Hk Hs|???? Ho Hk Hs Hall];
    rewrite Hs in Hab; try (simplify_eq; lia).
  - pose proof (Hm _ _ Hab) as Hba. rewrite <- Hs in Hab.
    destruct (friend_step_change t o (b, a))
      as [Hs'|?????? Ho Hk Hn Hs'|???? Ho H0 Hk Hs' Hall|x Hs' Hx Hz|???? Ho Hdb Hk Hs'|???? Ho Hk Hs' Hall];
      try congruence.
    subst o. exfalso. eapply removed_not_friend; [done| |exact Hab].
    by apply pair_key_swap.
  - by apply Hall, pair_key_swap.
  - by apply Hall, pair_key_swap.
Qed.

(** *** Versions of the sync stream *)
Definition versions_ok (t : FriendTable) : Prop :=
  0 <= ft_seq t /\
  (forall k r, ft_rows t !! k = Some r -> 0 < fr_sync_version r <= ft_seq t) /\
  (forall k1 k2 r1 r2, ft_rows t !! k1 = Some r1 -> ft_rows t !! k2 = Some r2 ->
     fr_sync_version r1 = fr_sync_version r2 -> k1 = k2).

Lemma versions_ok_stamp rows q k r :
  versions_ok (mkTable rows q) -> fr_sync_version r = q + 1 ->
  versions_ok (mkTable (<[k := r]> rows) (q + 1)).
Proof.
  intros (Hq & Hb & Hi) Hr. simpl in *. split_and!; simpl; [lia| |].
  - intros k' r'. rewrite lookup_insert_Some. intros [[<- <-]|[? Hk]]; [lia|].
    apply Hb in Hk. lia.
  - intros k1 k2 r1 r2. rewrite !lookup_insert_Some.
    intros [[<- <-]|[? H1]] [[<- <-]|[? H2]] Heq; try done; try by eapply Hi.
    + apply Hb in H2. lia.
    + apply Hb in H1. lia.
Qed.

Lemma versions_ok_skip rows q : versions_ok (mkTable rows q) -> versions_ok (mkTable rows (q + 1)).
Proof.
  intros (Hq & Hb & Hi). split_and!; simpl in *; [lia| |done].
  intros k r Hk. apply Hb in Hk. lia.
Qed.

Lemma versions_ok_update t k P f : versions_ok t -> versions_ok (update_row t k P f).2.
Proof.
  destruct t as [rows q]. intros H. unfold update_row. simpl.
  destruct (rows !! k) as [r|]; [|done]. destruct (P r); [|done]. by apply versions_ok_stamp.
Qed.

Lemma versions_ok_upsert t k fresh f : versions_ok t -> versions_ok (upsert_row t k fresh f).
Proof.
  destruct t as [rows q]. intros H. unfold upsert_row. simpl.
  destruct (rows !! k) as [r|]; [|by apply versions_ok_stamp].
  by apply versions_ok_update, versions_ok_skip.
Qed.

Lemma versions_ok_step t o : versions_ok t -> versions_ok (apply_friend_op t o).
Proof.
  intros H. destruct o as [now db a b m src|now db u f|now db u f|now db u f|now db a b|now db a b al|now db a b];
    cbn [apply_friend_op].
  - unfold send_friend_request_with_source. destruct (a =? b); [exact H|].
    destruct (is_friend _ _ _ _ _); [exact H|]. destruct (source_to_strings src).
    destruct (db 1%nat); [exact H|]. by apply versions_ok_upsert.
  - destruct (accept_cases now db t u f) as [(r & _ & _ & ->)| ->]; [|exact H].
    by apply versions_ok_upsert, versions_ok_update.
  - unfold reject_friend_request. destruct (db 0%nat); [exact H|].
    rewrite after_ok. by apply versions_ok_update.
  - unfold recall_friend_request. destruct (db 0%nat); [exact H|].
    rewrite after_ok. by apply versions_ok_update.
  - unfold remove_friend. destruct (db 0%nat); [exact H|]. cbn [after].
    destruct (decide _); repeat apply versions_ok_update; done.
  - unfold set_alias. destruct (negb _); [exact H|]. destruct (db 1%nat); [exact H|].
    by apply versions_ok_update.
  - unfold create_friendship_admin. destruct (a =? b); [exact H|]. destruct (db 0%nat); [exact H|].
    by repeat apply versions_ok_upsert.
Qed.

Lemma friend_run_snoc ops o : friend_run (ops ++ [o]) = apply_friend_op (friend_run ops) o.
Proof. unfold friend_run. by rewrite foldl_snoc. Qed.

Lemma friend_run_versions ops : versions_ok (friend_run ops).
Proof.
  induction ops as [|o ops IH] using rev_ind.
  - split_and!; simpl; [lia|done..].
  - rewrite friend_run_snoc. by apply versions_ok_step.
Qed.

Lemma friend_run_mutual ops : mutual (friend_run ops).
Proof.
  induction ops as [|o ops IH] using rev_ind; [done|].
  rewrite friend_run_snoc. by apply mutual_step.
Qed.

(** *** Consent *)
Definition same_pair (x y a b : Z) : Prop := (x = a /\ y = b) \/ (x = b /\ y = a).

(** No removal of the pair was executed. *)
Definition not_removed (ops : list friend_op) (a b : Z) : Prop :=
  forall now db x y, OpRemove now db x y ∈ ops -> same_pair x y a b -> db 0%nat <> None.

(** [b] accepted a request [a] had sent before. *)
Definition consented (ops : list friend_op) (a b : Z) : Prop :=
  exists ops1 now db ops2, ops = ops1 ++ OpAccept now db b a :: ops2 /\ not_removed ops2 a b /\
    (exists now' db' m src, OpSend now' db' a b m src ∈ ops1).

(** An administrator made the two users friends. *)
Definition appointed (ops : list friend_op) (a b : Z) : Prop :=
  exists ops1 now db x y ops2, ops = ops1 ++ OpAdmin now db x y :: ops2 /\ not_removed ops2 a b /\
    same_pair x y a b.

Definition befriended (ops : list friend_op) (a b : Z) : Prop :=
  consented ops a b \/ consented ops b a \/ appointed ops a b.

Lemma same_pair_sym x y a b : same_pair x y a b -> same_pair x y b a.
Proof. unfold same_pair. tauto. Qed.

Lemma not_removed_snoc ops o a b : not_removed ops a b -> not_removed [o] a b ->
  not_removed (ops ++ [o]) a b.
Proof. intros H Ho now db x y [Hi|Hi]%elem_of_app; [by eapply H|by eapply Ho]. Qed.
Lemma not_removed_sym ops a b : not_removed ops a b -> not_removed ops b a.
Proof. intros H now db x y Hi Hp. eapply H; [done|]. by apply same_pair_sym. Qed.

Lemma consented_snoc ops o a b : consented ops a b -> not_removed [o] a b -> consented (ops ++ [o]) a b.
Proof.
  intros (ops1 & now & db & ops2 & -> & Hrm & Hsend) Ho.
  exists ops1, now, db, (ops2 ++ [o]). split_and!; [by rewrite <- app_assoc|by apply not_removed_snoc|done].
Qed.
Lemma befriended_snoc ops o a b : befriended ops a b -> not_removed [o] a b -> befriended (ops ++ [o]) a b.
Proof.
  intros [Hc|[Hc|(ops1 & now & db & x & y & ops2 & -> & Hrm & Hp)]] Ho.
  - left. by apply consented_snoc.
  - right. left. by apply consented_snoc, not_removed_sym.
  - right. right. exists ops1, now, db, x, y, (ops2 ++ [o]).
    split_and!; [by rewrite <- app_assoc|by apply not_removed_snoc|done].
Qed.

Lemma pair_key_inj a b u v :
  is_u64 a -> is_u64 b -> is_u64 u -> is_u64 v -> pair_key a b = pair_key u v -> a = u /\ b = v.
Proof. unfold pair_key. intros ???? [= ? ?]. split; by apply as_i64_inj. Qed.

Lemma friendship_needs_consent ops :
  Forall op_u64 ops ->
  forall a b, is_u64 a -> is_u64 b ->
  (row_status (friend_run ops) (pair_key a b) = Some 0 ->
     exists now db m src, OpSend now db a b m src ∈ ops) /\
  (row_status (friend_run ops) (pair_key a b) = Some 1 -> befriended ops a b).
Proof.
  induction ops as [|o ops IH] using rev_ind; [done|].
  intros [Hops [[Hx Hy] _]%Forall_cons]%Forall_app a b Ha Hb. rewrite friend_run_snoc.
  destruct (IH Hops a b Ha Hb) as [IH0 IH1].
  split; intros Hst.
  - destruct (friend_step_change (friend_run ops) o (pair_key a b))
      as [Hs|?????? -> Hk Hn Hs|???? -> H0 Hk Hs Hall|x Hs Hx'|???? -> Hdb Hk Hs|???? -> Hk Hs Hall];
      rewrite Hs in Hst; try (simplify_eq; lia).
    + destruct (IH0 Hst) as (now & db & m & src & Hin). exists now, db, m, src.
      rewrite elem_of_app. auto.
    + apply pair_key_inj in Hk as [-> ->]; [|done..].
      eexists _, _, _, _. rewrite elem_of_app, list_elem_of_singleton. right. reflexivity.
  - destruct (friend_step_change (friend_run ops) o (pair_key a b))
      as [Hs|?????? -> Hk Hn Hs|now db u f -> H0 Hk Hs Hall|x Hs Hx'|???? -> Hdb Hk Hs|now db u f -> Hk Hs Hall];
      rewrite Hs in Hst; try (simplify_eq; lia).
    + apply befriended_snoc; [by apply IH1|]. intros now db x y Ho%list_elem_of_singleton Hp Hdb. subst o.
      rewrite <- Hs in Hst. eapply removed_not_friend; [exact Hdb| |exact Hst].
      destruct Hp as [[-> ->]|[-> ->]]; auto.
    + assert (consented (ops ++ [OpAccept now db u f]) f u) as Hc.
      { exists ops, now, db, []. split_and!; [done|by intros ???? ?%elem_of_nil|].
        by apply (IH Hops f u). }
      destruct Hk as [Hk|Hk]; apply pair_key_inj in Hk as [-> ->]; unfold befriended; auto.
    + right. right. exists ops, now, db, u, f, []. split_and!; [done|by intros ???? ?%elem_of_nil|].
      destruct Hk as [Hk|Hk]; apply pair_key_inj in Hk as [-> ->]; unfold same_pair; auto.
Qed.

(** *** The friend stream of [entity/sync_entities] *)
Record CachedUserProfile := mkProfile {
  cp_username : string;
  cp_nickname : string;
  cp_avatar_url : option string;
  cp_user_type : Z
}.

Record FriendSyncUserPayload := mkUserPayload {
  up_username : option string; up_nickname : option string; up_name : option string;
  up_alias : option string; up_avatar : option string; up_user_type : option Z;
  up_type_field : option Z; up_updated_at : option Z; up_version : option Z
}.
Record FriendSyncFriendPayload := mkFriendPayload {
  fp_created_at : option Z; fp_updated_at : option Z; fp_version : option Z
}.
Record FriendSyncPayload := mkPayload {
  py_user_id : option Z; py_uid : option Z; py_tags : option string;
  py_is_pinned : option bool; py_pinned : option bool;
  py_created_at : option Z; py_updated_at : option Z; py_version : option Z;
  py_friend : option FriendSyncFriendPayload; py_user : option FriendSyncUserPayload;
  py_status : option Z; py_is_outgoing : option bool; py_request_message : option string;
  py_request_source : option string; py_request_source_id : option string
}.

(** [ORDER BY sync_version, user_id, friend_id]. *)
Definition sync_le (x y : (Z * Z) * FriendRow) : Prop :=
  fr_sync_version x.2 < fr_sync_version y.2 \/
  fr_sync_version x.2 = fr_sync_version y.2 /\
    (x.1.1 < y.1.1 \/ x.1.1 = y.1.1 /\ x.1.2 <= y.1.2).
#[export] Instance sync_le_dec x y : Decision (sync_le x y).
Proof. unfold sync_le. apply _. Defined.

(** The rows that involve [me] and are newer than the cursor, in order. *)
Definition sync_rows (t : FriendTable) (me since : Z) : list ((Z * Z) * FriendRow) :=
  merge_sort sync_le
    (filter (fun p => (p.1.1 = me \/ p.1.2 = me) /\ since < fr_sync_version p.2)
       (map_to_list (ft_rows t))).

Section SyncPage.
Context {Json : Type} (to_value : FriendSyncPayload -> result Json string).

Record SyncEntityItem := mkItem {
  it_entity_id : string;
  it_version : Z;
  it_deleted : bool;
  it_payload : option Json
}.
Record SyncEntitiesResponse := mkResponse {
  rs_items : list SyncEntityItem;
  rs_next_version : Z;
  rs_has_more : bool;
  rs_min_version : option Z
}.

(** The other side of the row, and whether the viewer owns it. *)
Definition peer_of (me : Z) (k : Z * Z) : Z * bool :=
  if k.1 =? me then (k.2, true) else (k.1, false).

Definition user_block (r : FriendRow) (outgoing : bool) (profile : CachedUserProfile)
    (profile_version : Z) : FriendSyncUserPayload :=
  mkUserPayload (Some (cp_username profile)) (Some (cp_nickname profile)) (Some (cp_nickname profile))
    (if outgoing then fr_alias r else None) (Some (default EmptyString (cp_avatar_url profile)))
    (Some (cp_user_type profile)) (Some (cp_user_type profile)) None (Some (as_i64 profile_version)).

Definition row_payload (r : FriendRow) (peer_id : Z) (outgoing : bool)
    (ub : FriendSyncUserPayload) : FriendSyncPayload :=
  if fr_status r =? 1 then
    mkPayload (Some peer_id) (Some peer_id) None (Some false) (Some false)
      (Some (fr_created_at r)) (Some (fr_updated_at r)) (Some (fr_sync_version r))
      (Some (mkFriendPayload (Some (fr_created_at r)) (Some (fr_updated_at r))
               (Some (fr_sync_version r))))
      (Some ub) (Some (fr_status r)) None None None None
  else
    mkPayload (Some peer_id) (Some peer_id) None (Some false) (Some false)
      (Some (fr_created_at r)) (Some (fr_updated_at r)) (Some (fr_sync_version r))
      None (Some ub) (Some (fr_status r)) (Some outgoing) (fr_request_message r) (fr_source r)
      (fr_source_id r).

(** The loop over the page: items, cursor, [stopped_early]. *)
Fixpoint sync_loop (me : Z) (profiles : gmap Z (CachedUserProfile * Z))
    (page : list ((Z * Z) * FriendRow)) (items : list SyncEntityItem) (next : Z)
    : result (list SyncEntityItem * Z * bool) ServerError :=
  match page with
  | [] => Ok (items, next, false)
  | (k, r) :: page' =>
      let '(peer_i64, outgoing) := peer_of me k in
      let peer_id := as_u64 peer_i64 in
      let version := as_u64 (fr_sync_version r) in
      if fr_status r =? 2 then
        sync_loop me profiles page' (items ++ [mkItem (u64_to_string peer_id) version true None])
          version
      else
        match profiles !! peer_id with
        | None =>
            match items with
            | [] => Err (Database (("friend sync cannot progress: profile row for user " +:+
                                      u64_to_string peer_id) +:+ " is missing"))
            | _ => Ok (items, next, true)
            end
        | Some (profile, profile_version) =>
            match to_value (row_payload r peer_id outgoing
                              (user_block r outgoing profile profile_version)) with
            | Err e => Err (Internal ("friend payload serialize failed: " +:+ e))
            | Ok payload =>
                sync_loop me profiles page'
                  (items ++ [mkItem (u64_to_string peer_id) version false (Some payload)]) version
            end
        end
  end.

(** [find_related_since] is the user repository's batch read; the map keeps the
    last entry of a user id. *)
Context (find_related_since : list Z -> Z -> Z -> result (list (Z * (CachedUserProfile * Z))) string).

Definition sync_entities_page (db : faults) (t : FriendTable) (user_id : Z)
    (since_version : option Z) (limit : Z) : result SyncEntitiesResponse ServerError :=
  let limit := Z.max (Z.min limit 200) 1 in
  let since_v := default 0 since_version in
  let me := as_i64 user_id in
  exec? db 0%nat else "Failed to query friend sync page: " in
  let rows := take (Z.to_nat (limit + 1)) (sync_rows t me (as_i64 since_v)) in
  let has_more_rows := bool_decide (Z.to_nat limit < length rows)%nat in
  let page := take (Z.to_nat limit) rows in
  let peer_ids := (fun p => as_u64 (peer_of me p.1).1) <$> page in
  match find_related_since peer_ids 0 (Z.max (Z.of_nat (length peer_ids)) 1) with
  | Err e => Err (Database ("Failed to load friend sync profiles: " +:+ e))
  | Ok entries =>
      let profiles := foldl (fun m p => <[p.1 := p.2]> m) ∅ entries in
      let? out := sync_loop me profiles page [] since_v in
      let '(items, next_version, stopped_early) := out in
      Ok (mkResponse items next_version (has_more_rows || stopped_early) None)
  end.

(** *** Facts about the page loop *)

(** What the client learns of a row: entity id, version, tombstone. *)
Definition row_tag (me : Z) (p : (Z * Z) * FriendRow) : string * Z * bool :=
  (u64_to_string (as_u64 (peer_of me p.1).1), as_u64 (fr_sync_version p.2), fr_status p.2 =? 2).
Definition item_tag (i : SyncEntityItem) : string * Z * bool :=
  (it_entity_id i, it_version i, it_deleted i).

Lemma sync_loop_sent me profiles page items next items' next' stopped :
  sync_loop me profiles page items next = Ok (items', next', stopped) ->
  exists sent rest,
    page = sent ++ rest /\
    item_tag <$> items' = (item_tag <$> items) ++ (row_tag me <$> sent) /\
    next' = default next ((fun p => as_u64 (fr_sync_version p.2)) <$> last sent) /\
    (stopped = false -> rest = []) /\
    (page <> [] -> items = [] -> sent <> []).
Proof.
  revert items next. induction page as [|[k r] page IH]; intros items next; cbn [sync_loop].
  - intros [= <- <- <-]. exists [], []. split_and!; try done. by rewrite app_nil_r.
  - assert (forall x next1 items1,
      item_tag x = row_tag me (k, r) -> next1 = as_u64 (fr_sync_version r) ->
      items1 = items ++ [x] ->
      sync_loop me profiles page items1 next1 = Ok (items', next', stopped) ->
      exists sent rest, (k, r) :: page = sent ++ rest /\
        item_tag <$> items' = (item_tag <$> items) ++ (row_tag me <$> sent) /\
        next' = default next ((fun p => as_u64 (fr_sync_version p.2)) <$> last sent) /\
        (stopped = false -> rest = []) /\
        ((k, r) :: page <> [] -> items = [] -> sent <> [])) as Hgo.
    { intros x next1 items1 Hx -> -> Hrun.
      destruct (IH _ _ Hrun) as (sent & rest & -> & Hi & Hn & Hst & _).
      exists ((k, r) :: sent), rest. split_and!; try done.
      - rewrite Hi, fmap_app, <- app_assoc. simpl. by rewrite Hx.
      - rewrite Hn. destruct sent as [|q sent]; [done|].
        assert (is_Some (last (q :: sent))) as [y Hy] by by apply last_is_Some.
        by rewrite (last_cons (k, r) (q :: sent)), Hy. }
    destruct (peer_of me k) as [peer out] eqn:Hpeer.
    destruct (fr_status r =? 2) eqn:H2; [|destruct (profiles !! as_u64 peer) as [[pr pv]|]].
    + apply Hgo with (x := mkItem (u64_to_string (as_u64 peer)) (as_u64 (fr_sync_version r)) true None);
        try done. unfold item_tag, row_tag. simpl. by rewrite Hpeer, H2.
    + destruct (to_value _) as [v|e]; [|done].
      apply Hgo with (x := mkItem (u64_to_string (as_u64 peer)) (as_u64 (fr_sync_version r)) false (Some v));
        try done. unfold item_tag, row_tag. simpl. by rewrite Hpeer, H2.
    + destruct items as [|i items]; [done|]. intros [= <- <- <-].
      exists [], ((k, r) :: page). split_and!; try done. by rewrite app_nil_r.
Qed.

(** *** The stream resumes exactly after the last row sent *)
Lemma sync_rows_elem t me c k r :
  (k, r) ∈ sync_rows t me c <->
  ft_rows t !! k = Some r /\ (k.1 = me \/ k.2 = me) /\ c < fr_sync_version r.
Proof.
  unfold sync_rows. rewrite merge_sort_Permutation, list_elem_of_filter, elem_of_map_to_list.
  simpl. naive_solver.
Qed.

Lemma sync_rows_NoDup t me c : NoDup (sync_rows t me c).
Proof.
  unfold sync_rows. rewrite merge_sort_Permutation. apply NoDup_filter, NoDup_map_to_list.
Qed.

#[local] Instance sync_le_trans : Transitive sync_le.
Proof. intros [[] ] [[] ] [[] ]. unfold sync_le. simpl. lia. Qed.
#[local] Instance sync_le_total : Total sync_le.
Proof. intros [[] ] [[] ]. unfold sync_le. simpl. lia. Qed.

Lemma sync_rows_sorted t me c : StronglySorted sync_le (sync_rows t me c).
Proof. apply Sorted_StronglySorted; [apply _|]. apply Sorted_merge_sort, _. Qed.

Lemma version_determines_row t (x y : (Z * Z) * FriendRow) :
  versions_ok t -> ft_rows t !! x.1 = Some x.2 -> ft_rows t !! y.1 = Some y.2 ->
  fr_sync_version x.2 = fr_sync_version y.2 -> x = y.
Proof.
  destruct x as [k r], y as [k' r']. simpl. intros (_ & _ & Hinj) Hk Hk' Hv.
  assert (k = k') as -> by (by eapply Hinj). congruence.
Qed.

(** The cursor after sending a prefix of the stream. *)
Definition cursor_after (c : Z) (sent : list ((Z * Z) * FriendRow)) : Z :=
  default c ((fun p => fr_sync_version p.2) <$> last sent).

Lemma sync_prefix_bounds t me c sent rest :
  versions_ok t -> sync_rows t me c = sent ++ rest ->
  c <= cursor_after c sent /\
  (sent <> [] -> c < cursor_after c sent) /\
  (forall p, p ∈ sent -> fr_sync_version p.2 <= cursor_after c sent) /\
  (forall p, p ∈ rest -> cursor_after c sent < fr_sync_version p.2).
Proof.
  intros Hok Heq.
  pose proof (sync_rows_sorted t me c) as Hs. pose proof (sync_rows_NoDup t me c) as Hnd.
  assert (forall p, p ∈ sent ++ rest -> ft_rows t !! p.1 = Some p.2 /\ c < fr_sync_version p.2) as Hall.
  { intros [k r] Hin. rewrite <- Heq in Hin. apply sync_rows_elem in Hin. naive_solver. }
  rewrite Heq in Hs, Hnd. apply NoDup_app in Hnd as (_ & Hdisj & _).
  unfold cursor_after. destruct (last sent) as [z|] eqn:Hl; simpl.
  - assert (z ∈ sent) as Hz by (apply last_Some in Hl as [l' ->]; set_solver).
    destruct (Hall z) as [Htz Hcz]; [set_solver|].
    split_and!; [lia|done| |].
    + intros p Hp. apply last_Some in Hl as [l' ->].
      apply elem_of_app in Hp as [Hp| ->%list_elem_of_singleton]; [|done].
      apply StronglySorted_app_1_l in Hs.
      destruct (StronglySorted_app_1_elem_of _ _ _ p z Hs Hp) as [?|[? _]]; [set_solver|lia..].
    + intros p Hp.
      destruct (StronglySorted_app_1_elem_of _ _ _ z p Hs Hz Hp) as [?|[Hv _]]; [done|].
      destruct (Hall p) as [Htp _]; [set_solver|].
      rewrite (version_determines_row t z p Hok Htz Htp Hv) in Hz. by destruct (Hdisj p).
  - apply last_None in Hl. subst sent. split_and!; [lia|done|by intros p ?%elem_of_nil|].
    intros p Hp. by apply Hall.
Qed.

Lemma sync_rows_resume t me c sent rest :
  versions_ok t -> sync_rows t me c = sent ++ rest ->
  rest = sync_rows t me (cursor_after c sent).
Proof.
  intros Hok Heq. destruct (sync_prefix_bounds t me c sent rest Hok Heq) as (Hc & _ & Hle & Hgt).
  pose proof (sync_rows_sorted t me c) as Hs. pose proof (sync_rows_NoDup t me c) as Hnd.
  assert (forall p, p ∈ sent ++ rest <-> ft_rows t !! p.1 = Some p.2 /\ (p.1.1 = me \/ p.1.2 = me)
                      /\ c < fr_sync_version p.2) as Hall.
  { intros [k r]. rewrite <- Heq. apply sync_rows_elem. }
  rewrite Heq in Hs, Hnd. apply NoDup_app in Hnd as (_ & _ & Hnd).
  assert (forall p, p ∈ rest <-> p ∈ sync_rows t me (cursor_after c sent)) as Hmem.
  { intros [k r]. rewrite sync_rows_elem. split.
    - intros Hin. destruct (proj1 (Hall (k, r))) as (? & ? & ?); [set_solver|].
      split_and!; try done. by apply (Hgt (k, r)).
    - intros (Hk & Hme & Hv). assert ((k, r) ∈ sent ++ rest) as Hin.
      { apply Hall. split_and!; try done. simpl. lia. }
      apply elem_of_app in Hin as [Hin|]; [|done]. apply Hle in Hin. simpl in Hin. lia. }
  apply (Sorted_unique_strong sync_le).
  - intros [k r] [k' r'] Hx%Hmem Hy Hxy Hyx. apply sync_rows_elem in Hx as [? _], Hy as [? _].
    apply (version_determines_row t); try done. unfold sync_le in *. simpl in *. lia.
  - apply StronglySorted_Sorted. by eapply StronglySorted_app_1_r.
  - apply StronglySorted_Sorted, sync_rows_sorted.
  - apply NoDup_Permutation; [done|apply sync_rows_NoDup|done].
Qed.

Lemma cursor_after_u64 t me c sent rest :
  versions_ok t -> ft_seq t < 2 ^ 63 -> sync_rows t me c = sent ++ rest ->
  default c ((fun p => as_u64 (fr_sync_version p.2)) <$> last sent) = cursor_after c sent.
Proof.
  intros (_ & Hb & _) Hseq Heq. unfold cursor_after.
  destruct (last sent) as [[k r]|] eqn:Hl; [|done]. simpl.
  assert ((k, r) ∈ sync_rows t me c) as Hin.
  { rewrite Heq. apply last_Some in Hl as [l' ->]. set_solver. }
  apply sync_rows_elem in Hin as [Hk _]. apply Hb in Hk. apply Z.mod_small. lia.
Qed.

(** One page: what was sent is a prefix of the stream after the cursor, and the
    returned cursor denotes exactly the rest. *)
Lemma sync_page_prefix db t user_id since limit resp :
  versions_ok t -> ft_seq t < 2 ^ 63 -> 0 <= since < 2 ^ 63 ->
  sync_entities_page db t user_id (Some since) limit = Ok resp ->
  exists sent rest,
    sync_rows t (as_i64 user_id) since = sent ++ rest /\
    item_tag <$> rs_items resp = row_tag (as_i64 user_id) <$> sent /\
    rs_next_version resp = cursor_after since sent /\
    rest = sync_rows t (as_i64 user_id) (rs_next_version resp) /\
    (rs_has_more resp = false -> rest = []) /\
    (rs_has_more resp = true -> sent <> []).
Proof.
  intros Hok Hseq Hsince. unfold sync_entities_page. simpl default.
  destruct (db 0%nat); [done|].
  assert (as_i64 since = since) as ->.
  { unfold as_i64. destruct (Z.ltb_spec since (2 ^ 63)); lia. }
  set (me := as_i64 user_id). set (n := Z.max (Z.min limit 200) 1).
  set (rows := sync_rows t me since).
  destruct (find_related_since _ _ _) as [entries|]; [|done].
  destruct (sync_loop _ _ _ _ _) as [[[items next] stopped]|] eqn:Hloop; [|done].
  intros [= <-]. simpl.
  destruct (sync_loop_sent _ _ _ _ _ _ _ _ Hloop) as (sent & rest & Hpage & Hi & Hn & Hst & Hprog).
  rewrite take_take in Hpage.
  replace (Z.to_nat n `min` Z.to_nat (n + 1))%nat with (Z.to_nat n) in Hpage by lia.
  assert (rows = sent ++ rest ++ drop (Z.to_nat n) rows) as Hrows.
  { by rewrite app_assoc, <- Hpage, take_drop. }
  rewrite (cursor_after_u64 t me since sent _ Hok Hseq Hrows) in Hn.
  exists sent, (rest ++ drop (Z.to_nat n) rows).
  split_and!; try done.
  - rewrite Hn. by apply sync_rows_resume.
  - intros [Hlen Hs]%orb_false_iff. rewrite (Hst Hs). simpl.
    apply drop_ge. apply bool_decide_eq_false in Hlen. rewrite length_take in Hlen. lia.
  - intros Hmore. apply Hprog; [|done]. rewrite take_take.
    replace (Z.to_nat n `min` Z.to_nat (n + 1))%nat with (Z.to_nat n) by lia.
    intros Hnil.
    assert (rows = []) as Hr.
    { destruct rows; [done|]. destruct (Z.to_nat n) eqn:?; [lia|done]. }
    fold rows in Hloop. rewrite Hr in Hloop. rewrite take_nil, take_nil in Hloop. simpl in Hloop.
    simplify_eq. rewrite Hr, take_nil in Hmore.
    apply orb_true_iff in Hmore as [Hmore|]; [|done].
    apply bool_decide_eq_true in Hmore. simpl in Hmore. lia.
Qed.

(** A client that pulls pages until [has_more] is false. *)
Fixpoint client_sync (fuel : nat) (t : FriendTable) (user_id since limit : Z)
    : option (result (list SyncEntityItem) ServerError) :=
  match fuel with
  | O => None
  | S f =>
      match sync_entities_page no_faults t user_id (Some since) limit with
      | Err e => Some (Err e)
      | Ok resp =>
          if rs_has_more resp then
            match client_sync f t user_id (rs_next_version resp) limit with
            | Some (Ok more) => Some (Ok (rs_items resp ++ more))
            | other => other
            end
          else Some (Ok (rs_items resp))
      end
  end.

(** serde_json serialises the payload struct. *)
Hypothesis payload_serializes : forall p, exists j, to_value p = Ok j.

(** The batch read of user rows returns every requested user that exists. *)
Variable user_exists : Z -> Prop.
Hypothesis profiles_found : forall ids n,
  Z.of_nat (length ids) <= n -> Forall user_exists ids ->
  exists entries, find_related_since ids 0 n = Ok entries /\ forall i, i ∈ ids -> i ∈ entries.*1.

Lemma sync_loop_total me profiles page items next :
  (forall p, p ∈ page -> is_Some (profiles !! as_u64 (peer_of me p.1).1)) ->
  exists items' next', sync_loop me profiles page items next = Ok (items', next', false).
Proof.
  revert items next. induction page as [|[k r] page IH]; intros items next Hp; cbn [sync_loop];
    [eauto|].
  assert (forall p, p ∈ page -> is_Some (profiles !! as_u64 (peer_of me p.1).1)) as Hp'
    by (intros p ?; apply Hp; set_solver).
  destruct (Hp (k, r) ltac:(set_solver)) as [[pr pv] Hlk]. simpl in Hlk.
  destruct (peer_of me k) as [peer out]. simpl in Hlk. rewrite Hlk.
  destruct (fr_status r =? 2); [by apply IH|].
  destruct (payload_serializes
              (row_payload r (as_u64 peer) out (user_block r out pr pv))) as [j ->].
  by apply IH.
Qed.

Lemma profile_map_covers (entries : list (Z * (CachedUserProfile * Z)))
    (m : gmap Z (CachedUserProfile * Z)) i :
  i ∈ entries.*1 \/ is_Some (m !! i) ->
  is_Some (foldl (fun m p => <[p.1 := p.2]> m) m entries !! i).
Proof.
  revert m. induction entries as [|[j v] entries IH]; intros m H; simpl.
  - destruct H as [H|H]; [by apply elem_of_nil in H|done].
  - apply IH. destruct H as [H|H].
    + simpl in H. apply elem_of_cons in H as [->|H]; [|by left].
      right. rewrite lookup_insert_eq. eauto.
    + right. destruct (decide (i = j)) as [->|].
      * rewrite lookup_insert_eq. eauto.
      * by rewrite lookup_insert_ne.
Qed.

(** Both columns of the friendship table are foreign keys into the user table. *)
Definition foreign_keys (t : FriendTable) : Prop :=
  forall k r, ft_rows t !! k = Some r -> user_exists (as_u64 k.1) /\ user_exists (as_u64 k.2).

Lemma sync_page_total t user_id since limit :
  foreign_keys t ->
  exists resp, sync_entities_page no_faults t user_id (Some since) limit = Ok resp.
Proof.
  intros Hfk. unfold sync_entities_page. simpl default. cbn zeta beta. unfold no_faults.
  set (page := take _ (take _ _)). set (ids := _ <$> page).
  assert (Forall user_exists ids) as Hids.
  { subst ids. apply Forall_fmap, Forall_forall. intros [k r] Hin. simpl.
    apply elem_of_take in Hin as (i & Hin & _).
    apply list_elem_of_lookup_2, elem_of_take in Hin as (j & Hin & _).
    apply list_elem_of_lookup_2, sync_rows_elem in Hin as [Hk _]. apply Hfk in Hk as [??].
    unfold peer_of. by destruct (k.1 =? _). }
  destruct (profiles_found ids (Z.max (Z.of_nat (length ids)) 1) ltac:(lia) Hids)
    as (entries & -> & Hcov).
  edestruct sync_loop_total as (items & next & ->); [|by eexists].
  intros p Hp. apply profile_map_covers. left. apply Hcov. subst ids.
  apply list_elem_of_fmap. eauto.
Qed.

Lemma client_sync_complete fuel t user_id since limit :
  versions_ok t -> foreign_keys t -> ft_seq t < 2 ^ 63 -> 0 <= since < 2 ^ 63 ->
  (length (sync_rows t (as_i64 user_id) since) < fuel)%nat ->
  exists items, client_sync fuel t user_id since limit = Some (Ok items) /\
    item_tag <$> items = row_tag (as_i64 user_id) <$> sync_rows t (as_i64 user_id) since.
Proof.
  intros Hok Hfk Hseq. revert since. induction fuel as [|f IH]; intros since Hsince Hfuel; [lia|].
  cbn [client_sync].
  destruct (sync_page_total t user_id since limit Hfk) as [resp Hresp]. rewrite Hresp.
  destruct (sync_page_prefix _ _ _ _ _ _ Hok Hseq Hsince Hresp)
    as (sent & rest & Hrows & Hi & Hn & Hrest & Hdone & Hprog).
  destruct (rs_has_more resp).
  - destruct (sync_prefix_bounds _ _ _ _ _ Hok Hrows) as (Hc & Hlt & Hle & _).
    rewrite <- Hn in *. specialize (Hlt (Hprog eq_refl)).
    assert (rs_next_version resp <= ft_seq t) as Hbnd.
    { rewrite Hn. unfold cursor_after. destruct (last sent) as [[k r]|] eqn:Hl.
      - simpl. apply last_Some in Hl as [l' ->].
        assert ((k, r) ∈ sync_rows t (as_i64 user_id) since) as Hin by (rewrite Hrows; set_solver).
        apply sync_rows_elem in Hin as [Hk _]. destruct Hok as (_ & Hb & _).
        apply Hb in Hk. lia.
      - apply last_None in Hl. by destruct Hprog. }
    destruct (IH (rs_next_version resp)) as (more & Hmore & Htags); [lia| |].
    { rewrite <- Hrest. rewrite Hrows, length_app in Hfuel.
      destruct sent; [by destruct Hprog|]. simpl in Hfuel. lia. }
    rewrite Hmore. eexists. split; [reflexivity|].
    by rewrite fmap_app, Hi, Htags, <- Hrest, Hrows, fmap_app.
  - eexists. split; [reflexivity|]. by rewrite Hi, Hrows, (Hdone eq_refl), app_nil_r.
Qed.
End SyncPage.

(** ** Properties *)

(** C37. Friendship is mutual and consensual. After any history of requests,
    acceptances, rejections, recalls, removals, alias changes and friendships made
    by an administrator, with any statement of any operation failing, an accepted
    row has its accepted mirror row, [is_friend] is symmetric, and two users are
    friends only if one of them sent a request that the other accepted afterwards,
    or an administrator made them friends, with no executed removal of the pair
    since. *)
Theorem friendship_mutual_and_consented (ops : list friend_op) (a b : Z) :
  Forall op_u64 ops -> is_u64 a -> is_u64 b ->
  try_is_friend no_faults 0 (friend_run ops) a b = Ok true ->
  row_status (friend_run ops) (pair_key a b) = Some 1 /\
  row_status (friend_run ops) (pair_key b a) = Some 1 /\
  befriended ops a b.
Proof.
  intros Hops Ha Hb. unfold try_is_friend, either_status. simpl. intros [= Hor].
  assert (row_status (friend_run ops) (pair_key a b) = Some 1 /\
          row_status (friend_run ops) (pair_key b a) = Some 1) as [H1 H2].
  { apply orb_true_iff in Hor as [H|H]; apply bool_decide_eq_true in H;
      pose proof (friend_run_mutual ops _ _ H); auto. }
  split_and!; try done. by apply (friendship_needs_consent ops Hops a b).
Qed.

Definition example_history : list friend_op :=
  [OpSend 1 no_faults 5 9 None (Some (SrcGroup 7));
   OpAccept 2 no_faults 9 5;
   OpAlias 3 no_faults 5 9 (Some "nine"%string)].

Lemma friendship_mutual_and_consented_witness :
  row_status (friend_run example_history) (pair_key 5 9) = Some 1 /\
  row_status (friend_run example_history) (pair_key 9 5) = Some 1 /\
  befriended example_history 5 9.
Proof.
  refine (friendship_mutual_and_consented example_history 5 9 _ _ _ _).
  - repeat constructor; simpl; unfold is_u64; lia.
  - unfold is_u64; lia.
  - unfold is_u64; lia.
  - vm_compute. reflexivity.
Defined.

(** A friend-sync page loses nothing. For the table of any history, every
    successful page of [sync_entities_page] sends a prefix of the viewer's rows
    newer than the cursor (peer id, version and tombstone flag of each), and the
    returned cursor denotes exactly the rows not yet sent: if the page was cut
    short by a missing profile the cut row comes first next time. A page that
    announces more content advances the cursor, so the client never spins. *)
Theorem friend_sync_page_resumes {Json} (to_value : FriendSyncPayload -> result Json string)
    find_related_since (db : faults) (ops : list friend_op) (user_id since limit : Z) resp :
  ft_seq (friend_run ops) < 2 ^ 63 -> 0 <= since < 2 ^ 63 ->
  sync_entities_page to_value find_related_since db (friend_run ops) user_id (Some since) limit
    = Ok resp ->
  exists sent,
    sync_rows (friend_run ops) (as_i64 user_id) since =
      sent ++ sync_rows (friend_run ops) (as_i64 user_id) (rs_next_version resp) /\
    item_tag <$> rs_items resp = row_tag (as_i64 user_id) <$> sent /\
    (rs_has_more resp = false ->
       sync_rows (friend_run ops) (as_i64 user_id) (rs_next_version resp) = []) /\
    (rs_has_more resp = true -> since < rs_next_version resp).
Proof.
  intros Hseq Hsince Hresp. pose proof (friend_run_versions ops) as Hok.
  destruct (sync_page_prefix _ _ _ _ _ _ _ _ Hok Hseq Hsince Hresp)
    as (sent & rest & Hrows & Hi & Hn & -> & Hdone & Hprog).
  exists sent. split_and!; try done.
  intros Hm. rewrite Hn. by apply (sync_prefix_bounds _ _ _ _ _ Hok Hrows), Hprog.
Qed.

(** Only user 9 has a profile row: the page of user 5 stops at its second row. *)
Definition some_profiles (ids : list Z) (_ _ : Z)
    : result (list (Z * (CachedUserProfile * Z))) string :=
  Ok ((fun i => (i, (mkProfile "u" "n" None 0, 1))) <$> filter (fun i => i = 9) ids).
Definition example_sync_history : list friend_op :=
  [OpSend 1 no_faults 5 9 None None; OpSend 2 no_faults 5 8 None None;
   OpSend 3 no_faults 9 7 None None].
Definition example_page :=
  sync_entities_page (fun p => Ok p) some_profiles no_faults (friend_run example_sync_history) 5
    (Some 0) 10.

Lemma friend_sync_page_resumes_witness :
  exists resp, example_page = Ok resp /\ rs_has_more resp = true /\ length (rs_items resp) = 1%nat /\
  exists sent,
    sync_rows (friend_run example_sync_history) (as_i64 5) 0 =
      sent ++ sync_rows (friend_run example_sync_history) (as_i64 5) (rs_next_version resp) /\
    item_tag <$> rs_items resp = row_tag (as_i64 5) <$> sent /\
    (rs_has_more resp = false ->
       sync_rows (friend_run example_sync_history) (as_i64 5) (rs_next_version resp) = []) /\
    (rs_has_more resp = true -> 0 < rs_next_version resp).
Proof.
  eexists. split; [vm_compute; reflexivity|]. split; [reflexivity|]. split; [reflexivity|].
  refine (friend_sync_page_resumes (fun p => Ok p) some_profiles no_faults example_sync_history 5 0 10
            _ _ _ _).
  - vm_compute. reflexivity.
  - lia.
  - vm_compute. reflexivity.
Defined.

(** A full sync delivers every row. When the payloads serialise and the
    peers' profile rows exist, a client that starts at cursor 0 and pulls pages
    of any size until [has_more] is false stops after at most one page per row
    plus one, and has received exactly the rows that involve it, each once, in
    version order. *)
Theorem friend_sync_complete {Json} (to_value : FriendSyncPayload -> result Json string)
    find_related_since (user_exists : Z -> Prop) (ops : list friend_op) (user_id limit : Z) (fuel : nat) :
  (forall p, exists j, to_value p = Ok j) ->
  (forall ids n, Z.of_nat (length ids) <= n -> Forall user_exists ids ->
     exists entries, find_related_since ids 0 n = Ok entries /\ forall i, i ∈ ids -> i ∈ entries.*1) ->
  foreign_keys user_exists (friend_run ops) ->
  ft_seq (friend_run ops) < 2 ^ 63 ->
  (length (sync_rows (friend_run ops) (as_i64 user_id) 0) < fuel)%nat ->
  exists items,
    client_sync to_value find_related_since fuel (friend_run ops) user_id 0 limit
      = Some (Ok items) /\
    item_tag <$> items =
      row_tag (as_i64 user_id) <$> sync_rows (friend_run ops) (as_i64 user_id) 0.
Proof.
  intros Hser Hprof Hfk Hseq Hfuel.
  eapply client_sync_complete; eauto using friend_run_versions; lia.
Qed.

Definition all_profiles (ids : list Z) (_ _ : Z)
    : result (list (Z * (CachedUserProfile * Z))) string :=
  Ok ((fun i => (i, (mkProfile "u" "n" None 0, 1))) <$> ids).

Lemma friend_sync_complete_witness :
  exists items,
    client_sync (fun p => Ok p) all_profiles 3 (friend_run example_sync_history) 5 0 1
      = Some (Ok items) /\
    item_tag <$> items =
      row_tag (as_i64 5) <$> sync_rows (friend_run example_sync_history) (as_i64 5) 0.
Proof.
  refine (friend_sync_complete (fun p => Ok p) all_profiles (fun _ => True) example_sync_history 5 1 3
            _ _ _ _ _).
  - eauto.
  - intros ids n _ _. eexists. split; [reflexivity|]. intros i Hi.
    apply list_elem_of_fmap. eexists (i, _). split; [reflexivity|].
    apply list_elem_of_fmap. eauto.
  - done.
  - vm_compute. reflexivity.
  - vm_compute. lia.
Defined.

(** The source of a request survives the round trip through the two text
    columns, for every [u64] id, except a request made from a conversation: the
    reader has no case for it, so an accepted request reports no source. *)
Theorem request_source_round_trip (src : FriendRequestSource) :
  match src with
  | SrcSearch i | SrcGroup i | SrcCardShare i =>
      is_u64 i -> uncurry source_from_strings (source_to_strings (Some src)) = Some src
  | SrcQrcode _ | SrcPhone _ =>
      uncurry source_from_strings (source_to_strings (Some src)) = Some src
  | SrcConversation _ => uncurry source_from_strings (source_to_strings (Some src)) = None
  end.
Proof.
  destruct src; intros; unfold source_to_strings, uncurry, source_from_strings;
    repeat (case_decide; try done); by rewrite parse_u64_to_string.
Qed.

(** A removal executed on a pair that was never friends (only a pending request
    exists) makes [try_friendship_removed] true. *)
Example removal_of_pending_request_marks_removed :
  let t := friend_run [OpSend 1 no_faults 5 9 None None; OpRemove 2 no_faults 9 5] in
  try_friendship_removed no_faults t 5 9 = Ok true.
Proof. vm_compute. reflexivity. Qed.

End Friends.
