(* ===== verification/SendAuth.v ===== *)
(** * Authorization: sending, read details, attachments

    Models src/src/service/send_authorization.rs (the one decision on whether a
    user may write into a channel), src/src/rpc/message/status/policy.rs (who may
    query who read a message) and src/src/service/attachment_authorization.rs
    with [authorize_file_access] of src/src/service/file_service.rs.

    The send decision is written against [SendAuthorizationDeps], the interface
    of the four services it consults; [db_deps] discharges it with the tables of
    [Friend] and the privacy and group-policy columns. A service call returns
    [Err] when its query fails. Times are nanoseconds. *)

From stdpp Require Import base numbers gmap list strings.
From S2P Require Import Prelude Friend Channel.
Import Blacklist Friends.
Local Open Scope Z_scope.

(** ** Privacy settings *)
Record UserPrivacySettings := mkPrivacy {
  ps_user_id : Z;
  allow_add_by_group : bool;
  allow_add_by_card : bool;
  allow_search_by_phone : bool;
  allow_search_by_username : bool;
  allow_search_by_email : bool;
  allow_search_by_qrcode : bool;
  allow_view_by_non_friend : bool;
  allow_receive_message_from_non_friend : bool;
  ps_updated_at : Z
}.

Definition privacy_new (now user_id : Z) : UserPrivacySettings :=
  mkPrivacy user_id true true true true true true false true now.

(** The stored, possibly partial, column. *)
Record StoredPrivacySettings := mkStored {
  st_add_by_group : option bool;
  st_add_by_card : option bool;
  st_search_by_phone : option bool;
  st_search_by_username : option bool;
  st_search_by_email : option bool;
  st_search_by_qrcode : option bool;
  st_view_by_non_friend : option bool;
  st_receive_from_non_friend : option bool
}.

Definition apply_to (s : StoredPrivacySettings) (p : UserPrivacySettings) : UserPrivacySettings :=
  mkPrivacy (ps_user_id p)
    (default (allow_add_by_group p) (st_add_by_group s))
    (default (allow_add_by_card p) (st_add_by_card s))
    (default (allow_search_by_phone p) (st_search_by_phone s))
    (default (allow_search_by_username p) (st_search_by_username s))
    (default (allow_search_by_email p) (st_search_by_email s))
    (default (allow_search_by_qrcode p) (st_search_by_qrcode s))
    (default (allow_view_by_non_friend p) (st_view_by_non_friend s))
    (default (allow_receive_message_from_non_friend p) (st_receive_from_non_friend s))
    (ps_updated_at p).

Section Stored.
Context {Json : Type} (is_null : Json -> bool)
  (from_value : Json -> result StoredPrivacySettings string).

(** A known field of the wrong type is an error, never a default. *)
Definition settings_from_stored (now user_id : Z) (stored : option Json)
    : result UserPrivacySettings ServerError :=
  let settings := privacy_new now user_id in
  match stored with
  | None => Ok settings
  | Some value =>
      if is_null value then Ok settings
      else match from_value value with
           | Err e => Err (Database ("用户 " +:+ u64_to_string user_id +:+
                             " 的隐私设置无法解析（脏数据，不按默认放行）: " +:+ e))
           | Ok parsed => Ok (apply_to parsed settings)
           end
  end.

Definition get_or_create_privacy_settings (now : Z) (db : faults) (column : gmap Z Json) (user_id : Z)
    : result UserPrivacySettings ServerError :=
  exec? db 0%nat else "查询隐私设置失败: " in
    settings_from_stored now user_id (column !! as_i64 user_id).
End Stored.

(** [ChannelService::get_group_policy]: the policy row of a group, if any. *)
Definition get_group_policy (db : faults) (groups : gmap Z GroupPolicy) (group_id : Z)
    : result (option GroupPolicy) ServerError :=
  exec? db 0%nat else "查询群设置失败: " in Ok (groups !! as_i64 group_id).

(** ** The send decision *)
Inductive SendRefusal :=
| NotAMember | MemberMuted (text : string) | GroupAllMuted | RoleCannotSend | BlockedByPeer
| PeerInMyBlacklist | PeerRejectsNonFriends | FriendshipRemoved | ChannelForbidsPosting
| PolicyUnavailable.

Definition refusal_error_code (r : SendRefusal) : string :=
  match r with
  | NotAMember => "PermissionDenied"
  | MemberMuted _ => "MemberMuted"
  | GroupAllMuted => "GroupMuted"
  | RoleCannotSend => "PermissionDenied"
  | BlockedByPeer => "BlockedByUser"
  | PeerInMyBlacklist => "UserInBlacklist"
  | PeerRejectsNonFriends => "PermissionDenied"
  | FriendshipRemoved => "FriendNotFound"
  | ChannelForbidsPosting => "PermissionDenied"
  | PolicyUnavailable => "ServiceUnavailable"
  end.

Definition refusal_message (r : SendRefusal) : string :=
  match r with
  | NotAMember => "无权限访问此频道"
  | MemberMuted text => text
  | GroupAllMuted => "群组全员禁言中"
  | RoleCannotSend => "您没有发送消息权限"
  | BlockedByPeer => "您已被对方拉黑，无法发送消息"
  | PeerInMyBlacklist => "您已拉黑该用户，无法发送消息"
  | PeerRejectsNonFriends => "对方设置了仅接收好友消息，无法发送"
  | FriendshipRemoved => "你不是对方好友，消息无法发送"
  | ChannelForbidsPosting => "无权限发送消息"
  | PolicyUnavailable => "服务暂时不可用，请稍后重试"
  end.

(** What the decision needs of the channel, friend, blacklist and privacy services. *)
Class SendAuthorizationDeps := {
  q_group_policy : Z -> result (option GroupPolicy) ServerError;
  q_mutual_block : Z -> Z -> result (bool * bool) ServerError;
  q_is_friend : Z -> Z -> result bool ServerError;
  q_friendship_removed : Z -> Z -> result bool ServerError;
  q_privacy : Z -> result UserPrivacySettings ServerError
}.

(** [.map_err(|_| SendRefusal::PolicyUnavailable)?]. *)
Definition or_unavailable {A} (r : result A ServerError) : result A SendRefusal :=
  match r with Ok a => Ok a | Err _ => Err PolicyUnavailable end.

Definition is_privileged (r : MemberRole) : bool :=
  match r with Owner | Admin => true | Member => false end.

Section Send.
Context `{deps : SendAuthorizationDeps}.

(** The group branch after the personal mute. *)
Definition group_policy_gate (channel : Channel) (member : ChannelMember) : result unit SendRefusal :=
  if is_privileged (role member) then Ok tt
  else
    let? policy := match group_id channel with
                   | Some g => or_unavailable (q_group_policy g)
                   | None => Ok None
                   end in
    if default false (gp_all_muted <$> policy) then Err GroupAllMuted
    else if negb (default true (gp_allow_member_post <$> policy)) then Err ChannelForbidsPosting
    else Ok tt.

Definition group_gate (now : Z) (channel : Channel) (member : ChannelMember)
    : result unit SendRefusal :=
  if is_muted member && mute_is_active (is_muted member) (mute_until member) now
  then Err (MemberMuted (mute_reject_message (mute_until member) now))
  else
    let? _ := group_policy_gate channel member in
    guard? can_send_message (permissions_from_role (role member)) else RoleCannotSend in Ok tt.

(** The direct branch, once the other side is known. *)
Definition peer_gate (sender_id peer_id : Z) : result unit SendRefusal :=
  let? blocks := or_unavailable (q_mutual_block sender_id peer_id) in
  let '(sender_blocks_peer, peer_blocks_sender) := blocks in
  if (peer_blocks_sender : bool) then Err BlockedByPeer
  else if (sender_blocks_peer : bool) then Err PeerInMyBlacklist
  else
    let? are_friends := or_unavailable (q_is_friend sender_id peer_id) in
    if (are_friends : bool) then Ok tt
    else
      let? removed := or_unavailable (q_friendship_removed sender_id peer_id) in
      if (removed : bool) then Err FriendshipRemoved
      else
        let? settings := or_unavailable (q_privacy peer_id) in
        guard? allow_receive_message_from_non_friend settings else PeerRejectsNonFriends in Ok tt.

Definition direct_gate (channel : Channel) (sender_id : Z) : result unit SendRefusal :=
  match list_find (fun i => i <> sender_id) (get_member_ids channel) with
  | None => Ok tt
  | Some (_, peer_id) => peer_gate sender_id peer_id
  end.

Definition authorize_send_to_channel (now : Z) (channel : Channel) (sender_id : Z)
    : result unit SendRefusal :=
  match members channel !! sender_id with
  | None => Err NotAMember
  | Some member =>
      let? _ := if decide (channel_type channel = Group) then group_gate now channel member
                else Ok tt in
      if negb (can_send_message (permissions member)) then Err ChannelForbidsPosting
      else if decide (channel_type channel = Direct) then direct_gate channel sender_id
      else Ok tt
  end.

(** The one side effect: the lazy clearing of an expired mute, spawned as
    [set_member_muted(channel, sender, false, None)]. *)
Definition spawned_unmute (now : Z) (channel : Channel) (sender_id : Z) : option (Z * Z) :=
  match members channel !! sender_id with
  | Some member =>
      if bool_decide (channel_type channel = Group) && is_muted member &&
         negb (mute_is_active (is_muted member) (mute_until member) now)
      then Some (id channel, sender_id) else None
  | None => None
  end.
End Send.

(** ** The services over their tables *)
Section Tables.
Context {Json : Type} (is_null : Json -> bool)
  (from_value : Json -> result StoredPrivacySettings string).

Record SendDb := mkSendDb {
  d_blacklist : blacklist_table;
  d_friends : FriendTable;
  d_groups : gmap Z GroupPolicy;
  d_privacy : gmap Z Json
}.

(** [db 0] to [db 4] are the faults of the five queries of one decision. *)
Definition db_deps (now : Z) (db : faults) (d : SendDb) : SendAuthorizationDeps := {|
  q_group_policy := get_group_policy (fun _ => db 0%nat) (d_groups d);
  q_mutual_block := check_mutual_block (fun _ => db 1%nat) (d_blacklist d);
  q_is_friend := try_is_friend (fun _ => db 2%nat) 0 (d_friends d);
  q_friendship_removed := try_friendship_removed (fun _ => db 3%nat) (d_friends d);
  q_privacy := get_or_create_privacy_settings is_null from_value now (fun _ => db 4%nat) (d_privacy d)
|}.
End Tables.

(** ** The policy, stated without the order of the checks *)
Section Policy.
Context `{deps : SendAuthorizationDeps}.

(** The group lets ordinary members post now; a group without a policy row does. *)
Definition group_open (c : Channel) : Prop :=
  forall g, group_id c = Some g ->
  exists policy, q_group_policy g = Ok policy /\
    forall p, policy = Some p -> gp_all_muted p = false /\ gp_allow_member_post p = true.

(** [peer] accepts a message of [s]. *)
Definition peer_accepts (s peer : Z) : Prop :=
  q_mutual_block s peer = Ok (false, false) /\
  (q_is_friend s peer = Ok true \/
   q_is_friend s peer = Ok false /\ q_friendship_removed s peer = Ok false /\
   exists settings, q_privacy peer = Ok settings /\
     allow_receive_message_from_non_friend settings = true).

(** The user a message of [s] in a direct channel is for: the first of the two users the
    channel records who is not [s]. *)
Definition consulted_peer (c : Channel) (s peer : Z) : Prop :=
  peer <> s /\
  (direct_user1_id c = Some peer \/
   direct_user2_id c = Some peer /\ (direct_user1_id c = None \/ direct_user1_id c = Some s)).

Definition may_send (now : Z) (c : Channel) (s : Z) : Prop :=
  exists m, members c !! s = Some m /\ can_send_message (permissions m) = true /\
  (channel_type c = Group ->
     mute_is_active (is_muted m) (mute_until m) now = false /\
     (role m = Owner \/ role m = Admin \/ group_open c)) /\
  (channel_type c = Direct -> forall peer, consulted_peer c s peer -> peer_accepts s peer).

Lemma every_role_may_post r : can_send_message (permissions_from_role r) = true.
Proof. by destruct r. Qed.

Lemma group_open_no_row c : (forall g, group_id c = Some g -> q_group_policy g = Ok None) -> group_open c.
Proof. intros H g Hg. exists None. split; [by apply H|done]. Qed.

Lemma policy_gate_iff c m :
  group_policy_gate c m = Ok tt <-> role m = Owner \/ role m = Admin \/ group_open c.
Proof.
  unfold group_policy_gate, or_unavailable.
  destruct (role m); simpl; [tauto|tauto|].
  trans (group_open c); [|naive_solver].
  destruct (group_id c) as [g|] eqn:Hg.
  - assert (group_open c <-> exists policy, q_group_policy g = Ok policy /\
      forall p, policy = Some p -> gp_all_muted p = false /\ gp_allow_member_post p = true) as ->.
    { unfold group_open. rewrite Hg. naive_solver. }
    destruct (q_group_policy g) as [[p|]|e]; simpl; [|naive_solver..].
    destruct (gp_all_muted p) eqn:?, (gp_allow_member_post p) eqn:?; simpl;
      (split; [intros Hok; first [done | exists (Some p); split; [done|by intros p' [= <-]]]
              |intros (? & [= <-] & H); destruct (H p eq_refl); congruence]).
  - split; [|done]. intros _ g. congruence.
Qed.

Lemma group_gate_iff now c m :
  group_gate now c m = Ok tt <->
  mute_is_active (is_muted m) (mute_until m) now = false /\
  (role m = Owner \/ role m = Admin \/ group_open c).
Proof.
  rewrite <- policy_gate_iff. unfold group_gate. rewrite every_role_may_post.
  assert (is_muted m && mute_is_active (is_muted m) (mute_until m) now =
          mute_is_active (is_muted m) (mute_until m) now) as ->.
  { unfold mute_is_active. by destruct (is_muted m). }
  destruct (mute_is_active _ _ _); [split; [done|by intros [? _]]|].
  destruct (group_policy_gate c m) as [[]|]; naive_solver.
Qed.

Lemma peer_gate_iff s peer : peer_gate s peer = Ok tt <-> peer_accepts s peer.
Proof.
  unfold peer_gate, peer_accepts, or_unavailable. split.
  - destruct (q_mutual_block s peer) as [[[] []]|]; try done. simpl.
    destruct (q_is_friend s peer) as [[]|]; try done; [by auto|].
    destruct (q_friendship_removed s peer) as [[]|]; try done.
    destruct (q_privacy peer) as [st|]; try done. simpl.
    destruct (allow_receive_message_from_non_friend st) eqn:?; [|done]. eauto 10.
  - intros [-> [->|(-> & -> & st & -> & Hst)]]; simpl; [done|]. by rewrite Hst.
Qed.

(** The first other id of the member list is the consulted peer. *)
Lemma consulted_peer_find c s : channel_type c = Direct ->
  forall peer, consulted_peer c s peer <-> snd <$> list_find (fun i => i <> s) (get_member_ids c) = Some peer.
Proof.
  intros Hd peer. unfold consulted_peer, get_member_ids. rewrite Hd.
  destruct (direct_user1_id c) as [a|], (direct_user2_id c) as [b|]; simpl.
  - destruct (decide (b = a)) as [->|Hba].
    + rewrite decide_True by set_solver. simpl. case_decide; naive_solver.
    + rewrite decide_False by set_solver. simpl. case_decide; simpl; [naive_solver|]. case_decide; naive_solver.
  - case_decide; naive_solver.
  - case_decide; naive_solver.
  - naive_solver.
Qed.
Lemma direct_gate_iff c s : channel_type c = Direct ->
  direct_gate c s = Ok tt <-> (forall peer, consulted_peer c s peer -> peer_accepts s peer).
Proof.
  intros Hd. setoid_rewrite (consulted_peer_find c s Hd). unfold direct_gate.
  destruct (list_find _ _) as [[i peer]|]; simpl; [rewrite peer_gate_iff|]; naive_solver.
Qed.

Lemma may_send_iff now c s : authorize_send_to_channel now c s = Ok tt <-> may_send now c s.
Proof.
  unfold authorize_send_to_channel, may_send.
  destruct (members c !! s) as [m|]; [|naive_solver].
  trans (can_send_message (permissions m) = true /\
    (channel_type c = Group -> group_gate now c m = Ok tt) /\
    (channel_type c = Direct -> direct_gate c s = Ok tt)).
  - destruct (can_send_message (permissions m)), (channel_type c); simpl;
      try destruct (group_gate now c m) as [[]|]; try destruct (direct_gate c s) as [[]|];
      naive_solver.
  - setoid_rewrite group_gate_iff. split.
    + intros (Hc & Hg & Hd). exists m. split_and!; try done.
      intros Ht. by apply direct_gate_iff, Hd.
    + intros (m' & [= <-] & Hc & Hg & Hd). split_and!; try done.
      intros Ht. apply direct_gate_iff; auto.
Qed.
Lemma consulted_peer_of c a b s : direct_user1_id c = Some a -> direct_user2_id c = Some b -> a <> b -> s = a \/ s = b ->
  exists peer, consulted_peer c s peer /\ ((s = a /\ peer = b) \/ (s = b /\ peer = a)).
Proof. intros Ha Hb Hab [-> | ->]; unfold consulted_peer; rewrite Ha, Hb; [exists b|exists a]; naive_solver. Qed.
End Policy.

(** Some query the decision can make fails. *)
Definition some_query_fails `{deps : SendAuthorizationDeps} (c : Channel) (s : Z) : Prop :=
  (exists g e, group_id c = Some g /\ q_group_policy g = Err e) \/
  (exists peer e, q_mutual_block s peer = Err e) \/ (exists peer e, q_is_friend s peer = Err e) \/
  (exists peer e, q_friendship_removed s peer = Err e) \/ (exists peer e, q_privacy peer = Err e).

Lemma unavailable_needs_failure `{deps : SendAuthorizationDeps} now c s :
  authorize_send_to_channel now c s = Err PolicyUnavailable -> some_query_fails c s.
Proof.
  unfold authorize_send_to_channel, group_gate, group_policy_gate, direct_gate, peer_gate,
    or_unavailable, some_query_fails.
  destruct (members c !! s) as [m|]; [|done].
  rewrite every_role_may_post.
  destruct (channel_type c); simpl.
  - destruct (can_send_message (permissions m)); simpl; [|done].
    destruct (list_find _ _) as [[i peer]|]; [|done].
    destruct (q_mutual_block s peer) as [[[] []]|e] eqn:?; try done; [|eauto 10].
    destruct (q_is_friend s peer) as [[]|e] eqn:?; try done; [|eauto 10].
    destruct (q_friendship_removed s peer) as [[]|e] eqn:?; try done; [|eauto 10].
    destruct (q_privacy peer) as [st|e] eqn:?; [|eauto 10].
    by destruct (allow_receive_message_from_non_friend st).
  - destruct (is_muted m && _); [done|].
    destruct (is_privileged (role m)); [by destruct (can_send_message (permissions m))|].
    destruct (group_id c) as [g|]; [|by destruct (can_send_message (permissions m))].
    destruct (q_group_policy g) as [[p|]|e] eqn:?; simpl; [| |eauto 10].
    + destruct (gp_all_muted p), (gp_allow_member_post p), (can_send_message (permissions m)); done.
    + by destruct (can_send_message (permissions m)).
  - by destruct (can_send_message (permissions m)).
Qed.

(** C33. The send decision is the send policy, and fails closed. For any
    implementation of the consulted services and any channel, a message is let
    through exactly when the sender has a participant entry with the posting
    permission; in a group is not under an active mute and is owner or admin or
    the group is readably neither muted nor read-only; and in a direct chat has no
    block with the first recorded user other than itself, in either direction, and
    is a friend of that user or a stranger whom that user's readable settings admit.
    A failed query never admits a message, and the retryable [PolicyUnavailable] is
    returned only when some query did fail. *)
Theorem send_decision_is_policy (deps : SendAuthorizationDeps) (now : Z) (c : Channel) (s : Z) :
  (authorize_send_to_channel now c s = Ok tt <-> may_send now c s) /\
  (authorize_send_to_channel now c s = Err PolicyUnavailable -> some_query_fails c s).
Proof. split; [by apply may_send_iff|apply unavailable_needs_failure]. Qed.

Definition example_direct : Channel :=
  match add_member 0 (new_direct 0 77 1 2) 1 None with Ok c => c | Err _ => new_direct 0 77 1 2 end.
Definition no_rows : SendDb (Json := bool) :=
  mkSendDb ∅ (friend_run [OpSend 1 no_faults 1 2 None None; OpAccept 2 no_faults 2 1]) ∅ ∅.
Definition example_deps (db : faults) : SendAuthorizationDeps :=
  db_deps (fun b => b) (fun _ => Err "not an object"%string) 0 db no_rows.

Lemma send_decision_is_policy_witness :
  authorize_send_to_channel (deps := example_deps no_faults) 5 example_direct 1 = Ok tt /\
  (authorize_send_to_channel (deps := example_deps no_faults) 5 example_direct 1 = Ok tt <->
     may_send (deps := example_deps no_faults) 5 example_direct 1) /\
  (authorize_send_to_channel (deps := example_deps no_faults) 5 example_direct 1
     = Err PolicyUnavailable -> some_query_fails (deps := example_deps no_faults) example_direct 1).
Proof.
  split; [vm_compute; reflexivity|].
  exact (send_decision_is_policy (example_deps no_faults) 5 example_direct 1).
Defined.

(** The decision reads the participant entries also in a direct chat: a third user with an
    entry writes into the chat of two others, of whom only the first is consulted, while
    [is_member] knows it as a stranger; and a recorded user without an entry is refused. *)
Example participant_entry_opens_a_direct_chat :
  let c := match add_member 0 (new_direct 0 77 1 2) 3 None with Ok c => c | Err _ => new_direct 0 77 1 2 end in
  is_member c 3 = false /\ authorize_send_to_channel (deps := example_deps no_faults) 5 c 3 = Ok tt /\
  let d := channel_from_db_row Some 5 77 0 (Some 1) (Some 2) None None None 0 0 0 0 in
  is_member d 1 = true /\ authorize_send_to_channel (deps := example_deps no_faults) 5 d 1 = Err NotAMember.
Proof. vm_compute. auto 10. Qed.

Lemma block_visible now dbw t u v reason entry t' db a b :
  add_to_blacklist now dbw t u v reason = Ok (entry, t') ->
  (a = u /\ b = v) \/ (a = v /\ b = u) ->
  check_mutual_block db t' a b <> Ok (false, false).
Proof.
  intros Hadd Hab.
  assert (is_Some (t' !! pair_key u v)) as Hrow.
  { unfold add_to_blacklist in Hadd. destruct (decide (u = v)); [done|].
    destruct (dbw 0%nat); [done|]. injection Hadd as _ <-. unfold blacklist_table in *.
    apply lookup_insert_is_Some'. by left. }
  destruct (db 0%nat) as [e|] eqn:Hdb; [unfold check_mutual_block; by rewrite Hdb|].
  replace (check_mutual_block db t' a b) with (check_mutual_block no_faults t' a b)
    by (unfold check_mutual_block; by rewrite Hdb).
  rewrite check_mutual_block_spec.
  destruct Hab as [[-> ->]|[-> ->]]; rewrite (bool_decide_eq_true_2 _ Hrow); [done|].
  by destruct (bool_decide _).
Qed.

(** A block stops direct messages both ways at once. Once either user of a
    direct channel has added the other to the blacklist, no message of either
    passes the decision: friends or not, whatever the other tables hold, and
    whatever queries fail. *)
Theorem block_stops_direct_messages {Json} (is_null : Json -> bool) from_value
    (now wnow : Z) (dbw db : faults) (d : SendDb) (c : Channel) (a b s u v : Z) reason entry bl :
  channel_type c = Direct -> direct_user1_id c = Some a -> direct_user2_id c = Some b -> a <> b ->
  s = a \/ s = b ->
  (u = a /\ v = b) \/ (u = b /\ v = a) ->
  add_to_blacklist wnow dbw (d_blacklist d) u v reason = Ok (entry, bl) ->
  authorize_send_to_channel
    (deps := db_deps is_null from_value now db (mkSendDb bl (d_friends d) (d_groups d) (d_privacy d)))
    now c s <> Ok tt.
Proof.
  intros Hd Ha Hb Hab Hs Huv Hadd Hok.
  apply may_send_iff in Hok as (m & _ & _ & _ & Hdir).
  destruct (consulted_peer_of c a b s) as (peer & Hpeer & Hsp); [done..|].
  destruct (Hdir Hd peer Hpeer) as [Hblk _]. simpl in Hblk.
  eapply block_visible in Hblk; [done..|]. naive_solver.
Qed.

Lemma block_stops_direct_messages_witness :
  exists entry bl,
    add_to_blacklist 3 no_faults ∅ 2 1 None = Ok (entry, bl) /\
    authorize_send_to_channel
      (deps := db_deps (fun b : bool => b) (fun _ => Err "not an object"%string) 5 no_faults
                 (mkSendDb bl (d_friends no_rows) ∅ ∅)) 5 example_direct 1 <> Ok tt.
Proof.
  eexists _, _. split; [reflexivity|].
  refine (block_stops_direct_messages (fun b : bool => b) (fun _ => Err "not an object"%string)
            5 3 no_faults no_faults no_rows example_direct 1 2 1 2 1 None _ _ _ _ _ _ _ _ _);
    try (vm_compute; reflexivity); [lia|lia|right; lia].
Defined.

(** Removing a friend stops direct messages. After a history in which the
    two were friends and a removal that reached the database, neither can write
    to the other: the removal does not turn them into strangers whose messages
    the privacy setting might admit. *)
Theorem unfriending_stops_direct_messages {Json} (is_null : Json -> bool) from_value
    (now rnow : Z) (dbr db : faults) (ops : list friend_op) bl groups privacy
    (c : Channel) (a b s u v : Z) :
  channel_type c = Direct -> direct_user1_id c = Some a -> direct_user2_id c = Some b -> a <> b ->
  s = a \/ s = b ->
  (u = a /\ v = b) \/ (u = b /\ v = a) ->
  try_is_friend no_faults 0 (friend_run ops) a b = Ok true -> dbr 0%nat = None ->
  authorize_send_to_channel
    (deps := db_deps is_null from_value now db
               (mkSendDb bl (friend_run (ops ++ [OpRemove rnow dbr u v])) groups privacy))
    now c s <> Ok tt.
Proof.
  intros Hd Ha Hb Hab Hs Huv Hfr Hdb Hok.
  apply may_send_iff in Hok as (m & _ & _ & _ & Hdir).
  destruct (consulted_peer_of c a b s) as (peer & Hpeer & Hsp); [done..|].
  destruct (Hdir Hd peer Hpeer) as [_ Hf]. simpl in Hf.
  rewrite friend_run_snoc in Hf. unfold try_is_friend, try_friendship_removed, either_status in Hf.
  set (t' := apply_friend_op _ _) in Hf.
  assert (row_status t' (pair_key a b) = Some 2 /\ row_status t' (pair_key b a) = Some 2) as [H1 H2].
  { unfold try_is_friend, either_status in Hfr. injection Hfr as Hfr.
    assert (row_status (friend_run ops) (pair_key a b) = Some 1 /\
            row_status (friend_run ops) (pair_key b a) = Some 1) as [E1 E2].
    { apply orb_true_iff in Hfr as [H|H]; apply bool_decide_eq_true in H;
        pose proof (friend_run_mutual ops _ _ H); auto. }
    subst t'. rewrite !remove_friend_statuses by done.
    destruct Huv as [[-> ->]|[-> ->]]; rewrite !decide_True, E1, E2 by auto; done. }
  destruct Hsp as [[-> ->]|[-> ->]]; rewrite !H1, !H2 in Hf;
    destruct (db 2%nat), (db 3%nat); simpl in Hf; naive_solver.
Qed.

Lemma unfriending_stops_direct_messages_witness :
  authorize_send_to_channel
    (deps := db_deps (fun b : bool => b) (fun _ => Err "not an object"%string) 5 no_faults
               (mkSendDb ∅ (friend_run ([OpSend 1 no_faults 1 2 None None; OpAccept 2 no_faults 2 1]
                              ++ [OpRemove 3 no_faults 2 1])) ∅ ∅)) 5 example_direct 1 <> Ok tt.
Proof.
  refine (unfriending_stops_direct_messages (fun b : bool => b) (fun _ => Err "not an object"%string)
            5 3 no_faults no_faults [OpSend 1 no_faults 1 2 None None; OpAccept 2 no_faults 2 1]
            ∅ ∅ ∅ example_direct 1 2 1 2 1 _ _ _ _ _ _ _ _);
    try (vm_compute; reflexivity); [lia|lia|right; lia].
Defined.

(** ** Who may see who read a message *)
Module ReadDetail.

Inductive ReadReceiptMode := RrDisabled | RrCountOnly | RrFullList.

Definition read_receipt_mode_parse (raw : option string) : result ReadReceiptMode RpcError :=
  match raw with
  | None => Ok RrFullList
  | Some raw =>
      if decide (raw = "disabled") then Ok RrDisabled
      else if decide (raw = "count_only") then Ok RrCountOnly
      else if decide (raw = "full_list") then Ok RrFullList
      else Err (rpc_validation ("invalid read_receipt_mode: " +:+ raw +:+
                                " (expect disabled|count_only|full_list)"))
  end.

(** The fields of [Message] the policy reads. *)
Record Message := mkMessage {
  msg_channel_id : Z;
  msg_sender_id : Z;
  msg_created_at : Z;
  msg_deleted : bool;
  msg_revoked : bool;
  msg_read_detail_expires_at : option Z
}.

Definition read_detail_retention_days (configured : Z) : Z := Z.max configured 0.

Definition nanos_per_day : Z := 86400 * nanos_per_sec.

Definition authorize_read_detail (now requester_id : Z) (message : Message) (channel_id : Z)
    (channel : Channel) (retention_days : Z) : result Z RpcError :=
  if negb (msg_channel_id message =? channel_id)
  then Err (rpc_validation "message_id 与 channel_id 不匹配")
  else if negb (msg_sender_id message =? requester_id)
  then Err (rpc_forbidden "only the sender may query who read this message")
  else if negb (is_member channel requester_id)
  then Err (rpc_forbidden "requester no longer has access to this channel")
  else if msg_revoked message || msg_deleted message
  then Err (rpc_not_found "message is revoked")
  else
    let expires_at := default (msg_created_at message + retention_days * nanos_per_day)
                        (msg_read_detail_expires_at message) in
    if expires_at <=? now then Err (rpc_forbidden "read detail window expired")
    else Ok expires_at.

Definition ensure_read_stats_allowed (mode : ReadReceiptMode) : result unit RpcError :=
  match mode with
  | RrDisabled => Err (rpc_forbidden "read receipt disabled for this channel")
  | RrCountOnly | RrFullList => Ok tt
  end.

Definition ensure_read_list_allowed (mode : ReadReceiptMode) : result unit RpcError :=
  match mode with
  | RrDisabled => Err (rpc_forbidden "read receipt disabled for this channel")
  | RrCountOnly => Err (rpc_forbidden "read list is not allowed in count_only mode")
  | RrFullList => Ok tt
  end.

(** Read details are for the sender, inside the window, and the window never
    reopens. A query succeeds exactly for the sender of a live message of that
    channel who is still a member of it, before the deadline it returns; once a
    query has been refused as expired with a deadline fixed on the message, no
    later query succeeds, whatever the retention setting is changed to. *)
Theorem read_detail_window (now now' requester ch days days' : Z) (m : Message) (c : Channel) :
  (forall e, authorize_read_detail now requester m ch c days = Ok e <->
     msg_channel_id m = ch /\ msg_sender_id m = requester /\ is_member c requester = true /\
     msg_revoked m = false /\ msg_deleted m = false /\ now < e /\
     e = default (msg_created_at m + days * nanos_per_day) (msg_read_detail_expires_at m)) /\
  (now <= now' -> is_Some (msg_read_detail_expires_at m) ->
   authorize_read_detail now requester m ch c days = Err (rpc_forbidden "read detail window expired") ->
   is_ok (authorize_read_detail now' requester m ch c days') = false).
Proof.
  unfold authorize_read_detail.
  destruct (Z.eqb_spec (msg_channel_id m) ch); simpl; [|naive_solver].
  destruct (Z.eqb_spec (msg_sender_id m) requester); simpl; [|naive_solver].
  destruct (is_member c requester); simpl; [|naive_solver].
  destruct (msg_revoked m), (msg_deleted m); simpl; try naive_solver.
  split.
  - intros dl. case_match eqn:Hc; [apply Z.leb_le in Hc|apply Z.leb_gt in Hc].
    + split; [done|]. intros (_ & _ & _ & _ & _ & ? & ->). lia.
    + split; [intros [= <-]; auto 10|]. intros (_ & _ & _ & _ & _ & ? & ->). done.
  - intros Hnow [dl Hdl]. rewrite Hdl. simpl.
    destruct (Z.leb_spec dl now); [|done]. destruct (Z.leb_spec dl now'); [done|lia].
Qed.

Definition example_message : Message := mkMessage 77 1 0 false false (Some 10).

Lemma read_detail_window_witness :
  authorize_read_detail 4 1 example_message 77 example_direct 7 = Ok 10 /\
  ((forall e, authorize_read_detail 11 1 example_message 77 example_direct 7 = Ok e <->
      msg_channel_id example_message = 77 /\ msg_sender_id example_message = 1 /\
      is_member example_direct 1 = true /\
      msg_revoked example_message = false /\ msg_deleted example_message = false /\ 11 < e /\
      e = default (msg_created_at example_message + 7 * nanos_per_day)
            (msg_read_detail_expires_at example_message)) /\
   (11 <= 12 -> is_Some (msg_read_detail_expires_at example_message) ->
    authorize_read_detail 11 1 example_message 77 example_direct 7
      = Err (rpc_forbidden "read detail window expired") ->
    is_ok (authorize_read_detail 12 1 example_message 77 example_direct 30) = false)).
Proof.
  split; [vm_compute; reflexivity|].
  exact (read_detail_window 11 12 1 77 7 30 example_message example_direct).
Defined.
End ReadDetail.

(** ** Attachments *)
Module Attachment.

Record FileAccessFacts := mkFacts {
  fa_requester_id : Z;
  fa_uploader_id : Z;
  fa_has_any_reference : bool;
  fa_requester_is_member_of_a_live_reference : bool
}.

Definition authorize_file_access (f : FileAccessFacts) : bool :=
  if fa_has_any_reference f then fa_requester_is_member_of_a_live_reference f
  else fa_requester_id f =? fa_uploader_id f.

Inductive CandidateSource := ReferenceTable | LegacyBusinessId | PendingUpload.
Record AttachmentAccessDecision := mkDecision {
  ad_authorized : bool;
  ad_source : CandidateSource;
  ad_candidate_count : nat
}.

(** The rows of [privchat_messages], [privchat_message_file_refs],
    [privchat_channels] and the two membership tables that the queries read.
    A reference row is (message id, message created_at, file id). *)
Record AMessage := mkAMessage { am_channel : Z; am_created : Z; am_deleted : bool; am_revoked : bool }.
Record AChannel := mkAChannel { ac_type : Z; ac_user1 : option Z; ac_user2 : option Z }.
Record AttachmentDb := mkADb {
  a_messages : gmap Z AMessage;
  a_refs : list (Z * Z * Z);
  a_channels : gmap Z AChannel;
  a_group_members : gset (Z * Z);
  a_participants : gset (Z * Z)
}.

Definition message_live (m : AMessage) : bool := negb (am_deleted m) && negb (am_revoked m).

(** [SELECT DISTINCT channel_id, live FROM refs JOIN messages WHERE file_id = ..]. *)
Definition ref_target (d : AttachmentDb) (file_id : Z) (r : Z * Z * Z) : option (Z * bool) :=
  let '(mid, created, fid) := r in
  if decide (fid = as_i64 file_id) then
    m ← a_messages d !! mid;
    if decide (am_created m = created) then Some (as_u64 (am_channel m), message_live m) else None
  else None.

Definition file_reference_channels (db : faults) (d : AttachmentDb) (file_id : Z)
    : result (list (Z * bool)) ServerError :=
  exec? db 0%nat else "查询文件引用会话失败: " in
    Ok (remove_dups (omap (ref_target d file_id) (a_refs d))).

Definition live_channel_of_message (db : faults) (d : AttachmentDb) (message_id : Z)
    : result (option (Z * bool)) ServerError :=
  exec? db 1%nat else "查询消息存活状态失败: " in
    Ok ((fun m => (as_u64 (am_channel m), message_live m)) <$> a_messages d !! as_i64 message_id).

(** Membership by channel type, as the query branches. *)
Definition member_of_channel (d : AttachmentDb) (channel_id user : Z) : bool :=
  match a_channels d !! channel_id with
  | None => false
  | Some c =>
      if ac_type c =? 0 then bool_decide (ac_user1 c = Some user) || bool_decide (ac_user2 c = Some user)
      else if ac_type c =? 1 then bool_decide ((channel_id, user) ∈ a_group_members d)
      else bool_decide ((channel_id, user) ∈ a_participants d)
  end.

Definition is_member_of_any_channel (db : faults) (d : AttachmentDb) (channel_ids : list Z) (user_id : Z)
    : result bool ServerError :=
  match channel_ids with
  | [] => Ok false
  | _ => exec? db 2%nat else "查询会话成员失败: " in
           Ok (existsb (fun c => member_of_channel d (as_i64 c) (as_i64 user_id)) channel_ids)
  end.

Inductive AttachmentAccessError := Unavailable (detail : string).

(** [.map_err(|error| AttachmentAccessError::Unavailable(error.to_string()))]. *)
Definition unavailable {A} (r : result A ServerError) : result A AttachmentAccessError :=
  match r with Ok a => Ok a | Err err => Err (Unavailable (server_error_display err)) end.

Definition resolve_attachment_access (db : faults) (d : AttachmentDb) (file_id uploader_id : Z)
    (business_id : option string) (requester_id : Z) : result AttachmentAccessDecision AttachmentAccessError :=
  let? refs := unavailable (file_reference_channels db d file_id) in
  let legacy_message_id := i ← business_id ≫= parse_u64; if 0 <? i then Some i else None in
  let? out :=
    match refs with
    | [] =>
        match legacy_message_id with
        | Some message_id =>
            let? entry := unavailable (live_channel_of_message db d message_id) in
            match entry with
            | Some candidate => Ok ([candidate], LegacyBusinessId, false)
            | None => Ok ([], LegacyBusinessId, true)
            end
        | None => Ok ([], PendingUpload, false)
        end
    | _ => Ok (refs, ReferenceTable, false)
    end in
  let '(candidates, source, has_broken_legacy_binding) := out in
  let live_channels := (filter (fun p => p.2 = true) candidates).*1 in
  let? member := unavailable (is_member_of_any_channel db d live_channels requester_id) in
  let authorized := authorize_file_access
    (mkFacts requester_id uploader_id
       (negb (bool_decide (candidates = [])) || has_broken_legacy_binding) member) in
  Ok (mkDecision authorized source (length candidates)).

(** The rule of the specification, over the tables. *)
Definition references (d : AttachmentDb) (file_id : Z) (business_id : option string) (m : AMessage) : Prop :=
  (exists mid, (mid, am_created m, as_i64 file_id) ∈ a_refs d /\ a_messages d !! mid = Some m) \/
  (omap (ref_target d file_id) (a_refs d) = [] /\
   exists mid, (business_id ≫= parse_u64) = Some mid /\ 0 < mid /\ a_messages d !! as_i64 mid = Some m).

Definition ever_bound (d : AttachmentDb) (file_id : Z) (business_id : option string) : Prop :=
  omap (ref_target d file_id) (a_refs d) <> [] \/
  exists mid, (business_id ≫= parse_u64) = Some mid /\ 0 < mid.

Definition may_access (d : AttachmentDb) (file_id uploader : Z) (business_id : option string)
    (requester : Z) : Prop :=
  (exists m, references d file_id business_id m /\ message_live m = true /\
     member_of_channel d (as_i64 (as_u64 (am_channel m))) (as_i64 requester) = true) \/
  (~ ever_bound d file_id business_id /\ requester = uploader).

Lemma member_any db d l u b :
  is_member_of_any_channel db d l u = Ok b ->
  b = true <-> exists c, c ∈ l /\ member_of_channel d (as_i64 c) (as_i64 u) = true.
Proof.
  assert (existsb (fun c => member_of_channel d (as_i64 c) (as_i64 u)) l = true <->
          exists c, c ∈ l /\ member_of_channel d (as_i64 c) (as_i64 u) = true) as H.
  { rewrite existsb_exists. by setoid_rewrite list_elem_of_In. }
  unfold is_member_of_any_channel. destruct l as [|c l].
  - intros [= <-]. by rewrite <- H.
  - destruct (db 2%nat); [done|]. intros [= <-]. exact H.
Qed.

(** Live candidates whose channel the user is in. *)
Lemma member_live db d (cands : list (Z * bool)) u b :
  is_member_of_any_channel db d (filter (fun p => p.2 = true) cands).*1 u = Ok b ->
  b = true <-> exists c, (c, true) ∈ cands /\ member_of_channel d (as_i64 c) (as_i64 u) = true.
Proof.
  intros H. rewrite (member_any _ _ _ _ _ H). split.
  - intros (c & Hc & Hm). apply list_elem_of_fmap in Hc as ([c' v] & -> & Hin).
    apply list_elem_of_filter in Hin as [Hv Hin]. simpl in *. subst v. eauto.
  - intros (c & Hc & Hm). exists c. split; [|done]. apply list_elem_of_fmap.
    exists (c, true). split; [done|]. by apply list_elem_of_filter.
Qed.

Lemma ref_target_live d f mid created fid c :
  ref_target d f (mid, created, fid) = Some (c, true) <->
  fid = as_i64 f /\ exists m, a_messages d !! mid = Some m /\ am_created m = created /\
    message_live m = true /\ c = as_u64 (am_channel m).
Proof.
  unfold ref_target. split.
  - case_decide; [|done]. destruct (a_messages d !! mid) as [m|] eqn:Hm; simpl; [|done].
    case_decide; [|done]. intros [= <- Hl]. eauto 10.
  - intros (-> & m & -> & <- & Hl & ->). rewrite decide_True by done. simpl.
    by rewrite decide_True, Hl.
Qed.

Lemma table_candidates d f c :
  (c, true) ∈ remove_dups (omap (ref_target d f) (a_refs d)) <->
  exists mid m, (mid, am_created m, as_i64 f) ∈ a_refs d /\ a_messages d !! mid = Some m /\
    message_live m = true /\ c = as_u64 (am_channel m).
Proof.
  rewrite elem_of_remove_dups, list_elem_of_omap. split.
  - intros ([[mid created] fid] & Hin & Ht). apply ref_target_live in Ht as (-> & m & ? & <- & ? & ->).
    eauto 10.
  - intros (mid & m & Hin & Hm & Hl & ->). exists (mid, am_created m, as_i64 f). split; [done|].
    apply ref_target_live. eauto 10.
Qed.

Definition legacy_id (business_id : option string) : option Z :=
  i ← business_id ≫= parse_u64; if 0 <? i then Some i else None.

Lemma legacy_id_Some b mid :
  legacy_id b = Some mid <-> (b ≫= parse_u64) = Some mid /\ 0 < mid.
Proof.
  unfold legacy_id. destruct (b ≫= parse_u64) as [i|]; simpl; [|naive_solver].
  destruct (Z.ltb_spec 0 i); naive_solver lia.
Qed.

Lemma remove_dups_nil {A} `{!EqDecision A} (l : list A) : remove_dups l = [] <-> l = [].
Proof.
  split; [|by intros ->]. intros H. destruct l as [|x l]; [done|].
  assert (x ∈ remove_dups (x :: l)) as Hx by (apply elem_of_remove_dups; set_solver).
  rewrite H in Hx. by apply elem_of_nil in Hx.
Qed.

(** No reference rows: only the legacy binding counts. *)
Lemma access_without_refs d f up b u :
  omap (ref_target d f) (a_refs d) = [] ->
  may_access d f up b u <->
  match legacy_id b with
  | Some mid => exists m, a_messages d !! as_i64 mid = Some m /\ message_live m = true /\
      member_of_channel d (as_i64 (as_u64 (am_channel m))) (as_i64 u) = true
  | None => u = up
  end.
Proof.
  intros Hnil. unfold may_access, references, ever_bound. rewrite Hnil.
  assert (forall mid m, (mid, am_created m, as_i64 f) ∈ a_refs d -> a_messages d !! mid = Some m -> False) as Hno.
  { intros mid m Hin Hm.
    assert ((as_u64 (am_channel m), message_live m) ∈ omap (ref_target d f) (a_refs d)) as He.
    { apply list_elem_of_omap. eexists. split; [exact Hin|]. unfold ref_target.
      rewrite decide_True, Hm by done. simpl. by rewrite decide_True. }
    rewrite Hnil in He. by apply elem_of_nil in He. }
  destruct (legacy_id b) as [mid|] eqn:Hl.
  - apply legacy_id_Some in Hl as [Hb Hpos]. setoid_rewrite Hb. split.
    + intros [(m & [(? & ? & ?)|(_ & ? & [= <-] & _ & Hm)] & Hlive & Hmem)|[Hn _]];
        [by exfalso; eapply Hno|eauto|]. exfalso. apply Hn. eauto.
    + intros (m & Hm & Hlive & Hmem). left. exists m. split_and!; try done. right. eauto 10.
  - assert (forall mid, (b ≫= parse_u64) = Some mid -> ~ 0 < mid) as Hnl.
    { intros mid Hb Hpos. assert (legacy_id b = Some mid) by by apply legacy_id_Some. congruence. }
    split.
    + intros [(m & [(? & ? & ?)|(_ & ? & ? & ? & _)] & _)|[_ ?]]; [|naive_solver..].
      by exfalso; eapply Hno.
    + intros ->. right. split; [|done]. intros [?|(mid & ? & ?)]; [done|]. by eapply Hnl.
Qed.

(** A reference row exists: only live references count. *)
Lemma access_with_refs d f up b u :
  omap (ref_target d f) (a_refs d) <> [] ->
  may_access d f up b u <->
  exists mid m, (mid, am_created m, as_i64 f) ∈ a_refs d /\ a_messages d !! mid = Some m /\
    message_live m = true /\
    member_of_channel d (as_i64 (as_u64 (am_channel m))) (as_i64 u) = true.
Proof.
  intros Hne. unfold may_access, references, ever_bound. split.
  - intros [(m & [(mid & ? & ?)|(? & _)] & ? & ?)|[Hn _]]; [eauto 10|done|tauto].
  - intros (mid & m & ? & ? & ? & ?). left. exists m. eauto 10.
Qed.

(** C40. Attachment access is the rule of the specification. Whatever fails, a
    decision that is returned authorizes a requester exactly when some live
    (neither deleted nor revoked) message that references the file, by the
    reference table or else by the legacy binding, is in a channel they belong
    to, or when the file was never bound to any message and they uploaded it.
    With no failing query a decision is always returned. *)
Theorem attachment_access_rule (db : faults) (d : AttachmentDb) (file_id uploader : Z)
    (business_id : option string) (requester : Z) :
  (forall dec, resolve_attachment_access db d file_id uploader business_id requester = Ok dec ->
     (ad_authorized dec = true <-> may_access d file_id uploader business_id requester)) /\
  is_ok (resolve_attachment_access no_faults d file_id uploader business_id requester) = true.
Proof.
  unfold resolve_attachment_access, file_reference_channels, live_channel_of_message.
  fold (legacy_id business_id). split.
  - intros dec. destruct (db 0%nat); [done|]. cbn [unavailable].
    set (refs := remove_dups _).
    destruct (decide (omap (ref_target d file_id) (a_refs d) = [])) as [Hnil|Hne].
    + rewrite (access_without_refs _ _ _ _ _ Hnil).
      assert (refs = []) as -> by by apply remove_dups_nil.
      destruct (legacy_id business_id) as [mid|]; [|simpl; intros [= <-]; apply Z.eqb_eq].
      destruct (db 1%nat); [done|]. cbn [unavailable].
      destruct (a_messages d !! as_i64 mid) as [m|]; cbn [fmap option_fmap option_map];
        [|simpl; intros [= <-]; naive_solver].
      destruct (is_member_of_any_channel _ _ _ _) as [b|] eqn:Hb; [|done]. simpl.
      intros [= <-]. unfold authorize_file_access; simpl.
      rewrite (member_live _ _ _ _ _ Hb). setoid_rewrite list_elem_of_singleton. split.
      * intros (c & [= -> Hl] & Hm). eauto.
      * intros (m' & [= <-] & -> & Hm). eauto.
    + rewrite (access_with_refs _ _ _ _ _ Hne).
      assert (refs <> []) as Hr by (intros Hr; apply Hne, remove_dups_nil, Hr).
      destruct refs as [|r0 rs] eqn:Hrefs; [done|]. rewrite <- Hrefs.
      destruct (is_member_of_any_channel _ _ _ _) as [b|] eqn:Hb; [|done]. simpl.
      intros [= <-]. rewrite bool_decide_eq_false_2 by congruence.
      unfold authorize_file_access; simpl. rewrite (member_live _ _ _ _ _ Hb).
      clear Hb Hrefs. subst refs. setoid_rewrite table_candidates. naive_solver.
  - unfold is_member_of_any_channel, no_faults. simpl.
    destruct (remove_dups _) as [|r0 rs]; [destruct (legacy_id business_id) as [mid|]|].
    + destruct (a_messages d !! as_i64 mid) as [m|]; simpl; [|done].
      by destruct ((filter _ _).*1).
    + done.
    + by destruct ((filter _ _).*1).
Qed.

Definition example_adb : AttachmentDb :=
  mkADb {[ 10 := mkAMessage 77 5 false false; 11 := mkAMessage 78 6 false true ]}
    [(10, 5, 3); (11, 6, 4)]
    {[ 77 := mkAChannel 1 None None; 78 := mkAChannel 0 (Some 1) (Some 2) ]}
    {[ (77, 1) ]} ∅.

(** A member may, a non-member may not, and a revoked reference serves nobody,
    not even the uploader. *)
Lemma attachment_access_rule_witness :
  resolve_attachment_access no_faults example_adb 3 9 None 1 = Ok (mkDecision true ReferenceTable 1) /\
  resolve_attachment_access no_faults example_adb 4 1 None 1 = Ok (mkDecision false ReferenceTable 1) /\
  (forall dec, resolve_attachment_access no_faults example_adb 3 9 None 1 = Ok dec ->
     (ad_authorized dec = true <-> may_access example_adb 3 9 None 1)) /\
  is_ok (resolve_attachment_access no_faults example_adb 3 9 None 1) = true.
Proof.
  split; [vm_compute; reflexivity|]. split; [vm_compute; reflexivity|].
  exact (attachment_access_rule no_faults example_adb 3 9 None 1).
Defined.
End Attachment.
