(* ===== verification/Chunked.v ===== *)
(** * Resumable upload: the chunked session directory

    Models src/src/service/chunked_upload.rs (transport selection, S3 part
    geometry, token, the session directory with its [parts/] files, status,
    write, assembly, expiry sweep) and the pure functions of
    src/src/service/numbered_parts.rs.

    The [parts/] directory is a map from file names to contents, with the names
    the source formats and parses ([{offset}-{length}.part], and
    [.{offset}-{length}.tmp] while a part is being written). SHA-256 and the
    serialised manifest are parameters; I/O errors are [faults]. The caller holds
    the session lock during an operation, so operations are atomic; a crash may
    leave a temporary file behind ([OpCrash]). *)

From Stdlib Require Import Ascii.
From stdpp Require Import base numbers gmap list sorting strings.
From S2P Require Import Prelude.
Local Open Scope Z_scope.

Definition UPLOAD_ID_HEX_LEN : nat := 32.
Definition SECRET_HEX_LEN : nat := 64.
Definition TOKEN_TTL_SECS : Z := 24 * 3600.
Definition BASE_UNIT : Z := 64 * 1024.
Definition TRANSPORT_PROXY_OFFSET_V1 : string := "proxy_offset_v1".
Definition TRANSPORT_S3_MULTIPART_V1 : string := "s3_multipart_v1".

(** ** Choice of the data plane *)
Inductive TransportSelectError := SetMissingProxy | ServerS3Only.

(** [S3DirectGate] is its one field [open]. *)
Definition select_transport (declared : option (list string)) (gate_open : bool)
    : result string TransportSelectError :=
  if gate_open then
    match declared with
    | Some l => if existsb (String.eqb TRANSPORT_S3_MULTIPART_V1) l
                then Ok TRANSPORT_S3_MULTIPART_V1 else Err ServerS3Only
    | None => Err ServerS3Only
    end
  else
    match declared with
    | None => Ok TRANSPORT_PROXY_OFFSET_V1
    | Some l => if negb (existsb (String.eqb TRANSPORT_PROXY_OFFSET_V1) l)
                then Err SetMissingProxy else Ok TRANSPORT_PROXY_OFFSET_V1
    end.

Definition whole_file_allowed (gate_open : bool) : result unit TransportSelectError :=
  if gate_open then Err ServerS3Only else Ok tt.

(** ** S3 geometry *)
Definition s3_part_geometry (total_size : Z) : Z * Z :=
  let MIN_PART := Z.shiftl 5 20 in
  let DEFAULT_PART := Z.shiftl 8 20 in
  let MAX_PART := Z.shiftl 5 30 in
  let MAX_PARTS := 10000 in
  let ALIGN := Z.shiftl 1 20 in
  let by_count := div_ceil total_size MAX_PARTS in
  let part_size := Z.max DEFAULT_PART by_count in
  let part_size := (div_ceil part_size ALIGN * ALIGN) mod 2 ^ 64 in
  let part_size := Z.min (Z.max part_size MIN_PART) MAX_PART in
  (part_size, as_u32 (div_ceil total_size part_size)).

Inductive NumberedPartError :=
| NoSuchUpload | Conflict | PreconditionFailed | Backend (m : string).
Inductive CompleteRecovery := RestartUpload | VerifyExistingObject.

Definition complete_recovery_for (e : NumberedPartError) : option CompleteRecovery :=
  match e with
  | Conflict => Some RestartUpload
  | PreconditionFailed => Some VerifyExistingObject
  | NoSuchUpload | Backend _ => None
  end.

(** The length part [part_number] must have. *)
Definition expected_length (part_number total_parts part_size total_size : Z) : Z :=
  if part_number =? total_parts
  then let rem := total_size mod part_size in if rem =? 0 then part_size else rem
  else part_size.

Definition check_part_geometry (part_number content_length total_parts part_size total_size : Z)
    : result unit string :=
  if (part_number =? 0) || (total_parts <? part_number)
  then Err ("part_number 必须在 [1, " +:+ u64_to_string total_parts +:+ "]，收到 " +:+
              u64_to_string part_number)
  else
    let expected := expected_length part_number total_parts part_size total_size in
    if negb (content_length =? expected)
    then Err ("part " +:+ u64_to_string part_number +:+ " 长度必须是 " +:+ u64_to_string expected +:+
                "，收到 " +:+ u64_to_string content_length)
    else Ok tt.

(** ** Token *)
Definition hex_of_length (n : nat) (s : string) : bool :=
  Nat.eqb (String.length s) n && string_all is_ascii_hexdigit s.

Definition parse_token (raw : string) : option (string * string) :=
  p ← split_once "."%char (trim raw);
  if hex_of_length UPLOAD_ID_HEX_LEN p.1 && hex_of_length SECRET_HEX_LEN p.2 then Some p else None.

Definition looks_like_chunked_token (raw : string) : bool :=
  match parse_token raw with Some _ => true | None => false end.

(** ** The parts directory *)
Record Range := mkRange { r_offset : Z; r_length : Z }.
#[export] Instance range_eq_dec : EqDecision Range.
Proof. solve_decision. Defined.

Definition range_end (r : Range) : Z := r_offset r + r_length r.

Notation parts_dir := (gmap string (list Z)).

Definition part_stem (offset length : Z) : string :=
  u64_to_string offset +:+ String "-"%char (u64_to_string length).
Definition part_name (offset length : Z) : string := part_stem offset length +:+ ".part".
Definition tmp_name (offset length : Z) : string := "." +:+ part_stem offset length +:+ ".tmp".

Definition parse_part_name (name : string) : option Range :=
  stem ← strip_suffix ".part" name;
  ol ← split_once "-"%char stem;
  offset ← parse_u64 ol.1;
  length ← parse_u64 ol.2;
  Some (mkRange offset length).

Definition offset_le (a b : Range) : Prop := r_offset a <= r_offset b.
#[export] Instance offset_le_dec a b : Decision (offset_le a b).
Proof. unfold offset_le. apply _. Defined.

(** The file names that parse, sorted by offset. *)
Definition ranges_of (d : parts_dir) : list Range :=
  merge_sort offset_le (omap parse_part_name (map_to_list d).*1).

Definition scan_parts (io : faults) (i : nat) (d : parts_dir) : result (list Range) ServerError :=
  match io i with
  | Some e => Err (Internal ("扫描 parts 失败: " +:+ e))
  | None => Ok (ranges_of d)
  end.

(** The merge loop of [status]; the list is kept with its last element first. *)
Definition push_part (received : list Range) (p : Range) : list Range :=
  match received with
  | la :: rest =>
      if range_end la =? r_offset p then mkRange (r_offset la) (r_length la + r_length p) :: rest
      else p :: received
  | [] => [p]
  end.

(** The complement loop: missing ranges before the cursor, and the cursor. *)
Definition step_missing (acc : list Range * Z) (r : Range) : list Range * Z :=
  let '(missing, cursor) := acc in
  (if cursor <? r_offset r then missing ++ [mkRange cursor (r_offset r - cursor)] else missing,
   Z.max cursor (range_end r)).

Definition merge_parts (parts : list Range) : list Range := reverse (foldl push_part [] parts).
Definition received_total (parts : list Range) : Z :=
  foldl (fun n p => u64_add n (r_length p)) 0 parts.
Definition missing_ranges (total : Z) (received : list Range) : list Range :=
  let '(missing, cursor) := foldl step_missing ([], 0) received in
  if cursor <? total then missing ++ [mkRange cursor (total - cursor)] else missing.

Definition upload_status (io : faults) (i : nat) (total : Z) (d : parts_dir)
    : result (list Range * list Range * Z) ServerError :=
  let? parts := scan_parts io i d in
  let received := merge_parts parts in
  Ok (received, missing_ranges total received, received_total parts).

Inductive PartOutcome := Written | AlreadyPresent.
Inductive ChunkError :=
| OutOfRange (m : string) | NotAligned (m : string) | Digest | ChunkOverlap (m : string)
| ChunkIo (e : ServerError).
Inductive AssembleError :=
| AssembleMissing (missing : list Range) | AssembleOverlap | AssembleIo (e : ServerError).

(** Where writing a part can fail: before the rename, or syncing the directory
    after it. *)
Inductive write_fault := FailsBeforeRename (e : string) | FailsAfterRename (e : string).

Section Sha.
Context (sha256_hex : list Z -> string).

(** The loop over existing parts: [Some outcome] is an early return. *)
Fixpoint check_existing (io : faults) (d : parts_dir) (offset len end_ : Z) (actual : string)
    (parts : list Range) : option (result PartOutcome ChunkError) :=
  match parts with
  | [] => None
  | p :: ps =>
      let p_end := u64_add (r_offset p) (r_length p) in
      if (r_offset p =? offset) && (r_length p =? len) then
        Some match io 1%nat with
             | Some e => Err (ChunkIo (Internal e))
             | None =>
                 match d !! part_name offset len with
                 | None => Err (ChunkIo (Internal "NotFound"))
                 | Some existing =>
                     if decide (sha256_hex existing = actual) then Ok AlreadyPresent
                     else Err (ChunkOverlap ("分片 [" +:+ u64_to_string offset +:+ ", " +:+
                                 u64_to_string end_ +:+ ") 已存在且内容不同"))
                 end
             end
      else if (r_offset p <? end_) && (offset <? p_end) then
        Some (Err (ChunkOverlap ("分片 [" +:+ u64_to_string offset +:+ ", " +:+ u64_to_string end_ +:+
                ") 与已收 [" +:+ u64_to_string (r_offset p) +:+ ", " +:+ u64_to_string p_end +:+
                ") 边界重叠")))
      else check_existing io d offset len end_ actual ps
  end.

(** Writing the file: an exclusive temporary, then the rename. *)
Definition store_part (wf : option write_fault) (d : parts_dir) (offset len : Z) (bytes : list Z)
    : result PartOutcome ChunkError * parts_dir :=
  let tmp := tmp_name offset len in
  if decide (is_Some (d !! tmp))
  then (Err (ChunkIo (Internal "写分片失败: AlreadyExists")), delete tmp d)
  else match wf with
       | Some (FailsBeforeRename e) => (Err (ChunkIo (Internal ("写分片失败: " +:+ e))), d)
       | Some (FailsAfterRename e) =>
           (Err (ChunkIo (Internal ("写分片失败: " +:+ e))), <[part_name offset len := bytes]> d)
       | None => (Ok Written, <[part_name offset len := bytes]> d)
       end.

(** The checks that need no disk: range, grid, digest. [Ok] is the end offset. *)
Definition check_request (total offset : Z) (bytes : list Z) (declared_sha256 : string)
    : result Z ChunkError :=
  let len := Z.of_nat (length bytes) in
  if len =? 0 then Err (OutOfRange "分片不能为空") else
  let? end_ := ok_or (u64_checked_add offset len) (OutOfRange "分片区间溢出") in
  if total <? end_ then
    Err (OutOfRange ("分片区间 [" +:+ u64_to_string offset +:+ ", " +:+ u64_to_string end_ +:+
           ") 越过总大小 " +:+ u64_to_string total))
  else if negb (offset mod BASE_UNIT =? 0) || (negb (end_ =? total) && negb (len mod BASE_UNIT =? 0))
  then Err (NotAligned ("分片 [" +:+ u64_to_string offset +:+ ", " +:+ u64_to_string end_ +:+
              ") 未按 " +:+ u64_to_string BASE_UNIT +:+ " 字节网格对齐"))
  else if decide (to_ascii_lowercase (trim declared_sha256) <> sha256_hex bytes) then Err Digest
  else Ok end_.

Definition write_part (io : faults) (wf : option write_fault) (total : Z) (d : parts_dir)
    (offset : Z) (bytes : list Z) (declared_sha256 : string)
    : result PartOutcome ChunkError * parts_dir :=
  let len := Z.of_nat (length bytes) in
  match check_request total offset bytes declared_sha256 with
  | Err e => (Err e, d)
  | Ok end_ =>
      match scan_parts io 0 d with
      | Err e => (Err (ChunkIo e), d)
      | Ok parts =>
          match check_existing io d offset len end_ (sha256_hex bytes) parts with
          | Some outcome => (outcome, d)
          | None => store_part wf d offset len bytes
          end
      end
  end.

(** The contents of the part files in order: the bytes written to
    [body.complete.tmp]. *)
Fixpoint read_parts (d : parts_dir) (parts : list Range) : option (list Z) :=
  match parts with
  | [] => Some []
  | p :: ps =>
      bytes ← d !! part_name (r_offset p) (r_length p);
      rest ← read_parts d ps;
      Some (bytes ++ rest)
  end.

Definition assemble (io : faults) (total : Z) (d : parts_dir)
    : result (list Z * Z * string) AssembleError :=
  match upload_status io 0 total d with
  | Err e => Err (AssembleIo e)
  | Ok (received, missing, _) =>
      if decide (missing <> []) then Err (AssembleMissing missing)
      else if decide (received <> [mkRange 0 total]) then Err AssembleOverlap
      else
        match scan_parts io 1 d with
        | Err e => Err (AssembleIo e)
        | Ok parts =>
            match io 2%nat with
            | Some e => Err (AssembleIo (Internal ("拼接分片失败: " +:+ e)))
            | None =>
                match read_parts d parts with
                | None => Err (AssembleIo (Internal "拼接分片失败: NotFound"))
                | Some body => Ok (body, total, sha256_hex body)
                end
            end
        end
  end.
End Sha.

(** ** File names *)
Fixpoint last_char (s : string) : option ascii :=
  match s with
  | EmptyString => None
  | String a EmptyString => Some a
  | String _ r => last_char r
  end.

Lemma last_char_app s t : t <> EmptyString -> last_char (s +:+ t) = last_char t.
Proof.
  intros Ht. induction s as [|b s IH]; [done|].
  change (String b s +:+ t) with (String b (s +:+ t)).
  assert (s +:+ t <> EmptyString) as Hne by by destruct s.
  rewrite <- IH. by destruct (s +:+ t).
Qed.

Lemma parse_part_name_part o l :
  is_u64 o -> is_u64 l -> parse_part_name (part_name o l) = Some (mkRange o l).
Proof.
  intros Ho Hl. unfold parse_part_name, part_name. rewrite strip_suffix_app. simpl.
  unfold part_stem. rewrite split_once_app.
  - simpl. by rewrite !parse_u64_to_string.
  - eapply string_all_impl; [|apply u64_to_string_digits].
    intros a Ha. apply bool_decide_eq_true. intros ->. by vm_compute in Ha.
Qed.

Lemma parse_part_name_tmp o l : parse_part_name (tmp_name o l) = None.
Proof.
  unfold parse_part_name. destruct (strip_suffix ".part" (tmp_name o l)) as [p|] eqn:E; [|done].
  apply strip_suffix_Some, (f_equal last_char) in E. unfold tmp_name in E.
  rewrite (last_char_app p), (last_char_app "."), (last_char_app (part_stem o l)) in E;
    [vm_compute in E; discriminate|try done..]. by destruct (part_stem o l).
Qed.

(** ** The directory invariant *)
Definition covers (r : Range) (x : Z) : Prop := r_offset r <= x < range_end r.

(** A stored part: inside the file, non-empty, with as many bytes as its name says. *)
Definition part_ok (total : Z) (r : Range) (bytes : list Z) : Prop :=
  0 <= r_offset r /\ 0 < r_length r /\ range_end r <= total /\ Z.of_nat (length bytes) = r_length r.

Definition name_ok (total : Z) (name : string) (bytes : list Z) : Prop :=
  (exists r, name = part_name (r_offset r) (r_length r) /\ part_ok total r bytes) \/
  (exists o l, name = tmp_name o l).

(** Every file is a part of the file or a leftover temporary, and parts do not
    overlap. *)
Record dir_ok (total : Z) (d : parts_dir) : Prop := {
  dir_total : is_u64 total;
  dir_names : forall name bytes, d !! name = Some bytes -> name_ok total name bytes;
  dir_disjoint : forall r1 r2 b1 b2,
    d !! part_name (r_offset r1) (r_length r1) = Some b1 ->
    d !! part_name (r_offset r2) (r_length r2) = Some b2 ->
    part_ok total r1 b1 -> part_ok total r2 b2 ->
    forall x, covers r1 x -> covers r2 x -> r1 = r2
}.

Lemma part_ok_u64 total r b : is_u64 total -> part_ok total r b -> is_u64 (r_offset r) /\ is_u64 (r_length r).
Proof. unfold part_ok, is_u64, range_end. lia. Qed.

Lemma parse_part_ok total r b :
  is_u64 total -> part_ok total r b -> parse_part_name (part_name (r_offset r) (r_length r)) = Some r.
Proof.
  intros Ht Hr. destruct (part_ok_u64 total r b Ht Hr). rewrite parse_part_name_part by done.
  by destruct r.
Qed.

Lemma ranges_of_elem total d r :
  dir_ok total d ->
  r ∈ ranges_of d <->
  exists b, d !! part_name (r_offset r) (r_length r) = Some b /\ part_ok total r b.
Proof.
  intros Hd. unfold ranges_of. rewrite merge_sort_Permutation, list_elem_of_omap.
  split.
  - intros (name & Hin & Hp). apply list_elem_of_fmap in Hin as ([n b] & -> & Hin).
    apply elem_of_map_to_list in Hin. simpl in Hp.
    destruct (dir_names _ _ Hd _ _ Hin) as [(r' & -> & Hr')|(o & l & ->)].
    + erewrite parse_part_ok in Hp by (try apply Hd; done). simplify_eq. eauto.
    + by rewrite parse_part_name_tmp in Hp.
  - intros (b & Hb & Hr). eexists. split; [|by eapply parse_part_ok; [apply Hd|]].
    apply list_elem_of_fmap. eexists (_, b). split; [done|]. by apply elem_of_map_to_list.
Qed.

Lemma ranges_of_NoDup total d : dir_ok total d -> NoDup (ranges_of d).
Proof.
  intros Hd. unfold ranges_of. rewrite merge_sort_Permutation.
  assert (forall l : list (string * list Z), (forall n b, (n, b) ∈ l -> d !! n = Some b) ->
            NoDup l.*1 -> NoDup (omap parse_part_name l.*1)) as H.
  { induction l as [|[n b] l IH]; intros Hl Hnd; simpl; [constructor|].
    simpl in Hnd. apply NoDup_cons in Hnd as [Hn Hnd].
    assert (NoDup (omap parse_part_name l.*1)) as IH' by (apply IH; [intros; apply Hl; set_solver|done]).
    destruct (parse_part_name n) as [r|] eqn:Hp; [|done]. constructor; [|done].
    rewrite list_elem_of_omap. intros (n' & Hn' & Hp'). apply Hn.
    apply list_elem_of_fmap in Hn' as ([n'' b'] & -> & Hin). simpl in *.
    assert (d !! n = Some b) as Hb by (apply Hl; set_solver).
    assert (d !! n'' = Some b') as Hb' by (apply Hl; set_solver).
    destruct (dir_names _ _ Hd _ _ Hb) as [(r1 & -> & H1)|(? & ? & ->)];
      [|by rewrite parse_part_name_tmp in Hp].
    destruct (dir_names _ _ Hd _ _ Hb') as [(r2 & -> & H2)|(? & ? & ->)];
      [|by rewrite parse_part_name_tmp in Hp'].
    erewrite parse_part_ok in Hp, Hp' by (try apply Hd; done). simplify_eq.
    apply list_elem_of_fmap. eexists. split; [|exact Hin]. done. }
  apply (H (map_to_list d)); [|apply NoDup_fst_map_to_list].
  intros n b Hin. by apply elem_of_map_to_list in Hin.
Qed.

(** Ranges in order, without overlap, from [lo] to at most [total]. *)
Fixpoint chain (lo total : Z) (rs : list Range) : Prop :=
  match rs with
  | [] => lo <= total
  | r :: rs' => lo <= r_offset r /\ 0 < r_length r /\ chain (range_end r) total rs'
  end.

Lemma sorted_disjoint_chain lo total rs :
  lo <= total -> Sorted offset_le rs -> NoDup rs ->
  (forall r, r ∈ rs -> lo <= r_offset r /\ 0 < r_length r /\ range_end r <= total) ->
  (forall r1 r2 x, r1 ∈ rs -> r2 ∈ rs -> covers r1 x -> covers r2 x -> r1 = r2) ->
  chain lo total rs.
Proof.
  revert lo. induction rs as [|r rs IH]; intros lo Hlo Hs Hnd Hb Hdis; [done|].
  apply NoDup_cons in Hnd as [Hr Hnd]. destruct (Hb r ltac:(set_solver)) as (H1 & H2 & H3).
  assert (StronglySorted offset_le (r :: rs)) as Hss.
  { apply Sorted_StronglySorted; [|done]. intros ???; unfold offset_le; lia. }
  simpl. split_and!; [done..|]. apply IH; try done.
  - by inversion Hs.
  - intros r' Hr'. destruct (Hb r' ltac:(set_solver)) as (H1' & H2' & H3'). split_and!; try done.
    apply StronglySorted_inv in Hss as [_ Hall]. rewrite Forall_forall in Hall.
    pose proof (Hall r' Hr') as Hle. unfold offset_le in Hle.
    destruct (Z.lt_ge_cases (r_offset r') (range_end r)) as [Hlt|]; [|done].
    assert (r = r') as <-; [|done].
    apply (Hdis r r' (r_offset r')); [set_solver..| |]; unfold covers, range_end in *; lia.
  - intros r1 r2 x ???. apply (Hdis r1 r2 x); set_solver.
Qed.

Lemma ranges_chain total d : dir_ok total d -> chain 0 total (ranges_of d).
Proof.
  intros Hd. pose proof (dir_total _ _ Hd) as Ht. unfold is_u64 in Ht.
  apply sorted_disjoint_chain; [lia| |by eapply ranges_of_NoDup| |].
  - unfold ranges_of. apply Sorted_merge_sort. intros a b. unfold offset_le. lia.
  - intros r Hr. apply (ranges_of_elem total) in Hr as (b & _ & Hr); [|done].
    destruct Hr as (? & ? & ? & _). done.
  - intros r1 r2 x H1 H2. apply (ranges_of_elem total) in H1 as (b1 & ? & ?), H2 as (b2 & ? & ?); try done.
    by eapply (dir_disjoint _ _ Hd).
Qed.

(** ** Status *)
Definition covered (rs : list Range) (x : Z) : Prop := exists r, r ∈ rs /\ covers r x.

Lemma covered_nil x : covered [] x <-> False.
Proof. unfold covered. split; [|done]. intros (r & Hr & _). by apply elem_of_nil in Hr. Qed.
Lemma covered_cons r rs x : covered (r :: rs) x <-> covers r x \/ covered rs x.
Proof. unfold covered. setoid_rewrite elem_of_cons. naive_solver. Qed.
Lemma covered_app l1 l2 x : covered (l1 ++ l2) x <-> covered l1 x \/ covered l2 x.
Proof. unfold covered. setoid_rewrite elem_of_app. naive_solver. Qed.
Lemma covered_reverse l x : covered (reverse l) x <-> covered l x.
Proof. unfold covered. by setoid_rewrite elem_of_reverse. Qed.

Lemma chain_le lo total rs : chain lo total rs -> lo <= total.
Proof.
  revert lo. induction rs as [|r rs IH]; intros lo; simpl; [done|].
  intros (H1 & H2 & H3%IH). unfold range_end in H3. lia.
Qed.

Lemma chain_weaken lo hi hi' rs : hi <= hi' -> chain lo hi rs -> chain lo hi' rs.
Proof.
  intros Hhi. revert lo. induction rs as [|q l IH]; intros lo; simpl; [lia|].
  intros (?&?&?). split_and!; auto.
Qed.

Lemma chain_covered lo total rs x : chain lo total rs -> covered rs x -> lo <= x < total.
Proof.
  revert lo. induction rs as [|r rs IH]; intros lo; [by rewrite covered_nil|].
  simpl. intros (H1 & H2 & H3). pose proof (chain_le _ _ _ H3) as Hle.
  rewrite covered_cons. unfold covers, range_end in *.
  intros [?|Hc]; [lia|]. specialize (IH _ H3 Hc). lia.
Qed.

Lemma chain_snoc lo total l r :
  chain lo total (l ++ [r]) <-> chain lo (r_offset r) l /\ 0 < r_length r /\ range_end r <= total.
Proof. revert lo. induction l as [|q l IH]; intros lo; simpl; [tauto|]. rewrite IH. tauto. Qed.

(** The complement of a chain, as the missing ranges should be. *)
Fixpoint gaps (c total : Z) (rs : list Range) : list Range :=
  match rs with
  | [] => if c <? total then [mkRange c (total - c)] else []
  | r :: rs' =>
      (if c <? r_offset r then [mkRange c (r_offset r - c)] else []) ++ gaps (range_end r) total rs'
  end.

Lemma gaps_chain c total rs : chain c total rs -> chain c total (gaps c total rs).
Proof.
  assert (forall c c' total rs, c <= c' -> chain c' total rs -> chain c total rs) as Hmono.
  { intros c0 c' t [|r rs'] ?; simpl; [lia|]. intros (?&?&?). split_and!; [lia|done..]. }
  revert c. induction rs as [|r rs IH]; intros c; simpl.
  - intros H. destruct (Z.ltb_spec c total); simpl; [|done]. unfold range_end. simpl. lia.
  - intros (H1 & H2 & H3). pose proof (IH _ H3) as IH'. unfold range_end in *.
    destruct (Z.ltb_spec c (r_offset r)); simpl.
    + split_and!; [lia|lia|]. unfold range_end. simpl. eapply Hmono; [|exact IH']. lia.
    + eapply Hmono; [|exact IH']. lia.
Qed.

Lemma gaps_complement c total rs x :
  chain c total rs -> c <= x < total -> (covered (gaps c total rs) x <-> ~ covered rs x).
Proof.
  revert c. induction rs as [|r rs IH]; intros c; simpl.
  - intros H Hx. destruct (Z.ltb_spec c total); [|lia].
    rewrite covered_cons, !covered_nil. unfold covers, range_end. simpl. split; [tauto|]. lia.
  - intros (H1 & H2 & H3) Hx. rewrite covered_app, covered_cons.
    assert (covered (if c <? r_offset r then [mkRange c (r_offset r - c)] else []) x <->
            x < r_offset r) as ->.
    { destruct (Z.ltb_spec c (r_offset r)); rewrite ?covered_cons, ?covered_nil;
        unfold covers, range_end; simpl; lia. }
    assert (forall y, covered rs y -> range_end r <= y) as Hrs
      by (intros y Hy; by apply (chain_covered _ _ _ _ H3)).
    assert (forall y, covered (gaps (range_end r) total rs) y -> range_end r <= y) as Hg
      by (intros y Hy; by apply (chain_covered _ _ _ _ (gaps_chain _ _ _ H3))).
    unfold covers. destruct (Z.lt_ge_cases x (range_end r)) as [Hlt|Hge].
    + assert (~ covered rs x) by (intros ?%Hrs; lia).
      assert (~ covered (gaps (range_end r) total rs) x) by (intros ?%Hg; lia).
      unfold range_end in *. split; [intros [?|?]; [|done]; intros [?|?]; [lia|done]|].
      intros Hn. left. destruct (Z.lt_ge_cases x (r_offset r)); [done|]. exfalso. apply Hn. left. lia.
    + rewrite IH by (done || lia). unfold range_end in *. split; [intros [?|?]; [lia|]; intros [?|?]; [lia|done]|].
      intros Hn. right. intros Hc. apply Hn. by right.
Qed.

Definition lengths (rs : list Range) : Z := foldr (fun r n => r_length r + n) 0 rs.

Lemma gaps_lengths c total rs :
  chain c total rs -> lengths rs + lengths (gaps c total rs) = total - c.
Proof.
  revert c. induction rs as [|r rs IH]; intros c; simpl.
  - intros H. destruct (Z.ltb_spec c total); simpl; lia.
  - intros (H1 & H2 & H3). specialize (IH _ H3). unfold range_end in *.
    destruct (Z.ltb_spec c (r_offset r)); simpl; lia.
Qed.

Lemma lengths_nonneg c total rs : chain c total rs -> 0 <= lengths rs.
Proof.
  revert c. induction rs as [|r rs IH]; intros c; simpl; [lia|].
  intros (_ & ? & H). specialize (IH _ H). lia.
Qed.

(** The loop of the source computes the complement. *)
Lemma missing_is_gaps total rs : chain 0 total rs -> missing_ranges total rs = gaps 0 total rs.
Proof.
  intros H. unfold missing_ranges.
  assert (forall acc c, chain c total rs ->
    (let '(m, c') := foldl step_missing (acc, c) rs in
     if c' <? total then m ++ [mkRange c' (total - c')] else m) = acc ++ gaps c total rs) as Hgen.
  { clear H. induction rs as [|r rs IH]; intros acc c; cbn [foldl chain gaps].
    - intros H. destruct (Z.ltb_spec c total); [done|by rewrite app_nil_r].
    - intros (H1 & H2 & H3). unfold step_missing at 2.
      replace (Z.max c (range_end r)) with (range_end r) by (unfold range_end; lia).
      rewrite IH by done. destruct (c <? r_offset r); [by rewrite <- app_assoc|done]. }
  rewrite Hgen by done. done.
Qed.

(** Merging keeps the order and the covered bytes. *)
Lemma push_part_chain lo acc p :
  chain lo (r_offset p) (reverse acc) -> 0 < r_length p ->
  chain lo (range_end p) (reverse (push_part acc p)) /\
  (forall x, covered (push_part acc p) x <-> covered acc x \/ covers p x) .
Proof.
  intros Hc Hp. unfold push_part. destruct acc as [|la rest].
  - simpl in *. split; [unfold range_end; lia|]. intros x. rewrite covered_cons. tauto.
  - rewrite reverse_cons in Hc. apply chain_snoc in Hc as (Hc & Hla & Hend).
    destruct (Z.eqb_spec (range_end la) (r_offset p)) as [He|Hne].
    + split.
      * rewrite reverse_cons. apply chain_snoc. unfold range_end in *. simpl. split_and!; [done|lia..].
      * intros x. rewrite !covered_cons. unfold covers, range_end in *. simpl. split; [|intros [[]|]];
          intros; try (right; by auto); try lia. destruct H as [?|?]; [|tauto].
        destruct (Z.lt_ge_cases x (r_offset p)); lia.
    + split.
      * rewrite !reverse_cons. apply chain_snoc. split_and!; [|done|done].
        apply chain_snoc. done.
      * intros x. rewrite !covered_cons. tauto.
Qed.

Lemma merge_chain total rs :
  chain 0 total rs ->
  chain 0 total (merge_parts rs) /\ forall x, covered (merge_parts rs) x <-> covered rs x.
Proof.
  unfold merge_parts.
  assert (forall acc lo hi, chain lo hi (reverse acc) -> chain hi total rs ->
    chain lo total (reverse (foldl push_part acc rs)) /\
    forall x, covered (foldl push_part acc rs) x <-> covered acc x \/ covered rs x) as Hgen.
  { induction rs as [|p rs IH]; intros acc lo hi Ha Hrs; simpl in *.
    - split; [by eapply chain_weaken|intros x; rewrite covered_nil; tauto].
    - destruct Hrs as (H1 & H2 & H3).
      assert (chain lo (r_offset p) (reverse acc)) as Ha' by by eapply chain_weaken.
      destruct (push_part_chain lo acc p Ha' H2) as [Hc Hcov].
      destruct (IH _ _ _ Hc H3) as [Hc' Hcov']. split; [done|].
      intros x. rewrite Hcov', Hcov, covered_cons. tauto. }
  intros H. destruct (Hgen [] 0 0) as [Hc Hcov]; [simpl; lia|done|].
  split; [done|]. intros x. rewrite covered_reverse, Hcov, covered_nil. tauto.
Qed.

Lemma received_total_lengths total rs :
  total < 2 ^ 64 -> chain 0 total rs -> received_total rs = lengths rs.
Proof.
  intros Ht Hc. unfold received_total.
  assert (forall n c, 0 <= n <= c -> chain c total rs ->
            foldl (fun n p => u64_add n (r_length p)) n rs = n + lengths rs) as Hgen.
  { clear Hc. induction rs as [|r rs IH]; intros n c Hn Hc; simpl in *; [lia|].
    destruct Hc as (H1 & H2 & H3). pose proof (chain_le _ _ _ H3) as Hle. unfold range_end in *.
    rewrite u64_add_small by lia. rewrite (IH _ (r_offset r + r_length r)) by (done || lia). lia. }
  rewrite (Hgen 0 0) by (done || lia). lia.
Qed.

Lemma push_part_lengths acc p : lengths (push_part acc p) = lengths acc + r_length p.
Proof. unfold push_part. destruct acc as [|la acc]; simpl; [lia|]. case_match; simpl; lia. Qed.

Lemma lengths_app l1 l2 : lengths (l1 ++ l2) = lengths l1 + lengths l2.
Proof. induction l1; simpl; lia. Qed.

(** Merging adjacent parts keeps the number of bytes. *)
Lemma merged_lengths rs : lengths (merge_parts rs) = lengths rs.
Proof.
  unfold merge_parts.
  assert (forall l, lengths (reverse l) = lengths l) as ->.
  { induction l as [|r l IH]; [done|]. rewrite reverse_cons, lengths_app, IH. simpl. lia. }
  assert (forall acc, lengths (foldl push_part acc rs) = lengths acc + lengths rs) as H.
  { induction rs as [|r rs IH]; intros acc; simpl; [lia|]. rewrite IH, push_part_lengths. lia. }
  by rewrite H.
Qed.

(** ** Assembly *)

(** Each part starts where the previous one ended. *)
Fixpoint tight (c total : Z) (rs : list Range) : Prop :=
  match rs with
  | [] => c = total
  | r :: rs' => r_offset r = c /\ 0 < r_length r /\ tight (range_end r) total rs'
  end.

Lemma no_gaps_tight c total rs : chain c total rs -> gaps c total rs = [] -> tight c total rs.
Proof.
  revert c. induction rs as [|r rs IH]; intros c; simpl.
  - intros H. destruct (Z.ltb_spec c total); [done|lia].
  - intros (H1 & H2 & H3). destruct (Z.ltb_spec c (r_offset r)); [done|]. simpl. intros Hg.
    split_and!; [lia|done|]. by apply IH.
Qed.

(** A chain that covers everything has no gaps. *)
Lemma covered_no_gaps c total rs :
  chain c total rs -> (forall x, c <= x < total -> covered rs x) -> gaps c total rs = [].
Proof.
  intros Hc Hall. destruct (gaps c total rs) as [|q qs] eqn:Hq; [done|]. exfalso.
  pose proof (gaps_chain c total rs Hc) as Hgc. rewrite Hq in Hgc. simpl in Hgc.
  assert (covered (gaps c total rs) (r_offset q)) as Hcq.
  { rewrite Hq, covered_cons. left. unfold covers, range_end. lia. }
  destruct Hgc as (H1 & H2 & H3). pose proof (chain_le _ _ _ H3) as H4. unfold range_end in *.
  rewrite gaps_complement in Hcq by (done || lia). apply Hcq, Hall. lia.
Qed.

(** The missing ranges of the merged list are those of the parts themselves. *)
Lemma merged_no_gaps total rs :
  chain 0 total rs -> gaps 0 total (merge_parts rs) = [] -> gaps 0 total rs = [].
Proof.
  intros Hc Hg. destruct (merge_chain total rs Hc) as [Hm Hcov].
  apply covered_no_gaps; [done|]. intros x Hx. apply Hcov.
  destruct (decide (Exists (fun r => r_offset r <= x /\ x < range_end r) (merge_parts rs))) as [He|Hn].
  - apply Exists_exists in He as (r & Hr & ?). by exists r.
  - assert (covered (gaps 0 total (merge_parts rs)) x) as Hcx.
    { rewrite gaps_complement by done. intros (r & Hr & ?). apply Hn, Exists_exists. eauto. }
    rewrite Hg in Hcx. by apply covered_nil in Hcx.
Qed.

Lemma tight_merge o c total rs :
  tight c total rs ->
  foldl push_part [mkRange o (c - o)] rs = [mkRange o (total - o)].
Proof.
  revert c. induction rs as [|r rs IH]; intros c; simpl; [by intros ->|].
  intros (H1 & H2 & H3). unfold range_end at 1. simpl.
  destruct (Z.eqb_spec (o + (c - o)) (r_offset r)) as [_|]; [|lia].
  replace (c - o + r_length r) with (range_end r - o) by (unfold range_end; lia). by apply IH.
Qed.

Lemma tight_merge_all total rs :
  0 < total -> tight 0 total rs -> merge_parts rs = [mkRange 0 total].
Proof.
  intros Ht. unfold merge_parts. destruct rs as [|r rs]; simpl; [lia|].
  intros (H1 & H2 & H3). destruct r as [ro rl]. simpl in *. subst ro.
  replace rl with (range_end (mkRange 0 rl) - 0) at 1 by (unfold range_end; simpl; lia).
  rewrite (tight_merge 0 _ total rs H3). simpl. by rewrite Z.sub_0_r.
Qed.

(** The bytes of [F] at a range. *)
Definition slice (F : list Z) (r : Range) : list Z :=
  take (Z.to_nat (r_length r)) (drop (Z.to_nat (r_offset r)) F).

Lemma tight_slices F c total rs :
  0 <= c -> Z.of_nat (length F) = total -> tight c total rs ->
  concat (slice F <$> rs) = drop (Z.to_nat c) F.
Proof.
  intros Hc HF. revert c Hc. induction rs as [|r rs IH]; intros c Hc; simpl.
  - intros ->. symmetry. apply drop_ge. lia.
  - intros (H1 & H2 & H3).
    change (slice F r ++ concat (slice F <$> rs) = drop (Z.to_nat c) F).
    rewrite (IH (range_end r)) by (unfold range_end; lia || done).
    unfold slice, range_end. rewrite H1.
    replace (Z.to_nat (c + r_length r)) with (Z.to_nat c + Z.to_nat (r_length r))%nat by lia.
    rewrite <- drop_drop. apply take_drop.
Qed.

Lemma read_parts_spec d rs F :
  (forall r, r ∈ rs -> d !! part_name (r_offset r) (r_length r) = Some (slice F r)) ->
  read_parts d rs = Some (concat (slice F <$> rs)).
Proof.
  induction rs as [|r rs IH]; intros H; simpl; [done|].
  rewrite (H r ltac:(set_solver)). simpl. rewrite IH by (intros; apply H; set_solver). done.
Qed.

(** ** Writing a part *)
Section WriteFacts.
Context (sha256_hex : list Z -> string).

Lemma check_existing_None io d offset len end_ actual parts :
  check_existing sha256_hex io d offset len end_ actual parts = None ->
  forall p, p ∈ parts ->
    p <> mkRange offset len /\ (end_ <= r_offset p \/ u64_add (r_offset p) (r_length p) <= offset).
Proof.
  induction parts as [|q parts IH]; simpl; intros H p Hp; [by apply elem_of_nil in Hp|].
  destruct ((r_offset q =? offset) && (r_length q =? len)) eqn:Hsame; [done|].
  destruct ((r_offset q <? end_) && (offset <? u64_add (r_offset q) (r_length q))) eqn:Hov; [done|].
  apply elem_of_cons in Hp as [->|Hp]; [|by apply IH].
  split; [|lia]. intros ->. simpl in Hsame. lia.
Qed.

Lemma check_request_ok total offset bytes declared end_ :
  0 <= offset -> check_request sha256_hex total offset bytes declared = Ok end_ ->
  end_ = offset + Z.of_nat (length bytes) /\
  part_ok total (mkRange offset (Z.of_nat (length bytes))) bytes.
Proof.
  intros Hoff. unfold check_request, u64_checked_add, part_ok, range_end. simpl.
  destruct (Z.eqb_spec (Z.of_nat (length bytes)) 0); [done|].
  destruct (Z.leb_spec (offset + Z.of_nat (length bytes)) u64_max); simpl; [|done].
  destruct (Z.ltb_spec total (offset + Z.of_nat (length bytes))); [done|].
  destruct (_ || _); [done|]. destruct (decide _); [done|]. intros [= <-]. lia.
Qed.

(** A write leaves the directory alone, removes a stale temporary, or adds one new
    part that fits and touches no other. *)
Inductive write_effect (total : Z) (d : parts_dir) (offset : Z) (bytes : list Z) : parts_dir -> Prop :=
| WE_same : write_effect total d offset bytes d
| WE_tmp o l : write_effect total d offset bytes (delete (tmp_name o l) d)
| WE_new :
    let r := mkRange offset (Z.of_nat (length bytes)) in
    part_ok total r bytes ->
    (forall q, q ∈ ranges_of d -> q <> r /\ (range_end r <= r_offset q \/ range_end q <= offset)) ->
    write_effect total d offset bytes (<[part_name offset (Z.of_nat (length bytes)) := bytes]> d).

Lemma write_part_effect io wf total d offset bytes declared :
  dir_ok total d -> 0 <= offset ->
  write_effect total d offset bytes (write_part sha256_hex io wf total d offset bytes declared).2.
Proof.
  intros Hd Hoff. unfold write_part.
  destruct (check_request _ _ _ _ _) as [end_|] eqn:Hreq; [|constructor].
  destruct (check_request_ok _ _ _ _ _ Hoff Hreq) as (-> & Hpart).
  unfold scan_parts. destruct (io 0%nat); [constructor|].
  destruct (check_existing _ _ _ _ _ _ _ _) as [out|] eqn:Hchk; [constructor|].
  pose proof (check_existing_None _ _ _ _ _ _ _ Hchk) as Hfree.
  assert (write_effect total d offset bytes
            (<[part_name offset (Z.of_nat (length bytes)) := bytes]> d)) as Hnew.
  { apply WE_new; [exact Hpart|].
    intros q Hq. destruct (Hfree q Hq) as [Hne Hdis]. split; [done|].
    apply (ranges_of_elem total) in Hq as (b & _ & Hok); [|done].
    pose proof (dir_total _ _ Hd) as Ht. unfold part_ok, is_u64, range_end in *. simpl.
    rewrite u64_add_small in Hdis by lia. lia. }
  unfold store_part. destruct (decide _); [apply WE_tmp|].
  destruct wf as [[e|e]|]; [constructor|exact Hnew..].
Qed.

Lemma part_name_inj total r r' b b' :
  is_u64 total -> part_ok total r b -> part_ok total r' b' ->
  part_name (r_offset r) (r_length r) = part_name (r_offset r') (r_length r') -> r = r'.
Proof.
  intros Ht Hr Hr' Heq. apply (f_equal parse_part_name) in Heq.
  rewrite (parse_part_ok _ _ _ Ht Hr), (parse_part_ok _ _ _ Ht Hr') in Heq. by simplify_eq.
Qed.

Lemma part_name_not_tmp total r b o l :
  is_u64 total -> part_ok total r b -> part_name (r_offset r) (r_length r) <> tmp_name o l.
Proof.
  intros Ht Hr Heq. apply (f_equal parse_part_name) in Heq.
  by rewrite (parse_part_ok _ _ _ Ht Hr), parse_part_name_tmp in Heq.
Qed.

Lemma dir_ok_delete total d n : dir_ok total d -> dir_ok total (delete n d).
Proof.
  intros [Ht Hn Hdis]. split; [done| |].
  - intros name b [_ Hb]%lookup_delete_Some. by apply Hn.
  - intros r1 r2 b1 b2 [_ H1]%lookup_delete_Some [_ H2]%lookup_delete_Some. by eapply Hdis.
Qed.

Lemma dir_ok_effect total d offset bytes d' :
  dir_ok total d -> write_effect total d offset bytes d' -> dir_ok total d'.
Proof.
  intros Hd Heff. destruct Heff as [|o l|r Hr Hfree]; [done|by apply dir_ok_delete|].
  pose proof (dir_total _ _ Hd) as Ht.
  assert (forall q b, part_ok total q b ->
    <[part_name offset (Z.of_nat (length bytes)) := bytes]> d !! part_name (r_offset q) (r_length q) = Some b ->
    q = r \/ q ∈ ranges_of d) as Hcase.
  { intros q b Hq Hl. destruct (decide (q = r)) as [|Hne]; [by left|right].
    apply (ranges_of_elem total); [done|]. exists b. split; [|done].
    rewrite lookup_insert_ne in Hl; [done|]. intros Heq. apply Hne.
    by eapply (part_name_inj total q r b bytes). }
  split; [done| |].
  - intros name b. rewrite lookup_insert_Some. intros [[<- <-]|[_ Hb]].
    + left. by exists r.
    + by apply (dir_names _ _ Hd).
  - intros r1 r2 b1 b2 H1 H2 Hr1 Hr2 x Hx1 Hx2.
    destruct (Hcase r1 b1 Hr1 H1) as [->|Hin1], (Hcase r2 b2 Hr2 H2) as [->|Hin2]; try done.
    + destruct (Hfree r2 Hin2) as [_ ?]. unfold covers, range_end in *. simpl in *. lia.
    + destruct (Hfree r1 Hin1) as [_ ?]. unfold covers, range_end in *. simpl in *. lia.
    + apply (ranges_of_elem total) in Hin1 as (c1 & ? & ?), Hin2 as (c2 & ? & ?); try done.
      by eapply (dir_disjoint _ _ Hd r1 r2 c1 c2).
Qed.

(** ** Histories of one session *)
Inductive upload_op :=
| OpWrite (io : faults) (wf : option write_fault) (offset : Z) (bytes : list Z) (declared : string)
| OpCrash (offset len : Z) (partial : list Z).

Definition apply_upload (total : Z) (d : parts_dir) (o : upload_op) : parts_dir :=
  match o with
  | OpWrite io wf offset bytes declared => (write_part sha256_hex io wf total d offset bytes declared).2
  | OpCrash offset len partial => <[tmp_name offset len := partial]> d
  end.
Definition upload_run (total : Z) (ops : list upload_op) : parts_dir :=
  foldl (apply_upload total) ∅ ops.

Definition upload_op_ok (o : upload_op) : Prop :=
  match o with OpWrite _ _ offset _ _ => 0 <= offset | OpCrash _ _ _ => True end.

Lemma dir_ok_tmp total d o l partial : dir_ok total d -> dir_ok total (<[tmp_name o l := partial]> d).
Proof.
  intros Hd. pose proof (dir_total _ _ Hd) as Ht. split; [done| |].
  - intros name b. rewrite lookup_insert_Some. intros [[<- _]|[_ Hb]]; [right; eauto|].
    by apply (dir_names _ _ Hd).
  - intros r1 r2 b1 b2 H1 H2 Hr1 Hr2.
    rewrite lookup_insert_ne in H1, H2 by (symmetry; by eapply part_name_not_tmp).
    by eapply (dir_disjoint _ _ Hd).
Qed.

Lemma apply_upload_ok total d o : dir_ok total d -> upload_op_ok o -> dir_ok total (apply_upload total d o).
Proof.
  intros Hd Ho. destruct o as [io wf off bytes decl|off len partial]; simpl in *.
  - eapply dir_ok_effect; [done|]. by apply write_part_effect.
  - by apply dir_ok_tmp.
Qed.

Lemma upload_run_ok total ops : is_u64 total -> Forall upload_op_ok ops -> dir_ok total (upload_run total ops).
Proof.
  intros Ht. induction ops as [|o ops IH] using rev_ind.
  - intros _. unfold upload_run. simpl.
    split; [done|intros ??; by rewrite lookup_empty|intros ????; by rewrite lookup_empty].
  - intros [Hops [Ho _]%Forall_cons]%Forall_app. unfold upload_run. rewrite foldl_snoc.
    apply apply_upload_ok; [by apply IH|done].
Qed.

(** Stored bytes are never replaced: only a temporary can disappear. *)
Lemma apply_upload_keeps total d o r b :
  dir_ok total d -> upload_op_ok o -> part_ok total r b ->
  d !! part_name (r_offset r) (r_length r) = Some b ->
  apply_upload total d o !! part_name (r_offset r) (r_length r) = Some b.
Proof.
  intros Hd Ho Hr Hl. pose proof (dir_total _ _ Hd) as Ht.
  destruct o as [io wf off bytes decl|off len partial]; simpl in *.
  - destruct (write_part_effect io wf total d off bytes decl Hd Ho) as [|o l|q Hq Hfree]; [done| |].
    + rewrite lookup_delete_ne; [done|]. symmetry. by eapply part_name_not_tmp.
    + rewrite lookup_insert_ne; [done|]. intros Heq.
      assert (r ∈ ranges_of d) as Hin by (apply (ranges_of_elem total); eauto).
      destruct (Hfree r Hin) as [Hne _]. apply Hne. symmetry.
      by eapply (part_name_inj total q r bytes b).
  - rewrite lookup_insert_ne; [done|]. symmetry. by eapply part_name_not_tmp.
Qed.

Lemma upload_run_keeps total ops d r b :
  dir_ok total d -> Forall upload_op_ok ops -> part_ok total r b ->
  d !! part_name (r_offset r) (r_length r) = Some b ->
  foldl (apply_upload total) d ops !! part_name (r_offset r) (r_length r) = Some b.
Proof.
  revert d. induction ops as [|o ops IH]; intros d Hd Hops Hr Hl; [done|].
  apply Forall_cons in Hops as [Ho Hops]. simpl. apply IH; try done.
  - by apply apply_upload_ok.
  - by apply apply_upload_keeps.
Qed.

(** Every write of the history carries the bytes of [F] at its offset. *)
Definition writes_of (F : list Z) (o : upload_op) : Prop :=
  match o with
  | OpWrite _ _ offset bytes _ => bytes = slice F (mkRange offset (Z.of_nat (length bytes)))
  | OpCrash _ _ _ => True
  end.

Lemma upload_run_content total F ops r b :
  is_u64 total -> Forall upload_op_ok ops -> Forall (writes_of F) ops -> part_ok total r b ->
  upload_run total ops !! part_name (r_offset r) (r_length r) = Some b -> b = slice F r.
Proof.
  intros Ht. revert b. induction ops as [|o ops IH] using rev_ind; [done|].
  intros b [Hops [Ho _]%Forall_cons]%Forall_app [HF [HoF _]%Forall_cons]%Forall_app Hr.
  pose proof (upload_run_ok total ops Ht Hops) as Hd.
  unfold upload_run. rewrite foldl_snoc. fold (upload_run total ops).
  destruct o as [io wf off bytes decl|off len partial]; simpl in *.
  - destruct (write_part_effect io wf total _ off bytes decl Hd Ho) as [|o l|q Hq Hfree]; [by apply IH| |].
    + intros [_ Hb]%lookup_delete_Some. by apply IH.
    + intros [[Heq <-]|[_ Hb]]%lookup_insert_Some; [|by apply IH].
      assert (q = r) as <- by (by eapply (part_name_inj total q r bytes bytes)). done.
  - intros [[Heq _]|[_ Hb]]%lookup_insert_Some; [|by apply IH].
    symmetry in Heq. by eapply part_name_not_tmp in Heq.
Qed.

(** ** Repeating a write *)
Lemma check_existing_here io d offset len end_ actual parts b :
  io 1%nat = None -> d !! part_name offset len = Some b -> sha256_hex b = actual ->
  mkRange offset len ∈ parts ->
  (forall p, p ∈ parts -> p <> mkRange offset len ->
     end_ <= r_offset p \/ u64_add (r_offset p) (r_length p) <= offset) ->
  check_existing sha256_hex io d offset len end_ actual parts = Some (Ok AlreadyPresent).
Proof.
  intros Hio Hb Hsha. induction parts as [|p parts IH]; intros Hin Hdis; [by apply elem_of_nil in Hin|].
  simpl. destruct ((r_offset p =? offset) && (r_length p =? len)) eqn:Hsame.
  { by rewrite Hio, Hb, decide_True. }
  assert (p <> mkRange offset len) as Hne by (intros ->; simpl in Hsame; lia).
  destruct (Hdis p ltac:(set_solver) Hne).
  - destruct (Z.ltb_spec (r_offset p) end_); [lia|]. simpl. apply IH; [set_solver|].
    intros; apply Hdis; set_solver.
  - destruct (Z.ltb_spec offset (u64_add (r_offset p) (r_length p))); [lia|].
    rewrite andb_false_r. apply IH; [set_solver|]. intros; apply Hdis; set_solver.
Qed.

Lemma check_existing_present io d offset len end_ actual parts out :
  check_existing sha256_hex io d offset len end_ actual parts = Some (Ok out) ->
  out = AlreadyPresent /\ exists b, d !! part_name offset len = Some b /\ sha256_hex b = actual.
Proof.
  induction parts as [|p parts IH]; simpl; [done|].
  destruct (_ && _); [|destruct (_ && _); [done|done]].
  destruct (io 1%nat); [done|].
  destruct (d !! part_name offset len) as [b|] eqn:Hb; [|done].
  case_decide; [|done]. intros [= <-]. eauto.
Qed.

(** An accepted write: the part is there, with the digest of the request. *)
Lemma write_accepted io wf total d offset bytes declared out :
  dir_ok total d -> 0 <= offset ->
  (write_part sha256_hex io wf total d offset bytes declared).1 = Ok out ->
  let r := mkRange offset (Z.of_nat (length bytes)) in
  is_ok (check_request sha256_hex total offset bytes declared) = true /\
  exists b, (write_part sha256_hex io wf total d offset bytes declared).2
              !! part_name offset (Z.of_nat (length bytes)) = Some b /\
    sha256_hex b = sha256_hex bytes /\ part_ok total r b.
Proof.
  intros Hd Hoff. unfold write_part.
  destruct (check_request _ _ _ _ _) as [end_|] eqn:Hreq; [|done].
  destruct (check_request_ok _ _ _ _ _ Hoff Hreq) as (-> & Hpart).
  destruct (scan_parts io 0 d) as [parts|]; [|done].
  destruct (check_existing _ _ _ _ _ _ _ _) as [o|] eqn:Hchk.
  - simpl. intros ->. apply check_existing_present in Hchk as [_ (b & Hb & Hsha)].
    split; [done|]. exists b. split_and!; try done.
    destruct (dir_names _ _ Hd _ _ Hb) as [(q & Hq & Hok)|(o & l & Ho)].
    + pose proof (dir_total _ _ Hd) as Ht.
      by rewrite <- (part_name_inj total _ _ _ _ Ht Hpart Hok Hq) in Hok.
    + exfalso. by eapply (part_name_not_tmp total (mkRange offset (Z.of_nat (length bytes))));
        [apply Hd|exact Hpart|exact Ho].
  - unfold store_part. destruct (decide _); [done|]. destruct wf as [[]|]; try done.
    intros _. split; [done|]. exists bytes. simpl. by rewrite lookup_insert_eq.
Qed.

Lemma write_present total d offset bytes declared b :
  dir_ok total d -> 0 <= offset ->
  is_ok (check_request sha256_hex total offset bytes declared) = true ->
  d !! part_name offset (Z.of_nat (length bytes)) = Some b ->
  part_ok total (mkRange offset (Z.of_nat (length bytes))) b ->
  sha256_hex b = sha256_hex bytes ->
  write_part sha256_hex no_faults None total d offset bytes declared = (Ok AlreadyPresent, d).
Proof.
  intros Hd Hoff Hreq Hb Hok Hsha. unfold write_part.
  destruct (check_request _ _ _ _ _) as [end_|] eqn:Hr; [|done].
  destruct (check_request_ok _ _ _ _ _ Hoff Hr) as (-> & Hpart). simpl.
  erewrite check_existing_here; try done.
  - apply (ranges_of_elem total); [done|]. eauto.
  - intros p Hp Hne. apply (ranges_of_elem total) in Hp as (bp & Hbp & Hpok); [|done].
    pose proof (dir_total _ _ Hd) as Ht.
    assert (u64_add (r_offset p) (r_length p) = range_end p) as ->.
    { unfold part_ok, range_end, is_u64 in *. apply u64_add_small; lia. }
    destruct (Z.le_gt_cases (offset + Z.of_nat (length bytes)) (r_offset p)); [by left|].
    destruct (Z.le_gt_cases (range_end p) offset); [by right|]. exfalso. apply Hne.
    eapply (dir_disjoint _ _ Hd p (mkRange offset (Z.of_nat (length bytes))) bp b Hbp Hb Hpok Hok
              (Z.max offset (r_offset p)));
      unfold covers, range_end, part_ok in *; simpl in *; lia.
Qed.
End WriteFacts.

(** ** Properties *)

(** Upload progress is exact. After any history of part writes, in any order
    and with any I/O failures and crashes, [status] returns two lists of
    disjoint ranges in ascending order: a byte of the file is in a received range
    exactly if a stored part holds it, and in a missing range exactly if none
    does; the received byte count and the missing lengths add up to the total. *)
Theorem upload_status_partition (sha256_hex : list Z -> string) (total : Z) (ops : list upload_op) :
  is_u64 total -> Forall upload_op_ok ops ->
  exists received missing bytes,
    upload_status no_faults 0 total (upload_run sha256_hex total ops) = Ok (received, missing, bytes) /\
    chain 0 total received /\ chain 0 total missing /\
    (forall x, 0 <= x < total ->
       (covered received x <-> covered (ranges_of (upload_run sha256_hex total ops)) x) /\
       (covered missing x <-> ~ covered (ranges_of (upload_run sha256_hex total ops)) x)) /\
    bytes + lengths missing = total.
Proof.
  intros Ht Hops. pose proof (upload_run_ok sha256_hex total ops Ht Hops) as Hd.
  set (d := upload_run sha256_hex total ops) in *.
  pose proof (ranges_chain total d Hd) as Hc. destruct (merge_chain total _ Hc) as [Hm Hcov].
  eexists _, _, _. split; [reflexivity|]. rewrite (missing_is_gaps total _ Hm).
  split_and!; [done|by apply gaps_chain| |].
  - intros x Hx. split; [apply Hcov|]. by rewrite gaps_complement, Hcov.
  - unfold is_u64 in Ht. rewrite (received_total_lengths total) by (done || lia).
    rewrite <- merged_lengths. pose proof (gaps_lengths 0 total _ Hm). lia.
Qed.

Definition example_ops : list upload_op :=
  [OpCrash 0 2 [7]; OpWrite no_faults None 0 [7; 9] "AA"; OpWrite no_faults None 0 [7; 9] " AA "].

Lemma upload_status_partition_witness :
  upload_run (fun _ => "aa"%string) 2 example_ops !! part_name 0 2 = Some [7; 9] /\
  exists received missing bytes,
    upload_status no_faults 0 2 (upload_run (fun _ => "aa"%string) 2 example_ops)
      = Ok (received, missing, bytes) /\
    chain 0 2 received /\ chain 0 2 missing /\
    (forall x, 0 <= x < 2 ->
       (covered received x <-> covered (ranges_of (upload_run (fun _ => "aa"%string) 2 example_ops)) x) /\
       (covered missing x <-> ~ covered (ranges_of (upload_run (fun _ => "aa"%string) 2 example_ops)) x)) /\
    bytes + lengths missing = 2.
Proof.
  split; [vm_compute; reflexivity|].
  refine (upload_status_partition (fun _ => "aa"%string) 2 example_ops _ _).
  - unfold is_u64. lia.
  - repeat constructor; simpl; lia.
Defined.

(** C39. Assembly yields the uploaded file. If every write of a history carries
    the bytes of the file [F] at its offset, then whatever [assemble] returns is
    [F] itself, its size and its digest, in whatever order the parts came; and
    once every byte is covered by a stored part, assembly without I/O errors
    does return it. *)
Theorem assemble_is_the_file (sha256_hex : list Z -> string) (total : Z) (F : list Z)
    (ops : list upload_op) :
  is_u64 total -> 0 < total -> Z.of_nat (length F) = total ->
  Forall upload_op_ok ops -> Forall (writes_of F) ops ->
  (forall io body n h,
     assemble sha256_hex io total (upload_run sha256_hex total ops) = Ok (body, n, h) ->
     body = F /\ n = total /\ h = sha256_hex F) /\
  ((forall x, 0 <= x < total -> covered (ranges_of (upload_run sha256_hex total ops)) x) ->
   assemble sha256_hex no_faults total (upload_run sha256_hex total ops)
     = Ok (F, total, sha256_hex F)).
Proof.
  intros Ht Hpos HF Hops Hw. pose proof (upload_run_ok sha256_hex total ops Ht Hops) as Hd.
  set (d := upload_run sha256_hex total ops) in *.
  pose proof (ranges_chain total d Hd) as Hc. destruct (merge_chain total _ Hc) as [Hm Hcov].
  assert (gaps 0 total (ranges_of d) = [] -> read_parts d (ranges_of d) = Some F) as Hread.
  { intros Hg. rewrite (read_parts_spec d (ranges_of d) F).
    - rewrite (tight_slices F 0 total); [done|lia|done|by apply no_gaps_tight].
    - intros r Hr. apply (ranges_of_elem total) in Hr as (b & Hb & Hok); [|done].
      rewrite Hb. f_equal. by eapply upload_run_content. }
  split.
  - intros io body n h. unfold assemble, upload_status, scan_parts.
    destruct (io 0%nat); [done|]. simpl.
    destruct (decide _) as [|Hmiss]; [done|]. destruct (decide _); [done|].
    destruct (io 1%nat); [done|]. destruct (io 2%nat); [done|].
    rewrite (missing_is_gaps total _ Hm) in Hmiss.
    apply dec_stable, (merged_no_gaps total _ Hc) in Hmiss.
    rewrite Hread by done. by intros [= <- <- <-].
  - intros Hall.
    assert (gaps 0 total (ranges_of d) = []) as Hg.
    { by apply covered_no_gaps. }
    unfold assemble, upload_status, scan_parts. simpl.
    rewrite (tight_merge_all total _ Hpos (no_gaps_tight _ _ _ Hc Hg)).
    rewrite (decide_False (P := missing_ranges _ _ <> [])).
    + rewrite decide_False by (intros []; done). by rewrite Hread.
    + rewrite missing_is_gaps by (simpl; unfold range_end; simpl; lia). simpl.
      unfold range_end. simpl. rewrite Z.ltb_irrefl. naive_solver.
Qed.

Lemma assemble_is_the_file_witness :
  (forall io body n h,
     assemble (fun _ => "aa"%string) io 2 (upload_run (fun _ => "aa"%string) 2 example_ops) = Ok (body, n, h) ->
     body = [7; 9] /\ n = 2 /\ h = "aa"%string) /\
  ((forall x, 0 <= x < 2 -> covered (ranges_of (upload_run (fun _ => "aa"%string) 2 example_ops)) x) ->
   assemble (fun _ => "aa"%string) no_faults 2 (upload_run (fun _ => "aa"%string) 2 example_ops)
     = Ok ([7; 9], 2, "aa"%string)).
Proof.
  refine (assemble_is_the_file (fun _ => "aa"%string) 2 [7; 9] example_ops _ _ _ _ _).
  - unfold is_u64. lia.
  - lia.
  - reflexivity.
  - repeat constructor; simpl; lia.
  - repeat constructor.
Defined.

(** Accepted parts are durable and rewrites idempotent. Once a write has been
    accepted, then after any further history the same request is answered
    [AlreadyPresent] with the directory untouched, and every part stored before
    that write still holds exactly the bytes it held. *)
Theorem accepted_parts_are_durable (sha256_hex : list Z -> string) (total : Z)
    (ops1 ops2 : list upload_op) io wf offset bytes declared out :
  is_u64 total -> Forall upload_op_ok ops1 -> Forall upload_op_ok ops2 -> 0 <= offset ->
  (write_part sha256_hex io wf total (upload_run sha256_hex total ops1) offset bytes declared).1
    = Ok out ->
  let later := upload_run sha256_hex total (ops1 ++ OpWrite io wf offset bytes declared :: ops2) in
  write_part sha256_hex no_faults None total later offset bytes declared = (Ok AlreadyPresent, later) /\
  (forall r b, part_ok total r b ->
     upload_run sha256_hex total ops1 !! part_name (r_offset r) (r_length r) = Some b ->
     later !! part_name (r_offset r) (r_length r) = Some b).
Proof.
  intros Ht Hops1 Hops2 Hoff Hout later.
  pose proof (upload_run_ok sha256_hex total ops1 Ht Hops1) as Hd1.
  set (o := OpWrite io wf offset bytes declared) in *.
  assert (upload_op_ok o) as Ho by done.
  pose proof (apply_upload_ok sha256_hex total _ o Hd1 Ho) as Hd2.
  assert (later = foldl (apply_upload sha256_hex total)
                    (apply_upload sha256_hex total (upload_run sha256_hex total ops1) o) ops2) as Hl.
  { subst later. unfold upload_run. by rewrite foldl_app. }
  destruct (write_accepted sha256_hex io wf total _ offset bytes declared out Hd1 Hoff Hout)
    as (Hreq & b & Hb & Hsha & Hok).
  split.
  - assert (dir_ok total later) as Hdl.
    { apply upload_run_ok; [done|]. apply Forall_app. split; [done|]. by constructor. }
    eapply write_present; try done.
    rewrite Hl. by apply (upload_run_keeps sha256_hex total ops2 _ _ _ Hd2 Hops2 Hok).
  - intros r b' Hr Hb'. rewrite Hl. apply upload_run_keeps; try done.
    by apply apply_upload_keeps.
Qed.

Lemma accepted_parts_are_durable_witness :
  let d := upload_run (fun _ => "aa"%string) 2 ([] ++ OpWrite no_faults None 0 [7; 9] "aa" :: example_ops) in
  write_part (fun _ => "aa"%string) no_faults None 2 d 0 [7; 9] "aa" = (Ok AlreadyPresent, d) /\
  (forall r b, part_ok 2 r b ->
     upload_run (fun _ => "aa"%string) 2 [] !! part_name (r_offset r) (r_length r) = Some b ->
     d !! part_name (r_offset r) (r_length r) = Some b).
Proof.
  refine (accepted_parts_are_durable (fun _ => "aa"%string) 2 [] example_ops no_faults None 0 [7; 9] "aa"
            Written _ _ _ _ _).
  - unfold is_u64. lia.
  - constructor.
  - repeat constructor; simpl; lia.
  - lia.
  - vm_compute. reflexivity.
Defined.

(** ** Geometry of a direct upload *)
Lemma div_ceil_le a b n : 0 <= a -> 0 < b -> a <= n * b -> div_ceil a b <= n.
Proof.
  intros Ha Hb Hn. destruct (div_ceil_spec a b Ha Hb) as [H|[_ H]]; nia.
Qed.

Lemma foldr_add_init (l : list Z) x : foldr Z.add x l = foldr Z.add 0 l + x.
Proof. induction l as [|y l IH]; simpl; lia. Qed.

Lemma sum_expected n ps total m :
  (m < n)%nat ->
  foldr Z.add 0 ((fun i => expected_length (Z.of_nat i) (Z.of_nat n) ps total) <$> seq 1 m)
  = Z.of_nat m * ps.
Proof.
  induction m as [|m IH]; intros Hm; [done|].
  rewrite seq_S, fmap_app, foldr_app. simpl.
  assert (expected_length (Z.of_nat (S m)) (Z.of_nat n) ps total = ps) as ->.
  { unfold expected_length. destruct (Z.eqb_spec (Z.of_nat (S m)) (Z.of_nat n)); [lia|done]. }
  rewrite foldr_add_init, IH by lia. lia.
Qed.

(** The largest file the fixed geometry can express: 10000 parts of 5 GiB. *)
Definition max_direct_size : Z := 10000 * Z.shiftl 5 30.

Lemma geometry_part_size total :
  0 < total <= max_direct_size ->
  let ps := (s3_part_geometry total).1 in
  Z.shiftl 8 20 <= ps <= Z.shiftl 5 30 /\ ps mod Z.shiftl 1 20 = 0 /\ total <= 10000 * ps /\
  (s3_part_geometry total).2 = div_ceil total ps.
Proof.
  intros Ht. unfold max_direct_size in Ht. unfold s3_part_geometry.
  cbn [fst snd]. change (Z.shiftl 5 20) with 5242880. change (Z.shiftl 8 20) with 8388608 in *.
  change (Z.shiftl 5 30) with 5368709120 in *. change (Z.shiftl 1 20) with 1048576.
  set (by_count := div_ceil total 10000).
  assert (0 <= by_count <= 5368709120 /\ total <= 10000 * by_count) as [Hbc Hcov].
  { subst by_count. destruct (div_ceil_spec total 10000) as [H|[H _]]; lia. }
  set (q := div_ceil (Z.max 8388608 by_count) 1048576).
  assert (8 <= q <= 5120 /\ by_count <= q * 1048576) as [Hq Hqb].
  { subst q. destruct (div_ceil_spec (Z.max 8388608 by_count) 1048576) as [H|[H _]]; lia. }
  rewrite Z.mod_small by lia.
  replace (Z.min (Z.max (q * 1048576) 5242880) 5368709120) with (q * 1048576) by lia.
  split_and!; [lia|lia|apply Z.mod_mul; lia|lia|].
  unfold as_u32. apply Z.mod_small.
  destruct (div_ceil_spec total (q * 1048576)) as [H|[H _]]; nia.
Qed.

(** Direct-upload geometry. For every file size the protocol can express (up
    to 10000 parts of 5 GiB), the part size is a whole number of MiB between
    8 MiB and 5 GiB, there are between 1 and 10000 parts, the lengths that
    [check_part_geometry] accepts for the parts add up to the file size, and a
    part is accepted exactly with its own number and length. *)
Theorem s3_geometry_exact (total : Z) :
  0 < total <= max_direct_size ->
  let '(ps, n) := s3_part_geometry total in
  Z.shiftl 8 20 <= ps <= Z.shiftl 5 30 /\ ps mod Z.shiftl 1 20 = 0 /\ 1 <= n <= 10000 /\
  foldr Z.add 0 ((fun i => expected_length (Z.of_nat i) n ps total) <$> seq 1 (Z.to_nat n)) = total /\
  (forall i len, 0 <= i -> check_part_geometry i len n ps total = Ok tt <->
     1 <= i <= n /\ len = expected_length i n ps total /\ 0 < len <= ps).
Proof.
  intros Ht. destruct (geometry_part_size total Ht) as (Hps & Hal & Hcov & Hn).
  destruct (s3_part_geometry total) as [ps n]. simpl in *.
  change (Z.shiftl 8 20) with 8388608 in *. change (Z.shiftl 5 30) with 5368709120 in *.
  assert (1 <= n <= 10000 /\ (n - 1) * ps < total <= n * ps) as [Hn1 Hlast].
  { subst n. pose proof (div_ceil_le total ps 10000).
    destruct (div_ceil_spec total ps) as [H'|[H' _]]; nia. }
  assert (expected_length n n ps total = total - (n - 1) * ps) as Hexp.
  { unfold expected_length. rewrite Z.eqb_refl.
    destruct (decide (total = n * ps)) as [->|Hne].
    - rewrite Z.mod_mul by lia. simpl. lia.
    - assert (total mod ps = total - (n - 1) * ps) as ->.
      { symmetry. apply (Z.mod_unique total ps (n - 1)); lia. }
      destruct (Z.eqb_spec (total - (n - 1) * ps) 0); lia. }
  split_and!; try done; try lia.
  - destruct (Z.to_nat n) as [|m] eqn:Hm; [lia|].
    replace n with (Z.of_nat (S m)) in * by lia.
    rewrite seq_S, fmap_app, foldr_app. simpl foldr at 2. replace (1 + m)%nat with (S m) by lia.
    rewrite Hexp.
    rewrite foldr_add_init, sum_expected by lia. lia.
  - intros i len Hi. unfold check_part_geometry.
    assert (1 <= i <= n -> 0 < expected_length i n ps total <= ps) as Hb.
    { intros Hin. destruct (decide (i = n)) as [->|]; [rewrite Hexp; lia|].
      unfold expected_length. destruct (Z.eqb_spec i n); lia. }
    destruct (Z.eqb_spec i 0), (Z.ltb_spec n i); simpl; [naive_solver lia..|].
    destruct (Z.eqb_spec len (expected_length i n ps total)) as [->|]; simpl; [|naive_solver].
    split; [|done]. intros _. split_and!; try lia; apply Hb; lia.
Qed.

Lemma s3_geometry_exact_witness :
  let '(ps, n) := s3_part_geometry 100000000000 in
  Z.shiftl 8 20 <= ps <= Z.shiftl 5 30 /\ ps mod Z.shiftl 1 20 = 0 /\ 1 <= n <= 10000 /\
  foldr Z.add 0 ((fun i => expected_length (Z.of_nat i) n ps 100000000000) <$> seq 1 (Z.to_nat n))
    = 100000000000 /\
  (forall i len, 0 <= i -> check_part_geometry i len n ps 100000000000 = Ok tt <->
     1 <= i <= n /\ len = expected_length i n ps 100000000000 /\ 0 < len <= ps).
Proof. refine (s3_geometry_exact 100000000000 _). vm_compute. split; congruence. Defined.
