(* ===== verification/ChunkSession.v ===== *)
(** * Resumable upload: session directories on disk

    The session store of src/src/service/chunked_upload.rs: creating a session
    and its token, opening it by token, the completion tombstone, digest
    declarations, discarding, and the expiry sweep. The store is a map from
    upload ids to session directories; a JSON file is absent, corrupt or
    present. [sha256_hex] is a parameter; random ids are arguments. Times are
    Unix seconds. *)

From Stdlib Require Import Ascii.
From stdpp Require Import base numbers gmap list strings.
From S2P Require Import Prelude Chunked.
Local Open Scope Z_scope.

Record S3SessionSetup := mkS3Setup {
  su_part_size : Z; su_total_parts : Z; su_bucket : string; su_final_key : string;
  su_provider_upload_id : string; su_storage_source_id : Z
}.

Record NewSession := mkNewSession {
  ns_uploader_id : Z; ns_plaintext_sha256 : string; ns_plaintext_size : Z; ns_format_version : Z;
  ns_encryption_key_id : Z; ns_chunk_plain_size : Z; ns_total_size : Z; ns_file_type : string;
  ns_business_type : string; ns_filename : string; ns_mime_type : string; ns_reserved_file_id : Z;
  ns_transport : string; ns_s3 : option S3SessionSetup
}.

Record Manifest := mkManifest {
  mf_secret_sha256 : string; mf_uploader_id : Z; mf_total_size : Z; mf_plaintext_sha256 : string;
  mf_plaintext_size : Z; mf_format_version : Z; mf_encryption_key_id : Z; mf_chunk_plain_size : Z;
  mf_file_type : string; mf_business_type : string; mf_filename : string; mf_mime_type : string;
  mf_expires_at : Z; mf_reserved_file_id : Z; mf_transport : string; mf_part_size : option Z;
  mf_total_parts : option Z; mf_bucket : option string; mf_final_key : option string;
  mf_provider_upload_id : option string; mf_storage_source_id : option Z; mf_created_at : Z;
  mf_part_digests : gmap Z string
}.

Definition with_part_digests (m : Manifest) (pd : gmap Z string) : Manifest :=
  mkManifest (mf_secret_sha256 m) (mf_uploader_id m) (mf_total_size m) (mf_plaintext_sha256 m)
    (mf_plaintext_size m) (mf_format_version m) (mf_encryption_key_id m) (mf_chunk_plain_size m)
    (mf_file_type m) (mf_business_type m) (mf_filename m) (mf_mime_type m) (mf_expires_at m)
    (mf_reserved_file_id m) (mf_transport m) (mf_part_size m) (mf_total_parts m) (mf_bucket m)
    (mf_final_key m) (mf_provider_upload_id m) (mf_storage_source_id m) (mf_created_at m) pd.

(** A JSON file on disk. *)
Inductive json_file (A : Type) := JAbsent | JCorrupt (e : string) | JPresent (a : A).
Arguments JAbsent {A}.
Arguments JCorrupt {A} e.
Arguments JPresent {A} a.

Definition read_json {A} (f : json_file A) : result (option A) ServerError :=
  match f with
  | JAbsent => Ok None
  | JCorrupt e => Err (Internal e)
  | JPresent a => Ok (Some a)
  end.

Record SessionDir := mkDir {
  sd_manifest : json_file Manifest;
  sd_parts : option parts_dir;
  sd_assembled : option (list Z);
  sd_completed : json_file Z;
  sd_lock_file : bool;
  sd_locked : bool
}.
Notation store := (gmap string SessionDir).

(** [ChunkedSession]: its directory is the store entry of [upload_id]. *)
Record ChunkedSession := mkSession { cs_upload_id : string; cs_manifest : Manifest }.

Inductive OpenError := Malformed | Gone | BadSecret | SessionExpired | OpenIo (e : ServerError).

Section Store.
Context (sha256_hex : string -> string).

Definition new_manifest (now : Z) (secret : string) (i : NewSession) : Manifest :=
  mkManifest (sha256_hex secret) (ns_uploader_id i) (ns_total_size i)
    (to_ascii_lowercase (ns_plaintext_sha256 i)) (ns_plaintext_size i) (ns_format_version i)
    (ns_encryption_key_id i) (ns_chunk_plain_size i) (ns_file_type i) (ns_business_type i)
    (ns_filename i) (ns_mime_type i) (now + TOKEN_TTL_SECS) (ns_reserved_file_id i) (ns_transport i)
    (su_part_size <$> ns_s3 i) (su_total_parts <$> ns_s3 i) (su_bucket <$> ns_s3 i)
    (su_final_key <$> ns_s3 i) (su_provider_upload_id <$> ns_s3 i)
    (su_storage_source_id <$> ns_s3 i) now ∅.

Definition empty_dir : SessionDir := mkDir JAbsent None None JAbsent false false.
Definition session_token (upload_id secret : string) : string := upload_id +:+ String "."%char secret.

(** The steps in order; a failing one leaves what the earlier ones made. *)
Definition create_with_ids (io : faults) (now : Z) (st : store) (upload_id secret : string)
    (input : NewSession) : result (ChunkedSession * string * Z) ServerError * store :=
  match io 0%nat with Some e => (Err (Internal ("创建目录失败: " +:+ e)), st) | None =>
  if decide (is_Some (st !! upload_id)) then (Err (Internal "创建会话目录失败: AlreadyExists"), st) else
  match io 1%nat with Some e => (Err (Internal ("创建会话目录失败: " +:+ e)), st) | None =>
  match io 2%nat with
  | Some e => (Err (Internal ("创建 parts 目录失败: " +:+ e)), <[upload_id := empty_dir]> st)
  | None =>
  match io 3%nat with
  | Some e => (Err (Internal ("创建会话锁失败: " +:+ e)),
               <[upload_id := mkDir JAbsent (Some ∅) None JAbsent false false]> st)
  | None =>
  let manifest := new_manifest now secret input in
  match io 4%nat with
  | Some e => (Err (Internal e), <[upload_id := mkDir JAbsent (Some ∅) None JAbsent true false]> st)
  | None =>
  let st' := <[upload_id := mkDir (JPresent manifest) (Some ∅) None JAbsent true false]> st in
  match io 5%nat with
  | Some e => (Err (Internal e), st')
  | None => (Ok (mkSession upload_id manifest, session_token upload_id secret, mf_expires_at manifest), st')
  end end end end end end.

Definition open_session (now : Z) (st : store) (raw_token : string) : result ChunkedSession OpenError :=
  let? p := ok_or (parse_token raw_token) Malformed in
  let '(upload_id, secret) := p in
  match st !! upload_id with
  | None => Err Gone
  | Some dir =>
      match read_json (sd_manifest dir) with
      | Err e => Err (OpenIo e)
      | Ok None => Err Gone
      | Ok (Some manifest) =>
          if decide (sha256_hex secret <> mf_secret_sha256 manifest) then Err BadSecret
          else if mf_expires_at manifest <? now then Err SessionExpired
          else Ok (mkSession upload_id manifest)
      end
  end.
End Store.

Definition update_dir (st : store) (s : ChunkedSession) (f : SessionDir -> SessionDir) : store :=
  match st !! cs_upload_id s with Some d => <[cs_upload_id s := f d]> st | None => st end.

Definition completed_file_id (st : store) (s : ChunkedSession) : result (option Z) ServerError :=
  match st !! cs_upload_id s with Some d => read_json (sd_completed d) | None => Ok None end.

Definition write_completed (io : faults) (st : store) (s : ChunkedSession) (file_id : Z)
    : result unit ServerError * store :=
  match io 0%nat with
  | Some e => (Err (Internal e), st)
  | None => (Ok tt, update_dir st s (fun d => mkDir (sd_manifest d) (sd_parts d) (sd_assembled d)
                                        (JPresent file_id) (sd_lock_file d) (sd_locked d)))
  end.

Definition record_part_digests (io : faults) (st : store) (s : ChunkedSession) (decls : list (Z * string))
    : result unit ServerError * ChunkedSession * store :=
  let manifest := with_part_digests (cs_manifest s)
    (foldl (fun m p => <[p.1 := p.2]> m) (mf_part_digests (cs_manifest s)) decls) in
  let s' := mkSession (cs_upload_id s) manifest in
  match io 0%nat with
  | Some e => (Err (Internal e), s', st)
  | None => (Ok tt, s', update_dir st s (fun d => mkDir (JPresent manifest) (sd_parts d) (sd_assembled d)
                                            (sd_completed d) (sd_lock_file d) (sd_locked d)))
  end.

Definition drop_payload (st : store) (s : ChunkedSession) : store :=
  update_dir st s (fun d => mkDir (sd_manifest d) None None (sd_completed d) (sd_lock_file d) (sd_locked d)).

Definition discard (io : faults) (st : store) (s : ChunkedSession) : result unit ServerError * store :=
  match io 0%nat with
  | Some e => (Err (Internal ("删除会话目录失败: " +:+ e)), st)
  | None => (Ok tt, delete (cs_upload_id s) st)
  end.

(** One directory of the sweep: may it go? *)
Definition sweepable (now : Z) (d : SessionDir) : bool :=
  let expired := match read_json (sd_manifest d) with
                 | Ok (Some m) => mf_expires_at m <? now
                 | _ => true
                 end in
  let is_s3 := match read_json (sd_manifest d) with
               | Ok (Some m) => String.eqb (mf_transport m) TRANSPORT_S3_MULTIPART_V1
               | _ => false
               end in
  let held := if sd_lock_file d then negb (sd_locked d) else true in
  expired && negb is_s3 && held.

(** [remove_dir_all] may fail on some directories ([stuck]). *)
Definition sweep_expired (now : Z) (stuck : string -> bool) (st : store) : nat * store :=
  let st' := filter (fun p => (sweepable now p.2 && negb (stuck p.1)) = false) st in
  ((size st - size st')%nat, st').

(** ** The token text *)
Definition token_char (a : ascii) : bool := is_ascii_hexdigit a || Ascii.eqb a "."%char.

Lemma token_char_graphic a r :
  token_char a = true -> trim_is_empty (String a r) = false /\ trim_start (String a r) = String a r.
Proof.
  intros Ha.
  assert (forall lo hi, (hi < 46 \/ 102 < lo)%nat -> byte_in lo hi a = false) as Hout.
  { intros lo hi Hr. unfold token_char, is_ascii_hexdigit, byte_in in *. cbn zeta in *.
    destruct (Ascii.eqb_spec a "."%char) as [->|_];
      [change (nat_of_ascii ".") with 46%nat; apply andb_false_iff; rewrite !Nat.leb_gt; lia|].
    rewrite orb_false_r, !orb_true_iff, !andb_true_iff, !Nat.leb_le in Ha.
    apply andb_false_iff. rewrite !Nat.leb_gt. lia. }
  split; cbn [trim_is_empty trim_start];
    rewrite !Hout by lia; simpl; destruct r as [|b [|c r]]; try done; by rewrite !Hout by lia.
Qed.

Lemma trim_token s : string_all token_char s = true -> trim s = s.
Proof.
  intros Hs. unfold trim.
  assert (trim_start s = s) as ->.
  { destruct s as [|a s]; [done|]. simpl in Hs. apply andb_true_iff in Hs as [Ha _].
    by apply token_char_graphic. }
  induction s as [|a s IH]; [done|]. cbn [string_all] in Hs. apply andb_true_iff in Hs as [Ha Hs].
  assert (trim_end (String a s) =
          if trim_is_empty (String a s) then EmptyString else String a (trim_end s)) as -> by done.
  destruct (token_char_graphic a s Ha) as [-> _]. by rewrite IH.
Qed.

Lemma string_all_app P s t : string_all P (s +:+ t) = string_all P s && string_all P t.
Proof. induction s as [|a s IH]; simpl; [done|]. rewrite IH. by rewrite andb_assoc. Qed.

Lemma parse_session_token id secret :
  hex_of_length UPLOAD_ID_HEX_LEN id = true -> hex_of_length SECRET_HEX_LEN secret = true ->
  parse_token (session_token id secret) = Some (id, secret).
Proof.
  intros Hid Hs. unfold parse_token, session_token.
  assert (string_all is_ascii_hexdigit id = true /\ string_all is_ascii_hexdigit secret = true) as [H1 H2].
  { unfold hex_of_length in *. apply andb_true_iff in Hid as [_ ?], Hs as [_ ?]. done. }
  rewrite trim_token.
  - rewrite split_once_app.
    + simpl. by rewrite Hid, Hs.
    + eapply string_all_impl; [|exact H1]. intros a Ha. apply bool_decide_eq_true.
      intros ->. by vm_compute in Ha.
  - rewrite string_all_app. cbn [string_all].
    assert (forall s, string_all is_ascii_hexdigit s = true -> string_all token_char s = true) as Hw.
    { intros s. apply string_all_impl. intros a Ha. unfold token_char. by rewrite Ha. }
    by rewrite !Hw.
Qed.

(** ** Properties *)

(** A session lives its 24 hours, for its token only. When a session is
    created, its expiry is one day later; until then its token opens exactly
    this session, also after an expiry sweep has run; after that the token is
    refused as expired; and a well-formed token with another secret (one with a
    different digest) is refused. *)
Theorem session_lives_its_day (sha256_hex : string -> string) (io : faults) (now : Z) (st st' : store)
    (upload_id secret : string) (input : NewSession) (s : ChunkedSession) (tok : string) (exp : Z) :
  hex_of_length UPLOAD_ID_HEX_LEN upload_id = true -> hex_of_length SECRET_HEX_LEN secret = true ->
  create_with_ids sha256_hex io now st upload_id secret input = (Ok (s, tok, exp), st') ->
  exp = now + 24 * 3600 /\
  (forall now' stuck, now' <= exp ->
     open_session sha256_hex now' (sweep_expired now' stuck st').2 tok = Ok s) /\
  (forall now', exp < now' -> open_session sha256_hex now' st' tok = Err SessionExpired) /\
  (forall now' other, hex_of_length SECRET_HEX_LEN other = true ->
     sha256_hex other <> sha256_hex secret ->
     open_session sha256_hex now' st' (session_token upload_id other) = Err BadSecret).
Proof.
  intros Hid Hsec. unfold create_with_ids.
  destruct (io 0%nat); [done|]. destruct (decide _); [done|].
  destruct (io 1%nat), (io 2%nat), (io 3%nat), (io 4%nat), (io 5%nat); try done.
  intros [= <- <- <- <-]. simpl. unfold open_session.
  split_and!; [done|..].
  - intros now' stuck Hnow. rewrite parse_session_token by done. simpl.
    assert (sweepable now' (mkDir (JPresent (new_manifest sha256_hex now secret input)) (Some ∅) None
                              JAbsent true false) = false) as Hkeep.
    { unfold sweepable. simpl. destruct (Z.ltb_spec (now + TOKEN_TTL_SECS) now'); [lia|done]. }
    erewrite map_lookup_filter_Some_2; [|apply lookup_insert_eq|simpl; by rewrite Hkeep].
    simpl. rewrite decide_False by naive_solver.
    destruct (Z.ltb_spec (now + TOKEN_TTL_SECS) now'); [lia|done].
  - intros now' Hnow. rewrite parse_session_token by done. simpl.
    rewrite lookup_insert_eq. simpl. rewrite decide_False by naive_solver.
    destruct (Z.ltb_spec (now + TOKEN_TTL_SECS) now'); [done|lia].
  - intros now' other Hother Hne. rewrite parse_session_token by done. simpl.
    rewrite lookup_insert_eq. simpl. by rewrite decide_True.
Qed.

Definition example_id : string := "0123456789abcdef0123456789abcdef".
Definition example_secret : string := example_id +:+ example_id.
Definition example_input : NewSession :=
  mkNewSession 1 "AB" 10 1 1 0 10 "image" "message" "a.png" "image/png" 3 TRANSPORT_PROXY_OFFSET_V1 None.

Lemma session_lives_its_day_witness :
  exists s tok exp st',
    create_with_ids (fun x => x) no_faults 100 ∅ example_id example_secret example_input
      = (Ok (s, tok, exp), st') /\
    exp = 100 + 24 * 3600 /\
    (forall now' stuck, now' <= exp ->
       open_session (fun x => x) now' (sweep_expired now' stuck st').2 tok = Ok s) /\
    (forall now', exp < now' -> open_session (fun x => x) now' st' tok = Err SessionExpired) /\
    (forall now' other, hex_of_length SECRET_HEX_LEN other = true -> other <> example_secret ->
       open_session (fun x => x) now' st' (session_token example_id other) = Err BadSecret).
Proof.
  eexists _, _, _, _. split; [reflexivity|].
  refine (session_lives_its_day (fun x => x) no_faults 100 ∅ _ example_id example_secret example_input
            _ _ _ _ _ _); [reflexivity..|]. reflexivity.
Defined.

(** The sweep removes only dead sessions. A directory survives the sweep if
    its manifest is readable and unexpired, if it belongs to a direct S3 upload,
    or if another process holds its lock; every other directory is removed
    unless the file system refuses; and nothing but whole directories changes. *)
Theorem sweep_removes_only_dead_sessions (now : Z) (stuck : string -> bool) (st : store)
    (k : string) (d : SessionDir) :
  st !! k = Some d ->
  ((sweep_expired now stuck st).2 !! k = Some d <->
     (exists m, sd_manifest d = JPresent m /\
        (now <= mf_expires_at m \/ mf_transport m = TRANSPORT_S3_MULTIPART_V1)) \/
     (sd_lock_file d = true /\ sd_locked d = true) \/ stuck k = true) /\
  (forall d', (sweep_expired now stuck st).2 !! k = Some d' -> d' = d).
Proof.
  intros Hk. unfold sweep_expired. cbn [snd]. split.
  - rewrite map_lookup_filter_Some. simpl.
    assert ((sweepable now d && negb (stuck k)) = false <->
            (exists m, sd_manifest d = JPresent m /\
               (now <= mf_expires_at m \/ mf_transport m = TRANSPORT_S3_MULTIPART_V1)) \/
            (sd_lock_file d = true /\ sd_locked d = true) \/ stuck k = true) as Hiff; [|naive_solver].
    unfold sweepable. destruct (sd_manifest d) as [|e|m]; simpl.
    + destruct (sd_lock_file d), (sd_locked d), (stuck k); simpl; naive_solver.
    + destruct (sd_lock_file d), (sd_locked d), (stuck k); simpl; naive_solver.
    + destruct (Z.ltb_spec (mf_expires_at m) now), (String.eqb_spec (mf_transport m) TRANSPORT_S3_MULTIPART_V1),
        (sd_lock_file d), (sd_locked d), (stuck k); simpl; naive_solver lia.
  - intros d' [Hd' _]%map_lookup_filter_Some. congruence.
Qed.

Lemma sweep_removes_only_dead_sessions_witness :
  let d := mkDir JAbsent None None JAbsent true true in
  ((sweep_expired 5 (fun _ => false) {[ "x"%string := d ]}).2 !! "x"%string = Some d <->
     (exists m, sd_manifest d = JPresent m /\
        (5 <= mf_expires_at m \/ mf_transport m = TRANSPORT_S3_MULTIPART_V1)) \/
     (sd_lock_file d = true /\ sd_locked d = true) \/ false = true) /\
  (forall d', (sweep_expired 5 (fun _ => false) {[ "x"%string := d ]}).2 !! "x"%string = Some d' -> d' = d).
Proof.
  refine (sweep_removes_only_dead_sessions 5 (fun _ => false) _ "x" _ _). reflexivity.
Defined.
