(* ===== verification/Call.v ===== *)
(** * Calls

    Models src/src/service/call_service.rs: the stored call document and its
    state machine ([finish], [expire], [invite], [mutate] with its six routes,
    [get] and the body of the loop of [sweep]), the per-device command log that
    makes requests idempotent, membership and contact policy, and the outbox of
    effects.

    An operation is one database transaction: it returns its response and the
    database after it. [tx_fails] stands for any statement of the transaction
    failing, which rolls everything back. JSON documents are the typed values
    they encode. The peer (TURN) configuration, the room token and the request
    fingerprint are parameters; the new call id and the clock are arguments. *)

From stdpp Require Import base numbers gmap list strings sorting.
From S2P Require Import Prelude SendAuth.
Import ReadDetail.
Local Open Scope Z_scope.

Definition rpc_unavailable (m : string) : RpcError := mkRpcError "ServiceUnavailable" m.
Definition storage_unavailable : RpcError := rpc_unavailable "Call storage unavailable".

Inductive CallMediaKind := Audio | Video.
Inductive CallTransport := Webrtc | Livekit.
Inductive CallState := Ringing | Active | Ended.
Inductive CallParticipantState := Invited | Joined | Left | Rejected.
Inductive CallEndReason := ReasonTimeout | ReasonRejected | ReasonCancelled | ReasonNormal.

#[export] Instance call_transport_eq_dec : EqDecision CallTransport.
Proof. solve_decision. Defined.
#[export] Instance call_state_eq_dec : EqDecision CallState.
Proof. solve_decision. Defined.
#[export] Instance participant_state_eq_dec : EqDecision CallParticipantState.
Proof. solve_decision. Defined.
#[export] Instance call_media_kind_eq_dec : EqDecision CallMediaKind.
Proof. solve_decision. Defined.

Record CallParticipant := mkPart { p_user : Z; p_state : CallParticipantState }.

Record CallSnapshot := mkSnap {
  c_transport : CallTransport;
  c_id : Z;
  c_channel : Z;
  c_initiator : Z;
  c_media : CallMediaKind;
  c_state : CallState;
  c_end_reason : option CallEndReason;
  c_version : Z;
  c_created_at : Z;
  c_answered_at : option Z;
  c_ended_at : option Z;
  c_expires_at : Z;
  c_participants : list CallParticipant
}.

Record DeviceClaim := mkClaim { dc_device : string; dc_lease_until : Z }.

Record StoredCall := mkStoredCall {
  peer_revision : Z;
  peer_answered : bool;
  peer_seq : Z;
  s_call : CallSnapshot;
  s_channel_type : Z;
  s_claims : gmap Z DeviceClaim
}.

Record CallConfig := mkCallConfig {
  cfg_enabled : bool;
  cfg_peer_enabled : bool;
  cfg_allow_turn : bool;
  cfg_livekit_url : string;
  cfg_audio_limit : Z;
  cfg_video_limit : Z;
  cfg_ringing_timeout_seconds : Z;
  cfg_heartbeat_lease_seconds : Z;
  cfg_token_ttl_seconds : Z
}.

(** Field updates of the stored document. *)
Definition upd_call (s : StoredCall) (c : CallSnapshot) : StoredCall :=
  mkStoredCall (peer_revision s) (peer_answered s) (peer_seq s) c (s_channel_type s) (s_claims s).
Definition upd_claims (s : StoredCall) (cl : gmap Z DeviceClaim) : StoredCall :=
  mkStoredCall (peer_revision s) (peer_answered s) (peer_seq s) (s_call s) (s_channel_type s) cl.
Definition upd_participants (c : CallSnapshot) (ps : list CallParticipant) : CallSnapshot :=
  mkSnap (c_transport c) (c_id c) (c_channel c) (c_initiator c) (c_media c) (c_state c) (c_end_reason c)
    (c_version c) (c_created_at c) (c_answered_at c) (c_ended_at c) (c_expires_at c) ps.
Definition upd_version (c : CallSnapshot) (v : Z) : CallSnapshot :=
  mkSnap (c_transport c) (c_id c) (c_channel c) (c_initiator c) (c_media c) (c_state c) (c_end_reason c)
    v (c_created_at c) (c_answered_at c) (c_ended_at c) (c_expires_at c) (c_participants c).
Definition upd_answered (c : CallSnapshot) (now : Z) : CallSnapshot :=
  mkSnap (c_transport c) (c_id c) (c_channel c) (c_initiator c) (c_media c) Active (c_end_reason c)
    (c_version c) (c_created_at c) (Some now) (c_ended_at c) (c_expires_at c) (c_participants c).

(** ** Tables *)
Record ChannelRow := mkChan {
  ch_type : Z; ch_user1 : option Z; ch_user2 : option Z; ch_group : option Z
}.
(** A joined row of group member and group. *)
Record GroupMemberRow := mkGm {
  gm_user : Z; gm_role : option Z; gm_mute_until : option Z; gm_can_send : option bool;
  gm_all_muted : bool; gm_allow_member_post : bool
}.
(** What a transaction reads besides the call tables. *)
Record World := mkWorld {
  w_channels : gmap Z ChannelRow;
  w_group_members : option Z -> list GroupMemberRow;
  w_blacklist : gset (Z * Z)
}.

Inductive CallReply :=
| ReplyCall (c : CallSnapshot)
| ReplyJoin (c : CallSnapshot) (url token : string) (expires_at_ms : Z) (peer : option string).

Record CallDb := mkCallDb {
  d_calls : gmap Z StoredCall;
  d_commands : gmap (Z * string * string) (string * CallReply);
  d_peer_commands : gmap (Z * string * string) Z;
  d_effects : list (Z * Z * string * string)
}.

Definition call_members (now : Z) (w : World) (channel : Z)
    : result (Z * gmap Z (Z * bool)) RpcError :=
  let? row := ok_or (w_channels w !! as_i64 channel) (rpc_not_found "Channel unavailable") in
  if ch_type row =? 0 then
    Ok (ch_type row,
        foldl (fun m o => match o with Some i => <[as_u64 i := (2, false)]> m | None => m end) ∅
          [ch_user1 row; ch_user2 row])
  else if ch_type row =? 1 then
    Ok (ch_type row,
        foldl (fun m r =>
          let role := default 2 (gm_role r) in
          let mute := match gm_mute_until r with Some u => (u =? 0) || (now <? u) | None => false end in
          let policy := (1 <? role) && (gm_all_muted r || negb (gm_allow_member_post r)) in
          <[as_u64 (gm_user r) :=
              (role, mute || policy || match gm_can_send r with Some false => true | _ => false end)]> m)
          ∅ (w_group_members w (ch_group row)))
  else Err (rpc_validation "Calls require a direct or group channel").

Definition not_blocked (w : World) (a b : Z) : result unit RpcError :=
  if decide ((as_i64 a, as_i64 b) ∈ w_blacklist w \/ (as_i64 b, as_i64 a) ∈ w_blacklist w)
  then Err (rpc_forbidden "Call blocked by contact policy") else Ok tt.

Fixpoint none_blocked (w : World) (a : Z) (users : list Z) : result unit RpcError :=
  match users with
  | [] => Ok tt
  | u :: us => let? _ := not_blocked w a u in none_blocked w a us
  end.

Definition load_call (db : CallDb) (i : Z) : result StoredCall RpcError :=
  ok_or (d_calls db !! as_i64 i) (rpc_not_found "Call unavailable").

(** [INSERT ... ON CONFLICT DO NOTHING] into the effect outbox. *)
Definition effect (db : CallDb) (c : CallSnapshot) (kind payload : string) : CallDb :=
  let e := (c_id c, c_version c, kind, payload) in
  if decide (e ∈ d_effects db) then db
  else mkCallDb (d_calls db) (d_commands db) (d_peer_commands db) (d_effects db ++ [e]).

(** [clear_peer]: the peer-signalling rows of a call go; of the three tables only
    the command ids are read by this service. *)
Definition clear_peer (db : CallDb) (call : Z) : CallDb :=
  mkCallDb (d_calls db) (d_commands db) (filter (fun p => p.2 <> as_i64 call) (d_peer_commands db))
    (d_effects db).

Definition save (db : CallDb) (s : StoredCall) (notify : bool) : CallDb :=
  let db := mkCallDb (<[as_i64 (c_id (s_call s)) := s]> (d_calls db)) (d_commands db)
              (d_peer_commands db) (d_effects db) in
  let db := if notify then effect db (s_call s) "state" "{}" else db in
  if decide (c_state (s_call s) = Ended) then
    let db := effect db (s_call s) "history" "{}" in
    if decide (c_transport (s_call s) = Livekit) then effect db (s_call s) "delete_room" "{}"
    else clear_peer db (c_id (s_call s))
  else db.

(** ** The call state machine *)
Definition leave_joined (p : CallParticipant) : CallParticipant :=
  if decide (p_state p = Joined) then mkPart (p_user p) Left else p.

Definition finish (now : Z) (s : StoredCall) (reason : CallEndReason) : StoredCall :=
  let c := s_call s in
  upd_call s
    (mkSnap (c_transport c) (c_id c) (c_channel c) (c_initiator c) (c_media c) Ended (Some reason)
       (c_version c) (c_created_at c) (c_answered_at c) (Some now) (c_expires_at c)
       (leave_joined <$> c_participants c)).

(** Has this participant's lease or membership lapsed? *)
Definition lapsed (now : Z) (members : gmap Z (Z * bool)) (claims : gmap Z DeviceClaim)
    (p : CallParticipant) : bool :=
  negb (bool_decide (is_Some (members !! p_user p)))
  || (bool_decide (p_state p = Joined)
      && match claims !! p_user p with Some c => dc_lease_until c <=? now | None => true end).

Definition engaged (p : CallParticipant) : bool :=
  match p_state p with Invited | Joined => true | _ => false end.

Definition expire_participant (now : Z) members claims (p : CallParticipant) : CallParticipant :=
  if lapsed now members claims p && engaged p then mkPart (p_user p) Left else p.

Definition count_joined (ps : list CallParticipant) : nat :=
  length (filter (fun p => p_state p = Joined) ps).

(** A ringing call past its deadline, or an active call too few are left in. *)
Definition timed_out (now : Z) (s : StoredCall) (joined : nat) : bool :=
  (bool_decide (c_state (s_call s) = Ringing) && (c_expires_at (s_call s) <=? now))
  || (bool_decide (c_state (s_call s) = Active)
      && (Nat.eqb joined 0 || ((s_channel_type s =? 0) && Nat.ltb joined 2))).

(** The document after [expire], and whether it changed. *)
Definition expire_stored (now : Z) (members : gmap Z (Z * bool)) (s : StoredCall) : bool * StoredCall :=
  if decide (c_state (s_call s) = Ended) then (false, s)
  else
    let c := s_call s in
    let ps := expire_participant now members (s_claims s) <$> c_participants c in
    let changed := existsb (fun p => lapsed now members (s_claims s) p && engaged p) (c_participants c) in
    let s1 := upd_call s (upd_participants c ps) in
    let over := timed_out now s (count_joined ps) in
    let s2 := if over then finish now s1 ReasonTimeout else s1 in
    if changed || over
    then (true, upd_call s2 (upd_version (s_call s2) (u64_add (c_version (s_call s2)) 1)))
    else (false, s2).

Section Service.
Context (cfg : CallConfig) (identity : Z -> Z -> string -> string)
  (peer_config : Z -> CallSnapshot -> Z -> result string RpcError)
  (join_token : Z -> CallSnapshot -> Z -> string -> Z -> result string RpcError).

(** [remove_participant] effects of [expire]. *)
Definition expire_effects (db : CallDb) (s : StoredCall) : CallDb :=
  foldl (fun db p =>
    if decide (p_state p = Left /\ c_transport (s_call s) = Livekit) then
      match s_claims s !! p_user p with
      | Some c => effect db (s_call s) "remove_participant"
                    (identity (c_id (s_call s)) (p_user p) (dc_device c))
      | None => db
      end
    else db) db (c_participants (s_call s)).

Definition expire (now : Z) (w : World) (db : CallDb) (s : StoredCall)
    : result (StoredCall * CallDb) RpcError :=
  if decide (c_state (s_call s) = Ended) then Ok (s, db)
  else
    let? tm := call_members now w (c_channel (s_call s)) in
    let '(changed, s') := expire_stored now tm.2 s in
    if (changed : bool) then Ok (s', save (expire_effects db s') s' true) else Ok (s', db).

(** Requests. *)
Record CallInviteRequest := mkInvite {
  iq_command_id : string; iq_channel : Z; iq_media : CallMediaKind; iq_invitees : list Z;
  iq_supports_peer : bool
}.
Record CallMutationRequest := mkMutation {
  mq_command_id : string; mq_call : Z; mq_supports_peer : bool
}.

Context (invite_fingerprint : CallInviteRequest -> string)
  (mutation_fingerprint : string -> CallMutationRequest -> string).

(** [command]: validates the ids, and looks the command up in the log. *)
Definition command (db : CallDb) (actor : Z) (device cid fingerprint : string)
    : result (option CallReply) RpcError :=
  if Nat.eqb (String.length device) 0 || Nat.ltb 256 (String.length device) || trim_is_empty cid
     || Nat.ltb 128 (String.length cid)
  then Err (rpc_validation "A nonempty device and command_id (max 128 bytes) are required")
  else
    let k := (as_i64 actor, device, cid) in
    if decide (is_Some (d_peer_commands db !! k))
    then Err (rpc_validation "command_id already used by peer signalling")
    else
      match d_commands db !! k with
      | Some (f, response) =>
          if decide (f <> fingerprint)
          then Err (rpc_validation "command_id reused with a different request")
          else Ok (Some response)
      | None => Ok None
      end.

Definition record_command (db : CallDb) (actor : Z) (device cid fingerprint : string) (r : CallReply)
    : CallDb :=
  mkCallDb (d_calls db) (<[(as_i64 actor, device, cid) := (fingerprint, r)]> (d_commands db))
    (d_peer_commands db) (d_effects db).

Definition participant_engaged (user : Z) (s : StoredCall) : bool :=
  existsb (fun p => (p_user p =? user) && engaged p) (c_participants (s_call s)).

(** The busy query: some live call, other than [except], has the user joined or
    invited. *)
Definition busy_in (db : CallDb) (except : option Z) (user : Z) : bool :=
  existsb (fun '(k, s) =>
    negb (bool_decide (except = Some k)) && negb (bool_decide (c_state (s_call s) = Ended))
    && participant_engaged user s) (map_to_list (d_calls db)).

Definition limit_of (kind : CallMediaKind) : Z :=
  match kind with Audio => cfg_audio_limit cfg | Video => cfg_video_limit cfg end.

Definition new_call (now id actor : Z) (device : string) (req : CallInviteRequest) (kind : Z)
    (transport : CallTransport) (all : list Z) : StoredCall :=
  mkStoredCall 0 false 0
    (mkSnap transport id (iq_channel req) actor (iq_media req) Ringing None 1 now None None
       (now + cfg_ringing_timeout_seconds cfg * 1000)
       ((fun u => mkPart u (if u =? actor then Joined else Invited)) <$> all))
    kind {[ actor := mkClaim device (now + cfg_heartbeat_lease_seconds cfg * 1000) ]}.

Definition calls_enabled : result unit RpcError :=
  if negb (cfg_enabled cfg) then Err (rpc_unavailable "Calls disabled") else Ok tt.

(** The targets of an invitation: the named users or all members, less the
    caller; a [BTreeSet], so sorted and without duplicates. *)
Definition invite_targets (actor : Z) (req : CallInviteRequest) (members : gmap Z (Z * bool)) : list Z :=
  let chosen := match iq_invitees req with [] => (map_to_list members).*1 | l => l end in
  merge_sort Z.le (filter (fun u => u <> actor) (remove_dups chosen)).

Fixpoint check_targets (w : World) (actor : Z) (members : gmap Z (Z * bool)) (targets : list Z)
    : result unit RpcError :=
  match targets with
  | [] => Ok tt
  | t :: ts =>
      if decide (is_Some (members !! t)) then
        let? _ := not_blocked w actor t in check_targets w actor members ts
      else Err (rpc_forbidden "Invitee is not a channel member")
  end.

Definition invite (now : Z) (w : World) (tx_fails : bool) (db : CallDb) (actor : Z) (device : string)
    (req : CallInviteRequest) (id : Z) : result CallReply RpcError * CallDb :=
  let out :=
    let? _ := calls_enabled in
    if tx_fails then Err storage_unavailable else
    let? replay := command db actor device (iq_command_id req) (invite_fingerprint req) in
    let? km := call_members now w (iq_channel req) in
    let '(kind, members) := km in
    let? rm := ok_or (members !! actor) (rpc_forbidden "Not a channel member") in
    let '(_, muted) := rm in
    if (muted : bool) then Err (rpc_forbidden "Member cannot initiate calls") else
    match replay with
    | Some value => Ok (value, db)
    | None =>
        if (kind =? 0) && negb (cfg_peer_enabled cfg)
        then Err (rpc_unavailable "Direct peer calls unavailable; peer transport must be enabled") else
        let transport := if kind =? 0 then Webrtc else Livekit in
        if bool_decide (transport = Webrtc) && negb (iq_supports_peer req)
        then Err (rpc_validation "This direct call requires a peer-capable client") else
        if bool_decide (transport = Livekit) && bool_decide (cfg_livekit_url cfg = EmptyString)
        then Err (rpc_validation "LiveKit is unavailable for this call") else
        let targets := invite_targets actor req members in
        if bool_decide (targets = []) || (limit_of (iq_media req) <? Z.of_nat (length targets) + 1)
        then Err (rpc_validation "Invitee count exceeds call limit or is empty") else
        let? _ := check_targets w actor members targets in
        let all := merge_sort Z.le (actor :: targets) in
        if existsb (busy_in db None) all then Err (rpc_validation "User is busy in another call") else
        let stored := new_call now id actor device req kind transport all in
        let response := ReplyCall (s_call stored) in
        let db := save db stored true in
        Ok (response, record_command db actor device (iq_command_id req) (invite_fingerprint req) response)
    end in
  match out with Ok (r, db') => (Ok r, db') | Err e => (Err e, db) end.

(** [stored.call.participants[position].state = st]. *)
Definition set_participant (s : StoredCall) (position : nat) (user : Z) (st : CallParticipantState)
    : StoredCall :=
  upd_call s (upd_participants (s_call s)
                (<[position := mkPart user st]> (c_participants (s_call s)))).

Definition any_in (st : CallParticipantState) (s : StoredCall) : bool :=
  existsb (fun p => bool_decide (p_state p = st)) (c_participants (s_call s)).

(** The other participants whose state is in the list. *)
Definition others_in (sts : list CallParticipantState) (actor : Z) (s : StoredCall) : list Z :=
  p_user <$> filter (fun p => p_user p <> actor /\ p_state p ∈ sts) (c_participants (s_call s)).

Definition route_join (now : Z) (w : World) (db : CallDb) (s : StoredCall) (position : nat)
    (pstate : CallParticipantState) (actor : Z) (device : string) (muted : bool)
    : result StoredCall RpcError :=
  if muted then Err (rpc_forbidden "Member cannot join calls")
  else if match s_claims s !! actor with Some c => bool_decide (dc_device c <> device) | None => false end
  then Err (rpc_forbidden "Call accepted on another device")
  else if match pstate with Left | Rejected => true | _ => false end
  then Err (rpc_forbidden "Participant already left or rejected")
  else if busy_in db (Some (as_i64 (c_id (s_call s)))) actor
  then Err (rpc_validation "User is busy in another call")
  else
    let? _ := none_blocked w actor (others_in [Joined; Invited] actor s) in
    let s1 := set_participant s position actor Joined in
    let s2 := upd_claims s1 (<[actor := mkClaim device (now + cfg_heartbeat_lease_seconds cfg * 1000)]>
                               (s_claims s1)) in
    if negb (actor =? c_initiator (s_call s)) && bool_decide (c_state (s_call s) = Ringing)
    then Ok (upd_call s2 (upd_answered (s_call s2) now)) else Ok s2.

Definition route_leave (now : Z) (db : CallDb) (s : StoredCall) (position : nat)
    (pstate : CallParticipantState) (actor : Z) (device : string) (role : Z) (owns is_end : bool)
    : result (StoredCall * CallDb) RpcError :=
  if negb owns || bool_decide (pstate <> Joined)
  then Err (rpc_forbidden "Only the accepting device may leave or end")
  else if is_end && (s_channel_type s =? 1) && negb (actor =? c_initiator (s_call s)) && (1 <? role)
  then Err (rpc_forbidden "Only initiator or group administrator may end")
  else
    let s1 := set_participant s position actor Left in
    if is_end || (s_channel_type s =? 0) || negb (any_in Joined s1)
    then Ok (finish now s1 ReasonNormal, db)
    else Ok (s1, effect db (s_call s1) "remove_participant" (identity (c_id (s_call s1)) actor device)).

(** The [match route]: the document, whether to notify, and the outbox. *)
Definition apply_route (now : Z) (w : World) (db : CallDb) (s : StoredCall) (position : nat)
    (pstate : CallParticipantState) (actor : Z) (device route : string) (role : Z) (muted : bool)
    : result (StoredCall * bool * CallDb) RpcError :=
  let owns := match s_claims s !! actor with Some c => bool_decide (dc_device c = device) | None => false end in
  if decide (route = "join") then
    let? s' := route_join now w db s position pstate actor device muted in Ok (s', true, db)
  else if decide (route = "heartbeat") then
    if negb owns || bool_decide (pstate <> Joined)
    then Err (rpc_forbidden "Only the accepting device can heartbeat")
    else Ok (upd_claims s (<[actor := mkClaim device (now + cfg_heartbeat_lease_seconds cfg * 1000)]>
                             (s_claims s)), false, db)
  else if decide (route = "reject") then
    if (actor =? c_initiator (s_call s)) || bool_decide (pstate <> Invited)
    then Err (rpc_validation "Only an unanswered invite can be rejected")
    else
      let s1 := set_participant s position actor Rejected in
      if (s_channel_type s =? 0)
         || (negb (any_in Invited s1) && bool_decide (c_state (s_call s) = Ringing))
      then Ok (finish now s1 ReasonRejected, true, db) else Ok (s1, true, db)
  else if decide (route = "cancel") then
    if negb (actor =? c_initiator (s_call s)) || negb owns || bool_decide (c_state (s_call s) <> Ringing)
    then Err (rpc_forbidden "Only the initiating device can cancel ringing")
    else Ok (finish now s ReasonCancelled, true, db)
  else if decide (route = "leave" \/ route = "end") then
    let? out := route_leave now db s position pstate actor device role owns (bool_decide (route = "end")) in
    let '(s', db') := out in Ok (s', true, db')
  else Err (rpc_validation "Unknown call operation").

(** The response to a fresh command. *)
Definition mutation_reply (now : Z) (s : StoredCall) (actor : Z) (device route : string)
    : result CallReply RpcError :=
  if decide (route = "join") then
    let expires := now + cfg_token_ttl_seconds cfg * 1000 in
    if decide (c_transport (s_call s) = Webrtc) then
      let? peer := peer_config now (s_call s) actor in
      Ok (ReplyJoin (s_call s) EmptyString EmptyString 0 (Some peer))
    else
      let? token := join_token now (s_call s) actor device expires in
      Ok (ReplyJoin (s_call s) (cfg_livekit_url cfg) token expires None)
  else Ok (ReplyCall (s_call s)).

(** The response to a replayed command: a recorded join is re-authorized. *)
Definition replay_reply (now : Z) (w : World) (s : StoredCall) (pstate : CallParticipantState)
    (actor : Z) (device route : string) (muted : bool) (response : CallReply)
    : result CallReply RpcError :=
  if decide (route = "join") then
    if bool_decide (c_state (s_call s) = Ended)
       || (bool_decide (c_state (s_call s) = Ringing) && (c_expires_at (s_call s) <=? now))
       || muted
       || match s_claims s !! actor with
          | Some c => bool_decide (dc_device c <> device) || (dc_lease_until c <=? now)
          | None => true
          end
       || bool_decide (pstate <> Joined)
    then Err (rpc_forbidden "Call credential no longer authorized")
    else
      let? _ := none_blocked w actor (others_in [Joined] actor s) in
      if bool_decide (c_transport (s_call s) = Webrtc) && negb (cfg_allow_turn cfg) then
        let? peer := peer_config now (s_call s) actor in
        Ok match response with
           | ReplyJoin c u t e _ => ReplyJoin c u t e (Some peer)
           | ReplyCall c => ReplyCall c
           end
      else Ok response
  else Ok response.

Definition mutate (now : Z) (w : World) (tx_fails : bool) (db : CallDb) (route : string) (actor : Z)
    (device : string) (req : CallMutationRequest) : result CallReply RpcError * CallDb :=
  let fingerprint := mutation_fingerprint route req in
  let out :=
    let? _ := calls_enabled in
    if tx_fails then Err storage_unavailable else
    let? replay := command db actor device (mq_command_id req) fingerprint in
    let? stored := load_call db (mq_call req) in
    let? km := call_members now w (c_channel (s_call stored)) in
    let? rm := ok_or (km.2 !! actor) (rpc_forbidden "Not a channel member") in
    let '(role, muted) := rm in
    let? pp := ok_or (list_find (fun p => p_user p = actor) (c_participants (s_call stored)))
                 (rpc_forbidden "Not invited to call") in
    let '(position, participant) := pp in
    if bool_decide (route = "join") && bool_decide (c_transport (s_call stored) = Webrtc)
       && negb (mq_supports_peer req)
    then Err (rpc_validation "This direct call requires a peer-capable client") else
    match replay with
    | Some response =>
        let? r := replay_reply now w stored (p_state participant) actor device route muted response in
        Ok (Ok r, db)
    | None =>
        let? sd := expire now w db stored in
        let '(s, db1) := sd in
        if decide (c_state (s_call s) = Ended)
        then Ok (Err (rpc_validation "Call has ended; reconcile using call/get"), db1)
        else
          let pstate := match c_participants (s_call s) !! position with
                        | Some p => p_state p | None => p_state participant end in
          let? routed := apply_route now w db1 s position pstate actor device route role muted in
          let '(s1, notify, db2) := routed in
          let s2 := if (notify : bool)
                    then upd_call s1 (upd_version (s_call s1) (u64_add (c_version (s_call s1)) 1)) else s1 in
          let? response := mutation_reply now s2 actor device route in
          let db3 := save db2 s2 notify in
          Ok (Ok response, record_command db3 actor device (mq_command_id req) fingerprint response)
    end in
  match out with Ok (r, db') => (r, db') | Err e => (Err e, db) end.

Definition get_call (now : Z) (w : World) (tx_fails : bool) (db : CallDb) (actor id : Z)
    : result CallSnapshot RpcError * CallDb :=
  let out :=
    let? _ := calls_enabled in
    if tx_fails then Err storage_unavailable else
    let? stored := load_call db id in
    let? km := call_members now w (c_channel (s_call stored)) in
    if negb (bool_decide (is_Some (km.2 !! actor)))
       || negb (existsb (fun p => p_user p =? actor) (c_participants (s_call stored)))
    then Err (rpc_forbidden "Call unavailable to this user") else
    let? sd := expire now w db stored in
    Ok (s_call sd.1, sd.2) in
  match out with Ok (c, db') => (Ok c, db') | Err e => (Err e, db) end.

(** One step of [sweep] for one call id. *)
Definition sweep_one (now : Z) (w : World) (tx_fails : bool) (db : CallDb) (id : Z)
    : result unit RpcError * CallDb :=
  let out :=
    if tx_fails then Err storage_unavailable else
    let? stored := load_call db id in
    let? sd := expire now w db stored in
    Ok sd.2 in
  match out with Ok db' => (Ok tt, db') | Err e => (Err e, db) end.
End Service.
