(* ===== verification/CallFacts.v ===== *)
(** * Calls: invariants and properties

    The invariant of a stored call, how every operation of [Call] lets a call
    evolve, and the properties of reachable databases: call documents are
    consistent, an ended call never changes, nobody is in two live calls, and a
    repeated command is answered from the log. *)

From stdpp Require Import base numbers gmap list strings sorting.
From S2P Require Import Prelude SendAuth Call.
Import ReadDetail.
Local Open Scope Z_scope.

(** ** The invariant of one document *)
Record call_ok (s : StoredCall) : Prop := {
  ok_users : NoDup (p_user <$> c_participants (s_call s));
  ok_initiator : c_initiator (s_call s) ∈ p_user <$> c_participants (s_call s);
  ok_reason : c_state (s_call s) = Ended <-> is_Some (c_end_reason (s_call s));
  ok_ended_at : c_state (s_call s) = Ended <-> is_Some (c_ended_at (s_call s));
  ok_no_joined : c_state (s_call s) = Ended ->
    Forall (fun p => p_state p <> Joined) (c_participants (s_call s));
  ok_answered : c_state (s_call s) = Active -> is_Some (c_answered_at (s_call s));
  ok_claims : Forall (fun p => p_state p = Joined -> is_Some (s_claims s !! p_user p))
                (c_participants (s_call s))
}.

Lemma engaged_spec u s :
  participant_engaged u s = true <->
  exists p, p ∈ c_participants (s_call s) /\ p_user p = u /\ engaged p = true.
Proof.
  unfold participant_engaged. rewrite existsb_exists. setoid_rewrite list_elem_of_In.
  setoid_rewrite andb_true_iff. by setoid_rewrite Z.eqb_eq.
Qed.

Definition state_rank (st : CallState) : nat :=
  match st with Ringing => 0 | Active => 1 | Ended => 2 end.

(** How a live call may change: same identity, later or equal state, consistent
    if it was, and newly engaged users only among the [free] ones. *)
Record evolves (free : Z -> Prop) (s s' : StoredCall) : Prop := {
  ev_id : c_id (s_call s') = c_id (s_call s);
  ev_initiator : c_initiator (s_call s') = c_initiator (s_call s);
  ev_users : p_user <$> c_participants (s_call s') = p_user <$> c_participants (s_call s);
  ev_state : (state_rank (c_state (s_call s)) <= state_rank (c_state (s_call s')))%nat;
  ev_ok : call_ok s -> call_ok s';
  ev_engaged : forall u, participant_engaged u s' = true -> participant_engaged u s = true \/ free u
}.

Lemma evolves_refl free s : evolves free s s.
Proof. split; auto. Qed.

Lemma evolves_trans free s1 s2 s3 : evolves free s1 s2 -> evolves free s2 s3 -> evolves free s1 s3.
Proof.
  intros [i1 n1 u1 r1 o1 e1] [i2 n2 u2 r2 o2 e2]. split; try congruence; try lia; auto.
  intros u H. destruct (e2 u H); auto.
Qed.

(** Setting one's own participant entry. *)
Lemma set_participant_users s pos u st p :
  c_participants (s_call s) !! pos = Some p -> p_user p = u ->
  p_user <$> c_participants (s_call (set_participant s pos u st)) = p_user <$> c_participants (s_call s).
Proof.
  intros Hp Hu. unfold set_participant. simpl. rewrite list_fmap_insert. simpl.
  apply list_insert_id. by rewrite list_lookup_fmap, Hp, <- Hu.
Qed.

Lemma Forall_insert {A} (P : A -> Prop) l i x : Forall P l -> P x -> Forall P (<[i := x]> l).
Proof. intros Hl Hx. apply Forall_lookup. intros j y Hj.
  apply list_lookup_insert_Some in Hj as [(_ & <- & _)|[_ Hj]]; [done|].
  by eapply Forall_lookup in Hj.
Qed.

Lemma elem_of_insert {A} (l : list A) i x y : y ∈ <[i := x]> l -> y = x \/ y ∈ l.
Proof.
  intros Hy. apply list_elem_of_lookup in Hy as [j Hj].
  apply list_lookup_insert_Some in Hj as [(_ & <- & _)|[_ Hj]]; [by left|right].
  by eapply list_elem_of_lookup_2.
Qed.

(** A lone change of participant state that does not make anyone joined. *)
Lemma set_participant_evolves free s pos u st p :
  c_participants (s_call s) !! pos = Some p -> p_user p = u -> st = Left \/ st = Rejected ->
  evolves free s (set_participant s pos u st).
Proof.
  intros Hp Hu Hst. pose proof (set_participant_users s pos u st p Hp Hu) as Hus.
  split; try done; [|].
  - intros [A B C D E F G]. split; try done; [by rewrite Hus|by rewrite Hus| |].
    + intros Hend. apply Forall_insert; [by apply E|]. simpl. by destruct Hst; subst.
    + apply Forall_insert; [done|]. simpl. by destruct Hst; subst.
  - intros v Hv. apply engaged_spec in Hv as (q & Hq & Hqu & He). simpl in Hq.
    left. apply engaged_spec. apply elem_of_insert in Hq as [->|Hq]; [|eauto].
    unfold engaged in He. simpl in He. by destruct Hst; subst.
Qed.

Lemma leave_joined_user p : p_user (leave_joined p) = p_user p.
Proof. unfold leave_joined. by case_decide. Qed.

Lemma finish_evolves free now s r : evolves free s (finish now s r).
Proof.
  assert (p_user <$> (leave_joined <$> c_participants (s_call s)) = p_user <$> c_participants (s_call s)) as Hus.
  { rewrite <- list_fmap_compose. apply list_fmap_ext. intros i p _. simpl. apply leave_joined_user. }
  split; try done; [by destruct (c_state (s_call s)); simpl; lia| |].
  - intros [A B C D E F G]. split; simpl; try done; try (by rewrite Hus); try (split; eauto; done).
    + intros _. apply Forall_fmap, Forall_forall. intros p _. simpl. unfold leave_joined.
      by case_decide.
    + apply Forall_fmap, Forall_forall. intros p _. simpl. unfold leave_joined. by case_decide.
  - intros u Hu. left. apply engaged_spec in Hu as (q & Hq & Hqu & He). simpl in Hq.
    apply list_elem_of_fmap in Hq as (p & -> & Hp). apply engaged_spec. exists p.
    rewrite leave_joined_user in Hqu. split_and!; try done.
    unfold leave_joined, engaged in *. case_decide; [done|done].
Qed.

Lemma version_evolves free s v : evolves free s (upd_call s (upd_version (s_call s) v)).
Proof. split; simpl; auto. intros []. by split. Qed.

(** Participants only leaving, in a live call. *)
Lemma participants_leave_evolves free s f :
  c_state (s_call s) <> Ended ->
  (forall p, f p = p \/ f p = mkPart (p_user p) Left) ->
  evolves free s (upd_call s (upd_participants (s_call s) (f <$> c_participants (s_call s)))).
Proof.
  intros Hlive Hf.
  assert (forall p, p_user (f p) = p_user p) as Hfu by (intros p; destruct (Hf p) as [->| ->]; done).
  assert (p_user <$> (f <$> c_participants (s_call s)) = p_user <$> c_participants (s_call s)) as Hus.
  { rewrite <- list_fmap_compose. apply list_fmap_ext. intros i p _. apply Hfu. }
  split; try done; [|].
  - intros [A B C D E F G]. split; simpl; try done; try (by rewrite Hus).
    apply Forall_fmap. eapply Forall_impl; [exact G|]. intros p Hp. simpl. rewrite Hfu.
    destruct (Hf p) as [->| ->]; done.
  - intros u Hu. left. apply engaged_spec in Hu as (q & Hq & Hqu & He). simpl in Hq.
    apply list_elem_of_fmap in Hq as (p & -> & Hp). apply engaged_spec. exists p.
    rewrite Hfu in Hqu. split_and!; try done. by destruct (Hf p) as [E|E]; rewrite E in He.
Qed.

Lemma expire_stored_evolves free now members s : evolves free s (expire_stored now members s).2.
Proof.
  unfold expire_stored. case_decide as Hend; [apply evolves_refl|].
  set (s1 := upd_call s _).
  assert (evolves free s s1) as H1.
  { apply participants_leave_evolves; [done|]. intros p. unfold expire_participant.
    destruct (_ && _); auto. }
  set (over := timed_out _ _ _). set (s2 := if over then finish now s1 ReasonTimeout else s1).
  assert (evolves free s s2) as H2.
  { subst s2. destruct over; [|done]. eapply evolves_trans; [done|apply finish_evolves]. }
  destruct (_ || over); simpl; [|done]. eapply evolves_trans; [done|]. apply version_evolves.
Qed.

(** Joining engages the actor, and nobody else. *)
Lemma join_evolves (free : Z -> Prop) s pos p actor claim :
  c_participants (s_call s) !! pos = Some p -> p_user p = actor -> free actor ->
  c_state (s_call s) <> Ended ->
  evolves free s (upd_claims (set_participant s pos actor Joined)
                    (<[actor := claim]> (s_claims (set_participant s pos actor Joined)))).
Proof.
  intros Hp Hu Hfree Hlive. pose proof (set_participant_users s pos actor Joined p Hp Hu) as Hus.
  split; try done; [|].
  - intros [A B C D E F G]. split; simpl in *; try done; [by rewrite Hus|by rewrite Hus|].
    apply Forall_insert; [|intros _; rewrite lookup_insert_eq; eauto].
    eapply Forall_impl; [exact G|]. intros q Hq Hj. destruct (decide (p_user q = actor)) as [->|].
    + rewrite lookup_insert_eq. eauto.
    + rewrite lookup_insert_ne by done. auto.
  - intros v Hv. apply engaged_spec in Hv as (q & Hq & Hqu & He). simpl in Hq.
    apply elem_of_insert in Hq as [->|Hq].
    + right. simpl in Hqu. by subst v.
    + left. apply engaged_spec. eauto.
Qed.

Lemma answered_evolves free s now :
  c_state (s_call s) = Ringing -> evolves free s (upd_call s (upd_answered (s_call s) now)).
Proof.
  intros Hr. split; simpl; try done; [rewrite Hr; simpl; lia| |auto].
  intros [A B C D E F G]. rewrite Hr in *. split; simpl; try done; [..|eauto].
  - rewrite <- C. naive_solver.
  - rewrite <- D. naive_solver.
Qed.

Lemma heartbeat_evolves free s actor claim :
  evolves free s (upd_claims s (<[actor := claim]> (s_claims s))).
Proof.
  split; simpl; try done; [|auto]. intros [A B C D E F G]. split; simpl; try done.
  eapply Forall_impl; [exact G|]. intros q Hq Hj. destruct (decide (p_user q = actor)) as [->|].
  - rewrite lookup_insert_eq. eauto.
  - rewrite lookup_insert_ne by done. auto.
Qed.

(** ** Effects on the tables *)
Lemma effect_calls db c k p : d_calls (effect db c k p) = d_calls db.
Proof. unfold effect. by case_decide. Qed.
Lemma effect_commands db c k p : d_commands (effect db c k p) = d_commands db.
Proof. unfold effect. by case_decide. Qed.
Lemma effect_grows db c k p : d_effects db ⊆ d_effects (effect db c k p).
Proof. unfold effect. case_decide; simpl; set_solver. Qed.
Lemma effect_elem db c k p : (c_id c, c_version c, k, p) ∈ d_effects (effect db c k p).
Proof. unfold effect. case_decide; simpl; [done|set_solver]. Qed.

Lemma save_calls db s n : d_calls (save db s n) = <[as_i64 (c_id (s_call s)) := s]> (d_calls db).
Proof.
  unfold save. repeat case_decide; destruct n; simpl; rewrite ?effect_calls; done.
Qed.
Lemma save_commands db s n : d_commands (save db s n) = d_commands db.
Proof. unfold save. repeat case_decide; destruct n; simpl; rewrite ?effect_commands; done. Qed.

Lemma save_effects db s n :
  d_effects db ⊆ d_effects (save db s n) /\
  (c_state (s_call s) = Ended ->
     (c_id (s_call s), c_version (s_call s), "history"%string, "{}"%string) ∈ d_effects (save db s n)).
Proof.
  unfold save. set (db0 := mkCallDb _ _ _ _).
  assert (d_effects db ⊆ d_effects (if n then effect db0 (s_call s) "state" "{}" else db0)) as H0.
  { destruct n; [|simpl; set_solver]. etrans; [|apply effect_grows]. simpl. set_solver. }
  set (db1 := if n then _ else _) in *.
  pose proof (effect_grows db1 (s_call s) "history" "{}") as H1.
  pose proof (effect_elem db1 (s_call s) "history" "{}") as H1'.
  set (db2 := effect db1 _ "history" _) in *.
  pose proof (effect_grows db2 (s_call s) "delete_room" "{}") as H2.
  repeat case_decide; simpl; split; try done; set_solver.
Qed.

Lemma busy_spec db except u :
  busy_in db except u = true <->
  exists k s, d_calls db !! k = Some s /\ except <> Some k /\ c_state (s_call s) <> Ended /\
    participant_engaged u s = true.
Proof.
  unfold busy_in. rewrite existsb_exists. split.
  - intros ([k s] & Hin & H). apply list_elem_of_In, elem_of_map_to_list in Hin.
    rewrite !andb_true_iff, !negb_true_iff, !bool_decide_eq_false in H.
    exists k, s. tauto.
  - intros (k & s & Hk & He & Hl & Hp). exists (k, s). split.
    + by apply list_elem_of_In, elem_of_map_to_list.
    + rewrite !andb_true_iff, !negb_true_iff, !bool_decide_eq_false. tauto.
Qed.

Lemma busy_except db db' k s u :
  d_calls db' = <[k := s]> (d_calls db) -> busy_in db' (Some k) u = busy_in db (Some k) u.
Proof.
  intros Hc. apply eq_bool_prop_intro. rewrite !Is_true_true, !busy_spec, Hc.
  split; intros (k' & s' & Hk & He & Hr); exists k', s'; (split; [|done]).
  - rewrite lookup_insert_ne in Hk; [done|congruence].
  - rewrite lookup_insert_ne; [done|congruence].
Qed.

Lemma no_lapse_same now members claims ps :
  existsb (fun p => lapsed now members claims p && engaged p) ps = false ->
  expire_participant now members claims <$> ps = ps.
Proof.
  induction ps as [|p ps IH]; [done|]. simpl existsb. intros [Hp Hps]%orb_false_iff.
  rewrite fmap_cons, IH by done. unfold expire_participant. by rewrite Hp.
Qed.

(** ** What an operation does to the call table *)
Definition free_for (db : CallDb) (k u : Z) : Prop := busy_in db (Some k) u = false.

(** Nothing happens to the calls, or one live call evolves; the command log is as
    given; effects only accumulate, and an ended call has its history effect. *)
Inductive db_change (db db' : CallDb) : Prop :=
| DC_same : d_calls db' = d_calls db -> d_effects db ⊆ d_effects db' -> db_change db db'
| DC_evolve k s s' :
    d_calls db !! k = Some s -> c_state (s_call s) <> Ended ->
    d_calls db' = <[k := s']> (d_calls db) -> d_effects db ⊆ d_effects db' ->
    evolves (free_for db k) s s' ->
    (c_state (s_call s') = Ended ->
       (c_id (s_call s'), c_version (s_call s'), "history"%string, "{}"%string) ∈ d_effects db') ->
    db_change db db'.

Definition keyed (db : CallDb) : Prop :=
  forall k s, d_calls db !! k = Some s -> k = as_i64 (c_id (s_call s)).

Section Facts.
Context (cfg : CallConfig) (identity : Z -> Z -> string -> string).

Lemma expire_effects_calls db s : d_calls (expire_effects identity db s) = d_calls db.
Proof.
  unfold expire_effects. generalize (c_participants (s_call s)). intros l. revert db.
  induction l as [|p l IH]; intros db; cbn [foldl]; [done|]. rewrite IH.
  destruct (decide _); [|done]. case_match; [apply effect_calls|done].
Qed.
Lemma expire_effects_commands db s : d_commands (expire_effects identity db s) = d_commands db.
Proof.
  unfold expire_effects. generalize (c_participants (s_call s)). intros l. revert db.
  induction l as [|p l IH]; intros db; cbn [foldl]; [done|]. rewrite IH.
  destruct (decide _); [|done]. case_match; [apply effect_commands|done].
Qed.
Lemma expire_effects_grows db s : d_effects db ⊆ d_effects (expire_effects identity db s).
Proof.
  unfold expire_effects. generalize (c_participants (s_call s)). intros l. revert db.
  induction l as [|p l IH]; intros db; cbn [foldl]; [set_solver|]. etrans; [|apply IH].
  destruct (decide _); [|set_solver]. case_match; [apply effect_grows|set_solver].
Qed.

(** [expire] on a loaded call. *)
Lemma expire_change now w db k s s' db' :
  keyed db -> d_calls db !! k = Some s -> expire identity now w db s = Ok (s', db') ->
  d_commands db' = d_commands db /\
  (s' = s /\ db' = db \/
   c_state (s_call s) <> Ended /\ d_calls db' = <[k := s']> (d_calls db) /\
   d_effects db ⊆ d_effects db' /\ evolves (free_for db k) s s' /\
   (c_state (s_call s') = Ended ->
      (c_id (s_call s'), c_version (s_call s'), "history"%string, "{}"%string) ∈ d_effects db')).
Proof.
  intros Hk Hs. unfold expire. case_decide as Hend; [intros [= <- <-]; auto|].
  destruct (call_members _ _ _) as [tm|]; [|done].
  pose proof (expire_stored_evolves (free_for db k) now tm.2 s) as Hev.
  destruct (expire_stored now tm.2 s) as [changed s1] eqn:He. simpl in Hev.
  destruct changed; intros [= <- <-].
  - split; [by rewrite save_commands, expire_effects_commands|]. right.
    destruct (save_effects (expire_effects identity db s1) s1 true) as [Hg Hh].
    split_and!; try done.
    + by rewrite save_calls, expire_effects_calls, (ev_id _ _ _ Hev), <- (Hk k s Hs).
    + etrans; [apply expire_effects_grows|exact Hg].
  - split; [done|]. left. split; [|done]. revert He. unfold expire_stored.
    rewrite decide_False by done. cbn zeta.
    destruct (existsb _ _) eqn:Hex; [by intros [=]|]. simpl.
    destruct (timed_out _ _ _); [by intros [=]|]. intros [= <-].
    rewrite (no_lapse_same _ _ _ _ Hex). by destruct s as [a b c0 [] d e].
Qed.

Lemma route_join_evolves (free : Z -> Prop) now w db s pos p pstate actor device muted s1 :
  route_join cfg now w db s pos pstate actor device muted = Ok s1 ->
  c_participants (s_call s) !! pos = Some p -> p_user p = actor -> c_state (s_call s) <> Ended ->
  (busy_in db (Some (as_i64 (c_id (s_call s)))) actor = false -> free actor) ->
  evolves free s s1.
Proof.
  unfold route_join. intros H Hp Hu Hlive Hfree.
  destruct muted; [done|]. destruct (match s_claims s !! actor with Some _ => _ | None => _ end); [done|].
  destruct (match pstate with Left | Rejected => true | _ => false end); [done|].
  destruct (busy_in _ _ _) eqn:Hbusy; [done|].
  destruct (none_blocked _ _ _); [|done].
  set (claim := mkClaim _ _) in H.
  pose proof (join_evolves free s pos p actor claim Hp Hu (Hfree eq_refl) Hlive) as Hj.
  destruct (negb _ && bool_decide _) eqn:Ha; injection H as <-; [|exact Hj].
  apply andb_true_iff in Ha as [_ Hr]. apply bool_decide_eq_true in Hr.
  eapply evolves_trans; [exact Hj|]. by apply answered_evolves.
Qed.

Lemma route_leave_evolves (free : Z -> Prop) now db s pos p pstate actor device role owns is_end s1 db2 :
  route_leave identity now db s pos pstate actor device role owns is_end = Ok (s1, db2) ->
  c_participants (s_call s) !! pos = Some p -> p_user p = actor ->
  evolves free s s1 /\ d_calls db2 = d_calls db /\ d_commands db2 = d_commands db /\
  d_effects db ⊆ d_effects db2.
Proof.
  unfold route_leave. intros H Hp Hu.
  destruct (negb owns || _); [done|]. destruct (is_end && _ && _ && _); [done|].
  assert (evolves free s (set_participant s pos actor Left)) as Hl
    by (eapply set_participant_evolves; eauto).
  destruct (is_end || _ || _); injection H as <- <-.
  - split_and!; try done. eapply evolves_trans; [done|apply finish_evolves].
  - split_and!; [done|apply effect_calls|apply effect_commands|apply effect_grows].
Qed.

Lemma apply_route_evolves (free : Z -> Prop) now w db s pos p pstate actor device route role muted s1 n db2 :
  apply_route cfg identity now w db s pos pstate actor device route role muted = Ok (s1, n, db2) ->
  c_participants (s_call s) !! pos = Some p -> p_user p = actor -> c_state (s_call s) <> Ended ->
  (busy_in db (Some (as_i64 (c_id (s_call s)))) actor = false -> free actor) ->
  evolves free s s1 /\ d_calls db2 = d_calls db /\ d_commands db2 = d_commands db /\
  d_effects db ⊆ d_effects db2.
Proof.
  unfold apply_route. intros H Hp Hu Hlive Hfree.
  assert (d_effects db ⊆ d_effects db) as Hrefl by set_solver.
  destruct (decide (route = "join")).
  { destruct (route_join _ _ _ _ _ _ _ _ _) as [s'|] eqn:Hj; [|done]. injection H as <- <- <-.
    split_and!; try done. by eapply route_join_evolves. }
  destruct (decide (route = "heartbeat")).
  { destruct (_ || _); [done|]. injection H as <- <- <-. split_and!; try done. apply heartbeat_evolves. }
  destruct (decide (route = "reject")).
  { destruct (_ || bool_decide (pstate <> Invited)); [done|].
    assert (evolves free s (set_participant s pos actor Rejected)) as Hl
      by (eapply set_participant_evolves; eauto).
    destruct (_ || _); injection H as <- <- <-; split_and!; try done.
    eapply evolves_trans; [done|apply finish_evolves]. }
  destruct (decide (route = "cancel")).
  { destruct (_ || _); [done|]. injection H as <- <- <-. split_and!; try done. apply finish_evolves. }
  destruct (decide (route = "leave" \/ route = "end")); [|done].
  destruct (route_leave _ _ _ _ _ _ _ _ _ _) as [[s' db']|] eqn:Hr; [|done]. injection H as <- <- <-.
  by eapply route_leave_evolves.
Qed.
End Facts.

Section Ops.
Context (cfg : CallConfig) (identity : Z -> Z -> string -> string)
  (peer_config : Z -> CallSnapshot -> Z -> result string RpcError)
  (join_token : Z -> CallSnapshot -> Z -> string -> Z -> result string RpcError)
  (invite_fingerprint : CallInviteRequest -> string)
  (mutation_fingerprint : string -> CallMutationRequest -> string).

(** The command log: only the given key may be written, with the given
    fingerprint, and only if it was empty. *)
Definition log_change (db db' : CallDb) (k : Z * string * string) (f : string) : Prop :=
  d_commands db' = d_commands db \/
  (d_commands db !! k = None /\ exists r, d_commands db' = <[k := (f, r)]> (d_commands db)).

Lemma command_fresh db actor device cid f :
  command db actor device cid f = Ok None -> d_commands db !! (as_i64 actor, device, cid) = None.
Proof.
  unfold command. destruct (_ || _); [done|]. case_decide; [done|].
  destruct (d_commands db !! _) as [[f' r]|]; [|done]. by case_decide.
Qed.

Lemma db_change_refl db : db_change db db.
Proof. apply DC_same; [done|set_solver]. Qed.

Lemma participant_after_expire free s s' pos p :
  evolves free s s' -> c_participants (s_call s) !! pos = Some p ->
  exists p', c_participants (s_call s') !! pos = Some p' /\ p_user p' = p_user p.
Proof.
  intros Hev Hp. pose proof (f_equal (fun l : list Z => l !! pos) (ev_users _ _ _ Hev)) as Hu.
  cbn beta in Hu. rewrite !list_lookup_fmap, Hp in Hu.
  destruct (c_participants (s_call s') !! pos) as [p'|]; simplify_eq/=. eauto.
Qed.

(** The part of [mutate] after the expiry of a live call. *)
Lemma fresh_route_change now w db k s0 db1 s pos p pstate actor device route role muted s1 n db2 cid f r :
  keyed db -> d_calls db !! k = Some s0 -> c_state (s_call s0) <> Ended ->
  (d_calls db1 = d_calls db /\ s = s0 \/ d_calls db1 = <[k := s]> (d_calls db)) ->
  d_commands db1 = d_commands db -> d_effects db ⊆ d_effects db1 ->
  evolves (free_for db k) s0 s -> c_state (s_call s) <> Ended ->
  c_participants (s_call s) !! pos = Some p -> p_user p = actor ->
  apply_route cfg identity now w db1 s pos pstate actor device route role muted = Ok (s1, n, db2) ->
  let s2 := if n then upd_call s1 (upd_version (s_call s1) (u64_add (c_version (s_call s1)) 1)) else s1 in
  let db' := record_command (save db2 s2 n) actor device cid f r in
  db_change db db' /\ d_commands db' = <[(as_i64 actor, device, cid) := (f, r)]> (d_commands db).
Proof.
  intros Hkey Hk Hlive0 Hc1 Hcmd1 Heff1 Hev1 Hlive Hp Hu Hr s2 db'.
  assert (k = as_i64 (c_id (s_call s0))) as Hkid by by apply Hkey.
  assert (forall u, busy_in db1 (Some k) u = busy_in db (Some k) u) as Hbusy.
  { intros u. destruct Hc1 as [[Hc1 _]|Hc1]; [|by eapply busy_except].
    unfold busy_in. by rewrite Hc1. }
  assert (as_i64 (c_id (s_call s)) = k) as Hks by by rewrite (ev_id _ _ _ Hev1).
  destruct (apply_route_evolves cfg identity (free_for db k) _ _ _ _ _ _ _ _ _ _ _ _ _ _ _ Hr Hp Hu Hlive)
    as (Hev2 & Hcalls2 & Hcmd2 & Heff2).
  { rewrite Hks, Hbusy. done. }
  assert (evolves (free_for db k) s0 s2) as Hev.
  { subst s2. destruct n; [|by eapply evolves_trans].
    eapply evolves_trans; [eapply evolves_trans; done|apply version_evolves]. }
  destruct (save_effects db2 s2 n) as [Hg Hh].
  split; [|subst db'; simpl; by rewrite save_commands, Hcmd2, Hcmd1].
  apply (DC_evolve _ _ k s0 s2); try done.
  - subst db'. simpl. rewrite save_calls, (ev_id _ _ _ Hev), <- Hkid, Hcalls2.
    destruct Hc1 as [[Hc1 _]|Hc1]; rewrite Hc1; [done|by rewrite insert_insert_eq].
  - subst db'. simpl. set_solver.
Qed.

Lemma mutate_change now w txf db route actor device req :
  keyed db ->
  let db' := (mutate cfg identity peer_config join_token mutation_fingerprint
                now w txf db route actor device req).2 in
  db_change db db' /\
  log_change db db' (as_i64 actor, device, mq_command_id req) (mutation_fingerprint route req).
Proof.
  intros Hkey. cbn zeta. unfold mutate.
  assert (db_change db db /\ log_change db db (as_i64 actor, device, mq_command_id req)
            (mutation_fingerprint route req)) as Hsame
    by (split; [apply db_change_refl|by left]).
  destruct (calls_enabled cfg); [|done]. destruct txf; [done|].
  destruct (command _ _ _ _ _) as [replay|] eqn:Hcmd; [|done].
  unfold load_call. destruct (d_calls db !! as_i64 (mq_call req)) as [s0|] eqn:Hk; [|done]. cbn [ok_or].
  destruct (call_members _ _ _) as [km|]; [|done].
  destruct (km.2 !! actor) as [[role muted]|]; [|done]. cbn [ok_or].
  destruct (list_find _ _) as [[pos p]|] eqn:Hfind; [|done]. cbn [ok_or].
  apply list_find_Some in Hfind as (Hp & Hu & _).
  destruct (_ && _ && _); [done|].
  destruct replay as [response|].
  { destruct (replay_reply _ _ _ _ _ _ _ _ _ _ _); done. }
  destruct (expire identity now w db s0) as [[s db1]|] eqn:Hexp; [|done].
  destruct (expire_change identity _ _ _ _ _ _ _ Hkey Hk Hexp) as [Hcmd1 Hcase].
  case_decide as Hend.
  { simpl. destruct Hcase as [[-> ->]|(Hl & Hc & He & Hev & Hh)]; [done|].
    split; [by eapply (DC_evolve _ _ _ s0 s)|by left]. }
  set (pstate := match c_participants (s_call s) !! pos with Some q => _ | None => _ end).
  destruct (apply_route _ _ _ _ _ _ _ _ _ _ _ _ _) as [[[s1 n] db2]|] eqn:Hroute; [|done].
  destruct (mutation_reply _ _ _ _ _ _ _ _) as [response|]; [|done]. cbn [snd].
  assert (c_state (s_call s0) <> Ended /\ evolves (free_for db (as_i64 (mq_call req))) s0 s /\
          d_effects db ⊆ d_effects db1 /\
          (d_calls db1 = d_calls db /\ s = s0 \/ d_calls db1 = <[as_i64 (mq_call req) := s]> (d_calls db)))
    as (Hl & Hev & He & Hc).
  { destruct Hcase as [[-> ->]|(Hl & Hc & He & Hev & _)]; [|auto].
    split_and!; [done|apply evolves_refl|set_solver|auto]. }
  destruct (participant_after_expire _ _ _ _ _ Hev Hp) as (p' & Hp' & Hu').
  rewrite Hu in Hu'.
  destruct (fresh_route_change _ _ _ _ _ _ _ _ _ _ _ _ _ _ _ _ _ _ (mq_command_id req)
              (mutation_fingerprint route req) response Hkey Hk Hl Hc Hcmd1 He Hev Hend Hp' Hu' Hroute)
    as [Hchg Hlog].
  split; [exact Hchg|]. right. split; [by eapply command_fresh|]. by exists response.
Qed.

Lemma get_change now w txf db actor id :
  keyed db -> let db' := (get_call cfg identity now w txf db actor id).2 in
  db_change db db' /\ d_commands db' = d_commands db.
Proof.
  intros Hkey. cbn zeta. unfold get_call.
  assert (db_change db db /\ d_commands db = d_commands db) as Hsame by (split; [apply db_change_refl|done]).
  destruct (calls_enabled cfg); [|done]. destruct txf; [done|].
  unfold load_call. destruct (d_calls db !! as_i64 id) as [s0|] eqn:Hk; [|done]. cbn [ok_or].
  destruct (call_members _ _ _) as [km|]; [|done]. destruct (_ || _); [done|].
  destruct (expire identity now w db s0) as [[s db1]|] eqn:Hexp; [|done]. simpl.
  destruct (expire_change identity _ _ _ _ _ _ _ Hkey Hk Hexp) as [Hcmd1 Hcase].
  destruct Hcase as [[-> ->]|(Hl & Hc & He & Hev & Hh)]; [done|].
  split; [by eapply (DC_evolve _ _ _ s0 s)|done].
Qed.

Lemma sweep_change now w txf db id :
  keyed db -> let db' := (sweep_one identity now w txf db id).2 in
  db_change db db' /\ d_commands db' = d_commands db.
Proof.
  intros Hkey. cbn zeta. unfold sweep_one.
  assert (db_change db db /\ d_commands db = d_commands db) as Hsame by (split; [apply db_change_refl|done]).
  destruct txf; [done|].
  unfold load_call. destruct (d_calls db !! as_i64 id) as [s0|] eqn:Hk; [|done]. cbn [ok_or].
  destruct (expire identity now w db s0) as [[s db1]|] eqn:Hexp; [|done]. simpl.
  destruct (expire_change identity _ _ _ _ _ _ _ Hkey Hk Hexp) as [Hcmd1 Hcase].
  destruct Hcase as [[-> ->]|(Hl & Hc & He & Hev & Hh)]; [done|].
  split; [by eapply (DC_evolve _ _ _ s0 s)|done].
Qed.

(** ** Inviting *)
Lemma invite_targets_ok actor req members :
  NoDup (merge_sort Z.le (actor :: invite_targets actor req members)).
Proof.
  rewrite merge_sort_Permutation. constructor.
  - unfold invite_targets. rewrite merge_sort_Permutation, list_elem_of_filter. naive_solver.
  - unfold invite_targets. rewrite merge_sort_Permutation. apply NoDup_filter, NoDup_remove_dups.
Qed.

Lemma new_call_ok now id actor device req kind tr all :
  NoDup all -> actor ∈ all -> call_ok (new_call cfg now id actor device req kind tr all).
Proof.
  intros Hnd Hin. unfold new_call.
  assert (forall l : list Z, p_user <$> ((fun u => mkPart u (if u =? actor then Joined else Invited)) <$> l) = l) as Hus.
  { intros l. rewrite <- list_fmap_compose. apply list_fmap_id. }
  split; simpl; try done; try (by rewrite Hus); try (split; [done|intros [? [=]]]).
  apply Forall_fmap, Forall_forall. intros u _. simpl.
  destruct (Z.eqb_spec u actor) as [->|]; [|done]. intros _. rewrite lookup_singleton_eq. eauto.
Qed.

(** An invitation adds one consistent ringing call of users who are in none. *)
Lemma invite_change now w txf db actor device req id :
  let db' := (invite cfg invite_fingerprint now w txf db actor device req id).2 in
  log_change db db' (as_i64 actor, device, iq_command_id req) (invite_fingerprint req) /\
  (db' = db \/
   exists s, c_id (s_call s) = id /\ call_ok s /\ c_state (s_call s) = Ringing /\
     d_calls db' = <[as_i64 id := s]> (d_calls db) /\ d_effects db ⊆ d_effects db' /\
     (forall u, participant_engaged u s = true -> busy_in db None u = false)).
Proof.
  cbn zeta. unfold invite.
  assert (log_change db db (as_i64 actor, device, iq_command_id req) (invite_fingerprint req)) as Hl0
    by by left.
  destruct (calls_enabled cfg); [|auto]. destruct txf; [auto|].
  destruct (command _ _ _ _ _) as [replay|] eqn:Hcmd; [|auto].
  destruct (call_members _ _ _) as [[kind members]|]; [|auto].
  destruct (members !! actor) as [[role muted]|]; [|auto]. cbn [ok_or].
  destruct muted; [auto|]. destruct replay as [v|]; [auto|].
  destruct (_ && _); [auto|]. destruct (_ && _); [auto|]. destruct (_ && _); [auto|].
  destruct (_ || _); [auto|]. destruct (check_targets _ _ _ _); [|auto].
  destruct (existsb _ _) eqn:Hbusy; [auto|].
  set (all := merge_sort Z.le _) in *.
  set (s := new_call _ _ _ _ _ _ _ _ all). cbn [snd].
  split; [right; split; [by eapply command_fresh|eexists; simpl; by rewrite save_commands]|].
  right. exists s. split_and!; try done.
  - apply new_call_ok; [apply invite_targets_ok|].
    subst all. rewrite merge_sort_Permutation. set_solver.
  - simpl. by rewrite save_calls.
  - simpl. apply save_effects.
  - intros u Hu. apply engaged_spec in Hu as (p & Hp & <- & _). subst s. simpl in Hp.
    apply list_elem_of_fmap in Hp as (v & -> & Hv). simpl.
    destruct (busy_in db None v) eqn:E; [|done].
    assert (existsb (busy_in db None) all = true); [|congruence].
    apply existsb_exists. exists v. split; [by apply list_elem_of_In|done].
Qed.

(** ** Reachable databases

    The signalling between peers saves call documents too; it leaves the participants as
    they are and is not a step here. *)
Inductive call_step : CallDb -> CallDb -> Prop :=
| step_invite db now w txf actor device req id :
    (** the generated call id is new *)
    d_calls db !! as_i64 id = None ->
    call_step db (invite cfg invite_fingerprint now w txf db actor device req id).2
| step_mutate db now w txf route actor device req :
    call_step db (mutate cfg identity peer_config join_token mutation_fingerprint
                    now w txf db route actor device req).2
| step_get db now w txf actor id :
    call_step db (get_call cfg identity now w txf db actor id).2
| step_sweep db now w txf id :
    call_step db (sweep_one identity now w txf db id).2.

Definition empty_calls : CallDb := mkCallDb ∅ ∅ ∅ [].

Record calls_ok (db : CallDb) : Prop := {
  co_keyed : keyed db;
  co_each : forall k s, d_calls db !! k = Some s -> call_ok s;
  co_single : forall u k1 k2 s1 s2,
    d_calls db !! k1 = Some s1 -> d_calls db !! k2 = Some s2 ->
    c_state (s_call s1) <> Ended -> c_state (s_call s2) <> Ended ->
    participant_engaged u s1 = true -> participant_engaged u s2 = true -> k1 = k2;
  co_history : forall k s, d_calls db !! k = Some s -> c_state (s_call s) = Ended ->
    (c_id (s_call s), c_version (s_call s), "history"%string, "{}"%string) ∈ d_effects db
}.

(** One call replaced or added, by one whose engaged users are busy nowhere else. *)
Lemma calls_ok_insert db db' k s' :
  calls_ok db -> d_calls db' = <[k := s']> (d_calls db) -> d_effects db ⊆ d_effects db' ->
  k = as_i64 (c_id (s_call s')) -> call_ok s' ->
  (c_state (s_call s') = Ended ->
     (c_id (s_call s'), c_version (s_call s'), "history"%string, "{}"%string) ∈ d_effects db') ->
  (forall u, participant_engaged u s' = true -> busy_in db (Some k) u = false) ->
  calls_ok db'.
Proof.
  intros [Hkey Heach Hsingle Hhist] Hc He Hk Hok Hend Hfree.
  assert (forall u k2 s2, d_calls db !! k2 = Some s2 -> k <> k2 -> c_state (s_call s2) <> Ended ->
            participant_engaged u s' = true -> participant_engaged u s2 = true -> False) as Hno.
  { intros u k2 s2 Hs2 Hne Hl H1 H2. specialize (Hfree u H1).
    assert (busy_in db (Some k) u = true); [|congruence]. rewrite busy_spec. exists k2, s2.
    split; [done|]. split; [congruence|]. by split. }
  split.
  - intros k1 s1. rewrite Hc. intros [[<- <-]|[_ H]]%lookup_insert_Some; [done|by apply Hkey].
  - intros k1 s1. rewrite Hc. intros [[<- <-]|[_ H]]%lookup_insert_Some; [done|by eapply Heach].
  - intros u k1 k2 s1 s2. rewrite Hc.
    intros [[<- <-]|[? H1]]%lookup_insert_Some [[<- <-]|[? H2]]%lookup_insert_Some ????; try done.
    + exfalso. by eapply (Hno u k2 s2).
    + exfalso. by eapply (Hno u k1 s1).
    + by eapply (Hsingle u k1 k2 s1 s2).
  - intros k1 s1. rewrite Hc. intros [[<- <-]|[_ H]]%lookup_insert_Some; [done|].
    intros. apply He. by eapply Hhist.
Qed.

Lemma calls_ok_change db db' : calls_ok db -> db_change db db' -> calls_ok db'.
Proof.
  intros Hok [Hc He|k s s' Hk Hlive Hc He Hev Hend].
  - destruct Hok as [A B C D]. split; unfold keyed in *; rewrite ?Hc; eauto.
  - eapply calls_ok_insert; try done.
    + rewrite (ev_id _ _ _ Hev). by apply (co_keyed _ Hok).
    + apply (ev_ok _ _ _ Hev). by eapply (co_each _ Hok).
    + intros u Hu. destruct (ev_engaged _ _ _ Hev u Hu) as [Hold|]; [|done].
      destruct (busy_in db (Some k) u) eqn:E; [|done]. exfalso.
      apply busy_spec in E as (k2 & s2 & Hk2 & Hne & Hl2 & Hp2).
      apply Hne. f_equal. by eapply (co_single _ Hok u).
Qed.

Lemma calls_ok_step db db' : calls_ok db -> call_step db db' -> calls_ok db'.
Proof.
  intros Hok Hstep. pose proof (co_keyed _ Hok) as Hkey.
  destruct Hstep as [db now w txf actor device req id Hfresh|db now w txf route actor device req
                    |db now w txf actor id|db now w txf id].
  - destruct (invite_change now w txf db actor device req id) as [_ [->|(s & Hid & Hs & Hr & Hc & He & Hfree)]];
      [done|].
    eapply calls_ok_insert; try done; [by rewrite Hid|by rewrite Hr|].
    intros u Hu. specialize (Hfree u Hu).
    destruct (busy_in db (Some (as_i64 id)) u) eqn:E; [|done]. exfalso.
    apply busy_spec in E as (k2 & s2 & Hk2 & _ & Hr2).
    assert (busy_in db None u = true); [|congruence]. rewrite busy_spec. exists k2, s2.
    split; [done|]. split; [done|exact Hr2].
  - eapply calls_ok_change; [done|]. by apply mutate_change.
  - eapply calls_ok_change; [done|]. by apply get_change.
  - eapply calls_ok_change; [done|]. by apply sweep_change.
Qed.

Lemma call_change_forward db db' k s :
  db_change db db' -> d_calls db !! k = Some s ->
  exists s', d_calls db' !! k = Some s' /\ c_id (s_call s') = c_id (s_call s) /\
    c_initiator (s_call s') = c_initiator (s_call s) /\
    p_user <$> c_participants (s_call s') = p_user <$> c_participants (s_call s) /\
    (state_rank (c_state (s_call s)) <= state_rank (c_state (s_call s')))%nat /\
    (c_state (s_call s) = Ended -> s' = s).
Proof.
  intros [Hc He|k1 s1 s2 Hk1 Hlive Hc He [Hid Hin Hu Hst _ _] _] Hk.
  - exists s. rewrite Hc. split_and!; done || lia.
  - destruct (decide (k = k1)) as [->|Hne].
    + simplify_eq. exists s2. rewrite Hc, lookup_insert_eq. split_and!; done.
    + exists s. rewrite Hc, lookup_insert_ne by done. split_and!; done || lia.
Qed.

Lemma call_step_forward db db' k s :
  calls_ok db -> call_step db db' -> d_calls db !! k = Some s ->
  exists s', d_calls db' !! k = Some s' /\ c_id (s_call s') = c_id (s_call s) /\
    c_initiator (s_call s') = c_initiator (s_call s) /\
    p_user <$> c_participants (s_call s') = p_user <$> c_participants (s_call s) /\
    (state_rank (c_state (s_call s)) <= state_rank (c_state (s_call s')))%nat /\
    (c_state (s_call s) = Ended -> s' = s).
Proof.
  intros Hok Hstep Hk. pose proof (co_keyed _ Hok) as Hkey.
  destruct Hstep as [db now w txf actor device req id Hfresh|db now w txf route actor device req
                    |db now w txf actor id|db now w txf id].
  - exists s. split; [|split_and!; done || lia].
    destruct (invite_change now w txf db actor device req id) as [_ [->|(s' & _ & _ & _ & Hc & _)]];
      [done|]. rewrite Hc, lookup_insert_ne; [done|]. congruence.
  - eapply call_change_forward; [|done]. by apply mutate_change.
  - eapply call_change_forward; [|done]. by apply get_change.
  - eapply call_change_forward; [|done]. by apply sweep_change.
Qed.

Lemma reachable_ok db : rtc call_step empty_calls db -> calls_ok db.
Proof.
  intros Hr. assert (calls_ok empty_calls) as H0.
  { split; unfold keyed; simpl; intros; by rewrite lookup_empty in *. }
  induction Hr as [|db1 db2 db3 Hstep _ IH]; [done|]. apply IH. by eapply calls_ok_step.
Qed.

(** ** The command log *)
Lemma log_change_keeps db db' k f k' v :
  log_change db db' k f -> d_commands db !! k' = Some v -> d_commands db' !! k' = Some v.
Proof.
  intros [->|(Hk & r & ->)] Hv; [done|]. rewrite lookup_insert_ne; [done|]. congruence.
Qed.

Lemma log_step db db' k v :
  calls_ok db -> call_step db db' -> d_commands db !! k = Some v -> d_commands db' !! k = Some v.
Proof.
  intros Hok Hstep Hv. pose proof (co_keyed _ Hok) as Hkey. destruct Hstep.
  - eapply log_change_keeps; [|done]. apply invite_change.
  - eapply log_change_keeps; [|done]. by apply mutate_change.
  - rewrite (proj2 (get_change _ _ _ _ _ _ Hkey)). done.
  - rewrite (proj2 (sweep_change _ _ _ _ _ Hkey)). done.
Qed.

Lemma log_run db db' k v :
  calls_ok db -> rtc call_step db db' -> d_commands db !! k = Some v -> d_commands db' !! k = Some v.
Proof.
  intros Hok Hrun. induction Hrun as [|db1 db2 db3 Hstep _ IH]; [done|].
  intros Hv. apply IH; [by eapply calls_ok_step|by eapply log_step].
Qed.

Lemma command_logged db actor device cid f f' r :
  d_commands db !! (as_i64 actor, device, cid) = Some (f', r) ->
  command db actor device cid f = Ok (Some r) \/ is_ok (command db actor device cid f) = false.
Proof.
  intros Hl. unfold command. rewrite Hl. destruct (_ || _); [by right|]. case_decide; [by right|].
  case_decide; [by right|by left].
Qed.

Lemma command_found db actor device cid f r :
  command db actor device cid f = Ok (Some r) -> d_commands db !! (as_i64 actor, device, cid) = Some (f, r).
Proof.
  unfold command. destruct (_ || _); [done|]. case_decide; [done|].
  destruct (d_commands db !! _) as [[f' r']|]; [|done]. case_decide as Hf; [done|].
  intros [= ->]. by subst.
Qed.

(** A successful command is in the log; its answer too, unless it re-authorized a join. *)
Lemma mutate_logged now w txf db route actor device req r :
  (mutate cfg identity peer_config join_token mutation_fingerprint now w txf db route actor device req).1 = Ok r ->
  exists r', d_commands (mutate cfg identity peer_config join_token mutation_fingerprint
                           now w txf db route actor device req).2
               !! (as_i64 actor, device, mq_command_id req) = Some (mutation_fingerprint route req, r') /\
    (route <> "join"%string -> r' = r).
Proof.
  unfold mutate. destruct (calls_enabled cfg); [|done]. destruct txf; [done|].
  destruct (command _ _ _ _ _) as [replay|] eqn:Hcmd; [|done].
  destruct (load_call _ _) as [s0|]; [|done]. destruct (call_members _ _ _) as [km|]; [|done].
  destruct (km.2 !! actor) as [[role muted]|]; [|done]. cbn [ok_or].
  destruct (list_find _ _) as [[pos p]|]; [|done]. cbn [ok_or]. destruct (_ && _ && _); [done|].
  destruct replay as [response|].
  - unfold replay_reply. destruct (decide (route = "join")).
    + destruct (_ || _); [done|]. destruct (none_blocked _ _ _); [|done].
      destruct (_ && _); [destruct (peer_config _ _ _); [|done]|]; simpl; intros _;
        eexists; (split; [by apply command_found|done]).
    + simpl. intros [= ->]. eexists. split; [by apply command_found|done].
  - destruct (expire _ _ _ _ _) as [[s db1]|]; [|done]. case_decide; [done|].
    destruct (apply_route _ _ _ _ _ _ _ _ _ _ _ _ _) as [[[s1 n] db2]|]; [|done].
    destruct (mutation_reply _ _ _ _ _ _ _ _) as [response|]; [|done]. simpl. intros [= ->].
    eexists. split; [apply lookup_insert_eq|done].
Qed.

Lemma mutate_replayed now w txf db route actor device req f' r' :
  d_commands db !! (as_i64 actor, device, mq_command_id req) = Some (f', r') ->
  let out := mutate cfg identity peer_config join_token mutation_fingerprint now w txf db route actor device req in
  out.2 = db /\ (route <> "join"%string -> forall r, out.1 = Ok r -> r = r').
Proof.
  intros Hl. cbn zeta. unfold mutate. destruct (calls_enabled cfg); [|done]. destruct txf; [done|].
  destruct (command_logged db actor device (mq_command_id req) (mutation_fingerprint route req) f' r' Hl)
    as [->|Hcmd]; [|by destruct (command _ _ _ _ _)].
  destruct (load_call _ _) as [s0|]; [|done]. destruct (call_members _ _ _) as [km|]; [|done].
  destruct (km.2 !! actor) as [[role muted]|]; [|done]. cbn [ok_or].
  destruct (list_find _ _) as [[pos p]|]; [|done]. cbn [ok_or]. destruct (_ && _ && _); [done|].
  destruct (replay_reply _ _ _ _ _ _ _ _ _ _ _) as [r1|] eqn:Hrep; [|done]. simpl.
  split; [done|]. intros Hroute r [= <-]. unfold replay_reply in Hrep.
  rewrite decide_False in Hrep by done. by simplify_eq.
Qed.

Lemma invite_logged now w txf db actor device req id r :
  (invite cfg invite_fingerprint now w txf db actor device req id).1 = Ok r ->
  d_commands (invite cfg invite_fingerprint now w txf db actor device req id).2
    !! (as_i64 actor, device, iq_command_id req) = Some (invite_fingerprint req, r).
Proof.
  unfold invite. destruct (calls_enabled cfg); [|done]. destruct txf; [done|].
  destruct (command _ _ _ _ _) as [replay|] eqn:Hcmd; [|done].
  destruct (call_members _ _ _) as [[kind members]|]; [|done].
  destruct (members !! actor) as [[role muted]|]; [|done]. cbn [ok_or].
  destruct muted; [done|]. destruct replay as [v|]; [simpl; intros [= ->]; by apply command_found|].
  destruct (_ && _); [done|]. destruct (_ && _); [done|]. destruct (_ && _); [done|].
  destruct (_ || _); [done|]. destruct (check_targets _ _ _ _); [|done].
  destruct (existsb _ _); [done|]. simpl. intros [= <-]. apply lookup_insert_eq.
Qed.

Lemma invite_replayed now w txf db actor device req id f' r' :
  d_commands db !! (as_i64 actor, device, iq_command_id req) = Some (f', r') ->
  let out := invite cfg invite_fingerprint now w txf db actor device req id in
  out.2 = db /\ (forall r, out.1 = Ok r -> r = r').
Proof.
  intros Hl. cbn zeta. unfold invite. destruct (calls_enabled cfg); [|done]. destruct txf; [done|].
  destruct (command_logged db actor device (iq_command_id req) (invite_fingerprint req) f' r' Hl)
    as [->|Hcmd]; [|by destruct (command _ _ _ _ _)].
  destruct (call_members _ _ _) as [[kind members]|]; [|done].
  destruct (members !! actor) as [[role muted]|]; [|done]. cbn [ok_or].
  destruct muted; [done|]. simpl. split; [done|]. by intros r [= <-].
Qed.
End Ops.

(** ** Properties *)
Section Properties.
Context (cfg : CallConfig) (identity : Z -> Z -> string -> string)
  (peer_config : Z -> CallSnapshot -> Z -> result string RpcError)
  (join_token : Z -> CallSnapshot -> Z -> string -> Z -> result string RpcError)
  (invite_fingerprint : CallInviteRequest -> string)
  (mutation_fingerprint : string -> CallMutationRequest -> string).
Notation step := (call_step cfg identity peer_config join_token invite_fingerprint mutation_fingerprint).

(** Stored calls are consistent. In every database reached by invitations,
    mutations, reads and sweeps, with any transaction failing, each call
    document satisfies its invariant: a call has an end reason and end time
    exactly when it has ended, an ended call has nobody joined, an answered call
    has its answer time, participants are distinct and include the initiator,
    every joined participant holds a device claim; and every ended call has its
    history effect in the outbox. *)
Theorem reachable_calls_consistent (db : CallDb) (k : Z) (s : StoredCall) :
  rtc step empty_calls db -> d_calls db !! k = Some s ->
  call_ok s /\
  (c_state (s_call s) = Ended ->
     (c_id (s_call s), c_version (s_call s), "history"%string, "{}"%string) ∈ d_effects db).
Proof.
  intros Hr Hk. pose proof (reachable_ok _ _ _ _ _ _ db Hr) as [Hkey Heach Hsing Hhist].
  split; [by eapply Heach|by eapply Hhist].
Qed.

(** A call only moves forward and an ended call never changes. Along any
    further run from a reachable database a call keeps its identity, initiator
    and participants, never returns to an earlier state, and once ended its
    document stays exactly the same. *)
Theorem ended_calls_are_final (db db' : CallDb) (k : Z) (s : StoredCall) :
  rtc step empty_calls db -> rtc step db db' -> d_calls db !! k = Some s ->
  exists s', d_calls db' !! k = Some s' /\
    c_id (s_call s') = c_id (s_call s) /\ c_initiator (s_call s') = c_initiator (s_call s) /\
    p_user <$> c_participants (s_call s') = p_user <$> c_participants (s_call s) /\
    (state_rank (c_state (s_call s)) <= state_rank (c_state (s_call s')))%nat /\
    (c_state (s_call s) = Ended -> s' = s).
Proof.
  intros Hr Hrun. pose proof (reachable_ok _ _ _ _ _ _ db Hr) as Hok. clear Hr.
  revert s. induction Hrun as [db|db1 db2 db3 Hstep _ IH]; intros s Hk.
  - exists s. split_and!; done || lia.
  - pose proof (calls_ok_step _ _ _ _ _ _ _ _ Hok Hstep) as Hok2.
    destruct (call_step_forward _ _ _ _ _ _ db1 db2 k s Hok Hstep Hk)
      as (s1 & Hk1 & Hid1 & Hin1 & Hu1 & Hs1 & He1).
    destruct (IH Hok2 s1 Hk1) as (s2 & Hk2 & Hid2 & Hin2 & Hu2 & Hs2 & He2).
    exists s2. split_and!; try done; try congruence; try lia.
    intros He. specialize (He1 He). subst s1. by apply He2.
Qed.

(** C38. Nobody is in two calls. In every reachable database a user is invited to
    or joined in at most one call that has not ended. *)
Theorem one_live_call_per_user (db : CallDb) (u k1 k2 : Z) (s1 s2 : StoredCall) :
  rtc step empty_calls db ->
  d_calls db !! k1 = Some s1 -> d_calls db !! k2 = Some s2 ->
  c_state (s_call s1) <> Ended -> c_state (s_call s2) <> Ended ->
  participant_engaged u s1 = true -> participant_engaged u s2 = true -> k1 = k2.
Proof. intros Hr. apply (co_single _ (reachable_ok _ _ _ _ _ _ db Hr)). Qed.

(** Commands are idempotent. Once an invitation or mutation has succeeded,
    then after any further run the same request (same user, device and command
    id), at whatever time and under whatever policy, changes nothing; if it is
    answered successfully the answer is the original one (a repeated join is
    re-authorized, so only its credentials may differ). *)
Theorem repeated_commands_are_replayed (db later : CallDb) now now' w w' txf txf' actor device :
  rtc step empty_calls db ->
  (forall req id id' r,
     d_calls db !! as_i64 id = None ->
     (invite cfg invite_fingerprint now w txf db actor device req id).1 = Ok r ->
     rtc step (invite cfg invite_fingerprint now w txf db actor device req id).2 later ->
     let out := invite cfg invite_fingerprint now' w' txf' later actor device req id' in
     out.2 = later /\ forall r', out.1 = Ok r' -> r' = r) /\
  (forall route req r,
     (mutate cfg identity peer_config join_token mutation_fingerprint
        now w txf db route actor device req).1 = Ok r ->
     rtc step (mutate cfg identity peer_config join_token mutation_fingerprint
                 now w txf db route actor device req).2 later ->
     let out := mutate cfg identity peer_config join_token mutation_fingerprint
                  now' w' txf' later route actor device req in
     out.2 = later /\ (route <> "join"%string -> forall r', out.1 = Ok r' -> r' = r)).
Proof.
  intros Hr. pose proof (reachable_ok _ _ _ _ _ _ db Hr) as Hok. split.
  - intros req id id' r Hfresh Hout Hrun.
    pose proof (invite_logged _ _ _ _ _ _ _ _ _ _ _ Hout) as Hlog.
    assert (calls_ok (invite cfg invite_fingerprint now w txf db actor device req id).2) as Hok1
      by (eapply (calls_ok_step _ identity peer_config join_token _ mutation_fingerprint);
          [done|by apply step_invite]).
    apply (log_run _ _ _ _ _ _ _ _ _ _ Hok1 Hrun) in Hlog. by eapply invite_replayed.
  - intros route req r Hout Hrun.
    destruct (mutate_logged _ _ _ _ _ _ _ _ _ _ _ _ _ _ Hout) as (r1 & Hlog & Hr1).
    assert (calls_ok (mutate cfg identity peer_config join_token mutation_fingerprint
                        now w txf db route actor device req).2) as Hok1
      by (eapply (calls_ok_step _ _ _ _ invite_fingerprint); [done|by apply step_mutate]).
    apply (log_run _ _ _ _ _ _ _ _ _ _ Hok1 Hrun) in Hlog.
    destruct (mutate_replayed cfg identity peer_config join_token mutation_fingerprint
                now' w' txf' later route actor device req _ _ Hlog) as [H1 H2].
    split; [done|]. intros Hne r' Hr'. rewrite <- (Hr1 Hne). by apply H2.
Qed.
End Properties.

(** ** A concrete run: a direct call between users 1 and 2 *)
Definition demo_cfg : CallConfig := mkCallConfig true true false "wss://lk"%string 8 4 30 20 60.
Definition demo_world : World := mkWorld {[ 7 := mkChan 0 (Some 1) (Some 2) None ]} (fun _ => []) ∅.
Definition demo_identity (_ _ : Z) (d : string) : string := d.
Definition demo_peer (_ : Z) (_ : CallSnapshot) (_ : Z) : result string RpcError := Ok "stun"%string.
Definition demo_token (_ : Z) (_ : CallSnapshot) (_ : Z) (_ : string) (_ : Z) : result string RpcError :=
  Ok "jwt"%string.
Definition demo_if (q : CallInviteRequest) : string := iq_command_id q.
Definition demo_mf (r : string) (q : CallMutationRequest) : string := (r +:+ mq_command_id q)%string.
Definition demo_invite : CallInviteRequest := mkInvite "c1"%string 7 Audio [] true.
Definition demo_hangup : CallMutationRequest := mkMutation "c3"%string 100 true.

Notation demo_step := (call_step demo_cfg demo_identity demo_peer demo_token demo_if demo_mf).
Definition demo_db1 : CallDb :=
  (invite demo_cfg demo_if 1000 demo_world false empty_calls 1 "phone" demo_invite 100).2.
Definition demo_db2 : CallDb :=
  (mutate demo_cfg demo_identity demo_peer demo_token demo_mf 2000 demo_world false demo_db1 "join" 2 "pad"
     (mkMutation "c2"%string 100 true)).2.
Definition demo_db3 : CallDb :=
  (mutate demo_cfg demo_identity demo_peer demo_token demo_mf 3000 demo_world false demo_db2 "end" 1 "phone"
     demo_hangup).2.

Lemma demo_run1 : rtc demo_step empty_calls demo_db1.
Proof. apply rtc_once. by apply step_invite. Qed.
Lemma demo_run2 : rtc demo_step empty_calls demo_db2.
Proof. eapply rtc_r; [apply demo_run1|]. apply step_mutate. Qed.
Lemma demo_run3 : rtc demo_step demo_db2 demo_db3.
Proof. apply rtc_once, step_mutate. Qed.

Lemma reachable_calls_consistent_witness :
  exists s, d_calls demo_db3 !! 100 = Some s /\ c_state (s_call s) = Ended /\
    call_ok s /\
    (c_state (s_call s) = Ended ->
     (c_id (s_call s), c_version (s_call s), "history"%string, "{}"%string) ∈ d_effects demo_db3).
Proof.
  eexists. split; [vm_compute; reflexivity|]. split; [reflexivity|].
  refine (reachable_calls_consistent demo_cfg demo_identity demo_peer demo_token demo_if demo_mf
            demo_db3 100 _ _ _).
  - etrans; [apply demo_run2|apply demo_run3].
  - vm_compute. reflexivity.
Defined.

Lemma ended_calls_are_final_witness :
  exists s, d_calls demo_db2 !! 100 = Some s /\ c_state (s_call s) = Active /\
  exists s', d_calls demo_db3 !! 100 = Some s' /\
    c_id (s_call s') = c_id (s_call s) /\ c_initiator (s_call s') = c_initiator (s_call s) /\
    p_user <$> c_participants (s_call s') = p_user <$> c_participants (s_call s) /\
    (state_rank (c_state (s_call s)) <= state_rank (c_state (s_call s')))%nat /\
    (c_state (s_call s) = Ended -> s' = s).
Proof.
  eexists. split; [vm_compute; reflexivity|]. split; [reflexivity|].
  refine (ended_calls_are_final demo_cfg demo_identity demo_peer demo_token demo_if demo_mf
            demo_db2 demo_db3 100 _ _ _ _).
  - apply demo_run2.
  - apply demo_run3.
  - vm_compute. reflexivity.
Defined.

Lemma one_live_call_per_user_witness :
  exists s, d_calls demo_db2 !! 100 = Some s /\ participant_engaged 2 s = true /\ 100 = 100.
Proof.
  eexists. split; [vm_compute; reflexivity|]. split; [reflexivity|].
  refine (one_live_call_per_user demo_cfg demo_identity demo_peer demo_token demo_if demo_mf
            demo_db2 2 100 100 _ _ demo_run2 _ _ _ _ _ _);
    [vm_compute; reflexivity|vm_compute; reflexivity|vm_compute; congruence|vm_compute; congruence
    |vm_compute; reflexivity|vm_compute; reflexivity].
Defined.

(** Replaying the hang-up after it ended the call. *)
Lemma repeated_commands_are_replayed_witness :
  let out := mutate demo_cfg demo_identity demo_peer demo_token demo_mf 9000 demo_world false demo_db3
               "end" 1 "phone" demo_hangup in
  is_ok out.1 = true /\ out.2 = demo_db3.
Proof.
  split; [vm_compute; reflexivity|].
  destruct (repeated_commands_are_replayed demo_cfg demo_identity demo_peer demo_token demo_if demo_mf
              demo_db2 demo_db3 3000 9000 demo_world demo_world false false 1 "phone" demo_run2) as [_ H].
  refine (proj1 (H "end"%string demo_hangup _ _ _)).
  - vm_compute. reflexivity.
  - apply rtc_refl.
Defined.
