(* ===== verification/Timeline.v ===== *)
(** * The committed timeline

    Models the authoritative write path of src/src/repository/message_repo.rs:
    [create_message_and_commit_atomic] (claim of the idempotency key, pts,
    message row, attachment binding, media references, channel head, commit log,
    dispatch snapshot, client registry), [append_timeline_event_atomic] and
    [create_dispatch_snapshot_in_tx], with the row conversions of
    src/src/model/message.rs, the message revocation and the announcements of the
    repository and the retention of idempotency keys of src/src/server.rs.

    A transaction is a function of the database before it: it returns its result
    and the database after it, which is the database before it unless it
    commits. [db i] are the faults of its statements; the fault of the COMMIT is
    either a real abort or a commit whose reply is lost. Statements that violate
    a key or overflow a bigint fail like any other. The row lock on the channel's
    pts row makes transactions of one channel serial, so an execution is a
    sequence of transactions. The value of the commit-log sequence, which is not
    rolled back, is an argument.

    The message types, the JSON values and the canonical events belong to the
    protocol crate: they are the class [ProtocolCrate]; chrono's conversions and the
    driver's messages are [Chrono] and [Postgres]. *)

From stdpp Require Import base numbers gmap list strings sorting.
From S2P Require Import Prelude Channel.
Local Open Scope Z_scope.

(** ** External code *)
Class ProtocolCrate := {
  Json : Type;
  json_object : Json;
  json_eq_dec : EqDecision Json;
  ContentMessageType : Type;
  content_type_eq_dec : EqDecision ContentMessageType;
  ct_as_u32 : ContentMessageType -> Z;
  ct_from_u32 : Z -> option ContentMessageType;
  ct_as_str : ContentMessageType -> string;
  ct_text : ContentMessageType;
  MessagePayload : Type;
  ReactionEvent : Type
}.
#[export] Existing Instances json_eq_dec content_type_eq_dec.

Inductive CanonicalTimelineEvent `{ProtocolCrate} :=
| NewMessage (message_type : ContentMessageType) (payload : MessagePayload)
| Revoke (target_server_message_id revoked_by revoked_at : Z)
| ReactionChange (e : ReactionEvent).

Class EventCodec `{ProtocolCrate} := {
  to_legacy_commit : CanonicalTimelineEvent -> Z -> Z -> result (string * Json) string;
  encode_fb : CanonicalTimelineEvent -> result (list Z) string
}.

Class Chrono := {
  timestamp : Z -> Z;
  timestamp_millis : Z -> Z;
  from_timestamp_millis : Z -> option Z
}.

Inductive pg_violation := UniqueViolation (constraint : string) | ForeignKeyViolation (constraint : string)
| BigintOutOfRange.
Class Postgres := { pg_message : pg_violation -> string }.

Definition nanos_of_days (days : Z) : Z := days * 86400 * nanos_per_sec.

(** ** Messages *)
Record Message `{ProtocolCrate} := mkMsg {
  m_message_id : Z;
  m_channel_id : Z;
  m_sender_id : Z;
  m_pts : option Z;
  m_local_message_id : option Z;
  m_content : string;
  m_message_type : ContentMessageType;
  m_metadata : Json;
  m_reply_to : option Z;
  m_created_at : Z;
  m_updated_at : Z;
  m_deleted : bool;
  m_deleted_at : option Z;
  m_revoked : bool;
  m_revoked_at : option Z;
  m_revoked_by : option Z;
  m_read_detail_expires_at : option Z
}.

(** A row of [privchat_messages]. *)
Record MessageRow `{ProtocolCrate} := mkRow {
  r_message_id : Z;
  r_channel_id : Z;
  r_sender_id : Z;
  r_pts : Z;
  r_local_message_id : option Z;
  r_content : string;
  r_message_type : Z;
  r_metadata : option Json;
  r_reply_to : option Z;
  r_created_at : Z;
  r_updated_at : Z;
  r_deleted : bool;
  r_deleted_at : option Z;
  r_revoked : bool;
  r_revoked_at : option Z;
  r_revoked_by : option Z;
  r_read_detail_expires_at : option Z
}.

(** [x as i16] of a [u32]. *)
Definition as_i16 (z : Z) : Z := let w := z mod 2 ^ 16 in if w <? 2 ^ 15 then w else w - 2 ^ 16.

Section Messages.
Context `{P : ProtocolCrate, Chrono}.

Definition with_pts (m : Message) (pts : Z) : Message :=
  mkMsg _ (m_message_id m) (m_channel_id m) (m_sender_id m) (Some pts) (m_local_message_id m)
    (m_content m) (m_message_type m) (m_metadata m) (m_reply_to m) (m_created_at m) (m_updated_at m)
    (m_deleted m) (m_deleted_at m) (m_revoked m) (m_revoked_at m) (m_revoked_by m)
    (m_read_detail_expires_at m).

(** The deadline bound by the INSERT: the one on the message, or the configured
    retention counted from its creation. *)
Definition read_detail_expires_at_for_insert (retention_days : Z) (m : Message) : Z :=
  timestamp_millis (default (m_created_at m + nanos_of_days retention_days)
                      (m_read_detail_expires_at m)).

Definition stamp_read_detail_expiry (m : Message) (retention_days : Z) : Message :=
  mkMsg _ (m_message_id m) (m_channel_id m) (m_sender_id m) (m_pts m) (m_local_message_id m)
    (m_content m) (m_message_type m) (m_metadata m) (m_reply_to m) (m_created_at m) (m_updated_at m)
    (m_deleted m) (m_deleted_at m) (m_revoked m) (m_revoked_at m) (m_revoked_by m)
    (Some (m_created_at m + nanos_of_days (Z.max retention_days 0))).

(** [to_db_values], with the separately bound deadline. *)
Definition to_db_values (m : Message) (read_detail_expires_at : Z) : MessageRow :=
  mkRow _ (as_i64 (m_message_id m)) (as_i64 (m_channel_id m)) (as_i64 (m_sender_id m))
    (default 0 (m_pts m)) (as_i64 <$> m_local_message_id m) (m_content m)
    (as_i16 (ct_as_u32 (m_message_type m))) (Some (m_metadata m)) (as_i64 <$> m_reply_to m)
    (timestamp_millis (m_created_at m)) (timestamp_millis (m_updated_at m)) (m_deleted m)
    (timestamp_millis <$> m_deleted_at m) (m_revoked m) (timestamp_millis <$> m_revoked_at m)
    (as_i64 <$> m_revoked_by m) (Some read_detail_expires_at).

(** [from_db_row]; [now] is read for a timestamp chrono cannot represent. *)
Definition message_from_row (now : Z) (r : MessageRow) : Message :=
  mkMsg _ (as_u64 (r_message_id r)) (as_u64 (r_channel_id r)) (as_u64 (r_sender_id r))
    (Some (r_pts r)) (as_u64 <$> r_local_message_id r) (r_content r)
    (default ct_text (ct_from_u32 (as_u32 (r_message_type r)))) (default json_object (r_metadata r))
    (as_u64 <$> r_reply_to r) (default now (from_timestamp_millis (r_created_at r)))
    (default now (from_timestamp_millis (r_updated_at r))) (r_deleted r)
    (r_deleted_at r ≫= from_timestamp_millis) (r_revoked r)
    (r_revoked_at r ≫= from_timestamp_millis) (as_u64 <$> r_revoked_by r)
    (r_read_detail_expires_at r ≫= from_timestamp_millis).
End Messages.

(** ** Tables *)
(** [mr_role_debug] is the [Debug] text of the role. *)
Record MediaRef := mkMediaRef {
  mr_file_id : Z; mr_role : Z; mr_role_debug : string; mr_ordinal : Z
}.
Record FileRow := mkFile {
  f_uploader_id : Z; f_business_type : option string; f_business_id : option string
}.
Record TChannelRow := mkTChannel {
  tc_type : Z; tc_user1 : option Z; tc_user2 : option Z; tc_membership_version : Z;
  tc_head_pts : option Z; tc_head_id : option Z
}.
Record CommitRow `{ProtocolCrate} := mkCommit {
  cm_id : Z; cm_pts : Z; cm_server_msg_id : Z; cm_local_message_id : option Z; cm_channel_id : Z;
  cm_channel_type : Z; cm_message_type : string; cm_content : Json; cm_server_timestamp : Z;
  cm_sender_id : Z; cm_sender_username : option string; cm_created_at : Z;
  cm_schema_version : option Z; cm_canonical_event : option (list Z)
}.
Record OutboxRow := mkOutbox {
  o_channel_id : Z; o_channel_type : Z; o_pts : Z; o_sender_id : Z; o_event_kind : Z;
  o_membership_version : Z; o_status : Z; o_created_at : Z; o_dispatched_at : option Z
}.
(** [lease_token] is 0 by default; the lease and the last error are NULL. *)
Record RecipientRow := mkRecipient {
  rc_state : Z; rc_attempts : Z; rc_next_attempt_at : Z; rc_lease_owner : option string;
  rc_lease_until : option Z; rc_lease_token : Z; rc_last_error : option string
}.
Record RegistryRow := mkRegistry {
  rg_server_msg_id : Z; rg_pts : Z; rg_channel_id : Z; rg_channel_type : Z; rg_decision : string;
  rg_created_at : Z
}.

(** The tables the transactions read and write, keyed as the schema keys them.
    The message and commit tables are in insertion order; the members and
    participants are the rows without [left_at]. *)
Record TimelineDb `{ProtocolCrate} := mkTimeline {
  t_dedup : gmap string (Z * Z);
  t_pts : gmap Z Z;
  t_messages : list MessageRow;
  t_files : gmap Z FileRow;
  t_refs : gmap (Z * Z * Z) (Z * Z);
  t_channels : gmap Z TChannelRow;
  t_group_members : gset (Z * Z);
  t_participants : gset (Z * Z);
  t_users : gset Z;
  t_log : list CommitRow;
  t_outbox : gmap Z OutboxRow;
  t_recipients : gmap (Z * Z) RecipientRow;
  t_registry : gmap (Z * string * Z) RegistryRow
}.

(** One setter per table. *)
Section Setters.
Context `{P : ProtocolCrate} (d : TimelineDb).
Definition set_dedup x := mkTimeline _ x (t_pts d) (t_messages d) (t_files d) (t_refs d) (t_channels d)
  (t_group_members d) (t_participants d) (t_users d) (t_log d) (t_outbox d) (t_recipients d) (t_registry d).
Definition set_pts_table x := mkTimeline _ (t_dedup d) x (t_messages d) (t_files d) (t_refs d)
  (t_channels d) (t_group_members d) (t_participants d) (t_users d) (t_log d) (t_outbox d)
  (t_recipients d) (t_registry d).
Definition set_messages x := mkTimeline _ (t_dedup d) (t_pts d) x (t_files d) (t_refs d) (t_channels d)
  (t_group_members d) (t_participants d) (t_users d) (t_log d) (t_outbox d) (t_recipients d) (t_registry d).
Definition set_files x := mkTimeline _ (t_dedup d) (t_pts d) (t_messages d) x (t_refs d) (t_channels d)
  (t_group_members d) (t_participants d) (t_users d) (t_log d) (t_outbox d) (t_recipients d) (t_registry d).
Definition set_refs x := mkTimeline _ (t_dedup d) (t_pts d) (t_messages d) (t_files d) x (t_channels d)
  (t_group_members d) (t_participants d) (t_users d) (t_log d) (t_outbox d) (t_recipients d) (t_registry d).
Definition set_channels x := mkTimeline _ (t_dedup d) (t_pts d) (t_messages d) (t_files d) (t_refs d) x
  (t_group_members d) (t_participants d) (t_users d) (t_log d) (t_outbox d) (t_recipients d) (t_registry d).
Definition set_log x := mkTimeline _ (t_dedup d) (t_pts d) (t_messages d) (t_files d) (t_refs d)
  (t_channels d) (t_group_members d) (t_participants d) (t_users d) x (t_outbox d) (t_recipients d)
  (t_registry d).
Definition set_outbox x y := mkTimeline _ (t_dedup d) (t_pts d) (t_messages d) (t_files d) (t_refs d)
  (t_channels d) (t_group_members d) (t_participants d) (t_users d) (t_log d) x y (t_registry d).
Definition set_registry x := mkTimeline _ (t_dedup d) (t_pts d) (t_messages d) (t_files d) (t_refs d)
  (t_channels d) (t_group_members d) (t_participants d) (t_users d) (t_log d) (t_outbox d)
  (t_recipients d) x.
End Setters.

(** [dissolve_group_admin] on these tables: the members and the channel of the group are
    deleted, and the foreign keys delete what refers to the channel, its messages and
    their references to files. The idempotency keys, the log, the counter, the outbox and
    the registry refer to no channel and stay. *)
Definition dissolve_timeline `{ProtocolCrate} (group_id : Z) (d : TimelineDb) : TimelineDb :=
  match t_channels d !! group_id with
  | Some c =>
      if tc_type c =? 1 then
        let gone := filter (fun r => r_channel_id r = group_id) (t_messages d) in
        mkTimeline _ (t_dedup d) (t_pts d) (filter (fun r => r_channel_id r <> group_id) (t_messages d)) (t_files d)
          (filter (fun e => (e.1.1.1, e.2.1) ∉ (fun r => (r_message_id r, r_created_at r)) <$> gone) (t_refs d))
          (delete group_id (t_channels d)) (filter (fun m => m.1 <> group_id) (t_group_members d))
          (filter (fun m => m.1 <> group_id) (t_participants d)) (t_users d) (t_log d) (t_outbox d) (t_recipients d) (t_registry d)
      else d
  | None => d
  end.

(** ** Requests and results *)
Record ClientRegistryClaim := mkClaim { cl_device_id : string; cl_decision : string }.

Record AtomicMessageCommitRequest `{ProtocolCrate} := mkCommitRequest {
  q_message : Message;
  q_dedup_key : option string;
  q_claim : option ClientRegistryClaim;
  q_refs : list MediaRef;
  q_channel_type : Z;
  q_event : CanonicalTimelineEvent;
  q_sender_username : option string
}.
Record AtomicMessageCommitResult `{ProtocolCrate} := mkCommitResult {
  res_message : Message;
  res_inserted : bool;
  res_event_id : option Z;
  res_schema_version : option Z;
  res_canonical_event : option (list Z)
}.
Record AtomicTimelineEventRequest `{ProtocolCrate} := mkEventRequest {
  e_server_msg_id : Z;
  e_channel_id : Z;
  e_channel_type : Z;
  e_event : CanonicalTimelineEvent;
  e_sender_id : Z;
  e_sender_username : option string;
  e_server_timestamp : Z
}.
(** [sender_info] is the username it carries: its user id is [sender_id] and the
    server leaves the nickname and avatar empty. *)
Record ServerCommit `{ProtocolCrate} := mkServerCommit {
  sc_event_id : option Z;
  sc_pts : Z;
  sc_server_msg_id : Z;
  sc_local_message_id : option Z;
  sc_channel_id : Z;
  sc_channel_type : Z;
  sc_message_type : string;
  sc_content : Json;
  sc_server_timestamp : Z;
  sc_sender_id : Z;
  sc_sender_username : option string;
  sc_schema_version : option Z;
  sc_canonical_event : option (list Z)
}.

Definition CANONICAL_TIMELINE_EVENT_SCHEMA_V1 : Z := 1.

(** [ChannelType::from_wire_u8]: Direct is 1, Group 2, Room 3 on the wire. *)
Definition channel_type_from_wire_u8 (value : Z) : option ChannelType :=
  if value =? 1 then Some Direct else if value =? 2 then Some Group
  else if value =? 3 then Some Room else None.

Definition unique_file_ids_of (refs : list MediaRef) : list Z :=
  remove_dups (merge_sort Z.le (mr_file_id <$> refs)).

Definition event_kind `{ProtocolCrate} (e : CanonicalTimelineEvent) : Z :=
  match e with NewMessage _ _ => 1 | Revoke _ _ _ => 2 | ReactionChange _ => 3 end.

(** ** Statements *)
Section Statements.
Context `{P : ProtocolCrate, Chrono, Postgres}.

Definition violation {T} (prefix : string) (v : pg_violation) : result T ServerError :=
  Err (Database (prefix +:+ pg_message v)).

(** [... ORDER BY created_at DESC LIMIT 1] among rows of one message id. *)
Fixpoint latest_row (rows : list MessageRow) : option MessageRow :=
  match rows with
  | [] => None
  | r :: rs =>
      match latest_row rs with
      | Some r' => if r_created_at r <? r_created_at r' then Some r' else Some r
      | None => Some r
      end
  end.
Definition row_of_id (d : TimelineDb) (mid : Z) : option MessageRow :=
  latest_row (filter (fun r => r_message_id r = mid) (t_messages d)).

Definition find_by_id (now : Z) (db : faults) (d : TimelineDb) (message_id : Z)
    : result (option Message) ServerError :=
  exec? db 0%nat else "Failed to query message: " in
    Ok (message_from_row now <$> row_of_id d (as_i64 message_id)).

(** The join of the dedup table with the messages. *)
Definition dedup_row (d : TimelineDb) (key : string) : option MessageRow :=
  t_dedup d !! key ≫= fun '(mid, _) => row_of_id d mid.

Definition find_message_by_dedup_key (now : Z) (db : faults) (d : TimelineDb) (key : string)
    : result (option Message) ServerError :=
  exec? db 0%nat else "Failed to query dedup message: " in
    Ok (message_from_row now <$> dedup_row d key).

(** The join of the client registry with the messages, [LIMIT 1]. *)
Definition find_message_by_client_registry (now : Z) (db : faults) (d : TimelineDb)
    (sender_id : Z) (device_id : string) (local_message_id : Z) : result (option Message) ServerError :=
  exec? db 13%nat else "Failed to query client registry message: " in
    Ok (message_from_row now <$>
          (t_registry d !! (as_i64 sender_id, device_id, as_i64 local_message_id) ≫= fun g =>
             head (filter (fun r => r_message_id r = rg_server_msg_id g) (t_messages d)))).

(** [INSERT ... ON CONFLICT DO UPDATE SET current_pts = current_pts + 1 RETURNING]. *)
Definition bump_pts (prefix : string) (d : TimelineDb) (channel : Z) : result (Z * TimelineDb) ServerError :=
  match t_pts d !! channel with
  | None => Ok (1, set_pts_table d (<[channel := 1]> (t_pts d)))
  | Some p =>
      if 2 ^ 63 <=? p + 1 then violation prefix BigintOutOfRange
      else Ok (p + 1, set_pts_table d (<[channel := p + 1]> (t_pts d)))
  end.

(** A nullable reference to a user. *)
Definition user_exists (d : TimelineDb) (u : option Z) : bool :=
  match u with Some u => bool_decide (u ∈ t_users d) | None => true end.

(** [INSERT INTO privchat_messages], with its keys. *)
Definition insert_message (prefix : string) (d : TimelineDb) (r : MessageRow)
    : result TimelineDb ServerError :=
  if existsb (fun x => (r_message_id x =? r_message_id r) && (r_created_at x =? r_created_at r))
       (t_messages d)
  then violation prefix (UniqueViolation "privchat_messages_pkey")
  else if bool_decide (t_channels d !! r_channel_id r = None)
  then violation prefix (ForeignKeyViolation "privchat_messages_channel_id_fkey")
  else if negb (user_exists d (r_revoked_by r))
  then violation prefix (ForeignKeyViolation "privchat_messages_revoked_by_fkey")
  else if negb (user_exists d (Some (r_sender_id r)))
  then violation prefix (ForeignKeyViolation "privchat_messages_sender_id_fkey")
  else Ok (set_messages d (t_messages d ++ [r])).

(** The guard of the attachment UPDATE: the sender's own file, not yet attached
    to another business. *)
Definition bindable (f : FileRow) (sender : Z) (business_id : string) : bool :=
  (f_uploader_id f =? sender) &&
  (bool_decide (f_business_type f = None) || bool_decide (f_business_type f = Some EmptyString)
   || bool_decide (f_business_id f = None) || bool_decide (f_business_id f = Some EmptyString)
   || (bool_decide (f_business_type f = Some "message"%string)
       && bool_decide (f_business_id f = Some business_id))).

Definition bind_file (d : TimelineDb) (message_id sender_id file_id : Z) : option TimelineDb :=
  match t_files d !! as_i64 file_id with
  | Some f =>
      if bindable f (as_i64 sender_id) (u64_to_string message_id) then
        Some (set_files d (<[as_i64 file_id :=
          mkFile (f_uploader_id f) (Some "message"%string) (Some (u64_to_string message_id))]> (t_files d)))
      else None
  | None => None
  end.

Fixpoint bind_files (db : faults) (i : nat) (message_id sender_id : Z) (ids : list Z) (d : TimelineDb)
    : result TimelineDb ServerError :=
  match ids with
  | [] => Ok d
  | file_id :: rest =>
      exec? db i else ("Failed to bind attachment file_id=" +:+ u64_to_string file_id +:+
                        " to message_id=" +:+ u64_to_string message_id +:+ ": ") in
      match bind_file d message_id sender_id file_id with
      | None => Err (Validation ("ATTACHMENT_BINDING_REJECTED attachment file_id=" +:+
                       u64_to_string file_id +:+ " rejected while binding message_id=" +:+
                       u64_to_string message_id +:+ ": not found, not uploaded by sender " +:+
                       u64_to_string sender_id +:+ ", or already bound to another business"))
      | Some d' => bind_files db (2 + i)%nat message_id sender_id rest d'
      end
  end.

(** [INSERT ... ON CONFLICT (message_id, role, ordinal) DO NOTHING]. *)
Definition record_ref (d : TimelineDb) (message_id created_at : Z) (r : MediaRef) : TimelineDb :=
  let k := (as_i64 message_id, mr_role r, mr_ordinal r) in
  match t_refs d !! k with
  | Some _ => d
  | None => set_refs d (<[k := (created_at, as_i64 (mr_file_id r))]> (t_refs d))
  end.

Fixpoint record_refs (db : faults) (i : nat) (message_id created_at : Z) (refs : list MediaRef)
    (d : TimelineDb) : result TimelineDb ServerError :=
  match refs with
  | [] => Ok d
  | r :: rest =>
      exec? db i else ("Failed to record media ref file_id=" +:+ u64_to_string (mr_file_id r) +:+
                        " role=" +:+ mr_role_debug r +:+ " for message_id=" +:+ u64_to_string message_id +:+ ": ") in
      record_refs db (2 + i)%nat message_id created_at rest (record_ref d message_id created_at r)
  end.

(** [ADVANCE_CHANNEL_MESSAGE_HEAD_SQL]: rows compare lexicographically. *)
Definition head_behind (c : TChannelRow) (pts mid : Z) : bool :=
  let hp := default (-1) (tc_head_pts c) in
  let hi := default (-1) (tc_head_id c) in
  negb (bool_decide ((tc_head_pts c, tc_head_id c) = (Some pts, Some mid)))
  && ((hp <? pts) || ((hp =? pts) && (hi <? mid))).

Definition advance_head (channels : gmap Z TChannelRow) (channel pts mid : Z) : gmap Z TChannelRow :=
  match channels !! channel with
  | Some c =>
      if head_behind c pts mid then
        <[channel := mkTChannel (tc_type c) (tc_user1 c) (tc_user2 c) (tc_membership_version c)
                       (Some pts) (Some mid)]> channels
      else channels
  | None => channels
  end.

Definition insert_commit (prefix : string) (d : TimelineDb) (c : CommitRow) : result TimelineDb ServerError :=
  if bool_decide (cm_sender_id c ∈ t_users d) then
    if existsb (fun x => cm_id x =? cm_id c) (t_log d)
    then violation prefix (UniqueViolation "privchat_commit_log_pkey")
    else if existsb (fun x => (cm_channel_id x =? cm_channel_id c) && (cm_pts x =? cm_pts c)) (t_log d)
    then violation prefix (UniqueViolation "privchat_commit_log_channel_id_pts_key")
    else Ok (set_log d (t_log d ++ [c]))
  else violation prefix (ForeignKeyViolation "privchat_commit_log_sender_id_fkey").

(** The users a committed event is addressed to: the UNION of the source. *)
Definition users_of (rows : gset (Z * Z)) (key : Z) : gset Z :=
  list_to_set ((filter (fun p => p.1 = key) (elements rows)).*2).
Definition dispatch_recipients (d : TimelineDb) (channel : Z) : gset Z :=
  match t_channels d !! channel with
  | None => ∅
  | Some c =>
      if tc_type c =? 0 then list_to_set (option_list (tc_user1 c) ++ option_list (tc_user2 c))
      else if tc_type c =? 1 then users_of (t_group_members d) channel
      else users_of (t_participants d) channel
  end.

(** [INSERT INTO recipient SELECT ... ON CONFLICT DO NOTHING]: the users that get
    a new row. *)
Definition new_recipients (d : TimelineDb) (event_id channel : Z) : list Z :=
  filter (fun u => t_recipients d !! (event_id, u) = None) (elements (dispatch_recipients d channel)).
Definition add_recipients (rows : gmap (Z * Z) RecipientRow) (event_id now : Z) (users : list Z) :=
  foldr (fun u m => <[(event_id, u) := mkRecipient 0 0 now None None 0 None]> m) rows users.

Definition create_dispatch_snapshot_in_tx (db : faults) (d : TimelineDb)
    (event_id channel_id wire_channel_type pts sender_id kind now : Z) : result TimelineDb ServerError :=
  exec? db 6%nat else "Failed to lock channel: " in
  let? channel := ok_or (t_channels d !! channel_id)
                    (NotFound ("Channel not found: " +:+ i64_to_string channel_id)) in
  let wire := if (0 <=? wire_channel_type) && (wire_channel_type <=? 255) then wire_channel_type else 255 in
  match channel_type_from_wire_u8 wire with
  | None => Err (Database ("unsupported wire channel type for " +:+ i64_to_string channel_id +:+ ": " +:+
                   i64_to_string wire_channel_type))
  | Some ty =>
      let expected := channel_type_to_i16 ty in
      if negb (tc_type channel =? expected) then
        Err (Database ("channel type mismatch for " +:+ i64_to_string channel_id +:+ ": wire " +:+
               i64_to_string wire_channel_type +:+ " maps to DB " +:+ i64_to_string expected +:+
               ", actual " +:+ i64_to_string (tc_type channel)))
      else
        exec? db 7%nat else "Failed to create dispatch outbox: " in
        if decide (is_Some (t_outbox d !! event_id)) then
          violation "Failed to create dispatch outbox: "
            (UniqueViolation "privchat_message_dispatch_outbox_pkey")
        else
          let outbox := <[event_id := mkOutbox channel_id (tc_type channel) pts sender_id kind
                            (tc_membership_version channel) 0 now None]> (t_outbox d) in
          exec? db 8%nat else "Failed to snapshot dispatch recipients: " in
          match new_recipients d event_id channel_id with
          | [] => Err (Database ("dispatch recipient snapshot is empty for channel " +:+
                         i64_to_string channel_id))
          | users => Ok (set_outbox d outbox (add_recipients (t_recipients d) event_id now users))
          end
  end.

(** ** The message transaction *)
Context `{!EventCodec}.

Definition duplicate_result (m : Message) : AtomicMessageCommitResult :=
  mkCommitResult _ m false None None None.

(** From the pts to the dispatch snapshot: the message with its pts, its row. *)
Definition write_rows (now event_id retention_days : Z) (db : faults)
    (req : AtomicMessageCommitRequest) (legacy : string * Json) (canonical : list Z) (d : TimelineDb)
    : result (Message * MessageRow * TimelineDb) ServerError :=
  exec? db 3%nat else "Failed to allocate pts: " in
  let? pd := bump_pts "Failed to allocate pts: " d (as_i64 (m_channel_id (q_message req))) in
  let '(pts, d1) := pd in
  let message := with_pts (q_message req) pts in
  let row := to_db_values message (read_detail_expires_at_for_insert retention_days message) in
  exec? db 4%nat else "Failed to create message: " in
  let? d2 := insert_message "Failed to create message: " d1 row in
  let? d3 := bind_files db 20 (m_message_id message) (m_sender_id message)
               (unique_file_ids_of (q_refs req)) d2 in
  let? d4 := record_refs db 21 (m_message_id message) (r_created_at row) (q_refs req) d3 in
  exec? db 5%nat else ("update channel message head channel_id=" +:+ u64_to_string (m_channel_id message)
                       +:+ " message_id=" +:+ u64_to_string (m_message_id message) +:+ ": ") in
  let d5 := set_channels d4 (advance_head (t_channels d4) (r_channel_id row) pts (r_message_id row)) in
  exec? db 9%nat else "Failed to save commit: " in
  let? d6 := insert_commit "Failed to save commit: " d5
               (mkCommit _ event_id pts (r_message_id row) (r_local_message_id row) (r_channel_id row)
                  (q_channel_type req) legacy.1 legacy.2 (r_created_at row) (r_sender_id row)
                  (q_sender_username req) now (Some CANONICAL_TIMELINE_EVENT_SCHEMA_V1) (Some canonical)) in
  let? d7 := create_dispatch_snapshot_in_tx db d6 event_id (r_channel_id row) (q_channel_type req) pts
               (r_sender_id row) 1 now in
  Ok (message, row, d7).

(** The rows, then the claim of the client registry; [d0] is the database at the
    start, which a rollback leaves. [now] is a [DateTime]; the rows store its
    milliseconds. *)
Definition write_message (now event_id retention_days : Z) (db : faults)
    (req : AtomicMessageCommitRequest) (legacy : string * Json) (canonical : list Z)
    (d0 d : TimelineDb) : result (AtomicMessageCommitResult * option TimelineDb) ServerError :=
  let now_ms := timestamp_millis now in
  let? mrd := write_rows now_ms event_id retention_days db req legacy canonical d in
  let '(message, row, d7) := mrd in
  let done := mkCommitResult _ message true (Some (as_u64 event_id))
                (Some CANONICAL_TIMELINE_EVENT_SCHEMA_V1) (Some canonical) in
  let local := default 0 (m_local_message_id message) in
  match q_claim req with
  | Some claim =>
      if local =? 0 then Ok (done, Some d7)
      else
        exec? db 12%nat else "Failed to claim client registry: " in
        let k := (r_sender_id row, cl_device_id claim, as_i64 local) in
        match t_registry d7 !! k with
        | Some _ =>
            let? found := find_message_by_client_registry now db d0 (m_sender_id message)
                            (cl_device_id claim) local in
            let? existing := ok_or found
                               (Database "client registry conflict without message projection") in
            Ok (duplicate_result existing, None)
        | None =>
            Ok (done, Some (set_registry d7
              (<[k := mkRegistry (r_message_id row) (r_pts row) (r_channel_id row) (q_channel_type req)
                        (cl_decision claim) now_ms]> (t_registry d7))))
        end
  | None => Ok (done, Some d7)
  end.

(** The claim of the idempotency key, then the rest. *)
Definition claim_and_write (now event_id retention_days : Z) (db : faults)
    (req : AtomicMessageCommitRequest) (legacy : string * Json) (canonical : list Z) (d : TimelineDb)
    : result (AtomicMessageCommitResult * option TimelineDb) ServerError :=
  match q_dedup_key req with
  | None => write_message now event_id retention_days db req legacy canonical d d
  | Some key =>
      exec? db 1%nat else "Failed to claim dedup_key: " in
      match t_dedup d !! key with
      | Some _ =>
          exec? db 2%nat else "Failed to fetch duplicate message: " in
          let? existing := ok_or (dedup_row d key)
                             (Database ("dedup_key exists but message is missing: " +:+ key)) in
          Ok (duplicate_result (message_from_row now existing), None)
      | None =>
          write_message now event_id retention_days db req legacy canonical d
            (set_dedup d (<[key := (as_i64 (m_message_id (q_message req)),
                                    timestamp_millis (m_created_at (q_message req)))]> (t_dedup d)))
      end
  end.

(** The checks before the transaction, and the encodings. *)
Definition check_commit_request (req : AtomicMessageCommitRequest)
    : result ((string * Json) * list Z) ServerError :=
  if bool_decide (is_Some (q_dedup_key req)) && bool_decide (is_Some (q_claim req)) then
    Err (Database "dedup_key and client_registry_claim are mutually exclusive")
  else match q_event req with
  | NewMessage ty _ =>
      if decide (ty <> m_message_type (q_message req)) then
        Err (Database ("canonical message type " +:+ ct_as_str ty +:+ " does not match row type " +:+
               ct_as_str (m_message_type (q_message req))))
      else
        match to_legacy_commit (q_event req) (m_channel_id (q_message req)) (q_channel_type req mod 2 ^ 8) with
        | Err e => Err (Database ("legacy event projection failed: " +:+ e))
        | Ok legacy =>
            match encode_fb (q_event req) with
            | Err e => Err (Database ("canonical event encoding failed: " +:+ e))
            | Ok canonical => Ok (legacy, canonical)
            end
        end
  | _ => Err (Database "message transaction requires a canonical new-message event")
  end.

(** COMMIT: [db 10] is its failure, [db 11] that it took effect all the same. *)
Definition finish_tx {T} (prefix : string) (db : faults) (d : TimelineDb)
    (body : result (T * option TimelineDb) ServerError) : result T ServerError * TimelineDb :=
  match body with
  | Err e => (Err e, d)
  | Ok (r, None) => (Ok r, d)
  | Ok (r, Some d') =>
      match db 10%nat with
      | Some e => (Err (Database (prefix +:+ e)), if db 11%nat then d' else d)
      | None => (Ok r, d')
      end
  end.

Definition create_message_and_commit_atomic (now event_id retention_days : Z) (db : faults)
    (d : TimelineDb) (req : AtomicMessageCommitRequest)
    : result AtomicMessageCommitResult ServerError * TimelineDb :=
  match check_commit_request req with
  | Err e => (Err e, d)
  | Ok (legacy, canonical) =>
      finish_tx "Failed to commit message tx: " db d
        (exec? db 0%nat else "Failed to begin message tx: " in
           claim_and_write now event_id retention_days db req legacy canonical d)
  end.

(** ** Other events: revocations and reactions *)
Definition write_event (now event_id : Z) (db : faults) (req : AtomicTimelineEventRequest)
    (legacy : string * Json) (canonical : list Z) (d : TimelineDb)
    : result (ServerCommit * option TimelineDb) ServerError :=
  exec? db 3%nat else "Failed to allocate event pts: " in
  let? pd := bump_pts "Failed to allocate event pts: " d (as_i64 (e_channel_id req)) in
  let '(pts, d1) := pd in
  exec? db 9%nat else "Failed to save timeline event: " in
  let? d2 := insert_commit "Failed to save timeline event: " d1
               (mkCommit _ event_id pts (as_i64 (e_server_msg_id req)) None (as_i64 (e_channel_id req))
                  (e_channel_type req) legacy.1 legacy.2 (e_server_timestamp req)
                  (as_i64 (e_sender_id req)) (e_sender_username req) now
                  (Some CANONICAL_TIMELINE_EVENT_SCHEMA_V1) (Some canonical)) in
  let? d3 := create_dispatch_snapshot_in_tx db d2 event_id (as_i64 (e_channel_id req))
               (e_channel_type req) pts (as_i64 (e_sender_id req)) (event_kind (e_event req)) now in
  Ok (mkServerCommit _ (Some (as_u64 event_id)) (as_u64 pts) (e_server_msg_id req) None
        (e_channel_id req) (e_channel_type req) legacy.1 legacy.2 (e_server_timestamp req)
        (e_sender_id req) None (Some CANONICAL_TIMELINE_EVENT_SCHEMA_V1) (Some canonical), Some d3).

Definition append_timeline_event_atomic (now event_id : Z) (db : faults) (d : TimelineDb)
    (req : AtomicTimelineEventRequest) : result ServerCommit ServerError * TimelineDb :=
  match to_legacy_commit (e_event req) (e_channel_id req) (e_channel_type req) with
  | Err e => (Err (Database ("legacy event projection failed: " +:+ e)), d)
  | Ok legacy =>
      match encode_fb (e_event req) with
      | Err e => (Err (Database ("canonical event encoding failed: " +:+ e)), d)
      | Ok canonical =>
          finish_tx "Failed to commit event tx: " db d
            (exec? db 0%nat else "Failed to begin event tx: " in
               write_event now event_id db req legacy canonical d)
      end
  end.

(** ** Revocation of the row *)
Definition revoke_row (revoked_at revoker : Z) (r : MessageRow) : MessageRow :=
  mkRow _ (r_message_id r) (r_channel_id r) (r_sender_id r) (r_pts r) (r_local_message_id r)
    (r_content r) (r_message_type r) (r_metadata r) (r_reply_to r) (r_created_at r) revoked_at
    (r_deleted r) (r_deleted_at r) true (Some revoked_at) (Some revoker) (r_read_detail_expires_at r).

(** [revoke_message]; [now] is the clock in milliseconds, which chrono represents
    ([unwrap]), and [now_dt] the reading as a [DateTime]. *)
Definition revoke_message (now now_dt : Z) (db : faults) (d : TimelineDb) (message_id revoker_id : Z)
    : result Message ServerError * TimelineDb :=
  let not_found := NotFound ("Message " +:+ u64_to_string message_id +:+ " not found") in
  match find_by_id now_dt db d message_id with
  | Err e => (Err e, d)
  | Ok None => (Err not_found, d)
  | Ok (Some m) =>
      if m_revoked m then (Err (Validation "Message already revoked"), d)
      else match db 1%nat with
      | Some e => (Err (Database ("Failed to revoke message: " +:+ e)), d)
      | None =>
        if negb (user_exists d (Some (as_i64 revoker_id))) then
          (violation "Failed to revoke message: " (ForeignKeyViolation "privchat_messages_revoked_by_fkey"), d)
        else
          (Ok (mkMsg _ (m_message_id m) (m_channel_id m) (m_sender_id m) (m_pts m)
                 (m_local_message_id m) (m_content m) (m_message_type m) (m_metadata m) (m_reply_to m)
                 (m_created_at m) (default now_dt (from_timestamp_millis now)) (m_deleted m) (m_deleted_at m)
                 true (from_timestamp_millis now) (Some revoker_id) (m_read_detail_expires_at m)),
           set_messages d
             ((fun r => if decide (r_message_id r = as_i64 message_id)
                        then revoke_row now (as_i64 revoker_id) r else r) <$> t_messages d))
      end
  end.

(** ** Announcements of the administration API

    [send_system_message_admin] writes the row alone, with pts 0: no pts is
    allocated, nothing is committed or dispatched, the head stays. *)
Definition SYSTEM_USER_ID : Z := 1.
Definition send_system_message_admin (now message_id : Z) (db : faults) (d : TimelineDb)
    (channel_id : Z) (content : string) (message_type : Z) (metadata : Json)
    : result (Z * Z) ServerError * TimelineDb :=
  let row := mkRow _ (as_i64 message_id) (as_i64 channel_id) (as_i64 SYSTEM_USER_ID) 0 None content
               message_type (Some metadata) None now now false None false None None None in
  match (exec? db 0%nat else "发送系统消息失败: " in insert_message "发送系统消息失败: " d row) with
  | Ok d' => (Ok (message_id, now), d')
  | Err e => (Err e, d)
  end.

(** ** Retention of idempotency keys

    One DELETE of the hourly task: keys older than seven days, except call
    summaries; which of them fit the batch is [picked]. *)
Definition RETENTION_MS : Z := 7 * 24 * 3600 * 1000.
Definition dedup_retention (now : Z) (picked : string -> bool) (d : TimelineDb) : TimelineDb :=
  set_dedup d (filter (fun p => (p.2.2 <? now - RETENTION_MS) && negb (String.prefix "call-summary:" p.1)
                                && picked p.1 = false) (t_dedup d)).
End Statements.
