(* ===== verification/TimelineFacts.v ===== *)
(** * Theorems on the committed timeline

    The effect of each transaction of [Timeline.v], the invariant of the tables
    over all executions, and the properties of sending: a gap-free timeline,
    exactly-once sends and exclusive attachments. *)

From stdpp Require Import base numbers gmap list strings sorting relations.
From S2P Require Import Prelude Channel Timeline.
Local Open Scope Z_scope.

(** ** Effects of the statements *)
Section Effects.
Context `{P : ProtocolCrate, Ch : Chrono, Pg : Postgres, Co : !EventCodec}.

(** What one committed event does to the pts, the log and the outbox. *)
Record log_appended (cm : CommitRow) (now : Z) (d d' : TimelineDb) : Prop := {
  la_next : cm_pts cm = default 0 (t_pts d !! cm_channel_id cm) + 1;
  la_bound : cm_pts cm < 2 ^ 63;
  la_pts : t_pts d' = <[cm_channel_id cm := cm_pts cm]> (t_pts d);
  la_log : t_log d' = t_log d ++ [cm];
  la_id : cm_id cm ∉ cm_id <$> t_log d;
  la_channel : is_Some (t_channels d !! cm_channel_id cm);
  la_fresh : t_outbox d !! cm_id cm = None;
  la_outbox : exists o, t_outbox d' = <[cm_id cm := o]> (t_outbox d) /\
    o_channel_id o = cm_channel_id cm /\ o_pts o = cm_pts cm /\ o_sender_id o = cm_sender_id cm /\ o_status o = 0;
  la_users : new_recipients d (cm_id cm) (cm_channel_id cm) <> [];
  la_recipients : t_recipients d' =
    add_recipients (t_recipients d) (cm_id cm) now (new_recipients d (cm_id cm) (cm_channel_id cm))
}.

Lemma bump_pts_Ok prefix d c p d' :
  bump_pts prefix d c = Ok (p, d') ->
  p = default 0 (t_pts d !! c) + 1 /\ p < 2 ^ 63 /\ d' = set_pts_table d (<[c := p]> (t_pts d)).
Proof.
  unfold bump_pts. destruct (t_pts d !! c) as [q|]; simpl.
  - destruct (Z.leb_spec (2 ^ 63) (q + 1)); [done|]. intros E. injection E as <- <-. done.
  - intros E. injection E as <- <-. split; [done|]. split; [lia|done].
Qed.

Lemma insert_commit_Ok prefix d cm d' :
  insert_commit prefix d cm = Ok d' -> d' = set_log d (t_log d ++ [cm]) /\ cm_id cm ∉ cm_id <$> t_log d.
Proof.
  unfold insert_commit, violation. destruct (bool_decide _); [|done].
  destruct (existsb (fun x => cm_id x =? cm_id cm) (t_log d)) eqn:E; [done|].
  case_match; [done|]. intros Hok. injection Hok as <-. split; [done|].
  intros (x & Hx & Hin)%list_elem_of_fmap.
  assert (existsb (fun x => cm_id x =? cm_id cm) (t_log d) = true); [|congruence].
  apply existsb_exists. exists x. split; [by apply list_elem_of_In|]. apply Z.eqb_eq. done.
Qed.

Lemma snapshot_Ok db d ev c wire pts sender kind now d' :
  create_dispatch_snapshot_in_tx db d ev c wire pts sender kind now = Ok d' ->
  is_Some (t_channels d !! c) /\ t_outbox d !! ev = None /\ new_recipients d ev c <> [] /\
  exists o, o_channel_id o = c /\ o_pts o = pts /\ o_sender_id o = sender /\ o_status o = 0 /\
    d' = set_outbox d (<[ev := o]> (t_outbox d))
           (add_recipients (t_recipients d) ev now (new_recipients d ev c)).
Proof.
  unfold create_dispatch_snapshot_in_tx, violation. intros H. stmt. stmt.
  apply ok_or_Ok in Heqr. destruct (channel_type_from_wire_u8 _) as [ty|]; [|done].
  destruct (negb _); [done|]. stmt.
  case_decide as Ho; [done|]. stmt.
  destruct (new_recipients d ev c) as [|u us] eqn:Eu; [done|]. injection H as <-.
  split; [by eexists|]. split; [by apply eq_None_not_Some|]. split; [done|].
  eexists. by repeat split.
Qed.

Lemma insert_message_Ok prefix d r d' : insert_message prefix d r = Ok d' ->
  d' = set_messages d (t_messages d ++ [r]).
Proof.
  unfold insert_message, violation. destruct (existsb _ _); [done|]. case_bool_decide; [done|].
  destruct (negb _); [done|]. destruct (negb _); [done|]. naive_solver.
Qed.

(** Attachments: the listed files were bindable and are now bound; no other row
    changes. *)
Definition bound_to (message_id sender : Z) : FileRow :=
  mkFile sender (Some "message"%string) (Some (u64_to_string message_id)).

Definition files_bound (message_id sender : Z) (ids : list Z) (fs fs' : gmap Z FileRow) : Prop :=
  (forall k, k ∉ (as_i64 <$> ids) -> fs' !! k = fs !! k) /\
  (forall k, k ∈ (as_i64 <$> ids) ->
     fs' !! k = Some (bound_to message_id (as_i64 sender)) /\
     exists f, fs !! k = Some f /\ bindable f (as_i64 sender) (u64_to_string message_id) = true).

Lemma bind_file_Some d mid sender f d' :
  bind_file d mid sender f = Some d' ->
  d' = set_files d (<[as_i64 f := bound_to mid (as_i64 sender)]> (t_files d)) /\
  exists fr, t_files d !! as_i64 f = Some fr /\ bindable fr (as_i64 sender) (u64_to_string mid) = true.
Proof.
  unfold bind_file. destruct (t_files d !! as_i64 f) as [fr|] eqn:E; [|done].
  destruct (bindable fr _ _) eqn:Eb; [|done]. intros [= <-].
  assert (f_uploader_id fr = as_i64 sender) as Hu.
  { unfold bindable in Eb. apply andb_true_iff in Eb as [?%Z.eqb_eq _]. done. }
  unfold bound_to. rewrite Hu. split; [done|]. by exists fr.
Qed.

Lemma bind_files_Ok db mid sender ids : forall i d d',
  bind_files db i mid sender ids d = Ok d' ->
  exists fs, d' = set_files d fs /\ files_bound mid sender ids (t_files d) fs.
Proof.
  induction ids as [|f ids IH]; intros i d d' H; simpl in H.
  { injection H as <-. exists (t_files d). split; [by destruct d|]. split; [done|]. intros k Hk. by inv Hk. }
  stmt. destruct (bind_file d mid sender f) as [d1|] eqn:E; [|done].
  apply bind_file_Some in E as [-> (fr & Hfr & Hb)].
  apply IH in H as (fs & -> & Hout & Hin). exists fs. split; [done|]. simpl in *. split.
  - intros k [Hne Hni]%not_elem_of_cons. rewrite Hout by done. by rewrite lookup_insert_ne.
  - intros k Hk. destruct (decide (k = as_i64 f)) as [->|Hne].
    + split; [|by exists fr]. destruct (decide (as_i64 f ∈ as_i64 <$> ids)) as [Hi|Hi].
      * by apply Hin.
      * rewrite Hout by done. by rewrite lookup_insert_eq.
    + apply elem_of_cons in Hk as [?|Hk]; [done|]. destruct (Hin k Hk) as [Ha (g & Hg & Hgb)].
      split; [done|]. exists g. split; [|done]. by rewrite lookup_insert_ne in Hg.
Qed.

Definition refs_added (message_id created : Z) (refs : list MediaRef)
    (rs rs' : gmap (Z * Z * Z) (Z * Z)) : Prop :=
  rs ⊆ rs' /\
  forall k v, rs' !! k = Some v -> rs !! k = Some v \/
    (k.1.1 = as_i64 message_id /\ v.1 = created /\ exists r, r ∈ refs /\ v.2 = as_i64 (mr_file_id r)).

Lemma record_refs_Ok db mid created refs : forall i d d',
  record_refs db i mid created refs d = Ok d' ->
  exists rs, d' = set_refs d rs /\ refs_added mid created refs (t_refs d) rs.
Proof.
  induction refs as [|r refs IH]; intros i d d' H; simpl in H.
  { injection H as <-. exists (t_refs d). split; [by destruct d|]. split; [done|]. naive_solver. }
  stmt. apply IH in H as (rs & -> & Hsub & Hin). unfold record_ref in *.
  destruct (t_refs d !! _) as [v|] eqn:E.
  - exists rs. split; [done|]. split; [done|]. intros k w Hw.
    destruct (Hin k w Hw) as [?|(? & ? & r' & ? & ?)]; [by left|right].
    split; [done|]. split; [done|]. exists r'. split; [by right|done].
  - exists rs. split; [done|]. simpl in *. split.
    + etrans; [|apply Hsub]. by apply insert_subseteq.
    + intros k w Hw. destruct (Hin k w Hw) as [Hi|(? & ? & r' & ? & ?)].
      * apply lookup_insert_Some in Hi as [[<- <-]|[_ Hi]]; [|by left]. right. simpl.
        split; [done|]. split; [done|]. exists r. split; [by left|done].
      * right. split; [done|]. split; [done|]. exists r'. split; [by right|done].
Qed.

(** ** Effects of the transactions *)

(** The head column is the only part of a channel row a commit changes, so the
    snapshot sees the same members before and after it. *)
Lemma advance_head_is_Some chs c p i k : is_Some (advance_head chs c p i !! k) <-> is_Some (chs !! k).
Proof.
  unfold advance_head. destruct (chs !! c) as [ch|] eqn:E; [|done].
  destruct (head_behind ch p i); [|done].
  destruct (decide (k = c)) as [->|]; [rewrite lookup_insert_eq, E|rewrite lookup_insert_ne by done]; naive_solver.
Qed.

Lemma new_recipients_head d d' c p i ev :
  t_channels d' = advance_head (t_channels d) c p i -> t_group_members d' = t_group_members d ->
  t_participants d' = t_participants d -> t_recipients d' = t_recipients d ->
  new_recipients d' ev c = new_recipients d ev c.
Proof.
  unfold new_recipients, dispatch_recipients. intros -> -> -> ->. f_equal. unfold advance_head.
  destruct (t_channels d !! c) as [ch|] eqn:E; [|by rewrite E].
  destruct (head_behind ch p i); [|by rewrite E]. by rewrite lookup_insert_eq.
Qed.

(** The rows a message transaction adds besides the event. *)
Record message_written (req : AtomicMessageCommitRequest) (row : MessageRow) (d d' : TimelineDb) : Prop := {
  mw_id : r_message_id row = as_i64 (m_message_id (q_message req));
  mw_channel : r_channel_id row = as_i64 (m_channel_id (q_message req));
  mw_sender : r_sender_id row = as_i64 (m_sender_id (q_message req));
  mw_created : r_created_at row = timestamp_millis (m_created_at (q_message req));
  mw_messages : t_messages d' = t_messages d ++ [row];
  mw_files : files_bound (m_message_id (q_message req)) (m_sender_id (q_message req))
               (unique_file_ids_of (q_refs req)) (t_files d) (t_files d');
  mw_refs : refs_added (m_message_id (q_message req)) (r_created_at row) (q_refs req)
              (t_refs d) (t_refs d');
  mw_channels : t_channels d' =
    advance_head (t_channels d) (r_channel_id row) (r_pts row) (r_message_id row);
  mw_dedup : t_dedup d' = t_dedup d
}.

(** The commit row of a message. *)
Record commit_of_row (cm : CommitRow) (ev : Z) (row : MessageRow) : Prop := {
  co_id : cm_id cm = ev;
  co_channel : cm_channel_id cm = r_channel_id row;
  co_pts : cm_pts cm = r_pts row;
  co_msg : cm_server_msg_id cm = r_message_id row;
  co_sender : cm_sender_id cm = r_sender_id row
}.

Lemma write_rows_Ok now ev ret db req legacy canonical d m row d' :
  write_rows now ev ret db req legacy canonical d = Ok (m, row, d') ->
  m = with_pts (q_message req) (r_pts row) /\ message_written req row d d' /\
  t_registry d' = t_registry d /\
  exists cm, commit_of_row cm ev row /\ log_appended cm now d d' /\
    cm_schema_version cm = Some CANONICAL_TIMELINE_EVENT_SCHEMA_V1 /\ cm_canonical_event cm = Some canonical.
Proof.
  unfold write_rows. intros Hw. stmt. stmt. destruct t as [p d1].
  apply bump_pts_Ok in Heqr as (Hp & Hb & ->). stmt. stmt. apply insert_message_Ok in Heqr as ->.
  stmt. apply bind_files_Ok in Heqr as (fs & -> & Hfs). stmt. apply record_refs_Ok in Heqr as (rs & -> & Hrs).
  stmt. stmt. stmt. apply insert_commit_Ok in Heqr as [-> Hid]. stmt.
  apply snapshot_Ok in Heqr as (Hch & Hout & Hne & o & Ho1 & Ho2 & Ho3 & Ho4 & ->).
  injection Hw as <- <- <-.
  erewrite new_recipients_head in Hne |- * by reflexivity.
  apply advance_head_is_Some in Hch.
  split; [done|]. split; [by split|]. split; [done|].
  match goal with |- context [set_log _ (_ ++ [?c])] => exists c end.
  split; [by split|]. simpl in *. split; [|done]. split; simpl; try done. by exists o.
Qed.

(** The claim of the idempotency key. *)
Definition claim_key (req : AtomicMessageCommitRequest) (d : TimelineDb) : gmap string (Z * Z) :=
  match q_dedup_key req with
  | Some key => <[key := (as_i64 (m_message_id (q_message req)),
                          timestamp_millis (m_created_at (q_message req)))]> (t_dedup d)
  | None => t_dedup d
  end.

(** A message transaction that took effect. *)
Record committed (req : AtomicMessageCommitRequest) (ev now : Z) (row : MessageRow) (cm : CommitRow)
    (d d' : TimelineDb) : Prop := {
  cd_written : message_written req row (set_dedup d (claim_key req d)) d';
  cd_commit : commit_of_row cm ev row;
  cd_log : log_appended cm now d d';
  cd_claim : forall k, q_dedup_key req = Some k -> t_dedup d !! k = None;
  cd_registry : t_registry d' = t_registry d \/
    exists k g, t_registry d !! k = None /\ t_registry d' = <[k := g]> (t_registry d) /\
      rg_server_msg_id g = r_message_id row /\ rg_pts g = r_pts row;
  cd_registered : forall claim, q_claim req = Some claim ->
    default 0 (m_local_message_id (q_message req)) <> 0 ->
    exists g, rg_server_msg_id g = r_message_id row /\
      t_registry d' !! (r_sender_id row, cl_device_id claim,
                        as_i64 (default 0 (m_local_message_id (q_message req)))) = Some g;
  cd_event : cm_schema_version cm = Some CANONICAL_TIMELINE_EVENT_SCHEMA_V1 /\
    exists bytes, encode_fb (q_event req) = Ok bytes /\ cm_canonical_event cm = Some bytes
}.

Lemma log_appended_dedup cm now d x d' : log_appended cm now (set_dedup d x) d' -> log_appended cm now d d'.
Proof. by destruct 1; split. Qed.
Lemma log_appended_registry cm now d d' x : log_appended cm now d d' -> log_appended cm now d (set_registry d' x).
Proof. by destruct 1; split. Qed.
Lemma message_written_registry req row d d' x :
  message_written req row d d' -> message_written req row d (set_registry d' x).
Proof. by destruct 1; split. Qed.

Lemma write_message_Ok now ev ret db req legacy canonical d0 d r o :
  (forall k, q_dedup_key req = Some k -> t_dedup d !! k = None) -> encode_fb (q_event req) = Ok canonical ->
  write_message now ev ret db req legacy canonical d0 (set_dedup d (claim_key req d)) = Ok (r, o) ->
  match o with
  | None => res_inserted r = false
  | Some d' => exists row cm, committed req ev (timestamp_millis now) row cm d d' /\ res_inserted r = true /\
                 res_message r = with_pts (q_message req) (r_pts row) /\ res_event_id r = Some (as_u64 ev)
  end.
Proof.
  intros Hk Henc. unfold write_message. intros Hw. stmt. destruct t as [[m row] d7].
  apply write_rows_Ok in Heqr0 as (-> & Hmw & Hreg & cm & Hco & Hla & Hev).
  assert (cm_schema_version cm = Some CANONICAL_TIMELINE_EVENT_SCHEMA_V1 /\
    exists bytes, encode_fb (q_event req) = Ok bytes /\ cm_canonical_event cm = Some bytes) as Hevent
    by naive_solver.
  apply log_appended_dedup in Hla. simpl in Hreg. destruct (q_claim req) as [claim|] eqn:Ec.
  - destruct (Z.eqb_spec (default 0 (m_local_message_id (with_pts (q_message req) (r_pts row)))) 0)
      as [Hl|Hl]; simpl in Hl.
    + injection Hw as <- <-. exists row, cm. split; [|done]. split; try done. by left.
    + stmt. destruct (t_registry d7 !! _) eqn:Eg.
      * stmt. stmt. by injection Hw as <- <-.
      * injection Hw as <- <-. exists row, cm. split; [|done].
        split; try done.
        -- by apply message_written_registry.
        -- by apply log_appended_registry.
        -- right. do 2 eexists. rewrite <- Hreg. split; [apply Eg|]. by split.
        -- intros claim' Hcl _. rewrite Ec in Hcl. injection Hcl as <-.
           eexists. split; [|apply lookup_insert_eq]. done.
  - injection Hw as <- <-. exists row, cm. split; [|done]. split; try done; [by left|].
    intros claim Hcl. congruence.
Qed.

Lemma check_commit_encoded req legacy canonical :
  check_commit_request req = Ok (legacy, canonical) -> encode_fb (q_event req) = Ok canonical.
Proof.
  unfold check_commit_request. destruct (_ && _); [done|]. destruct (q_event req); [|done..].
  case_decide; [done|]. destruct (to_legacy_commit _ _ _); [|done].
  destruct (encode_fb _); [|done]. by intros [= _ ->].
Qed.

(** A message transaction either leaves the database alone, having inserted
    nothing, or commits. *)
Lemma create_cases now ev ret db d req out d' :
  create_message_and_commit_atomic now ev ret db d req = (out, d') ->
  (d' = d /\ forall r, out = Ok r -> res_inserted r = false) \/
  exists row cm, committed req ev (timestamp_millis now) row cm d d' /\
    forall r, out = Ok r -> res_inserted r = true /\
      res_message r = with_pts (q_message req) (r_pts row) /\ res_event_id r = Some (as_u64 ev).
Proof.
  unfold create_message_and_commit_atomic.
  destruct (check_commit_request req) as [[legacy canonical]|e] eqn:Echk; [|intros [= <- <-]; by left].
  apply check_commit_encoded in Echk as Henc.
  destruct (db 0%nat) eqn:E0; [intros [= <- <-]; by left|].
  destruct (claim_and_write now ev ret db req legacy canonical d) as [[r o]|e] eqn:Ew; simpl;
    [|intros [= <- <-]; by left].
  assert (match o with
  | None => res_inserted r = false
  | Some d' => exists row cm, committed req ev (timestamp_millis now) row cm d d' /\ res_inserted r = true /\
                 res_message r = with_pts (q_message req) (r_pts row) /\ res_event_id r = Some (as_u64 ev)
  end) as Ho.
  { unfold claim_and_write in Ew. destruct (q_dedup_key req) as [key|] eqn:Ek.
    - stmt. destruct (t_dedup d !! key) eqn:Ed.
      + stmt. stmt. by injection Ew as <- <-.
      + eapply write_message_Ok; [|apply Henc|]; unfold claim_key; rewrite Ek; [|apply Ew]. naive_solver.
    - eapply (write_message_Ok now ev ret db req legacy canonical d d); [naive_solver|done|].
      unfold claim_key. rewrite Ek. by destruct d. }
  destruct o as [d1|].
  - destruct Ho as (row & cm & Hc & Hr). destruct (db 10%nat); [destruct (db 11%nat)|]; intros [= <- <-].
    + right. exists row, cm. split; [done|]. done.
    + by left.
    + right. exists row, cm. split; [done|]. intros ? [= <-]. done.
  - intros [= <- <-]. left. split; [done|]. intros ? [= <-]. done.
Qed.

(** Likewise for the other events, which touch no message, file or channel. *)
Lemma append_cases now ev db d req out d' :
  append_timeline_event_atomic now ev db d req = (out, d') ->
  d' = d \/
  exists cm, log_appended cm now d d' /\ cm_server_msg_id cm = as_i64 (e_server_msg_id req) /\
    cm_channel_id cm = as_i64 (e_channel_id req) /\
    t_dedup d' = t_dedup d /\ t_messages d' = t_messages d /\ t_files d' = t_files d /\
    t_refs d' = t_refs d /\ t_channels d' = t_channels d /\ t_registry d' = t_registry d.
Proof.
  unfold append_timeline_event_atomic. destruct (to_legacy_commit _ _ _) as [legacy|]; [|naive_solver].
  destruct (encode_fb _) as [canonical|]; [|naive_solver].
  destruct (db 0%nat) eqn:E0; [naive_solver|].
  destruct (write_event now ev db req legacy canonical d) as [[r o]|e] eqn:Ew; simpl; [|naive_solver].
  unfold write_event in Ew. stmt. stmt. destruct t as [p d1]. apply bump_pts_Ok in Heqr0 as (Hp & Hb & ->).
  stmt. stmt. apply insert_commit_Ok in Heqr0 as [-> Hid]. stmt.
  apply snapshot_Ok in Heqr0 as (Hch & Hout & Hne & ob & Ho1 & Ho2 & Ho3 & Ho4 & ->).
  injection Ew as <- <-. intros Hfin.
  match type of Hfin with context [set_log _ (_ ++ [?c])] => set (cm := c) in * end.
  destruct (db 10%nat); [destruct (db 11%nat)|]; injection Hfin as <- <-; [|by left|];
    right; exists cm; (split; [split; simpl in *; try done; by exists ob|done]).
Qed.
End Effects.

(** ** Executions *)
Section Executions.
Context `{P : ProtocolCrate, Ch : Chrono, Pg : Postgres, Co : !EventCodec}.

(** What the rest of the server may do between two transactions: channels,
    memberships, users and unreferenced files change freely, the dispatch worker
    updates and prunes the outbox, foreign keys hold. A file with references is
    not deleted (the guard of the file service). The one-off backfill of media
    references is not part of an execution, and no channel is deleted: the dissolution
    of a group, which deletes its channel and messages, is [dissolve_timeline], a step of
    its own where a theorem allows for it ([send_retries_once]). *)
Record world_changes (d d' : TimelineDb) : Prop := {
  wc_dedup : t_dedup d' = t_dedup d;
  wc_pts : t_pts d' = t_pts d;
  wc_messages : t_messages d' = t_messages d;
  wc_refs : t_refs d' = t_refs d;
  wc_log : t_log d' = t_log d;
  wc_registry : t_registry d' = t_registry d;
  wc_files : forall k v, t_refs d !! k = Some v -> t_files d' !! v.2 = t_files d !! v.2;
  wc_channels : forall c,
    match t_channels d !! c with
    | Some ch => exists ch', t_channels d' !! c = Some ch' /\
                   tc_head_pts ch' = tc_head_pts ch /\ tc_head_id ch' = tc_head_id ch
    | None => forall ch', t_channels d' !! c = Some ch' ->
                tc_head_pts ch' = None /\ tc_head_id ch' = None
    end;
  wc_fk : forall ev u, is_Some (t_recipients d' !! (ev, u)) -> is_Some (t_outbox d' !! ev)
}.

(** The ids of a request are [u64]s. *)
Definition request_typed (req : AtomicMessageCommitRequest) : Prop :=
  is_u64 (m_message_id (q_message req)) /\ is_u64 (m_channel_id (q_message req)).
Definition event_typed (req : AtomicTimelineEventRequest) : Prop :=
  is_u64 (e_server_msg_id req) /\ is_u64 (e_channel_id req).

(** [retention] says at which clock readings idempotency keys may be pruned. The ids of
    new messages come from the snowflake generator, which is not modelled: that they are
    fresh is a premise of the two steps that insert a message. *)
Inductive tl_step (retention : Z -> Prop) : TimelineDb -> TimelineDb -> Prop :=
| step_create now ev ret db d req :
    request_typed req ->
    (** the generated message id is new *)
    (forall r, r ∈ t_messages d -> r_message_id r <> as_i64 (m_message_id (q_message req))) ->
    tl_step retention d (create_message_and_commit_atomic now ev ret db d req).2
| step_append now ev db d req :
    event_typed req ->
    tl_step retention d (append_timeline_event_atomic now ev db d req).2
| step_revoke now now_dt db d message_id revoker_id :
    tl_step retention d (revoke_message now now_dt db d message_id revoker_id).2
| step_announce now message_id db d channel_id content ty metadata :
    is_u64 message_id -> (forall r, r ∈ t_messages d -> r_message_id r <> as_i64 message_id) ->
    tl_step retention d (send_system_message_admin now message_id db d channel_id content ty metadata).2
| step_retention now picked d :
    retention now -> tl_step retention d (dedup_retention now picked d)
| step_world d d' : world_changes d d' -> tl_step retention d d'.

(** A server with users and channels but no timeline yet. *)
Record no_timeline (d : TimelineDb) : Prop := {
  nt_dedup : t_dedup d = ∅;
  nt_pts : t_pts d = ∅;
  nt_messages : t_messages d = [];
  nt_refs : t_refs d = ∅;
  nt_log : t_log d = [];
  nt_registry : t_registry d = ∅;
  nt_heads : forall c ch, t_channels d !! c = Some ch -> tc_head_pts ch = None /\ tc_head_id ch = None;
  nt_recipients : t_recipients d = ∅
}.
Definition reachable_timeline (d : TimelineDb) : Prop :=
  exists d0, no_timeline d0 /\ rtc (tl_step (fun _ => True)) d0 d.

(** The events of one channel, in commit order. *)
Definition channel_pts (d : TimelineDb) (c : Z) : list Z :=
  cm_pts <$> filter (fun cm => cm_channel_id cm = c) (t_log d).
Definition current_pts_of (d : TimelineDb) (c : Z) : Z := default 0 (t_pts d !! c).

Record log_ok (d : TimelineDb) : Prop := {
  lo_pts : forall c, 0 <= current_pts_of d c /\ channel_pts d c = seqZ 1 (current_pts_of d c);
  lo_ids : NoDup (cm_id <$> t_log d);
  lo_channels : forall cm, cm ∈ t_log d -> is_Some (t_channels d !! cm_channel_id cm);
  lo_i64 : forall cm, cm ∈ t_log d -> is_i64 (cm_channel_id cm) /\ is_i64 (cm_server_msg_id cm);
  lo_bound : forall c, current_pts_of d c < 2 ^ 63;
  lo_fk : forall ev u, is_Some (t_recipients d !! (ev, u)) -> is_Some (t_outbox d !! ev)
}.

(** The messages of one channel that are on the timeline, in commit order. *)
Definition timeline_rows (d : TimelineDb) (c : Z) : list MessageRow :=
  filter (fun r => r_channel_id r = c /\ r_pts r <> 0) (t_messages d).

Record rows_ok (d : TimelineDb) : Prop := {
  ro_commit : forall r, r ∈ t_messages d -> r_pts r <> 0 -> exists cm, cm ∈ t_log d /\
    cm_server_msg_id cm = r_message_id r /\ cm_channel_id cm = r_channel_id r /\ cm_pts cm = r_pts r;
  ro_i64 : forall r, r ∈ t_messages d -> is_i64 (r_message_id r);
  ro_unique : NoDup (r_message_id <$> t_messages d);
  ro_head : forall c ch, t_channels d !! c = Some ch ->
    (tc_head_pts ch, tc_head_id ch) =
      match last (timeline_rows d c) with
      | Some r => (Some (r_pts r), Some (r_message_id r))
      | None => (None, None)
      end;
  ro_dedup : forall k mid at_, t_dedup d !! k = Some (mid, at_) -> exists r, r ∈ t_messages d /\
    r_message_id r = mid /\ r_created_at r = at_;
  ro_registry : forall k g, t_registry d !! k = Some g -> exists r, r ∈ t_messages d /\
    r_message_id r = rg_server_msg_id g /\ r_pts r = rg_pts g;
  ro_refs : forall k v, t_refs d !! k = Some v -> exists r, r ∈ t_messages d /\
    r_message_id r = k.1.1 /\ r_created_at r = v.1 /\
    t_files d !! v.2 = Some (bound_to (as_u64 (r_message_id r)) (r_sender_id r))
}.

Lemma add_recipients_lookup rows ev now users k :
  is_Some (add_recipients rows ev now users !! k) <-> is_Some (rows !! k) \/ (k.1 = ev /\ k.2 ∈ users).
Proof.
  induction users as [|u us IH]; simpl; [set_solver|].
  destruct (decide (k = (ev, u))) as [->|Hne].
  - rewrite lookup_insert_eq. simpl. set_solver.
  - rewrite lookup_insert_ne by done. rewrite IH. destruct k as [a b]. simpl.
    rewrite elem_of_cons. naive_solver.
Qed.

Lemma pts_of_appended cm now d d' c :
  log_appended cm now d d' ->
  current_pts_of d' c = if decide (c = cm_channel_id cm) then cm_pts cm else current_pts_of d c.
Proof.
  intros Hl. unfold current_pts_of. rewrite (la_pts _ _ _ _ Hl).
  case_decide as E; [subst; by rewrite lookup_insert_eq|by rewrite lookup_insert_ne].
Qed.

Lemma log_ok_appended cm now d d' :
  log_ok d -> log_appended cm now d d' -> is_i64 (cm_channel_id cm) -> is_i64 (cm_server_msg_id cm) ->
  (forall c, is_Some (t_channels d !! c) -> is_Some (t_channels d' !! c)) -> log_ok d'.
Proof.
  intros [Hpts Hids Hch H64 Hbd Hfk] Hl Hci Hmi Hdom. split.
  - intros c. rewrite (pts_of_appended _ _ _ _ _ Hl). unfold channel_pts. rewrite (la_log _ _ _ _ Hl).
    rewrite filter_app, fmap_app. fold (channel_pts d c). destruct (Hpts c) as [H0 Hs]. rewrite Hs.
    case_decide as E.
    + subst c. rewrite filter_cons_True by done. simpl.
      rewrite (la_next _ _ _ _ Hl). fold (current_pts_of d (cm_channel_id cm)).
      split; [lia|]. rewrite seqZ_app by lia. f_equal. unfold seqZ. simpl. f_equal. lia.
    + rewrite filter_cons_False by done. simpl. by rewrite app_nil_r.
  - rewrite (la_log _ _ _ _ Hl), fmap_app, NoDup_app. split; [done|]. split; [|apply NoDup_singleton].
    intros x Hx Hx2%list_elem_of_singleton. subst x. by apply (la_id _ _ _ _ Hl).
  - intros x. rewrite (la_log _ _ _ _ Hl), elem_of_app, list_elem_of_singleton.
    intros [Hx| ->]; apply Hdom; [by apply Hch|apply (la_channel _ _ _ _ Hl)].
  - intros x. rewrite (la_log _ _ _ _ Hl), elem_of_app, list_elem_of_singleton.
    intros [Hx| ->]; [by apply H64|done].
  - intros c. rewrite (pts_of_appended _ _ _ _ _ Hl). case_decide; [apply (la_bound _ _ _ _ Hl)|apply Hbd].
  - intros ev u. rewrite (la_recipients _ _ _ _ Hl), add_recipients_lookup. simpl.
    destruct (la_outbox _ _ _ _ Hl) as (o & -> & _). intros [Hr|[-> _]].
    + destruct (decide (ev = cm_id cm)) as [->|]; [by rewrite lookup_insert_eq|].
      rewrite lookup_insert_ne by done. by eapply Hfk.
    + by rewrite lookup_insert_eq.
Qed.

(** A file bound to one message can only be bound again for that message. *)
Lemma bindable_bound a b s s' : is_u64 a -> is_u64 b ->
  bindable (bound_to a s) s' (u64_to_string b) = true -> s = s' /\ a = b.
Proof.
  intros Ha Hb. unfold bindable, bound_to. simpl f_uploader_id. simpl f_business_type. simpl f_business_id.
  rewrite andb_true_iff, !orb_true_iff, andb_true_iff, !bool_decide_eq_true, Z.eqb_eq.
  intros [-> Hc]. split; [done|].
  assert (forall z, is_u64 z -> u64_to_string z <> EmptyString) as Hne.
  { intros z Hz E. apply parse_u64_to_string in Hz. by rewrite E in Hz. }
  destruct Hc as [[[[?|?]|?]|E]|[_ E]]; try done.
  - injection E as E. by apply Hne in E.
  - injection E as E. apply parse_u64_to_string in Ha, Hb. congruence.
Qed.

Lemma file_id_listed refs r : r ∈ refs -> as_i64 (mr_file_id r) ∈ (as_i64 <$> unique_file_ids_of refs).
Proof.
  intros Hr. apply list_elem_of_fmap. exists (mr_file_id r). split; [done|].
  unfold unique_file_ids_of. rewrite elem_of_remove_dups, merge_sort_Permutation.
  apply list_elem_of_fmap. by exists r.
Qed.

(** Every timeline message of a channel is at or below its current pts. *)
Lemma row_pts_bound d r : log_ok d -> rows_ok d -> r ∈ t_messages d -> r_pts r <> 0 ->
  1 <= r_pts r <= current_pts_of d (r_channel_id r).
Proof.
  intros Hl Hr Hin Hn. destruct (ro_commit _ Hr r Hin Hn) as (cm & Hcm & _ & Hc & Hp).
  destruct (lo_pts _ Hl (r_channel_id r)) as [H0 Hs].
  assert (r_pts r ∈ channel_pts d (r_channel_id r)) as Hm.
  { unfold channel_pts. apply list_elem_of_fmap. exists cm. split; [done|]. by apply list_elem_of_filter. }
  rewrite Hs, elem_of_seqZ in Hm. lia.
Qed.

Lemma head_advances d c ch p i : log_ok d -> rows_ok d -> t_channels d !! c = Some ch ->
  p = current_pts_of d c + 1 -> head_behind ch p i = true.
Proof.
  intros Hl Hr Hch ->. pose proof (ro_head _ Hr c ch Hch) as Hh.
  destruct (lo_pts _ Hl c) as [H0 _]. unfold head_behind.
  destruct (last _) as [r|] eqn:El; injection Hh as Hp Hi; rewrite Hp, Hi; simpl.
  - apply last_Some_elem_of, list_elem_of_filter in El as [[Hc Hn] Hin].
    pose proof (row_pts_bound d r Hl Hr Hin Hn) as Hb. rewrite Hc in Hb.
    rewrite bool_decide_eq_false_2 by (intros [= ? ?]; lia). simpl.
    apply orb_true_iff. left. apply Z.ltb_lt. lia.
  - apply orb_true_iff. left. apply Z.ltb_lt. lia.
Qed.

Lemma timeline_rows_snoc d row c :
  timeline_rows (set_messages d (t_messages d ++ [row])) c =
    timeline_rows d c ++ (if decide (r_channel_id row = c /\ r_pts row <> 0) then [row] else []).
Proof. unfold timeline_rows. simpl. by rewrite filter_app, filter_cons, filter_nil. Qed.
Lemma timeline_rows_same d d' c : t_messages d' = t_messages d -> timeline_rows d' c = timeline_rows d c.
Proof. unfold timeline_rows. by intros ->. Qed.

(** The head of every channel after a commit. *)
Lemma heads_committed d row : log_ok d -> rows_ok d ->
  is_Some (t_channels d !! r_channel_id row) -> r_pts row = current_pts_of d (r_channel_id row) + 1 ->
  forall c ch, advance_head (t_channels d) (r_channel_id row) (r_pts row) (r_message_id row) !! c = Some ch ->
  (tc_head_pts ch, tc_head_id ch) =
    match last (timeline_rows (set_messages d (t_messages d ++ [row])) c) with
    | Some r => (Some (r_pts r), Some (r_message_id r))
    | None => (None, None)
    end.
Proof.
  intros Hl Hr [ch0 Hch0] Hp c ch. destruct (lo_pts _ Hl (r_channel_id row)) as [H0 _].
  unfold advance_head. rewrite Hch0, (head_advances d _ ch0 _ _ Hl Hr Hch0 Hp), timeline_rows_snoc.
  destruct (decide (c = r_channel_id row)) as [->|Hne].
  - rewrite lookup_insert_eq. intros [= <-]. simpl. rewrite decide_True by (split; [done|lia]).
    by rewrite last_snoc.
  - rewrite lookup_insert_ne by done. intros Hc.
    rewrite decide_False, app_nil_r by naive_solver. by apply (ro_head _ Hr).
Qed.

(** References after a commit: the old ones keep their files, the new ones are
    bound to the new message. *)
Lemma refs_committed req row d fs rs :
  rows_ok d -> is_u64 (m_message_id (q_message req)) ->
  (forall r, r ∈ t_messages d -> r_message_id r <> as_i64 (m_message_id (q_message req))) ->
  r_message_id row = as_i64 (m_message_id (q_message req)) ->
  r_sender_id row = as_i64 (m_sender_id (q_message req)) ->
  files_bound (m_message_id (q_message req)) (m_sender_id (q_message req))
    (unique_file_ids_of (q_refs req)) (t_files d) fs ->
  refs_added (m_message_id (q_message req)) (r_created_at row) (q_refs req) (t_refs d) rs ->
  forall k v, rs !! k = Some v -> exists r, r ∈ t_messages d ++ [row] /\
    r_message_id r = k.1.1 /\ r_created_at r = v.1 /\
    fs !! v.2 = Some (bound_to (as_u64 (r_message_id r)) (r_sender_id r)).
Proof.
  intros Hr Hu Hfresh Hid Hs [Hout Hin] [_ Hrs] k v Hv.
  destruct (Hrs k v Hv) as [Hold|(Hk & Hc & ref & Href & Hf)].
  - destruct (ro_refs _ Hr k v Hold) as (r & Hrin & ? & ? & Hf). exists r.
    rewrite elem_of_app. split; [by left|]. split; [done|]. split; [done|].
    destruct (decide (v.2 ∈ as_i64 <$> unique_file_ids_of (q_refs req))) as [Hi|Hi];
      [|by rewrite Hout].
    exfalso. destruct (Hin _ Hi) as [_ (f & Hf2 & Hb)]. rewrite Hf in Hf2. injection Hf2 as <-.
    pose proof (ro_i64 _ Hr r Hrin) as Hi64.
    apply bindable_bound in Hb as [_ Hb]; [|auto with privchat..].
    apply (Hfresh r Hrin). rewrite <- Hb. by rewrite as_i64_as_u64_id.
  - exists row. rewrite elem_of_app, list_elem_of_singleton. split; [by right|].
    split; [congruence|]. split; [congruence|].
    rewrite Hf, Hid, as_u64_as_i64, Hs by done. apply Hin. by apply file_id_listed.
Qed.

Lemma log_ok_committed req ev now row cm d d' :
  log_ok d -> request_typed req -> committed req ev now row cm d d' -> log_ok d'.
Proof.
  intros Hl [Hm Hc] [Hmw [_ Ec _ Em _] Ha _ _ _ _]. eapply log_ok_appended; [done|apply Ha| | |].
  - rewrite Ec, (mw_channel _ _ _ _ Hmw). auto with privchat.
  - rewrite Em, (mw_id _ _ _ _ Hmw). auto with privchat.
  - intros c Hch. rewrite (mw_channels _ _ _ _ Hmw). by apply advance_head_is_Some.
Qed.

Lemma rows_ok_committed req ev now row cm d d' :
  log_ok d -> rows_ok d -> is_u64 (m_message_id (q_message req)) ->
  (forall r, r ∈ t_messages d -> r_message_id r <> as_i64 (m_message_id (q_message req))) ->
  committed req ev now row cm d d' -> rows_ok d'.
Proof.
  intros Hl Hr Hu Hfresh [Hmw Hco Hla Hclaim Hreg _ _].
  destruct Hmw as [Hid Hc Hs Hcr Hms Hfs Hrs Hchs Hdd]. simpl in *. destruct Hco.
  assert (row ∈ t_messages d') as Hrow by (rewrite Hms; set_solver).
  assert (forall r, r ∈ t_messages d -> r ∈ t_messages d') as Hmono by (intros; rewrite Hms; set_solver).
  pose proof (la_next _ _ _ _ Hla) as Hnext. pose proof (la_channel _ _ _ _ Hla) as Hchan.
  rewrite co_channel0 in Hnext, Hchan. rewrite co_pts0 in Hnext.
  split.
  - intros r. rewrite Hms, (la_log _ _ _ _ Hla), elem_of_app, list_elem_of_singleton. intros [Hin| ->] Hn.
    + destruct (ro_commit _ Hr r Hin Hn) as (x & ? & ?). exists x. split; [set_solver|done].
    + exists cm. split; [set_solver|done].
  - intros r. rewrite Hms, elem_of_app, list_elem_of_singleton. intros [Hin| ->]; [by apply (ro_i64 _ Hr)|].
    rewrite Hid. auto with privchat.
  - rewrite Hms, fmap_app, NoDup_app. split; [apply Hr|]. split; [|apply NoDup_singleton].
    intros x (r & -> & Hin)%list_elem_of_fmap Hx%list_elem_of_singleton.
    apply (Hfresh r Hin). congruence.
  - intros c. rewrite Hchs, (timeline_rows_same (set_messages d (t_messages d ++ [row]))) by done.
    by apply heads_committed.
  - intros k mid at_ Hk. rewrite Hdd in Hk. unfold claim_key in Hk. destruct (q_dedup_key req) as [key|].
    + apply lookup_insert_Some in Hk as [[_ [= <- <-]]|[_ Hk]]; [by exists row|].
      destruct (ro_dedup _ Hr _ _ _ Hk) as (r & ? & ?). by exists r; auto.
    + destruct (ro_dedup _ Hr _ _ _ Hk) as (r & ? & ?). by exists r; auto.
  - intros k g Hk. destruct Hreg as [E|(k0 & g0 & _ & E & ? & ?)]; rewrite E in Hk.
    + destruct (ro_registry _ Hr _ _ Hk) as (r & ? & ?). by exists r; auto.
    + apply lookup_insert_Some in Hk as [[_ <-]|[_ Hk]]; [by exists row|].
      destruct (ro_registry _ Hr _ _ Hk) as (r & ? & ?). by exists r; auto.
  - rewrite Hms. by eapply refs_committed.
Qed.

(** Revocation marks a row and keeps its identity. *)
Record same_row (r r' : MessageRow) : Prop := {
  sr_id : r_message_id r' = r_message_id r;
  sr_channel : r_channel_id r' = r_channel_id r;
  sr_sender : r_sender_id r' = r_sender_id r;
  sr_pts : r_pts r' = r_pts r;
  sr_created : r_created_at r' = r_created_at r
}.

Definition revoke_if (now revoker mid : Z) (r : MessageRow) : MessageRow :=
  if decide (r_message_id r = mid) then revoke_row now revoker r else r.

Lemma revoke_if_same now revoker mid r : same_row r (revoke_if now revoker mid r).
Proof. unfold revoke_if. by case_decide. Qed.

Lemma revoke_cases now now_dt db d mid revoker :
  (revoke_message now now_dt db d mid revoker).2 = d \/
  (revoke_message now now_dt db d mid revoker).2 =
    set_messages d (revoke_if now (as_i64 revoker) (as_i64 mid) <$> t_messages d).
Proof.
  unfold revoke_message. destruct (find_by_id _ _ _ _) as [[m|]|]; [|by left..].
  destruct (m_revoked m); [by left|]. destruct (db 1%nat); [by left|].
  destruct (negb _); [by left|by right].
Qed.

Lemma timeline_rows_fmap (f : MessageRow -> MessageRow) c d : (forall r, same_row r (f r)) ->
  timeline_rows (set_messages d (f <$> t_messages d)) c = f <$> timeline_rows d c.
Proof.
  intros Hf. unfold timeline_rows. simpl. induction (t_messages d) as [|r l IH]; [done|].
  rewrite fmap_cons, !filter_cons, IH. rewrite (sr_channel _ _ (Hf r)), (sr_pts _ _ (Hf r)). by case_decide.
Qed.

Lemma rows_ok_fmap d (f : MessageRow -> MessageRow) : (forall r, same_row r (f r)) ->
  rows_ok d -> rows_ok (set_messages d (f <$> t_messages d)).
Proof.
  intros Hf Hr. assert (forall r, r ∈ t_messages d -> f r ∈ f <$> t_messages d) as Hin
    by (intros; apply list_elem_of_fmap; by eexists).
  split; simpl.
  - intros ? (r & -> & Hi)%list_elem_of_fmap Hn. rewrite (sr_pts _ _ (Hf r)) in Hn.
    destruct (ro_commit _ Hr r Hi Hn) as (cm & ?). exists cm. by rewrite (sr_id _ _ (Hf r)), (sr_channel _ _ (Hf r)), (sr_pts _ _ (Hf r)).
  - intros ? (r & -> & Hi)%list_elem_of_fmap. rewrite (sr_id _ _ (Hf r)). by apply (ro_i64 _ Hr).
  - rewrite <- list_fmap_compose. erewrite list_fmap_ext; [apply (ro_unique _ Hr)|].
    intros i r _. apply (Hf r).
  - intros c ch Hch. rewrite timeline_rows_fmap, fmap_last, (ro_head _ Hr c ch Hch) by done.
    destruct (last _) as [r|]; simpl; [|done]. by rewrite (sr_id _ _ (Hf r)), (sr_pts _ _ (Hf r)).
  - intros k mid at_ Hk. destruct (ro_dedup _ Hr _ _ _ Hk) as (r & ? & ?). exists (f r).
    rewrite (sr_id _ _ (Hf r)), (sr_created _ _ (Hf r)). auto.
  - intros k g Hk. destruct (ro_registry _ Hr _ _ Hk) as (r & ? & ?). exists (f r).
    rewrite (sr_id _ _ (Hf r)), (sr_pts _ _ (Hf r)). auto.
  - intros k v Hk. destruct (ro_refs _ Hr _ _ Hk) as (r & ? & ?). exists (f r).
    rewrite (sr_id _ _ (Hf r)), (sr_created _ _ (Hf r)), (sr_sender _ _ (Hf r)). auto.
Qed.

(** An announcement adds a row off the timeline. *)
Definition announcement (now mid c : Z) (content : string) (ty : Z) (metadata : Json) : MessageRow :=
  mkRow _ (as_i64 mid) (as_i64 c) (as_i64 SYSTEM_USER_ID) 0 None content ty (Some metadata) None now now
    false None false None None None.

Lemma announce_cases now mid db d c content ty metadata :
  (send_system_message_admin now mid db d c content ty metadata).2 = d \/
  (send_system_message_admin now mid db d c content ty metadata).2 =
    set_messages d (t_messages d ++ [announcement now mid c content ty metadata]).
Proof.
  unfold send_system_message_admin. destruct (db 0%nat); [by left|].
  destruct (insert_message _ _ _) as [d'|] eqn:E; [|by left].
  apply insert_message_Ok in E as ->. by right.
Qed.

Lemma rows_ok_announced d row : rows_ok d -> is_i64 (r_message_id row) -> r_pts row = 0 ->
  (forall r, r ∈ t_messages d -> r_message_id r <> r_message_id row) ->
  rows_ok (set_messages d (t_messages d ++ [row])).
Proof.
  intros Hr Hi Hp Hf. assert (forall r, r ∈ t_messages d -> r ∈ t_messages d ++ [row]) as Hmono
    by (intros; rewrite elem_of_app; by left).
  split; simpl.
  - intros r [Hin| ->%list_elem_of_singleton]%elem_of_app Hn; [|done]. by apply (ro_commit _ Hr).
  - intros r [Hin| ->%list_elem_of_singleton]%elem_of_app; [|done]. by apply (ro_i64 _ Hr).
  - rewrite fmap_app, NoDup_app. split; [apply Hr|]. split; [|apply NoDup_singleton].
    intros x (r & -> & Hin)%list_elem_of_fmap Hx%list_elem_of_singleton. by apply (Hf r Hin).
  - intros c ch Hch. rewrite timeline_rows_snoc, decide_False, app_nil_r by naive_solver.
    by apply (ro_head _ Hr).
  - intros k mid at_ Hk. destruct (ro_dedup _ Hr _ _ _ Hk) as (r & ? & ?). exists r. auto.
  - intros k g Hk. destruct (ro_registry _ Hr _ _ Hk) as (r & ? & ?). exists r. auto.
  - intros k v Hk. destruct (ro_refs _ Hr _ _ Hk) as (r & ? & ?). exists r. auto.
Qed.

Lemma log_ok_world d d' : log_ok d -> world_changes d d' -> log_ok d'.
Proof.
  intros [Hp Hi Hc H64 Hb Hf] Hw. split.
  - intros c. unfold current_pts_of, channel_pts. rewrite (wc_pts _ _ Hw), (wc_log _ _ Hw). apply Hp.
  - by rewrite (wc_log _ _ Hw).
  - intros cm. rewrite (wc_log _ _ Hw). intros [ch Hch]%Hc.
    pose proof (wc_channels _ _ Hw (cm_channel_id cm)) as H. rewrite Hch in H. naive_solver.
  - by rewrite (wc_log _ _ Hw).
  - intros c. unfold current_pts_of. rewrite (wc_pts _ _ Hw). apply Hb.
  - apply (wc_fk _ _ Hw).
Qed.

Lemma rows_ok_world d d' : log_ok d -> rows_ok d -> world_changes d d' -> rows_ok d'.
Proof.
  intros Hl Hr Hw. split; rewrite ?(wc_messages _ _ Hw), ?(wc_log _ _ Hw), ?(wc_dedup _ _ Hw),
    ?(wc_registry _ _ Hw), ?(wc_refs _ _ Hw); try apply Hr.
  - intros c ch' Hch'. rewrite (timeline_rows_same d) by apply (wc_messages _ _ Hw).
    pose proof (wc_channels _ _ Hw c) as H. destruct (t_channels d !! c) as [ch|] eqn:E.
    + destruct H as (ch2 & H2 & Hp & Hi). rewrite Hch' in H2. injection H2 as <-.
      rewrite Hp, Hi. by apply (ro_head _ Hr).
    + destruct (H ch' Hch') as [-> ->]. destruct (last _) as [r|] eqn:El; [|done].
      apply last_Some_elem_of, list_elem_of_filter in El as [[Hc Hn] Hin].
      destruct (ro_commit _ Hr r Hin Hn) as (cm & Hcm & _ & Hcc & _).
      destruct (lo_channels _ Hl cm Hcm) as [? ?]. congruence.
  - intros k v Hk. rewrite (wc_files _ _ Hw k v Hk). by apply (ro_refs _ Hr).
Qed.

Lemma step_ok ret d d' : tl_step ret d d' -> log_ok d /\ rows_ok d -> log_ok d' /\ rows_ok d'.
Proof.
  intros Hs [Hl Hr].
  destruct Hs as [now ev rt db d req Hu Hf|now ev db d req He|now dt db d mid rv|now mid db d c tx ty md Hu Hf|now pk d Ht|d d' Hw].
  - destruct (create_message_and_commit_atomic now ev rt db d req) as [out d'] eqn:E.
    apply create_cases in E as [[-> _]|(row & cm & Hc & _)]; [done|]. simpl. split.
    + by eapply log_ok_committed.
    + destruct Hu. by eapply rows_ok_committed.
  - destruct (append_timeline_event_atomic now ev db d req) as [out d'] eqn:E.
    apply append_cases in E as [->|(cm & Ha & Em & Ec & E1 & E2 & E3 & E4 & E5 & E6)]; [done|]. simpl. split.
    + destruct He. eapply log_ok_appended; [done|apply Ha| | |by rewrite E5];
        rewrite ?Em, ?Ec; auto with privchat.
    + split; rewrite ?E1, ?E2, ?E3, ?E4, ?E5, ?E6; try apply Hr.
      * intros r Hin Hn. destruct (ro_commit _ Hr r Hin Hn) as (x & ? & ?). exists x.
        rewrite (la_log _ _ _ _ Ha). split; [set_solver|done].
      * intros c. rewrite (timeline_rows_same d d') by done. apply (ro_head _ Hr).
  - destruct (revoke_cases now dt db d mid rv) as [-> | ->]; [done|]. split.
    + by destruct Hl; split.
    + apply rows_ok_fmap; [|done]. intros. apply revoke_if_same.
  - destruct (announce_cases now mid db d c tx ty md) as [-> | ->]; [done|]. split.
    + by destruct Hl; split.
    + apply rows_ok_announced; [done|simpl; auto with privchat|done|done].
  - split; [by destruct Hl; split|]. destruct Hr. split; try done. simpl.
    intros k m at_ [Hk _]%map_lookup_filter_Some. by apply (ro_dedup0 k).
  - split; [by eapply log_ok_world|by eapply rows_ok_world].
Qed.

Lemma no_timeline_ok d : no_timeline d -> log_ok d /\ rows_ok d.
Proof.
  intros [E1 E2 E3 E4 E5 E6 Hh E8]. split; split; unfold current_pts_of, channel_pts, timeline_rows;
    rewrite ?E1, ?E2, ?E3, ?E4, ?E5, ?E6, ?E8.
  - intros c. by rewrite lookup_empty.
  - apply NoDup_nil_2.
  - set_solver.
  - set_solver.
  - intros c. by rewrite lookup_empty.
  - intros ev u. rewrite lookup_empty. by intros [??].
  - set_solver.
  - set_solver.
  - apply NoDup_nil_2.
  - intros c ch Hch. by destruct (Hh c ch Hch) as [-> ->].
  - intros k ?? Hk. by rewrite lookup_empty in Hk.
  - intros k ? Hk. by rewrite lookup_empty in Hk.
  - intros k ? Hk. by rewrite lookup_empty in Hk.
Qed.

Lemma steps_ok ret d d' : rtc (tl_step ret) d d' -> log_ok d /\ rows_ok d -> log_ok d' /\ rows_ok d'.
Proof. induction 1 as [|d d1 d' Hs _ IH]; [done|]. intros Hok. by eapply IH, step_ok. Qed.

Lemma reachable_timeline_ok d : reachable_timeline d -> log_ok d /\ rows_ok d.
Proof. intros (d0 & Hn & Hs). eapply steps_ok; [done|]. by apply no_timeline_ok. Qed.

(** The log only grows. *)
Lemma step_log_grows ret d d' : tl_step ret d d' ->
  (forall cm, cm ∈ t_log d -> cm ∈ t_log d') /\ (forall c, log_ok d -> current_pts_of d c <= current_pts_of d' c).
Proof.
  assert (forall cm now (d d' : TimelineDb), log_appended cm now d d' ->
    (forall x, x ∈ t_log d -> x ∈ t_log d') /\
    (forall c, log_ok d -> current_pts_of d c <= current_pts_of d' c)) as Happ.
  { intros cm now e e' Ha. split; [rewrite (la_log _ _ _ _ Ha); set_solver|].
    intros c _. rewrite (pts_of_appended _ _ _ _ _ Ha). case_decide; [subst|lia].
    rewrite (la_next _ _ _ _ Ha). unfold current_pts_of. lia. }
  intros Hs.
  destruct Hs as [now ev rt db d req Hu Hf|now ev db d req He|now dt db d mid rv|now mid db d c tx ty md Hu Hf|now pk d Ht|d d' Hw].
  - destruct (create_message_and_commit_atomic now ev rt db d req) as [out d'] eqn:E.
    apply create_cases in E as [[-> _]|(row & cm & Hc & _)]; [done|]. eapply Happ, Hc.
  - destruct (append_timeline_event_atomic now ev db d req) as [out d'] eqn:E.
    apply append_cases in E as [->|(cm & Ha & _)]; [done|]. by eapply Happ.
  - by destruct (revoke_cases now dt db d mid rv) as [-> | ->].
  - by destruct (announce_cases now mid db d c tx ty md) as [-> | ->].
  - done.
  - split; [by rewrite (wc_log _ _ Hw)|]. intros c _. unfold current_pts_of. by rewrite (wc_pts _ _ Hw).
Qed.

(** ** Rows and keys persist *)
Lemma same_row_refl r : same_row r r.
Proof. by split. Qed.
Lemma same_row_trans r1 r2 r3 : same_row r1 r2 -> same_row r2 r3 -> same_row r1 r3.
Proof. destruct 1, 1; split; congruence. Qed.

Definition rows_kept (d d' : TimelineDb) : Prop :=
  forall r, r ∈ t_messages d -> exists r', r' ∈ t_messages d' /\ same_row r r'.

Lemma step_rows_kept ret d d' : tl_step ret d d' -> rows_kept d d'.
Proof.
  intros Hs r Hr. assert (forall l : list MessageRow, r ∈ l -> exists r', r' ∈ l /\ same_row r r') as Hsame
    by (intros; exists r; split; [done|apply same_row_refl]).
  destruct Hs as [now ev rt db d req Hu Hf|now ev db d req He|now dt db d mid rv|now mid db d c tx ty md Hu Hf|now pk d Ht|d d' Hw].
  - destruct (create_message_and_commit_atomic now ev rt db d req) as [out d'] eqn:E.
    apply create_cases in E as [[-> _]|(row & cm & Hc & _)]; [by apply Hsame|]. apply Hsame.
    simpl. rewrite (mw_messages _ _ _ _ (cd_written _ _ _ _ _ _ _ Hc)). simpl. set_solver.
  - destruct (append_timeline_event_atomic now ev db d req) as [out d'] eqn:E.
    apply append_cases in E as [->|(cm & Ha & _ & _ & E1 & E2 & _)]; [by apply Hsame|].
    apply Hsame. simpl. by rewrite E2.
  - destruct (revoke_cases now dt db d mid rv) as [-> | ->]; [by apply Hsame|]. simpl.
    eexists. split; [apply list_elem_of_fmap; by eexists|apply revoke_if_same].
  - apply Hsame. destruct (announce_cases now mid db d c tx ty md) as [-> | ->]; [done|]. simpl. set_solver.
  - by apply Hsame.
  - apply Hsame. by rewrite (wc_messages _ _ Hw).
Qed.

Lemma steps_rows_kept ret d d' : rtc (tl_step ret) d d' -> rows_kept d d'.
Proof.
  induction 1 as [|d d1 d' Hs _ IH]; intros r Hr; [exists r; split; [done|apply same_row_refl]|].
  destruct (step_rows_kept _ _ _ Hs r Hr) as (r1 & Hr1 & S1). destruct (IH r1 Hr1) as (r2 & Hr2 & S2).
  exists r2. split; [done|]. by eapply same_row_trans.
Qed.

(** An idempotency key outlives its message's seven days. *)
Lemma step_key_kept at_ mid key d d' :
  tl_step (fun now => now <= at_ + RETENTION_MS) d d' ->
  t_dedup d !! key = Some (mid, at_) -> t_dedup d' !! key = Some (mid, at_).
Proof.
  intros Hs Hk.
  destruct Hs as [now ev rt db d req Hu Hf|now ev db d req He|now dt db d mid' rv|now mid' db d c tx ty md Hu Hf|now pk d Ht|d d' Hw].
  - destruct (create_message_and_commit_atomic now ev rt db d req) as [out d'] eqn:E.
    apply create_cases in E as [[-> _]|(row & cm & Hc & _)]; [done|]. simpl.
    rewrite (mw_dedup _ _ _ _ (cd_written _ _ _ _ _ _ _ Hc)). simpl. unfold claim_key.
    destruct (q_dedup_key req) as [k|] eqn:Ek; [|done].
    rewrite lookup_insert_ne; [done|]. intros ->. pose proof (cd_claim _ _ _ _ _ _ _ Hc key Ek). congruence.
  - destruct (append_timeline_event_atomic now ev db d req) as [out d'] eqn:E.
    apply append_cases in E as [->|(cm & Ha & _ & _ & E1 & _)]; [done|]. simpl. by rewrite E1.
  - by destruct (revoke_cases now dt db d mid' rv) as [-> | ->].
  - by destruct (announce_cases now mid' db d c tx ty md) as [-> | ->].
  - unfold dedup_retention. simpl. apply map_lookup_filter_Some. split; [done|]. simpl.
    assert (at_ <? now - RETENTION_MS = false) as -> by (apply Z.ltb_ge; lia). done.
  - by rewrite (wc_dedup _ _ Hw).
Qed.

Lemma steps_key_kept at_ mid key d d' :
  rtc (tl_step (fun now => now <= at_ + RETENTION_MS)) d d' ->
  t_dedup d !! key = Some (mid, at_) -> t_dedup d' !! key = Some (mid, at_).
Proof. induction 1 as [|d d1 d' Hs _ IH]; [done|]. intros Hk. by eapply IH, step_key_kept. Qed.

(** With unique ids, the newest row of an id is its row. *)
Lemma latest_row_elem l x : latest_row l = Some x -> x ∈ l.
Proof.
  revert x. induction l as [|r l IH]; intros x; simpl; [done|].
  destruct (latest_row l) as [y|] eqn:E; [|intros [= <-]; set_solver].
  destruct (_ <? _); intros [= <-]; [right; by apply IH|left].
Qed.
Lemma latest_row_is_Some l r : r ∈ l -> is_Some (latest_row l).
Proof.
  destruct l as [|x l]; [set_solver|]. intros _. simpl.
  destruct (latest_row l); [destruct (_ <? _)|]; by eexists.
Qed.
Lemma NoDup_fmap_elem {A B} (f : A -> B) (l : list A) x y :
  NoDup (f <$> l) -> x ∈ l -> y ∈ l -> f x = f y -> x = y.
Proof.
  intros Hn Hx Hy Hf. apply list_elem_of_lookup_1 in Hx as [i Hi], Hy as [j Hj].
  assert (i = j) as ->; [|congruence].
  eapply (NoDup_lookup (f <$> l) i j (f x)); [done| |]; rewrite list_lookup_fmap, ?Hi, ?Hj; simpl; congruence.
Qed.
Lemma row_of_id_unique d r :
  NoDup (r_message_id <$> t_messages d) -> r ∈ t_messages d -> row_of_id d (r_message_id r) = Some r.
Proof.
  intros Hu Hin. unfold row_of_id.
  destruct (latest_row_is_Some (filter (fun x => r_message_id x = r_message_id r) (t_messages d)) r)
    as [x Hx]; [by apply list_elem_of_filter|].
  rewrite Hx. apply latest_row_elem, list_elem_of_filter in Hx as [Hid Hxin]. f_equal.
  by eapply (NoDup_fmap_elem r_message_id).
Qed.

(** The recipients recorded for an event. *)
Definition addressed (d : TimelineDb) (ev : Z) (u : Z) : Prop := is_Some (t_recipients d !! (ev, u)).

Lemma appended_addressed cm now d d' u :
  log_ok d -> log_appended cm now d d' ->
  addressed d' (cm_id cm) u <-> u ∈ dispatch_recipients d (cm_channel_id cm).
Proof.
  intros Hl Ha. unfold addressed. rewrite (la_recipients _ _ _ _ Ha), add_recipients_lookup. simpl.
  assert (forall v, t_recipients d !! (cm_id cm, v) = None) as Hnone.
  { intros v. apply eq_None_not_Some. intros Hs%(lo_fk _ Hl). rewrite (la_fresh _ _ _ _ Ha) in Hs.
    by destruct Hs. }
  unfold new_recipients. rewrite Hnone, list_elem_of_filter, Hnone, elem_of_elements.
  split; [intros [[? ?]|?]; [done|intuition]|intuition].
Qed.

Lemma committed_key req ev now row cm d d' key :
  committed req ev now row cm d d' -> q_dedup_key req = Some key ->
  t_dedup d' !! key = Some (r_message_id row, r_created_at row).
Proof.
  intros Hc Hk. pose proof (cd_written _ _ _ _ _ _ _ Hc) as Hm. rewrite (mw_dedup _ _ _ _ Hm). simpl.
  unfold claim_key. rewrite Hk, lookup_insert_eq, (mw_id _ _ _ _ Hm), (mw_created _ _ _ _ Hm). done.
Qed.

Lemma committed_row req ev now row cm d d' : committed req ev now row cm d d' -> row ∈ t_messages d'.
Proof. intros Hc. rewrite (mw_messages _ _ _ _ (cd_written _ _ _ _ _ _ _ Hc)). set_solver. Qed.

(** A second send under a claimed key. *)
Lemma create_claimed now ev ret db d req key mid at_ r :
  rows_ok d -> q_dedup_key req = Some key -> t_dedup d !! key = Some (mid, at_) ->
  r ∈ t_messages d -> r_message_id r = mid ->
  let again := create_message_and_commit_atomic now ev ret db d req in
  again.2 = d /\
  (forall out, again.1 = Ok out -> out = duplicate_result (message_from_row now r)) /\
  (is_ok (check_commit_request req) = true -> (forall i, db i = None) -> is_ok again.1 = true).
Proof.
  intros Hr Hk Hd Hin <-. simpl. unfold create_message_and_commit_atomic.
  destruct (check_commit_request req) as [[legacy canonical]|e]; [|done].
  unfold claim_and_write. rewrite Hk, Hd. unfold dedup_row. rewrite Hd. simpl.
  rewrite (row_of_id_unique d r (ro_unique _ Hr) Hin).
  destruct (db 0%nat) eqn:E0; simpl; [by split; [|split; [|intros _ Hn; rewrite Hn in E0]]|].
  destruct (db 1%nat) eqn:E1; simpl; [by split; [|split; [|intros _ Hn; rewrite Hn in E1]]|].
  destruct (db 2%nat) eqn:E2; simpl; [by split; [|split; [|intros _ Hn; rewrite Hn in E2]]|].
  split; [done|]. split; [|done]. by intros ? [= <-].
Qed.
End Executions.

Section TimelineProperties.
Context `{P : ProtocolCrate, Ch : Chrono, Pg : Postgres, Co : !EventCodec}.

(** C1. The timeline has no gaps. In every database reached by sends, events,
    revocations, announcements, key retention and changes of the rest of the
    server, with any statement failing at any point, the commits of a channel
    carry exactly the pts 1, 2, ..., up to the channel's current pts, in commit
    order; event ids are distinct; every message row with a pts has its commit,
    with its id, channel and pts, and message ids are distinct; and the head of
    every channel is the last of these messages. *)
Theorem timeline_gap_free (d : TimelineDb) :
  reachable_timeline d ->
  (forall c, channel_pts d c = seqZ 1 (current_pts_of d c)) /\
  NoDup (cm_id <$> t_log d) /\
  (forall r, r ∈ t_messages d -> r_pts r <> 0 -> exists cm, cm ∈ t_log d /\
     cm_server_msg_id cm = r_message_id r /\ cm_channel_id cm = r_channel_id r /\ cm_pts cm = r_pts r) /\
  NoDup (r_message_id <$> t_messages d) /\
  (forall c ch, t_channels d !! c = Some ch ->
     (tc_head_pts ch, tc_head_id ch) =
       match last (timeline_rows d c) with
       | Some r => (Some (r_pts r), Some (r_message_id r))
       | None => (None, None)
       end).
Proof.
  intros [Hl Hr]%reachable_timeline_ok. split; [apply Hl|]. split; [apply Hl|].
  split; [apply Hr|]. split; apply Hr.
Qed.

(** C3. A send is all or nothing. A message transaction either leaves the
    database exactly as it was and inserts nothing, or adds one message row, one
    commit with the next pts of the channel and one outbox entry, addressed to
    exactly the users who are members of the channel at that moment, of whom
    there is at least one; a successful reply carries that pts. *)
Theorem send_is_atomic (d d' : TimelineDb) now ev ret db (req : AtomicMessageCommitRequest) out :
  reachable_timeline d ->
  create_message_and_commit_atomic now ev ret db d req = (out, d') ->
  (d' = d /\ forall r, out = Ok r -> res_inserted r = false) \/
  (exists row cm,
     t_messages d' = t_messages d ++ [row] /\ t_log d' = t_log d ++ [cm] /\
     r_message_id row = as_i64 (m_message_id (q_message req)) /\
     cm_server_msg_id cm = r_message_id row /\ cm_pts cm = r_pts row /\
     r_pts row = current_pts_of d (as_i64 (m_channel_id (q_message req))) + 1 /\
     is_Some (t_outbox d' !! ev) /\
     (forall u, addressed d' ev u <->
        u ∈ dispatch_recipients d (as_i64 (m_channel_id (q_message req)))) /\
     dispatch_recipients d (as_i64 (m_channel_id (q_message req))) <> ∅ /\
     forall r, out = Ok r -> res_inserted r = true /\ m_pts (res_message r) = Some (r_pts row)).
Proof.
  intros [Hl Hr]%reachable_timeline_ok E. apply create_cases in E as [?|(row & cm & Hc & Hout)]; [by left|right].
  destruct Hc as [Hm Hco Ha _ _ _]. destruct Hco. exists row, cm.
  split; [apply Hm|]. split; [apply Ha|]. split; [apply Hm|]. split; [done|]. split; [done|].
  pose proof (mw_channel _ _ _ _ Hm) as Hch.
  pose proof (la_next _ _ _ _ Ha) as Hn. pose proof (la_users _ _ _ _ Ha) as Hu.
  rewrite co_channel0, Hch in Hn, Hu. rewrite co_pts0 in Hn. split; [done|].
  destruct (la_outbox _ _ _ _ Ha) as (o & Ho & _). rewrite co_id0 in Ho.
  split; [rewrite Ho, lookup_insert_eq; by eexists|]. split.
  - intros u. pose proof (appended_addressed cm _ d d' u Hl Ha) as Hi.
    by rewrite co_id0, co_channel0, Hch in Hi.
  - split.
    + intros He. apply Hu. unfold new_recipients. by rewrite He, elements_empty.
    + intros r Hok. destruct (Hout r Hok) as (? & -> & _). done.
Qed.

(** Sends are exactly once for seven days, even if the reply was lost. Once a
    send under an idempotency key has taken effect, whether or not its reply
    arrived, every repetition of the send within seven days of the message
    changes nothing; if it succeeds it returns the same message id and pts, not
    as a new insertion; and without a database fault it does succeed. *)
Theorem send_exactly_once (d d1 d' : TimelineDb) now ev ret db req out key
    now' ev' ret' db' req' :
  reachable_timeline d -> request_typed req ->
  (forall r, r ∈ t_messages d -> r_message_id r <> as_i64 (m_message_id (q_message req))) ->
  q_dedup_key req = Some key ->
  create_message_and_commit_atomic now ev ret db d req = (out, d1) ->
  d1 <> d \/ (exists r, out = Ok r /\ res_inserted r = true) ->
  rtc (tl_step (fun t => t <= timestamp_millis (m_created_at (q_message req)) + RETENTION_MS)) d1 d' ->
  q_dedup_key req' = Some key ->
  exists pts, pts = current_pts_of d (as_i64 (m_channel_id (q_message req))) + 1 /\
  let again := create_message_and_commit_atomic now' ev' ret' db' d' req' in
  again.2 = d' /\
  (forall r, again.1 = Ok r -> res_inserted r = false /\
     m_message_id (res_message r) = m_message_id (q_message req) /\
     m_pts (res_message r) = Some pts) /\
  (is_ok (check_commit_request req') = true -> (forall i, db' i = None) -> is_ok again.1 = true).
Proof.
  intros [Hl Hr]%reachable_timeline_ok Hu Hf Hk E Heff Hs Hk'.
  apply create_cases in E as [[-> Hno]|(row & cm & Hc & _)].
  { destruct Heff as [?|(r & -> & Hi)]; [done|]. rewrite (Hno r eq_refl) in Hi. done. }
  pose proof (cd_written _ _ _ _ _ _ _ Hc) as Hm. pose proof (cd_commit _ _ _ _ _ _ _ Hc) as Hco.
  assert (log_ok d1 /\ rows_ok d1) as Hok1.
  { split; [by eapply log_ok_committed|]. destruct Hu. by eapply rows_ok_committed. }
  destruct (steps_ok _ _ _ Hs Hok1) as [_ Hr'].
  rewrite <- (mw_created _ _ _ _ Hm) in Hs.
  pose proof (steps_key_kept _ _ _ _ _ Hs (committed_key _ _ _ _ _ _ _ _ Hc Hk)) as Hkey.
  destruct (steps_rows_kept _ _ _ Hs row (committed_row _ _ _ _ _ _ _ Hc)) as (r' & Hin' & S).
  exists (r_pts row). split.
  { rewrite <- (co_pts _ _ _ Hco), <- (mw_channel _ _ _ _ Hm), <- (co_channel _ _ _ Hco).
    apply (la_next _ _ _ _ (cd_log _ _ _ _ _ _ _ Hc)). }
  destruct (create_claimed now' ev' ret' db' d' req' key _ _ r' Hr' Hk' Hkey Hin' (sr_id _ _ S))
    as (Hd & Hdup & Hsucc).
  split; [done|]. split; [|done]. intros r Hok. rewrite (Hdup r Hok). simpl.
  split; [done|]. rewrite (sr_id _ _ S), (mw_id _ _ _ _ Hm), (sr_pts _ _ S), as_u64_as_i64 by apply Hu. done.
Qed.

(** C25. Attachments belong to one message of their uploader. In every reachable
    database a media reference belongs to an existing message, its file is bound
    to that message and was uploaded by the message's sender, so no file is
    referenced by two messages; and a send that references a file its sender may
    not bind changes nothing. (Comments and a test expect copies that are forwarded to
    share the file of the original; the binding refuses them.) *)
Theorem attachments_exclusive (d : TimelineDb) (k : Z * Z * Z) (v : Z * Z) :
  reachable_timeline d -> t_refs d !! k = Some v ->
  (exists r, r ∈ t_messages d /\ r_message_id r = k.1.1 /\
     t_files d !! v.2 = Some (bound_to (as_u64 (r_message_id r)) (r_sender_id r))) /\
  (forall k' v', t_refs d !! k' = Some v' -> v'.2 = v.2 -> k'.1.1 = k.1.1) /\
  (forall now ev ret db req out d' ref,
     create_message_and_commit_atomic now ev ret db d req = (out, d') -> ref ∈ q_refs req ->
     (forall f, t_files d !! as_i64 (mr_file_id ref) = Some f ->
        bindable f (as_i64 (m_sender_id (q_message req))) (u64_to_string (m_message_id (q_message req))) = false) ->
     d' = d /\ forall r, out = Ok r -> res_inserted r = false).
Proof.
  intros [_ Hr]%reachable_timeline_ok Hk. destruct (ro_refs _ Hr k v Hk) as (r & Hin & Hid & _ & Hf).
  split; [by exists r|]. split.
  - intros k' v' Hk' Hv. destruct (ro_refs _ Hr k' v' Hk') as (r' & Hin' & Hid' & _ & Hf').
    rewrite Hv, Hf in Hf'. injection Hf' as _ Hb.
    assert (as_u64 (r_message_id r) = as_u64 (r_message_id r')) as Hu.
    { pose proof (parse_u64_to_string _ (as_u64_is_u64 (r_message_id r))).
      pose proof (parse_u64_to_string _ (as_u64_is_u64 (r_message_id r'))). congruence. }
    rewrite <- Hid, <- Hid'. rewrite <- (as_i64_as_u64_id (r_message_id r)) by by apply (ro_i64 _ Hr).
    rewrite <- (as_i64_as_u64_id (r_message_id r')) by by apply (ro_i64 _ Hr). congruence.
  - intros now ev ret db req out d' ref E Href Hbad.
    apply create_cases in E as [?|(row & cm & Hc & _)]; [done|]. exfalso.
    destruct (mw_files _ _ _ _ (cd_written _ _ _ _ _ _ _ Hc)) as [_ Hin'].
    destruct (Hin' _ (file_id_listed _ _ Href)) as [_ (f & Hf' & Hb)]. simpl in Hf'.
    rewrite (Hbad f Hf') in Hb. done.
Qed.
End TimelineProperties.

(** ** A concrete execution

    Two users with a direct channel; user 1 sends one message with an attachment. *)
Definition demo_protocol : ProtocolCrate := {|
  Json := string; json_object := "{}"; json_eq_dec := String.eq_dec; ContentMessageType := Z; content_type_eq_dec := Z.eq_dec;
  ct_as_u32 := fun z => z; ct_from_u32 := Some; ct_as_str := u64_to_string; ct_text := 0;
  MessagePayload := string; ReactionEvent := unit
|}.
#[local] Existing Instance demo_protocol.
Definition demo_codec : EventCodec := {|
  to_legacy_commit := fun e _ _ => Ok ("text"%string, match e with NewMessage _ p => p | _ => "{}" end);
  encode_fb := fun e => Ok [event_kind e]
|}.
Definition demo_chrono : Chrono := {|
  timestamp := fun z => z / 1000000000; timestamp_millis := fun z => z / 1000000;
  from_timestamp_millis := fun z => Some (z * 1000000)
|}.
Definition demo_postgres : Postgres := {| pg_message := fun _ => "violation"%string |}.
#[local] Existing Instances demo_codec demo_chrono demo_postgres.

Definition demo_tables : TimelineDb :=
  mkTimeline _ ∅ ∅ [] {[ 5 := mkFile 1 (Some "message"%string) None ]} ∅
    {[ 7 := mkTChannel 0 (Some 1) (Some 2) 0 None None ]} ∅ ∅ {[ 1; 2; 9 ]} [] ∅ ∅ ∅.
Definition demo_text (id : Z) : Message :=
  mkMsg _ id 7 1 None (Some 9) "hi" 0 "{}" None 3000000 3000000 false None false None None None.
Definition demo_send (id : Z) : AtomicMessageCommitRequest :=
  mkCommitRequest _ (demo_text id) (Some "client:1:d:9"%string) None [mkMediaRef 5 0 "Original" 0] 1
    (NewMessage 0 "hi") None.
Definition demo_sent := create_message_and_commit_atomic 10 1 7 no_faults demo_tables (demo_send 100).

Lemma demo_initial : no_timeline demo_tables.
Proof.
  split; try done. intros c ch Hc. unfold demo_tables in Hc. simpl in Hc.
  apply lookup_singleton_Some in Hc as [_ <-]. done.
Qed.
Lemma demo_tables_reachable : reachable_timeline demo_tables.
Proof. exists demo_tables. split; [apply demo_initial|apply rtc_refl]. Qed.
Lemma demo_sent_reachable : reachable_timeline demo_sent.2.
Proof.
  exists demo_tables. split; [apply demo_initial|]. apply rtc_once, step_create; [|set_solver].
  unfold request_typed, is_u64. simpl. lia.
Qed.

Lemma demo_inserted : match demo_sent.1 with Ok r => res_inserted r | Err _ => false end = true.
Proof. by vm_compute. Qed.

Lemma timeline_gap_free_witness :
  reachable_timeline demo_sent.2 /\ channel_pts demo_sent.2 7 = [1] /\ current_pts_of demo_sent.2 7 = 1.
Proof.
  split; [apply demo_sent_reachable|].
  destruct (timeline_gap_free demo_sent.2 demo_sent_reachable) as [H _]. split; [rewrite H|]; by vm_compute.
Defined.

Lemma send_is_atomic_witness :
  exists out, demo_sent = (out, demo_sent.2) /\ is_ok out = true /\
  (demo_sent.2 = demo_tables \/ (addressed demo_sent.2 1 2 <-> 2 ∈ dispatch_recipients demo_tables 7)).
Proof.
  exists demo_sent.1. split; [apply surjective_pairing|]. split; [by vm_compute|].
  destruct (send_is_atomic demo_tables demo_sent.2 10 1 7 no_faults (demo_send 100) demo_sent.1
              demo_tables_reachable) as [[-> _]|(row & cm & _ & _ & _ & _ & _ & _ & _ & H & _)].
  - apply surjective_pairing.
  - by left.
  - right. apply (H 2).
Defined.

Lemma send_exactly_once_witness :
  (create_message_and_commit_atomic 11 2 7 no_faults demo_sent.2 (demo_send 101)).2 = demo_sent.2 /\
  is_ok (create_message_and_commit_atomic 11 2 7 no_faults demo_sent.2 (demo_send 101)).1 = true.
Proof.
  destruct (send_exactly_once demo_tables demo_sent.2 demo_sent.2 10 1 7 no_faults (demo_send 100)
              demo_sent.1 "client:1:d:9" 11 2 7 no_faults (demo_send 101)
              demo_tables_reachable) as (p & _ & H1 & _ & H2).
  - unfold request_typed, is_u64. simpl. lia.
  - set_solver.
  - done.
  - apply surjective_pairing.
  - right. destruct demo_sent.1 as [r|e] eqn:E; [exists r; split; [done|]|].
    + pose proof demo_inserted as Hi. rewrite E in Hi. exact Hi.
    + pose proof demo_inserted as Hi. rewrite E in Hi. discriminate Hi.
  - apply rtc_refl.
  - done.
  - split; [exact H1|]. apply H2; [by vm_compute|done].
Defined.

Lemma attachments_exclusive_witness :
  exists r, r_message_id r = 100 /\
    t_files demo_sent.2 !! 5 = Some (bound_to (as_u64 (r_message_id r)) (r_sender_id r)).
Proof.
  assert (t_refs demo_sent.2 !! (100, 0, 0) = Some (3, 5)) as Hk by by vm_compute.
  destruct (attachments_exclusive demo_sent.2 (100, 0, 0) (3, 5) demo_sent_reachable Hk)
    as [(r & _ & Hid & Hf) _].
  by exists r.
Defined.

(** An announcement of the administration API reaches nobody: it is stored and
    reported as sent, but it is not committed, not dispatched and not the head. *)
Definition demo_announced := send_system_message_admin 11 102 no_faults demo_sent.2 7 "joined" 10 "{}".
Example announcement_reaches_nobody :
  demo_announced.1 = Ok (102, 11) /\
  r_message_id <$> t_messages demo_announced.2 = [100; 102] /\
  cm_server_msg_id <$> t_log demo_announced.2 = [100] /\
  size (t_outbox demo_announced.2) = 1%nat /\
  tc_head_id <$> (t_channels demo_announced.2 !! 7) = Some (Some 100).
Proof. vm_compute. done. Qed.
