(* ===== verification/Sync.v ===== *)
(** * Reading the timeline: sync cache and differences

    Models src/src/service/sync/sync_cache.rs (the Redis cache of commits and
    pts), the post-commit cache writer and [handle_get_difference],
    [handle_get_channel_pts] of src/src/service/sync/sync_service.rs, with
    [query_commits] of commit_dao.rs and [get_current_pts] of pts_dao.rs, over the
    commit log of [Timeline.v].

    A sorted set [commit_log:{channel}] is the list of its members by score; a
    member is the commit its JSON text ([CommitText]) encodes, and the f64 score of a pts is
    exact below 2^53. [io i] is the fault of the i-th Redis or database call of an
    operation. *)

From stdpp Require Import base numbers gmap list strings sorting.
From S2P Require Import Prelude Pts Channel Timeline.
Local Open Scope Z_scope.

(** The JSON text serde writes for a commit. *)
Class CommitText `{ProtocolCrate} := { commit_json : ServerCommit -> string }.

Section Sync.
Context `{P : ProtocolCrate, CT : !CommitText}.

#[export] Instance server_commit_eq_dec : EqDecision ServerCommit.
Proof. solve_decision. Defined.

Record SyncCache := mkCache {
  k_commits : gmap Z (list ServerCommit);
  k_pts : gmap Z Z
}.

(** ** The cache *)

(** ZADD: an equal member is kept, a new one goes where its score, and among equal
    scores its text, puts it. *)
Definition zbefore (c x : ServerCommit) : bool :=
  (sc_pts c <? sc_pts x) || ((sc_pts c =? sc_pts x) && String.ltb (commit_json c) (commit_json x)).
Fixpoint zinsert (c : ServerCommit) (l : list ServerCommit) : list ServerCommit :=
  match l with
  | [] => [c]
  | x :: rest => if zbefore c x then c :: l else x :: zinsert c rest
  end.
Definition zadd (c : ServerCommit) (l : list ServerCommit) : list ServerCommit :=
  if decide (c ∈ l) then l else zinsert c l.
(** ZREMRANGEBYRANK 0 -101 keeps the last hundred. *)
Definition ztrim (l : list ServerCommit) : list ServerCommit := drop (length l - 100) l.

Definition cached (k : SyncCache) (channel : Z) : list ServerCommit := default [] (k_commits k !! channel).

Definition cache_commit (io : faults) (k : SyncCache) (c : ServerCommit) : result unit ServerError * SyncCache :=
  let put l := mkCache (<[sc_channel_id c := l]> (k_commits k)) (k_pts k) in
  match io 0%nat with
  | Some e => (Err (Internal e), k)
  | None =>
      let added := zadd c (cached k (sc_channel_id c)) in
      match io 1%nat with
      | Some e => (Err (Internal e), put added)
      | None =>
          match io 2%nat with
          | Some e => (Err (Internal e), put (ztrim added))
          | None => (Ok tt, put (ztrim added))
          end
      end
  end.

Definition query_commits_from_cache (io : faults) (i : nat) (k : SyncCache) (channel last_pts limit : Z)
    : result (option (list ServerCommit)) ServerError :=
  match io i with
  | Some e => Err (Internal ("Failed to query commits from cache: " +:+ e))
  | None =>
      match take (Z.to_nat limit) (filter (fun c => u64_add last_pts 1 <= sc_pts c) (cached k channel)) with
      | [] => Ok None
      | cs => Ok (Some cs)
      end
  end.

Fixpoint batch_cache_commits (io : nat -> faults) (k : SyncCache) (cs : list ServerCommit)
    : result unit ServerError * SyncCache :=
  match cs with
  | [] => (Ok tt, k)
  | c :: rest =>
      match cache_commit (io (length rest)) k c with
      | (Err e, k') => (Err e, k')
      | (Ok _, k') => batch_cache_commits io k' rest
      end
  end.

Definition cache_pts (io : faults) (i : nat) (k : SyncCache) (channel pts : Z)
    : result SyncCache ServerError :=
  match io i with
  | Some e => Err (Internal ("Failed to cache pts: " +:+ e))
  | None => Ok (mkCache (k_commits k) (<[channel := pts]> (k_pts k)))
  end.

(** A failing GET is a miss. *)
Definition get_pts_from_cache (io : faults) (i : nat) (k : SyncCache) (channel : Z) : option Z :=
  match io i with Some _ => None | None => k_pts k !! channel end.

(** [PostCommitCacheWriter]: a full queue drops the commit; a failed write of the
    pts or of the commit is logged and skipped. *)
Definition post_commit_write (queued : bool) (io : faults) (k : SyncCache) (c : ServerCommit) : SyncCache :=
  if queued then
    let k1 := match cache_pts io 3 k (sc_channel_id c) (sc_pts c) with Ok k1 => k1 | Err _ => k end in
    (cache_commit io k1 c).2
  else k.

(** ** The database side *)
Definition get_current_pts (io : faults) (i : nat) (d : TimelineDb) (channel : Z) : result Z ServerError :=
  match io i with
  | Some e => Err (Database ("Failed to get current pts: " +:+ e))
  | None => Ok (default 0 (as_u64 <$> t_pts d !! as_i64 channel))
  end.

Definition commit_of (r : CommitRow) : ServerCommit :=
  mkServerCommit _ (Some (as_u64 (cm_id r))) (as_u64 (cm_pts r)) (as_u64 (cm_server_msg_id r))
    (as_u64 <$> cm_local_message_id r) (as_u64 (cm_channel_id r)) (cm_channel_type r mod 2 ^ 8)
    (cm_message_type r) (cm_content r) (cm_server_timestamp r) (as_u64 (cm_sender_id r))
    (cm_sender_username r) ((fun v => v mod 2 ^ 16) <$> cm_schema_version r) (cm_canonical_event r).

Definition pts_le (a b : CommitRow) : Prop := cm_pts a <= cm_pts b.
#[export] Instance pts_le_dec a b : Decision (pts_le a b).
Proof. unfold pts_le. apply _. Defined.

Definition query_commits (io : faults) (i : nat) (d : TimelineDb) (channel last_pts limit : Z)
    : result (list ServerCommit) ServerError :=
  match io i with
  | Some e => Err (Database ("Failed to query commits: " +:+ e))
  | None =>
      Ok (commit_of <$> take (Z.to_nat limit)
            (merge_sort pts_le
               (filter (fun r => cm_channel_id r = as_i64 channel /\ as_i64 last_pts < cm_pts r) (t_log d))))
  end.

(** ** Differences *)
Record GetDifferenceRequest := mkDifferenceRequest {
  dq_channel_id : Z; dq_last_pts : Z; dq_limit : option Z
}.
Record GetDifferenceResponse := mkDifference {
  dr_commits : list ServerCommit; dr_current_pts : Z; dr_has_more : bool
}.

(** The pts of a channel, from the cache or else from the database, which fills
    the cache. *)
Definition read_pts (io : faults) (d : TimelineDb) (k : SyncCache) (channel : Z)
    : result (Z * SyncCache) ServerError :=
  match get_pts_from_cache io 0 k channel with
  | Some p => Ok (p, k)
  | None =>
      let? p := get_current_pts io 1 d channel in
      let? k' := cache_pts io 2 k channel p in
      Ok (p, k')
  end.

Definition handle_get_channel_pts (io : faults) (d : TimelineDb) (k : SyncCache) (channel : Z)
    : result (Z * SyncCache) ServerError := read_pts io d k channel.

(** The commits of a reply, and those a task is spawned to cache. *)
Definition read_commits (io : faults) (d : TimelineDb) (k : SyncCache) (channel last_pts limit : Z)
    : result (list ServerCommit * list ServerCommit) ServerError :=
  let? hit := query_commits_from_cache io 3 k channel last_pts limit in
  match hit with
  | Some cs =>
      if match cs with c :: _ => sc_pts c =? u64_add last_pts 1 | [] => false end
      then Ok (cs, [])
      else let? rows := query_commits io 4 d channel last_pts limit in Ok (rows, [])
  | None => let? rows := query_commits io 4 d channel last_pts limit in Ok (rows, rows)
  end.

Definition resync {T} (m : string) : result T ServerError := Err (ChannelResyncRequired m).

(** The checks on the commits, and [has_more]. *)
Definition difference_reply (channel last current : Z) (commits : list ServerCommit)
    : result GetDifferenceResponse ServerError :=
  let chan := u64_to_string channel in
  let expected := Z.min u64_max (last + 1) in
  let reply := Ok (mkDifference commits current
                     match list.last commits with Some c => sc_pts c <? current | None => false end) in
  if last <? current then
    match commits with
    | [] => resync ("message history window unavailable: channel=" +:+ chan +:+ " last_pts=" +:+
                    u64_to_string last +:+ " current_pts=" +:+ u64_to_string current)
    | c :: _ =>
        if sc_pts c =? expected then reply
        else resync ("non-contiguous difference: channel=" +:+ chan +:+ " last_pts=" +:+
                     u64_to_string last +:+ " first_pts=" +:+ u64_to_string (sc_pts c) +:+
                     " expected=" +:+ u64_to_string expected)
    end
  else reply.

(** The reply, the cache and the commits to cache in the background. *)
Definition handle_get_difference (io : faults) (d : TimelineDb) (k : SyncCache) (req : GetDifferenceRequest)
    : result GetDifferenceResponse ServerError * SyncCache * list ServerCommit :=
  let limit := default 100 (dq_limit req) in
  let last := dq_last_pts req in
  match read_pts io d k (dq_channel_id req) with
  | Err e => (Err e, k, [])
  | Ok (current, k1) =>
      if current <? last then
        (resync ("client last_pts " +:+ u64_to_string last +:+ " is ahead of server current_pts " +:+
                 u64_to_string current +:+ " for channel " +:+ u64_to_string (dq_channel_id req)), k1, [])
      else
        match read_commits io d k1 (dq_channel_id req) last limit with
        | Err e => (Err e, k1, [])
        | Ok (commits, spawned) =>
            (difference_reply (dq_channel_id req) last current commits, k1, spawned)
        end
  end.

(** ** Server events

    [append_server_event_commit]: the event transaction, then the in-memory
    generator and the cache; a cache failure is reported although the event is
    committed. The generated message id and the sender's name are arguments. The
    spawned dispatch of the event is the dispatch worker's. *)
Context `{Chrono, Postgres, !EventCodec}.

Definition append_server_event_commit (now event_id msg_id : Z) (username : option string)
    (db io : faults) (d : TimelineDb) (k : SyncCache) (g : PtsGenerator.PtsGenerator)
    (channel_id channel_type : Z) (event : CanonicalTimelineEvent) (sender_id : Z)
    : result ServerCommit ServerError * (TimelineDb * SyncCache * PtsGenerator.PtsGenerator) :=
  match append_timeline_event_atomic now event_id db d
          (mkEventRequest _ msg_id channel_id channel_type event sender_id username now) with
  | (Err e, d') => (Err (Database (server_error_display e)), (d', k, g))
  | (Ok c, d') =>
      let g' := PtsGenerator.set_pts g channel_id (sc_pts c) in
      match cache_pts io 3 k channel_id (sc_pts c) with
      | Err e => (Err e, (d', k, g'))
      | Ok k1 =>
          match cache_commit io k1 c with
          | (Err e, k2) => (Err e, (d', k2, g'))
          | (Ok _, k2) => (Ok c, (d', k2, g'))
          end
      end
  end.
End Sync.
