(* ===== verification/SyncFacts.v ===== *)
(** * Theorems on differences

    What the sync cache of [Sync.v] can hold after any execution, and what a
    client learns from a difference. *)

From stdpp Require Import base numbers gmap list strings sorting relations.
From S2P Require Import Prelude Channel Timeline TimelineFacts Sync.
Local Open Scope Z_scope.

(** ** Integer intervals as lists *)
Lemma filter_seqZ a b n : 0 <= n ->
  filter (fun z => b <= z) (seqZ a n) = seqZ (Z.max a b) (a + n - Z.max a b).
Proof.
  intros Hn. pattern n. apply natlike_ind; [| |done]; clear n Hn.
  - replace (a + 0 - Z.max a b) with (Z.min 0 (a - b)) by lia. rewrite !seqZ_nil by lia. done.
  - intros n Hn IH. rewrite <- Z.add_1_r, seqZ_app, filter_app, IH by lia.
    change (seqZ (a + n) 1) with [0 + (a + n)]. rewrite Z.add_0_l, filter_cons, filter_nil.
    case_decide as Hb.
    + replace (a + (n + 1) - Z.max a b) with ((a + n - Z.max a b) + 1) by lia.
      rewrite seqZ_app by lia. f_equal. unfold seqZ. simpl. f_equal. lia.
    + rewrite app_nil_r, !seqZ_nil by lia. done.
Qed.

Lemma take_seqZ m a n : take m (seqZ a n) = seqZ a (Z.of_nat (m `min` Z.to_nat n)).
Proof.
  apply list_eq. intros i. destruct (decide (i < m)%nat) as [Hi|Hi].
  - rewrite lookup_take_lt by done. destruct (decide (i < Z.to_nat n)%nat).
    + rewrite !lookup_seqZ_lt by lia. done.
    + rewrite !lookup_seqZ_ge by lia. done.
  - rewrite lookup_take_ge, lookup_seqZ_ge by lia. done.
Qed.

Section SyncFacts.
Context `{P : ProtocolCrate, Ch : Chrono, Pg : Postgres, Co : !EventCodec, CT : !CommitText}.

(** The commit is in the log. *)
Definition recorded (d : TimelineDb) (c : ServerCommit) : Prop :=
  exists r, r ∈ t_log d /\ cm_channel_id r = as_i64 (sc_channel_id c) /\ cm_pts r = sc_pts c /\
    cm_server_msg_id r = as_i64 (sc_server_msg_id c).

Definition sc_le (a b : ServerCommit) : Prop := sc_pts a <= sc_pts b.

Record cache_ok (d : TimelineDb) (k : SyncCache) : Prop := {
  co_recorded : forall ch c, c ∈ cached k ch -> sc_channel_id c = ch /\ recorded d c;
  co_sorted : forall ch, StronglySorted sc_le (cached k ch);
  co_pts_bound : forall ch p, k_pts k !! ch = Some p -> 0 <= p <= current_pts_of d (as_i64 ch)
}.

(** Executions of server and cache: the cache writer and the spawned tasks only
    write committed events, and keys expire. *)
Inductive sync_step : TimelineDb * SyncCache -> TimelineDb * SyncCache -> Prop :=
| sync_timeline d d' k : tl_step (fun _ => True) d d' -> sync_step (d, k) (d', k)
| sync_write d k queued io c : recorded d c -> sync_step (d, k) (d, post_commit_write queued io k c)
| sync_batch d k io cs : Forall (recorded d) cs -> sync_step (d, k) (d, (batch_cache_commits io k cs).2)
| sync_read d k io req : is_u64 (dq_channel_id req) ->
    sync_step (d, k) (d, (handle_get_difference io d k req).1.2)
| sync_expire d k k' : k_commits k' ⊆ k_commits k -> k_pts k' ⊆ k_pts k -> sync_step (d, k) (d, k').

Definition empty_cache : SyncCache := mkCache ∅ ∅.
Definition reachable_sync (d : TimelineDb) (k : SyncCache) : Prop :=
  exists d0, no_timeline d0 /\ rtc sync_step (d0, empty_cache) (d, k).

(** ** Sorted sets *)
Lemma zinsert_elem c l x : x ∈ zinsert c l <-> x = c \/ x ∈ l.
Proof.
  induction l as [|y l IH]; simpl; [set_solver|].
  destruct (zbefore c y); rewrite !elem_of_cons, ?IH; [done|]. naive_solver.
Qed.

Lemma zinsert_sorted c l : StronglySorted sc_le l -> StronglySorted sc_le (zinsert c l).
Proof.
  induction 1 as [|y l Hs IH Hf]; simpl; [by repeat constructor|].
  destruct (zbefore c y) eqn:E; unfold zbefore in E.
  - assert (sc_pts c <= sc_pts y) as Hc by (apply orb_true_iff in E as [E|[E _]%andb_true_iff]; lia).
    constructor; [by constructor|]. constructor; [done|].
    eapply Forall_impl; [done|]. unfold sc_le. intros; lia.
  - assert (sc_le y c) by (unfold sc_le; apply orb_false_iff in E as [E _]; lia). constructor; [done|]. apply Forall_forall. intros x [->|Hx]%zinsert_elem; [done|].
    by eapply Forall_forall in Hf.
Qed.

Lemma StronglySorted_sub {A} (R : A -> A -> Prop) l l' :
  l' `sublist_of` l -> StronglySorted R l -> StronglySorted R l'.
Proof.
  induction 1 as [|x l1 l2 Hsub IH|x l1 l2 Hsub IH]; inversion 1; subst; [done| |by apply IH].
  constructor; [by apply IH|]. apply Forall_forall. intros y Hy.
  eapply Forall_forall; [done|]. by eapply elem_of_sublist.
Qed.

(** The members after a write are old ones or the written one, still sorted. *)
Definition cache_write (c : ServerCommit) (k k' : SyncCache) : Prop :=
  k_pts k' = k_pts k /\
  forall ch, (StronglySorted sc_le (cached k ch) -> StronglySorted sc_le (cached k' ch)) /\
    forall x, x ∈ cached k' ch -> x ∈ cached k ch \/ (x = c /\ ch = sc_channel_id c).

Lemma cached_insert k ch l p ch' :
  cached (mkCache (<[ch := l]> (k_commits k)) p) ch' = if decide (ch' = ch) then l else cached k ch'.
Proof.
  unfold cached. simpl. case_decide as E; [subst; by rewrite lookup_insert_eq|by rewrite lookup_insert_ne].
Qed.

Lemma cache_write_list c k l :
  (forall x, x ∈ l -> x = c \/ x ∈ cached k (sc_channel_id c)) ->
  (StronglySorted sc_le (cached k (sc_channel_id c)) -> StronglySorted sc_le l) ->
  cache_write c k (mkCache (<[sc_channel_id c := l]> (k_commits k)) (k_pts k)).
Proof.
  intros Hin Hs. split; [done|]. intros ch. rewrite cached_insert. case_decide as E; [subst|naive_solver].
  split; [done|]. intros x [->|Hx]%Hin; auto.
Qed.

Lemma zadd_spec c l :
  (forall x, x ∈ zadd c l -> x = c \/ x ∈ l) /\
  (StronglySorted sc_le l -> StronglySorted sc_le (zadd c l)).
Proof.
  unfold zadd. case_decide; [naive_solver|]. split; [|apply zinsert_sorted].
  intros x. by rewrite zinsert_elem.
Qed.

Lemma cache_commit_write io k c : cache_write c k (cache_commit io k c).2.
Proof.
  destruct (zadd_spec c (cached k (sc_channel_id c))) as [Hin Hs].
  assert (forall x, x ∈ ztrim (zadd c (cached k (sc_channel_id c))) -> x = c \/ x ∈ cached k (sc_channel_id c))
    as Hin' by (intros x Hx; apply Hin; eapply elem_of_sublist; [apply Hx|apply sublist_drop]).
  assert (StronglySorted sc_le (cached k (sc_channel_id c)) ->
          StronglySorted sc_le (ztrim (zadd c (cached k (sc_channel_id c))))) as Hs'.
  { intros H%Hs. eapply StronglySorted_sub; [|done]. apply sublist_drop. }
  unfold cache_commit. destruct (io 0%nat); [by split; [|split; [|left]]|].
  destruct (io 1%nat); [by apply cache_write_list|].
  destruct (io 2%nat); by apply cache_write_list.
Qed.

(** ** The invariant of the cache *)
Lemma recorded_grows ret d d' c : tl_step ret d d' -> recorded d c -> recorded d' c.
Proof. intros [Hg _]%step_log_grows (r & Hr & ?). exists r. auto. Qed.

Lemma recorded_bound d c : log_ok d -> recorded d c ->
  1 <= sc_pts c <= current_pts_of d (as_i64 (sc_channel_id c)).
Proof.
  intros Hl (r & Hr & Hc & <- & _). destruct (lo_pts _ Hl (as_i64 (sc_channel_id c))) as [H0 Hs].
  assert (cm_pts r ∈ channel_pts d (as_i64 (sc_channel_id c))) as Hm.
  { apply list_elem_of_fmap. exists r. split; [done|]. by apply list_elem_of_filter. }
  rewrite Hs, elem_of_seqZ in Hm. lia.
Qed.

Lemma cache_ok_write d k k' c : cache_ok d k -> recorded d c -> cache_write c k k' -> cache_ok d k'.
Proof.
  intros [Hr Hs Hp] Hc [Ek Hw]. split.
  - intros ch x Hx. destruct (Hw ch) as [_ Hin]. destruct (Hin x Hx) as [?|[-> ->]]; [by apply Hr|done].
  - intros ch. apply Hw, Hs.
  - by rewrite Ek.
Qed.

Lemma cache_ok_pts d k ch p : cache_ok d k -> 0 <= p <= current_pts_of d (as_i64 ch) ->
  cache_ok d (mkCache (k_commits k) (<[ch := p]> (k_pts k))).
Proof.
  intros [Hr Hs Hp] Hb. split; [apply Hr|apply Hs|]. intros ch' p' Hk. simpl in Hk.
  apply lookup_insert_Some in Hk as [[<- <-]|[_ Hk]]; [done|by apply Hp].
Qed.

Lemma current_pts_of_db d io i ch p : log_ok d -> get_current_pts io i d ch = Ok p ->
  p = current_pts_of d (as_i64 ch).
Proof.
  intros Hl. unfold get_current_pts. destruct (io i); [done|]. intros [= <-].
  pose proof (lo_pts _ Hl (as_i64 ch)) as [H0 _]. pose proof (lo_bound _ Hl (as_i64 ch)) as Hb.
  unfold current_pts_of in *. destruct (t_pts d !! as_i64 ch); simpl in *; [|done].
  unfold as_u64. apply Z.mod_small. lia.
Qed.

Lemma read_pts_ok io d k ch p k' : log_ok d -> cache_ok d k -> read_pts io d k ch = Ok (p, k') ->
  cache_ok d k' /\ k_commits k' = k_commits k /\ 0 <= p <= current_pts_of d (as_i64 ch).
Proof.
  intros Hl Hk. unfold read_pts, get_pts_from_cache, cache_pts.
  assert (forall q, k_pts k !! ch = Some q -> Ok (E:=ServerError) (q, k) = Ok (p, k') ->
    cache_ok d k' /\ k_commits k' = k_commits k /\ 0 <= p <= current_pts_of d (as_i64 ch)) as Hhit.
  { intros q Hq [= <- <-]. split; [done|]. split; [done|]. by eapply co_pts_bound. }
  assert ((let? q := get_current_pts io 1 d ch in
           let? k' := match io 2%nat with
                      | Some e => Err (Internal ("Failed to cache pts: " +:+ e))
                      | None => Ok (mkCache (k_commits k) (<[ch := q]> (k_pts k)))
                      end in Ok (q, k')) = Ok (p, k') ->
    cache_ok d k' /\ k_commits k' = k_commits k /\ 0 <= p <= current_pts_of d (as_i64 ch)) as Hmiss.
  { destruct (get_current_pts io 1 d ch) as [q|] eqn:Eq; [|done].
    apply current_pts_of_db in Eq as ->; [|done]. destruct (io 2%nat); [done|]. intros [= <- <-].
    pose proof (proj1 (lo_pts _ Hl (as_i64 ch))). split; [|split; [done|lia]].
    apply cache_ok_pts; [done|lia]. }
  destruct (io 0%nat); [done|]. destruct (k_pts k !! ch) eqn:E; [by apply Hhit|done].
Qed.

Lemma batch_cache_ok d io cs : forall k, cache_ok d k -> Forall (recorded d) cs ->
  cache_ok d (batch_cache_commits io k cs).2.
Proof.
  induction cs as [|c cs IH]; intros k Hk Hc; simpl; [done|]. inversion Hc; subst.
  pose proof (cache_commit_write (io (length cs)) k c) as Hw.
  destruct (cache_commit (io (length cs)) k c) as [[t|e] k']; simpl in *.
  - apply IH; [by eapply cache_ok_write|done].
  - by eapply cache_ok_write.
Qed.

Lemma post_commit_ok d k queued io c : log_ok d -> cache_ok d k -> recorded d c ->
  cache_ok d (post_commit_write queued io k c).
Proof.
  intros Hl Hk Hc. unfold post_commit_write. destruct queued; [|done].
  eapply cache_ok_write; [|done|apply cache_commit_write]. unfold cache_pts. destruct (io 3%nat); [done|].
  apply cache_ok_pts; [done|]. pose proof (recorded_bound d c Hl Hc). lia.
Qed.

Lemma cached_subset k k' ch : k_commits k' ⊆ k_commits k -> cached k' ch = cached k ch \/ cached k' ch = [].
Proof.
  intros Hs. unfold cached. destruct (k_commits k' !! ch) as [l|] eqn:E; [left|by right].
  by rewrite (lookup_weaken _ _ _ _ E Hs).
Qed.

Lemma sync_step_ok s s' : sync_step s s' -> (log_ok s.1 /\ rows_ok s.1) /\ cache_ok s.1 s.2 ->
  (log_ok s'.1 /\ rows_ok s'.1) /\ cache_ok s'.1 s'.2.
Proof.
  intros Hs [Hok Hk]. destruct Hs as [d d' k Ht|d k q io c Hc|d k io cs Hc|d k io req Hu|d k k' Hc Hp];
    simpl in *; (split; [by try by eapply step_ok|]).
  - pose proof (step_log_grows _ _ _ Ht) as [_ Hg]. destruct Hk as [Hr Hs Hp]. split; [|done|].
    + intros ch c Hc. destruct (Hr ch c Hc). split; [done|]. by eapply recorded_grows.
    + intros ch p Hp'. specialize (Hp ch p Hp'). specialize (Hg (as_i64 ch) (proj1 Hok)). lia.
  - apply post_commit_ok; [apply Hok|done..].
  - by apply batch_cache_ok.
  - unfold handle_get_difference. destruct (read_pts io d k (dq_channel_id req)) as [[p k1]|] eqn:E; [|done].
    apply read_pts_ok in E as (? & _); [|apply Hok|done].
    destruct (p <? _); [done|]. by destruct (read_commits _ _ _ _ _ _) as [[??]|].
  - destruct Hk as [Hr Hs Hb]. split.
    + intros ch c Hin. destruct (cached_subset k k' ch Hc) as [E|E]; rewrite E in Hin; [by apply Hr|set_solver].
    + intros ch. destruct (cached_subset k k' ch Hc) as [-> | ->]; [done|constructor].
    + intros ch p Hk. apply Hb. by eapply lookup_weaken.
Qed.

Lemma reachable_sync_ok d k : reachable_sync d k -> log_ok d /\ cache_ok d k.
Proof.
  intros (d0 & Hn & Hs).
  assert ((log_ok d /\ rows_ok d) /\ cache_ok d k) as [[? _] ?]; [|done].
  remember (d0, empty_cache) as s0 eqn:E0. remember (d, k) as s eqn:E1.
  assert ((log_ok s0.1 /\ rows_ok s0.1) /\ cache_ok s0.1 s0.2) as H0.
  { subst s0. simpl. split; [by apply no_timeline_ok|]. split.
    - intros ch c. unfold cached. simpl. rewrite lookup_empty. set_solver.
    - intros ch. unfold cached. simpl. rewrite lookup_empty. constructor.
    - intros ch p. simpl. by rewrite lookup_empty. }
  clear E0 Hn. assert ((log_ok s.1 /\ rows_ok s.1) /\ cache_ok s.1 s.2) as H1; [|by rewrite E1 in H1].
  induction Hs as [|a b c Hab _ IH]; [done|]. apply IH; [done|]. by eapply sync_step_ok.
Qed.

(** ** The commits of a reply *)
#[local] Instance pts_le_total : Total pts_le.
Proof. intros a b. unfold pts_le. lia. Qed.

Lemma fmap_filter_pts (l : list CommitRow) c last :
  cm_pts <$> filter (fun r => cm_channel_id r = c /\ last < cm_pts r) l =
  filter (fun z => last + 1 <= z) (cm_pts <$> filter (fun r => cm_channel_id r = c) l).
Proof.
  induction l as [|r l IH]; [done|]. rewrite !filter_cons.
  destruct (decide (cm_channel_id r = c)) as [Hc|Hc].
  - rewrite fmap_cons, filter_cons. destruct (decide (last + 1 <= cm_pts r)).
    + rewrite decide_True by (split; [done|lia]). by rewrite fmap_cons, IH.
    + rewrite decide_False by (intros [_ ?]; lia). done.
  - rewrite decide_False by (by intros [? _]). done.
Qed.

Lemma seqZ_sorted a n : StronglySorted Z.le (seqZ a n).
Proof.
  unfold seqZ. eapply (StronglySorted_fmap _ (fun i j => (i <= j)%nat)); [intros; lia|].
  generalize 0%nat. induction (Z.to_nat n) as [|m IH]; intros i; simpl; [constructor|].
  constructor; [apply IH|]. apply Forall_forall. intros x Hx%elem_of_seq. lia.
Qed.

(** The rows of the query are exactly the next ones. *)
Lemma queried_rows d c last : log_ok d -> 0 <= last <= current_pts_of d c ->
  cm_pts <$> merge_sort pts_le (filter (fun r => cm_channel_id r = c /\ last < cm_pts r) (t_log d)) =
  seqZ (last + 1) (current_pts_of d c - last).
Proof.
  intros Hl Hb. destruct (lo_pts _ Hl c) as [H0 Hs].
  apply (Sorted_unique Z.le).
  - eapply Sorted_fmap; [|apply Sorted_merge_sort, _]. done.
  - apply StronglySorted_Sorted, seqZ_sorted.
  - rewrite merge_sort_Permutation, fmap_filter_pts. fold (channel_pts d c).
    rewrite Hs, filter_seqZ by done. replace (Z.max 1 (last + 1)) with (last + 1) by lia.
    by replace (1 + current_pts_of d c - (last + 1)) with (current_pts_of d c - last) by lia.
Qed.

Definition page_of (d : TimelineDb) (ch last : Z) (cs : list ServerCommit) : Prop :=
  forall c, c ∈ cs -> sc_channel_id c = ch /\ recorded d c /\ last < sc_pts c.
Definition next_after (last : Z) (cs : list ServerCommit) : Prop :=
  sc_pts <$> cs = seqZ (last + 1) (Z.of_nat (length cs)).

Lemma logged_commit d r : log_ok d -> r ∈ t_log d ->
  sc_pts (commit_of r) = cm_pts r /\ recorded d (commit_of r).
Proof.
  intros Hl Hr. destruct (lo_i64 _ Hl r Hr) as [Hc Hm]. destruct (lo_pts _ Hl (cm_channel_id r)) as [H0 Hs].
  assert (cm_pts r ∈ channel_pts d (cm_channel_id r)) as Hin.
  { apply list_elem_of_fmap. exists r. split; [done|]. by apply list_elem_of_filter. }
  rewrite Hs, elem_of_seqZ in Hin. pose proof (lo_bound _ Hl (cm_channel_id r)).
  assert (as_u64 (cm_pts r) = cm_pts r) as E by (unfold as_u64; apply Z.mod_small; lia).
  split; [done|]. exists r. simpl. rewrite E, !as_i64_as_u64_id by done. done.
Qed.

Lemma query_commits_page io i d ch last limit cs :
  log_ok d -> is_u64 ch -> 0 <= last <= current_pts_of d (as_i64 ch) ->
  query_commits io i d ch last limit = Ok cs -> page_of d ch last cs /\ next_after last cs.
Proof.
  intros Hl Hu Hb. unfold query_commits. destruct (io i); [done|]. intros [= <-].
  pose proof (lo_bound _ Hl (as_i64 ch)) as Hbd.
  assert (as_i64 last = last) as -> by (unfold as_i64; destruct (Z.ltb_spec last (2 ^ 63)); lia).
  set (rows := merge_sort _ _). pose proof (queried_rows d (as_i64 ch) last Hl Hb) as Hq. fold rows in Hq.
  assert (forall r, r ∈ rows -> r ∈ t_log d /\ cm_channel_id r = as_i64 ch /\ last < cm_pts r) as Hin.
  { intros r. unfold rows. rewrite merge_sort_Permutation. intros [[??]?]%list_elem_of_filter. done. }
  split.
  - intros c (r & -> & Hr)%list_elem_of_fmap.
    apply (elem_of_sublist _ rows) in Hr; [|apply sublist_take]. destruct (Hin r Hr) as (Hlog & Hc & Hp).
    destruct (logged_commit d r Hl Hlog) as [E Hrec]. rewrite E. split; [|done].
    simpl. by rewrite Hc, as_u64_as_i64.
  - unfold next_after. rewrite length_fmap, <- list_fmap_compose.
    assert (sc_pts ∘ commit_of <$> take (Z.to_nat limit) rows = cm_pts <$> take (Z.to_nat limit) rows) as ->.
    { apply list_fmap_ext. intros j r Hj. apply (logged_commit d); [done|]. apply Hin.
      eapply elem_of_sublist; [by eapply list_elem_of_lookup_2|apply sublist_take]. }
    rewrite <- (length_fmap cm_pts), fmap_take, Hq, take_seqZ, length_seqZ. f_equal. lia.
Qed.

(** The cached commits of a channel carry consecutive pts: no hole, and no pts twice. *)
Definition consecutive (cs : list ServerCommit) : Prop :=
  exists a, sc_pts <$> cs = seqZ a (Z.of_nat (length cs)).

Lemma fmap_filter_sc (l : list ServerCommit) b :
  sc_pts <$> filter (fun c => b <= sc_pts c) l = filter (fun z => b <= z) (sc_pts <$> l).
Proof.
  induction l as [|c l IH]; [done|]. rewrite fmap_cons, !filter_cons.
  case_decide; [by rewrite fmap_cons, IH|done].
Qed.

Lemma cached_page_next l last n c rest :
  consecutive l -> take n (filter (fun c => last + 1 <= sc_pts c) l) = c :: rest ->
  sc_pts c = last + 1 -> next_after last (c :: rest).
Proof.
  intros [a Ha] Ht Hc. unfold next_after. rewrite <- Ht, <- (length_fmap sc_pts), fmap_take, fmap_filter_sc, Ha.
  rewrite filter_seqZ, take_seqZ, length_seqZ by lia.
  assert (Z.max a (last + 1) = last + 1) as ->; [|f_equal; lia].
  apply (f_equal (fmap sc_pts)) in Ht. rewrite fmap_take, fmap_filter_sc, Ha, filter_seqZ, take_seqZ in Ht by lia.
  simpl in Ht. apply (f_equal head) in Ht. simpl in Ht. rewrite Hc in Ht.
  rewrite head_lookup in Ht. apply lookup_seqZ in Ht as [Ht _]. lia.
Qed.

Lemma read_commits_page io d k ch last limit cs sp :
  log_ok d -> cache_ok d k -> is_u64 ch -> 0 <= last <= current_pts_of d (as_i64 ch) ->
  read_commits io d k ch last limit = Ok (cs, sp) ->
  page_of d ch last cs /\ (consecutive (cached k ch) -> next_after last cs).
Proof.
  intros Hl Hk Hu Hb. pose proof (lo_bound _ Hl (as_i64 ch)) as Hbd.
  assert (u64_add last 1 = last + 1) as E1 by (apply u64_add_small; lia).
  assert (forall out, (let? rows := query_commits io 4 d ch last limit in Ok (rows, out rows)) = Ok (cs, sp) ->
    page_of d ch last cs /\ (consecutive (cached k ch) -> next_after last cs)) as Hdb.
  { intros out. destruct (query_commits io 4 d ch last limit) as [rows|] eqn:Eq; [|done].
    intros [= <- _]. apply query_commits_page in Eq as [? ?]; done. }
  unfold read_commits, query_commits_from_cache. rewrite E1. destruct (io 3%nat); [done|].
  destruct (take _ _) as [|c rest] eqn:Et; [by apply (Hdb (fun rows => rows))|].
  destruct (Z.eqb_spec (sc_pts c) (last + 1)) as [Hc|Hc]; [|by apply (Hdb (fun _ => []))].
  intros [= <- <-]. split; [|intros; by eapply cached_page_next].
  intros x Hx. rewrite <- Et in Hx. eapply elem_of_sublist in Hx; [|apply sublist_take].
  apply list_elem_of_filter in Hx as [Hp Hin]. destruct (co_recorded _ _ Hk ch x Hin).
  split; [done|]. split; [done|lia].
Qed.

Lemma next_after_last last cs c : next_after last cs -> list.last cs = Some c ->
  sc_pts c = last + Z.of_nat (length cs).
Proof.
  intros Hn Hc. rewrite last_lookup in Hc. pose proof (lookup_lt_Some _ _ _ Hc).
  assert ((sc_pts <$> cs) !! pred (length cs) = Some (sc_pts c)) as Hp by (by rewrite list_lookup_fmap, Hc).
  rewrite Hn in Hp. apply lookup_seqZ in Hp. lia.
Qed.

(** C28. A difference is the timeline. In every reachable state of the server and
    its cache, every commit of a successful difference is a commit of the
    channel, later than what the client has, and the reported pts has been
    reached. When the cached commits of the channel follow one another, with no hole
    and no pts twice, the commits of the reply are exactly the next ones, each once and
    without a gap, and a reply with no more to come brings the client up to the
    reported pts. *)
Theorem difference_is_timeline (io : faults) (d : TimelineDb) (k k' : SyncCache)
    (req : GetDifferenceRequest) (resp : GetDifferenceResponse) (spawned : list ServerCommit) :
  reachable_sync d k -> is_u64 (dq_channel_id req) -> is_u64 (dq_last_pts req) ->
  handle_get_difference io d k req = (Ok resp, k', spawned) ->
  (forall c, c ∈ dr_commits resp -> sc_channel_id c = dq_channel_id req /\ recorded d c /\
     dq_last_pts req < sc_pts c) /\
  dr_current_pts resp <= current_pts_of d (as_i64 (dq_channel_id req)) /\
  (consecutive (cached k (dq_channel_id req)) ->
     sc_pts <$> dr_commits resp = seqZ (dq_last_pts req + 1) (Z.of_nat (length (dr_commits resp))) /\
     (dr_has_more resp = false ->
        dr_current_pts resp <= dq_last_pts req + Z.of_nat (length (dr_commits resp)))).
Proof.
  intros [Hl Hk]%reachable_sync_ok Hu [H0 _]. unfold handle_get_difference.
  destruct (read_pts io d k (dq_channel_id req)) as [[cur k1]|] eqn:Ep; [|done].
  apply read_pts_ok in Ep as (Hk1 & Ec & Hb); [|done..].
  destruct (Z.ltb_spec cur (dq_last_pts req)); [done|].
  destruct (read_commits io d k1 _ _ _) as [[cs sp]|] eqn:Er; [|done].
  intros [= Hrep <- <-]. apply read_commits_page in Er as [Hpage Hnext]; [|done..|lia].
  assert (cached k1 (dq_channel_id req) = cached k (dq_channel_id req)) as Eck by (unfold cached; by rewrite Ec).
  assert (resp = mkDifference cs cur match list.last cs with Some c => sc_pts c <? cur | None => false end /\
          (dq_last_pts req < cur -> cs <> [])) as [-> Hne].
  { unfold difference_reply, resync in Hrep. destruct (Z.ltb_spec (dq_last_pts req) cur).
    - destruct cs as [|c cs']; [done|]. destruct (_ =? _); [|done]. by injection Hrep as <-.
    - injection Hrep as <-. split; [done|lia]. }
  simpl. split; [apply Hpage|]. split; [lia|]. rewrite <- Eck. intros Hcons%Hnext. split; [done|].
  intros Hmore. destruct (list.last cs) as [c|] eqn:El.
  - apply Z.ltb_ge in Hmore. rewrite <- (next_after_last _ _ _ Hcons El). done.
  - apply last_None in El. destruct (decide (dq_last_pts req < cur)); [by apply Hne in El|].
    subst cs. simpl. lia.
Qed.
End SyncFacts.

(** ** A concrete execution

    Three plain messages in the channel of the demonstration tables. *)
#[local] Existing Instances demo_protocol demo_codec demo_chrono demo_postgres.
Definition demo_commit_text : CommitText := {| commit_json := fun c => u64_to_string (sc_pts c) |}.
#[local] Existing Instance demo_commit_text.

Definition plain_send (id : Z) : AtomicMessageCommitRequest :=
  mkCommitRequest _ (demo_text id) None None [] 1 (NewMessage 0 "hi") None.
Definition plain_sent (d : TimelineDb) (id ev : Z) : TimelineDb :=
  (create_message_and_commit_atomic 10 ev 7 no_faults d (plain_send id)).2.
Definition one_sent : TimelineDb := plain_sent demo_tables 100 1.
Definition two_sent : TimelineDb := plain_sent one_sent 101 2.
Definition three_sent : TimelineDb := plain_sent two_sent 102 3.

Lemma plain_step d id ev k : 0 <= id < 2 ^ 63 ->
  forallb (fun r => negb (r_message_id r =? id)) (t_messages d) = true ->
  sync_step (d, k) (plain_sent d id ev, k).
Proof.
  intros Hu Hf. apply sync_timeline. apply step_create.
  - unfold request_typed, is_u64. simpl. lia.
  - intros r Hr. rewrite forallb_forall in Hf. apply list_elem_of_In, Hf, negb_true_iff, Z.eqb_neq in Hr.
    simpl. unfold as_i64. destruct (Z.ltb_spec id (2 ^ 63)); [done|lia].
Qed.

Lemma three_sent_reachable : reachable_sync three_sent empty_cache.
Proof.
  exists demo_tables. split; [apply demo_initial|].
  eapply rtc_l; [apply (plain_step _ 100 1); [lia|by vm_compute]|].
  eapply rtc_l; [apply (plain_step _ 101 2); [lia|by vm_compute]|].
  eapply rtc_l; [apply (plain_step _ 102 3); [lia|by vm_compute]|apply rtc_refl].
Qed.

Definition full_request : GetDifferenceRequest := mkDifferenceRequest 7 0 None.

(** What a client sees of a reply. *)
Definition seen (out : result GetDifferenceResponse ServerError * SyncCache * list ServerCommit)
    : option (list Z * Z * bool) :=
  match out.1.1 with
  | Ok r => Some (sc_pts <$> dr_commits r, dr_current_pts r, dr_has_more r)
  | Err _ => None
  end.

Lemma cold_difference : seen (handle_get_difference no_faults three_sent empty_cache full_request)
  = Some ([1; 2; 3], 3, false).
Proof. vm_compute. reflexivity. Qed.

Lemma difference_is_timeline_witness :
  exists resp k' spawned,
    handle_get_difference no_faults three_sent empty_cache full_request = (Ok resp, k', spawned) /\
    sc_pts <$> dr_commits resp = seqZ 1 (Z.of_nat (length (dr_commits resp))) /\
    3 <= Z.of_nat (length (dr_commits resp)).
Proof.
  pose proof cold_difference as Hs.
  destruct (handle_get_difference no_faults three_sent empty_cache full_request) as [[[resp|e] k'] sp] eqn:E;
    [|discriminate Hs].
  exists resp, k', sp. split; [done|]. injection Hs as _ Hcur Hmore.
  destruct (difference_is_timeline no_faults three_sent empty_cache k' full_request resp sp
              three_sent_reachable) as (_ & _ & H).
  - unfold is_u64. simpl. lia.
  - unfold is_u64. simpl. lia.
  - exact E.
  - destruct H as [H Hend]; [by exists 0|]. split; [exact H|]. specialize (Hend Hmore). simpl in Hend. lia.
Defined.

(** The hypothesis on the cache is needed: when the queue of the cache writer
    drops the second commit, a client that asks from the start gets the first and
    the third, is told there is nothing more, and never sees the second. *)
Definition lossy_cache : SyncCache :=
  foldl (fun k '(queued, c) => post_commit_write queued no_faults k c) empty_cache
    (zip [true; false; true] (commit_of <$> t_log three_sent)).

Example dropped_cache_write_hides_a_commit :
  seen (handle_get_difference no_faults three_sent lossy_cache full_request) = Some ([1; 3], 3, false).
Proof. vm_compute. reflexivity. Qed.

(** So is that no pts is cached twice. The writer of a commit caches it without the
    sender's name, a read of the log caches it with the name; the texts differ, the sorted
    set keeps both, and a reply repeats the pts. *)
Definition named_text : CommitText :=
  {| commit_json := fun c => u64_to_string (sc_pts c) +:+ (if sc_sender_username c then "+" else EmptyString)%string |}.
Definition with_name (c : ServerCommit) : ServerCommit :=
  mkServerCommit _ (sc_event_id c) (sc_pts c) (sc_server_msg_id c) (sc_local_message_id c) (sc_channel_id c) (sc_channel_type c)
    (sc_message_type c) (sc_content c) (sc_server_timestamp c) (sc_sender_id c) (Some "ann"%string) (sc_schema_version c) (sc_canonical_event c).
Definition twice_cache : SyncCache :=
  foldl (fun k c => (cache_commit (CT := named_text) no_faults k c).2) empty_cache
    ((commit_of <$> t_log three_sent) ++ (with_name ∘ commit_of <$> t_log three_sent)).
Example commits_cached_twice_are_repeated :
  seen (handle_get_difference no_faults three_sent twice_cache full_request) = Some ([1; 1; 2; 2; 3; 3], 3, false).
Proof. vm_compute. reflexivity. Qed.
