(* ===== verification/Recall.v ===== *)
(** * Recalling messages

    Models the revocation of src/src/service/message_service.rs: the time window,
    [revoke_message_with_auth], [revoke_message_admin] and their common
    [revoke_message_core] (the row, the unread badges, the committed revocation
    event), with [discount_unread_for_revoked_message] of channel_service.rs.

    The channel service's lookup is a function from channel ids; the event bus,
    the history cache and the offline queues, whose failures are only logged, are
    the list of calls made on them. [DateTime] is nanoseconds; [now] is one
    reading of the clock for the whole operation. *)

From stdpp Require Import base numbers gmap list strings relations.
From S2P Require Import Prelude Pts Channel Timeline TimelineFacts Sync SyncFacts.
Local Open Scope Z_scope.

Definition recall_allowed_by_time (limit_secs now_ts msg_ts : Z) : bool :=
  if limit_secs <=? 0 then true else now_ts - msg_ts <=? limit_secs.

Definition format_recall_timeout_message (limit_secs : Z) : string :=
  if Z.rem limit_secs 3600 =? 0 then
    "消息发送已超过 " +:+ i64_to_string (Z.quot limit_secs 3600) +:+ " 小时，无法撤回"
  else if Z.rem limit_secs 60 =? 0 then
    "消息发送已超过 " +:+ i64_to_string (Z.quot limit_secs 60) +:+ " 分钟，无法撤回"
  else "消息发送已超过 " +:+ i64_to_string limit_secs +:+ " 秒，无法撤回".

(** Unread badges and read cursors, by (user, channel). *)
Record Badges := mkBadges { b_unread : gmap (Z * Z) Z; b_cursor : gmap (Z * Z) Z }.

Definition discount_unread_for_revoked_message (db : faults) (b : Badges)
    (channel_id message_pts sender_id : Z) : result Badges ServerError :=
  match db 0%nat with
  | Some e => Err (Database ("discount unread for revoked message failed channel=" +:+
                     u64_to_string channel_id +:+ ": " +:+ e))
  | None =>
      Ok (mkBadges
        (map_imap (fun k unread =>
           Some (if bool_decide (k.2 = as_i64 channel_id) && negb (k.1 =? as_i64 sender_id) && (0 <? unread)
                    && (default 0 (b_cursor b !! k) <? message_pts)
                 then Z.max 0 (unread - 1) else unread)) (b_unread b)) (b_cursor b))
  end.

(** Best-effort calls on the other services. *)
Inductive notice :=
| PublishRevoked (message_id conversation_id revoker_id : Z)
| HistoryRevoke (message_id revoker_id : Z)
| OfflineRemove (user_id message_id : Z).

Record RevokedMessageSummary := mkSummary {
  s_message_id : Z; s_channel_id : Z; s_channel_type : Z; s_revoker_id : Z; s_revoked_at_ms : Z
}.

(** The wire code of a channel type. *)
Definition channel_type_to_wire_u8 (t : ChannelType) : Z :=
  match t with Direct => 1 | Group => 2 | Room => 3 end.

Section Recall.
Context `{P : ProtocolCrate, Ch : Chrono, Pg : Postgres, Co : !EventCodec, CT : !CommitText}.

(** What the service works on. *)
Record RecallState := mkRecall {
  st_db : TimelineDb;
  st_cache : SyncCache;
  st_pts : PtsGenerator.PtsGenerator;
  st_badges : Badges;
  st_notices : list notice
}.

(** The outside of one call: clock, generated ids, faults and what the channel
    service answers. *)
Record Env := mkEnv {
  env_now : Z;
  env_event_id : Z;
  env_msg_id : Z;
  env_username : option string;
  env_find : faults;
  env_revoke : faults;
  env_badge : faults;
  env_event : faults;
  env_cache : faults;
  env_event_bus : bool;
  env_sync : bool;
  env_channel : Z -> option Channel;
  env_participants : Z -> option (list Z)
}.

Definition map_revoke_error (e : ServerError) : ServerError :=
  match e with
  | NotFound m => NotFound m
  | Validation m => Validation m
  | e => Database ("撤回消息失败: " +:+ server_error_display e)
  end.

Definition revoke_message_core (env : Env) (s : RecallState) (message_id channel_id revoker_id : Z)
    : result RevokedMessageSummary ServerError * RecallState :=
  let now_ms := timestamp_millis (env_now env) in
  match revoke_message now_ms (env_now env) (env_revoke env) (st_db s) message_id revoker_id with
  | (Err e, d1) => (Err (map_revoke_error e), mkRecall d1 (st_cache s) (st_pts s) (st_badges s) (st_notices s))
  | (Ok revoked, d1) =>
      let badges :=
        match m_pts revoked with
        | Some pts =>
            match discount_unread_for_revoked_message (env_badge env) (st_badges s) channel_id pts
                    (m_sender_id revoked) with
            | Ok b => b
            | Err _ => st_badges s
            end
        | None => st_badges s
        end in
      let published := if env_event_bus env then [PublishRevoked message_id channel_id revoker_id] else [] in
      let channel_type :=
        channel_type_to_wire_u8 (default Direct (Channel.channel_type <$> env_channel env channel_id)) in
      let '(d2, k2, g2) :=
        if env_sync env then
          (append_server_event_commit now_ms (env_event_id env) (env_msg_id env) (env_username env)
             (env_event env) (env_cache env) d1 (st_cache s) (st_pts s) channel_id channel_type
             (Revoke message_id revoker_id now_ms) revoker_id).2
        else (d1, st_cache s, st_pts s) in
      let removals := (fun u => OfflineRemove u message_id) <$> default [] (env_participants env channel_id) in
      (Ok (mkSummary message_id channel_id channel_type revoker_id
             (default now_ms (timestamp_millis <$> m_revoked_at revoked))),
       mkRecall d2 k2 g2 badges
         (st_notices s ++ published ++ [HistoryRevoke message_id revoker_id] ++ removals))
  end.

(** Owner or admin of the channel the request names. *)
Definition is_channel_admin (env : Env) (channel_id user_id : Z) : bool :=
  match env_channel env channel_id ≫= (fun c => members c !! user_id) with
  | Some m => match role m with Owner | Admin => true | Member => false end
  | None => false
  end.

(** One recall from its checks to its update, with no other in between: the update does not
    repeat the check that the message is not revoked yet, and two recalls that overlap can
    both succeed. *)
Definition revoke_message_with_auth (recall_time_limit_secs : Z) (env : Env) (s : RecallState)
    (message_id channel_id user_id : Z) : result RevokedMessageSummary ServerError * RecallState :=
  match find_by_id (env_now env) (env_find env) (st_db s) message_id with
  | Err e => (Err (Database ("查询消息失败: " +:+ server_error_display e)), s)
  | Ok None => (Err (NotFound "消息不存在"), s)
  | Ok (Some message) =>
      if m_revoked message then (Err (Validation "消息已被撤回"), s)
      else
        let is_sender := m_sender_id message =? user_id in
        let is_admin := is_channel_admin env channel_id user_id in
        if negb is_sender && negb is_admin then (Err (Forbidden "只有发送者或群管理员可以撤回消息"), s)
        else if is_sender && negb is_admin
                && negb (recall_allowed_by_time recall_time_limit_secs (timestamp (env_now env))
                           (timestamp (m_created_at message)))
        then (Err (Validation (format_recall_timeout_message recall_time_limit_secs)), s)
        else revoke_message_core env s message_id (m_channel_id message) user_id
  end.

Definition revoke_message_admin (env : Env) (s : RecallState) (message_id admin_revoker_id : Z)
    : result RevokedMessageSummary ServerError * RecallState :=
  match find_by_id (env_now env) (env_find env) (st_db s) message_id with
  | Err e => (Err (Database ("查询消息失败: " +:+ server_error_display e)), s)
  | Ok None => (Err (NotFound ("消息 " +:+ u64_to_string message_id +:+ " 不存在")), s)
  | Ok (Some message) =>
      if m_revoked message then (Err (Validation "消息已被撤回"), s)
      else revoke_message_core env s message_id (m_channel_id message) admin_revoker_id
  end.

(** ** Effect of a recall *)
Lemma event_keeps_messages now ev mid name db io d k g ch ty event sender :
  t_messages (append_server_event_commit now ev mid name db io d k g ch ty event sender).2.1.1 = t_messages d.
Proof.
  unfold append_server_event_commit.
  destruct (append_timeline_event_atomic now ev db d _) as [out d'] eqn:E.
  apply append_cases in E as Hc. assert (t_messages d' = t_messages d) as Hm by (destruct Hc as [->|]; naive_solver).
  destruct out as [c|]; [|done]. destruct (cache_pts _ _ _ _ _); [|done].
  by destruct (cache_commit _ _ _) as [[|] ?].
Qed.

Lemma revoke_core_cases env s mid ch user r :
  NoDup (r_message_id <$> t_messages (st_db s)) -> r ∈ t_messages (st_db s) ->
  r_message_id r = as_i64 mid -> r_revoked r = false ->
  let out := revoke_message_core env s mid ch user in
  ((forall i, env_revoke env i = None) -> as_i64 user ∈ t_users (st_db s) -> is_ok out.1 = true) /\
  (is_ok out.1 = false -> out.2 = s) /\
  (is_ok out.1 = true -> t_messages (st_db out.2) =
     revoke_if (timestamp_millis (env_now env)) (as_i64 user) (as_i64 mid) <$> t_messages (st_db s)).
Proof.
  intros Hu Hin Hid Hrev. unfold revoke_message_core, revoke_message, find_by_id.
  rewrite <- Hid, (row_of_id_unique _ _ Hu Hin).
  destruct (env_revoke env 0%nat) eqn:E0; simpl.
  { split; [intros Hn; by rewrite Hn in E0|]. split; [by destruct s|done]. }
  rewrite Hrev. destruct (env_revoke env 1%nat) eqn:E1; simpl.
  { split; [intros Hn; by rewrite Hn in E1|]. split; [by destruct s|done]. }
  case_bool_decide as Hex; simpl; [|by destruct s].
  rewrite Hid. destruct (env_sync env).
  - destruct (append_server_event_commit _ _ _ _ _ _ _ _ _ _ _ _ _) as [o [[d2 k2] g2]] eqn:Ea. simpl.
    split; [done|]. split; [done|]. intros _.
    match type of Ea with append_server_event_commit ?a ?b ?c ?n ?db ?io ?d ?k ?g ?x ?y ?z ?w = _ =>
      pose proof (event_keeps_messages a b c n db io d k g x y z w) as Hm end.
    rewrite Ea in Hm. exact Hm.
  - done.
Qed.

(** When a user may recall a message: the time window for the sender, none for an
    owner or admin of the channel named in the request. *)
Definition may_recall (limit : Z) (env : Env) (r : MessageRow) (channel_id user_id : Z) : Prop :=
  r_revoked r = false /\
  (is_channel_admin env channel_id user_id = true \/
   as_u64 (r_sender_id r) = user_id /\
   recall_allowed_by_time limit (timestamp (env_now env))
     (timestamp (default (env_now env) (from_timestamp_millis (r_created_at r)))) = true).

Lemma with_auth_cases limit env s mid ch user r :
  NoDup (r_message_id <$> t_messages (st_db s)) -> r ∈ t_messages (st_db s) -> r_message_id r = as_i64 mid ->
  let out := revoke_message_with_auth limit env s mid ch user in
  (is_ok out.1 = false /\ out.2 = s /\ (may_recall limit env r ch user -> exists i, env_find env i <> None)) \/
  (may_recall limit env r ch user /\ out = revoke_message_core env s mid (as_u64 (r_channel_id r)) user).
Proof.
  intros Hu Hin Hid. unfold revoke_message_with_auth, find_by_id, may_recall.
  rewrite <- Hid, (row_of_id_unique _ _ Hu Hin).
  destruct (env_find env 0%nat) eqn:E0; simpl.
  { left. split; [done|]. split; [done|]. intros _. exists 0%nat. congruence. }
  destruct (r_revoked r); simpl; [left; naive_solver|].
  destruct (Z.eqb_spec (as_u64 (r_sender_id r)) user) as [Hs|Hs];
    destruct (is_channel_admin env ch user); simpl; try (right; naive_solver).
  - destruct (recall_allowed_by_time _ _ _); simpl; [right; naive_solver|left; naive_solver].
  - left. naive_solver.
Qed.

(** C34. Recalling a message. For a stored message, a recall succeeds only for its
    sender inside the configured time window or, without any limit of time, for an
    owner or admin of the channel the request names, and it does succeed for them when
    the database answers (and knows them as users); a refused recall changes nothing; a successful one marks that message as
    revoked and leaves every other row as it was; and no recall of the message, by
    anyone, that starts after it has ended succeeds or changes anything. *)
Theorem recall_rule (limit : Z) (env : Env) (s : RecallState) (mid ch user : Z) (r : MessageRow) :
  reachable_timeline (st_db s) -> r ∈ t_messages (st_db s) -> r_message_id r = as_i64 mid ->
  let out := revoke_message_with_auth limit env s mid ch user in
  (is_ok out.1 = true -> may_recall limit env r ch user) /\
  (may_recall limit env r ch user -> (forall i, env_find env i = None) ->
     (forall i, env_revoke env i = None) -> as_i64 user ∈ t_users (st_db s) -> is_ok out.1 = true) /\
  (is_ok out.1 = false -> out.2 = s) /\
  (is_ok out.1 = true ->
     t_messages (st_db out.2) =
       revoke_if (timestamp_millis (env_now env)) (as_i64 user) (as_i64 mid) <$> t_messages (st_db s) /\
     forall limit' env' ch' user',
       let again := revoke_message_with_auth limit' env' out.2 mid ch' user' in
       is_ok again.1 = false /\ again.2 = out.2).
Proof.
  intros [_ Hr]%reachable_timeline_ok Hin Hid out. pose proof (ro_unique _ Hr) as Hu.
  destruct (with_auth_cases limit env s mid ch user r Hu Hin Hid) as [(Hno & Hs & Hf)|[Hmay Hout]].
  - fold out in Hno, Hs. rewrite Hno. split; [done|]. split; [|done]. intros Hm Hnf. destruct (Hf Hm) as [i Hi].
    by rewrite Hnf in Hi.
  - fold out in Hout. rewrite Hout.
    destruct (revoke_core_cases env s mid (as_u64 (r_channel_id r)) user r Hu Hin Hid (proj1 Hmay))
      as (Hsucc & Herr & Hrows).
    split; [done|]. split; [auto|]. split; [done|]. intros Hok. specialize (Hrows Hok). split; [done|].
    intros limit' env' ch' user'.
    set (s' := (revoke_message_core env s mid (as_u64 (r_channel_id r)) user).2) in *.
    set (r' := revoke_if (timestamp_millis (env_now env)) (as_i64 user) (as_i64 mid) r).
    assert (r' ∈ t_messages (st_db s')) as Hin' by (rewrite Hrows; apply list_elem_of_fmap; by exists r).
    assert (NoDup (r_message_id <$> t_messages (st_db s'))) as Hu'.
    { rewrite Hrows, <- list_fmap_compose. erewrite list_fmap_ext; [apply Hu|].
      intros i x _. apply (sr_id _ _ (revoke_if_same _ _ _ x)). }
    assert (r_message_id r' = as_i64 mid) as Hid' by (unfold r'; by rewrite (sr_id _ _ (revoke_if_same _ _ _ r))).
    destruct (with_auth_cases limit' env' s' mid ch' user' r' Hu' Hin' Hid') as [(? & ? & _)|[[Hrev _] _]];
      [done|]. unfold r', revoke_if in Hrev. by rewrite decide_True in Hrev.
Qed.
End Recall.

(** ** Concrete recalls

    The demonstration message 100 of user 1 in the direct channel 7 of users 1 and
    2; user 9 owns the unrelated group 8. *)
#[local] Existing Instances demo_protocol demo_codec demo_chrono demo_postgres demo_commit_text.

Definition demo_env : Env :=
  mkEnv 4000000 2 101 None no_faults no_faults no_faults no_faults no_faults true true
    (fun c => if c =? 7 then Some (new_direct 0 7 1 2) else if c =? 8 then Some (new_group 0 8 9 None) else None)
    (fun c => if c =? 7 then Some [1; 2] else None).
Definition demo_state : RecallState :=
  mkRecall demo_sent.2 (mkCache ∅ ∅) PtsGenerator.pts_new (mkBadges {[ (2, 7) := 1 ]} ∅) [].

Lemma demo_row : exists r, r ∈ t_messages (st_db demo_state) /\ r_message_id r = as_i64 100.
Proof. eexists. split; [left|by vm_compute]. Qed.

Lemma recall_rule_witness :
  exists r, may_recall 172800 demo_env r 7 1 /\
    t_messages (st_db (revoke_message_with_auth 172800 demo_env demo_state 100 7 1).2) =
      revoke_if 4 1 100 <$> t_messages (st_db demo_state).
Proof.
  destruct demo_row as (r & Hin & Hid). exists r.
  assert (is_ok (revoke_message_with_auth 172800 demo_env demo_state 100 7 1).1 = true) as Hok by by vm_compute.
  destruct (recall_rule 172800 demo_env demo_state 100 7 1 r demo_sent_reachable Hin Hid)
    as (H1 & _ & _ & H2).
  split; [by apply H1|]. apply (H2 Hok).
Defined.

(** The channel named in the request is not checked against the message's
    channel: the owner of any group recalls a message of a direct channel between
    two strangers. *)
Example owner_of_another_group_recalls :
  is_member (new_direct 0 7 1 2) 9 = false /\
  is_ok (revoke_message_with_auth 172800 demo_env demo_state 100 8 9).1 = true /\
  (r_revoked <$> t_messages (st_db (revoke_message_with_auth 172800 demo_env demo_state 100 8 9).2)) = [true].
Proof. vm_compute. done. Qed.
