(* ===== verification/OfflineQueue.v ===== *)
(** * Offline queues

    Models src/src/service/offline_queue_service.rs with the list pipelines of
    src/src/infra/redis.rs it runs. The Redis lists [offline:{user_id}:messages]
    are a finite map from users to lists, newest message first; an element is the
    push its JSON text encodes.

    A pipeline is a list of commands sent at once and not a transaction: when it
    fails ([pipe_fault]), any prefix of its commands may have run. Expiry of a
    list is the removal of its key at any time. *)

From stdpp Require Import base numbers gmap list strings.
From S2P Require Import Prelude.
Local Open Scope Z_scope.

(** [PushMessageRequest] of the protocol crate; [setting.signal] and the stream
    fields are constants in this server. *)
Record PushMessageRequest := mkPush {
  pm_need_receipt : bool;
  pm_msg_key : string;
  pm_server_message_id : Z;
  pm_message_seq : Z;
  pm_local_message_id : Z;
  pm_timestamp : Z;
  pm_channel_id : Z;
  pm_channel_type : Z;
  pm_message_type : Z;
  pm_topic : string;
  pm_from_uid : Z;
  pm_payload : list Z
}.

#[export] Instance push_eq_dec : EqDecision PushMessageRequest.
Proof. solve_decision. Defined.

(** ** Lists and pipelines *)
Notation queues := (gmap Z (list PushMessageRequest)).
Definition queue_of (q : queues) (user : Z) : list PushMessageRequest := default [] (q !! user).

Inductive list_cmd :=
| LPush (user : Z) (m : PushMessageRequest)
| LTrim (user : Z) (stop : nat)
| Expire (user : Z)
| Del (user : Z).

Definition run_cmd (q : queues) (c : list_cmd) : queues :=
  match c with
  | LPush u m => <[u := m :: queue_of q u]> q
  | LTrim u stop => <[u := take (S stop) (queue_of q u)]> q
  | Expire _ => q
  | Del u => delete u q
  end.
Definition run_cmds (q : queues) (cs : list list_cmd) : queues := foldl run_cmd q cs.

(** The error and how many commands ran nevertheless. *)
Definition pipe_fault := option (string * nat).

Definition run_pipe (f : pipe_fault) (prefix : string) (cs : list list_cmd) (q : queues)
    : result unit string * queues :=
  match f with
  | Some (e, n) => (Err (prefix +:+ e), run_cmds q (take n cs))
  | None => (Ok tt, run_cmds q cs)
  end.

Definition expire_cmd (ttl : Z) (user : Z) : list list_cmd := if 0 <? ttl then [Expire user] else [].

Definition lpush_ltrim_expire (f : pipe_fault) (user : Z) (m : PushMessageRequest) (limit : nat) (ttl : Z)
    (q : queues) : result unit string * queues :=
  match limit with
  | O => (Ok tt, q)
  | S stop =>
      run_pipe f "Redis recent buffer pipeline failed: "
        ([LPush user m; LTrim user stop] ++ expire_cmd ttl user) q
  end.

Definition lpush_many_ltrim_expire (f : pipe_fault) (user : Z) (ms : list PushMessageRequest) (limit : nat)
    (ttl : Z) (q : queues) : result unit string * queues :=
  match ms, limit with
  | [], _ | _, O => (Ok tt, q)
  | _, S stop =>
      run_pipe f "Redis list batch pipeline failed: "
        ((LPush user <$> ms) ++ [LTrim user stop] ++ expire_cmd ttl user) q
  end.

Definition lpush_to_many_ltrim_expire (f : pipe_fault) (users : list Z) (m : PushMessageRequest)
    (limit : nat) (ttl : Z) (q : queues) : result unit string * queues :=
  match users, limit with
  | [], _ | _, O => (Ok tt, q)
  | _, S stop =>
      run_pipe f "Redis multi-key list pipeline failed: "
        (users ≫= fun u => [LPush u m; LTrim u stop] ++ expire_cmd ttl u) q
  end.

(** [values] in the order of LRANGE, newest first. *)
Definition replace_list_ltrim_expire (f : pipe_fault) (user : Z) (values : list PushMessageRequest)
    (limit : nat) (ttl : Z) (q : queues) : result unit string * queues :=
  run_pipe f "Redis list replace pipeline failed: "
    (Del user ::
     match values, limit with
     | [], _ | _, O => []
     | _, S stop => (LPush user <$> reverse values) ++ [LTrim user stop] ++ expire_cmd ttl user
     end) q.

(** LRANGE with its negative indices. *)
Definition lrange {A} (l : list A) (start stop : Z) : list A :=
  let n := Z.of_nat (length l) in
  let from := Z.max 0 (if start <? 0 then n + start else start) in
  let upto := if stop <? 0 then n + stop else stop in
  take (Z.to_nat (upto - from + 1)) (drop (Z.to_nat from) l).

(** ** The service *)
Record OfflineQueueService := mkOfflineQueue { oq_max_size : nat; oq_expire_seconds : Z }.
Definition offline_queue_new : OfflineQueueService := mkOfflineQueue 100 (24 * 3600).
Definition with_max_size (s : OfflineQueueService) (n : nat) := mkOfflineQueue n (oq_expire_seconds s).
Definition with_expire_seconds (s : OfflineQueueService) (secs : Z) :=
  mkOfflineQueue (oq_max_size s) (Z.max secs 0).

Definition wrap_internal (prefix : string) (out : result unit string * queues)
    : result unit ServerError * queues :=
  (match out.1 with Ok _ => Ok tt | Err e => Err (Internal (prefix +:+ e)) end, out.2).

Section Service.
Context (s : OfflineQueueService).

Definition offline_add (f : pipe_fault) (user : Z) (m : PushMessageRequest) (q : queues) :=
  wrap_internal "离线队列写入失败: "
    (lpush_ltrim_expire f user m (oq_max_size s) (oq_expire_seconds s) q).

Definition push_batch (f : pipe_fault) (user : Z) (ms : list PushMessageRequest) (q : queues) :=
  match ms with
  | [] => (Ok tt, q)
  | _ => wrap_internal "离线队列批量写入失败: "
           (lpush_many_ltrim_expire f user ms (oq_max_size s) (oq_expire_seconds s) q)
  end.

Definition add_batch_users (f : pipe_fault) (users : list Z) (m : PushMessageRequest) (q : queues) :=
  match users with
  | [] => (Ok tt, q)
  | _ => wrap_internal "离线队列多用户写入失败: "
           (lpush_to_many_ltrim_expire f users m (oq_max_size s) (oq_expire_seconds s) q)
  end.

Definition get_batch (io : faults) (user start stop : Z) (q : queues)
    : result (list PushMessageRequest) ServerError :=
  match io 0%nat with
  | Some e => Err (Internal ("LRANGE 失败: " +:+ e))
  | None => Ok (lrange (queue_of q user) start stop)
  end.
Definition offline_get_all (io : faults) (user : Z) (q : queues) := get_batch io user 0 (-1) q.

(** The filter by pts is left to the caller. *)
Definition get_by_pts_min (io : faults) (user _min_pts : Z) (q : queues) := offline_get_all io user q.

Definition offline_len (io : faults) (user : Z) (q : queues) : result nat ServerError :=
  match io 0%nat with
  | Some e => Err (Internal ("LLEN 失败: " +:+ e))
  | None => Ok (length (queue_of q user))
  end.
Definition offline_is_empty (io : faults) (user : Z) (q : queues) : result bool ServerError :=
  let? n := offline_len io user q in Ok (n =? 0)%nat.

Definition offline_clear (io : faults) (user : Z) (q : queues) : result unit ServerError * queues :=
  match io 0%nat with
  | Some e => (Err (Internal ("DEL 失败: " +:+ e)), q)
  | None => (Ok tt, delete user q)
  end.

Definition remove_message_by_id (io : faults) (f : pipe_fault) (user message_id : Z) (q : queues)
    : result bool ServerError * queues :=
  match io 0%nat with
  | Some e => (Err (Internal ("LRANGE 失败: " +:+ e)), q)
  | None =>
      let values := lrange (queue_of q user) 0 (-1) in
      let kept := filter (fun m => pm_server_message_id m <> message_id) values in
      if existsb (fun m => pm_server_message_id m =? message_id) values then
        let out := wrap_internal "离线队列重建失败: "
                     (replace_list_ltrim_expire f user kept (oq_max_size s) (oq_expire_seconds s) q) in
        (let? _ := out.1 in Ok true, out.2)
      else (Ok false, q)
  end.
End Service.

(** ** Facts *)
Lemma queue_of_insert q u v l : queue_of (<[u := l]> q) v = if decide (v = u) then l else queue_of q v.
Proof.
  unfold queue_of. case_decide as E; [subst; by rewrite lookup_insert_eq|by rewrite lookup_insert_ne].
Qed.
Lemma queue_of_delete q u v : queue_of (delete u q) v = if decide (v = u) then [] else queue_of q v.
Proof.
  unfold queue_of. case_decide as E; [subst; by rewrite lookup_delete_eq|by rewrite lookup_delete_ne].
Qed.

Lemma run_cmds_app q cs cs' : run_cmds q (cs ++ cs') = run_cmds (run_cmds q cs) cs'.
Proof. unfold run_cmds. by rewrite foldl_app. Qed.
Lemma run_expire q ttl u : run_cmds q (expire_cmd ttl u) = q.
Proof. unfold expire_cmd. by destruct (0 <? ttl). Qed.

Lemma run_pushes q u ms v :
  queue_of (run_cmds q (LPush u <$> ms)) v =
    if decide (v = u) then reverse ms ++ queue_of q u else queue_of q v.
Proof.
  revert q. induction ms as [|m ms IH]; intros q; [by case_decide; subst|].
  rewrite fmap_cons. change (run_cmds q (LPush u m :: ?l)) with (run_cmds (run_cmd q (LPush u m)) l).
  rewrite IH. simpl. rewrite !queue_of_insert. case_decide; [|done].
  rewrite decide_True by done. by rewrite reverse_cons, <- app_assoc.
Qed.

Lemma run_push_trim q u ms stop ttl v :
  queue_of (run_cmds q ((LPush u <$> ms) ++ [LTrim u stop] ++ expire_cmd ttl u)) v =
    if decide (v = u) then take (S stop) (reverse ms ++ queue_of q u) else queue_of q v.
Proof.
  rewrite !run_cmds_app, run_expire. cbn [run_cmds foldl run_cmd]. fold (run_cmds q (LPush u <$> ms)).
  rewrite queue_of_insert, !run_pushes. case_decide; [|done]. by rewrite decide_True.
Qed.

(** One user's part of a batch. *)
Lemma run_push_one q u m stop ttl v :
  queue_of (run_cmds q ([LPush u m; LTrim u stop] ++ expire_cmd ttl u)) v =
    if decide (v = u) then take (S stop) (m :: queue_of q u) else queue_of q v.
Proof.
  rewrite run_cmds_app, run_expire. simpl. rewrite !queue_of_insert.
  case_decide; [|done]. by rewrite decide_True.
Qed.

Lemma run_push_users users m stop ttl q v : NoDup users ->
  queue_of (run_cmds q (users ≫= fun u => [LPush u m; LTrim u stop] ++ expire_cmd ttl u)) v =
    if decide (v ∈ users) then take (S stop) (m :: queue_of q v) else queue_of q v.
Proof.
  revert q. induction users as [|u users IH]; intros q Hn.
  { by rewrite decide_False by set_solver. }
  apply NoDup_cons in Hn as [Hu Hn]. rewrite bind_cons, run_cmds_app, IH, run_push_one by done.
  destruct (decide (v = u)) as [->|Hne].
  - by rewrite decide_False, decide_True by set_solver.
  - destruct (decide (v ∈ users)); [rewrite decide_True by set_solver|rewrite decide_False by set_solver]; done.
Qed.

Lemma lrange_all {A} (l : list A) : lrange l 0 (-1) = l.
Proof. unfold lrange. simpl. rewrite drop_0. apply take_ge. lia. Qed.

Lemma replace_list_queue user values limit ttl q :
  queue_of (replace_list_ltrim_expire None user values limit ttl q).2 user = take limit values.
Proof.
  unfold replace_list_ltrim_expire, run_pipe. cbn [snd].
  change (run_cmds q (Del user :: ?l)) with (run_cmds (delete user q) l).
  destruct values as [|m values]; [cbn; by rewrite queue_of_delete, decide_True, take_nil|].
  destruct limit as [|stop]; [cbn; by rewrite queue_of_delete, decide_True|].
  by rewrite run_push_trim, decide_True, queue_of_delete, decide_True, app_nil_r, reverse_involutive.
Qed.

(** A history of additions to one user's queue. *)
Definition add_all (s : OfflineQueueService) (user : Z) (ms : list PushMessageRequest) (q : queues) : queues :=
  foldl (fun q m => (offline_add s None user m q).2) q ms.

Lemma offline_add_queue s user m q v : (0 < oq_max_size s)%nat ->
  queue_of (offline_add s None user m q).2 v =
    if decide (v = user) then take (oq_max_size s) (m :: queue_of q user) else queue_of q v.
Proof.
  intros Hpos. unfold offline_add, wrap_internal, lpush_ltrim_expire.
  destruct (oq_max_size s) as [|stop]; [lia|]. apply run_push_one.
Qed.
Lemma add_all_snoc s user ms m q :
  add_all s user (ms ++ [m]) q = (offline_add s None user m (add_all s user ms q)).2.
Proof. unfold add_all. by rewrite foldl_snoc. Qed.

(** The queue is the newest messages first, at most [max_queue_size] of them:
    adding one by one, or as one batch, gives the same queue. *)
Theorem offline_queue_is_recent (s : OfflineQueueService) (user : Z) (ms : list PushMessageRequest) (q : queues) :
  (0 < oq_max_size s)%nat -> (length (queue_of q user) <= oq_max_size s)%nat ->
  queue_of (add_all s user ms q) user = take (oq_max_size s) (reverse ms ++ queue_of q user) /\
  queue_of (push_batch s None user ms q).2 user = take (oq_max_size s) (reverse ms ++ queue_of q user) /\
  (forall v, v <> user -> queue_of (add_all s user ms q) v = queue_of q v).
Proof.
  intros Hpos Hlen. split; [|split].
  - induction ms as [|m ms IH] using rev_ind; [symmetry; by apply take_ge|].
    rewrite add_all_snoc, offline_add_queue, decide_True, IH, reverse_snoc by done.
    destruct (oq_max_size s) as [|stop]; [lia|]. simpl. by rewrite take_take, Nat.min_l by lia.
  - destruct s as [[|stop] ttl]; simpl in Hpos, Hlen; [lia|]. destruct ms as [|m ms]; [simpl; symmetry; by apply take_ge|].
    unfold push_batch, wrap_internal, lpush_many_ltrim_expire. cbn [oq_max_size oq_expire_seconds run_pipe snd].
    by rewrite run_push_trim, decide_True.
  - intros v Hv. induction ms as [|m ms IH] using rev_ind; [done|].
    by rewrite add_all_snoc, offline_add_queue, decide_False.
Qed.

(** Removing a message keeps the others in their order. *)
Theorem offline_remove_exact (s : OfflineQueueService) (user mid : Z) (q : queues) :
  (length (queue_of q user) <= oq_max_size s)%nat ->
  let out := remove_message_by_id s no_faults None user mid q in
  out.1 = Ok (existsb (fun m => pm_server_message_id m =? mid) (queue_of q user)) /\
  queue_of out.2 user = filter (fun m => pm_server_message_id m <> mid) (queue_of q user).
Proof.
  intros Hlen. unfold remove_message_by_id. cbn [no_faults]. rewrite lrange_all.
  assert (forall l : list PushMessageRequest, existsb (fun m => pm_server_message_id m =? mid) l = false ->
    filter (fun m => pm_server_message_id m <> mid) l = l) as Hno.
  { induction l as [|m l IH]; [done|]. simpl. intros [H1%Z.eqb_neq H2]%orb_false_iff.
    rewrite filter_cons_True by done. f_equal. auto. }
  set (l := queue_of q user) in *. set (kept := filter _ l).
  assert (length kept <= oq_max_size s)%nat as Hk by (etrans; [apply length_filter|done]).
  destruct (existsb _ l) eqn:E; cbn [fst snd wrap_internal]; [split; [done|]|split; [done|symmetry; by apply Hno]].
  rewrite replace_list_queue. by apply take_ge.
Qed.
