(* ===== verification/Dispatch.v ===== *)
(** * Delivering committed events

    Models src/src/service/committed_timeline_delivery_service.rs: the outbox
    store (claims with leases and fencing tokens, completions, reconciliation of
    parents, retention) over the dispatch tables of [Timeline.v], and the service
    that resolves claims against the message router and the offline queues, with
    the delivered receipts of message_repo.rs.

    A statement is one step on the tables. [locked] are the rows other
    transactions hold while a statement with SKIP LOCKED runs. As in
    [Timeline.v], fault 0 is an error of the statement and fault 1 says that it
    took effect all the same. Tokens, jitters and clock readings are arguments.
    The router is a function from users and pushes to its result. *)

From stdpp Require Import base numbers gmap list sorting strings.
From S2P Require Import Prelude Channel Timeline OfflineQueue.
Local Open Scope Z_scope.

Definition MAX_ATTEMPTS : Z := 8.
Definition LEASE_DURATION_MS : Z := 30000.
Definition DEFAULT_CHUNK_SIZE : Z := 100.
Definition DISPATCHED_RETENTION_MS : Z := 24 * 60 * 60 * 1000.
Definition DEAD_RETENTION_MS : Z := 7 * 24 * 60 * 60 * 1000.
Definition RETENTION_BATCH_SIZE : Z := 1000.

Definition clamp (x lo hi : Z) : Z := Z.min hi (Z.max lo x).

Inductive DispatchRecipientState := OnlineSent | OfflineQueued | Dead.
Definition recipient_state_code (s : DispatchRecipientState) : Z :=
  match s with OnlineSent => 1 | OfflineQueued => 2 | Dead => 3 end.

Inductive RecipientDeliveryOutcome :=
| OutOnlineSent | OutOfflineQueued | RetryScheduled (error : string) | OutDead (error : string)
| Fenced | CompletionFailed (error : string).

(** Rows ordered by event and user. *)
Definition key_le (a b : Z * Z) : Prop := a.1 < b.1 \/ (a.1 = b.1 /\ a.2 <= b.2).
#[export] Instance key_le_dec a b : Decision (key_le a b).
Proof. unfold key_le. apply _. Defined.

(** What the statement does when it fails or its reply is lost. *)
Definition statement {T} (db : faults) (prefix : string) {D : Type} (d : D) (out : T * D)
    : result T ServerError * D :=
  match db 0%nat with
  | Some e => (Err (Database (prefix +:+ e)), if db 1%nat then out.2 else d)
  | None => (Ok out.1, out.2)
  end.

(** The parts of the protocol crate that turn a commit into a push. *)
Class PushCodec `{ProtocolCrate} := {
  decode_fb : list Z -> result CanonicalTimelineEvent string;
  from_legacy : string -> Json -> Z -> Z -> Z -> result (option CanonicalTimelineEvent) string;
  payload_to_legacy_json : MessagePayload -> result (list Z) string;
  reaction_actor : ReactionEvent -> Z;
  ct_system : ContentMessageType;
  CANONICAL_TIMELINE_PUSH_TOPIC_V1 : string
}.

Section Store.
Context `{P : ProtocolCrate}.

Record ClaimedDispatchRecipient := mkClaimed {
  cl_event_id : Z; cl_user_id : Z; cl_attempts : Z; cl_lease_token : Z; cl_commit : CommitRow
}.
Definition claim_key_of (c : ClaimedDispatchRecipient) : Z * Z := (cl_event_id c, cl_user_id c).

(** ** Claims *)
Definition claimable (now : Z) (event : option Z) (d : TimelineDb) (k : Z * Z) (r : RecipientRow) : bool :=
  (rc_state r =? 0) && (rc_attempts r <? MAX_ATTEMPTS)
  && match t_outbox d !! k.1 with Some o => o_status o =? 0 | None => false end
  && (rc_next_attempt_at r <=? now)
  && match rc_lease_until r with None => true | Some u => u <? now end
  && match event with None => true | Some e => k.1 =? e end.

Definition candidates (now limit : Z) (event : option Z) (locked : Z * Z -> bool) (d : TimelineDb)
    : list (Z * Z) :=
  take (Z.to_nat (clamp limit 1 1000))
    (merge_sort key_le
       ((filter (fun p => claimable now event d p.1 p.2 = true /\ locked p.1 = false)
           (map_to_list (t_recipients d))).*1)).

Definition lease (owner : string) (until token : Z) (r : RecipientRow) : RecipientRow :=
  mkRecipient (rc_state r) (rc_attempts r + 1) (rc_next_attempt_at r) (Some owner) (Some until) token
    (rc_last_error r).
Definition lease_rows (owner : string) (until token : Z) (ks : list (Z * Z))
    (rows : gmap (Z * Z) RecipientRow) : gmap (Z * Z) RecipientRow :=
  map_imap (fun k r => Some (if bool_decide (k ∈ ks) then lease owner until token r else r)) rows.

(** The join of the claimed rows with the commit log. *)
Definition claimed_row (d : TimelineDb) (k : Z * Z) : list ClaimedDispatchRecipient :=
  match t_recipients d !! k with
  | Some r =>
      (fun cm => mkClaimed k.1 k.2 (rc_attempts r) (rc_lease_token r) cm) <$>
        filter (fun cm => cm_id cm = k.1) (t_log d)
  | None => []
  end.

Definition set_recipients (d : TimelineDb) (rows : gmap (Z * Z) RecipientRow) : TimelineDb :=
  set_outbox d (t_outbox d) rows.

Definition claim (now token : Z) (db : faults) (locked : Z * Z -> bool) (owner : string) (limit : Z)
    (event : option Z) (d : TimelineDb) : result (list ClaimedDispatchRecipient) ServerError * TimelineDb :=
  let ks := candidates now limit event locked d in
  let d' := set_recipients d (lease_rows owner (now + LEASE_DURATION_MS) token ks (t_recipients d)) in
  statement db "claim dispatch recipients failed: " d (ks ≫= claimed_row d', d').

Definition claim_pending now token db locked owner limit d := claim now token db locked owner limit None d.
Definition claim_event now token db locked owner event_id d :=
  claim now token db locked owner DEFAULT_CHUNK_SIZE (Some (as_i64 event_id)) d.

(** ** Completions *)
Record DispatchCompletion := mkCompletion {
  dc_claim : ClaimedDispatchRecipient;
  dc_terminal_state : option DispatchRecipientState;
  dc_error_message : option string
}.

Definition retry_backoff_ms (attempts jitter : Z) : Z :=
  let exponent := clamp (Z.max (- 2 ^ 31) (attempts - 1)) 0 30 in
  Z.min (Z.min (2 ^ 63 - 1) (1000 * Z.shiftl 1 exponent)) 30000 + jitter.

Definition completion_values (c : DispatchCompletion) (now jitter : Z) : Z * Z * RecipientDeliveryOutcome :=
  match dc_terminal_state c with
  | Some OnlineSent => (1, now, OutOnlineSent)
  | Some OfflineQueued => (2, now, OutOfflineQueued)
  | Some Dead => (3, now, OutDead (default "dispatch exhausted" (dc_error_message c)))
  | None =>
      if MAX_ATTEMPTS <=? cl_attempts (dc_claim c)
      then (3, now, OutDead (default "dispatch exhausted" (dc_error_message c)))
      else (0, now + retry_backoff_ms (cl_attempts (dc_claim c)) jitter,
            RetryScheduled (default "dispatch failed" (dc_error_message c)))
  end.

(** The input row of the UPDATE that a recipient row joins. *)
Definition matching (cs : list DispatchCompletion) (k : Z * Z) (r : RecipientRow)
    : option DispatchCompletion :=
  if rc_state r =? 0 then
    find (fun c => bool_decide (claim_key_of (dc_claim c) = k) && (cl_lease_token (dc_claim c) =? rc_lease_token r))
      cs
  else None.

Definition completed_row (now : Z) (jitter : Z * Z -> Z) (c : DispatchCompletion) (r : RecipientRow)
    : RecipientRow :=
  let '(state, retry_at, _) := completion_values c now (jitter (claim_key_of (dc_claim c))) in
  mkRecipient state (rc_attempts r) retry_at None None (rc_lease_token r) (dc_error_message c).

Definition complete_rows (now : Z) (jitter : Z * Z -> Z) (cs : list DispatchCompletion)
    (rows : gmap (Z * Z) RecipientRow) : gmap (Z * Z) RecipientRow :=
  map_imap (fun k r => Some (match matching cs k r with
                             | Some c => completed_row now jitter c r | None => r end)) rows.

(** A row counts as updated for every input with its key. *)
Definition outcome_of (now : Z) (jitter : Z * Z -> Z) (cs : list DispatchCompletion) (d : TimelineDb)
    (c : DispatchCompletion) : RecipientDeliveryOutcome :=
  let k := claim_key_of (dc_claim c) in
  match t_recipients d !! k ≫= matching cs k with
  | Some _ => (completion_values c now (jitter k)).2
  | None => Fenced
  end.

Definition complete_many (now : Z) (jitter : Z * Z -> Z) (db : faults) (cs : list DispatchCompletion)
    (d : TimelineDb) : result (list RecipientDeliveryOutcome) ServerError * TimelineDb :=
  match cs with
  | [] => (Ok [], d)
  | _ =>
      statement db "complete dispatch recipients failed: " d
        (outcome_of now jitter cs d <$> cs, set_recipients d (complete_rows now jitter cs (t_recipients d)))
  end.

(** ** Parents *)
Definition recipients_of (d : TimelineDb) (event_id : Z) : list RecipientRow :=
  (filter (fun p => p.1.1 = event_id) (map_to_list (t_recipients d))).*2.
Definition has_state (d : TimelineDb) (event_id state : Z) : bool :=
  existsb (fun r => rc_state r =? state) (recipients_of d event_id).

Definition settleable (d : TimelineDb) (event_id : Z) (o : OutboxRow) : bool :=
  (o_status o =? 0) && negb (has_state d event_id 0).
Definition settle_parent (now : Z) (d : TimelineDb) (event_id : Z) (o : OutboxRow) : OutboxRow :=
  let dead := has_state d event_id 3 in
  mkOutbox (o_channel_id o) (o_channel_type o) (o_pts o) (o_sender_id o) (o_event_kind o)
    (o_membership_version o) (if dead then 2 else 1) (o_created_at o)
    (if dead then o_dispatched_at o else Some (default now (o_dispatched_at o))).

Definition settle (now : Z) (pick : Z -> bool) (d : TimelineDb) : TimelineDb :=
  set_outbox d
    (map_imap (fun ev o => Some (if pick ev && settleable d ev o then settle_parent now d ev o else o))
       (t_outbox d))
    (t_recipients d).
Definition settled_count (pick : Z -> bool) (d : TimelineDb) : Z :=
  Z.of_nat (length (filter (fun p => pick p.1 && settleable d p.1 p.2 = true) (map_to_list (t_outbox d)))).

Definition reconcile_events (now : Z) (db : faults) (event_ids : list Z) (d : TimelineDb)
    : result Z ServerError * TimelineDb :=
  match event_ids with
  | [] => (Ok 0, d)
  | _ =>
      let pick ev := bool_decide (ev ∈ event_ids) in
      statement db "reconcile dispatch events failed: " d (settled_count pick d, settle now pick d)
  end.

Definition terminal_candidates (limit : Z) (locked : Z -> bool) (d : TimelineDb) : list Z :=
  take (Z.to_nat (clamp limit 1 1000))
    (merge_sort Z.le
       ((filter (fun p => settleable d p.1 p.2 = true /\ locked p.1 = false) (map_to_list (t_outbox d))).*1)).
Definition reconcile_terminal_parents (now : Z) (db : faults) (locked : Z -> bool) (limit : Z)
    (d : TimelineDb) : result Z ServerError * TimelineDb :=
  let ids := terminal_candidates limit locked d in
  statement db "reconcile dispatch parents failed: " d
    (Z.of_nat (length ids), settle now (fun ev => bool_decide (ev ∈ ids)) d).

(** [complete]: one completion, then its parent. *)
Definition complete (now : Z) (jitter : Z * Z -> Z) (db db' : faults) (c : DispatchCompletion) (d : TimelineDb)
    : result RecipientDeliveryOutcome ServerError * TimelineDb :=
  match complete_many now jitter db [c] d with
  | (Err e, d1) => (Err e, d1)
  | (Ok outcomes, d1) =>
      match reconcile_events now db' [cl_event_id (dc_claim c)] d1 with
      | (Err e, d2) => (Err e, d2)
      | (Ok _, d2) => (ok_or (list.last outcomes) (Internal "single completion has one outcome"), d2)
      end
  end.

(** ** Retention *)
Definition expired_parent (now : Z) (o : OutboxRow) : bool :=
  ((o_status o =? 1) && (o_created_at o <? now - DISPATCHED_RETENTION_MS))
  || ((o_status o =? 2) && (o_created_at o <? now - DEAD_RETENTION_MS)).
Definition created_le (a b : Z * OutboxRow) : Prop :=
  o_created_at a.2 < o_created_at b.2 \/ (o_created_at a.2 = o_created_at b.2 /\ a.1 <= b.1).
#[export] Instance created_le_dec a b : Decision (created_le a b).
Proof. unfold created_le. apply _. Defined.

Definition expired_ids (now limit : Z) (locked : Z -> bool) (d : TimelineDb) : list Z :=
  (take (Z.to_nat (clamp limit 1 10000))
     (merge_sort created_le
        (filter (fun p => expired_parent now p.2 = true /\ locked p.1 = false) (map_to_list (t_outbox d))))).*1.

(** Recipients go with their parent (ON DELETE CASCADE). *)
Definition delete_parents (ids : list Z) (d : TimelineDb) : TimelineDb :=
  set_outbox d (filter (fun p => p.1 ∉ ids) (t_outbox d)) (filter (fun p => p.1.1 ∉ ids) (t_recipients d)).
Definition cleanup_retained (now : Z) (db : faults) (locked : Z -> bool) (limit : Z) (d : TimelineDb)
    : result Z ServerError * TimelineDb :=
  let ids := expired_ids now limit locked d in
  statement db "cleanup dispatch outbox failed: " d (Z.of_nat (length ids), delete_parents ids d).
End Store.

(** ** The service *)
Section Service.
Context `{P : ProtocolCrate, !EventCodec, !PushCodec}.

Definition claim_event_of (c : ClaimedDispatchRecipient) : result CanonicalTimelineEvent ServerError :=
  let cm := cl_commit c in
  let? canonical :=
    if decide (cm_schema_version cm = Some CANONICAL_TIMELINE_EVENT_SCHEMA_V1) then
      match decode_fb <$> cm_canonical_event cm with
      | None => Ok None
      | Some (Ok e) => Ok (Some e)
      | Some (Err e) => Err (Protocol ("decode canonical event failed: " +:+ e))
      end
    else Ok None in
  match canonical with
  | Some e => Ok e
  | None =>
      match from_legacy (cm_message_type cm) (cm_content cm) (as_u64 (cm_server_msg_id cm))
              (as_u64 (cm_sender_id cm)) (cm_server_timestamp cm) with
      | Ok (Some e) => Ok e
      | _ => Err (Protocol "commit has no mappable timeline event")
      end
  end.

Definition encode_event (prefix : string) (e : CanonicalTimelineEvent) : result (list Z) ServerError :=
  match encode_fb e with Ok b => Ok b | Err m => Err (Protocol (prefix +:+ m)) end.

Definition push_from_claim (c : ClaimedDispatchRecipient) : result PushMessageRequest ServerError :=
  let cm := cl_commit c in
  let? event := claim_event_of c in
  let? parts :=
    match event with
    | NewMessage ty payload =>
        match payload_to_legacy_json payload with
        | Ok bytes => Ok (as_u64 (cm_server_msg_id cm), as_u64 (default 0 (cm_local_message_id cm)),
                          ct_as_u32 ty, EmptyString, as_u64 (cm_sender_id cm), bytes)
        | Err e => Err (Protocol ("encode message payload failed: " +:+ e))
        end
    | Revoke _ revoked_by _ =>
        let? bytes := encode_event "encode revoke event failed: " event in
        Ok (as_u64 (cl_event_id c), 0, ct_as_u32 ct_system, CANONICAL_TIMELINE_PUSH_TOPIC_V1, revoked_by, bytes)
    | ReactionChange r =>
        let? bytes := encode_event "encode reaction event failed: " event in
        Ok (as_u64 (cl_event_id c), 0, ct_as_u32 ct_system, CANONICAL_TIMELINE_PUSH_TOPIC_V1,
            reaction_actor r, bytes)
    end in
  let '(server_message_id, local_message_id, message_type, topic, from_uid, payload) := parts in
  let is_new := match event with NewMessage _ _ => true | _ => false end in
  Ok (mkPush ((cm_channel_type cm =? 1) && is_new)
        (if is_new then "msg_" +:+ i64_to_string (cm_server_msg_id cm)
         else "event_" +:+ i64_to_string (cl_event_id c))
        server_message_id (as_u32 (cm_pts cm)) local_message_id
        (as_u32 (Z.max 0 (Z.quot (cm_server_timestamp cm) 1000))) (as_u64 (cm_channel_id cm))
        (cm_channel_type cm mod 2 ^ 8) message_type topic from_uid payload).

(** [RouteResult], with the first session that acknowledged the push. *)
Record RouteResult := mkRoute { rt_success_count : Z; rt_failed_count : Z; rt_acknowledged : option Z }.

Record ReceiptRow := mkReceipt {
  rp_channel_id : Z; rp_sender_id : Z; rp_recipient_user_id : Z; rp_ack_session_id : Z; rp_delivered_at : Z
}.

(** The first acknowledgement of a direct message by its peer is recorded. *)
Definition receipt_of (d : TimelineDb) (server_message_id recipient session delivered_at : Z)
    : option ReceiptRow :=
  r ← head (filter (fun r => r_message_id r = as_i64 server_message_id) (t_messages d));
  ch ← t_channels d !! r_channel_id r;
  if (tc_type ch =? 0) && negb (r_sender_id r =? as_i64 recipient)
     && (bool_decide (tc_user1 ch = Some (as_i64 recipient)) || bool_decide (tc_user2 ch = Some (as_i64 recipient)))
  then Some (mkReceipt (r_channel_id r) (r_sender_id r) (as_i64 recipient) (as_i64 session) (as_i64 delivered_at))
  else None.

Definition record_direct_delivery_receipt_first_ack (db : faults) (d : TimelineDb)
    (receipts : gmap Z ReceiptRow) (server_message_id recipient session delivered_at : Z)
    : result (option ReceiptRow) ServerError * gmap Z ReceiptRow :=
  match db 0%nat with
  | Some e => (Err (Database ("Failed to record delivery receipt: " +:+ e)), receipts)
  | None =>
      match receipt_of d server_message_id recipient session delivered_at with
      | Some r =>
          match receipts !! as_i64 server_message_id with
          | Some _ => (Ok None, receipts)
          | None => (Ok (Some r), <[as_i64 server_message_id := r]> receipts)
          end
      | None => (Ok None, receipts)
      end
  end.

(** What the service touches besides the tables: receipts, offline queues, and
    the calls on router and event bus. *)
Inductive wire_event :=
| Routed (event_id user_id : Z) (p : PushMessageRequest)
| Enqueued (event_id user_id : Z) (p : PushMessageRequest)
| PublishDelivered (message_id user_id : Z)
| ReceiptPushed (sender_id message_id : Z).

Record Wire := mkWire {
  w_receipts : gmap Z ReceiptRow; w_queues : queues; w_log : list wire_event
}.

(** The outside of one batch. *)
Record DispatchEnv := mkDispatchEnv {
  de_now : Z;
  de_jitter : Z * Z -> Z;
  de_fanout_open : bool;
  de_event_bus : bool;
  de_route : Z -> PushMessageRequest -> result RouteResult string;
  de_receipt_db : faults;
  de_queue : OfflineQueueService;
  de_pipe : Z -> pipe_fault;
  de_complete_db : faults;
  de_reconcile_db : faults
}.

Definition record_and_push_delivered_receipt (env : DispatchEnv) (d : TimelineDb)
    (c : ClaimedDispatchRecipient) (session : Z) (w : Wire) : result unit ServerError * Wire :=
  let msg := as_u64 (cm_server_msg_id (cl_commit c)) in
  if negb (cm_channel_type (cl_commit c) =? 1) then (Ok tt, w)
  else
    match record_direct_delivery_receipt_first_ack (de_receipt_db env) d (w_receipts w) msg
            (as_u64 (cl_user_id c)) session (as_u64 (de_now env)) with
    | (Err e, rs) =>
        (Err (Database ("persist delivered receipt failed for message " +:+
                        i64_to_string (cm_server_msg_id (cl_commit c)) +:+ ": " +:+ server_error_display e)),
         mkWire rs (w_queues w) (w_log w))
    | (Ok None, rs) => (Ok tt, mkWire rs (w_queues w) (w_log w))
    | (Ok (Some r), rs) =>
        (Ok tt, mkWire rs (w_queues w) (w_log w ++ [ReceiptPushed (as_u64 (rp_sender_id r)) msg]))
    end.

Inductive DispatchResolution :=
| Completion (c : DispatchCompletion)
| OfflineCandidate (c : ClaimedDispatchRecipient) (p : PushMessageRequest).

Definition failed (c : ClaimedDispatchRecipient) (e : string) : DispatchResolution :=
  Completion (mkCompletion c None (Some e)).

Definition resolve_online_claim (env : DispatchEnv) (d : TimelineDb) (c : ClaimedDispatchRecipient) (w : Wire)
    : DispatchResolution * Wire :=
  if negb (de_fanout_open env) then (failed c "global fanout semaphore closed", w)
  else
    match push_from_claim c with
    | Err e => (failed c (server_error_display e), w)
    | Ok push =>
        match de_route env (as_u64 (cl_user_id c)) push with
        | Err e => (failed c e, w)
        | Ok route =>
            if 0 <? rt_success_count route then
              let w1 := mkWire (w_receipts w) (w_queues w)
                          (w_log w ++ [Routed (cl_event_id c) (cl_user_id c) push] ++
                           if de_event_bus env
                           then [PublishDelivered (as_u64 (cm_server_msg_id (cl_commit c))) (as_u64 (cl_user_id c))]
                           else []) in
              let '(receipt, w2) :=
                match rt_acknowledged route with
                | Some session => record_and_push_delivered_receipt env d c session w1
                | None => (Ok tt, w1)
                end in
              match receipt with
              | Err e => (failed c (server_error_display e), w2)
              | Ok _ => (Completion (mkCompletion c (Some OnlineSent) None), w2)
              end
            else if 0 <? rt_failed_count route then
              (failed c "one or more local/cross-node routes failed", w)
            else (OfflineCandidate c push, w)
        end
    end.

(** [partition_dispatch_resolutions]: offline candidates by event, each with the
    push of its first claim. *)
Definition add_offline (c : ClaimedDispatchRecipient) (p : PushMessageRequest)
    (m : gmap Z (PushMessageRequest * list ClaimedDispatchRecipient)) :=
  let entry := default (p, []) (m !! cl_event_id c) in
  <[cl_event_id c := (entry.1, entry.2 ++ [c])]> m.
Definition partition_step (acc : list DispatchCompletion * gmap Z (PushMessageRequest * list ClaimedDispatchRecipient))
    (r : DispatchResolution) :=
  match r with
  | Completion c => (acc.1 ++ [c], acc.2)
  | OfflineCandidate c p => (acc.1, add_offline c p acc.2)
  end.
Definition partition_dispatch_resolutions (rs : list DispatchResolution) :=
  foldl partition_step ([], ∅) rs.

Definition resolve_offline_batch (env : DispatchEnv) (event_id : Z) (p : PushMessageRequest)
    (claims : list ClaimedDispatchRecipient) (w : Wire) : list DispatchCompletion * Wire :=
  if negb (de_fanout_open env) then
    ((fun c => mkCompletion c None (Some "global fanout semaphore closed"%string)) <$> claims, w)
  else
    let '(out, q) := add_batch_users (de_queue env) (de_pipe env event_id)
                       ((fun c => as_u64 (cl_user_id c)) <$> claims) p (w_queues w) in
    match out with
    | Ok _ => ((fun c => mkCompletion c (Some OfflineQueued) None) <$> claims,
               mkWire (w_receipts w) q (w_log w ++ ((fun c => Enqueued (cl_event_id c) (cl_user_id c) p) <$> claims)))
    | Err e => ((fun c => mkCompletion c None (Some (server_error_display e))) <$> claims,
                mkWire (w_receipts w) q (w_log w))
    end.

(** The order of a [BTreeMap] on event ids. *)
Definition event_le {A} (a b : Z * A) : Prop := a.1 <= b.1.
#[export] Instance event_le_dec {A} (a b : Z * A) : Decision (event_le a b).
Proof. unfold event_le. apply _. Defined.

(** Threading the wire through a list of tasks. Their order of completion is
    the order of the list. *)
Definition run_all {A B} (f : A -> Wire -> B * Wire) (l : list A) (w : Wire) : list B * Wire :=
  foldl (fun acc a => let '(b, w') := f a acc.2 in (acc.1 ++ [b], w')) ([], w) l.

Record DispatchOutcome := mkOutcome { do_event_id : Z; do_user_id : Z; do_outcome : RecipientDeliveryOutcome }.

(** [dispatch_claims], first half: the online tasks, then the offline batches. *)
Definition resolve_claims (env : DispatchEnv) (claims : list ClaimedDispatchRecipient) (d : TimelineDb) (w : Wire)
    : list DispatchCompletion * Wire :=
  let '(resolutions, w1) := run_all (resolve_online_claim env d) claims w in
  let '(online, offline) := partition_dispatch_resolutions resolutions in
  let '(batches, w2) := run_all (fun '(ev, (p, cs)) => resolve_offline_batch env ev p cs)
                          (merge_sort event_le (map_to_list offline)) w1 in
  (online ++ mjoin batches, w2).

(** Second half: the completions and their parents are written. *)
Definition record_completions (env : DispatchEnv) (completions : list DispatchCompletion) (d : TimelineDb)
    : result (list DispatchOutcome) ServerError * TimelineDb :=
  match complete_many (de_now env) (de_jitter env) (de_complete_db env) completions d with
  | (Err e, d1) => (Err e, d1)
  | (Ok outcomes, d1) =>
      let ids := remove_dups (merge_sort Z.le ((fun c => cl_event_id (dc_claim c)) <$> completions)) in
      let out := zip_with (fun c o => mkOutcome (as_u64 (cl_event_id (dc_claim c)))
                                        (as_u64 (cl_user_id (dc_claim c))) o) completions outcomes in
      match reconcile_events (de_now env) (de_reconcile_db env) ids d1 with
      | (Err e, d2) => (Err e, d2)
      | (Ok _, d2) => (Ok out, d2)
      end
  end.

Definition dispatch_claims (env : DispatchEnv) (claims : list ClaimedDispatchRecipient) (d : TimelineDb) (w : Wire)
    : result (list DispatchOutcome) ServerError * TimelineDb * Wire :=
  let '(completions, w') := resolve_claims env claims d w in
  (record_completions env completions d, w').

(** [dispatch_event]; [permit] is whether one of the eight slots is free. *)
Definition dispatch_event (env : DispatchEnv) (permit : bool) (now token : Z) (db : faults)
    (locked : Z * Z -> bool) (worker : string) (event_id : Z) (d : TimelineDb) (w : Wire)
    : result (list DispatchOutcome) ServerError * TimelineDb * Wire :=
  if permit then
    match claim_event now token db locked worker event_id d with
    | (Err e, d1) => (Err e, d1, w)
    | (Ok claims, d1) => dispatch_claims env claims d1 w
    end
  else (Ok [], d, w).

Definition process_once (env : DispatchEnv) (now token : Z) (db : faults) (locked : Z * Z -> bool)
    (worker : string) (d : TimelineDb) (w : Wire)
    : result (list DispatchOutcome) ServerError * TimelineDb * Wire :=
  match claim_pending now token db locked worker DEFAULT_CHUNK_SIZE d with
  | (Err e, d1) => (Err e, d1, w)
  | (Ok claims, d1) => dispatch_claims env claims d1 w
  end.

(** One turn of the loop of [start]; the two flags say whether the intervals of
    the parent reconciliation and of the retention sweep have elapsed. Failures of
    these are logged only. *)
Definition worker_iteration (env : DispatchEnv) (reconcile_due sweep_due : bool) (db_reconcile db_sweep : faults)
    (parents_locked : Z -> bool) (now token : Z) (db : faults) (locked : Z * Z -> bool) (worker : string)
    (d : TimelineDb) (w : Wire) : result (list DispatchOutcome) ServerError * TimelineDb * Wire :=
  let d1 := if reconcile_due
            then (reconcile_terminal_parents now db_reconcile parents_locked DEFAULT_CHUNK_SIZE d).2 else d in
  let d2 := if sweep_due then (cleanup_retained now db_sweep parents_locked RETENTION_BATCH_SIZE d1).2 else d1 in
  process_once env now token db locked worker d2 w.
End Service.
