(* ===== verification/DispatchFacts.v ===== *)
(** * Theorems on dispatching

    The invariant of the dispatch tables, executions of several workers beside
    the timeline as a step relation, and what delivery guarantees: fencing,
    bounded attempts, nothing recorded as delivered that was not handed over, and
    that a dispatched event reaches everybody it is addressed to. *)

From stdpp Require Import base numbers gmap list sorting strings relations.
From S2P Require Import Prelude Channel Timeline TimelineFacts OfflineQueue Dispatch.
Local Open Scope Z_scope.

(** ** Effects of the statements on the rows *)
Section Rows.
Context `{P : ProtocolCrate}.

Lemma lease_rows_lookup owner until token ks rows k :
  lease_rows owner until token ks rows !! k =
    (fun r => if bool_decide (k ∈ ks) then lease owner until token r else r) <$> rows !! k.
Proof. unfold lease_rows. rewrite map_lookup_imap. by destruct (rows !! k). Qed.

Lemma complete_rows_lookup now jitter cs rows k :
  complete_rows now jitter cs rows !! k =
    (fun r => match matching cs k r with Some c => completed_row now jitter c r | None => r end) <$> rows !! k.
Proof. unfold complete_rows. rewrite map_lookup_imap. by destruct (rows !! k). Qed.

Lemma matching_Some cs k r c : matching cs k r = Some c ->
  rc_state r = 0 /\ c ∈ cs /\ claim_key_of (dc_claim c) = k /\ cl_lease_token (dc_claim c) = rc_lease_token r.
Proof.
  unfold matching. destruct (Z.eqb_spec (rc_state r) 0); [|done]. intros Hf%find_some.
  destruct Hf as [Hin [Hk Ht]%andb_true_iff]. apply bool_decide_eq_true in Hk. apply Z.eqb_eq in Ht.
  split; [done|]. split; [by apply list_elem_of_In|done].
Qed.
Lemma matching_is_Some cs k r c : rc_state r = 0 -> c ∈ cs -> claim_key_of (dc_claim c) = k ->
  cl_lease_token (dc_claim c) = rc_lease_token r -> is_Some (matching cs k r).
Proof.
  intros Hs Hin Hk Ht. unfold matching. rewrite Hs. simpl. destruct (find _ cs) eqn:E; [by eexists|].
  pose proof (find_none _ _ E c) as Hn. rewrite list_elem_of_In in Hin. specialize (Hn Hin).
  simpl in Hn. by rewrite bool_decide_eq_true_2, Ht, Z.eqb_refl in Hn.
Qed.

Lemma completion_state c now j : let '(s, _, _) := completion_values c now j in
  0 <= s <= 3 /\
  match dc_terminal_state c with
  | Some t => s = recipient_state_code t
  | None => s = 0 \/ s = 3
  end.
Proof.
  unfold completion_values. destruct (dc_terminal_state c) as [[| |]|]; simpl; [lia..|].
  destruct (_ <=? _); simpl; lia.
Qed.

Lemma has_state_spec d ev s :
  has_state d ev s = true <-> exists u r, t_recipients d !! (ev, u) = Some r /\ rc_state r = s.
Proof.
  unfold has_state, recipients_of. rewrite existsb_exists. split.
  - intros (r & Hin & Hs%Z.eqb_eq). apply list_elem_of_In, list_elem_of_fmap in Hin as ([[e u] r'] & -> & Hin).
    apply list_elem_of_filter in Hin as [He Hin]. simpl in *. subst. apply elem_of_map_to_list in Hin. eauto.
  - intros (u & r & Hr & Hs). exists r. split; [|by apply Z.eqb_eq].
    apply list_elem_of_In, list_elem_of_fmap. exists ((ev, u), r). split; [done|].
    apply list_elem_of_filter. split; [done|]. by apply elem_of_map_to_list.
Qed.
Lemma has_state_false d ev s :
  has_state d ev s = false <-> forall u r, t_recipients d !! (ev, u) = Some r -> rc_state r <> s.
Proof.
  rewrite <- not_true_iff_false, has_state_spec. naive_solver.
Qed.

Lemma candidates_claimable now limit event locked d k :
  k ∈ candidates now limit event locked d ->
  exists r, t_recipients d !! k = Some r /\ claimable now event d k r = true.
Proof.
  unfold candidates. intros Hk. eapply elem_of_sublist in Hk; [|apply sublist_take].
  rewrite merge_sort_Permutation in Hk. apply list_elem_of_fmap in Hk as ([k' r] & -> & Hin).
  apply list_elem_of_filter in Hin as [[Hc _] Hin]. apply elem_of_map_to_list in Hin. eauto.
Qed.

Lemma claimable_true now event d k r : claimable now event d k r = true ->
  rc_state r = 0 /\ rc_attempts r < MAX_ATTEMPTS /\
  exists o, t_outbox d !! k.1 = Some o /\ o_status o = 0.
Proof.
  unfold claimable. rewrite !andb_true_iff. intros [[[[[H1 H2] H3] _] _] _].
  destruct (t_outbox d !! k.1) as [o|] eqn:E; [|done]. split; [lia|]. split; [lia|]. exists o. split; [done|lia].
Qed.

(** ** The invariant of the dispatch tables *)
Definition parent_ok (d : TimelineDb) (ev : Z) (o : OutboxRow) : Prop :=
  o_status o = 0 \/
  (o_status o = 1 /\ forall u r, t_recipients d !! (ev, u) = Some r -> rc_state r = 1 \/ rc_state r = 2) \/
  (o_status o = 2 /\ (forall u r, t_recipients d !! (ev, u) = Some r -> rc_state r <> 0) /\
     exists u r, t_recipients d !! (ev, u) = Some r /\ rc_state r = 3).

Record dispatch_ok (d : TimelineDb) : Prop := {
  dk_row : forall ev u r, t_recipients d !! (ev, u) = Some r ->
    0 <= rc_state r <= 3 /\ 0 <= rc_attempts r <= MAX_ATTEMPTS /\ is_Some (t_outbox d !! ev);
  dk_parent : forall ev o, t_outbox d !! ev = Some o -> parent_ok d ev o;
  dk_logged : forall ev, is_Some (t_outbox d !! ev) -> ev ∈ cm_id <$> t_log d
}.

(** A change of rows that keeps their states, or touches pending rows only. *)
Lemma dispatch_ok_rows d rows :
  dispatch_ok d ->
  (forall k, match t_recipients d !! k with
             | Some r => exists r', rows !! k = Some r' /\ 0 <= rc_state r' <= 3 /\
                           0 <= rc_attempts r' <= MAX_ATTEMPTS /\ (rc_state r <> 0 -> rc_state r' = rc_state r)
             | None => rows !! k = None
             end) ->
  dispatch_ok (set_recipients d rows).
Proof.
  intros Hd Hrows. split; simpl.
  - intros ev u r' Hr'. specialize (Hrows (ev, u)). destruct (t_recipients d !! (ev, u)) as [r|] eqn:E; [|congruence].
    destruct Hrows as (r2 & Hr2 & ? & ? & _). rewrite Hr' in Hr2. injection Hr2 as <-.
    destruct (dk_row _ Hd _ _ _ E) as (_ & _ & ?). done.
  - intros ev o Ho. unfold parent_ok. simpl.
    assert (forall u r', rows !! (ev, u) = Some r' -> exists r, t_recipients d !! (ev, u) = Some r /\
      (rc_state r <> 0 -> rc_state r' = rc_state r)) as Hback.
    { intros u r' Hr'. specialize (Hrows (ev, u)). destruct (t_recipients d !! (ev, u)) as [r|]; [|congruence].
      destruct Hrows as (r2 & Hr2 & _ & _ & Hs). rewrite Hr' in Hr2. injection Hr2 as <-. eauto. }
    destruct (dk_parent _ Hd ev o Ho) as [H0|[[H1 Hall]|(H2 & Hall & u & r & Hr & H3)]]; [by left|right; left|right; right].
    + split; [done|]. intros u r' (r & Hr & Hs)%Hback. destruct (Hall u r Hr); rewrite Hs; lia.
    + split; [done|]. split.
      * intros u' r' (r0 & Hr0 & Hs)%Hback. pose proof (Hall _ _ Hr0). rewrite Hs; done.
      * specialize (Hrows (ev, u)). rewrite Hr in Hrows. destruct Hrows as (r' & Hr' & _ & _ & Hs).
        exists u, r'. split; [done|]. rewrite Hs; lia.
  - apply (dk_logged _ Hd).
Qed.

Lemma claim_ok now token db locked owner limit event d :
  dispatch_ok d -> dispatch_ok (claim now token db locked owner limit event d).2.
Proof.
  intros Hd. unfold claim, statement.
  set (ks := candidates now limit event locked d).
  assert (dispatch_ok (set_recipients d (lease_rows owner (now + LEASE_DURATION_MS) token ks (t_recipients d)))).
  { apply dispatch_ok_rows; [done|]. intros k. rewrite lease_rows_lookup.
    destruct (t_recipients d !! k) as [r|] eqn:E; [|done]. simpl. eexists. split; [done|].
    destruct k as [ev u]. destruct (dk_row _ Hd _ _ _ E) as (Hs & Ha & _).
    case_bool_decide as Hk; simpl; [|done]. split; [done|]. split; [|done].
    apply candidates_claimable in Hk as (r' & Hr' & Hc). rewrite E in Hr'. injection Hr' as <-.
    apply claimable_true in Hc as (_ & ? & _). lia. }
  destruct (db 0%nat); [|done]. by destruct (db 1%nat).
Qed.

Lemma complete_many_ok now jitter db cs d :
  dispatch_ok d -> dispatch_ok (complete_many now jitter db cs d).2.
Proof.
  intros Hd. unfold complete_many. destruct cs as [|c0 cs0]; [done|]. set (cs := c0 :: cs0).
  unfold statement. assert (dispatch_ok (set_recipients d (complete_rows now jitter cs (t_recipients d)))).
  { apply dispatch_ok_rows; [done|]. intros k. rewrite complete_rows_lookup.
    destruct (t_recipients d !! k) as [r|] eqn:E; [|done]. simpl. eexists. split; [done|].
    destruct k as [ev u]. destruct (dk_row _ Hd _ _ _ E) as (Hs & Ha & _).
    destruct (matching cs (ev, u) r) as [c|] eqn:Em; [|done].
    apply matching_Some in Em as (H0 & _). unfold completed_row.
    pose proof (completion_state c now (jitter (claim_key_of (dc_claim c)))) as Hc.
    destruct (completion_values _ _ _) as [[s at_] o]. simpl. destruct Hc as [? _]. done. }
  destruct (db 0%nat); [|done]. by destruct (db 1%nat).
Qed.

Lemma settle_ok now pick d : dispatch_ok d -> dispatch_ok (settle now pick d).
Proof.
  intros Hd.
  assert (forall ev, is_Some (t_outbox (settle now pick d) !! ev) <-> is_Some (t_outbox d !! ev)) as Hdom.
  { intros ev. unfold settle. simpl. rewrite map_lookup_imap. destruct (t_outbox d !! ev); simpl; [|done].
    split; by eexists. }
  split.
  - intros ev u r Hr. simpl in Hr. destruct (dk_row _ Hd _ _ _ Hr) as (? & ? & ?). split; [done|]. split; [done|].
    by apply Hdom.
  - intros ev o'. unfold settle, parent_ok. simpl. rewrite map_lookup_imap.
    destruct (t_outbox d !! ev) as [o|] eqn:Eo; [|done]. simpl. intros [= <-].
    destruct (pick ev && settleable d ev o) eqn:E; [|by apply (dk_parent _ Hd)].
    apply andb_true_iff in E as [_ [_ Hn%negb_true_iff]%andb_true_iff]. rewrite has_state_false in Hn.
    unfold settle_parent. simpl. destruct (has_state d ev 3) eqn:E3; simpl.
    + apply has_state_spec in E3. right; right. split; [done|]. split; [done|]. done.
    + rewrite has_state_false in E3. right; left. split; [done|]. intros u r Hr.
      destruct (dk_row _ Hd _ _ _ Hr) as (? & _). pose proof (Hn _ _ Hr). pose proof (E3 _ _ Hr). lia.
  - intros ev He%Hdom. by apply (dk_logged _ Hd).
Qed.

Lemma reconcile_events_ok now db ids d : dispatch_ok d -> dispatch_ok (reconcile_events now db ids d).2.
Proof.
  intros Hd. unfold reconcile_events. destruct ids as [|i ids]; [done|]. unfold statement.
  destruct (db 0%nat); [destruct (db 1%nat)|]; simpl; try done; by apply settle_ok.
Qed.
Lemma reconcile_terminal_ok now db locked limit d :
  dispatch_ok d -> dispatch_ok (reconcile_terminal_parents now db locked limit d).2.
Proof.
  intros Hd. unfold reconcile_terminal_parents, statement.
  destruct (db 0%nat); [destruct (db 1%nat)|]; simpl; try done; by apply settle_ok.
Qed.

Lemma delete_parents_ok ids d : dispatch_ok d -> dispatch_ok (delete_parents ids d).
Proof.
  intros Hd. split; simpl.
  - intros ev u r [Hr Hn]%map_lookup_filter_Some. destruct (dk_row _ Hd _ _ _ Hr) as (? & ? & [o Ho]).
    split; [done|]. split; [done|]. exists o. by apply map_lookup_filter_Some.
  - intros ev o [Ho Hn]%map_lookup_filter_Some. simpl in Hn. unfold parent_ok. simpl.
    assert (forall u, filter (fun p : Z * Z * RecipientRow => p.1.1 ∉ ids) (t_recipients d) !! (ev, u) =
      t_recipients d !! (ev, u)) as Heq.
    { intros u. rewrite map_lookup_filter. destruct (t_recipients d !! (ev, u)); simpl; [|done].
      by rewrite option_guard_True. }
    setoid_rewrite Heq. by apply (dk_parent _ Hd).
  - intros ev [o [Ho _]%map_lookup_filter_Some]. apply (dk_logged _ Hd). by exists o.
Qed.
Lemma cleanup_ok now db locked limit d :
  dispatch_ok d -> dispatch_ok (cleanup_retained now db locked limit d).2.
Proof.
  intros Hd. unfold cleanup_retained, statement.
  destruct (db 0%nat); [destruct (db 1%nat)|]; simpl; try done; by apply delete_parents_ok.
Qed.

(** A new event brings pending rows under a pending parent. *)
Lemma add_recipients_Some rows ev now users k r :
  add_recipients rows ev now users !! k = Some r ->
  rows !! k = Some r \/ (k.1 = ev /\ k.2 ∈ users /\ r = mkRecipient 0 0 now None None 0 None).
Proof.
  induction users as [|u us IH]; simpl; [by left|].
  destruct (decide (k = (ev, u))) as [->|Hne].
  - rewrite lookup_insert_eq. intros [= <-]. right. simpl. split; [done|]. split; [set_solver|done].
  - rewrite lookup_insert_ne by done. intros [?|(? & ? & ?)]%IH; [by left|right]. set_solver.
Qed.

Lemma appended_other cm now d d' ev u : log_appended cm now d d' -> ev <> cm_id cm ->
  t_recipients d' !! (ev, u) = t_recipients d !! (ev, u).
Proof.
  intros Ha Hne. rewrite (la_recipients _ _ _ _ Ha).
  destruct (add_recipients _ _ _ _ !! (ev, u)) as [r|] eqn:E.
  - apply add_recipients_Some in E as [->|(? & _)]; [done|]. simpl in *. congruence.
  - symmetry. apply eq_None_not_Some. intros Hs. apply eq_None_not_Some in E. apply E.
    apply add_recipients_lookup. by left.
Qed.

Lemma dispatch_ok_appended cm now d d' :
  dispatch_ok d -> log_appended cm now d d' -> dispatch_ok d'.
Proof.
  intros Hd Ha. destruct (la_outbox _ _ _ _ Ha) as (o & Ho & _ & _ & _ & Hst).
  pose proof (fun ev u => appended_other cm now d d' ev u Ha) as Hother.
  split.
  - intros ev u r. rewrite (la_recipients _ _ _ _ Ha), Ho. intros [Hr|(He & _ & ->)]%add_recipients_Some.
    + destruct (dk_row _ Hd _ _ _ Hr) as (? & ? & ?). split; [done|]. split; [done|].
      apply lookup_insert_is_Some. destruct (decide (cm_id cm = ev)); auto.
    + simpl in *. subst. rewrite lookup_insert_eq. unfold MAX_ATTEMPTS. split; [lia|]. split; [lia|]. by eexists.
  - intros ev o'. rewrite Ho. destruct (decide (ev = cm_id cm)) as [->|Hne].
    + rewrite lookup_insert_eq. intros [= <-]. by left.
    + rewrite lookup_insert_ne by done. intros Ho'. unfold parent_ok. setoid_rewrite (fun u => Hother ev u Hne).
      by apply (dk_parent _ Hd).
  - intros ev. rewrite Ho, (la_log _ _ _ _ Ha), fmap_app, elem_of_app. intros [<-|[_ Hs]]%lookup_insert_is_Some.
    + right. set_solver.
    + left. by apply (dk_logged _ Hd).
Qed.
End Rows.

(** ** Several workers beside the timeline *)
Section Cluster.
Context `{P : ProtocolCrate, Ch : Chrono, Pg : Postgres, Co : !EventCodec, Pc : !PushCodec}.

(** The database, the wire, the claims handed out to workers and the completions
    they have computed. *)
Record Cluster := mkCluster {
  g_db : TimelineDb; g_wire : Wire; g_claims : list ClaimedDispatchRecipient; g_done : list DispatchCompletion
}.

(** A step of the rest of the server, which leaves the dispatch tables alone or
    commits an event. *)
Definition timeline_step (d d' : TimelineDb) : Prop :=
  tl_step (fun _ => True) d d' /\
  ((t_outbox d' = t_outbox d /\ t_recipients d' = t_recipients d) \/ exists cm now, log_appended cm now d d').

Definition claims_of (out : result (list ClaimedDispatchRecipient) ServerError) :=
  match out with Ok cs => cs | Err _ => [] end.
Definition completions_of (r : DispatchResolution) : list DispatchCompletion :=
  match r with Completion c => [c] | OfflineCandidate _ _ => [] end.

(** Claims, resolutions and completions of different workers interleave freely;
    a completion may be written late, twice or never. *)
Inductive cluster_step : Cluster -> Cluster -> Prop :=
| CS_timeline d d' w cl dn : timeline_step d d' -> cluster_step (mkCluster d w cl dn) (mkCluster d' w cl dn)
| CS_claim now token db locked owner limit event d w cl dn :
    let out := claim now token db locked owner limit event d in
    cluster_step (mkCluster d w cl dn) (mkCluster out.2 w (cl ++ claims_of out.1) dn)
| CS_resolve env c d w cl dn : c ∈ cl ->
    let out := resolve_online_claim env d c w in
    cluster_step (mkCluster d w cl dn) (mkCluster d out.2 cl (dn ++ completions_of out.1))
| CS_offline env ev p cs d w cl dn :
    Forall (fun c => c ∈ cl /\ cl_event_id c = ev /\ push_from_claim c = Ok p) cs ->
    let out := resolve_offline_batch env ev p cs w in
    cluster_step (mkCluster d w cl dn) (mkCluster d out.2 cl (dn ++ out.1))
| CS_complete now jitter db cs d w cl dn : Forall (fun c => c ∈ dn) cs ->
    cluster_step (mkCluster d w cl dn) (mkCluster (complete_many now jitter db cs d).2 w cl dn)
| CS_reconcile_events now db ids d w cl dn :
    cluster_step (mkCluster d w cl dn) (mkCluster (reconcile_events now db ids d).2 w cl dn)
| CS_reconcile_parents now db locked limit d w cl dn :
    cluster_step (mkCluster d w cl dn) (mkCluster (reconcile_terminal_parents now db locked limit d).2 w cl dn)
| CS_cleanup now db locked limit d w cl dn :
    cluster_step (mkCluster d w cl dn) (mkCluster (cleanup_retained now db locked limit d).2 w cl dn).

Definition reachable_cluster (g : Cluster) : Prop :=
  exists d w, no_timeline d /\ t_outbox d = ∅ /\ rtc cluster_step (mkCluster d w [] []) g.

(** A push made of the event's commit was given to the router, or to the offline
    queue, for the user. *)
Definition handed_over (mk : Z -> Z -> PushMessageRequest -> wire_event) (g : Cluster) (ev u : Z) : Prop :=
  exists cm p, cm ∈ t_log (g_db g) /\ cm_id cm = ev /\
    push_from_claim (mkClaimed ev u 0 0 cm) = Ok p /\ mk ev u p ∈ w_log (g_wire g).

Record cluster_ok (g : Cluster) : Prop := {
  ck_log : log_ok (g_db g) /\ rows_ok (g_db g);
  ck_dispatch : dispatch_ok (g_db g);
  ck_claims : forall c, c ∈ g_claims g -> cl_commit c ∈ t_log (g_db g) /\ cm_id (cl_commit c) = cl_event_id c;
  ck_count : forall k, Z.of_nat (length (filter (fun c => claim_key_of c = k) (g_claims g))) <=
    match t_recipients (g_db g) !! k with Some r => rc_attempts r | None => MAX_ATTEMPTS end;
  ck_done : forall c, c ∈ g_done g -> dc_claim c ∈ g_claims g /\
    match dc_terminal_state c with
    | Some OnlineSent => handed_over Routed g (cl_event_id (dc_claim c)) (cl_user_id (dc_claim c))
    | Some OfflineQueued => handed_over Enqueued g (cl_event_id (dc_claim c)) (cl_user_id (dc_claim c))
    | Some Dead => False
    | None => True
    end;
  ck_rows : forall ev u r, t_recipients (g_db g) !! (ev, u) = Some r ->
    (rc_state r = 1 -> handed_over Routed g ev u) /\ (rc_state r = 2 -> handed_over Enqueued g ev u)
}.

(** *** Dispatching is a change of the world to the timeline *)
Lemma world_of_dispatch d o rows : dispatch_ok (set_outbox d o rows) -> world_changes d (set_outbox d o rows).
Proof.
  intros Hd. split; try done.
  - intros c. simpl. destruct (t_channels d !! c) eqn:E; [by eexists|congruence].
  - intros ev u [r Hr]. by destruct (dk_row _ Hd _ _ _ Hr) as (_ & _ & ?).
Qed.

(** A statement on the dispatch tables alone. *)
Definition dispatch_write (d d' : TimelineDb) : Prop := exists o rows, d' = set_outbox d o rows.
Lemma dispatch_write_refl d : dispatch_write d d.
Proof. exists (t_outbox d), (t_recipients d). by destruct d. Qed.
Lemma statement_write {T} db prefix d (out : T * TimelineDb) :
  dispatch_write d out.2 -> dispatch_write d (statement db prefix d out).2.
Proof.
  intros H. unfold statement. destruct (db 0%nat); [|done]. destruct (db 1%nat); [done|]. apply dispatch_write_refl.
Qed.

Lemma dispatch_write_log d d' : dispatch_write d d' -> t_log d' = t_log d.
Proof. by intros (o & rows & ->). Qed.

Lemma dispatch_write_timeline d d' :
  dispatch_write d d' -> dispatch_ok d' -> log_ok d /\ rows_ok d -> log_ok d' /\ rows_ok d'.
Proof.
  intros (o & rows & ->) Hd [Hl Hr]. apply world_of_dispatch in Hd.
  split; [by eapply log_ok_world|by eapply rows_ok_world].
Qed.

Lemma handed_over_mono mk d d' w w' cl cl' dn dn' ev u :
  (forall cm, cm ∈ t_log d -> cm ∈ t_log d') -> (exists l, w_log w' = w_log w ++ l) ->
  handed_over mk (mkCluster d w cl dn) ev u -> handed_over mk (mkCluster d' w' cl' dn') ev u.
Proof.
  intros Hl [l Hw] (cm & p & Hcm & He & Hp & Hin). exists cm, p. simpl in *. split; [auto|].
  split; [done|]. split; [done|]. rewrite Hw. set_solver.
Qed.

Lemma push_from_claim_same c c' : cl_event_id c = cl_event_id c' -> cl_commit c = cl_commit c' ->
  push_from_claim c = push_from_claim c'.
Proof. intros E1 E2. unfold push_from_claim, claim_event_of. by rewrite E1, E2. Qed.

(** *** What a claim returns *)
Lemma candidates_NoDup now limit event locked d : NoDup (candidates now limit event locked d).
Proof.
  unfold candidates. eapply sublist_NoDup; [|apply sublist_take]. rewrite merge_sort_Permutation.
  eapply sublist_NoDup; [apply (NoDup_fst_map_to_list (t_recipients d))|].
  apply fmap_sublist, sublist_filter.
Qed.

Lemma claimed_row_elem d k c : c ∈ claimed_row d k ->
  claim_key_of c = k /\ cl_commit c ∈ t_log d /\ cm_id (cl_commit c) = cl_event_id c /\
  exists r, t_recipients d !! k = Some r /\ cl_attempts c = rc_attempts r /\ cl_lease_token c = rc_lease_token r.
Proof.
  unfold claimed_row. destruct (t_recipients d !! k) as [r|] eqn:E; [|set_solver].
  rewrite list_elem_of_fmap. intros (cm & -> & Hin). apply list_elem_of_filter in Hin as [He Hin].
  simpl. split; [by destruct k|]. split; [done|]. split; [done|]. by exists r.
Qed.

(** Event ids are unique in the log: a claimed row yields at most one claim. *)
Lemma filter_unique {A} (f : A -> Z) (l : list A) x : NoDup (f <$> l) -> (length (filter (fun a => f a = x) l) <= 1)%nat.
Proof.
  induction l as [|a l IH]; [simpl; lia|]. rewrite fmap_cons, filter_cons. intros [Hn Hd]%NoDup_cons.
  case_decide as E; [|by apply IH]. simpl. enough (filter (fun a => f a = x) l = []) as -> by (simpl; lia).
  apply elem_of_nil_inv. intros b [Hb Hin]%list_elem_of_filter. apply Hn.
  apply list_elem_of_fmap. exists b. split; [congruence|done].
Qed.

Lemma claimed_count d ks k : log_ok d -> NoDup ks ->
  (length (filter (fun c => claim_key_of c = k) (ks ≫= claimed_row d)) <= if bool_decide (k ∈ ks) then 1 else 0)%nat.
Proof.
  intros Hl. induction ks as [|k0 ks IH]; intros Hn; [simpl; lia|].
  apply NoDup_cons in Hn as [Hk0 Hn]. rewrite bind_cons, filter_app, length_app. specialize (IH Hn).
  assert (k <> k0 -> filter (fun c => claim_key_of c = k) (claimed_row d k0) = []) as Hother.
  { intros Hne. apply elem_of_nil_inv. intros c [Hc Hin]%list_elem_of_filter.
    apply claimed_row_elem in Hin as [Hkey _]. congruence. }
  destruct (decide (k = k0)) as [->|Hne].
  - rewrite bool_decide_eq_true_2 by set_solver. rewrite bool_decide_eq_false_2 in IH by done.
    assert (length (filter (fun c => claim_key_of c = k0) (claimed_row d k0)) <= 1)%nat; [|lia].
    etrans; [apply length_filter|]. unfold claimed_row. destruct (t_recipients d !! k0); [|simpl; lia].
    rewrite length_fmap. apply filter_unique, (lo_ids _ Hl).
  - rewrite Hother by done. simpl. repeat case_bool_decide; [lia|set_solver|set_solver|lia].
Qed.

(** *** Preservation *)
Definition claim_count (cl : list ClaimedDispatchRecipient) (k : Z * Z) : Z :=
  Z.of_nat (length (filter (fun c => claim_key_of c = k) cl)).

Lemma cluster_ok_write d w cl dn d' cl' :
  cluster_ok (mkCluster d w cl dn) -> dispatch_write d d' -> dispatch_ok d' ->
  (forall c, c ∈ cl' -> c ∈ cl \/ (cl_commit c ∈ t_log d /\ cm_id (cl_commit c) = cl_event_id c)) ->
  (forall c, c ∈ cl -> c ∈ cl') ->
  (forall k, claim_count cl' k <=
     match t_recipients d' !! k with Some r => rc_attempts r | None => MAX_ATTEMPTS end) ->
  (forall ev u r', t_recipients d' !! (ev, u) = Some r' ->
     exists r, t_recipients d !! (ev, u) = Some r /\
       (rc_state r' = rc_state r \/
        exists c, c ∈ dn /\ claim_key_of (dc_claim c) = (ev, u) /\
          match dc_terminal_state c with
          | Some t => rc_state r' = recipient_state_code t
          | None => rc_state r' = 0 \/ rc_state r' = 3
          end)) ->
  cluster_ok (mkCluster d' w cl' dn).
Proof.
  intros Hg Hw Hd Hcl Hsub Hcount Hrows.
  assert (forall mk ev u, handed_over mk (mkCluster d w cl dn) ev u -> handed_over mk (mkCluster d' w cl' dn) ev u)
    as Hmono.
  { intros mk ev u. apply handed_over_mono; [by rewrite (dispatch_write_log _ _ Hw)|].
    exists []. by rewrite app_nil_r. }
  split; simpl; try done.
  - eapply dispatch_write_timeline; [done..|apply (ck_log _ Hg)].
  - intros c [Hc|Hc]%Hcl; rewrite (dispatch_write_log _ _ Hw); [by apply (ck_claims _ Hg)|done].
  - intros c Hc. destruct (ck_done _ Hg c Hc) as [Hin Ht]. split; [by apply Hsub|].
    destruct (dc_terminal_state c) as [[| |]|]; auto.
  - intros ev u r' Hr'. destruct (Hrows _ _ _ Hr') as (r & Hr & [Hs|(c & Hc & Hk & Ht)]).
    + rewrite Hs. destruct (ck_rows _ Hg _ _ _ Hr). auto.
    + destruct (ck_done _ Hg c Hc) as [_ Hdone]. injection Hk as <- <-.
      destruct (dc_terminal_state c) as [[| |]|]; simpl in Ht; (split; intros; [lia || auto|lia || auto]).
Qed.

(** A statement that changes no state and gives out no claim. *)
Lemma cluster_ok_kept d w cl dn d' :
  cluster_ok (mkCluster d w cl dn) -> dispatch_write d d' -> dispatch_ok d' ->
  (forall k r', t_recipients d' !! k = Some r' -> t_recipients d !! k = Some r') ->
  cluster_ok (mkCluster d' w cl dn).
Proof.
  intros Hg Hw Hd Hrows. eapply cluster_ok_write; [done..| | | |]; [auto|auto| |].
  - intros k. pose proof (ck_count _ Hg k) as Hc. simpl in Hc. fold (claim_count cl k) in Hc.
    destruct (t_recipients d' !! k) as [r'|] eqn:E; [by rewrite (Hrows _ _ E) in Hc|].
    destruct (t_recipients d !! k) as [r|] eqn:E'; [|done]. destruct k as [ev u].
    destruct (dk_row _ (ck_dispatch _ Hg) _ _ _ E') as (_ & ? & _). lia.
  - intros ev u r' Hr'. exists r'. auto.
Qed.

(** The wire only grows. *)
Lemma receipt_wire env d c session w :
  exists l, w_log (record_and_push_delivered_receipt env d c session w).2 = w_log w ++ l.
Proof.
  unfold record_and_push_delivered_receipt. destruct (negb _); [exists []; by rewrite app_nil_r|].
  destruct (record_direct_delivery_receipt_first_ack _ _ _ _ _ _ _) as [[[r|]|e] rs]; simpl;
    [by eexists|exists []; by rewrite app_nil_r..].
Qed.

Ltac unresolved := intros [= <- <-]; split; [done|]; split; [done|by left].
Lemma resolve_wire env d c w r w' : resolve_online_claim env d c w = (r, w') ->
  (exists l, w_log w' = w_log w ++ l) /\
  match r with
  | Completion k => dc_claim k = c /\
      (dc_terminal_state k = None \/
       (dc_terminal_state k = Some OnlineSent /\
          exists p, push_from_claim c = Ok p /\ Routed (cl_event_id c) (cl_user_id c) p ∈ w_log w'))
  | OfflineCandidate c' p => c' = c /\ push_from_claim c = Ok p /\ w' = w /\
      exists route, de_route env (as_u64 (cl_user_id c)) p = Ok route /\
        rt_success_count route <= 0 /\ rt_failed_count route <= 0
  end.
Proof.
  assert (exists l : list wire_event, w_log w = w_log w ++ l) as Hsame by (exists []; by rewrite app_nil_r).
  unfold resolve_online_claim. destruct (negb _); [unresolved|].
  destruct (push_from_claim c) as [p|e]; [|unresolved].
  destruct (de_route env _ p) as [route|e] eqn:Er; [|unresolved].
  destruct (Z.ltb_spec 0 (rt_success_count route)); cycle 1.
  { destruct (Z.ltb_spec 0 (rt_failed_count route)); [unresolved|]. intros [= <- <-]. split; [done|].
    split; [done|]. split; [done|]. split; [done|]. by exists route. }
  set (w1 := mkWire _ _ _).
  assert (exists l, w_log w1 = w_log w ++ Routed (cl_event_id c) (cl_user_id c) p :: l) as [l Hw1] by by eexists.
  clearbody w1.
  match goal with |- context [let '(receipt, w2) := ?x in _] => set (out := x) end.
  assert (exists l', w_log out.2 = w_log w1 ++ l') as [l' Hw2].
  { subst out. destruct (rt_acknowledged route); [apply receipt_wire|]. exists []. by rewrite app_nil_r. }
  destruct out as [[u|e] w2]; intros [= <- <-]; simpl in Hw2; rewrite Hw2, Hw1, <- app_assoc.
  - split; [by eexists|]. split; [done|]. right. split; [done|]. exists p. set_solver.
  - split; [by eexists|]. split; [done|by left].
Qed.

Lemma offline_wire env ev p cs w out w' : resolve_offline_batch env ev p cs w = (out, w') ->
  (exists l, w_log w' = w_log w ++ l) /\ dc_claim <$> out = cs /\
  Forall (fun k => dc_terminal_state k = None \/
    (dc_terminal_state k = Some OfflineQueued /\
     Enqueued (cl_event_id (dc_claim k)) (cl_user_id (dc_claim k)) p ∈ w_log w')) out.
Proof.
  assert (exists l : list wire_event, w_log w = w_log w ++ l) as Hsame by (exists []; by rewrite app_nil_r).
  unfold resolve_offline_batch. destruct (negb _).
  { intros [= <- <-]. split; [done|]. rewrite <- list_fmap_compose. split; [apply list_fmap_id|].
    apply Forall_fmap, Forall_true. by left. }
  destruct (add_batch_users _ _ _ _ _) as [[u|e] q]; intros [= <- <-]; simpl;
    (split; [by eauto|]; rewrite <- list_fmap_compose; split; [apply list_fmap_id|]; apply Forall_fmap).
  - apply Forall_forall. intros c Hc. right. split; [done|]. simpl. apply elem_of_app. right.
    apply list_elem_of_fmap. by exists c.
  - apply Forall_true. by left.
Qed.

(** Growth of wire and completions, the tables as they were. *)
Lemma cluster_ok_done d w w' cl dn l : cluster_ok (mkCluster d w cl dn) ->
  (exists l, w_log w' = w_log w ++ l) ->
  (forall c, c ∈ l -> dc_claim c ∈ cl /\
     match dc_terminal_state c with
     | Some OnlineSent => handed_over Routed (mkCluster d w' cl dn) (cl_event_id (dc_claim c)) (cl_user_id (dc_claim c))
     | Some OfflineQueued =>
         handed_over Enqueued (mkCluster d w' cl dn) (cl_event_id (dc_claim c)) (cl_user_id (dc_claim c))
     | Some Dead => False
     | None => True
     end) ->
  cluster_ok (mkCluster d w' cl (dn ++ l)).
Proof.
  intros Hg Hw Hl.
  assert (forall mk ev u, handed_over mk (mkCluster d w cl dn) ev u ->
    handed_over mk (mkCluster d w' cl (dn ++ l)) ev u) as Hmono by (intros; by eapply handed_over_mono).
  split; try apply Hg; simpl.
  - intros c [Hc|Hc]%elem_of_app; [destruct (ck_done _ Hg c Hc) as [Hin Ht]|destruct (Hl c Hc) as [Hin Ht]];
      (split; [done|]); destruct (dc_terminal_state c) as [[| |]|]; by auto.
  - intros ev u r Hr. destruct (ck_rows _ Hg _ _ _ Hr). auto.
Qed.

Lemma handed_over_claim mk g c p : cluster_ok g -> c ∈ g_claims g -> push_from_claim c = Ok p ->
  mk (cl_event_id c) (cl_user_id c) p ∈ w_log (g_wire g) -> handed_over mk g (cl_event_id c) (cl_user_id c).
Proof.
  intros Hg Hc Hp Hin. destruct (ck_claims _ Hg c Hc) as [Hlog Hid]. exists (cl_commit c), p.
  split; [done|]. split; [done|]. split; [|done]. by rewrite <- Hp; apply push_from_claim_same.
Qed.

Lemma cluster_ok_wire d w w' cl dn : cluster_ok (mkCluster d w cl dn) -> (exists l, w_log w' = w_log w ++ l) ->
  cluster_ok (mkCluster d w' cl dn).
Proof.
  intros Hg Hw. rewrite <- (app_nil_r dn). eapply cluster_ok_done; [done..|]. by intros c ?%elem_of_nil.
Qed.

Lemma cluster_ok_resolve env c d w cl dn : cluster_ok (mkCluster d w cl dn) -> c ∈ cl ->
  let out := resolve_online_claim env d c w in
  cluster_ok (mkCluster d out.2 cl (dn ++ completions_of out.1)).
Proof.
  intros Hg Hc. destruct (resolve_online_claim env d c w) as [r w'] eqn:E. simpl.
  apply resolve_wire in E as [Hw Hr]. eapply cluster_ok_done; [done..|].
  destruct r as [k|c' p]; simpl; [|by intros x ?%elem_of_nil]. intros x ->%list_elem_of_singleton.
  destruct Hr as [Hk Hr]. subst c. split; [done|]. destruct Hr as [->|(-> & p & Hp & Hin)]; [done|].
  eapply (handed_over_claim Routed (mkCluster d w' cl dn)); [|done..]. by eapply cluster_ok_wire.
Qed.

Lemma cluster_ok_offline env ev p cs d w cl dn : cluster_ok (mkCluster d w cl dn) ->
  Forall (fun c => c ∈ cl /\ cl_event_id c = ev /\ push_from_claim c = Ok p) cs ->
  let out := resolve_offline_batch env ev p cs w in
  cluster_ok (mkCluster d out.2 cl (dn ++ out.1)).
Proof.
  intros Hg Hcs. destruct (resolve_offline_batch env ev p cs w) as [out w'] eqn:E. simpl.
  apply offline_wire in E as (Hw & Hcl & Hout). eapply cluster_ok_done; [done..|].
  intros k Hk. rewrite Forall_forall in Hcs. rewrite Forall_forall in Hout.
  destruct (Hcs (dc_claim k)) as (Hin & He & Hp); [rewrite <- Hcl; by apply list_elem_of_fmap_2|].
  split; [done|]. destruct (Hout k Hk) as [->|[-> Hq]]; [done|].
  eapply (handed_over_claim Enqueued (mkCluster d w' cl dn)); [by eapply cluster_ok_wire|done..].
Qed.

Lemma cluster_ok_complete now jitter db cs d w cl dn : cluster_ok (mkCluster d w cl dn) ->
  Forall (fun c => c ∈ dn) cs -> cluster_ok (mkCluster (complete_many now jitter db cs d).2 w cl dn).
Proof.
  intros Hg Hcs. pose proof (complete_many_ok now jitter db cs d (ck_dispatch _ Hg)) as Hd. revert Hd.
  unfold complete_many. destruct cs as [|c0 cs0]; [done|]. set (cs := c0 :: cs0) in *. unfold statement.
  set (d' := set_recipients d _).
  enough (dispatch_ok d' -> cluster_ok (mkCluster d' w cl dn)).
  { destruct (db 0%nat); [destruct (db 1%nat)|]; done. }
  intros Hd. eapply cluster_ok_write; [done|by eexists _, _|done|auto|auto| |].
  - intros k. simpl. rewrite complete_rows_lookup. pose proof (ck_count _ Hg k) as Hc.
    destruct (t_recipients d !! k) as [r|] eqn:E; simpl in *; rewrite E in Hc; [|done].
    destruct (matching cs k r) as [c|]; [|done]. unfold completed_row.
    by destruct (completion_values _ _ _) as [[s at_] o].
  - intros ev u r'. simpl. rewrite complete_rows_lookup.
    destruct (t_recipients d !! (ev, u)) as [r|] eqn:E; [|done]. simpl. intros [= <-]. exists r. split; [done|].
    destruct (matching cs (ev, u) r) as [c|] eqn:Em; [|by left]. right. exists c.
    apply matching_Some in Em as (_ & Hin & Hk & _). rewrite Forall_forall in Hcs. split; [by apply Hcs|].
    split; [done|]. unfold completed_row. pose proof (completion_state c now (jitter (claim_key_of (dc_claim c)))) as Hs.
    destruct (completion_values _ _ _) as [[s at_] o]. apply Hs.
Qed.

Lemma cluster_ok_claim now token db locked owner limit event d w cl dn : cluster_ok (mkCluster d w cl dn) ->
  let out := claim now token db locked owner limit event d in
  cluster_ok (mkCluster out.2 w (cl ++ claims_of out.1) dn).
Proof.
  intros Hg. pose proof (claim_ok now token db locked owner limit event d (ck_dispatch _ Hg)) as Hd. revert Hd.
  unfold claim, statement. set (ks := candidates now limit event locked d).
  set (d' := set_recipients d _).
  enough (forall l, l = [] \/ l = ks ≫= claimed_row d' -> dispatch_ok d' -> cluster_ok (mkCluster d' w (cl ++ l) dn)) as H.
  { destruct (db 0%nat); [destruct (db 1%nat)|]; simpl; [by apply H; left|by rewrite app_nil_r|by apply H; right]. }
  intros l Hl Hd. assert (dispatch_write d d') as Hw by (by eexists _, _).
  pose proof (dispatch_write_timeline _ _ Hw Hd (ck_log _ Hg)) as [Hlog _].
  eapply cluster_ok_write; [done..| |set_solver| |].
  - intros c [Hc|Hc]%elem_of_app; [by left|right]. destruct Hl as [-> | ->]; [set_solver|].
    apply list_elem_of_bind in Hc as (k & Hc & _). by apply claimed_row_elem in Hc as (_ & ? & ? & _).
  - intros k. unfold claim_count. rewrite filter_app, length_app, Nat2Z.inj_add.
    pose proof (ck_count _ Hg k) as Hc. simpl in Hc. simpl. rewrite lease_rows_lookup.
    assert (length (filter (fun c => claim_key_of c = k) l) <= if bool_decide (k ∈ ks) then 1 else 0)%nat as Hn.
    { destruct Hl as [-> | ->]; [simpl; lia|]. apply claimed_count; [done|apply candidates_NoDup]. }
    case_bool_decide as Hk.
    + apply candidates_claimable in Hk as (r & Hr & _). rewrite Hr in *. simpl. lia.
    + destruct (t_recipients d !! k); simpl; lia.
  - intros ev u r'. simpl. rewrite lease_rows_lookup. destruct (t_recipients d !! (ev, u)) as [r|]; [|done].
    simpl. intros [= <-]. exists r. split; [done|]. left. by case_bool_decide.
Qed.

(** A step of the timeline adds rows that nobody has claimed, and changes none. *)
Lemma timeline_recipients d d' w cl dn : cluster_ok (mkCluster d w cl dn) -> timeline_step d d' ->
  dispatch_ok d' /\ (forall k, t_recipients d' !! k = t_recipients d !! k \/
    (t_recipients d !! k = None /\ claim_count cl k = 0 /\ exists r, t_recipients d' !! k = Some r /\ rc_state r = 0 /\
       rc_attempts r = 0)).
Proof.
  intros Hg [Hs Hcase]. pose proof (step_ok _ _ _ Hs (ck_log _ Hg)) as Hok. destruct (step_log_grows _ _ _ Hs) as [Hgrow _].
  destruct Hcase as [[Eo Er]|(cm & now & Ha)].
  - split; [|by left; rewrite Er]. destruct (ck_dispatch _ Hg) as [H1 H2 H3].
    split; unfold parent_ok; rewrite Eo, ?Er; [done|done|]. intros ev Hev. apply H3 in Hev.
    apply list_elem_of_fmap in Hev as (cm & -> & Hin). apply list_elem_of_fmap_2. by apply Hgrow.
  - split; [by eapply dispatch_ok_appended, Ha; apply (ck_dispatch _ Hg)|]. intros k.
    destruct (t_recipients d !! k) as [r|] eqn:E.
    + left. destruct k as [ev u]. rewrite <- E. apply (appended_other _ _ _ _ _ _ Ha). intros ->.
      destruct (dk_row _ (ck_dispatch _ Hg) _ _ _ E) as (_ & _ & Hf). simpl in Hf. rewrite (la_fresh _ _ _ _ Ha) in Hf.
      by destruct Hf.
    + destruct (t_recipients d' !! k) as [r|] eqn:E'; [right|by left]. split; [done|].
      rewrite (la_recipients _ _ _ _ Ha) in E'. apply add_recipients_Some in E' as [?|(Hk & _ & ->)]; [congruence|].
      split; [|by eexists]. unfold claim_count.
      enough (filter (fun c => claim_key_of c = k) cl = []) as -> by done.
      apply elem_of_nil_inv. intros c [Hc Hin]%list_elem_of_filter. subst k.
      destruct (ck_claims _ Hg c Hin) as [Hl Hid]. destruct Hok as [Hlog _].
      pose proof (lo_ids _ Hlog) as Hn. rewrite (la_log _ _ _ _ Ha), fmap_app, NoDup_app in Hn.
      destruct Hn as (_ & Hn & _). apply (Hn (cm_id (cl_commit c))); [by apply list_elem_of_fmap_2|].
      simpl in *. rewrite Hid, Hk. set_solver.
Qed.
Lemma cluster_ok_timeline d d' w cl dn : cluster_ok (mkCluster d w cl dn) -> timeline_step d d' ->
  cluster_ok (mkCluster d' w cl dn).
Proof.
  intros Hg Ht. destruct (timeline_recipients _ _ _ _ _ Hg Ht) as [Hd Hrows]. destruct Ht as [Hs _].
  pose proof (step_ok _ _ _ Hs (ck_log _ Hg)) as Hok. destruct (step_log_grows _ _ _ Hs) as [Hgrow _].
  assert (forall mk ev u, handed_over mk (mkCluster d w cl dn) ev u -> handed_over mk (mkCluster d' w cl dn) ev u)
    as Hmono by (intros; eapply handed_over_mono; [done|exists []; by rewrite app_nil_r|done]).
  split; simpl; try done.
  - intros c Hc. destruct (ck_claims _ Hg c Hc). by auto.
  - intros k. pose proof (ck_count _ Hg k) as Hc. simpl in Hc. fold (claim_count cl k) in *.
    destruct (Hrows k) as [->|(_ & Hz & r & -> & _ & ->)]; [done|lia].
  - intros c Hc. destruct (ck_done _ Hg c Hc) as [Hin Ht]. split; [done|].
    destruct (dc_terminal_state c) as [[| |]|]; by auto.
  - intros ev u r Hr. destruct (Hrows (ev, u)) as [Heq|(_ & _ & r' & Hr' & H0 & _)].
    + rewrite Heq in Hr. destruct (ck_rows _ Hg _ _ _ Hr). auto.
    + rewrite Hr in Hr'. injection Hr' as <-. rewrite H0. split; lia.
Qed.

Lemma settle_write now pick d : dispatch_write d (settle now pick d).
Proof. by eexists _, _. Qed.

Lemma cluster_step_ok g g' : cluster_step g g' -> cluster_ok g -> cluster_ok g'.
Proof.
  intros Hs Hg. destruct Hs.
  - by eapply cluster_ok_timeline.
  - by apply cluster_ok_claim.
  - by apply cluster_ok_resolve.
  - by apply cluster_ok_offline.
  - by apply cluster_ok_complete.
  - eapply cluster_ok_kept; [done| |by apply reconcile_events_ok, (ck_dispatch _ Hg)|];
      unfold reconcile_events; destruct ids; [apply dispatch_write_refl|apply statement_write, settle_write|done|].
    unfold statement. by destruct (db 0%nat); [destruct (db 1%nat)|].
  - eapply cluster_ok_kept; [done| |by apply reconcile_terminal_ok, (ck_dispatch _ Hg)|];
      unfold reconcile_terminal_parents; [apply statement_write, settle_write|].
    unfold statement. by destruct (db 0%nat); [destruct (db 1%nat)|].
  - eapply cluster_ok_kept; [done| |by apply cleanup_ok, (ck_dispatch _ Hg)|];
      unfold cleanup_retained; [apply statement_write; by eexists _, _|].
    intros k r'. unfold statement. destruct (db 0%nat); [destruct (db 1%nat)|]; simpl; try done;
      by intros [? _]%map_lookup_filter_Some.
Qed.

(** *** Attempts *)
(** What one step does to the attempts of a recipient: only a claim that picks it adds to
    them, and it adds one. *)
Definition attempts_step (g g' : Cluster) (k : Z * Z) (r' : RecipientRow) : Prop :=
  match t_recipients (g_db g) !! k with
  | None => rc_attempts r' = 0 /\ claim_count (g_claims g') k = 0
  | Some r =>
      (rc_attempts r' = rc_attempts r /\ claim_count (g_claims g') k = claim_count (g_claims g) k) \/
      (rc_attempts r' = rc_attempts r + 1 /\
       claim_count (g_claims g) k <= claim_count (g_claims g') k <= claim_count (g_claims g) k + 1 /\
       exists now token db locked owner limit event,
         g_db g' = (claim now token db locked owner limit event (g_db g)).2 /\ k ∈ candidates now limit event locked (g_db g))
  end.
Lemma attempts_kept d d' w w' cl dn dn' k r' : (forall k r', t_recipients d' !! k = Some r' -> exists r, t_recipients d !! k = Some r /\ rc_attempts r' = rc_attempts r) ->
  t_recipients d' !! k = Some r' -> attempts_step (mkCluster d w cl dn) (mkCluster d' w' cl dn') k r'.
Proof. intros H Hr'. unfold attempts_step. simpl. destruct (H k r' Hr') as (r & -> & E). by left. Qed.
Lemma claim_attempts now token db locked owner limit event d w cl dn k r' : cluster_ok (mkCluster d w cl dn) ->
  let out := claim now token db locked owner limit event d in
  t_recipients out.2 !! k = Some r' -> attempts_step (mkCluster d w cl dn) (mkCluster out.2 w (cl ++ claims_of out.1) dn) k r'.
Proof.
  intros Hg. pose proof (cluster_ok_claim now token db locked owner limit event d w cl dn Hg) as Hg'. revert Hg'. cbv zeta.
  assert (forall l d', d' = set_recipients d (lease_rows owner (now + LEASE_DURATION_MS) token (candidates now limit event locked d) (t_recipients d)) ->
    d' = (claim now token db locked owner limit event d).2 -> l = [] \/ l = candidates now limit event locked d ≫= claimed_row d' ->
    cluster_ok (mkCluster d' w (cl ++ l) dn) ->
    t_recipients d' !! k = Some r' -> attempts_step (mkCluster d w cl dn) (mkCluster d' w (cl ++ l) dn) k r') as H.
  { intros l d' Ed Ec Hl Hok. rewrite Ed at 1. simpl. rewrite lease_rows_lookup. unfold attempts_step. simpl.
    destruct (t_recipients d !! k) as [r|] eqn:Er; [|done]. simpl. intros [= <-].
    assert (0 <= claim_count l k <= if bool_decide (k ∈ candidates now limit event locked d) then 1 else 0) as Hn.
    { unfold claim_count. destruct Hl as [-> | ->]; [simpl; case_bool_decide; lia|].
      pose proof (claimed_count d' (candidates now limit event locked d) k (proj1 (ck_log _ Hok)) (candidates_NoDup _ _ _ _ _)). case_bool_decide; lia. }
    assert (claim_count (cl ++ l) k = claim_count cl k + claim_count l k) as -> by (unfold claim_count; rewrite filter_app, length_app; lia).
    case_bool_decide as Hk; [right|left; split; [done|lia]].
    split; [done|]. split; [lia|]. exists now, token, db, locked, owner, limit, event. by split. }
  revert H. unfold claim, statement. set (d' := set_recipients d _). intros H.
  destruct (db 0%nat) eqn:E0; [destruct (db 1%nat) eqn:E1|]; simpl; intros Hg' Hr'.
  - apply (H []); try done. by left.
  - rewrite app_nil_r. by eapply attempts_kept; [eauto|].
  - apply H; try done. by right.
Qed.
Lemma step_attempts g g' k r' : cluster_ok g -> cluster_step g g' -> t_recipients (g_db g') !! k = Some r' -> attempts_step g g' k r'.
Proof.
  intros Hg Hs. destruct Hs as [d d' w cl dn Ht| | | |now jitter db cs d w cl dn Hcs|now db ids d w cl dn|now db locked limit d w cl dn|now db locked limit d w cl dn]; cbn [g_db].
  - intros Hr'. destruct (timeline_recipients _ _ _ _ _ Hg Ht) as [_ Hrows]. unfold attempts_step. simpl.
    destruct (Hrows k) as [E|(-> & Hz & r & Hr & _ & H0)]; [|split; [congruence|done]]. rewrite <- E, Hr'. by left.
  - by apply claim_attempts.
  - apply attempts_kept; eauto.
  - apply attempts_kept; eauto.
  - apply attempts_kept. clear k r'. intros k r'. unfold complete_many. destruct cs as [|c cs]; [simpl; eauto|]. unfold statement.
    assert (complete_rows now jitter (c :: cs) (t_recipients d) !! k = Some r' -> exists r, t_recipients d !! k = Some r /\ rc_attempts r' = rc_attempts r).
    { rewrite complete_rows_lookup. destruct (t_recipients d !! k) as [r|]; [|done]. cbn [fmap option_fmap option_map]. intros [= <-]. exists r. split; [done|].
      destruct (matching _ _ _) as [c'|]; [|done]. unfold completed_row. by destruct (completion_values _ _ _) as [[? ?] ?]. }
    destruct (db 0%nat); [destruct (db 1%nat)|]; simpl; eauto.
  - apply attempts_kept. clear k r'. intros k r'. unfold reconcile_events. destruct ids; [simpl; eauto|]. unfold statement.
    destruct (db 0%nat); [destruct (db 1%nat)|]; simpl; eauto.
  - apply attempts_kept. clear k r'. intros k r'. unfold reconcile_terminal_parents, statement.
    destruct (db 0%nat); [destruct (db 1%nat)|]; simpl; eauto.
  - apply attempts_kept. clear k r'. intros k r'. unfold cleanup_retained, statement.
    destruct (db 0%nat); [destruct (db 1%nat)|]; simpl; [|eauto|]; intros [? _]%map_lookup_filter_Some; eauto.
Qed.

Lemma cluster_steps_ok g g' : rtc cluster_step g g' -> cluster_ok g -> cluster_ok g'.
Proof. induction 1 as [|g0 g1 g2 H _ IH]; [done|]. intros Hok. by eapply IH, cluster_step_ok. Qed.

Lemma cluster_step_log g g' : cluster_step g g' -> forall cm, cm ∈ t_log (g_db g) -> cm ∈ t_log (g_db g').
Proof.
  assert (forall d d' cm, dispatch_write d d' -> cm ∈ t_log d -> cm ∈ t_log d') as Hw
    by (intros d d' cm H; by rewrite (dispatch_write_log _ _ H)).
  intros Hs cm. destruct Hs as [d d' w cl dn [Hstep _]| | | |now jitter db cs| now db ids| |]; simpl; try done.
  - by apply (step_log_grows _ _ _ Hstep).
  - apply Hw, statement_write. by eexists _, _.
  - apply Hw. unfold complete_many. destruct cs; [apply dispatch_write_refl|]. apply statement_write. by eexists _, _.
  - apply Hw. unfold reconcile_events. destruct ids; [apply dispatch_write_refl|apply statement_write, settle_write].
  - apply Hw, statement_write, settle_write.
  - apply Hw, statement_write. by eexists _, _.
Qed.
Lemma cluster_steps_log g g' cm : rtc cluster_step g g' -> cm ∈ t_log (g_db g) -> cm ∈ t_log (g_db g').
Proof. induction 1 as [|g0 g1 g2 H _ IH]; [done|]. intros Hc. by eapply IH, cluster_step_log. Qed.

(** What was handed over for an event is the push of its commit. *)
Lemma handed_over_push mk g cm u p : cluster_ok g -> cm ∈ t_log (g_db g) ->
  push_from_claim (mkClaimed (cm_id cm) 0 0 0 cm) = Ok p ->
  handed_over mk g (cm_id cm) u -> mk (cm_id cm) u p ∈ w_log (g_wire g).
Proof.
  intros Hg Hcm Hp (cm' & p' & Hin & He & Hp' & Hlogged). destruct (ck_log _ Hg) as [Hlog _].
  assert (cm' = cm) as -> by (by eapply (NoDup_fmap_elem cm_id); [apply (lo_ids _ Hlog)|..]).
  rewrite (push_from_claim_same _ (mkClaimed (cm_id cm) 0 0 0 cm)) in Hp' by done. congruence.
Qed.

Lemma reachable_cluster_ok g : reachable_cluster g -> cluster_ok g.
Proof.
  intros (d & w & Hn & Ho & Hs). assert (cluster_ok (mkCluster d w [] [])) as Hok.
  { assert (t_recipients d = ∅) as Hr.
    { apply map_empty. intros [ev u]. destruct (no_timeline_ok _ Hn) as [Hl _].
      apply eq_None_not_Some. intros Hf. apply (lo_fk _ Hl) in Hf. rewrite Ho in Hf. by apply lookup_empty_is_Some in Hf. }
    assert (dispatch_ok d) as Hd
      by (split; rewrite ?Hr, ?Ho; [done|done|intros ev Hf; by apply lookup_empty_is_Some in Hf]).
    split; simpl; [by apply no_timeline_ok|done|set_solver| |set_solver|].
    - intros k. rewrite Hr, lookup_empty. unfold MAX_ATTEMPTS. simpl. lia.
    - intros ev u r. by rewrite Hr. }
  by eapply cluster_steps_ok.
Qed.
End Cluster.
