(* ===== verification/DispatchRun.v ===== *)
(** * What a dispatch run achieves

    The batches of src/src/service/committed_timeline_delivery_service.rs
    ([dispatch_claims], [dispatch_event], [process_once]) are executions of the
    step relation of [DispatchFacts.v], so its invariants hold of them; and a run
    that meets an answering router and queue reaches every recipient. *)

From stdpp Require Import base numbers gmap list sorting strings relations.
From S2P Require Import Prelude Channel Timeline TimelineFacts OfflineQueue Dispatch DispatchFacts.
Local Open Scope Z_scope.

(** ** Threading the wire *)
Lemma run_all_snoc {A B} (f : A -> Wire -> B * Wire) l a w :
  run_all f (l ++ [a]) w =
    let '(bs, w1) := run_all f l w in let '(b, w2) := f a w1 in (bs ++ [b], w2).
Proof. unfold run_all. rewrite foldl_snoc. by destruct (foldl _ _ l). Qed.

Lemma run_all_ind {A B} (f : A -> Wire -> B * Wire) (I : list A -> list B -> Wire -> Prop) l w :
  I [] [] w ->
  (forall done a bs w b w', I done bs w -> a ∈ l -> f a w = (b, w') -> I (done ++ [a]) (bs ++ [b]) w') ->
  forall bs w', run_all f l w = (bs, w') -> I l bs w'.
Proof.
  intros H0. induction l as [|a l IH] using rev_ind; intros Hstep bs w'; [by intros [= <- <-]|].
  rewrite run_all_snoc. destruct (run_all f l w) as [bs1 w1] eqn:E. destruct (f a w1) as [b w2] eqn:Ef.
  intros [= <- <-]. apply (Hstep l a bs1 w1); [|set_solver|done]. apply IH; [|done].
  intros dn x bs0 w0 b0 w0' HI Hin. apply Hstep; [done|set_solver].
Qed.

Lemma run_all_fst {A B} (f : A -> Wire -> B * Wire) (g : A -> B) l w :
  (forall a w, a ∈ l -> (f a w).1 = g a) -> (run_all f l w).1 = g <$> l.
Proof.
  intros Hf. destruct (run_all f l w) as [bs w'] eqn:E. simpl.
  eapply (run_all_ind f (fun dn bs _ => bs = g <$> dn)) in E; [done|done|].
  intros dn a bs0 w0 b w1 -> Hin Ef. rewrite fmap_app. simpl. by rewrite <- (Hf a w0 Hin), Ef.
Qed.

Section Run.
Context `{P : ProtocolCrate, Ch : Chrono, Pg : Postgres, Co : !EventCodec, Pc : !PushCodec}.

Lemma partition_snoc rs r :
  partition_dispatch_resolutions (rs ++ [r]) = partition_step (partition_dispatch_resolutions rs) r.
Proof. unfold partition_dispatch_resolutions. by rewrite foldl_snoc. Qed.

Lemma partition_online rs : (partition_dispatch_resolutions rs).1 = rs ≫= completions_of.
Proof.
  induction rs as [|r rs IH] using rev_ind; [done|]. rewrite partition_snoc, bind_app. simpl.
  destruct r; simpl; by rewrite IH, ?app_nil_r.
Qed.

(** Claims on one event in a consistent cluster are claims on one commit. *)
Lemma same_event_same_push g c c' : cluster_ok g -> c ∈ g_claims g -> c' ∈ g_claims g ->
  cl_event_id c = cl_event_id c' -> push_from_claim c = push_from_claim c'.
Proof.
  intros Hg Hc Hc' He. apply push_from_claim_same; [done|].
  destruct (ck_claims _ Hg c Hc) as [Hl Hi], (ck_claims _ Hg c' Hc') as [Hl' Hi'].
  eapply (NoDup_fmap_elem cm_id); [apply (lo_ids _ (proj1 (ck_log _ Hg)))|done..|congruence].
Qed.

Definition batch_ok (cl : list ClaimedDispatchRecipient) (ev : Z) (p : PushMessageRequest)
    (cs : list ClaimedDispatchRecipient) : Prop :=
  Forall (fun c => c ∈ cl /\ cl_event_id c = ev /\ push_from_claim c = Ok p) cs /\ cs <> [].

Lemma partition_offline g rs : cluster_ok g ->
  Forall (fun r => match r with
                   | OfflineCandidate c p => c ∈ g_claims g /\ push_from_claim c = Ok p
                   | Completion _ => True end) rs ->
  map_Forall (fun ev e => batch_ok (g_claims g) ev e.1 e.2) (partition_dispatch_resolutions rs).2.
Proof.
  intros Hg. induction rs as [|r rs IH] using rev_ind; [intros _; apply map_Forall_empty|].
  rewrite Forall_app, Forall_singleton. intros [Hrs Hr]. specialize (IH Hrs). rewrite partition_snoc.
  destruct (partition_dispatch_resolutions rs) as [online m]. simpl in IH. destruct r as [k|c p]; simpl; [done|].
  destruct Hr as [Hc Hp]. unfold add_offline. apply map_Forall_insert_2; [|done]. simpl.
  destruct (m !! cl_event_id c) as [[p0 cs]|] eqn:E; simpl.
  - destruct (IH _ _ E) as [Hcs Hne]. simpl in *. split; [|by destruct cs].
    apply Forall_app. split; [done|]. apply Forall_singleton. split; [done|]. split; [done|].
    destruct cs as [|c0 cs]; [done|]. apply Forall_cons in Hcs as [(Hc0 & He0 & Hp0) _].
    rewrite <- Hp0. by apply (same_event_same_push g).
  - split; [|done]. by apply Forall_singleton.
Qed.

(** ** Batches are executions of the step relation *)
Lemma run_resolve_steps env d w cl dn claims rs w' : (forall c, c ∈ claims -> c ∈ cl) ->
  run_all (resolve_online_claim env d) claims w = (rs, w') ->
  rtc cluster_step (mkCluster d w cl dn) (mkCluster d w' cl (dn ++ (rs ≫= completions_of))) /\
  Forall (fun r => match r with
                   | OfflineCandidate c p => c ∈ cl /\ push_from_claim c = Ok p
                   | Completion _ => True end) rs.
Proof.
  intros Hcl. apply (run_all_ind _ (fun _ rs w' =>
    rtc cluster_step (mkCluster d w cl dn) (mkCluster d w' cl (dn ++ (rs ≫= completions_of))) /\ Forall _ rs)).
  { simpl. rewrite app_nil_r. split; [apply rtc_refl|done]. }
  intros _ c bs w0 b w1 [Hs Hf] Hin E. split.
  - eapply rtc_r; [exact Hs|]. rewrite bind_app, app_assoc. simpl. rewrite app_nil_r.
    pose proof (CS_resolve env c d w0 cl (dn ++ (bs ≫= completions_of)) (Hcl c Hin)) as Hstep.
    by rewrite E in Hstep.
  - apply Forall_app. split; [done|]. apply Forall_singleton. apply resolve_wire in E as [_ Hr].
    destruct b as [k|c' p]; [done|]. destruct Hr as (-> & Hp & _). auto.
Qed.

Lemma run_offline_steps env d w cl dn batches bs w' :
  Forall (fun b => batch_ok cl b.1 b.2.1 b.2.2) batches ->
  run_all (fun '(ev, (p, cs)) => resolve_offline_batch env ev p cs) batches w = (bs, w') ->
  rtc cluster_step (mkCluster d w cl dn) (mkCluster d w' cl (dn ++ mjoin bs)).
Proof.
  intros Hok. apply (run_all_ind _ (fun _ bs w' =>
    rtc cluster_step (mkCluster d w cl dn) (mkCluster d w' cl (dn ++ mjoin bs)))).
  { simpl. rewrite app_nil_r. apply rtc_refl. }
  intros _ [ev [p cs]] bs0 w0 b w1 Hs Hin E. eapply rtc_r; [exact Hs|].
  rewrite join_app, app_assoc. simpl. rewrite app_nil_r.
  rewrite Forall_forall in Hok. destruct (Hok _ Hin) as [Hcs _].
  pose proof (CS_offline env ev p cs d w0 cl (dn ++ mjoin bs0) Hcs) as Hstep. by rewrite E in Hstep.
Qed.

Lemma resolve_claims_steps env claims d w cl dn cs w' :
  cluster_ok (mkCluster d w cl dn) -> (forall c, c ∈ claims -> c ∈ cl) ->
  resolve_claims env claims d w = (cs, w') ->
  rtc cluster_step (mkCluster d w cl dn) (mkCluster d w' cl (dn ++ cs)).
Proof.
  intros Hg Hcl. unfold resolve_claims.
  destruct (run_all (resolve_online_claim env d) claims w) as [rs w1] eqn:E1.
  destruct (run_resolve_steps env d w cl dn claims rs w1 Hcl E1) as [Hs1 Hrs].
  pose proof (partition_offline (mkCluster d w cl dn) rs Hg Hrs) as Hbatch.
  pose proof (partition_online rs) as Honline.
  destruct (partition_dispatch_resolutions rs) as [online offline]. simpl in Honline, Hbatch. subst online.
  destruct (run_all _ (merge_sort event_le (map_to_list offline)) w1) as [bs w2] eqn:E2.
  intros [= <- <-]. rewrite app_assoc. etrans; [exact Hs1|].
  eapply run_offline_steps, E2. rewrite merge_sort_Permutation.
  apply Forall_forall. intros [ev e] Hin%elem_of_map_to_list. by apply Hbatch.
Qed.

Lemma record_completions_steps env cs d w cl dn : (forall c, c ∈ cs -> c ∈ dn) ->
  rtc cluster_step (mkCluster d w cl dn) (mkCluster (record_completions env cs d).2 w cl dn).
Proof.
  intros Hcs. unfold record_completions.
  pose proof (CS_complete (de_now env) (de_jitter env) (de_complete_db env) cs d w cl dn) as H1.
  rewrite Forall_forall in H1. specialize (H1 Hcs).
  destruct (complete_many _ _ _ cs d) as [[outcomes|e] d1]; simpl in H1; [|by apply rtc_once].
  set (ids := remove_dups _). eapply rtc_l; [exact H1|]. apply rtc_once.
  pose proof (CS_reconcile_events (de_now env) (de_reconcile_db env) ids d1 w cl dn) as H2.
  by destruct (reconcile_events _ _ ids d1) as [[n|e] d2].
Qed.

Lemma dispatch_claims_steps env claims d w cl dn out d' w' :
  cluster_ok (mkCluster d w cl dn) -> (forall c, c ∈ claims -> c ∈ cl) ->
  dispatch_claims env claims d w = (out, d', w') ->
  exists dn', rtc cluster_step (mkCluster d w cl dn) (mkCluster d' w' cl (dn ++ dn')).
Proof.
  intros Hg Hcl. unfold dispatch_claims. destruct (resolve_claims env claims d w) as [cs w1] eqn:E1.
  intros E. exists cs. etrans; [by eapply resolve_claims_steps|].
  replace d' with (record_completions env cs d).2 by by injection E as ->.
  replace w' with w1 by by injection E. apply record_completions_steps. set_solver.
Qed.

(** A claim step followed by the batch it starts. *)
Lemma claim_and_dispatch_steps env now token db locked owner limit event d w cl dn :
  cluster_ok (mkCluster d w cl dn) ->
  let '(_, d', w') :=
    match claim now token db locked owner limit event d with
    | (Err e, d1) => (Err e, d1, w)
    | (Ok claims, d1) => dispatch_claims env claims d1 w
    end in
  exists cl' dn', rtc cluster_step (mkCluster d w cl dn) (mkCluster d' w' (cl ++ cl') (dn ++ dn')).
Proof.
  intros Hg. pose proof (CS_claim now token db locked owner limit event d w cl dn) as Hstep.
  pose proof (cluster_step_ok _ _ Hstep Hg) as Hg1. revert Hstep Hg1.
  destruct (claim _ _ _ _ _ _ _ d) as [[claims|e] d1]; simpl; intros Hstep Hg1.
  - destruct (dispatch_claims env claims d1 w) as [[out d2] w2] eqn:E.
    eapply dispatch_claims_steps in E as [dn' Hs]; [|done|set_solver]. exists claims, dn'. by eapply rtc_l.
  - exists [], []. rewrite !app_nil_r in *. by apply rtc_once.
Qed.

Lemma dispatch_event_steps env permit now token db locked worker ev d w cl dn :
  cluster_ok (mkCluster d w cl dn) ->
  let '(_, d', w') := dispatch_event env permit now token db locked worker ev d w in
  exists cl' dn', rtc cluster_step (mkCluster d w cl dn) (mkCluster d' w' (cl ++ cl') (dn ++ dn')).
Proof.
  intros Hg. unfold dispatch_event, claim_event. destruct permit; [by apply claim_and_dispatch_steps|].
  exists [], []. rewrite !app_nil_r. apply rtc_refl.
Qed.

Lemma worker_steps env reconcile_due sweep_due db1 db2 parents_locked now token db locked worker d w cl dn :
  cluster_ok (mkCluster d w cl dn) ->
  let '(_, d', w') :=
    worker_iteration env reconcile_due sweep_due db1 db2 parents_locked now token db locked worker d w in
  exists cl' dn', rtc cluster_step (mkCluster d w cl dn) (mkCluster d' w' (cl ++ cl') (dn ++ dn')).
Proof.
  intros Hg. unfold worker_iteration, process_once, claim_pending. set (d1 := if reconcile_due then _ else d).
  set (d2 := if sweep_due then _ else d1).
  assert (rtc cluster_step (mkCluster d w cl dn) (mkCluster d2 w cl dn)) as Hs.
  { transitivity (mkCluster d1 w cl dn).
    - subst d1. destruct reconcile_due; [apply rtc_once, CS_reconcile_parents|apply rtc_refl].
    - subst d2. destruct sweep_due; [apply rtc_once, CS_cleanup|apply rtc_refl]. }
  clearbody d2. pose proof (claim_and_dispatch_steps env now token db locked worker DEFAULT_CHUNK_SIZE None d2 w cl dn
    (cluster_steps_ok _ _ Hs Hg)) as H.
  destruct (claim _ _ _ _ _ _ _ d2) as [[claims|e] d3]; [destruct (dispatch_claims _ _ _ _) as [[out d'] w']|];
    destruct H as (cl' & dn' & H); exists cl', dn'; by etrans.
Qed.

(** ** A run that is answered *)
Record answering (env : DispatchEnv) (p : PushMessageRequest) : Prop := {
  an_open : de_fanout_open env = true;
  an_route : forall u, exists route, de_route env u p = Ok route /\
    (0 < rt_success_count route \/ rt_failed_count route <= 0);
  an_receipt : de_receipt_db env 0%nat = None;
  an_pipe : forall ev, de_pipe env ev = None;
  an_complete : de_complete_db env 0%nat = None;
  an_reconcile : de_reconcile_db env 0%nat = None
}.

Definition delivered (k : DispatchCompletion) : Prop :=
  dc_terminal_state k = Some OnlineSent \/ dc_terminal_state k = Some OfflineQueued.

Lemma resolve_answered env p d c w : answering env p -> push_from_claim c = Ok p ->
  (resolve_online_claim env d c w).1 = Completion (mkCompletion c (Some OnlineSent) None) \/
  (resolve_online_claim env d c w).1 = OfflineCandidate c p.
Proof.
  intros Ha Hp. unfold resolve_online_claim. rewrite (an_open _ _ Ha), Hp. simpl.
  destruct (an_route _ _ Ha (as_u64 (cl_user_id c))) as (route & -> & Hr).
  destruct (Z.ltb_spec 0 (rt_success_count route)).
  - left. destruct (rt_acknowledged route) as [session|]; [|done].
    unfold record_and_push_delivered_receipt, record_direct_delivery_receipt_first_ack.
    rewrite (an_receipt _ _ Ha). destruct (negb _); [done|].
    destruct (receipt_of _ _ _ _ _); [|done]. by destruct (_ !! _).
  - right. destruct (Z.ltb_spec 0 (rt_failed_count route)); [lia|done].
Qed.

Lemma add_batch_users_ok svc users p q : (add_batch_users svc None users p q).1 = Ok tt.
Proof.
  unfold add_batch_users, wrap_internal, lpush_to_many_ltrim_expire. destruct users; [done|].
  by destruct (oq_max_size svc).
Qed.

Lemma offline_answered env p ev p' cs w : answering env p ->
  (resolve_offline_batch env ev p' cs w).1 = (fun c => mkCompletion c (Some OfflineQueued) None) <$> cs.
Proof.
  intros Ha. unfold resolve_offline_batch. rewrite (an_open _ _ Ha), (an_pipe _ _ Ha). simpl.
  pose proof (add_batch_users_ok (de_queue env) ((fun c => as_u64 (cl_user_id c)) <$> cs) p' (w_queues w)) as H.
  by destruct (add_batch_users _ _ _ _ _) as [[]].
Qed.

Lemma partition_covers rs c p : OfflineCandidate c p ∈ rs ->
  exists e, (partition_dispatch_resolutions rs).2 !! cl_event_id c = Some e /\ c ∈ e.2.
Proof.
  induction rs as [|r rs IH] using rev_ind; [by intros ?%elem_of_nil|].
  rewrite elem_of_app, list_elem_of_singleton, partition_snoc.
  destruct (partition_dispatch_resolutions rs) as [online m]. simpl in IH.
  intros [Hin|<-]; [destruct r as [k|c' p'] |]; simpl; [by apply IH| |].
  - unfold add_offline. destruct (IH Hin) as ([q cs] & Hm & Hc).
    destruct (decide (cl_event_id c' = cl_event_id c)) as [->|Hne].
    + rewrite lookup_insert_eq, Hm. eexists. split; [done|]. simpl in *. set_solver.
    + rewrite lookup_insert_ne by done. eauto.
  - unfold add_offline. rewrite lookup_insert_eq. eexists. split; [done|]. simpl. set_solver.
Qed.

(** The completions of a list of offline batches. *)
Lemma queued_completions (offline : gmap Z (PushMessageRequest * list ClaimedDispatchRecipient)) k :
  k ∈ mjoin ((fun b => (fun c => mkCompletion c (Some OfflineQueued) None) <$> b.2.2) <$>
               merge_sort event_le (map_to_list offline)) <->
  exists ev e c, offline !! ev = Some e /\ c ∈ e.2 /\ k = mkCompletion c (Some OfflineQueued) None.
Proof.
  rewrite list_elem_of_join. setoid_rewrite list_elem_of_fmap. setoid_rewrite merge_sort_Permutation. split.
  - intros (l & Hk & ([ev e] & -> & Hin%elem_of_map_to_list)).
    apply list_elem_of_fmap in Hk as (c & -> & Hc). eauto 10.
  - intros (ev & e & c & Hm & Hc & ->). eexists. split; [|exists (ev, e); split; [done|by apply elem_of_map_to_list]].
    simpl. apply list_elem_of_fmap. by exists c.
Qed.

(** Every claim of an answered batch is completed as delivered, and no other. *)
Lemma resolve_claims_answered env p claims d w : answering env p ->
  (forall c, c ∈ claims -> push_from_claim c = Ok p) ->
  let cs := (resolve_claims env claims d w).1 in
  Forall delivered cs /\ (forall c, c ∈ claims -> exists k, k ∈ cs /\ dc_claim k = c).
Proof.
  intros Ha Hp. unfold resolve_claims.
  destruct (run_all (resolve_online_claim env d) claims w) as [rs w1] eqn:E1.
  assert (Forall2 (fun c r => r = Completion (mkCompletion c (Some OnlineSent) None) \/ r = OfflineCandidate c p)
    claims rs) as Hrs.
  { eapply (run_all_ind _ (fun dn rs _ => Forall2 _ dn rs)) in E1; [exact E1|done|].
    intros dn c bs w0 b w0' Hf Hin Ef. apply Forall2_app; [done|]. apply Forall2_cons. split; [|done].
    replace b with (resolve_online_claim env d c w0).1 by by rewrite Ef. by apply resolve_answered, Hp. }
  pose proof (partition_online rs) as Honline. pose proof (partition_covers rs) as Hcov.
  destruct (partition_dispatch_resolutions rs) as [online offline]. simpl in Honline, Hcov. subst online.
  set (batches := merge_sort event_le (map_to_list offline)).
  pose proof (run_all_fst (fun '(ev, (p, cs)) => resolve_offline_batch env ev p cs)
    (fun b => (fun c => mkCompletion c (Some OfflineQueued) None) <$> b.2.2) batches w1) as Hfst.
  destruct (run_all _ batches w1) as [bs w2]. simpl in Hfst. rewrite Hfst; [clear Hfst|].
  2: { intros [ev [p' cs]] w0 _. by eapply offline_answered. }
  pose proof (queued_completions offline) as Hqueued. fold batches in Hqueued. revert Hqueued.
  set (queued := mjoin _). intros Hqueued. cbn [fst]. split.
  - apply Forall_app. split; apply Forall_forall.
    + intros k (r & Hk & Hr)%list_elem_of_bind. apply list_elem_of_lookup in Hr as [i Hi].
      destruct (Forall2_lookup_r _ _ _ _ _ Hrs Hi) as (c & _ & [-> | ->]); simpl in Hk; [|set_solver].
      apply list_elem_of_singleton in Hk as ->. by left.
    + intros k (ev & e & c & _ & _ & ->)%Hqueued. by right.
  - intros c [i Hi]%list_elem_of_lookup. destruct (Forall2_lookup_l _ _ _ _ _ Hrs Hi) as (r & Hr & Hcase).
    apply list_elem_of_lookup_2 in Hr. destruct Hcase as [-> | ->].
    + eexists. split; [apply elem_of_app; left; apply list_elem_of_bind; eexists; split; [|exact Hr];
        by apply list_elem_of_singleton|done].
    + destruct (Hcov _ _ Hr) as (e & Hm & Hc). eexists. split; [apply elem_of_app; right; apply Hqueued|].
      { by exists (cl_event_id c), e, c. } done.
Qed.

(** ** Claiming a new event *)
Lemma candidates_all now limit ev d (users : gset Z) :
  (size users <= Z.to_nat (clamp limit 1 1000))%nat ->
  (forall u r, t_recipients d !! (ev, u) = Some r -> u ∈ users) ->
  forall u r, t_recipients d !! (ev, u) = Some r -> claimable now (Some ev) d (ev, u) r = true ->
  (ev, u) ∈ candidates now limit (Some ev) (fun _ => false) d.
Proof.
  intros Hsize Husers u r Hr Hc. unfold candidates. set (rows := filter _ (map_to_list _)).
  assert ((ev, u) ∈ rows.*1) as Hin.
  { apply list_elem_of_fmap. exists ((ev, u), r). split; [done|]. apply list_elem_of_filter.
    split; [done|]. by apply elem_of_map_to_list. }
  rewrite take_ge; [by rewrite merge_sort_Permutation|]. rewrite merge_sort_Permutation.
  transitivity (length ((fun u => (ev, u)) <$> elements users)); [|rewrite length_fmap; exact Hsize].
  apply submseteq_length, NoDup_submseteq.
  - eapply sublist_NoDup; [apply (NoDup_fst_map_to_list (t_recipients d))|]. apply fmap_sublist, sublist_filter.
  - intros k ([k' r'] & -> & Hk)%list_elem_of_fmap. apply list_elem_of_filter in Hk as [[Hcl _] Hk].
    apply elem_of_map_to_list in Hk. destruct k' as [ev' u']. simpl in *. apply list_elem_of_fmap. exists u'.
    unfold claimable in Hcl. rewrite !andb_true_iff in Hcl. destruct Hcl as [_ He%Z.eqb_eq].
    simpl in He. subst ev'. split; [done|]. apply elem_of_elements. by eapply Husers.
Qed.

(** The claim of an event whose recipients are all fresh: everybody is leased
    under the token, and every claim carries the event's commit. *)
Lemma claim_fresh_event now token owner d ev cm (users : gset Z) :
  log_ok d -> cm ∈ t_log d -> cm_id cm = ev -> (size users <= 100)%nat ->
  (exists o, t_outbox d !! ev = Some o /\ o_status o = 0) ->
  (forall u r, t_recipients d !! (ev, u) = Some r -> u ∈ users /\
     rc_state r = 0 /\ rc_attempts r = 0 /\ rc_next_attempt_at r <= now /\ rc_lease_until r = None) ->
  exists claims d1,
    claim now token no_faults (fun _ => false) owner DEFAULT_CHUNK_SIZE (Some ev) d = (Ok claims, d1) /\
    t_outbox d1 = t_outbox d /\
    (forall c, c ∈ claims -> cl_event_id c = ev /\ cl_commit c = cm) /\
    (forall u r, t_recipients d1 !! (ev, u) = Some r ->
       rc_state r = 0 /\ exists c, c ∈ claims /\ claim_key_of c = (ev, u) /\ cl_lease_token c = rc_lease_token r).
Proof.
  intros Hlog Hcm Hid Hsize (o & Ho & Ho0) Hfresh. unfold claim, statement. simpl.
  set (ks := candidates now DEFAULT_CHUNK_SIZE (Some ev) _ d).
  set (d1 := set_recipients d _). exists (ks ≫= claimed_row d1), d1. split; [done|]. split; [done|].
  assert (forall k, k ∈ ks -> k.1 = ev) as Hks.
  { intros k (r & _ & Hc)%candidates_claimable. unfold claimable in Hc. rewrite !andb_true_iff in Hc.
    destruct Hc as [_ Hc]. lia. }
  split.
  - intros c (k & Hc & Hk)%list_elem_of_bind. apply claimed_row_elem in Hc as (Hkey & Hin & Hi & _).
    apply Hks in Hk. subst k. simpl in Hk. split; [done|].
    eapply (NoDup_fmap_elem cm_id); [apply (lo_ids _ Hlog)|done|done|congruence].
  - intros u r. subst d1. simpl. rewrite lease_rows_lookup.
    destruct (t_recipients d !! (ev, u)) as [r0|] eqn:E; [|done]. simpl.
    assert ((ev, u) ∈ ks) as Hin.
    { destruct (Hfresh u r0 E) as (_ & H0 & H1 & H2 & H3).
      eapply (candidates_all _ _ _ _ users); [exact Hsize|intros ? ? Hx; by apply Hfresh in Hx as [? _]|exact E|].
      unfold claimable, MAX_ATTEMPTS. cbn [fst]. rewrite H0, H1, Ho, Ho0, H3, (Z.eqb_refl ev).
      apply Z.leb_le in H2. by rewrite H2. }
    rewrite bool_decide_eq_true_2 by done. intros [= <-]. simpl. split; [by apply Hfresh in E as (_ & ? & _)|].
    exists (mkClaimed ev u (rc_attempts r0 + 1) token cm). split; [|done].
    apply list_elem_of_bind. exists (ev, u). split; [|done]. unfold claimed_row. simpl.
    rewrite lease_rows_lookup, E. simpl. rewrite bool_decide_eq_true_2 by done.
    apply list_elem_of_fmap. exists cm. split; [done|]. by apply list_elem_of_filter.
Qed.

(** Writing delivered completions for every row of an event closes it. *)
Lemma record_delivered env p cs d ev o : answering env p -> dispatch_ok d -> Forall delivered cs ->
  t_outbox d !! ev = Some o -> o_status o = 0 ->
  (exists u r, t_recipients d !! (ev, u) = Some r) ->
  (forall u r, t_recipients d !! (ev, u) = Some r ->
     rc_state r = 0 /\ exists k, k ∈ cs /\ claim_key_of (dc_claim k) = (ev, u) /\
       cl_lease_token (dc_claim k) = rc_lease_token r) ->
  let out := record_completions env cs d in
  is_ok out.1 = true /\
  (exists o', t_outbox out.2 !! ev = Some o' /\ o_status o' = 1) /\
  (forall u, is_Some (t_recipients d !! (ev, u)) ->
     exists r, t_recipients out.2 !! (ev, u) = Some r /\ (rc_state r = 1 \/ rc_state r = 2)).
Proof.
  intros Ha Hd Hcs Ho Ho0 (u0 & r0 & Hr0) Hrows. unfold record_completions, complete_many, statement.
  destruct cs as [|c0 cs0]; [by destruct (Hrows _ _ Hr0) as (_ & k & ?%elem_of_nil & _)|].
  set (cs := c0 :: cs0) in *. rewrite (an_complete _ _ Ha). cbn [fst snd].
  set (rows := complete_rows _ _ cs _).
  assert (forall u r, rows !! (ev, u) = Some r -> rc_state r = 1 \/ rc_state r = 2) as Hdone.
  { intros u r. subst rows. rewrite complete_rows_lookup. destruct (t_recipients d !! (ev, u)) as [r1|] eqn:E; [|done].
    simpl. intros [= <-]. destruct (Hrows u r1 E) as (H0 & k & Hk & Hkey & Htok).
    destruct (matching_is_Some cs (ev, u) r1 k H0 Hk Hkey Htok) as [c Hc]. rewrite Hc.
    apply matching_Some in Hc as (_ & Hin & _). rewrite Forall_forall in Hcs. specialize (Hcs c Hin).
    unfold completed_row. pose proof (completion_state c (de_now env) (de_jitter env (claim_key_of (dc_claim c)))) as Hs.
    destruct (completion_values _ _ _) as [[st at_] oc]. destruct Hs as [_ Hs]. simpl.
    destruct Hcs as [E'|E']; rewrite E' in Hs; simpl in Hs; lia. }
  set (ids := remove_dups _). assert (ev ∈ ids) as Hev.
  { subst ids. rewrite elem_of_remove_dups, merge_sort_Permutation. destruct (Hrows _ _ Hr0) as (_ & k & Hk & Hkey & _).
    apply list_elem_of_fmap. exists k. split; [by injection Hkey|done]. }
  unfold reconcile_events. destruct ids as [|i ids'] eqn:Eids; [by apply elem_of_nil in Hev|]. rewrite <- Eids in *.
  unfold statement. rewrite (an_reconcile _ _ Ha). cbn [fst snd]. split; [done|].
  set (d1 := set_recipients d rows). split.
  - unfold settle. simpl. rewrite map_lookup_imap, Ho. simpl. eexists. split; [done|].
    rewrite bool_decide_eq_true_2 by done. unfold settleable. rewrite Ho0.
    assert (forall s, s = 0 \/ s = 3 -> has_state d1 ev s = false) as Hs.
    { intros s Hs. apply has_state_false. intros u r Hr. destruct (Hdone u r Hr); lia. }
    rewrite (Hs 0) by auto. simpl. unfold settle_parent. by rewrite (Hs 3) by auto.
  - intros u [r Hr]. simpl. subst d1. simpl.
    destruct (rows !! (ev, u)) as [r'|] eqn:E; [eauto|]. subst rows. by rewrite complete_rows_lookup, Hr in E.
Qed.

(** The claim right after an event is committed. *)
Lemma claim_appended now now' token worker d d' cm :
  log_ok d -> log_ok d' -> dispatch_ok d -> log_appended cm now d d' -> now <= now' ->
  (size (dispatch_recipients d (cm_channel_id cm)) <= 100)%nat ->
  exists claims d1 o,
    claim now' token no_faults (fun _ => false) worker DEFAULT_CHUNK_SIZE (Some (cm_id cm)) d' = (Ok claims, d1) /\
    t_outbox d1 !! cm_id cm = Some o /\ o_status o = 0 /\
    (forall c, c ∈ claims -> cl_event_id c = cm_id cm /\ cl_commit c = cm) /\
    (forall u, is_Some (t_recipients d1 !! (cm_id cm, u)) <-> u ∈ dispatch_recipients d (cm_channel_id cm)) /\
    (exists u r, t_recipients d1 !! (cm_id cm, u) = Some r) /\
    (forall u r, t_recipients d1 !! (cm_id cm, u) = Some r ->
       rc_state r = 0 /\ exists c, c ∈ claims /\ claim_key_of c = (cm_id cm, u) /\ cl_lease_token c = rc_lease_token r).
Proof.
  intros Hlog Hlog' Hd Ha Hnow Hsize.
  destruct (la_outbox _ _ _ _ Ha) as (o & Ho & _ & _ & _ & Ho0).
  assert (t_outbox d' !! cm_id cm = Some o) as Ho' by by rewrite Ho, lookup_insert_eq.
  assert (forall u, is_Some (t_recipients d' !! (cm_id cm, u)) <-> u ∈ dispatch_recipients d (cm_channel_id cm)) as Haddr
    by (intros u; by eapply appended_addressed).
  destruct (claim_fresh_event now' token worker d' (cm_id cm) cm (dispatch_recipients d (cm_channel_id cm)))
    as (claims & d1 & Eclaim & Eo & Hclaims & Hrows);
    [done|rewrite (la_log _ _ _ _ Ha); set_solver|done|done|by eauto| |].
  { intros u r Hr. split; [apply Haddr; by eexists|].
    rewrite (la_recipients _ _ _ _ Ha) in Hr. apply add_recipients_Some in Hr as [Hr|(_ & _ & ->)]; [|done].
    destruct (dk_row _ Hd _ _ _ Hr) as (_ & _ & Hf). rewrite (la_fresh _ _ _ _ Ha) in Hf. by destruct Hf. }
  assert (forall u, is_Some (t_recipients d1 !! (cm_id cm, u)) <-> u ∈ dispatch_recipients d (cm_channel_id cm)) as Hdom.
  { intros u. rewrite <- Haddr. unfold claim, statement in Eclaim. simpl in Eclaim. injection Eclaim as _ <-. simpl.
    rewrite lease_rows_lookup. apply fmap_is_Some. }
  exists claims, d1, o. rewrite Eo. do 5 (split; [done|]). split; [|done].
  pose proof (la_users _ _ _ _ Ha) as Hne.
  destruct (new_recipients d (cm_id cm) (cm_channel_id cm)) as [|u us] eqn:E; [done|].
  exists u. apply Hdom, Haddr. rewrite (la_recipients _ _ _ _ Ha). apply add_recipients_lookup. right. rewrite E. set_solver.
Qed.

(** A committed event is dispatched to everybody it is addressed to. *)
Lemma dispatch_event_reaches env now now' token worker g cm d' p :
  cluster_ok g -> timeline_step (g_db g) d' -> log_appended cm now (g_db g) d' -> now <= now' -> is_i64 (cm_id cm) ->
  (size (dispatch_recipients (g_db g) (cm_channel_id cm)) <= 100)%nat ->
  push_from_claim (mkClaimed (cm_id cm) 0 0 0 cm) = Ok p -> answering env p ->
  let '(out, d2, w2) :=
    dispatch_event env true now' token no_faults (fun _ => false) worker (as_u64 (cm_id cm)) d' (g_wire g) in
  is_ok out = true /\
  (forall u, u ∈ dispatch_recipients (g_db g) (cm_channel_id cm) -> exists r,
     t_recipients d2 !! (cm_id cm, u) = Some r /\
     ((rc_state r = 1 /\ Routed (cm_id cm) u p ∈ w_log w2) \/ (rc_state r = 2 /\ Enqueued (cm_id cm) u p ∈ w_log w2))) /\
  exists o, t_outbox d2 !! cm_id cm = Some o /\ o_status o = 1.
Proof.
  destruct g as [d w cl dn]. cbn [g_db g_wire]. intros Hg Hstep Ha Hnow Hid Hsize Hp Hans.
  pose proof (cluster_step_ok _ _ (CS_timeline d d' w cl dn Hstep) Hg) as Hg'.
  destruct (ck_log _ Hg) as [Hlog _]. destruct (ck_log _ Hg') as [Hlog' _].
  pose proof (dispatch_event_steps env true now' token no_faults (fun _ => false) worker (as_u64 (cm_id cm)) d' w cl dn Hg')
    as Hrun.
  unfold dispatch_event, claim_event in *. rewrite as_i64_as_u64_id in * by done.
  destruct (claim_appended now now' token worker d d' cm Hlog Hlog' (ck_dispatch _ Hg) Ha Hnow Hsize)
    as (claims & d1 & o & Eclaim & Ho & Ho0 & Hclaims & Hdom & Hsome & Hrows).
  pose proof (claim_ok now' token no_faults (fun _ => false) worker DEFAULT_CHUNK_SIZE (Some (cm_id cm)) d'
    (ck_dispatch _ Hg')) as Hd1.
  rewrite Eclaim in *. simpl in Hd1. unfold dispatch_claims in *.
  destruct (resolve_claims_answered env p claims d1 w Hans) as [Hdel Hcov].
  { intros c [Hce Hcc]%Hclaims. rewrite <- Hp. by apply push_from_claim_same. }
  destruct (resolve_claims env claims d1 w) as [cs w2]. simpl in Hdel, Hcov.
  destruct (record_delivered env p cs d1 (cm_id cm) o) as (Hok & Hparent & Hstates); try done.
  { intros u r Hr. destruct (Hrows u r Hr) as (H0 & c & Hc & Hk & Ht). split; [done|].
    destruct (Hcov c Hc) as (k & Hk' & <-). by exists k. }
  destruct (record_completions env cs d1) as [out d2]. simpl in *. destruct Hrun as (cl' & dn' & Hrun).
  pose proof (cluster_steps_ok _ _ Hrun Hg') as Hg2.
  assert (cm ∈ t_log d2) as Hcm
    by (eapply (cluster_steps_log _ _ _ Hrun); simpl; rewrite (la_log _ _ _ _ Ha); set_solver).
  split; [done|]. split; [|done]. intros u Hu. destruct (Hstates u) as (r & Hr & Hst); [by apply Hdom|].
  exists r. split; [done|]. destruct (ck_rows _ Hg2 _ _ _ Hr) as [H1 H2].
  destruct Hst as [Hst|Hst]; [left|right]; (split; [done|]);
    [eapply (handed_over_push Routed _ cm u p Hg2)|eapply (handed_over_push Enqueued _ cm u p Hg2)]; auto.
Qed.
End Run.

Section DispatchProperties.
Context `{P : ProtocolCrate, Ch : Chrono, Pg : Postgres, Co : !EventCodec, Pc : !PushCodec}.

(** C2. A committed message reaches everybody it is addressed to. After a send has
    been committed to a channel of at most 100 members, one dispatch of its event
    with a router that answers and stores that do not fail gives every member the
    message, as one push with its id, pts and payload, to a session or to the
    member's offline queue, records which of the two, and closes the event as
    dispatched. *)
Theorem committed_send_reaches_everyone env now ev ret db worker token now' g req r d' ty payload bytes :
  reachable_cluster g -> request_typed req ->
  (forall row, row ∈ t_messages (g_db g) -> r_message_id row <> as_i64 (m_message_id (q_message req))) ->
  create_message_and_commit_atomic now ev ret db (g_db g) req = (Ok r, d') -> res_inserted r = true ->
  q_event req = NewMessage ty payload -> payload_to_legacy_json payload = Ok bytes ->
  (forall e b, encode_fb e = Ok b -> decode_fb b = Ok e) ->
  timestamp_millis now <= now' -> is_i64 ev ->
  (size (dispatch_recipients (g_db g) (as_i64 (m_channel_id (q_message req)))) <= 100)%nat ->
  (forall p, answering env p) ->
  exists p pts, m_pts (res_message r) = Some pts /\
    pm_server_message_id p = m_message_id (q_message req) /\ pm_message_seq p = as_u32 pts /\ pm_payload p = bytes /\
  let '(out, d2, w2) :=
    dispatch_event env true now' token no_faults (fun _ => false) worker (as_u64 ev) d' (g_wire g) in
  is_ok out = true /\
  (forall u, u ∈ dispatch_recipients (g_db g) (as_i64 (m_channel_id (q_message req))) -> exists row,
     t_recipients d2 !! (ev, u) = Some row /\
     ((rc_state row = 1 /\ Routed ev u p ∈ w_log w2) \/ (rc_state row = 2 /\ Enqueued ev u p ∈ w_log w2))) /\
  exists o, t_outbox d2 !! ev = Some o /\ o_status o = 1.
Proof.
  intros Hg%reachable_cluster_ok Hty Hnew E Hins Hev Hjson Hcodec Hnow Hid Hsize Hans.
  pose proof E as Ecase. apply create_cases in Ecase as [[_ Hno]|(row & cm & Hc & Hout)].
  { rewrite (Hno r eq_refl) in Hins. done. }
  destruct (Hout r eq_refl) as (_ & Hmsg & _).
  pose proof (cd_written _ _ _ _ _ _ _ Hc) as Hm. destruct (cd_commit _ _ _ _ _ _ _ Hc) as [Hi Hch Hpts Hmid _].
  pose proof (cd_log _ _ _ _ _ _ _ Hc) as Ha. destruct (cd_event _ _ _ _ _ _ _ Hc) as (Hv & b & Hb & Hcan).
  assert (exists p, push_from_claim (mkClaimed (cm_id cm) 0 0 0 cm) = Ok p /\
    pm_server_message_id p = m_message_id (q_message req) /\ pm_message_seq p = as_u32 (r_pts row) /\
    pm_payload p = bytes) as (p & Hp & H1 & H2 & H3).
  { unfold push_from_claim, claim_event_of. cbn [cl_commit cl_event_id]. rewrite decide_True by done.
    rewrite Hcan. cbn. rewrite (Hcodec _ _ Hb). cbn. rewrite Hev. cbn. rewrite Hjson. cbn. eexists. split; [done|]. cbn.
    rewrite Hmid, (mw_id _ _ _ _ Hm), as_u64_as_i64 by apply Hty. by rewrite Hpts. }
  exists p, (r_pts row). rewrite Hmsg. do 4 (split; [done|]).
  rewrite <- Hi in *. rewrite <- (mw_channel _ _ _ _ Hm), <- Hch in *.
  apply (dispatch_event_reaches env (timestamp_millis now)); try done. split; [|right; by eauto].
  replace d' with (create_message_and_commit_atomic now (cm_id cm) ret db (g_db g) req).2 by by rewrite E.
  by apply step_create.
Qed.

(** C4. Nothing counts as delivered that was not handed over. In every state
    reached by workers that claim, resolve, complete, reconcile and clean up in any
    order, with crashes, lost replies and late writes, beside the timeline: a
    recipient recorded as sent online has had the push of that event's commit given
    to the router, and one recorded as queued has had it put in the offline queue. *)
Theorem delivered_means_handed_over g ev u r :
  reachable_cluster g -> t_recipients (g_db g) !! (ev, u) = Some r ->
  (rc_state r = 1 -> handed_over Routed g ev u) /\ (rc_state r = 2 -> handed_over Enqueued g ev u).
Proof. intros Hg%reachable_cluster_ok Hr. by apply (ck_rows _ Hg). Qed.

(** An event is closed exactly when its recipients are settled. In every such
    state an event marked dispatched has only recipients sent online or queued, an
    event marked dead has no pending recipient and at least one dead one, every
    recipient belongs to an event of the outbox, and every event of the outbox to a
    commit of the log. *)
Theorem parents_follow_recipients g ev o :
  reachable_cluster g -> t_outbox (g_db g) !! ev = Some o ->
  (o_status o = 0 \/ o_status o = 1 \/ o_status o = 2) /\
  (o_status o = 1 -> forall u r, t_recipients (g_db g) !! (ev, u) = Some r -> rc_state r = 1 \/ rc_state r = 2) /\
  (o_status o = 2 -> (forall u r, t_recipients (g_db g) !! (ev, u) = Some r -> rc_state r <> 0) /\
     exists u r, t_recipients (g_db g) !! (ev, u) = Some r /\ rc_state r = 3) /\
  (forall ev' u r, t_recipients (g_db g) !! (ev', u) = Some r -> is_Some (t_outbox (g_db g) !! ev')) /\
  ev ∈ cm_id <$> t_log (g_db g).
Proof.
  intros Hg%reachable_cluster_ok Ho. pose proof (ck_dispatch _ Hg) as Hd.
  split; [|split; [|split; [|split]]].
  - destruct (dk_parent _ Hd _ _ Ho) as [?|[[? _]|[? _]]]; auto.
  - intros E. destruct (dk_parent _ Hd _ _ Ho) as [?|[[_ H]|[? _]]]; [lia|done|lia].
  - intros E. destruct (dk_parent _ Hd _ _ Ho) as [?|[[? _]|[_ H]]]; [lia|lia|done].
  - intros ev' u r Hr. by destruct (dk_row _ Hd _ _ _ Hr) as (_ & _ & ?).
  - apply (dk_logged _ Hd). by eexists.
Qed.

(** C26. Retrying stops. However many workers run and however their writes are
    lost, no recipient is ever claimed more than eight times, nor are more than eight
    attempts recorded for it. The attempts are those of the claims and nothing else: a
    new row has none, the only step that adds to them is a claim that picks the
    recipient, it adds one, and it hands out at most one claim for it (none, when
    the reply of the statement is lost). *)
Theorem claims_are_bounded g k :
  reachable_cluster g -> claim_count (g_claims g) k <= MAX_ATTEMPTS /\
  (forall r, t_recipients (g_db g) !! k = Some r -> claim_count (g_claims g) k <= rc_attempts r <= MAX_ATTEMPTS) /\
  (forall g' r', cluster_step g g' -> t_recipients (g_db g') !! k = Some r' -> attempts_step g g' k r').
Proof.
  intros Hg%reachable_cluster_ok. split_and!; [| |by intros; apply step_attempts].
  all: pose proof (ck_count _ Hg k) as Hc; fold (claim_count (g_claims g) k) in Hc.
  - destruct (t_recipients (g_db g) !! k) as [r|] eqn:E; [|done]. destruct k as [ev u]. destruct (dk_row _ (ck_dispatch _ Hg) _ _ _ E) as (_ & Hb & _). lia.
  - intros r E. rewrite E in Hc. destruct k as [ev u]. destruct (dk_row _ (ck_dispatch _ Hg) _ _ _ E) as (_ & Hb & _). lia.
Qed.

(** A worker that lost its lease cannot complete. When a recipient has been
    claimed again under another token, a batch of completions that names it only
    with older tokens leaves its row as it is and reports it as fenced. *)
Theorem stale_completion_is_fenced now token locked owner limit event d claims d1 c' cs c now' jitter db :
  claim now token no_faults locked owner limit event d = (Ok claims, d1) -> c' ∈ claims ->
  c ∈ cs -> claim_key_of (dc_claim c) = claim_key_of c' ->
  (forall k, k ∈ cs -> claim_key_of (dc_claim k) = claim_key_of c' -> cl_lease_token (dc_claim k) <> token) ->
  let out := complete_many now' jitter db cs d1 in
  t_recipients out.2 !! claim_key_of c' = t_recipients d1 !! claim_key_of c' /\
  (forall outcomes i, out.1 = Ok outcomes -> cs !! i = Some c -> outcomes !! i = Some Fenced).
Proof.
  intros Eclaim Hc' Hc Hkey Hstale.
  assert (exists r, t_recipients d1 !! claim_key_of c' = Some r /\ rc_lease_token r = token) as (r & Hr & Htok).
  { unfold claim, statement in Eclaim. simpl in Eclaim. injection Eclaim as <- <-.
    apply list_elem_of_bind in Hc' as (k & Hc' & Hk). apply claimed_row_elem in Hc' as (-> & _ & _ & r & Hr & _ & _).
    exists r. split; [done|]. revert Hr. simpl. rewrite lease_rows_lookup, bool_decide_eq_true_2 by done.
    destruct (t_recipients d !! k); [|done]. by intros [= <-]. }
  assert (matching cs (claim_key_of c') r = None) as Hnone.
  { destruct (matching _ _ _) as [k|] eqn:E; [|done]. apply matching_Some in E as (_ & Hk & Hkk & Ht).
    exfalso. apply (Hstale k Hk Hkk). congruence. }
  unfold complete_many. destruct cs as [|c0 cs0]; [by apply elem_of_nil in Hc|]. set (cs := c0 :: cs0) in *.
  set (d2 := set_recipients d1 _).
  assert (t_recipients d2 !! claim_key_of c' = t_recipients d1 !! claim_key_of c') as Hsame.
  { subst d2. simpl. rewrite complete_rows_lookup, Hr. simpl. by rewrite Hnone. }
  unfold statement. destruct (db 0%nat); [destruct (db 1%nat); done|]. split; [done|].
  intros outcomes i Hok Hi. assert (outcomes = outcome_of now' jitter cs d1 <$> cs) as -> by (cbn [fst] in Hok; congruence).
  rewrite list_lookup_fmap, Hi. simpl. f_equal. unfold outcome_of.
  rewrite Hkey, Hr. simpl. by rewrite Hnone.
Qed.

(** C27. The service is an interleaving of atomic statements. Whatever the router,
    the queues and the database answer, [dispatch_event] and a turn of the worker
    loop take a reachable cluster through a sequence of its steps to a reachable
    cluster, so everything proved of all interleavings holds of the service. *)
Theorem dispatch_refines_steps env permit reconcile_due sweep_due db1 db2 parents_locked now token db locked worker
    event_id d w cl dn :
  reachable_cluster (mkCluster d w cl dn) ->
  (let '(_, d', w') := dispatch_event env permit now token db locked worker event_id d w in
   exists cl' dn', reachable_cluster (mkCluster d' w' (cl ++ cl') (dn ++ dn'))) /\
  (let '(_, d', w') :=
     worker_iteration env reconcile_due sweep_due db1 db2 parents_locked now token db locked worker d w in
   exists cl' dn', reachable_cluster (mkCluster d' w' (cl ++ cl') (dn ++ dn'))).
Proof.
  intros Hg. pose proof (reachable_cluster_ok _ Hg) as Hok. destruct Hg as (d0 & w0 & Hn & Ho & Hs). split.
  - pose proof (dispatch_event_steps env permit now token db locked worker event_id d w cl dn Hok) as H.
    destruct (dispatch_event _ _ _ _ _ _ _ _ _ _) as [[out d'] w']. destruct H as (cl' & dn' & H).
    exists cl', dn', d0, w0. do 2 (split; [done|]). by etrans.
  - pose proof (worker_steps env reconcile_due sweep_due db1 db2 parents_locked now token db locked worker d w cl dn Hok)
      as H.
    destruct (worker_iteration _ _ _ _ _ _ _ _ _ _ _ _ _) as [[out d'] w']. destruct H as (cl' & dn' & H).
    exists cl', dn', d0, w0. do 2 (split; [done|]). by etrans.
Qed.
End DispatchProperties.

(** ** A concrete run

    The two users of the example of [TimelineFacts.v]; user 2 has a session. The
    event bytes are a tag, the numbers and the characters of the payload. *)
#[local] Existing Instances demo_protocol demo_chrono demo_postgres.
Definition text_codes (s : string) : list Z := (fun a => Z.of_N (Ascii.N_of_ascii a)) <$> String.list_ascii_of_string s.
Definition codes_text (l : list Z) : string :=
  String.string_of_list_ascii ((fun z => Ascii.ascii_of_N (Z.to_N z)) <$> l).
Definition run_codec : EventCodec := {|
  to_legacy_commit := fun e _ _ => Ok ("text"%string, match e with NewMessage _ p => p | _ => "{}"%string end);
  encode_fb := fun e => Ok (match e with
                            | NewMessage ty p => 0 :: (ty : Z) :: text_codes p
                            | Revoke a b c => [1; a; b; c]
                            | ReactionChange _ => [2] end)
|}.
#[local] Existing Instance run_codec.
Definition run_push_codec : PushCodec := {|
  decode_fb := fun l => match l with
                        | 0 :: ty :: p => Ok (NewMessage (ty : @ContentMessageType demo_protocol) (codes_text p))
                        | [1; a; b; c] => Ok (Revoke a b c)
                        | [2] => Ok (ReactionChange tt)
                        | _ => Err "malformed"%string end;
  from_legacy := fun _ _ _ _ _ => Ok None;
  payload_to_legacy_json := fun p => Ok (text_codes p);
  reaction_actor := fun _ => 0;
  ct_system := 10;
  CANONICAL_TIMELINE_PUSH_TOPIC_V1 := "timeline.v1"
|}.
#[local] Existing Instance run_push_codec.

Lemma codes_text_codes t : codes_text (text_codes t) = t.
Proof.
  unfold codes_text, text_codes. rewrite <- list_fmap_compose. rewrite <- (String.string_of_list_ascii_of_string t) at 2.
  f_equal. rewrite <- list_fmap_id. apply list_fmap_ext. intros i a _. unfold compose.
  by rewrite N2Z.id, Ascii.ascii_N_embedding.
Qed.
Lemma run_codec_round_trip (e : CanonicalTimelineEvent) b : encode_fb e = Ok b -> decode_fb b = Ok e.
Proof. intros [= <-]. destruct e as [ty p|a b c|[]]; simpl; [|done..]. by rewrite codes_text_codes. Qed.

Definition run_start : Cluster := mkCluster demo_tables (mkWire ∅ ∅ []) [] [].
Lemma run_start_reachable : reachable_cluster run_start.
Proof. eexists _, _. split; [apply demo_initial|]. split; [done|]. apply rtc_refl. Qed.

Definition run_env : DispatchEnv :=
  mkDispatchEnv 20 (fun _ => 0) true true
    (fun u _ => Ok (if u =? 2 then mkRoute 1 0 (Some 77) else mkRoute 0 0 None))
    no_faults offline_queue_new (fun _ => None) no_faults no_faults.
Lemma run_env_answering p : answering run_env p.
Proof. split; try done. intros u. simpl. destruct (u =? 2); eexists; (split; [done|]); simpl; lia. Qed.

Definition run_sent := create_message_and_commit_atomic 10 1 7 no_faults demo_tables (demo_send 100).
Definition run_dispatched :=
  dispatch_event run_env true 20 555 no_faults (fun _ => false) "w1" 1 run_sent.2 (g_wire run_start).

Example run_dispatched_log :
  w_log run_dispatched.2 =
    let p := mkPush true "msg_100" 100 1 9 0 7 1 0 EmptyString 1 (text_codes "hi") in
    [Routed 1 2 p; PublishDelivered 100 2; ReceiptPushed 1 100; Enqueued 1 1 p].
Proof. by vm_compute. Qed.

Lemma run_sent_inserted : match run_sent.1 with Ok r => res_inserted r | Err _ => false end = true.
Proof. by vm_compute. Qed.
Lemma run_request_new (row : MessageRow) : row ∈ t_messages (g_db run_start) ->
  r_message_id row <> as_i64 (m_message_id (q_message (demo_send 100))).
Proof. intros H. by apply elem_of_nil in H. Qed.

Lemma committed_send_reaches_everyone_witness :
  exists r p, run_sent.1 = Ok r /\ pm_server_message_id p = 100 /\ pm_payload p = text_codes "hi" /\
    (forall u, u ∈ dispatch_recipients demo_tables 7 -> exists row,
       t_recipients run_dispatched.1.2 !! (1, u) = Some row /\
       ((rc_state row = 1 /\ Routed 1 u p ∈ w_log run_dispatched.2) \/
        (rc_state row = 2 /\ Enqueued 1 u p ∈ w_log run_dispatched.2))).
Proof.
  destruct run_sent as [[r|e] d'] eqn:E; pose proof run_sent_inserted as Hi; rewrite E in Hi; [|discriminate Hi].
  destruct (committed_send_reaches_everyone run_env 10 1 7 no_faults "w1" 555 20 run_start (demo_send 100) r d'
    0 "hi"%string (text_codes "hi") run_start_reachable) as (p & pts & _ & Hm & _ & Hp & H).
  - unfold request_typed, is_u64. simpl. lia.
  - apply run_request_new.
  - exact E.
  - exact Hi.
  - done.
  - done.
  - apply run_codec_round_trip.
  - by vm_compute.
  - unfold is_i64. lia.
  - vm_compute. lia.
  - apply run_env_answering.
  - exists r, p. split; [done|]. split; [done|]. split; [done|].
    unfold run_dispatched. rewrite E. destruct (dispatch_event _ _ _ _ _ _ _ _ _ _) as [[out d2] w2].
    destruct H as (_ & H & _). exact H.
Defined.

Lemma run_timeline_step : timeline_step demo_tables run_sent.2.
Proof.
  split; [apply step_create; [unfold request_typed, is_u64; simpl; lia|apply run_request_new]|right].
  destruct (create_cases 10 1 7 no_faults demo_tables (demo_send 100) run_sent.1 run_sent.2 (surjective_pairing _))
    as [[_ Hno]|(row & cm & Hc & _)]; [|by eexists _, _; apply (cd_log _ _ _ _ _ _ _ Hc)].
  pose proof run_sent_inserted as Hi. destruct run_sent.1 as [r|e]; [|done]. by rewrite (Hno r eq_refl) in Hi.
Qed.
Definition run_committed : Cluster := mkCluster run_sent.2 (g_wire run_start) [] [].
Lemma run_committed_reachable : reachable_cluster run_committed.
Proof.
  eexists _, _. split; [apply demo_initial|]. split; [done|]. apply rtc_once, CS_timeline, run_timeline_step.
Qed.
Lemma run_end_reachable : exists cl dn, reachable_cluster (mkCluster run_dispatched.1.2 run_dispatched.2 cl dn).
Proof.
  pose proof (dispatch_event_steps run_env true 20 555 no_faults (fun _ => false) "w1" 1 run_sent.2 (g_wire run_start)
    [] [] (reachable_cluster_ok _ run_committed_reachable)) as H.
  fold run_dispatched in H. destruct run_dispatched as [[out d2] w2]. destruct H as (cl & dn & H).
  destruct run_committed_reachable as (d & w & Hn & Ho & Hs). exists cl, dn, d, w. split; [done|]. split; [done|]. by etrans.
Qed.
Definition run_state (u : Z) : option Z := rc_state <$> t_recipients run_dispatched.1.2 !! (1, u).

Lemma delivered_means_handed_over_witness :
  run_state 2 = Some 1 /\ run_state 1 = Some 2 /\
  exists cl dn, handed_over Routed (mkCluster run_dispatched.1.2 run_dispatched.2 cl dn) 1 2 /\
    handed_over Enqueued (mkCluster run_dispatched.1.2 run_dispatched.2 cl dn) 1 1.
Proof.
  assert (run_state 2 = Some 1) as H2 by by vm_compute. assert (run_state 1 = Some 2) as H1 by by vm_compute.
  split; [done|]. split; [done|]. destruct run_end_reachable as (cl & dn & Hg). exists cl, dn.
  apply fmap_Some in H1 as (r1 & Hr1 & Hs1). apply fmap_Some in H2 as (r2 & Hr2 & Hs2). split.
  - by apply (delivered_means_handed_over _ 1 2 r2 Hg Hr2).
  - by apply (delivered_means_handed_over _ 1 1 r1 Hg Hr1).
Defined.

Lemma parents_follow_recipients_witness :
  exists o, t_outbox run_dispatched.1.2 !! 1 = Some o /\ o_status o = 1 /\
    forall u r, t_recipients run_dispatched.1.2 !! (1, u) = Some r -> rc_state r = 1 \/ rc_state r = 2.
Proof.
  assert (o_status <$> t_outbox run_dispatched.1.2 !! 1 = Some 1) as H by by vm_compute.
  apply fmap_Some in H as (o & Ho & Hs). exists o. split; [done|]. split; [done|].
  destruct run_end_reachable as (cl & dn & Hg). by apply (parents_follow_recipients _ 1 o Hg Ho).
Defined.

Lemma claims_are_bounded_witness :
  exists cl dn, reachable_cluster (mkCluster run_dispatched.1.2 run_dispatched.2 cl dn) /\
    claim_count cl (1, 2) <= MAX_ATTEMPTS.
Proof.
  destruct run_end_reachable as (cl & dn & Hg). exists cl, dn. split; [done|].
  by apply (claims_are_bounded _ (1, 2) Hg).
Defined.

Definition run_turn :=
  worker_iteration run_env true true no_faults no_faults (fun _ => false) 20 555 no_faults (fun _ => false) "w1"
    run_sent.2 (g_wire run_start).
Lemma dispatch_refines_steps_witness :
  is_ok run_turn.1.1 = true /\
  exists cl' dn', reachable_cluster (mkCluster run_turn.1.2 run_turn.2 cl' dn').
Proof.
  split; [by vm_compute|].
  destruct (dispatch_refines_steps run_env true true true no_faults no_faults (fun _ => false) 20 555 no_faults
    (fun _ => false) "w1" 1 _ _ [] [] run_committed_reachable) as [_ H].
  fold run_turn in H. destruct run_turn as [[out d'] w']. exact H.
Defined.

(** The same event claimed by two workers, the second after the first one's lease. *)
Definition run_claim1 := claim_event 20 555 no_faults (fun _ => false) "w1" 1 run_sent.2.
Definition run_claim2 := claim_event 40000 556 no_faults (fun _ => false) "w2" 1 run_claim1.2.
Definition run_late : list DispatchCompletion :=
  (fun c => mkCompletion c (Some OnlineSent) None) <$> claims_of run_claim1.1.

Lemma claim_without_faults now token locked owner limit event d :
  claim now token no_faults locked owner limit event d =
    (Ok (claims_of (claim now token no_faults locked owner limit event d).1),
     (claim now token no_faults locked owner limit event d).2).
Proof. done. Qed.

Lemma stale_completion_is_fenced_witness :
  (complete_many 40001 (fun _ => 0) no_faults run_late run_claim2.2).1 = Ok [Fenced; Fenced] /\
  exists c', c' ∈ claims_of run_claim2.1 /\
    t_recipients (complete_many 40001 (fun _ => 0) no_faults run_late run_claim2.2).2 !! claim_key_of c' =
      t_recipients run_claim2.2 !! claim_key_of c'.
Proof.
  split; [by vm_compute|].
  assert (claim_key_of <$> claims_of run_claim2.1 = [(1, 1); (1, 2)]) as K2 by by vm_compute.
  assert ((fun k => (claim_key_of (dc_claim k), cl_lease_token (dc_claim k))) <$> run_late =
    [((1, 1), 555); ((1, 2), 555)]) as K1 by by vm_compute.
  apply fmap_cons_inv in K2 as (c' & rest & Hc' & _ & E2).
  pose proof K1 as K1'. apply fmap_cons_inv in K1' as (c & rest' & Hc & _ & E1).
  exists c'. split; [rewrite E2; left|].
  apply (stale_completion_is_fenced 40000 556 (fun _ => false) "w2" DEFAULT_CHUNK_SIZE (Some (as_i64 1)) run_claim1.2
    (claims_of run_claim2.1) run_claim2.2 c' run_late c).
  - apply claim_without_faults.
  - rewrite E2. left.
  - rewrite E1. left.
  - rewrite <- Hc'. symmetry. exact (f_equal fst Hc).
  - intros k Hin _ Ht. apply (list_elem_of_fmap_2 (fun k => (claim_key_of (dc_claim k), cl_lease_token (dc_claim k)))) in Hin.
    rewrite K1, Ht in Hin. by repeat (apply elem_of_cons in Hin as [Hin|Hin]; [discriminate Hin|]); apply elem_of_nil in Hin.
Defined.

(** A recipient whose worker dies during the eighth attempt stays pending for
    good: the row is never claimed again, its event is never settled and never
    cleaned up. *)
Fixpoint lost_claims (n : nat) (now : Z) (d : TimelineDb) : TimelineDb :=
  match n with
  | O => d
  | S n => lost_claims n (now + 30001) (claim_pending now now no_faults (fun _ => false) "w" 100 d).2
  end.
Definition run_stranded := lost_claims 8 20 run_sent.2.
Example exhausted_recipient_is_stranded :
  length (claims_of (claim_pending (10 ^ 18) 1 no_faults (fun _ => false) "w" 100 run_stranded).1) = 0%nat /\
  (reconcile_terminal_parents (10 ^ 18) no_faults (fun _ => false) 1000 run_stranded).1 = Ok 0 /\
  (cleanup_retained (10 ^ 18) no_faults (fun _ => false) 1000 run_stranded).1 = Ok 0 /\
  (fun r => (rc_state r, rc_attempts r)) <$> t_recipients run_stranded !! (1, 2) = Some (0, 8).
Proof. split; [|split; [|split]]; vm_compute; reflexivity. Qed.
