(* ===== verification/Submit.v ===== *)
(** * Submitting a command and the sync RPCs

    Models [handle_client_submit] and [handle_batch_get_channel_pts] of
    src/src/service/sync/sync_service.rs with registry_dao.rs, and the RPC
    handlers of src/src/rpc/sync/mod.rs with the channel guard of rpc/mod.rs: the
    way a message of a client enters the timeline, and the way the timeline is
    read by those who may.

    A submit is not atomic: it looks for a duplicate first and runs its
    transaction later. [checked] is the database at the first moment, [d] at the
    second. What the code spawns or enqueues after the commit is returned as a
    list of [after_commit] actions; what the RPC does to the message views once the
    command is accepted is [project_submit_to_message_views]. *)

From stdpp Require Import base numbers gmap list strings relations.
From S2P Require Import Prelude Pts Channel SendAuth Timeline TimelineFacts OfflineQueue Dispatch Sync SyncFacts.
Local Open Scope Z_scope.

(** ** Protocol types *)
Inductive ServerDecision := Accepted | Transformed (reason : string) | Rejected (reason : string).

Record ClientSubmitRequest `{ProtocolCrate} := mkSubmit {
  su_local_message_id : Z;
  su_channel_id : Z;
  su_channel_type : Z;
  su_last_pts : Z;
  su_command_type : string;
  su_payload : Json
}.
Record ClientSubmitResponse := mkSubmitted {
  sr_decision : ServerDecision;
  sr_pts : option Z;
  sr_server_msg_id : option Z;
  sr_server_timestamp : Z;
  sr_local_message_id : Z;
  sr_has_gap : bool;
  sr_current_pts : Z
}.

(** The parts of the protocol crate a submit uses. *)
Class SubmitCodec `{ProtocolCrate} := {
  ct_from_str : string -> option ContentMessageType;
  ct_file : ContentMessageType;
  ct_contact_card : ContentMessageType;
  ct_link : ContentMessageType;
  MessageMetadata : Type;
  payload_content : MessagePayload -> string;
  payload_metadata : MessagePayload -> option MessageMetadata;
  payload_reply_to : MessagePayload -> option Z;
  attachment_refs : MessageMetadata -> list MediaRef;
  to_inner_json_value : MessageMetadata -> Json;
  ct_image : ContentMessageType;
  ct_voice : ContentMessageType;
  ct_video : ContentMessageType;
  ct_location : ContentMessageType;
  ct_sticker : ContentMessageType;
  ct_forward : ContentMessageType;
  json_str_field : Json -> string -> option string;
  json_to_string : Json -> string
}.

(** ** The client registry *)
Section Registry.
Context `{P : ProtocolCrate}.

Definition registry_key (sender_id : Z) (device_id : string) (local_message_id : Z) : Z * string * Z :=
  (as_i64 sender_id, device_id, as_i64 local_message_id).

Definition decision_of (s : string) : ServerDecision :=
  if decide (s = "accepted"%string) then Accepted
  else if decide (s = "transformed"%string) then Transformed "Server transformed the message"
  else if decide (s = "rejected"%string) then Rejected "Message was rejected"
  else Accepted.

Definition check_duplicate (db : faults) (d : TimelineDb) (sender_id : Z) (device_id : string) (local_message_id : Z)
    : result (option ClientSubmitResponse) ServerError :=
  exec? db 0%nat else "Failed to check duplicate: " in
  Ok ((fun g => mkSubmitted (decision_of (rg_decision g)) (Some (as_u64 (rg_pts g)))
                  (Some (as_u64 (rg_server_msg_id g))) (rg_created_at g) local_message_id false (as_u64 (rg_pts g)))
        <$> t_registry d !! registry_key sender_id device_id local_message_id).

Definition batch_check_duplicate (db : faults) (d : TimelineDb) (sender_id : Z) (device_id : string) (ids : list Z)
    : result (list (Z * bool)) ServerError :=
  match ids with
  | [] => Ok []
  | _ =>
      exec? db 0%nat else "Failed to batch check duplicate: " in
      Ok ((fun i => (i, bool_decide (is_Some (t_registry d !! registry_key sender_id device_id i)))) <$> ids)
  end.
End Registry.

(** ** Submitting *)
Section Submit.
Context `{P : ProtocolCrate, Ch : Chrono, Pg : Postgres, Co : !EventCodec, Pc : !PushCodec, Sc : !SubmitCodec}.

Definition normalize_submit_content_type (command_type : string) : ContentMessageType :=
  let value := to_ascii_lowercase (trim command_type) in
  if decide (value = "audio"%string) then ct_file
  else if decide (value = "contactcard"%string \/ value = "card"%string) then ct_contact_card
  else if decide (value = "url"%string) then ct_link
  else default ct_text (ct_from_str value).

Definition typed_media_refs (m : option MessageMetadata) : list MediaRef := default [] (attachment_refs <$> m).

Definition message_from_submit (req : ClientSubmitRequest) (sender_id server_message_id now : Z)
    : result (Message * list MediaRef * CanonicalTimelineEvent) ServerError :=
  let content_type := normalize_submit_content_type (su_command_type req) in
  let? event :=
    match from_legacy (ct_as_str content_type) (su_payload req) server_message_id sender_id (timestamp_millis now) with
    | Err e => Err (Validation ("invalid sync/submit message payload: " +:+ e))
    | Ok None => Err (Validation "sync/submit supports only canonical new-message commands")
    | Ok (Some e) => Ok e
    end in
  match event with
  | NewMessage ty payload =>
      Ok (mkMsg _ server_message_id (su_channel_id req) sender_id None (Some (su_local_message_id req))
            (payload_content payload) ty
            (default json_object (to_inner_json_value <$> payload_metadata payload)) (payload_reply_to payload)
            now now false None false None None None,
          typed_media_refs (payload_metadata payload), event)
  | _ => Err (Validation "sync/submit mutation commands require their dedicated RPC")
  end.

(** What follows a commit outside the request. *)
Inductive after_commit :=
| CacheCommit (c : ServerCommit)
| DispatchEvent (event_id : Z)
| IncrementUnread (channel_id sender_id count : Z).

(** The commit a submit hands to the cache and the dispatcher. *)
Definition submitted_commit (req : ClientSubmitRequest) (sender_id pts : Z) (content : Json) (r : AtomicMessageCommitResult)
    : ServerCommit :=
  let m := res_message r in
  mkServerCommit _ (res_event_id r) pts (m_message_id m) (m_local_message_id m) (m_channel_id m)
    (su_channel_type req) (ct_as_str (m_message_type m)) content (timestamp_millis (m_created_at m)) sender_id
    (Some ("user_" +:+ u64_to_string sender_id)) (res_schema_version r) (res_canonical_event r).

Definition submit_request (req : ClientSubmitRequest) (device_id : string) (m : Message) (refs : list MediaRef)
    (event : CanonicalTimelineEvent) : AtomicMessageCommitRequest :=
  mkCommitRequest _ m None (Some (mkClaim device_id "accepted")) refs (su_channel_type req) event None.

(** From the generated message id on: the transaction and the reply. *)
Definition commit_submit (now event_id msg_id ret : Z) (db : faults) (d : TimelineDb) (g : PtsGenerator.PtsGenerator)
    (req : ClientSubmitRequest) (sender_id : Z) (device_id : string) (server_pts : Z)
    : result ClientSubmitResponse ServerError * TimelineDb * PtsGenerator.PtsGenerator * list after_commit :=
  let has_gap := su_last_pts req <? Z.max 0 (server_pts - 1) in
  match message_from_submit req sender_id msg_id now with
  | Err e => (Err e, d, g, [])
  | Ok (message, refs, event) =>
      match to_legacy_commit event (su_channel_id req) (su_channel_type req) with
      | Err e => (Err (Protocol ("sync/submit legacy projection failed: " +:+ e)), d, g, [])
      | Ok (_, commit_content) =>
          match create_message_and_commit_atomic now event_id ret db d
                  (submit_request req device_id message refs event) with
          | (Err e, d') => (Err (Database ("atomic sync/submit commit failed: " +:+ server_error_display e)), d', g, [])
          | (Ok r, d') =>
              let m := res_message r in
              let new_pts := as_u64 (Z.max 0 (default 0 (m_pts m))) in
              if negb (res_inserted r) then
                (Ok (mkSubmitted Accepted (Some new_pts) (Some (m_message_id m)) (timestamp_millis (m_created_at m))
                       (su_local_message_id req) has_gap (Z.max server_pts new_pts)), d', g, [])
              else
                let commit := submitted_commit req sender_id new_pts commit_content r in
                (Ok (mkSubmitted Accepted (Some new_pts) (Some msg_id) (sc_server_timestamp commit)
                       (su_local_message_id req) has_gap server_pts),
                 d', PtsGenerator.set_pts g (su_channel_id req) new_pts,
                 CacheCommit commit :: match sc_event_id commit with Some e => [DispatchEvent e] | None => [] end
                   ++ [IncrementUnread (su_channel_id req) sender_id 1])
          end
      end
  end.

(** The faults of the three stages are [dup], [io] (cache and pts) and [db]. *)
Definition handle_client_submit `{CT : !CommitText} (now event_id msg_id ret : Z) (dup io db : faults)
    (checked d : TimelineDb) (k : SyncCache) (g : PtsGenerator.PtsGenerator)
    (req : ClientSubmitRequest) (sender_id : Z) (device_id : string)
    : result ClientSubmitResponse ServerError * TimelineDb * SyncCache * PtsGenerator.PtsGenerator * list after_commit :=
  let duplicate :=
    if su_local_message_id req =? 0 then Ok None
    else check_duplicate dup checked sender_id device_id (su_local_message_id req) in
  match duplicate with
  | Err e => (Err e, d, k, g, [])
  | Ok (Some existing) => (Ok existing, d, k, g, [])
  | Ok None =>
      match read_pts io d k (su_channel_id req) with
      | Err e => (Err e, d, k, g, [])
      | Ok (server_pts, k') =>
          let '(out, d', g', after) := commit_submit now event_id msg_id ret db d g req sender_id device_id server_pts in
          (out, d', k', g', after)
      end
  end.
End Submit.

(** ** The message views

    What [sync/submit] does after an accepted command: it looks the message up (and, for a
    peer of an older version, writes the row that is missing), sets the last message of the
    channel and starts the task that tells a system user of a message it received. *)
Section Views.
Context `{P : ProtocolCrate, Ch : Chrono, Pg : Postgres, Co : !EventCodec, Pc : !PushCodec, Sc : !SubmitCodec}.

Definition normalize_submit_payload (req : ClientSubmitRequest) : ContentMessageType * string * Json :=
  let cmd := lowercase_keyword (su_command_type req) in
  let ty :=
    if decide (cmd = "image"%string) then ct_image
    else if decide (cmd = "file"%string \/ cmd = "audio"%string) then ct_file
    else if decide (cmd = "voice"%string) then ct_voice
    else if decide (cmd = "video"%string) then ct_video
    else if decide (cmd = "location"%string) then ct_location
    else if decide (cmd = "contact_card"%string) then ct_contact_card
    else if decide (cmd = "sticker"%string) then ct_sticker
    else if decide (cmd = "forward"%string) then ct_forward
    else if decide (cmd = "link"%string) then ct_link
    else if decide (cmd = "system"%string) then ct_system
    else ct_text in
  let content :=
    match json_str_field (su_payload req) "text", json_str_field (su_payload req) "content" with
    | Some t, _ => t
    | None, Some t => t
    | None, None =>
        if decide (ty = ct_location) then "[location]"%string
        else if decide (ty = ct_contact_card) then "[contact_card]"%string
        else json_to_string (su_payload req)
    end in
  (ty, content, su_payload req).

(** The row a peer of an older version did not write. *)
Definition missing_message (now : Z) (req : ClientSubmitRequest) (sender_id mid pts server_timestamp : Z) : Message :=
  let '(ty, content, metadata) := normalize_submit_payload req in
  let at_ := default now (from_timestamp_millis server_timestamp) in
  mkMsg _ mid (su_channel_id req) sender_id (Some (as_i64 pts)) (Some (su_local_message_id req)) content ty metadata
    None at_ at_ false None false None None None.

(** [SetLastMessage] is the call of [update_last_message] of the channel service, whose
    result is dropped; [ReceivedTask] the spawned task. *)
Inductive view_effect :=
| SetLastMessage (channel_id message_id : Z)
| ReceivedTask (channel_id sender_id message_id pts : Z) (message_type : string) (server_timestamp : Z).

(** [events]: an event client is configured. [pdb 0] and [pdb 1] are the faults of the two
    statements; an error is only logged. *)
Definition project_submit_to_message_views (events : bool) (now ret : Z) (pdb : faults) (req : ClientSubmitRequest)
    (sender_id : Z) (resp : ClientSubmitResponse) (d : TimelineDb) : TimelineDb * list view_effect :=
  match sr_decision resp, sr_server_msg_id resp, sr_pts resp with
  | Accepted, Some mid, Some pts =>
      match find_by_id now pdb d mid with
      | Err _ => (d, [])
      | Ok found =>
          let written :=
            match found with
            | Some m => Ok (m, d)
            | None =>
                let m := missing_message now req sender_id mid pts (sr_server_timestamp resp) in
                exec? pdb 1%nat else "Failed to create message: " in
                let? d' := insert_message "Failed to create message: " d (to_db_values m (read_detail_expires_at_for_insert ret m)) in
                Ok (m, d')
            end in
          match written with
          | Err _ => (d, [])
          | Ok (m, d') =>
              (d', SetLastMessage (su_channel_id req) mid ::
                   if events then [ReceivedTask (su_channel_id req) sender_id mid pts (ct_as_str (m_message_type m)) (sr_server_timestamp resp)]
                   else [])
          end
      end
  | _, _, _ => (d, [])
  end.

(** The event such a task emits: system user, sender, channel, message, pts, type, time. *)
Definition received_event (channels : Z -> option Channel) (user_type : Z -> result (option Z) ServerError) (e : view_effect)
    : option (Z * Z * Z * Z * Z * string * Z) :=
  match e with
  | SetLastMessage _ _ => None
  | ReceivedTask ch sender mid pts ty ts =>
      match channels ch with
      | Some c =>
          if decide (channel_type c <> Direct) then None else
          match direct_peer c sender with
          | Some peer =>
              match user_type sender, user_type peer with
              | Ok st, Ok pt =>
                  if decide (st = Some 1) then None else if decide (pt <> Some 1) then None
                  else Some (peer, sender, ch, mid, pts, ty, ts)
              | _, _ => None
              end
          | None => None
          end
      | None => None
      end
  end.
End Views.

(** ** The RPC layer *)
Record RpcContext := mkRpcContext { rx_user_id : option string; rx_device_id : option string }.

Definition get_current_user_id (ctx : RpcContext) : result Z RpcError :=
  let? s := ok_or (rx_user_id ctx) (rpc_unauthorized "User not authenticated") in
  ok_or (parse_u64 s) (rpc_validation "Invalid user_id format").

Definition resolve_session_device_id (device_id : option string) : result string RpcError :=
  match device_id with
  | Some d => if decide (d = EmptyString) then Err (rpc_unauthorized "会话缺少 device_id") else Ok d
  | None => Err (rpc_unauthorized "会话缺少 device_id")
  end.

Definition no_channel (channel_id : Z) : string := "频道不存在: " +:+ u64_to_string channel_id.

(** [channels] is what [get_channel_opt] finds. *)
Definition ensure_channel_visible (channels : Z -> option Channel) (channel_id user_id : Z) : result unit RpcError :=
  let? c := ok_or (channels channel_id) (rpc_not_found (no_channel channel_id)) in
  if is_member c user_id then Ok tt else Err (rpc_not_found (no_channel channel_id)).

Section Rpc.
Context `{P : ProtocolCrate, Ch : Chrono, Pg : Postgres, Co : !EventCodec, Pc : !PushCodec, Sc : !SubmitCodec,
          CT : !CommitText, deps : SendAuthorizationDeps}.
Context (channels : Z -> option Channel).

Definition handle_get_channel_pts_rpc (io : faults) (d : TimelineDb) (k : SyncCache) (ctx : RpcContext) (channel : Z)
    : result Z RpcError * SyncCache :=
  match (let? user := get_current_user_id ctx in ensure_channel_visible channels channel user) with
  | Err e => (Err e, k)
  | Ok _ =>
      match handle_get_channel_pts io d k channel with
      | Ok (p, k') => (Ok p, k')
      | Err e => (Err (rpc_from e), k)
      end
  end.

Definition handle_get_difference_rpc (io : faults) (d : TimelineDb) (k : SyncCache) (ctx : RpcContext)
    (req : GetDifferenceRequest) : result GetDifferenceResponse RpcError * SyncCache * list ServerCommit :=
  match (let? user := get_current_user_id ctx in ensure_channel_visible channels (dq_channel_id req) user) with
  | Err e => (Err e, k, [])
  | Ok _ =>
      let '(out, k', spawned) := handle_get_difference io d k req in
      (match out with Ok r => Ok r | Err e => Err (rpc_from e) end, k', spawned)
  end.

(** [batch_get_current_pts]: the channels one after the other. *)
Fixpoint batch_get_current_pts (io : nat -> faults) (d : TimelineDb) (cs : list Z) : result (list (Z * Z)) ServerError :=
  match cs with
  | [] => Ok []
  | c :: rest =>
      let? p := get_current_pts (io (length rest)) 0 d c in
      let? more := batch_get_current_pts io d rest in
      Ok ((c, p) :: more)
  end.

(** Requests and replies pair channels with their type; of repeated channels the
    last type counts. *)
Definition handle_batch_get_channel_pts (io : nat -> faults) (d : TimelineDb) (cs : list (Z * Z))
    : result (list (Z * Z * Z)) ServerError :=
  let types : gmap Z Z := foldl (fun m c => <[c.1 := c.2]> m) ∅ cs in
  let? ps := batch_get_current_pts io d cs.*1 in
  Ok ((fun cp => (cp.1, default 0 (types !! cp.1), cp.2)) <$> ps).

Definition handle_batch_get_channel_pts_rpc (io : nat -> faults) (d : TimelineDb) (ctx : RpcContext) (cs : list (Z * Z))
    : result (list (Z * Z * Z)) RpcError :=
  let? user := get_current_user_id ctx in
  let allowed := filter (fun c => is_ok (ensure_channel_visible channels c.1 user) = true) cs in
  match handle_batch_get_channel_pts io d allowed with
  | Ok r => Ok r
  | Err e => Err (rpc_internal ("批量获取 pts 失败: " +:+ server_error_display e))
  end.

(** The checks of [handle_submit_rpc]; [clock] is the time of the send decision. *)
Definition submit_gate (clock : Z) (ctx : RpcContext) (req : ClientSubmitRequest) : result (Z * string) RpcError :=
  if decide (to_ascii_lowercase (su_command_type req) = "forward"%string) then
    Err (rpc_validation "forward 为保留类型")
  else
    let? sender_id := get_current_user_id ctx in
    let? channel := ok_or (channels (su_channel_id req)) (rpc_validation (no_channel (su_channel_id req))) in
    let? _ := match authorize_send_to_channel clock channel sender_id with
              | Ok _ => Ok tt
              | Err refusal => Err (mkRpcError (refusal_error_code refusal) (refusal_message refusal))
              end in
    let? device_id := resolve_session_device_id (rx_device_id ctx) in
    Ok (sender_id, device_id).

Definition handle_submit_rpc (events : bool) (clock now event_id msg_id ret : Z) (dup io db pdb : faults)
    (checked d : TimelineDb) (k : SyncCache) (g : PtsGenerator.PtsGenerator) (ctx : RpcContext) (req : ClientSubmitRequest)
    : result ClientSubmitResponse RpcError * TimelineDb * SyncCache * PtsGenerator.PtsGenerator * list after_commit * list view_effect :=
  match submit_gate clock ctx req with
  | Err e => (Err e, d, k, g, [], [])
  | Ok (sender_id, device_id) =>
      let '(out, d', k', g', after) :=
        handle_client_submit now event_id msg_id ret dup io db checked d k g req sender_id device_id in
      match out with
      | Err e => (Err (rpc_internal ("提交失败: " +:+ server_error_display e)), d', k', g', after, [])
      | Ok r =>
          let '(d2, views) := project_submit_to_message_views events now ret pdb req sender_id r d' in
          (Ok r, d2, k', g', after, views)
      end
  end.
End Rpc.
