(* ===== verification/SubmitFacts.v ===== *)
(** * Theorems on submitting and on the sync RPCs

    Exactly-once submission under the client registry, with requests that race
    and replies that are lost; the gates of the RPCs. *)

From stdpp Require Import base numbers gmap list strings relations.
From S2P Require Import Prelude Pts Channel ChannelFacts SendAuth Timeline TimelineFacts OfflineQueue Dispatch Sync SyncFacts Submit.
Local Open Scope Z_scope.

Lemma head_filter_unique {A} (f : A -> Z) (l : list A) x :
  NoDup (f <$> l) -> x ∈ l -> head (filter (fun y => f y = f x) l) = Some x.
Proof.
  intros Hn Hx. destruct (filter (fun y => f y = f x) l) as [|y ys] eqn:E.
  - assert (x ∈ filter (fun y => f y = f x) l) as Hin by by apply list_elem_of_filter. rewrite E in Hin.
    by apply elem_of_nil in Hin.
  - assert (y ∈ filter (fun y => f y = f x) l) as [Hf Hy]%list_elem_of_filter by (rewrite E; left). simpl. f_equal.
    by eapply NoDup_fmap_elem.
Qed.

Section Registry.
Context `{P : ProtocolCrate, Ch : Chrono, Pg : Postgres, Co : !EventCodec}.

(** Entries of the client registry are never changed or removed. *)
Lemma step_registry_kept ret d d' k g :
  tl_step ret d d' -> t_registry d !! k = Some g -> t_registry d' !! k = Some g.
Proof.
  intros Hs Hk.
  destruct Hs as [now ev rt db d req Hu Hf|now ev db d req He|now dt db d mid' rv|now mid' db d c tx ty md Hu Hf|now pk d Ht|d d' Hw].
  - destruct (create_message_and_commit_atomic now ev rt db d req) as [out d'] eqn:E.
    apply create_cases in E as [[-> _]|(row & cm & Hc & _)]; [done|]. simpl.
    destruct (cd_registry _ _ _ _ _ _ _ Hc) as [->|(k' & g' & Hn & -> & _)]; [done|].
    rewrite lookup_insert_ne; [done|]. congruence.
  - destruct (append_timeline_event_atomic now ev db d req) as [out d'] eqn:E.
    apply append_cases in E as [->|(cm & _ & _ & _ & _ & _ & _ & _ & _ & E)]; [done|]. simpl. by rewrite E.
  - by destruct (revoke_cases now dt db d mid' rv) as [-> | ->].
  - by destruct (announce_cases now mid' db d c tx ty md) as [-> | ->].
  - done.
  - by rewrite (wc_registry _ _ Hw).
Qed.
Lemma steps_registry_kept ret d d' k g :
  rtc (tl_step ret) d d' -> t_registry d !! k = Some g -> t_registry d' !! k = Some g.
Proof. induction 1 as [|d d1 d' Hs _ IH]; [done|]. intros Hk. by eapply IH, step_registry_kept. Qed.

(** A transaction under a registered client message number inserts nothing. *)
Lemma create_registered now ev ret db d req claim g r :
  rows_ok d -> q_claim req = Some claim -> q_dedup_key req = None ->
  default 0 (m_local_message_id (q_message req)) <> 0 ->
  t_registry d !! registry_key (m_sender_id (q_message req)) (cl_device_id claim)
    (default 0 (m_local_message_id (q_message req))) = Some g ->
  r ∈ t_messages d -> r_message_id r = rg_server_msg_id g ->
  let again := create_message_and_commit_atomic now ev ret db d req in
  again.2 = d /\
  (forall out, again.1 = Ok out -> out = duplicate_result (message_from_row now r)).
Proof.
  intros Hr Hc Hk Hl Hg Hin Hid. simpl. unfold create_message_and_commit_atomic.
  destruct (check_commit_request req) as [[legacy canonical]|e]; [|done].
  destruct (db 0%nat); [done|]. unfold claim_and_write. rewrite Hk.
  assert (match write_message now ev ret db req legacy canonical d d with
    | Ok (out, o) => o = None /\ out = duplicate_result (message_from_row now r)
    | Err _ => True end) as Hw.
  { unfold write_message. destruct (write_rows _ _ _ _ _ _ _ d) as [[[m row] d7]|e] eqn:Ew; [|done].
    apply write_rows_Ok in Ew as (-> & Hm & Hreg & _). rewrite Hc. simpl m_local_message_id.
    destruct (Z.eqb_spec (default 0 (m_local_message_id (q_message req))) 0); [done|].
    destruct (db 12%nat); [done|]. rewrite Hreg, (mw_sender _ _ _ _ Hm).
    unfold registry_key in Hg. rewrite Hg. unfold find_message_by_client_registry.
    destruct (db 13%nat); [done|]. simpl m_sender_id. rewrite Hg. simpl.
    rewrite <- Hid, head_filter_unique by (done || apply Hr). done. }
  destruct (write_message now ev ret db req legacy canonical d d) as [[out o]|e]; simpl; [|done].
  destruct Hw as [-> ->]. split; [done|]. by intros ? [= <-].
Qed.
End Registry.

Section Submit.
Context `{P : ProtocolCrate, Ch : Chrono, Pg : Postgres, Co : !EventCodec, Pc : !PushCodec, Sc : !SubmitCodec,
          CT : !CommitText}.

Lemma message_from_submit_Ok req sender mid now m refs e : message_from_submit req sender mid now = Ok (m, refs, e) ->
  m_message_id m = mid /\ m_channel_id m = su_channel_id req /\ m_sender_id m = sender /\
  m_local_message_id m = Some (su_local_message_id req) /\ m_created_at m = now.
Proof.
  unfold message_from_submit. destruct (from_legacy _ _ _ _ _) as [[[ty p|? ? ?|?]|]|]; try done.
  by intros [= <- _ _].
Qed.

(** The cases of a submit transaction: nothing changed, or the message is
    committed under the client's number. *)
Lemma commit_submit_cases now ev mid ret db d g req sender device sp out d' g' after : log_ok d ->
  commit_submit now ev mid ret db d g req sender device sp = (out, d', g', after) ->
  (d' = d /\ after = [] /\ g' = g) \/
  exists row cm m refs e, committed (submit_request req device m refs e) ev (timestamp_millis now) row cm d d' /\
    message_from_submit req sender mid now = Ok (m, refs, e) /\
    1 <= r_pts row < 2 ^ 63 /\
    (forall r, out = Ok r -> sr_server_msg_id r = Some mid /\ sr_pts r = Some (r_pts row)).
Proof.
  intros Hlog. unfold commit_submit. destruct (message_from_submit req sender mid now) as [[[m refs] e]|e] eqn:Em;
    [|intros [= _ <- <- <-]; by left].
  destruct (to_legacy_commit _ _ _) as [[x content]|]; [|intros [= _ <- <- <-]; by left].
  assert (forall row cm d1, committed (submit_request req device m refs e) ev (timestamp_millis now) row cm d d1 ->
    1 <= r_pts row < 2 ^ 63) as Hpts.
  { intros row cm d1 Hc. pose proof (cd_log _ _ _ _ _ _ _ Hc) as Ha. pose proof (la_bound _ _ _ _ Ha) as Hb.
    pose proof (la_next _ _ _ _ Ha) as Hn. destruct (lo_pts _ Hlog (cm_channel_id cm)) as [H0 _].
    unfold current_pts_of in H0. rewrite (co_pts _ _ _ (cd_commit _ _ _ _ _ _ _ Hc)) in *. lia. }
  destruct (create_message_and_commit_atomic now ev ret db d _) as [[r|e'] d1] eqn:Ec;
    pose proof Ec as Hcase; apply create_cases in Hcase as [[-> Hno]|(row & cm & Hc & Hok)].
  - rewrite (Hno r eq_refl). simpl. intros [= _ <- <- <-]. by left.
  - destruct (Hok r eq_refl) as (-> & Hmsg & _). simpl. intros [= <- <- <- <-]. right. exists row, cm, m, refs, e.
    pose proof (Hpts _ _ _ Hc). split; [done|]. split; [done|]. split; [done|]. intros ? [= <-]. simpl. split; [done|].
    rewrite Hmsg. simpl. f_equal. rewrite Z.max_r by lia. unfold as_u64. rewrite Z.mod_small; lia.
  - intros [= _ <- <- <-]. by left.
  - intros [= <- <- <- <-]. right. exists row, cm, m, refs, e. pose proof (Hpts _ _ _ Hc). done.
Qed.

Ltac refused := split; [done|]; split; [done|]; split; [done|by intros []].

(** A submit whose client number is registered, whatever its earlier check saw. *)
Lemma submit_registered now ev mid ret dup io db checked d k g req sender device gr :
  rows_ok d -> su_local_message_id req <> 0 ->
  t_registry d !! registry_key sender device (su_local_message_id req) = Some gr -> 1 <= rg_pts gr < 2 ^ 63 ->
  is_i64 (rg_server_msg_id gr) ->
  (forall gr', t_registry checked !! registry_key sender device (su_local_message_id req) = Some gr' -> gr' = gr) ->
  let '(out, d', k', g', after) :=
    handle_client_submit now ev mid ret dup io db checked d k g req sender device in
  d' = d /\ after = [] /\
  (forall r, out = Ok r -> sr_server_msg_id r = Some (as_u64 (rg_server_msg_id gr)) /\ sr_pts r = Some (rg_pts gr)) /\
  (is_Some (t_registry checked !! registry_key sender device (su_local_message_id req)) -> dup 0%nat = None ->
     is_ok out = true).
Proof.
  intros Hr Hl Hg Hp Hi Hchk. destruct (ro_registry _ Hr _ _ Hg) as (r & Hin & Hid & Hrp).
  assert (as_u64 (rg_pts gr) = rg_pts gr) as Hu by (unfold as_u64; rewrite Z.mod_small; lia).
  unfold handle_client_submit. destruct (Z.eqb_spec (su_local_message_id req) 0); [done|].
  unfold check_duplicate. destruct (dup 0%nat); [done|].
  destruct (t_registry checked !! registry_key sender device (su_local_message_id req)) as [gr'|]; simpl.
  { rewrite (Hchk gr' eq_refl). split; [done|]. split; [done|]. split; [|done]. intros ? [= <-]. simpl. by rewrite Hu. }
  destruct (read_pts io d k (su_channel_id req)) as [[sp k']|e]; [|refused].
  unfold commit_submit.
  destruct (message_from_submit req sender mid now) as [[[m refs] e]|e] eqn:Em; [|refused].
  destruct (to_legacy_commit _ _ _) as [[x content]|]; [|refused].
  apply message_from_submit_Ok in Em as (_ & _ & Hsend & Hloc & _).
  destruct (create_registered now ev ret db d (submit_request req device m refs e) (mkClaim device "accepted") gr r)
    as [Hd Hdup]; [done|done|done|simpl; by rewrite Hloc|simpl; by rewrite Hsend, Hloc|done|done|].
  destruct (create_message_and_commit_atomic now ev ret db d _) as [[o|e'] d1]; simpl in Hd; subst d1;
    [|refused].
  rewrite (Hdup o eq_refl). simpl. split; [done|]. split; [done|]. split; [|by intros []].
  intros ? [= <-]. simpl. rewrite Hrp, Hid, Z.max_r, Hu by lia. done.
Qed.
(** What a submit writes is the sender's message in the requested channel. *)
Lemma handle_submit_row now ev mid ret dup io db checked d k g req sender device out d' k' g' after :
  log_ok d ->
  handle_client_submit now ev mid ret dup io db checked d k g req sender device = (out, d', k', g', after) ->
  d' = d \/
  exists row, t_messages d' = t_messages d ++ [row] /\ r_sender_id row = as_i64 sender /\
    r_channel_id row = as_i64 (su_channel_id req).
Proof.
  intros Hl E. unfold handle_client_submit in E.
  destruct (if su_local_message_id req =? 0 then _ else _) as [[?|]|]; [left; congruence| |left; congruence].
  destruct (read_pts io d k (su_channel_id req)) as [[sp k2]|]; [|left; congruence].
  destruct (commit_submit now ev mid ret db d g req sender device sp) as [[[out0 d0] g0] after0] eqn:Ec.
  assert (d0 = d') as -> by congruence.
  apply commit_submit_cases in Ec as [[-> _]|(row & cm & m & refs & e & Hc & Hm & _)]; [by left| |done]. right.
  apply message_from_submit_Ok in Hm as (_ & Hmc & Hms & _). exists row.
  pose proof (cd_written _ _ _ _ _ _ _ Hc) as Hw. split; [apply Hw|].
  rewrite (mw_sender _ _ _ _ Hw), (mw_channel _ _ _ _ Hw). simpl. by rewrite Hms, Hmc.
Qed.

Lemma batch_get_channels io d cs ps : batch_get_current_pts io d cs = Ok ps -> ps.*1 = cs.
Proof.
  revert ps. induction cs as [|c cs IH]; simpl; intros ps; [by intros [= <-]|].
  destruct (get_current_pts _ 0 d c) as [p|]; [|done].
  destruct (batch_get_current_pts io d cs) as [more|]; [|done]. intros [= <-]. simpl. f_equal. by apply IH.
Qed.

(** A submit that took effect is in the registry. *)
Lemma submitted_registered now ev mid ret db d g req sender device sp out d1 g1 after :
  log_ok d -> rows_ok d -> is_u64 mid -> is_u64 (su_channel_id req) -> su_local_message_id req <> 0 ->
  (forall r, r ∈ t_messages d -> r_message_id r <> as_i64 mid) ->
  commit_submit now ev mid ret db d g req sender device sp = (out, d1, g1, after) -> d1 <> d ->
  (log_ok d1 /\ rows_ok d1) /\
  exists gr, t_registry d1 !! registry_key sender device (su_local_message_id req) = Some gr /\
    rg_server_msg_id gr = as_i64 mid /\ rg_pts gr = current_pts_of d (as_i64 (su_channel_id req)) + 1 /\
    1 <= rg_pts gr < 2 ^ 63.
Proof.
  intros Hl Hr Hmid Hch Hloc Hnew Ec Hne.
  apply commit_submit_cases in Ec as [[-> _]|(row & cm & m & refs & e & Hc & Hm & Hb & _)]; [done| |done].
  apply message_from_submit_Ok in Hm as (Hmi & Hmc & Hms & Hml & _).
  pose proof (cd_written _ _ _ _ _ _ _ Hc) as Hw. pose proof (cd_commit _ _ _ _ _ _ _ Hc) as Hco.
  assert (log_ok d1 /\ rows_ok d1) as Hok1.
  { split; [eapply log_ok_committed, Hc; [done|]|eapply rows_ok_committed, Hc; [done..| |]];
      unfold request_typed; simpl; rewrite ?Hmi, ?Hmc; done. }
  split; [done|].
  destruct (cd_registered _ _ _ _ _ _ _ Hc (mkClaim device "accepted") eq_refl) as (gr & Hgid & Hgr);
    [simpl; by rewrite Hml|].
  rewrite (mw_sender _ _ _ _ Hw) in Hgr. simpl in Hgr. rewrite Hms, Hml in Hgr.
  assert (rg_pts gr = r_pts row) as Hgp.
  { destruct (ro_registry _ (proj2 Hok1) _ _ Hgr) as (r & Hin & Hid & <-). f_equal.
    eapply (NoDup_fmap_elem r_message_id); [apply (ro_unique _ (proj2 Hok1))|done| |congruence].
    by eapply committed_row. }
  exists gr. split; [done|]. split; [rewrite Hgid, (mw_id _ _ _ _ Hw); simpl; by rewrite Hmi|].
  rewrite Hgp. split; [|done]. rewrite <- (co_pts _ _ _ Hco), (la_next _ _ _ _ (cd_log _ _ _ _ _ _ _ Hc)).
  rewrite (co_channel _ _ _ Hco), (mw_channel _ _ _ _ Hw). simpl. by rewrite Hmc.
Qed.
(** A submit is a step of the timeline. *)
Lemma submit_steps ret0 now ev mid ret dup io db checked d k g req sender device out d' k' g' after :
  is_u64 mid -> is_u64 (su_channel_id req) -> (forall r, r ∈ t_messages d -> r_message_id r <> as_i64 mid) ->
  handle_client_submit now ev mid ret dup io db checked d k g req sender device = (out, d', k', g', after) ->
  rtc (tl_step ret0) d d'.
Proof.
  intros Hm Hc Hnew E. unfold handle_client_submit in E.
  destruct (if su_local_message_id req =? 0 then _ else _) as [[?|]|]; [by simplify_eq/=| |by simplify_eq/=].
  destruct (read_pts io d k (su_channel_id req)) as [[sp k2]|]; [|by simplify_eq/=].
  destruct (commit_submit now ev mid ret db d g req sender device sp) as [[[out0 d0] g0] after0] eqn:Ec.
  assert (d0 = d') as -> by congruence. clear E. unfold commit_submit in Ec.
  destruct (message_from_submit req sender mid now) as [[[m refs] e]|] eqn:Em; [|by simplify_eq/=].
  destruct (to_legacy_commit _ _ _) as [[x content]|]; [|by simplify_eq/=].
  apply message_from_submit_Ok in Em as (Hmi & Hmc & _).
  pose proof (step_create ret0 now ev ret db d (submit_request req device m refs e)) as Hst.
  destruct (create_message_and_commit_atomic now ev ret db d _) as [o d1]. simpl in Hst.
  assert (d1 = d') as <- by (destruct o as [r|]; [destruct (res_inserted r)|]; simpl in Ec; congruence).
  apply rtc_once, Hst; [split; simpl; by rewrite ?Hmi, ?Hmc|simpl; by rewrite Hmi].
Qed.

(** ** The message of an answer is stored *)
Lemma create_duplicate_row now ev ret db d req r d' : q_dedup_key req = None ->
  create_message_and_commit_atomic now ev ret db d req = (Ok r, d') -> res_inserted r = false ->
  exists row, row ∈ t_messages d /\ res_message r = message_from_row now row.
Proof.
  intros Hk Hcr Hins. unfold create_message_and_commit_atomic in Hcr.
  destruct (check_commit_request req) as [[legacy canonical]|]; [|done].
  unfold claim_and_write in Hcr. rewrite Hk in Hcr. destruct (db 0%nat); [done|].
  unfold write_message in Hcr. destruct (write_rows _ _ _ _ _ _ _ d) as [[[m row] d7]|]; [|done]. unfold finish_tx in Hcr.
  destruct (q_claim req) as [claim|]; [|by destruct (db 10%nat); simplify_eq/=].
  destruct (_ =? 0); [by destruct (db 10%nat); simplify_eq/=|]. destruct (db 12%nat); [done|].
  destruct (t_registry d7 !! _); [|by destruct (db 10%nat); simplify_eq/=].
  unfold find_message_by_client_registry in Hcr. destruct (db 13%nat); [done|]. simpl in Hcr.
  destruct (t_registry d !! _) as [g|]; simpl in Hcr; [|done].
  destruct (head _) as [x|] eqn:Eh; simpl in Hcr; [|done]. injection Hcr as <- _. exists x. split; [|done].
  apply head_Some_elem_of, list_elem_of_filter in Eh as [_ ?]. done.
Qed.
Lemma reply_row ret0 now ev mid ret dup io db checked d k g req sender device r d1 k1 g1 after m :
  rows_ok checked -> log_ok d -> rows_ok d -> rtc (tl_step ret0) checked d ->
  handle_client_submit now ev mid ret dup io db checked d k g req sender device = (Ok r, d1, k1, g1, after) ->
  sr_server_msg_id r = Some m -> exists row, row ∈ t_messages d1 /\ r_message_id row = as_i64 m.
Proof.
  intros Hrc Hl Hr Hs E Hm. unfold handle_client_submit in E.
  destruct (if su_local_message_id req =? 0 then _ else _) as [[x|]|] eqn:Ed; [| |done].
  - injection E as -> <- _ _ _. destruct (su_local_message_id req =? 0); [done|]. unfold check_duplicate in Ed.
    destruct (dup 0%nat); [done|]. injection Ed as Ed. apply fmap_Some in Ed as (gr & Hg & ->). injection Hm as <-.
    destruct (ro_registry _ Hrc _ _ Hg) as (row & Hin & Hid & _). destruct (steps_rows_kept _ _ _ Hs row Hin) as (row' & Hin' & Hsame).
    exists row'. split; [done|]. rewrite (sr_id _ _ Hsame), Hid, as_i64_as_u64_id; [done|]. rewrite <- Hid. by apply (ro_i64 _ Hrc).
  - destruct (read_pts io d k (su_channel_id req)) as [[sp k2]|]; [|done].
    destruct (commit_submit now ev mid ret db d g req sender device sp) as [[[out0 d0] g0] after0] eqn:Ec.
    assert (d0 = d1) as -> by congruence. assert (out0 = Ok r) as -> by congruence. clear E.
    pose proof Ec as Ec'. apply commit_submit_cases in Ec' as [(-> & -> & ->)|(row & cm & m' & refs & e & Hc & Hm' & _ & Hrep)]; [| |done].
    + unfold commit_submit in Ec. destruct (message_from_submit req sender mid now) as [[[m' refs] e]|] eqn:Em; [|done].
      destruct (to_legacy_commit _ _ _) as [[x content]|]; [|done].
      destruct (create_message_and_commit_atomic now ev ret db d _) as [[o|e'] d0] eqn:Ecr; [|done].
      destruct (res_inserted o) eqn:Ei; simpl in Ec; [by injection Ec as _ _ _ ?|].
      injection Ec as <- <- . injection Hm as <-. apply create_duplicate_row in Ecr as (row & Hin & ->); [|done..]. exists row. split; [done|].
      simpl. rewrite as_i64_as_u64_id; [done|]. by apply (ro_i64 _ Hr).
    + exists row. split; [by eapply committed_row|]. destruct (Hrep r eq_refl) as [Hid _]. rewrite Hm in Hid. injection Hid as <-.
      apply message_from_submit_Ok in Hm' as (Hmi & _). rewrite (mw_id _ _ _ _ (cd_written _ _ _ _ _ _ _ Hc)). simpl. by rewrite Hmi.
Qed.

(** Where the message is stored, the views leave the timeline as it is. *)
Lemma project_kept events now ret pdb req sender resp d : 
  (forall m, sr_server_msg_id resp = Some m -> exists row, row ∈ t_messages d /\ r_message_id row = as_i64 m) ->
  let '(d', views) := project_submit_to_message_views events now ret pdb req sender resp d in
  d' = d /\
  (views = [] \/ exists m pts ty, sr_server_msg_id resp = Some m /\ sr_pts resp = Some pts /\
     views = SetLastMessage (su_channel_id req) m ::
             if events then [ReceivedTask (su_channel_id req) sender m pts ty (sr_server_timestamp resp)] else []).
Proof.
  intros H. unfold project_submit_to_message_views. destruct (sr_decision resp); [|by auto..].
  destruct (sr_server_msg_id resp) as [m|]; [|by auto]. destruct (sr_pts resp) as [pts|]; [|by auto].
  unfold find_by_id. destruct (pdb 0%nat); [by auto|]. destruct (H m eq_refl) as (row & Hin & Hid).
  destruct (latest_row_is_Some (filter (fun r => r_message_id r = as_i64 m) (t_messages d)) row) as [x Hx];
    [by apply list_elem_of_filter|]. unfold row_of_id. rewrite Hx. simpl. split; [done|]. right. by exists m, pts, (ct_as_str (m_message_type (message_from_row now x))).
Qed.
(** What the views write is the sender's, in the requested channel. *)
Lemma project_rows events now ret pdb req sender resp d :
  exists rows, t_messages (project_submit_to_message_views events now ret pdb req sender resp d).1 = t_messages d ++ rows /\
    forall row, row ∈ rows -> r_sender_id row = as_i64 sender /\ r_channel_id row = as_i64 (su_channel_id req).
Proof.
  assert (exists rows, t_messages d = t_messages d ++ rows /\
    forall row : MessageRow, row ∈ rows -> r_sender_id row = as_i64 sender /\ r_channel_id row = as_i64 (su_channel_id req)) as Hnone.
  { exists []. rewrite app_nil_r. split; [done|]. by intros ? ?%elem_of_nil. }
  unfold project_submit_to_message_views. destruct (sr_decision resp); [|done..].
  destruct (sr_server_msg_id resp) as [m|]; [|done]. destruct (sr_pts resp) as [pts|]; [|done].
  destruct (find_by_id _ _ _ _) as [[x|]|]; [done| |done]. destruct (pdb 1%nat); [done|].
  destruct (insert_message _ _ _) as [d'|] eqn:E; [|done]. apply insert_message_Ok in E as ->. simpl. eexists. split; [done|].
  intros row ->%list_elem_of_singleton. unfold missing_message. by destruct (normalize_submit_payload req) as [[ty content] md].
Qed.
End Submit.

Section SubmitProperties.
Context `{P : ProtocolCrate, Ch : Chrono, Pg : Postgres, Co : !EventCodec, Pc : !PushCodec, Sc : !SubmitCodec,
          CT : !CommitText}.

(** A submit through the RPC that changed the timeline did so in its transaction. *)
Lemma rpc_submit_inner (deps : SendAuthorizationDeps) channels events clock now ev mid ret dup io db pdb checked d k g ctx req out d1 k1 g1 after views ret0 :
  rows_ok checked -> log_ok d -> rows_ok d -> rtc (tl_step ret0) checked d ->
  handle_submit_rpc channels events clock now ev mid ret dup io db pdb checked d k g ctx req = (out, d1, k1, g1, after, views) ->
  (d1 = d /\ after = [] /\ views = [] /\ is_ok out = false) \/
  exists u device out0, submit_gate channels clock ctx req = Ok (u, device) /\
    handle_client_submit now ev mid ret dup io db checked d k g req u device = (out0, d1, k1, g1, after) /\
    is_ok out = is_ok out0 /\ (forall r, out = Ok r -> out0 = Ok r) /\
    (views = [] \/ exists r m pts ty, out = Ok r /\ sr_server_msg_id r = Some m /\ sr_pts r = Some pts /\
       views = SetLastMessage (su_channel_id req) m ::
               if events then [ReceivedTask (su_channel_id req) u m pts ty (sr_server_timestamp r)] else []).
Proof.
  intros Hrc Hl Hr Hs E. unfold handle_submit_rpc in E. destruct (submit_gate channels clock ctx req) as [[u device]|e].
  2: { injection E as <- <- _ _ <- <-. by left. }
  right. exists u, device. destruct (handle_client_submit _ _ _ _ _ _ _ _ _ _ _ _ _ _) as [[[[out0 d0] k0] g0] a0] eqn:Eh.
  exists out0. destruct out0 as [r|e].
  2: { injection E as <- <- <- <- <- <-. split_and!; [done..|by left]. }
  pose proof (project_kept events now ret pdb req u r d0) as Hp.
  destruct (project_submit_to_message_views events now ret pdb req u r d0) as [d2 views0].
  destruct Hp as [-> Hv]; [intros m Hm; exact (reply_row _ _ _ _ _ _ _ _ _ _ _ _ _ _ _ _ _ _ _ _ _ Hrc Hl Hr Hs Eh Hm)|]. injection E as <- <- <- <- <- <-.
  split; [done|]. split; [done|]. split; [done|]. split; [by intros ? [= <-]|]. destruct Hv as [->|(m & pts & ty & H1 & H2 & H3)]; [by left|right].
  by exists r, m, pts, ty.
Qed.
Lemma submit_gate_user (deps : SendAuthorizationDeps) channels clock ctx req u device : submit_gate channels clock ctx req = Ok (u, device) ->
  get_current_user_id ctx = Ok u /\ rx_device_id ctx = Some device.
Proof.
  unfold submit_gate. destruct (decide _); [done|]. destruct (get_current_user_id ctx) as [u'|]; [|done].
  destruct (channels (su_channel_id req)) as [c|]; simpl; [|done]. destruct (authorize_send_to_channel clock c u') as [[]|]; [|done].
  unfold resolve_session_device_id. destruct (rx_device_id ctx) as [dev|]; [|done]. destruct (decide _); [done|]. by intros [= -> ->].
Qed.
Lemma reachable_steps d d' : reachable_timeline d -> rtc (tl_step (fun _ => True)) d d' -> reachable_timeline d'.
Proof. intros (d0 & Hn & Hs) Hs'. exists d0. split; [done|]. by etrans. Qed.



(** C29. Those outside a channel learn nothing of its timeline. To a user who is
    not a member, the RPCs that read the timeline answer as if the channel did not
    exist, whatever the database and the cache hold, and leave the cache as it is;
    and the batch RPC reports the pts of none but the user's own channels. *)
Theorem strangers_read_nothing channels io bio d k ctx u req :
  get_current_user_id ctx = Ok u ->
  (forall c, channels (dq_channel_id req) = Some c -> is_member c u = false) ->
  handle_get_difference_rpc channels io d k ctx req = (Err (rpc_not_found (no_channel (dq_channel_id req))), k, []) /\
  handle_get_channel_pts_rpc channels io d k ctx (dq_channel_id req) =
    (Err (rpc_not_found (no_channel (dq_channel_id req))), k) /\
  (forall cs r ch, handle_batch_get_channel_pts_rpc channels bio d ctx cs = Ok r -> ch ∈ r.*1.*1 ->
     exists c, channels ch = Some c /\ is_member c u = true).
Proof.
  intros Hu Hc. assert (ensure_channel_visible channels (dq_channel_id req) u =
    Err (rpc_not_found (no_channel (dq_channel_id req)))) as Hno.
  { unfold ensure_channel_visible. destruct (channels (dq_channel_id req)) as [c|]; [|done]. simpl. by rewrite Hc. }
  unfold handle_get_difference_rpc, handle_get_channel_pts_rpc, handle_batch_get_channel_pts_rpc.
  rewrite Hu. simpl. rewrite Hno. split; [done|]. split; [done|]. intros cs r ch.
  set (allowed := filter _ cs). unfold handle_batch_get_channel_pts.
  destruct (batch_get_current_pts bio d allowed.*1) as [ps|] eqn:Ep; [|done]. simpl. intros [= <-].
  rewrite <- !list_fmap_compose. intros ([ch' p] & -> & Hin)%list_elem_of_fmap. simpl.
  apply batch_get_channels in Ep. assert (ch' ∈ allowed.*1) as Ha by (rewrite <- Ep; by apply (list_elem_of_fmap_2 fst) in Hin).
  apply list_elem_of_fmap in Ha as ([c ty] & -> & Ha). apply list_elem_of_filter in Ha as [Hok _]. simpl in *.
  unfold ensure_channel_visible in Hok. destruct (channels c) as [c0|]; [|done]. simpl in Hok. exists c0.
  split; [done|]. by destruct (is_member c0 u).
Qed.
End SubmitProperties.

(** ** A concrete submit

    User 1 of the example of [TimelineFacts.v] submits from the device "d". *)
#[local] Existing Instances demo_protocol demo_codec demo_chrono demo_postgres.
Definition sub_push_codec : PushCodec := {|
  decode_fb := fun _ => Err "opaque"%string;
  from_legacy := fun _ json _ _ _ => Ok (Some (NewMessage 0 json));
  payload_to_legacy_json := fun _ => Ok [];
  reaction_actor := fun _ => 0;
  ct_system := 10;
  CANONICAL_TIMELINE_PUSH_TOPIC_V1 := "timeline.v1"
|}.
Definition sub_codec : SubmitCodec := {|
  ct_from_str := fun _ => None; ct_file := 3; ct_contact_card := 8; ct_link := 12; MessageMetadata := unit;
  payload_content := fun p => p; payload_metadata := fun _ => None; payload_reply_to := fun _ => None;
  attachment_refs := fun _ => []; to_inner_json_value := fun _ => "{}"%string;
  ct_image := 2; ct_voice := 4; ct_video := 5; ct_location := 7; ct_sticker := 9; ct_forward := 11;
  json_str_field := fun _ _ => None; json_to_string := fun j => j
|}.
Definition sub_text : CommitText := {| commit_json := fun c => u64_to_string (sc_pts c) |}.
#[local] Existing Instances sub_push_codec sub_codec sub_text.

Definition sub_request : ClientSubmitRequest := mkSubmit _ 9 7 1 0 " Text " "hi".
Definition sub_first :=
  handle_client_submit 10 1 100 7 no_faults no_faults no_faults demo_tables demo_tables empty_cache PtsGenerator.pts_new
    sub_request 1 "d".
Definition sub_channels (c : Z) : option Channel := if c =? 7 then Some example_direct else None.
Definition sub_ctx (u : string) : RpcContext := mkRpcContext (Some u) (Some "d"%string).
Definition sub_rpc (u : string) :=
  handle_submit_rpc (deps := example_deps no_faults) sub_channels true 5 10 1 100 7 no_faults no_faults no_faults no_faults demo_tables
    demo_tables empty_cache PtsGenerator.pts_new (sub_ctx u) sub_request.
Definition sub_db : TimelineDb := (sub_rpc "1").1.1.1.1.2.

Example sub_first_reply :
  sub_first.1.1.1.1 = Ok (mkSubmitted Accepted (Some 1) (Some 100) 0 9 false 0) /\
  length (t_messages sub_db) = 1%nat /\ length sub_first.2 = 3%nat.
Proof. split; [|split]; vm_compute; reflexivity. Qed.

(** A racing request that checked before the commit. *)
Example sub_raced :
  (handle_client_submit 11 2 101 7 no_faults no_faults no_faults demo_tables sub_db empty_cache PtsGenerator.pts_new
     sub_request 1 "d").1.1.1.1 = Ok (mkSubmitted Accepted (Some 1) (Some 100) 0 9 false 1).
Proof. vm_compute. reflexivity. Qed.

Lemma sub_changed : sub_db <> demo_tables.
Proof. intros H. apply (f_equal (fun d => length (t_messages d))) in H. vm_compute in H. discriminate H. Qed.

Definition sub_again :=
  handle_submit_rpc (deps := example_deps no_faults) sub_channels true 6 11 2 101 7 no_faults no_faults no_faults no_faults sub_db
    sub_db empty_cache PtsGenerator.pts_new (sub_ctx "1") sub_request.

Lemma sub_db_reachable : reachable_timeline sub_db.
Proof.
  destruct demo_tables_reachable as (d0 & Hn & Hs). exists d0. split; [done|]. etrans; [exact Hs|].
  destruct (reachable_timeline_ok _ demo_tables_reachable) as [Hl Hr].
  unfold sub_db. destruct (sub_rpc "1") as [[[[[out d1] k1] g1] after] views] eqn:E.
  eapply rpc_submit_inner in E as [(-> & _)|(u & device & out0 & _ & E & _)]; [done| |done..|by apply rtc_refl].
  eapply submit_steps; [| | |exact E]; [unfold is_u64; lia|unfold is_u64; simpl; lia|by intros r ?%elem_of_nil].
  Unshelve. exact (fun _ => True).
Qed.


(** The repeated submit tells the system user again. *)
Example duplicate_submit_repeats_the_event :
  (received_event sub_channels (fun u => Ok (if u =? 2 then Some 1 else Some 0)) <$> (sub_rpc "1").2) =
    [None; Some (2, 1, 7, 100, 1, ct_as_str ct_text, 0)] /\
  (received_event sub_channels (fun u => Ok (if u =? 2 then Some 1 else Some 0)) <$> sub_again.2) =
    [None; Some (2, 1, 7, 100, 1, ct_as_str ct_text, 0)].
Proof. vm_compute. done. Qed.


Lemma strangers_read_nothing_witness :
  fst (fst (handle_get_difference_rpc sub_channels no_faults sub_db empty_cache (sub_ctx "9") (mkDifferenceRequest 7 0 None)))
    = Err (rpc_not_found (no_channel 7)) /\
  is_ok (fst (fst (handle_get_difference_rpc sub_channels no_faults sub_db empty_cache (sub_ctx "2")
                     (mkDifferenceRequest 7 0 None)))) = true.
Proof.
  split; [|vm_compute; reflexivity].
  destruct (strangers_read_nothing sub_channels no_faults (fun _ => no_faults) sub_db empty_cache (sub_ctx "9") 9
    (mkDifferenceRequest 7 0 None)) as (H & _ & _).
  - by vm_compute.
  - intros c [= <-]. by vm_compute.
  - by rewrite H.
Defined.
