(* ===== verification/Unread.v ===== *)
(** * Unread counts

    Models src/src/service/unread_count_service.rs, the unread columns of
    channel_service.rs ([increment_user_channel_unread],
    [clear_user_channel_unread]) and the [UnreadIncrementBatcher] of
    sync_service.rs, which carries the counts of committed messages to both.

    The Redis hash [unread_counts:{user}] with its fields is one map from users and
    channels to i64 counts; without Redis the service keeps i32 counts in its cache.
    [io i] is the fault of the i-th Redis call; in a pipeline ([pipe]) any prefix of
    the increments may have run. Expiry of a key is its removal at any time. The
    database rows are keyed by the casts of the ids and hold [integer]s. *)

From stdpp Require Import base numbers gmap list strings.
From S2P Require Import Prelude.
Local Open Scope Z_scope.

Definition i32_max : Z := 2 ^ 31 - 1.
Definition i64_max : Z := 2 ^ 63 - 1.

(** ** The service *)
Definition add_count (current delta : Z) : Z := Z.max (- 2 ^ 31) (Z.min i32_max (current + Z.min delta i32_max)).
Definition normalize_count (count : Z) : Z := Z.min count i32_max.
Definition normalize_count_i64 (count : Z) : Z := Z.min count i64_max.

Record UnreadCache := mkUnread {
  uc_redis : gmap (Z * Z) Z;
  uc_local : gmap Z (gmap Z Z)
}.
Definition set_redis (s : UnreadCache) x := mkUnread x (uc_local s).
Definition set_local (s : UnreadCache) x := mkUnread (uc_redis s) x.
Definition local_counts (s : UnreadCache) (user : Z) : gmap Z Z := default ∅ (uc_local s !! user).

(** HINCRBY refuses a result outside i64. *)
Definition hincrby (h : gmap (Z * Z) Z) (k : Z * Z) (delta : Z) : option (gmap (Z * Z) Z) :=
  let v := default 0 (h !! k) + delta in
  if (- 2 ^ 63 <=? v) && (v <=? i64_max) then Some (<[k := v]> h) else None.

(** A pipeline of increments: each one that would overflow fails alone. *)
Definition pipe_fault := option (string * nat).
Definition hincr_all (incs : list (Z * Z * Z)) (h : gmap (Z * Z) Z) : gmap (Z * Z) Z :=
  foldl (fun h '(u, c, n) => default h (hincrby h (u, c) n)) h incs.
Definition hincr_overflows (incs : list (Z * Z * Z)) (h : gmap (Z * Z) Z) : bool :=
  (foldl (fun '(bad, h) '(u, c, n) =>
            match hincrby h (u, c) n with Some h' => (bad, h') | None => (true, h) end) (false, h) incs).1.
Definition hincr_pipe (f : pipe_fault) (prefix : string) (incs : list (Z * Z * Z)) (h : gmap (Z * Z) Z)
    : result unit ServerError * gmap (Z * Z) Z :=
  match f with
  | Some (e, n) => (Err (Internal (prefix +:+ e)), hincr_all (take n incs) h)
  | None =>
      (if hincr_overflows incs h
       then Err (Internal (prefix +:+ "increment or decrement would overflow")) else Ok tt,
       hincr_all incs h)
  end.

Section Service.
(** Whether the service was made with a Redis client, and its TTL. *)
Context (redis : bool) (ttl_seconds : Z).

Definition refresh_redis_ttl (io : faults) (i : nat) : result unit ServerError :=
  if 0 <? ttl_seconds then match io i with Some e => Err (Internal ("Redis EXPIRE failed: " +:+ e)) | None => Ok tt end
  else Ok tt.

Definition put_local (s : UnreadCache) (user : Z) (m : gmap Z Z) : UnreadCache :=
  set_local s (<[user := m]> (uc_local s)).
Definition increment_local (s : UnreadCache) (user channel count : Z) : UnreadCache :=
  let m := local_counts s user in
  put_local s user (<[channel := add_count (default 0 (m !! channel)) count]> m).

Definition increment (io : faults) (user channel count : Z) (s : UnreadCache)
    : result unit ServerError * UnreadCache :=
  if redis then
    match io 0%nat with
    | Some e => (Err (Internal ("Redis HINCRBY failed: " +:+ e)), s)
    | None =>
        match hincrby (uc_redis s) (user, channel) (normalize_count_i64 count) with
        | Some h => (refresh_redis_ttl io 1, set_redis s h)
        | None => (Err (Internal "Redis HINCRBY failed: increment or decrement would overflow"), s)
        end
    end
  else (Ok tt, increment_local s user channel count).

Definition increment_batch (f : pipe_fault) (user : Z) (channel_counts : gmap Z Z) (s : UnreadCache)
    : result unit ServerError * UnreadCache :=
  match map_to_list channel_counts with
  | [] => (Ok tt, s)
  | l =>
      if redis then
        let out := hincr_pipe f "Redis HINCRBY pipeline failed: "
                     ((fun '(c, n) => (user, c, normalize_count_i64 n)) <$> l) (uc_redis s) in
        (out.1, set_redis s out.2)
      else (Ok tt, put_local s user (foldl (fun m '(c, n) => <[c := add_count (default 0 (m !! c)) n]> m)
                                       (local_counts s user) l))
  end.

Definition increment_for_channel_members (f : pipe_fault) (channel : Z) (users : list Z) (count : Z) (s : UnreadCache)
    : result unit ServerError * UnreadCache :=
  match users with
  | [] => (Ok tt, s)
  | _ =>
      if redis then
        let out := hincr_pipe f "Redis multi-key HINCRBY pipeline failed: "
                     ((fun u => (u, channel, normalize_count_i64 count)) <$> users) (uc_redis s) in
        (out.1, set_redis s out.2)
      else (Ok tt, foldl (fun s u => increment_local s u channel count) s users)
  end.

(** The counts above zero. *)
Definition unread_get_all (io : faults) (user : Z) (s : UnreadCache) : result (list (Z * Z)) ServerError :=
  if redis then
    match io 0%nat with
    | Some e => Err (Internal ("Redis HGETALL failed: " +:+ e))
    | None => Ok ((fun p => (p.1.2, p.2)) <$> filter (fun p => p.1.1 = user /\ 0 < p.2) (map_to_list (uc_redis s)))
    end
  else Ok (filter (fun p => 0 < p.2) (map_to_list (local_counts s user))).

Definition unread_get (io : faults) (user channel : Z) (s : UnreadCache) : result Z ServerError :=
  if redis then
    match io 0%nat with
    | Some e => Err (Internal ("Redis HGET failed: " +:+ e))
    | None => Ok (Z.max 0 (default 0 (uc_redis s !! (user, channel))))
    end
  else Ok (Z.max 0 (default 0 (local_counts s user !! channel))).

Definition clear_all (io : faults) (user : Z) (s : UnreadCache) : result unit ServerError * UnreadCache :=
  if redis then
    match io 0%nat with
    | Some e => (Err (Internal ("Redis DEL failed: " +:+ e)), s)
    | None => (Ok tt, set_redis s (filter (fun p => p.1.1 <> user) (uc_redis s)))
    end
  else (Ok tt, set_local s (delete user (uc_local s))).

(** Removing the last count of a user removes the entry. *)
Definition clear_channels (io : faults) (user : Z) (channels : list Z) (s : UnreadCache)
    : result unit ServerError * UnreadCache :=
  match channels with
  | [] => (Ok tt, s)
  | _ =>
      if redis then
        match io 0%nat with
        | Some e => (Err (Internal ("Redis HDEL failed: " +:+ e)), s)
        | None => (Ok tt, set_redis s (foldl (fun h c => delete (user, c) h) (uc_redis s) channels))
        end
      else
        match uc_local s !! user with
        | None => (Ok tt, s)
        | Some m =>
            let m' := foldl (fun m c => delete c m) m channels in
            (Ok tt, if decide (m' = ∅) then set_local s (delete user (uc_local s)) else put_local s user m')
        end
  end.
Definition clear_channel (io : faults) (user channel : Z) (s : UnreadCache) := clear_channels io user [channel] s.

Definition unread_set (io : faults) (user channel count : Z) (s : UnreadCache)
    : result unit ServerError * UnreadCache :=
  if redis then
    match io 0%nat with
    | Some e => (Err (Internal ("Redis HSET failed: " +:+ e)), s)
    | None => (refresh_redis_ttl io 1, set_redis s (<[(user, channel) := normalize_count_i64 count]> (uc_redis s)))
    end
  else (Ok tt, put_local s user (<[channel := normalize_count count]> (local_counts s user))).
End Service.

(** ** The rows of [privchat_user_channels] *)
Notation unread_table := (gmap (Z * Z) Z).
Definition unread_key (user channel : Z) : Z * Z := (as_i64 user, as_i64 channel).
Definition unread_row (t : unread_table) (user channel : Z) : Z := default 0 (t !! unread_key user channel).

(** One INSERT .. ON CONFLICT over all users: it fails as a whole when a row
    would leave the range of [integer] or is named twice. [db 0] is a failure, and
    [db 1] says that the statement took effect although its reply was lost. *)
Definition bump_row (channel count : Z) (t : unread_table) (user : Z) : unread_table :=
  <[unread_key user channel :=
      match t !! unread_key user channel with Some n => Z.max 0 (n + count) | None => count end]> t.
Definition increment_user_channel_unread (db : faults) (channel : Z) (users : list Z) (count : Z) (t : unread_table)
    : result unit ServerError * unread_table :=
  if bool_decide (users = []) || (count <=? 0) then (Ok tt, t)
  else
    let prefix := "batch increment privchat_user_channels unread failed for channel=" +:+ u64_to_string channel +:+ ": " in
    let t' := foldl (bump_row channel count) t users in
    if negb (bool_decide (NoDup (as_i64 <$> users))) then
      (Err (Database (prefix +:+ "ON CONFLICT DO UPDATE command cannot affect row a second time")), t)
    else if existsb (fun u => i32_max <? unread_row t u channel + count) users then
      (Err (Database (prefix +:+ "integer out of range")), t)
    else
      match db 0%nat with
      | Some e => (Err (Database (prefix +:+ e)), if db 1%nat then t' else t)
      | None => (Ok tt, t')
      end.

(** The row is created first when it is missing. *)
Definition clear_user_channel_unread (db : faults) (user channel : Z) (t : unread_table)
    : result unit ServerError * unread_table :=
  let where_ := " user=" +:+ u64_to_string user +:+ " channel=" +:+ u64_to_string channel +:+ ": " in
  match db 0%nat with
  | Some e => (Err (Database ("ensure privchat_user_channels failed for" +:+ where_ +:+ e)), t)
  | None =>
      let t1 := <[unread_key user channel := unread_row t user channel]> t in
      match db 1%nat with
      | Some e => (Err (Database ("clear privchat_user_channels unread failed for" +:+ where_ +:+ e)), t1)
      | None => (Ok tt, <[unread_key user channel := 0]> t1)
      end
  end.

(** ** The batcher *)
Notation pending_counts := (gmap Z (gmap Z Z)).
Definition pending_of (p : pending_counts) (channel user : Z) : Z := default 0 (default ∅ (p !! channel) !! user).

Definition merge_user (count : Z) (m : gmap Z Z) (user : Z) : gmap Z Z :=
  <[user := match m !! user with Some n => Z.min u64_max (n + count) | None => count end]> m.
Definition merge_unread_increment (p : pending_counts) (channel : Z) (users : list Z) (count : Z) : pending_counts :=
  <[channel := foldl (merge_user count) (default ∅ (p !! channel)) users]> p.

(** A request from the queue; [members] is what [get_channel_members] returns. *)
Definition resolve_request (members : result (list Z) ServerError) (channel sender count : Z) (p : pending_counts)
    : pending_counts :=
  match members with
  | Ok ms => merge_unread_increment p channel (filter (fun u => u <> sender) ms) count
  | Err _ => p
  end.

(** The users of a channel by their count. *)
Definition by_count (m : gmap Z Z) : gmap Z (list Z) :=
  foldl (fun g '(u, n) => <[n := default [] (g !! n) ++ [u]]> g) ∅ (map_to_list m).
Definition flush_groups (p : pending_counts) : list (Z * Z * list Z) :=
  map_to_list p ≫= fun '(channel, m) => (fun '(n, us) => (channel, n, us)) <$> map_to_list (by_count m).

Record UnreadState := mkUnreadState { us_rows : unread_table; us_cache : UnreadCache; us_pending : pending_counts }.

(** One group of a tick: first the row, then the cache, whose failure is logged;
    a group whose rows failed goes back to the pending counts. *)
Definition flush_group (redis : bool) (db : faults) (f : pipe_fault) (g : Z * Z * list Z) (s : UnreadState)
    : UnreadState :=
  let '(channel, count, users) := g in
  match increment_user_channel_unread db channel users (Z.min count i32_max) (us_rows s) with
  | (Ok _, t) => mkUnreadState t (increment_for_channel_members redis f channel users count (us_cache s)).2 (us_pending s)
  | (Err _, t) => mkUnreadState t (us_cache s) (merge_unread_increment (us_pending s) channel users count)
  end.
Definition tick (redis : bool) (db : Z * Z * list Z -> faults) (f : Z * Z * list Z -> pipe_fault)
    (s : UnreadState) : UnreadState :=
  foldl (fun s g => flush_group redis (db g) (f g) g s) (mkUnreadState (us_rows s) (us_cache s) ∅)
    (flush_groups (us_pending s)).

(** ** Counts are conserved *)
Definition zsum (l : list Z) : Z := foldr Z.add 0 l.
Lemma zsum_app l k : zsum (l ++ k) = zsum l + zsum k.
Proof. unfold zsum. induction l as [|x l IH]; simpl; lia. Qed.
#[export] Instance zsum_perm : Proper ((≡ₚ) ==> (=)) zsum.
Proof. unfold zsum. induction 1; simpl; lia. Qed.
Lemma zsum_zero {A} (F : A -> Z) l : (forall x, x ∈ l -> F x = 0) -> zsum (F <$> l) = 0.
Proof.
  induction l as [|x l IH]; intros H; [done|]. rewrite fmap_cons. change (zsum (F x :: ?k)) with (F x + zsum k).
  rewrite IH, H by set_solver. done.
Qed.
Lemma zsum_bind {A B} (F : B -> Z) (f : A -> list B) l :
  zsum (F <$> (l ≫= f)) = zsum ((fun a => zsum (F <$> f a)) <$> l).
Proof. induction l as [|a l IH]; [done|]. rewrite bind_cons, fmap_app, zsum_app, IH. done. Qed.

(** A sum over a map in which one key counts. *)
Lemma zsum_single {A} (m : gmap Z A) (F : Z * A -> Z) c : (forall k x, m !! k = Some x -> k <> c -> F (k, x) = 0) ->
  zsum (F <$> map_to_list m) = match m !! c with Some x => F (c, x) | None => 0 end.
Proof.
  induction m as [|i x m Hi IH] using map_ind; intros H0; [by rewrite map_to_list_empty, lookup_empty|].
  rewrite map_to_list_insert by done. rewrite fmap_cons. change (zsum (F (i, x) :: ?l)) with (F (i, x) + zsum l).
  rewrite IH. 2: { intros k y Hk. apply H0. rewrite lookup_insert_ne; [done|congruence]. }
  destruct (decide (c = i)) as [->|Hne].
  - rewrite lookup_insert_eq, Hi. lia.
  - rewrite lookup_insert_ne, (H0 i x) by (done || by rewrite lookup_insert_eq). lia.
Qed.

Lemma by_count_groups (m : gmap Z Z) n :
  default [] (by_count m !! n) = (filter (fun p => p.2 = n) (map_to_list m)).*1.
Proof.
  unfold by_count. induction (map_to_list m) as [|[u k] l IH] using rev_ind; [done|].
  rewrite foldl_snoc, filter_app, fmap_app, <- IH. cbn [fst snd]. rewrite filter_cons, filter_nil. simpl.
  destruct (decide (k = n)) as [->|Hne].
  - by rewrite lookup_insert_eq.
  - by rewrite lookup_insert_ne, app_nil_r.
Qed.
Lemma by_count_spec m n us : by_count m !! n = Some us -> NoDup us /\ forall u, u ∈ us <-> m !! u = Some n.
Proof.
  intros E. pose proof (by_count_groups m n) as H. rewrite E in H. simpl in H. subst us. split.
  - eapply sublist_NoDup; [apply (NoDup_fst_map_to_list m)|]. apply fmap_sublist, sublist_filter.
  - intros u. rewrite list_elem_of_fmap. split.
    + intros ([u' k] & -> & [Hk Hin]%list_elem_of_filter). simpl in *. subst. by apply elem_of_map_to_list.
    + intros Hu. exists (u, n). split; [done|]. apply list_elem_of_filter. split; [done|]. by apply elem_of_map_to_list.
Qed.

(** What a group adds to a user's count in a channel. *)
Definition contribution (channel user : Z) (g : Z * Z * list Z) : Z :=
  if decide (g.1.1 = channel /\ user ∈ g.2) then g.1.2 else 0.

Lemma flush_groups_sum p channel user :
  zsum (contribution channel user <$> flush_groups p) = pending_of p channel user.
Proof.
  unfold flush_groups, pending_of. rewrite zsum_bind.
  rewrite (zsum_single p _ channel); cycle 1.
  { intros k m _ Hne. apply zsum_zero. intros g ([n us] & -> & _)%list_elem_of_fmap.
    unfold contribution. rewrite decide_False; [done|]. simpl. naive_solver. }
  destruct (p !! channel) as [m|]; [|done]. simpl. rewrite <- list_fmap_compose.
  assert (forall n us, by_count m !! n = Some us ->
    (contribution channel user ∘ (fun '(n, us) => (channel, n, us))) (n, us) = if decide (m !! user = Some n) then n else 0)
    as Hc.
  { intros n us E. apply by_count_spec in E as [_ Hin]. unfold compose, contribution. simpl.
    destruct (decide (m !! user = Some n)) as [Hm|Hm].
    - rewrite decide_True; [done|]. by rewrite Hin.
    - rewrite decide_False; [done|]. rewrite Hin. naive_solver. }
  destruct (m !! user) as [n|] eqn:E.
  - rewrite (zsum_single _ _ n); cycle 1.
    { intros k us Hk Hne. rewrite (Hc k us Hk). rewrite decide_False; [done|congruence]. }
    destruct (by_count m !! n) as [us|] eqn:Eb; [by rewrite (Hc n us Eb), decide_True|].
    pose proof (by_count_groups m n) as H. rewrite Eb in H. simpl in H.
    assert (user ∈ (filter (fun p => p.2 = n) (map_to_list m)).*1) as Hin.
    { apply list_elem_of_fmap. exists (user, n). split; [done|]. apply list_elem_of_filter. split; [done|].
      by apply elem_of_map_to_list. }
    rewrite <- H in Hin. by apply elem_of_nil in Hin.
  - simpl. apply zsum_zero. intros [n us] Hin%elem_of_map_to_list. rewrite (Hc n us Hin). by rewrite decide_False.
Qed.

Definition share (channel user : Z) (channel' : Z) (users : list Z) (count : Z) : Z :=
  contribution channel user (channel', count, users).

Lemma merge_users_lookup count users m u : NoDup users -> 0 <= count ->
  (forall v, v ∈ users -> 0 <= default 0 (m !! v) /\ default 0 (m !! v) + count <= u64_max) ->
  default 0 (foldl (merge_user count) m users !! u) = default 0 (m !! u) + if decide (u ∈ users) then count else 0.
Proof.
  revert m. induction users as [|v users IH]; intros m Hn H0 Hb; [cbn [foldl]; rewrite decide_False by set_solver; lia|].
  apply NoDup_cons in Hn as [Hv Hn]. simpl. rewrite IH; [|done|done|].
  2: { intros w Hw. unfold merge_user. rewrite lookup_insert_ne by (intros ->; done). apply Hb. by right. }
  unfold merge_user. destruct (decide (u = v)) as [->|Hne].
  - rewrite lookup_insert_eq, (decide_False (P := v ∈ users)), decide_True by (done || by left). simpl.
    destruct (Hb v) as [_ Hle]; [by left|]. destruct (m !! v); simpl in *; lia.
  - rewrite lookup_insert_ne by done. destruct (decide (u ∈ users)); [rewrite decide_True by (by right)|
      rewrite decide_False by (rewrite elem_of_cons; naive_solver)]; lia.
Qed.

Lemma merge_pending p channel users count c u : NoDup users -> 0 <= count ->
  (forall v, v ∈ users -> 0 <= pending_of p channel v /\ pending_of p channel v + count <= u64_max) ->
  pending_of (merge_unread_increment p channel users count) c u =
    pending_of p c u + share c u channel users count.
Proof.
  intros Hn H0 Hb. unfold merge_unread_increment, pending_of, share, contribution. simpl.
  destruct (decide (c = channel)) as [->|Hne].
  - rewrite lookup_insert_eq. simpl. rewrite merge_users_lookup by done.
    destruct (decide (u ∈ users)); [rewrite decide_True by done|rewrite decide_False by naive_solver]; done.
  - rewrite lookup_insert_ne, (decide_False (P := channel = c /\ _)) by naive_solver. lia.
Qed.

Lemma bump_rows_lookup channel count users t u c :
  is_u64 u -> is_u64 c -> is_u64 channel -> Forall is_u64 users -> NoDup users -> 0 <= count ->
  (forall v, 0 <= unread_row t v channel) ->
  unread_row (foldl (bump_row channel count) t users) u c = unread_row t u c + share c u channel users count.
Proof.
  intros Hu Hc Hch. unfold share, contribution. simpl. revert t.
  induction users as [|v users IH]; intros t Hus Hn H0 Ht; [cbn [foldl]; rewrite decide_False by set_solver; lia|].
  apply NoDup_cons in Hn as [Hv Hn]. apply Forall_cons in Hus as [Hv64 Hus]. simpl.
  assert (forall w x, is_u64 w -> is_u64 x ->
    unread_row (bump_row channel count t v) w x = unread_row t w x + if decide (w = v /\ x = channel) then count else 0) as Hone.
  { intros w x Hw Hx. unfold unread_row, bump_row, unread_key. destruct (decide (w = v /\ x = channel)) as [[-> ->]|Hne].
    - rewrite lookup_insert_eq. simpl. specialize (Ht v). unfold unread_row, unread_key in Ht.
      destruct (t !! _); simpl in *; lia.
    - rewrite lookup_insert_ne; [lia|]. intros [= E1 E2]. apply Hne. split; symmetry; by apply as_i64_inj. }
  rewrite IH, Hone; [|done..|].
  - destruct (decide (u = v /\ c = channel)) as [[-> ->]|Hne].
    + rewrite decide_False by naive_solver. rewrite decide_True by (split; [done|by left]). lia.
    + destruct (decide (channel = c /\ u ∈ users)) as [[-> Hin]|Hn'].
      * rewrite decide_True by (split; [done|by right]). lia.
      * rewrite decide_False by (rewrite elem_of_cons; naive_solver). lia.
  - intros w. unfold unread_row, bump_row.
    destruct (decide (unread_key v channel = unread_key w channel)) as [E|E].
    + rewrite <- E, lookup_insert_eq. simpl. destruct (t !! _); simpl; lia.
    + rewrite lookup_insert_ne by done. apply Ht.
Qed.

(** Rows and counts that are waiting. *)
Definition total (s : UnreadState) (channel user : Z) : Z :=
  unread_row (us_rows s) user channel + pending_of (us_pending s) channel user.

Record unread_ok (s : UnreadState) : Prop := {
  uo_rows : forall u c, 0 <= unread_row (us_rows s) u c;
  uo_pending : forall c m u n, us_pending s !! c = Some m -> m !! u = Some n -> is_u64 c /\ is_u64 u /\ 0 < n
}.

Definition group_ok (g : Z * Z * list Z) : Prop :=
  NoDup g.2 /\ (g.2 <> [] -> is_u64 g.1.1 /\ 0 < g.1.2) /\ Forall is_u64 g.2.

Lemma share_bounds g c u : group_ok g -> 0 <= contribution c u g /\ (contribution c u g <> 0 -> g.2 <> []).
Proof.
  intros (_ & Hn & _). unfold contribution. case_decide as E; [|split; [lia|done]]. destruct E as [_ Hin].
  assert (g.2 <> []) as Hne by (intros Hnil; rewrite Hnil in Hin; by apply elem_of_nil in Hin).
  destruct (Hn Hne). split; [lia|done].
Qed.

Lemma NoDup_as_i64 us : Forall is_u64 us -> NoDup us -> NoDup (as_i64 <$> us).
Proof.
  induction us as [|u us IH]; intros Hu Hn; [apply NoDup_nil_2|]. apply Forall_cons in Hu as [Hu Hus].
  apply NoDup_cons in Hn as [Hin Hn]. apply NoDup_cons. split; [|by apply IH].
  intros (v & E & Hv)%list_elem_of_fmap. rewrite Forall_forall in Hus. apply as_i64_inj in E as ->; [done|done|by apply Hus].
Qed.

Lemma unread_row_le_nonneg channel count users t u c : 0 <= count -> (forall u c, 0 <= unread_row t u c) ->
  0 <= unread_row (foldl (bump_row channel count) t users) u c.
Proof.
  intros H0. revert t. induction users as [|v users IH]; intros t Ht; [apply Ht|]. simpl. apply IH.
  intros w x. unfold unread_row, bump_row. destruct (decide (unread_key v channel = unread_key w x)) as [E|E].
  - rewrite E, lookup_insert_eq. simpl. specialize (Ht w x). unfold unread_row in Ht. destruct (t !! _); simpl; lia.
  - rewrite lookup_insert_ne by done. apply Ht.
Qed.

(** One group moves its counts to the rows, or back to the pending counts. *)
Lemma flush_group_total redis db f g s :
  group_ok g -> g.1.2 <= i32_max -> (forall u c, 0 <= unread_row (us_rows s) u c) ->
  (forall v, v ∈ g.2 -> 0 <= pending_of (us_pending s) g.1.1 v /\ pending_of (us_pending s) g.1.1 v + g.1.2 <= u64_max) ->
  let s' := flush_group redis db f g s in
  (forall u c, 0 <= unread_row (us_rows s') u c) /\
  (forall u c, is_u64 u -> is_u64 c ->
     (pending_of (us_pending s') c u = pending_of (us_pending s) c u \/
      pending_of (us_pending s') c u = pending_of (us_pending s) c u + contribution c u g) /\
     total s c u + contribution c u g <= total s' c u /\
     (db 0%nat = None \/ db 1%nat = None -> total s' c u = total s c u + contribution c u g)) /\
  (db 0%nat = None -> (forall u, u ∈ g.2 -> unread_row (us_rows s) u g.1.1 + g.1.2 <= i32_max) ->
     us_pending s' = us_pending s).
Proof.
  destruct g as [[ch n] us]. intros (Hn & Hpos & Hu64) Hle Hrows Hb. cbn [fst snd] in *.
  unfold flush_group, total. rewrite Z.min_l by done. unfold increment_user_channel_unread.
  destruct (decide (us = [])) as [->|Hne].
  { simpl. assert (forall c u, contribution c u (ch, n, []) = 0) as Hz
      by (intros c u; unfold contribution; rewrite decide_False by set_solver; done).
    split; [done|]. split; [|done]. intros u c _ _. rewrite Hz. split; [by left|]. split; lia. }
  destruct (Hpos Hne) as [Hch Hn0]. rewrite bool_decide_eq_false_2 by done.
  replace (n <=? 0) with false by lia. cbn [orb]. rewrite bool_decide_eq_true_2 by (by apply NoDup_as_i64). cbn [negb].
  assert (forall u c, pending_of (merge_unread_increment (us_pending s) ch us n) c u =
    pending_of (us_pending s) c u + contribution c u (ch, n, us)) as Hm by (intros; apply merge_pending; [done|lia|done]).
  assert (forall u c, is_u64 u -> is_u64 c -> unread_row (foldl (bump_row ch n) (us_rows s) us) u c =
    unread_row (us_rows s) u c + contribution c u (ch, n, us)) as Ht
    by (intros; apply bump_rows_lookup; try done; lia).
  assert (forall u c, 0 <= contribution c u (ch, n, us)) as Hs by (intros; by apply share_bounds).
  pose proof (unread_row_le_nonneg ch n us (us_rows s)) as Hnn.
  destruct (existsb _ us) eqn:Eov.
  { cbn [us_rows us_pending]. split; [done|]. split.
    - intros u c _ _. rewrite Hm. split; [by right|]. split; lia.
    - intros _ Hbnd. apply existsb_exists in Eov as (u & Hin%list_elem_of_In & Hov). specialize (Hbnd u Hin). lia. }
  destruct (db 0%nat) as [e|] eqn:E0; [destruct (db 1%nat) eqn:E1|]; cbn [us_rows us_pending].
  - split; [intros; apply Hnn; [lia|done]|]. split; [|done]. intros u c Hu Hc. rewrite Hm, Ht by done.
    split; [by right|]. specialize (Hs u c). split; [lia|]. by intros [?|?].
  - split; [done|]. split; [|done]. intros u c _ _. rewrite Hm. split; [by right|]. split; lia.
  - split; [intros; apply Hnn; [lia|done]|]. split; [|done]. intros u c Hu Hc. rewrite Ht by done.
    split; [by left|]. split; lia.
Qed.

Lemma flush_groups_ok s g : unread_ok s -> g ∈ flush_groups (us_pending s) -> group_ok g.
Proof.
  intros Hs Hg. unfold flush_groups in Hg. apply list_elem_of_bind in Hg as ([c m] & Hg & Hc%elem_of_map_to_list).
  apply list_elem_of_fmap in Hg as ([n us] & -> & Hn%elem_of_map_to_list). apply by_count_spec in Hn as [Hnd Hin].
  split; [done|]. split; simpl.
  - intros Hne. destruct us as [|u us]; [done|]. assert (m !! u = Some n) as Hu by (apply Hin; by left).
    by destruct (uo_pending _ Hs _ _ _ _ Hc Hu) as (? & _ & ?).
  - apply Forall_forall. intros u Hu%Hin. by destruct (uo_pending _ Hs _ _ _ _ Hc Hu) as (_ & ? & _).
Qed.

Lemma contribution_le s gs g rest c u : unread_ok s -> flush_groups (us_pending s) = gs ++ g :: rest ->
  0 <= zsum (contribution c u <$> gs) /\
  zsum (contribution c u <$> gs) + contribution c u g <= pending_of (us_pending s) c u.
Proof.
  intros Hs E. assert (forall l, (forall x, x ∈ l -> x ∈ flush_groups (us_pending s)) -> 0 <= zsum (contribution c u <$> l)) as Hnn.
  { induction l as [|x l IH]; intros Hl; [done|]. rewrite fmap_cons. change (zsum (?a :: ?b)) with (a + zsum b).
    destruct (share_bounds x c u); [by eapply flush_groups_ok, Hl; [|left]|].
    assert (0 <= zsum (contribution c u <$> l)) by (apply IH; intros; apply Hl; by right). lia. }
  rewrite <- flush_groups_sum, E, fmap_app, zsum_app, fmap_cons. change (zsum (?a :: ?b)) with (a + zsum b).
  assert (0 <= zsum (contribution c u <$> gs)) by (apply Hnn; rewrite E; set_solver).
  assert (0 <= zsum (contribution c u <$> rest)) by (apply Hnn; rewrite E; set_solver). lia.
Qed.

Definition flush_prefix (redis : bool) db f (s : UnreadState) (gs : list (Z * Z * list Z)) : UnreadState :=
  foldl (fun s g => flush_group redis (db g) (f g) g s) (mkUnreadState (us_rows s) (us_cache s) ∅) gs.

Lemma contribution_member c u n us : u ∈ us -> contribution c u (c, n, us) = n.
Proof. intros H. unfold contribution. by rewrite decide_True. Qed.

Lemma pending_empty c u : pending_of ∅ c u = 0.
Proof. unfold pending_of. by rewrite lookup_empty. Qed.

(** What is flushed before and with a group stays within an [integer]. *)
Lemma group_bounds s gs ch n us rest u :
  unread_ok s -> flush_groups (us_pending s) = gs ++ (ch, n, us) :: rest -> total s ch u <= i32_max -> u ∈ us ->
  0 <= zsum (contribution ch u <$> gs) /\
  unread_row (us_rows s) u ch + zsum (contribution ch u <$> gs) + n <= i32_max /\ 0 < n /\ is_u64 ch /\ is_u64 u.
Proof.
  intros Hs E Hb Hu. destruct (contribution_le s gs (ch, n, us) rest ch u Hs E) as [H0 Hle].
  rewrite contribution_member in Hle by done. unfold total in Hb.
  assert (group_ok (ch, n, us)) as (_ & Hpos & H64) by (eapply flush_groups_ok; [done|]; rewrite E; set_solver).
  cbn [fst snd] in *. destruct Hpos as [Hch Hn]; [intros ->; by apply elem_of_nil in Hu|]. rewrite Forall_forall in H64.
  split; [done|]. split; [lia|]. auto.
Qed.

Lemma flush_prefix_total redis db f s gs rest :
  unread_ok s -> flush_groups (us_pending s) = gs ++ rest ->
  (forall c u, total s c u <= i32_max) ->
  let s' := flush_prefix redis db f s gs in
  (forall u c, 0 <= unread_row (us_rows s') u c) /\
  (forall u c, is_u64 u -> is_u64 c ->
     0 <= pending_of (us_pending s') c u <= zsum (contribution c u <$> gs) /\
     unread_row (us_rows s) u c + zsum (contribution c u <$> gs) <= total s' c u /\
     ((forall g, db g 0%nat = None \/ db g 1%nat = None) ->
        total s' c u = unread_row (us_rows s) u c + zsum (contribution c u <$> gs))) /\
  ((forall g, db g 0%nat = None) -> us_pending s' = ∅).
Proof.
  intros Hs. revert rest. induction gs as [|g gs IH] using rev_ind; intros rest E Hb.
  { cbn [flush_prefix foldl us_rows us_pending]. split; [apply Hs|]. split; [|done].
    intros u c _ _. unfold total. cbn. rewrite pending_empty. lia. }
  rewrite <- app_assoc in E. specialize (IH _ E Hb). unfold flush_prefix in *. rewrite foldl_snoc.
  set (s0 := foldl _ _ gs) in *. destruct IH as (Hr0 & Hp0 & He0).
  assert (group_ok g) as Hg by (eapply flush_groups_ok; [done|]; rewrite E; set_solver).
  assert (forall u c, zsum (contribution c u <$> gs ++ [g]) = zsum (contribution c u <$> gs) + contribution c u g) as Hsum.
  { intros u c. rewrite fmap_app, zsum_app, fmap_cons, fmap_nil. cbn. lia. }
  destruct g as [[ch n] us]. pose proof (fun u => group_bounds s gs ch n us rest u Hs E (Hb ch u)) as Hbnd.
  destruct (decide (us = [])) as [->|Hne].
  { assert (flush_group redis (db (ch, n, [])) (f (ch, n, [])) (ch, n, []) s0 = s0) as -> by by destruct s0.
    split; [done|]. split; [|done]. intros u c Hu Hc. rewrite Hsum.
    replace (contribution c u (ch, n, [])) with 0 by (unfold contribution; by rewrite decide_False by set_solver).
    rewrite Z.add_0_r. by apply Hp0. }
  destruct (flush_group_total redis (db (ch, n, us)) (f (ch, n, us)) (ch, n, us) s0) as (H1 & H2 & H3);
    [done| |done| |].
  - destruct us as [|u us]; [done|]. destruct (Hbnd u) as (? & ? & ?); [by left|]. pose proof (uo_rows _ Hs u ch). simpl. lia.
  - cbn [fst snd]. intros v Hv. destruct (Hbnd v Hv) as (? & ? & ? & Hch & Hv64). pose proof (uo_rows _ Hs v ch).
    destruct (Hp0 v ch Hv64 Hch) as [? _]. unfold u64_max, i32_max in *. lia.
  - split; [done|]. split.
    + intros u c Hu Hc. rewrite Hsum. destruct (H2 u c Hu Hc) as (Hp & Hge & Heq), (Hp0 u c Hu Hc) as (Hp' & Hge' & Heq').
      destruct (share_bounds (ch, n, us) c u) as [Hc0 _]; [done|].
      split; [lia|]. split; [lia|]. intros Hnl. rewrite Heq, Heq' by done. lia.
    + intros Hnf. transitivity (us_pending s0); [apply H3; [done|]; cbn [fst snd]|by apply He0]. intros u Hu.
      destruct (Hbnd u Hu) as (? & ? & ? & Hch & Hu64). destruct (Hp0 u ch Hu64 Hch) as (_ & _ & Heq).
      specialize (Heq (fun g => or_introl (Hnf g))). unfold total in Heq. rewrite (He0 Hnf), pending_empty in Heq. lia.
Qed.

(** C31. Unread counts that wait are not lost. When the members of the channel can be
    looked up, a request adds its count to what waits for every member but the sender;
    when they cannot, the request is dropped and nothing waits for it. Of what waits, a
    tick of the batcher, whichever of its statements fail,
    leaves the sum of recorded and waiting counts of every user and channel at
    least what it was, and exactly what it was when no reply of a statement that
    took effect is lost; and a tick without failures records everything, leaving
    nothing waiting. (Counts stay within the column's range.) *)
Theorem unread_counts_conserved redis db f (s : UnreadState) looked_up channel sender count :
  unread_ok s -> (forall c u, total s c u <= i32_max) -> (forall members, looked_up = Ok members -> NoDup members) -> 0 <= count ->
  (forall u, pending_of (us_pending s) channel u + count <= u64_max) ->
  (match looked_up with
   | Ok members => forall u, pending_of (resolve_request looked_up channel sender count (us_pending s)) channel u =
       pending_of (us_pending s) channel u + if decide (u ∈ members /\ u <> sender) then count else 0
   | Err _ => resolve_request looked_up channel sender count (us_pending s) = us_pending s
   end) /\
  (forall u c, is_u64 u -> is_u64 c ->
     total s c u <= total (tick redis db f s) c u /\
     ((forall g, db g 0%nat = None \/ db g 1%nat = None) -> total (tick redis db f s) c u = total s c u) /\
     ((forall g, db g 0%nat = None) -> us_pending (tick redis db f s) = ∅ /\
        unread_row (us_rows (tick redis db f s)) u c = total s c u)).
Proof.
  intros Hs Hb Hn H0 Hu. split.
  - destruct looked_up as [members|]; [|done]. intros u. unfold resolve_request. specialize (Hn members eq_refl). rewrite merge_pending.
    + unfold share, contribution. cbn [fst snd]. f_equal.
      destruct (decide (u ∈ members /\ u <> sender)) as [[Hin Hne]|Hno].
      * rewrite decide_True; [done|]. split; [done|]. by apply list_elem_of_filter.
      * rewrite decide_False; [done|]. intros [_ [Hne Hin]%list_elem_of_filter]. by apply Hno.
    + by apply NoDup_filter.
    + done.
    + intros v _. split; [|apply Hu]. unfold pending_of. destruct (us_pending s !! channel) as [m|] eqn:E; [|done]. simpl.
      destruct (m !! v) as [k|] eqn:Ev; [|done]. simpl. destruct (uo_pending _ Hs _ _ _ _ E Ev) as (_ & _ & ?). lia.
  - intros u c Hu64 Hc64.
    destruct (flush_prefix_total redis db f s (flush_groups (us_pending s)) []) as (_ & H2 & H3);
      [done|by rewrite app_nil_r|done|]. change (flush_prefix redis db f s (flush_groups (us_pending s))) with (tick redis db f s) in *.
    destruct (H2 u c Hu64 Hc64) as (_ & Hge & Heq). rewrite flush_groups_sum in Hge, Heq. fold (total s c u) in Hge, Heq.
    split; [done|]. split; [done|]. intros Hnf. specialize (H3 Hnf). split; [done|].
    rewrite <- Heq by auto. unfold total. rewrite H3, pending_empty. lia.
Qed.

Definition unread_example : UnreadState :=
  mkUnreadState {[ unread_key 2 7 := 3 ]} (mkUnread ∅ ∅)
    (merge_unread_increment (merge_unread_increment ∅ 7 [2; 3] 1) 7 [2] 2).

Lemma unread_example_shape : us_pending unread_example = {[ 7 := {[ 2 := 3; 3 := 1 ]} ]}.
Proof. vm_compute. reflexivity. Qed.
Lemma unread_example_ok : unread_ok unread_example.
Proof.
  split.
  - intros u c. unfold unread_row. change (us_rows unread_example) with ({[ unread_key 2 7 := 3 ]} : unread_table).
    destruct (decide (unread_key 2 7 = unread_key u c)) as [<-|Hne]; [by rewrite lookup_singleton_eq|].
    by rewrite lookup_singleton_ne.
  - intros c m u n. rewrite unread_example_shape. intros [<- <-]%lookup_singleton_Some.
    intros [[<- <-]|[_ [<- <-]%lookup_singleton_Some]]%lookup_insert_Some; unfold is_u64;
      (split; [lia|]; split; lia).
Qed.
Lemma unread_example_pending c u : 0 <= pending_of (us_pending unread_example) c u <= 3.
Proof.
  unfold pending_of. destruct (us_pending unread_example !! c) as [m|] eqn:E; simpl; [|rewrite lookup_empty; simpl; lia].
  destruct (m !! u) as [n|] eqn:Eu; simpl; [|lia]. rewrite unread_example_shape in E.
  apply lookup_singleton_Some in E as [<- <-].
  apply lookup_insert_Some in Eu as [[<- <-]|[_ [<- <-]%lookup_singleton_Some]]; lia.
Qed.

Lemma unread_counts_conserved_witness :
  total (tick true (fun _ => no_faults) (fun _ => None) unread_example) 7 2 = 6 /\
  us_pending (tick true (fun _ => no_faults) (fun _ => None) unread_example) = ∅.
Proof.
  destruct (unread_counts_conserved true (fun _ => no_faults) (fun _ => None) unread_example (Ok [1; 2]) 7 1 1) as [_ H].
  - apply unread_example_ok.
  - intros c u. unfold total. pose proof (unread_example_pending c u).
    assert (unread_row (us_rows unread_example) u c <= 3); [|unfold i32_max; lia].
    unfold unread_row, unread_example. simpl.
    destruct (decide (unread_key 2 7 = unread_key u c)) as [<-|Hne]; [by rewrite lookup_singleton_eq|].
    by rewrite lookup_singleton_ne.
  - intros ? [= <-]. by repeat constructor; set_solver.
  - done.
  - intros u. pose proof (unread_example_pending 7 u). unfold u64_max. lia.
  - destruct (H 2 7) as (_ & Heq & Hrec); [unfold is_u64; lia..|]. split; [|by apply Hrec].
    rewrite Heq by by left. by vm_compute.
Defined.
