(* ===== verification/ReadState.v ===== *)
(** * Read cursors

    Models src/src/service/read_state_service.rs: the upsert of read cursors,
    marking a channel read with everything it touches (delivery watermark, the
    member in memory, the cursor row, the unread counts, notifications), the sync
    pages of cursors and the queries on who read a message, with the RPCs
    rpc/message/status/read_list.rs and read_stats.rs that serve them.

    The cursor table is keyed by the casts of the ids; its trigger stamps every
    insert and update with the next value of a sequence, so an upsert that finds a
    row draws two. The router is a
    function that says whether a notification fails. *)

From stdpp Require Import base numbers gmap list sorting strings.
From S2P Require Import Prelude Pts Delivery Channel SendAuth Timeline Submit Unread.
Import DeliveryTracker ReadDetail.
Local Open Scope Z_scope.

(** ** The cursor table *)
Record CursorRow := mkCursor { cu_pts : Z; cu_message_id : option Z; cu_updated_at : Z; cu_version : Z }.
Record CursorTable := mkCursors { ct_rows : gmap (Z * Z) CursorRow; ct_seq : Z }.

Definition cursor_key (user channel : Z) : Z * Z := (as_i64 user, as_i64 channel).

Record UpsertCursorResult := mkUpsert { up_last_read_pts : Z; up_advanced : bool; up_previous_pts : Z }.

Definition upsert_channel_read_cursor_row (now : Z) (db : option string) (t : CursorTable) (reader channel pts : Z)
    (message_id : option Z) : result (UpsertCursorResult * CursorTable) string :=
  match db with
  | Some e => Err e
  | None =>
      let k := cursor_key reader channel in
      let p := as_i64 pts in
      Ok match ct_rows t !! k with
         | None =>
             (mkUpsert (as_u64 p) true 0,
              mkCursors (<[k := mkCursor p (as_i64 <$> message_id) now (ct_seq t + 1)]> (ct_rows t)) (ct_seq t + 1))
         | Some r =>
             (mkUpsert (as_u64 (Z.max (cu_pts r) p)) (cu_pts r <? p) (as_u64 (Z.max 0 (cu_pts r))),
              mkCursors (<[k := mkCursor (Z.max (cu_pts r) p)
                                  (if cu_pts r <=? p then as_i64 <$> message_id else cu_message_id r)
                                  (if cu_pts r <? p then now else cu_updated_at r) (ct_seq t + 2)]> (ct_rows t))
                (ct_seq t + 2))
         end
  end.

(** ** Marking a channel read *)
Record ReadNotification := mkReadNotification {
  rn_target : Z; rn_kind : string; rn_channel_id : Z; rn_channel_type : Z; rn_reader_id : Z; rn_pts : Z;
  rn_from_uid : Z; rn_seq : Z
}.

Record ReadState := mkReadState {
  rs_tracker : watermarks;
  rs_channels : gmap Z Channel;
  rs_cursors : CursorTable;
  rs_rows : unread_table;
  rs_unread : UnreadCache;
  rs_sent : list ReadNotification
}.

(** The outside of one request. [rv_authors] and [rv_aggregate] are the faults of
    the queries of the group branch. *)
Record ReadEnv := mkReadEnv {
  rv_now : Z;
  rv_tracker : bool;
  rv_redis : bool;
  rv_pts_db : faults;
  rv_get_link : redis_link;
  rv_set_link : redis_link;
  rv_cursor_db : option string;
  rv_row_db : faults;
  rv_unread_io : faults;
  rv_authors : option string;
  rv_aggregate : Z -> option string;
  rv_route : ReadNotification -> option string
}.

Section ReadState.
Context `{P : ProtocolCrate}.

(** [list_message_authors_in_range]. *)
Definition message_authors_in_range (d : TimelineDb) (channel previous_pts last_read_pts reader : Z) : list Z :=
  as_u64 <$> remove_dups (r_sender_id <$>
    filter (fun r => r_channel_id r = as_i64 channel /\ as_i64 previous_pts < r_pts r /\ r_pts r <= as_i64 last_read_pts /\
                     r_sender_id r <> as_i64 reader /\ r_revoked r = false) (t_messages d)).

(** [aggregate_read_pts_excluding]: the maximum over the others, 0 if none. *)
Definition aggregate_read_pts (t : CursorTable) (channel exclude : Z) : Z :=
  as_u64 (foldr Z.max 0 (cu_pts <$>
    (filter (fun p => p.1.2 = as_i64 channel /\ p.1.1 <> as_i64 exclude) (map_to_list (ct_rows t))).*2)).

Definition seq_of_pts (pts : Z) : Z := Z.max 1 (Z.min pts (2 ^ 32 - 1)).
Definition read_cursor_event (target : Z) (kind : string) (channel channel_type reader pts : Z) : ReadNotification :=
  mkReadNotification target kind channel channel_type reader pts reader (seq_of_pts pts).
Definition group_read_aggregate_event (target channel channel_type pts : Z) : ReadNotification :=
  mkReadNotification target "group_read_aggregate_updated" channel channel_type 0 pts 0 (seq_of_pts pts).

Definition route (env : ReadEnv) (prefix : string) (n : ReadNotification) (sent : list ReadNotification)
    : result unit ServerError * list ReadNotification :=
  match rv_route env n with
  | Some e => (Err (Network (prefix +:+ e)), sent)
  | None => (Ok tt, sent ++ [n])
  end.

Fixpoint notify_authors (env : ReadEnv) (t : CursorTable) (channel channel_type : Z) (authors : list Z)
    (sent : list ReadNotification) : result unit ServerError * list ReadNotification :=
  match authors with
  | [] => (Ok tt, sent)
  | a :: rest =>
      match rv_aggregate env a with
      | Some e => (Err (Database ("查询群聚合已读水位失败: " +:+ e)), sent)
      | None =>
          let aggregate := aggregate_read_pts t channel a in
          if aggregate =? 0 then notify_authors env t channel channel_type rest sent
          else
            match route env "发送群聚合已读事件失败: " (group_read_aggregate_event a channel channel_type aggregate) sent with
            | (Err e, sent') => (Err e, sent')
            | (Ok _, sent') => notify_authors env t channel channel_type rest sent'
            end
      end
  end.

Definition wire_type (k : ChannelKind) : Z := match k with PrivateChat => 1 | GroupChat => 2 | Broadcast => 1 end.

Definition broadcast_read_cursor (env : ReadEnv) (d : TimelineDb) (s : ReadState) (reader channel previous_pts last_read_pts : Z)
    : result unit ServerError * list ReadNotification :=
  match rs_channels s !! channel with
  | None => (Err (NotFound ("Channel not found: " +:+ u64_to_string channel)), rs_sent s)
  | Some c =>
      let kind := kind_of_type (channel_type c) in
      let ty := wire_type kind in
      let prefix := "发送 read cursor 事件失败: "%string in
      match route env prefix (read_cursor_event reader "self_read_pts_updated" channel ty reader last_read_pts) (rs_sent s) with
      | (Err e, sent) => (Err e, sent)
      | (Ok _, sent) =>
          match kind with
          | PrivateChat =>
              match direct_peer c reader with
              | Some peer => route env prefix (read_cursor_event peer "peer_read_pts_updated" channel ty reader last_read_pts) sent
              | None => (Ok tt, sent)
              end
          | GroupChat =>
              match rv_authors env with
              | Some e => (Err (Database ("查询消息作者失败: " +:+ e)), sent)
              | None => notify_authors env (rs_cursors s) channel ty
                          (message_authors_in_range d channel previous_pts last_read_pts reader) sent
              end
          | Broadcast => (Ok tt, sent)
          end
      end
  end.

(** [ChannelService::mark_read_pts]: the member of the channel held in memory. *)
Definition mark_member_pts (now : Z) (cs : gmap Z Channel) (reader channel pts : Z) : option (Z * gmap Z Channel) :=
  c ← cs !! channel;
  m ← members c !! reader;
  let m' := mark_read_pts now m pts in
  Some (last_read_pts m', <[channel := with_members c (<[reader := m']> (members c))]> cs).

Definition mark_read_pts_with_visible (env : ReadEnv) (d : TimelineDb) (reader channel read_pts : Z) (visible : option Z)
    (s : ReadState) : result (Z * Z) ServerError * ReadState :=
  match rv_pts_db env 0%nat with
  | Some e => (Err (Database ("查询频道 current_pts 失败: " +:+ e)), s)
  | None =>
      let current := default 0 (as_u64 <$> t_pts d !! as_i64 channel) in
      if current <? read_pts then
        (Err (Validation ("read_pts 超出频道 current_pts: read_pts=" +:+ u64_to_string read_pts +:+ ", current_pts=" +:+
                          u64_to_string current)), s)
      else
        let effective := match visible with Some v => Z.min read_pts v | None => read_pts end in
        if effective =? 0 then (Ok (channel, 0), s)
        else
          let tracker :=
            if rv_tracker env && (get_delivered_pts (rv_get_link env) (rs_tracker s) reader channel <? effective)
            then force_set (rv_set_link env) (rs_tracker s) reader channel effective else rs_tracker s in
          let s1 := mkReadState tracker (rs_channels s) (rs_cursors s) (rs_rows s) (rs_unread s) (rs_sent s) in
          match mark_member_pts (rv_now env) (rs_channels s) reader channel effective with
          | None => (Err (Validation "用户不在该频道"), s1)
          | Some (new_pts, cs) =>
              let s2 := mkReadState tracker cs (rs_cursors s) (rs_rows s) (rs_unread s) (rs_sent s) in
              match upsert_channel_read_cursor_row (rv_now env) (rv_cursor_db env) (rs_cursors s) reader channel new_pts None with
              | Err e => (Err (Database ("更新 privchat_channel_read_cursor 失败: " +:+ e)), s2)
              | Ok (up, ct) =>
                  let s3 := mkReadState tracker cs ct (rs_rows s) (rs_unread s) (rs_sent s) in
                  match clear_user_channel_unread (rv_row_db env) reader channel (rs_rows s) with
                  | (Err e, rows) => (Err e, mkReadState tracker cs ct rows (rs_unread s) (rs_sent s))
                  | (Ok _, rows) =>
                      match clear_channel (rv_redis env) (rv_unread_io env) reader channel (rs_unread s) with
                      | (Err e, u) =>
                          (Err (Internal ("清理 unread_count cache 失败: " +:+ server_error_display e)),
                           mkReadState tracker cs ct rows u (rs_sent s))
                      | (Ok _, u) =>
                          let s5 := mkReadState tracker cs ct rows u (rs_sent s) in
                          if up_advanced up then
                            let '(out, sent) := broadcast_read_cursor env d s5 reader channel (up_previous_pts up)
                                                  (up_last_read_pts up) in
                            (let? _ := out in Ok (channel, up_last_read_pts up), mkReadState tracker cs ct rows u sent)
                          else (Ok (channel, up_last_read_pts up), s5)
                      end
                  end
              end
          end
  end.
Definition read_state_mark_read_pts env d reader channel read_pts s :=
  mark_read_pts_with_visible env d reader channel read_pts None s.

Definition get_server_delivered_pts (env : ReadEnv) (s : ReadState) (user channel : Z) : Z :=
  if rv_tracker env then get_delivered_pts (rv_get_link env) (rs_tracker s) user channel else u64_max.

(** ** Sync pages of cursors *)
Record ChannelReadCursorRow := mkCursorItem {
  ci_channel_id : Z; ci_channel_type : Z; ci_reader_id : Z; ci_last_read_pts : Z; ci_version : Z
}.
(** A row of the query: channel, user (0 for an aggregate), pts and version. *)
Record cursor_row := mkQueryRow { qr_channel : Z; qr_user : Z; qr_pts : Z; qr_version : Z }.

Definition in_scope (since : Z) (scope : option Z) (channel version : Z) : bool :=
  (since <? version) && match scope with Some c => channel =? as_i64 c | None => true end.

Definition self_rows (t : CursorTable) (user since : Z) (scope : option Z) : list cursor_row :=
  (fun p => mkQueryRow p.1.2 p.1.1 (cu_pts p.2) (cu_version p.2)) <$>
    filter (fun p => p.1.1 = user /\ in_scope since scope p.1.2 (cu_version p.2) = true) (map_to_list (ct_rows t)).

Definition is_direct_peer (d : TimelineDb) (channel user other : Z) : bool :=
  match t_channels d !! channel with
  | Some ch => (tc_type ch =? 0) && negb (other =? user) &&
      ((bool_decide (tc_user1 ch = Some user) && bool_decide (tc_user2 ch = Some other)) ||
       (bool_decide (tc_user2 ch = Some user) && bool_decide (tc_user1 ch = Some other)))
  | None => false
  end.
Definition peer_rows (d : TimelineDb) (t : CursorTable) (user since : Z) (scope : option Z) : list cursor_row :=
  (fun p => mkQueryRow p.1.2 p.1.1 (cu_pts p.2) (cu_version p.2)) <$>
    filter (fun p => is_direct_peer d p.1.2 user p.1.1 = true /\ in_scope since scope p.1.2 (cu_version p.2) = true)
      (map_to_list (ct_rows t)).

(** One row per group the user takes part in: the maxima over the others. *)
Definition others_in (t : CursorTable) (user channel : Z) : list CursorRow :=
  (filter (fun p => p.1.2 = channel /\ p.1.1 <> user) (map_to_list (ct_rows t))).*2.
Definition group_row (t : CursorTable) (user channel : Z) : cursor_row :=
  mkQueryRow channel 0 (foldr Z.max 0 (cu_pts <$> others_in t user channel))
    (foldr Z.max 0 (cu_version <$> others_in t user channel)).
Definition group_visible (d : TimelineDb) (t : CursorTable) (user : Z) (scope : option Z) (c : Z) : bool :=
  match t_channels d !! c with Some ch => tc_type ch =? 1 | None => false end
  && bool_decide ((c, user) ∈ t_participants d)
  && match others_in t user c with [] => false | _ => true end
  && match scope with Some x => c =? as_i64 x | None => true end.
Definition group_channels (d : TimelineDb) (t : CursorTable) (user : Z) (scope : option Z) : list Z :=
  filter (fun c => group_visible d t user scope c = true) (remove_dups ((map_to_list (ct_rows t)).*1.*2)).
Definition group_rows (d : TimelineDb) (t : CursorTable) (user since : Z) (scope : option Z) : list cursor_row :=
  filter (fun r => since < qr_version r) (group_row t user <$> group_channels d t user scope).

Definition row_le (a b : cursor_row) : Prop :=
  qr_version a < qr_version b \/
  (qr_version a = qr_version b /\ (qr_channel a < qr_channel b \/ (qr_channel a = qr_channel b /\ qr_user a <= qr_user b))).
#[export] Instance row_le_dec a b : Decision (row_le a b).
Proof. unfold row_le. apply _. Defined.

Definition cursor_rows (d : TimelineDb) (t : CursorTable) (user since : Z) (scope : option Z) : list cursor_row :=
  merge_sort row_le (self_rows t user since scope ++ peer_rows d t user since scope ++ group_rows d t user since scope).

(** [kinds]: the types of the user's channels in memory. *)
Definition cursor_item (kinds : Z -> option ChannelType) (r : cursor_row) : ChannelReadCursorRow :=
  mkCursorItem (as_u64 (qr_channel r)) (default 1 (wire_type ∘ kind_of_type <$> kinds (as_u64 (qr_channel r))))
    (as_u64 (qr_user r)) (as_u64 (qr_pts r)) (as_u64 (qr_version r)).

Definition sync_channel_read_cursor_page (db : option string) (d : TimelineDb) (t : CursorTable)
    (kinds : Z -> option ChannelType) (user since : Z) (scope : option Z) (limit : Z)
    : result (list ChannelReadCursorRow * Z * bool) ServerError :=
  let n := Z.min 200 (Z.max 1 limit) in
  match db with
  | Some e => Err (Database ("同步 privchat_channel_read_cursor 失败: " +:+ e))
  | None =>
      let rows := take (Z.to_nat (n + 1)) (cursor_rows d t (as_i64 user) (as_i64 since) scope) in
      let items := cursor_item kinds <$> take (Z.to_nat n) rows in
      Ok (items, default since (ci_version <$> list.last items), n <? Z.of_nat (length rows))
  end.

(** ** Who read a message *)
(** A row of [privchat_channel_membership_interval]. *)
Record Interval := mkInterval { iv_channel : Z; iv_user : Z; iv_joined_pts : Z; iv_left_pts : option Z }.

Definition recipients_at_send_time (db : option string) (ivs : list Interval) (channel pts sender : Z)
    : result (list Z) ServerError :=
  match db with
  | Some e => Err (Database ("查询发送时收件人失败: " +:+ e))
  | None =>
      Ok (as_u64 <$> remove_dups (iv_user <$>
            filter (fun i => iv_channel i = as_i64 channel /\ iv_user i <> as_i64 sender /\ iv_joined_pts i < as_i64 pts /\
                             match iv_left_pts i with Some l => as_i64 pts <=? l | None => true end = true) ivs))
  end.

Definition readers (t : CursorTable) (channel pts : Z) (ids : list Z) : list ((Z * Z) * CursorRow) :=
  filter (fun p => p.1.2 = as_i64 channel /\ p.1.1 ∈ (as_i64 <$> ids) /\ as_i64 pts <= cu_pts p.2)
    (map_to_list (ct_rows t)).
Definition user_le (a b : (Z * Z) * CursorRow) : Prop := a.1.1 <= b.1.1.
#[export] Instance user_le_dec a b : Decision (user_le a b).
Proof. unfold user_le. apply _. Defined.
Definition recent_first (a b : (Z * Z) * CursorRow) : Prop := cu_updated_at b.2 <= cu_updated_at a.2.
#[export] Instance recent_first_dec a b : Decision (recent_first a b).
Proof. unfold recent_first. apply _. Defined.

Record ChannelReadMemberRow := mkReadMember { rm_user_id : Z; rm_last_read_pts : Z; rm_updated_at : Z }.
Definition read_member (p : (Z * Z) * CursorRow) : ChannelReadMemberRow :=
  mkReadMember (as_u64 p.1.1) (as_u64 (cu_pts p.2)) (cu_updated_at p.2).

Definition page_read_members_by_message_pts (db : option string) (t : CursorTable) (channel pts : Z) (ids : list Z)
    (after limit : Z) : result (list ChannelReadMemberRow) ServerError :=
  match db with
  | Some e => Err (Database ("查询 read_list 分页失败: " +:+ e))
  | None => Ok (read_member <$> take (Z.to_nat limit)
                  (merge_sort user_le (filter (fun p => as_i64 after < p.1.1) (readers t channel pts ids))))
  end.
Definition list_read_members_by_message_pts (db : option string) (t : CursorTable) (channel pts : Z) (ids : list Z)
    : result (list ChannelReadMemberRow) ServerError :=
  match db with
  | Some e => Err (Database ("查询 read_list 失败: " +:+ e))
  | None => Ok (read_member <$> merge_sort recent_first (readers t channel pts ids))
  end.
Definition count_read_members_by_message_pts (db : option string) (t : CursorTable) (channel pts : Z) (ids : list Z)
    : result Z ServerError :=
  match db with
  | Some e => Err (Database ("查询 read_stats 失败: " +:+ e))
  | None => Ok (as_u32 (Z.of_nat (length (readers t channel pts ids))))
  end.
End ReadState.

(** ** The RPCs *)
Section DetailRpc.
Context `{P : ProtocolCrate, Ch : Chrono}.
(** [get_channel], the configured retention, the clock. *)
Context (channels : Z -> option Channel) (retention_config now : Z).

Definition detail_of (m : Timeline.Message) : ReadDetail.Message :=
  mkMessage (m_channel_id m) (m_sender_id m) (m_created_at m) (m_deleted m) (m_revoked m) (m_read_detail_expires_at m).

(** The common beginning: the message, the authorization and its recipients. *)
Definition read_detail_subject (find_db : faults) (rcpt_db : option string) (d : TimelineDb) (ivs : list Interval)
    (ctx : RpcContext) (message_id channel_id : Z) : result (Z * Z * list Z) RpcError :=
  let? requester := get_current_user_id ctx in
  let? found := match find_by_id now find_db d message_id with
                | Ok m => Ok m | Err e => Err (rpc_internal ("查询消息失败: " +:+ server_error_display e)) end in
  let? message := ok_or found (rpc_not_found ("消息不存在: " +:+ u64_to_string message_id)) in
  let? channel := ok_or (channels channel_id)
                    (rpc_not_found ("频道不存在: Not found: Channel not found: " +:+ u64_to_string channel_id)) in
  let? expires_at := authorize_read_detail now requester (detail_of message) channel_id channel
                       (read_detail_retention_days retention_config) in
  let pts := as_u64 (Z.max 0 (default 0 (m_pts message))) in
  match recipients_at_send_time rcpt_db ivs channel_id pts (m_sender_id message) with
  | Ok ids => Ok (expires_at, pts, ids)
  | Err e => Err (rpc_internal ("查询发送时收件人失败: " +:+ server_error_display e))
  end.

Record ReadListReply := mkReadList {
  rl_recipient_count : Z; rl_read_count : Z; rl_limit : Z; rl_next_after_user_id : option Z; rl_has_more : bool;
  rl_detail_expires_at : Z; rl_read_list : list Z
}.
Definition DEFAULT_PAGE_SIZE : Z := 30.
Definition MAX_PAGE_SIZE : Z := 100.
Definition page_limit (limit : option Z) : Z :=
  match limit with Some v => Z.min MAX_PAGE_SIZE (Z.max 1 (as_u32 v)) | None => DEFAULT_PAGE_SIZE end.

(** [read_list]; profiles decorate the entries and never drop one. *)
Definition handle_read_list (find_db : faults) (rcpt_db page_db count_db : option string) (d : TimelineDb) (t : CursorTable)
    (ivs : list Interval) (ctx : RpcContext) (message_id channel_id : Z) (after : option Z) (limit : option Z)
    : result ReadListReply RpcError :=
  let? _ := ensure_read_list_allowed RrFullList in
  let? subject := read_detail_subject find_db rcpt_db d ivs ctx message_id channel_id in
  let '(expires_at, pts, ids) := subject in
  let n := page_limit limit in
  let? page := match page_read_members_by_message_pts page_db t channel_id pts ids (default 0 after) n with
               | Ok p => Ok p | Err e => Err (rpc_internal ("查询已读列表失败: " +:+ server_error_display e)) end in
  let? count := match count_read_members_by_message_pts count_db t channel_id pts ids with
                | Ok c => Ok c | Err e => Err (rpc_internal ("查询已读人数失败: " +:+ server_error_display e)) end in
  Ok (mkReadList (as_u32 (Z.of_nat (length ids))) count n (rm_user_id <$> list.last page)
        (as_u32 (Z.of_nat (length page)) =? n) (timestamp_millis expires_at) (rm_user_id <$> page)).

Record ReadStatsReply := mkReadStats { rt_recipient_count : Z; rt_read_count : Z; rt_unread_count : Z }.
Definition handle_read_stats (find_db : faults) (rcpt_db count_db : option string) (d : TimelineDb) (t : CursorTable)
    (ivs : list Interval) (ctx : RpcContext) (message_id channel_id : Z) : result ReadStatsReply RpcError :=
  let? _ := ensure_read_stats_allowed RrFullList in
  let? subject := read_detail_subject find_db rcpt_db d ivs ctx message_id channel_id in
  let '(_, pts, ids) := subject in
  let? count := match count_read_members_by_message_pts count_db t channel_id pts ids with
                | Ok c => Ok c | Err e => Err (rpc_internal ("查询已读统计失败: " +:+ server_error_display e)) end in
  let recipients := as_u32 (Z.of_nat (length ids)) in
  Ok (mkReadStats recipients count (Z.max 0 (recipients - count))).
End DetailRpc.
