(* ===== verification/ReadStateFacts.v ===== *)
(** * Theorems on read cursors

    Cursors only move forward and never pass the timeline; what others learn of a
    reader; the pages of a read list. *)

From stdpp Require Import base numbers gmap list sorting strings relations.
From S2P Require Import Prelude Pts Delivery Channel SendAuth Timeline TimelineFacts Submit Unread ReadState.
Import DeliveryTracker ReadDetail.
Local Open Scope Z_scope.

Section Facts.
Context `{P : ProtocolCrate, Chr : Chrono, Pg : Postgres, Co : !EventCodec}.

(** ** Cases of marking a channel read *)
Lemma mark_member_pts_Some now cs reader channel pts p cs' :
  mark_member_pts now cs reader channel pts = Some (p, cs') ->
  exists c m, cs !! channel = Some c /\ members c !! reader = Some m /\ p = Z.max (last_read_pts m) pts /\
    cs' = <[channel := with_members c (<[reader := mark_read_pts now m pts]> (members c))]> cs.
Proof.
  unfold mark_member_pts. destruct (cs !! channel) as [c|] eqn:Ec; [|done]. simpl.
  destruct (members c !! reader) as [m|] eqn:Em; [|done]. simpl. intros [= <- <-]. by exists c, m.
Qed.

(** The accepted pts: what is asked for, cut to what the client has seen. *)
Definition accepted_pts (read_pts : Z) (visible : option Z) : Z :=
  match visible with Some v => Z.min read_pts v | None => read_pts end.

(** Cursor and member in memory after a request: untouched, the member moved, or
    both moved; and what was sent. *)
Lemma mark_cases env d reader channel pts visible s :
  let out := mark_read_pts_with_visible env d reader channel pts visible s in
  (rs_cursors out.2 = rs_cursors s /\ rs_channels out.2 = rs_channels s /\ rs_sent out.2 = rs_sent s) \/
  exists p cs, pts <= default 0 (as_u64 <$> t_pts d !! as_i64 channel) /\ accepted_pts pts visible <> 0 /\
    mark_member_pts (rv_now env) (rs_channels s) reader channel (accepted_pts pts visible) = Some (p, cs) /\
    rs_channels out.2 = cs /\
    ((rs_cursors out.2 = rs_cursors s /\ rs_sent out.2 = rs_sent s) \/
     exists up, upsert_channel_read_cursor_row (rv_now env) None (rs_cursors s) reader channel p None =
        Ok (up, rs_cursors out.2) /\
       (rs_sent out.2 = rs_sent s \/
        exists s5 o, up_advanced up = true /\ rs_channels s5 = cs /\ rs_cursors s5 = rs_cursors out.2 /\ rs_sent s5 = rs_sent s /\
          broadcast_read_cursor env d s5 reader channel (up_previous_pts up) (up_last_read_pts up) = (o, rs_sent out.2))).
Proof.
  unfold mark_read_pts_with_visible. fold (accepted_pts pts visible).
  destruct (rv_pts_db env 0%nat); [by left|].
  destruct (Z.ltb_spec (default 0 (as_u64 <$> t_pts d !! as_i64 channel)) pts); [by left|].
  destruct (Z.eqb_spec (accepted_pts pts visible) 0); [by left|].
  destruct (mark_member_pts _ _ _ _ _) as [[p cs]|] eqn:Em; [right; exists p, cs|by left].
  split; [done|]. split; [done|]. split; [done|].
  destruct (rv_cursor_db env) as [e|]; [simpl; by split; [|left]|].
  destruct (upsert_channel_read_cursor_row _ None _ _ _ _ _) as [[up ct]|e] eqn:Eu; [|simpl; by split; [|left]].
  destruct (clear_user_channel_unread _ _ _ _) as [[u|e] rows]; [|simpl; split; [done|right; exists up; auto]].
  destruct (clear_channel _ _ _ _ _) as [[v|e] un]; [|simpl; split; [done|right; exists up; auto]].
  destruct (up_advanced up) eqn:Ea; [|simpl; split; [done|right; exists up; auto]].
  destruct (broadcast_read_cursor _ _ _ _ _ _ _) as [o sent] eqn:Eb. simpl. split; [done|]. right. exists up.
  split; [done|]. right. eexists _, o. split; [done|]. split; [|split; [|split; [|exact Eb]]]; done.
Qed.

(** ** Executions *)
(** Requests of readers, transactions on the timeline, and the rest of the server:
    channels are loaded with members that have read nothing or as far as their
    cursor, and other columns change. *)
Definition memory_step (s s' : ReadState) : Prop :=
  rs_cursors s' = rs_cursors s /\
  forall c ch u m, rs_channels s' !! c = Some ch -> members ch !! u = Some m ->
    last_read_pts m = 0 \/
    (exists ch0 m0, rs_channels s !! c = Some ch0 /\ members ch0 !! u = Some m0 /\ last_read_pts m = last_read_pts m0) \/
    (exists r, ct_rows (rs_cursors s) !! cursor_key u c = Some r /\ last_read_pts m = as_u64 (cu_pts r)).

Inductive read_step : TimelineDb * ReadState -> TimelineDb * ReadState -> Prop :=
| RS_mark env d reader channel pts visible s :
    is_u64 pts -> (forall v, visible = Some v -> is_u64 v) ->
    read_step (d, s) (d, (mark_read_pts_with_visible env d reader channel pts visible s).2)
| RS_timeline d d' s : tl_step (fun _ => True) d d' -> read_step (d, s) (d', s)
| RS_memory d s s' : memory_step s s' -> read_step (d, s) (d, s').

Definition reachable_read (d : TimelineDb) (s : ReadState) : Prop :=
  exists d0 s0, no_timeline d0 /\ rs_cursors s0 = mkCursors ∅ 0 /\ rs_channels s0 = ∅ /\ rtc read_step (d0, s0) (d, s).

Record cursors_ok (d : TimelineDb) (s : ReadState) : Prop := {
  ro_timeline : log_ok d /\ rows_ok d;
  ro_cursor : forall k r, ct_rows (rs_cursors s) !! k = Some r ->
    1 <= cu_pts r <= current_pts_of d k.2 /\ 0 < cu_version r <= ct_seq (rs_cursors s);
  ro_version : forall k k' r r', ct_rows (rs_cursors s) !! k = Some r -> ct_rows (rs_cursors s) !! k' = Some r' ->
    cu_version r = cu_version r' -> k = k';
  ro_seq : 0 <= ct_seq (rs_cursors s);
  ro_member : forall c ch u m, rs_channels s !! c = Some ch -> members ch !! u = Some m ->
    0 <= last_read_pts m <= current_pts_of d (as_i64 c)
}.

(** What an upsert does to the table. *)
Lemma upsert_row now t reader channel p up t' : 0 <= ct_seq t -> is_i64 p ->
  upsert_channel_read_cursor_row now None t reader channel p None = Ok (up, t') ->
  ct_seq t < ct_seq t' /\
  (exists r', ct_rows t' = <[cursor_key reader channel := r']> (ct_rows t) /\ cu_version r' = ct_seq t' /\
     cu_pts r' = match ct_rows t !! cursor_key reader channel with Some r => Z.max (cu_pts r) (as_i64 p) | None => as_i64 p end).
Proof.
  intros Hseq Hp. unfold upsert_channel_read_cursor_row.
  destruct (ct_rows t !! cursor_key reader channel) as [r|] eqn:E; intros [= <- <-]; simpl; (split; [lia|]);
    eexists; (split; [done|]); done.
Qed.

Lemma as_i64_small p : 0 <= p < 2 ^ 63 -> as_i64 p = p.
Proof.
  intros H. unfold as_i64. destruct (Z.ltb_spec p (2 ^ 63)); lia.
Qed.

Lemma current_u64 d channel : log_ok d -> default 0 (as_u64 <$> t_pts d !! as_i64 channel) = current_pts_of d (as_i64 channel).
Proof.
  intros Hl. unfold current_pts_of. pose proof (lo_bound _ Hl (as_i64 channel)) as Hb.
  destruct (lo_pts _ Hl (as_i64 channel)) as [H0 _]. unfold current_pts_of in *.
  destruct (t_pts d !! as_i64 channel) as [p|]; simpl in *; [|done]. unfold as_u64. rewrite Z.mod_small; lia.
Qed.

Lemma read_step_timeline d s d' s' : read_step (d, s) (d', s') ->
  tl_step (fun _ => True) d d' \/ d' = d.
Proof. inversion 1; auto. Qed.

(** Marking read moves a cursor to the accepted pts or keeps it. *)
Lemma mark_ok env d reader channel pts visible s :
  is_u64 pts -> (forall v, visible = Some v -> is_u64 v) -> cursors_ok d s ->
  let s' := (mark_read_pts_with_visible env d reader channel pts visible s).2 in
  cursors_ok d s' /\
  forall k r, ct_rows (rs_cursors s) !! k = Some r ->
    exists r', ct_rows (rs_cursors s') !! k = Some r' /\ cu_pts r <= cu_pts r' /\ cu_version r <= cu_version r'.
Proof.
  intros Hu Hv Hok s'. destruct (ro_timeline _ _ Hok) as [Hl _].
  pose proof (mark_cases env d reader channel pts visible s) as Hmc. cbv zeta in Hmc. fold s' in Hmc.
  clearbody s'. destruct Hmc as [(Ec & Eh & _)|(p & cs & Hle & Hne & Hm & Eh & Hc)].
  { split; [|intros k r Hr; exists r; rewrite Ec; split; [done|lia]]. destruct Hok.
    split; rewrite ?Ec, ?Eh; done. }
  rewrite current_u64 in Hle by done. apply mark_member_pts_Some in Hm as (c & m & Hch & Hmem & -> & ->).
  assert (1 <= accepted_pts pts visible <= current_pts_of d (as_i64 channel)) as Hacc.
  { unfold accepted_pts, is_u64 in *. destruct visible as [v|]; [specialize (Hv v eq_refl)|]; lia. }
  pose proof (ro_member _ _ Hok _ _ _ _ Hch Hmem) as Hlast.
  assert (forall c0 ch0 u m0, rs_channels s' !! c0 = Some ch0 -> members ch0 !! u = Some m0 ->
    0 <= last_read_pts m0 <= current_pts_of d (as_i64 c0)) as Hmembers.
  { intros c0 ch0 u m0. rewrite Eh. intros [[<- <-]|[_ H]]%lookup_insert_Some; [|by apply (ro_member _ _ Hok _ _ _ _ H)].
    simpl. intros [[<- <-]|[_ H]]%lookup_insert_Some; [simpl; lia|by apply (ro_member _ _ Hok _ _ _ _ Hch H)]. }
  pose proof (lo_bound _ Hl (as_i64 channel)) as Hb.
  destruct Hc as [[Ec _]|(up & Hup & _)].
  { split; [|intros k r Hr; exists r; rewrite Ec; split; [done|lia]]. destruct Hok. by split; rewrite ?Ec. }
  set (q := Z.max (last_read_pts m) (accepted_pts pts visible)) in *.
  apply upsert_row in Hup as (Hseq & r' & Hrows & Hver & Hpts); [|apply Hok|unfold is_i64; lia].
  rewrite as_i64_small in Hpts by lia.
  assert (1 <= cu_pts r' <= current_pts_of d (as_i64 channel)) as Hr'.
  { destruct (ct_rows (rs_cursors s) !! cursor_key reader channel) as [r|] eqn:E; [|lia].
    destruct (ro_cursor _ _ Hok _ _ E) as [Hr _]. simpl in Hr. lia. }
  pose proof (ro_seq _ _ Hok) as Hs0. split; [split|].
  - apply Hok.
  - intros k r. rewrite Hrows. intros [[<- <-]|[_ H]]%lookup_insert_Some; [simpl; lia|].
    destruct (ro_cursor _ _ Hok _ _ H). lia.
  - intros k k' r1 r2. rewrite Hrows. intros [[<- <-]|[Hn1 H1]]%lookup_insert_Some [[<- <-]|[Hn2 H2]]%lookup_insert_Some Hv12.
    + done.
    + destruct (ro_cursor _ _ Hok _ _ H2). lia.
    + destruct (ro_cursor _ _ Hok _ _ H1). lia.
    + by eapply (ro_version _ _ Hok).
  - lia.
  - done.
  - intros k r Hr. rewrite Hrows. destruct (decide (k = cursor_key reader channel)) as [->|Hnk].
    + rewrite lookup_insert_eq. exists r'. split; [done|]. rewrite Hr in Hpts. destruct (ro_cursor _ _ Hok _ _ Hr). lia.
    + rewrite lookup_insert_ne by done. exists r. split; [done|lia].
Qed.

Lemma read_step_ok d s d' s' : read_step (d, s) (d', s') -> cursors_ok d s ->
  cursors_ok d' s' /\
  forall k r, ct_rows (rs_cursors s) !! k = Some r ->
    exists r', ct_rows (rs_cursors s') !! k = Some r' /\ cu_pts r <= cu_pts r' /\ cu_version r <= cu_version r'.
Proof.
  intros Hs Hok. inversion Hs as [env d0 reader channel pts visible s0 Hu Hv|d0 d1 s0 Ht|d0 s0 s1 [Ec Hm]]; subst.
  - by apply mark_ok.
  - split; [|intros k r Hr; exists r; split; [done|lia]]. destruct (step_log_grows _ _ _ Ht) as [_ Hg].
    pose proof (ro_timeline _ _ Hok) as [Hl _]. split.
    + eapply step_ok; [done|apply Hok].
    + intros k r Hr. destruct (ro_cursor _ _ Hok _ _ Hr). specialize (Hg k.2 Hl). lia.
    + apply (ro_version _ _ Hok).
    + apply Hok.
    + intros c ch u m Hc Hmm. pose proof (ro_member _ _ Hok _ _ _ _ Hc Hmm). specialize (Hg (as_i64 c) Hl). lia.
  - split; [|intros k r Hr; exists r; rewrite Ec; split; [done|lia]].
    pose proof (ro_timeline _ _ Hok) as [Hl _]. split; rewrite ?Ec; try apply Hok.
    intros c ch u m Hc Hmm. destruct (Hm c ch u m Hc Hmm) as [->|[(ch0 & m0 & Hc0 & Hm0 & ->)|(r & Hr & ->)]].
    + destruct (lo_pts _ Hl (as_i64 c)). lia.
    + by apply (ro_member _ _ Hok _ _ _ _ Hc0 Hm0).
    + destruct (ro_cursor _ _ Hok _ _ Hr) as [Hr' _]. simpl in Hr'. pose proof (lo_bound _ Hl (as_i64 c)).
      unfold as_u64. rewrite Z.mod_small; lia.
Qed.

Lemma reachable_read_ok d s : reachable_read d s -> cursors_ok d s.
Proof.
  intros (d0 & s0 & Hn & Hc & Hch & Hs). assert (cursors_ok d0 s0) as Hok.
  { split; rewrite ?Hc, ?Hch; simpl; [by apply no_timeline_ok|intros k r H; by rewrite lookup_empty in H|
      intros k k' r r' H; by rewrite lookup_empty in H|done|intros c ch u m H; by rewrite lookup_empty in H]. }
  clear Hn Hc Hch. remember (d0, s0) as x eqn:Ex. remember (d, s) as y eqn:Ey. revert d0 s0 Ex Hok.
  induction Hs as [x|x [d1 s1] y Hx _ IH]; intros d0 s0 -> Hok; [by injection Ey as <- <-|].
  eapply IH; [done..|]. by eapply read_step_ok.
Qed.

Lemma read_steps_monotone d s d' s' k r : cursors_ok d s -> rtc read_step (d, s) (d', s') ->
  ct_rows (rs_cursors s) !! k = Some r ->
  exists r', ct_rows (rs_cursors s') !! k = Some r' /\ cu_pts r <= cu_pts r' /\ cu_version r <= cu_version r'.
Proof.
  intros Hok Hs. remember (d, s) as x eqn:Ex. remember (d', s') as y eqn:Ey. revert d s r Ex Hok.
  induction Hs as [x|x [d1 s1] y Hx _ IH]; intros d s r -> Hok Hr.
  - injection Ey as <- <-. exists r. split; [done|lia].
  - destruct (read_step_ok _ _ _ _ Hx Hok) as [Hok1 Hmono]. destruct (Hmono k r Hr) as (r1 & Hr1 & ? & ?).
    destruct (IH Ey d1 s1 r1 eq_refl Hok1 Hr1) as (r2 & ? & ? & ?). exists r2. split; [done|lia].
Qed.

(** ** Who learns of a reader *)
Lemma route_grows env prefix n sent o sent' : route env prefix n sent = (o, sent') ->
  exists ns, sent' = sent ++ ns /\ forall x, x ∈ ns -> x = n.
Proof.
  unfold route. destruct (rv_route env n); intros [= <- <-].
  - exists []. split; [by rewrite app_nil_r|by intros x ?%elem_of_nil].
  - exists [n]. split; [done|by intros x ->%list_elem_of_singleton].
Qed.

Lemma notify_authors_grows env t channel ty authors : forall sent o sent',
  notify_authors env t channel ty authors sent = (o, sent') ->
  exists ns, sent' = sent ++ ns /\ forall x, x ∈ ns ->
    rn_target x ∈ authors /\ x = group_read_aggregate_event (rn_target x) channel ty (aggregate_read_pts t channel (rn_target x)).
Proof.
  induction authors as [|a rest IH]; intros sent o sent'; simpl.
  { intros [= <- <-]. exists []. split; [by rewrite app_nil_r|by intros x ?%elem_of_nil]. }
  assert (forall sent0 ns, sent0 = sent ++ ns ->
    (forall x, x ∈ ns -> rn_target x ∈ a :: rest /\
       x = group_read_aggregate_event (rn_target x) channel ty (aggregate_read_pts t channel (rn_target x))) ->
    notify_authors env t channel ty rest sent0 = (o, sent') ->
    exists ns', sent' = sent ++ ns' /\ forall x, x ∈ ns' -> rn_target x ∈ a :: rest /\
      x = group_read_aggregate_event (rn_target x) channel ty (aggregate_read_pts t channel (rn_target x))) as Hrest.
  { intros sent0 ns -> Hns Hr. destruct (IH _ _ _ Hr) as (ns2 & -> & H2). exists (ns ++ ns2).
    split; [by rewrite app_assoc|]. intros x [Hx|Hx]%elem_of_app; [by apply Hns|].
    destruct (H2 x Hx). split; [by right|done]. }
  destruct (rv_aggregate env a).
  { intros [= <- <-]. exists []. split; [by rewrite app_nil_r|by intros x ?%elem_of_nil]. }
  destruct (_ =? 0); [apply (Hrest sent []); [by rewrite app_nil_r|by intros x ?%elem_of_nil]|].
  destruct (route _ _ _ _) as [[u|e] s1] eqn:Er; apply route_grows in Er as (ns & -> & Hns).
  - apply (Hrest _ ns); [done|]. intros x ->%Hns. simpl. split; [by left|done].
  - intros [= <- <-]. exists ns. split; [done|]. intros x ->%Hns. simpl. split; [by left|done].
Qed.

(** What a notification may say: to the reader and, in a direct chat, to the other
    member, who read; in a group, to the author of a message that was just read,
    only how far the others have read. *)
Definition discreet (d : TimelineDb) (c : Channel) (t : CursorTable) (reader channel previous pts : Z) (n : ReadNotification) : Prop :=
  rn_channel_id n = channel /\
  ((rn_target n = reader /\ rn_reader_id n = reader /\ rn_pts n = pts) \/
   (kind_of_type (channel_type c) = PrivateChat /\ direct_peer c reader = Some (rn_target n) /\ rn_reader_id n = reader /\ rn_pts n = pts) \/
   (kind_of_type (channel_type c) = GroupChat /\ rn_target n ∈ message_authors_in_range d channel previous pts reader /\
    rn_reader_id n = 0 /\ rn_from_uid n = 0 /\ rn_pts n = aggregate_read_pts t channel (rn_target n))).

Lemma broadcast_discreet env d s reader channel previous pts o sent :
  broadcast_read_cursor env d s reader channel previous pts = (o, sent) ->
  exists ns, sent = rs_sent s ++ ns /\
    forall n, n ∈ ns -> exists c, rs_channels s !! channel = Some c /\ discreet d c (rs_cursors s) reader channel previous pts n.
Proof.
  unfold broadcast_read_cursor. destruct (rs_channels s !! channel) as [c|] eqn:Ec.
  2:{ intros [= <- <-]. exists []. split; [by rewrite app_nil_r|by intros n ?%elem_of_nil]. }
  destruct (route _ _ _ (rs_sent s)) as [[u|e] s1] eqn:Er; apply route_grows in Er as (ns & -> & Hns).
  2:{ intros [= <- <-]. exists ns. split; [done|]. intros n ->%Hns. exists c. split; [done|].
      split; [done|]. by left. }
  assert (forall n, n ∈ ns -> discreet d c (rs_cursors s) reader channel previous pts n) as Hself.
  { intros n ->%Hns. split; [done|]. by left. }
  assert (forall ms, (forall n, n ∈ ms -> discreet d c (rs_cursors s) reader channel previous pts n) ->
    exists ns0, (rs_sent s ++ ns) ++ ms = rs_sent s ++ ns0 /\
      forall n, n ∈ ns0 -> exists c0, Some c = Some c0 /\ discreet d c0 (rs_cursors s) reader channel previous pts n) as Hadd.
  { intros ms Hms. exists (ns ++ ms). split; [by rewrite app_assoc|].
    intros n [H|H]%elem_of_app; exists c; split; auto. }
  destruct (kind_of_type (channel_type c)) eqn:Ek.
  - destruct (direct_peer c reader) as [peer|] eqn:Ep.
    + intros (ms & -> & Hms)%route_grows. apply Hadd. intros n ->%Hms. split; [done|]. right. left.
      split; [done|]. by rewrite Ep.
    + intros [= <- <-]. rewrite <- (app_nil_r (_ ++ ns)). apply Hadd. by intros n ?%elem_of_nil.
  - destruct (rv_authors env) as [e|].
    + intros [= <- <-]. rewrite <- (app_nil_r (_ ++ ns)). apply Hadd. by intros n ?%elem_of_nil.
    + intros (ms & -> & Hms)%notify_authors_grows. apply Hadd. intros n Hn. destruct (Hms n Hn) as [Ht He].
      rewrite He. split; [done|]. right. right. rewrite He in Ht. by repeat split.
  - intros [= <- <-]. rewrite <- (app_nil_r (_ ++ ns)). apply Hadd. by intros n ?%elem_of_nil.
Qed.

(** ** The pages of a read list *)
(** The readers of a message by user id. *)
Definition reader_ids (t : CursorTable) (channel pts : Z) (ids : list Z) : list Z :=
  merge_sort Z.le (readers t channel pts ids).*1.*1.

(** Ids of users are positive and fit the column. *)
Definition user_ids_ok (t : CursorTable) : Prop := forall k r, ct_rows t !! k = Some r -> 0 < k.1 /\ is_i64 k.1.

Lemma elem_reader_ids t channel pts ids u : u ∈ reader_ids t channel pts ids <->
  u ∈ (as_i64 <$> ids) /\ exists r, ct_rows t !! (u, as_i64 channel) = Some r /\ as_i64 pts <= cu_pts r.
Proof.
  unfold reader_ids. rewrite (merge_sort_Permutation Z.le). unfold readers. rewrite <- list_fmap_compose, list_elem_of_fmap.
  setoid_rewrite list_elem_of_filter. setoid_rewrite elem_of_map_to_list'. split.
  - intros ([[v c] r] & -> & (Hc & Hi & Hp) & Hr). simpl in *. subst c. split; [done|]. by exists r.
  - intros (Hi & r & Hr & Hp). exists ((u, as_i64 channel), r). simpl. done.
Qed.

Lemma reader_ids_NoDup t channel pts ids : NoDup (reader_ids t channel pts ids).
Proof.
  unfold reader_ids. rewrite (merge_sort_Permutation Z.le). rewrite <- list_fmap_compose.
  apply NoDup_fmap_2_strong; [|apply NoDup_filter, NoDup_map_to_list].
  intros [[u c] r] [[u' c'] r'] H1 H2 He. simpl in He. subst u'.
  apply list_elem_of_filter in H1 as [(Hc1 & _) H1], H2 as [(Hc2 & _) H2]. simpl in *. subst c c'.
  apply elem_of_map_to_list in H1, H2. congruence.
Qed.

Lemma reader_ids_sorted t channel pts ids : StronglySorted Z.le (reader_ids t channel pts ids).
Proof. apply Sorted_StronglySorted; [exact Z.le_trans|]. apply Sorted_merge_sort, _. Qed.

Lemma StronglySorted_filter {A} (R : A -> A -> Prop) (Q : A -> Prop) `{!forall x, Decision (Q x)} l :
  StronglySorted R l -> StronglySorted R (filter Q l).
Proof.
  induction 1 as [|x l _ IH Hx]; [constructor|]. rewrite filter_cons. destruct (decide (Q x)); [|done].
  constructor; [done|]. apply Forall_forall. intros y [_ Hy]%list_elem_of_filter. by eapply Forall_forall in Hx.
Qed.

Lemma filter_keys (l : list ((Z * Z) * CursorRow)) a :
  (filter (fun p => a < p.1.1) l).*1.*1 = filter (fun u => a < u) l.*1.*1.
Proof.
  induction l as [|p l IH]; [done|]. rewrite filter_cons. simpl. rewrite filter_cons.
  destruct (decide (a < p.1.1)); simpl; [by f_equal|done].
Qed.

(** A page lists the next readers in the order of their ids. *)
Lemma page_readers t channel pts ids a n page :
  page_read_members_by_message_pts None t channel pts ids a n = Ok page ->
  rm_user_id <$> page = as_u64 <$> take (Z.to_nat n) (filter (fun u => as_i64 a < u) (reader_ids t channel pts ids)).
Proof.
  intros [= <-]. rewrite <- list_fmap_compose. change (rm_user_id ∘ read_member) with (as_u64 ∘ (fst ∘ @fst (Z * Z) CursorRow)).
  rewrite list_fmap_compose, fmap_take. do 2 f_equal.
  apply (StronglySorted_unique Z.le).
  - apply (StronglySorted_fmap _ user_le); [by intros x y|]. apply Sorted_StronglySorted.
    + intros x y z. unfold user_le. lia.
    + apply Sorted_merge_sort. intros x y. unfold user_le. lia.
  - apply StronglySorted_filter, reader_ids_sorted.
  - rewrite (merge_sort_Permutation user_le), list_fmap_compose, filter_keys. apply filter_Permutation. symmetry.
    apply (merge_sort_Permutation Z.le).
Qed.

Lemma filter_none {A} (Q : A -> Prop) `{Dec : !forall x, Decision (Q x)} (l : list A) : (forall x, x ∈ l -> ~ Q x) -> filter Q l = [].
Proof.
  intros H. destruct (filter Q l) as [|x k] eqn:E; [done|]. assert (x ∈ filter Q l) as [Hq Hx]%list_elem_of_filter by (rewrite E; by left).
  by destruct (H x).
Qed.
Lemma filter_every {A} (Q : A -> Prop) `{Dec : !forall x, Decision (Q x)} (l : list A) : (forall x, x ∈ l -> Q x) -> filter Q l = l.
Proof.
  induction l as [|x l IH]; intros H; [done|]. rewrite filter_cons, decide_True by (apply H; by left).
  rewrite IH; [done|]. intros y Hy. apply H. by right.
Qed.

Lemma filter_after (l1 l2 : list Z) a : StronglySorted Z.le (l1 ++ l2) -> NoDup (l1 ++ l2) -> list.last l1 = Some a ->
  filter (fun u => a < u) (l1 ++ l2) = l2.
Proof.
  intros Hs Hd Ha. apply last_Some in Ha as [l ->]. rewrite <- app_assoc in *. simpl in *.
  apply StronglySorted_app in Hs as (Hc & _ & Hs). apply StronglySorted_cons in Hs as [Hf Hs]. apply NoDup_app in Hd as (_ & _ & Hd).
  apply NoDup_cons in Hd as [Hn _]. rewrite filter_app, filter_cons, decide_False by lia.
  assert (filter (fun u => a < u) l = []) as ->.
  { apply filter_none. intros x Hx. assert (x <= a) by (apply Hc; [done|by left]). lia. }
  simpl. apply filter_every. intros x Hx. eapply Forall_forall in Hf; [|done]. assert (x <> a) by (by intros ->). lia.
Qed.

Lemma page_limit_bounds limit : 1 <= page_limit limit <= MAX_PAGE_SIZE.
Proof. unfold page_limit, MAX_PAGE_SIZE, DEFAULT_PAGE_SIZE. destruct limit; lia. Qed.

Section Client.
Context (channels : Z -> option Channel) (retention_config now : Z) (d : TimelineDb) (t : CursorTable) (ivs : list Interval)
  (ctx : RpcContext) (message_id channel_id : Z) (limit : option Z).

Notation call after := (handle_read_list channels retention_config now no_faults None None None d t ivs ctx message_id channel_id after limit).

(** A client that asks for pages until the reply says that there are no more. *)
Fixpoint read_whole_list (fuel : nat) (after : option Z) : option (list Z) :=
  match fuel with
  | O => None
  | S fuel =>
      match call after with
      | Err _ => None
      | Ok r =>
          if rl_has_more r
          then rest ← read_whole_list fuel (rl_next_after_user_id r); Some (rl_read_list r ++ rest)
          else Some (rl_read_list r)
      end
  end.

Lemma call_page expires pts ids a todo :
  read_detail_subject channels retention_config now no_faults None d ivs ctx message_id channel_id = Ok (expires, pts, ids) ->
  filter (fun u => as_i64 (default 0 a) < u) (reader_ids t channel_id pts ids) = todo ->
  exists r, call a = Ok r /\ rl_read_list r = as_u64 <$> take (Z.to_nat (page_limit limit)) todo /\
    rl_has_more r = (Z.of_nat (length (take (Z.to_nat (page_limit limit)) todo)) =? page_limit limit) /\
    rl_next_after_user_id r = as_u64 <$> list.last (take (Z.to_nat (page_limit limit)) todo).
Proof.
  intros Hs <-. pose proof (page_limit_bounds limit) as Hn. unfold MAX_PAGE_SIZE in Hn. unfold handle_read_list. rewrite Hs. simpl.
  eexists. split; [done|]. simpl.
  pose proof (page_readers t channel_id pts ids (default 0 a) (page_limit limit) _ eq_refl) as Hp. rewrite <- Hp.
  split; [done|]. split; [|by rewrite <- !fmap_last, <- Hp].
  apply (f_equal length) in Hp. rewrite (length_fmap rm_user_id), (length_fmap as_u64) in Hp. rewrite Hp. f_equal.
  unfold as_u32. apply Z.mod_small. rewrite length_take. lia.
Qed.

Lemma read_whole_list_from expires pts ids : user_ids_ok t ->
  read_detail_subject channels retention_config now no_faults None d ivs ctx message_id channel_id = Ok (expires, pts, ids) ->
  forall fuel a seen todo, reader_ids t channel_id pts ids = seen ++ todo ->
    filter (fun u => as_i64 (default 0 a) < u) (seen ++ todo) = todo -> (length todo < fuel)%nat ->
    read_whole_list fuel a = Some (as_u64 <$> todo).
Proof.
  intros Hk Hs. induction fuel as [|fuel IH]; intros a seen todo He Hf Hlen; [lia|]. simpl.
  rewrite <- He in Hf. destruct (call_page expires pts ids a todo Hs Hf) as (r & -> & Hl & Hm & Hn).
  pose proof (page_limit_bounds limit) as Hb. set (n := Z.to_nat (page_limit limit)) in *. rewrite Hm, Hl.
  destruct (Z.eqb_spec (Z.of_nat (length (take n todo))) (page_limit limit)) as [E|E].
  2:{ rewrite length_take in E. rewrite take_ge; [done|lia]. }
  rewrite length_take in E.
  destruct (list.last (take n todo)) as [x|] eqn:Ex.
  2:{ apply last_None in Ex. apply (f_equal length) in Ex. rewrite length_take in Ex. simpl in Ex. lia. }
  assert (x ∈ reader_ids t channel_id pts ids) as Hx.
  { rewrite He. apply last_Some in Ex as [l' El]. apply elem_of_app. right. rewrite <- (take_drop n todo), El. set_solver. }
  apply elem_reader_ids in Hx as (_ & row & Hrow & _). destruct (Hk _ _ Hrow) as [_ Hx]. simpl in Hx.
  assert (seen ++ todo = (seen ++ take n todo) ++ drop n todo) as Happ by (by rewrite <- app_assoc, take_drop).
  rewrite Hn, (IH _ (seen ++ take n todo) (drop n todo)).
  - simpl. by rewrite <- fmap_app, take_drop.
  - by rewrite He.
  - simpl. rewrite as_i64_as_u64_id by done. apply filter_after.
    + rewrite <- Happ, <- He. apply reader_ids_sorted.
    + rewrite <- Happ, <- He. apply reader_ids_NoDup.
    + by rewrite last_app, Ex.
  - rewrite length_drop. lia.
Qed.
End Client.

(** The cursor after a successful upsert on the way of a request. *)
Lemma settled_row now db t reader channel q up t' : 1 <= q < 2 ^ 63 ->
  (forall r, ct_rows t !! cursor_key reader channel = Some r -> 1 <= cu_pts r < 2 ^ 63) ->
  upsert_channel_read_cursor_row now db t reader channel q None = Ok (up, t') ->
  q <= up_last_read_pts up /\ exists r, ct_rows t' !! cursor_key reader channel = Some r /\ cu_pts r = up_last_read_pts up.
Proof.
  intros Hq Hold. unfold upsert_channel_read_cursor_row. destruct db; [done|]. rewrite as_i64_small by lia.
  destruct (ct_rows t !! cursor_key reader channel) as [r|] eqn:Ek; intros [= <- <-]; simpl;
    [specialize (Hold r eq_refl)|]; unfold as_u64; rewrite Z.mod_small by lia;
    (split; [lia|eexists; split; [apply lookup_insert_eq|done]]).
Qed.

(** The pts written for the member lies between the accepted one and the head. *)
Lemma member_pts_bounds now d s reader channel pts visible q cs : cursors_ok d s ->
  is_u64 pts -> (forall v, visible = Some v -> is_u64 v) -> pts <= current_pts_of d (as_i64 channel) -> accepted_pts pts visible <> 0 ->
  mark_member_pts now (rs_channels s) reader channel (accepted_pts pts visible) = Some (q, cs) ->
  1 <= accepted_pts pts visible <= q /\ q < 2 ^ 63.
Proof.
  intros Hok Hu Hv Hle Hne (c & m & Hc & Hm & -> & _)%mark_member_pts_Some. destruct (ro_timeline _ _ Hok) as [Hl _].
  pose proof (ro_member _ _ Hok _ _ _ _ Hc Hm). pose proof (lo_bound _ Hl (as_i64 channel)). unfold accepted_pts, is_u64 in *.
  destruct visible as [v|]; [specialize (Hv v eq_refl)|]; lia.
Qed.

(** The rows of a sync page come from the user, a direct peer or an aggregate. *)
Definition row_discreet (d : TimelineDb) (t : CursorTable) (user : Z) (r : cursor_row) : Prop :=
  qr_user r = user \/ is_direct_peer d (qr_channel r) user (qr_user r) = true \/
  (qr_user r = 0 /\ (qr_channel r, user) ∈ t_participants d /\
   qr_pts r = foldr Z.max 0 (cu_pts <$> others_in t user (qr_channel r))).

Lemma cursor_rows_discreet d t user since scope r : r ∈ cursor_rows d t user since scope -> row_discreet d t user r.
Proof.
  unfold cursor_rows. rewrite (merge_sort_Permutation row_le), !elem_of_app. intros [H|[H|H]].
  - apply list_elem_of_fmap in H as (p & -> & [[Hp _] _]%list_elem_of_filter). by left.
  - apply list_elem_of_fmap in H as (p & -> & [[Hp _] _]%list_elem_of_filter). right. by left.
  - apply list_elem_of_filter in H as [_ (c & -> & [Hc _]%list_elem_of_filter)%list_elem_of_fmap].
    right. right. unfold group_visible in Hc. rewrite !andb_true_iff, bool_decide_eq_true in Hc. naive_solver.
Qed.

(** ** Properties *)
(** A read cursor exists only between 1 and the head of its channel's timeline,
    whatever clients ask for; from one moment of an execution to a later one it is
    never lowered or lost, its version never decreases, and no two cursors share a
    version, so a client that syncs by version misses none. *)
Theorem read_cursors_never_move_back d s d' s' k r :
  reachable_read d s -> rtc read_step (d, s) (d', s') -> ct_rows (rs_cursors s) !! k = Some r ->
  exists r', ct_rows (rs_cursors s') !! k = Some r' /\ cu_pts r <= cu_pts r' /\ cu_version r <= cu_version r' /\
    1 <= cu_pts r' <= current_pts_of d' k.2 /\
    (forall k2 r2, ct_rows (rs_cursors s') !! k2 = Some r2 -> cu_version r2 = cu_version r' -> k2 = k).
Proof.
  intros Hr Hs Hk. destruct (read_steps_monotone _ _ _ _ _ _ (reachable_read_ok _ _ Hr) Hs Hk) as (r' & Hk' & ? & ?).
  assert (cursors_ok d' s') as Hok.
  { apply reachable_read_ok. destruct Hr as (d0 & s0 & ? & ? & ? & Hsteps). exists d0, s0. do 3 (split; [done|]). by etrans. }
  exists r'. repeat split; try done; try by apply (ro_cursor _ _ Hok _ _ Hk').
  intros k2 r2 H2 Hv. by apply (ro_version _ _ Hok _ _ _ _ H2 Hk').
Qed.

(** A request past the head of the timeline is refused and changes nothing. A
    request that succeeds either was cut to 0 by what the client has seen and
    changes nothing, or leaves the cursor at the pts it returns, at least the
    accepted one and at most the head, and the durable unread count at zero. *)
Theorem mark_read_settles env d s reader channel pts visible out s' :
  reachable_read d s -> is_u64 pts -> (forall v, visible = Some v -> is_u64 v) ->
  mark_read_pts_with_visible env d reader channel pts visible s = (out, s') ->
  (current_pts_of d (as_i64 channel) < pts -> is_ok out = false /\ s' = s) /\
  (forall c p, out = Ok (c, p) -> c = channel /\
    ((accepted_pts pts visible = 0 /\ p = 0 /\ s' = s) \/
     (1 <= accepted_pts pts visible <= p /\ p <= current_pts_of d (as_i64 channel) /\
      (exists r, ct_rows (rs_cursors s') !! cursor_key reader channel = Some r /\ cu_pts r = p) /\
      unread_row (rs_rows s') reader channel = 0))).
Proof.
  intros Hr Hu Hv Hm. pose proof (reachable_read_ok _ _ Hr) as Hok. destruct (ro_timeline _ _ Hok) as [Hl _].
  pose proof (mark_ok env d reader channel pts visible s Hu Hv Hok) as [Hok' _]. rewrite Hm in Hok'. simpl in Hok'.
  revert Hm. unfold mark_read_pts_with_visible. fold (accepted_pts pts visible). rewrite current_u64 by done.
  destruct (rv_pts_db env 0%nat); [intros [= <- <-]; split; [done|intros ?? [=]]|].
  destruct (Z.ltb_spec (current_pts_of d (as_i64 channel)) pts); [intros [= <- <-]; split; [done|intros ?? [=]]|].
  intros Hm. split; [lia|]. intros c p ->. revert Hm.
  destruct (Z.eqb_spec (accepted_pts pts visible) 0); [intros [= <- <- <-]; auto|].
  destruct (mark_member_pts _ _ _ _ _) as [[q cs]|] eqn:Em; [|done].
  destruct (upsert_channel_read_cursor_row _ _ _ _ _ _ _) as [[up ct]|] eqn:Eu; [|done].
  unfold clear_user_channel_unread. destruct (rv_row_db env 0%nat); [done|]. destruct (rv_row_db env 1%nat); [done|].
  destruct (clear_channel _ _ _ _ _) as [[v|e] un]; [|done].
  apply (member_pts_bounds _ d) in Em as [Hacc Hq]; [|done..].
  apply settled_row in Eu as (Hge & r & Hrow & Hrp); [|lia|].
  2:{ intros r Hk. destruct (ro_cursor _ _ Hok _ _ Hk) as [Hc _]. simpl in Hc. pose proof (lo_bound _ Hl (as_i64 channel)). lia. }
  assert (rs_cursors s' = ct -> up_last_read_pts up <= current_pts_of d (as_i64 channel)) as Hhead.
  { intros <-. rewrite <- Hrp. by apply (ro_cursor _ _ Hok' _ _ Hrow). }
  destruct (up_advanced up); [destruct (broadcast_read_cursor _ _ _ _ _ _ _) as [[o|e] sent]; [|done]|];
    intros [= <- <- <-]; simpl in *; specialize (Hhead eq_refl); (split; [done|]); right; (split; [lia|]); (split; [done|]);
    (split; [by exists r|]); unfold unread_row; by rewrite lookup_insert_eq.
Qed.

(** Marking a channel read tells who read, and how far, only to the reader and
    to the other member of a direct chat; in a group the authors of messages that
    were just read learn, without a name, how far anyone else has read. The pages
    by which a user syncs cursors hold the same: own cursors, those of direct peers,
    and for groups the user takes part in one anonymous maximum. *)
Theorem readers_stay_private env d s reader channel pts visible db kinds user since scope limit page next more :
  (exists ns, rs_sent (mark_read_pts_with_visible env d reader channel pts visible s).2 = rs_sent s ++ ns /\
     let s' := (mark_read_pts_with_visible env d reader channel pts visible s).2 in
     forall n, n ∈ ns -> exists c previous p, rs_channels s' !! channel = Some c /\
       discreet d c (rs_cursors s') reader channel previous p n) /\
  (sync_channel_read_cursor_page db d (rs_cursors s) kinds user since scope limit = Ok (page, next, more) ->
   forall i, i ∈ page -> exists r, i = cursor_item kinds r /\ row_discreet d (rs_cursors s) (as_i64 user) r).
Proof.
  split.
  - pose proof (mark_cases env d reader channel pts visible s) as Hm. cbv zeta in *.
    destruct (mark_read_pts_with_visible env d reader channel pts visible s) as [out s']. simpl in *.
    assert (forall l, l = rs_sent s -> exists ns, l = rs_sent s ++ ns /\ forall n, n ∈ ns -> exists c previous p,
      rs_channels s' !! channel = Some c /\ discreet d c (rs_cursors s') reader channel previous p n) as Hnone.
    { intros l ->. exists []. split; [by rewrite app_nil_r|by intros n ?%elem_of_nil]. }
    destruct Hm as [(_ & _ & E)|(p & cs & _ & _ & _ & Ech & [[_ E]|(up & _ & [E|(s5 & o & _ & E1 & E2 & E3 & Hb)])])]; auto.
    apply broadcast_discreet in Hb as (ns & -> & Hns). rewrite E3. exists ns. split; [done|].
    intros n Hn. destruct (Hns n Hn) as (c & Hc & Hd). rewrite E1, <- Ech in Hc. rewrite E2 in Hd. eauto.
  - unfold sync_channel_read_cursor_page. destruct db; [done|]. intros [= <- _ _] i (r & -> & Hr)%list_elem_of_fmap.
    exists r. split; [done|]. apply (cursor_rows_discreet _ _ _ (as_i64 since) scope). 
    eapply subseteq_take, subseteq_take, Hr.
Qed.

(** A sender who is allowed to see who read a message and asks for pages until
    the reply says that there are no more comes to an end, after at most one page per
    reader and a last one, and has then seen every recipient whose cursor has
    reached the message, each exactly once, and nobody else. *)
Theorem read_list_complete channels retention_config now d t ivs ctx message_id channel_id limit expires pts ids :
  user_ids_ok t ->
  read_detail_subject channels retention_config now no_faults None d ivs ctx message_id channel_id = Ok (expires, pts, ids) ->
  exists l,
    (forall fuel, (length (readers t channel_id pts ids) < fuel)%nat ->
       read_whole_list channels retention_config now d t ivs ctx message_id channel_id limit fuel None = Some l) /\
    NoDup l /\
    forall u, u ∈ l <-> is_u64 u /\ as_i64 u ∈ (as_i64 <$> ids) /\
      exists r, ct_rows t !! cursor_key u channel_id = Some r /\ as_i64 pts <= cu_pts r.
Proof.
  intros Hk Hs. exists (as_u64 <$> reader_ids t channel_id pts ids).
  assert (forall x, x ∈ reader_ids t channel_id pts ids -> 0 < x /\ is_i64 x) as Hids.
  { intros x (_ & r & Hr & _)%elem_reader_ids. by apply (Hk _ _ Hr). }
  split; [|split].
  - intros fuel Hf. eapply (read_whole_list_from _ _ _ _ _ _ _ _ _ _ expires pts ids Hk Hs fuel None []); [done| |].
    + simpl. apply filter_every. intros x Hx. unfold as_i64. simpl. by apply Hids.
    + unfold reader_ids. rewrite (merge_sort_Permutation Z.le), !length_fmap. done.
  - apply NoDup_fmap_2_strong; [|apply reader_ids_NoDup]. intros x y Hx Hy He.
    rewrite <- (as_i64_as_u64_id x), <- (as_i64_as_u64_id y) by by apply Hids. by rewrite He.
  - intros u. rewrite list_elem_of_fmap. split.
    + intros (x & -> & Hx). unfold cursor_key. rewrite as_i64_as_u64_id by by apply Hids.
      apply elem_reader_ids in Hx. split; [apply as_u64_is_u64|done].
    + intros (Hu & Hi & Hr). exists (as_i64 u). split; [by rewrite as_u64_as_i64|]. by apply elem_reader_ids.
Qed.
End Facts.

(** ** A concrete execution

    User 1 has sent a message in the direct channel 7; user 2 reads it. *)
#[local] Existing Instances demo_protocol demo_codec demo_chrono demo_postgres.
Definition read_env : ReadEnv :=
  mkReadEnv 50 true false no_faults Replied Replied None no_faults no_faults None (fun _ => None) (fun _ => None).
Definition read_nothing : ReadState := mkReadState ∅ ∅ (mkCursors ∅ 0) ∅ (mkUnread ∅ ∅) [].
Definition read_loaded : ReadState := mkReadState ∅ {[ 7 := new_direct 0 7 1 2 ]} (mkCursors ∅ 0) ∅ (mkUnread ∅ ∅) [].
Definition read_out := mark_read_pts_with_visible read_env demo_sent.2 2 7 1 None read_loaded.

Example read_example :
  read_out.1 = Ok (7, 1) /\ (rn_target <$> rs_sent read_out.2) = [2; 1] /\
  ct_rows (rs_cursors read_out.2) !! (2, 7) = Some (mkCursor 1 None 50 1) /\ rs_tracker read_out.2 !! (2, 7) = Some 1.
Proof. split; [|split; [|split]]; vm_compute; reflexivity. Qed.

Lemma read_loaded_reachable : reachable_read demo_sent.2 read_loaded.
Proof.
  exists demo_tables, read_nothing. split; [apply demo_initial|]. split; [done|]. split; [done|].
  eapply rtc_l.
  { apply (RS_timeline demo_tables demo_sent.2 read_nothing), step_create; [unfold request_typed, is_u64; simpl; lia|set_solver]. }
  apply rtc_once, RS_memory. split; [done|]. intros c ch u m Hc Hm. left. simpl in Hc. apply lookup_singleton_Some in Hc as [<- <-]. simpl in Hm.
  apply lookup_insert_Some in Hm as [[_ <-]|[_ Hm]]; [done|]. by apply lookup_insert_Some in Hm as [[_ <-]|[_ Hm]].
Qed.

Lemma read_step_example : read_step (demo_sent.2, read_loaded) (demo_sent.2, read_out.2).
Proof. apply RS_mark; [unfold is_u64; lia|by intros v [=]]. Qed.

Lemma read_cursors_never_move_back_witness :
  exists r', ct_rows (rs_cursors (mark_read_pts_with_visible read_env demo_sent.2 2 7 0 None read_out.2).2) !! (2, 7) = Some r' /\
    1 <= cu_pts r' /\ 1 <= cu_version r'.
Proof.
  assert (reachable_read demo_sent.2 read_out.2) as Hr.
  { destruct read_loaded_reachable as (d0 & s0 & ? & ? & ? & Hs). exists d0, s0. do 3 (split; [done|]).
    eapply rtc_r; [done|apply read_step_example]. }
  destruct (read_cursors_never_move_back demo_sent.2 read_out.2 demo_sent.2
    (mark_read_pts_with_visible read_env demo_sent.2 2 7 0 None read_out.2).2 (2, 7) (mkCursor 1 None 50 1)) as (r' & Hk & Hp & Hv & _).
  - exact Hr.
  - apply rtc_once, RS_mark; [unfold is_u64; lia|by intros v [=]].
  - apply read_example.
  - exists r'. split; [exact Hk|]. split; [exact Hp|exact Hv].
Defined.

Lemma mark_read_settles_witness :
  (exists r, ct_rows (rs_cursors read_out.2) !! (2, 7) = Some r /\ cu_pts r = 1) /\ unread_row (rs_rows read_out.2) 2 7 = 0.
Proof.
  destruct (mark_read_settles read_env demo_sent.2 read_loaded 2 7 1 None read_out.1 read_out.2) as [_ H].
  - apply read_loaded_reachable.
  - unfold is_u64; lia.
  - by intros v [=].
  - apply surjective_pairing.
  - destruct (H 7 1) as [_ [[Ha _]|(_ & _ & Hr & Hu)]]; [apply read_example|discriminate Ha|]. split; [exact Hr|exact Hu].
Defined.

(** User 1 syncs: the cursor of the peer. *)
Definition read_page := sync_channel_read_cursor_page None demo_sent.2 (rs_cursors read_out.2) (fun _ => None) 1 0 None 10.
Lemma readers_stay_private_witness :
  read_page = Ok ([mkCursorItem 7 1 2 1 1], 1, false) /\
  exists r, mkCursorItem 7 1 2 1 1 = cursor_item (fun _ => None) r /\ row_discreet demo_sent.2 (rs_cursors read_out.2) 1 r.
Proof.
  assert (read_page = Ok ([mkCursorItem 7 1 2 1 1], 1, false)) as Hp by (vm_compute; reflexivity).
  split; [exact Hp|].
  destruct (readers_stay_private read_env demo_sent.2 read_out.2 2 7 1 None None (fun _ => None) 1 0 None 10
    [mkCursorItem 7 1 2 1 1] 1 false) as [_ H].
  apply (H Hp). by left.
Defined.

(** User 1 asks who read the message; the page holds one entry. *)
Definition read_channels (c : Z) : option Channel := if c =? 7 then Some (new_direct 0 7 1 2) else None.
Definition read_intervals : list Interval := [mkInterval 7 1 0 None; mkInterval 7 2 0 None].
Definition read_ctx : RpcContext := mkRpcContext (Some "1"%string) None.
Lemma read_list_complete_witness :
  read_whole_list read_channels 7 20 demo_sent.2 (rs_cursors read_out.2) read_intervals read_ctx 100 7 (Some 1) 2 None = Some [2] /\
  exists l, NoDup l /\ 2 ∈ l.
Proof.
  split; [vm_compute; reflexivity|].
  assert (ct_rows (rs_cursors read_out.2) = {[ (2, 7) := mkCursor 1 None 50 1 ]}) as Hrows by (vm_compute; reflexivity).
  destruct (read_detail_subject read_channels 7 20 no_faults None demo_sent.2 read_intervals read_ctx 100 7) as [[[e p] ids]|] eqn:E;
    [|vm_compute in E; discriminate E].
  destruct (read_list_complete read_channels 7 20 demo_sent.2 (rs_cursors read_out.2) read_intervals read_ctx 100 7 (Some 1) e p ids)
    as (l & _ & Hn & Hl).
  - intros k r. rewrite Hrows. intros [<- <-]%lookup_singleton_Some. unfold is_i64. simpl. lia.
  - exact E.
  - exists l. split; [exact Hn|]. apply Hl. vm_compute in E. injection E as <- <- <-.
    split; [unfold is_u64; lia|]. split; [by left|]. exists (mkCursor 1 None 50 1). split; [apply read_example|]. by vm_compute.
Defined.
