(* ===== verification/QrLogin.v ===== *)
(** * Login by QR code

    Models src/src/service/qr_login_service.rs (the scenes of a login and their
    state machine, over Redis or process memory), qr_login_publisher.rs (which
    connection waits for which scene) and the callers rpc/qr_login/create_scene.rs
    and the push-authorized route of http/routes/admin.rs.

    An operation on a scene reads it, checks and changes its copy, and writes the copy
    back: two accesses to the store, between which other requests run. The
    functions below run one operation alone; [qr_step] interleaves the halves of many.
    The clock readings of one half are one value. *)

From stdpp Require Import base numbers gmap list strings relations.
From S2P Require Import Prelude.
Local Open Scope Z_scope.

(** ** Scenes *)
Inductive QrSceneState := Created | Scanned | Authorized | Rejected | Expired.
#[export] Instance qr_state_eq_dec : EqDecision QrSceneState.
Proof. solve_decision. Defined.

Record WebDeviceSnapshot := mkWebDevice {
  wd_device_name : option string; wd_user_agent : option string; wd_ip_address : option string
}.
Record QrScene := mkScene {
  scene_id : string;
  qr_token : string;
  purpose : string;
  qr_state : QrSceneState;
  web_device_id : string;
  web_device_info : WebDeviceSnapshot;
  created_at : Z;
  expires_at : Z;
  scanned_at : option Z;
  scanner_uid : option Z;
  scanner_device_id : option string;
  scanner_avatar : option string;
  scanner_display_name : option string;
  confirm_token : option string;
  confirm_token_consumed : bool
}.

Definition DEFAULT_CREATED_TTL_SECS : Z := 90.
Definition SCANNED_TTL_SECS : Z := 60.

Definition with_state (s : QrScene) (st : QrSceneState) (consumed : bool) : QrScene :=
  mkScene (scene_id s) (qr_token s) (purpose s) st (web_device_id s) (web_device_info s) (created_at s) (expires_at s)
    (scanned_at s) (scanner_uid s) (scanner_device_id s) (scanner_avatar s) (scanner_display_name s)
    (confirm_token s) consumed.

Definition terminal (st : QrSceneState) : bool :=
  match st with Authorized | Rejected | Expired => true | _ => false end.

Definition expire_if_due (now : Z) (s : QrScene) : QrScene :=
  if terminal (qr_state s) then s
  else if expires_at s <=? now then with_state s Expired (confirm_token_consumed s) else s.

Definition state_label (st : QrSceneState) : string :=
  match st with
  | Created => "created" | Scanned => "scanned" | Authorized => "authorized"
  | Rejected => "rejected" | Expired => "expired"
  end.
Definition state_debug (st : QrSceneState) : string :=
  match st with
  | Created => "Created" | Scanned => "Scanned" | Authorized => "Authorized"
  | Rejected => "Rejected" | Expired => "Expired"
  end.
Definition rpc_topic (s : QrScene) : string := "qr_login.scene." +:+ scene_id s.

(** ** The store

    In Redis a scene disappears at its deadline; in memory it stays. *)
Record QrStore := mkQrStore { qs_memory : gmap string QrScene; qs_redis : gmap string (QrScene * Z) }.
Definition set_memory (st : QrStore) x := mkQrStore x (qs_redis st).
Definition set_keys (st : QrStore) x := mkQrStore (qs_memory st) x.

(** A failed write may have taken effect. *)
Record write_fault := mkWriteFault { wf_error : ServerError; wf_applied : bool }.

Section Service.
Context (redis : bool).

Definition stored (now : Z) (st : QrStore) (id : string) : option QrScene :=
  if redis then match qs_redis st !! id with Some (s, deadline) => if deadline <=? now then None else Some s | None => None end
  else qs_memory st !! id.

Definition load_scene (io : option ServerError) (now : Z) (id : string) (st : QrStore) : result QrScene ServerError * QrStore :=
  match (if redis then io else None) with
  | Some e => (Err e, st)
  | None =>
      match stored now st id with
      | None => (Err (NotFound ("QR_SCENE_NOT_FOUND: " +:+ id)), st)
      | Some s =>
          let s' := expire_if_due now s in
          (Ok s', if redis then st else set_memory st (<[id := s']> (qs_memory st)))
      end
  end.

Definition ttl_secs_for (now : Z) (s : QrScene) : Z := Z.max 1 (Z.quot (i64_wrap (expires_at s - now)) 1000).

Definition store_scene (io : option write_fault) (now : Z) (s : QrScene) (st : QrStore) : result unit ServerError * QrStore :=
  if redis then
    let written := set_keys st (<[scene_id s := (s, now + ttl_secs_for now s * 1000)]> (qs_redis st)) in
    match io with
    | Some f => (Err (wf_error f), if wf_applied f then written else st)
    | None => (Ok tt, written)
    end
  else (Ok tt, set_memory st (<[scene_id s := s]> (qs_memory st))).

(** ** Operations *)
(** [new_id], [new_token]: the generated UUIDs. *)
Definition new_scene (now : Z) (new_id new_token purpose device : string) (info : WebDeviceSnapshot) (ttl_secs : option Z) : QrScene :=
  let ttl := Z.max 1 (default DEFAULT_CREATED_TTL_SECS ttl_secs) in
  mkScene new_id ("qr_" +:+ new_token) purpose Created device info now (i64_wrap (now + i64_wrap (ttl * 1000)))
    None None None None None None false.
Definition create_scene (io : option write_fault) (now : Z) (new_id new_token purpose device : string) (info : WebDeviceSnapshot)
    (ttl_secs : option Z) (st : QrStore) : QrScene * QrStore :=
  let s := new_scene now new_id new_token purpose device info ttl_secs in
  (s, (store_scene io now s st).2).

Definition get_scene := load_scene.

(** What a request does to its copy of the scene. *)
Inductive qr_op :=
| OpScan (uid : Z) (device qr : string) (avatar display_name : option string) (new_confirm : string)
| OpConfirm (uid : Z) (device token : string)
| OpReject (uid : Z) (token : string)
| OpAuthorize.

Definition state_invalid (expected : string) (s : QrScene) : ServerError :=
  Duplicate ("QR_SCENE_STATE_INVALID: expected " +:+ expected +:+ ", got " +:+ state_debug (qr_state s)).
Definition token_valid (s : QrScene) (token : string) : bool :=
  match confirm_token s with Some t => bool_decide (t = token) && negb (confirm_token_consumed s) | None => false end.

Definition scan_change (now uid : Z) (device qr : string) (avatar display_name : option string) (new_confirm : string)
    (s : QrScene) : result QrScene ServerError :=
  if decide (qr_state s <> Created) then Err (state_invalid "created" s)
  else if decide (qr_token s <> qr) then Err (Validation "QR_TOKEN_MISMATCH: qr_token 与场景不匹配")
  else Ok (mkScene (scene_id s) (qr_token s) (purpose s) Scanned (web_device_id s) (web_device_info s) (created_at s)
             (i64_wrap (now + SCANNED_TTL_SECS * 1000)) (Some now) (Some uid) (Some device) avatar display_name
             (Some ("ct_" +:+ new_confirm)) false).

Definition ensure_scanned_with_token (s : QrScene) (uid : Z) (device token : string) : result unit ServerError :=
  if decide (qr_state s <> Scanned) then Err (state_invalid "scanned" s)
  else if decide (scanner_uid s <> Some uid) then Err (PermissionDenied "QR_SCANNER_MISMATCH: scanner_uid 与扫码者不一致")
  else if decide (scanner_device_id s <> Some device)
  then Err (PermissionDenied "QR_SCANNER_MISMATCH: scanner_device_id 与扫码者不一致")
  else if token_valid s token then Ok tt
  else Err (Validation "QR_CONFIRM_TOKEN_INVALID: confirm_token 无效或已消费").

Definition confirm_change (uid : Z) (device token : string) (s : QrScene) : result QrScene ServerError :=
  let? _ := ensure_scanned_with_token s uid device token in Ok (with_state s Authorized true).

Definition reject_change (uid : Z) (token : string) (s : QrScene) : result QrScene ServerError :=
  if decide (qr_state s <> Scanned) then Err (state_invalid "scanned" s)
  else if decide (scanner_uid s <> Some uid) then Err (PermissionDenied "QR_SCANNER_MISMATCH: scanner_uid 与扫码者不一致")
  else if token_valid s token then Ok (with_state s Rejected true)
  else Err (Validation "QR_CONFIRM_TOKEN_INVALID: confirm_token 无效或已消费").

Definition change (now : Z) (op : qr_op) (s : QrScene) : result QrScene ServerError :=
  match op with
  | OpScan uid device qr avatar name new_confirm => scan_change now uid device qr avatar name new_confirm s
  | OpConfirm uid device token => confirm_change uid device token s
  | OpReject uid token => reject_change uid token s
  | OpAuthorize => Ok (with_state s Authorized true)
  end.

(** The first half of a request: read and check. *)
Definition begin_op (io : option ServerError) (now : Z) (op : qr_op) (id : string) (st : QrStore)
    : result QrScene ServerError * QrStore :=
  let '(r, st1) := load_scene io now id st in (let? s := r in change now op s, st1).

(** A request that runs alone. *)
Definition run_op (io : option ServerError) (io2 : option write_fault) (now now2 : Z) (op : qr_op) (id : string) (st : QrStore)
    : result QrScene ServerError * QrStore :=
  let '(r, st1) := begin_op io now op id st in
  match r with
  | Err e => (Err e, st1)
  | Ok s => let '(w, st2) := store_scene io2 now2 s st1 in (let? _ := w in Ok s, st2)
  end.

(** An event for the connection that waits for the scene; [true] if it is the last. *)
Record QrPush := mkQrPush { qp_event : string; qp_scene_id : string; qp_state : string; qp_terminal : bool }.
Definition push_for (s : QrScene) (event : string) (term : bool) : QrPush :=
  mkQrPush event (scene_id s) (state_label (qr_state s)) term.

Definition pushed (r : result QrScene ServerError) (event : string) (term : bool) : list QrPush :=
  match r with Ok s => [push_for s event term] | Err _ => [] end.

Definition scan_scene io io2 now now2 (id : string) (uid : Z) (device qr : string) (avatar name : option string)
    (new_confirm : string) (st : QrStore) : result (QrScene * string) ServerError * QrStore * list QrPush :=
  let '(r, st') := run_op io io2 now now2 (OpScan uid device qr avatar name new_confirm) id st in
  (let? s := r in Ok (s, "ct_" +:+ new_confirm), st', pushed r "qr_login.scanned" false).
Definition confirm_scene io io2 now now2 (id : string) (uid : Z) (device token : string) (st : QrStore) :=
  run_op io io2 now now2 (OpConfirm uid device token) id st.
Definition reject_scene io io2 now now2 (id : string) (uid : Z) (token : string) (st : QrStore)
    : result QrScene ServerError * QrStore * list QrPush :=
  let '(r, st') := run_op io io2 now now2 (OpReject uid token) id st in (r, st', pushed r "qr_login.rejected" true).
Definition mark_authorized io io2 now now2 (id : string) (st : QrStore) := run_op io io2 now now2 OpAuthorize id st.

Definition due (now : Z) (s : QrScene) : bool := negb (terminal (qr_state s)) && (expires_at s <=? now).
Definition tick_expired (now : Z) (st : QrStore) : QrStore * list QrPush :=
  if redis then (st, [])
  else
    let gone := filter (fun p => due now p.2 = true) (map_to_list (qs_memory st)) in
    (set_memory st (expire_if_due now <$> qs_memory st),
     (fun p => push_for (expire_if_due now p.2) "qr_login.expired" true) <$> gone).
End Service.

(** ** The publisher *)
Record QrLoginPublisher := mkPublisher { scene_to_session : gmap string Z; session_to_scene : gmap Z string }.
Inductive PushOutcome := Delivered | NoSubscriber.

Definition bind (scene : string) (session : Z) (p : QrLoginPublisher) : QrLoginPublisher :=
  let p1 := match session_to_scene p !! session with
            | Some prev => mkPublisher (delete prev (scene_to_session p)) (delete session (session_to_scene p))
            | None => p
            end in
  mkPublisher (<[scene := session]> (scene_to_session p1)) (<[session := scene]> (session_to_scene p1)).
Definition unbind_by_scene (scene : string) (p : QrLoginPublisher) : QrLoginPublisher :=
  match scene_to_session p !! scene with
  | Some sid => mkPublisher (delete scene (scene_to_session p)) (delete sid (session_to_scene p))
  | None => p
  end.
Definition unbind_by_session (session : Z) (p : QrLoginPublisher) : option string * QrLoginPublisher :=
  match session_to_scene p !! session with
  | Some scene => (Some scene, mkPublisher (delete scene (scene_to_session p)) (delete session (session_to_scene p)))
  | None => (None, p)
  end.
Definition binding_count (p : QrLoginPublisher) : nat := size (scene_to_session p).
Definition lookup_session (p : QrLoginPublisher) (scene : string) : option Z := scene_to_session p !! scene.

(** [encodes]: the event serializes; [send]: frames written by the transport. The last
    component names the session the event was handed to. *)
Definition push_event (encodes : bool) (send : Z -> result Z string) (e : QrPush) (p : QrLoginPublisher)
    : PushOutcome * QrLoginPublisher * option Z :=
  match scene_to_session p !! qp_scene_id e with
  | None => (NoSubscriber, p, None)
  | Some session =>
      let p' := if qp_terminal e then unbind_by_scene (qp_scene_id e) p else p in
      if encodes then
        (match send session with Ok n => if 0 <? n then Delivered else NoSubscriber | Err _ => NoSubscriber end, p', Some session)
      else (NoSubscriber, p', None)
  end.

(** ** Callers *)
(** [parse_session_id]. *)
Definition strip_prefix_or (prefix s : string) : string :=
  if String.prefix prefix s then String.substring (String.length prefix) (String.length s) s else s.
Definition parse_session_id (s : option string) : option Z := s ≫= fun raw => parse_u64 (strip_prefix_or "session-" raw).

Definition create_scene_rpc (redis : bool) (io : option write_fault) (now : Z) (new_id new_token purpose device : string)
    (info : WebDeviceSnapshot) (ttl : option Z) (session : option string) (st : QrStore) (p : QrLoginPublisher)
    : result QrScene RpcError * QrStore * QrLoginPublisher :=
  if trim_is_empty device then (Err (rpc_validation "web_device_id 不能为空"), st, p)
  else match parse_session_id session with
  | None => (Err (rpc_internal "qr_login.create_scene: missing or invalid session_id in RpcContext"), st, p)
  | Some sid =>
      let '(s, st') := create_scene redis io now new_id new_token purpose device info ttl st in
      (Ok s, st', bind (scene_id s) sid p)
  end.

Definition push_qr_authorized (redis : bool) io io2 now now2 (encodes : bool) (send : Z -> result Z string) (id : string)
    (st : QrStore) (p : QrLoginPublisher) : bool * QrStore * QrLoginPublisher :=
  let st' := (mark_authorized redis io io2 now now2 id st).2 in
  let '(out, p', _) := push_event encodes send (mkQrPush "qr_login.authorized" id "authorized" true) p in
  (match out with Delivered => true | NoSubscriber => false end, st', p').

(** ** Executions

    Requests overlap: [QS_begin] is the first half of one, [QS_commit] the second.
    [qy_begun] remembers every request that passed its checks, in order, and
    [qy_created] the scenes that were created. *)
Record QrSystem := mkQrSystem {
  qy_now : Z;
  qy_store : QrStore;
  qy_pending : list QrScene;
  qy_begun : list (string * qr_op);
  qy_created : gmap string QrScene
}.

Inductive qr_step (redis : bool) : QrSystem -> QrSystem -> Prop :=
| QS_time y now : qy_now y <= now ->
    qr_step redis y (mkQrSystem now (qy_store y) (qy_pending y) (qy_begun y) (qy_created y))
| QS_create y io new_id new_token purpose device info ttl :
    qy_created y !! new_id = None ->
    let '(s, st) := create_scene redis io (qy_now y) new_id new_token purpose device info ttl (qy_store y) in
    qr_step redis y (mkQrSystem (qy_now y) st (qy_pending y) (qy_begun y) (<[new_id := s]> (qy_created y)))
| QS_read y io id :
    qr_step redis y (mkQrSystem (qy_now y) (load_scene redis io (qy_now y) id (qy_store y)).2 (qy_pending y) (qy_begun y) (qy_created y))
| QS_begin y io op id s st :
    begin_op redis io (qy_now y) op id (qy_store y) = (Ok s, st) ->
    qr_step redis y (mkQrSystem (qy_now y) st (s :: qy_pending y) (qy_begun y ++ [(id, op)]) (qy_created y))
| QS_commit y io before s after :
    qy_pending y = before ++ s :: after ->
    qr_step redis y (mkQrSystem (qy_now y) (store_scene redis io (qy_now y) s (qy_store y)).2 (before ++ after) (qy_begun y) (qy_created y))
| QS_tick y :
    qr_step redis y (mkQrSystem (qy_now y) (tick_expired redis (qy_now y) (qy_store y)).1 (qy_pending y) (qy_begun y) (qy_created y)).

Definition qr_initial : QrSystem := mkQrSystem 0 (mkQrStore ∅ ∅) [] [] ∅.

(** ** Facts *)
(** A scene that was never scanned has no scanner and no token; one that was knows
    its scanner and the token, from a scan that presented the code of the scene. *)
Definition scan_of (begun : list (string * qr_op)) (s : QrScene) (u : Z) (d t : string) : Prop :=
  scanner_uid s = Some u /\ scanner_device_id s = Some d /\ confirm_token s = Some ("ct_" +:+ t) /\
  exists av nm, (scene_id s, OpScan u d (qr_token s) av nm t) ∈ begun.
Definition unscanned (s : QrScene) : Prop := scanner_uid s = None /\ confirm_token s = None.
Definition decided (begun : list (string * qr_op)) (s : QrScene) : Prop :=
  match qr_state s with
  | Created => unscanned s /\ confirm_token_consumed s = false
  | Scanned => (exists u d t, scan_of begun s u d t) /\ confirm_token_consumed s = false
  | Authorized => confirm_token_consumed s = true /\
      ((scene_id s, OpAuthorize) ∈ begun \/
       exists u d t, scan_of begun s u d t /\ (scene_id s, OpConfirm u d ("ct_" +:+ t)) ∈ begun)
  | Rejected => confirm_token_consumed s = true /\
      exists u d t, scan_of begun s u d t /\ (scene_id s, OpReject u ("ct_" +:+ t)) ∈ begun
  | Expired => confirm_token_consumed s = false /\ (unscanned s \/ exists u d t, scan_of begun s u d t)
  end.
(** The parts of a scene that never change. *)
Definition same_login (s s' : QrScene) : Prop :=
  scene_id s' = scene_id s /\ qr_token s' = qr_token s /\ web_device_id s' = web_device_id s /\
  web_device_info s' = web_device_info s /\ purpose s' = purpose s /\ created_at s' = created_at s.
Definition scene_ok (y : QrSystem) (s : QrScene) : Prop :=
  decided (qy_begun y) s /\ exists s0, qy_created y !! scene_id s = Some s0 /\ same_login s0 s.

Definition kept (st : QrStore) (id : string) (s : QrScene) : Prop :=
  qs_memory st !! id = Some s \/ exists deadline, qs_redis st !! id = Some (s, deadline).
(** Every begun request followed an origin. *)
Definition confirms_follow_scans (begun : list (string * qr_op)) : Prop :=
  forall before id u d t after, begun = before ++ (id, OpConfirm u d t) :: after ->
    exists q av nm t', t = "ct_" +:+ t' /\ (id, OpScan u d q av nm t') ∈ before.
Record system_ok (y : QrSystem) : Prop := {
  yo_kept : forall id s, kept (qy_store y) id s -> scene_id s = id /\ scene_ok y s;
  yo_pending : forall s, s ∈ qy_pending y -> scene_ok y s;
  yo_created : forall id s, qy_created y !! id = Some s -> scene_id s = id;
  yo_scans : forall id u d q av nm t, (id, OpScan u d q av nm t) ∈ qy_begun y ->
    exists s0, qy_created y !! id = Some s0 /\ q = qr_token s0;
  yo_confirms : confirms_follow_scans (qy_begun y)
}.

Lemma string_app_inj (a b c : string) : a +:+ b = a +:+ c -> b = c.
Proof. induction a as [|x a IH]; simpl; [done|]. intros [= H]. by apply IH. Qed.

Lemma scan_of_mono b b' s u d t : b ⊆ b' -> scan_of b s u d t -> scan_of b' s u d t.
Proof. unfold scan_of. intros Hb (? & ? & ? & av & nm & H). eauto 10. Qed.
Lemma decided_mono b b' s : b ⊆ b' -> decided b s -> decided b' s.
Proof.
  intros Hb. unfold decided. destruct (qr_state s); [done| | | |].
  - intros [(u & d & t & H) ?]. eauto 10 using scan_of_mono.
  - intros [? [H|(u & d & t & H & ?)]]; eauto 10 using scan_of_mono.
  - intros [? (u & d & t & H & ?)]. eauto 10 using scan_of_mono.
  - intros [? [H|(u & d & t & H)]]; eauto 10 using scan_of_mono.
Qed.

Lemma same_login_refl s : same_login s s.
Proof. by repeat split. Qed.
Lemma same_login_trans s1 s2 s3 : same_login s1 s2 -> same_login s2 s3 -> same_login s1 s3.
Proof. intros (? & ? & ? & ? & ? & ?) (? & ? & ? & ? & ? & ?). repeat split; congruence. Qed.
Lemma with_state_login s x c : same_login s (with_state s x c).
Proof. by repeat split. Qed.

Lemma expire_login now s : same_login s (expire_if_due now s).
Proof. unfold expire_if_due. destruct (terminal _); [done|]. destruct (_ <=? _); [apply with_state_login|done]. Qed.
Lemma expire_decided b now s : decided b s -> decided b (expire_if_due now s).
Proof.
  unfold expire_if_due. destruct (terminal (qr_state s)) eqn:Et; [done|]. destruct (_ <=? _); [|done].
  unfold decided. destruct (qr_state s); try done; simpl; naive_solver.
Qed.
Lemma scene_ok_login y s s' : scene_ok y s -> same_login s s' -> decided (qy_begun y) s' -> scene_ok y s'.
Proof.
  intros [_ (s0 & H0 & Hl)] Hs Hd. split; [done|]. exists s0. destruct Hs as [He ?]. rewrite He.
  split; [done|]. eapply same_login_trans; [done|by split].
Qed.
Lemma expire_ok y now s : scene_ok y s -> scene_ok y (expire_if_due now s).
Proof. intros H. eapply scene_ok_login; [done|apply expire_login|apply expire_decided, H]. Qed.

(** What reading and writing do to the scenes kept. *)
Lemma kept_memory st id s x : kept (set_memory st x) id s -> x !! id = Some s \/ kept st id s.
Proof. unfold kept. simpl. naive_solver. Qed.
Lemma stored_kept redis now st id s : stored redis now st id = Some s -> kept st id s.
Proof.
  unfold stored, kept. destruct redis; [|by left]. destruct (qs_redis st !! id) as [[x dl]|]; [|done].
  destruct (_ <=? _); [done|]. intros [= ->]. eauto.
Qed.
Lemma load_kept redis io now id st r st' : load_scene redis io now id st = (r, st') ->
  (forall s, r = Ok s -> exists s0, kept st id s0 /\ s = expire_if_due now s0) /\
  (forall id' s', kept st' id' s' -> exists s0, kept st id' s0 /\ (s' = s0 \/ s' = expire_if_due now s0)).
Proof.
  unfold load_scene. destruct (if redis then io else None); [intros [= <- <-]; naive_solver|].
  destruct (stored redis now st id) as [s|] eqn:E; [|intros [= <- <-]; naive_solver].
  apply stored_kept in E. intros [= <- <-]. split; [intros x [= <-]; eauto|].
  intros id' s' Hk. destruct redis; [eauto|]. apply kept_memory in Hk as [[[<- <-]|[_ H]]%lookup_insert_Some|H]; [eauto| |eauto].
  exists s'. split; [by left|by left].
Qed.
Lemma store_kept redis io now s st id' s' : kept (store_scene redis io now s st).2 id' s' ->
  kept st id' s' \/ (id' = scene_id s /\ s' = s).
Proof.
  unfold store_scene, kept. destruct redis; simpl.
  - assert (forall dl, qs_memory st !! id' = Some s' \/
      (exists deadline, <[scene_id s := (s, dl)]> (qs_redis st) !! id' = Some (s', deadline)) ->
      (qs_memory st !! id' = Some s' \/ exists deadline, qs_redis st !! id' = Some (s', deadline)) \/ id' = scene_id s /\ s' = s) as H.
    { intros dl [H|(x & [[<- [= <- <-]]|[_ H]]%lookup_insert_Some)]; eauto 10. }
    destruct io as [[e []]|]; simpl; eauto.
  - intros [[[<- <-]|[_ H]]%lookup_insert_Some|H]; eauto 10.
Qed.
Lemma tick_kept redis now st id s : kept (tick_expired redis now st).1 id s ->
  exists s0, kept st id s0 /\ (s = s0 \/ s = expire_if_due now s0).
Proof.
  unfold tick_expired. destruct redis; simpl; [eauto|]. unfold kept. simpl.
  intros [H|H]; [|eauto]. rewrite lookup_fmap in H. apply fmap_Some in H as (s0 & H & ->). eauto.
Qed.

Lemma change_login now op s s' : change now op s = Ok s' -> same_login s s'.
Proof.
  destruct op; simpl.
  - unfold scan_change. repeat case_decide; try done. intros [= <-]. by repeat split.
  - unfold confirm_change. destruct (ensure_scanned_with_token _ _ _ _); [|done]. intros [= <-]. apply with_state_login.
  - unfold reject_change. repeat case_decide; try done. destruct (token_valid _ _); [|done]. intros [= <-]. apply with_state_login.
  - intros [= <-]. apply with_state_login.
Qed.

(** A token that is accepted was issued to the scanner of the scene. *)
Lemma token_scan b s token : decided b s -> qr_state s = Scanned -> token_valid s token = true ->
  exists u d t, scan_of b s u d t /\ token = "ct_" +:+ t.
Proof.
  unfold decided, token_valid. intros Hd He. rewrite He in Hd. destruct Hd as [(u & d & t & Hs) _].
  pose proof Hs as (_ & _ & -> & _). intros [Ht _]%andb_true_iff. apply bool_decide_eq_true in Ht. subst. eauto 10.
Qed.
Lemma ensured s u d token : ensure_scanned_with_token s u d token = Ok tt ->
  qr_state s = Scanned /\ scanner_uid s = Some u /\ scanner_device_id s = Some d /\ token_valid s token = true.
Proof.
  unfold ensure_scanned_with_token. do 3 (case_decide as Hx; [done|revert Hx]).
  destruct (token_valid s token); [|done]. by intros.
Qed.

Lemma change_decided b now op s s' : decided b s -> change now op s = Ok s' -> decided (b ++ [(scene_id s, op)]) s'.
Proof.
  intros Hd Hc. assert (b ⊆ b ++ [(scene_id s, op)]) as Hb by set_solver.
  assert ((scene_id s, op) ∈ b ++ [(scene_id s, op)]) as Hlast by set_solver.
  destruct op as [uid dev qr av nm t|u d token|u token|]; simpl in Hc.
  - unfold scan_change in Hc. case_decide; [done|]. case_decide; [done|]. injection Hc as <-. subst qr.
    unfold decided. simpl. split; [|done]. exists uid, dev, t. repeat split. simpl. eauto.
  - unfold confirm_change in Hc. destruct (ensure_scanned_with_token s u d token) as [[]|] eqn:E; [|done]. injection Hc as <-.
    apply ensured in E as (Hst & Hu & Hdv & Htk). destruct (token_scan _ _ _ Hd Hst Htk) as (u' & d' & t & Hs & ->).
    pose proof Hs as (Hu' & Hd' & _). simplify_eq. unfold decided. simpl. split; [done|]. right. exists u, d, t.
    split; [by apply (scan_of_mono b)|done].
  - unfold reject_change in Hc. case_decide; [done|]. case_decide; [done|].
    destruct (token_valid s token) eqn:Htk; [|done]. injection Hc as <-.
    destruct (token_scan b s token Hd) as (u' & d' & t & Hs & ->); [done..|].
    pose proof Hs as (Hu' & _). simplify_eq. unfold decided. simpl. split; [done|]. exists u, d', t.
    split; [by apply (scan_of_mono b)|done].
  - injection Hc as <-. unfold decided. simpl. split; [done|]. by left.
Qed.

(** ** The invariant *)
Lemma scene_ok_grows y y' s : qy_begun y ⊆ qy_begun y' ->
  (forall id s0, qy_created y !! id = Some s0 -> qy_created y' !! id = Some s0) -> scene_ok y s -> scene_ok y' s.
Proof. intros Hb Hc [Hd (s0 & H0 & Hl)]. split; [by apply (decided_mono (qy_begun y))|]. exists s0. eauto. Qed.

(** Steps that only touch the store. *)
Lemma ok_store y st now pending : system_ok y -> (forall s, s ∈ pending -> s ∈ qy_pending y) ->
  (forall id s, kept st id s -> scene_id s = id /\ scene_ok y s) ->
  system_ok (mkQrSystem now st pending (qy_begun y) (qy_created y)).
Proof.
  intros Hok Hp Hk. assert (forall s, scene_ok y s -> scene_ok (mkQrSystem now st pending (qy_begun y) (qy_created y)) s) as H.
  { intros s. by apply scene_ok_grows. }
  split; simpl; [|intros s ?%Hp; by apply H, Hok|apply Hok..]. intros id s Hs. destruct (Hk id s Hs). auto.
Qed.

Lemma kept_or_expired y now st : system_ok y ->
  (forall id s, kept st id s -> exists s0, kept (qy_store y) id s0 /\ (s = s0 \/ s = expire_if_due now s0)) ->
  forall id s, kept st id s -> scene_id s = id /\ scene_ok y s.
Proof.
  intros Hok Hst id s (s0 & H0 & [->| ->])%Hst; destruct (yo_kept _ Hok _ _ H0) as [<- Hs]; [done|].
  split; [apply expire_login|by apply expire_ok].
Qed.

Lemma begin_cases redis io now op id st s st' : begin_op redis io now op id st = (Ok s, st') ->
  exists s0, kept st id s0 /\ change now op (expire_if_due now s0) = Ok s /\
    forall id' s', kept st' id' s' -> exists s1, kept st id' s1 /\ (s' = s1 \/ s' = expire_if_due now s1).
Proof.
  unfold begin_op. destruct (load_scene redis io now id st) as [[s1|] st1] eqn:E; [|done].
  apply load_kept in E as [Hl Hk]. intros [= Hc <-]. destruct (Hl s1 eq_refl) as (s0 & H0 & ->). eauto.
Qed.

(** A confirmation that passes the checks follows the scan of its user and device. *)
Lemma confirm_has_scan y now op s s' u d t : scene_ok y s -> op = OpConfirm u d t -> change now op s = Ok s' ->
  exists q av nm t', t = "ct_" +:+ t' /\ (scene_id s, OpScan u d q av nm t') ∈ qy_begun y.
Proof.
  intros [Hd _] ->. simpl. unfold confirm_change. destruct (ensure_scanned_with_token s u d t) as [[]|] eqn:E; [|done]. intros _.
  apply ensured in E as (Hst & Hu & Hdv & Htk). destruct (token_scan _ _ _ Hd Hst Htk) as (u' & d' & t' & Hs & ->).
  pose proof Hs as (Hu' & Hd' & _ & av & nm & Hin). simplify_eq. eauto 10.
Qed.

Lemma begin_ok y op id s st : system_ok y ->
  (exists s0, kept (qy_store y) id s0 /\ change (qy_now y) op (expire_if_due (qy_now y) s0) = Ok s) ->
  (forall id s, kept st id s -> scene_id s = id /\ scene_ok y s) ->
  system_ok (mkQrSystem (qy_now y) st (s :: qy_pending y) (qy_begun y ++ [(id, op)]) (qy_created y)).
Proof.
  intros Hok (s0 & H0 & Hc) Hst. destruct (yo_kept _ Hok _ _ H0) as [Hid Hs0]. apply (expire_ok _ (qy_now y)) in Hs0.
  destruct (expire_login (qy_now y) s0) as [Hid' _]. rewrite Hid in Hid'. clear H0. set (s1 := expire_if_due (qy_now y) s0) in *.
  assert (qy_begun y ⊆ qy_begun y ++ [(id, op)]) as Hb by set_solver.
  set (y' := mkQrSystem _ _ _ _ _). assert (forall x, scene_ok y x -> scene_ok y' x) as Hgrow by (intros x; by apply scene_ok_grows).
  split; simpl.
  - intros id' x Hx. destruct (Hst id' x Hx). auto.
  - intros x [->|Hx]%elem_of_cons; [|by apply Hgrow, Hok]. pose proof (change_login _ _ _ _ Hc) as Hl.
    apply (scene_ok_login y' s1); [by apply Hgrow|done|]. simpl. rewrite <- Hid'. eapply change_decided; [apply Hs0|done].
  - apply Hok.
  - intros id' u d q av nm t [Hin|Hin]%elem_of_app; [by eapply (yo_scans _ Hok)|]. apply list_elem_of_singleton in Hin as [= -> <-].
    simpl in Hc. unfold scan_change in Hc. case_decide; [done|]. case_decide as Hq; [done|].
    destruct Hs0 as [_ (sc & Hsc & Hlog)]. exists sc. rewrite Hid' in Hsc. split; [done|]. destruct Hlog as (_ & Hqt & _). congruence.
  - intros before id' u d t after He. destruct after as [|z after _] using rev_ind.
    + apply app_inj_tail in He as [<- [= <- ->]]. destruct (confirm_has_scan y (qy_now y) _ s1 s u d t Hs0 eq_refl Hc) as (q & av & nm & t' & -> & Hin).
      rewrite Hid' in Hin. eauto 10.
    + rewrite app_comm_cons, app_assoc in He. apply app_inj_tail in He as [He _]. by eapply (yo_confirms _ Hok).
Qed.

Lemma create_ok y io redis new_id new_token purpose device info ttl : system_ok y -> qy_created y !! new_id = None ->
  let '(s, st) := create_scene redis io (qy_now y) new_id new_token purpose device info ttl (qy_store y) in
  system_ok (mkQrSystem (qy_now y) st (qy_pending y) (qy_begun y) (<[new_id := s]> (qy_created y))).
Proof.
  intros Hok Hnew. unfold create_scene. set (s := new_scene _ _ _ _ _ _ _). set (y' := mkQrSystem _ _ _ _ _).
  assert (forall x, scene_ok y x -> scene_ok y' x) as Hgrow.
  { intros x. apply scene_ok_grows; [done|]. simpl. intros i s0 H. rewrite lookup_insert_ne; [done|]. congruence. }
  assert (scene_ok y' s) as Hs.
  { split; [by repeat split|]. exists s. simpl. rewrite lookup_insert_eq. split; [done|apply same_login_refl]. }
  split; simpl.
  - intros id x [Hx|[-> ->]]%store_kept; [|done]. destruct (yo_kept _ Hok _ _ Hx). auto.
  - intros x Hx. by apply Hgrow, Hok.
  - intros id x [[<- <-]|[_ H]]%lookup_insert_Some; [done|by apply (yo_created _ Hok)].
  - intros id u d q av nm t Hin. destruct (yo_scans _ Hok _ _ _ _ _ _ _ Hin) as (s0 & H0 & ->). exists s0.
    rewrite lookup_insert_ne; [done|]. congruence.
  - apply Hok.
Qed.

Lemma qr_step_ok redis y y' : qr_step redis y y' -> system_ok y -> system_ok y'.
Proof.
  intros Hs Hok. destruct Hs as [y now Hle|y io new_id new_token purpose device info ttl Hnew|y io id|y io op id s st Hb|y io before s after Hp|y].
  - apply ok_store; [done..|apply Hok].
  - by apply create_ok.
  - apply ok_store; [done..|]. apply (kept_or_expired y (qy_now y)); [done|].
    destruct (load_scene redis io (qy_now y) id (qy_store y)) as [r st] eqn:E. by apply load_kept in E as [_ ?].
  - apply begin_cases in Hb as (s0 & H0 & Hc & Hk). apply begin_ok; [done|eauto|]. by apply (kept_or_expired y (qy_now y)).
  - apply ok_store; [done|rewrite Hp; set_solver|]. intros id x [Hx|[-> ->]]%store_kept; [by apply Hok|].
    split; [done|]. apply Hok. rewrite Hp. set_solver.
  - apply ok_store; [done..|]. apply (kept_or_expired y (qy_now y)); [done|]. intros id s. apply tick_kept.
Qed.

Lemma qr_reachable_ok redis y : rtc (qr_step redis) qr_initial y -> system_ok y.
Proof.
  intros Hs. assert (system_ok qr_initial) as H0.
  { split; simpl; try done; [intros id s [H|(dl & H)]; simpl in H; by rewrite lookup_empty in H|by intros s ?%elem_of_nil|
      by intros id u d q av nm t ?%elem_of_nil|by intros [] ]. }
  induction Hs; eauto using qr_step_ok.
Qed.

(** ** Requests that do not overlap *)
Definition in_use (redis : bool) (st : QrStore) (id : string) : option QrScene :=
  if redis then fst <$> qs_redis st !! id else qs_memory st !! id.
Definition spent (redis : bool) (st : QrStore) (id : string) : Prop :=
  forall s, in_use redis st id = Some s -> terminal (qr_state s) = true.
Definition keyed (redis : bool) (st : QrStore) : Prop := forall id s, in_use redis st id = Some s -> scene_id s = id.

(** A request, a new scene or the ticker, each run to its end. *)
Inductive qr_request :=
| RqOp (io : option ServerError) (io2 : option write_fault) (now now2 : Z) (op : qr_op) (id : string)
| RqCreate (io : option write_fault) (now : Z) (s : QrScene)
| RqTick (now : Z).
Definition run_request (redis : bool) (st : QrStore) (r : qr_request) : QrStore :=
  match r with
  | RqOp io io2 now now2 op id => (run_op redis io io2 now now2 op id st).2
  | RqCreate io now s => (store_scene redis io now s st).2
  | RqTick now => (tick_expired redis now st).1
  end.
(** No override by the application, and new scenes have other ids. *)
Definition leaves_alone (id : string) (r : qr_request) : Prop :=
  match r with
  | RqOp _ _ _ _ op id' => op <> OpAuthorize \/ id' <> id
  | RqCreate _ _ s => scene_id s <> id
  | RqTick _ => True
  end.

Lemma stored_in_use redis now st id s : stored redis now st id = Some s -> in_use redis st id = Some s.
Proof.
  unfold stored, in_use. destruct redis; [|done]. destruct (qs_redis st !! id) as [[x dl]|]; [|done]. simpl.
  by destruct (_ <=? _).
Qed.
Lemma store_in_use redis io now s st id : scene_id s <> id -> in_use redis (store_scene redis io now s st).2 id = in_use redis st id.
Proof.
  intros Hne. unfold store_scene, in_use. destruct redis; simpl; [|by rewrite lookup_insert_ne].
  destruct io as [[e []]|]; simpl; rewrite ?lookup_insert_ne; done.
Qed.
Lemma load_in_use redis io now id st r st' : load_scene redis io now id st = (r, st') ->
  (forall s, r = Ok s -> exists s0, in_use redis st id = Some s0 /\ s = expire_if_due now s0) /\
  forall id' s', in_use redis st' id' = Some s' -> exists s0, in_use redis st id' = Some s0 /\ (s' = s0 \/ s' = expire_if_due now s0).
Proof.
  unfold load_scene. destruct (if redis then io else None); [intros [= <- <-]; naive_solver|].
  destruct (stored redis now st id) as [s|] eqn:E; [|intros [= <- <-]; naive_solver].
  apply stored_in_use in E. intros [= <- <-]. split; [intros x [= <-]; eauto|].
  intros id' s' Hk. destruct redis; [eauto|]. unfold in_use in *. simpl in Hk.
  apply lookup_insert_Some in Hk as [[<- <-]|[_ H]]; eauto.
Qed.
Lemma expire_terminal now s : terminal (qr_state s) = true -> expire_if_due now s = s.
Proof. unfold expire_if_due. by intros ->. Qed.

(** Decided scenes refuse every request but the override. *)
Lemma change_decided_refused now op s : terminal (qr_state s) = true -> op <> OpAuthorize -> is_ok (change now op s) = false.
Proof.
  intros Ht Ho. destruct op; simpl; [| | |done]; unfold scan_change, confirm_change, ensure_scanned_with_token, reject_change;
    (rewrite decide_True; [done|]); intros E; by rewrite E in Ht.
Qed.
Lemma spent_refused redis io io2 now now2 op id st : spent redis st id -> op <> OpAuthorize ->
  is_ok (run_op redis io io2 now now2 op id st).1 = false /\ spent redis (run_op redis io io2 now now2 op id st).2 id.
Proof.
  intros Hs Ho. unfold run_op, begin_op. destruct (load_scene redis io now id st) as [r st1] eqn:E.
  apply load_in_use in E as [Hl Hk]. assert (spent redis st1 id) as Hs1.
  { intros x (s0 & H0 & [->| ->])%Hk; [by apply Hs|]. rewrite expire_terminal; by apply Hs. }
  destruct r as [s|e]; [|done]. destruct (Hl s eq_refl) as (s0 & H0 & ->). rewrite expire_terminal by by apply Hs.
  pose proof (change_decided_refused now op s0 (Hs _ H0) Ho) as Hc. by destruct (change now op s0).
Qed.
Lemma keyed_store redis io now s st : keyed redis st -> keyed redis (store_scene redis io now s st).2.
Proof.
  intros Hk i x. unfold store_scene, in_use, keyed, in_use in *. destruct redis; simpl.
  - destruct io as [[e []]|]; simpl; try apply Hk; destruct (decide (i = scene_id s)) as [->|Hne];
      rewrite ?lookup_insert_eq, ?lookup_insert_ne by done; try apply Hk; by intros [= <-].
  - intros [[<- <-]|[_ H]]%lookup_insert_Some; [done|by apply Hk].
Qed.
Lemma keyed_expired redis now st st' : keyed redis st ->
  (forall id s, in_use redis st' id = Some s -> exists s0, in_use redis st id = Some s0 /\ (s = s0 \/ s = expire_if_due now s0)) ->
  keyed redis st'.
Proof. intros Hk Hst i x (s0 & H0 & [->| ->])%Hst; [by apply Hk|]. rewrite <- (Hk _ _ H0). apply expire_login. Qed.
Lemma spent_expired redis now st st' id : spent redis st id ->
  (forall id s, in_use redis st' id = Some s -> exists s0, in_use redis st id = Some s0 /\ (s = s0 \/ s = expire_if_due now s0)) ->
  spent redis st' id.
Proof. intros Hs Hst x (s0 & H0 & [->| ->])%Hst; [by apply Hs|]. rewrite expire_terminal; by apply Hs. Qed.
Lemma tick_in_use redis now st id s : in_use redis (tick_expired redis now st).1 id = Some s ->
  exists s0, in_use redis st id = Some s0 /\ (s = s0 \/ s = expire_if_due now s0).
Proof.
  unfold tick_expired. destruct redis; simpl; [eauto|]. unfold in_use. simpl. rewrite lookup_fmap.
  intros (s0 & H0 & ->)%fmap_Some. eauto.
Qed.

(** What a request that runs alone writes. *)
Lemma run_op_cases redis io io2 now now2 op id st : exists st1,
  (forall id s, in_use redis st1 id = Some s -> exists s0, in_use redis st id = Some s0 /\ (s = s0 \/ s = expire_if_due now s0)) /\
  ((is_ok (run_op redis io io2 now now2 op id st).1 = false /\ (run_op redis io io2 now now2 op id st).2 = st1) \/
   exists s0 s', in_use redis st id = Some s0 /\ change now op (expire_if_due now s0) = Ok s' /\
     run_op redis io io2 now now2 op id st = (let? _ := (store_scene redis io2 now2 s' st1).1 in Ok s', (store_scene redis io2 now2 s' st1).2)).
Proof.
  unfold run_op, begin_op. destruct (load_scene redis io now id st) as [r st1] eqn:E. apply load_in_use in E as [Hl Hk].
  exists st1. split; [done|]. destruct r as [s|e]; [|by left]. destruct (Hl s eq_refl) as (s0 & H0 & ->). simpl.
  destruct (change now op (expire_if_due now s0)) as [s'|] eqn:Ec; [|by left]. right. exists s0, s'. split; [done|].
  split; [done|]. by destruct (store_scene redis io2 now2 s' st1).
Qed.

Lemma keyed_step redis r st : keyed redis st -> keyed redis (run_request redis st r).
Proof.
  intros Hk. destruct r as [io io2 now now2 op i|io now s|now]; simpl; [|by apply keyed_store|by eapply keyed_expired, tick_in_use].
  destruct (run_op_cases redis io io2 now now2 op i st) as (st1 & H1 & [[_ ->]|(s0 & s' & _ & _ & ->)]); [by eapply keyed_expired|].
  simpl. apply keyed_store. by eapply keyed_expired.
Qed.
Lemma spent_step redis id r st : keyed redis st -> leaves_alone id r -> spent redis st id -> spent redis (run_request redis st r) id.
Proof.
  intros Hkey Hr Hs. assert (forall io now s st, scene_id s <> id -> spent redis st id -> spent redis (store_scene redis io now s st).2 id) as Hstore.
  { intros io now s st0 Hne Hsp x. rewrite store_in_use by done. apply Hsp. }
  destruct r as [io io2 now now2 op i|io now s|now]; simpl in *; [|auto|by eapply spent_expired, tick_in_use].
  destruct (decide (i = id)) as [->|Hne]; [destruct Hr as [Ho|]; [by apply spent_refused|done]|].
  destruct (run_op_cases redis io io2 now now2 op i st) as (st1 & H1 & [[_ ->]|(s0 & s' & H0 & Hc & ->)]); [by eapply spent_expired|].
  simpl. apply Hstore; [|by eapply spent_expired].
  apply change_login in Hc as [-> _]. destruct (expire_login now s0) as [-> _]. by rewrite (Hkey _ _ H0).
Qed.

Lemma spent_run redis id reqs : forall st, keyed redis st -> spent redis st id -> Forall (leaves_alone id) reqs ->
  spent redis (foldl (run_request redis) st reqs) id.
Proof.
  induction reqs as [|r reqs IH]; intros st Hk Hs Hf; [done|]. apply Forall_cons in Hf as [Hr Hf]. simpl.
  apply IH; [by apply keyed_step|by apply spent_step|done].
Qed.

Lemma decided_spent redis io io2 now now2 op id st s st' : keyed redis st -> op <> OpAuthorize ->
  (forall u d q av nm t, op <> OpScan u d q av nm t) -> run_op redis io io2 now now2 op id st = (Ok s, st') -> spent redis st' id.
Proof.
  intros Hkey Ho Hns. destruct (run_op_cases redis io io2 now now2 op id st) as (st1 & _ & [[H _]|(s0 & s' & H0 & Hc & ->)]).
  { intros E. by rewrite E in H. }
  assert (scene_id s' = id) as Hid.
  { apply change_login in Hc as [-> _]. destruct (expire_login now s0) as [-> _]. by apply Hkey. }
  assert (terminal (qr_state s') = true) as Ht.
  { destruct op; simpl in Hc; [by edestruct Hns| | |done].
    - unfold confirm_change in Hc. destruct (ensure_scanned_with_token _ _ _ _); [|done]. by injection Hc as <-.
    - unfold reject_change in Hc. repeat case_decide; try done. destruct (token_valid _ _); [|done]. by injection Hc as <-. }
  destruct (store_scene redis io2 now2 s' st1) as [[[]|e] st2] eqn:E; [|done]. simpl. intros [= <- <-] x Hx.
  assert (in_use redis st2 (scene_id s') = Some s') as Hin.
  { revert E. unfold store_scene, in_use. destruct redis; [destruct io2 as [[e []]|]; try done|]; intros [= <-]; simpl; by rewrite lookup_insert_eq. }
  rewrite Hid in Hin. congruence.
Qed.

(** ** Who is bound to a scene *)
Inductive bind_op := BCreate (scene : string) (session : Z) | BScene (scene : string) | BSession (session : Z).
Definition run_bind (p : QrLoginPublisher) (o : bind_op) : QrLoginPublisher :=
  match o with
  | BCreate scene session => bind scene session p
  | BScene scene => unbind_by_scene scene p
  | BSession session => (unbind_by_session session p).2
  end.
Definition created_by (ops : list bind_op) : list string :=
  omap (fun o => match o with BCreate scene _ => Some scene | _ => None end) ops.
Definition inverse (p : QrLoginPublisher) : Prop :=
  forall scene session, scene_to_session p !! scene = Some session <-> session_to_scene p !! session = Some scene.

Lemma inverse_delete p scene session : inverse p -> scene_to_session p !! scene = Some session ->
  inverse (mkPublisher (delete scene (scene_to_session p)) (delete session (session_to_scene p))).
Proof.
  intros Hi H sc se. simpl. rewrite !lookup_delete_Some, (Hi sc se). pose proof (proj1 (Hi _ _) H) as H'.
  split; intros [Hne Hs]; (split; [|done]); intros ->; [congruence|apply Hi in Hs; congruence].
Qed.
Lemma inverse_bind p scene session : inverse p -> scene_to_session p !! scene = None -> inverse (bind scene session p).
Proof.
  intros Hi Hn. unfold bind.
  assert (exists q, inverse q /\ scene_to_session q !! scene = None /\ session_to_scene q !! session = None /\
    match session_to_scene p !! session with
    | Some prev => mkPublisher (delete prev (scene_to_session p)) (delete session (session_to_scene p)) | None => p end = q)
    as (q & Hq & Hn1 & Hn2 & ->).
  { destruct (session_to_scene p !! session) as [prev|] eqn:E; eexists; (split; [|split; [|split; [|reflexivity]]]); try done.
    - apply inverse_delete; [done|by apply Hi].
    - simpl. rewrite lookup_delete_None. by right.
    - simpl. apply lookup_delete_eq. }
  intros sc se. simpl. rewrite !lookup_insert_Some, (Hq sc se). split.
  - intros [[-> ->]|[Hne Hs]]; [by left|right; split; [|done]]. intros ->. congruence.
  - intros [[-> ->]|[Hne Hs]]; [by left|right; split; [|done]]. intros ->. apply Hq in Hs. congruence.
Qed.

Lemma run_bind_inverse ops : NoDup (created_by ops) ->
  let p := foldl run_bind (mkPublisher ∅ ∅) ops in
  inverse p /\ forall scene session, scene_to_session p !! scene = Some session -> BCreate scene session ∈ ops.
Proof.
  induction ops as [|o ops IH] using rev_ind; intros Hn.
  { split; [|intros sc se; simpl; by rewrite lookup_empty]. intros sc se. simpl. by rewrite !lookup_empty. }
  unfold created_by in Hn. rewrite omap_app in Hn. apply NoDup_app in Hn as (Hn1 & Hdis & _). destruct (IH Hn1) as [Hi Hb].
  cbv zeta. rewrite foldl_app. simpl. set (p := foldl run_bind _ ops) in *.
  assert (forall q, inverse q -> (forall sc se, scene_to_session q !! sc = Some se -> scene_to_session p !! sc = Some se) ->
    inverse q /\ forall sc se, scene_to_session q !! sc = Some se -> BCreate sc se ∈ ops ++ [o]) as Hless.
  { intros q Hq Hsub. split; [done|]. intros sc se Hs%Hsub%Hb. set_solver. }
  destruct o as [scene session|scene|session]; simpl.
  - assert (scene_to_session p !! scene = None) as Hfree.
    { destruct (scene_to_session p !! scene) as [se|] eqn:E; [|done]. apply Hb in E. exfalso.
      apply (Hdis scene); [|simpl; by left]. apply list_elem_of_omap. by exists (BCreate scene se). }
    split; [by apply inverse_bind|]. unfold bind. intros sc se. simpl. intros [[<- <-]|[Hne Hs]]%lookup_insert_Some; [set_solver|].
    assert (scene_to_session p !! sc = Some se) as Hs'%Hb; [|set_solver].
    destruct (session_to_scene p !! session); [|done]. simpl in Hs. by apply lookup_delete_Some in Hs as [_ ?].
  - unfold unbind_by_scene. destruct (scene_to_session p !! scene) as [sid|] eqn:E; [|by apply Hless].
    apply Hless; [by apply inverse_delete|]. simpl. by intros sc se [_ ?]%lookup_delete_Some.
  - unfold unbind_by_session. destruct (session_to_scene p !! session) as [sc0|] eqn:E; [|by apply Hless].
    apply Hless; [apply inverse_delete; [done|by apply Hi]|]. simpl. by intros sc se [_ ?]%lookup_delete_Some.
Qed.

(** ** Properties *)
(** C17. However requests overlap and whatever fails, a scene is authorized only by the
    override of the application or by a confirmation that presented the token of
    an earlier scan by the same user on the same device, and that scan presented the
    code generated with the scene; the web device of the scene is the one that
    created it. *)
Theorem qr_login_needs_scan_and_consent redis y id s :
  rtc (qr_step redis) qr_initial y -> kept (qy_store y) id s -> qr_state s = Authorized ->
  exists s0, qy_created y !! id = Some s0 /\ web_device_id s = web_device_id s0 /\
    ((id, OpAuthorize) ∈ qy_begun y \/
     exists u d t av nm before after, scanner_uid s = Some u /\
       qy_begun y = before ++ (id, OpConfirm u d ("ct_" +:+ t)) :: after /\
       (id, OpScan u d (qr_token s0) av nm t) ∈ before).
Proof.
  intros Hy%qr_reachable_ok Hk Hst. destruct (yo_kept _ Hy _ _ Hk) as [<- [Hd (s0 & H0 & Hl)]].
  exists s0. split; [done|]. split; [apply Hl|]. unfold decided in Hd. rewrite Hst in Hd. destruct Hd as [_ [Ho|(u & d & t & Hs & Hc)]]; [by left|right].
  apply list_elem_of_split in Hc as (before & after & He).
  destruct (yo_confirms _ Hy _ _ _ _ _ _ He) as (q & av & nm & t' & Ht & Hin). apply string_app_inj in Ht as <-.
  destruct (yo_scans _ Hy (scene_id s) u d q av nm t) as (s1 & H1 & ->); [rewrite He; set_solver|]. simplify_eq.
  destruct Hs as (Hu & _). exists u, d, t, av, nm, before, after. done.
Qed.

(** Requests that run one after the other decide a scene once: after a
    confirmation or a rejection every later scan, confirmation and rejection of that
    scene is refused, whatever else happens, unless the application overrides it; and a scene whose
    time is up refuses them too. *)
Theorem qr_login_decided_once redis io io2 now now2 op id st s st' reqs op' io' io2' now' now2' :
  keyed redis st -> op <> OpAuthorize -> op' <> OpAuthorize ->
  (run_op redis io io2 now now2 op id st = (Ok s, st') -> (forall u d q av nm t, op <> OpScan u d q av nm t) ->
   Forall (leaves_alone id) reqs ->
   is_ok (run_op redis io' io2' now' now2' op' id (foldl (run_request redis) st' reqs)).1 = false) /\
  (forall s0, in_use redis st id = Some s0 -> expires_at s0 <= now -> is_ok (run_op redis io io2 now now2 op id st).1 = false).
Proof.
  intros Hkey Ho Ho'. split.
  - intros Hr Hns Hf. apply spent_refused; [|done]. apply spent_run; [| |done].
    + replace st' with (run_request redis st (RqOp io io2 now now2 op id)) by (simpl; by rewrite Hr). by apply keyed_step.
    + exact (decided_spent redis io io2 now now2 op id st s st' Hkey Ho Hns Hr).
  - intros s0 H0 Hle. destruct (run_op_cases redis io io2 now now2 op id st) as (st1 & _ & [[H _]|(s1 & s' & H1 & Hc & _)]); [done|].
    simplify_eq. exfalso. assert (terminal (qr_state (expire_if_due now s0)) = true) as Ht.
    { unfold expire_if_due. destruct (terminal (qr_state s0)) eqn:E; [done|]. by rewrite (proj2 (Z.leb_le _ _) Hle). }
    pose proof (change_decided_refused now op _ Ht Ho) as Hf. by rewrite Hc in Hf.
Qed.

(** After any creations, closed connections and final events, the two registries are
    inverse to each other, so a connection waits for at most one scene and a scene
    has at most one connection, and an event is handed only to the connection that
    created its scene. *)
Theorem qr_events_reach_the_creator ops encodes send e out p' session :
  NoDup (created_by ops) ->
  let p := foldl run_bind (mkPublisher ∅ ∅) ops in
  inverse p /\ inverse (push_event encodes send e p).1.2 /\
  (push_event encodes send e p = (out, p', Some session) -> BCreate (qp_scene_id e) session ∈ ops).
Proof.
  intros Hn p. destruct (run_bind_inverse ops Hn) as [Hi Hb]. fold p in Hi, Hb. split; [done|]. unfold push_event.
  destruct (scene_to_session p !! qp_scene_id e) as [sid|] eqn:E; [|by split]. split.
  - assert (inverse (if qp_terminal e then unbind_by_scene (qp_scene_id e) p else p)) as H.
    { destruct (qp_terminal e); [|done]. unfold unbind_by_scene. rewrite E. by apply inverse_delete. }
    by destruct encodes.
  - destruct encodes; [|done]. intros [= _ _ <-]. by apply Hb.
Qed.

(** ** Concrete executions *)
Definition qr_web : WebDeviceSnapshot := mkWebDevice (Some "Chrome"%string) None None.
Definition qr_made := create_scene true None 0 "s1" "code" "login" "web-1" qr_web None (mkQrStore ∅ ∅).
Definition qr_scan_op : qr_op := OpScan 100 "ios-1" "qr_code" None None "tok".
Definition qr_confirm_op : qr_op := OpConfirm 100 "ios-1" "ct_tok".
Definition qr_reject_op : qr_op := OpReject 100 "ct_tok".
Definition qr_scanned := run_op true None None 10 10 qr_scan_op "s1" qr_made.2.
Definition qr_confirmed := run_op true None None 20 20 qr_confirm_op "s1" qr_scanned.2.

Example qr_happy_path : (qr_state <$> match qr_confirmed.1 with Ok s => Some s | Err _ => None end) = Some Authorized.
Proof. vm_compute. reflexivity. Qed.

(** A rejection that is written between the two halves of a confirmation is lost: both
    requests succeed and the scene ends authorized. *)
Definition qr_overlap :=
  let '(r1, st1) := begin_op true None 20 qr_confirm_op "s1" qr_scanned.2 in
  let '(r2, st2) := run_op true None None 20 20 qr_reject_op "s1" st1 in
  match r1 with
  | Ok s => let '(w, st3) := store_scene true None 20 s st2 in (is_ok r2, is_ok w, qr_state <$> in_use true st3 "s1")
  | Err _ => (is_ok r2, false, None)
  end.
Example overlapping_requests_both_succeed : qr_overlap = (true, true, Some Authorized).
Proof. vm_compute. reflexivity. Qed.

(** The override authorizes a scene that its scanner rejected. *)
Example override_revives_rejected :
  let rejected := (run_op true None None 20 20 qr_reject_op "s1" qr_scanned.2).2 in
  (qr_state <$> in_use true (mark_authorized true None None 30 30 "s1" rejected).2 "s1") = Some Authorized.
Proof. vm_compute. reflexivity. Qed.

(** The lifetime asked for is not bounded: here a week. *)
Example lifetime_unbounded : expires_at (new_scene 0 "s1" "code" "login" "web-1" qr_web (Some 604800)) = 604800000.
Proof. vm_compute. reflexivity. Qed.

Definition qr_system : QrSystem :=
  mkQrSystem 0 (run_op true None None 0 0 qr_confirm_op "s1" (run_op true None None 0 0 qr_scan_op "s1" qr_made.2).2).2 []
    [("s1"%string, qr_scan_op); ("s1"%string, qr_confirm_op)] {[ "s1"%string := qr_made.1 ]}.
Lemma qr_system_reachable : rtc (qr_step true) qr_initial qr_system.
Proof.
  eapply rtc_l; [exact (QS_create true qr_initial None "s1" "code" "login" "web-1" qr_web None (lookup_empty _))|].
  eapply rtc_l; [eapply (QS_begin true _ None qr_scan_op "s1"); vm_compute; reflexivity|].
  eapply rtc_l; [eapply (QS_commit true _ None []); reflexivity|].
  eapply rtc_l; [eapply (QS_begin true _ None qr_confirm_op "s1"); vm_compute; reflexivity|].
  eapply rtc_l; [eapply (QS_commit true _ None []); reflexivity|].
  match goal with |- rtc _ ?x _ => replace x with qr_system by (vm_compute; reflexivity) end. apply rtc_refl.
Qed.

Lemma qr_login_needs_scan_and_consent_witness :
  exists s0, qy_created qr_system !! "s1"%string = Some s0 /\ web_device_id s0 = "web-1"%string.
Proof.
  destruct (qs_redis (qy_store qr_system) !! "s1"%string) as [[s dl]|] eqn:E; [|vm_compute in E; discriminate E].
  destruct (qr_login_needs_scan_and_consent true qr_system "s1" s qr_system_reachable) as (s0 & H0 & Hw & _).
  - right. exists dl. exact E.
  - vm_compute in E. injection E as <- _. reflexivity.
  - exists s0. split; [exact H0|]. rewrite <- Hw. vm_compute in E. injection E as <- _. reflexivity.
Defined.

Lemma qr_login_decided_once_witness :
  is_ok (run_op true None None 30 30 qr_confirm_op "s1" (foldl (run_request true) qr_confirmed.2 [RqTick 25])).1 = false.
Proof.
  destruct qr_confirmed as [r st'] eqn:E. destruct r as [s|e]; [|vm_compute in E; discriminate E].
  destruct (qr_login_decided_once true None None 20 20 qr_confirm_op "s1" qr_scanned.2 s st' [RqTick 25] qr_confirm_op None None 30 30)
    as [H _].
  - intros id x Hx. assert (qs_redis qr_scanned.2 = {[ "s1"%string := default (qr_made.1, 0) (qs_redis qr_scanned.2 !! "s1"%string) ]}) as Hq
      by (vm_compute; reflexivity).
    unfold in_use in Hx. rewrite Hq in Hx. apply fmap_Some in Hx as ([y dl] & Hy & ->).
    apply lookup_singleton_Some in Hy as [<- Hy]. vm_compute in Hy. injection Hy as <- _. reflexivity.
  - discriminate.
  - discriminate.
  - apply H; [exact E|discriminate|]. repeat constructor.
Defined.

Lemma qr_events_reach_the_creator_witness :
  let p := foldl run_bind (mkPublisher ∅ ∅) [BCreate "s1" 4; BCreate "s2" 4] in
  inverse p /\ (push_event true (fun _ => Ok 1) (mkQrPush "qr_login.scanned" "s1" "scanned" false) p).2 = None.
Proof.
  split; [|vm_compute; reflexivity].
  apply (qr_events_reach_the_creator [BCreate "s1" 4; BCreate "s2" 4] true (fun _ => Ok 1)
    (mkQrPush "qr_login.scanned" "s1" "scanned" false) NoSubscriber (mkPublisher ∅ ∅) 0).
  simpl. apply NoDup_cons. split; [|apply NoDup_singleton]. intros H. apply list_elem_of_singleton in H. discriminate H.
Defined.
