(* ===== verification/DeviceSession.v ===== *)
(** * Devices and their sessions

    Models src/src/auth/session_state.rs and src/src/auth/device_manager_db.rs: the
    table of devices with the state and version of their sessions, and every
    statement that changes it. A token carries the version it was issued with; it
    is refused once the row has a later one.

    The uuid crate is the class [UuidCrate]. A statement is one step; when its reply is lost it
    may have taken effect. Counts that a caller only logs are returned as the source
    returns them. *)

From Stdlib Require Import Ascii.
From stdpp Require Import base numbers gmap list strings relations.
From S2P Require Import Prelude.
Local Open Scope Z_scope.

Class UuidCrate := {
  uuid : Type;
  uuid_eq_dec : EqDecision uuid;
  uuid_countable : Countable uuid;
  uuid_parse_str : string -> option uuid;
  uuid_to_string : uuid -> string
}.
#[export] Existing Instances uuid_eq_dec uuid_countable.

(** ** Session states *)
Inductive SessionState := Active | Kicked | Frozen | Revoked | PendingVerify.
#[export] Instance session_state_eq_dec : EqDecision SessionState.
Proof. solve_decision. Defined.

Definition is_usable (s : SessionState) : bool := match s with Active => true | _ => false end.
Definition can_reactivate (s : SessionState) : bool :=
  match s with Kicked | Frozen | PendingVerify => true | _ => false end.
Definition should_disconnect (s : SessionState) : bool := negb (is_usable s).
Definition to_error_message (s : SessionState) : string :=
  match s with
  | Active => "设备正常"
  | Kicked => "您的账号已在其他设备登录"
  | Frozen => "设备已被冻结，请联系客服"
  | Revoked => "设备已被撤销，请重新登录"
  | PendingVerify => "需要进行安全验证"
  end.
Definition session_state_try_from (v : Z) : option SessionState :=
  match v with
  | 0 => Some Active | 1 => Some Kicked | 2 => Some Frozen | 3 => Some Revoked | 4 => Some PendingVerify
  | _ => None
  end.

Inductive SessionVerifyResult :=
| Valid (session_version : Z)
| DeviceNotFound
| SessionInactive (state : SessionState) (message : string)
| VersionMismatched (token_version current_version : Z).
Definition is_valid (r : SessionVerifyResult) : bool := match r with Valid _ => true | _ => false end.

(** [DeviceType] of model and table. *)
Inductive DeviceType := IOS | Android | MacOS | Windows | Linux | Mobile | Desktop | Web | UnknownDevice.
Definition from_app_id (app_id : string) : DeviceType :=
  let l := lowercase_keyword app_id in
  if decide (l = "ios") then IOS else if decide (l = "android") then Android else if decide (l = "macos") then MacOS
  else if decide (l = "windows") then Windows else if decide (l = "linux") then Linux else if decide (l = "mobile") then Mobile
  else if decide (l = "desktop") then Desktop else if decide (l = "web") then Web else UnknownDevice.
Definition device_type_as_str (d : DeviceType) : string :=
  match d with
  | IOS => "ios" | Android => "android" | MacOS => "macos" | Windows => "windows" | Linux => "linux"
  | Mobile => "mobile" | Desktop => "desktop" | Web => "web" | UnknownDevice => "unknown"
  end.

Record DeviceInfo := mkDeviceInfo {
  di_app_id : string; di_device_name : string; di_device_model : string; di_os_version : string; di_app_version : string
}.

(** ** The table *)
Section Devices.
Context `{U : UuidCrate}.

Record DeviceRow := mkDevice {
  dv_type : string; dv_name : option string; dv_model : option string; dv_os : option string; dv_app : option string;
  dv_last_active : option Z; dv_created_at : Z; dv_updated_at : Z;
  dv_version : Z; dv_state : Z;
  dv_kicked_at : option Z; dv_kicked_by : option uuid; dv_kicked_reason : option string; dv_last_ip : option string
}.
Notation device_table := (gmap (Z * uuid) DeviceRow).

Inductive stmt := Done | Lost (e : string) (applied : bool).

(** A write is refused by the database with a text, or gives a value and a table. *)
Definition exec_write {A} (f : stmt) (prefix : string) (w : result (A * device_table) string) (t : device_table)
    : result A ServerError * device_table :=
  match f, w with
  | Done, Ok (a, t') => (Ok a, t')
  | Done, Err e => (Err (Database (prefix +:+ e)), t)
  | Lost e true, Ok (_, t') => (Err (Database (prefix +:+ e)), t')
  | Lost e _, _ => (Err (Database (prefix +:+ e)), t)
  end.
Definition exec_read {A} (f : stmt) (prefix : string) (a : A) : result A ServerError :=
  match f with Done => Ok a | Lost e _ => Err (Database (prefix +:+ e)) end.

(** UPDATE .. WHERE; a version past the range of [bigint] fails the statement. *)
Definition in_range (r : DeviceRow) : bool := dv_version r <? 2 ^ 63.
Definition update_where (pick : Z * uuid -> DeviceRow -> bool) (g : DeviceRow -> DeviceRow) (t : device_table)
    : result (Z * device_table) string :=
  let t' := map_imap (fun k r => Some (if pick k r then g r else r)) t in
  if bool_decide (map_Forall (fun _ r => in_range r = true) t')
  then Ok (Z.of_nat (size (filter (fun p => pick p.1 p.2 = true) t)), t') else Err "bigint out of range"%string.

Definition row_is (user : Z) (id : uuid) (k : Z * uuid) (r : DeviceRow) : bool := bool_decide (k = (as_i64 user, id)).
Definition active (r : DeviceRow) : bool := dv_state r =? 0.

Definition parse_device (s : string) : result uuid ServerError := ok_or (uuid_parse_str s) (BadRequest "无效的设备ID").

(** ** Verification *)
Definition verify_device_session (f : stmt) (t : device_table) (user_id : Z) (device_id : string) (token_version : Z)
    : result SessionVerifyResult ServerError :=
  let? id := parse_device device_id in
  let? row := exec_read f "查询设备失败: " (t !! (as_i64 user_id, id)) in
  Ok match row with
     | None => DeviceNotFound
     | Some r =>
         match session_state_try_from (dv_state r) with
         | None => SessionInactive Revoked "设备会话状态异常，请重新登录"
         | Some state =>
             if negb (is_usable state) then SessionInactive state (to_error_message state)
             else if token_version <? dv_version r then VersionMismatched token_version (dv_version r)
             else Valid (dv_version r)
         end
     end.

(** ** Ending sessions *)
Definition kicked (now : Z) (by_device : option uuid) (reason : string) (state : Z) (r : DeviceRow) : DeviceRow :=
  mkDevice (dv_type r) (dv_name r) (dv_model r) (dv_os r) (dv_app r) (dv_last_active r) (dv_created_at r) now
    (dv_version r + 1) state (Some now) by_device (Some reason) (dv_last_ip r).

Record KickedDevice := mkKicked {
  kd_device_id : string; kd_device_name : option string; kd_device_type : string; kd_old_version : Z; kd_new_version : Z
}.

(** [checked] is the table the SELECT sees, [t] the one the UPDATE finds. *)
Definition others_active (user : Z) (current : uuid) (t : device_table) : list ((Z * uuid) * DeviceRow) :=
  filter (fun p => p.1.1 = as_i64 user /\ p.1.2 <> current /\ active p.2 = true) (map_to_list t).
Definition kick_other_devices (select update : stmt) (now : Z) (checked t : device_table) (user_id : Z)
    (current_device_id reason : string) : result (list KickedDevice) ServerError * device_table :=
  match parse_device current_device_id with
  | Err e => (Err e, t)
  | Ok current =>
      match exec_read select "查询设备失败: " (others_active user_id current checked) with
      | Err e => (Err e, t)
      | Ok [] => (Ok [], t)
      | Ok rows =>
          let ids := (fun p => p.1.2) <$> rows in
          let '(out, t') := exec_write update "更新设备状态失败: "
            (update_where (fun k r => bool_decide (k.1 = as_i64 user_id) && bool_decide (k.2 ∈ ids) && active r)
               (kicked now (Some current) reason 1) t) t in
          (let? _ := out in
           Ok ((fun p => mkKicked (uuid_to_string p.1.2) (dv_name p.2) (dv_type p.2) (dv_version p.2) (dv_version p.2 + 1)) <$> rows),
           t')
      end
  end.

Definition kick_device (f : stmt) (now : Z) (t : device_table) (user_id : Z) (target : string) (kicked_by : option string)
    (reason : string) : result unit ServerError * device_table :=
  match parse_device target, match kicked_by with None => Ok None | Some s => let? id := parse_device s in Ok (Some id) end with
  | Err e, _ | _, Err e => (Err e, t)
  | Ok id, Ok by_device =>
      let '(out, t') := exec_write f "踢出设备失败: "
        (update_where (fun k r => row_is user_id id k r && active r) (kicked now by_device reason 1) t) t in
      (let? n := out in if n =? 0 then Err (NotFound "设备不存在或已被踢出") else Ok tt, t')
  end.

Definition version_bumped (now : Z) (reason : option string) (r : DeviceRow) : DeviceRow :=
  mkDevice (dv_type r) (dv_name r) (dv_model r) (dv_os r) (dv_app r) (dv_last_active r) (dv_created_at r) now
    (dv_version r + 1) (dv_state r) (dv_kicked_at r) (dv_kicked_by r)
    (match reason with Some _ => reason | None => dv_kicked_reason r end) (dv_last_ip r).

(** [fetch_one]: no row is an error. *)
Definition increment_session_version (f : stmt) (now : Z) (t : device_table) (user_id : Z) (device_id reason : string)
    : result Z ServerError * device_table :=
  match parse_device device_id with
  | Err e => (Err e, t)
  | Ok id =>
      let prefix := "递增版本失败: "%string in
      let '(out, t') := exec_write f prefix (update_where (row_is user_id id) (version_bumped now (Some reason)) t) t in
      (let? _ := out in
       match t' !! (as_i64 user_id, id) with
       | Some r => Ok (dv_version r)
       | None => Err (Database (prefix +:+ "no rows returned by a query that expected to return at least one row"))
       end, t')
  end.

Definition bump_user_sessions (f : stmt) (now : Z) (t : device_table) (user_id : Z) : result Z ServerError * device_table :=
  exec_write f "bump session 失败: "
    (update_where (fun k r => bool_decide (k.1 = as_i64 user_id) && active r) (version_bumped now None) t) t.

Definition revoked_row (now : Z) (reason : string) (r : DeviceRow) : DeviceRow :=
  kicked now (dv_kicked_by r) reason 3 r.
Definition revoke_all_devices (f : stmt) (now : Z) (t : device_table) (user_id : Z) (reason : string)
    : result Z ServerError * device_table :=
  exec_write f "撤销设备失败: "
    (update_where (fun k r => bool_decide (k.1 = as_i64 user_id) && active r) (revoked_row now reason) t) t.

(** ** Reviving and registering *)
Definition reactivated (now : Z) (r : DeviceRow) : DeviceRow :=
  mkDevice (dv_type r) (dv_name r) (dv_model r) (dv_os r) (dv_app r) (dv_last_active r) (dv_created_at r) now
    (dv_version r) 0 None None None (dv_last_ip r).
Definition reactivate_device (f : stmt) (now : Z) (t : device_table) (user_id : Z) (device_id : string)
    : result unit ServerError * device_table :=
  match parse_device device_id with
  | Err e => (Err e, t)
  | Ok id =>
      let '(out, t') := exec_write f "重新激活设备失败: " (update_where (row_is user_id id) (reactivated now) t) t in
      (let? _ := out in Ok tt, t')
  end.

Record Device := mkDeviceReq {
  dr_device_id : string; dr_user_id : Z; dr_info : DeviceInfo; dr_type : DeviceType; dr_ip : string
}.
Definition new_device_row (now : Z) (d : Device) : DeviceRow :=
  mkDevice (device_type_as_str (dr_type d)) (Some (di_device_name (dr_info d))) (Some (di_device_model (dr_info d)))
    (Some (di_os_version (dr_info d))) (Some (di_app_version (dr_info d))) (Some now) now now 1 0 None None None
    (Some (dr_ip d)).
(** The conflict branch: a new version, and states 1 and 3 are lifted. *)
Definition relogged (now : Z) (d : Device) (r : DeviceRow) : DeviceRow :=
  let lifted := bool_decide (dv_state r = 1 \/ dv_state r = 3) in
  mkDevice (dv_type r) (Some (di_device_name (dr_info d))) (Some (di_device_model (dr_info d)))
    (Some (di_os_version (dr_info d))) (Some (di_app_version (dr_info d))) (Some now) (dv_created_at r) (dv_updated_at r)
    (dv_version r + 1) (if lifted then 0 else dv_state r) (if lifted then None else dv_kicked_at r)
    (if lifted then None else dv_kicked_by r) (if lifted then None else dv_kicked_reason r) (Some (dr_ip d)).

Definition register_or_update_device (f : stmt) (now : Z) (t : device_table) (d : Device)
    : result (bool * Z) ServerError * device_table :=
  match parse_device (dr_device_id d) with
  | Err e => (Err e, t)
  | Ok id =>
      let k := (as_i64 (dr_user_id d), id) in
      exec_write f "注册设备失败: "
        match t !! k with
        | None => Ok ((true, 1), <[k := new_device_row now d]> t)
        | Some r =>
            if in_range (relogged now d r) then Ok ((false, dv_version r + 1), <[k := relogged now d r]> t)
            else Err "bigint out of range"%string
        end t
  end.

Definition get_device_with_version (f : stmt) (t : device_table) (user_id : Z) (device_id : string)
    : result (option (string * Z)) ServerError :=
  let? id := parse_device device_id in
  let? row := exec_read f "查询设备失败: " (t !! (as_i64 user_id, id)) in
  Ok ((fun r => (uuid_to_string id, dv_version r)) <$> row).

Definition touched (now : Z) (ip : string) (r : DeviceRow) : DeviceRow :=
  mkDevice (dv_type r) (dv_name r) (dv_model r) (dv_os r) (dv_app r) (Some now) (dv_created_at r) (dv_updated_at r)
    (dv_version r) (dv_state r) (dv_kicked_at r) (dv_kicked_by r) (dv_kicked_reason r) (Some ip).
Definition update_last_active (f : stmt) (now : Z) (t : device_table) (user_id : Z) (device_id ip : string)
    : result unit ServerError * device_table :=
  match parse_device device_id with
  | Err e => (Err e, t)
  | Ok id =>
      let '(out, t') := exec_write f "更新活跃时间失败: " (update_where (row_is user_id id) (touched now ip) t) t in
      (let? _ := out in Ok tt, t')
  end.
End Devices.
Notation device_table := (gmap (Z * uuid) DeviceRow).

(** ** Executions of the table *)
Section DeviceFacts.
Context `{U : UuidCrate}.

Inductive device_op :=
| DoKickOthers (select update : stmt) (now : Z) (checked : device_table) (user : Z) (current reason : string)
| DoKick (f : stmt) (now : Z) (user : Z) (target : string) (by_device : option string) (reason : string)
| DoIncrement (f : stmt) (now : Z) (user : Z) (device reason : string)
| DoBump (f : stmt) (now : Z) (user : Z)
| DoRevokeAll (f : stmt) (now : Z) (user : Z) (reason : string)
| DoReactivate (f : stmt) (now : Z) (user : Z) (device : string)
| DoRegister (f : stmt) (now : Z) (d : Device)
| DoTouch (f : stmt) (now : Z) (user : Z) (device ip : string).

Definition run_device (t : device_table) (op : device_op) : device_table :=
  match op with
  | DoKickOthers select update now checked user current reason =>
      (kick_other_devices select update now checked t user current reason).2
  | DoKick f now user target by_device reason => (kick_device f now t user target by_device reason).2
  | DoIncrement f now user device reason => (increment_session_version f now t user device reason).2
  | DoBump f now user => (bump_user_sessions f now t user).2
  | DoRevokeAll f now user reason => (revoke_all_devices f now t user reason).2
  | DoReactivate f now user device => (reactivate_device f now t user device).2
  | DoRegister f now d => (register_or_update_device f now t d).2
  | DoTouch f now user device ip => (update_last_active f now t user device ip).2
  end.

(** The operation lifts the restriction of this row. *)
Definition lifts (op : device_op) (k : Z * uuid) : Prop :=
  match op with DoReactivate _ _ user device => exists id, uuid_parse_str device = Some id /\ k = (as_i64 user, id) | _ => False end.

(** What an operation may do to a row: versions grow, a session that is not active is
    only restarted by a new version, and a frozen or unverified device stays so. *)
Record row_evolves (op : device_op) (k : Z * uuid) (r r' : DeviceRow) : Prop := {
  re_version : dv_version r <= dv_version r';
  re_frozen : dv_state r = 2 \/ dv_state r = 4 -> ~ lifts op k -> dv_state r' = dv_state r
}.
Definition rows_evolve (op : device_op) (t t' : device_table) : Prop :=
  forall k r, t !! k = Some r -> exists r', t' !! k = Some r' /\ row_evolves op k r r'.

Lemma row_evolves_refl (op : device_op) (k : Z * uuid) (r : DeviceRow) : row_evolves op k r r.
Proof. split; [lia|done]. Qed.
Lemma rows_evolve_refl (op : device_op) (t : device_table) : rows_evolve op t t.
Proof. intros k r Hr. eauto using row_evolves_refl. Qed.

Lemma update_where_lookup (pick : Z * uuid -> DeviceRow -> bool) (g : DeviceRow -> DeviceRow) (t t' : device_table) (n : Z) : update_where pick g t = Ok (n, t') ->
  forall k, t' !! k = (fun r => if pick k r then g r else r) <$> t !! k.
Proof.
  unfold update_where. case_bool_decide; [|done]. intros [= _ <-] k. rewrite map_lookup_imap.
  by destruct (t !! k).
Qed.
Lemma exec_update_evolves (op : device_op) (f : stmt) (prefix : string) (pick : Z * uuid -> DeviceRow -> bool) (g : DeviceRow -> DeviceRow) (t : device_table) :
  (forall k r, pick k r = true -> row_evolves op k r (g r)) ->
  rows_evolve op t (exec_write f prefix (update_where pick g t) t).2.
Proof.
  intros Hg. assert (forall n t', update_where pick g t = Ok (n, t') -> rows_evolve op t t') as H.
  { intros n t' E k r Hr. rewrite (update_where_lookup _ _ _ _ _ E), Hr. simpl.
    destruct (pick k r) eqn:Ep; eauto using row_evolves_refl. }
  unfold exec_write. destruct f as [|e []]; destruct (update_where pick g t) as [[n t']|e'] eqn:E; simpl; eauto using rows_evolve_refl.
Qed.

(** The table after an UPDATE inside an operation. *)
Ltac evolve_update :=
  match goal with
  | |- rows_evolve ?op ?t _ =>
      match goal with
      | |- context [exec_write ?f ?p (update_where ?pk ?g t) t] =>
          let H := fresh in
          pose proof (exec_update_evolves op f p pk g t) as H; let o := fresh "out" in let t1 := fresh "t" in
          destruct (exec_write _ _ _ _) as [o t1]; apply H; clear H o t1
      end
  end.

Lemma run_device_evolves (t : device_table) (op : device_op) : rows_evolve op t (run_device t op).
Proof.
  destruct op as [select update now checked user current reason|f now user target by_device reason|f now user device reason|f now user|
    f now user reason|f now user device|f now d|f now user device ip]; simpl.
  - unfold kick_other_devices. destruct (parse_device current) as [cur|]; [|apply rows_evolve_refl].
    destruct (exec_read select _ _) as [[|p rows]|]; [apply rows_evolve_refl| |apply rows_evolve_refl].
    evolve_update. intros k r Hp. rewrite !andb_true_iff in Hp. destruct Hp as [_ Ha].
    apply Z.eqb_eq in Ha. split; simpl; lia.
  - unfold kick_device. destruct (parse_device target) as [id|]; [|apply rows_evolve_refl].
    destruct (match by_device with None => _ | Some _ => _ end) as [b|]; [|apply rows_evolve_refl].
    evolve_update. intros k r [_ Ha]%andb_true_iff. apply Z.eqb_eq in Ha. split; simpl; lia.
  - unfold increment_session_version. destruct (parse_device device) as [id|]; [|apply rows_evolve_refl].
    evolve_update. intros k r _. split; simpl; [lia|done].
  - apply exec_update_evolves. intros k r _. split; simpl; [lia|done].
  - apply exec_update_evolves. intros k r [_ Ha]%andb_true_iff. apply Z.eqb_eq in Ha. split; simpl; lia.
  - unfold reactivate_device. destruct (parse_device device) as [id|] eqn:E; [|apply rows_evolve_refl].
    evolve_update. intros k r Hk. apply bool_decide_eq_true in Hk. split; simpl; [lia|].
    intros _ Hl. exfalso. apply Hl. exists id. split; [|done]. unfold parse_device in E. by apply ok_or_Ok in E.
  - unfold register_or_update_device. destruct (parse_device (dr_device_id d)) as [id|]; [|apply rows_evolve_refl].
    set (k0 := (as_i64 (dr_user_id d), id)). assert (forall r', (t !! k0 = None \/ exists r, t !! k0 = Some r /\ r' = relogged now d r) ->
      rows_evolve (DoRegister f now d) t (<[k0 := r']> t)) as H.
    { intros r' Hr' k r Hr. destruct (decide (k = k0)) as [->|Hne]; [|rewrite lookup_insert_ne by done; eauto using row_evolves_refl].
      rewrite lookup_insert_eq. exists r'. split; [done|]. destruct Hr' as [Hn|(r0 & Hr0 & ->)]; [congruence|].
      simplify_eq. split; simpl; [lia|]. intros Hs _. rewrite bool_decide_false; [done|lia]. }
    destruct (t !! k0) as [r|] eqn:E; [destruct (in_range _)|]; destruct f as [|e []]; simpl; eauto using rows_evolve_refl.
  - unfold update_last_active. destruct (parse_device device) as [id|]; [|apply rows_evolve_refl].
    evolve_update. intros k r _. split; simpl; [lia|done].
Qed.

Lemma devices_evolve (ops : list device_op) : forall (t : device_table) k r, t !! k = Some r ->
  exists r', foldl run_device t ops !! k = Some r' /\ dv_version r <= dv_version r' /\
    (dv_state r = 2 \/ dv_state r = 4 -> Forall (fun op => ~ lifts op k) ops -> dv_state r' = dv_state r).
Proof.
  induction ops as [|op ops IH]; intros t k r Hr; simpl; [exists r; split; [done|split; [lia|done]]|].
  destruct (run_device_evolves t op k r Hr) as (r1 & Hr1 & [Hv Hf]). destruct (IH _ _ _ Hr1) as (r' & Hr' & Hv' & Hf').
  exists r'. split; [done|]. split; [lia|]. intros Hs [Ho Hos]%Forall_cons. rewrite <- (Hf Hs Ho). apply Hf'; [|done].
  by rewrite (Hf Hs Ho).
Qed.

(** ** What verification accepts *)
Lemma verify_valid (f : stmt) (t : device_table) (user : Z) (device : string) (v n : Z) : verify_device_session f t user device v = Ok (Valid n) ->
  exists id r, uuid_parse_str device = Some id /\ t !! (as_i64 user, id) = Some r /\ dv_state r = 0 /\ dv_version r = n /\ n <= v.
Proof.
  unfold verify_device_session. destruct (parse_device device) as [id|] eqn:E; [|done]. apply ok_or_Ok in E.
  destruct f; simpl; [|done]. destruct (t !! (as_i64 user, id)) as [r|] eqn:Er; [|done].
  destruct (session_state_try_from (dv_state r)) as [st|] eqn:Es; [|done]. destruct st; simpl; try done.
  destruct (Z.ltb_spec v (dv_version r)); [done|]. intros [= <-]. exists id, r. repeat split; try done.
  unfold session_state_try_from in Es. destruct (dv_state r) as [|p|]; [done| |done]. by repeat (destruct p as [p|p|]; try done).
Qed.
Lemma verify_active (t : device_table) (user : Z) (device : string) (id : uuid) (r : DeviceRow) (v : Z) : uuid_parse_str device = Some id ->
  t !! (as_i64 user, id) = Some r -> dv_state r = 0 -> dv_version r <= v ->
  verify_device_session Done t user device v = Ok (Valid (dv_version r)).
Proof.
  intros Hp Hr Hs Hv. unfold verify_device_session, parse_device. rewrite Hp. simpl. rewrite Hr, Hs. simpl.
  by destruct (Z.ltb_spec v (dv_version r)); [lia|].
Qed.
End DeviceFacts.
