(* ===== verification/Token.v ===== *)
(** * Tokens

    Models src/src/auth/token_service.rs (signing and verifying access and refresh
    tokens), src/src/repository/refresh_token_repository.rs (the table of refresh
    tokens) and src/src/auth/unified_token_service.rs (issue, refresh, introspect and
    revoke), over the devices of [DeviceSession].

    The jsonwebtoken crate with the keys of the service and SHA-256 are the class
    [JwtCrate]; what theorems need of it they state. *)

From stdpp Require Import base numbers gmap list strings.
From S2P Require Import Prelude DeviceSession.
Local Open Scope Z_scope.

Record UnifiedTokenClaims := mkClaims {
  tk_iss : string; tk_sub : string; tk_aud : list string; tk_iat : Z; tk_exp : Z; tk_jti : string; tk_type : string;
  tk_device_id : string; tk_session_version : Z; tk_scope : list string; tk_business_system_id : string; tk_app_id : string
}.
Inductive JwtAlgorithm := Hs256 | Rs256.
#[export] Instance jwt_algorithm_eq_dec : EqDecision JwtAlgorithm.
Proof. solve_decision. Defined.
Record JwtValidation := mkValidation { jv_algorithm : JwtAlgorithm; jv_issuers : list string; jv_audiences : list string; jv_leeway : Z }.
Inductive JwtErrorKind := ExpiredSignature | OtherKind.

Class JwtCrate := {
  jwt_encode : JwtAlgorithm -> option string -> UnifiedTokenClaims -> result string string;
  jwt_decode_header : string -> option (JwtAlgorithm * option string);
  jwt_decode : Z -> JwtValidation -> string -> result UnifiedTokenClaims JwtErrorKind;
  sha256_hex : string -> string
}.

(** ** TokenService *)
Record JwtConfig := mkJwtConfig {
  jc_algorithm : JwtAlgorithm; jc_kid : string; jc_issuer : string; jc_default_audience : list string;
  jc_access_ttl_secs : Z; jc_refresh_ttl_secs : Z
}.
Definition TOKEN_TYPE_ACCESS : string := "access".
Definition TOKEN_TYPE_REFRESH : string := "refresh".
Inductive VerifyError := VeInvalid | VeExpired | VeUnknownKid.

Record IssueClaims := mkIssueClaims {
  ic_user_id : Z; ic_device_id : string; ic_session_version : Z; ic_scope : list string; ic_audience : list string;
  ic_business_system_id : string; ic_app_id : string
}.
Record IssuedToken := mkIssued { it_token : string; it_claims : UnifiedTokenClaims }.

Section Tokens.
Context `{J : JwtCrate} (cfg : JwtConfig).

(** [jti]: the generated UUID. *)
Definition issue_inner (now : Z) (jti : string) (p : IssueClaims) (typ : string) (ttl : Z) : result IssuedToken ServerError :=
  let claims := mkClaims (jc_issuer cfg) (u64_to_string (ic_user_id p)) (ic_audience p) now (i64_wrap (now + ttl)) jti typ
                  (ic_device_id p) (ic_session_version p) (ic_scope p) (ic_business_system_id p) (ic_app_id p) in
  match jwt_encode (jc_algorithm cfg) (Some (jc_kid cfg)) claims with
  | Ok token => Ok (mkIssued token claims)
  | Err e => Err (Internal ("TokenService: encode token 失败: " +:+ e))
  end.
Definition issue_access (now : Z) (jti : string) (p : IssueClaims) :=
  issue_inner now jti p TOKEN_TYPE_ACCESS (jc_access_ttl_secs cfg).
Definition issue_refresh (now : Z) (jti : string) (p : IssueClaims) :=
  issue_inner now jti p TOKEN_TYPE_REFRESH (jc_refresh_ttl_secs cfg).

Definition verify (now : Z) (token typ : string) : result UnifiedTokenClaims VerifyError :=
  let? header := ok_or (jwt_decode_header token) VeInvalid in
  if decide (header.1 <> jc_algorithm cfg) then Err VeInvalid
  else if (match jc_algorithm cfg with Rs256 => true | Hs256 => false end)
          && (match header.2 with Some kid => bool_decide (kid <> jc_kid cfg) | None => false end) then Err VeUnknownKid
  else
    match jwt_decode now (mkValidation (jc_algorithm cfg) [jc_issuer cfg] (jc_default_audience cfg) 5) token with
    | Err ExpiredSignature => Err VeExpired
    | Err OtherKind => Err VeInvalid
    | Ok claims => if decide (tk_type claims <> typ) then Err VeInvalid else Ok claims
    end.
Definition verify_access (now : Z) (token : string) := verify now token TOKEN_TYPE_ACCESS.
Definition verify_refresh (now : Z) (token : string) := verify now token TOKEN_TYPE_REFRESH.

Definition to_server_error (e : VerifyError) : ServerError := match e with VeExpired => TokenExpired | _ => InvalidToken end.
Definition verify_token (now : Z) (token : string) : result UnifiedTokenClaims ServerError :=
  match verify_access now token with Ok c => Ok c | Err e => Err (to_server_error e) end.
Definition verify_refresh_token (now : Z) (token : string) : result UnifiedTokenClaims ServerError :=
  match verify_refresh now token with Ok c => Ok c | Err e => Err (to_server_error e) end.

Definition default_issue_claims (user_id : Z) (device_id business app_id : string) (session_version : Z) : IssueClaims :=
  mkIssueClaims user_id device_id session_version ["user"%string] (jc_default_audience cfg) business app_id.
Definition issue_token_with_version (now : Z) (jti : string) (user_id : Z) (device_id business app_id : string) (version : Z)
    : result string ServerError :=
  let? t := issue_access now jti (default_issue_claims user_id device_id business app_id version) in Ok (it_token t).
Definition issue_refresh_token (now : Z) (jti : string) (user_id : Z) (device_id business app_id : string) (version : Z)
    : result string ServerError :=
  let? t := issue_refresh now jti (default_issue_claims user_id device_id business app_id version) in Ok (it_token t).

(** ** The table of refresh tokens *)
Record RefreshTokenRecord := mkRefresh {
  rf_user_id : Z; rf_device_id : string; rf_token_hash : string; rf_session_version : Z; rf_expires_at : Z;
  rf_revoked_at : option Z; rf_revoke_reason : option string; rf_created_at : Z; rf_last_used_at : option Z
}.
Notation refresh_table := (gmap string RefreshTokenRecord).
Definition is_revoked_record (r : RefreshTokenRecord) : bool := match rf_revoked_at r with Some _ => true | None => false end.
Definition is_expired (r : RefreshTokenRecord) (now_ms : Z) : bool := rf_expires_at r <=? now_ms.
Definition hash_refresh_token (token : string) : string := sha256_hex token.

(** The key is the jti, and hashes are unique. *)
Definition refresh_insert (f : stmt) (t : refresh_table) (jti : string) (user_id : Z) (device_id token : string)
    (version expires_at created_at : Z) : result unit string * refresh_table :=
  let h := hash_refresh_token token in
  let fresh := match t !! jti with Some _ => false | None => true end
               && bool_decide (map_Forall (fun _ r => rf_token_hash r <> h) t) in
  let t' := <[jti := mkRefresh (as_i64 user_id) device_id h version expires_at None None created_at None]> t in
  match f with
  | Done => if fresh then (Ok tt, t') else (Err "duplicate key value violates unique constraint"%string, t)
  | Lost e applied => (Err e, if applied && fresh then t' else t)
  end.
Definition find_by_jti (f : stmt) (t : refresh_table) (jti : string) : result (option RefreshTokenRecord) string :=
  match f with Done => Ok (t !! jti) | Lost e _ => Err e end.

Definition update_records (f : stmt) (pick : string -> RefreshTokenRecord -> bool) (g : RefreshTokenRecord -> RefreshTokenRecord)
    (t : refresh_table) : result Z string * refresh_table :=
  let t' := map_imap (fun k r => Some (if pick k r then g r else r)) t in
  match f with
  | Done => (Ok (Z.of_nat (size (filter (fun p => pick p.1 p.2 = true) t))), t')
  | Lost e applied => (Err e, if applied then t' else t)
  end.
Definition used (now_ms : Z) (r : RefreshTokenRecord) : RefreshTokenRecord :=
  mkRefresh (rf_user_id r) (rf_device_id r) (rf_token_hash r) (rf_session_version r) (rf_expires_at r) (rf_revoked_at r)
    (rf_revoke_reason r) (rf_created_at r) (Some now_ms).
Definition revoked (now_ms : Z) (reason : string) (r : RefreshTokenRecord) : RefreshTokenRecord :=
  mkRefresh (rf_user_id r) (rf_device_id r) (rf_token_hash r) (rf_session_version r) (rf_expires_at r) (Some now_ms)
    (Some reason) (rf_created_at r) (rf_last_used_at r).
Definition touch_last_used (f : stmt) (t : refresh_table) (jti : string) (now_ms : Z) : result unit string * refresh_table :=
  let '(r, t') := update_records f (fun k _ => bool_decide (k = jti)) (used now_ms) t in (let? _ := r in Ok tt, t').
Definition revoke_by_jti (f : stmt) (t : refresh_table) (jti reason : string) (now_ms : Z) :=
  update_records f (fun k r => bool_decide (k = jti) && negb (is_revoked_record r)) (revoked now_ms reason) t.
Definition revoke_by_token_hash (f : stmt) (t : refresh_table) (hash reason : string) (now_ms : Z) :=
  update_records f (fun _ r => bool_decide (rf_token_hash r = hash) && negb (is_revoked_record r)) (revoked now_ms reason) t.
Definition revoke_by_user_device (f : stmt) (t : refresh_table) (user_id : Z) (device_id reason : string) (now_ms : Z) :=
  update_records f (fun _ r => bool_decide (rf_user_id r = as_i64 user_id) && bool_decide (rf_device_id r = device_id)
                               && negb (is_revoked_record r)) (revoked now_ms reason) t.
Definition revoke_by_user (f : stmt) (t : refresh_table) (user_id : Z) (reason : string) (now_ms : Z) :=
  update_records f (fun _ r => bool_decide (rf_user_id r = as_i64 user_id) && negb (is_revoked_record r)) (revoked now_ms reason) t.

(** ** UnifiedTokenService *)
Context `{U : UuidCrate}.

Record IssueParams := mkIssueParams {
  ip_user_id : Z; ip_device_id : option string; ip_device_info : DeviceInfo; ip_scope : option (list string);
  ip_audience : option (list string); ip_business_system_id : option string; ip_ip_address : string
}.
Record IssueResult := mkIssueResult {
  is_user_id : Z; is_access_token : string; is_refresh_token : string; is_expires_in : Z; is_refresh_expires_in : Z;
  is_device_id : string; is_session_version : Z; is_device_created : bool; is_scope : list string; is_issuer : string;
  is_audience : list string; is_kid : string
}.

(** Clock readings in seconds and milliseconds, the generated ids, and the faults of the
    device and the refresh statement. *)
Record TokenEnv := mkTokenEnv {
  te_now : Z; te_now_ms : Z; te_device_uuid : uuid; te_access_jti : string; te_refresh_jti : string;
  te_device : stmt; te_find : stmt; te_refresh : stmt
}.

Definition issue (env : TokenEnv) (p : IssueParams) (devices : device_table) (records : refresh_table)
    : result IssueResult ServerError * device_table * refresh_table :=
  if ip_user_id p =? 0 then (Err (Validation "user_id 不能为 0"), devices, records)
  else
    match (match ip_device_id p with
           | Some d => if trim_is_empty d then Ok (uuid_to_string (te_device_uuid env))
                       else match uuid_parse_str d with
                            | Some _ => Ok d | None => Err (Validation "device_id 必须是有效的 UUID 格式") end
           | None => Ok (uuid_to_string (te_device_uuid env))
           end) with
    | Err e => (Err e, devices, records)
    | Ok device_id =>
        let business := default "privchat-application"%string (ip_business_system_id p) in
        let d := mkDeviceReq device_id (ip_user_id p) (ip_device_info p) (from_app_id (di_app_id (ip_device_info p)))
                   (ip_ip_address p) in
        match register_or_update_device (te_device env) (te_now_ms env) devices d with
        | (Err e, devices') => (Err e, devices', records)
        | (Ok (created, version), devices') =>
            let scope := default ["user"%string] (ip_scope p) in
            let audience := match ip_audience p with Some (a :: l) => a :: l | _ => jc_default_audience cfg end in
            let claims := mkIssueClaims (ip_user_id p) device_id version scope audience business (di_app_id (ip_device_info p)) in
            match issue_access (te_now env) (te_access_jti env) claims, issue_refresh (te_now env) (te_refresh_jti env) claims with
            | Err e, _ => (Err (Internal ("TokenService access 签发失败: " +:+ server_error_display e)), devices', records)
            | _, Err e => (Err (Internal ("TokenService refresh 签发失败: " +:+ server_error_display e)), devices', records)
            | Ok access, Ok refresh =>
                let expires_ms := Z.max (- 2 ^ 63) (Z.min (2 ^ 63 - 1) (tk_exp (it_claims refresh) * 1000)) in
                let '(w, records') := refresh_insert (te_refresh env) records (tk_jti (it_claims refresh)) (ip_user_id p) device_id
                                        (it_token refresh) version expires_ms (te_now_ms env) in
                (match w with
                 | Err e => Err (Internal ("插入 privchat_refresh_tokens 失败: " +:+ e))
                 | Ok _ => Ok (mkIssueResult (ip_user_id p) (it_token access) (it_token refresh) (jc_access_ttl_secs cfg)
                                 (jc_refresh_ttl_secs cfg) device_id version created scope (jc_issuer cfg) audience (jc_kid cfg))
                 end, devices', records')
            end
        end
    end.

Definition refresh_expired : ServerError := Coded "RefreshTokenExpired" 401 "refresh token 已过期".
Definition session_invalid (m : string) : ServerError := Unauthorized ("REFRESH_SESSION_INVALID: " +:+ m).

(** The checks of [refresh]: the claims, the record and the current version. *)
Definition refresh_checks (env : TokenEnv) (token device_id : string) (devices : device_table) (records : refresh_table)
    : result (UnifiedTokenClaims * RefreshTokenRecord * Z * Z) ServerError :=
  let? claims := match verify (te_now env) token TOKEN_TYPE_REFRESH with
                 | Ok c => Ok c | Err VeExpired => Err refresh_expired | Err _ => Err InvalidToken end in
  if decide (tk_device_id claims <> device_id) then Err InvalidToken
  else
    let? found := match find_by_jti (te_find env) records (tk_jti claims) with
                  | Ok r => Ok r | Err e => Err (Internal ("查询 refresh token 失败: " +:+ e)) end in
    let? record := ok_or found TokenRevoked in
    if decide (hash_refresh_token token <> rf_token_hash record) then Err InvalidToken
    else if is_revoked_record record then Err TokenRevoked
    else if is_expired record (te_now_ms env) then Err refresh_expired
    else
      let? user_id := ok_or (parse_u64 (tk_sub claims)) (Internal ("refresh token sub 不是有效 u64: " +:+ tk_sub claims)) in
      let? check := verify_device_session (te_device env) devices user_id (tk_device_id claims) (tk_session_version claims) in
      match check with
      | Valid current => Ok (claims, record, user_id, current)
      | DeviceNotFound => Err (session_invalid "设备不存在")
      | SessionInactive _ message => Err (session_invalid ("设备会话已失效: " +:+ message))
      | VersionMismatched _ _ => Err (session_invalid "session_version 已 bump，refresh 已失效")
      end.

Definition refresh (env : TokenEnv) (token device_id : string) (devices : device_table) (records : refresh_table)
    : result IssueResult ServerError * refresh_table :=
  match refresh_checks env token device_id devices records with
  | Err e => (Err e, records)
  | Ok (claims, record, user_id, current) =>
      let p := mkIssueClaims user_id (tk_device_id claims) current (tk_scope claims) (tk_aud claims)
                 (tk_business_system_id claims) (tk_app_id claims) in
      match issue_access (te_now env) (te_access_jti env) p with
      | Err e => (Err (Internal ("TokenService access 签发失败: " +:+ server_error_display e)), records)
      | Ok access =>
          let '(w, records') := touch_last_used (te_refresh env) records (tk_jti claims) (te_now_ms env) in
          (match w with
           | Err e => Err (Internal ("更新 last_used_at 失败: " +:+ e))
           | Ok _ => Ok (mkIssueResult user_id (it_token access) token (jc_access_ttl_secs cfg)
                           (Z.max 0 (rf_expires_at record - te_now_ms env) / 1000) (tk_device_id claims) current false
                           (tk_scope claims) (jc_issuer cfg) (tk_aud claims) (jc_kid cfg))
           end, records')
      end
  end.

(** [introspect]: the claims, or why the token is not active. First the part after
    the signature. *)
Definition introspect_claims (env : TokenEnv) (claims : UnifiedTokenClaims) (devices : device_table) (records : refresh_table)
    : result (Z * UnifiedTokenClaims) string :=
  let? user_id := ok_or (parse_u64 (tk_sub claims)) "signature_invalid"%string in
  let? _ := match verify_device_session (te_device env) devices user_id (tk_device_id claims) (tk_session_version claims) with
            | Ok (Valid _) => Ok tt
            | Ok DeviceNotFound => Err "not_found"%string
            | Ok (SessionInactive _ _) => Err "revoked"%string
            | Ok (VersionMismatched _ _) => Err "version_mismatch"%string
            | Err _ => Err "not_found"%string
            end in
  if decide (tk_type claims = TOKEN_TYPE_REFRESH) then
    match find_by_jti (te_find env) records (tk_jti claims) with
    | Ok (Some rec) =>
        if is_revoked_record rec then Err "revoked"%string
        else if is_expired rec (te_now_ms env) then Err "expired"%string else Ok (user_id, claims)
    | Ok None => Err "revoked"%string
    | Err _ => Err "not_found"%string
    end
  else Ok (user_id, claims).
Definition introspect (env : TokenEnv) (token : string) (devices : device_table) (records : refresh_table)
    : result (Z * UnifiedTokenClaims) string :=
  match verify (te_now env) token TOKEN_TYPE_ACCESS with
  | Ok claims => introspect_claims env claims devices records
  | Err VeExpired => Err "expired"%string
  | Err VeUnknownKid => Err "unknown_kid"%string
  | Err VeInvalid =>
      match verify (te_now env) token TOKEN_TYPE_REFRESH with
      | Ok claims => introspect_claims env claims devices records
      | Err VeExpired => Err "expired"%string
      | Err VeUnknownKid => Err "unknown_kid"%string
      | Err VeInvalid => Err "signature_invalid"%string
      end
  end.

Inductive RevokeRequest := ByJti (jti : string) | ByRefreshToken (token : string).
Definition revoke (env : TokenEnv) (req : RevokeRequest) (records : refresh_table) : result Z ServerError * refresh_table :=
  let '(prefix, (r, t)) :=
    match req with
    | ByJti jti => ("revoke by jti 失败: "%string, revoke_by_jti (te_refresh env) records jti "revoked_by_jti" (te_now_ms env))
    | ByRefreshToken token =>
        ("revoke by refresh_token 失败: "%string,
         revoke_by_token_hash (te_refresh env) records (hash_refresh_token token) "revoked_by_token" (te_now_ms env))
    end in
  (match r with Ok n => Ok n | Err e => Err (Internal (prefix +:+ e)) end, t).
End Tokens.
Notation refresh_table := (gmap string RefreshTokenRecord).
