(* ===== verification/Login.v ===== *)
(** * Logging in and being authenticated

    Models the login and refresh RPCs (src/src/rpc/account/auth/login.rs, refresh.rs,
    logout.rs), the authentication of a connection
    (src/src/handler/connect_message_handler.rs up to the bound session), the
    sessions of connections (src/src/infra/session_manager.rs), the capabilities of
    scopes (src/src/auth/token_capability.rs), the anonymous routes
    (src/src/infra/auth_whitelist.rs) and the gate in front of every message and RPC
    (src/src/middleware/auth_middleware.rs).

    The message types and routes of the protocol crate are the class [WireNames];
    user lookup, bcrypt and Unicode lower-casing are arguments of the login. *)

From stdpp Require Import base numbers gmap list strings relations.
From S2P Require Import Prelude DeviceSession Token.
Local Open Scope Z_scope.

Class WireNames := {
  MessageType : Type;
  message_type_eq_dec : EqDecision MessageType;
  AuthorizationRequest : MessageType; DisconnectRequest : MessageType; SendMessageRequest : MessageType;
  PingRequest : MessageType; RpcRequest : MessageType;
  message_history_GET : string; message_history_AROUND : string;
  message_status_READ_PTS : string; message_status_COUNT : string; message_status_READ_LIST : string; message_status_READ_STATS : string;
  message_REVOKE : string;
  message_reaction_ADD : string; message_reaction_REMOVE : string; message_reaction_LIST : string; message_reaction_STATS : string;
  sync_SUBMIT : string; sync_GET_DIFFERENCE : string; sync_GET_CHANNEL_PTS : string; sync_BATCH_GET_CHANNEL_PTS : string;
  sync_SESSION_READY : string; entity_SYNC_ENTITIES : string;
  file_REQUEST_UPLOAD_TOKEN : string; file_UPLOAD_CALLBACK : string; file_GET_URL : string;
  channel_PIN : string; channel_HIDE : string; channel_MUTE : string;
  presence_TYPING : string; presence_STATUS_GET : string;
  account_profile_GET : string; account_profile_UPDATE : string; account_user_DETAIL : string;
  auth_LOGOUT : string; auth_REFRESH : string; device_PUSH_UPDATE : string; device_PUSH_STATUS : string
}.
#[export] Existing Instance message_type_eq_dec.

(** ** Capabilities *)
Definition SCOPE_MESSAGING : string := "messaging".
Definition is_full_access_scope (scope : string) : bool := negb (bool_decide (scope = SCOPE_MESSAGING)).

Section Capabilities.
Context `{W : WireNames}.

Definition MESSAGING_ROUTES : list string :=
  [message_history_GET; message_history_AROUND; message_status_READ_PTS; message_status_COUNT; message_status_READ_LIST;
   message_status_READ_STATS; message_REVOKE; message_reaction_ADD; message_reaction_REMOVE; message_reaction_LIST;
   message_reaction_STATS; sync_SUBMIT; sync_GET_DIFFERENCE; sync_GET_CHANNEL_PTS; sync_BATCH_GET_CHANNEL_PTS;
   sync_SESSION_READY; entity_SYNC_ENTITIES; file_REQUEST_UPLOAD_TOKEN; file_UPLOAD_CALLBACK; file_GET_URL; channel_PIN;
   channel_HIDE; channel_MUTE; presence_TYPING; presence_STATUS_GET; account_profile_GET; account_profile_UPDATE;
   account_user_DETAIL; auth_LOGOUT; auth_REFRESH; device_PUSH_UPDATE; device_PUSH_STATUS].
Definition MESSAGING_MESSAGE_TYPES : list MessageType :=
  [AuthorizationRequest; DisconnectRequest; SendMessageRequest; PingRequest; RpcRequest].

(** Any scope of the token that allows the route. *)
Definition allows_rpc_route (scopes : list string) (route : string) : bool :=
  match scopes with
  | [] => true
  | _ => existsb (fun s => is_full_access_scope s || (bool_decide (s = SCOPE_MESSAGING) && bool_decide (route ∈ MESSAGING_ROUTES))) scopes
  end.
Definition allows_message_type (scopes : list string) (ty : MessageType) : bool :=
  match scopes with
  | [] => true
  | _ => existsb (fun s => is_full_access_scope s || (bool_decide (s = SCOPE_MESSAGING) && bool_decide (ty ∈ MESSAGING_MESSAGE_TYPES))) scopes
  end.

Definition ANONYMOUS_RPC_ROUTES : list string :=
  ["system/health"; "system/info"; "account/auth/login"; "account/user/register"; "account/auth/refresh"; "qr_login/create_scene"]%string.
Definition is_anonymous_rpc_route (route : string) : bool := bool_decide (route ∈ ANONYMOUS_RPC_ROUTES).
Definition is_anonymous_message_type (ty : MessageType) : bool := bool_decide (ty ∈ [AuthorizationRequest]).
End Capabilities.

(** ** Sessions of connections *)
Record SessionInfo := mkSession {
  si_user_id : string; si_device_id : string; si_authenticated_at : Z; si_last_active_at : Z;
  si_claims : UnifiedTokenClaims; si_client_pts : Z; si_ready_for_push : bool
}.
Notation session_table := (gmap Z SessionInfo).

Definition bind_session (now : Z) (sid : Z) (user_id device_id : string) (claims : UnifiedTokenClaims) (s : session_table) : session_table :=
  <[sid := mkSession user_id device_id now now claims 0 false]> s.
Definition update_client_pts (now sid pts : Z) (s : session_table) : session_table :=
  alter (fun i => mkSession (si_user_id i) (si_device_id i) (si_authenticated_at i) now (si_claims i) pts (si_ready_for_push i)) sid s.
Definition get_client_pts (s : session_table) (sid : Z) : option Z := si_client_pts <$> s !! sid.
Definition mark_ready_for_push (now sid : Z) (s : session_table) : bool * session_table :=
  (match s !! sid with Some i => negb (si_ready_for_push i) | None => false end,
   alter (fun i => mkSession (si_user_id i) (si_device_id i) (si_authenticated_at i) now (si_claims i) (si_client_pts i) true) sid s).
Definition is_ready_for_push (s : session_table) (sid : Z) : bool := default false (si_ready_for_push <$> s !! sid).
Definition session_user_id (s : session_table) (sid : Z) : option string := si_user_id <$> s !! sid.
Definition update_active_time (now sid : Z) (s : session_table) : session_table :=
  alter (fun i => mkSession (si_user_id i) (si_device_id i) (si_authenticated_at i) now (si_claims i) (si_client_pts i) (si_ready_for_push i)) sid s.
Definition unbind_session (sid : Z) (s : session_table) : session_table := delete sid s.
Definition cleanup_expired_sessions (timeout now : Z) (s : session_table) : Z * session_table :=
  let s' := filter (fun p => ~ timeout < now - si_last_active_at p.2) s in
  (Z.of_nat (size s) - Z.of_nat (size s'), s').
Definition list_user_sessions (s : session_table) (user_id : Z) : list (Z * SessionInfo) :=
  filter (fun p => parse_u64 (si_user_id p.2) = Some user_id) (map_to_list s).
Definition session_count (s : session_table) : nat := size s.
Definition online_user_count (s : session_table) : nat := length (remove_dups (si_user_id <$> (map_to_list s).*2)).

(** ** The gate *)
Inductive AuthCode := CodePermissionDenied | CodeAuthRequired.
Section Gate.
Context `{W : WireNames}.

Definition check_session (now sid : Z) (allowed : list string -> bool) (s : session_table)
    : result (option string) AuthCode * session_table :=
  match s !! sid with
  | None => (Err CodeAuthRequired, s)
  | Some info =>
      if negb (allowed (tk_scope (si_claims info))) then (Err CodePermissionDenied, s)
      else (Ok (Some (si_user_id info)), update_active_time now sid s)
  end.
Definition check_message_type (now sid : Z) (ty : MessageType) (s : session_table) : result (option string) AuthCode * session_table :=
  if is_anonymous_message_type ty then (Ok None, s)
  else check_session now sid (fun scopes => allows_message_type scopes ty) s.
Definition check_rpc_route (now sid : Z) (route : string) (s : session_table) : result (option string) AuthCode * session_table :=
  if is_anonymous_rpc_route route then (Ok None, s)
  else check_session now sid (fun scopes => allows_rpc_route scopes route) s.
End Gate.

Section Auth.
Context `{J : JwtCrate, U : UuidCrate} (cfg : JwtConfig).

(** ** Connecting *)
Inductive ConnectReply := ConnectOk (user_id : Z) | Refused (code message : string).

(** [now] in seconds for the token, [now_ns] for the session. *)
Definition authenticate (now now_ns : Z) (f : stmt) (token request_device : string) (sid : Z) (blacklist : gset string)
    (devices : device_table) (s : session_table) : result ConnectReply ServerError * session_table :=
  if decide (token = ""%string) then (Err (Unauthorized "缺少认证 token"), s)
  else
    match verify_token cfg now token with
    | Err TokenExpired => (Ok (Refused "TokenExpired" "Token 已过期"), s)
    | Err _ => (Ok (Refused "InvalidToken" "Token 验证失败"), s)
    | Ok claims =>
        if decide (tk_jti claims ∈ blacklist) then (Ok (Refused "TokenRevoked" "Token 已被撤销，请重新登录"), s)
        else
          match parse_u64 (tk_sub claims) with
          | None => (Err (BadRequest ("Invalid user_id in token: " +:+ tk_sub claims)), s)
          | Some user_id =>
              if decide (request_device <> tk_device_id claims)
              then (Ok (Refused "InvalidToken" "请求的设备ID与 token 绑定的设备ID不匹配，请使用注册/登录时的设备ID"), s)
              else
                match verify_device_session f devices user_id (tk_device_id claims) (tk_session_version claims) with
                | Ok (Valid _) =>
                    (Ok (ConnectOk user_id), bind_session now_ns sid (tk_sub claims) (tk_device_id claims) claims s)
                | Ok DeviceNotFound => (Ok (Refused "DeviceNotFound" "设备不存在，请重新登录"), s)
                | Ok (SessionInactive _ message) => (Ok (Refused "SessionExpired" message), s)
                | Ok (VersionMismatched token_version current) =>
                    (Ok (Refused "SessionExpired" ("Token 已失效（版本：" +:+ i64_to_string token_version +:+ " < " +:+
                           i64_to_string current +:+ "），请重新登录")), s)
                | Err _ => (Ok (Refused "InternalError" "设备会话验证失败"), s)
                end
          end
    end.

(** ** The refresh RPC *)
Definition rpc_code (code message : string) : RpcError := mkRpcError code message.
Definition handle_refresh (builtin : bool) (now : Z) (f : stmt) (jti : string) (refresh_token device_id : string) (devices : device_table)
    : result string RpcError :=
  if negb builtin then
    Err (rpc_forbidden "account.mode=PLATFORM：server 内置 refresh 已禁用，请向 platform 申请新 token。")
  else if decide (refresh_token = ""%string) then Err (rpc_validation "refresh_token 不能为空")
  else if decide (uuid_parse_str device_id = None) then Err (rpc_validation "device_id 必须是有效的 UUID 格式")
  else
    let? claims := match verify_refresh_token cfg now refresh_token with
                   | Ok c => Ok c
                   | Err TokenExpired => Err (rpc_code "RefreshTokenExpired" "Refresh token 已过期，请重新登录")
                   | Err _ => Err (rpc_code "InvalidToken" "Refresh token 无效") end in
    if decide (tk_device_id claims <> device_id) then Err (rpc_code "RefreshTokenRevoked" "Refresh token 与当前设备不匹配")
    else
      let? user_id := ok_or (parse_u64 (tk_sub claims))
                        (rpc_code "InvalidToken" ("Refresh token 中 user_id 非法: " +:+ tk_sub claims)) in
      let? _ := match verify_device_session f devices user_id device_id (tk_session_version claims) with
                | Ok (Valid _) => Ok tt
                | Ok DeviceNotFound => Err (rpc_code "RefreshTokenRevoked" "设备不存在或已移除，请重新登录")
                | Ok (SessionInactive _ message) => Err (rpc_code "RefreshTokenRevoked" message)
                | Ok (VersionMismatched _ _) => Err (rpc_code "RefreshTokenRevoked" "Refresh token 已被撤销（会话版本升级），请重新登录")
                | Err e => Err (rpc_internal ("设备会话校验失败: " +:+ server_error_display e))
                end in
      match issue_token_with_version cfg now jti user_id device_id (tk_business_system_id claims) (tk_app_id claims) (tk_session_version claims) with
      | Ok access => Ok access
      | Err e => Err (rpc_internal ("签发 access token 失败: " +:+ server_error_display e))
      end.

(** ** The login RPC *)
(** A user as the queries return it: id and password hash. *)
Record LoginEnv := mkLoginEnv {
  le_builtin : bool;
  le_lowercase : string -> string;
  le_find_by_username : string -> result (option (Z * option string)) string;
  le_find_by_email : string -> result (option (Z * option string)) string;
  le_verify_password : string -> string -> result bool string;
  le_now : Z; le_now_ms : Z; le_access_jti : string; le_refresh_jti : string; le_query : stmt; le_register : stmt
}.
Record LoginRequest := mkLogin { lr_username : string; lr_password : string; lr_device_id : string; lr_device : option (string * string) }.

Definition login_user (env : LoginEnv) (req : LoginRequest) : result Z RpcError :=
  if negb (le_builtin env) then
    Err (rpc_forbidden "account.mode=PLATFORM：server 内置登录已禁用，请向 platform 申请 token，再通过 AuthorizationRequest 建立连接。")
  else
    let account := le_lowercase env (trim (lr_username req)) in
    if decide (account = ""%string) then Err (rpc_validation "用户名不能为空")
    else
      let failed e := rpc_internal ("查询用户失败: " +:+ e) in
      let? by_name := match le_find_by_username env account with Ok u => Ok u | Err e => Err (failed e) end in
      let? user := match by_name with
                   | Some u => Ok u
                   | None => match le_find_by_email env account with
                             | Err e => Err (failed e)
                             | Ok u => ok_or u (rpc_unauthorized "账号密码不匹配")
                             end
                   end in
      let? hash := ok_or user.2 (rpc_unauthorized "此账号未设置密码，请使用外部认证系统登录") in
      match le_verify_password env (lr_password req) hash with
      | Err e => Err (rpc_internal ("密码验证失败: " +:+ e))
      | Ok false => Err (rpc_unauthorized "账号密码不匹配")
      | Ok true => Ok user.1
      end.

Definition login_device_type (s : string) : DeviceType :=
  if decide (s = "ios") then IOS else if decide (s = "android") then Android else if decide (s = "web") then Web
  else if decide (s = "macos") then MacOS else if decide (s = "windows") then Windows else UnknownDevice.

(** The version for the tokens: that of the known device, or 1 for a new one. *)
Definition login_device (env : LoginEnv) (user_id : Z) (device_id app_id device_type : string) (devices : device_table)
    : result Z RpcError * device_table :=
  match get_device_with_version (le_query env) devices user_id device_id with
  | Err e => (Err (rpc_internal ("查询设备失败: " +:+ server_error_display e)), devices)
  | Ok (Some (_, version)) => (Ok version, devices)
  | Ok None =>
      let d := mkDeviceReq device_id user_id (mkDeviceInfo app_id (app_id +:+ " Device") "Unknown" "Unknown" "1.0.0")
                 (login_device_type device_type) "127.0.0.1" in
      let '(r, devices') := register_or_update_device (le_register env) (le_now_ms env) devices d in
      (match r with Ok _ => Ok 1 | Err e => Err (rpc_internal ("注册设备失败: " +:+ server_error_display e)) end, devices')
  end.

(** The access and the refresh token. *)
Definition handle_login (env : LoginEnv) (req : LoginRequest) (devices : device_table)
    : result (string * string) RpcError * device_table :=
  match login_user env req with
  | Err e => (Err e, devices)
  | Ok user_id =>
      if decide (uuid_parse_str (lr_device_id req) = None) then (Err (rpc_validation "device_id 必须是有效的 UUID 格式"), devices)
      else
        let '(app_id, device_type) := default ("unknown", "unknown")%string (lr_device req) in
        match login_device env user_id (lr_device_id req) app_id device_type devices with
        | (Err e, devices') => (Err e, devices')
        | (Ok version, devices') =>
            (match issue_token_with_version cfg (le_now env) (le_access_jti env) user_id (lr_device_id req) "privchat-internal" app_id version,
                   issue_refresh_token cfg (le_now env) (le_refresh_jti env) user_id (lr_device_id req) "privchat-internal" app_id version with
             | Err e, _ => Err (rpc_internal ("生成 JWT token 失败: " +:+ server_error_display e))
             | _, Err e => Err (rpc_internal ("生成 refresh token 失败: " +:+ server_error_display e))
             | Ok a, Ok r => Ok (a, r)
             end, devices')
        end
  end.

(** ** Logging out *)
(** [removed] is what the connection manager returns for the session. *)
Definition handle_logout (now : Z) (f : stmt) (user_id : Z) (device_id : option string) (sid : Z)
    (removed : result (option (Z * string)) string) (devices : device_table) (s : session_table)
    : result unit RpcError * device_table * session_table :=
  match removed with
  | Err e => (Err (rpc_internal ("unregister connection failed: " +:+ e)), devices, s)
  | Ok found =>
      let cleanup := match device_id with
                     | Some d => Some d
                     | None => match found with Some (u, d) => if u =? user_id then Some d else None | None => None end
                     end in
      let devices' := match cleanup with
                      | Some d => (increment_session_version f now devices user_id d "user_logout").2
                      | None => devices
                      end in
      (Ok tt, devices', unbind_session sid s)
  end.
End Auth.
