(* ===== verification/AuthFacts.v ===== *)
(** * Theorems on authentication

    Ended sessions, frozen devices, what stands behind an authenticated request, and
    the scope of refreshed tokens. *)

From stdpp Require Import base numbers gmap list strings relations.
From S2P Require Import Prelude DeviceSession Token Login.
Local Open Scope Z_scope.

Section AuthFacts.
Context `{J : JwtCrate, U : UuidCrate, W : WireNames} (cfg : JwtConfig).

(** ** Entry points accept only valid sessions *)
Lemma verify_typ now token typ c : verify cfg now token typ = Ok c ->
  tk_type c = typ /\ exists v, jwt_decode now v token = Ok c.
Proof.
  unfold verify. destruct (jwt_decode_header token) as [[alg kid]|]; [|done]. simpl. case_decide; [done|].
  destruct (_ && _); [done|]. destruct (jwt_decode now _ token) as [c'|[]] eqn:E; [|done..].
  case_decide as Ht; [done|]. intros [= ->]. split; [done|]. eauto.
Qed.
Lemma verify_token_Ok now token c : verify_token cfg now token = Ok c ->
  tk_type c = TOKEN_TYPE_ACCESS /\ exists v, jwt_decode now v token = Ok c.
Proof. unfold verify_token, verify_access. destruct (verify cfg now token _) as [c'|] eqn:E; [|done]. intros [= ->]. by apply verify_typ. Qed.

Lemma authenticate_cases now now_ns f token dev sid bl devices s r s' :
  authenticate cfg now now_ns f token dev sid bl devices s = (r, s') ->
  (s' = s /\ forall u, r <> Ok (ConnectOk u)) \/
  exists c u n, r = Ok (ConnectOk u) /\ s' = bind_session now_ns sid (tk_sub c) (tk_device_id c) c s /\
    verify_token cfg now token = Ok c /\ tk_jti c ∉ bl /\ parse_u64 (tk_sub c) = Some u /\ dev = tk_device_id c /\
    verify_device_session f devices u (tk_device_id c) (tk_session_version c) = Ok (Valid n).
Proof.
  unfold authenticate. case_decide; [intros [= <- <-]; left; split; [done|by intros u [=]]|].
  destruct (verify_token cfg now token) as [c|e] eqn:Ev.
  2:{ intros Hr. left. destruct e; injection Hr as <- <-; (split; [done|by intros u [=]]). }
  case_decide as Hj; [intros [= <- <-]; left; split; [done|by intros u [=]]|].
  destruct (parse_u64 (tk_sub c)) as [u|] eqn:Eu; [|intros [= <- <-]; left; split; [done|by intros u [=]]].
  case_decide as Hd; [intros [= <- <-]; left; split; [done|by intros v [=]]|].
  destruct (verify_device_session f devices u (tk_device_id c) (tk_session_version c)) as [[n| |st m|a b]|e] eqn:Es; intros [= <- <-];
    try (left; split; [done|by intros v [=]]).
  right. exists c, u, n. repeat split; try done.
Qed.

(** No entry point lets the claims of a token through when verification refuses them. *)
Definition shut_out (devices : device_table) (c : UnifiedTokenClaims) : Prop :=
  forall f u n, parse_u64 (tk_sub c) = Some u ->
    verify_device_session f devices u (tk_device_id c) (tk_session_version c) <> Ok (Valid n).

(** The token always decodes to the same claims, if it does. *)
Definition carries (token : string) (c : UnifiedTokenClaims) : Prop :=
  forall now v c', jwt_decode now v token = Ok c' -> c' = c.

Definition refused_everywhere (token : string) (devices : device_table) : Prop :=
  (forall now now_ns f dev sid bl s, exists r, authenticate cfg now now_ns f token dev sid bl devices s = (r, s) /\ forall u, r <> Ok (ConnectOk u)) /\
  (forall builtin now f jti dev, is_ok (handle_refresh cfg builtin now f jti token dev devices) = false) /\
  (forall env dev records, is_ok (refresh cfg env token dev devices records).1 = false) /\
  (forall env records, is_ok (introspect cfg env token devices records) = false).

Lemma shut_out_refused token c devices : carries token c -> shut_out devices c -> refused_everywhere token devices.
Proof.
  intros Hc Hs. assert (forall now typ c', verify cfg now token typ = Ok c' -> c' = c) as Hv.
  { intros now typ c' (_ & v & H)%verify_typ. by apply (Hc now v). }
  split; [|split; [|split]].
  - intros now now_ns f dev sid bl s. destruct (authenticate cfg now now_ns f token dev sid bl devices s) as [r s'] eqn:E. exists r.
    apply authenticate_cases in E as [[-> ?]|(c' & u & n & _ & _ & Ht & _ & Hu & _ & Hd)]; [done|exfalso].
    apply verify_token_Ok in Ht as (_ & v & Ht). rewrite (Hc _ _ _ Ht) in *. by eapply Hs.
  - intros builtin now f jti dev. unfold handle_refresh. destruct builtin; [|done]. simpl. case_decide; [done|]. case_decide; [done|].
    unfold verify_refresh_token, verify_refresh. destruct (verify cfg now token TOKEN_TYPE_REFRESH) as [c'|e] eqn:E; [|by destruct e].
    apply Hv in E as ->. case_decide as Hd; [done|]. destruct (parse_u64 (tk_sub c)) as [u|] eqn:Eu; [|done]. simpl.
    subst dev. specialize (Hs f u).
    destruct (verify_device_session f devices u (tk_device_id c) (tk_session_version c)) as [[n| | |]|]; try done. by destruct (Hs n).
  - intros env dev records. unfold refresh, refresh_checks.
    destruct (verify cfg (te_now env) token TOKEN_TYPE_REFRESH) as [c'|[]] eqn:E; try done. apply Hv in E as ->. simpl.
    case_decide; [done|]. destruct (find_by_jti _ _ _) as [[rec|]|]; try done. simpl. case_decide; [done|].
    destruct (is_revoked_record rec); [done|]. destruct (is_expired rec _); [done|].
    destruct (parse_u64 (tk_sub c)) as [u|] eqn:Eu; [|done]. simpl. specialize (Hs (te_device env) u).
    destruct (verify_device_session (te_device env) devices u (tk_device_id c) (tk_session_version c)) as [[n| | |]|]; try done.
    by destruct (Hs n).
  - intros env records. unfold introspect.
    assert (is_ok (introspect_claims env c devices records) = false) as Hrest.
    { unfold introspect_claims. destruct (parse_u64 (tk_sub c)) as [u|] eqn:Eu; [|done]. simpl. specialize (Hs (te_device env) u).
      destruct (verify_device_session (te_device env) devices u (tk_device_id c) (tk_session_version c)) as [[n| | |]|]; try done.
      by destruct (Hs n). }
    destruct (verify cfg (te_now env) token TOKEN_TYPE_ACCESS) as [c'|[]] eqn:E; try done; [by rewrite (Hv _ _ _ E)|].
    destruct (verify cfg (te_now env) token TOKEN_TYPE_REFRESH) as [c'|[]] eqn:E2; try done. by rewrite (Hv _ _ _ E2).
Qed.

(** ** Operations that end a session *)
(** The operation succeeds and names the row. *)
Definition ends (t : device_table) (op : device_op) (k : Z * uuid) : Prop :=
  match op with
  | DoKick f now user target by_device reason =>
      is_ok (kick_device f now t user target by_device reason).1 = true /\ exists id, uuid_parse_str target = Some id /\ k = (as_i64 user, id)
  | DoIncrement f now user device reason =>
      is_ok (increment_session_version f now t user device reason).1 = true /\ exists id, uuid_parse_str device = Some id /\ k = (as_i64 user, id)
  | DoBump f now user => is_ok (bump_user_sessions f now t user).1 = true /\ k.1 = as_i64 user
  | DoRevokeAll f now user reason => is_ok (revoke_all_devices f now t user reason).1 = true /\ k.1 = as_i64 user
  | DoRegister f now d =>
      is_ok (register_or_update_device f now t d).1 = true /\ exists id, uuid_parse_str (dr_device_id d) = Some id /\ k = (as_i64 (dr_user_id d), id)
  | DoKickOthers select update now checked user current reason =>
      checked = t /\ is_ok (kick_other_devices select update now checked t user current reason).1 = true /\ k.1 = as_i64 user /\
      uuid_parse_str current <> Some k.2
  | DoReactivate _ _ _ _ | DoTouch _ _ _ _ _ => False
  end.

Lemma exec_write_Ok {A} (f : stmt) (prefix : string) (w : result (A * device_table) string) (t t' : device_table) (a : A) :
  exec_write f prefix w t = (Ok a, t') -> w = Ok (a, t').
Proof. unfold exec_write. destruct f as [|e []], w as [[b t1]|]; try done. by intros [= -> ->]. Qed.
Lemma bool_decide_refl {A} `{!EqDecision A} (x : A) : bool_decide (x = x) = true.
Proof. by apply bool_decide_eq_true. Qed.

Lemma update_bumps (pick : Z * uuid -> DeviceRow -> bool) (g : DeviceRow -> DeviceRow) (t t' : device_table) (n : Z) (k : Z * uuid) (r : DeviceRow) :
  update_where pick g t = Ok (n, t') -> t !! k = Some r -> pick k r = true -> dv_version (g r) = dv_version r + 1 ->
  exists r', t' !! k = Some r' /\ dv_version r' = dv_version r + 1.
Proof. intros Hu Hr Hp Hg. exists (g r). by rewrite (update_where_lookup _ _ _ _ _ Hu), Hr, <- Hg; simpl; rewrite Hp. Qed.

Lemma ends_bumps (t : device_table) (op : device_op) (k : Z * uuid) (r : DeviceRow) : t !! k = Some r -> active r = true -> ends t op k ->
  exists r', run_device t op !! k = Some r' /\ dv_version r' = dv_version r + 1.
Proof.
  intros Hr Ha He. destruct op as [sel update now checked user current reason|f now user target by_device reason|
    f now user device reason|f now user|f now user reason|f now user device|f now d|f now user device ip]; simpl in *; try done.
  - destruct He as (-> & Hok & Hu & Hc). revert Hok. unfold kick_other_devices, parse_device.
    destruct (uuid_parse_str current) as [cur|]; [|done]. simpl. destruct sel as [|e a]; [|done]. simpl.
    assert ((k, r) ∈ others_active user cur t) as Hin.
    { apply list_elem_of_filter. split; [|by apply elem_of_map_to_list]. split; [done|]. split; [|done]. simpl. congruence. }
    destruct (others_active user cur t) as [|p rows] eqn:Eo; [by apply elem_of_nil in Hin|]. rewrite <- Eo in *.
    destruct (exec_write update _ _ t) as [[n|] t'] eqn:Ew; [|done]. intros _. apply exec_write_Ok in Ew. simpl.
    eapply update_bumps; [done..|cbv beta|done]. rewrite Ha, Hu, bool_decide_refl. simpl. rewrite andb_true_r.
    apply bool_decide_eq_true, list_elem_of_fmap. by exists (k, r).
  - destruct He as (Hok & id & Hid & ->). revert Hok. unfold kick_device, parse_device. rewrite Hid. simpl.
    destruct (match by_device with None => _ | Some _ => _ end) as [b|]; [|done].
    destruct (exec_write f _ _ t) as [[n|] t'] eqn:Ew; [|done]. intros _. apply exec_write_Ok in Ew. simpl.
    eapply update_bumps; [done..|cbv beta|done]. unfold row_is. by rewrite bool_decide_refl, Ha.
  - destruct He as (Hok & id & Hid & ->). revert Hok. unfold increment_session_version, parse_device. rewrite Hid. simpl.
    destruct (exec_write f _ _ t) as [[n|] t'] eqn:Ew; [|done]. intros _. apply exec_write_Ok in Ew. simpl.
    eapply update_bumps; [done..|cbv beta|done]. apply bool_decide_refl.
  - destruct He as [Hok Hu]. revert Hok. unfold bump_user_sessions.
    destruct (exec_write f _ _ t) as [[n|] t'] eqn:Ew; [|done]. intros _. apply exec_write_Ok in Ew. simpl.
    eapply update_bumps; [done..|cbv beta|done]. by rewrite Hu, bool_decide_refl, Ha.
  - destruct He as [Hok Hu]. revert Hok. unfold revoke_all_devices.
    destruct (exec_write f _ _ t) as [[n|] t'] eqn:Ew; [|done]. intros _. apply exec_write_Ok in Ew. simpl.
    eapply update_bumps; [done..|cbv beta|done]. by rewrite Hu, bool_decide_refl, Ha.
  - destruct He as (Hok & id & Hid & ->). revert Hok. unfold register_or_update_device, parse_device. rewrite Hid. simpl. rewrite Hr.
    destruct (in_range (relogged now d r)); destruct f as [|e []]; simpl; try done.
    intros _. rewrite lookup_insert_eq. eauto.
Qed.

(** ** Sessions *)
(** An accepted connection: its inputs. *)
Record Admission := mkAdmission {
  ad_sid : Z; ad_now : Z; ad_token : string; ad_blacklist : gset string; ad_devices : device_table; ad_query : stmt
}.
Inductive session_step : session_table * list Admission -> session_table * list Admission -> Prop :=
| SS_connect now now_ns f token dev sid bl devices s log r s' :
    authenticate cfg now now_ns f token dev sid bl devices s = (r, s') ->
    session_step (s, log)
      (s', match r with Ok (ConnectOk _) => log ++ [mkAdmission sid now token bl devices f] | _ => log end)
| SS_pts now sid pts s log : session_step (s, log) (update_client_pts now sid pts s, log)
| SS_ready now sid s log : session_step (s, log) ((mark_ready_for_push now sid s).2, log)
| SS_unbind sid s log : session_step (s, log) (unbind_session sid s, log)
| SS_cleanup timeout now s log : session_step (s, log) ((cleanup_expired_sessions timeout now s).2, log)
| SS_route now sid route s log : session_step (s, log) ((check_rpc_route now sid route s).2, log)
| SS_message now sid ty s log : session_step (s, log) ((check_message_type now sid ty s).2, log).

(** The admission behind the claims of a session. *)
Definition admitted (sid : Z) (c : UnifiedTokenClaims) (a : Admission) : Prop :=
  ad_sid a = sid /\ verify_token cfg (ad_now a) (ad_token a) = Ok c /\ tk_jti c ∉ ad_blacklist a /\
  exists u n, parse_u64 (tk_sub c) = Some u /\
    verify_device_session (ad_query a) (ad_devices a) u (tk_device_id c) (tk_session_version c) = Ok (Valid n).
Definition sessions_ok (s : session_table) (log : list Admission) : Prop :=
  forall sid info, s !! sid = Some info -> si_user_id info = tk_sub (si_claims info) /\ si_device_id info = tk_device_id (si_claims info) /\
    exists a, a ∈ log /\ admitted sid (si_claims info) a.

(** Steps that keep owner and claims. *)
Lemma sessions_ok_alter s log sid (g : SessionInfo -> SessionInfo) :
  (forall i, si_user_id (g i) = si_user_id i /\ si_device_id (g i) = si_device_id i /\ si_claims (g i) = si_claims i) ->
  sessions_ok s log -> sessions_ok (alter g sid s) log.
Proof.
  intros Hg Hok sid' info. rewrite lookup_alter_Some. intros [(-> & i & Hi & ->)|[_ Hi]]; [|by apply Hok].
  destruct (Hg i) as (-> & -> & ->). by apply Hok.
Qed.
Lemma check_session_ok now sid allowed s log : sessions_ok s log -> sessions_ok (check_session now sid allowed s).2 log.
Proof.
  intros Hok. unfold check_session. destruct (s !! sid) as [i|]; [|done]. destruct (negb _); [done|].
  by apply sessions_ok_alter.
Qed.
Lemma session_step_ok s log s' log' : session_step (s, log) (s', log') -> sessions_ok s log -> sessions_ok s' log'.
Proof.
  intros Hs Hok. inversion Hs as [now now_ns f token dev sid bl devices s0 log0 r s1 Ha| | |sid s0 log0|timeout now s0 log0|
    now sid route s0 log0|now sid ty s0 log0]; subst.
  - apply authenticate_cases in Ha as [[-> Hr]|(c & u & n & -> & -> & Hv & Hj & Hu & Hd & Hdev)].
    + destruct r as [[u|]|]; try done. by destruct (Hr u).
    + intros sid' info. unfold bind_session. intros [[<- <-]|[Hne Hi]]%lookup_insert_Some; simpl.
      * split; [done|]. split; [done|]. eexists. split; [apply elem_of_app; right; by left|]. repeat split; try done. by exists u, n.
      * destruct (Hok _ _ Hi) as (? & ? & a & Hin & ?). split; [done|]. split; [done|]. exists a. split; [|done].
        apply elem_of_app. by left.
  - by apply sessions_ok_alter.
  - by apply sessions_ok_alter.
  - intros sid' info Hi. unfold unbind_session in Hi. apply lookup_delete_Some in Hi as [_ Hi]. by apply Hok.
  - intros sid' info Hi. simpl in Hi. apply map_lookup_filter_Some in Hi as [Hi _]. by apply Hok.
  - unfold check_rpc_route. destruct (is_anonymous_rpc_route route); [done|]. by apply check_session_ok.
  - unfold check_message_type. destruct (is_anonymous_message_type ty); [done|]. by apply check_session_ok.
Qed.
Lemma reachable_sessions_ok s log : rtc session_step (∅, []) (s, log) -> sessions_ok s log.
Proof.
  intros Hs. remember (∅, []) as x eqn:Ex. remember (s, log) as y eqn:Ey.
  assert (sessions_ok x.1 x.2) as Hx by (subst x; intros sid i Hi; simpl in Hi; by rewrite lookup_empty in Hi).
  clear Ex. revert Hx. induction Hs as [x|[s1 l1] [s2 l2] z Hstep _ IH]; intros Hx; [by subst|].
  apply IH; [done|]. by apply session_step_ok in Hstep.
Qed.

(** A token with only the messaging scope reaches only its routes. *)
Lemma messaging_routes_only scopes route : scopes <> [] -> (forall x, x ∈ scopes -> x = SCOPE_MESSAGING) ->
  allows_rpc_route scopes route = true -> route ∈ MESSAGING_ROUTES.
Proof.
  intros Hne Hall. unfold allows_rpc_route. destruct scopes as [|x l]; [done|]. rewrite existsb_exists.
  intros (y & Hy & Hr). apply list_elem_of_In in Hy. rewrite (Hall y Hy) in Hr. unfold is_full_access_scope in Hr.
  rewrite bool_decide_refl in Hr. simpl in Hr. by apply bool_decide_eq_true in Hr.
Qed.

(** ** Properties *)
(** C16. Once a session of an active device has been ended, by a kick, a revocation, a
    version bump, a logout or a new login, the tokens issued for it or before it are refused for
    ever: no later operations on devices make connecting, refreshing (by either way) or
    introspection accept them, and a refused connection leaves no session. *)
Theorem ended_sessions_never_return (token : string) (c : UnifiedTokenClaims) (t : device_table) (op : device_op) (ops : list device_op)
    (k : Z * uuid) (r : DeviceRow) (u : Z) :
  carries token c -> parse_u64 (tk_sub c) = Some u -> (exists id, uuid_parse_str (tk_device_id c) = Some id /\ k = (as_i64 u, id)) ->
  t !! k = Some r -> active r = true -> tk_session_version c <= dv_version r -> ends t op k ->
  refused_everywhere token (foldl run_device (run_device t op) ops).
Proof.
  intros Hc Hu (id & Hid & ->) Hr Ha Hv He. apply (shut_out_refused _ c); [done|]. intros f u' n Hu' Hok.
  destruct (ends_bumps t op _ r Hr Ha He) as (r1 & Hr1 & Hv1). destruct (devices_evolve ops _ _ _ Hr1) as (r2 & Hr2 & Hv2 & _).
  apply verify_valid in Hok as (id' & r' & Hid' & Hr' & _ & <- & Hle). simplify_eq. lia.
Qed.

(** A device that is frozen or waits for verification is refused everywhere,
    whatever version its tokens carry and however often it logs in again, until it is
    explicitly reactivated. *)
Theorem frozen_devices_stay_out (token : string) (c : UnifiedTokenClaims) (t : device_table) (ops : list device_op)
    (k : Z * uuid) (r : DeviceRow) (u : Z) :
  carries token c -> parse_u64 (tk_sub c) = Some u -> (exists id, uuid_parse_str (tk_device_id c) = Some id /\ k = (as_i64 u, id)) ->
  t !! k = Some r -> dv_state r = 2 \/ dv_state r = 4 -> Forall (fun op => ~ lifts op k) ops ->
  refused_everywhere token (foldl run_device t ops).
Proof.
  intros Hc Hu (id & Hid & ->) Hr Hs Hl. apply (shut_out_refused _ c); [done|]. intros f u' n Hu' Hok.
  destruct (devices_evolve ops _ _ _ Hr) as (r2 & Hr2 & _ & Hst). specialize (Hst Hs Hl).
  apply verify_valid in Hok as (id' & r' & Hid' & Hr' & Hz & _). simplify_eq. lia.
Qed.

(** C15. A request that passes the gate is for an anonymous route, or comes on a
    connection that presented an access token which verified, was not on the blacklist
    and belonged to a valid device session, and runs as the user of that token; with
    only the messaging scope it reaches only the routes of that scope. *)
Theorem requests_run_as_token_owner (s s' : session_table) (log : list Admission) (now sid : Z) (route : string) (who : option string) :
  rtc session_step (∅, []) (s, log) -> check_rpc_route now sid route s = (Ok who, s') ->
  (who = None /\ is_anonymous_rpc_route route = true) \/
  exists a c, a ∈ log /\ admitted sid c a /\ who = Some (tk_sub c) /\
    (tk_scope c <> [] -> (forall x, x ∈ tk_scope c -> x = SCOPE_MESSAGING) -> route ∈ MESSAGING_ROUTES).
Proof.
  intros Hok%reachable_sessions_ok. unfold check_rpc_route. destruct (is_anonymous_rpc_route route); [intros [= <- _]; by left|].
  unfold check_session. destruct (s !! sid) as [info|] eqn:Ei; [|done]. destruct (allows_rpc_route _ route) eqn:Er; [|done].
  intros [= <- _]. right. destruct (Hok _ _ Ei) as (-> & _ & a & Hin & Had). exists a, (si_claims info).
  repeat split; try done; try apply Had. intros Hne Hall. by apply (messaging_routes_only _ _ Hne Hall).
Qed.

(** The service refresh returns an access token for the same user, device,
    audience and scope as the refresh token it was given, at the current version of
    the device session; it succeeds only while the record of the token is present,
    neither revoked nor expired, and the session is valid. *)
Theorem refresh_keeps_rights (env : TokenEnv) (token dev : string) (devices : device_table) (records records' : refresh_table)
    (out : IssueResult) :
  refresh cfg env token dev devices records = (Ok out, records') ->
  exists c rec p access, verify cfg (te_now env) token TOKEN_TYPE_REFRESH = Ok c /\ records !! tk_jti c = Some rec /\
    is_revoked_record rec = false /\ is_expired rec (te_now_ms env) = false /\ rf_token_hash rec = hash_refresh_token token /\
    issue_access cfg (te_now env) (te_access_jti env) p = Ok access /\ is_access_token out = it_token access /\
    parse_u64 (tk_sub c) = Some (ic_user_id p) /\ ic_device_id p = tk_device_id c /\ tk_device_id c = dev /\
    ic_scope p = tk_scope c /\ ic_audience p = tk_aud c /\ ic_session_version p <= tk_session_version c /\
    verify_device_session (te_device env) devices (ic_user_id p) dev (tk_session_version c) = Ok (Valid (ic_session_version p)).
Proof.
  unfold refresh, refresh_checks. destruct (verify cfg (te_now env) token TOKEN_TYPE_REFRESH) as [c|[]] eqn:E; try done. simpl.
  case_decide as Hd; [done|]. unfold find_by_jti. destruct (te_find env); [|done]. simpl.
  destruct (records !! tk_jti c) as [rec|] eqn:Er; [|done]. simpl. case_decide as Hh; [done|].
  destruct (is_revoked_record rec) eqn:Ev; [done|]. destruct (is_expired rec (te_now_ms env)) eqn:Ex; [done|].
  destruct (parse_u64 (tk_sub c)) as [u|] eqn:Eu; [|done]. simpl.
  destruct (verify_device_session (te_device env) devices u (tk_device_id c) (tk_session_version c)) as [[n| | |]|] eqn:Es; try done.
  destruct (issue_access cfg _ _ _) as [access|] eqn:Ea; [|done]. destruct (touch_last_used _ _ _ _) as [[w|] records2]; [|done].
  intros [= <- _]. pose proof (verify_valid _ _ _ _ _ _ Es) as (id & r & _ & _ & _ & _ & Hle).
  eexists c, rec, _, access. subst dev. repeat split; try done.
Qed.
End AuthFacts.

(** ** Concrete executions

    One user, one device; tokens name their type, version and scope. *)
Definition auth_uuid : UuidCrate := {|
  uuid := string; uuid_eq_dec := _; uuid_countable := _;
  uuid_parse_str := fun s => if decide (s = ""%string) then None else Some s; uuid_to_string := fun s => s
|}.
#[local] Existing Instance auth_uuid.
Definition auth_text (typ : string) (version : Z) (scope : list string) : string :=
  typ +:+ "/" +:+ u64_to_string version +:+ "/" +:+ default ""%string (head scope).
Definition auth_claims (typ : string) (version : Z) (scope : string) : UnifiedTokenClaims :=
  mkClaims "privchat" "1" ["im"%string] 0 100 "j" typ "dev" version [scope] "app" "ios".
Definition auth_known : list UnifiedTokenClaims :=
  typ ← ["access"; "refresh"]%string; v ← [1; 2; 3]; scope ← ["user"; "messaging"]%string; [auth_claims typ v scope].
Definition auth_decode (token : string) : option UnifiedTokenClaims :=
  head (filter (fun c => auth_text (tk_type c) (tk_session_version c) (tk_scope c) = token) auth_known).
Definition auth_jwt : JwtCrate := {|
  jwt_encode := fun _ _ c => Ok (auth_text (tk_type c) (tk_session_version c) (tk_scope c));
  jwt_decode_header := fun _ => Some (Hs256, None);
  jwt_decode := fun _ _ t => ok_or (auth_decode t) OtherKind;
  sha256_hex := fun s => s
|}.
#[local] Existing Instance auth_jwt.
Definition auth_names : WireNames := {|
  MessageType := nat; message_type_eq_dec := Nat.eq_dec; AuthorizationRequest := 1%nat; DisconnectRequest := 2%nat;
  SendMessageRequest := 3%nat; PingRequest := 4%nat; RpcRequest := 5%nat;
  message_history_GET := "message/history/get"; message_history_AROUND := "message/history/around";
  message_status_READ_PTS := "message/status/read_pts"; message_status_COUNT := "message/status/count";
  message_status_READ_LIST := "message/status/read_list"; message_status_READ_STATS := "message/status/read_stats";
  message_REVOKE := "message/revoke"; message_reaction_ADD := "message/reaction/add"; message_reaction_REMOVE := "message/reaction/remove";
  message_reaction_LIST := "message/reaction/list"; message_reaction_STATS := "message/reaction/stats"; sync_SUBMIT := "sync/submit";
  sync_GET_DIFFERENCE := "sync/get_difference"; sync_GET_CHANNEL_PTS := "sync/get_channel_pts";
  sync_BATCH_GET_CHANNEL_PTS := "sync/batch_get_channel_pts"; sync_SESSION_READY := "sync/session_ready";
  entity_SYNC_ENTITIES := "entity/sync_entities"; file_REQUEST_UPLOAD_TOKEN := "file/request_upload_token";
  file_UPLOAD_CALLBACK := "file/upload_callback"; file_GET_URL := "file/get_url"; channel_PIN := "channel/pin"; channel_HIDE := "channel/hide";
  channel_MUTE := "channel/mute"; presence_TYPING := "presence/typing"; presence_STATUS_GET := "presence/status/get";
  account_profile_GET := "account/profile/get"; account_profile_UPDATE := "account/profile/update";
  account_user_DETAIL := "account/user/detail"; auth_LOGOUT := "account/auth/logout"; auth_REFRESH := "account/auth/refresh";
  device_PUSH_UPDATE := "device/push/update"; device_PUSH_STATUS := "device/push/status"
|}.
#[local] Existing Instance auth_names.

Definition auth_cfg : JwtConfig := mkJwtConfig Hs256 "k" "privchat" ["im"%string] 100 1000.
Definition auth_row (version state : Z) : DeviceRow :=
  mkDevice "ios" None None None None None 0 0 version state None None None None.
Definition auth_devices (version state : Z) : device_table := {[ (1, "dev"%string) := auth_row version state ]}.
Definition auth_kick : device_op := DoKick Done 5 1 "dev" None "user_requested".
Definition auth_login : device_op :=
  DoRegister Done 6 (mkDeviceReq "dev" 1 (mkDeviceInfo "ios" "phone" "x" "y" "z") IOS "127.0.0.1").

Lemma auth_carries token c : auth_decode token = Some c -> carries token c.
Proof. intros H now v c' Hd. simpl in Hd. rewrite H in Hd. by injection Hd. Qed.

Lemma ended_sessions_never_return_witness :
  is_ok (handle_refresh auth_cfg true 3 Done "j2" "refresh/1/user" "dev" (auth_devices 1 0)) = true /\
  refused_everywhere auth_cfg "refresh/1/user" (foldl run_device (run_device (auth_devices 1 0) auth_kick) [auth_login]).
Proof.
  split; [vm_compute; reflexivity|].
  apply (ended_sessions_never_return auth_cfg "refresh/1/user" (auth_claims "refresh" 1 "user") (auth_devices 1 0) auth_kick [auth_login]
    (1, "dev"%string) (auth_row 1 0) 1).
  - apply auth_carries. vm_compute. reflexivity.
  - vm_compute. reflexivity.
  - exists "dev"%string. split; vm_compute; reflexivity.
  - apply lookup_singleton_eq.
  - reflexivity.
  - simpl. lia.
  - split; [vm_compute; reflexivity|]. exists "dev"%string. split; vm_compute; reflexivity.
Defined.

Lemma frozen_devices_stay_out_witness :
  refused_everywhere auth_cfg "access/2/user" (foldl run_device (auth_devices 1 2) [auth_login; auth_login]).
Proof.
  apply (frozen_devices_stay_out auth_cfg "access/2/user" (auth_claims "access" 2 "user") (auth_devices 1 2) [auth_login; auth_login]
    (1, "dev"%string) (auth_row 1 2) 1).
  - apply auth_carries. vm_compute. reflexivity.
  - vm_compute. reflexivity.
  - exists "dev"%string. split; vm_compute; reflexivity.
  - apply lookup_singleton_eq.
  - by left.
  - repeat constructor; intros [].
Defined.

Definition auth_connected := authenticate auth_cfg 3 3 Done "access/1/messaging" "dev" 7 ∅ (auth_devices 1 0) ∅.
Lemma requests_run_as_token_owner_witness :
  (check_rpc_route 4 7 "sync/submit" auth_connected.2).1 = Ok (Some "1"%string) /\
  (check_rpc_route 4 7 "group/create" auth_connected.2).1 = Err CodePermissionDenied /\
  exists a c, a ∈ [mkAdmission 7 3 "access/1/messaging" ∅ (auth_devices 1 0) Done] /\ admitted auth_cfg 7 c a.
Proof.
  split; [vm_compute; reflexivity|]. split; [vm_compute; reflexivity|].
  assert (authenticate auth_cfg 3 3 Done "access/1/messaging" "dev" 7 ∅ (auth_devices 1 0) ∅ = (Ok (ConnectOk 1), auth_connected.2)) as Ha
    by (vm_compute; reflexivity).
  destruct (requests_run_as_token_owner auth_cfg auth_connected.2 (check_rpc_route 4 7 "sync/submit" auth_connected.2).2
    [mkAdmission 7 3 "access/1/messaging" ∅ (auth_devices 1 0) Done] 4 7 "sync/submit" (Some "1"%string)) as [[H _]|(a & c & Hin & Had & _)].
  - apply rtc_once. exact (SS_connect auth_cfg 3 3 Done "access/1/messaging" "dev" 7 ∅ (auth_devices 1 0) ∅ [] _ _ Ha).
  - vm_compute. reflexivity.
  - discriminate H.
  - exists a, c. split; [exact Hin|exact Had].
Defined.

Definition auth_env : TokenEnv := mkTokenEnv 3 3000 "new"%string "a1" "r1" Done Done Done.
Definition auth_records : refresh_table := {[ "j"%string := mkRefresh 1 "dev" "refresh/1/messaging" 1 9000 None None 0 None ]}.
Lemma refresh_keeps_rights_witness :
  exists out records', refresh auth_cfg auth_env "refresh/1/messaging" "dev" (auth_devices 1 0) auth_records = (Ok out, records') /\
    is_access_token out = "access/1/messaging"%string /\ exists c, tk_scope c = ["messaging"%string] /\ tk_device_id c = "dev"%string.
Proof.
  destruct (refresh auth_cfg auth_env "refresh/1/messaging" "dev" (auth_devices 1 0) auth_records) as [[out|e] records'] eqn:E;
    [|vm_compute in E; discriminate E].
  exists out, records'. split; [reflexivity|]. split; [vm_compute in E; injection E as <- _; reflexivity|].
  destruct (refresh_keeps_rights auth_cfg auth_env "refresh/1/messaging" "dev" (auth_devices 1 0) auth_records records' out E)
    as (c & rec & p & access & Hv & _ & _ & _ & _ & _ & _ & _ & _ & Hd & _). exists c. split; [|exact Hd].
  vm_compute in Hv. injection Hv as <-. reflexivity.
Defined.

(** The refresh RPC, in contrast, issues the default scope: a token that was limited to
    messaging is exchanged for one with full access. *)
Example refresh_rpc_widens_scope :
  handle_refresh auth_cfg true 3 Done "j2" "refresh/1/messaging" "dev" (auth_devices 1 0) = Ok "access/1/user"%string /\
  (tk_scope <$> auth_decode "access/1/user") = Some ["user"%string].
Proof. split; vm_compute; reflexivity. Qed.

(** Nor does it look at the record: a refresh token that was revoked by its id still works. *)
Example refresh_rpc_ignores_revocation :
  let records := (revoke auth_env (ByJti "j") auth_records).2 in
  is_ok (refresh auth_cfg auth_env "refresh/1/messaging" "dev" (auth_devices 1 0) records).1 = false /\
  is_ok (handle_refresh auth_cfg true 3 Done "j2" "refresh/1/messaging" "dev" (auth_devices 1 0)) = true.
Proof. split; vm_compute; reflexivity. Qed.

(** The login RPC does not lift a kick, although a new login is meant to: the token it
    returns is refused. *)
Definition auth_login_env : LoginEnv :=
  mkLoginEnv true (fun s => s) (fun _ => Ok (Some (1, Some "h"%string))) (fun _ => Ok None) (fun _ _ => Ok true) 8 8000 "a" "r" Done Done.
Definition auth_relogin :=
  handle_login auth_cfg auth_login_env (mkLogin "alice" "pw" "dev" None) (run_device (auth_devices 1 0) auth_kick).
Example login_keeps_device_kicked :
  auth_relogin.1 = Ok ("access/2/user", "refresh/2/user")%string /\
  (authenticate auth_cfg 9 9 Done "access/2/user" "dev" 7 ∅ auth_relogin.2 ∅).1 = Ok (Refused "SessionExpired" (to_error_message Kicked)).
Proof. split; vm_compute; reflexivity. Qed.

(** Registering the device again lifts it. *)
Example issue_revives_kicked_device :
  let devices := run_device (run_device (auth_devices 1 0) auth_kick) auth_login in
  (authenticate auth_cfg 9 9 Done "access/3/user" "dev" 7 ∅ devices ∅).1 = Ok (ConnectOk 1).
Proof. vm_compute. reflexivity. Qed.
