(* ===== verification/Group.v ===== *)
(** * The channel service: groups, members and direct channels

    Models src/src/repository/channel_repo.rs and the operations of
    src/src/service/channel_service.rs that create channels and change who belongs
    to them, over the tables they share ([GroupDb]) and the in-memory maps of the
    service ([ChannelService]).

    A transaction is one step. [f i] is the fault of the [i]-th statement of an
    operation, and [io_applied f i] says that this statement, or COMMIT, took effect
    although it failed. The clock readings of one operation are one argument. The foreign keys
    and the range of [integer] are checked; the columns updated_at, sync_version and
    membership_version are kept by triggers and are left out, so a read takes the
    sync_version it finds from the environment. Tables are keyed by [i64] columns,
    the maps of the service by [u64] ids. *)

From stdpp Require Import base numbers gmap list sorting strings.
From S2P Require Import Prelude Channel Timeline.
Local Open Scope Z_scope.

Record Io := mkIo { io_fail : nat -> option string; io_applied : nat -> bool }.
Coercion io_fail : Io >-> Funclass.
Definition no_io : Io := mkIo (fun _ => None) (fun _ => false).
Definition io_from (n : nat) (f : Io) : Io := mkIo (fun i => f (n + i)%nat) (fun i => io_applied f (n + i)).

(** The permissions column is JSON; serde reads it. *)
Class PermissionColumn := {
  PermJson : Type;
  permissions_of_json : PermJson -> option MemberPermissions;
  empty_object : PermJson
}.

(** ** Tables *)
Record GroupRow := mkGroup {
  g_name : string; g_description : option string; g_avatar_url : option string;
  g_owner_id : Z; g_member_count : Z; g_created_at : Z; g_qr_key : string; g_policy : GroupPolicy
}.
Record GroupMemberRow := mkGroupMember {
  gm_role : Z; gm_nickname : option string; gm_mute_until : option Z; gm_joined_at : Z; gm_left_at : option Z
}.
Record ChannelRow := mkChannelRow {
  ch_type : Z; ch_user1 : option Z; ch_user2 : option Z; ch_group : option Z; ch_last_message_id : option Z;
  ch_last_message_at : option Z; ch_message_count : Z; ch_created_at : Z; ch_updated_at : Z
}.
Record MembershipInterval := mkMembership { ms_channel : Z; ms_user : Z; ms_joined_pts : Z; ms_left_pts : option Z }.
Record UserChannelRow := mkUserChannel { uc_pinned : bool; uc_muted : bool; uc_hidden : bool }.

Section Tables.
Context `{Pj : PermissionColumn}.
Record ParticipantRow := mkParticipantRow {
  pt_role : Z; pt_nickname : option string; pt_permissions : option PermJson; pt_mute_until : option Z;
  pt_joined_at : Z; pt_left_at : option Z
}.
Record GroupDb := mkGroupDb {
  d_groups : gmap Z GroupRow;
  d_members : gmap (Z * Z) GroupMemberRow;
  d_channels : gmap Z ChannelRow;
  d_participants : gmap (Z * Z) ParticipantRow;
  d_intervals : list MembershipInterval;
  d_user_channels : gmap (Z * Z) UserChannelRow;
  d_users : gset Z;
  d_pts : gmap Z Z
}.
End Tables.

Section GroupTables.
Context `{Pj : PermissionColumn, Pg : Postgres, Ch : Chrono}.

Definition set_groups (d : GroupDb) x := mkGroupDb x (d_members d) (d_channels d) (d_participants d) (d_intervals d)
  (d_user_channels d) (d_users d) (d_pts d).
Definition set_members (d : GroupDb) x := mkGroupDb (d_groups d) x (d_channels d) (d_participants d) (d_intervals d)
  (d_user_channels d) (d_users d) (d_pts d).
Definition set_channels (d : GroupDb) x := mkGroupDb (d_groups d) (d_members d) x (d_participants d) (d_intervals d)
  (d_user_channels d) (d_users d) (d_pts d).
Definition set_participants (d : GroupDb) x := mkGroupDb (d_groups d) (d_members d) (d_channels d) x (d_intervals d)
  (d_user_channels d) (d_users d) (d_pts d).
Definition set_intervals (d : GroupDb) x := mkGroupDb (d_groups d) (d_members d) (d_channels d) (d_participants d) x
  (d_user_channels d) (d_users d) (d_pts d).
Definition set_user_channels (d : GroupDb) x := mkGroupDb (d_groups d) (d_members d) (d_channels d) (d_participants d)
  (d_intervals d) x (d_users d) (d_pts d).

Definition with_owner (r : GroupRow) (o : Z) : GroupRow :=
  mkGroup (g_name r) (g_description r) (g_avatar_url r) o (g_member_count r) (g_created_at r) (g_qr_key r) (g_policy r).
Definition with_count (r : GroupRow) (n : Z) : GroupRow :=
  mkGroup (g_name r) (g_description r) (g_avatar_url r) (g_owner_id r) n (g_created_at r) (g_qr_key r) (g_policy r).
Definition with_gm_role (r : GroupMemberRow) (x : Z) : GroupMemberRow :=
  mkGroupMember x (gm_nickname r) (gm_mute_until r) (gm_joined_at r) (gm_left_at r).
Definition with_gm_mute (r : GroupMemberRow) (x : option Z) : GroupMemberRow :=
  mkGroupMember (gm_role r) (gm_nickname r) x (gm_joined_at r) (gm_left_at r).

(** left_at IS NULL. *)
Definition in_group (r : GroupMemberRow) : bool := match gm_left_at r with None => true | Some _ => false end.
Definition active_members (d : GroupDb) (gid : Z) : gmap (Z * Z) GroupMemberRow :=
  filter (fun p => p.1.1 = gid /\ in_group p.2 = true) (d_members d).
Definition active_member (d : GroupDb) (gid uid : Z) : option GroupMemberRow :=
  r ← d_members d !! (gid, uid); if in_group r then Some r else None.

Definition violates (c : string) : result (GroupDb) string := Err (pg_message (ForeignKeyViolation c)).

(** A statement: what the database makes of it, after its possible fault. *)
Definition statement {A} (f : Io) (i : nat) (prefix : string) (r : result A string) : result A ServerError :=
  exec? f i else prefix in match r with Ok a => Ok a | Err e => Err (Database (prefix +:+ e)) end.

(** COMMIT of a transaction, or a statement on its own. *)
Definition commit_tx {A} (f : Io) (i : nat) (prefix : string) (d : GroupDb) (body : result (A * GroupDb) ServerError)
    : result A ServerError * GroupDb :=
  match body with
  | Err e => (Err e, d)
  | Ok (a, d') =>
      match f i with
      | Some e => (Err (Database (prefix +:+ e)), if io_applied f i then d' else d)
      | None => (Ok a, d')
      end
  end.
Definition single {A} (f : Io) (i : nat) (prefix : string) (d : GroupDb) (r : result (A * GroupDb) string)
    : result A ServerError * GroupDb :=
  match r with
  | Err e => (Err (Database (prefix +:+ match f i with Some e' => e' | None => e end)), d)
  | Ok p => commit_tx f i prefix d (Ok p)
  end.

(** ** Members inside a transaction *)
Definition member_upserted (role : MemberRole) (now_ms : Z) (old : option GroupMemberRow) : GroupMemberRow :=
  match old with
  | None => mkGroupMember (member_role_to_i16 role) None None now_ms None
  | Some r => mkGroupMember (member_role_to_i16 role) (gm_nickname r) (gm_mute_until r)
                (match gm_left_at r with Some _ => now_ms | None => gm_joined_at r end) None
  end.
Definition upsert_one_member_in_tx (f : Io) (i : nat) (gid uid : Z) (role : MemberRole) (now_ms : Z) (d : GroupDb)
    : result GroupDb ServerError :=
  statement f i "插入/复活群成员失败: "
    (let k := (as_i64 gid, as_i64 uid) in
     match d_groups d !! k.1 with
     | None => violates "privchat_group_members_group_id_fkey"
     | Some _ =>
         if decide (k.2 ∈ d_users d)
         then Ok (set_members d (<[k := member_upserted role now_ms (d_members d !! k)]> (d_members d)))
         else violates "privchat_group_members_user_id_fkey"
     end).

Definition close_intervals (d : GroupDb) (gid uid : Z) : list MembershipInterval :=
  (fun m => if bool_decide (ms_channel m = gid /\ ms_user m = uid /\ ms_left_pts m = None)
            then mkMembership gid uid (ms_joined_pts m) (Some (default 0 (d_pts d !! gid))) else m) <$> d_intervals d.
Definition mark_one_member_left_in_tx (f : Io) (i : nat) (gid uid now_ms : Z) (d : GroupDb)
    : result (bool * GroupDb) ServerError :=
  let g := as_i64 gid in let u := as_i64 uid in
  exec? f i else "标记群成员离开失败: " in
  match active_member d g u with
  | None => Ok (false, d)
  | Some r =>
      let d1 := set_members d (<[(g, u) := mkGroupMember (gm_role r) (gm_nickname r) (gm_mute_until r) (gm_joined_at r) (Some now_ms)]>
                                 (d_members d)) in
      exec? f (S i) else "关闭成员区间失败: " in
      Ok (true, set_intervals d1 (close_intervals d1 g u))
  end.

Definition recompute_group_member_count_in_tx (f : Io) (i : nat) (gid : Z) (d : GroupDb) : result GroupDb ServerError :=
  statement f i "重算群成员数失败: "
    (let n := Z.of_nat (size (active_members d (as_i64 gid))) in
     if n <? 2 ^ 31 then Ok (set_groups d (alter (fun r => with_count r n) (as_i64 gid) (d_groups d)))
     else Err "integer out of range"%string).

(** The loop over the further members, with the set of those seen. *)
Fixpoint upsert_extra (f : Io) (i : nat) (gid now_ms : Z) (seen : gset Z) (uids : list Z) (d : GroupDb)
    : result (nat * GroupDb) ServerError :=
  match uids with
  | [] => Ok (i, d)
  | u :: rest =>
      if decide (u ∈ seen) then upsert_extra f i gid now_ms seen rest d
      else let? d' := upsert_one_member_in_tx f i gid u Member now_ms d in
           upsert_extra f (S i) gid now_ms ({[u]} ∪ seen) rest d'
  end.
Definition upsert_group_members_in_tx (f : Io) (i : nat) (gid owner : Z) (extra : list Z) (now_ms : Z) (d : GroupDb)
    : result GroupDb ServerError :=
  let? d1 := upsert_one_member_in_tx f i gid owner Owner now_ms d in
  let? p := upsert_extra f (S i) gid now_ms {[owner]} extra d1 in
  recompute_group_member_count_in_tx f p.1 gid p.2.
End GroupTables.

(** ** The repository *)
Section Repository.
Context `{Pj : PermissionColumn, Pg : Postgres, Ch : Chrono}.

Definition channel_of_row (now sync cid : Z) (r : ChannelRow) : Channel :=
  channel_from_db_row from_timestamp_millis now cid (ch_type r) (ch_user1 r) (ch_user2 r) (ch_group r)
    (ch_last_message_id r) (ch_last_message_at r) (ch_message_count r) (ch_created_at r) (ch_updated_at r) sync.
Definition find_by_id (f : Io) (i : nat) (now sync : Z) (d : GroupDb) (cid : Z) : result (option Channel) ServerError :=
  exec? f i else "Failed to query channel: " in
  Ok (channel_of_row now sync (as_i64 cid) <$> d_channels d !! as_i64 cid).

Definition row_of_channel (c : Channel) : ChannelRow :=
  let '(_, ty, u1, u2, g, mid, mat, count, created, updated) := channel_to_db_values timestamp_millis c in
  mkChannelRow ty u1 u2 g mid mat count created updated.

(** The foreign keys of a channel row. *)
Definition channel_refs_ok (d : GroupDb) (r : ChannelRow) : result unit string :=
  let user_ok o := match o with Some u => bool_decide (u ∈ d_users d) | None => true end in
  if negb (user_ok (ch_user1 r)) then Err (pg_message (ForeignKeyViolation "privchat_channels_direct_user1_id_fkey"))
  else if negb (user_ok (ch_user2 r)) then Err (pg_message (ForeignKeyViolation "privchat_channels_direct_user2_id_fkey"))
  else match ch_group r with
       | Some g => match d_groups d !! g with
                   | Some _ => Ok tt
                   | None => Err (pg_message (ForeignKeyViolation "privchat_channels_group_id_fkey"))
                   end
       | None => Ok tt
       end.

(** [create]. [fresh] is the next value of the sequence, for a channel without id. *)
Definition create (f : Io) (i : nat) (now sync fresh : Z) (d : GroupDb) (c : Channel) : result Channel ServerError * GroupDb :=
  let row := row_of_channel c in
  let key := as_i64 (id c) in
  let read (d' : GroupDb) (k : Z) :=
    match find_by_id f (i + 1) now sync d' (as_u64 k) with
    | Err e => Err e
    | Ok None => Err (NotFound "Channel not found after creation")
    | Ok (Some ch) => Ok ch
    end in
  let insert_at k :=
    match single f i "Failed to create channel: " d
            (match channel_refs_ok d row with Err e => Err e | Ok _ => Ok (tt, set_channels d (<[k := row]> (d_channels d))) end) with
    | (Err e, d') => (Err e, d')
    | (Ok _, d') => (read d' k, d')
    end in
  if key =? 0 then
    match d_channels d !! fresh with
    | Some _ => (Err (Database ("Failed to create channel: " +:+ pg_message (UniqueViolation "privchat_channels_pkey"))), d)
    | None => insert_at fresh
    end
  else
    match d_channels d !! key with
    | None => insert_at key
    | Some _ =>
        match f i with
        | Some e => (Err (Database ("Failed to create channel: " +:+ e)), d)
        | None =>
            (match find_by_id f (i + 1) now sync d (id c) with
             | Err e => Err e
             | Ok (Some ch) =>
                 if bool_decide (channel_type ch = channel_type c) && bool_decide (group_id ch = group_id c) then Ok ch
                 else Err (Database ("channel_id " +:+ i64_to_string key +:+ " already taken by another conversation"))
             | Ok None => Err (Database ("channel_id " +:+ i64_to_string key +:+ " already taken by another conversation"))
             end, d)
        end
    end.

(** The row of a pair of users, in either order; the first in the order of the table. *)
Definition is_direct (a b : Z) (r : ChannelRow) : bool :=
  (ch_type r =? 0) && (bool_decide (ch_user1 r = Some a /\ ch_user2 r = Some b) || bool_decide (ch_user1 r = Some b /\ ch_user2 r = Some a)).
Definition direct_channel (d : GroupDb) (a b : Z) : option Z :=
  head (filter (fun p => is_direct a b p.2 = true) (map_to_list (d_channels d))).*1.

Definition participant_row (role now_ms : Z) : ParticipantRow := mkParticipantRow role None (Some empty_object) None now_ms None.
(** ON CONFLICT DO NOTHING. *)
Definition add_missing_participant (d : GroupDb) (now_ms cid uid : Z) : GroupDb :=
  match d_participants d !! (cid, uid) with
  | Some _ => d
  | None => set_participants d (<[(cid, uid) := participant_row 2 now_ms]> (d_participants d))
  end.

(** [create_or_get_direct_channel]: the pair ordered, under an advisory lock. *)
Definition create_direct_in_tx (f : Io) (now_ms fresh u1 u2 : Z) (d : GroupDb) : result ((Z * bool) * GroupDb) ServerError :=
  let '(lo, hi) := if u1 <=? u2 then (as_i64 u1, as_i64 u2) else (as_i64 u2, as_i64 u1) in
  exec? f 0%nat else "Failed to begin tx: " in
  exec? f 1%nat else "Failed to acquire direct-channel lock: " in
  exec? f 2%nat else "Failed to query existing channel: " in
  match direct_channel d lo hi with
  | Some c => Ok ((c, false), d)
  | None =>
      let row := mkChannelRow 0 (Some lo) (Some hi) None None None 0 now_ms now_ms in
      let? _ := statement f 3 "Failed to create channel: "
                  (match d_channels d !! fresh with
                   | Some _ => Ok tt
                   | None => channel_refs_ok d row
                   end) in
      match d_channels d !! fresh with
      | Some _ => exec? f 7%nat else "Failed to re-query channel after conflict: " in
          Err (Database "INSERT returned no row but no existing direct channel found")
      | None =>
          exec? f 4%nat else "Failed to create participants: " in
          Ok ((fresh, true),
              add_missing_participant
                (add_missing_participant (set_channels d (<[fresh := row]> (d_channels d))) now_ms fresh (as_i64 u1))
                now_ms fresh (as_i64 u2))
      end
  end.
Definition create_or_get_direct_channel (f : Io) (now sync fresh u1 u2 : Z) (d : GroupDb)
    : result (Channel * bool) ServerError * GroupDb :=
  match commit_tx f 5 "Failed to commit tx: " d (create_direct_in_tx f (timestamp_millis now) fresh u1 u2 d) with
  | (Err e, d') => (Err e, d')
  | (Ok (c, created), d') =>
      (match find_by_id f 6 now sync d' (as_u64 c) with
       | Err e => Err e
       | Ok None => Err (NotFound (if created : bool then "Channel not found after creation" else "Channel not found"))
       | Ok (Some ch) => Ok (ch, created)
       end, d')
  end.

Definition create_group_channel (f : Io) (now sync fresh gid : Z) (d : GroupDb) : result Channel ServerError * GroupDb :=
  let read (d' : GroupDb) (c : Z) (missing : string) :=
    match find_by_id f 2 now sync d' (as_u64 c) with
    | Err e => Err e | Ok None => Err (NotFound missing) | Ok (Some ch) => Ok ch end in
  match f 0%nat with
  | Some e => (Err (Database ("Failed to query existing group channel: " +:+ e)), d)
  | None =>
      match head (filter (fun p : Z * ChannelRow => ch_group p.2 = Some (as_i64 gid) /\ ch_type p.2 = 1) (map_to_list (d_channels d))).*1 with
      | Some c => (read d c "Channel not found", d)
      | None =>
          let row := mkChannelRow 1 None None (Some (as_i64 gid)) None None 0 (timestamp_millis now) (timestamp_millis now) in
          match single f 1 "Failed to create group channel: " d
                  (match channel_refs_ok d row with
                   | Err e => Err e
                   | Ok _ => match d_channels d !! fresh with
                             | Some _ => Err (pg_message (UniqueViolation "privchat_channels_pkey"))
                             | None => Ok (tt, set_channels d (<[fresh := row]> (d_channels d)))
                             end
                   end) with
          | (Err e, d') => (Err e, d')
          | (Ok _, d') => (read d' fresh "Channel not found after creation", d')
          end
      end
  end.

Definition update_channel (f : Io) (i : nat) (d : GroupDb) (c : Channel) : result Channel ServerError * GroupDb :=
  let key := as_i64 (id c) in
  match d_channels d !! key with
  | None => (exec? f i else "Failed to update channel: " in Err (NotFound "Channel not found"), d)
  | Some old =>
      let r := row_of_channel c in
      let row := mkChannelRow (ch_type r) (ch_user1 r) (ch_user2 r) (ch_group r) (ch_last_message_id r) (ch_last_message_at r)
                   (ch_message_count r) (ch_created_at old) (ch_updated_at r) in
      single f i "Failed to update channel: " d
        (match channel_refs_ok d row with Err e => Err e | Ok _ => Ok (c, set_channels d (<[key := row]> (d_channels d))) end)
  end.

(** DELETE, with the rows that refer to the channel ON DELETE CASCADE. *)
Definition drop_channels (p : Z -> bool) (d : GroupDb) : GroupDb :=
  set_user_channels
    (set_participants (set_channels d (filter (fun q => p q.1 = false) (d_channels d)))
       (filter (fun q => p q.1.1 = false) (d_participants d)))
    (filter (fun q => p q.1.2 = false) (d_user_channels d)).
Definition delete_channel (f : Io) (i : nat) (d : GroupDb) (cid : Z) : result unit ServerError * GroupDb :=
  match d_channels d !! as_i64 cid with
  | None => (exec? f i else "Failed to delete channel: " in Err (NotFound "Channel not found"), d)
  | Some _ => single f i "Failed to delete channel: " d (Ok (tt, drop_channels (fun c => c =? as_i64 cid) d))
  end.

Definition joined_le (a b : (Z * Z) * ParticipantRow) : Prop := pt_joined_at a.2 <= pt_joined_at b.2.
#[export] Instance joined_le_dec a b : Decision (joined_le a b).
Proof. unfold joined_le. apply _. Defined.
Definition get_participants (f : Io) (i : nat) (now : Z) (d : GroupDb) (cid : Z) : result (list ChannelParticipant) ServerError :=
  exec? f i else "Failed to query participants: " in
  Ok ((fun p : (Z * Z) * ParticipantRow =>
         participant_from_db_row permissions_of_json from_timestamp_millis now p.1.1 p.1.2 (pt_role p.2) (pt_nickname p.2)
           (default empty_object (pt_permissions p.2)) (pt_mute_until p.2) (pt_joined_at p.2) (pt_left_at p.2)) <$>
      merge_sort joined_le (filter (fun p => p.1.1 = as_i64 cid /\ pt_left_at p.2 = None) (map_to_list (d_participants d)))).

Definition list_channel_ids_by_user (f : Io) (i : nat) (d : GroupDb) (uid : Z) : result (list Z) ServerError :=
  exec? f i else "Failed to list channel ids by user: " in
  Ok (as_u64 <$> merge_sort Z.le
        (remove_dups ((filter (fun p : (Z * Z) * ParticipantRow => p.1.2 = as_i64 uid /\ pt_left_at p.2 = None) (map_to_list (d_participants d))).*1.*1))).

(** [add_participant]: the row, then an open interval if there is none. *)
Definition participant_upserted (role : MemberRole) (now_ms : Z) (old : option ParticipantRow) : ParticipantRow :=
  match old with
  | None => participant_row (member_role_to_i16 role) now_ms
  | Some r => mkParticipantRow (member_role_to_i16 role) (pt_nickname r) (pt_permissions r) (pt_mute_until r) (pt_joined_at r) None
  end.
Definition open_interval (d : GroupDb) (cid uid : Z) : GroupDb :=
  if existsb (fun m => bool_decide (ms_channel m = cid /\ ms_user m = uid /\ ms_left_pts m = None)) (d_intervals d) then d
  else set_intervals d (d_intervals d ++ [mkMembership cid uid (default 0 (d_pts d !! cid)) None]).
Definition add_participant (f : Io) (i : nat) (now : Z) (d : GroupDb) (cid uid : Z) (role : MemberRole)
    : result unit ServerError * GroupDb :=
  let k := (as_i64 cid, as_i64 uid) in
  match single f i "Failed to add participant: " d
          (match d_channels d !! k.1 with
           | None => Err (pg_message (ForeignKeyViolation "privchat_channel_participants_channel_id_fkey"))
           | Some _ =>
               if decide (k.2 ∈ d_users d)
               then Ok (tt, set_participants d (<[k := participant_upserted role (timestamp_millis now) (d_participants d !! k)]> (d_participants d)))
               else Err (pg_message (ForeignKeyViolation "privchat_channel_participants_user_id_fkey"))
           end) with
  | (Err e, d') => (Err e, d')
  | (Ok _, d') => single f (i + 1) "Failed to open membership interval: " d' (Ok (tt, open_interval d' k.1 k.2))
  end.
End Repository.
