(* ===== verification/GroupService.v ===== *)
(** * The channel service: operations

    Models the operations of src/src/service/channel_service.rs over the tables of
    [Group] and the service's own maps: loading a channel, creating groups and direct
    channels, joining, leaving, roles, mutes, the transfer of a group, and the
    administrator's variants. *)

From stdpp Require Import base numbers gmap list sorting strings.
From S2P Require Import Prelude Channel Timeline Group.
Local Open Scope Z_scope.

Record ChannelServiceConfig := mkConfig {
  max_channels_per_user : nat; max_group_members : nat; allow_public_groups : bool
}.
Definition config_default : ChannelServiceConfig := mkConfig 1000 500 true.

Record ChannelService := mkService {
  cs_channels : gmap Z Channel;
  cs_user_channels : gmap Z (list Z);
  cs_direct_index : gmap (Z * Z) Z;
  cs_pinned : gset (Z * Z);
  cs_muted : gset (Z * Z);
  cs_hidden : gset (Z * Z)
}.
Definition service_new : ChannelService := mkService ∅ ∅ ∅ ∅ ∅ ∅.
Definition set_cached (v : ChannelService) x := mkService x (cs_user_channels v) (cs_direct_index v) (cs_pinned v) (cs_muted v) (cs_hidden v).
Definition set_user_index (v : ChannelService) x := mkService (cs_channels v) x (cs_direct_index v) (cs_pinned v) (cs_muted v) (cs_hidden v).
Definition set_direct_index (v : ChannelService) x := mkService (cs_channels v) (cs_user_channels v) x (cs_pinned v) (cs_muted v) (cs_hidden v).
Definition set_flags (v : ChannelService) p m h := mkService (cs_channels v) (cs_user_channels v) (cs_direct_index v) p m h.
Definition cache_channel (v : ChannelService) (cid : Z) (c : Channel) := set_cached v (<[cid := c]> (cs_channels v)).

Definition with_metadata (c : Channel) (x : ChannelMetadata) : Channel :=
  mkChannel (id c) (channel_type c) (status c) (members c) x (creator_id c) (direct_user1_id c) (direct_user2_id c)
    (group_id c) (last_message_id c) (last_message_at c) (message_count c) (created_at c) (updated_at c) (sync_version c) (settings c).
Definition with_settings (c : Channel) (x : ChannelSettings) : Channel :=
  mkChannel (id c) (channel_type c) (status c) (members c) (metadata c) (creator_id c) (direct_user1_id c) (direct_user2_id c)
    (group_id c) (last_message_id c) (last_message_at c) (message_count c) (created_at c) (updated_at c) (sync_version c) (Some x).
Definition with_id (c : Channel) (x : Z) : Channel :=
  mkChannel x (channel_type c) (status c) (members c) (metadata c) (creator_id c) (direct_user1_id c) (direct_user2_id c)
    (group_id c) (last_message_id c) (last_message_at c) (message_count c) (created_at c) (updated_at c) (sync_version c) (settings c).
Definition with_mute (m : ChannelMember) (muted : bool) (until : option Z) : ChannelMember :=
  mkMember (m_user_id m) (display_name m) (role m) (permissions m) (joined_at m) (last_active_at m) muted until
    (last_read_message_id m) (last_read_pts m).

(** [make_direct_key]. *)
Definition make_direct_key (a b : Z) : Z * Z := if a <? b then (a, b) else (b, a).

(** [update_user_channel_index]: append the channel where it is missing. *)
Definition push_channel (v : ChannelService) (uid cid : Z) : ChannelService :=
  let l := default [] (cs_user_channels v !! uid) in
  set_user_index v (<[uid := if decide (cid ∈ l) then l else l ++ [cid]]> (cs_user_channels v)).
Definition update_user_channel_index (v : ChannelService) (c : Channel) : ChannelService :=
  foldl (fun v u => push_channel v u (id c)) v (get_member_ids c).

Section Service.
Context `{Pj : PermissionColumn, Pg : Postgres, Ch : Chrono}.
Context (config : ChannelServiceConfig).

Record State := mkState { st_db : GroupDb; st_sv : ChannelService }.

(** ** Loading a channel *)
Definition hydrate_policy (c : Channel) (g : GroupRow) : Channel :=
  let m := metadata c in
  let s := default settings_default (settings c) in
  with_settings
    (with_metadata c (mkMetadata (Some (g_name g)) (g_description g) (g_avatar_url g) (custom_properties m) (allow_invite m)
                        (max_members m) (meta_is_public m) (announcement m) (tags m)))
    (mkSettings (allow_member_post s) (gp_all_muted (g_policy g)) (settings_is_public s) (gp_allow_member_invite (g_policy g))
       (gp_join_policy (g_policy g) =? 1) (gp_allow_member_add_friend (g_policy g)) (gp_allow_search (g_policy g))
       (Z.min 2 (Z.max 0 (gp_join_policy (g_policy g)))) (settings_max_members s) (history_visible s) (allow_anonymous s)).
Definition role_rows (d : GroupDb) (gid : Z) : list (Z * MemberRole) :=
  (fun p : (Z * Z) * GroupMemberRow => (as_u64 p.1.2, member_role_from_i16 (gm_role p.2))) <$> map_to_list (active_members d gid).
Definition mute_rows (d : GroupDb) (gid : Z) : list (Z * Z) :=
  omap (fun p : (Z * Z) * GroupMemberRow => (fun u => (p.1.2, u)) <$> gm_mute_until p.2) (map_to_list (active_members d gid)).
Definition hydrate_mute (now : Z) (ms : gmap Z ChannelMember) (row : Z * Z) : gmap Z ChannelMember :=
  let until := from_timestamp_millis row.2 in
  if mute_is_active true until now then alter (fun m => with_mute m true until) (as_u64 row.1) ms else ms.
Definition hydrate_members (now : Z) (ps : list ChannelParticipant) : gmap Z ChannelMember :=
  foldl (fun ms p => <[p_user_id p := to_channel_member now p]> ms) ∅ ps.
Definition hydrate (f : Io) (i : nat) (now cid : Z) (d : GroupDb) (conv : Channel) : Channel :=
  let ps := match get_participants f (i + 1) now d cid with Ok ps => ps | Err _ => [] end in
  let c1 := with_members conv (hydrate_members now ps) in
  if decide (channel_type c1 = Group) then
    let gid := as_i64 (default cid (group_id c1)) in
    let c2 := match f (i + 2)%nat, d_groups d !! gid with None, Some g => hydrate_policy c1 g | _, _ => c1 end in
    let c3 := match f (i + 3)%nat with
              | None => with_members c2 (apply_group_role_truth (members c2) (role_rows d gid)).1
              | Some _ => c2 end in
    match f (i + 4)%nat with
    | None => with_members c3 (foldl (hydrate_mute now) (members c3) (mute_rows d gid))
    | Some _ => c3 end
  else c1.
Definition get_channel_opt (f : Io) (i : nat) (now sync cid : Z) (s : State) : option Channel * State :=
  match cs_channels (st_sv s) !! cid with
  | Some c => (Some c, s)
  | None =>
      match find_by_id f i now sync (st_db s) cid with
      | Ok (Some conv) =>
          let c := hydrate f i now cid (st_db s) conv in
          (Some c, mkState (st_db s) (cache_channel (st_sv s) cid c))
      | _ => (None, s)
      end
  end.
Definition get_channel (f : Io) (i : nat) (now sync cid : Z) (s : State) : result Channel ServerError * State :=
  let '(o, s') := get_channel_opt f i now sync cid s in
  (ok_or o (NotFound ("Channel not found: " +:+ u64_to_string cid)), s').
Definition get_channel_members (f : Io) (now sync cid : Z) (s : State) : result (list ChannelMember) ServerError * State :=
  match get_channel_opt f 0 now sync cid s with
  | (Some c, s') => (Ok (map_to_list (members c)).*2, s')
  | (None, s') =>
      (match get_participants f 5 now (st_db s') cid with
       | Ok ps => Ok (to_channel_member now <$> ps)
       | Err e => Err (Database ("查询参与者失败: " +:+ server_error_display e))
       end, s')
  end.
Definition is_channel_member (f : Io) (now sync cid uid : Z) (s : State) : result bool ServerError * State :=
  let '(r, s') := get_channel_members f now sync cid s in
  (let? ms := r in Ok (existsb (fun m => m_user_id m =? uid) ms), s').

(** [evict_stale_memory]: the oldest channels beyond the capacity leave the map. *)
Definition older (a b : Z * Channel) : Prop := updated_at a.2 <= updated_at b.2.
#[export] Instance older_dec a b : Decision (older a b).
Proof. unfold older. apply _. Defined.
Definition evict_stale_memory (cap : nat) (v : ChannelService) : ChannelService :=
  let overflow := (size (cs_channels v) - cap)%nat in
  set_cached v (foldr delete (cs_channels v) (take overflow (merge_sort older (map_to_list (cs_channels v)))).*1).

(** ** Rows of user_channels *)
Fixpoint ensure_user_channel_rows (f : Io) (i : nat) (cid : Z) (uids : list Z) (d : GroupDb) : result unit ServerError * GroupDb :=
  match uids with
  | [] => (Ok tt, d)
  | u :: rest =>
      let k := (as_i64 u, as_i64 cid) in
      match single f i ("ensure privchat_user_channels failed for user=" +:+ u64_to_string u +:+ " channel=" +:+ u64_to_string cid +:+ ": ") d
              (match d_user_channels d !! k, d_channels d !! k.2 with
               | Some _, _ => Ok (tt, d)
               | None, None => Err (pg_message (ForeignKeyViolation "privchat_user_channels_channel_id_fkey"))
               | None, Some _ =>
                   if decide (k.1 ∈ d_users d) then Ok (tt, set_user_channels d (<[k := mkUserChannel false false false]> (d_user_channels d)))
                   else Err (pg_message (ForeignKeyViolation "privchat_user_channels_user_id_fkey"))
               end) with
      | (Err e, d') => (Err e, d')
      | (Ok _, d') => ensure_user_channel_rows f (S i) cid rest d'
      end
  end.

(** The three flags of a user's channel. A statement upserts one row. *)
Definition upsert_flags (f : Io) (prefix : string) (uid cid : Z) (g : UserChannelRow -> UserChannelRow) (d : GroupDb)
    : result unit ServerError * GroupDb :=
  let k := (as_i64 uid, as_i64 cid) in
  single f 0 prefix d
    (match d_user_channels d !! k, d_channels d !! k.2 with
     | Some r, _ => Ok (tt, set_user_channels d (<[k := g r]> (d_user_channels d)))
     | None, None => Err (pg_message (ForeignKeyViolation "privchat_user_channels_channel_id_fkey"))
     | None, Some _ =>
         if decide (k.1 ∈ d_users d) then Ok (tt, set_user_channels d (<[k := g (mkUserChannel false false false)]> (d_user_channels d)))
         else Err (pg_message (ForeignKeyViolation "privchat_user_channels_user_id_fkey"))
     end).
Definition persist_user_channel_flags (f : Io) (uid cid : Z) (pinned muted : option bool) (d : GroupDb) : result unit ServerError * GroupDb :=
  upsert_flags f "persist user_channel flags failed: " uid cid
    (fun r => mkUserChannel (default (uc_pinned r) pinned) (default (uc_muted r) muted) (uc_hidden r)) d.
Definition flag_set (b : bool) (k : Z * Z) (x : gset (Z * Z)) : gset (Z * Z) := if b then {[k]} ∪ x else x ∖ {[k]}.
Definition pin_channel (f : Io) (uid cid : Z) (pinned : bool) (s : State) : result bool ServerError * State :=
  let v := st_sv s in
  let v' := set_flags v (flag_set pinned (uid, cid) (cs_pinned v)) (cs_muted v) (cs_hidden v) in
  let '(r, d') := persist_user_channel_flags f uid cid (Some pinned) None (st_db s) in
  (let? _ := r in Ok true, mkState d' v').
Definition mute_channel (f : Io) (uid cid : Z) (muted : bool) (s : State) : result unit ServerError * State :=
  let v := st_sv s in
  let v' := set_flags v (cs_pinned v) (flag_set muted (uid, cid) (cs_muted v)) (cs_hidden v) in
  let '(r, d') := persist_user_channel_flags f uid cid None (Some muted) (st_db s) in
  (r, mkState d' v').
Definition hide_channel (f : Io) (uid cid : Z) (hidden : bool) (s : State) : result unit ServerError * State :=
  let v := st_sv s in
  match upsert_flags f "hide_channel DB update failed: " uid cid (fun r => mkUserChannel (uc_pinned r) (uc_muted r) hidden) (st_db s) with
  | (Err e, d') => (Err e, mkState d' v)
  | (Ok _, d') => (Ok tt, mkState d' (set_flags v (cs_pinned v) (cs_muted v) (flag_set hidden (uid, cid) (cs_hidden v))))
  end.

(** ** Joining and leaving *)
Definition join_tx (f : Io) (gid uid : Z) (role : MemberRole) (now_ms : Z) (d : GroupDb) : result (unit * GroupDb) ServerError :=
  exec? f 0%nat else "开启加群事务失败: " in
  let? d1 := upsert_one_member_in_tx f 1 gid uid role now_ms d in
  let? d2 := recompute_group_member_count_in_tx f 2 gid d1 in
  Ok (tt, d2).
Definition join_channel (f : Io) (now cid uid : Z) (role : option MemberRole) (s : State) : result bool ServerError * State :=
  let v := st_sv s in
  match cs_channels v !! cid with
  | None => (Ok false, s)
  | Some c =>
      if negb (is_active c) then (Ok false, s)
      else if negb (allow_invite (metadata c)) && bool_decide (channel_type c = Group) then (Ok false, s)
      else
        match add_member now c uid role with
        | Err _ => (Ok false, s)
        | Ok c' =>
            let v1 := cache_channel v cid c' in
            let '(r, d1) :=
              if decide (channel_type c = Group)
              then commit_tx f 3 "提交加群事务失败: " (st_db s) (join_tx f cid uid (default Member role) (timestamp_millis now) (st_db s))
              else (Ok tt, st_db s) in
            match r with
            | Err e => (Err e, mkState d1 v1)
            | Ok _ =>
                match ensure_user_channel_rows f 4 cid [uid] d1 with
                | (Err e, d2) => (Err e, mkState d2 v1)
                | (Ok _, d2) =>
                    (Ok true, mkState d2 (set_user_index v1 (<[uid := default [] (cs_user_channels v1 !! uid) ++ [cid]]> (cs_user_channels v1))))
                end
            end
        end
  end.
Definition add_member_to_group (f : Io) (now gid uid : Z) (s : State) : result unit ServerError * State :=
  let '(r, s') := join_channel f now gid uid None s in
  (match r with Ok _ => Ok tt | Err e => Err (Internal ("添加成员失败: " +:+ server_error_display e)) end, s').

Definition leave_tx (f : Io) (gid uid now_ms : Z) (d : GroupDb) : result (unit * GroupDb) ServerError :=
  exec? f 0%nat else "开启退群事务失败: " in
  let? p := mark_one_member_left_in_tx f 1 gid uid now_ms d in
  if (p.1 : bool) then let? d2 := recompute_group_member_count_in_tx f 3 gid p.2 in Ok (tt, d2) else Ok (tt, p.2).
Definition leave_channel (f : Io) (now cid uid : Z) (s : State) : result bool ServerError * State :=
  let v := st_sv s in
  match cs_channels v !! cid with
  | None => (Ok false, s)
  | Some c =>
      match remove_member now c uid with
      | Err _ => (Ok false, s)
      | Ok (_, c') =>
          let v1 := cache_channel v cid c' in
          let '(r, d1) :=
            if decide (channel_type c = Group)
            then commit_tx f 4 "提交退群事务失败: " (st_db s) (leave_tx f cid uid (timestamp_millis now) (st_db s))
            else (Ok tt, st_db s) in
          match r with
          | Err e => (Err e, mkState d1 v1)
          | Ok _ => (Ok true, mkState d1 (set_user_index v1 (alter (filter (fun x => x <> cid)) uid (cs_user_channels v1))))
          end
      end
  end.

(** ** Roles and mutes *)
Definition set_member_role (now cid uid : Z) (r : MemberRole) (s : State) : result unit ServerError * State :=
  match cs_channels (st_sv s) !! cid with
  | None => (Err (NotFound ("Channel not found: " +:+ u64_to_string cid)), s)
  | Some c =>
      match update_member_role now c uid r with
      | Err e => (Err (Validation e), s)
      | Ok c' => (Ok tt, mkState (st_db s) (cache_channel (st_sv s) cid c'))
      end
  end.
Definition set_member_muted (f : Io) (cid uid : Z) (muted : bool) (until : option Z) (s : State) : result unit ServerError * State :=
  let col := if muted then timestamp_millis <$> until else None in
  let k := (as_i64 cid, as_i64 uid) in
  let d := st_db s in
  match single f 0 "更新群成员禁言状态失败: " d
          (Ok (tt, match active_member d k.1 k.2 with
                   | Some r => set_members d (<[k := with_gm_mute r col]> (d_members d))
                   | None => d end)) with
  | (Err e, d') => (Err e, mkState d' (st_sv s))
  | (Ok _, d') =>
      match cs_channels (st_sv s) !! cid with
      | None => (Err (NotFound ("Channel not found: " +:+ u64_to_string cid)), mkState d' (st_sv s))
      | Some c =>
          match members c !! uid with
          | None => (Err (NotFound ("Member not found in channel: " +:+ u64_to_string cid)), mkState d' (st_sv s))
          | Some m =>
              (Ok tt, mkState d' (cache_channel (st_sv s) cid
                 (with_members c (<[uid := with_mute m muted (if muted then until else None)]> (members c)))))
          end
      end
  end.

(** ** Administration *)
Definition no_active_member (gid uid : Z) : ServerError :=
  NotFound ("群组 " +:+ u64_to_string gid +:+ " 中不存在活跃成员 " +:+ u64_to_string uid).
Definition remove_member_tx (f : Io) (gid uid now_ms : Z) (d : GroupDb) : result (unit * GroupDb) ServerError :=
  exec? f 0%nat else "开启事务失败: " in
  let? p := mark_one_member_left_in_tx f 1 gid uid now_ms d in
  if negb (p.1 : bool) then Err (no_active_member gid uid)
  else let? d2 := recompute_group_member_count_in_tx f 3 gid p.2 in Ok (tt, d2).
Definition remove_member_admin (f : Io) (now gid uid : Z) (s : State) : result unit ServerError * State :=
  let '(r, d') := commit_tx f 4 "提交事务失败: " (st_db s) (remove_member_tx f gid uid (timestamp_millis now) (st_db s)) in
  (r, mkState d' (st_sv s)).

Definition add_member_tx (f : Io) (gid uid now_ms : Z) (d : GroupDb) : result (unit * GroupDb) ServerError :=
  exec? f 0%nat else "开启事务失败: " in
  exec? f 1%nat else "查询群组成员失败: " in
  match active_member d (as_i64 gid) (as_i64 uid) with
  | Some _ => Err (Validation ("用户 " +:+ u64_to_string uid +:+ " 已是群组 " +:+ u64_to_string gid +:+ " 的成员"))
  | None =>
      let? d1 := upsert_one_member_in_tx f 2 gid uid Member now_ms d in
      let? d2 := recompute_group_member_count_in_tx f 3 gid d1 in
      Ok (tt, d2)
  end.
Definition add_member_admin (f : Io) (now gid uid : Z) (s : State) : result unit ServerError * State :=
  match commit_tx f 4 "提交事务失败: " (st_db s) (add_member_tx f gid uid (timestamp_millis now) (st_db s)) with
  | (Err e, d') => (Err e, mkState d' (st_sv s))
  | (Ok _, d') => (Ok tt, (join_channel (io_from 10 f) now gid uid None (mkState d' (st_sv s))).2)
  end.

Definition set_role_row (d : GroupDb) (gid uid : Z) (r : MemberRole) : GroupDb :=
  match active_member d (as_i64 gid) (as_i64 uid) with
  | Some m => set_members d (<[(as_i64 gid, as_i64 uid) := with_gm_role m (member_role_to_i16 r)]> (d_members d))
  | None => d
  end.
Definition set_role_tx (f : Io) (gid uid : Z) (r : MemberRole) (d : GroupDb) : result (unit * GroupDb) ServerError :=
  exec? f 0%nat else "开启事务失败: " in
  exec? f 1%nat else "查询成员当前角色失败: " in
  match active_member d (as_i64 gid) (as_i64 uid) with
  | None => Err (no_active_member gid uid)
  | Some m =>
      if decide (member_role_from_i16 (gm_role m) = Owner) then Err (Validation "禁止修改群主角色（请走转让群主流程）")
      else exec? f 2%nat else "更新群成员角色失败: " in Ok (tt, set_role_row d gid uid r)
  end.
Definition set_member_role_admin (f : Io) (now gid uid : Z) (r : MemberRole) (s : State) : result unit ServerError * State :=
  if decide (r = Owner) then (Err (Validation "禁止通过此接口将成员设为 Owner（请走转让群主流程）"), s)
  else
    match commit_tx f 3 "提交事务失败: " (st_db s) (set_role_tx f gid uid r (st_db s)) with
    | (Err e, d') => (Err e, mkState d' (st_sv s))
    | (Ok _, d') => (Ok tt, (set_member_role now gid uid r (mkState d' (st_sv s))).2)
    end.

Definition transfer_tx (f : Io) (gid current new : Z) (d : GroupDb) : result (unit * GroupDb) ServerError :=
  exec? f 0%nat else "开启转让群主事务失败: " in
  exec? f 1%nat else "查询群主失败: " in
  match d_groups d !! as_i64 gid with
  | None => Err (NotFound ("群组 " +:+ u64_to_string gid +:+ " 不存在"))
  | Some g =>
      if decide (as_u64 (g_owner_id g) <> current) then Err (PermissionDenied "只有群主可以转让群主权限")
      else
        exec? f 2%nat else "查询新群主成员身份失败: " in
        match active_member d (as_i64 gid) (as_i64 new) with
        | None => Err (Validation "新群主不是群组成员")
        | Some _ =>
            exec? f 3%nat else "更新群成员角色失败: " in
            let d1 := set_role_row d gid current Member in
            exec? f 4%nat else "更新群成员角色失败: " in
            let d2 := set_role_row d1 gid new Owner in
            exec? f 5%nat else "更新群 owner_id 失败: " in
            Ok (tt, set_groups d2 (alter (fun r => with_owner r (as_i64 new)) (as_i64 gid) (d_groups d2)))
        end
  end.
Definition transfer_group_owner (f : Io) (now gid current new : Z) (s : State) : result unit ServerError * State :=
  if current =? new then (Err (Validation "不能把群主转让给自己"), s)
  else
    match commit_tx f 6 "提交转让群主事务失败: " (st_db s) (transfer_tx f gid current new (st_db s)) with
    | (Err e, d') => (Err e, mkState d' (st_sv s))
    | (Ok _, d') =>
        let s1 := (set_member_role now gid current Member (mkState d' (st_sv s))).2 in
        (Ok tt, (set_member_role now gid new Owner s1).2)
    end.

(** DELETE of the group's members, channels and row; the last fails while a channel
    refers to the group. *)
Definition group_channel (d : GroupDb) (gid c : Z) : bool :=
  match d_channels d !! c with Some r => (ch_type r =? 1) && bool_decide (ch_group r = Some gid) | None => false end.
Definition delete_group_row (gid : Z) (d : GroupDb) : result GroupDb string :=
  if existsb (fun p : Z * ChannelRow => bool_decide (ch_group p.2 = Some gid)) (map_to_list (d_channels d))
  then Err (pg_message (ForeignKeyViolation "privchat_channels_group_id_fkey"))
  else Ok (set_members (set_groups d (delete gid (d_groups d))) (filter (fun p => p.1.1 <> gid) (d_members d))).
Definition dissolve_tx (f : Io) (gid : Z) (d : GroupDb) : result (unit * GroupDb) ServerError :=
  let g := as_i64 gid in
  exec? f 0%nat else "开启事务失败: " in
  exec? f 1%nat else "检查群组失败: " in
  if negb (existsb (fun p : Z * ChannelRow => group_channel d g p.1) (map_to_list (d_channels d)))
  then Err (NotFound ("群组 " +:+ u64_to_string gid +:+ " 不存在"))
  else
    exec? f 2%nat else "删除群组成员失败: " in
    let d1 := set_members d (filter (fun p => p.1.1 <> g) (d_members d)) in
    exec? f 3%nat else "删除群组会话失败: " in
    let d2 := drop_channels (group_channel d1 g) d1 in
    let? d3 := statement f 4 "删除群组记录失败: " (delete_group_row g d2) in
    Ok (tt, d3).
Definition dissolve_group_admin (f : Io) (gid : Z) (s : State) : result unit ServerError * State :=
  let '(r, d') := commit_tx f 5 "提交事务失败: " (st_db s) (dissolve_tx f gid (st_db s)) in
  (r, mkState d' (st_sv s)).

(** ** Creating channels *)
Record CreateChannelRequest := mkCreate {
  cr_type : ChannelType; cr_name : option string; cr_description : option string; cr_member_ids : list Z;
  cr_is_public : option bool; cr_max_members : option nat
}.
Definition validate_create_request (v : ChannelService) (creator : Z) (r : CreateChannelRequest) : result unit string :=
  if match cs_user_channels v !! creator with Some l => Nat.leb (max_channels_per_user config) (length l) | None => false end
  then Err "Maximum channels per user limit reached"%string
  else if decide (cr_type r = Group) then
    match cr_name r with
    | None => Err "Group channel must have a name"%string
    | Some _ =>
        if negb (allow_public_groups config) && default false (cr_is_public r) then Err "Public groups are not allowed"%string
        else if match cr_max_members r with Some m => Nat.ltb (max_group_members config) m | None => false end
        then Err "Maximum group members limit exceeded"%string
        else Ok tt
    end
  else Ok tt.

Definition create_private_chat_with_id (f : Io) (i : nat) (now sync u1 u2 cid : Z) (s : State) : State :=
  let key := make_direct_key u1 u2 in
  match get_channel_opt f i now sync cid s with
  | (Some _, s1) => mkState (st_db s1) (set_direct_index (st_sv s1) (<[key := cid]> (cs_direct_index (st_sv s1))))
  | (None, s1) =>
      let c := new_direct now cid u1 u2 in
      let v1 := update_user_channel_index (cache_channel (st_sv s1) cid c) c in
      mkState (st_db s1) (set_direct_index v1 (<[key := cid]> (cs_direct_index v1)))
  end.
Definition create_group_chat_with_id (f : Io) (i : nat) (now sync owner : Z) (nm : string) (cid : Z) (s : State) : State :=
  match get_channel_opt f i now sync cid s with
  | (Some _, s1) => s1
  | (None, s1) =>
      let c := new_group now cid owner (Some nm) in
      mkState (st_db s1) (update_user_channel_index (cache_channel (st_sv s1) cid c) c)
  end.

(** [get_or_create_direct_channel]: the id, and whether the channel is new. The
    announcement of a new channel to both users is sent and not awaited. *)
Definition get_or_create_direct_channel (f : Io) (now sync fresh uid target : Z) (s : State) : result (Z * bool) ServerError * State :=
  match create_or_get_direct_channel f now sync fresh uid target (st_db s) with
  | (Err e, d') => (Err (Database ("get_or_create_direct_channel: " +:+ server_error_display e)), mkState d' (st_sv s))
  | (Ok (ch, created), d') =>
      let cid := id ch in
      let s1 := mkState d' (st_sv s) in
      let '(load, s2) := if created : bool then (true, s1)
                         else let '(o, s2) := get_channel_opt f 10 now sync cid s1 in (match o with None => true | Some _ => false end, s2) in
      match ensure_user_channel_rows f 20 cid [uid; target] (st_db s2) with
      | (Err e, d3) => (Err e, mkState d3 (st_sv s2))
      | (Ok _, d3) =>
          let s3 := mkState d3 (st_sv s2) in
          let s4 := if load : bool then create_private_chat_with_id f 30 now sync uid target cid s3 else s3 in
          let v5 := set_direct_index (st_sv s4) (<[make_direct_key uid target := cid]> (cs_direct_index (st_sv s4))) in
          let s5 := mkState (st_db s4) v5 in
          let s6 := if decide ((uid, cid) ∈ cs_hidden v5) then (hide_channel (io_from 40 f) uid cid false s5).2 else s5 in
          (Ok (cid, created), s6)
      end
  end.
Definition ensure_direct_channel_for_admin (f : Io) (now sync fresh sender target : Z) (s : State) : result Z ServerError * State :=
  if sender =? target then (Err (Validation "不能给自己创建/取得私聊频道"), s)
  else
    let '(r, d') := create_or_get_direct_channel f now sync fresh sender target (st_db s) in
    (match r with
     | Ok (ch, _) => Ok (id ch)
     | Err e => Err (Database ("ensure direct channel " +:+ u64_to_string sender +:+ " ⇄ " +:+ u64_to_string target +:+
                               " 失败: " +:+ server_error_display e))
     end, mkState d' (st_sv s)).

(** INSERT INTO privchat_groups, with the id [gid]. *)
Definition new_group_row (nm : string) (desc : option string) (owner now_ms : Z) (qr : string) : GroupRow :=
  mkGroup nm desc None owner 0 now_ms qr policy_default.
Definition insert_group (gid : Z) (row : GroupRow) (d : GroupDb) : result GroupDb string :=
  if bool_decide (is_Some (d_groups d !! gid)) then Err (pg_message (UniqueViolation "privchat_groups_pkey"))
  else if existsb (fun p : Z * GroupRow => bool_decide (g_qr_key p.2 = g_qr_key row)) (map_to_list (d_groups d))
  then Err (pg_message (UniqueViolation "ux_privchat_groups_qr_key"))
  else if decide (g_owner_id row ∈ d_users d) then Ok (set_groups d (<[gid := row]> (d_groups d)))
  else Err (pg_message (ForeignKeyViolation "privchat_groups_owner_id_fkey")).

(** The transaction of a new group: its row, its members, their number. The error is
    the text of the response. *)
Definition create_group_tx (f : Io) (now_ms gid creator : Z) (nm : string) (desc : option string) (qr : string) (extra : list Z)
    (d : GroupDb) : result GroupDb string :=
  match f 0%nat with
  | Some e => Err ("创建群组失败: " +:+ e)
  | None =>
      match f 1%nat, insert_group gid (new_group_row nm desc (as_i64 creator) now_ms qr) d with
      | Some e, _ => Err ("创建群组记录失败: " +:+ e)
      | None, Err e => Err ("创建群组记录失败: " +:+ e)
      | None, Ok d1 =>
          match upsert_group_members_in_tx f 2 (as_u64 gid) creator extra now_ms d1 with
          | Err e => Err ("群成员落库失败: " +:+ server_error_display e)
          | Ok d2 => Ok d2
          end
      end
  end.
Definition new_group_channel (now gid creator : Z) (r : CreateChannelRequest) : Channel :=
  let c := new_group now gid creator (cr_name r) in
  let m := metadata c in
  let c1 := with_metadata c (mkMetadata (name m) (cr_description r) (avatar_url m) (custom_properties m) (allow_invite m)
              (match cr_max_members r with Some n => Some n | None => Some (max_group_members config) end)
              (default false (cr_is_public r)) (announcement m) (tags m)) in
  foldl (fun c u => match add_member now c u None with Ok c' => c' | Err _ => c end) c1 (cr_member_ids r).
Fixpoint add_participants (f : Io) (i : nat) (now cid : Z) (ms : list (Z * ChannelMember)) (d : GroupDb) : GroupDb :=
  match ms with
  | [] => d
  | (u, m) :: rest => add_participants f (i + 2) now cid rest (add_participant f i now d cid u (role m)).2
  end.
(** [create_channel] for a group: [f] are the faults of the transaction, [g] those of
    COMMIT and of the channel row, [h] of the participants, [k] of the rows of the
    users. The inner result is the response of the service. *)
Definition create_group_channel_rows (f g h k : Io) (now sync gid creator : Z) (qr : string) (r : CreateChannelRequest) (s : State)
    : result (result Channel string) ServerError * State :=
  let d := st_db s in
  let fail e d' := (Ok (Err e), mkState d' (st_sv s)) in
  match create_group_tx f (timestamp_millis now) gid creator (default EmptyString (cr_name r)) (cr_description r) qr (cr_member_ids r) d with
  | Err e => fail e d
  | Ok d1 =>
      match g 0%nat with
      | Some e => fail ("提交群组事务失败: " +:+ e) (if io_applied g 0 then d1 else d)
      | None =>
          let c := new_group_channel now (as_u64 gid) creator r in
          match create g 1 now sync gid d1 c with
          | (Err e, d2) =>
              fail ("创建会话失败: " +:+ server_error_display e)
                (single g 3 EmptyString d2 (match delete_group_row gid d2 with Ok d3 => Ok (tt, d3) | Err x => Err x end)).2
          | (Ok created, d2) =>
              let cid := id created in
              let d3 := add_participants h 0 now cid (map_to_list (members c)) d2 in
              let c' := with_id c cid in
              let v1 := cache_channel (st_sv s) cid c' in
              match ensure_user_channel_rows k 0 cid (get_member_ids c') d3 with
              | (Err e, d4) => (Err e, mkState d4 v1)
              | (Ok _, d4) => (Ok (Ok c'), mkState d4 (update_user_channel_index v1 c'))
              end
          end
      end
  end.
Definition create_channel (f g h k : Io) (now sync fresh creator : Z) (qr : string) (r : CreateChannelRequest) (s : State)
    : result (result Channel string) ServerError * State :=
  match validate_create_request (st_sv s) creator r with
  | Err e => (Ok (Err e), s)
  | Ok _ =>
      match cr_type r with
      | Room => (Ok (Err "Room channels are created via Admin API"%string), s)
      | Direct =>
          match cr_member_ids r with
          | [target] =>
              match get_or_create_direct_channel f now sync fresh creator target s with
              | (Err e, s') => (Ok (Err ("创建私聊会话失败: " +:+ server_error_display e)), s')
              | (Ok (cid, _), s') =>
                  let '(o, s'') := get_channel_opt g 0 now sync cid s' in
                  (Ok (Ok (default (new_direct now cid creator target) o)), s'')
              end
          | _ => (Ok (Err "Direct channel must have exactly one target user"%string), s)
          end
      | Group =>
          match cr_name r with
          | None => (Ok (Err "Group channel must have a name"%string), s)
          | Some _ => create_group_channel_rows f g h k now sync fresh creator qr r s
          end
      end
  end.
End Service.
