(* ===== verification/Approval.v ===== *)
(** * Requests to join a group, and the RPCs on group members

    Models src/src/service/approval_service.rs with its table
    (src/src/repository/approval_repo.rs), [approve_join_request_in_tx] of
    channel_service.rs, and the handlers under src/src/rpc/group/: adding, removing and
    muting members, leaving, roles, the transfer of ownership, joining by QR code and
    the decision on a request. The announcements a handler makes after it has changed
    the group (a system message, an invalidation) are not part of it.

    A [timestamptz] column keeps microseconds: [pg_time] is what it keeps of a time. *)

From stdpp Require Import base numbers gmap list sorting strings.
From S2P Require Import Prelude Channel Timeline Submit Group GroupService.
Local Open Scope Z_scope.

Inductive JoinRequestStatus := Pending | Approved | Rejected | Expired.
Inductive JoinMethod := MemberInvite (inviter_id : string) | QRCode (qr_code_id : string).
#[export] Instance join_status_eq_dec : EqDecision JoinRequestStatus.
Proof. solve_decision. Defined.

Definition status_to_i16 (s : JoinRequestStatus) : Z :=
  match s with Pending => 0 | Approved => 1 | Rejected => 2 | Expired => 3 end.
Definition status_from_i16 (v : Z) : JoinRequestStatus :=
  if v =? 1 then Approved else if v =? 2 then Rejected else if v =? 3 then Expired else Pending.
Definition status_debug (s : JoinRequestStatus) : string :=
  match s with Pending => "Pending" | Approved => "Approved" | Rejected => "Rejected" | Expired => "Expired" end.
Definition method_to_columns (m : JoinMethod) : string * string :=
  match m with MemberInvite i => ("member_invite", i) | QRCode q => ("qrcode", q) end%string.
Definition method_from_columns (ty : string) (ref : option string) : JoinMethod :=
  let r := default EmptyString ref in
  if decide (ty = "member_invite"%string) then MemberInvite r else QRCode r.

Record JoinRequest := mkRequest {
  jr_request_id : string; jr_group_id : Z; jr_user_id : Z; jr_method : JoinMethod; jr_status : JoinRequestStatus;
  jr_message : option string; jr_created_at : Z; jr_updated_at : Z; jr_expires_at : option Z;
  jr_handler_id : option Z; jr_reject_reason : option string
}.
Record JoinRequestRow := mkRequestRow {
  rr_group_id : Z; rr_user_id : Z; rr_method_type : string; rr_method_ref : option string; rr_status : Z;
  rr_message : option string; rr_handler_id : option Z; rr_reject_reason : option string;
  rr_created_at : Z; rr_updated_at : Z; rr_expires_at : option Z
}.
Notation request_table := (gmap string JoinRequestRow).

Class PgTime := { pg_time : Z -> Z }.

Section Requests.
Context `{Pt : PgTime, Pg : Postgres}.

Definition request_of_row (rid : string) (r : JoinRequestRow) : JoinRequest :=
  mkRequest rid (as_u64 (rr_group_id r)) (as_u64 (rr_user_id r)) (method_from_columns (rr_method_type r) (rr_method_ref r))
    (status_from_i16 (rr_status r)) (rr_message r) (rr_created_at r) (rr_updated_at r) (rr_expires_at r)
    (as_u64 <$> rr_handler_id r) (rr_reject_reason r).
Definition row_of_request (q : JoinRequest) : JoinRequestRow :=
  let '(ty, ref) := method_to_columns (jr_method q) in
  mkRequestRow (as_i64 (jr_group_id q)) (as_i64 (jr_user_id q)) ty (Some ref) (status_to_i16 (jr_status q)) (jr_message q)
    (as_i64 <$> jr_handler_id q) (jr_reject_reason q) (pg_time (jr_created_at q)) (pg_time (jr_updated_at q)) (pg_time <$> jr_expires_at q).

(** ** The table *)
(** One statement on its own, as in [Group.single]. *)
Definition on_table {A} (f : Io) (i : nat) (prefix : string) (t : request_table) (r : result (A * request_table) string)
    : result A ServerError * request_table :=
  match r with
  | Err e => (Err (Database (prefix +:+ match f i with Some e' => e' | None => e end)), t)
  | Ok (a, t') =>
      match f i with
      | Some e => (Err (Database (prefix +:+ e)), if io_applied f i then t' else t)
      | None => (Ok a, t')
      end
  end.
(** ON CONFLICT (request_id) DO NOTHING; the partial index allows one pending request
    of a user for a group. *)
Definition pending_for (g u : Z) (r : JoinRequestRow) : bool :=
  (rr_group_id r =? g) && (rr_user_id r =? u) && (rr_status r =? 0).
Definition request_insert (f : Io) (i : nat) (q : JoinRequest) (t : request_table) : result unit ServerError * request_table :=
  let row := row_of_request q in
  on_table f i "insert join request 失败: " t
    (match t !! jr_request_id q with
     | Some _ => Ok (tt, t)
     | None =>
         if (rr_status row =? 0) && existsb (fun p => pending_for (rr_group_id row) (rr_user_id row) p.2) (map_to_list t)
         then Err (pg_message (UniqueViolation "uq_pgjr_active_pending"))
         else Ok (tt, <[jr_request_id q := row]> t)
     end).
Definition decided (st : JoinRequestStatus) (handler : option Z) (reason : option string) (now : Z) (r : JoinRequestRow) : JoinRequestRow :=
  mkRequestRow (rr_group_id r) (rr_user_id r) (rr_method_type r) (rr_method_ref r) (status_to_i16 st) (rr_message r)
    (as_i64 <$> handler) reason (rr_created_at r) (pg_time now) (rr_expires_at r).
Definition update_status (f : Io) (i : nat) (rid : string) (st : JoinRequestStatus) (handler : option Z) (reason : option string)
    (now : Z) (t : request_table) : result unit ServerError * request_table :=
  on_table f i "update join request 失败: " t (Ok (tt, alter (decided st handler reason now) rid t)).
Definition update_status_cas_pending (f : Io) (i : nat) (rid : string) (st : JoinRequestStatus) (handler : option Z)
    (reason : option string) (now : Z) (t : request_table) : result bool ServerError * request_table :=
  on_table f i "CAS update join request 失败: " t
    (Ok match t !! rid with
        | Some r => if rr_status r =? 0 then (true, <[rid := decided st handler reason now r]> t) else (false, t)
        | None => (false, t)
        end).
Definition request_get (f : Io) (i : nat) (rid : string) (t : request_table) : result (option JoinRequest) ServerError :=
  exec? f i else "get join request 失败: " in Ok (request_of_row rid <$> t !! rid).
Definition load_all_pending (f : Io) (i : nat) (t : request_table) : result (list JoinRequest) ServerError :=
  exec? f i else "load pending join requests 失败: " in
  Ok ((fun p => request_of_row p.1 p.2) <$> filter (fun p : string * JoinRequestRow => rr_status p.2 = 0) (map_to_list t)).

(** ** The service *)
Record ApprovalService := mkApproval {
  ap_requests : gmap string JoinRequest;
  ap_by_group : gmap Z (list string);
  ap_by_user : gmap Z (list string)
}.
Definition approval_new : ApprovalService := mkApproval ∅ ∅ ∅.
Definition push_id (k : Z) (rid : string) (m : gmap Z (list string)) : gmap Z (list string) := <[k := default [] (m !! k) ++ [rid]]> m.
Definition remember (q : JoinRequest) (v : ApprovalService) : ApprovalService :=
  mkApproval (<[jr_request_id q := q]> (ap_requests v)) (push_id (jr_group_id q) (jr_request_id q) (ap_by_group v))
    (push_id (jr_user_id q) (jr_request_id q) (ap_by_user v)).
Definition set_requests (v : ApprovalService) x := mkApproval x (ap_by_group v) (ap_by_user v).

Definition load_pending (f : Io) (t : request_table) (v : ApprovalService) : result nat ServerError * ApprovalService :=
  match load_all_pending f 0 t with
  | Err e => (Err e, v)
  | Ok l => (Ok (length l), foldl (fun v q => remember q v) v l)
  end.
(** [hours] of the source is always [Some 72] or [None]. *)
Definition create_join_request (f : Io) (now : Z) (rid : string) (gid uid : Z) (m : JoinMethod) (msg : option string) (hours : option Z)
    (t : request_table) (v : ApprovalService) : result JoinRequest ServerError * request_table * ApprovalService :=
  match head (filter (fun p : string * JoinRequest => jr_group_id p.2 = gid /\ jr_user_id p.2 = uid /\ jr_status p.2 = Pending)
                (map_to_list (ap_requests v))).*2 with
  | Some q => (Ok q, t, v)
  | None =>
      let q := mkRequest rid gid uid m Pending msg now now ((fun h => now + h * 3600 * nanos_per_sec) <$> hours) None None in
      match request_insert f 0 q t with
      | (Err e, t') => (Err e, t', v)
      | (Ok _, t') => (Ok q, t', remember q v)
      end
  end.
Definition reload_request (f : Io) (i : nat) (rid : string) (t : request_table) (v : ApprovalService) : result unit ServerError * ApprovalService :=
  match request_get f i rid t with
  | Err e => (Err e, v)
  | Ok (Some q) => (Ok tt, set_requests v (<[rid := q]> (ap_requests v)))
  | Ok None => (Ok tt, set_requests v (delete rid (ap_requests v)))
  end.
Definition newest (a b : JoinRequest) : Prop := jr_created_at b <= jr_created_at a.
#[export] Instance newest_dec a b : Decision (newest a b).
Proof. unfold newest. apply _. Defined.
Definition overdue (now : Z) (q : JoinRequest) : bool := match jr_expires_at q with Some e => e <? now | None => false end.
Definition get_pending_requests_by_group (now gid : Z) (v : ApprovalService) : list JoinRequest :=
  merge_sort newest (filter (fun q => jr_status q = Pending /\ overdue now q = false)
    (omap (fun rid => ap_requests v !! rid) (default [] (ap_by_group v !! gid)))).
Definition get_requests_by_user (uid : Z) (v : ApprovalService) : list JoinRequest :=
  merge_sort newest (omap (fun rid => ap_requests v !! rid) (default [] (ap_by_user v !! uid))).

Definition with_decision (st : JoinRequestStatus) (handler : option Z) (reason : option string) (now : Z) (q : JoinRequest) : JoinRequest :=
  mkRequest (jr_request_id q) (jr_group_id q) (jr_user_id q) (jr_method q) st (jr_message q) (jr_created_at q) now (jr_expires_at q)
    handler reason.
Definition approve_request (f : Io) (now : Z) (rid : string) (handler : Z) (t : request_table) (v : ApprovalService)
    : result JoinRequest ServerError * request_table * ApprovalService :=
  match ap_requests v !! rid with
  | None => (Err (NotFound "加群请求不存在"), t, v)
  | Some q =>
      if decide (jr_status q <> Pending) then (Err (Validation ("请求状态不是待审批: " +:+ status_debug (jr_status q))), t, v)
      else if overdue now q then
        match update_status f 0 rid Expired None None now t with
        | (Err e, t') => (Err e, t', v)
        | (Ok _, t') => (Err (Validation "请求已过期"), t',
                         set_requests v (<[rid := with_decision Expired (jr_handler_id q) (jr_reject_reason q) now q]> (ap_requests v)))
        end
      else
        match update_status f 0 rid Approved (Some handler) None now t with
        | (Err e, t') => (Err e, t', v)
        | (Ok _, t') => let q' := with_decision Approved (Some handler) (jr_reject_reason q) now q in
                        (Ok q', t', set_requests v (<[rid := q']> (ap_requests v)))
        end
  end.
Definition reject_request (f : Io) (now : Z) (rid : string) (handler : Z) (reason : option string) (t : request_table) (v : ApprovalService)
    : result JoinRequest ServerError * request_table * ApprovalService :=
  match ap_requests v !! rid with
  | None => (Err (NotFound "加群请求不存在"), t, v)
  | Some q =>
      match update_status_cas_pending f 0 rid Rejected (Some handler) reason now t with
      | (Err e, t') => (Err e, t', v)
      | (Ok false, t') =>
          (Err (Validation "加群申请已被处理（并发或重复审批）"), t',
           match request_get f 1 rid t' with Ok (Some fresh) => set_requests v (<[rid := fresh]> (ap_requests v)) | _ => v end)
      | (Ok true, t') =>
          let q' := with_decision Rejected (Some handler) reason now q in
          (Ok q', t', set_requests v (<[rid := q']> (ap_requests v)))
      end
  end.
(** [cleanup_expired_requests]: rows first, then the map; the first failure stops it. *)
Fixpoint expire_rows (f : Io) (i : nat) (now : Z) (ids : list string) (t : request_table) : result unit ServerError * request_table :=
  match ids with
  | [] => (Ok tt, t)
  | rid :: rest =>
      match update_status f i rid Expired None None now t with
      | (Err e, t') => (Err e, t')
      | (Ok _, t') => expire_rows f (S i) now rest t'
      end
  end.
Definition cleanup_expired_requests (f : Io) (now : Z) (t : request_table) (v : ApprovalService)
    : result nat ServerError * request_table * ApprovalService :=
  let ids := jr_request_id <$> filter (fun q => jr_status q = Pending /\ overdue now q = true) (map_to_list (ap_requests v)).*2 in
  match expire_rows f 0 now ids t with
  | (Err e, t') => (Err e, t', v)
  | (Ok _, t') =>
      (Ok (length ids), t',
       set_requests v (foldl (fun m rid => alter (fun q => with_decision Expired (jr_handler_id q) (jr_reject_reason q) now q) rid m) (ap_requests v) ids))
  end.
End Requests.

(** ** The handlers *)
Section Handlers.
Context `{Pj : PermissionColumn, Pg : Postgres, Ch : Chrono, Pt : PgTime}.
(** [lookup_user_type], and chrono's [Utc::now() + Duration::seconds(s)], which panics
    out of range. *)
Context (user_type : Z -> result (option Z) string) (add_seconds : Z -> Z -> option Z).

Record World := mkWorld { w_state : State; w_requests : request_table; w_approval : ApprovalService }.
Definition in_state {A} (w : World) (p : A * State) : A * World := (p.1, mkWorld p.2 (w_requests w) (w_approval w)).

(** [approve_join_request_in_tx]. *)
Definition approve_tx (f : Io) (now : Z) (rid : string) (gid uid handler : Z) (t : request_table) (d : GroupDb)
    : result ((bool * request_table) * GroupDb) ServerError :=
  exec? f 0%nat else "开启审批事务失败: " in
  exec? f 1%nat else "审批 CAS 失败: " in
  match t !! rid with
  | Some r =>
      if rr_status r =? 0 then
        let t' := <[rid := decided Approved (Some handler) (rr_reject_reason r) now r]> t in
        let? d1 := upsert_one_member_in_tx f 2 gid uid Member (timestamp_millis now) d in
        let? d2 := recompute_group_member_count_in_tx f 3 gid d1 in
        Ok ((true, t'), d2)
      else Ok ((false, t), d)
  | None => Ok ((false, t), d)
  end.
Definition commit_both {A} (f : Io) (i : nat) (prefix : string) (t : request_table) (d : GroupDb)
    (body : result ((A * request_table) * GroupDb) ServerError) : result A ServerError * request_table * GroupDb :=
  match body with
  | Err e => (Err e, t, d)
  | Ok ((a, t'), d') =>
      match f i with
      | Some e => if io_applied f i then (Err (Database (prefix +:+ e)), t', d') else (Err (Database (prefix +:+ e)), t, d)
      | None => (Ok a, t', d')
      end
  end.
Definition approve_join_request_in_tx (f : Io) (now : Z) (rid : string) (gid uid handler : Z) (w : World) : result bool ServerError * World :=
  let s := w_state w in
  match approve_tx f now rid gid uid handler (w_requests w) (st_db s) with
  | Ok ((false, _), _) => (Ok false, w)
  | body =>
      let '(r, t', d') := commit_both f 4 "提交审批事务失败: " (w_requests w) (st_db s) body in
      match r with
      | Err e => (Err e, mkWorld (mkState d' (st_sv s)) t' (w_approval w))
      | Ok _ =>
          let v := st_sv s in
          let v1 := match cs_channels v !! gid with
                    | Some c => match add_member now c uid (Some Member) with Ok c' => cache_channel v gid c' | Err _ => v end
                    | None => v
                    end in
          match ensure_user_channel_rows f 5 gid [uid] d' with
          | (Err e, d2) => (Err e, mkWorld (mkState d2 v1) t' (w_approval w))
          | (Ok _, d2) => (Ok true, mkWorld (mkState d2 (push_channel v1 uid gid)) t' (w_approval w))
          end
      end
  end.

Definition group_of (prefix : string) (f : Io) (now sync gid : Z) (s : State) : result Channel RpcError * State :=
  let '(r, s') := get_channel f 0 now sync gid s in
  (match r with Ok c => Ok c | Err e => Err (rpc_not_found (prefix +:+ server_error_display e)) end, s').
Definition manages (m : ChannelMember) : bool := match role m with Owner | Admin => true | Member => false end.

(** group/approval/handle. *)
Definition approval_gate (c : Channel) (operator : Z) : result unit RpcError :=
  let? m := ok_or (members c !! operator) (rpc_forbidden "您不是群组成员") in
  if manages m then Ok tt else Err (rpc_forbidden "只有群主或管理员可以审批加群申请").
Definition handle_approval (f g h : Io) (now sync : Z) (ctx : RpcContext) (rid action : string) (reason : option string) (w : World)
    : result unit RpcError * World :=
  match get_current_user_id ctx with
  | Err e => (Err e, w)
  | Ok operator =>
      if decide (action <> "approve"%string /\ action <> "reject"%string)
      then (Err (rpc_validation "action must be 'approve' or 'reject'"), w)
      else
        match ap_requests (w_approval w) !! rid with
        | None => (Err (rpc_not_found "加群请求不存在"), w)
        | Some q =>
            let '(rc, s1) := group_of "群组不存在: " f now sync (jr_group_id q) (w_state w) in
            let w1 := mkWorld s1 (w_requests w) (w_approval w) in
            match (let? c := rc in approval_gate c operator) with
            | Err e => (Err e, w1)
            | Ok _ =>
                if decide (action = "approve"%string) then
                  match approve_join_request_in_tx g now rid (jr_group_id q) (jr_user_id q) operator w1 with
                  | (Err e, w2) => (Err (rpc_internal ("审批入群失败: " +:+ server_error_display e)), w2)
                  | (Ok approved, w2) =>
                      let '(r, v') := reload_request h 0 rid (w_requests w2) (w_approval w2) in
                      let w3 := mkWorld (w_state w2) (w_requests w2) v' in
                      (match r with
                       | Err e => Err (rpc_internal ("刷新审批缓存失败: " +:+ server_error_display e))
                       | Ok _ => if approved : bool then Ok tt else Err (rpc_validation "加群申请已被处理（并发或重复审批）")
                       end, w3)
                  end
                else
                  let '(r, t', v') := reject_request h now rid operator reason (w_requests w1) (w_approval w1) in
                  (match r with Ok _ => Ok tt | Err e => Err (rpc_internal ("审批失败: " +:+ server_error_display e)) end,
                   mkWorld (w_state w1) t' v')
            end
        end
  end.

(** group/join/qrcode. *)
Inductive JoinReply := Joined | PendingApproval (request : JoinRequest).
Definition group_full (c : Channel) : bool :=
  let cap := match settings c ≫= settings_max_members with
             | Some m => m
             | None => default 500 (Z.of_nat <$> max_members (metadata c))
             end in
  as_u32 cap <=? as_u32 (Z.of_nat (size (members c))).
Definition handle_qr_join (known_user : Z -> result bool string) (f g : Io) (now sync : Z) (rid : string) (ctx : RpcContext) (qr_key : string)
    (msg : option string) (w : World) : result JoinReply RpcError * World :=
  match get_current_user_id ctx with
  | Err e => (Err e, w)
  | Ok uid =>
      if decide (qr_key = EmptyString) then (Err (rpc_validation "qr_key is required"), w)
      else
        match f 10%nat, head (filter (fun p : Z * GroupRow => g_qr_key p.2 = qr_key) (map_to_list (d_groups (st_db (w_state w))))).*1 with
        | Some e, _ => (Err (rpc_internal ("查询群二维码失败: " +:+ e)), w)
        | None, None => (Err (rpc_not_found "二维码无效或已被旋转"), w)
        | None, Some g0 =>
            let gid := as_u64 g0 in
            match known_user uid with
            | Err e => (Err (rpc_internal ("获取用户信息失败: " +:+ e)), w)
            | Ok false => (Err (rpc_not_found ("用户不存在: " +:+ u64_to_string uid)), w)
            | Ok true =>
                let '(rc, s1) := group_of "群组不存在: " f now sync gid (w_state w) in
                let w1 := mkWorld s1 (w_requests w) (w_approval w) in
                match rc with
                | Err e => (Err e, w1)
                | Ok c =>
                    if bool_decide (is_Some (members c !! uid)) then (Err (rpc_validation "您已经是群成员"), w1)
                    else if group_full c then (Err (rpc_validation "群组人数已满"), w1)
                    else if default false (require_approval <$> settings c) then
                      let '(r, t', v') := create_join_request g now rid gid uid (QRCode qr_key) msg (Some 72) (w_requests w1) (w_approval w1) in
                      (match r with
                       | Ok q => Ok (PendingApproval q)
                       | Err e => Err (rpc_internal ("创建审批请求失败: " +:+ server_error_display e))
                       end, mkWorld s1 t' v')
                    else
                      let '(r, s2) := join_channel g now gid uid (Some Member) s1 in
                      (match r with Ok _ => Ok Joined | Err e => Err (rpc_internal ("加入群组失败: " +:+ server_error_display e)) end,
                       mkWorld s2 (w_requests w1) (w_approval w1))
                end
            end
        end
  end.

(** group/member/add. *)
Definition USER_TYPE_SYSTEM : Z := 1.
Definition USER_TYPE_PERSONAL_ASSISTANT : Z := 3.
Definition role_of_text (s : string) : MemberRole :=
  let l := to_ascii_lowercase s in
  if decide (l = "admin"%string) then Admin else if decide (l = "owner"%string) then Owner else Member.
Definition invitable (uid : Z) : result unit RpcError :=
  match user_type uid with
  | Err _ => Err (rpc_internal "校验成员身份失败")
  | Ok (Some ty) =>
      if ty =? USER_TYPE_SYSTEM then
        Err (mkRpcError "SystemUserNotGroupInvitable" ("user " +:+ u64_to_string uid +:+ " is a system user and cannot join a group"))
      else if ty =? USER_TYPE_PERSONAL_ASSISTANT then Err (rpc_not_found ("User '" +:+ u64_to_string uid +:+ "' not found"))
      else Ok tt
  | Ok None => Ok tt
  end.
Definition handle_member_add (f g : Io) (now : Z) (ctx : RpcContext) (gid uid : Z) (role_text : option string) (s : State)
    : result unit RpcError * State :=
  match (let? _ := get_current_user_id ctx in invitable uid) with
  | Err e => (Err e, s)
  | Ok _ =>
      let r := role_of_text (default "member"%string role_text) in
      let d1 := (add_participant f 0 now (st_db s) gid uid r).2 in
      match add_member_to_group g now gid uid (mkState d1 (st_sv s)) with
      | (Err e, s2) => (Err (rpc_internal ("添加群组成员失败: " +:+ server_error_display e)), s2)
      | (Ok _, s2) => (Ok tt, if decide (r = Member) then s2 else (set_member_role now gid uid r s2).2)
      end
  end.

(** group/member/remove. *)
Definition remove_gate (c : Channel) (operator uid : Z) : result unit RpcError :=
  let? m := ok_or (members c !! operator) (rpc_forbidden "Operator is not a member") in
  if negb (manages m) then Err (rpc_forbidden "Only owner or admin can remove members")
  else match members c !! uid with
       | Some x => if decide (role x = Owner) then Err (rpc_forbidden "Cannot remove group owner") else Ok tt
       | None => Ok tt
       end.
Definition handle_member_remove (f g : Io) (now sync : Z) (ctx : RpcContext) (gid uid : Z) (s : State) : result unit RpcError * State :=
  match get_current_user_id ctx with
  | Err e => (Err e, s)
  | Ok operator =>
      let '(rc, s1) := group_of "Group not found: " f now sync gid s in
      match (let? c := rc in remove_gate c operator uid) with
      | Err e => (Err e, s1)
      | Ok _ =>
          let '(r, s2) := leave_channel g now gid uid s1 in
          (match r with Ok _ => Ok tt | Err e => Err (rpc_internal ("移除群成员失败: " +:+ server_error_display e)) end, s2)
      end
  end.

(** group/member/leave. *)
Definition leave_gate (c : Channel) (uid : Z) : result unit RpcError :=
  let? m := ok_or (members c !! uid) (rpc_not_found "User is not a member of this group") in
  if decide (role m = Owner)
  then Err (rpc_forbidden "Group owner cannot leave group. Please transfer ownership or disband the group")
  else Ok tt.
Definition handle_member_leave (f g : Io) (now sync : Z) (ctx : RpcContext) (gid : Z) (s : State) : result unit RpcError * State :=
  match get_current_user_id ctx with
  | Err e => (Err e, s)
  | Ok uid =>
      let '(rc, s1) := group_of "Group not found: " f now sync gid s in
      match (let? c := rc in leave_gate c uid) with
      | Err e => (Err e, s1)
      | Ok _ =>
          let '(r, s2) := leave_channel g now gid uid s1 in
          (match r with Ok _ => Ok tt | Err e => Err (rpc_internal ("退群失败: " +:+ server_error_display e)) end, s2)
      end
  end.

(** group/member/mute and unmute; [None] is a panic of the date arithmetic. *)
Definition mute_gate (c : Channel) (operator uid : Z) : result unit RpcError :=
  let? m := ok_or (members c !! operator) (rpc_forbidden "操作者不是群成员") in
  let? x := ok_or (members c !! uid) (rpc_not_found "目标用户不是群成员") in
  match can_moderate_mute operator uid (role m) (role x) with Ok _ => Ok tt | Err e => Err (rpc_forbidden e) end.
Definition handle_set_muted (f g : Io) (now sync : Z) (failed : string) (operator gid uid : Z) (muted : bool) (until : option Z) (s : State)
    : result unit RpcError * State :=
  let '(rc, s1) := group_of "Group not found: " f now sync gid s in
  match (let? c := rc in mute_gate c operator uid) with
  | Err e => (Err e, s1)
  | Ok _ =>
      let '(r, s2) := set_member_muted g gid uid muted until s1 in
      (match r with Ok _ => Ok tt | Err e => Err (rpc_internal (failed +:+ server_error_display e)) end, s2)
  end.
Definition handle_member_mute (f g : Io) (now sync : Z) (ctx : RpcContext) (gid uid duration : Z) (s : State)
    : option (result Z RpcError * State) :=
  match get_current_user_id ctx with
  | Err e => Some (Err e, s)
  | Ok operator =>
      until ← add_seconds now (if 0 <? duration then as_i64 duration else 365 * 100 * 86400);
      let '(r, s') := handle_set_muted f g now sync "禁言成员失败: " operator gid uid true (Some until) s in
      Some (let? _ := r in Ok (if 0 <? duration then as_u64 (timestamp_millis until) else 0), s')
  end.
Definition handle_member_unmute (f g : Io) (now sync : Z) (ctx : RpcContext) (gid uid : Z) (s : State) : result unit RpcError * State :=
  match get_current_user_id ctx with
  | Err e => (Err e, s)
  | Ok operator => handle_set_muted f g now sync "取消禁言失败: " operator gid uid false None s
  end.

(** group/role/set. *)
Definition role_gate (c : Channel) (operator : Z) : result unit RpcError :=
  let? m := ok_or (members c !! operator) (rpc_forbidden "您不是群组成员") in
  if decide (role m = Owner) then Ok tt else Err (rpc_forbidden "只有群主可以任免管理员").
Definition target_role (s : string) : result MemberRole RpcError :=
  if decide (s = "admin"%string) then Ok Admin else if decide (s = "member"%string) then Ok Member
  else Err (rpc_validation ("Invalid role: " +:+ s +:+ ", expected 'admin' or 'member'")).
Definition handle_role_set (f g : Io) (now sync : Z) (ctx : RpcContext) (claimed gid uid : Z) (role_text : string) (s : State)
    : result unit RpcError * State :=
  match (let? operator := get_current_user_id ctx in
         if negb (claimed =? 0) && negb (claimed =? operator) then Err (rpc_forbidden "operator_id 与当前登录用户不一致")
         else let? r := target_role role_text in Ok (operator, r)) with
  | Err e => (Err e, s)
  | Ok (operator, r) =>
      let '(rc, s1) := group_of "群组不存在: " f now sync gid s in
      match (let? c := rc in role_gate c operator) with
      | Err e => (Err e, s1)
      | Ok _ =>
          let '(out, s2) := set_member_role_admin g now gid uid r s1 in
          (match out with Ok _ => Ok tt | Err e => Err (rpc_internal ("设置成员角色失败: " +:+ server_error_display e)) end, s2)
      end
  end.

(** group/role/transfer_owner, after the parsing of the ids. *)
Definition handle_transfer_owner (f : Io) (now : Z) (ctx : RpcContext) (gid : Z) (claimed : option string) (new : Z) (s : State)
    : result unit RpcError * State :=
  match get_current_user_id ctx with
  | Err e => (Err e, s)
  | Ok operator =>
      if match claimed with Some c => bool_decide (parse_u64 c <> Some operator) | None => false end
      then (Err (rpc_forbidden "current_owner_id 与当前登录用户不一致"), s)
      else let '(r, s') := transfer_group_owner f now gid operator new s in
           (match r with Ok _ => Ok tt | Err e => Err (rpc_from e) end, s')
  end.
End Handlers.
