(* ===== verification/GroupFacts.v ===== *)
(** * Groups: theorems

    The invariant of the group tables over every sequence of operations, the transfer
    of ownership, the decision on join requests, the rank that the management of
    members requires, and the uniqueness of direct channels. *)

From stdpp Require Import base numbers gmap list sorting strings relations.
From S2P Require Import Prelude Channel Timeline Submit Group GroupService Approval.
Local Open Scope Z_scope.

(** Whether the runs include calls of [join_channel] with the role Owner. The message
    handler makes such calls: it lets a sender back in with the role of the participant
    row, and a transfer of ownership leaves that role with the old owner. *)
Class OwnerJoins := owner_joins : Prop.
Definition no_owner_joins : OwnerJoins := False.

Section GroupFacts.
Context {OJ : OwnerJoins}.
Context `{Pj : PermissionColumn, Pg : Postgres, Ch : Chrono, Pt : PgTime}.

(** ** Statements and transactions *)
Lemma statement_Ok {A} (f : Io) i prefix (r : result A string) a : statement f i prefix r = Ok a -> r = Ok a.
Proof. unfold statement. intros Hs. stmt. destruct r; by inversion Hs. Qed.

(** A property of the tables that holds before, and of what the body leaves, holds after. *)
Lemma commit_tx_inv {A} (I : GroupDb -> Prop) (f : Io) i prefix d (body : result (A * GroupDb) ServerError) :
  I d -> (forall a d', body = Ok (a, d') -> I d') -> I (commit_tx f i prefix d body).2.
Proof.
  intros Hd Hb. unfold commit_tx. destruct body as [[a d']|e]; [|done].
  destruct (f i); [|simpl; by eapply Hb]. simpl. case_match; [by eapply Hb|done].
Qed.
Lemma single_inv {A} (I : GroupDb -> Prop) (f : Io) i prefix d (r : result (A * GroupDb) string) :
  I d -> (forall a d', r = Ok (a, d') -> I d') -> I (single f i prefix d r).2.
Proof. intros Hd Hr. unfold single. destruct r as [[a d']|]; [|done]. apply commit_tx_inv; [done|]. intros ? ? [= <- <-]. by eapply Hr. Qed.
Lemma commit_tx_Ok {A} (f : Io) i prefix d (body : result (A * GroupDb) ServerError) a d' :
  commit_tx f i prefix d body = (Ok a, d') -> body = Ok (a, d').
Proof. unfold commit_tx. destruct body as [[x y]|]; [|done]. destruct (f i); intros [= <- <-]; done. Qed.

(** ** The invariant of the group tables *)
(** [x] is a group whose number of members is still to be computed. *)
Record groups_ok (x : option Z) (d : GroupDb) : Prop := {
  go_owner_i64 : forall gid g, d_groups d !! gid = Some g -> is_i64 (g_owner_id g);
  go_group : forall gid uid r, d_members d !! (gid, uid) = Some r -> is_Some (d_groups d !! gid);
  go_count : forall gid g, x <> Some gid -> d_groups d !! gid = Some g -> g_member_count g = Z.of_nat (size (active_members d gid));
  go_owner : ~ owner_joins -> forall gid uid r, active_member d gid uid = Some r -> gm_role r = 0 ->
    exists g, d_groups d !! gid = Some g /\ g_owner_id g = uid
}.

Lemma active_member_spec d gid uid r : active_member d gid uid = Some r <-> d_members d !! (gid, uid) = Some r /\ in_group r = true.
Proof.
  unfold active_member. destruct (d_members d !! (gid, uid)) as [x|]; simpl; [|naive_solver].
  destruct (in_group x) eqn:E; split; [intros [= ->]; done|by intros [[= ->] _]|done|intros [[= ->] ?]; congruence].
Qed.
Lemma active_dom d gid (k : Z * Z) : k ∈ dom (active_members d gid) <-> k.1 = gid /\ exists r, active_member d k.1 k.2 = Some r.
Proof.
  unfold active_members. rewrite elem_of_dom. split.
  - intros [r Hr]. apply map_lookup_filter_Some in Hr as [Hr [Hg Hi]]. split; [done|]. exists r. apply active_member_spec. by destruct k.
  - intros [Hg [r Hr]]. apply active_member_spec in Hr as [Hr Hi]. exists r. apply map_lookup_filter_Some. by destruct k.
Qed.
(** The number of members depends on who is active only. *)
Lemma active_size d d' gid : (forall uid, is_Some (active_member d gid uid) <-> is_Some (active_member d' gid uid)) ->
  size (active_members d gid) = size (active_members d' gid).
Proof.
  intros Hs. rewrite <- !size_dom. f_equal. apply set_eq. intros [g u]. rewrite !active_dom. simpl. specialize (Hs u).
  unfold is_Some in Hs. naive_solver.
Qed.
Lemma active_member_insert d k r gid uid :
  active_member (set_members d (<[k := r]> (d_members d))) gid uid =
  if decide ((gid, uid) = k) then if in_group r then Some r else None else active_member d gid uid.
Proof.
  unfold active_member. simpl. case_decide as Hk; [subst k; by rewrite lookup_insert_eq|]. rewrite lookup_insert_ne; [done|congruence].
Qed.
Lemma active_size_0 d gid : (forall uid, active_member d gid uid = None) -> size (active_members d gid) = 0%nat.
Proof.
  intros Hn. rewrite <- size_dom. apply size_empty_iff. intros [g u]. rewrite active_dom. simpl. split; [|set_solver].
  intros [-> [r Hr]]. by rewrite Hn in Hr.
Qed.

(** Writing one member row, when no other row of the group is touched. *)
Lemma groups_ok_row x d gid uid r : groups_ok x d -> x = None \/ x = Some gid -> is_Some (d_groups d !! gid) ->
  (~ owner_joins -> in_group r = true -> gm_role r = 0 -> exists g, d_groups d !! gid = Some g /\ g_owner_id g = uid) ->
  groups_ok (Some gid) (set_members d (<[(gid, uid) := r]> (d_members d))).
Proof.
  intros [O G C W] Hx Hg Hr. split; simpl.
  - done.
  - intros g u r'. rewrite lookup_insert_Some. intros [[[= <- <-] _]|[_ Hl]]; [done|by eapply G].
  - intros g row Hne Hl. rewrite (C g row) by (done || (destruct Hx; congruence)). f_equal. apply active_size. intros u.
    rewrite active_member_insert. rewrite decide_False; [done|congruence].
  - intros Hno g u r'. rewrite active_member_insert. case_decide as Hk; [|by apply W]. injection Hk as -> ->.
    destruct (in_group r) eqn:Ei; [|done]. intros [= <-]. by apply Hr.
Qed.
Lemma groups_ok_same_activity d gid uid r r' : groups_ok None d -> active_member d gid uid = Some r -> in_group r' = true ->
  (gm_role r' = 0 -> gm_role r = 0) -> groups_ok None (set_members d (<[(gid, uid) := r']> (d_members d))).
Proof.
  intros Hok Ha Hi Hrole. pose proof Ha as [Hl Hin]%active_member_spec.
  destruct (groups_ok_row None d gid uid r' Hok) as [O G C W]; [by left|by eapply (go_group _ _ Hok)| |].
  { intros Hno _ H0. by apply (go_owner _ _ Hok Hno _ _ r); [|apply Hrole]. }
  split; [done|done| |done]. intros g row _ Hg. destruct (decide (g = gid)) as [->|Hne]; [|apply C; [congruence|done]].
  rewrite (go_count _ _ Hok gid row) by done. f_equal. apply active_size. intros u. rewrite active_member_insert.
  case_decide as Hk; [|done]. injection Hk as ->. rewrite Ha, Hi. split; by eexists.
Qed.

Lemma upsert_ok (f : Io) i x gid uid role now d d' : groups_ok x d -> x = None \/ x = Some (as_i64 gid) ->
  upsert_one_member_in_tx f i gid uid role now d = Ok d' ->
  (~ owner_joins -> role = Owner -> exists g, d_groups d !! as_i64 gid = Some g /\ g_owner_id g = as_i64 uid) ->
  groups_ok (Some (as_i64 gid)) d' /\ d_groups d' = d_groups d /\ exists r, active_member d' (as_i64 gid) (as_i64 uid) = Some r /\ gm_role r = member_role_to_i16 role.
Proof.
  intros Hok Hx Hs%statement_Ok Hrole. simpl in Hs. destruct (d_groups d !! as_i64 gid) as [g|] eqn:Eg; [|done].
  case_decide; [|done]. injection Hs as <-.
  assert (in_group (member_upserted role now (d_members d !! (as_i64 gid, as_i64 uid))) = true) as Hi
    by (unfold member_upserted; by case_match).
  assert (gm_role (member_upserted role now (d_members d !! (as_i64 gid, as_i64 uid))) = member_role_to_i16 role) as Hg
    by (unfold member_upserted; by case_match).
  split; [|split; [done|]].
  - apply (groups_ok_row x); [done|done|by eexists|]. intros Hno _. rewrite Hg, Eg. destruct role; [by intros _; apply Hrole|done|done].
  - eexists. rewrite active_member_insert, decide_True by done. by rewrite Hi.
Qed.
Lemma recompute_ok (f : Io) i gid d d' : groups_ok (Some (as_i64 gid)) d -> recompute_group_member_count_in_tx f i gid d = Ok d' ->
  groups_ok None d' /\ d_members d' = d_members d.
Proof.
  intros [O G C W] Hs%statement_Ok. simpl in Hs. case_match; [|done]. injection Hs as <-. split; [|done].
  assert (forall g row, alter (fun r => with_count r (Z.of_nat (size (active_members d (as_i64 gid))))) (as_i64 gid) (d_groups d) !! g = Some row ->
    exists old, d_groups d !! g = Some old /\ g_owner_id row = g_owner_id old /\
      g_member_count row = if decide (g = as_i64 gid) then Z.of_nat (size (active_members d (as_i64 gid))) else g_member_count old) as Ha.
  { intros g row. destruct (decide (g = as_i64 gid)) as [->|Hne].
    - rewrite lookup_alter_eq. destruct (d_groups d !! as_i64 gid) as [old|]; [|done]. intros [= <-]. by exists old.
    - rewrite lookup_alter_ne by done. intros Hl. by exists row. }
  split; simpl.
  - intros g row (old & Hl & -> & _)%Ha. by eapply O.
  - intros g u r Hl. apply G in Hl as [row Hl]. destruct (decide (g = as_i64 gid)) as [->|Hne].
    + rewrite lookup_alter_eq, Hl. by eexists.
    + rewrite lookup_alter_ne by done. by eexists.
  - intros g row _ (old & Hl & _ & ->)%Ha. case_decide as Hg; [by subst|]. apply C; [congruence|done].
  - intros Hno g u r Hact H0. destruct (W Hno g u r Hact H0) as (old & Hl & Ho). destruct (decide (g = as_i64 gid)) as [->|Hne].
    + exists (with_count old (Z.of_nat (size (active_members d (as_i64 gid))))). by rewrite lookup_alter_eq, Hl.
    + exists old. by rewrite lookup_alter_ne.
Qed.
Lemma mark_left_ok (f : Io) i gid uid now d b d' : groups_ok None d -> mark_one_member_left_in_tx f i gid uid now d = Ok (b, d') ->
  if b then groups_ok (Some (as_i64 gid)) d' /\ active_member d' (as_i64 gid) (as_i64 uid) = None else d' = d.
Proof.
  intros Hok. unfold mark_one_member_left_in_tx. intros Hs. stmt.
  destruct (active_member d (as_i64 gid) (as_i64 uid)) as [r|] eqn:Ea; [|by injection Hs as <- <-]. stmt. injection Hs as <- <-.
  pose proof Ea as [Hl _]%active_member_spec. split.
  - destruct (groups_ok_row None d (as_i64 gid) (as_i64 uid)
      (mkGroupMember (gm_role r) (gm_nickname r) (gm_mute_until r) (gm_joined_at r) (Some now)) Hok) as [O G C W];
      [by left|by eapply (go_group _ _ Hok)|done|]. by split.
  - unfold active_member. simpl. by rewrite lookup_insert_eq.
Qed.
Lemma groups_ok_ext x d d' : d_groups d' = d_groups d -> d_members d' = d_members d -> groups_ok x d -> groups_ok x d'.
Proof. destruct d, d'. simpl. intros -> -> [O G C W]. by split. Qed.

(** ** Each operation keeps the invariant *)
Lemma join_tx_ok (f : Io) gid uid role now d u d' : groups_ok None d -> (role = Owner -> owner_joins) -> join_tx f gid uid role now d = Ok (u, d') ->
  groups_ok None d' /\ is_Some (active_member d' (as_i64 gid) (as_i64 uid)).
Proof.
  intros Hok Hr. unfold join_tx. intros Hs. repeat stmt. injection Hs as _ <-.
  match goal with U : upsert_one_member_in_tx _ _ _ _ _ _ _ = _ |- _ => apply (upsert_ok _ _ _ _ _ _ _ _ _ Hok) in U as (Hok1 & _ & r & Hm & _); [|by left|intros Hno Ho; by destruct (Hno (Hr Ho))] end.
  match goal with R : recompute_group_member_count_in_tx _ _ _ _ = _ |- _ => apply (recompute_ok _ _ _ _ _ Hok1) in R as [Hok2 Hd] end.
  split; [done|]. exists r. unfold active_member. by rewrite Hd.
Qed.
Lemma leave_tx_ok (f : Io) gid uid now d u d' : groups_ok None d -> leave_tx f gid uid now d = Ok (u, d') ->
  groups_ok None d' /\ active_member d' (as_i64 gid) (as_i64 uid) = None.
Proof.
  intros Hok. unfold leave_tx. intros Hs. stmt.
  destruct (mark_one_member_left_in_tx f 1 gid uid now d) as [[b d1]|] eqn:E; [|done]. pose proof (mark_left_ok _ _ _ _ _ _ _ _ Hok E) as Hb.
  destruct b; simpl in Hs.
  - destruct Hb as [Hok1 Hn]. stmt. injection Hs as _ <-.
    match goal with R : recompute_group_member_count_in_tx _ _ _ _ = _ |- _ => apply (recompute_ok _ _ _ _ _ Hok1) in R as [Hok2 Hd] end.
    split; [done|]. unfold active_member in *. by rewrite Hd.
  - injection Hs as _ <-. subst d1. split; [done|]. revert E. unfold mark_one_member_left_in_tx. intros E. stmt.
    destruct (active_member d (as_i64 gid) (as_i64 uid)); [|done]. by stmt.
Qed.
Lemma remove_member_tx_ok (f : Io) gid uid now d u d' : groups_ok None d -> remove_member_tx f gid uid now d = Ok (u, d') ->
  groups_ok None d' /\ active_member d' (as_i64 gid) (as_i64 uid) = None.
Proof.
  intros Hok. unfold remove_member_tx. intros Hs. stmt.
  destruct (mark_one_member_left_in_tx f 1 gid uid now d) as [[[|] d1]|] eqn:E; try done. simpl in Hs. stmt. injection Hs as _ <-.
  apply (mark_left_ok _ _ _ _ _ _ _ _ Hok) in E as [Hok1 Hn].
  match goal with R : recompute_group_member_count_in_tx _ _ _ _ = _ |- _ => apply (recompute_ok _ _ _ _ _ Hok1) in R as [Hok2 Hd] end.
  split; [done|]. unfold active_member in *. by rewrite Hd.
Qed.
Lemma add_member_tx_ok (f : Io) gid uid now d u d' : groups_ok None d -> add_member_tx f gid uid now d = Ok (u, d') -> groups_ok None d'.
Proof.
  intros Hok. unfold add_member_tx. intros Hs. do 2 stmt. case_match; [done|]. repeat stmt. injection Hs as _ <-.
  match goal with U : upsert_one_member_in_tx _ _ _ _ _ _ _ = _ |- _ => apply (upsert_ok _ _ _ _ _ _ _ _ _ Hok) in U as (Hok1 & _); [|by left|done] end.
  match goal with R : recompute_group_member_count_in_tx _ _ _ _ = _ |- _ => by apply (recompute_ok _ _ _ _ _ Hok1) in R as [Hok2 Hd] end.
Qed.
Lemma set_role_row_ok d gid uid r : groups_ok None d -> r <> Owner -> groups_ok None (set_role_row d gid uid r).
Proof.
  intros Hok Hr. unfold set_role_row. destruct (active_member d (as_i64 gid) (as_i64 uid)) as [m|] eqn:E; [|done].
  apply (groups_ok_same_activity d _ _ m); [done|done|by apply active_member_spec in E as [_ ?]|]. by destruct r.
Qed.
Lemma set_role_tx_ok (f : Io) gid uid r d u d' : groups_ok None d -> r <> Owner -> set_role_tx f gid uid r d = Ok (u, d') -> groups_ok None d'.
Proof.
  intros Hok Hr. unfold set_role_tx. intros Hs. do 2 stmt. destruct (active_member d (as_i64 gid) (as_i64 uid)) as [m|] eqn:E; [|done].
  case_decide; [done|]. stmt. injection Hs as _ <-. by apply set_role_row_ok.
Qed.
Lemma set_role_row_other d gid uid r g u : (g, u) <> (as_i64 gid, as_i64 uid) -> active_member (set_role_row d gid uid r) g u = active_member d g u.
Proof. intros Hne. unfold set_role_row. case_match; [|done]. rewrite active_member_insert. by rewrite decide_False. Qed.
Lemma set_role_row_self d gid uid r m : active_member d (as_i64 gid) (as_i64 uid) = Some m ->
  active_member (set_role_row d gid uid r) (as_i64 gid) (as_i64 uid) = Some (with_gm_role m (member_role_to_i16 r)).
Proof.
  intros Hm. unfold set_role_row. rewrite Hm. rewrite active_member_insert, decide_True by done.
  apply active_member_spec in Hm as [_ Hi]. unfold in_group in *. simpl. by destruct (gm_left_at m).
Qed.
Lemma set_role_row_groups d gid uid r : d_groups (set_role_row d gid uid r) = d_groups d.
Proof. unfold set_role_row. by case_match. Qed.

(** What a committed transfer did. *)
Lemma transfer_tx_spec (f : Io) gid current new d u d' : transfer_tx f gid current new d = Ok (u, d') ->
  exists g m, d_groups d !! as_i64 gid = Some g /\ as_u64 (g_owner_id g) = current /\ active_member d (as_i64 gid) (as_i64 new) = Some m /\
    d' = let d2 := set_role_row (set_role_row d gid current Member) gid new Owner in
         set_groups d2 (alter (fun r => with_owner r (as_i64 new)) (as_i64 gid) (d_groups d2)).
Proof.
  unfold transfer_tx. intros Hs. do 2 stmt. destruct (d_groups d !! as_i64 gid) as [g|] eqn:Eg; [|done].
  case_decide as Hc; [done|]. stmt. destruct (active_member d (as_i64 gid) (as_i64 new)) as [m|] eqn:Em; [|done].
  do 3 stmt. injection Hs as _ <-. exists g, m. done.
Qed.
Lemma transfer_tx_ok (f : Io) gid current new d u d' : groups_ok None d -> is_u64 new -> transfer_tx f gid current new d = Ok (u, d') ->
  groups_ok None d'.
Proof.
  intros Hok Hnew (g & m & Hg & Hcur & Hm & ->)%transfer_tx_spec. simpl.
  assert (as_i64 current = g_owner_id g) as Hown by (subst current; apply as_i64_as_u64_id; by apply (go_owner_i64 _ _ Hok _ _ Hg)).
  set (d1 := set_role_row d gid current Member). assert (groups_ok None d1) as Hok1 by (by apply set_role_row_ok).
  assert (~ owner_joins -> forall u r, active_member d1 (as_i64 gid) u = Some r -> gm_role r <> 0) as Hnone.
  { intros Hno w r Hr H0. destruct (decide (w = as_i64 current)) as [->|Hne].
    - destruct (active_member d (as_i64 gid) (as_i64 current)) as [x|] eqn:Ex.
      + unfold d1 in Hr. rewrite (set_role_row_self _ _ _ _ _ Ex) in Hr. injection Hr as <-. done.
      + unfold d1, set_role_row in Hr. rewrite Ex in Hr. congruence.
    - unfold d1 in Hr. rewrite set_role_row_other in Hr by congruence. destruct (go_owner _ _ Hok Hno _ _ _ Hr H0) as (g' & Hg' & Ho). congruence. }
  assert (is_Some (active_member d1 (as_i64 gid) (as_i64 new))) as [m1 Hm1].
  { destruct (decide (as_i64 new = as_i64 current)) as [He|Hne].
    - rewrite He in Hm |- *. unfold d1. by rewrite (set_role_row_self _ _ _ _ _ Hm).
    - unfold d1. by rewrite set_role_row_other by congruence; eexists. }
  set (d2 := set_role_row d1 gid new Owner). pose proof (set_role_row_groups d1 gid new Owner : d_groups d2 = _) as Hg2.
  pose proof (set_role_row_groups d gid current Member : d_groups d1 = _) as Hg1.
  assert (~ owner_joins -> forall u r, active_member d2 (as_i64 gid) u = Some r -> gm_role r = 0 -> u = as_i64 new) as Hsole.
  { intros Hno w r Hr H0. destruct (decide (w = as_i64 new)) as [->|Hne]; [done|]. unfold d2 in Hr.
    rewrite set_role_row_other in Hr by congruence. by apply (Hnone Hno) in Hr. }
  destruct Hok1 as [O G C W]. split; simpl; rewrite ?Hg2, ?Hg1.
  - intros x row. destruct (decide (x = as_i64 gid)) as [->|Hne].
    + rewrite lookup_alter_eq, Hg. intros [= <-]. by apply as_i64_is_i64.
    + rewrite lookup_alter_ne by done. intros Hl. apply (go_owner_i64 _ _ Hok _ _ Hl).
  - intros x w r Hl. apply lookup_alter_is_Some. rewrite <- Hg1. unfold d2, set_role_row in Hl. rewrite Hm1 in Hl. simpl in Hl.
    apply lookup_insert_Some in Hl as [[[= <- <-] _]|[_ Hl]]; [rewrite Hg1; by eexists|by eapply G].
  - intros x row _ Hl.
    assert (exists old, d_groups d1 !! x = Some old /\ g_member_count row = g_member_count old) as (old & Hold & ->).
    { rewrite Hg1. destruct (decide (x = as_i64 gid)) as [->|Hne].
      - rewrite lookup_alter_eq, Hg in Hl. injection Hl as <-. by exists g.
      - rewrite lookup_alter_ne in Hl by done. by exists row. }
    rewrite (C x old) by done. f_equal. apply active_size. intros w.
    change (active_member (set_groups d2 _) x w) with (active_member d2 x w).
    destruct (decide ((x, w) = (as_i64 gid, as_i64 new))) as [[= -> ->]|Hne].
    + unfold d2. rewrite Hm1, (set_role_row_self _ _ _ _ _ Hm1). split; by eexists.
    + unfold d2. by rewrite set_role_row_other.
  - intros Hno x w r. change (active_member (set_groups d2 _) x w) with (active_member d2 x w). intros Hr H0.
    destruct (decide (x = as_i64 gid)) as [->|Hne].
    + apply (Hsole Hno w r Hr) in H0 as ->. exists (with_owner g (as_i64 new)). by rewrite lookup_alter_eq, Hg.
    + unfold d2 in Hr. rewrite set_role_row_other in Hr by congruence. destruct (W Hno _ _ _ Hr H0) as (g' & Hg' & Ho).
      exists g'. rewrite lookup_alter_ne by done. by rewrite <- Hg1.
Qed.

(** Members and groups removed with their group. *)
Lemma drop_group_ok gid d d' : groups_ok None d -> d_groups d' = delete gid (d_groups d) ->
  d_members d' = filter (fun p => p.1.1 <> gid) (d_members d) -> groups_ok None d'.
Proof.
  intros [O G C W] Hg Hm.
  assert (forall x w, active_member d' x w = if decide (x = gid) then None else active_member d x w) as Ha.
  { intros x w. unfold active_member. rewrite Hm. case_decide as Hx.
    - subst x. rewrite (proj2 (map_lookup_filter_None _ _ _)); [done|]. right. intros r _ Hf. by apply Hf.
    - destruct (d_members d !! (x, w)) as [r|] eqn:E.
      + by rewrite (proj2 (map_lookup_filter_Some _ _ _ r)).
      + rewrite (proj2 (map_lookup_filter_None _ _ _)); [done|by left]. }
  split; rewrite ?Hg, ?Hm.
  - intros x row [_ Hl]%lookup_delete_Some. by eapply O.
  - intros x w r [Hl Hx]%map_lookup_filter_Some. simpl in Hx. rewrite lookup_delete_ne by congruence. by eapply G.
  - intros x row _ [Hx Hl]%lookup_delete_Some. rewrite (C x row) by done. f_equal. apply active_size. intros w.
    rewrite Ha, decide_False by congruence. done.
  - intros Hno x w r. rewrite Ha. case_decide; [done|]. intros Hr Hz. destruct (W Hno _ _ _ Hr Hz) as (g & Hl & Ho). exists g.
    by rewrite lookup_delete_ne.
Qed.
Lemma delete_group_row_ok gid d d' : groups_ok None d -> delete_group_row gid d = Ok d' -> groups_ok None d'.
Proof. intros Hok. unfold delete_group_row. case_match; [done|]. intros [= <-]. by apply (drop_group_ok gid d). Qed.
Lemma dissolve_tx_ok (f : Io) gid d u d' : groups_ok None d -> dissolve_tx f gid d = Ok (u, d') -> groups_ok None d'.
Proof.
  intros Hok. unfold dissolve_tx. intros Hs. do 2 stmt. case_match; [done|]. do 2 stmt. stmt. injection Hs as _ <-.
  match goal with S : statement _ _ _ _ = _ |- _ => apply statement_Ok in S; unfold delete_group_row in S; case_match; [done|]; injection S as <- end.
  apply (drop_group_ok (as_i64 gid) d); [done|done|]. simpl. rewrite map_filter_filter_l; [done|]. intros. done.
Qed.

(** A new group. *)
Lemma upsert_extra_ok (f : Io) uids : forall i gid now seen d n d', groups_ok (Some (as_i64 gid)) d ->
  upsert_extra f i gid now seen uids d = Ok (n, d') -> groups_ok (Some (as_i64 gid)) d' /\ d_groups d' = d_groups d.
Proof.
  induction uids as [|u rest IH]; intros i gid now seen d n d' Hok; simpl; [by intros [= _ <-]|].
  case_decide; [by apply IH|]. intros Hs. stmt.
  match goal with U : upsert_one_member_in_tx _ _ _ _ _ _ _ = _ |- _ => apply (upsert_ok _ _ _ _ _ _ _ _ _ Hok) in U as (Hok1 & Hg & _); [|by right|done] end.
  apply (IH _ _ _ _ _ _ _ Hok1) in Hs as [? ->]. done.
Qed.
Lemma insert_group_ok gid row d d' : groups_ok None d -> is_i64 (g_owner_id row) -> insert_group gid row d = Ok d' ->
  groups_ok (Some gid) d' /\ d_groups d' = <[gid := row]> (d_groups d).
Proof.
  intros [O G C W] Hi. unfold insert_group. case_bool_decide as Hn; [done|]. case_match; [done|]. case_decide; [|done]. intros [= <-].
  split; [|done]. apply eq_None_not_Some in Hn. split; simpl.
  - intros x r [[<- <-]|[_ Hl]]%lookup_insert_Some; [done|by eapply O].
  - intros x w r Hl. destruct (decide (x = gid)) as [->|Hx]; [rewrite lookup_insert_eq; by eexists|].
    rewrite lookup_insert_ne by done. by eapply G.
  - intros x r Hx Hl. rewrite lookup_insert_ne in Hl by congruence. by apply C.
  - intros Hno x w r Hr Hz. destruct (W Hno _ _ _ Hr Hz) as (g & Hg & Ho). exists g. rewrite lookup_insert_ne; [done|congruence].
Qed.
Lemma create_group_tx_ok (f : Io) now gid creator nm desc qr extra d d' : groups_ok None d -> is_u64 creator -> is_i64 gid ->
  create_group_tx f now gid creator nm desc qr extra d = Ok d' -> groups_ok None d'.
Proof.
  intros Hok Hc Hg. unfold create_group_tx. destruct (f 0%nat); [done|]. destruct (f 1%nat); [done|].
  destruct (insert_group gid _ d) as [d1|] eqn:E; [|done]. destruct (upsert_group_members_in_tx _ _ _ _ _ _ _) as [d2|] eqn:U; [|done].
  intros [= <-]. apply (insert_group_ok _ _ _ _ Hok) in E as [Hok1 Hg1]; [|by apply as_i64_is_i64].
  unfold upsert_group_members_in_tx in U. repeat stmt. rewrite <- (as_i64_as_u64_id gid Hg) in Hok1.
  match goal with Q : upsert_one_member_in_tx _ _ _ _ Owner _ _ = _ |- _ =>
    apply (upsert_ok _ _ _ _ _ _ _ _ _ Hok1) in Q as (Hok2 & _); [|by right|]; [|intros _ _; eexists; by rewrite Hg1, (as_i64_as_u64_id gid Hg), lookup_insert_eq] end.
  match goal with Q : upsert_extra _ _ _ _ _ _ _ = Ok ?p |- _ => destruct p as [n d3]; apply (upsert_extra_ok _ _ _ _ _ _ _ _ _ Hok2) in Q as [Hok3 _] end.
  by apply recompute_ok in U as [? _].
Qed.

(** ** Operations that leave groups and members alone *)
Definition same_groups (d d' : GroupDb) : Prop := d_groups d' = d_groups d /\ d_members d' = d_members d.
Lemma same_groups_refl d : same_groups d d.
Proof. done. Qed.
Lemma same_groups_trans d d1 d2 : same_groups d d1 -> same_groups d1 d2 -> same_groups d d2.
Proof. intros [A B] [C D]. split; congruence. Qed.
Lemma same_groups_ok x d d' : same_groups d d' -> groups_ok x d -> groups_ok x d'.
Proof. intros [A B]. by apply groups_ok_ext. Qed.
Hint Resolve same_groups_refl : core.

Lemma single_same {A} (f : Io) i prefix d (r : result (A * GroupDb) string) : (forall a d', r = Ok (a, d') -> same_groups d d') ->
  same_groups d (single f i prefix d r).2.
Proof. intros Hr. by apply (single_inv (same_groups d)). Qed.
Lemma ensure_rows_same (f : Io) uids : forall i cid d, same_groups d (ensure_user_channel_rows f i cid uids d).2.
Proof.
  induction uids as [|u rest IH]; intros i cid d; simpl; [done|].
  match goal with |- context [single f i ?p d ?r] => pose proof (single_same f i p d r) as Hs; destruct (single f i p d r) as [[a|e] d'] end.
  - eapply same_groups_trans; [|apply IH]. apply Hs. intros ? ? Hr. repeat case_match; simplify_eq; done.
  - apply Hs. intros ? ? Hr. repeat case_match; simplify_eq; done.
Qed.
Lemma add_participant_same (f : Io) i now d cid uid r : same_groups d (add_participant f i now d cid uid r).2.
Proof.
  unfold add_participant.
  match goal with |- context [single f i ?p d ?q] => pose proof (single_same f i p d q) as Hs; destruct (single f i p d q) as [[a|e] d'] end.
  - eapply same_groups_trans; [apply Hs; intros ? ? Hr; repeat case_match; simplify_eq; done|]. apply single_same. intros ? ? [= <- <-].
    unfold open_interval. destruct (existsb _ _); by split.
  - apply Hs. intros ? ? Hr. repeat case_match; simplify_eq; done.
Qed.
Lemma add_participants_same (f : Io) ms : forall i now cid d, same_groups d (add_participants f i now cid ms d).
Proof.
  induction ms as [|[u m] rest IH]; intros i now cid d; simpl; [done|]. eapply same_groups_trans; [apply add_participant_same|apply IH].
Qed.
Lemma create_same (f : Io) i now sync fresh d c : same_groups d (create f i now sync fresh d c).2.
Proof.
  unfold create.
  assert (forall k, same_groups d (single f i "Failed to create channel: " d
    (match channel_refs_ok d (row_of_channel c) with Err e => Err e | Ok _ => Ok (tt, set_channels d (<[k := row_of_channel c]> (d_channels d))) end)).2) as Hk.
  { intros k. apply single_same. intros ? ? Hr. case_match; simplify_eq. done. }
  destruct (as_i64 (id c) =? 0).
  - destruct (d_channels d !! fresh); [done|]. specialize (Hk fresh). by destruct (single _ _ _ _ _) as [[u|] d'].
  - destruct (d_channels d !! as_i64 (id c)); [by destruct (f i)|]. specialize (Hk (as_i64 (id c))). by destruct (single _ _ _ _ _) as [[u|] d'].
Qed.
Lemma direct_same (f : Io) now sync fresh u1 u2 d : same_groups d (create_or_get_direct_channel f now sync fresh u1 u2 d).2.
Proof.
  unfold create_or_get_direct_channel.
  assert (same_groups d (commit_tx f 5 "Failed to commit tx: " d (create_direct_in_tx f (timestamp_millis now) fresh u1 u2 d)).2) as Hs.
  { apply (commit_tx_inv (same_groups d)); [done|]. intros [c b] d' Hd. revert Hd. unfold create_direct_in_tx, add_missing_participant.
    intros Hd. destruct (if u1 <=? u2 then _ else _) as [lo hi]. repeat (case_match || stmt); simplify_eq; done. }
  destruct (commit_tx f 5 _ d _) as [[[c b]|] d']; exact Hs.
Qed.
Lemma upsert_flags_same (f : Io) prefix uid cid g d : same_groups d (upsert_flags f prefix uid cid g d).2.
Proof. unfold upsert_flags. apply single_same. intros ? ? Hr. repeat case_match; simplify_eq; done. Qed.
Lemma load_db (f : Io) i now sync cid s : st_db (get_channel_opt f i now sync cid s).2 = st_db s.
Proof. unfold get_channel_opt. by repeat case_match. Qed.
Lemma private_db (f : Io) i now sync u1 u2 cid s : st_db (create_private_chat_with_id f i now sync u1 u2 cid s) = st_db s.
Proof.
  unfold create_private_chat_with_id. pose proof (load_db f i now sync cid s) as Hl.
  by destruct (get_channel_opt f i now sync cid s) as [[c|] s1].
Qed.

(** ** The service keeps the invariant *)
Definition state_ok (s : State) : Prop := groups_ok None (st_db s).
Lemma tx_ok {A} (f : Io) i prefix d (body : result (A * GroupDb) ServerError) :
  groups_ok None d -> (forall a d', body = Ok (a, d') -> groups_ok None d') -> groups_ok None (commit_tx f i prefix d body).2.
Proof. apply commit_tx_inv. Qed.

Lemma join_channel_ok (f : Io) now cid uid role s : (role = Some Owner -> owner_joins) -> state_ok s -> state_ok (join_channel f now cid uid role s).2.
Proof.
  intros Hr Hok. unfold join_channel. destruct (cs_channels (st_sv s) !! cid) as [c|]; [|done]. do 2 (case_match; [done|]).
  destruct (add_member now c uid role) as [c'|]; [|done].
  set (p := if decide (channel_type c = Group) then _ else _). assert (groups_ok None p.2) as Hp.
  { unfold p. case_decide; [|done]. apply tx_ok; [done|]. intros a d' Hj. apply join_tx_ok in Hj as [? _]; [done|done|].
    destruct role as [[]|]; auto; done. }
  destruct p as [[a|e] d1]; [|done]. pose proof (ensure_rows_same f [uid] 4 cid d1) as Hs.
  destruct (ensure_user_channel_rows f 4 cid [uid] d1) as [[x|x] d2]; by apply (same_groups_ok _ d1).
Qed.
Lemma leave_channel_ok (f : Io) now cid uid s : state_ok s -> state_ok (leave_channel f now cid uid s).2.
Proof.
  intros Hok. unfold leave_channel. destruct (cs_channels (st_sv s) !! cid) as [c|]; [|done].
  destruct (remove_member now c uid) as [[m c']|]; [|done].
  set (p := if decide (channel_type c = Group) then _ else _). assert (groups_ok None p.2) as Hp.
  { unfold p. case_decide; [|done]. apply tx_ok; [done|]. intros a d' Hj. by apply leave_tx_ok in Hj as [? _]. }
  by destruct p as [[a|e] d1].
Qed.
Lemma set_member_role_db now cid uid r s : st_db (set_member_role now cid uid r s).2 = st_db s.
Proof. unfold set_member_role. by repeat case_match. Qed.
Lemma set_member_muted_ok (f : Io) cid uid muted until s : state_ok s -> state_ok (set_member_muted f cid uid muted until s).2.
Proof.
  intros Hok. unfold set_member_muted.
  match goal with |- context [single f 0 ?p ?d ?r] => assert (groups_ok None (single f 0 p d r).2) as Hs; [|destruct (single f 0 p d r) as [[a|e] d']] end.
  - apply (single_inv (groups_ok None)); [done|]. intros a d' [= <- <-]. simpl. destruct (active_member _ _ _) as [r|] eqn:E; [|done].
    pose proof E as [_ Hi]%active_member_spec. by apply (groups_ok_same_activity _ _ _ r).
  - by repeat case_match.
  - done.
Qed.
Lemma remove_member_admin_ok (f : Io) now gid uid s : state_ok s -> state_ok (remove_member_admin f now gid uid s).2.
Proof.
  intros Hok. unfold remove_member_admin.
  pose proof (tx_ok f 4 "提交事务失败: " _ (remove_member_tx f gid uid (timestamp_millis now) (st_db s)) Hok) as Ht.
  destruct (commit_tx _ _ _ _ _) as [r d']. apply Ht. intros a d'' Hr. by apply remove_member_tx_ok in Hr as [? _].
Qed.
Lemma add_member_admin_ok (f : Io) now gid uid s : state_ok s -> state_ok (add_member_admin f now gid uid s).2.
Proof.
  intros Hok. unfold add_member_admin.
  pose proof (tx_ok f 4 "提交事务失败: " _ (add_member_tx f gid uid (timestamp_millis now) (st_db s)) Hok) as Ht.
  destruct (commit_tx _ _ _ _ _) as [[a|e] d']; [apply join_channel_ok; [done|]|]; apply Ht; intros ? d'' Hr; by apply add_member_tx_ok in Hr.
Qed.
Lemma set_member_role_admin_ok (f : Io) now gid uid r s : state_ok s -> state_ok (set_member_role_admin f now gid uid r s).2.
Proof.
  intros Hok. unfold set_member_role_admin. case_decide as Ho; [done|].
  pose proof (tx_ok f 3 "提交事务失败: " _ (set_role_tx f gid uid r (st_db s)) Hok) as Ht.
  destruct (commit_tx _ _ _ _ _) as [[a|e] d']; unfold state_ok; simpl; rewrite ?set_member_role_db; apply Ht; intros ? d'' Hr;
    by apply set_role_tx_ok in Hr.
Qed.
Lemma transfer_group_owner_ok (f : Io) now gid current new s : is_u64 new -> state_ok s -> state_ok (transfer_group_owner f now gid current new s).2.
Proof.
  intros Hn Hok. unfold transfer_group_owner. case_match; [done|].
  pose proof (tx_ok f 6 "提交转让群主事务失败: " _ (transfer_tx f gid current new (st_db s)) Hok) as Ht.
  destruct (commit_tx _ _ _ _ _) as [[a|e] d']; unfold state_ok; simpl; rewrite ?set_member_role_db; apply Ht; intros ? d'' Hr;
    by apply transfer_tx_ok in Hr.
Qed.
Lemma dissolve_group_admin_ok (f : Io) gid s : state_ok s -> state_ok (dissolve_group_admin f gid s).2.
Proof.
  intros Hok. unfold dissolve_group_admin. pose proof (tx_ok f 5 "提交事务失败: " _ (dissolve_tx f gid (st_db s)) Hok) as Ht.
  destruct (commit_tx _ _ _ _ _) as [r d']. apply Ht. intros a d'' Hr. by apply dissolve_tx_ok in Hr.
Qed.
Lemma hide_channel_same (f : Io) uid cid hidden s : same_groups (st_db s) (st_db (hide_channel f uid cid hidden s).2).
Proof.
  unfold hide_channel. pose proof (upsert_flags_same f "hide_channel DB update failed: " uid cid (fun r => mkUserChannel (uc_pinned r) (uc_muted r) hidden) (st_db s)) as Hs.
  by destruct (upsert_flags _ _ _ _ _ _) as [[a|e] d'].
Qed.
Lemma direct_channel_same (f : Io) now sync fresh uid target s :
  same_groups (st_db s) (st_db (get_or_create_direct_channel f now sync fresh uid target s).2).
Proof.
  unfold get_or_create_direct_channel. pose proof (direct_same f now sync fresh uid target (st_db s)) as Hd.
  destruct (create_or_get_direct_channel f now sync fresh uid target (st_db s)) as [[[ch created]|e] d1]; [|exact Hd]. simpl in Hd.
  set (p := if created then _ else _). assert (st_db p.2 = d1) as Hp.
  { unfold p. destruct created; [done|]. pose proof (load_db f 10 now sync (id ch) (mkState d1 (st_sv s))) as Hl.
    by destruct (get_channel_opt f 10 now sync (id ch) (mkState d1 (st_sv s))) as [o s2]. }
  destruct p as [load s2]. simpl in Hp. subst d1. pose proof (ensure_rows_same f [uid; target] 20 (id ch) (st_db s2)) as He.
  destruct (ensure_user_channel_rows f 20 (id ch) [uid; target] (st_db s2)) as [[a|e] d3]; simpl in He;
    [|by eapply same_groups_trans; [exact Hd|exact He]].
  set (s4 := if load then _ else _). assert (st_db s4 = d3) as H4 by (unfold s4; destruct load; [by rewrite private_db|done]).
  eapply same_groups_trans; [exact Hd|]. eapply same_groups_trans; [exact He|]. simpl.
  case_decide; simpl; [|by rewrite H4]. eapply same_groups_trans; [|apply hide_channel_same]. simpl. by rewrite H4.
Qed.
Lemma create_group_rows_ok cfg (f g h k : Io) now sync gid creator qr r s : is_u64 creator -> is_i64 gid -> state_ok s ->
  state_ok (create_group_channel_rows cfg f g h k now sync gid creator qr r s).2.
Proof.
  intros Hc Hg Hok. unfold create_group_channel_rows.
  destruct (create_group_tx f (timestamp_millis now) gid creator (default EmptyString (cr_name r)) (cr_description r) qr (cr_member_ids r) (st_db s)) as [d1|] eqn:E; [|done].
  apply create_group_tx_ok in E; [|done..]. destruct (g 0%nat); [by destruct (io_applied g 0)|].
  pose proof (create_same g 1 now sync gid d1 (new_group_channel cfg now (as_u64 gid) creator r)) as Hs.
  destruct (create g 1 now sync gid d1 _) as [[c|e] d2]; simpl in Hs.
  - set (d3 := add_participants _ _ _ _ _ _). assert (groups_ok None d3) as H3.
    { unfold d3. eapply same_groups_ok; [apply add_participants_same|]. by apply (same_groups_ok _ d1). }
    match goal with |- context [ensure_user_channel_rows k 0 ?a ?b d3] => pose proof (ensure_rows_same k b 0 a d3) as H4; destruct (ensure_user_channel_rows k 0 a b d3) as [[x|x] d4] end;
      by apply (same_groups_ok _ d3).
  - apply (single_inv (groups_ok None)); [by apply (same_groups_ok _ d1)|]. intros a d3 Hr.
    destruct (delete_group_row gid d2) eqn:Ed; [|done]. injection Hr as _ <-. apply (delete_group_row_ok gid d2); [by apply (same_groups_ok _ d1)|done].
Qed.
Lemma create_channel_ok cfg (f g h k : Io) now sync fresh creator qr r s : is_u64 creator -> is_i64 fresh -> state_ok s ->
  state_ok (create_channel cfg f g h k now sync fresh creator qr r s).2.
Proof.
  intros Hc Hf Hok. unfold create_channel. destruct (validate_create_request _ _ _ _); [|done]. destruct (cr_type r); [| |done].
  - destruct (cr_member_ids r) as [|peer [|]]; try done. pose proof (direct_channel_same f now sync fresh creator peer s) as Hs.
    destruct (get_or_create_direct_channel f now sync fresh creator peer s) as [[[cid b]|e] s1]; [|by apply (same_groups_ok _ (st_db s))].
    pose proof (load_db g 0 now sync cid s1) as Hl. destruct (get_channel_opt g 0 now sync cid s1) as [o s2]. unfold state_ok. simpl in *.
    rewrite Hl. by apply (same_groups_ok _ (st_db s)).
  - destruct (cr_name r); [|done]. by apply create_group_rows_ok.
Qed.

(** ** Runs of the program *)
Definition with_st (w : World) (s : State) : World := mkWorld s (w_requests w) (w_approval w).
Definition with_req (w : World) (p : request_table * ApprovalService) : World := mkWorld (w_state w) p.1 p.2.

(** One call of the channel service or of the approval service. *)
Inductive group_step : World -> World -> Prop :=
| GsLoad w (f : Io) i now sync cid : group_step w (with_st w (get_channel_opt f i now sync cid (w_state w)).2)
| GsEvict w cap : group_step w (with_st w (mkState (st_db (w_state w)) (evict_stale_memory cap (st_sv (w_state w)))))
| GsRestart w : group_step w (mkWorld (mkState (st_db (w_state w)) service_new) (w_requests w) approval_new)
| GsParticipant w (f : Io) i now cid uid r :
    group_step w (with_st w (mkState (add_participant f i now (st_db (w_state w)) cid uid r).2 (st_sv (w_state w))))
| GsJoin w (f : Io) now cid uid r : (r = Some Owner -> owner_joins) -> group_step w (with_st w (join_channel f now cid uid r (w_state w)).2)
| GsLeave w (f : Io) now cid uid : group_step w (with_st w (leave_channel f now cid uid (w_state w)).2)
| GsRole w now cid uid r : group_step w (with_st w (set_member_role now cid uid r (w_state w)).2)
| GsMuted w (f : Io) cid uid muted until : group_step w (with_st w (set_member_muted f cid uid muted until (w_state w)).2)
| GsRemoveAdmin w (f : Io) now gid uid : group_step w (with_st w (remove_member_admin f now gid uid (w_state w)).2)
| GsAddAdmin w (f : Io) now gid uid : group_step w (with_st w (add_member_admin f now gid uid (w_state w)).2)
| GsRoleAdmin w (f : Io) now gid uid r : group_step w (with_st w (set_member_role_admin f now gid uid r (w_state w)).2)
| GsTransfer w (f : Io) now gid current new : is_u64 new -> group_step w (with_st w (transfer_group_owner f now gid current new (w_state w)).2)
| GsDissolve w (f : Io) gid : group_step w (with_st w (dissolve_group_admin f gid (w_state w)).2)
| GsCreate w cfg (f g h k : Io) now sync fresh creator qr r : is_u64 creator -> is_i64 fresh ->
    group_step w (with_st w (create_channel cfg f g h k now sync fresh creator qr r (w_state w)).2)
| GsDirect w (f : Io) now sync fresh uid target : is_i64 fresh -> group_step w (with_st w (get_or_create_direct_channel f now sync fresh uid target (w_state w)).2)
| GsApproveTx w (f : Io) now rid gid uid handler : group_step w (approve_join_request_in_tx f now rid gid uid handler w).2
| GsLoadPending w (f : Io) : group_step w (with_req w (w_requests w, (load_pending f (w_requests w) (w_approval w)).2))
| GsReload w (f : Io) i rid : group_step w (with_req w (w_requests w, (reload_request f i rid (w_requests w) (w_approval w)).2))
| GsRequest w (f : Io) now rid gid uid m msg hours :
    group_step w (let '(_, t, v) := create_join_request f now rid gid uid m msg hours (w_requests w) (w_approval w) in with_req w (t, v))
| GsApprove w (f : Io) now rid handler :
    group_step w (let '(_, t, v) := approve_request f now rid handler (w_requests w) (w_approval w) in with_req w (t, v))
| GsReject w (f : Io) now rid handler reason :
    group_step w (let '(_, t, v) := reject_request f now rid handler reason (w_requests w) (w_approval w) in with_req w (t, v))
| GsCleanup w (f : Io) now :
    group_step w (let '(_, t, v) := cleanup_expired_requests f now (w_requests w) (w_approval w) in with_req w (t, v)).

Lemma approve_in_tx_ok (f : Io) now rid gid uid handler w : state_ok (w_state w) ->
  state_ok (w_state (approve_join_request_in_tx f now rid gid uid handler w).2).
Proof.
  intros Hok. unfold approve_join_request_in_tx.
  destruct (approve_tx f now rid gid uid handler (w_requests w) (st_db (w_state w))) as [[[b t'] d']|e] eqn:E; [|done].
  destruct b; [|done]. assert (groups_ok None d') as Hd.
  { revert E. unfold approve_tx. intros Hs. do 2 stmt. destruct (w_requests w !! rid); [|done]. case_match; [|done]. repeat stmt. injection Hs as _ <-.
    match goal with U : upsert_one_member_in_tx _ _ _ _ _ _ _ = _ |- _ => apply (upsert_ok _ _ _ _ _ _ _ _ _ Hok) in U as (Hok1 & _); [|by left|done] end.
    match goal with R : recompute_group_member_count_in_tx _ _ _ _ = _ |- _ => by apply (recompute_ok _ _ _ _ _ Hok1) in R as [? _] end. }
  unfold commit_both. destruct (f 4%nat); [by destruct (io_applied f 4)|].
  pose proof (ensure_rows_same f [uid] 5 gid d') as Hs. destruct (ensure_user_channel_rows f 5 gid [uid] d') as [[x|x] d2]; by apply (same_groups_ok _ d').
Qed.
Lemma group_step_ok w w' : group_step w w' -> state_ok (w_state w) -> state_ok (w_state w').
Proof.
  intros Hs Hok. destruct Hs; simpl; try done.
  - unfold state_ok. by rewrite load_db.
  - eapply same_groups_ok; [apply add_participant_same|done].
  - by apply join_channel_ok.
  - by apply leave_channel_ok.
  - unfold state_ok. by rewrite set_member_role_db.
  - by apply set_member_muted_ok.
  - by apply remove_member_admin_ok.
  - by apply add_member_admin_ok.
  - by apply set_member_role_admin_ok.
  - by apply transfer_group_owner_ok.
  - by apply dissolve_group_admin_ok.
  - by apply create_channel_ok.
  - eapply same_groups_ok; [apply direct_channel_same|done].
  - by apply approve_in_tx_ok.
  - by destruct (create_join_request _ _ _ _ _ _ _ _ _ _) as [[? ?] ?].
  - by destruct (approve_request _ _ _ _ _ _) as [[? ?] ?].
  - by destruct (reject_request _ _ _ _ _ _ _) as [[? ?] ?].
  - by destruct (cleanup_expired_requests _ _ _ _) as [[? ?] ?].
Qed.
(** ** Join requests *)
(** A request keeps its group and its user, and a decision is never taken back. *)
Definition requests_kept (t t' : request_table) : Prop := forall rid r, t !! rid = Some r ->
  exists r', t' !! rid = Some r' /\ rr_group_id r' = rr_group_id r /\ rr_user_id r' = rr_user_id r /\ (rr_status r <> 0 -> rr_status r' <> 0).
Lemma requests_kept_refl t : requests_kept t t.
Proof. intros rid r Hr. by exists r. Qed.
Lemma requests_kept_trans t t1 t2 : requests_kept t t1 -> requests_kept t1 t2 -> requests_kept t t2.
Proof. intros Ha Hb rid r (r1 & Hr1 & G & U & S)%Ha. apply Hb in Hr1 as (r2 & Hr2 & G2 & U2 & S2). exists r2. repeat split; try congruence. auto. Qed.
Lemma on_table_kept {A} (f : Io) i prefix t (r : result (A * request_table) string) :
  (forall a t', r = Ok (a, t') -> requests_kept t t') -> requests_kept t (on_table f i prefix t r).2.
Proof.
  intros Hr. unfold on_table. destruct r as [[a t']|]; [|apply requests_kept_refl]. specialize (Hr a t' eq_refl).
  destruct (f i); [|done]. simpl. destruct (io_applied f i); [done|apply requests_kept_refl].
Qed.
Lemma alter_kept t rid st handler reason now : st <> Pending -> requests_kept t (alter (decided st handler reason now) rid t).
Proof.
  intros Hst rid' r Hr. destruct (decide (rid = rid')) as [<-|Hne].
  - rewrite lookup_alter_eq, Hr. eexists. repeat split. intros _. simpl. by destruct st.
  - rewrite lookup_alter_ne by done. by exists r.
Qed.
Lemma insert_kept t rid r st handler reason now : st <> Pending -> t !! rid = Some r -> requests_kept t (<[rid := decided st handler reason now r]> t).
Proof.
  intros Hst Hr rid' x Hx. destruct (decide (rid = rid')) as [<-|Hne].
  - rewrite lookup_insert_eq. assert (x = r) as -> by congruence. eexists. repeat split. intros _. simpl. by destruct st.
  - rewrite lookup_insert_ne by done. by exists x.
Qed.
Lemma request_insert_kept (f : Io) i q t : requests_kept t (request_insert f i q t).2.
Proof.
  apply on_table_kept. intros a t' Hr. destruct (t !! jr_request_id q) eqn:E; [injection Hr as _ <-; apply requests_kept_refl|].
  case_match; [done|]. injection Hr as _ <-. intros rid r Hl. exists r. rewrite lookup_insert_ne by congruence. done.
Qed.
Lemma update_status_kept (f : Io) i rid st handler reason now t : st <> Pending -> requests_kept t (update_status f i rid st handler reason now t).2.
Proof. intros Hst. apply on_table_kept. intros a t' [= _ <-]. by apply alter_kept. Qed.
Lemma cas_kept (f : Io) i rid st handler reason now t : st <> Pending ->
  requests_kept t (update_status_cas_pending f i rid st handler reason now t).2.
Proof.
  intros Hst. apply on_table_kept. intros a t' [= Hr]. destruct (t !! rid) as [r|] eqn:E; [|injection Hr as _ <-; apply requests_kept_refl].
  destruct (rr_status r =? 0); injection Hr as _ <-; [by apply insert_kept|apply requests_kept_refl].
Qed.
Lemma expire_rows_kept (f : Io) ids : forall i now t, requests_kept t (expire_rows f i now ids t).2.
Proof.
  induction ids as [|rid rest IH]; intros i now t; simpl; [apply requests_kept_refl|].
  pose proof (update_status_kept f i rid Expired None None now t) as Hu. destruct (update_status f i rid Expired None None now t) as [[x|x] t'];
    [eapply requests_kept_trans; [by apply Hu|apply IH]|by apply Hu].
Qed.
Lemma approve_tx_kept (f : Io) now rid gid uid handler w : requests_kept (w_requests w) (w_requests (approve_join_request_in_tx f now rid gid uid handler w).2).
Proof.
  unfold approve_join_request_in_tx.
  destruct (approve_tx f now rid gid uid handler (w_requests w) (st_db (w_state w))) as [[[b t'] d']|e] eqn:E; [|apply requests_kept_refl].
  destruct b; [|apply requests_kept_refl]. assert (requests_kept (w_requests w) t') as Ht.
  { revert E. unfold approve_tx. intros Hs. do 2 stmt. destruct (w_requests w !! rid) as [r|] eqn:Er; [|done]. case_match; [|done]. repeat stmt. injection Hs as <- _.
    by apply insert_kept. }
  unfold commit_both. destruct (f 4%nat); [destruct (io_applied f 4); [done|apply requests_kept_refl]|].
  by destruct (ensure_user_channel_rows f 5 gid [uid] d') as [[x|x] d2].
Qed.
Lemma group_step_kept w w' : group_step w w' -> requests_kept (w_requests w) (w_requests w').
Proof.
  intros Hs. destruct Hs; simpl; try apply requests_kept_refl.
  - apply approve_tx_kept.
  - unfold create_join_request. destruct (head _); [apply requests_kept_refl|].
    match goal with |- context [request_insert f 0 ?q ?t] => pose proof (request_insert_kept f 0 q t) as Hk; by destruct (request_insert f 0 q t) as [[x|x] t'] end.
  - unfold approve_request. destruct (ap_requests _ !! rid) as [q|]; [|apply requests_kept_refl]. case_decide; [apply requests_kept_refl|].
    destruct (overdue now q);
    match goal with |- context [update_status f 0 rid ?st ?h ?r now ?t] =>
      pose proof (update_status_kept f 0 rid st h r now t) as Hk; destruct (update_status f 0 rid st h r now t) as [[x|x] t'] end; by apply Hk.
  - unfold reject_request. destruct (ap_requests _ !! rid) as [q|]; [|apply requests_kept_refl].
    match goal with |- context [update_status_cas_pending f 0 rid ?st ?h ?r now ?t] =>
      pose proof (cas_kept f 0 rid st h r now t) as Hk; destruct (update_status_cas_pending f 0 rid st h r now t) as [[[|]|x] t'] end; by apply Hk.
  - unfold cleanup_expired_requests. match goal with |- context [expire_rows f 0 now ?ids ?t] => pose proof (expire_rows_kept f ids 0 now t) as Hk;
      by destruct (expire_rows f 0 now ids t) as [[x|x] t'] end.
Qed.
Lemma runs_kept w w' : rtc group_step w w' -> requests_kept (w_requests w) (w_requests w').
Proof. induction 1 as [|x y z Hs _ IH]; [apply requests_kept_refl|]. eapply requests_kept_trans; [by apply group_step_kept|done]. Qed.

(** ** The RPCs *)
Context (user_type : Z -> result (option Z) string) (add_seconds : Z -> Z -> option Z) (known_user : Z -> result bool string).

Inductive group_rpc : World -> World -> Prop :=
| RpcAdd w (f g : Io) now ctx gid uid rt : group_rpc w (with_st w (handle_member_add user_type f g now ctx gid uid rt (w_state w)).2)
| RpcRemove w (f g : Io) now sync ctx gid uid : group_rpc w (with_st w (handle_member_remove f g now sync ctx gid uid (w_state w)).2)
| RpcLeave w (f g : Io) now sync ctx gid : group_rpc w (with_st w (handle_member_leave f g now sync ctx gid (w_state w)).2)
| RpcMute w (f g : Io) now sync ctx gid uid dur p : handle_member_mute add_seconds f g now sync ctx gid uid dur (w_state w) = Some p ->
    group_rpc w (with_st w p.2)
| RpcUnmute w (f g : Io) now sync ctx gid uid : group_rpc w (with_st w (handle_member_unmute f g now sync ctx gid uid (w_state w)).2)
| RpcRole w (f g : Io) now sync ctx claimed gid uid rt : group_rpc w (with_st w (handle_role_set f g now sync ctx claimed gid uid rt (w_state w)).2)
| RpcTransfer w (f : Io) now ctx gid claimed new : is_u64 new -> group_rpc w (with_st w (handle_transfer_owner f now ctx gid claimed new (w_state w)).2)
| RpcQrJoin w (f g : Io) now sync rid ctx qr msg : group_rpc w (handle_qr_join known_user f g now sync rid ctx qr msg w).2
| RpcApproval w (f g h : Io) now sync ctx rid action reason : group_rpc w (handle_approval f g h now sync ctx rid action reason w).2.

Lemma group_of_load prefix (f : Io) now sync gid s : (group_of prefix f now sync gid s).2 = (get_channel_opt f 0 now sync gid s).2.
Proof. unfold group_of, get_channel. by destruct (get_channel_opt f 0 now sync gid s). Qed.
Lemma with_st_same w : with_st w (w_state w) = w.
Proof. by destruct w. Qed.
Lemma load_then prefix (f : Io) now sync gid w (s2 : State) :
  rtc group_step (with_st w (group_of prefix f now sync gid (w_state w)).2) (with_st w s2) -> rtc group_step w (with_st w s2).
Proof. rewrite group_of_load. intros Hr. eapply rtc_l; [apply (GsLoad w f 0 now sync gid)|done]. Qed.
Lemma load_once prefix (f : Io) now sync gid w : rtc group_step w (with_st w (group_of prefix f now sync gid (w_state w)).2).
Proof. rewrite group_of_load. apply rtc_once, GsLoad. Qed.

Lemma set_muted_run (f g : Io) now sync failed operator gid uid muted until w :
  rtc group_step w (with_st w (handle_set_muted f g now sync failed operator gid uid muted until (w_state w)).2).
Proof.
  unfold handle_set_muted. pose proof (load_once "Group not found: " f now sync gid w) as Hl.
  destruct (group_of _ f now sync gid (w_state w)) as [rc s1]. simpl in Hl. destruct (let? c := rc in _); [|done].
  eapply rtc_r; [exact Hl|]. pose proof (GsMuted (with_st w s1) g gid uid muted until) as Hm. simpl in Hm.
  by destruct (set_member_muted g gid uid muted until s1) as [out s2].
Qed.
Lemma leave_run prefix (f g : Io) now sync gid uid w (gate : Channel -> result unit RpcError) (show : result bool ServerError -> result unit RpcError) :
  rtc group_step w (with_st w (let '(rc, s1) := group_of prefix f now sync gid (w_state w) in
    match (let? c := rc in gate c) with
    | Err e => (Err e, s1)
    | Ok _ => let '(r, s2) := leave_channel g now gid uid s1 in (show r, s2)
    end).2).
Proof.
  pose proof (load_once prefix f now sync gid w) as Hl. destruct (group_of prefix f now sync gid (w_state w)) as [rc s1]. simpl in Hl.
  destruct (let? c := rc in gate c); [|done]. eapply rtc_r; [exact Hl|]. pose proof (GsLeave (with_st w s1) g now gid uid) as Hm. simpl in Hm.
  by destruct (leave_channel g now gid uid s1) as [out s2].
Qed.
Lemma rpc_is_run w w' : group_rpc w w' -> rtc group_step w w'.
Proof.
  intros Hs. destruct Hs.
  - unfold handle_member_add. destruct (let? _ := _ in _); [|by rewrite with_st_same].
    eapply rtc_l; [apply (GsParticipant w f 0 now gid uid (role_of_text (default "member"%string rt)))|].
    unfold add_member_to_group. pose proof (GsJoin (with_st w (mkState (add_participant f 0 now (st_db (w_state w)) gid uid (role_of_text (default "member"%string rt))).2 (st_sv (w_state w)))) g now gid uid None) as Hj.
    simpl in Hj. destruct (join_channel g now gid uid None _) as [[b|e] s2]; [|by apply rtc_once, Hj]. case_decide; simpl; [by apply rtc_once, Hj|].
    eapply rtc_l; [by apply Hj|]. apply rtc_once. exact (GsRole (with_st w s2) now gid uid _).
  - unfold handle_member_remove. destruct (get_current_user_id ctx) as [op|]; [|by rewrite with_st_same].
    apply (leave_run _ f g now sync gid uid w (fun c => remove_gate c op uid)).
  - unfold handle_member_leave. destruct (get_current_user_id ctx) as [uid|]; [|by rewrite with_st_same].
    apply (leave_run _ f g now sync gid uid w (fun c => leave_gate c uid)).
  - match goal with E : handle_member_mute _ _ _ _ _ _ _ _ _ _ = _ |- _ => revert E end. unfold handle_member_mute.
    destruct (get_current_user_id ctx) as [op|]; [|intros [= <-]; by rewrite with_st_same].
    destruct (add_seconds now _) as [until|]; [|done]. simpl. pose proof (set_muted_run f g now sync "禁言成员失败: " op gid uid true (Some until) w) as Hm.
    destruct (handle_set_muted _ _ _ _ _ _ _ _ _ _ _) as [r s']. by intros [= <-].
  - unfold handle_member_unmute. destruct (get_current_user_id ctx) as [op|]; [|by rewrite with_st_same]. apply set_muted_run.
  - unfold handle_role_set. destruct (let? operator := _ in _) as [[op r]|]; [|by rewrite with_st_same].
    pose proof (load_once "群组不存在: " f now sync gid w) as Hl. destruct (group_of _ f now sync gid (w_state w)) as [rc s1]. simpl in Hl.
    destruct (let? c := rc in _); [|done]. eapply rtc_r; [exact Hl|]. pose proof (GsRoleAdmin (with_st w s1) g now gid uid r) as Hm. simpl in Hm.
    by destruct (set_member_role_admin g now gid uid r s1) as [out s2].
  - unfold handle_transfer_owner. destruct (get_current_user_id ctx) as [op|]; [|by rewrite with_st_same].
    destruct (match claimed with Some c => _ | None => _ end); [by rewrite with_st_same|]. apply rtc_once.
    pose proof (GsTransfer w f now gid op new) as Hm. destruct (transfer_group_owner f now gid op new (w_state w)) as [out s2]. by apply Hm.
  - unfold handle_qr_join. destruct (get_current_user_id ctx) as [uid|]; [|done]. case_decide; [done|]. destruct (f 10%nat); [done|].
    destruct (head _) as [g0|]; [|done]. destruct (known_user uid) as [[|]|]; [|done..].
    pose proof (load_once "群组不存在: " f now sync (as_u64 g0) w) as Hl. destruct (group_of _ f now sync (as_u64 g0) (w_state w)) as [rc s1]. simpl in Hl.
    destruct rc as [c|]; [|done]. do 2 (case_match; [done|]). case_match.
    + eapply rtc_r; [exact Hl|]. pose proof (GsRequest (with_st w s1) g now rid (as_u64 g0) uid (QRCode qr) msg (Some 72)) as Hm. simpl in Hm.
      by destruct (create_join_request _ _ _ _ _ _ _ _ _ _) as [[r t'] v'].
    + eapply rtc_r; [exact Hl|]. pose proof (GsJoin (with_st w s1) g now (as_u64 g0) uid (Some Member)) as Hm. simpl in Hm.
      destruct (join_channel g now (as_u64 g0) uid (Some Member) s1) as [r s2]. by apply Hm.
  - unfold handle_approval. destruct (get_current_user_id ctx) as [op|]; [|done]. case_decide; [done|].
    destruct (ap_requests (w_approval w) !! rid) as [q|]; [|done].
    pose proof (load_once "群组不存在: " f now sync (jr_group_id q) w) as Hl. destruct (group_of _ f now sync (jr_group_id q) (w_state w)) as [rc s1]. simpl in Hl.
    fold (with_st w s1). destruct (let? c := rc in _); [|done]. case_decide.
    + pose proof (GsApproveTx (with_st w s1) g now rid (jr_group_id q) (jr_user_id q) op) as Hm.
      destruct (approve_join_request_in_tx g now rid (jr_group_id q) (jr_user_id q) op (with_st w s1)) as [[b|e] w2]; [|by eapply rtc_r].
      eapply rtc_r; [eapply rtc_r; [exact Hl|exact Hm]|]. simpl. pose proof (GsReload w2 h 0 rid) as Hr.
      by destruct (reload_request h 0 rid (w_requests w2) (w_approval w2)) as [r v'].
    + eapply rtc_r; [exact Hl|]. pose proof (GsReject (with_st w s1) h now rid op reason) as Hm. simpl in Hm. simpl.
      by destruct (reject_request h now rid op reason (w_requests w) (w_approval w)) as [[r t'] v'].
Qed.

(** ** Reachable worlds *)
(** The database of a new installation: users only. *)
Definition empty_db (users : gset Z) : GroupDb := mkGroupDb ∅ ∅ ∅ ∅ [] ∅ users ∅.
Definition world_init (users : gset Z) : World := mkWorld (mkState (empty_db users) service_new) ∅ approval_new.
Definition group_event (w w' : World) : Prop := group_step w w' \/ group_rpc w w'.
Definition group_reachable (users : gset Z) (w : World) : Prop := rtc group_event (world_init users) w.
Lemma events_are_steps w w' : rtc group_event w w' -> rtc group_step w w'.
Proof. induction 1 as [|x y z [Hs|Hr] _ IH]; [done|by eapply rtc_l|]. transitivity y; [by apply rpc_is_run|done]. Qed.
Lemma reachable_groups_ok users w : group_reachable users w -> state_ok (w_state w).
Proof.
  intros Hr%events_are_steps. revert w Hr. apply (rtc_ind_r (fun w => state_ok (w_state w)) (world_init users)).
  - split; simpl; intros *; by rewrite ?lookup_empty.
  - intros x y _ Hs. by apply group_step_ok.
Qed.

(** ** What a successful decision means *)
Lemma active_same d d' gid uid : same_groups d d' -> active_member d' gid uid = active_member d gid uid.
Proof. intros [_ Hm]. unfold active_member. by rewrite Hm. Qed.
Lemma approve_in_tx_true (f : Io) now rid gid uid handler w w' : state_ok (w_state w) ->
  approve_join_request_in_tx f now rid gid uid handler w = (Ok true, w') ->
  (exists r, w_requests w !! rid = Some r /\ rr_status r = 0 /\
     w_requests w' !! rid = Some (decided Approved (Some handler) (rr_reject_reason r) now r)) /\
  is_Some (active_member (st_db (w_state w')) (as_i64 gid) (as_i64 uid)).
Proof.
  intros Hok. unfold approve_join_request_in_tx.
  destruct (approve_tx f now rid gid uid handler (w_requests w) (st_db (w_state w))) as [[[b t'] d']|e] eqn:E; [|done].
  destruct b; [|done]. unfold commit_both. destruct (f 4%nat); [by destruct (io_applied f 4)|].
  pose proof (ensure_rows_same f [uid] 5 gid d') as Hs. destruct (ensure_user_channel_rows f 5 gid [uid] d') as [[x|x] d2]; [|done].
  intros [= <-]. simpl. rewrite (active_same d' d2) by exact Hs. revert E. unfold approve_tx. intros Hx. do 2 stmt.
  destruct (w_requests w !! rid) as [r|]; [|done]. destruct (rr_status r =? 0) eqn:Ez; [|done]. repeat stmt. injection Hx as <- <-. split.
  - exists r. rewrite lookup_insert_eq. split; [done|]. split; [lia|done].
  - match goal with U : upsert_one_member_in_tx _ _ _ _ _ _ _ = _ |- _ => apply (upsert_ok _ _ _ _ _ _ _ _ _ Hok) in U as (Hok1 & _ & m & Hm & _); [|by left|done] end.
    match goal with R : recompute_group_member_count_in_tx _ _ _ _ = _ |- _ => apply (recompute_ok _ _ _ _ _ Hok1) in R as [_ Hd] end.
    exists m. unfold active_member. by rewrite Hd.
Qed.
Lemma reject_Ok (f : Io) now rid handler reason t v q t' v' : reject_request f now rid handler reason t v = (Ok q, t', v') ->
  exists r, t !! rid = Some r /\ rr_status r = 0 /\ t' !! rid = Some (decided Rejected (Some handler) reason now r).
Proof.
  unfold reject_request. destruct (ap_requests v !! rid); [|done]. unfold update_status_cas_pending, on_table. destruct (t !! rid) as [r|]; [|by destruct (f 0%nat)].
  destruct (rr_status r =? 0) eqn:Ez; [|by destruct (f 0%nat)]. destruct (f 0%nat); [done|]. intros [= _ <- _]. exists r. rewrite lookup_insert_eq. split; [done|]. split; [lia|done].
Qed.
Definition manager (c : Channel) (operator : Z) : Prop := exists m, members c !! operator = Some m /\ (role m = Owner \/ role m = Admin).
Lemma manages_manager c operator m : members c !! operator = Some m -> manages m = true -> manager c operator.
Proof. intros Hm. unfold manages. destruct (role m) eqn:E; [| |done]; intros _; exists m; auto. Qed.
Lemma approval_Ok (f g h : Io) now sync ctx rid action reason w w' : state_ok (w_state w) ->
  handle_approval f g h now sync ctx rid action reason w = (Ok tt, w') ->
  exists op q c r r', get_current_user_id ctx = Ok op /\ ap_requests (w_approval w) !! rid = Some q /\
    (get_channel_opt f 0 now sync (jr_group_id q) (w_state w)).1 = Some c /\ manager c op /\
    w_requests w !! rid = Some r /\ rr_status r = 0 /\ w_requests w' !! rid = Some r' /\ rr_status r' <> 0 /\ rr_handler_id r' = Some (as_i64 op) /\
    (action = "approve"%string -> rr_status r' = 1 /\
       is_Some (active_member (st_db (w_state w')) (as_i64 (jr_group_id q)) (as_i64 (jr_user_id q)))).
Proof.
  intros Hok. unfold handle_approval. destruct (get_current_user_id ctx) as [op|]; [|done]. case_decide as Ha; [done|].
  destruct (ap_requests (w_approval w) !! rid) as [q|]; [|done]. unfold group_of, get_channel.
  pose proof (load_db f 0 now sync (jr_group_id q) (w_state w)) as Hdb.
  destruct (get_channel_opt f 0 now sync (jr_group_id q) (w_state w)) as [[c|] s1] eqn:El; [|done]. simpl in Hdb |- *.
  unfold approval_gate. destruct (members c !! op) as [m|] eqn:Em; [|done]. simpl. destruct (manages m) eqn:Emg; [|done].
  pose proof (manages_manager c op m Em Emg) as Hman. case_decide as Hap.
  - destruct (approve_join_request_in_tx g now rid (jr_group_id q) (jr_user_id q) op (with_st w s1)) as [[[|]|e] w2] eqn:E; unfold with_st in E; rewrite E.
    + destruct (reload_request h 0 rid (w_requests w2) (w_approval w2)) as [[x|x] v']; [|done]. intros [= <-]. simpl.
      apply approve_in_tx_true in E as [(r & Hr & Hz & Hr') Hact]; [|unfold state_ok; simpl; by rewrite Hdb]. simpl in Hr.
      eexists op, q, c, r, _. split_and!; [done|done|by rewrite El|exact Hman|exact Hr|exact Hz|exact Hr'|done|done|by intros ->].
    + by destruct (reload_request h 0 rid (w_requests w2) (w_approval w2)) as [[x|x] v'].
    + done.
  - destruct (reject_request h now rid op reason (w_requests w) (w_approval w)) as [[[q'|e] t'] v'] eqn:E; [|done]. intros [= <-]. simpl.
    apply reject_Ok in E as (r & Hr & Hz & Hr'). eexists op, q, c, r, _. split_and!; [done|done|by rewrite El|exact Hman|exact Hr|exact Hz|exact Hr'|done|done|by intros ->].
Qed.

(** ** Direct channels *)
(** Every direct row of [d'] is a row of [d]. *)
Definition no_new_direct (d d' : GroupDb) : Prop := forall c r, d_channels d' !! c = Some r -> ch_type r = 0 -> d_channels d !! c = Some r.
Record directs_ok (d : GroupDb) : Prop := {
  do_unique : forall a b c1 c2 r1 r2, d_channels d !! c1 = Some r1 -> d_channels d !! c2 = Some r2 ->
    is_direct a b r1 = true -> is_direct a b r2 = true -> c1 = c2;
  do_key : forall c r, d_channels d !! c = Some r -> ch_type r = 0 -> is_i64 c
}.
Lemma is_direct_type a b r : is_direct a b r = true -> ch_type r = 0.
Proof. unfold is_direct. destruct (Z.eqb_spec (ch_type r) 0); [done|]. by simpl. Qed.
Lemma no_new_direct_ok d d' : no_new_direct d d' -> directs_ok d -> directs_ok d'.
Proof.
  intros Hn [U K]. split; [|intros c r Hr Ht; apply (K c r); [by apply Hn|done]].
  intros a b c1 c2 r1 r2 H1 H2 D1 D2. eapply (U a b c1 c2 r1 r2); [apply Hn; [done|by eapply is_direct_type]|apply Hn; [done|by eapply is_direct_type]|done|done].
Qed.
Lemma no_new_direct_refl d : no_new_direct d d.
Proof. by intros c r. Qed.
Lemma no_new_direct_trans d d1 d2 : no_new_direct d d1 -> no_new_direct d1 d2 -> no_new_direct d d2.
Proof. intros Ha Hb c r Hr Ht. apply Ha; [|done]. by apply Hb. Qed.
Lemma no_new_direct_eq d d' : d_channels d' = d_channels d -> no_new_direct d d'.
Proof. intros He c r. by rewrite He. Qed.
Hint Resolve no_new_direct_refl no_new_direct_eq : core.
Lemma tx_direct {A} (f : Io) i prefix d (body : result (A * GroupDb) ServerError) :
  (forall a d', body = Ok (a, d') -> no_new_direct d d') -> no_new_direct d (commit_tx f i prefix d body).2.
Proof. intros Hb. by apply (commit_tx_inv (no_new_direct d)). Qed.
Lemma single_direct {A} (f : Io) i prefix d (r : result (A * GroupDb) string) :
  (forall a d', r = Ok (a, d') -> no_new_direct d d') -> no_new_direct d (single f i prefix d r).2.
Proof. intros Hb. by apply (single_inv (no_new_direct d)). Qed.

Lemma upsert_channels (f : Io) i gid uid role now d d' : upsert_one_member_in_tx f i gid uid role now d = Ok d' -> d_channels d' = d_channels d.
Proof. intros Hs%statement_Ok. simpl in Hs. repeat case_match; simplify_eq; done. Qed.
Lemma recompute_channels (f : Io) i gid d d' : recompute_group_member_count_in_tx f i gid d = Ok d' -> d_channels d' = d_channels d.
Proof. intros Hs%statement_Ok. simpl in Hs. case_match; simplify_eq; done. Qed.
Lemma mark_left_channels (f : Io) i gid uid now d b d' : mark_one_member_left_in_tx f i gid uid now d = Ok (b, d') -> d_channels d' = d_channels d.
Proof. unfold mark_one_member_left_in_tx. intros Hs. stmt. case_match; [stmt|]; simplify_eq; done. Qed.
Lemma set_role_row_channels d gid uid r : d_channels (set_role_row d gid uid r) = d_channels d.
Proof. unfold set_role_row. by case_match. Qed.
Lemma upsert_extra_channels (f : Io) uids : forall i gid now seen d n d', upsert_extra f i gid now seen uids d = Ok (n, d') -> d_channels d' = d_channels d.
Proof.
  induction uids as [|u rest IH]; intros i gid now seen d n d'; simpl; [by intros [= _ <-]|]. case_decide; [by apply IH|]. intros Hs. stmt.
  match goal with U : upsert_one_member_in_tx _ _ _ _ _ _ _ = _ |- _ => apply upsert_channels in U as <- end. by apply IH in Hs.
Qed.
Lemma create_group_tx_channels (f : Io) now gid creator nm desc qr extra d d' :
  create_group_tx f now gid creator nm desc qr extra d = Ok d' -> d_channels d' = d_channels d.
Proof.
  unfold create_group_tx. destruct (f 0%nat); [done|]. destruct (f 1%nat); [done|]. destruct (insert_group gid _ d) as [d1|] eqn:E; [|done].
  destruct (upsert_group_members_in_tx _ _ _ _ _ _ _) as [d2|] eqn:U; [|done]. intros [= <-].
  assert (d_channels d1 = d_channels d) as <- by (revert E; unfold insert_group; intros E; repeat case_match; simplify_eq; done).
  unfold upsert_group_members_in_tx in U. repeat stmt.
  repeat match goal with
  | Q : upsert_one_member_in_tx _ _ _ _ _ _ _ = _ |- _ => apply upsert_channels in Q
  | Q : upsert_extra _ _ _ _ _ _ _ = Ok ?p |- _ => destruct p; apply upsert_extra_channels in Q
  | Q : recompute_group_member_count_in_tx _ _ _ _ = _ |- _ => apply recompute_channels in Q
  end. simpl in *. congruence.
Qed.
Ltac channels_eq := intros; repeat (stmt || case_match); simplify_eq;
  repeat match goal with
  | Q : upsert_one_member_in_tx _ _ _ _ _ _ _ = _ |- _ => apply upsert_channels in Q
  | Q : recompute_group_member_count_in_tx _ _ _ _ = _ |- _ => apply recompute_channels in Q
  | Q : mark_one_member_left_in_tx _ _ _ _ _ _ = Ok ?p |- _ => destruct p; apply mark_left_channels in Q
  end; simpl in *; apply no_new_direct_eq; simpl; rewrite ?set_role_row_channels; congruence.
Lemma join_tx_direct (f : Io) gid uid role now d u d' : join_tx f gid uid role now d = Ok (u, d') -> no_new_direct d d'.
Proof. unfold join_tx. channels_eq. Qed.
Lemma leave_tx_direct (f : Io) gid uid now d u d' : leave_tx f gid uid now d = Ok (u, d') -> no_new_direct d d'.
Proof. unfold leave_tx. channels_eq. Qed.
Lemma remove_member_tx_direct (f : Io) gid uid now d u d' : remove_member_tx f gid uid now d = Ok (u, d') -> no_new_direct d d'.
Proof. unfold remove_member_tx. channels_eq. Qed.
Lemma add_member_tx_direct (f : Io) gid uid now d u d' : add_member_tx f gid uid now d = Ok (u, d') -> no_new_direct d d'.
Proof. unfold add_member_tx. channels_eq. Qed.
Lemma set_role_tx_direct (f : Io) gid uid r d u d' : set_role_tx f gid uid r d = Ok (u, d') -> no_new_direct d d'.
Proof. unfold set_role_tx. channels_eq. Qed.
Lemma transfer_tx_direct (f : Io) gid current new d u d' : transfer_tx f gid current new d = Ok (u, d') -> no_new_direct d d'.
Proof. intros (g & m & _ & _ & _ & ->)%transfer_tx_spec. apply no_new_direct_eq. simpl. by rewrite !set_role_row_channels. Qed.
Lemma drop_direct p d : no_new_direct d (drop_channels p d).
Proof. intros c r [Hl _]%map_lookup_filter_Some _. done. Qed.
Lemma dissolve_tx_direct (f : Io) gid d u d' : dissolve_tx f gid d = Ok (u, d') -> no_new_direct d d'.
Proof.
  unfold dissolve_tx. intros Hs. do 2 stmt. case_match; [done|]. do 2 stmt. stmt. injection Hs as _ <-.
  match goal with S : statement _ _ _ _ = _ |- _ => apply statement_Ok in S; unfold delete_group_row in S; case_match; [done|]; injection S as <- end.
  intros c r [Hl _]%map_lookup_filter_Some _. done.
Qed.

Lemma ensure_rows_direct (f : Io) uids : forall i cid d, no_new_direct d (ensure_user_channel_rows f i cid uids d).2.
Proof.
  induction uids as [|u rest IH]; intros i cid d; simpl; [done|].
  match goal with |- context [single f i ?p d ?r] => pose proof (single_direct f i p d r) as Hs; destruct (single f i p d r) as [[a|e] d'] end.
  - eapply no_new_direct_trans; [|apply IH]. apply Hs. intros ? ? Hr. repeat case_match; simplify_eq; auto.
  - apply Hs. intros ? ? Hr. repeat case_match; simplify_eq; auto.
Qed.
Lemma add_participant_direct (f : Io) i now d cid uid r : no_new_direct d (add_participant f i now d cid uid r).2.
Proof.
  unfold add_participant.
  match goal with |- context [single f i ?p d ?q] => pose proof (single_direct f i p d q) as Hs; destruct (single f i p d q) as [[a|e] d'] end.
  - eapply no_new_direct_trans; [apply Hs; intros ? ? Hr; repeat case_match; simplify_eq; auto|]. apply single_direct. intros ? ? [= <- <-].
    unfold open_interval. destruct (existsb _ _); auto.
  - apply Hs. intros ? ? Hr. repeat case_match; simplify_eq; auto.
Qed.
Lemma add_participants_direct (f : Io) ms : forall i now cid d, no_new_direct d (add_participants f i now cid ms d).
Proof.
  induction ms as [|[u m] rest IH]; intros i now cid d; simpl; [done|]. eapply no_new_direct_trans; [apply add_participant_direct|apply IH].
Qed.
Lemma upsert_flags_direct (f : Io) prefix uid cid g d : no_new_direct d (upsert_flags f prefix uid cid g d).2.
Proof. unfold upsert_flags. apply single_direct. intros ? ? Hr. repeat case_match; simplify_eq; auto. Qed.
Lemma create_direct_only (f : Io) i now sync fresh d c : channel_type c <> Direct -> no_new_direct d (create f i now sync fresh d c).2.
Proof.
  intros Hc. unfold create.
  assert (forall k, no_new_direct d (single f i "Failed to create channel: " d
    (match channel_refs_ok d (row_of_channel c) with Err e => Err e | Ok _ => Ok (tt, set_channels d (<[k := row_of_channel c]> (d_channels d))) end)).2) as Hk.
  { intros k. apply single_direct. intros ? ? Hr. case_match; simplify_eq. intros x r. simpl. rewrite lookup_insert_Some.
    intros [[_ <-]|[_ Hl]] Ht; [|done]. unfold row_of_channel in Ht. simpl in Ht. by destruct (channel_type c). }
  destruct (as_i64 (id c) =? 0).
  - destruct (d_channels d !! fresh); [done|]. specialize (Hk fresh). by destruct (single _ _ _ _ _) as [[u|] d'].
  - destruct (d_channels d !! as_i64 (id c)); [by destruct (f i)|]. specialize (Hk (as_i64 (id c))). by destruct (single _ _ _ _ _) as [[u|] d'].
Qed.
Lemma direct_channel_Some d a b c : direct_channel d a b = Some c -> exists r, d_channels d !! c = Some r /\ is_direct a b r = true.
Proof.
  unfold direct_channel. destruct (filter _ _) as [|[k r] l] eqn:E; [done|]. intros [= <-]. exists r.
  assert ((k, r) ∈ filter (fun p : Z * ChannelRow => is_direct a b p.2 = true) (map_to_list (d_channels d))) as Hin by (rewrite E; left).
  apply list_elem_of_filter in Hin as [Hd Hin]. by apply elem_of_map_to_list in Hin.
Qed.
Lemma direct_channel_None d a b c r : direct_channel d a b = None -> d_channels d !! c = Some r -> is_direct a b r = false.
Proof.
  unfold direct_channel. destruct (filter _ _) as [|[k x] l] eqn:E; [|done]. intros _ Hl. destruct (is_direct a b r) eqn:Ed; [|done].
  assert ((c, r) ∈ filter (fun p : Z * ChannelRow => is_direct a b p.2 = true) (map_to_list (d_channels d))) as Hin.
  { apply list_elem_of_filter. split; [done|]. by apply elem_of_map_to_list. }
  rewrite E in Hin. by apply not_elem_of_nil in Hin.
Qed.
Lemma is_direct_sym a b r : is_direct a b r = is_direct b a r.
Proof. unfold is_direct. by rewrite orb_comm. Qed.
Lemma create_direct_ok (f : Io) now_ms fresh u1 u2 d c b d' : is_i64 fresh -> directs_ok d -> create_direct_in_tx f now_ms fresh u1 u2 d = Ok ((c, b), d') ->
  directs_ok d' /\ (exists r, d_channels d' !! c = Some r /\ is_direct (as_i64 u1) (as_i64 u2) r = true) /\ (b = false -> d' = d).
Proof.
  intros Hf Hok. unfold create_direct_in_tx.
  set (p := if u1 <=? u2 then _ else _). assert (forall r, is_direct p.1 p.2 r = is_direct (as_i64 u1) (as_i64 u2) r) as Hsym.
  { unfold p. intros r. case_match; simpl; [done|apply is_direct_sym]. }
  destruct p as [lo hi]. simpl in Hsym. intros Hs. do 3 stmt. destruct (direct_channel d lo hi) as [k|] eqn:Ek.
  - injection Hs as <- <- <-. split; [done|]. split; [|done]. apply direct_channel_Some in Ek as (r & Hr & Hd). exists r. by rewrite <- Hsym.
  - stmt. destruct (d_channels d !! fresh) eqn:Ef; [stmt; done|]. stmt. injection Hs as <- <- <-.
    assert (forall x, d_channels (add_missing_participant (add_missing_participant (set_channels d (<[fresh := x]> (d_channels d))) now_ms fresh (as_i64 u1)) now_ms fresh (as_i64 u2))
      = <[fresh := x]> (d_channels d)) as Hch by (intros x; unfold add_missing_participant; by repeat case_match).
    split; [split|split; [|done]].
    + intros a b' c1 c2 r1 r2. rewrite Hch, !lookup_insert_Some. intros [[<- <-]|[N1 L1]] [[<- <-]|[N2 L2]] D1 D2; [done| | |by eapply (do_unique _ Hok)].
      * pose proof (direct_channel_None _ _ _ _ _ Ek L2) as Hn. unfold is_direct in D1. simpl in D1.
        rewrite orb_true_iff, !bool_decide_eq_true in D1. destruct D1 as [[[= ->] [= ->]]|[[= ->] [= ->]]]; [congruence|]. rewrite is_direct_sym in D2. congruence.
      * pose proof (direct_channel_None _ _ _ _ _ Ek L1) as Hn. unfold is_direct in D2. simpl in D2.
        rewrite orb_true_iff, !bool_decide_eq_true in D2. destruct D2 as [[[= ->] [= ->]]|[[= ->] [= ->]]]; [congruence|]. rewrite is_direct_sym in D1. congruence.
    + intros k r. rewrite Hch, lookup_insert_Some. intros [[<- _]|[_ Hl]] Ht; [done|by eapply (do_key _ Hok)].
    + eexists. rewrite Hch, lookup_insert_eq. split; [done|]. rewrite <- Hsym. unfold is_direct. simpl. by rewrite bool_decide_eq_true_2.
Qed.

Lemma join_channel_direct (f : Io) now cid uid role s : no_new_direct (st_db s) (st_db (join_channel f now cid uid role s).2).
Proof.
  unfold join_channel. destruct (cs_channels (st_sv s) !! cid) as [c|]; [|done]. do 2 (case_match; [done|]).
  destruct (add_member now c uid role) as [c'|]; [|done].
  set (p := if decide (channel_type c = Group) then _ else _). assert (no_new_direct (st_db s) p.2) as Hp.
  { unfold p. case_decide; [|done]. apply tx_direct. intros a d' Hj. by eapply join_tx_direct. }
  destruct p as [[a|e] d1]; [|done]. pose proof (ensure_rows_direct f [uid] 4 cid d1) as Hs.
  destruct (ensure_user_channel_rows f 4 cid [uid] d1) as [[x|x] d2]; by eapply no_new_direct_trans.
Qed.
Lemma leave_channel_direct (f : Io) now cid uid s : no_new_direct (st_db s) (st_db (leave_channel f now cid uid s).2).
Proof.
  unfold leave_channel. destruct (cs_channels (st_sv s) !! cid) as [c|]; [|done]. destruct (remove_member now c uid) as [[m c']|]; [|done].
  set (p := if decide (channel_type c = Group) then _ else _). assert (no_new_direct (st_db s) p.2) as Hp.
  { unfold p. case_decide; [|done]. apply tx_direct. intros a d' Hj. by eapply leave_tx_direct. }
  by destruct p as [[a|e] d1].
Qed.
Lemma set_member_muted_direct (f : Io) cid uid muted until s : no_new_direct (st_db s) (st_db (set_member_muted f cid uid muted until s).2).
Proof.
  unfold set_member_muted.
  match goal with |- context [single f 0 ?p ?d ?r] => assert (no_new_direct (st_db s) (single f 0 p d r).2) as Hs; [|destruct (single f 0 p d r) as [[a|e] d']] end.
  - apply single_direct. intros a d' [= <- <-]. simpl. case_match; auto.
  - by repeat case_match.
  - done.
Qed.
Lemma admin_direct {A} (f : Io) i prefix (s : State) (body : result (A * GroupDb) ServerError) (k : A -> GroupDb -> State) :
  (forall a d', body = Ok (a, d') -> no_new_direct (st_db s) d') -> (forall a d', no_new_direct d' (st_db (k a d'))) ->
  no_new_direct (st_db s) (st_db (match commit_tx f i prefix (st_db s) body with (Err e, d') => mkState d' (st_sv s) | (Ok a, d') => k a d' end)).
Proof.
  intros Hb Hk. pose proof (tx_direct f i prefix (st_db s) body Hb) as Ht. destruct (commit_tx f i prefix (st_db s) body) as [[a|e] d']; [|done].
  eapply no_new_direct_trans; [exact Ht|apply Hk].
Qed.
Lemma create_or_get_ok (f : Io) now sync fresh u1 u2 d : is_i64 fresh -> directs_ok d -> directs_ok (create_or_get_direct_channel f now sync fresh u1 u2 d).2.
Proof.
  intros Hf Hok. unfold create_or_get_direct_channel.
  assert (directs_ok (commit_tx f 5 "Failed to commit tx: " d (create_direct_in_tx f (timestamp_millis now) fresh u1 u2 d)).2) as Hs.
  { apply (commit_tx_inv directs_ok); [done|]. intros [c b] d' Hd. by apply create_direct_ok in Hd as [? _]. }
  destruct (commit_tx f 5 _ d _) as [[[c b]|] d']; exact Hs.
Qed.
Lemma get_or_create_ok (f : Io) now sync fresh uid target s : is_i64 fresh -> directs_ok (st_db s) ->
  directs_ok (st_db (get_or_create_direct_channel f now sync fresh uid target s).2).
Proof.
  intros Hf Hok. unfold get_or_create_direct_channel. pose proof (create_or_get_ok f now sync fresh uid target (st_db s) Hf Hok) as Hd.
  destruct (create_or_get_direct_channel f now sync fresh uid target (st_db s)) as [[[ch created]|e] d1]; [|exact Hd]. simpl in Hd.
  set (p := if created then _ else _). assert (st_db p.2 = d1) as Hp.
  { unfold p. destruct created; [done|]. pose proof (load_db f 10 now sync (id ch) (mkState d1 (st_sv s))) as Hl.
    by destruct (get_channel_opt f 10 now sync (id ch) (mkState d1 (st_sv s))) as [o s2]. }
  destruct p as [load s2]. simpl in Hp. subst d1. pose proof (ensure_rows_direct f [uid; target] 20 (id ch) (st_db s2)) as He.
  destruct (ensure_user_channel_rows f 20 (id ch) [uid; target] (st_db s2)) as [[a|e] d3]; simpl in He; [|by eapply no_new_direct_ok].
  set (s4 := if load then _ else _). assert (st_db s4 = d3) as H4 by (unfold s4; destruct load; [by rewrite private_db|done]).
  assert (directs_ok d3) as H3 by (by eapply no_new_direct_ok). case_decide; simpl; [|by rewrite H4].
  eapply no_new_direct_ok; [|exact H3]. unfold hide_channel. simpl. rewrite H4.
  match goal with |- context [upsert_flags ?a ?b ?c ?d ?e d3] => pose proof (upsert_flags_direct a b c d e d3) as Hu; by destruct (upsert_flags a b c d e d3) as [[x|x] d4] end.
Qed.
Lemma new_group_channel_type cfg now gid creator r : channel_type (new_group_channel cfg now gid creator r) = Group.
Proof.
  unfold new_group_channel. match goal with |- context [foldl ?h ?c ?l] => generalize c (eq_refl : channel_type c = Group); generalize l end.
  intros l. induction l as [|u l IH]; intros c Hc; simpl; [done|]. apply IH. unfold add_member. repeat (case_match; simplify_eq); done.
Qed.
Lemma create_channel_directs cfg (f g h k : Io) now sync fresh creator qr r s : is_i64 fresh -> directs_ok (st_db s) ->
  directs_ok (st_db (create_channel cfg f g h k now sync fresh creator qr r s).2).
Proof.
  intros Hf Hok. unfold create_channel. destruct (validate_create_request _ _ _ _); [|done]. destruct (cr_type r); [| |done].
  - destruct (cr_member_ids r) as [|peer [|]]; try done. pose proof (get_or_create_ok f now sync fresh creator peer s Hf Hok) as Hs.
    destruct (get_or_create_direct_channel f now sync fresh creator peer s) as [[[cid b]|e] s1]; [|done].
    pose proof (load_db g 0 now sync cid s1) as Hl. destruct (get_channel_opt g 0 now sync cid s1) as [o s2]. simpl in *. by rewrite Hl.
  - destruct (cr_name r); [|done]. unfold create_group_channel_rows. destruct (create_group_tx _ _ _ _ _ _ _ _ _) as [d1|] eqn:E; [|done].
    apply create_group_tx_channels in E. assert (no_new_direct (st_db s) d1) as H1 by auto. apply (no_new_direct_ok (st_db s)); [|done].
    destruct (g 0%nat); [simpl; by destruct (io_applied g 0)|].
    pose proof (create_direct_only g 1 now sync fresh d1 (new_group_channel cfg now (as_u64 fresh) creator r)) as Hs.
    rewrite new_group_channel_type in Hs. specialize (Hs ltac:(done)). destruct (create g 1 now sync fresh d1 _) as [[c|e] d2]; simpl in Hs.
    + match goal with |- context [ensure_user_channel_rows k 0 ?a ?b ?d3] => pose proof (ensure_rows_direct k b 0 a d3) as H4; destruct (ensure_user_channel_rows k 0 a b d3) as [[x|x] d4] end;
        (eapply no_new_direct_trans; [exact H1|eapply no_new_direct_trans; [exact Hs|eapply no_new_direct_trans; [apply add_participants_direct|exact H4]]]).
    + eapply no_new_direct_trans; [exact H1|]. eapply no_new_direct_trans; [exact Hs|]. apply single_direct. intros a d3 Hr.
      unfold delete_group_row in Hr. destruct (existsb _ _); [done|]. injection Hr as _ <-. auto.
Qed.
Lemma approve_in_tx_direct (f : Io) now rid gid uid handler w :
  no_new_direct (st_db (w_state w)) (st_db (w_state (approve_join_request_in_tx f now rid gid uid handler w).2)).
Proof.
  unfold approve_join_request_in_tx.
  destruct (approve_tx f now rid gid uid handler (w_requests w) (st_db (w_state w))) as [[[b t'] d']|e] eqn:E; [|done].
  destruct b; [|done]. assert (no_new_direct (st_db (w_state w)) d') as Hd by (revert E; unfold approve_tx; channels_eq).
  unfold commit_both. destruct (f 4%nat); [by destruct (io_applied f 4)|].
  pose proof (ensure_rows_direct f [uid] 5 gid d') as Hs. destruct (ensure_user_channel_rows f 5 gid [uid] d') as [[x|x] d2]; by eapply no_new_direct_trans.
Qed.
End GroupFacts.
