(* ===== verification/GroupTheorems.v ===== *)
(** * Groups: properties, witnesses and examples *)

From stdpp Require Import base numbers gmap list sorting strings relations.
From S2P Require Import Prelude Channel Timeline TimelineFacts Submit Group GroupService Approval GroupFacts.
Local Open Scope Z_scope.

Section GroupTheorems.
Context {OJ : OwnerJoins}.
Context `{Pj : PermissionColumn, Pg : Postgres, Ch : Chrono, Pt : PgTime}.
Context (user_type : Z -> result (option Z) string) (add_seconds : Z -> Z -> option Z) (known_user : Z -> result bool string).

Lemma group_step_directs w w' : group_step w w' -> directs_ok (st_db (w_state w)) -> directs_ok (st_db (w_state w')).
Proof.
  intros Hs Hok. destruct Hs; simpl; try done.
  - by rewrite load_db.
  - by eapply no_new_direct_ok; [apply add_participant_direct|].
  - by eapply no_new_direct_ok; [apply join_channel_direct|].
  - by eapply no_new_direct_ok; [apply leave_channel_direct|].
  - by rewrite set_member_role_db.
  - by eapply no_new_direct_ok; [apply set_member_muted_direct|].
  - unfold remove_member_admin. pose proof (tx_direct f 4 "提交事务失败: " (st_db (w_state w)) (remove_member_tx f gid uid (timestamp_millis now) (st_db (w_state w)))) as Ht.
    destruct (commit_tx _ _ _ _ _) as [r d']. eapply no_new_direct_ok; [apply Ht|done]. intros. by eapply remove_member_tx_direct.
  - unfold add_member_admin. pose proof (tx_direct f 4 "提交事务失败: " (st_db (w_state w)) (add_member_tx f gid uid (timestamp_millis now) (st_db (w_state w)))) as Ht.
    assert (directs_ok (commit_tx f 4 "提交事务失败: " (st_db (w_state w)) (add_member_tx f gid uid (timestamp_millis now) (st_db (w_state w)))).2) as Hd
      by (eapply no_new_direct_ok; [apply Ht; intros; by eapply add_member_tx_direct|done]).
    destruct (commit_tx _ _ _ _ _) as [[a|e] d']; [|done]. by eapply no_new_direct_ok; [apply (join_channel_direct _ _ _ _ _ (mkState d' _))|].
  - unfold set_member_role_admin. case_decide; [done|].
    pose proof (tx_direct f 3 "提交事务失败: " (st_db (w_state w)) (set_role_tx f gid uid r (st_db (w_state w)))) as Ht.
    destruct (commit_tx _ _ _ _ _) as [[a|e] d']; simpl; rewrite ?set_member_role_db; (eapply no_new_direct_ok; [apply Ht|done]); intros; by eapply set_role_tx_direct.
  - unfold transfer_group_owner. case_match; [done|].
    pose proof (tx_direct f 6 "提交转让群主事务失败: " (st_db (w_state w)) (transfer_tx f gid current new (st_db (w_state w)))) as Ht.
    destruct (commit_tx _ _ _ _ _) as [[a|e] d']; simpl; rewrite ?set_member_role_db; (eapply no_new_direct_ok; [apply Ht|done]); intros; by eapply transfer_tx_direct.
  - unfold dissolve_group_admin. pose proof (tx_direct f 5 "提交事务失败: " (st_db (w_state w)) (dissolve_tx f gid (st_db (w_state w)))) as Ht.
    destruct (commit_tx _ _ _ _ _) as [r d']. eapply no_new_direct_ok; [apply Ht|done]. intros. by eapply dissolve_tx_direct.
  - by apply create_channel_directs.
  - by apply get_or_create_ok.
  - by eapply no_new_direct_ok; [apply approve_in_tx_direct|].
  - by destruct (create_join_request _ _ _ _ _ _ _ _ _ _) as [[? ?] ?].
  - by destruct (approve_request _ _ _ _ _ _) as [[? ?] ?].
  - by destruct (reject_request _ _ _ _ _ _ _) as [[? ?] ?].
  - by destruct (cleanup_expired_requests _ _ _ _) as [[? ?] ?].
Qed.
Notation reachable := (group_reachable user_type add_seconds known_user).
Lemma reachable_directs users w : reachable users w -> directs_ok (st_db (w_state w)).
Proof.
  intros Hr%events_are_steps. revert w Hr. apply (rtc_ind_r (fun w => directs_ok (st_db (w_state w))) (world_init users)); [by split|].
  intros x y _ Hs. by apply group_step_directs.
Qed.

(** ** Properties *)
(** C22. In every state that calls of the services and of the group RPCs can reach,
    whatever statements failed, the stored number of members of a group is the number
    of its members. In the states that are reached without a call of [join_channel] with
    the role Owner, a group has at most one owner among them: the user its row names.
    (The message handler can make such a call, for an old owner whose membership
    was lost from the memory.) *)
Theorem group_rows_consistent (users : gset Z) (w : World) : reachable users w ->
  (forall gid g, d_groups (st_db (w_state w)) !! gid = Some g -> g_member_count g = Z.of_nat (size (active_members (st_db (w_state w)) gid))) /\
  (~ owner_joins -> forall gid uid r, active_member (st_db (w_state w)) gid uid = Some r -> gm_role r = member_role_to_i16 Owner ->
     exists g, d_groups (st_db (w_state w)) !! gid = Some g /\ g_owner_id g = uid).
Proof. intros [O G C W]%reachable_groups_ok. split; [|exact W]. intros gid g. by apply C. Qed.

(** C23. A transfer of ownership succeeds only for the owner the database names and to
    a member, and then the group and the membership name the new owner, the old one is a
    plain member, no other membership has changed and the old owner cannot transfer the
    group again; a transfer that fails leaves the tables as they were, unless it was
    COMMIT that failed. The new owner is the only one, if no call of [join_channel] with
    the role Owner has been made before. *)
Theorem transfer_is_exclusive (users : gset Z) (w : World) (f : Io) (now : Z) (ctx : RpcContext) (gid : Z) (claimed : option string) (new : Z)
    (out : result unit RpcError) (s : State) :
  reachable users w -> is_u64 new -> handle_transfer_owner f now ctx gid claimed new (w_state w) = (out, s) ->
  match out with
  | Ok _ => exists operator g g', get_current_user_id ctx = Ok operator /\
      d_groups (st_db (w_state w)) !! as_i64 gid = Some g /\ as_u64 (g_owner_id g) = operator /\
      is_Some (active_member (st_db (w_state w)) (as_i64 gid) (as_i64 new)) /\
      d_groups (st_db s) !! as_i64 gid = Some g' /\ g_owner_id g' = as_i64 new /\
      (exists r, active_member (st_db s) (as_i64 gid) (as_i64 new) = Some r /\ gm_role r = member_role_to_i16 Owner) /\
      (forall r, active_member (st_db s) (as_i64 gid) (g_owner_id g) = Some r -> gm_role r = member_role_to_i16 Member) /\
      (~ owner_joins -> forall uid r, active_member (st_db s) (as_i64 gid) uid = Some r -> gm_role r = member_role_to_i16 Owner -> uid = as_i64 new) /\
      (forall g0 uid, (g0, uid) <> (as_i64 gid, g_owner_id g) -> (g0, uid) <> (as_i64 gid, as_i64 new) ->
         active_member (st_db s) g0 uid = active_member (st_db (w_state w)) g0 uid) /\
      (forall f' now' claimed' new', (handle_transfer_owner f' now' ctx gid claimed' new' s).1 <> Ok tt)
  | Err _ => f 6%nat = None -> st_db s = st_db (w_state w)
  end.
Proof.
  intros Hok%reachable_groups_ok Hnew. unfold handle_transfer_owner. destruct (get_current_user_id ctx) as [op|] eqn:Eop; [|intros [= <- <-]; done].
  destruct (match claimed with Some c => _ | None => _ end); [intros [= <- <-]; done|]. unfold transfer_group_owner.
  destruct (Z.eqb_spec op new) as [|Hne]; [intros [= <- <-]; done|].
  destruct (commit_tx f 6 "提交转让群主事务失败: " (st_db (w_state w)) (transfer_tx f gid op new (st_db (w_state w)))) as [[[]|e] d'] eqn:E; intros [= <- <-].
  2: { intros Hf. unfold commit_tx in E. rewrite Hf in E. by destruct (transfer_tx _ _ _ _ _) as [[? ?]|]; simplify_eq. }
  apply commit_tx_Ok in E. pose proof (transfer_tx_ok _ _ _ _ _ _ _ Hok Hnew E) as Hok'.
  apply transfer_tx_spec in E as (g & m & Hg & Hcur & Hm & Hd). simpl in Hd. rewrite !set_member_role_db. simpl.
  assert (as_i64 op = g_owner_id g) as Hown by (subst op; apply as_i64_as_u64_id; by apply (go_owner_i64 _ _ Hok _ _ Hg)).
  assert (d_groups d' !! as_i64 gid = Some (with_owner g (as_i64 new))) as Hg' by (subst d'; simpl; by rewrite lookup_alter_eq, !set_role_row_groups, Hg).
  assert (as_i64 new <> as_i64 op) as Hne'.
  { intros He. apply Hne. rewrite <- Hcur, <- Hown, <- He. by apply as_u64_as_i64. }
  assert (forall g0 uid, active_member d' g0 uid = active_member (set_role_row (set_role_row (st_db (w_state w)) gid op Member) gid new Owner) g0 uid) as Ha
    by (intros; by subst d').
  assert (active_member d' (as_i64 gid) (as_i64 new) = Some (with_gm_role m 0)) as Hn.
  { rewrite Ha. apply (set_role_row_self _ gid new Owner). rewrite set_role_row_other; [done|congruence]. }
  exists op, g, (with_owner g (as_i64 new)). split_and!; [done|done|done|by eexists|done|done|by exists (with_gm_role m 0)| | | |].
  - intros r. rewrite <- Hown, Ha, set_role_row_other by congruence.
    destruct (active_member (st_db (w_state w)) (as_i64 gid) (as_i64 op)) as [old|] eqn:Eold.
    + rewrite (set_role_row_self _ _ _ _ _ Eold). by intros [= <-].
    + unfold set_role_row. by rewrite !Eold.
  - intros Hno uid r Hr Hz. destruct (go_owner _ _ Hok' Hno _ _ _ Hr Hz) as (x & Hx & <-). rewrite Hg' in Hx. by injection Hx as <-.
  - intros g0 uid N1 N2. rewrite Ha, !set_role_row_other; congruence.
  - intros f' now' claimed' new'. destruct (match claimed' with Some c => _ | None => _ end); [done|]. unfold transfer_group_owner.
    destruct (op =? new'); [done|].
    match goal with |- context [transfer_tx f' gid op new' ?d2] => destruct (transfer_tx f' gid op new' d2) as [[u d3]|] eqn:E2; [exfalso|done] end.
    apply transfer_tx_spec in E2 as (g2 & m2 & Hg2 & Hc2 & _). rewrite ?set_member_role_db in Hg2. simpl in Hg2. rewrite Hg' in Hg2.
    injection Hg2 as <-. simpl in Hc2. rewrite as_u64_as_i64 in Hc2 by done. congruence.
Qed.

(** C24. A request to join is decided once: a decision succeeds only on a pending
    request and by an owner or administrator of the group, an approval makes the
    applicant a member of the group in the same transaction, and after it no later
    decision on the request succeeds, whatever has happened in between. *)
Theorem join_request_decided_once (users : gset Z) (w w1 w2 : World) (f g h : Io) (now sync : Z) (ctx : RpcContext) (rid action : string)
    (reason : option string) :
  reachable users w -> handle_approval f g h now sync ctx rid action reason w = (Ok tt, w1) -> rtc (group_event user_type add_seconds known_user) w1 w2 ->
  (exists op q c r, get_current_user_id ctx = Ok op /\ ap_requests (w_approval w) !! rid = Some q /\
     (get_channel_opt f 0 now sync (jr_group_id q) (w_state w)).1 = Some c /\ manager c op /\
     w_requests w !! rid = Some r /\ rr_status r = status_to_i16 Pending /\
     (action = "approve"%string -> is_Some (active_member (st_db (w_state w1)) (as_i64 (jr_group_id q)) (as_i64 (jr_user_id q))))) /\
  (forall f' g' h' now' sync' ctx' action' reason', (handle_approval f' g' h' now' sync' ctx' rid action' reason' w2).1 <> Ok tt).
Proof.
  intros Hreach Hap Hrun. assert (reachable users w1) as Hreach1.
  { eapply rtc_r; [exact Hreach|]. right. pose proof (RpcApproval user_type add_seconds known_user w f g h now sync ctx rid action reason) as Hr. by rewrite Hap in Hr. }
  pose proof (reachable_groups_ok _ _ _ _ _ Hreach) as Hok. apply approval_Ok in Hap as (op & q & c & r & r' & Hop & Hq & Hc & Hman & Hr & Hz & Hr' & Hz' & _ & Happ); [|done].
  split.
  - exists op, q, c, r. split_and!; [done..|]. intros Ha. by destruct (Happ Ha).
  - intros f' g' h' now' sync' ctx' action' reason' Hbad.
    destruct (handle_approval f' g' h' now' sync' ctx' rid action' reason' w2) as [o w3] eqn:E. simpl in Hbad. subst o.
    apply approval_Ok in E as (_ & _ & _ & r2 & _ & _ & _ & _ & _ & Hr2 & Hz2 & _).
    + apply events_are_steps, runs_kept in Hrun. destruct (Hrun _ _ Hr') as (x & Hx & _ & _ & Hkeep). rewrite Hx in Hr2. injection Hr2 as ->. by apply Hkeep in Hz'.
    + apply (reachable_groups_ok user_type add_seconds known_user users). unfold group_reachable. by transitivity w1.
Qed.

(** Members are removed and muted only at the request of an owner or administrator
    of the group as the service has it loaded, and never the owner; roles are changed
    only at the request of its owner. *)
Theorem group_management_needs_rank (f g : Io) (now sync : Z) (ctx : RpcContext) (gid uid : Z) (s : State) :
  (st_db (handle_member_remove f g now sync ctx gid uid s).2 <> st_db s ->
     exists op c, get_current_user_id ctx = Ok op /\ (get_channel_opt f 0 now sync gid s).1 = Some c /\ manager c op /\
       forall x, members c !! uid = Some x -> role x <> Owner) /\
  (forall muted until failed op, st_db (handle_set_muted f g now sync failed op gid uid muted until s).2 <> st_db s ->
     exists c x, (get_channel_opt f 0 now sync gid s).1 = Some c /\ manager c op /\ op <> uid /\ members c !! uid = Some x /\ role x <> Owner) /\
  (forall claimed rt, st_db (handle_role_set f g now sync ctx claimed gid uid rt s).2 <> st_db s ->
     exists op c m, get_current_user_id ctx = Ok op /\ (get_channel_opt f 0 now sync gid s).1 = Some c /\ members c !! op = Some m /\ role m = Owner).
Proof.
  pose proof (load_db f 0 now sync gid s) as Hdb. split; [|split].
  - unfold handle_member_remove, group_of, get_channel. destruct (get_current_user_id ctx) as [op|]; [|done].
    destruct (get_channel_opt f 0 now sync gid s) as [[c|] s1]; simpl in Hdb |- *; [|by rewrite Hdb].
    unfold remove_gate. destruct (members c !! op) as [m|] eqn:Em; simpl; [|by rewrite Hdb]. destruct (manages m) eqn:Eg; simpl; [|by rewrite Hdb].
    intros Hch. exists op, c. split_and!; [done|done|by eapply manages_manager|]. intros x Hx Ho. rewrite Hx, decide_True in Hch by done. simpl in Hch. by rewrite Hdb in Hch.
  - intros muted until failed op. unfold handle_set_muted, group_of, get_channel.
    destruct (get_channel_opt f 0 now sync gid s) as [[c|] s1]; simpl in Hdb |- *; [|by rewrite Hdb].
    unfold mute_gate. destruct (members c !! op) as [m|] eqn:Em; simpl; [|by rewrite Hdb]. destruct (members c !! uid) as [x|] eqn:Ex; simpl; [|by rewrite Hdb].
    unfold can_moderate_mute. destruct (Z.eqb_spec op uid); simpl; [by rewrite Hdb|]. intros Hch. exists c, x.
    destruct (role x) eqn:Erx, (role m) eqn:Erm; simpl in Hch; try (by rewrite Hdb in Hch); (split_and!; [done|exists m; auto|done|done|congruence]).
  - intros claimed rt. unfold handle_role_set, group_of, get_channel. destruct (get_current_user_id ctx) as [op|]; [|done]. simpl.
    destruct (_ && _); [done|]. destruct (target_role rt); [|done]. simpl.
    destruct (get_channel_opt f 0 now sync gid s) as [[c|] s1]; simpl in Hdb |- *; [|by rewrite Hdb].
    unfold role_gate. destruct (members c !! op) as [m|] eqn:Em; simpl; [|by rewrite Hdb]. case_decide as Ho; simpl; [|by rewrite Hdb]. intros _. by exists op, c, m.
Qed.

(** Two users have at most one direct channel, and asking for it again, in either
    order, returns the channel that exists. *)
Theorem one_direct_channel_per_pair (users : gset Z) (w : World) (f : Io) (now sync fresh u1 u2 : Z) (ch : Channel) (created : bool) (d : GroupDb) :
  reachable users w -> is_i64 fresh -> create_or_get_direct_channel f now sync fresh u1 u2 (st_db (w_state w)) = (Ok (ch, created), d) ->
  (forall a b c1 c2 r1 r2, d_channels d !! c1 = Some r1 -> d_channels d !! c2 = Some r2 -> is_direct a b r1 = true -> is_direct a b r2 = true -> c1 = c2) /\
  (forall now' sync' fresh', exists ch', create_or_get_direct_channel no_io now' sync' fresh' u2 u1 d = (Ok (ch', false), d) /\ id ch' = id ch).
Proof.
  intros Hok%reachable_directs Hfr. unfold create_or_get_direct_channel at 1.
  destruct (commit_tx f 5 "Failed to commit tx: " (st_db (w_state w)) (create_direct_in_tx f (timestamp_millis now) fresh u1 u2 (st_db (w_state w)))) as [[[c b]|e] d'] eqn:E; [|done].
  apply commit_tx_Ok, create_direct_ok in E as (Hok' & (r & Hr & Hd) & _); [|done|done]. intros Hfind.
  assert (as_i64 (as_u64 c) = c) as Hc by (apply as_i64_as_u64_id; by eapply (do_key _ Hok'), is_direct_type).
  unfold find_by_id in Hfind. rewrite Hc, Hr in Hfind. destruct (f 6%nat); [done|]. injection Hfind as <- _ <-.
  split; [exact (do_unique _ Hok')|]. intros now' sync' fresh'. exists (channel_of_row now' sync' c r). split; [|done].
  rewrite is_direct_sym in Hd.
  assert (create_direct_in_tx no_io (timestamp_millis now') fresh' u2 u1 d' = Ok ((c, false), d')) as Ht.
  { unfold create_direct_in_tx. simpl. set (p := if u2 <=? u1 then _ else _).
    assert (is_direct p.1 p.2 r = true) as Hp by (unfold p; case_match; simpl; [done|by rewrite is_direct_sym]). destruct p as [lo hi]. simpl in Hp.
    destruct (direct_channel d' lo hi) as [k|] eqn:Ek.
    - apply direct_channel_Some in Ek as (r2 & Hr2 & Hd2). by rewrite (do_unique _ Hok' lo hi c k r r2).
    - pose proof (direct_channel_None _ _ _ _ _ Ek Hr). congruence. }
  unfold create_or_get_direct_channel, commit_tx, find_by_id. rewrite Ht. simpl. by rewrite Hc, Hr.
Qed.
End GroupTheorems.

(** ** A concrete execution

    Users 1, 2 and 3; user 1 creates the group 100 with user 2. *)
Definition run_permissions : PermissionColumn := {| PermJson := unit; permissions_of_json := fun _ => None; empty_object := tt |}.
Definition run_time : PgTime := {| pg_time := fun z => z |}.
#[local] Existing Instances no_owner_joins run_permissions run_time demo_chrono demo_postgres.
Definition run_user_type (_ : Z) : result (option Z) string := Ok (Some 0).
Definition run_seconds (now s : Z) : option Z := Some (now + s * 1000000000).
Definition run_known (_ : Z) : result bool string := Ok true.
Definition run_users : gset Z := {[1; 2; 3]}.
Definition run_group : CreateChannelRequest := mkCreate Group (Some "team"%string) None [2] None None.
Definition run_created : World :=
  with_st (world_init run_users)
    (create_channel config_default no_io no_io no_io no_io 1000000 0 100 1 "key" run_group (w_state (world_init run_users))).2.
Definition run_ctx (u : Z) : RpcContext := mkRpcContext (Some (u64_to_string u)) None.
(** User 3 asks to join, through a group that requires approval. *)
Definition run_asked : World :=
  let '(_, t, v) := create_join_request no_io 2000000 "r" 100 3 (QRCode "key") None (Some 72) (w_requests run_created) (w_approval run_created) in
  with_req run_created (t, v).
Notation run_reachable := (group_reachable run_user_type run_seconds run_known run_users).
Lemma run_created_reachable : run_reachable run_created.
Proof. apply rtc_once. left. by apply GsCreate. Qed.
Lemma run_asked_reachable : run_reachable run_asked.
Proof. eapply rtc_r; [apply run_created_reachable|]. left. apply GsRequest. Qed.

Definition run_members (s : State) (gid : Z) : list (Z * Z) := (fun p : (Z * Z) * GroupMemberRow => (p.1.2, gm_role p.2)) <$> map_to_list (active_members (st_db s) gid).
Definition run_cached (s : State) (gid : Z) : list (Z * MemberRole) :=
  match cs_channels (st_sv s) !! gid with Some c => (fun p : Z * ChannelMember => (p.1, role p.2)) <$> map_to_list (members c) | None => [] end.
Example run_created_rows : run_members (w_state run_created) 100 = [(1, 0); (2, 2)] /\ (g_member_count <$> d_groups (st_db (w_state run_created)) !! 100) = Some 2.
Proof. split; vm_compute; reflexivity. Qed.

Lemma group_rows_consistent_witness :
  g_member_count <$> d_groups (st_db (w_state run_created)) !! 100 = Some (Z.of_nat (size (active_members (st_db (w_state run_created)) 100))) /\
  forall uid r, active_member (st_db (w_state run_created)) 100 uid = Some r -> gm_role r = member_role_to_i16 Owner ->
    exists g, d_groups (st_db (w_state run_created)) !! 100 = Some g /\ g_owner_id g = uid.
Proof.
  destruct (group_rows_consistent run_user_type run_seconds run_known run_users run_created run_created_reachable) as [Hc Ho].
  split; [|exact (Ho (fun F => F) 100)].
  destruct (d_groups (st_db (w_state run_created)) !! 100) as [g|] eqn:E; [|exfalso; vm_compute in E; discriminate E].
  cbn [fmap option_fmap option_map]. f_equal. exact (Hc 100 g E).
Defined.

Definition run_transferred := handle_transfer_owner no_io 3000000 (run_ctx 1) 100 None 2 (w_state run_created).
Lemma transfer_is_exclusive_witness :
  run_transferred.1 = Ok tt /\ forall f' now' claimed' new', (handle_transfer_owner f' now' (run_ctx 1) 100 claimed' new' run_transferred.2).1 <> Ok tt.
Proof.
  assert (run_transferred.1 = Ok tt) as E1 by (vm_compute; reflexivity). split; [exact E1|].
  assert (handle_transfer_owner no_io 3000000 (run_ctx 1) 100 None 2 (w_state run_created) = (Ok tt, run_transferred.2)) as E
    by (rewrite <- E1; exact (surjective_pairing run_transferred)).
  pose proof (transfer_is_exclusive run_user_type run_seconds run_known run_users run_created no_io 3000000 (run_ctx 1) 100 None 2 (Ok tt) run_transferred.2
    run_created_reachable ltac:(unfold is_u64; lia) E) as H.
  cbv iota in H. destruct H as (op & g & g' & _ & _ & _ & _ & _ & _ & _ & _ & _ & _ & H). exact H.
Defined.

Definition run_approved := handle_approval no_io no_io no_io 3000000 0 (run_ctx 1) "r" "approve" None run_asked.
Lemma join_request_decided_once_witness :
  run_approved.1 = Ok tt /\ forall ctx' action', (handle_approval no_io no_io no_io 4000000 0 ctx' "r" action' None run_approved.2).1 <> Ok tt.
Proof.
  assert (run_approved = (Ok tt, run_approved.2)) as E by (vm_compute; reflexivity).
  split; [by rewrite E|]. intros ctx' action'.
  apply (join_request_decided_once run_user_type run_seconds run_known run_users run_asked run_approved.2 run_approved.2 no_io no_io no_io 3000000 0
           (run_ctx 1) "r" "approve" None run_asked_reachable E (rtc_refl _ _)).
Defined.

Lemma group_management_needs_rank_witness :
  (handle_member_remove no_io no_io 3000000 0 (run_ctx 1) 100 2 (w_state run_created)).1 = Ok tt /\
  st_db (handle_member_remove no_io no_io 3000000 0 (run_ctx 2) 100 1 (w_state run_created)).2 = st_db (w_state run_created) /\
  exists op c, get_current_user_id (run_ctx 1) = Ok op /\ (get_channel_opt no_io 0 3000000 0 100 (w_state run_created)).1 = Some c /\ manager c op.
Proof.
  split; [vm_compute; reflexivity|]. split; [vm_compute; reflexivity|].
  destruct (group_management_needs_rank no_io no_io 3000000 0 (run_ctx 1) 100 2 (w_state run_created)) as [Hr _].
  destruct Hr as (op & c & Hop & Hc & Hm & _); [|by exists op, c].
  intros Hd. apply (f_equal (fun d => bool_decide (is_Some (active_member d 100 2)))) in Hd. vm_compute in Hd. discriminate Hd.
Defined.

Definition run_direct := create_or_get_direct_channel no_io 2000000 0 200 3 1 (st_db (w_state run_created)).
Definition run_direct_id : Z := match run_direct.1 with Ok (c, _) => id c | Err _ => 0 end.
Lemma one_direct_channel_per_pair_witness :
  run_direct_id = 200 /\
  exists ch', create_or_get_direct_channel no_io 5000000 0 201 1 3 run_direct.2 = (Ok (ch', false), run_direct.2) /\ id ch' = run_direct_id.
Proof.
  split; [vm_compute; reflexivity|]. unfold run_direct_id.
  assert (is_ok run_direct.1 = true) as Hok by (vm_compute; reflexivity).
  pose proof (surjective_pairing run_direct) as E. destruct (run_direct.1) as [[ch created]|e]; [|discriminate Hok]. unfold run_direct in E at 1.
  destruct (one_direct_channel_per_pair run_user_type run_seconds run_known run_users run_created no_io 2000000 0 200 3 1 ch created run_direct.2
              run_created_reachable ltac:(unfold is_i64; lia) E) as [_ Hsame].
  exact (Hsame 5000000 0 201).
Defined.

(** ** Where the cache and the tables part

    What a restart, or the eviction of the channel, makes of a state: the next load
    reads the participants, and the roles from the members that are left. *)
Definition after_restart (s : State) : State := (get_channel_opt no_io 0 9000000 0 100 (mkState (st_db s) service_new)).2.

(** A removed member is in the channel again: its participant row was never closed. *)
Definition run_removed := handle_member_remove no_io no_io 3000000 0 (run_ctx 1) 100 2 (w_state run_created).
Example removed_member_reappears :
  run_cached run_removed.2 100 = [(1, Owner)] /\ run_members run_removed.2 100 = [(1, 0)] /\
  run_cached (after_restart run_removed.2) 100 = [(2, Member); (1, Owner)].
Proof. split_and!; vm_compute; reflexivity. Qed.

(** An approved applicant is gone: it never got a participant row. *)
Example approved_member_vanishes :
  run_cached (w_state run_approved.2) 100 = [(3, Member); (2, Member); (1, Owner)] /\
  run_members (w_state run_approved.2) 100 = [(3, 2); (1, 0); (2, 2)] /\
  run_cached (after_restart (w_state run_approved.2)) 100 = [(2, Member); (1, Owner)].
Proof. split_and!; vm_compute; reflexivity. Qed.

(** Anyone can add anyone, as an owner: user 3 adds itself to a group it has no part in. *)
Definition run_intruded := handle_member_add run_user_type no_io no_io 3000000 (run_ctx 3) 100 3 (Some "Owner"%string) (w_state run_created).
Example anyone_becomes_owner : run_intruded.1 = Ok tt /\ run_cached run_intruded.2 100 = [(3, Owner); (2, Member); (1, Owner)].
Proof. split; vm_compute; reflexivity. Qed.

(** A transfer leaves the old owner in the cache. *)
Example transfer_leaves_two_cached_owners :
  run_members run_transferred.2 100 = [(1, 2); (2, 0)] /\ run_cached run_transferred.2 100 = [(2, Owner); (1, Owner)].
Proof. split; vm_compute; reflexivity. Qed.

(** An administrator removes even the owner, and the cached channel keeps it. *)
Definition run_admin_removed := remove_member_admin no_io 3000000 100 1 (w_state run_created).
Example admin_removal_stays_in_the_cache :
  run_admin_removed.1 = Ok tt /\ run_members run_admin_removed.2 100 = [(2, 2)] /\ run_cached run_admin_removed.2 100 = [(2, Member); (1, Owner)].
Proof. split_and!; vm_compute; reflexivity. Qed.

(** A request past its 72 hours is approved. *)
Example overdue_request_is_approved :
  get_pending_requests_by_group (100 * 3600 * nanos_per_sec) 100 (w_approval run_asked) = [] /\
  (handle_approval no_io no_io no_io (100 * 3600 * nanos_per_sec) 0 (run_ctx 1) "r" "approve" None run_asked).1 = Ok tt.
Proof. split; vm_compute; reflexivity. Qed.
