(* ===== verification/History.v ===== *)
(** * The history in memory, and mentions

    Models src/src/service/message_history_service.rs ([MessageHistory]) and
    src/src/service/mention_service.rs ([Mentions]). A [BTreeMap] is a map read in the
    order of its keys; the iteration order of a [DashMap] is the order of
    [map_to_list]. The operations lock what they touch and are one step each. *)

From stdpp Require Import base numbers gmap list sorting strings relations.
From S2P Require Import Prelude.
Local Open Scope Z_scope.

Module MessageHistory.
Record MessageHistoryRecord := mkHistory {
  h_message_id : Z; h_channel_id : Z; h_sender_id : Z; h_content : string; h_type : Z; h_seq : Z;
  h_created_at : Z; h_updated_at : Z; h_deleted : bool; h_deleted_at : option Z;
  h_revoked : bool; h_revoked_at : option Z; h_revoker_id : option Z; h_reply_to : option Z; h_metadata : option string
}.
Notation log := (gmap Z MessageHistoryRecord).
Record MessageHistoryService := mkHistoryService {
  hs_channels : gmap Z log;
  hs_index : gmap Z (Z * Z);
  hs_seqs : gmap Z Z;
  hs_max : nat
}.
Definition DEFAULT_MAX_CHANNELS : nat := 10000.
Definition history_new (max : nat) : MessageHistoryService := mkHistoryService ∅ ∅ ∅ max.
Definition memory_entries (s : MessageHistoryService) : nat * nat := (size (hs_channels s), size (hs_index s)).

(** The entries of a [BTreeMap] in order. *)
Definition seq_le (a b : Z * MessageHistoryRecord) : Prop := a.1 <= b.1.
#[export] Instance seq_le_dec a b : Decision (seq_le a b).
Proof. unfold seq_le. apply _. Defined.
Definition entries (m : log) : list (Z * MessageHistoryRecord) := merge_sort seq_le (map_to_list m).
Definition unindex (l : list (Z * MessageHistoryRecord)) (idx : gmap Z (Z * Z)) : gmap Z (Z * Z) :=
  foldl (fun idx p => delete (h_message_id p.2) idx) idx l.

(** ** Storing *)
(** The oldest record leaves a full channel, then the new one enters. *)
Definition put (max : nat) (cid : Z) (p : log * gmap Z (Z * Z)) (r : MessageHistoryRecord) : log * gmap Z (Z * Z) :=
  let '(m, idx) := p in
  let '(m1, idx1) :=
    if Nat.leb max (size m) then
      match entries m with
      | (k, old) :: _ => (delete k m, delete (h_message_id old) idx)
      | [] => (m, idx)
      end
    else (m, idx) in
  (<[h_seq r := r]> m1, <[h_message_id r := (cid, h_seq r)]> idx1).
Definition store_message (now mid cid sender : Z) (content : string) (ty : Z) (reply : option Z) (meta : option string) (s : MessageHistoryService)
    : MessageHistoryRecord * MessageHistoryService :=
  let seq := u64_add (default 0 (hs_seqs s !! cid)) 1 in
  let r := mkHistory mid cid sender content ty seq now now false None false None None reply meta in
  let '(m, idx) := put (hs_max s) cid (default ∅ (hs_channels s !! cid), hs_index s) r in
  (r, mkHistoryService (<[cid := m]> (hs_channels s)) idx (<[cid := seq]> (hs_seqs s)) (hs_max s)).

(** [store_messages_batch]: the records grouped by channel, in the order of the batch. *)
Definition group_by_channel (rs : list MessageHistoryRecord) : gmap Z (list MessageHistoryRecord) :=
  foldl (fun g r => <[h_channel_id r := default [] (g !! h_channel_id r) ++ [r]]> g) ∅ rs.
Definition store_group (s : MessageHistoryService) (g : Z * list MessageHistoryRecord) : MessageHistoryService :=
  let '(cid, rs) := g in
  let top := foldr Z.max 0 (h_seq <$> rs) in
  let '(m, idx) := foldl (put (hs_max s) cid) (default ∅ (hs_channels s !! cid), hs_index s) rs in
  mkHistoryService (<[cid := m]> (hs_channels s)) idx (<[cid := Z.max (default 0 (hs_seqs s !! cid)) top]> (hs_seqs s)) (hs_max s).
Definition store_messages_batch (rs : list MessageHistoryRecord) (s : MessageHistoryService) : nat * MessageHistoryService :=
  (length rs, foldl store_group s (map_to_list (group_by_channel rs))).

(** ** Removing *)
(** The channels idle for longest; a channel without messages is older than any. *)
Definition idle_le (a b : Z * option Z) : Prop :=
  match a.2, b.2 with None, _ => True | Some _, None => False | Some x, Some y => x <= y end.
#[export] Instance idle_le_dec a b : Decision (idle_le a b).
Proof. unfold idle_le. destruct a.2, b.2; apply _. Defined.
Definition last_activity (m : log) : option Z := (fun p : Z * MessageHistoryRecord => h_created_at p.2) <$> last (entries m).
Definition drop_channel (s : MessageHistoryService) (cid : Z) : MessageHistoryService :=
  match hs_channels s !! cid with
  | Some m => mkHistoryService (delete cid (hs_channels s)) (unindex (entries m) (hs_index s)) (hs_seqs s) (hs_max s)
  | None => s
  end.
Definition evict_stale_channels (cap : nat) (s : MessageHistoryService) : nat * MessageHistoryService :=
  let total := size (hs_channels s) in
  if Nat.leb total cap then (0%nat, s)
  else
    let idle := merge_sort idle_le ((fun p : Z * log => (p.1, last_activity p.2)) <$> map_to_list (hs_channels s)) in
    let out := (take (total - cap) idle).*1 in
    (length out, foldl drop_channel s out).
Definition clear_channel_messages (cid : Z) (s : MessageHistoryService) : result Z ServerError * MessageHistoryService :=
  match hs_channels s !! cid with
  | None => (Err (NotFound "Channel not found"), s)
  | Some m =>
      (Ok (Z.of_nat (size m)),
       mkHistoryService (delete cid (hs_channels s)) (unindex (entries m) (hs_index s)) (delete cid (hs_seqs s)) (hs_max s))
  end.

(** ** Reading *)
Record MessageQueryParams := mkQuery {
  q_channel_id : Z; q_before : option Z; q_after : option Z; q_limit : Z; q_include_deleted : bool;
  q_types : option (list Z); q_senders : option (list Z); q_start : option Z; q_end : option Z
}.
Definition query_default : MessageQueryParams := mkQuery 0 None None 50 false None None None None.
Definition newest_in (lo hi : Z) (m : log) : list MessageHistoryRecord :=
  (reverse (filter (fun p : Z * MessageHistoryRecord => lo <= p.1 <= hi) (entries m))).*2.
Definition query_range (q : MessageQueryParams) (s : MessageHistoryService) : Z * Z :=
  match q_before q, q_after q with
  | Some b, _ => match hs_index s !! b with Some (_, seq) => (0, seq) | None => (0, u64_max) end
  | None, Some a => match hs_index s !! a with Some (_, seq) => (u64_add seq 1, u64_max) | None => (0, u64_max) end
  | None, None => (0, u64_max)
  end.
Definition selected (q : MessageQueryParams) (r : MessageHistoryRecord) : bool :=
  (q_include_deleted q || negb (h_deleted r)) &&
  match q_types q with Some l => bool_decide (h_type r ∈ l) | None => true end &&
  match q_senders q with Some l => bool_decide (h_sender_id r ∈ l) | None => true end &&
  match q_start q with Some t => t <=? h_created_at r | None => true end &&
  match q_end q with Some t => h_created_at r <=? t | None => true end.
Definition query_messages (q : MessageQueryParams) (s : MessageHistoryService) : result (list MessageHistoryRecord) ServerError :=
  let? m := ok_or (hs_channels s !! q_channel_id q) (NotFound "Channel not found") in
  let '(lo, hi) := query_range q s in
  Ok (take (Z.to_nat (q_limit q)) (filter (fun r => selected q r = true) (newest_in lo hi m))).
Definition get_latest_messages (cid limit : Z) (s : MessageHistoryService) : result (list MessageHistoryRecord) ServerError :=
  query_messages (mkQuery cid None None limit false None None None None) s.
(** [None] is the panic of [BTreeMap::range] when the range starts after its end. *)
Definition query_messages_by_seq_range (cid lo hi limit : Z) (s : MessageHistoryService) : option (result (list MessageHistoryRecord) ServerError) :=
  match hs_channels s !! cid with
  | None => Some (Err (NotFound "Channel not found"))
  | Some m => if hi <? lo then None else Some (Ok (take (Z.to_nat limit) (newest_in lo hi m)))
  end.
Definition locate (mid : Z) (no_message no_channel : string) (s : MessageHistoryService) : result (Z * Z * log * MessageHistoryRecord) ServerError :=
  let? p := ok_or (hs_index s !! mid) (NotFound no_message) in
  let? m := ok_or (hs_channels s !! p.1) (NotFound no_channel) in
  let? r := ok_or (m !! p.2) (NotFound no_message) in
  Ok (p.1, p.2, m, r).
Definition get_message (mid : Z) (s : MessageHistoryService) : result MessageHistoryRecord ServerError :=
  let? p := locate mid "Message not found" "Channel not found" s in Ok p.2.
Definition get_message_by_seq (cid seq : Z) (s : MessageHistoryService) : result MessageHistoryRecord ServerError :=
  let? m := ok_or (hs_channels s !! cid) (NotFound "Channel not found") in
  ok_or (m !! seq) (NotFound "Message not found by seq").

Record ChannelMessageStats := mkStats {
  cs_total : Z; cs_active : Z; cs_deleted : Z; cs_types : gmap Z Z; cs_senders : gmap Z Z; cs_last : option MessageHistoryRecord
}.
Definition tally (key : MessageHistoryRecord -> Z) (rs : list MessageHistoryRecord) : gmap Z Z :=
  foldl (fun c r => if h_deleted r then c else <[key r := default 0 (c !! key r) + 1]> c) ∅ rs.
Definition get_channel_message_stats (cid : Z) (s : MessageHistoryService) : result ChannelMessageStats ServerError :=
  let? m := ok_or (hs_channels s !! cid) (NotFound "Channel not found") in
  let rs := (entries m).*2 in
  let total := Z.of_nat (size m) in
  let deleted := Z.of_nat (length (filter (fun r => h_deleted r = true) rs)) in
  Ok (mkStats total (total - deleted) deleted (tally h_type rs) (tally h_sender_id rs)
        (head (filter (fun r => h_deleted r = false) (reverse rs)))).

(** ** Changing a record *)
Definition with_record (cid seq : Z) (m : log) (r : MessageHistoryRecord) (s : MessageHistoryService) : MessageHistoryService :=
  mkHistoryService (<[cid := <[seq := r]> m]> (hs_channels s)) (hs_index s) (hs_seqs s) (hs_max s).
Definition delete_message (now mid uid : Z) (s : MessageHistoryService) : result unit ServerError * MessageHistoryService :=
  match locate mid "Message not found" "Channel not found" s with
  | Err e => (Err e, s)
  | Ok (cid, seq, m, r) =>
      if negb (h_sender_id r =? uid) then (Err (Forbidden "Only sender can delete message"), s)
      else (Ok tt, with_record cid seq m
              (mkHistory (h_message_id r) (h_channel_id r) (h_sender_id r) (h_content r) (h_type r) (h_seq r) (h_created_at r) now true (Some now)
                 (h_revoked r) (h_revoked_at r) (h_revoker_id r) (h_reply_to r) (h_metadata r)) s)
  end.
Definition update_message (now mid uid : Z) (content : string) (meta : option string) (s : MessageHistoryService)
    : result unit ServerError * MessageHistoryService :=
  match locate mid "Message not found" "Channel not found" s with
  | Err e => (Err e, s)
  | Ok (cid, seq, m, r) =>
      if negb (h_sender_id r =? uid) then (Err (Forbidden "Only sender can edit message"), s)
      else (Ok tt, with_record cid seq m
              (mkHistory (h_message_id r) (h_channel_id r) (h_sender_id r) content (h_type r) (h_seq r) (h_created_at r) now (h_deleted r) (h_deleted_at r)
                 (h_revoked r) (h_revoked_at r) (h_revoker_id r) (h_reply_to r) (match meta with Some x => Some x | None => h_metadata r end)) s)
  end.
Definition revoke_message (now mid uid : Z) (s : MessageHistoryService) : result MessageHistoryRecord ServerError * MessageHistoryService :=
  match locate mid "消息不存在" "频道不存在" s with
  | Err e => (Err e, s)
  | Ok (cid, seq, m, r) =>
      if h_revoked r then (Err (InvalidRequest "消息已被撤回"), s)
      else if h_deleted r then (Err (InvalidRequest "消息已被删除"), s)
      else
        let r' := mkHistory (h_message_id r) (h_channel_id r) (h_sender_id r) (h_content r) (h_type r) (h_seq r) (h_created_at r) now (h_deleted r)
                    (h_deleted_at r) true (Some now) (Some uid) (h_reply_to r) (h_metadata r) in
        (Ok r', with_record cid seq m r' s)
  end.
End MessageHistory.

Module Mentions.
Record Mention := mkMention { mn_message_id : Z; mn_channel_id : Z; mn_users : list Z; mn_all : bool; mn_created_at : Z }.
Record MentionService := mkMentions { ms_mentions : gmap Z Mention; ms_by_user : gmap Z (list Z) }.
Definition mentions_new : MentionService := mkMentions ∅ ∅.
Definition parse_word (acc : list string * bool) (w : string) : list string * bool :=
  match w with
  | String c name =>
      if decide (c = Ascii.ascii_of_nat 64) then
        if decide (name = "全体成员"%string \/ name = "all"%string \/ name = "everyone"%string) then (acc.1, true)
        else if decide (name = EmptyString) then acc else (acc.1 ++ [name], acc.2)
      else acc
  | EmptyString => acc
  end.
(** The content is given as its words, what [split_whitespace] makes of it. *)
Definition parse_mentions (words : list string) : list string * bool := foldl parse_word ([], false) words.
Definition record_mention (now mid cid : Z) (users : list Z) (all : bool) (s : MentionService) : MentionService :=
  mkMentions (<[mid := mkMention mid cid users all now]> (ms_mentions s))
    (foldl (fun m u => <[u := default [] (m !! u) ++ [mid]]> m) (ms_by_user s) users).
Definition get_message_mentions (mid : Z) (s : MentionService) : option Mention := ms_mentions s !! mid.
Definition get_user_mentions (uid : Z) (limit : option nat) (s : MentionService) : list Z :=
  let l := reverse (default [] (ms_by_user s !! uid)) in match limit with Some n => take n l | None => l end.
Definition is_user_mentioned (mid uid : Z) (s : MentionService) : bool :=
  match ms_mentions s !! mid with Some m => bool_decide (uid ∈ mn_users m) | None => false end.
End Mentions.

(** ** The index

    A channel's part of the index agrees with its log; [keeps] says that an update
    leaves the index of the other channels, and adds only the ids of [rs]. *)
Module HistoryFacts.
Import MessageHistory.

Record chan_ok (cid : Z) (m : log) (idx : gmap Z (Z * Z)) : Prop := {
  co_rec : forall q r, m !! q = Some r -> h_channel_id r = cid /\ h_seq r = q /\ idx !! h_message_id r = Some (cid, q);
  co_idx : forall mid q, idx !! mid = Some (cid, q) -> exists r, m !! q = Some r /\ h_message_id r = mid
}.
Record keeps (cid : Z) (rs : list MessageHistoryRecord) (m m' : log) (idx idx' : gmap Z (Z * Z)) : Prop := {
  kp_other : forall mid c q, c <> cid -> idx' !! mid = Some (c, q) <-> idx !! mid = Some (c, q);
  kp_fresh : forall mid, idx !! mid = None -> mid ∉ h_message_id <$> rs -> idx' !! mid = None;
  kp_slot : forall q, m !! q = None -> q ∉ h_seq <$> rs -> m' !! q = None;
  kp_from : forall q r, m' !! q = Some r -> m !! q = Some r \/ r ∈ rs
}.
Lemma keeps_refl cid m idx : keeps cid [] m m idx idx.
Proof. split; intros; auto; done. Qed.
Lemma keeps_trans cid rs1 rs2 m1 m2 m3 i1 i2 i3 : keeps cid rs1 m1 m2 i1 i2 -> keeps cid rs2 m2 m3 i2 i3 -> keeps cid (rs1 ++ rs2) m1 m3 i1 i3.
Proof.
  intros [A1 B1 C1 D1] [A2 B2 C2 D2]. split.
  - intros. rewrite A2 by done. by apply A1.
  - intros mid Hn. rewrite fmap_app. intros Hi%not_elem_of_app. apply B2; [apply B1; tauto|tauto].
  - intros q Hn. rewrite fmap_app. intros Hi%not_elem_of_app. apply C2; [apply C1; tauto|tauto].
  - intros q r [Hr|Hr]%D2; [apply D1 in Hr as [|]; [by left|right; apply elem_of_app; by left]|right; apply elem_of_app; by right].
Qed.

Lemma entries_elem m p : p ∈ entries m <-> m !! p.1 = Some p.2.
Proof. unfold entries. rewrite merge_sort_Permutation, <- elem_of_map_to_list. by destruct p. Qed.

(** One record more, or one of the channel's records less. *)
Lemma add_record cid m idx r : chan_ok cid m idx -> h_channel_id r = cid -> idx !! h_message_id r = None -> m !! h_seq r = None ->
  chan_ok cid (<[h_seq r := r]> m) (<[h_message_id r := (cid, h_seq r)]> idx) /\
  keeps cid [r] m (<[h_seq r := r]> m) idx (<[h_message_id r := (cid, h_seq r)]> idx).
Proof.
  intros [R I] Hc Hi Hm. split; split.
  - intros q x [[<- <-]|[Hq Hx]]%lookup_insert_Some; [by rewrite lookup_insert_eq|].
    destruct (R _ _ Hx) as (? & ? & Hix). split_and!; [done..|]. rewrite lookup_insert_ne; [done|]. congruence.
  - intros mid q [[<- [= <-]]|[Hne Hx]]%lookup_insert_Some; [exists r; by rewrite lookup_insert_eq|].
    destruct (I _ _ Hx) as (x & Hq & Hid). exists x. rewrite lookup_insert_ne; [done|]. congruence.
  - intros mid c q Hne. rewrite lookup_insert_Some. split; [intros [[_ [= ? _]]|[_ ?]]; [congruence|done]|].
    intros Hx. right. split; [congruence|done].
  - intros mid Hn Hnot. rewrite lookup_insert_None. split; [done|]. intros <-. apply Hnot. by left.
  - intros q Hn Hnot. rewrite lookup_insert_None. split; [done|]. intros <-. apply Hnot. by left.
  - intros q x [[_ <-]|[_ Hx]]%lookup_insert_Some; [right; by left|by left].
Qed.
Lemma drop_record cid m idx k old : chan_ok cid m idx -> m !! k = Some old ->
  chan_ok cid (delete k m) (delete (h_message_id old) idx) /\ keeps cid [] m (delete k m) idx (delete (h_message_id old) idx).
Proof.
  intros [R I] Hk. destruct (R _ _ Hk) as (_ & _ & Hold). split; split.
  - intros q x [Hne Hx]%lookup_delete_Some. destruct (R _ _ Hx) as (? & ? & Hix). split_and!; [done..|].
    rewrite lookup_delete_ne; [done|]. congruence.
  - intros mid q [Hne Hx]%lookup_delete_Some. destruct (I _ _ Hx) as (x & Hq & Hid). exists x. rewrite lookup_delete_ne; [done|]. congruence.
  - intros mid c q Hc. rewrite lookup_delete_Some. split; [by intros [_ ?]|]. intros Hx. split; [congruence|done].
  - intros mid Hn _. rewrite lookup_delete_None. by right.
  - intros q Hn _. rewrite lookup_delete_None. by right.
  - intros q x [_ Hx]%lookup_delete_Some. by left.
Qed.

Lemma put_ok max cid m idx r : chan_ok cid m idx -> h_channel_id r = cid -> idx !! h_message_id r = None -> m !! h_seq r = None ->
  (size m <= Nat.max 1 max)%nat ->
  let p := put max cid (m, idx) r in chan_ok cid p.1 p.2 /\ keeps cid [r] m p.1 idx p.2 /\ (size p.1 <= Nat.max 1 max)%nat.
Proof.
  intros Hok Hc Hi Hm Hs. unfold put. destruct (Nat.leb_spec max (size m)) as [Hfull|Hroom].
  - destruct (entries m) as [|[k old] rest] eqn:E.
    + assert (m = ∅) as ->.
      { apply map_empty. intros q. destruct (m !! q) as [x|] eqn:Eq; [|done]. exfalso.
        assert ((q, x) ∈ entries m) as Hin by by apply entries_elem. rewrite E in Hin. by apply elem_of_nil in Hin. }
      destruct (add_record cid ∅ idx r Hok Hc Hi Hm). simpl. split_and!; [done..|]. rewrite map_size_insert_None by done. rewrite map_size_empty. lia.
    + assert (m !! k = Some old) as Hk by (change (m !! (k, old).1 = Some (k, old).2); apply entries_elem; rewrite E; by left).
      destruct (drop_record cid m idx k old Hok Hk) as [Hok1 Hk1].
      assert (delete k m !! h_seq r = None) as Hm1 by (rewrite lookup_delete_None; by right).
      assert (delete (h_message_id old) idx !! h_message_id r = None) as Hi1 by (rewrite lookup_delete_None; by right).
      destruct (add_record cid _ _ r Hok1 Hc Hi1 Hm1) as [Hok2 Hk2]. simpl. split_and!; [done|exact (keeps_trans _ _ _ _ _ _ _ _ _ Hk1 Hk2)|].
      rewrite map_size_insert_None by done. rewrite map_size_delete, Hk. simpl.
      assert (size m <> 0%nat) by (intros Hz; apply map_size_empty_iff in Hz; by rewrite Hz in Hk). lia.
  - destruct (add_record cid m idx r Hok Hc Hi Hm). simpl. split_and!; [done..|]. rewrite map_size_insert_None by done. lia.
Qed.
Lemma puts_ok max cid rs m idx : chan_ok cid m idx -> (size m <= Nat.max 1 max)%nat -> NoDup (h_message_id <$> rs) -> NoDup (h_seq <$> rs) ->
  (forall r, r ∈ rs -> h_channel_id r = cid /\ idx !! h_message_id r = None /\ m !! h_seq r = None) ->
  let p := foldl (put max cid) (m, idx) rs in chan_ok cid p.1 p.2 /\ keeps cid rs m p.1 idx p.2 /\ (size p.1 <= Nat.max 1 max)%nat.
Proof.
  revert m idx. induction rs as [|r rs IH]; intros m idx Hok Hs; [intros; simpl; split_and!; [done|apply keeps_refl|done]|].
  rewrite !fmap_cons. intros [Hi Hids]%NoDup_cons [Hq Hseqs]%NoDup_cons Hall.
  destruct (Hall r) as (Hc & Hir & Hmr); [by left|]. destruct (put_ok max cid m idx r Hok Hc Hir Hmr Hs) as (Hok1 & Hk1 & Hs1).
  cbn [foldl]. cbv zeta in *. destruct (put max cid (m, idx) r) as [m1 idx1]. cbn [fst snd] in *.
  destruct (IH m1 idx1 Hok1 Hs1 Hids Hseqs) as (Hok2 & Hk2 & Hs2).
  { intros x Hx. destruct (Hall x) as (? & Hix & Hmx); [by right|]. split_and!; [done|apply (kp_fresh _ _ _ _ _ _ Hk1); [done|]|apply (kp_slot _ _ _ _ _ _ Hk1); [done|]].
    - intros Heq%list_elem_of_singleton. apply Hi. rewrite <- Heq. by apply list_elem_of_fmap_2.
    - intros Heq%list_elem_of_singleton. apply Hq. rewrite <- Heq. by apply list_elem_of_fmap_2. }
  split_and!; [done|exact (keeps_trans _ [r] rs _ _ _ _ _ _ Hk1 Hk2)|done].
Qed.

(** ** The service *)
Record hist_ok (s : MessageHistoryService) : Prop := {
  ho_chan : forall c m, hs_channels s !! c = Some m -> chan_ok c m (hs_index s);
  ho_idx : forall mid c q, hs_index s !! mid = Some (c, q) -> is_Some (hs_channels s !! c);
  ho_cap : forall c m, hs_channels s !! c = Some m -> (size m <= Nat.max 1 (hs_max s))%nat;
  ho_seq : forall c m q r, hs_channels s !! c = Some m -> m !! q = Some r -> q <= default 0 (hs_seqs s !! c)
}.
(** New records: ids not in the index, slots of the channel that are free. *)
Definition new_records (s : MessageHistoryService) (rs : list MessageHistoryRecord) : Prop :=
  NoDup (h_message_id <$> rs) /\ (forall c, NoDup (h_seq <$> filter (fun r => h_channel_id r = c) rs)) /\
  forall r, r ∈ rs -> hs_index s !! h_message_id r = None /\
    forall m, hs_channels s !! h_channel_id r = Some m -> m !! h_seq r = None.

(** Replacing the log of one channel. *)
Lemma put_channel_ok s cid rs m' idx' n : hist_ok s ->
  let m := default ∅ (hs_channels s !! cid) in
  chan_ok cid m' idx' -> keeps cid rs m m' (hs_index s) idx' -> (size m' <= Nat.max 1 (hs_max s))%nat ->
  default 0 (hs_seqs s !! cid) <= n -> (forall r, r ∈ rs -> h_seq r <= n) ->
  hist_ok (mkHistoryService (<[cid := m']> (hs_channels s)) idx' (<[cid := n]> (hs_seqs s)) (hs_max s)).
Proof.
  intros [C I S Q] m Hok Hk Hs Hn Hrs. split; simpl.
  - intros c x [[<- <-]|[Hne Hx]]%lookup_insert_Some; [done|]. destruct (C _ _ Hx) as [R J]. split.
    + intros q r Hr. destruct (R _ _ Hr) as (? & ? & Hi). split_and!; [done..|]. by apply (kp_other _ _ _ _ _ _ Hk).
    + intros mid q Hi. apply (J mid q). apply (kp_other _ _ _ _ _ _ Hk) in Hi; [done|congruence].
  - intros mid c q Hi. destruct (decide (c = cid)) as [->|Hne]; [by rewrite lookup_insert_eq; eexists|].
    rewrite lookup_insert_ne by congruence. apply (I mid c q). by apply (kp_other _ _ _ _ _ _ Hk) in Hi.
  - intros c x [[<- <-]|[Hne Hx]]%lookup_insert_Some; [done|by eapply S].
  - intros c x q r [[<- <-]|[Hne Hx]]%lookup_insert_Some Hr.
    + rewrite lookup_insert_eq. simpl. destruct (co_rec _ _ _ Hok _ _ Hr) as (_ & <- & _).
      destruct (kp_from _ _ _ _ _ _ Hk _ _ Hr) as [Hold|Hnew]; [|by apply Hrs].
      unfold m in Hold. destruct (hs_channels s !! cid) as [y|] eqn:Ey; simpl in Hold; [|by rewrite lookup_empty in Hold].
      transitivity (default 0 (hs_seqs s !! cid)); [by eapply Q|done].
    + rewrite lookup_insert_ne by congruence. by eapply Q.
Qed.
Lemma channel_ok s cid : hist_ok s -> chan_ok cid (default ∅ (hs_channels s !! cid)) (hs_index s) /\
  (size (default ∅ (hs_channels s !! cid)) <= Nat.max 1 (hs_max s))%nat.
Proof.
  intros [C I S Q]. destruct (hs_channels s !! cid) as [m|] eqn:E; simpl; [split; [by apply C|by eapply S]|].
  split; [|rewrite map_size_empty; lia]. split; [intros q r; by rewrite lookup_empty|]. intros mid q Hi. apply I in Hi. rewrite E in Hi. by destruct Hi.
Qed.

Lemma store_message_ok now mid cid sender content ty reply meta s : hist_ok s -> hs_index s !! mid = None ->
  0 <= default 0 (hs_seqs s !! cid) < u64_max -> hist_ok (store_message now mid cid sender content ty reply meta s).2.
Proof.
  intros Hok Hi Hb. destruct (channel_ok s cid Hok) as [Hc Hs]. unfold store_message.
  assert (u64_add (default 0 (hs_seqs s !! cid)) 1 = default 0 (hs_seqs s !! cid) + 1) as -> by (apply u64_add_small; unfold u64_max in *; lia).
  set (r := mkHistory _ _ _ _ _ _ _ _ _ _ _ _ _ _ _).
  assert (default ∅ (hs_channels s !! cid) !! h_seq r = None) as Hm.
  { destruct (default ∅ (hs_channels s !! cid) !! h_seq r) as [x|] eqn:E; [|done]. exfalso.
    destruct (hs_channels s !! cid) as [m|] eqn:Em; simpl in E; [|by rewrite lookup_empty in E].
    pose proof (ho_seq _ Hok _ _ _ _ Em E) as Hle. simpl in Hle. lia. }
  destruct (put_ok (hs_max s) cid _ _ r Hc eq_refl Hi Hm Hs) as (Hok1 & Hk1 & Hs1).
  destruct (put _ _ _ r) as [m' idx']. cbn [fst snd] in *. eapply (put_channel_ok s cid [r]); try done; [simpl; lia|].
  intros x ->%list_elem_of_singleton. simpl. lia.
Qed.
Lemma store_group_ok s cid rs : hist_ok s -> new_records s rs -> (forall r, r ∈ rs -> h_channel_id r = cid) ->
  hist_ok (store_group s (cid, rs)) /\
  (forall mid, hs_index s !! mid = None -> mid ∉ h_message_id <$> rs -> hs_index (store_group s (cid, rs)) !! mid = None) /\
  (forall c, c <> cid -> hs_channels (store_group s (cid, rs)) !! c = hs_channels s !! c).
Proof.
  intros Hok (Hids & Hseqs & Hnew) Hcid. destruct (channel_ok s cid Hok) as [Hc Hs]. unfold store_group.
  assert (filter (fun r => h_channel_id r = cid) rs = rs) as Hf.
  { clear -Hcid. induction rs as [|r rs IH]; [done|]. rewrite filter_cons_True by (apply Hcid; by left). f_equal. apply IH. intros x Hx. apply Hcid. by right. }
  specialize (Hseqs cid). rewrite Hf in Hseqs.
  destruct (puts_ok (hs_max s) cid rs _ _ Hc Hs Hids Hseqs) as (Hok1 & Hk1 & Hs1).
  { intros r Hr. destruct (Hnew r Hr) as [Hi Hm]. split_and!; [by apply Hcid|done|]. rewrite (Hcid r Hr) in Hm.
    destruct (hs_channels s !! cid); [by apply Hm|apply lookup_empty]. }
  destruct (foldl (put (hs_max s) cid) _ rs) as [m' idx']. cbn [fst snd] in *. split_and!.
  - eapply (put_channel_ok s cid rs); try done; [lia|]. intros r Hr. etransitivity; [|apply Z.le_max_r].
    clear -Hr. induction rs as [|x rs IH]; [by apply elem_of_nil in Hr|]. rewrite fmap_cons. cbn [foldr]. apply elem_of_cons in Hr as [->|Hr]; [lia|specialize (IH Hr); lia].
  - intros mid. apply (kp_fresh _ _ _ _ _ _ Hk1).
  - intros c Hne. simpl. by rewrite lookup_insert_ne by congruence.
Qed.

Lemma group_by_channel_lookup rs c l : group_by_channel rs !! c = Some l -> l = filter (fun r => h_channel_id r = c) rs.
Proof.
  intros H. enough (default [] (group_by_channel rs !! c) = filter (fun r => h_channel_id r = c) rs) as Hd by (by rewrite H in Hd). clear l H.
  unfold group_by_channel. induction rs as [|r rs IH] using rev_ind; [done|].
  rewrite foldl_app. cbn [foldl]. rewrite filter_app, filter_cons, filter_nil. case_decide as Hr.
  - rewrite Hr, lookup_insert_eq. cbn [default]. by rewrite IH.
  - rewrite lookup_insert_ne by done. by rewrite IH, app_nil_r.
Qed.
Lemma new_records_filter s rs c : new_records s rs -> new_records s (filter (fun r => h_channel_id r = c) rs).
Proof.
  intros (Hids & Hseqs & Hnew). split_and!.
  - eapply sublist_NoDup; [exact Hids|]. apply fmap_sublist, sublist_filter.
  - intros c'. eapply sublist_NoDup; [exact (Hseqs c')|]. apply fmap_sublist. rewrite list_filter_filter.
    clear. induction rs as [|r rs IH]; [done|]. rewrite !filter_cons. repeat case_decide; try tauto; by constructor.
  - intros r [_ Hr]%list_elem_of_filter. by apply Hnew.
Qed.
Lemma same_id rs x y : NoDup (h_message_id <$> rs) -> x ∈ rs -> y ∈ rs -> h_message_id x = h_message_id y -> x = y.
Proof.
  intros Hnd (i & Hi)%list_elem_of_lookup (j & Hj)%list_elem_of_lookup Heq.
  assert (i = j) as ->; [|congruence].
  eapply (NoDup_lookup _ i j (h_message_id x) Hnd); rewrite list_lookup_fmap; [by rewrite Hi|rewrite Hj; simpl; congruence].
Qed.
Lemma store_groups_ok rs gs s : NoDup (h_message_id <$> rs) -> hist_ok s -> NoDup gs.*1 ->
  (forall g, g ∈ gs -> g.2 = filter (fun r => h_channel_id r = g.1) rs /\ new_records s g.2) -> hist_ok (foldl store_group s gs).
Proof.
  intros Hids. revert s. induction gs as [|[c l] gs IH]; intros s Hok Hnd Hg; [done|]. apply NoDup_cons in Hnd as [Hc Hnd]. cbn [foldl].
  destruct (Hg (c, l)) as [Hl Hnew]; [by left|]. simpl in Hl, Hnew.
  destruct (store_group_ok s c l Hok Hnew) as (Hok1 & Hfresh & Hother); [intros r Hr; rewrite Hl in Hr; by apply list_elem_of_filter in Hr as [? _]|].
  apply IH; [done|done|]. intros [c' l'] Hin. destruct (Hg (c', l')) as [Hl' (Hi' & Hq' & Hn')]; [by right|]. simpl in *.
  assert (c' <> c) as Hcc by (intros ->; apply Hc; by apply (list_elem_of_fmap_2 fst _ (c, l'))).
  split; [done|]. split_and!; [done|done|]. intros r Hr. destruct (Hn' r Hr) as [Hir Hmr].
  assert (h_channel_id r = c' /\ r ∈ rs) as [Hrc Hrr] by (rewrite Hl' in Hr; by apply list_elem_of_filter in Hr). split.
  - apply Hfresh; [done|]. intros (x & Hx & Hxl)%list_elem_of_fmap. rewrite Hl in Hxl. apply list_elem_of_filter in Hxl as [Hxc Hxr].
    assert (r = x) as -> by by apply (same_id rs). congruence.
  - intros m. rewrite Hrc, Hother by done. rewrite <- Hrc. apply Hmr.
Qed.
Lemma store_batch_ok rs s : hist_ok s -> new_records s rs -> hist_ok (store_messages_batch rs s).2.
Proof.
  intros Hok Hnew. apply (store_groups_ok rs); [apply Hnew|done|apply NoDup_fst_map_to_list|].
  intros [c l] Hin%elem_of_map_to_list. simpl. apply group_by_channel_lookup in Hin as ->. split; [done|]. by apply new_records_filter.
Qed.

Lemma unindex_lookup l idx mid : unindex l idx !! mid = if decide (mid ∈ h_message_id <$> l.*2) then None else idx !! mid.
Proof.
  unfold unindex. revert idx. induction l as [|[q r] l IH]; intros idx; [done|]. cbn [foldl fmap list_fmap snd]. rewrite IH.
  destruct (decide (mid = h_message_id r)) as [->|Hne].
  - rewrite lookup_delete_eq. repeat case_decide; try done; exfalso; match goal with H : _ ∉ _ :: _ |- _ => apply H end; by left.
  - rewrite lookup_delete_ne by done. repeat case_decide; try done; exfalso.
    + match goal with H : _ ∉ _ :: _ |- _ => apply H end. by right.
    + match goal with H : _ ∈ _ :: _ |- _ => apply elem_of_cons in H as [|] end; tauto.
Qed.
Lemma dropped_ok s cid m seqs : hist_ok s -> hs_channels s !! cid = Some m ->
  (forall c, c <> cid -> seqs !! c = hs_seqs s !! c) ->
  hist_ok (mkHistoryService (delete cid (hs_channels s)) (unindex (entries m) (hs_index s)) seqs (hs_max s)).
Proof.
  intros Hok Hm Hseqs. destruct (ho_chan _ Hok _ _ Hm) as [R J].
  assert (forall mid c q, hs_index s !! mid = Some (c, q) -> c <> cid -> unindex (entries m) (hs_index s) !! mid = Some (c, q)) as Hkeep.
  { intros mid c q Hi Hne. rewrite unindex_lookup. case_decide as Hd; [|done]. exfalso.
    apply list_elem_of_fmap in Hd as (r & -> & ([q' r'] & -> & Hin)%list_elem_of_fmap). apply entries_elem in Hin. apply R in Hin as (_ & _ & Hi'). simpl in *. congruence. }
  assert (forall mid c q, unindex (entries m) (hs_index s) !! mid = Some (c, q) -> c <> cid /\ hs_index s !! mid = Some (c, q)) as Hback.
  { intros mid c q. rewrite unindex_lookup. case_decide as Hd; [done|]. intros Hi. split; [|done]. intros ->. apply Hd.
    destruct (J _ _ Hi) as (r & Hr & <-). apply list_elem_of_fmap_2, (list_elem_of_fmap_2 snd _ (q, r)). by apply entries_elem. }
  split; simpl.
  - intros c x [Hne Hx]%lookup_delete_Some. destruct (ho_chan _ Hok _ _ Hx) as [R' J']. split.
    + intros q r Hr. destruct (R' _ _ Hr) as (? & ? & Hi). split_and!; [done..|]. by apply Hkeep.
    + intros mid q [_ Hi]%Hback. by apply J'.
  - intros mid c q [Hne Hi]%Hback. rewrite lookup_delete_ne by congruence. by eapply (ho_idx _ Hok).
  - intros c x [_ Hx]%lookup_delete_Some. by eapply (ho_cap _ Hok).
  - intros c x q r [Hne Hx]%lookup_delete_Some Hr. rewrite Hseqs by done. by eapply (ho_seq _ Hok).
Qed.
Lemma evict_ok cap s : hist_ok s -> hist_ok (evict_stale_channels cap s).2.
Proof.
  intros Hok. unfold evict_stale_channels. destruct (Nat.leb _ _); [done|]. simpl. generalize ((take (size (hs_channels s) - cap) (merge_sort idle_le ((fun p : Z * log => (p.1, last_activity p.2)) <$> map_to_list (hs_channels s)))).*1) as out.
  intros out. revert s Hok. induction out as [|c out IH]; intros s Hok; [done|]. cbn [foldl]. apply IH. unfold drop_channel.
  destruct (hs_channels s !! c) as [m|] eqn:E; [|done]. by apply dropped_ok.
Qed.
Lemma locate_Ok mid a b s cid q m r : locate mid a b s = Ok (cid, q, m, r) ->
  hs_index s !! mid = Some (cid, q) /\ hs_channels s !! cid = Some m /\ m !! q = Some r.
Proof.
  unfold locate. destruct (hs_index s !! mid) as [[c' q']|]; [|done]. simpl. destruct (hs_channels s !! c') as [m'|] eqn:E; [|done]. simpl.
  destruct (m' !! q') as [r'|] eqn:E'; [|done]. simpl. by intros [= <- <- <- <-].
Qed.
Lemma with_record_ok cid q m r r' s : hist_ok s -> hs_channels s !! cid = Some m -> m !! q = Some r ->
  h_message_id r' = h_message_id r -> h_channel_id r' = h_channel_id r -> h_seq r' = h_seq r -> hist_ok (with_record cid q m r' s).
Proof.
  intros Hok Hm Hr E1 E2 E3. destruct (ho_chan _ Hok _ _ Hm) as [R J]. split; simpl.
  - intros c x [[<- <-]|[Hne Hx]]%lookup_insert_Some; [|by apply (ho_chan _ Hok)]. split.
    + intros q' x [[<- <-]|[_ Hx]]%lookup_insert_Some; [rewrite E1, E2, E3; by apply R|by apply R].
    + intros mid q' (x & Hx & Hid)%J. destruct (decide (q = q')) as [<-|Hne]; [exists r'; rewrite lookup_insert_eq; split; [done|congruence]|].
      exists x. by rewrite lookup_insert_ne.
  - intros mid c q' Hi%(ho_idx _ Hok). destruct (decide (cid = c)) as [<-|Hne]; [by rewrite lookup_insert_eq; eexists|by rewrite lookup_insert_ne].
  - intros c x [[<- <-]|[Hne Hx]]%lookup_insert_Some; [|by apply (ho_cap _ Hok _ _ Hx)]. rewrite map_size_insert_Some by (by eexists). by apply (ho_cap _ Hok _ _ Hm).
  - intros c x q' y [[<- <-]|[Hne Hx]]%lookup_insert_Some Hy; [|by eapply (ho_seq _ Hok)].
    apply lookup_insert_Some in Hy as [[<- _]|[_ Hy]]; by eapply (ho_seq _ Hok).
Qed.

(** ** Reachable histories *)
Inductive history_step : MessageHistoryService -> MessageHistoryService -> Prop :=
| HsStore s now mid cid sender content ty reply meta : hs_index s !! mid = None -> 0 <= default 0 (hs_seqs s !! cid) < u64_max ->
    history_step s (store_message now mid cid sender content ty reply meta s).2
| HsBatch s rs : new_records s rs -> history_step s (store_messages_batch rs s).2
| HsEvict s cap : history_step s (evict_stale_channels cap s).2
| HsClear s cid : history_step s (clear_channel_messages cid s).2
| HsDelete s now mid uid : history_step s (delete_message now mid uid s).2
| HsUpdate s now mid uid content meta : history_step s (update_message now mid uid content meta s).2
| HsRevoke s now mid uid : history_step s (revoke_message now mid uid s).2.
Lemma history_step_ok s s' : history_step s s' -> hist_ok s -> hist_ok s'.
Proof.
  intros Hs Hok. destruct Hs as [s now mid cid sender content ty reply meta Hi Hb|s rs Hn|s cap|s cid|s now mid uid|s now mid uid content meta|s now mid uid].
  - by apply store_message_ok.
  - by apply store_batch_ok.
  - by apply evict_ok.
  - unfold clear_channel_messages. destruct (hs_channels s !! cid) as [m|] eqn:E; [|done]. apply dropped_ok; [done..|]. intros c Hne. by rewrite lookup_delete_ne.
  - unfold delete_message. destruct (locate _ _ _ s) as [[[[c q] m] r]|] eqn:E; [|done]. case_match; [done|].
    apply locate_Ok in E as (_ & Hm & Hr). by eapply with_record_ok.
  - unfold update_message. destruct (locate _ _ _ s) as [[[[c q] m] r]|] eqn:E; [|done]. case_match; [done|].
    apply locate_Ok in E as (_ & Hm & Hr). by eapply with_record_ok.
  - unfold revoke_message. destruct (locate _ _ _ s) as [[[[c q] m] r]|] eqn:E; [|done]. do 2 (case_match; [done|]).
    apply locate_Ok in E as (_ & Hm & Hr). by eapply with_record_ok.
Qed.
Lemma history_reachable_ok max s : rtc history_step (history_new max) s -> hist_ok s.
Proof.
  revert s. apply (rtc_ind_r hist_ok (history_new max)); [|intros x y _ Hs; by apply history_step_ok].
  split; simpl; intros *; by rewrite lookup_empty.
Qed.

(** C32. Looking a message up in the history finds it exactly when some channel still
    holds it, and no channel holds more records than it may, after any calls that
    store new messages, change them, clear channels or evict the idle ones. *)
Theorem history_is_exact (max : nat) (s : MessageHistoryService) : rtc history_step (history_new max) s ->
  (forall mid r, get_message mid s = Ok r <-> h_message_id r = mid /\ exists m, hs_channels s !! h_channel_id r = Some m /\ m !! h_seq r = Some r) /\
  (forall c m, hs_channels s !! c = Some m -> (size m <= Nat.max 1 (hs_max s))%nat).
Proof.
  intros Hok%history_reachable_ok. split; [|apply (ho_cap _ Hok)]. intros mid r. unfold get_message. split.
  - destruct (locate _ _ _ s) as [[[[c q] m] r']|] eqn:E; [|done]. intros [= <-]. apply locate_Ok in E as (Hi & Hm & Hr).
    destruct (ho_chan _ Hok _ _ Hm) as [R J]. destruct (J _ _ Hi) as (x & Hx & Hid). destruct (R _ _ Hr) as (-> & -> & _).
    split; [congruence|by exists m].
  - intros [<- (m & Hm & Hr)]. destruct (co_rec _ _ _ (ho_chan _ Hok _ _ Hm) _ _ Hr) as (_ & _ & Hi).
    unfold locate. rewrite Hi. simpl. rewrite Hm. simpl. by rewrite Hr.
Qed.
Definition hist_demo : MessageHistoryService :=
  (store_message 5 11 7 1 "b" 0 None None (store_message 4 10 7 1 "a" 0 None None (history_new 1)).2).2.
Lemma hist_demo_reachable : rtc history_step (history_new 1) hist_demo.
Proof. eapply rtc_l; [apply HsStore; [done|by vm_compute]|]. apply rtc_once. apply HsStore; [by vm_compute|by vm_compute]. Qed.
Lemma history_is_exact_witness : is_ok (get_message 10 hist_demo) = false /\ exists r, get_message 11 hist_demo = Ok r /\ h_message_id r = 11.
Proof.
  split; [vm_compute; reflexivity|]. destruct (history_is_exact 1 hist_demo hist_demo_reachable) as [H _].
  exists (mkHistory 11 7 1 "b" 0 2 5 5 false None false None None None None).
  assert (get_message 11 hist_demo = Ok (mkHistory 11 7 1 "b" 0 2 5 5 false None false None None None None)) as E by (vm_compute; reflexivity).
  split; [exact E|]. exact (proj1 (proj1 (H 11 _) E)).
Defined.

(** The bound [before] is part of the page it is meant to exclude. *)
Definition hist_page : MessageHistoryService :=
  (store_message 5 11 7 1 "b" 0 None None (store_message 4 10 7 1 "a" 0 None None (history_new 9)).2).2.
Example page_before_contains_its_bound :
  match query_messages (mkQuery 7 (Some 11) None 50 false None None None None) hist_page with Ok l => map h_message_id l | Err _ => [] end = [11; 10].
Proof. vm_compute. reflexivity. Qed.
End HistoryFacts.
