(* ===== verification/Payload.v ===== *)
(** * Payloads of messages, and protocol codes

    Models the parsing and the checks of a message's payload in
    src/src/handler/send_message_handler.rs ([parse_payload],
    [validate_message_metadata]), the references to media of
    src/src/service/legacy_media_refs.rs, and the codes and HTTP statuses of
    src/src/error.rs.

    A payload is the string of its bytes. The FlatBuffers decoder and serde_json are
    parameters ([PayloadCodec]); a code of the protocol is the name of its
    constructor, and the types of messages are those of the protocol's enumeration
    ([ContentKind]). *)

From Stdlib Require Import Ascii.
From stdpp Require Import base numbers gmap list strings.
From S2P Require Import Prelude Friend Channel Timeline Submit.
Local Open Scope Z_scope.

(** ** Text *)
Definition strip_prefix (p s : string) : option string :=
  if String.prefix p s then Some (String.substring (String.length p) (String.length s - String.length p) s) else None.
Definition starts_with (p s : string) : bool := String.prefix p s.
Fixpoint contains (p s : string) : bool :=
  String.prefix p s || match s with EmptyString => false | String _ r => contains p r end.
Fixpoint without_nul (s : string) : string :=
  match s with
  | EmptyString => EmptyString
  | String c r => if decide (c = zero) then without_nul r else String c (without_nul r)
  end.

(** [std::str::from_utf8]: the well-formed byte sequences of Unicode. *)
Definition byte (a : ascii) : nat := nat_of_ascii a.
Definition within (lo hi : nat) (a : ascii) : bool := Nat.leb lo (byte a) && Nat.leb (byte a) hi.
Definition continuation : ascii -> bool := within 128 191.
Fixpoint utf8 (s : string) : bool :=
  match s with
  | EmptyString => true
  | String a r =>
      if within 0 127 a then utf8 r
      else
        match r with
        | String b r2 =>
            if within 194 223 a && continuation b then utf8 r2
            else
              match r2 with
              | String c r3 =>
                  if ((within 224 224 a && within 160 191 b) || (within 225 236 a && continuation b) ||
                      (within 237 237 a && within 128 159 b) || (within 238 239 a && continuation b)) && continuation c
                  then utf8 r3
                  else
                    match r3 with
                    | String e r4 =>
                        if ((within 240 240 a && within 144 191 b) || (within 241 243 a && continuation b) ||
                            (within 244 244 a && within 128 143 b)) && continuation c && continuation e
                        then utf8 r4 else false
                    | EmptyString => false
                    end
              | EmptyString => false
              end
        | EmptyString => false
        end
  end.
Fixpoint has_control (s : string) : bool :=
  match s with
  | EmptyString => false
  | String a r => (Nat.ltb (byte a) 32 && negb (within 9 10 a) && negb (within 13 13 a)) || has_control r
  end.
Definition payload_looks_binary (s : string) : bool := negb (utf8 s) || has_control s.

(** ** Codes of errors *)
Definition subcode_from_message (msg : string) : option string :=
  let trimmed :=
    default msg
      (match strip_prefix "Validation error: " msg with
       | Some t => Some t
       | None => match strip_prefix "Not found: " msg with
                 | Some t => Some t
                 | None => strip_prefix "Duplicate entry: " msg
                 end
       end) in
  if starts_with "REFRESH_SESSION_INVALID" trimmed then Some "RefreshTokenExpired"%string
  else if starts_with "INVALID_USER_IDENTITY" trimmed then Some "MissingRequiredParam"%string
  else if starts_with "INVALID_PHONE_FORMAT" trimmed then Some "InvalidFormat"%string
  else if starts_with "USER_NOT_FOUND" trimmed then Some "UserNotFound"%string
  else if starts_with "IDENTITY_CONFLICT" trimmed then Some "OperationConflict"%string
  else if starts_with "ATTACHMENT_BINDING_REJECTED" trimmed then Some "OperationConflict"%string
  else None.
Definition protocol_code (e : ServerError) : string :=
  match e with
  | Coded code _ _ => code
  | Internal _ | Configuration _ | PushTokenInvalid _ => "InternalError"
  | Authentication _ => "AuthRequired"
  | Authorization _ | PermissionDenied _ | Forbidden _ => "PermissionDenied"
  | Validation m => default "InvalidParams" (subcode_from_message m)
  | UserNotFound _ => "UserNotFound"
  | ChannelNotFound _ => "ChannelNotFound"
  | MessageNotFound _ => "MessageNotFound"
  | NotInChannel _ | Unsupported _ => "OperationNotAllowed"
  | Database _ => "DatabaseError"
  | Network _ => "NetworkError"
  | Serialization _ => "EncodingError"
  | Cache _ => "CacheError"
  | RateLimit _ => "RateLimitExceeded"
  | ResourceExhausted _ => "ConcurrentLimitExceeded"
  | Timeout _ => "Timeout"
  | InvalidRequest _ | BadRequest _ | InvalidDeviceId | InvalidDeviceType => "InvalidParams"
  | Duplicate _ => "OperationConflict"
  | ServiceUnavailable _ => "ServiceUnavailable"
  | VersionMismatch _ => "VersionError"
  | Unknown _ => "SystemError"
  | InvalidToken => "InvalidToken"
  | TokenExpired => "TokenExpired"
  | TokenRevoked => "TokenRevoked"
  | Unauthorized m => default "AuthRequired" (subcode_from_message m)
  | Protocol _ => "ProtocolError"
  | NotFound m => default "ResourceNotFound" (subcode_from_message m)
  | DuplicateEntry m => default "OperationConflict" (subcode_from_message m)
  | ChannelResyncRequired _ => "SyncChannelResyncRequired"
  | EntityResyncRequired _ => "SyncEntityResyncRequired"
  | FullRebuildRequired _ => "SyncFullRebuildRequired"
  end%string.
(** [StatusCode::from_u16] takes 100 to 999. *)
Definition http_status (e : ServerError) : Z :=
  match e with
  | Coded _ status _ => if (100 <=? status) && (status <=? 999) then status else 400
  | Authentication _ | InvalidToken | TokenExpired | TokenRevoked | Unauthorized _ => 401
  | Authorization _ | PermissionDenied _ | Forbidden _ | NotInChannel _ | Unsupported _ => 403
  | Validation _ | InvalidRequest _ | BadRequest _ | InvalidDeviceId | InvalidDeviceType | VersionMismatch _ => 400
  | UserNotFound _ | ChannelNotFound _ | MessageNotFound _ | NotFound _ => 404
  | Duplicate _ | DuplicateEntry _ | ChannelResyncRequired _ | EntityResyncRequired _ | FullRebuildRequired _ => 409
  | RateLimit _ | ResourceExhausted _ => 429
  | ServiceUnavailable _ => 503
  | Timeout _ => 504
  | _ => 500
  end.

(** ** Payloads *)
Inductive ContentKind :=
| KText | KSystem | KRedPacket | KMoneyTransfer | KImage | KVideo | KVoice | KFile | KLocation | KContactCard | KSticker | KForward | KLink.
#[export] Instance content_kind_eq_dec : EqDecision ContentKind.
Proof. solve_decision. Defined.

(** [LocalMessagePayloadEnvelope]. *)
Record LocalEnvelope (J : Type) := mkLocal {
  le_content : string; le_metadata : option J; le_reply_to : option string; le_mentioned : option (list Z);
  le_source : option (string * string)
}.
Arguments mkLocal {J}. Arguments le_content {J}. Arguments le_metadata {J}. Arguments le_reply_to {J}. Arguments le_mentioned {J}. Arguments le_source {J}.

Class PayloadCodec `{SubmitCodec} := {
  ct_kind : ContentMessageType -> ContentKind;
  decode_payload : string -> option MessagePayload;
  payload_mentioned : MessagePayload -> list Z;
  payload_source : MessagePayload -> option (string * string);
  payload_with_content : MessagePayload -> string -> MessagePayload;
  payload_make : string -> option MessageMetadata -> option Z -> list Z -> MessagePayload;
  metadata_from_json_value : ContentMessageType -> Json -> option MessageMetadata;
  role_original : Z;
  json_parse : string -> result Json string;
  json_to_string : Json -> option string;
  json_display : Json -> string;
  json_is_object : Json -> bool;
  json_get : Json -> string -> option Json;
  json_as_str : Json -> option string;
  json_as_u64 : Json -> option Z;
  json_is_f64 : Json -> bool;
  local_envelope : Json -> option (LocalEnvelope Json)
}.

Section Payloads.
Context `{P : ProtocolCrate, Sc : !SubmitCodec, Pl : !PayloadCodec}.

Definition source_of (s : string * string) : option Friends.FriendRequestSource :=
  let '(ty, i) := s in
  if decide (ty = "search"%string) then Friends.SrcSearch <$> parse_u64 i
  else if decide (ty = "group"%string) then Friends.SrcGroup <$> parse_u64 i
  else if decide (ty = "card_share"%string) then Friends.SrcCardShare <$> parse_u64 i
  else if decide (ty = "qrcode"%string) then Some (Friends.SrcQrcode i)
  else if decide (ty = "phone"%string) then Some (Friends.SrcPhone i)
  else None.

Record ParsedPayload := mkParsed {
  pp_content : string; pp_metadata : option string; pp_reply_to : option string; pp_mentioned : list Z;
  pp_source : option Friends.FriendRequestSource
}.
Definition parse_legacy_json_payload (text : string) : option ParsedPayload :=
  match json_parse (trim text) with
  | Err _ => None
  | Ok value =>
      if negb (json_is_object value) then None
      else
        _ ← json_get value "content" ≫= json_as_str;
        if negb (existsb (fun k => bool_decide (is_Some (json_get value k)))
                   ["metadata"; "reply_to_message_id"; "mentioned_user_ids"; "message_source"]%string)
        then None
        else
          e ← local_envelope value;
          Some (mkParsed (without_nul (le_content e)) (le_metadata e ≫= json_to_string) (le_reply_to e) (default [] (le_mentioned e))
                  (le_source e ≫= source_of))
  end.
Definition parse_payload (payload : string) : result ParsedPayload ServerError :=
  match decode_payload payload with
  | Some p =>
      Ok (mkParsed (without_nul (payload_content p))
            ((fun m => default "{}"%string (json_to_string (to_inner_json_value m))) <$> payload_metadata p)
            (u64_to_string <$> payload_reply_to p) (payload_mentioned p) (payload_source p ≫= source_of))
  | None =>
      if payload_looks_binary payload then Err (Validation "消息负载既非合法 FlatBuffers envelope 也非文本")
      else
        let text := without_nul payload in
        Ok (default (mkParsed text None None [] None) (parse_legacy_json_payload text))
  end.

(** ** References to media *)
Definition as_i32 (z : Z) : Z := let w := z mod 2 ^ 32 in if w <? 2 ^ 31 then w else w - 2 ^ 32.
Inductive LegacyAudit := MetadataUndecodable (content_type : Z) | NoRefsForMediaType (content_type : Z) | MissingOriginal (content_type : Z).
Record LegacyParseReport := mkReport { lp_refs : list MediaRef; lp_audits : list LegacyAudit }.
Definition into_strict (r : LegacyParseReport) : result (list MediaRef) LegacyAudit :=
  match lp_audits r with a :: _ => Err a | [] => Ok (lp_refs r) end.
Definition unique_file_ids (r : LegacyParseReport) : list Z := unique_file_ids_of (lp_refs r).
Definition requires_original (k : ContentKind) : bool :=
  match k with KImage | KVideo | KVoice | KFile => true | _ => false end.
Definition parse_by_kind (ty : ContentMessageType) (code : Z) (metadata : Json) : LegacyParseReport :=
  match metadata_from_json_value ty metadata with
  | None => mkReport [] (if requires_original (ct_kind ty) then [MetadataUndecodable code] else [])
  | Some typed =>
      let refs := attachment_refs typed in
      mkReport refs
        (if requires_original (ct_kind ty) then
           match refs with
           | [] => [NoRefsForMediaType code]
           | _ => if existsb (fun r => mr_role r =? role_original) refs then [] else [MissingOriginal code]
           end
         else [])
  end.
Definition parse_legacy_media_refs (ty : ContentMessageType) (metadata : Json) : LegacyParseReport :=
  parse_by_kind ty (as_i32 (ct_as_u32 ty)) metadata.
Definition parse_legacy_media_refs_by_code (code : Z) (metadata : Json) : LegacyParseReport :=
  match (if code <? 0 then None else ct_from_u32 code) with
  | None => mkReport [] []
  | Some ty => parse_by_kind ty code metadata
  end.

(** ** Checks of the metadata *)
Definition u64_field (m : Json) (k : string) : option Z :=
  json_get m k ≫= fun v => match json_as_u64 v with Some z => Some z | None => json_as_str v ≫= parse_u64 end.
Definition str_field (m : Json) (k : string) : option string := json_get m k ≫= json_as_str.
Definition validate_location_metadata (m : Json) : result unit ServerError :=
  if negb (default false (json_is_f64 <$> json_get m "latitude")) then Err (Validation "location 消息缺少有效的 latitude")
  else if negb (default false (json_is_f64 <$> json_get m "longitude")) then Err (Validation "location 消息缺少有效的 longitude")
  else Ok tt.
Definition validate_contact_card_metadata (m : Json) : result unit ServerError :=
  let? _ := ok_or (u64_field m "user_id") (Validation "contact_card 消息缺少 metadata.user_id (must be u64)") in Ok tt.
Definition validate_sticker_metadata (m : Json) : result unit ServerError :=
  let? _ := ok_or (str_field m "sticker_id") (Validation "sticker 消息缺少 metadata.sticker_id") in
  let? _ := ok_or (str_field m "image_url") (Validation "sticker 消息缺少 metadata.image_url") in Ok tt.
Definition validate_link_metadata (m : Json) : result unit ServerError :=
  let? url := ok_or (str_field m "url") (Validation "link 消息缺少 metadata.url") in
  if trim_is_empty url then Err (Validation "link 消息的 metadata.url 不能为空") else Ok tt.
Definition has_thumbnail (m : Json) : bool :=
  match u64_field m "thumbnail_file_id" with Some z => 0 <? z | None => false end ||
  match str_field m "thumbnail_url" with Some s => negb (bool_decide (s = EmptyString)) | None => false end.
End Payloads.
