(* ===== verification/Send.v ===== *)
(** * Sending a message

    Models [SendMessageHandler::handle] of src/src/handler/send_message_handler.rs: who
    the sender is, the retry check, finding or restoring the channel, the send decision,
    the checks of the payload, the transaction and all that follows it; with
    [create_channel_with_id] and [update_last_message] of channel_service.rs and
    [cache_committed_commit] of sync_service.rs, which only this handler calls.

    The retry check, the checks of the channel and of the payload, and the transaction
    run at three moments: [checked], [seen] and [d] are the timeline's tables then, and
    the tables of [GroupDb] are those of the second. [calls n] are the
    faults of the [n]-th call of the channel service. What is sent and not awaited is
    returned as a list of [send_effect]. *)

From stdpp Require Import base numbers gmap list strings.
From S2P Require Import Prelude Pts Channel SendAuth Timeline Sync Recall Submit Group GroupService Token Login History Payload.
Local Open Scope Z_scope.

(** ** The channel service, continued *)
Section ChannelOps.
Context `{Pj : PermissionColumn, Pg : Postgres, Ch : Chrono}.
Context (config : ChannelServiceConfig).

(** INSERT ... ON CONFLICT (group_id) DO NOTHING: whether a row was inserted. *)
Definition insert_group_once (gid : Z) (row : GroupRow) (d : GroupDb) : result (bool * GroupDb) string :=
  if bool_decide (is_Some (d_groups d !! gid)) then Ok (false, d)
  else let? d' := insert_group gid row d in Ok (true, d').
(** The transaction of [create_channel_with_id]; the error is the text of the response. *)
Definition create_with_id_tx (f : Io) (now_ms cid creator : Z) (nm desc : option string) (qr : string) (extra : list Z) (d : GroupDb)
    : result GroupDb string :=
  match f 0%nat with
  | Some e => Err ("创建群组失败: " +:+ e)
  | None =>
      match f 1%nat, insert_group_once (as_i64 cid) (new_group_row (default "未命名群组"%string nm) desc (as_i64 creator) now_ms qr) d with
      | Some _, _ | None, Err _ => Err ("无法创建群组记录：用户 " +:+ u64_to_string creator +:+ " 可能不存在于数据库中")
      | None, Ok (false, _) => Err ("群组 " +:+ u64_to_string cid +:+ " 已存在")
      | None, Ok (true, d1) =>
          match upsert_group_members_in_tx f 2 cid creator extra now_ms d1 with
          | Err e => Err ("群成员落库失败: " +:+ server_error_display e)
          | Ok d2 => Ok d2
          end
      end
  end.
(** [f] are the faults of the transaction, [g] of COMMIT and of the channel row, [h] of
    the participants, [k] of the rows of the users. *)
Definition create_channel_with_id (f g h k : Io) (now sync cid creator : Z) (qr : string) (r : CreateChannelRequest) (s : State)
    : result (result Channel string) ServerError * State :=
  let v := st_sv s in
  let d := st_db s in
  match cs_channels v !! cid with
  | Some c =>
      let missing := match find_by_id g 0 now sync d cid with Ok (Some _) => false | _ => true end in
      let d' :=
        if missing then
          match create g 1 now sync 0 d c with
          | (Err _, d1) => d1
          | (Ok _, d1) => add_participants h 0 now cid (map_to_list (members c)) d1
          end
        else d in
      (Ok (Ok c), mkState d' v)
  | None =>
      match validate_create_request config v creator r with
      | Err e => (Ok (Err e), s)
      | Ok _ =>
          match cr_type r with
          | Direct => (Ok (Err "Direct channels must be created via get_or_create_direct_channel"%string), s)
          | Room => (Ok (Err "Room channels are created via Admin API"%string), s)
          | Group =>
              match create_with_id_tx f (timestamp_millis now) cid creator (cr_name r) (cr_description r) qr (cr_member_ids r) d with
              | Err e => (Ok (Err e), s)
              | Ok d1 =>
                  match g 0%nat with
                  | Some e => (Ok (Err ("提交群组事务失败: " +:+ e)), mkState (if io_applied g 0 then d1 else d) v)
                  | None =>
                      let c := new_group_channel config now cid creator r in
                      let d3 := match create g 1 now sync 0 d1 c with
                                | (Err _, d2) => d2
                                | (Ok _, d2) => add_participants h 0 now cid (map_to_list (members c)) d2
                                end in
                      let v1 := cache_channel v cid c in
                      let ids := (map_to_list (members c)).*1 in
                      match ensure_user_channel_rows k 0 cid ids d3 with
                      | (Err e, d4) => (Err e, mkState d4 v1)
                      | (Ok _, d4) =>
                          (Ok (Ok c), mkState d4 (set_user_index v1
                             (foldl (fun m u => <[u := default [] (m !! u) ++ [cid]]> m) (cs_user_channels v1) ids)))
                      end
                  end
              end
          end
      end
  end.

(** [update_last_message] of the service. *)
Definition set_last_message (f : Io) (now sync cid mid : Z) (s : State) : result bool ServerError * State :=
  let '(updated, s1) :=
    match cs_channels (st_sv s) !! cid with
    | Some c => let c' := update_last_message now c mid in (Some c', mkState (st_db s) (cache_channel (st_sv s) cid c'))
    | None =>
        match get_channel_opt f 0 now sync cid s with
        | (Some c, s1) => let c' := update_last_message now c mid in (Some c', mkState (st_db s1) (cache_channel (st_sv s1) cid c'))
        | (None, s1) => (None, s1)
        end
    end in
  match updated with
  | None => (Ok false, s1)
  | Some c =>
      let '(r, d') := update_channel f 5 (st_db s1) c in
      (match r with Ok _ => Ok true | Err e => Err (Database ("更新会话最后消息失败: " +:+ server_error_display e)) end,
       mkState d' (st_sv s1))
  end.
End ChannelOps.

(** ** The request *)
Record SendMessageRequest := mkSendRequest {
  rq_client_seq : Z; rq_local_message_id : Z; rq_from_uid : Z; rq_channel_id : Z; rq_message_type : Z; rq_payload : string
}.
(** [rs_reason] is [None] for the code 0 of success. *)
Record SendMessageResponse := mkSendResponse {
  rs_client_seq : Z; rs_server_message_id : Z; rs_message_seq : Z; rs_reason : option string
}.
Class SendWire := {
  decode_send : string -> result SendMessageRequest string;
  encode_response : SendMessageResponse -> result string string
}.

(** Why the handler stops: a reply with an error code, or an error of its own. *)
Inductive SendStop := Refused (code text : string) | Failed (e : ServerError).

Definition client_dedup_key (sender_id : Z) (device_id : string) (local_message_id : Z) : string :=
  "client:" +:+ u64_to_string sender_id +:+ ":" +:+ device_id +:+ ":" +:+ u64_to_string local_message_id.
Definition resolve_authenticated_sender (session : option (string * string)) (payload_from_uid : Z) : result (Z * string) string :=
  let? s := ok_or session "AuthRequired"%string in
  let? uid := ok_or (parse_u64 s.1) "AuthRequired"%string in
  if decide (s.2 = EmptyString) then Err "AuthRequired"%string
  else if negb (payload_from_uid =? 0) && negb (payload_from_uid =? uid) then Err "PermissionDenied"%string
  else Ok (uid, s.2).
Definition session_identity (sessions : gmap Z SessionInfo) (sid : Z) : option (string * string) :=
  (fun i => (si_user_id i, si_device_id i)) <$> sessions !! sid.

(** ** Finding the channel *)
Section Resolve.
Context `{Pj : PermissionColumn, Pg : Postgres, Ch : Chrono}.
Context (calls : nat -> Io) (now sync : Z).

Notation stop A := (result A SendStop * State)%type.
Definition get (n : nat) (cid : Z) (s : State) : result Channel ServerError * State := get_channel (calls n) 0 now sync cid s.
Definition no_access : SendStop := Refused "PermissionDenied" "无权限访问此频道".
Definition is_direct_user (c : Channel) (uid : Z) : bool :=
  default false ((fun u => u =? uid) <$> direct_user1_id c) || default false ((fun u => u =? uid) <$> direct_user2_id c).
Definition participants (n : nat) (cid : Z) (s : State) : result (list ChannelParticipant) ServerError :=
  get_participants (calls n) 0 now (st_db s) cid.
Definition participant_in (n : nat) (cid uid : Z) (s : State) : bool :=
  match participants n cid s with Ok ps => existsb (fun p => p_user_id p =? uid) ps | Err _ => false end.
Definition participant_role (n : nat) (cid uid : Z) (s : State) : MemberRole :=
  match participants n cid s with
  | Ok ps => default Member (p_role <$> head (filter (fun p => p_user_id p = uid) ps))
  | Err _ => Member
  end.

(** Joining, and reading the channel again. *)
Definition join_and_reload (n : nat) (cid uid : Z) (r : MemberRole) (s : State) : stop Channel :=
  match join_channel (calls n) now cid uid (Some r) s with
  | (Err _, s1) => (Err (Refused "PermissionDenied" "无法加入频道"), s1)
  | (Ok _, s1) =>
      match get (S n) cid s1 with
      | (Err e, s2) => (Err (Failed (Internal ("获取频道失败: " +:+ server_error_display e))), s2)
      | (Ok c, s2) => (Ok c, s2)
      end
  end.

(** A channel that is loaded, without the sender among its members. *)
Definition admit_sender (cid uid : Z) (c : Channel) (s : State) : stop Channel :=
  match get 1 cid s with
  | (Err _, s1) => (Err (Refused "ChannelNotFound" "会话不存在"), s1)
  | (Ok dbc, s1) =>
      let takes_part :=
        match channel_type c with
        | Direct => is_direct_user dbc uid
        | Group => bool_decide (members c = ∅) && participant_in 2 cid uid s1
        | Room => false
        end in
      if takes_part then
        let r := match channel_type dbc with
                 | Group => if decide (members c = ∅) then participant_role 3 cid uid s1 else Member
                 | _ => Member
                 end in
        join_and_reload 4 cid uid r s1
      else (Err no_access, s1)
  end.

(** The members of a group that is restored: [add_member_to_group], then the role. *)
Fixpoint restore_members (n : nat) (cid owner : Z) (ps : list ChannelParticipant) (s : State) : State :=
  match ps with
  | [] => s
  | p :: rest =>
      let s1 :=
        if p_user_id p =? owner then s
        else match add_member_to_group (calls n) now cid (p_user_id p) s with
             | (Err _, s1) => s1
             | (Ok _, s1) => (set_member_role now cid (p_user_id p) (p_role p) s1).2
             end in
      restore_members (S n) cid owner rest s1
  end.
Definition restore_group (cid uid claimed : Z) (c : Channel) (s : State) : stop Channel :=
  match participants 2 cid s with
  | Err _ => (Err (Refused "InternalError" "无法查询群聊参与者"), s)
  | Ok [] => (Err (Refused "ChannelNotFound" "群聊没有参与者"), s)
  | Ok ((first :: _) as ps) =>
      let nm := default ("群聊 " +:+ u64_to_string cid) (name (metadata c)) in
      let owner := default (p_user_id first) (p_user_id <$> head (filter (fun p => p_role p = Owner) ps)) in
      let s1 := create_group_chat_with_id (calls 3) 0 now sync owner nm cid s in
      let s2 := restore_members 100 cid owner ps s1 in
      match get 4 cid s2 with
      | (Err e, s3) => (Err (Failed (Internal ("获取恢复的频道失败: " +:+ server_error_display e))), s3)
      | (Ok c', s3) =>
          if bool_decide (is_Some (members c' !! uid)) then (Ok c', s3)
          else
            match head (filter (fun p => p_user_id p = claimed) ps) with
            | None => (Err no_access, s3)
            | Some p => join_and_reload 5 cid claimed (p_role p) s3
            end
      end
  end.
(** A channel that was not found at first: a second look, and a restoration. *)
Definition restore_channel (cid uid claimed : Z) (s : State) : stop Channel :=
  match get 1 cid s with
  | (Err _, s1) => (Err (Refused "ChannelNotFound" "频道不存在"), s1)
  | (Ok c, s1) =>
      match channel_type c with
      | Direct =>
          match direct_user1_id c, direct_user2_id c with
          | Some u1, Some u2 =>
              if negb (uid =? u1) && negb (uid =? u2) then (Err no_access, s1)
              else
                let s2 := create_private_chat_with_id (calls 2) 0 now sync u1 u2 cid s1 in
                match get 3 cid s2 with
                | (Err e, s3) => (Err (Failed (Internal ("获取频道失败: " +:+ server_error_display e))), s3)
                | (Ok c', s3) => (if bool_decide (is_Some (members c' !! uid)) then Ok c' else Err no_access, s3)
                end
          | _, _ => (Err (Refused "ChannelNotFound" "会话缺少用户ID"), s1)
          end
      | Group => restore_group cid uid claimed c s1
      | Room => (Err (Refused "OperationNotAllowed" "Room channels do not accept SendMessage"), s1)
      end
  end.
Definition find_channel (cid uid claimed : Z) (s : State) : stop Channel :=
  match get 0 cid s with
  | (Ok c, s1) => if bool_decide (is_Some (members c !! uid)) then (Ok c, s1) else admit_sender cid uid c s1
  | (Err _, s1) => restore_channel cid uid claimed s1
  end.
(** Once more, for a sender that is still not a member. *)
Definition ensure_member (cid uid claimed : Z) (c : Channel) (s : State) : stop Channel :=
  if bool_decide (is_Some (members c !! uid)) then (Ok c, s)
  else
    match get 7 cid s with
    | (Err _, s1) => (Err no_access, s1)
    | (Ok dbc, s1) =>
        let takes_part :=
          match channel_type dbc with
          | Group => participant_in 8 cid claimed s1
          | Direct => is_direct_user dbc uid
          | Room => false
          end in
        if takes_part then
          let r := match channel_type dbc with Group => participant_role 9 cid uid s1 | _ => Member end in
          join_and_reload 20 cid uid r s1
        else (Err no_access, s1)
    end.
Definition resolve_channel (cid uid claimed : Z) (s : State) : stop Channel :=
  match find_channel cid uid claimed s with
  | (Err e, s1) => (Err e, s1)
  | (Ok c, s1) => ensure_member cid uid claimed c s1
  end.
End Resolve.

(** [content.chars().take(n)] on UTF-8. *)
Fixpoint take_chars (n : nat) (s : string) : string :=
  match s with
  | EmptyString => EmptyString
  | String a r =>
      if continuation a then String a (take_chars n r)
      else match n with O => EmptyString | S k => String a (take_chars k r) end
  end.

(** ** The handler *)
Section Handler.
Context `{P : ProtocolCrate, Ch : Chrono, Pg : Postgres, Co : !EventCodec, Sc : !SubmitCodec, Pl : !PayloadCodec, CT : !CommitText,
          Pj : PermissionColumn, deps : SendAuthorizationDeps}.
Context (config : ChannelServiceConfig) (calls : nat -> Io) (now sync : Z).

(** [validate_message_metadata]; [file] are the faults of the lookups of a file. The
    member check loads the channel of the message a file is bound to. *)
Definition get_file_metadata (file : faults) (d : TimelineDb) (file_id : Z) : result (option (Z * option string)) ServerError :=
  match file 0%nat with
  | Some e => Err (Database ("获取查询连接失败: " +:+ e))
  | None => exec? file 1%nat else "查询上传记录失败: " in
            Ok ((fun r => (as_u64 (f_uploader_id r), f_business_id r)) <$> t_files d !! as_i64 file_id)
  end.
Definition channel_of_message (file : faults) (d : TimelineDb) (mid : Z) : result (option Z) ServerError :=
  exec? file 2%nat else "查询消息 channel_id 失败: " in
  Ok ((fun r => as_u64 (r_channel_id r)) <$> head (filter (fun r => r_message_id r = as_i64 mid) (t_messages d))).
Definition validate_file_metadata (file : faults) (m : Json) (type_name : string) (sender : Z) (d : TimelineDb) (s : State)
    : result unit ServerError * State :=
  match u64_field m "file_id" with
  | None => (Err (Validation (type_name +:+ " 消息缺少或无效的 metadata.file_id")), s)
  | Some fid =>
      match get_file_metadata file d fid with
      | Err e => (Err (Internal (server_error_display e)), s)
      | Ok None => (Err (NotFound ("文件 " +:+ u64_to_string fid +:+ " 不存在")), s)
      | Ok (Some (uploader, business)) =>
          if uploader =? sender then (Ok tt, s)
          else
            let refused := Err (Authorization ("文件 " +:+ u64_to_string fid +:+ " 不属于发送者 " +:+ u64_to_string sender)) in
            match business ≫= parse_u64 with
            | Some mid =>
                if 0 <? mid then
                  match channel_of_message file d mid with
                  | Ok (Some cid) =>
                      let '(r, s1) := is_channel_member (calls 30) now sync cid sender s in
                      (match r with Ok true => Ok tt | _ => refused end, s1)
                  | _ => (refused, s)
                  end
                else (refused, s)
            | None => (refused, s)
            end
      end
  end.
Definition validate_message_metadata (file : faults) (ty : ContentMessageType) (metadata : option string) (sender : Z) (d : TimelineDb) (s : State)
    : result unit ServerError * State :=
  match metadata with
  | None => (match ct_kind ty with KText | KSystem => Ok tt | _ => Err (Validation ("消息类型 " +:+ ct_as_str ty +:+ " 需要 metadata")) end, s)
  | Some text =>
      match json_parse text with
      | Err e => (Err (Validation ("metadata 不是有效的 JSON: " +:+ e)), s)
      | Ok m =>
          match ct_kind ty with
          | KText | KSystem | KRedPacket | KMoneyTransfer => (Ok tt, s)
          | KImage =>
              match validate_file_metadata file m "image" sender d s with
              | (Err e, s1) => (Err e, s1)
              | (Ok _, s1) => (if has_thumbnail m then Ok tt
                               else Err (Validation "image 消息缺少缩略图引用(metadata.thumbnail_file_id 或 thumbnail_url)"), s1)
              end
          | KVideo => validate_file_metadata file m "video" sender d s
          | KVoice => validate_file_metadata file m "voice" sender d s
          | KFile => validate_file_metadata file m "file" sender d s
          | KLocation => (validate_location_metadata m, s)
          | KContactCard => (validate_contact_card_metadata m, s)
          | KSticker => (validate_sticker_metadata m, s)
          | KForward => (Err (Validation "forward 消息类型已废弃，请使用普通消息类型"), s)
          | KLink => (validate_link_metadata m, s)
          end
      end
  end.

(** [ensure_channel_and_members], and the loop that repeats it up to three times while
    the channel cannot be read. [qr] is the key a new group would get. *)
Definition ensure_channel_and_members (n : nat) (qr : string) (cid : Z) (c : Channel) (s : State) : State :=
  match (map_to_list (members c)).*1 with
  | [] => s
  | creator :: others =>
      match get calls now sync n cid s with
      | (Ok _, s1) => s1
      | (Err _, s1) =>
          let ty := match channel_type c with Direct => Direct | _ => Group end in
          (create_channel_with_id config (calls (n + 1)) (calls (n + 2)) (calls (n + 3)) (calls (n + 4)) now sync cid creator qr
             (mkCreate ty None None others (Some false) None) s1).2
      end
  end.
Fixpoint await_channel (retries n : nat) (qr : string) (cid : Z) (c : Channel) (s : State) : State :=
  match retries with
  | O => (get calls now sync n cid s).2
  | S r =>
      match get calls now sync n cid s with
      | (Ok _, s1) => s1
      | (Err _, s1) => await_channel r (n + 10) qr cid c (ensure_channel_and_members (n + 1) qr cid c s1)
      end
  end.
Definition secure_channel (qr : string) (cid : Z) (c : Channel) (s : State) : bool * State :=
  let s1 := await_channel 3 50 qr cid c (ensure_channel_and_members 40 qr cid c s) in
  let '(r, s2) := get calls now sync 90 cid s1 in (is_ok r, s2).

(** Checks before the transaction, in order. *)
Record Checked := mkChecked { ck_channel : Channel; ck_type : ContentMessageType; ck_payload : ParsedPayload; ck_reply_to : option Z }.
Definition check_content (file : faults) (req : SendMessageRequest) (sender : Z) (c : Channel) (d : TimelineDb) (s : State)
    : result Checked SendStop * State :=
  match ct_from_u32 (rq_message_type req) with
  | None => (Err (Failed (Validation "无效的 message_type")), s)
  | Some ty =>
      match parse_payload (rq_payload req) with
      | Err _ => (Err (Refused "MessageContentInvalid" "无法解析的消息负载"), s)
      | Ok p =>
          if match pp_reply_to p with Some r => bool_decide (parse_u64 r = None) | None => false end
          then (Err (Refused "InvalidParams" "无效的引用消息ID格式"), s)
          else
            match validate_message_metadata file ty (pp_metadata p) sender d s with
            | (Err e, s1) => (Err (Refused "MessageContentInvalid" ("消息验证失败: " +:+ server_error_display e)), s1)
            | (Ok _, s1) => (Ok (mkChecked c ty p (pp_reply_to p ≫= parse_u64)), s1)
            end
      end
  end.
Definition check_send (file : faults) (qr : string) (req : SendMessageRequest) (sender : Z) (d : TimelineDb) (s : State)
    : result Checked SendStop * State :=
  match resolve_channel calls now sync (rq_channel_id req) sender (rq_from_uid req) s with
  | (Err e, s1) => (Err e, s1)
  | (Ok c, s1) =>
      match authorize_send_to_channel now c sender with
      | Err refusal => (Err (Refused (refusal_error_code refusal) (refusal_message refusal)), s1)
      | Ok _ =>
          match check_content file req sender c d s1 with
          | (Err e, s2) => (Err e, s2)
          | (Ok ck, s2) =>
              let '(exists_, s3) := secure_channel qr (id c) c s2 in
              (if exists_ then Ok ck else Err (Refused "ChannelNotFound" "会话不存在"), s3)
          end
      end
  end.

(** The message, the request of the transaction, the record of the history. *)
Definition metadata_value (p : ParsedPayload) : Json :=
  match pp_metadata p with
  | Some t => match json_parse t with Ok j => j | Err _ => json_object end
  | None => json_object
  end.
Definition new_message (retention_days mid sender : Z) (req : SendMessageRequest) (ck : Checked) : Message :=
  mkMsg _ mid (id (ck_channel ck)) sender None (Some (rq_local_message_id req)) (pp_content (ck_payload ck)) (ck_type ck)
    (metadata_value (ck_payload ck)) (ck_reply_to ck) now now false None false None None (Some (now + nanos_of_days retention_days)).
Definition canonical_payload (req : SendMessageRequest) (ck : Checked) : MessagePayload :=
  let p := ck_payload ck in
  payload_with_content
    (default (payload_make (pp_content p) (metadata_from_json_value (ck_type ck) (metadata_value p)) (ck_reply_to ck) (pp_mentioned p))
       (decode_payload (rq_payload req)))
    (pp_content p).
Definition send_request (retention_days mid sender : Z) (key : option string) (req : SendMessageRequest) (ck : Checked)
    : AtomicMessageCommitRequest :=
  mkCommitRequest _ (new_message retention_days mid sender req ck) key None
    (lp_refs (parse_legacy_media_refs (ck_type ck) (metadata_value (ck_payload ck))))
    (channel_type_to_wire_u8 (channel_type (ck_channel ck))) (NewMessage (ck_type ck) (canonical_payload req ck)) None.
Definition message_to_history_record (m : Message) : MessageHistory.MessageHistoryRecord :=
  MessageHistory.mkHistory (m_message_id m) (m_channel_id m) (m_sender_id m) (m_content m) (ct_as_u32 (m_message_type m))
    (as_u64 (Z.max 0 (default 0 (m_pts m)))) (m_created_at m) (m_updated_at m) (m_deleted m) (m_deleted_at m) (m_revoked m)
    (m_revoked_at m) (m_revoked_by m) (m_reply_to m) (Some (json_display (m_metadata m))).
Definition success_response (req : SendMessageRequest) (mid pts : Z) : SendMessageResponse :=
  mkSendResponse (rq_client_seq req) mid (as_u32 pts) None.
Definition error_response (req : SendMessageRequest) (code : string) : SendMessageResponse :=
  mkSendResponse (rq_client_seq req) 0 0 (Some code).
(** A stop as the reply of the handler. *)
Definition stopped (req : SendMessageRequest) (e : SendStop) : result SendMessageResponse ServerError :=
  match e with Refused code _ => Ok (error_response req code) | Failed e => Err e end.

(** [cache_committed_commit]: the counter, then the two caches. *)
Definition cache_committed_commit (io : faults) (c : ServerCommit) (g : PtsGenerator.PtsGenerator) (k : SyncCache)
    : result unit ServerError * PtsGenerator.PtsGenerator * SyncCache :=
  let g' := PtsGenerator.set_pts g (sc_channel_id c) (sc_pts c) in
  match cache_pts io 3 k (sc_channel_id c) (sc_pts c) with
  | Err e => (Err e, g', k)
  | Ok k1 => let '(r, k2) := cache_commit io k1 c in (r, g', k2)
  end.

(** What else the handler keeps, and what it starts. *)
Record SendMemory := mkMemory {
  sm_history : MessageHistory.MessageHistoryService; sm_mentions : Mentions.MentionService;
  sm_pts : PtsGenerator.PtsGenerator; sm_cache : SyncCache
}.
Inductive send_effect :=
| SystemUserEvent (peer sender channel message pts : Z)
| PublishCommitted (message channel sender recipient : Z) (preview : string) (channel_type : Z)
| QueueUnread (channel sender count : Z)
| Dispatch (event_id : Z).

Definition mention_all (content : string) : bool :=
  contains "@全体成员" content || contains "@all" content || contains "@everyone" content.
(** The mentions of a message: [Err] when the sender may not mention everybody. *)
Definition record_mentions (mid sender : Z) (req : SendMessageRequest) (ck : Checked) (s : Mentions.MentionService)
    : result Mentions.MentionService unit :=
  let c := ck_channel ck in
  let p := ck_payload ck in
  if mention_all (pp_content p) && bool_decide (channel_type c = Group) then
    match members c !! sender with
    | None => Ok s
    | Some m =>
        match role m with
        | Owner | Admin => Ok (Mentions.record_mention now mid (rq_channel_id req) (get_member_ids c) true s)
        | Member => Err tt
        end
    end
  else
    match filter (fun u => is_Some (members c !! u)) (pp_mentioned p) with
    | [] => Ok s
    | valid => Ok (Mentions.record_mention now mid (rq_channel_id req) valid false s)
    end.
Definition recipients (c : Channel) (sender : Z) : list Z := filter (fun u => u <> sender) (get_member_ids c).

(** What the server has set up, and the lookup of a user's type. *)
Record SendEnv := mkSendEnv {
  sync_ready : bool; bus_ready : bool; events_ready : bool; user_type : Z -> result (option Z) string
}.
Definition system_user_event (env : SendEnv) (sender mid pts : Z) (c : Channel) : list send_effect :=
  if decide (channel_type c = Direct) then
    match events_ready env, head (recipients c sender) with
    | true, Some peer =>
        match user_type env sender, user_type env peer with
        | Ok st, Ok pt => if bool_decide (st <> Some 1 /\ pt = Some 1) then [SystemUserEvent peer sender (id c) mid pts] else []
        | _, _ => []
        end
    | _, _ => []
    end
  else [].
Definition committed_events (env : SendEnv) (sender mid : Z) (ck : Checked) : list send_effect :=
  let c := ck_channel ck in
  if bus_ready env then
    (fun u => PublishCommitted mid (id c) sender u (take_chars 50 (pp_content (ck_payload ck)))
                (if decide (channel_type c = Direct) then 1 else 2)) <$> recipients c sender
  else [].

(** After the transaction has inserted the message. *)
Definition sent_commit (sender : Z) (req : SendMessageRequest) (ck : Checked) (content : Json) (r : AtomicMessageCommitResult) : ServerCommit :=
  let m := res_message r in
  mkServerCommit _ (res_event_id r) (as_u64 (Z.max 0 (default 0 (m_pts m)))) (m_message_id m) (Some (rq_local_message_id req)) (id (ck_channel ck))
    (channel_type_to_wire_u8 (channel_type (ck_channel ck))) (ct_as_str (ck_type ck)) content (timestamp_millis (m_created_at m)) sender None
    (res_schema_version r) (res_canonical_event r).
Definition finish_send (env : SendEnv) (io : faults) (sender : Z) (req : SendMessageRequest) (ck : Checked) (content : Json)
    (r : AtomicMessageCommitResult) (s : State) (mem : SendMemory) : SendMessageResponse * State * SendMemory * list send_effect :=
  let m := res_message r in
  let pts := as_u64 (Z.max 0 (default 0 (m_pts m))) in
  let c := ck_channel ck in
  let history := (MessageHistory.store_messages_batch [message_to_history_record m] (sm_history mem)).2 in
  let commit := sent_commit sender req ck content r in
  let '(g, k) :=
    if sync_ready env then let '(_, g, k) := cache_committed_commit io commit (sm_pts mem) (sm_cache mem) in (g, k)
    else (PtsGenerator.set_pts (sm_pts mem) (id c) pts, sm_cache mem) in
  let started := system_user_event env sender (m_message_id m) pts c ++ committed_events env sender (m_message_id m) ck in
  match record_mentions (m_message_id m) sender req ck (sm_mentions mem) with
  | Err _ => (error_response req "PermissionDenied", s, mkMemory history (sm_mentions mem) g k, started)
  | Ok mentions =>
      let s' := (set_last_message (calls 91) now sync (id c) (m_message_id m) s).2 in
      (success_response req (m_message_id m) pts, s', mkMemory history mentions g k,
       started ++ (if sync_ready env then [QueueUnread (id c) sender 1] else []) ++
       match res_event_id r with Some e => [Dispatch e] | None => [] end)
  end.

(** The handler. [dup], [file], [db] and [io] are the faults of the retry check, of the
    lookups of a file, of the transaction and of the caches. *)
Definition handle_send (env : SendEnv) (dup file db io : faults) (event_id mid ret : Z) (qr : string) (session : option (string * string))
    (req : SendMessageRequest) (checked seen d : TimelineDb) (s : State) (mem : SendMemory)
    : result SendMessageResponse ServerError * TimelineDb * State * SendMemory * list send_effect :=
  match resolve_authenticated_sender session (rq_from_uid req) with
  | Err code => (Ok (error_response req code), d, s, mem, [])
  | Ok (sender, device) =>
      let key := if rq_local_message_id req =? 0 then None else Some (client_dedup_key sender device (rq_local_message_id req)) in
      if rq_channel_id req =? 0 then (Ok (error_response req "InvalidParams"), d, s, mem, [])
      else
        match (match key with Some k => find_message_by_dedup_key now dup checked k | None => Ok None end) with
        | Err e => (Err (Database ("查询消息幂等键失败: " +:+ server_error_display e)), d, s, mem, [])
        | Ok (Some m) => (Ok (success_response req (m_message_id m) (as_u64 (Z.max 0 (default 0 (m_pts m))))), d, s, mem, [])
        | Ok None =>
            match check_send file qr req sender seen s with
            | (Err e, s1) => (stopped req e, d, s1, mem, [])
            | (Ok ck, s1) =>
                let q := send_request ret mid sender key req ck in
                match to_legacy_commit (q_event q) (id (ck_channel ck)) (q_channel_type q) with
                | Err e => (Err (Protocol ("构造兼容消息投影失败: " +:+ e)), d, s1, mem, [])
                | Ok (_, content) =>
                    match create_message_and_commit_atomic now event_id ret db d q with
                    | (Err e, d') => (Ok (error_response req (protocol_code e)), d', s1, mem, [])
                    | (Ok r, d') =>
                        if res_inserted r then
                          let '(reply, s2, mem', effects) := finish_send env io sender req ck content r s1 mem in
                          (Ok reply, d', s2, mem', effects)
                        else
                          let m := res_message r in
                          (Ok (success_response req (m_message_id m) (as_u64 (Z.max 0 (default 0 (m_pts m))))), d', s1, mem, [])
                    end
                end
            end
        end
  end.
(** From the bytes of the request to those of the reply. *)
Definition handle_bytes `{W : SendWire} (env : SendEnv) (dup file db io : faults) (event_id mid ret : Z) (qr : string)
    (sessions : gmap Z SessionInfo) (sid : Z) (data : string) (checked seen d : TimelineDb) (s : State) (mem : SendMemory)
    : result string ServerError * TimelineDb * State * SendMemory * list send_effect :=
  match decode_send data with
  | Err e => (Err (Protocol ("解码发送请求失败: " +:+ e)), d, s, mem, [])
  | Ok req =>
      let '(out, d', s', mem', effects) :=
        handle_send env dup file db io event_id mid ret qr (session_identity sessions sid) req checked seen d s mem in
      ((let? reply := out in
        match encode_response reply with
        | Ok bytes => Ok bytes
        | Err e => Err (Protocol ((match rs_reason reply with None => "编码响应失败: " | Some _ => "编码错误响应失败: " end) +:+ e))
        end), d', s', mem', effects)
  end.
End Handler.
