(* ===== verification/SendFacts.v ===== *)
(** * Sending a message: properties

    Every message the handler writes is its session's own, goes to the channel that was
    named and is allowed by the send decision; a retry is answered and not repeated;
    and replies say what happened. *)

From stdpp Require Import base numbers gmap list sorting strings relations.
From S2P Require Import Prelude Pts Channel SendAuth Timeline TimelineFacts Sync SyncFacts Recall Submit SubmitFacts Group GroupService Approval GroupFacts GroupTheorems History Payload Send.
Local Open Scope Z_scope.

(** ** The cache maps an id to the channel of that id *)
Definition keyed (v : ChannelService) : Prop := forall cid c, is_u64 cid -> cs_channels v !! cid = Some c -> id c = cid.
Lemma keyed_insert v cid c : keyed v -> (is_u64 cid -> id c = cid) -> keyed (cache_channel v cid c).
Proof. intros Hk Hc k x Hu. simpl. intros [[<- <-]|[_ Hx]]%lookup_insert_Some; [by apply Hc|by apply Hk]. Qed.
Lemma keyed_same v v' : cs_channels v' = cs_channels v -> keyed v -> keyed v'.
Proof. intros He Hk k x. rewrite He. apply Hk. Qed.
Lemma push_channel_same v uid cid : cs_channels (push_channel v uid cid) = cs_channels v.
Proof. done. Qed.
Lemma index_same v c : cs_channels (update_user_channel_index v c) = cs_channels v.
Proof. unfold update_user_channel_index. revert v. induction (get_member_ids c) as [|u l IH]; intros v; simpl; [done|]. by rewrite IH. Qed.
Lemma add_member_id now c u r c' : add_member now c u r = Ok c' -> id c' = id c.
Proof. unfold add_member. repeat case_match; intros; by simplify_eq. Qed.
Lemma remove_member_id now c u m c' : remove_member now c u = Ok (m, c') -> id c' = id c.
Proof. unfold remove_member, ok_or. repeat case_match; intros; by simplify_eq. Qed.
Lemma update_role_id now c u r c' : update_member_role now c u r = Ok c' -> id c' = id c.
Proof. unfold update_member_role, ok_or. repeat case_match; intros; by simplify_eq. Qed.

Section Keyed.
Context `{OJ : OwnerJoins, Pj : PermissionColumn, Pg : Postgres, Ch : Chrono, Pt : PgTime}.

Lemma hydrate_id (f : Io) i now cid d c : id (hydrate f i now cid d c) = id c.
Proof. unfold hydrate. repeat case_match; done. Qed.
Lemma load_keyed (f : Io) i now sync cid s : keyed (st_sv s) -> keyed (st_sv (get_channel_opt f i now sync cid s).2).
Proof.
  intros Hk. unfold get_channel_opt. destruct (cs_channels (st_sv s) !! cid); [done|]. unfold find_by_id. destruct (f i); [done|].
  destruct (d_channels (st_db s) !! as_i64 cid); [|done]. simpl. apply keyed_insert; [done|]. intros Hu. rewrite hydrate_id. simpl. by apply as_u64_as_i64.
Qed.
Lemma load_id (f : Io) i now sync cid s c : keyed (st_sv s) -> is_u64 cid -> (get_channel_opt f i now sync cid s).1 = Some c -> id c = cid.
Proof.
  intros Hk Hu. unfold get_channel_opt. destruct (cs_channels (st_sv s) !! cid) as [x|] eqn:E; [intros [= <-]; by apply Hk|].
  unfold find_by_id. destruct (f i); [done|]. destruct (d_channels (st_db s) !! as_i64 cid); [|done]. simpl. intros [= <-]. rewrite hydrate_id. by apply as_u64_as_i64.
Qed.
Lemma get_keyed (f : Io) i now sync cid s : keyed (st_sv s) -> keyed (st_sv (get_channel f i now sync cid s).2).
Proof. intros Hk. unfold get_channel. pose proof (load_keyed f i now sync cid s Hk). by destruct (get_channel_opt _ _ _ _ _ _). Qed.
(** What the service answers with is what it holds afterwards. *)
Lemma load_cached (f : Io) i now sync cid s c s' : get_channel_opt f i now sync cid s = (Some c, s') -> cs_channels (st_sv s') !! cid = Some c.
Proof.
  unfold get_channel_opt. destruct (cs_channels (st_sv s) !! cid) as [x|] eqn:E; [by intros [= <- <-]|].
  destruct (find_by_id _ _ _ _ _ _) as [[conv|]|]; [|done..]. intros [= <- <-]. simpl. apply lookup_insert_eq.
Qed.
Lemma get_id (f : Io) i now sync cid s c s' : keyed (st_sv s) -> is_u64 cid -> get_channel f i now sync cid s = (Ok c, s') ->
  id c = cid /\ keyed (st_sv s') /\ cs_channels (st_sv s') !! cid = Some c.
Proof.
  intros Hk Hu. unfold get_channel. pose proof (load_keyed f i now sync cid s Hk) as Hk'. pose proof (load_id f i now sync cid s) as Hid.
  destruct (get_channel_opt _ _ _ _ _ _) as [[x|] s1] eqn:E; intros [= <- <-]. split_and!; [by apply Hid|done|by eapply load_cached].
Qed.
Lemma join_keyed (f : Io) now cid uid r s : keyed (st_sv s) -> keyed (st_sv (join_channel f now cid uid r s).2).
Proof.
  intros Hk. unfold join_channel. destruct (cs_channels (st_sv s) !! cid) as [c|] eqn:E; [|done]. do 2 (case_match; [done|]).
  destruct (add_member now c uid r) as [c'|] eqn:Ea; [|done].
  assert (keyed (cache_channel (st_sv s) cid c')) as Hk1 by (apply keyed_insert; [done|]; intros; rewrite (add_member_id _ _ _ _ _ Ea); by apply Hk).
  destruct (if decide _ then _ else _) as [[]]; [|done]. by destruct (ensure_user_channel_rows _ _ _ _ _) as [[]].
Qed.
Lemma leave_keyed (f : Io) now cid uid s : keyed (st_sv s) -> keyed (st_sv (leave_channel f now cid uid s).2).
Proof.
  intros Hk. unfold leave_channel. destruct (cs_channels (st_sv s) !! cid) as [c|] eqn:E; [|done].
  destruct (remove_member now c uid) as [[m c']|] eqn:Ea; [|done].
  assert (keyed (cache_channel (st_sv s) cid c')) as Hk1 by (apply keyed_insert; [done|]; intros; rewrite (remove_member_id _ _ _ _ _ Ea); by apply Hk).
  by destruct (if decide _ then _ else _) as [[]].
Qed.
Lemma set_role_keyed now cid uid r s : keyed (st_sv s) -> keyed (st_sv (set_member_role now cid uid r s).2).
Proof.
  intros Hk. unfold set_member_role. destruct (cs_channels (st_sv s) !! cid) as [c|] eqn:E; [|done].
  destruct (update_member_role now c uid r) as [c'|] eqn:Ea; [|done]. apply keyed_insert; [done|]. intros. rewrite (update_role_id _ _ _ _ _ Ea). by apply Hk.
Qed.
Lemma private_keyed (f : Io) i now sync u1 u2 cid s : keyed (st_sv s) -> keyed (st_sv (create_private_chat_with_id f i now sync u1 u2 cid s)).
Proof.
  intros Hk. unfold create_private_chat_with_id. pose proof (load_keyed f i now sync cid s Hk) as Hk1.
  destruct (get_channel_opt _ _ _ _ _ _) as [[x|] s1]; [by eapply keyed_same; [|exact Hk1]|].
  eapply keyed_same; [|apply (keyed_insert (st_sv s1) cid (new_direct now cid u1 u2)); [exact Hk1|done]]. simpl. apply index_same.
Qed.
Lemma group_chat_keyed (f : Io) i now sync owner nm cid s : keyed (st_sv s) -> keyed (st_sv (create_group_chat_with_id f i now sync owner nm cid s)).
Proof.
  intros Hk. unfold create_group_chat_with_id. pose proof (load_keyed f i now sync cid s Hk) as Hk1.
  destruct (get_channel_opt _ _ _ _ _ _) as [[x|] s1]; [done|].
  eapply keyed_same; [|apply (keyed_insert (st_sv s1) cid (new_group now cid owner (Some nm))); [exact Hk1|done]]. simpl. apply index_same.
Qed.

Lemma evict_keyed cap v : keyed v -> keyed (evict_stale_memory cap v).
Proof.
  intros Hk k x Hu. unfold evict_stale_memory. simpl. generalize ((take (size (cs_channels v) - cap) (merge_sort older (map_to_list (cs_channels v)))).*1) as l.
  intros l Hx. apply (Hk k x Hu). induction l as [|y l IH]; simpl in Hx; [done|]. apply lookup_delete_Some in Hx as [_ Hx]. by apply IH.
Qed.
Lemma muted_keyed (f : Io) cid uid muted until s : keyed (st_sv s) -> keyed (st_sv (set_member_muted f cid uid muted until s).2).
Proof.
  intros Hk. unfold set_member_muted. destruct (single _ _ _ _ _) as [[] d']; [|done]. destruct (cs_channels (st_sv s) !! cid) as [c|] eqn:E; [|done].
  destruct (members c !! uid); [|done]. simpl. apply keyed_insert; [done|]. intros. by apply (Hk cid c).
Qed.
Lemma rows_keyed cfg (f g h k : Io) now sync gid creator qr r s : keyed (st_sv s) ->
  keyed (st_sv (create_group_channel_rows cfg f g h k now sync gid creator qr r s).2).
Proof.
  intros Hk. unfold create_group_channel_rows. destruct (create_group_tx _ _ _ _ _ _ _ _ _); [|done]. destruct (g 0%nat); [done|].
  destruct (create _ _ _ _ _ _ _) as [[created|] d2]; [|done].
  assert (keyed (cache_channel (st_sv s) (id created) (with_id (new_group_channel cfg now (as_u64 gid) creator r) (id created)))) as Hk1 by by apply keyed_insert.
  destruct (ensure_user_channel_rows _ _ _ _ _) as [[] d4]; [|done]. simpl. eapply keyed_same; [apply index_same|exact Hk1].
Qed.
Lemma hide_same (f : Io) uid cid hidden s : cs_channels (st_sv (hide_channel f uid cid hidden s).2) = cs_channels (st_sv s).
Proof. unfold hide_channel. by destruct (upsert_flags _ _ _ _ _ _) as [[] ?]. Qed.
Lemma direct_keyed (f : Io) now sync fresh uid target s : keyed (st_sv s) -> keyed (st_sv (get_or_create_direct_channel f now sync fresh uid target s).2).
Proof.
  intros Hk. unfold get_or_create_direct_channel. destruct (create_or_get_direct_channel _ _ _ _ _ _ _) as [[[ch created]|] d']; [|done].
  pose proof (load_keyed f 10 now sync (id ch) (mkState d' (st_sv s)) Hk) as Hk1.
  assert (forall p : bool * State, keyed (st_sv p.2) -> keyed (st_sv
    (let '(load, s2) := p in match ensure_user_channel_rows f 20 (id ch) [uid; target] (st_db s2) with
      | (Err e, d3) => (Err e, mkState d3 (st_sv s2))
      | (Ok _, d3) =>
          let s3 := mkState d3 (st_sv s2) in
          let s4 := if load : bool then create_private_chat_with_id f 30 now sync uid target (id ch) s3 else s3 in
          let v5 := set_direct_index (st_sv s4) (<[make_direct_key uid target := id ch]> (cs_direct_index (st_sv s4))) in
          let s5 := mkState (st_db s4) v5 in
          let s6 := if decide ((uid, id ch) ∈ cs_hidden v5) then (hide_channel (io_from 40 f) uid (id ch) false s5).2 else s5 in
          (Ok (id ch, created), s6)
      end : result (Z * bool) ServerError * State).2)) as Hrest.
  { intros [load s2] Hk2. simpl in Hk2. destruct (ensure_user_channel_rows _ _ _ _ _) as [[] d3]; [|done]. cbv zeta.
    assert (keyed (st_sv (if load then create_private_chat_with_id f 30 now sync uid target (id ch) (mkState d3 (st_sv s2)) else mkState d3 (st_sv s2)))) as Hk3
      by (destruct load; [by apply private_keyed|done]).
    simpl. destruct (decide _); [|by eapply keyed_same; [|exact Hk3]]. eapply keyed_same; [apply hide_same|]. by eapply keyed_same; [|exact Hk3]. }
  destruct created; [by apply (Hrest (true, mkState d' (st_sv s)))|].
  destruct (get_channel_opt f 10 now sync (id ch) (mkState d' (st_sv s))) as [o s2]. by apply (Hrest (_, s2)).
Qed.
Lemma group_step_keyed w w' : group_step w w' -> keyed (st_sv (w_state w)) -> keyed (st_sv (w_state w')).
Proof.
  intros Hs Hk. destruct Hs; simpl; try done.
  - by apply load_keyed.
  - by apply evict_keyed.
  - by apply join_keyed.
  - by apply leave_keyed.
  - by apply set_role_keyed.
  - by apply muted_keyed.
  - unfold remove_member_admin. by destruct (commit_tx _ _ _ _ _).
  - unfold add_member_admin. destruct (commit_tx _ _ _ _ _) as [[] d']; [|done]. by apply join_keyed.
  - unfold set_member_role_admin. case_decide; [done|]. destruct (commit_tx _ _ _ _ _) as [[] d']; [|done]. by apply set_role_keyed.
  - unfold transfer_group_owner. case_match; [done|]. destruct (commit_tx _ _ _ _ _) as [[] d']; [|done]. simpl. by apply set_role_keyed, set_role_keyed.
  - unfold dissolve_group_admin. by destruct (commit_tx _ _ _ _ _).
  - unfold create_channel. destruct (validate_create_request _ _ _ _); [|done]. destruct (cr_type r); [| |done].
    + destruct (cr_member_ids r) as [|target [|]]; [done| |done].
      pose proof (direct_keyed f now sync fresh creator target (w_state w) Hk) as Hd.
      destruct (get_or_create_direct_channel _ _ _ _ _ _ _) as [[[cid b]|] s']; [|done]. simpl in Hd.
      pose proof (load_keyed g 0 now sync cid s' Hd) as Hl. by destruct (get_channel_opt _ _ _ _ _ _).
    + destruct (cr_name r); [by apply rows_keyed|done].
  - by apply direct_keyed.
  - unfold approve_join_request_in_tx. destruct (approve_tx _ _ _ _ _ _ _ _) as [[[[|] t'] d']|e]; [|done|done].
    destruct (commit_both _ _ _ _ _ _) as [[r t2] d2]. destruct r; [|done]. cbv zeta.
    assert (keyed (match cs_channels (st_sv (w_state w)) !! gid with
      | Some c => match add_member now c uid (Some Member) with Ok c' => cache_channel (st_sv (w_state w)) gid c' | Err _ => st_sv (w_state w) end
      | None => st_sv (w_state w) end)) as Hk1.
    { destruct (cs_channels (st_sv (w_state w)) !! gid) as [c|] eqn:E; [|done]. destruct (add_member now c uid (Some Member)) as [c'|] eqn:Ea; [|done].
      apply keyed_insert; [done|]. intros. rewrite (add_member_id _ _ _ _ _ Ea). by apply Hk. }
    by destruct (ensure_user_channel_rows _ _ _ _ _) as [[] d3].
  - by destruct (create_join_request _ _ _ _ _ _ _ _ _ _) as [[? ?] ?].
  - by destruct (approve_request _ _ _ _ _ _) as [[? ?] ?].
  - by destruct (reject_request _ _ _ _ _ _ _) as [[? ?] ?].
  - by destruct (cleanup_expired_requests _ _ _ _) as [[? ?] ?].
Qed.
Lemma reachable_keyed user_type add_seconds known_user users w : group_reachable user_type add_seconds known_user users w -> keyed (st_sv (w_state w)).
Proof.
  intros Hr%events_are_steps. revert w Hr. apply (rtc_ind_r (fun w => keyed (st_sv (w_state w))) (world_init users)); [intros k x _; simpl; by rewrite lookup_empty|].
  intros x y _ Hs. by apply group_step_keyed.
Qed.
End Keyed.

Section Resolved.
Context `{Pj : PermissionColumn, Pg : Postgres, Ch : Chrono}.
Context (calls : nat -> Io) (now sync : Z).

Definition resolved (cid : Z) (p : result Channel SendStop * State) : Prop :=
  keyed (st_sv p.2) /\ forall c, p.1 = Ok c -> id c = cid /\ cs_channels (st_sv p.2) !! cid = Some c.
Lemma get_resolved n cid s (fail : ServerError -> SendStop) : keyed (st_sv s) -> is_u64 cid ->
  resolved cid (match get calls now sync n cid s with (Err e, s') => (Err (fail e), s') | (Ok c, s') => (Ok c, s') end).
Proof.
  intros Hk Hu. unfold get. pose proof (get_keyed (calls n) 0 now sync cid s Hk) as Hk'. pose proof (get_id (calls n) 0 now sync cid s) as Hid.
  destruct (get_channel _ _ _ _ _ _) as [[c|e] s']; (split; [done|]); [|done]. intros ? [= <-]. by destruct (Hid c s' Hk Hu eq_refl) as (? & _ & ?).
Qed.
Lemma stop_resolved cid e s : keyed (st_sv s) -> resolved cid (Err e, s).
Proof. by split. Qed.
Lemma join_resolved n cid uid r s : keyed (st_sv s) -> is_u64 cid -> resolved cid (join_and_reload calls now sync n cid uid r s).
Proof.
  intros Hk Hu. unfold join_and_reload. pose proof (join_keyed (calls n) now cid uid (Some r) s Hk) as Hk1.
  destruct (join_channel _ _ _ _ _ _) as [[b|e] s1]; [|by apply stop_resolved].
  by apply (get_resolved (S n) cid s1 (fun e => Failed (Internal ("获取频道失败: " +:+ server_error_display e)))).
Qed.
Lemma restore_members_keyed n cid owner ps s : keyed (st_sv s) -> keyed (st_sv (restore_members calls now n cid owner ps s)).
Proof.
  revert n s. induction ps as [|p ps IH]; intros n s Hk; [done|]. simpl. apply IH. destruct (_ =? _); [done|].
  unfold add_member_to_group. pose proof (join_keyed (calls n) now cid (p_user_id p) None s Hk) as Hk1.
  destruct (join_channel _ _ _ _ _ _) as [[b|e] s1]; [|done]. by apply set_role_keyed.
Qed.
Lemma member_resolved n cid uid s (other : Channel -> State -> result Channel SendStop * State) (fail : ServerError -> SendStop) :
  keyed (st_sv s) -> is_u64 cid -> (forall c s', keyed (st_sv s') -> id c = cid -> resolved cid (other c s')) ->
  resolved cid (match get calls now sync n cid s with
                | (Err e, s') => (Err (fail e), s')
                | (Ok c, s') => if bool_decide (is_Some (members c !! uid)) then (Ok c, s') else other c s' end).
Proof.
  intros Hk Hu Ho. unfold get. pose proof (get_keyed (calls n) 0 now sync cid s Hk) as Hk'. pose proof (get_id (calls n) 0 now sync cid s) as Hid.
  destruct (get_channel _ _ _ _ _ _) as [[c|e] s']; [|by apply stop_resolved]. destruct (Hid c s' Hk Hu eq_refl) as (Hc & _ & Hin).
  destruct (bool_decide _); [|by apply Ho]. split; [done|]. by intros ? [= <-].
Qed.
Lemma restore_group_resolved cid uid claimed c s : keyed (st_sv s) -> is_u64 cid -> resolved cid (restore_group calls now sync cid uid claimed c s).
Proof.
  intros Hk Hu. unfold restore_group. destruct (participants _ _ _ _ _) as [[|first ps]|e]; [by apply stop_resolved| |by apply stop_resolved].
  match goal with |- resolved _ (match get _ _ _ _ _ ?x with _ => _ end) =>
    apply (member_resolved 4 cid uid x (fun _ s3 => match head (filter (fun p => p_user_id p = claimed) (first :: ps)) with
      | None => (Err no_access, s3) | Some p => join_and_reload calls now sync 5 cid claimed (p_role p) s3 end)
      (fun e => Failed (Internal ("获取恢复的频道失败: " +:+ server_error_display e)))) end; [|done|].
  - by apply restore_members_keyed, group_chat_keyed.
  - intros _ s' Hk' _. destruct (head _); [by apply join_resolved|by apply stop_resolved].
Qed.
Lemma admit_resolved cid uid c s : keyed (st_sv s) -> is_u64 cid -> resolved cid (admit_sender calls now sync cid uid c s).
Proof.
  intros Hk Hu. unfold admit_sender, get. pose proof (get_keyed (calls 1) 0 now sync cid s Hk) as Hk'.
  destruct (get_channel _ _ _ _ _ _) as [[dbc|e] s1]; [|by apply stop_resolved]. simpl in Hk'. cbv zeta.
  match goal with |- resolved _ (if ?b then _ else _) => destruct b end; [by apply join_resolved|by apply stop_resolved].
Qed.
Lemma restore_resolved cid uid claimed s : keyed (st_sv s) -> is_u64 cid -> resolved cid (restore_channel calls now sync cid uid claimed s).
Proof.
  intros Hk Hu. unfold restore_channel. unfold get at 1. pose proof (get_keyed (calls 1) 0 now sync cid s Hk) as Hk'.
  destruct (get_channel _ _ _ _ _ _) as [[c|e] s1]; [|by apply stop_resolved]. simpl in Hk'.
  destruct (channel_type c); [|by apply restore_group_resolved|by apply stop_resolved].
  destruct (direct_user1_id c) as [u1|], (direct_user2_id c) as [u2|]; try by apply stop_resolved.
  destruct (_ && _); [by apply stop_resolved|]. cbv zeta. unfold get.
  pose proof (private_keyed (calls 2) 0 now sync u1 u2 cid s1 Hk') as Hk2.
  pose proof (get_keyed (calls 3) 0 now sync cid _ Hk2) as Hk3.
  destruct (get_channel _ _ _ _ _ (create_private_chat_with_id _ _ _ _ _ _ _ _)) as [[c'|e] s3] eqn:E; [|by apply stop_resolved].
  split; [done|]. simpl. intros x. destruct (bool_decide _); [|done]. intros [= <-]. by destruct (get_id _ _ _ _ _ _ _ _ Hk2 Hu E) as (? & _ & ?).
Qed.
Lemma resolve_resolved cid uid claimed s : keyed (st_sv s) -> is_u64 cid -> resolved cid (resolve_channel calls now sync cid uid claimed s).
Proof.
  intros Hk Hu. unfold resolve_channel. assert (resolved cid (find_channel calls now sync cid uid claimed s)) as [Hk1 Hid1].
  { unfold find_channel, get. pose proof (get_keyed (calls 0) 0 now sync cid s Hk) as Hk'. pose proof (get_id (calls 0) 0 now sync cid s) as Hid.
    destruct (get_channel _ _ _ _ _ _) as [[c|e] s1]; [|by apply restore_resolved]. destruct (Hid c s1 Hk Hu eq_refl) as (Hc & _ & Hin).
    destruct (bool_decide _); [split; [done|]; by intros ? [= <-]|by apply admit_resolved]. }
  destruct (find_channel _ _ _ _ _ _ _) as [[c|e] s1]; [|done]. simpl in Hk1. specialize (Hid1 c eq_refl).
  unfold ensure_member. destruct (bool_decide _); [split; [done|]; by intros ? [= <-]|]. unfold get.
  pose proof (get_keyed (calls 7) 0 now sync cid s1 Hk1) as Hk2. destruct (get_channel _ _ _ _ _ _) as [[dbc|e] s2]; [|by apply stop_resolved]. cbv zeta.
  match goal with |- resolved _ (if ?b then _ else _) => destruct b end; [by apply join_resolved|by apply stop_resolved].
Qed.
End Resolved.

(** A transaction without a registry claim that inserts nothing found the message of its key. *)
Section Duplicates.
Context `{P : ProtocolCrate, Ch : Chrono, Pg : Postgres, Co : !EventCodec}.
Lemma dedup_row_elem d key row : dedup_row d key = Some row -> row ∈ t_messages d.
Proof.
  unfold dedup_row, row_of_id. destruct (t_dedup d !! key) as [[mid at_]|]; [|done]. simpl. intros H%latest_row_elem.
  by apply list_elem_of_filter in H as [_ ?].
Qed.
Lemma create_duplicate now ev ret db d req r d' : q_claim req = None ->
  create_message_and_commit_atomic now ev ret db d req = (Ok r, d') -> res_inserted r = false ->
  exists key row, q_dedup_key req = Some key /\ dedup_row d key = Some row /\ res_message r = message_from_row now row.
Proof.
  intros Hq. unfold create_message_and_commit_atomic. destruct (check_commit_request req) as [[legacy canonical]|]; [|done].
  destruct (db 0%nat); [done|]. unfold claim_and_write.
  assert (forall d0 d1 o, write_message now ev ret db req legacy canonical d0 d1 = Ok (r, o) -> res_inserted r = true) as Hw.
  { intros d0 d1 o. unfold write_message. destruct (write_rows _ _ _ _ _ _ _ _) as [[[m row] d7]|]; [|done]. rewrite Hq. by intros [= <- _]. }
  assert (forall d0 d1, finish_tx "Failed to commit message tx: " db d (write_message now ev ret db req legacy canonical d0 d1) = (Ok r, d') ->
    res_inserted r = true) as Hf.
  { intros d0 d1. destruct (write_message _ _ _ _ _ _ _ d0 d1) as [[r' o]|] eqn:E; [|done]. simpl. destruct o; [destruct (db 10%nat)|]; intros [= <- _]; by eapply Hw. }
  destruct (q_dedup_key req) as [key|]; [|intros H Hn; apply Hf in H; congruence].
  destruct (db 1%nat); [done|]. destruct (t_dedup d !! key); [|intros H Hn; apply Hf in H; congruence].
  destruct (db 2%nat); [done|]. destruct (dedup_row d key) as [row|] eqn:Er; [|done]. simpl. intros [= <- _] _.
  by exists key, row.
Qed.
Lemma create_key_claimed now ev ret db d req key x res d' : q_dedup_key req = Some key -> t_dedup d !! key = Some x ->
  create_message_and_commit_atomic now ev ret db d req = (res, d') -> d' = d /\ forall r, res = Ok r -> res_inserted r = false.
Proof.
  intros Hk Hd. unfold create_message_and_commit_atomic, claim_and_write. rewrite Hk, Hd.
  destruct (check_commit_request req) as [[legacy canonical]|]; [|by intros [= <- <-]].
  destruct (db 0%nat); [by intros [= <- <-]|]. destruct (db 1%nat); [by intros [= <- <-]|]. destruct (db 2%nat); [by intros [= <- <-]|].
  destruct (dedup_row d key); intros [= <- <-]; [|done]. split; [done|]. by intros ? [= <-].
Qed.
Lemma create_lost now ev ret db d req e d' : create_message_and_commit_atomic now ev ret db d req = (Err e, d') -> d' <> d ->
  db 10%nat <> None /\ db 11%nat <> None.
Proof.
  unfold create_message_and_commit_atomic. destruct (check_commit_request req) as [[legacy canonical]|]; [|congruence]. unfold finish_tx.
  destruct (match db 0%nat with Some e => _ | None => _ end) as [[r [d1|]]|]; [|congruence..].
  destruct (db 10%nat); [|congruence]. destruct (db 11%nat); [done|congruence].
Qed.
End Duplicates.

Section SendProperties.
Context `{P : ProtocolCrate, Ch : Chrono, Pg : Postgres, Co : !EventCodec, Sc : !SubmitCodec, Pl : !PayloadCodec, CT : !CommitText,
          OJ : OwnerJoins, Pj : PermissionColumn, deps : SendAuthorizationDeps, Pt : PgTime}.
Context (config : ChannelServiceConfig) (calls : nat -> Io) (now sync : Z).
Notation handle := (handle_send config calls now sync).

(** The key a request claims. *)
Definition key_of (sender : Z) (device : string) (req : SendMessageRequest) : option string :=
  if rq_local_message_id req =? 0 then None else Some (client_dedup_key sender device (rq_local_message_id req)).
(** The channel of a request: the one the service finds, or restores from the tables,
    under the id the request names, and holds in its memory from then on. *)
Definition resolved_for (req : SendMessageRequest) (sender : Z) (s : State) (c : Channel) : Prop :=
  exists s1, resolve_channel calls now sync (rq_channel_id req) sender (rq_from_uid req) s = (Ok c, s1) /\
    cs_channels (st_sv s1) !! rq_channel_id req = Some c.
Lemma check_send_Ok file qr req sender seen s ck s1 : keyed (st_sv s) -> is_u64 (rq_channel_id req) ->
  check_send config calls now sync file qr req sender seen s = (Ok ck, s1) ->
  resolved_for req sender s (ck_channel ck) /\ id (ck_channel ck) = rq_channel_id req /\
  authorize_send_to_channel now (ck_channel ck) sender = Ok tt /\ parse_payload (rq_payload req) = Ok (ck_payload ck).
Proof.
  intros Hk Hu. unfold check_send. destruct (resolve_resolved calls now sync (rq_channel_id req) sender (rq_from_uid req) s Hk Hu) as [_ Hid].
  unfold resolved_for. destruct (resolve_channel _ _ _ _ _ _ _) as [[c|e] s2]; [|done]. specialize (Hid c eq_refl) as [Hid Hin].
  destruct (authorize_send_to_channel now c sender) as [[]|] eqn:Ea; [|done].
  destruct (check_content _ _ _ _ _ _ _ _ _) as [[ck'|e] s3] eqn:Ec; [|done]. destruct (secure_channel _ _ _ _ _ _ _ _) as [[|] s4]; intros [= <- <-].
  unfold check_content in Ec. destruct (ct_from_u32 _); [|done]. destruct (parse_payload _); [|done]. destruct (match pp_reply_to _ with Some _ => _ | None => _ end); [done|].
  destruct (validate_message_metadata _ _ _ _ _ _ _ _ _) as [[[]|] s5]; [|done]. injection Ec as <- <-. split_and!; [|done..]. by exists s2.
Qed.
(** The handler either stops before the transaction, or runs it. *)
Lemma handle_cases env dup file db io ev mid ret qr session req checked seen d s mem out d' s' mem' eff :
  handle env dup file db io ev mid ret qr session req checked seen d s mem = (out, d', s', mem', eff) ->
  (d' = d /\ mem' = mem /\ eff = [] /\
     (forall reply, out = Ok reply -> rs_reason reply = None ->
        exists row, row ∈ t_messages checked /\ reply = success_response req (as_u64 (r_message_id row)) (as_u64 (Z.max 0 (r_pts row))) /\
          exists sender device key, resolve_authenticated_sender session (rq_from_uid req) = Ok (sender, device) /\
            key_of sender device req = Some key /\ dedup_row checked key = Some row)) \/
  exists sender device ck s1 res, resolve_authenticated_sender session (rq_from_uid req) = Ok (sender, device) /\
    (forall key, key_of sender device req = Some key -> dup 0%nat = None /\ dedup_row checked key = None) /\
    check_send config calls now sync file qr req sender seen s = (Ok ck, s1) /\
    create_message_and_commit_atomic now ev ret db d (send_request now ret mid sender (key_of sender device req) req ck) = (res, d') /\
    match res with
    | Err e => out = Ok (error_response req (protocol_code e)) /\ mem' = mem /\ eff = []
    | Ok r =>
        if res_inserted r then exists content, finish_send calls now sync env io sender req ck content r s1 mem = (match out with Ok reply => reply | Err _ => error_response req EmptyString end, s', mem', eff) /\ is_ok out = true
        else out = Ok (success_response req (m_message_id (res_message r)) (as_u64 (Z.max 0 (default 0 (m_pts (res_message r)))))) /\ mem' = mem /\ eff = []
    end.
Proof.
  unfold handle_send. destruct (resolve_authenticated_sender session (rq_from_uid req)) as [[sender device]|code] eqn:Er.
  2: { intros [= <- <- <- <- <-]. left. split_and!; [done..|]. by intros ? [= <-]. }
  fold (key_of sender device req). destruct (rq_channel_id req =? 0).
  { intros [= <- <- <- <- <-]. left. split_and!; [done..|]. by intros ? [= <-]. }
  destruct (match key_of sender device req with Some k => _ | None => _ end) as [[m|]|e] eqn:Ek.
  - intros [= <- <- <- <- <-]. left. split_and!; [done..|]. intros ? [= <-] _.
    destruct (key_of sender device req) as [key|] eqn:Ekey; [|done]. unfold find_message_by_dedup_key in Ek. destruct (dup 0%nat); [done|].
    destruct (dedup_row checked key) as [row|] eqn:Ed; [|done]. injection Ek as <-. exists row. split; [by eapply dedup_row_elem|]. split; [done|].
    exists sender, device, key. split_and!; done.
  - destruct (check_send _ _ _ _ _ _ _ _ _ _) as [[ck|e] s1] eqn:Ec.
    2: { intros [= <- <- <- <- <-]. left. split_and!; [done..|]. destruct e; [|done]. by intros ? [= <-]. }
    cbv zeta. destruct (to_legacy_commit _ _ _) as [[x content]|e].
    2: { intros [= <- <- <- <- <-]. left. by split_and!. }
    destruct (create_message_and_commit_atomic _ _ _ _ _ _) as [res d1] eqn:Et. intros E. right. exists sender, device, ck, s1, res.
    assert (d1 = d') as -> by (destruct res as [r|]; [destruct (res_inserted r); [destruct (finish_send _ _ _ _ _ _ _ _ _ _ _ _) as [[[? ?] ?] ?]|]|]; congruence).
    split_and!; [done| |done|done|].
    { intros key Ekey. rewrite Ekey in Ek. unfold find_message_by_dedup_key in Ek. destruct (dup 0%nat); [done|]. by destruct (dedup_row checked key). }
    destruct res as [r|e]; [|by injection E as <- <- <- <-]. destruct (res_inserted r); [|by injection E as <- <- <- <-].
    exists content. destruct (finish_send _ _ _ _ _ _ _ _ _ _ _ _) as [[[? ?] ?] ?]. by injection E as <- <- <- <-.
  - intros [= <- <- <- <- <-]. left. by split_and!.
Qed.

Lemma sender_is_session session claimed sender device : resolve_authenticated_sender session claimed = Ok (sender, device) ->
  exists text, session = Some (text, device) /\ parse_u64 text = Some sender /\ device <> EmptyString /\ (claimed = 0 \/ claimed = sender).
Proof.
  unfold resolve_authenticated_sender. destruct session as [[text dev]|]; [|done]. cbn. destruct (parse_u64 text) as [u|] eqn:Ep; [|done]. cbn.
  destruct (decide (dev = EmptyString)); [done|]. intros E. exists text. destruct (Z.eqb_spec claimed 0), (Z.eqb_spec claimed u); cbn in E; first [discriminate|injection E as <- <-]; split_and!; auto.
Qed.
Lemma finish_effects env io sender req ck content r s mem reply s' mem' eff :
  finish_send calls now sync env io sender req ck content r s mem = (reply, s', mem', eff) ->
  (reply = success_response req (m_message_id (res_message r)) (as_u64 (Z.max 0 (default 0 (m_pts (res_message r)))))) \/
  (reply = error_response req "PermissionDenied" /\ channel_type (ck_channel ck) = Group /\ mention_all (pp_content (ck_payload ck)) = true /\
     exists m, members (ck_channel ck) !! sender = Some m /\ role m = Member).
Proof.
  unfold finish_send. cbv zeta. destruct (if sync_ready env then _ else _) as [g k]. unfold record_mentions. cbv zeta.
  destruct (mention_all _ && bool_decide _) eqn:Em.
  - apply andb_true_iff in Em as [Ha Hg%bool_decide_eq_true]. destruct (members (ck_channel ck) !! sender) as [m|]; [|intros E; injection E as <- _ _ _; by left].
    destruct (role m) eqn:Er; intros E; injection E as <- _ _ _; [by left..|right]. split_and!; [done..|]. by exists m.
  - destruct (filter _ _); intros E; injection E as <- _ _ _; by left.
Qed.


(** The row a successful send is about: the one it appended, or the one that has its key. *)
Definition row_of_send (session : option (string * string)) (req : SendMessageRequest) (mid : Z) (checked d d' : TimelineDb) (row : MessageRow) : Prop :=
  exists u device, resolve_authenticated_sender session (rq_from_uid req) = Ok (u, device) /\
    ((t_messages d' = t_messages d ++ [row] /\ r_message_id row = as_i64 mid /\ r_sender_id row = as_i64 u /\ r_channel_id row = as_i64 (rq_channel_id req)) \/
     (d' = d /\ exists key, key_of u device req = Some key /\ (dedup_row checked key = Some row \/ dedup_row d key = Some row))).

(** C14. Replies say what happened. A reply of success names, with its pts, the message
    this send appended to the named channel for the user of its session, or, when
    nothing was appended, the message that already has the key of this user, device
    and message number. An error of the handler itself leaves the timeline as it was, and so
    does a reply with an error code, but for a COMMIT whose outcome was lost, and for
    the user of the session being a plain member of the group it writes to who mentions
    everybody: the message is kept and the reply says PermissionDenied. *)
Theorem send_replies_are_true user_type add_seconds known_user (users : gset Z) (w : World) env dup file db io ev mid ret qr session req checked seen d mem
    out d' s' mem' eff :
  group_reachable user_type add_seconds known_user users w -> is_u64 mid -> is_u64 (rq_channel_id req) ->
  handle env dup file db io ev mid ret qr session req checked seen d (w_state w) mem = (out, d', s', mem', eff) ->
  match out with
  | Err _ => d' = d
  | Ok reply =>
      match rs_reason reply with
      | None => exists row, row_of_send session req mid checked d d' row /\ rs_server_message_id reply = as_u64 (r_message_id row) /\
                  rs_message_seq reply = as_u32 (as_u64 (Z.max 0 (r_pts row)))
      | Some code => d' <> d -> (db 10%nat <> None /\ db 11%nat <> None) \/
          (code = "PermissionDenied"%string /\ exists u device c p m, resolve_authenticated_sender session (rq_from_uid req) = Ok (u, device) /\
             resolved_for req u (w_state w) c /\ id c = rq_channel_id req /\ channel_type c = Group /\ members c !! u = Some m /\ role m = Member /\
             parse_payload (rq_payload req) = Ok p /\ mention_all (pp_content p) = true)
      end
  end.
Proof.
  intros Hk%reachable_keyed Hmid Hch E. apply handle_cases in E as [(-> & _ & _ & Hok)|(u & device & ck & s1 & res & Hs & _ & Hck & Ht & Hres)].
  { destruct out as [reply|]; [|done]. specialize (Hok reply eq_refl). destruct (rs_reason reply); [done|].
    destruct (Hok eq_refl) as (row & _ & -> & u & device & key & Hs & Hkey & Hrow). exists row. split; [|done].
    exists u, device. split; [done|]. right. split; [done|]. exists key. split; [done|by left]. }
  destruct res as [r|e]; [|destruct Hres as (-> & _ & _); simpl; intros Hne; left; by eapply create_lost].
  apply check_send_Ok in Hck as (Hrf & Hid & _ & Hpay); [|done..]. destruct (res_inserted r) eqn:Ei.
  - destruct Hres as (content & Hf & Hok). destruct out as [reply|]; [|done]. apply finish_effects in Hf as [->|(-> & Hg & Ha & m & Hm & Hr)].
    + simpl. apply create_cases in Ht as [[_ Hno]|(row & cm & Hco & Hok')]; [rewrite (Hno r eq_refl) in Ei; done|].
      destruct (Hok' r eq_refl) as (_ & -> & _). exists row. pose proof (cd_written _ _ _ _ _ _ _ Hco) as Hw. split.
      * exists u, device. split; [done|]. left. rewrite (mw_messages _ _ _ _ Hw), (mw_id _ _ _ _ Hw), (mw_sender _ _ _ _ Hw), (mw_channel _ _ _ _ Hw). simpl. by rewrite Hid.
      * simpl. rewrite (mw_id _ _ _ _ Hw). simpl. by rewrite as_u64_as_i64.
    + simpl. intros _. right. split; [done|]. by exists u, device, (ck_channel ck), (ck_payload ck), m.
  - destruct Hres as (-> & _ & _). simpl.
    assert (q_claim (send_request now ret mid u (key_of u device req) req ck) = None) as Hq by done.
    destruct (create_duplicate _ _ _ _ _ _ _ _ Hq Ht Ei) as (key & row & Hkey & Hrow & ->).
    apply create_cases in Ht as [[-> _]|(? & ? & _ & Hbad)]; [|destruct (Hbad r eq_refl); congruence]. exists row. split; [|done].
    exists u, device. split; [done|]. right. split; [done|]. exists key. split; [done|by right].
Qed.

(** A send whose key is claimed, also by a message that is no longer there. *)
Lemma handle_key_claimed env dup file db io ev mid ret qr session req checked seen d s mem out d' s' mem' eff key x :
  handle env dup file db io ev mid ret qr session req checked seen d s mem = (out, d', s', mem', eff) ->
  (forall sender device, resolve_authenticated_sender session (rq_from_uid req) = Ok (sender, device) -> key_of sender device req = Some key) ->
  t_dedup d !! key = Some x -> d' = d /\ mem' = mem /\ eff = [].
Proof.
  intros E Hk Hd. apply handle_cases in E as [(-> & -> & -> & _)|(u & dev & ck & s1 & res & Hs & _ & _ & Ht & Hres)]; [done|].
  apply (create_key_claimed _ _ _ _ _ _ key x) in Ht as [-> Hn]; [|by apply Hk|done]. split; [done|].
  destruct res as [r|]; [rewrite (Hn r eq_refl) in Hres|]; by destruct Hres as (_ & -> & ->).
Qed.
(** A send whose key is claimed by a message that is there. *)
Lemma handle_claimed env dup file db io ev mid ret qr session req checked seen d s mem out d' s' mem' eff key row :
  handle env dup file db io ev mid ret qr session req checked seen d s mem = (out, d', s', mem', eff) -> rows_ok d ->
  (forall sender device, resolve_authenticated_sender session (rq_from_uid req) = Ok (sender, device) -> key_of sender device req = Some key) ->
  t_dedup d !! key = Some (r_message_id row, r_created_at row) -> row ∈ t_messages d ->
  (forall sender device old, resolve_authenticated_sender session (rq_from_uid req) = Ok (sender, device) -> dedup_row checked key = Some old ->
     r_message_id old = r_message_id row /\ r_pts old = r_pts row) ->
  d' = d /\ mem' = mem /\ eff = [] /\
  forall reply, out = Ok reply -> rs_reason reply = None -> reply = success_response req (as_u64 (r_message_id row)) (as_u64 (Z.max 0 (r_pts row))).
Proof.
  intros E Hr Hk Hd Hin Hold. apply handle_cases in E as [(-> & -> & -> & Hok)|(u & dev & ck & s1 & res & Hs & _ & _ & Ht & Hres)].
  { split_and!; [done..|]. intros reply H1 H2. destruct (Hok reply H1 H2) as (old & _ & -> & u & dev & key' & Hs & Hk' & Hrow).
    rewrite (Hk u dev Hs) in Hk'. injection Hk' as <-. by destruct (Hold u dev old Hs Hrow) as [-> ->]. }
  destruct (create_claimed now ev ret db d (send_request now ret mid u (key_of u dev req) req ck) key _ _ row Hr (Hk u dev Hs) Hd Hin eq_refl) as (Hd' & Hdup & _).
  rewrite Ht in Hd', Hdup. simpl in Hd', Hdup. subst d'. split; [done|].
  destruct res as [r|e]; [|destruct Hres as (-> & -> & ->); split_and!; [done..|]; by intros ? [= <-]].
  specialize (Hdup r eq_refl). subst r. simpl in Hres. destruct Hres as (-> & -> & ->). split_and!; [done..|]. by intros ? [= <-] _.
Qed.
(** A send whose check finds its key is answered at once. *)
Lemma handle_found env dup file db io ev mid ret qr session req checked seen d s mem sender device key row :
  resolve_authenticated_sender session (rq_from_uid req) = Ok (sender, device) -> key_of sender device req = Some key ->
  rq_channel_id req <> 0 -> dup 0%nat = None -> dedup_row checked key = Some row ->
  (handle env dup file db io ev mid ret qr session req checked seen d s mem).1.1.1.1
    = Ok (success_response req (as_u64 (r_message_id row)) (as_u64 (Z.max 0 (r_pts row)))).
Proof.
  intros Hs Hk Hc Hdup Hrow. unfold handle_send. rewrite Hs. fold (key_of sender device req). rewrite Hk.
  destruct (Z.eqb_spec (rq_channel_id req) 0); [done|]. unfold find_message_by_dedup_key. by rewrite Hdup, Hrow.
Qed.
(** A send that changed the timeline has claimed its key. *)
Lemma handle_wrote env dup file db io ev mid ret qr session req checked seen d s mem out d' s' mem' eff :
  handle env dup file db io ev mid ret qr session req checked seen d s mem = (out, d', s', mem', eff) ->
  reachable_timeline d -> is_u64 mid -> (forall r, r ∈ t_messages d -> r_message_id r <> as_i64 mid) -> d' <> d ->
  keyed (st_sv s) -> is_u64 (rq_channel_id req) ->
  exists sender device row, resolve_authenticated_sender session (rq_from_uid req) = Ok (sender, device) /\
    t_messages d' = t_messages d ++ [row] /\ r_message_id row = as_i64 mid /\ r_created_at row = timestamp_millis now /\ log_ok d' /\ rows_ok d' /\
    forall key, key_of sender device req = Some key -> t_dedup d' !! key = Some (r_message_id row, r_created_at row).
Proof.
  intros E [Hl Hr]%reachable_timeline_ok Hmid Hnew Hne Hkd Hch.
  apply handle_cases in E as [(-> & _)|(u & dev & ck & s1 & res & Hs & _ & Hck & Ht & _)]; [done|].
  apply check_send_Ok in Hck as (_ & Hid & _); [|done..].
  apply create_cases in Ht as [[-> _]|(row & cm & Hc & _)]; [done|]. pose proof (cd_written _ _ _ _ _ _ _ Hc) as Hm.
  exists u, dev, row. split_and!; [done|by rewrite (mw_messages _ _ _ _ Hm)|by rewrite (mw_id _ _ _ _ Hm)|by rewrite (mw_created _ _ _ _ Hm)| | |].
  - eapply log_ok_committed; [done| |done]. split; [done|]. simpl. by rewrite Hid.
  - by eapply rows_ok_committed; [| | | |exact Hc].
  - intros key Hk. by eapply committed_key.
Qed.
End SendProperties.

Section Retries.
Context `{P : ProtocolCrate, Ch : Chrono, Pg : Postgres, Co : !EventCodec, Sc : !SubmitCodec, Pl : !PayloadCodec, CT : !CommitText,
          OJ : OwnerJoins, Pj : PermissionColumn, deps : SendAuthorizationDeps, Pt : PgTime}.

(** What a claimed key finds later. *)
Lemma key_later d1 x row key : log_ok d1 -> rows_ok d1 -> row ∈ t_messages d1 -> t_dedup d1 !! key = Some (r_message_id row, r_created_at row) ->
  rtc (tl_step (fun t => t <= r_created_at row + RETENTION_MS)) d1 x ->
  exists r, rows_ok x /\ r ∈ t_messages x /\ t_dedup x !! key = Some (r_message_id r, r_created_at r) /\ dedup_row x key = Some r /\
    r_message_id r = r_message_id row /\ r_pts r = r_pts row.
Proof.
  intros Hl Hr Hin Hk Hs. destruct (steps_ok _ _ _ Hs (conj Hl Hr)) as [_ Hrx]. pose proof (steps_key_kept _ _ _ _ _ Hs Hk) as Hkx.
  destruct (steps_rows_kept _ _ _ Hs row Hin) as (r & Hinx & S). pose proof (sr_id _ _ S) as Hid. exists r.
  split_and!; [done..| | |done|apply S]; [by rewrite Hkx, Hid, (sr_created _ _ S)|].
  unfold dedup_row. rewrite Hkx. simpl. by rewrite <- Hid, (row_of_id_unique x r (ro_unique _ Hrx) Hinx).
Qed.

(** What happens between a send and its retry: steps of the timeline, and groups that
    are dissolved, with their messages. *)
Definition later_step (retention : Z -> Prop) (x y : TimelineDb) : Prop :=
  tl_step retention x y \/ exists gid, y = dissolve_timeline gid x.
Lemma later_key_kept at_ mid key d d' : rtc (later_step (fun now => now <= at_ + RETENTION_MS)) d d' ->
  t_dedup d !! key = Some (mid, at_) -> t_dedup d' !! key = Some (mid, at_).
Proof.
  induction 1 as [|d x d' [Hs|[gid ->]] _ IH]; [done| |]; intros Hk; apply IH.
  - by eapply steps_key_kept; [apply rtc_once|].
  - unfold dissolve_timeline. destruct (t_channels d !! gid) as [c|]; [|done]. by destruct (_ =? _).
Qed.

End Retries.

(** ** A concrete send

    User 1 creates the group 7 with user 2 and writes into it from the device "d". *)
#[local] Existing Instances no_owner_joins demo_protocol demo_codec demo_chrono demo_postgres run_permissions run_time sub_codec sub_text.
Definition send_codec : PayloadCodec := {|
  ct_kind := fun _ => KText; decode_payload := fun _ => None; payload_mentioned := fun _ => []; payload_source := fun _ => None;
  payload_with_content := fun _ s => s; payload_make := fun s _ _ _ => s; metadata_from_json_value := fun _ _ => None; role_original := 0;
  json_parse := fun _ => Err "not json"%string; json_to_string := Some; json_display := fun s => s; json_is_object := fun _ => false;
  json_get := fun _ _ => None; json_as_str := fun _ => None; json_as_u64 := fun _ => None; json_is_f64 := fun _ => false;
  local_envelope := fun _ => None
|}.
Definition send_deps : SendAuthorizationDeps := example_deps no_faults.
#[local] Existing Instances send_codec send_deps.
Definition send_world : World :=
  with_st (world_init run_users)
    (create_channel config_default no_io no_io no_io no_io 1000000 0 7 1 "key" run_group (w_state (world_init run_users))).2.
Lemma send_world_reachable : group_reachable run_user_type run_seconds run_known run_users send_world.
Proof. apply rtc_once. left. by apply GsCreate. Qed.
Definition send_tables : TimelineDb :=
  mkTimeline _ ∅ ∅ [] ∅ ∅ {[ 7 := mkTChannel 1 None None 0 None None ]} {[ (7, 1); (7, 2) ]} ∅ {[ 1; 2; 3 ]} [] ∅ ∅ ∅.
Lemma send_tables_reachable : reachable_timeline send_tables.
Proof.
  exists send_tables. split; [|apply rtc_refl]. split; try done. intros c ch Hc. unfold send_tables in Hc. simpl in Hc.
  apply lookup_singleton_Some in Hc as [_ <-]. done.
Qed.
Definition send_env : SendEnv := mkSendEnv true true false (fun _ => Ok None).
Definition send_memory : SendMemory := mkMemory (MessageHistory.history_new 100) Mentions.mentions_new PtsGenerator.pts_new empty_cache.
Definition send_text (text : string) : SendMessageRequest := mkSendRequest 1 9 0 7 0 text.
Definition run_send (uid : string) (now ev mid : Z) (req : SendMessageRequest) (checked d : TimelineDb) :=
  handle_send config_default (fun _ => no_io) now 0 send_env no_faults no_faults no_faults no_faults ev mid 7 "key" (Some (uid, "d"%string)) req
    checked checked d (w_state send_world) send_memory.
Definition send_first := run_send "1" 3000000 1 100 (send_text "hi") send_tables send_tables.
Definition send_db : TimelineDb := send_first.1.1.1.2.
Definition send_again := run_send "1" 4000000 2 101 (send_text "hi") send_db send_db.
Definition send_stranger := run_send "3" 3000000 1 100 (send_text "hi") send_tables send_tables.
(** A member without the right to mention everybody. *)
Definition send_shout := run_send "2" 3000000 1 100 (send_text "@all hi") send_tables send_tables.

Example send_first_reply :
  send_first.1.1.1.1 = Ok (mkSendResponse 1 100 1 None) /\ length (t_messages send_db) = 1%nat /\ length send_first.2 = 3%nat.
Proof. split; [|split]; vm_compute; reflexivity. Qed.
Example send_stranger_reply : send_stranger.1.1.1.1 = Ok (mkSendResponse 1 0 0 (Some "PermissionDenied"%string)).
Proof. vm_compute. reflexivity. Qed.
(** The refusal comes after the commit: the message is in the timeline and will be
    delivered, and its sender is told that it was not sent. *)
Example shout_is_kept :
  send_shout.1.1.1.1 = Ok (mkSendResponse 1 0 0 (Some "PermissionDenied"%string)) /\
  r_message_id <$> t_messages send_shout.1.1.1.2 = [100] /\ is_Some (t_outbox send_shout.1.1.1.2 !! 1).
Proof. split_and!; [vm_compute; reflexivity..|]. vm_compute. by eexists. Qed.

(** After the group is dissolved by the administration its keys are still there and its
    messages are not: a retry is answered with an error of the database. *)
Definition send_dissolved : TimelineDb := dissolve_timeline 7 send_db.
Example dissolved_retry_is_an_error :
  (run_send "1" 4000000 2 101 (send_text "hi") send_dissolved send_dissolved).1.1.1.1 = Ok (mkSendResponse 1 0 0 (Some "DatabaseError"%string)) /\
  length (t_messages send_dissolved) = 0%nat.
Proof. split; vm_compute; reflexivity. Qed.

(** User 1 hands the group to user 2 and the server restarts. The channel is loaded while
    the participants cannot be read, so it has no members; a message of user 1 makes the
    handler look for the participants again, where user 1 is still the owner, and join
    with that role: the table has two owners. *)
Definition handed_over_group : State :=
  mkState (st_db (handle_transfer_owner no_io 2000000 (run_ctx 1) 7 None 2 (w_state send_world)).2) service_new.
Definition participants_down (n : nat) : Io :=
  if decide (n = 0%nat) then mkIo (fun i => if decide (i = 1%nat) then Some "down"%string else None) (fun _ => false) else no_io.
Example old_owner_is_let_back_in :
  run_members handed_over_group 7 = [(1, 2); (2, 0)] /\
  run_members (resolve_channel participants_down 3000000 0 7 1 0 handed_over_group).2 7 = [(1, 0); (2, 0)].
Proof. split; vm_compute; reflexivity. Qed.

Lemma send_changed : send_db <> send_tables.
Proof. intros H. apply (f_equal (fun d => length (t_messages d))) in H. vm_compute in H. discriminate H. Qed.


Lemma send_replies_are_true_witness :
  exists row, row_of_send (Some ("1", "d")%string) (send_text "hi") 100 send_tables send_tables send_db row /\
    100 = as_u64 (r_message_id row) /\ 1 = as_u32 (as_u64 (Z.max 0 (r_pts row))).
Proof.
  assert (send_first.1.1.1.1 = Ok (mkSendResponse 1 100 1 None)) as E1 by (vm_compute; reflexivity).
  pose proof (send_replies_are_true config_default (fun _ => no_io) 3000000 0 run_user_type run_seconds run_known run_users send_world send_env
    no_faults no_faults no_faults no_faults 1 100 7 "key" (Some ("1", "d")%string) (send_text "hi") send_tables send_tables send_tables send_memory
    send_first.1.1.1.1 send_db send_first.1.1.2 send_first.1.2 send_first.2 send_world_reachable) as H.
  rewrite E1 in H. apply H; [unfold is_u64; lia|unfold is_u64; simpl; lia|].
  rewrite <- E1. unfold send_db, send_first, run_send. rewrite <- !surjective_pairing. reflexivity.
Defined.

