(* ===== verification/Connection.v ===== *)
(** * Connections

    Models [ConnectionManager] of src/src/infra/connection_manager.rs: index A, the
    routes of a user's devices, and index B, the life of every session; and the local
    part of [MessageRouter] of src/src/infra/message_router.rs.

    Both indexes are maps with a lock per entry, so the methods are written as the
    composition of their atomic accesses ([auth_bind], [auth_route], [take_entry],
    [unroute], [prune], ...): [ConnectionFacts.v] composes the same accesses as
    interleaved steps. A session is its number; what the transport answers is an
    argument; metrics and logs are left out. *)

From stdpp Require Import base numbers gmap list strings.
From S2P Require Import Prelude Payload.
Local Open Scope Z_scope.

Definition ROUTE_TIMEOUT_MS : Z := 5000.

Inductive SessionState := Connecting | Authenticated | Replaced | Closing | Closed.
#[export] Instance session_state_eq_dec : EqDecision SessionState.
Proof. solve_decision. Defined.
Definition is_deliverable (s : SessionState) : bool := bool_decide (s = Authenticated).

Record SessionEntry := mkEntry {
  en_session : Z; en_state : SessionState; en_user : option Z; en_device : option string; en_node : string;
  en_superseded_by : option Z; en_connected_at : Z; en_authenticated_at : option Z
}.
Definition entry_in (e : SessionEntry) (st : SessionState) : SessionEntry :=
  mkEntry (en_session e) st (en_user e) (en_device e) (en_node e) (en_superseded_by e) (en_connected_at e) (en_authenticated_at e).
Definition superseded (e : SessionEntry) (s : Z) : SessionEntry :=
  mkEntry (en_session e) (en_state e) (en_user e) (en_device e) (en_node e) (Some s) (en_connected_at e) (en_authenticated_at e).

Record ConnectionManager := mkConnections {
  cm_a : gmap Z (gmap string Z); cm_b : gmap Z SessionEntry; cm_total : Z; cm_node : string
}.
Definition new_with_node_id (node : string) : ConnectionManager := mkConnections ∅ ∅ 0 node.
Definition set_a (m : ConnectionManager) (a : gmap Z (gmap string Z)) : ConnectionManager := mkConnections a (cm_b m) (cm_total m) (cm_node m).
Definition set_b (m : ConnectionManager) (b : gmap Z SessionEntry) : ConnectionManager := mkConnections (cm_a m) b (cm_total m) (cm_node m).
Definition count_up (m : ConnectionManager) : ConnectionManager := mkConnections (cm_a m) (cm_b m) (u64_add (cm_total m) 1) (cm_node m).
Definition count_down (m : ConnectionManager) : ConnectionManager := mkConnections (cm_a m) (cm_b m) (u64_sub (cm_total m) 1) (cm_node m).
Definition route (m : ConnectionManager) (u : Z) (d : string) : option Z := cm_a m !! u ≫= fun ds => ds !! d.

(** ** The life of a session *)
Definition connecting_entry (now s : Z) (m : ConnectionManager) : SessionEntry := mkEntry s Connecting None None (cm_node m) None now None.
Definition register_connecting (now s : Z) (m : ConnectionManager) : ConnectionManager :=
  match cm_b m !! s with
  | Some _ => m
  | None => set_b m (<[s := connecting_entry now s m]> (cm_b m))
  end.

(** Step 1 of [authenticate], in index B. *)
Definition auth_bind (now s u : Z) (d : string) (m : ConnectionManager) : ConnectionManager :=
  let e := default (connecting_entry now s m) (cm_b m !! s) in
  set_b m (<[s := mkEntry (en_session e) Authenticated (Some u) (Some d) (cm_node m) (en_superseded_by e) (en_connected_at e) (Some now)]> (cm_b m)).
(** Step 2: the session that is replaced. *)
Definition replace_old (old s : Z) (m : ConnectionManager) : ConnectionManager :=
  match cm_b m !! old with
  | None => m
  | Some e =>
      if decide (en_state e = Authenticated)
      then count_down (set_b m (<[old := superseded (entry_in e Replaced) s]> (cm_b m)))
      else set_b m (<[old := superseded e s]> (cm_b m))
  end.
(** Steps 2 and 3, under the lock of the user's entry in index A. *)
Definition auth_route (s u : Z) (d : string) (m : ConnectionManager) : option Z * ConnectionManager :=
  let ds := default ∅ (cm_a m !! u) in
  let replaced := ds !! d ≫= fun old => if old =? s then None else Some old in
  let m1 := match replaced with Some old => replace_old old s m | None => m end in
  let m2 := set_a m1 (<[u := <[d := s]> ds]> (cm_a m1)) in
  (replaced, if decide (ds !! d = Some s) then m2 else count_up m2).
Definition authenticate (now s u : Z) (d : string) (m : ConnectionManager) : option Z * ConnectionManager :=
  auth_route s u d (auth_bind now s u d m).
(** [owner] is the answer of the registry of the cluster, if there is one; the result
    names the session to close. *)
Definition register_connection (now : Z) (owner : option (result unit string)) (u : Z) (d : string) (s : Z) (m : ConnectionManager)
    : result (option Z) string * ConnectionManager :=
  let '(replaced, m1) := authenticate now s u d (register_connecting now s m) in
  (match owner with Some (Err e) => Err e | _ => Ok replaced end, m1).

(** [unregister_connection]: index B, then index A, then the empty entry of the user
    and the counter. *)
Definition take_entry (s : Z) (m : ConnectionManager) : option SessionEntry * ConnectionManager :=
  (cm_b m !! s, set_b m (delete s (cm_b m))).
Definition unroute (s u : Z) (d : string) (m : ConnectionManager) : bool * ConnectionManager :=
  match cm_a m !! u with
  | None => (false, m)
  | Some ds => if decide (ds !! d = Some s) then (true, set_a m (<[u := delete d ds]> (cm_a m))) else (false, m)
  end.
Definition prune (u : Z) (m : ConnectionManager) : ConnectionManager :=
  match cm_a m !! u with
  | None => m
  | Some ds => if decide (ds = ∅) then set_a m (delete u (cm_a m)) else m
  end.
Definition unregister_connection (s : Z) (m : ConnectionManager) : option (Z * string) * ConnectionManager :=
  let '(o, m1) := take_entry s m in
  match o with
  | None => (None, m1)
  | Some e =>
      match en_user e, en_device e with
      | Some u, Some d =>
          let '(cleaned, m2) := unroute s u d m1 in
          let m3 := if cleaned then prune u m2 else m2 in
          (Some (u, d), if bool_decide (en_state e = Authenticated) && cleaned then count_down m3 else m3)
      | _, _ => (None, m1)
      end
  end.

(** The flip to [Closing] that takes a session out of delivery. *)
Definition mark_closing (s : Z) (m : ConnectionManager) : ConnectionManager :=
  match cm_b m !! s with
  | Some e => if decide (en_state e = Authenticated) then set_b m (<[s := entry_in e Closing]> (cm_b m)) else m
  | None => m
  end.
(** Also the session the transport is asked to close. *)
Definition disconnect_device (u : Z) (d : string) (m : ConnectionManager) : option Z * ConnectionManager :=
  match route m u d with
  | None => (None, m)
  | Some s =>
      let '(cleaned, m2) := unroute s u d (mark_closing s m) in
      (Some s, if cleaned then count_down (prune u m2) else m2)
  end.
Definition other_devices (u : Z) (current : string) (m : ConnectionManager) : list string :=
  filter (fun d => d <> current) (map_to_list (default ∅ (cm_a m !! u))).*1.
Definition disconnect_other_devices (u : Z) (current : string) (m : ConnectionManager) : list string * ConnectionManager :=
  let ds := other_devices u current m in (ds, foldl (fun m d => (disconnect_device u d m).2) m ds).

Definition stale (cutoff : Z) (p : Z * SessionEntry) : bool := bool_decide (en_state p.2 = Connecting) && (en_connected_at p.2 <? cutoff).
(** One candidate of the watchdog; whether its transport is to be closed. *)
Definition watchdog_mark (s : Z) (m : ConnectionManager) : bool * ConnectionManager :=
  match cm_b m !! s with
  | Some e => if decide (en_state e = Connecting) then (true, set_b m (<[s := entry_in e Closing]> (cm_b m))) else (false, m)
  | None => (false, m)
  end.
(** [closes] says which sessions the transport closes without an error. *)
Definition cleanup_stale_connecting (now timeout_secs : Z) (closes : Z -> bool) (m : ConnectionManager) : nat * ConnectionManager :=
  if timeout_secs =? 0 then (0%nat, m)
  else
    let cutoff := i64_wrap (now - as_i64 (as_u64 (timeout_secs * 1000))) in
    foldl (fun acc s => let '(hit, m') := watchdog_mark s acc.2 in ((if hit && closes s then S acc.1 else acc.1), m'))
      (0%nat, m) (en_session <$> (filter (fun p => stale cutoff p = true) (map_to_list (cm_b m))).*2).
(** The session the transport, when it is set, is asked to close, and the tables: only an
    authenticated session is marked, a connecting one stays as it is until its transport
    reports the end. *)
Definition force_close_session (transport : bool) (s : Z) (m : ConnectionManager) : option Z * ConnectionManager :=
  (if transport then Some s else None, mark_closing s m).

(** ** Queries *)
Record DeviceConnection := mkConnection { dc_user : Z; dc_device : string; dc_session : Z; dc_node : string; dc_connected_at : Z }.
Definition connection_of (m : ConnectionManager) (u : Z) (p : string * Z) : option DeviceConnection :=
  e ← cm_b m !! p.2; if decide (en_state e = Authenticated) then Some (mkConnection u p.1 p.2 (en_node e) (en_connected_at e)) else None.
Definition get_user_connections (u : Z) (m : ConnectionManager) : list DeviceConnection :=
  match cm_a m !! u with None => [] | Some ds => omap (connection_of m u) (map_to_list ds) end.
Definition get_connection_by_session (s : Z) (m : ConnectionManager) : option DeviceConnection :=
  e ← cm_b m !! s;
  if decide (en_state e = Authenticated) then u ← en_user e; d ← en_device e; Some (mkConnection u d s (en_node e) (en_connected_at e)) else None.
Definition get_connection_count (m : ConnectionManager) : Z := cm_total m.
Definition online_users_count (m : ConnectionManager) : nat := size (cm_a m).
Definition get_all_connections (m : ConnectionManager) : list DeviceConnection :=
  map_to_list (cm_a m) ≫= fun p => omap (connection_of m p.1) (map_to_list p.2).
Definition is_device_online (u : Z) (d : string) (m : ConnectionManager) : bool :=
  match route m u d with Some s => default false ((fun e => bool_decide (en_state e = Authenticated)) <$> cm_b m !! s) | None => false end.
(** The second check of delivery. *)
Definition live (e : SessionEntry) : bool := bool_decide (en_state e = Authenticated) && bool_decide (en_superseded_by e = None).
Definition has_authenticated_connection (u : Z) (m : ConnectionManager) : bool :=
  match cm_a m !! u with
  | None => false
  | Some ds => existsb (fun p => default false (live <$> cm_b m !! p.2)) (map_to_list ds)
  end.

(** ** The self check *)
Record ConsistencyReport := mkConsistency {
  orphan_routes : list (Z * string * Z); illegal_state_routes : list (Z * string * Z * SessionState); missing_routes : list (Z * string * Z)
}.
Definition is_clean (r : ConsistencyReport) : bool :=
  match orphan_routes r, illegal_state_routes r, missing_routes r with [], [], [] => true | _, _, _ => false end.
Definition all_routes (m : ConnectionManager) : list (Z * string * Z) :=
  map_to_list (cm_a m) ≫= fun p => (fun q : string * Z => (p.1, q.1, q.2)) <$> map_to_list p.2.
Definition orphan (m : ConnectionManager) (r : Z * string * Z) : bool := bool_decide (cm_b m !! r.2 = None).
Definition illegal (m : ConnectionManager) (r : Z * string * Z) : option (Z * string * Z * SessionState) :=
  e ← cm_b m !! r.2; if live e then None else Some (r, en_state e).
Definition missing (m : ConnectionManager) (e : SessionEntry) : option (Z * string * Z) :=
  if decide (en_state e = Authenticated) then
    u ← en_user e; d ← en_device e;
    if decide (route m u d = Some (en_session e)) then None else Some (u, d, en_session e)
  else None.
Definition self_check (m : ConnectionManager) : ConsistencyReport :=
  mkConsistency (filter (fun r => orphan m r = true) (all_routes m)) (omap (illegal m) (all_routes m)) (omap (missing m) (map_to_list (cm_b m)).*2).

(** ** Delivery *)
Inductive DeliveryFailureClassification :=
| RouteTimeout | DeadConnection | SlowConsumer | RetryableTransport | PermanentTransport | TransportUnavailable | RemoteOwnerUnsupported
| ProtocolAckRejected | ProtocolAckMalformed.
#[export] Instance classification_eq_dec : EqDecision DeliveryFailureClassification.
Proof. solve_decision. Defined.
Definition metric_label (c : DeliveryFailureClassification) : string :=
  match c with
  | RouteTimeout => "route_timeout" | DeadConnection => "dead_connection" | SlowConsumer => "slow_consumer"
  | RetryableTransport => "retryable_transport" | PermanentTransport => "permanent_transport"
  | TransportUnavailable => "transport_unavailable" | RemoteOwnerUnsupported => "remote_owner_unsupported"
  | ProtocolAckRejected => "protocol_ack_rejected" | ProtocolAckMalformed => "protocol_ack_malformed"
  end.
Record FailedSessionDelivery := mkFailed {
  fd_session : Z; fd_node : string; fd_class : DeliveryFailureClassification; fd_detail : string; fd_cleaned_up : bool
}.
(** The counts by class are kept under the label of the class. *)
Record DeliveryReport := mkDelivery {
  dr_attempted : nat; dr_successful : list Z; dr_acknowledged : list Z; dr_failed : list FailedSessionDelivery; dr_classes : gmap string nat
}.
Definition empty_report : DeliveryReport := mkDelivery 0 [] [] [] ∅.
Definition successful_count (r : DeliveryReport) : nat := length (dr_successful r).
Definition failed_count (r : DeliveryReport) : nat := length (dr_failed r).
Definition acknowledged_count (r : DeliveryReport) : nat := length (dr_acknowledged r).
Definition push_failure (r : DeliveryReport) (f : FailedSessionDelivery) : DeliveryReport :=
  let k := metric_label (fd_class f) in
  mkDelivery (dr_attempted r) (dr_successful r) (dr_acknowledged r) (dr_failed r ++ [f]) (<[k := S (default 0%nat (dr_classes r !! k))]> (dr_classes r)).
Definition push_success (r : DeliveryReport) (s : Z) (acknowledged : bool) : DeliveryReport :=
  mkDelivery (dr_attempted r) (dr_successful r ++ [s]) (dr_acknowledged r ++ (if acknowledged then [s] else [])) (dr_failed r) (dr_classes r).

(** The transport: the variants of its errors the code tells apart, and the decoder of
    acknowledgements (success and text). *)
Inductive TransportKind := KConnection (retryable : bool) | KResource (resource : string) | KConfiguration | KOther.
Class Transport := {
  TransportError : Type;
  transport_kind : TransportError -> TransportKind;
  transport_display : TransportError -> string;
  decode_ack : string -> result (bool * option string) string
}.

Section Delivery.
Context `{T : Transport}.

Definition classify_transport_error (e : TransportError) : DeliveryFailureClassification :=
  match transport_kind e with
  | KConnection false => DeadConnection
  | KResource r => if contains "outbound_queue" r then SlowConsumer else RetryableTransport
  | KConfiguration => PermanentTransport
  | KConnection true | KOther => RetryableTransport
  end.
Inductive SessionAttemptOutcome := Success (acknowledged : bool) | Failure (c : DeliveryFailureClassification) (detail : string).
Inductive SessionSendFailure := SfTransport (e : TransportError) | SfClassified (c : DeliveryFailureClassification) (detail : string).

(** What the transport answers: to a plain write, and to a request, whose task may
    fail. [None] is no answer before the deadline. *)
Record Answers := mkAnswers {
  send_with_options : Z -> option (result unit TransportError);
  request_with_options : Z -> option (result (result string TransportError) string)
}.
Definition route_send (x : Answers) (receipt_required : bool) (s : Z) : option (result bool SessionSendFailure) :=
  if negb receipt_required then
    (fun r => match r with Ok _ => Ok false | Err e => Err (SfTransport e) end) <$> send_with_options x s
  else
    (fun r =>
       match r with
       | Err e => Err (SfClassified RetryableTransport ("protocol ACK task failed: " +:+ e))
       | Ok (Err e) => Err (SfTransport e)
       | Ok (Ok response) =>
           match decode_ack response with
           | Err e => Err (SfClassified ProtocolAckMalformed ("invalid PushMessageResponse: " +:+ e))
           | Ok (false, text) => Err (SfClassified ProtocolAckRejected (default "receiver rejected delivery ACK"%string text))
           | Ok (true, _) => Ok true
           end
       end) <$> request_with_options x s.
Definition attempt (x : Answers) (receipt_required : bool) (s : Z) : SessionAttemptOutcome :=
  match route_send x receipt_required s with
  | Some (Ok acknowledged) => Success acknowledged
  | Some (Err (SfTransport e)) => Failure (classify_transport_error e) (transport_display e)
  | Some (Err (SfClassified c detail)) => Failure c detail
  | None => Failure RouteTimeout ("route timeout after " +:+ u64_to_string ROUTE_TIMEOUT_MS +:+ "ms")
  end.

(** Failures that show a dead connection close it and unregister it. *)
Definition dead (c : DeliveryFailureClassification) : bool := bool_decide (c = DeadConnection \/ c = SlowConsumer \/ c = RouteTimeout).
Definition apply_attempt (owners : gmap Z string) (acc : DeliveryReport * ConnectionManager) (p : Z * SessionAttemptOutcome)
    : DeliveryReport * ConnectionManager :=
  let '(r, m) := acc in
  match p.2 with
  | Success acknowledged => (push_success r p.1 acknowledged, m)
  | Failure c detail =>
      let '(cleaned, m') :=
        if dead c then let '(o, m1) := unregister_connection p.1 (force_close_session true p.1 m).2 in (bool_decide (is_Some o), m1) else (false, m) in
      (push_failure r (mkFailed p.1 (default (cm_node m) (owners !! p.1)) c detail cleaned), m')
  end.
Definition apply_delivery_attempts (owners : gmap Z string) (attempts : list (Z * SessionAttemptOutcome)) (r : DeliveryReport) (m : ConnectionManager)
    : DeliveryReport * ConnectionManager := foldl (apply_attempt owners) (r, m) attempts.

Definition live_session (m : ConnectionManager) (p : string * Z) : option (Z * string) :=
  e ← cm_b m !! p.2; if live e then Some (p.2, en_node e) else None.
Definition live_sessions (u : Z) (m : ConnectionManager) : list (Z * string) :=
  match cm_a m !! u with None => [] | Some ds => omap (live_session m) (map_to_list ds) end.
(** [transport] is [None] before it is set; [encoded] is the encoding of the push;
    [arrange] is the order in which the attempts finish. *)
Definition send_push_to_user (transport : option Answers) (encoded : result unit string) (receipt_required : bool)
    (arrange : list (Z * SessionAttemptOutcome) -> list (Z * SessionAttemptOutcome)) (u : Z) (m : ConnectionManager)
    : result DeliveryReport string * ConnectionManager :=
  match live_sessions u m with
  | [] => (Ok empty_report, m)
  | sessions =>
      let local := filter (fun p : Z * string => p.2 = cm_node m) sessions in
      let remote := filter (fun p : Z * string => p.2 <> cm_node m) sessions in
      let r0 := mkDelivery (length sessions) [] [] [] ∅ in
      let r1 := foldl (fun r p => push_failure r (mkFailed p.1 p.2 RemoteOwnerUnsupported "cross-node dispatch is reserved for CODEX-11" false)) r0 remote in
      match transport with
      | None => (Ok (foldl (fun r p => push_failure r (mkFailed p.1 p.2 TransportUnavailable "TransportServer is not configured" false)) r1 local), m)
      | Some x =>
          match encoded with
          | Err e => (Err ("encode PushMessageRequest failed: " +:+ e), m)
          | Ok _ =>
              let attempts := arrange ((fun p : Z * string => (p.1, attempt x receipt_required p.1)) <$> local) in
              let '(r, m') := apply_delivery_attempts (list_to_map local) attempts r1 m in (Ok r, m')
          end
      end
  end.

(** A push to one session waits for the write, so its answer has no deadline. *)
Definition send_push_on_session (transport : option (Z -> result unit TransportError)) (encoded : result unit string) (s : Z) : result nat string :=
  match transport with
  | None => Ok 0%nat
  | Some x =>
      match encoded with
      | Err e => Err ("encode PushMessageRequest failed: " +:+ e)
      | Ok _ => Ok (match x s with Ok _ => 1%nat | Err _ => 0%nat end)
      end
  end.
Definition send_push_to_session (transport : option (Z -> result unit TransportError)) (encoded : result unit string) (s : Z) (m : ConnectionManager) : result nat string :=
  match cm_b m !! s with
  | Some e => if live e then send_push_on_session transport encoded s else Ok 0%nat
  | None => Ok 0%nat
  end.
Definition send_push_to_device (transport : option (Z -> result unit TransportError)) (encoded : result unit string) (u : Z) (d : string) (m : ConnectionManager) : result nat string :=
  match route m u d with
  | Some s => send_push_to_session transport encoded s m
  | None => Ok 0%nat
  end.
Definition send_unauth_event_to_session (transport : option (Z -> result unit TransportError)) (encoded : result unit string) (s : Z) : result nat string :=
  send_push_on_session transport encoded s.

(** ** The router

    [remote] is the answer of the bus between nodes, if there is one. *)
Record RemoteDispatchOutcome := mkRemote { ro_attempted : nat; ro_successful : list Z; ro_acknowledged : list Z; ro_failed : nat }.
Record RouteResult := mkRouted { rr_success : nat; rr_failed : nat; rr_offline : nat; rr_report : option DeliveryReport }.
Definition add_remote (r : DeliveryReport) (o : RemoteDispatchOutcome) : DeliveryReport :=
  mkDelivery (dr_attempted r + ro_attempted o) (dr_successful r ++ ro_successful o) (dr_acknowledged r ++ ro_acknowledged o) (dr_failed r) (dr_classes r).
Definition offline_if_none (n : nat) : nat := if Nat.eqb n 0 then 1%nat else 0%nat.
Definition route_message_to_user (transport : option Answers) (encoded : result unit string) (receipt_required : bool)
    (arrange : list (Z * SessionAttemptOutcome) -> list (Z * SessionAttemptOutcome)) (remote : option (result (list RemoteDispatchOutcome) string))
    (u : Z) (m : ConnectionManager) : result RouteResult string * ConnectionManager :=
  match send_push_to_user transport encoded receipt_required arrange u m with
  | (Err e, m') => (Err e, m')
  | (Ok r, m') =>
      ((let? outs := match remote with Some x => x | None => Ok [] end in
        let r' := foldl add_remote r outs in
        let n := successful_count r' in
        Ok (mkRouted n (failed_count r' + sum_list (ro_failed <$> outs)) (offline_if_none n) (Some r'))), m')
  end.
Definition route_message_to_device (transport : option (Z -> result unit TransportError)) (encoded : result unit string) (u : Z) (d : string) (m : ConnectionManager)
    : result RouteResult string :=
  let? n := send_push_to_device transport encoded u d m in Ok (mkRouted n 0 (offline_if_none n) None).
Definition parse_session_id (raw : string) : option Z := parse_u64 (default raw (strip_prefix "session-" raw)).
Definition route_message_to_session (transport : option (Z -> result unit TransportError)) (encoded : result unit string) (raw : string) (m : ConnectionManager)
    : result RouteResult string :=
  match parse_session_id raw with
  | None => Ok (mkRouted 0 1 0 None)
  | Some s => let? n := send_push_to_session transport encoded s m in Ok (mkRouted n 0 0 None)
  end.
End Delivery.
