(* ===== verification/ConnectionFacts.v ===== *)
(** * Connections: properties

    The two indexes agree after any calls, so that a user is online exactly while one of
    its sessions is; and whatever calls interleave, a push only reaches sessions of its
    user. *)

From stdpp Require Import base numbers gmap list sorting strings relations.
From S2P Require Import Prelude Payload Connection.
Local Open Scope Z_scope.

(** ** The routes of index A *)
Definition weight (a : gmap Z (gmap string Z)) : nat := map_fold (fun _ ds n => (size ds + n)%nat) 0%nat a.
Lemma weight_delete a u ds : a !! u = Some ds -> weight a = (size ds + weight (delete u a))%nat.
Proof. intros H. unfold weight. apply (map_fold_delete_L (fun _ (ds : gmap string Z) n => (size ds + n)%nat) 0%nat u ds a); [|done]. intros. lia. Qed.
Lemma weight_fresh a u ds : a !! u = None -> weight (<[u := ds]> a) = (size ds + weight a)%nat.
Proof. intros H. unfold weight. apply (map_fold_insert_L (fun _ (ds : gmap string Z) n => (size ds + n)%nat) 0%nat u ds a); [|done]. intros. lia. Qed.
Lemma weight_insert a u ds : weight (<[u := ds]> a) = (size ds + weight (delete u a))%nat.
Proof. rewrite <- insert_delete_eq. apply weight_fresh. apply lookup_delete_eq. Qed.
Lemma weight_split a u : weight a = (size (default ∅ (a !! u)) + weight (delete u a))%nat.
Proof.
  destruct (a !! u) as [ds|] eqn:E; simpl; [by apply weight_delete|]. rewrite delete_id by done. rewrite map_size_empty. lia.
Qed.

Lemma route_insert m a u ds u' d : cm_a m = <[u := ds]> a -> route m u' d = if decide (u' = u) then ds !! d else a !! u' ≫= fun x => x !! d.
Proof. unfold route. intros ->. case_decide as E; [subst; by rewrite lookup_insert_eq|by rewrite lookup_insert_ne]. Qed.
Lemma route_default m u d : route m u d = default ∅ (cm_a m !! u) !! d.
Proof. unfold route. destruct (cm_a m !! u); simpl; [done|by rewrite lookup_empty]. Qed.

(** ** The invariant *)
Record routed (m : ConnectionManager) (u : Z) (d : string) (s : Z) (e : SessionEntry) : Prop := {
  rt_entry : cm_b m !! s = Some e;
  rt_user : en_user e = Some u;
  rt_device : en_device e = Some d;
  rt_live : en_superseded_by e = None;
  rt_state : en_state e = Authenticated \/ en_state e = Closing
}.
Record conn_ok (m : ConnectionManager) : Prop := {
  ok_routes : forall u d s, route m u d = Some s -> exists e, routed m u d s e;
  ok_live : forall s e, cm_b m !! s = Some e -> en_state e = Authenticated -> exists u d, en_user e = Some u /\ en_device e = Some d /\ route m u d = Some s;
  ok_session : forall s e, cm_b m !! s = Some e -> en_session e = s;
  ok_nonempty : forall u ds, cm_a m !! u = Some ds -> ds <> ∅;
  ok_count : Z.of_nat (weight (cm_a m)) <= cm_total m <= u64_max
}.
Lemma conn_ok_new node : conn_ok (new_with_node_id node).
Proof. split; simpl; try done. Qed.

(** A change of index B that leaves what the invariant speaks of. *)
Lemma same_routes_ok m b : conn_ok m ->
  (forall u d s e, route m u d = Some s -> routed m u d s e -> exists e', b !! s = Some e' /\ en_user e' = Some u /\ en_device e' = Some d /\ en_superseded_by e' = None /\
     (en_state e' = Authenticated \/ en_state e' = Closing)) ->
  (forall s e, b !! s = Some e -> en_session e = s /\
     (en_state e = Authenticated -> exists u d, en_user e = Some u /\ en_device e = Some d /\ route m u d = Some s)) ->
  conn_ok (set_b m b).
Proof.
  intros Hok H1 H2. split; simpl.
  - intros u d s Hr. destruct (ok_routes _ Hok u d s Hr) as [e He]. destruct (H1 _ _ _ _ Hr He) as (e' & ? & ? & ? & ? & ?). by exists e'; split.
  - intros s e Hb. by destruct (H2 s e Hb).
  - intros s e Hb. by destruct (H2 s e Hb) as [H _].
  - apply (ok_nonempty _ Hok).
  - apply (ok_count _ Hok).
Qed.
Lemma insert_ok m s e e0 : conn_ok m -> cm_b m !! s = Some e0 -> en_session e = s -> en_user e = en_user e0 -> en_device e = en_device e0 ->
  en_superseded_by e = en_superseded_by e0 -> en_state e = Closing -> conn_ok (set_b m (<[s := e]> (cm_b m))).
Proof.
  intros Hok Hb Hs Hu Hd Hsb Hst. apply same_routes_ok; [done| |].
  - intros u d s' e' _ R. destruct (decide (s' = s)) as [->|Hne].
    + exists e. rewrite lookup_insert_eq. destruct R as [Hb' ????]. rewrite Hb in Hb'. injection Hb' as <-. split_and!; try congruence. by right.
    + exists e'. rewrite lookup_insert_ne by done. by destruct R.
  - intros s' e' [[<- <-]|[Hne Hb']]%lookup_insert_Some; [split; [done|congruence]|].
    split; [by apply (ok_session _ Hok)|by apply (ok_live _ Hok)].
Qed.
Lemma mark_closing_ok s m : conn_ok m -> conn_ok (mark_closing s m).
Proof.
  intros Hok. unfold mark_closing. destruct (cm_b m !! s) as [e|] eqn:E; [|done]. case_decide; [|done].
  eapply insert_ok; try done. simpl. by apply (ok_session _ Hok).
Qed.
Lemma watchdog_ok s m : conn_ok m -> conn_ok (watchdog_mark s m).2.
Proof.
  intros Hok. unfold watchdog_mark. destruct (cm_b m !! s) as [e|] eqn:E; [|done]. case_decide; [|done].
  eapply insert_ok; try done. simpl. by apply (ok_session _ Hok).
Qed.
Lemma register_connecting_ok now s m : conn_ok m -> conn_ok (register_connecting now s m).
Proof.
  intros Hok. unfold register_connecting. destruct (cm_b m !! s) as [e|] eqn:E; [done|]. apply same_routes_ok; [done| |].
  - intros u d s' e' _ R. exists e'. destruct (decide (s' = s)) as [->|]; [destruct R; congruence|]. rewrite lookup_insert_ne by done. by destruct R.
  - intros s' e' [[<- <-]|[Hne Hb']]%lookup_insert_Some; [done|]. split; [by apply (ok_session _ Hok)|by apply (ok_live _ Hok)].
Qed.

(** ** Removing a route *)
Definition removed (s u : Z) (d : string) (m m' : ConnectionManager) : Prop :=
  cm_b m' = cm_b m /\ cm_total m' = cm_total m /\ cm_node m' = cm_node m /\
  (forall u' d', route m' u' d' = if decide (u' = u /\ d' = d) then None else route m u' d') /\
  S (weight (cm_a m')) = weight (cm_a m) /\
  ((forall u ds, cm_a m !! u = Some ds -> ds <> ∅) -> forall u ds, cm_a m' !! u = Some ds -> ds <> ∅).
Lemma unroute_removed s u d m : route m u d = Some s -> exists m2, unroute s u d m = (true, m2) /\ removed s u d m (prune u m2).
Proof.
  intros Hr. unfold route in Hr. destruct (cm_a m !! u) as [ds|] eqn:E; [|done]. simpl in Hr. unfold unroute. rewrite E, decide_True by done.
  eexists. split; [done|]. unfold prune. simpl. rewrite lookup_insert_eq.
  assert (weight (cm_a m) = S (size (delete d ds) + weight (delete u (cm_a m)))) as Hw.
  { rewrite (weight_delete _ _ _ E), map_size_delete, Hr. simpl. destruct (size ds) eqn:Hs; [|lia]. apply map_size_empty_inv in Hs. subst. by rewrite lookup_empty in Hr. }
  case_decide as He.
  - repeat split; simpl; try done.
    + intros u' d'. unfold route. simpl. rewrite delete_insert_eq. case_decide as Hd.
      * destruct Hd as [-> ->]. by rewrite lookup_delete_eq.
      * destruct (decide (u' = u)) as [->|]; [|by rewrite lookup_delete_ne]. rewrite lookup_delete_eq, E. simpl.
        destruct (decide (d' = d)) as [->|]; [tauto|]. rewrite <- (lookup_delete_ne ds d d') by done. by rewrite He, lookup_empty.
    + rewrite delete_insert_eq, Hw, He, map_size_empty. lia.
    + intros Hne u' ds' [Hnu H]%lookup_delete_Some. apply lookup_insert_Some in H as [[Hu _]|[_ H]]; [congruence|by eapply Hne].
  - repeat split; simpl; try done.
    + intros u' d'. rewrite (route_insert (set_a m (<[u := delete d ds]> (cm_a m))) (cm_a m) u (delete d ds) u' d' eq_refl). case_decide as Hu; [subst u'|by rewrite decide_False by tauto].
      unfold route. rewrite E. simpl. destruct (decide (d' = d)) as [->|]; [by rewrite decide_True, lookup_delete_eq|].
      rewrite decide_False by tauto. by rewrite lookup_delete_ne.
    + rewrite weight_insert. lia.
    + intros Hne u' ds' [[<- <-]|[_ H]]%lookup_insert_Some; [done|by eapply Hne].
Qed.
Lemma unroute_other s u d m : route m u d <> Some s -> unroute s u d m = (false, m).
Proof. unfold route, unroute. intros H. destruct (cm_a m !! u) as [ds|]; [|done]. by rewrite decide_False. Qed.

(** What is left after a route has gone and its session can no longer be delivered to. *)
Lemma removed_ok s u d m b m' : conn_ok m -> removed s u d (set_b m b) m' -> route m u d = Some s ->
  (forall s', s' <> s -> b !! s' = cm_b m !! s') -> (forall e, b !! s = Some e -> en_session e = s /\ en_state e <> Authenticated) ->
  conn_ok m' /\ conn_ok (count_down m').
Proof.
  intros Hok (Hb & Ht & _ & Hr & Hw & Hne) Hroute Hsame Hs. simpl in *. assert (Hcm : conn_ok m').
  { split.
    - intros u' d' s'. rewrite Hr. case_decide as Hd; [done|]. intros Hr'. destruct (ok_routes _ Hok u' d' s' Hr') as [e R]. exists e.
      assert (s' <> s) as Hns. { intros ->. destruct (ok_routes _ Hok u d s Hroute) as [e' R']. destruct R, R'. apply Hd. split; congruence. }
      destruct R. split; try done. by rewrite Hb, Hsame.
    - intros s' e. rewrite Hb. intros He Ha. destruct (decide (s' = s)) as [->|Hns]; [by destruct (Hs e He)|]. rewrite Hsame in He by done.
      destruct (ok_live _ Hok s' e He Ha) as (u' & d' & Hu & Hd & Hr'). exists u', d'. split_and!; [done..|]. rewrite Hr. case_decide as Hx; [|done].
      destruct Hx as [-> ->]. congruence.
    - intros s' e. rewrite Hb. intros He. destruct (decide (s' = s)) as [->|Hns]; [by destruct (Hs e He)|]. rewrite Hsame in He by done. by apply (ok_session _ Hok).
    - apply Hne. apply (ok_nonempty _ Hok).
    - rewrite Ht. pose proof (ok_count _ Hok). lia. }
  split; [done|]. destruct Hcm as [C1 C2 C3 C4 C5]. split; [|apply C2|apply C3|apply C4|].
  { intros u' d' s' H. destruct (C1 u' d' s' H) as [e []]. by exists e. }
  cbn. rewrite Ht. pose proof (ok_count _ Hok) as Hc. unfold u64_sub.
  rewrite Z.mod_small; unfold u64_max in *; lia.
Qed.

(** A session without routes leaves. *)
Lemma drop_ok s m : conn_ok m -> (forall u d, route m u d <> Some s) -> conn_ok (set_b m (delete s (cm_b m))).
Proof.
  intros Hok Hno. apply same_routes_ok; [done| |].
  - intros u d s' e Hr R. exists e. assert (s' <> s) by (intros ->; by eapply Hno). rewrite lookup_delete_ne by done. by destruct R.
  - intros s' e [Hns He]%lookup_delete_Some. split; [by apply (ok_session _ Hok)|by apply (ok_live _ Hok)].
Qed.
Lemma unregister_ok s m : conn_ok m -> conn_ok (unregister_connection s m).2.
Proof.
  intros Hok. unfold unregister_connection, take_entry. destruct (cm_b m !! s) as [e|] eqn:E.
  2: { simpl. apply drop_ok; [done|]. intros u d Hr. destruct (ok_routes _ Hok _ _ _ Hr) as [e []]. congruence. }
  assert (forall u d, route m u d = Some s -> en_user e = Some u /\ en_device e = Some d) as Hof.
  { intros u d Hr. destruct (ok_routes _ Hok _ _ _ Hr) as [e' []]. split; congruence. }
  destruct (en_user e) as [u|] eqn:Eu, (en_device e) as [d|] eqn:Ed; try (apply drop_ok; [done|]; intros u' d' Hr; by destruct (Hof _ _ Hr)).
  destruct (decide (route m u d = Some s)) as [Hr|Hr].
  - destruct (unroute_removed s u d (set_b m (delete s (cm_b m)))) as (m2 & -> & Hrem); [done|].
    destruct (removed_ok s u d m _ _ Hok Hrem Hr) as [H1 H2]; [intros; by rewrite lookup_delete_ne|intros ?; by rewrite lookup_delete_eq|].
    rewrite andb_true_r. by destruct (bool_decide _).
  - rewrite unroute_other by done. rewrite andb_false_r. simpl. apply drop_ok; [done|]. intros u' d' Hr'. destruct (Hof _ _ Hr'). congruence.
Qed.
Lemma kick_ok u d m : conn_ok m -> conn_ok (disconnect_device u d m).2.
Proof.
  intros Hok. unfold disconnect_device. destruct (route m u d) as [s|] eqn:Hr; [|done].
  destruct (ok_routes _ Hok _ _ _ Hr) as [e R]. pose proof (rt_entry _ _ _ _ _ R) as He.
  assert (exists b, mark_closing s m = set_b m b /\ (forall s', s' <> s -> b !! s' = cm_b m !! s') /\
    forall e', b !! s = Some e' -> en_session e' = s /\ en_state e' <> Authenticated) as (b & Hb & Hsame & Hs).
  { unfold mark_closing. rewrite He. case_decide as Hst.
    - eexists. split; [done|]. split; [intros; by rewrite lookup_insert_ne|]. intros e'. rewrite lookup_insert_eq. intros [= <-]. simpl. split; [by apply (ok_session _ Hok s e)|done].
    - exists (cm_b m). split; [by destruct m|]. split; [done|]. intros e' He'. rewrite He in He'. injection He' as <-. split; [by apply (ok_session _ Hok)|done]. }
  rewrite Hb. destruct (unroute_removed s u d (set_b m b)) as (m2 & -> & Hrem); [done|]. by destruct (removed_ok s u d m b _ Hok Hrem Hr).
Qed.
Lemma disconnect_others_ok u d m : conn_ok m -> conn_ok (disconnect_other_devices u d m).2.
Proof. unfold disconnect_other_devices. simpl. generalize (other_devices u d m) as l. intros l. revert m. induction l; intros m Hok; simpl; [done|]. by apply IHl, kick_ok. Qed.
Lemma watchdog_cleanup_ok now t closes m : conn_ok m -> conn_ok (cleanup_stale_connecting now t closes m).2.
Proof.
  intros Hok. unfold cleanup_stale_connecting. destruct (t =? 0); [done|]. cbv zeta. generalize 0%nat as n.
  generalize (en_session <$> (filter (fun p => stale (i64_wrap (now - as_i64 (as_u64 (t * 1000)))) p = true) (map_to_list (cm_b m))).*2) as l.
  intros l. revert m Hok. induction l as [|s l IH]; intros m Hok n; [done|]. cbn [foldl]. simpl. pose proof (watchdog_ok s m Hok) as Hw.
  destruct (watchdog_mark s m) as [hit m']. by apply IH.
Qed.

(** ** Authentication

    A session that is bound keeps its user and device, and one that was replaced does
    not authenticate again. *)
Definition may_authenticate (s u : Z) (d : string) (m : ConnectionManager) : Prop :=
  cm_total m < u64_max /\
  match cm_b m !! s with
  | None => True
  | Some e => en_superseded_by e = None /\ (en_user e = None \/ en_user e = Some u /\ en_device e = Some d)
  end.

Lemma auth_bind_entry now s u d m : cm_b (auth_bind now s u d m) !! s =
  Some (mkEntry (en_session (default (connecting_entry now s m) (cm_b m !! s))) Authenticated (Some u) (Some d) (cm_node m)
    (en_superseded_by (default (connecting_entry now s m) (cm_b m !! s))) (en_connected_at (default (connecting_entry now s m) (cm_b m !! s))) (Some now)).
Proof. simpl. by rewrite lookup_insert_eq. Qed.
Lemma weight_set_route a u d (s : Z) :
  weight (<[u := <[d := s]> (default ∅ (a !! u))]> a) = match default ∅ (a !! u) !! d with Some _ => weight a | None => S (weight a) end.
Proof. rewrite weight_insert, (weight_split a u), map_size_insert. destruct (default ∅ (a !! u) !! d); simpl; lia. Qed.
Definition bound_entry (now s u : Z) (d : string) (m : ConnectionManager) : SessionEntry :=
  let e := default (connecting_entry now s m) (cm_b m !! s) in
  mkEntry (en_session e) Authenticated (Some u) (Some d) (cm_node m) (en_superseded_by e) (en_connected_at e) (Some now).
Definition outdated (s : Z) (e : SessionEntry) : SessionEntry :=
  superseded (if decide (en_state e = Authenticated) then entry_in e Replaced else e) s.
Record authenticated (now s u : Z) (d : string) (m m' : ConnectionManager) : Prop := {
  au_a : cm_a m' = <[u := <[d := s]> (default ∅ (cm_a m !! u))]> (cm_a m);
  au_self : cm_b m' !! s = Some (bound_entry now s u d m);
  au_old : forall s', s' <> s -> cm_b m' !! s' = if decide (route m u d = Some s') then outdated s <$> cm_b m !! s' else cm_b m !! s';
  au_total : cm_total m' = match route m u d with
    | Some old =>
        if decide (old = s) then cm_total m
        else u64_add (if decide (en_state <$> cm_b m !! old = Some Authenticated) then u64_sub (cm_total m) 1 else cm_total m) 1
    | None => u64_add (cm_total m) 1 end
}.
Lemma authenticate_spec now s u d m : authenticated now s u d m (authenticate now s u d m).2.
Proof.
  unfold authenticate, auth_route. change (cm_a (auth_bind now s u d m)) with (cm_a m). rewrite <- (route_default m u d).
  destruct (route m u d) as [old|] eqn:Hr; simpl.
  2: { split; simpl; rewrite ?Hr; [done|by rewrite lookup_insert_eq| |done]. intros s' Hne. by rewrite lookup_insert_ne. }
  destruct (Z.eqb_spec old s) as [->|Hne]; simpl.
  { rewrite decide_True by done. split; simpl; rewrite ?Hr; [done|by rewrite lookup_insert_eq| |by rewrite decide_True].
    intros s' Hs. rewrite lookup_insert_ne by done. by rewrite decide_False by congruence. }
  rewrite (decide_False (P := Some old = Some s)) by congruence. unfold replace_old. simpl. rewrite lookup_insert_ne by done.
  destruct (cm_b m !! old) as [e|] eqn:Eo.
  - destruct (decide (en_state e = Authenticated)) as [Ha|Ha]; (split; simpl; rewrite ?Hr; [done| | |]).
    1,4: by rewrite lookup_insert_ne, lookup_insert_eq by done.
    1,3: intros s' Hs; destruct (decide (s' = old)) as [->|]; [rewrite lookup_insert_eq, decide_True, Eo by done; simpl; unfold outdated; by case_decide|
           by rewrite lookup_insert_ne, lookup_insert_ne, decide_False by congruence].
    all: rewrite decide_False, Eo by done; simpl; by case_decide; congruence.
  - split; simpl; rewrite ?Hr; [done|by rewrite lookup_insert_eq| |by rewrite decide_False, Eo by done].
    intros s' Hs. rewrite lookup_insert_ne by done. case_decide as Hx; [|done]. injection Hx as <-. by rewrite Eo.
Qed.
Lemma authenticated_route now s u d m m' u' d' : authenticated now s u d m m' ->
  route m' u' d' = if decide (u' = u /\ d' = d) then Some s else route m u' d'.
Proof.
  intros Ha. rewrite (route_insert _ _ _ _ _ _ (au_a _ _ _ _ _ _ Ha)). destruct (decide (u' = u)) as [->|]; [|by rewrite decide_False by tauto].
  destruct (decide (d' = d)) as [->|]; [by rewrite decide_True, lookup_insert_eq|]. rewrite decide_False, lookup_insert_ne by (tauto || congruence). by rewrite route_default.
Qed.
Lemma authenticate_ok now s u d m : conn_ok m -> may_authenticate s u d m -> conn_ok (authenticate now s u d m).2.
Proof.
  intros Hok [Ht Hmay]. pose proof (authenticate_spec now s u d m) as Ha. set (m' := (authenticate now s u d m).2) in *. clearbody m'.
  assert (en_session (bound_entry now s u d m) = s /\ en_superseded_by (bound_entry now s u d m) = None) as [Hes Hesb].
  { unfold bound_entry. destruct (cm_b m !! s) as [x|] eqn:E; simpl; [|done]. split; [by apply (ok_session _ Hok)|apply Hmay]. }
  assert (forall u' d', route m u' d' = Some s -> u' = u /\ d' = d) as Hown.
  { intros u' d' Hr. destruct (ok_routes _ Hok _ _ _ Hr) as [x []]. rewrite rt_entry0 in Hmay. destruct Hmay as [_ [Hn|[? ?]]]; [congruence|split; congruence]. }
  split.
  - intros u' d' s'. rewrite (authenticated_route _ _ _ _ _ _ _ _ Ha). case_decide as Hx.
    + intros [= <-]. destruct Hx as [-> ->]. eexists. split; [apply Ha|done..|by left].
    + intros Hr. destruct (ok_routes _ Hok _ _ _ Hr) as [x R]. assert (s' <> s) as Hns by (intros ->; by apply Hx, Hown).
      exists x. destruct R. split; try done. rewrite (au_old _ _ _ _ _ _ Ha _ Hns), decide_False; [done|]. intros Hr'.
      destruct (ok_routes _ Hok _ _ _ Hr') as [y []]. apply Hx. split; congruence.
  - intros s' x Hx Hst. destruct (decide (s' = s)) as [->|Hns].
    + rewrite (au_self _ _ _ _ _ _ Ha) in Hx. injection Hx as <-. exists u, d. by rewrite (authenticated_route _ _ _ _ _ _ _ _ Ha), decide_True.
    + rewrite (au_old _ _ _ _ _ _ Ha _ Hns) in Hx. case_decide as Hr.
      { destruct (cm_b m !! s') as [y|]; [|done]. injection Hx as <-. unfold outdated in Hst. by case_decide. }
      destruct (ok_live _ Hok s' x Hx Hst) as (u' & d' & ? & ? & Hr'). exists u', d'. split_and!; [done..|].
      rewrite (authenticated_route _ _ _ _ _ _ _ _ Ha), decide_False; [done|]. intros [-> ->]. congruence.
  - intros s' x Hx. destruct (decide (s' = s)) as [->|Hns]; [rewrite (au_self _ _ _ _ _ _ Ha) in Hx; by injection Hx as <-|].
    rewrite (au_old _ _ _ _ _ _ Ha _ Hns) in Hx. case_decide; [|by apply (ok_session _ Hok)].
    destruct (cm_b m !! s') as [y|] eqn:E; [|done]. injection Hx as <-. unfold outdated. case_decide; simpl; by apply (ok_session _ Hok).
  - intros u' ds. rewrite (au_a _ _ _ _ _ _ Ha). intros [[_ <-]|[_ H]]%lookup_insert_Some; [apply insert_non_empty|exact (ok_nonempty _ Hok u' ds H)].
  - rewrite (au_a _ _ _ _ _ _ Ha), (au_total _ _ _ _ _ _ Ha), weight_set_route. rewrite <- route_default. pose proof (ok_count _ Hok) as Hc.
    assert (forall z, 0 <= z < u64_max -> u64_add z 1 = z + 1) as Hadd by (intros; apply u64_add_small; unfold u64_max in *; lia).
    destruct (route m u d) as [old|] eqn:Hr; simpl.
    + assert (1 <= Z.of_nat (weight (cm_a m))).
      { rewrite (weight_split _ u). rewrite route_default in Hr. destruct (size (default ∅ (cm_a m !! u))) eqn:Hs; [|lia].
        apply map_size_empty_inv in Hs. by rewrite Hs, lookup_empty in Hr. }
      case_decide; [lia|]. case_decide; [unfold u64_sub; rewrite Z.mod_small by (unfold u64_max in *; lia)|]; rewrite Hadd; unfold u64_max in *; lia.
    + rewrite Hadd; lia.
Qed.

(** ** Reachable managers *)
Section Reachable.
Context `{T : Transport} (node : string).

Inductive conn_step : ConnectionManager -> ConnectionManager -> Prop :=
| CsConnecting m now s : conn_step m (register_connecting now s m)
| CsAuthenticate m now s u d : may_authenticate s u d m -> conn_step m (authenticate now s u d m).2
| CsUnregister m s : conn_step m (unregister_connection s m).2
| CsDisconnect m u d : conn_step m (disconnect_device u d m).2
| CsOthers m u d : conn_step m (disconnect_other_devices u d m).2
| CsWatchdog m now t closes : conn_step m (cleanup_stale_connecting now t closes m).2
| CsForce m transport s : conn_step m (force_close_session transport s m).2
| CsPush m transport encoded receipt arrange u : conn_step m (send_push_to_user transport encoded receipt arrange u m).2.

Lemma attempts_ok owners attempts r m : conn_ok m -> conn_ok (apply_delivery_attempts owners attempts r m).2.
Proof.
  unfold apply_delivery_attempts. revert r m. induction attempts as [|[s o] l IH]; intros r m Hok; [done|]. cbn [foldl].
  unfold apply_attempt at 2. simpl. destruct o as [|c detail]; [by apply IH|]. destruct (dead c); [|by apply IH].
  pose proof (unregister_ok s _ (mark_closing_ok s m Hok)) as H. unfold force_close_session. destruct (unregister_connection _ _) as [o m1]. by apply IH.
Qed.
Lemma push_ok transport encoded receipt arrange u m : conn_ok m -> conn_ok (send_push_to_user transport encoded receipt arrange u m).2.
Proof.
  intros Hok. unfold send_push_to_user. destruct (live_sessions u m) as [|p l]; [done|]. destruct transport as [x|]; [|done]. destruct encoded; [|done]. cbv zeta.
  match goal with |- context [apply_delivery_attempts ?o ?a ?r ?m] => pose proof (attempts_ok o a r m Hok) as H; destruct (apply_delivery_attempts o a r m) end. done.
Qed.
Lemma conn_step_ok m m' : conn_step m m' -> conn_ok m -> conn_ok m'.
Proof.
  intros Hs Hok. destruct Hs; [by apply register_connecting_ok|by apply authenticate_ok|by apply unregister_ok|by apply kick_ok|by apply disconnect_others_ok|
    by apply watchdog_cleanup_ok|by apply mark_closing_ok|by apply push_ok].
Qed.
Lemma conn_reachable_ok m : rtc conn_step (new_with_node_id node) m -> conn_ok m.
Proof. revert m. apply (rtc_ind_r conn_ok (new_with_node_id node)); [apply conn_ok_new|]. intros x y _ Hs. by apply conn_step_ok. Qed.

Lemma all_routes_elem m u d s : (u, d, s) ∈ all_routes m <-> route m u d = Some s.
Proof.
  unfold all_routes, route. rewrite list_elem_of_bind. split.
  - intros ([u' ds] & Hin & Hu%elem_of_map_to_list). apply list_elem_of_fmap in Hin as ([d' s'] & [= -> -> ->] & Hd%elem_of_map_to_list).
    simpl in *. by rewrite Hu.
  - destruct (cm_a m !! u) as [ds|] eqn:E; [|done]. simpl. intros Hd. exists (u, ds). split; [|by apply elem_of_map_to_list].
    apply list_elem_of_fmap. exists (d, s). split; [done|by apply elem_of_map_to_list].
Qed.
End Reachable.

Lemma weight_routes m : length (all_routes m) = weight (cm_a m).
Proof.
  unfold all_routes, weight. rewrite map_fold_foldr. induction (map_to_list (cm_a m)) as [|[u ds] l IH]; [done|].
  cbn. rewrite length_app, IH, length_fmap, length_map_to_list. done.
Qed.
Lemma online_route u m : has_authenticated_connection u m = true <-> exists d s e, route m u d = Some s /\ cm_b m !! s = Some e /\ live e = true.
Proof.
  unfold has_authenticated_connection, route. destruct (cm_a m !! u) as [ds|]; simpl; [|naive_solver]. rewrite existsb_exists. split.
  - intros ([d s] & Hin%list_elem_of_In%elem_of_map_to_list & Hl). simpl in Hl. destruct (cm_b m !! s) as [e|] eqn:E; [|done]. by exists d, s, e.
  - intros (d & s & e & Hd & He & Hl). exists (d, s). split; [by apply list_elem_of_In, elem_of_map_to_list|]. simpl. by rewrite He.
Qed.

Section ConnectionProperties.
Context `{T : Transport} (node : string).

(** C18. The two indexes agree. After any calls of the connection manager, in any order,
    in which no session authenticates as two users or devices or again once it is
    replaced, every route leads to a session that is known and belongs to that user and device,
    every authenticated session is the route of its device, so that a device has at
    most one, and the self check can only complain about sessions that are being
    closed; a user is online exactly when some session is authenticated as that user;
    and the count of connections is never less than the number of routes. *)
Theorem connection_indexes_agree (m : ConnectionManager) :
  rtc conn_step (new_with_node_id node) m ->
  orphan_routes (self_check m) = [] /\ missing_routes (self_check m) = [] /\
  (forall r st, (r, st) ∈ illegal_state_routes (self_check m) -> st = Closing) /\
  (forall u, has_authenticated_connection u m = true <->
     exists s e, cm_b m !! s = Some e /\ en_state e = Authenticated /\ en_user e = Some u) /\
  (forall s1 s2 e1 e2, cm_b m !! s1 = Some e1 -> cm_b m !! s2 = Some e2 -> en_state e1 = Authenticated -> en_state e2 = Authenticated ->
     en_user e1 = en_user e2 -> en_device e1 = en_device e2 -> s1 = s2) /\
  Z.of_nat (length (all_routes m)) <= get_connection_count m.
Proof.
  intros Hok%conn_reachable_ok. split_and!.
  - apply elem_of_nil_inv. intros [[u d] s] [Ho Hr%all_routes_elem]%list_elem_of_filter. destruct (ok_routes _ Hok _ _ _ Hr) as [e R].
    unfold orphan in Ho. simpl in Ho. by rewrite (rt_entry _ _ _ _ _ R) in Ho.
  - apply elem_of_nil_inv. intros [[u d] s] (e & ([s' e'] & -> & He%elem_of_map_to_list)%list_elem_of_fmap & Hm)%list_elem_of_omap. simpl in *.
    unfold missing in Hm. case_decide as Ha; [|done]. destruct (ok_live _ Hok _ _ He Ha) as (u' & d' & Eu & Ed & Hr). rewrite Eu, Ed in Hm. simpl in Hm.
    by rewrite (ok_session _ Hok _ _ He), decide_True in Hm.
  - intros [[u d] s] st Hin. simpl in Hin. apply list_elem_of_omap in Hin as ([[u' d'] s'] & Hr%all_routes_elem & Hi).
    destruct (ok_routes _ Hok _ _ _ Hr) as [e R]. unfold illegal in Hi. simpl in Hi. rewrite (rt_entry _ _ _ _ _ R) in Hi. simpl in Hi. unfold live in Hi.
    rewrite (rt_live _ _ _ _ _ R) in Hi. destruct (rt_state _ _ _ _ _ R) as [Hst|Hst]; rewrite Hst in Hi; simpl in Hi; congruence.
  - intros u. rewrite online_route. split.
    + intros (d & s & e & Hr & He & [Ha%bool_decide_eq_true _]%andb_true_iff). exists s, e. split_and!; [done..|].
      destruct (ok_routes _ Hok _ _ _ Hr) as [e' []]. congruence.
    + intros (s & e & He & Ha & Hu). destruct (ok_live _ Hok _ _ He Ha) as (u' & d & Hu' & _ & Hr). assert (u' = u) as -> by congruence.
      exists d, s, e. split_and!; [done..|]. destruct (ok_routes _ Hok _ _ _ Hr) as [e' R]. assert (e' = e) as -> by (destruct R; congruence).
      unfold live. by rewrite Ha, (rt_live _ _ _ _ _ R).
  - intros s1 s2 e1 e2 H1 H2 A1 A2 Hu Hd. destruct (ok_live _ Hok _ _ H1 A1) as (u1 & d1 & ? & ? & R1).
    destruct (ok_live _ Hok _ _ H2 A2) as (u2 & d2 & ? & ? & R2). congruence.
  - rewrite weight_routes. apply (ok_count _ Hok).
Qed.
End ConnectionProperties.

(** ** Interleaved calls

    What a call still has to do after its first accesses. [who s] is the user and the
    device the session [s] authenticates as. *)
Inductive task :=
| TRoute (s u : Z) (d : string)
| TUnroute (counted : bool) (s u : Z) (d : string)
| TPrune (counted : bool) (u : Z)
| TKick (s u : Z) (d : string)
| TKicked (s u : Z) (d : string).

Section Interleaved.
Context (who : Z -> Z * string) (node : string).
Definition pruned (counted : bool) (u : Z) (m : ConnectionManager) : ConnectionManager :=
  if counted then count_down (prune u m) else prune u m.
Definition after_unroute (counted : bool) (s u : Z) (d : string) (m : ConnectionManager) : list task :=
  if (unroute s u d m).1 then [TPrune counted u] else [].
Inductive micro : ConnectionManager * list task -> ConnectionManager * list task -> Prop :=
| MConnecting m ts now s : micro (m, ts) (register_connecting now s m, ts)
| MBind m ts now s u d : who s = (u, d) -> micro (m, ts) (auth_bind now s u d m, TRoute s u d :: ts)
| MRoute m ts1 ts2 s u d : micro (m, ts1 ++ TRoute s u d :: ts2) ((auth_route s u d m).2, ts1 ++ ts2)
| MTake m ts s e u d : cm_b m !! s = Some e -> en_user e = Some u -> en_device e = Some d ->
    micro (m, ts) ((take_entry s m).2, TUnroute (bool_decide (en_state e = Authenticated)) s u d :: ts)
| MTakeUnbound m ts s : (forall e, cm_b m !! s = Some e -> en_user e = None \/ en_device e = None) -> micro (m, ts) ((take_entry s m).2, ts)
| MUnroute m ts1 ts2 counted s u d :
    micro (m, ts1 ++ TUnroute counted s u d :: ts2) ((unroute s u d m).2, after_unroute counted s u d m ++ ts1 ++ ts2)
| MPrune m ts1 ts2 counted u : micro (m, ts1 ++ TPrune counted u :: ts2) (pruned counted u m, ts1 ++ ts2)
| MKick m ts s u d : route m u d = Some s -> micro (m, ts) (m, TKick s u d :: ts)
| MKickMark m ts1 ts2 s u d : micro (m, ts1 ++ TKick s u d :: ts2) (mark_closing s m, TKicked s u d :: ts1 ++ ts2)
| MKickUnroute m ts1 ts2 s u d : micro (m, ts1 ++ TKicked s u d :: ts2) ((unroute s u d m).2, after_unroute true s u d m ++ ts1 ++ ts2)
| MClosing m ts s : micro (m, ts) (mark_closing s m, ts)
| MWatchdog m ts s : micro (m, ts) ((watchdog_mark s m).2, ts).

(** The calls are runs of these steps. *)
Lemma authenticate_run now s u d m ts : who s = (u, d) -> rtc micro (m, ts) ((authenticate now s u d m).2, ts).
Proof. intros Hw. eapply rtc_l; [by apply (MBind m ts now)|]. apply rtc_once. apply (MRoute _ [] ts). Qed.
Lemma unregister_run s m ts : rtc micro (m, ts) ((unregister_connection s m).2, ts).
Proof.
  unfold unregister_connection. unfold take_entry at 1. destruct (cm_b m !! s) as [e|] eqn:E; [|apply rtc_once, (MTakeUnbound m ts s); naive_solver].
  destruct (en_user e) as [u|] eqn:Eu, (en_device e) as [d|] eqn:Ed; try (apply rtc_once, (MTakeUnbound m ts s); naive_solver).
  eapply rtc_l; [by apply (MTake m ts s e u d)|]. eapply rtc_l; [apply (MUnroute _ [] ts)|]. unfold after_unroute. unfold take_entry. simpl.
  destruct (unroute s u d (set_b m (delete s (cm_b m)))) as [[] m2]; simpl; [|rewrite andb_false_r; apply rtc_refl].
  rewrite andb_true_r. eapply rtc_l; [apply (MPrune _ [] ts)|]. unfold pruned. destruct (bool_decide _); apply rtc_refl.
Qed.
Lemma disconnect_run u d m ts : rtc micro (m, ts) ((disconnect_device u d m).2, ts).
Proof.
  unfold disconnect_device. destruct (route m u d) as [s|] eqn:Hr; [|apply rtc_refl]. eapply rtc_l; [by apply MKick|].
  eapply rtc_l; [apply (MKickMark _ [] ts)|]. eapply rtc_l; [apply (MKickUnroute _ [] ts)|]. unfold after_unroute.
  destruct (unroute s u d (mark_closing s m)) as [[] m2]; simpl; [|apply rtc_refl]. apply rtc_once. apply (MPrune m2 [] ts true u).
Qed.

(** What holds at every moment. *)
Definition entry_is (s : Z) (e : SessionEntry) : Prop :=
  (en_user e = None /\ en_state e <> Authenticated) \/ (exists u d, en_user e = Some u /\ en_device e = Some d /\ who s = (u, d)).
Record micro_ok (p : ConnectionManager * list task) : Prop := {
  mo_routes : forall u d s, route p.1 u d = Some s -> who s = (u, d);
  mo_entries : forall s e, cm_b p.1 !! s = Some e -> entry_is s e;
  mo_tasks : forall s u d, TRoute s u d ∈ p.2 -> who s = (u, d)
}.
Lemma unroute_sub s u d m u' d' x : route (unroute s u d m).2 u' d' = Some x -> route m u' d' = Some x.
Proof.
  destruct (decide (route m u d = Some s)) as [Hr|Hr]; [|by rewrite unroute_other].
  unfold route in Hr. destruct (cm_a m !! u) as [ds|] eqn:E; [|done]. simpl in Hr. unfold unroute. rewrite E, decide_True by done. simpl.
  rewrite (route_insert (set_a m (<[u := delete d ds]> (cm_a m))) (cm_a m) u (delete d ds) u' d' eq_refl). case_decide as Hu; [|done].
  subst u'. intros [_ H]%lookup_delete_Some. unfold route. by rewrite E.
Qed.
Lemma unroute_b s u d m : cm_b (unroute s u d m).2 = cm_b m.
Proof. unfold unroute. repeat case_match; done. Qed.
Lemma prune_route u m u' d' : route (prune u m) u' d' = route m u' d'.
Proof.
  unfold prune. destruct (cm_a m !! u) as [ds|] eqn:E; [|done]. case_decide as Hd; [|done]. unfold route. simpl.
  destruct (decide (u' = u)) as [->|]; [|by rewrite lookup_delete_ne]. by rewrite lookup_delete_eq, E, Hd.
Qed.
Lemma pruned_route c u m u' d' : route (pruned c u m) u' d' = route m u' d'.
Proof. destruct c; apply prune_route. Qed.
Lemma pruned_b c u m : cm_b (pruned c u m) = cm_b m.
Proof. unfold pruned, prune. destruct c; repeat case_match; done. Qed.
Lemma auth_route_route s u d m u' d' : route (auth_route s u d m).2 u' d' = if decide (u' = u /\ d' = d) then Some s else route m u' d'.
Proof.
  unfold auth_route. set (replaced := _ ≫= _). set (m1 := match replaced with Some old => _ | None => m end).
  assert (cm_a m1 = cm_a m) as Ha by (subst m1; destruct replaced; [unfold replace_old; repeat case_match|]; done). cbv zeta.
  assert (forall m2, cm_a m2 = <[u := <[d := s]> (default ∅ (cm_a m !! u))]> (cm_a m1) ->
    route m2 u' d' = if decide (u' = u /\ d' = d) then Some s else route m u' d') as Hm2.
  { intros m2 H2. rewrite (route_insert _ _ _ _ _ _ H2). unfold route. rewrite Ha. destruct (decide (u' = u)) as [->|]; [|by rewrite decide_False by tauto].
    destruct (decide (d' = d)) as [->|]; [by rewrite decide_True, lookup_insert_eq|]. rewrite decide_False, lookup_insert_ne by (tauto || congruence).
    destruct (cm_a m !! u); simpl; [done|by rewrite lookup_empty]. }
  destruct (decide (default ∅ (cm_a m !! u) !! d = Some s)); by apply Hm2.
Qed.
Lemma auth_route_entry s u d m s' e : cm_b (auth_route s u d m).2 !! s' = Some e ->
  exists e0, cm_b m !! s' = Some e0 /\ en_user e = en_user e0 /\ en_device e = en_device e0 /\ (en_state e = Authenticated -> en_state e0 = Authenticated).
Proof.
  unfold auth_route. set (replaced := _ ≫= _). intros He. assert (cm_b match replaced with Some old => replace_old old s m | None => m end !! s' = Some e) as H.
  { revert He. cbv zeta. by destruct (decide (default ∅ (cm_a m !! u) !! d = Some s)). }
  clear He. destruct replaced as [old|]; [|by exists e]. unfold replace_old in H. destruct (cm_b m !! old) as [x|] eqn:E; [|by exists e].
  case_decide; (simpl in H; apply lookup_insert_Some in H as [[<- <-]|[_ H]]; [exists x|by exists e]); simpl; by split_and!.
Qed.
Lemma mark_entry s m s' e : cm_b (mark_closing s m) !! s' = Some e ->
  exists e0, cm_b m !! s' = Some e0 /\ en_user e = en_user e0 /\ en_device e = en_device e0 /\ (en_state e = Authenticated -> en_state e0 = Authenticated).
Proof.
  unfold mark_closing. destruct (cm_b m !! s) as [x|] eqn:E; [|by exists e]. case_decide as Hst; [|by exists e]. simpl.
  intros [[<- <-]|[_ H]]%lookup_insert_Some; [exists x|by exists e]. simpl. split_and!; try done.
Qed.
Lemma watchdog_entry s m s' e : cm_b (watchdog_mark s m).2 !! s' = Some e ->
  exists e0, cm_b m !! s' = Some e0 /\ en_user e = en_user e0 /\ en_device e = en_device e0 /\ (en_state e = Authenticated -> en_state e0 = Authenticated).
Proof.
  unfold watchdog_mark. destruct (cm_b m !! s) as [x|] eqn:E; [|by exists e]. case_decide as Hst; [|by exists e]. simpl.
  intros [[<- <-]|[_ H]]%lookup_insert_Some; [exists x|by exists e]. simpl. split_and!; try done.
Qed.
Lemma mark_route s m u d : route (mark_closing s m) u d = route m u d.
Proof. unfold mark_closing. repeat case_match; done. Qed.
Lemma watchdog_route s m u d : route (watchdog_mark s m).2 u d = route m u d.
Proof. unfold watchdog_mark. repeat case_match; done. Qed.
Lemma connecting_route now s m u d : route (register_connecting now s m) u d = route m u d.
Proof. unfold register_connecting. by case_match. Qed.
Lemma entry_kept s e e0 : entry_is s e0 -> en_user e = en_user e0 -> en_device e = en_device e0 ->
  (en_state e = Authenticated -> en_state e0 = Authenticated) -> entry_is s e.
Proof. intros [[Hn Ha]|(u & d & Hu & Hd & Hw)] H1 H2 H3; [left; split; [congruence|tauto]|right]. exists u, d. split_and!; congruence. Qed.

Lemma kept_ok m ts m' ts' : micro_ok (m, ts) -> (forall u d, route m' u d = route m u d) ->
  (forall s e, cm_b m' !! s = Some e -> exists e0, cm_b m !! s = Some e0 /\ en_user e = en_user e0 /\ en_device e = en_device e0 /\
     (en_state e = Authenticated -> en_state e0 = Authenticated)) ->
  (forall s u d, TRoute s u d ∈ ts' -> TRoute s u d ∈ ts) -> micro_ok (m', ts').
Proof.
  intros [H1 H2 H3] Hr He Ht. split; simpl in *.
  - intros u d s. rewrite Hr. apply H1.
  - intros s e Hb. destruct (He s e Hb) as (e0 & Hb0 & ? & ? & ?). eapply entry_kept; [by eapply H2|done..].
  - intros s u d Hin. by apply H3, Ht.
Qed.
Lemma micro_step_ok p p' : micro p p' -> micro_ok p -> micro_ok p'.
Proof.
  assert (Hsame : forall (b : gmap Z SessionEntry) s e, b !! s = Some e -> exists e0, b !! s = Some e0 /\ en_user e = en_user e0 /\ en_device e = en_device e0 /\
     (en_state e = Authenticated -> en_state e0 = Authenticated)) by (intros b s e H; by exists e).
  intros Hs Hok. pose proof Hok as [H1 H2 H3]. destruct Hs as
    [m ts now s|m ts now s u d Hw|m ts1 ts2 s u d|m ts s e u d He Hu Hd|m ts s Hun|m ts1 ts2 c s u d|m ts1 ts2 c u|m ts s u d Hr|m ts1 ts2 s u d|m ts1 ts2 s u d|m ts s|m ts s];
    cbn [fst snd] in *.
  - split; cbn [fst snd]; [intros u d x; rewrite connecting_route; apply H1| |done]. intros x e. unfold register_connecting. destruct (cm_b m !! s); [apply H2|].
    simpl. intros [[<- <-]|[_ H]]%lookup_insert_Some; [by left|by apply H2].
  - split; cbn [fst snd]; [done| |intros x u' d' [[= -> -> ->]|Hin]%elem_of_cons; [done|by apply H3]].
    intros x e. simpl. intros [[<- <-]|[_ H]]%lookup_insert_Some; [right; by exists u, d|by apply H2].
  - assert (who s = (u, d)) as Hw by (apply H3; set_solver). split; cbn [fst snd]; [|intros x e Hx; destruct (auth_route_entry _ _ _ _ _ _ Hx) as (e0 & Hb & ? & ? & ?);
      by eapply entry_kept; [by eapply H2|..]|set_solver].
    intros u' d' x. rewrite auth_route_route. case_decide as Hx; [intros [= <-]; by destruct Hx as [-> ->]|apply H1].
  - eapply kept_ok; [exact Hok|done| |set_solver]. cbn [fst snd take_entry set_b cm_b]. intros x y [_ Hy]%lookup_delete_Some. by apply Hsame.
  - eapply kept_ok; [exact Hok|done| |done]. cbn [fst snd take_entry set_b cm_b]. intros x y [_ Hy]%lookup_delete_Some. by apply Hsame.
  - split; cbn [fst snd]; [intros u' d' x Hx; by apply H1, (unroute_sub s u d)|by rewrite unroute_b|].
    intros x u' d'. unfold after_unroute. destruct (unroute s u d m).1; simpl; intros Hin; apply H3; set_solver.
  - eapply kept_ok; [exact Hok|intros; apply pruned_route|rewrite pruned_b; apply Hsame|set_solver].
  - split; cbn [fst snd]; [done..|]. intros x u' d' [?|Hin]%elem_of_cons; [done|by apply H3].
  - eapply kept_ok; [exact Hok|intros; apply mark_route|intros x y; apply mark_entry|set_solver].
  - split; cbn [fst snd]; [intros u' d' x Hx; by apply H1, (unroute_sub s u d)|by rewrite unroute_b|].
    intros x u' d'. unfold after_unroute. destruct (unroute s u d m).1; simpl; intros Hin; apply H3; set_solver.
  - eapply kept_ok; [exact Hok|intros; apply mark_route|intros x y; apply mark_entry|done].
  - eapply kept_ok; [exact Hok|intros; apply watchdog_route|intros x y; apply watchdog_entry|done].
Qed.
Lemma micro_reachable_ok p : rtc micro (new_with_node_id node, []) p -> micro_ok p.
Proof.
  revert p. apply (rtc_ind_r micro_ok (new_with_node_id node, [])); [|intros x y _ Hs; by apply micro_step_ok].
  split; simpl; [done|done|]. intros s u d H. by apply elem_of_nil in H.
Qed.
Lemma unroute_route s u d m u' d' x : route m u' d' = Some x -> route (unroute s u d m).2 u' d' = Some x \/ (u' = u /\ d' = d /\ x = s /\ route (unroute s u d m).2 u' d' = None).
Proof.
  intros Hx. destruct (decide (route m u d = Some s)) as [Hr|Hr]; [|left; by rewrite unroute_other].
  unfold route in Hr. destruct (cm_a m !! u) as [ds|] eqn:E; [|done]. simpl in Hr. unfold unroute. rewrite E, decide_True by done. simpl.
  rewrite (route_insert (set_a m (<[u := delete d ds]> (cm_a m))) (cm_a m) u (delete d ds) u' d' eq_refl). case_decide as Hu; [|by left].
  subst u'. unfold route in Hx. rewrite E in Hx. simpl in Hx. destruct (decide (d' = d)) as [->|]; [right; rewrite lookup_delete_eq; split_and!; congruence|left; by rewrite lookup_delete_ne].
Qed.
Lemma micro_route p p' u d s : micro p p' -> micro_ok p -> route p.1 u d = Some s ->
  route p'.1 u d = Some s \/
  (exists s', TRoute s' u d ∈ p.2 /\ who s' = (u, d) /\ route p'.1 u d = Some s') \/
  (route p'.1 u d = None /\ (TKicked s u d ∈ p.2 \/ exists c, TUnroute c s u d ∈ p.2)).
Proof.
  intros Hs [_ _ H3] Hr. destruct Hs as
    [m ts now x|m ts now x u' d' Hw|m ts1 ts2 x u' d'|m ts x e u' d' He Hu Hd|m ts x Hun|m ts1 ts2 c x u' d'|m ts1 ts2 c u'|m ts x u' d' Hx|m ts1 ts2 x u' d'|m ts1 ts2 x u' d'|m ts x|m ts x];
    cbn [fst snd] in *; try by left.
  - left. by rewrite connecting_route.
  - rewrite auth_route_route. case_decide as Hx; [|by left]. destruct Hx as [<- <-]. right; left. exists x. split_and!; [set_solver|apply H3; set_solver|done].
  - destruct (unroute_route x u' d' m u d s Hr) as [?|(-> & -> & -> & ?)]; [by left|right; right]. split; [done|]. right. exists c. set_solver.
  - left. by rewrite pruned_route.
  - left. by rewrite mark_route.
  - destruct (unroute_route x u' d' m u d s Hr) as [?|(-> & -> & -> & ?)]; [by left|right; right]. split; [done|]. left. set_solver.
  - left. by rewrite mark_route.
  - left. by rewrite watchdog_route.
Qed.
(** C19. Whatever calls interleave, down to their accesses of the two indexes, as long as
    a session always authenticates as the same user and device ([who]), a push to a user is handed only to sessions that authenticated as that user and were not
    replaced since; and a route goes away only with its own session: a late close of a
    replaced session never takes the route of the session that replaced it. *)
Theorem push_reaches_only_its_user (m : ConnectionManager) (ts : list task) :
  rtc micro (new_with_node_id node, []) (m, ts) ->
  (forall u s n, (s, n) ∈ live_sessions u m -> (who s).1 = u /\
     exists e, cm_b m !! s = Some e /\ en_user e = Some u /\ en_state e = Authenticated /\ en_superseded_by e = None) /\
  (forall m' ts' u d s, micro (m, ts) (m', ts') -> route m u d = Some s ->
     route m' u d = Some s \/
     (exists s', TRoute s' u d ∈ ts /\ who s' = (u, d) /\ route m' u d = Some s') \/
     (route m' u d = None /\ (TKicked s u d ∈ ts \/ exists c, TUnroute c s u d ∈ ts))).
Proof.
  intros Hok%micro_reachable_ok. pose proof Hok as [H1 H2 H3]. cbn [fst snd] in *. split.
  - intros u s n Hin. unfold live_sessions in Hin. destruct (cm_a m !! u) as [ds|] eqn:E; [|by apply elem_of_nil in Hin].
    apply list_elem_of_omap in Hin as ([d s'] & Hd%elem_of_map_to_list & Hl). unfold live_session in Hl. simpl in Hl.
    destruct (cm_b m !! s') as [e|] eqn:Eb; [|done]. simpl in Hl. destruct (live e) eqn:El; [|done]. injection Hl as -> <-.
    assert (who s = (u, d)) as Hw by (apply H1; unfold route; by rewrite E). apply andb_true_iff in El as [Ha%bool_decide_eq_true Hn%bool_decide_eq_true].
    rewrite Hw. split; [done|]. exists e. split_and!; try done. destruct (H2 s e Eb) as [[_ ?]|(u' & d' & Hu & _ & Hw')]; [done|]. congruence.
  - intros m' ts' u d s Hs Hr. exact (micro_route _ _ u d s Hs Hok Hr).
Qed.
End Interleaved.

(** ** Reports of delivery *)
Section Reports.
Context `{T : Transport}.
Definition sessions_of (r : DeliveryReport) : list Z := dr_successful r ++ (fd_session <$> dr_failed r).
Lemma push_failure_sessions r f : sessions_of (push_failure r f) ≡ₚ fd_session f :: sessions_of r.
Proof. unfold sessions_of. simpl. rewrite fmap_app. simpl. rewrite app_assoc. by rewrite Permutation_app_comm. Qed.
Lemma push_success_sessions r s b : sessions_of (push_success r s b) ≡ₚ s :: sessions_of r.
Proof. unfold sessions_of. simpl. rewrite <- app_assoc. simpl. by rewrite Permutation_middle. Qed.
Lemma failures_sessions {A} (g : A -> FailedSessionDelivery) l r :
  let r' := foldl (fun r p => push_failure r (g p)) r l in
  sessions_of r' ≡ₚ (fd_session <$> (g <$> l)) ++ sessions_of r /\ dr_attempted r' = dr_attempted r /\ dr_successful r' = dr_successful r /\
  dr_acknowledged r' = dr_acknowledged r /\ dr_failed r' = dr_failed r ++ (g <$> l).
Proof.
  revert r. induction l as [|p l IH]; intros r; simpl; [by rewrite app_nil_r|]. destruct (IH (push_failure r (g p))) as (H1 & H2 & H3 & H4 & H5).
  split_and!; try done; [|by rewrite H5; simpl; rewrite <- app_assoc].
  simpl in H1. rewrite H1. rewrite push_failure_sessions. by rewrite Permutation_middle.
Qed.
Lemma unregister_b s m : cm_b (unregister_connection s m).2 = delete s (cm_b m).
Proof.
  unfold unregister_connection, take_entry. destruct (cm_b m !! s) as [e|]; [|done]. destruct (en_user e) as [u|], (en_device e) as [d|]; try done.
  pose proof (unroute_b s u d (set_b m (delete s (cm_b m)))) as Hu. destruct (unroute s u d _) as [cleaned m2]. simpl in Hu.
  assert (cm_b (if cleaned then prune u m2 else m2) = delete s (cm_b m)) as Hp by (destruct cleaned; [unfold prune; repeat case_match|]; done).
  simpl. destruct (_ && _); simpl; by rewrite Hp.
Qed.
Lemma mark_gone s s' m : cm_b m !! s' = None -> cm_b (mark_closing s m) !! s' = None.
Proof.
  intros H. unfold mark_closing. destruct (cm_b m !! s) eqn:E; [|done]. case_decide; [|done]. simpl. rewrite lookup_insert_ne by congruence. done.
Qed.

(** What one more attempt leaves of a report. *)
Record accounted (sessions : list Z) (r : DeliveryReport) (m : ConnectionManager) : Prop := {
  ac_sessions : sessions_of r ≡ₚ sessions;
  ac_acknowledged : dr_acknowledged r ⊆ dr_successful r;
  ac_dead : forall f, f ∈ dr_failed r -> dead (fd_class f) = true -> cm_b m !! fd_session f = None
}.
Lemma attempt_accounted owners sessions r m p : accounted sessions r m ->
  accounted (p.1 :: sessions) (apply_attempt owners (r, m) p).1 (apply_attempt owners (r, m) p).2 /\
  dr_attempted (apply_attempt owners (r, m) p).1 = dr_attempted r.
Proof.
  intros [H1 H2 H3]. destruct p as [s [b|c detail]]; unfold apply_attempt; cbn [fst snd].
  - split; [|done]. split; [by rewrite push_success_sessions, H1| |done]. simpl. destruct b; set_solver.
  - assert (forall cleaned m', (forall s', cm_b m !! s' = None -> cm_b m' !! s' = None) -> (dead c = true -> cm_b m' !! s = None) ->
      accounted (s :: sessions) (push_failure r (mkFailed s (default (cm_node m) (owners !! s)) c detail cleaned)) m') as Hf.
    { intros cleaned m' Hg Hd. split; [rewrite push_failure_sessions; simpl; by rewrite H1|done|]. simpl. intros f [Hf|Hf%list_elem_of_singleton]%elem_of_app Hc; [by apply Hg, H3|]. subst f. by apply Hd. }
    destruct (dead c) eqn:Ed; [|split; [|done]; by apply Hf].
    pose proof (unregister_b s (force_close_session true s m).2) as Hb. destruct (unregister_connection s (force_close_session true s m).2) as [o m1]. cbn [fst snd] in *.
    split; [|done]. apply Hf; rewrite Hb; [|intros _; apply lookup_delete_eq]. intros s' Hs'. apply lookup_delete_None. right. by apply mark_gone.
Qed.
Lemma attempts_accounted owners attempts sessions r m : accounted sessions r m ->
  accounted (attempts.*1 ++ sessions) (apply_delivery_attempts owners attempts r m).1 (apply_delivery_attempts owners attempts r m).2 /\
  dr_attempted (apply_delivery_attempts owners attempts r m).1 = dr_attempted r.
Proof.
  unfold apply_delivery_attempts. revert sessions r m. induction attempts as [|p l IH]; intros sessions r m Hacc; [done|]. cbn [foldl].
  destruct (attempt_accounted owners sessions r m p Hacc) as [Ha Hn]. destruct (apply_attempt owners (r, m) p) as [r1 m1]. cbn [fst snd] in *.
  destruct (IH _ _ _ Ha) as [[I1 I2 I3] I4]. split; [|congruence]. split; [|done|done]. rewrite I1. simpl. by rewrite Permutation_middle.
Qed.
Lemma partition_permutation {A} (P : A -> Prop) `{!forall x, Decision (P x)} l : filter (fun x => ~ P x) l ++ filter P l ≡ₚ l.
Proof.
  induction l as [|x l IH]; [done|]. rewrite !filter_cons. destruct (decide (P x)); [rewrite decide_False by tauto|rewrite decide_True by done].
  - rewrite <- Permutation_middle. by constructor.
  - simpl. by constructor.
Qed.

(** The report of a push accounts for every session. Each session of the user that
    was live is attempted and reported exactly once, as a success or as a failure,
    whatever order the answers come in; acknowledgements are among the successes; and
    a session whose failure shows a dead connection is gone afterwards. *)
Theorem push_report_accounts (transport : option Answers) encoded receipt arrange u (m : ConnectionManager) (r : DeliveryReport) (m' : ConnectionManager) :
  (forall l, arrange l ≡ₚ l) -> send_push_to_user transport encoded receipt arrange u m = (Ok r, m') ->
  dr_attempted r = length (live_sessions u m) /\
  dr_successful r ++ (fd_session <$> dr_failed r) ≡ₚ (live_sessions u m).*1 /\
  dr_acknowledged r ⊆ dr_successful r /\
  (forall f, f ∈ dr_failed r -> dead (fd_class f) = true -> cm_b m' !! fd_session f = None).
Proof.
  intros Hperm. unfold send_push_to_user. destruct (live_sessions u m) as [|p0 l0] eqn:El.
  { intros [= <- <-]. simpl. split_and!; try done. intros f H. by apply elem_of_nil in H. }
  remember (p0 :: l0) as sessions eqn:Es. clear Es El p0 l0. cbv zeta.
  set (local := filter _ sessions). set (remote := filter (fun p : Z * string => p.2 <> cm_node m) sessions).
  assert (remote ++ local ≡ₚ sessions) as Hsplit by apply (partition_permutation (fun p : Z * string => p.2 = cm_node m)).
  pose proof (failures_sessions (fun p : Z * string => mkFailed p.1 p.2 RemoteOwnerUnsupported "cross-node dispatch is reserved for CODEX-11" false) remote
    (mkDelivery (length sessions) [] [] [] ∅)) as (F1 & F2 & F3 & F4 & F5). cbv zeta in *. set (r1 := foldl _ _ remote) in *. clearbody r1.
  rewrite <- list_fmap_compose, app_nil_r in F1. simpl in F2, F3, F4, F5.
  assert (forall (r2 : DeliveryReport) m2, sessions_of r2 ≡ₚ local.*1 ++ sessions_of r1 -> dr_attempted r2 = dr_attempted r1 -> dr_acknowledged r2 ⊆ dr_successful r2 ->
    (forall f, f ∈ dr_failed r2 -> dead (fd_class f) = true -> cm_b m2 !! fd_session f = None) ->
    dr_attempted r2 = length sessions /\ dr_successful r2 ++ (fd_session <$> dr_failed r2) ≡ₚ sessions.*1 /\ dr_acknowledged r2 ⊆ dr_successful r2 /\
    (forall f, f ∈ dr_failed r2 -> dead (fd_class f) = true -> cm_b m2 !! fd_session f = None)) as Hdone.
  { intros r2 m2 G1 G2 G3 G4. split_and!; [congruence| |done|done]. fold (sessions_of r2). rewrite G1, F1. rewrite Permutation_app_comm, <- Hsplit, fmap_app. done. }
  assert (accounted (sessions_of r1) r1 m) as Hacc.
  { split; [done|by rewrite F4, F3|]. rewrite F5. intros f (p & -> & _)%list_elem_of_fmap. done. }
  destruct transport as [x|].
  - destruct encoded as [|e]; [|done].
    destruct (attempts_accounted (list_to_map local) (arrange ((fun p : Z * string => (p.1, attempt x receipt p.1)) <$> local)) _ _ _ Hacc) as [[A1 A2 A3] A4].
    destruct (apply_delivery_attempts _ _ _ _) as [r2 m2]. cbn [fst snd] in *. intros [= <- <-]. apply Hdone; try done.
    rewrite A1, Hperm, <- list_fmap_compose. done.
  - pose proof (failures_sessions (fun p : Z * string => mkFailed p.1 p.2 TransportUnavailable "TransportServer is not configured" false) local r1) as (G1 & G2 & G3 & G4 & G5).
    cbv zeta in *. set (r2 := foldl _ _ local) in *. clearbody r2. intros [= <- <-]. apply Hdone; [by rewrite G1, <- list_fmap_compose|done|by rewrite G4, G3, F4, F3|].
    rewrite G5, F5. simpl. intros f [(p & -> & _)%list_elem_of_fmap|(p & -> & _)%list_elem_of_fmap]%elem_of_app; done.
Qed.
End Reports.

(** ** Concrete connections

    The device "d" of user 1 connects with session 10 and again with session 11. *)
Definition demo_transport : Transport := {|
  TransportError := unit; transport_kind := fun _ => KConnection false; transport_display := fun _ => "closed"%string;
  decode_ack := fun _ => Ok (true, None)
|}.
#[local] Existing Instance demo_transport.
Definition two_sessions : ConnectionManager :=
  (authenticate 6 11 1 "d" (register_connecting 5 11 (authenticate 4 10 1 "d" (register_connecting 3 10 (new_with_node_id "n"))).2)).2.
Lemma two_sessions_reachable : rtc conn_step (new_with_node_id "n") two_sessions.
Proof.
  eapply rtc_l; [apply (CsConnecting _ 3 10)|]. eapply rtc_l; [apply (CsAuthenticate _ 4 10 1 "d"); vm_compute; auto|].
  eapply rtc_l; [apply (CsConnecting _ 5 11)|]. apply rtc_once. apply (CsAuthenticate _ 6 11 1 "d"). vm_compute. auto.
Qed.
Example late_close : route (unregister_connection 10 two_sessions).2 1 "d" = Some 11 /\ live_sessions 1 two_sessions = [(11, "n"%string)].
Proof. split; vm_compute; reflexivity. Qed.
Lemma connection_indexes_agree_witness :
  has_authenticated_connection 1 two_sessions = true /\ missing_routes (self_check two_sessions) = [] /\ Z.of_nat (length (all_routes two_sessions)) <= 1.
Proof.
  destruct (connection_indexes_agree "n" two_sessions two_sessions_reachable) as (_ & Hm & _ & Ho & _ & Hc). split; [|split; [exact Hm|exact Hc]].
  apply Ho. exists 11, (mkEntry 11 Authenticated (Some 1) (Some "d"%string) "n" None 5 (Some 6)). vm_compute. auto.
Defined.

Definition demo_who (s : Z) : Z * string := (1, "d"%string).
Lemma push_reaches_only_its_user_witness :
  (demo_who 11).1 = 1 /\ exists e, cm_b two_sessions !! 11 = Some e /\ en_user e = Some 1 /\ en_state e = Authenticated /\ en_superseded_by e = None.
Proof.
  destruct (push_reaches_only_its_user demo_who "n" two_sessions []) as [H _].
  - eapply rtc_l; [apply (MConnecting _ _ _ 3 10)|]. etransitivity; [apply (authenticate_run demo_who 4 10 1 "d"); reflexivity|].
    eapply rtc_l; [apply (MConnecting _ _ _ 5 11)|]. apply (authenticate_run demo_who 6 11 1 "d"). reflexivity.
  - apply (H 1 11 "n"%string). assert (live_sessions 1 two_sessions = [(11, "n"%string)]) as -> by (vm_compute; reflexivity). apply list_elem_of_singleton. reflexivity.
Defined.

Definition dead_answers : Answers := mkAnswers (fun _ => Some (Err tt)) (fun _ => None).
Definition demo_push := send_push_to_user (Some dead_answers) (Ok tt) false (fun l => l) 1 two_sessions.
Lemma push_report_accounts_witness :
  demo_push.1 = Ok (mkDelivery 1 [] [] [mkFailed 11 "n" DeadConnection "closed" true] {["dead_connection"%string := 1%nat]}) /\ cm_b demo_push.2 !! 11 = None.
Proof.
  assert (demo_push.1 = Ok (mkDelivery 1 [] [] [mkFailed 11 "n" DeadConnection "closed" true] {["dead_connection"%string := 1%nat]})) as E by (vm_compute; reflexivity).
  split; [exact E|].
  destruct (push_report_accounts (Some dead_answers) (Ok tt) false (fun l => l) 1 two_sessions
    (mkDelivery 1 [] [] [mkFailed 11 "n" DeadConnection "closed" true] {["dead_connection"%string := 1%nat]}) demo_push.2) as (_ & _ & _ & H).
  - intros l. reflexivity.
  - rewrite <- E. exact (surjective_pairing demo_push).
  - apply (H (mkFailed 11 "n" DeadConnection "closed" true)); [apply list_elem_of_singleton; reflexivity|reflexivity].
Defined.

(** A connection that is closed by a failed push is not counted out. *)
Example dead_connections_stay_counted : get_connection_count demo_push.2 = 1 /\ all_routes demo_push.2 = [].
Proof. split; vm_compute; reflexivity. Qed.
(** A session that authenticates as another user stays the route of the first. *)
Definition changed_user : ConnectionManager := (authenticate 5 10 2 "e" (authenticate 4 10 1 "d" (new_with_node_id "n")).2).2.
Example old_user_still_routed : live_sessions 1 changed_user = [(10, "n"%string)] /\ is_clean (self_check changed_user) = true /\
  en_user <$> cm_b changed_user !! 10 = Some (Some 2).
Proof. split; [|split]; vm_compute; reflexivity. Qed.
(** A replaced session that authenticates again takes the route back and is never
    delivered to. *)
Definition taken_back : ConnectionManager := (authenticate 7 10 1 "d" two_sessions).2.
Example taken_back_is_deaf : route taken_back 1 "d" = Some 10 /\ live_sessions 1 taken_back = [] /\ is_device_online 1 "d" taken_back = true.
Proof. split; [|split]; vm_compute; reflexivity. Qed.
(** A session that is unregistered between the two halves of its authentication leaves
    a route to nothing. *)
Definition closed_between : ConnectionManager := (auth_route 10 1 "d" (unregister_connection 10 (auth_bind 4 10 1 "d" (new_with_node_id "n"))).2).2.
Example orphan_after_race : orphan_routes (self_check closed_between) = [(1, "d"%string, 10)].
Proof. vm_compute. reflexivity. Qed.
