(* ===== verification/Subscribe.v ===== *)
(** * Subscriptions, room tickets and typing

    Models [SubscribeManager] (src/src/infra/subscribe_manager.rs), the tickets of rooms
    (src/src/security/room_ticket.rs), the history of rooms
    (src/src/service/room_history_service.rs), the handler of subscriptions
    (src/src/handler/subscribe_message_handler.rs), the limit on typing notices
    (src/src/infra/typing_rate_limiter.rs) and its RPC (src/src/rpc/presence/typing.rs).

    The writes of [SubscribeManager] hold one lock, so a call is one step. An [Instant]
    is a number of nanoseconds. *)

From stdpp Require Import base numbers gmap list strings.
From S2P Require Import Prelude Channel Timeline Group GroupService Token OfflineQueue.
Local Open Scope Z_scope.

(** ** The two indexes of subscriptions *)
Record SubscribeManager := mkSubscriptions {
  sb_routes : gmap Z (list Z); sb_channels : gmap Z (gset Z); sb_max_per_session : nat; sb_max_online : nat
}.
Definition MAX_CHANNEL_SUBSCRIBERS_ONLINE : nat := 20000.
Definition MAX_SUBSCRIPTIONS_PER_SESSION : nat := 32.
Definition new_with_limits (per_session online : nat) : SubscribeManager := mkSubscriptions ∅ ∅ (Nat.max per_session 1) (Nat.max online 1).
Definition subscriptions_new : SubscribeManager := new_with_limits MAX_SUBSCRIPTIONS_PER_SESSION MAX_CHANNEL_SUBSCRIBERS_ONLINE.
Definition set_indexes (s : SubscribeManager) (r : gmap Z (list Z)) (c : gmap Z (gset Z)) : SubscribeManager :=
  mkSubscriptions r c (sb_max_per_session s) (sb_max_online s).

(** The first occurrences, in order. *)
Fixpoint unique_from (seen : gset Z) (l : list Z) : list Z :=
  match l with
  | [] => []
  | x :: r => if decide (x ∈ seen) then unique_from seen r else x :: unique_from ({[x]} ∪ seen) r
  end.
Definition unique_sessions (l : list Z) : list Z := unique_from ∅ l.
Definition unique_session_count (l : list Z) : nat := length (unique_sessions l).

Definition subscribe (sid cid : Z) (s : SubscribeManager) : result unit string * SubscribeManager :=
  let mine := sb_channels s !! sid in
  if bool_decide (cid ∈ default ∅ mine) then (Ok tt, s)
  else if match mine with Some cs => Nat.leb (sb_max_per_session s) (size cs) | None => false end then (Err "too many subscriptions"%string, s)
  else if Nat.leb (sb_max_online s) (default 0%nat (unique_session_count <$> sb_routes s !! cid)) then (Err "channel is full"%string, s)
  else
    let l := default [] (sb_routes s !! cid) in
    (Ok tt, set_indexes s (<[cid := if decide (sid ∈ l) then l else l ++ [sid]]> (sb_routes s)) (<[sid := {[cid]} ∪ default ∅ mine]> (sb_channels s))).
Definition unsubscribe_from_channel (sid cid : Z) (s : SubscribeManager) : SubscribeManager :=
  match sb_routes s !! cid with
  | None => s
  | Some l =>
      let l' := filter (fun x => x <> sid) l in
      set_indexes s (if decide (l' = []) then delete cid (sb_routes s) else <[cid := l']> (sb_routes s)) (sb_channels s)
  end.
Definition unsubscribe (sid cid : Z) (s : SubscribeManager) : bool * SubscribeManager :=
  match sb_channels s !! sid with
  | None => (false, s)
  | Some cs =>
      let removed := bool_decide (cid ∈ cs) in
      let cs' := cs ∖ {[cid]} in
      let s1 := set_indexes s (sb_routes s) (if decide (cs' = ∅) then delete sid (sb_channels s) else <[sid := cs']> (sb_channels s)) in
      (removed, if removed then unsubscribe_from_channel sid cid s1 else s1)
  end.
Definition on_session_disconnect (sid : Z) (s : SubscribeManager) : list Z * SubscribeManager :=
  let cs := elements (default ∅ (sb_channels s !! sid)) in
  (cs, foldl (fun s cid => unsubscribe_from_channel sid cid s) (set_indexes s (sb_routes s) (delete sid (sb_channels s))) cs).
Definition get_channel_sessions (cid : Z) (s : SubscribeManager) : list Z := default [] (unique_sessions <$> sb_routes s !! cid).
Definition get_session_channels (sid : Z) (s : SubscribeManager) : gset Z := default ∅ (sb_channels s !! sid).
Definition get_channel_online_count (cid : Z) (s : SubscribeManager) : nat := default 0%nat (unique_session_count <$> sb_routes s !! cid).
Definition get_channel_count (s : SubscribeManager) : nat := size (sb_routes s).
Definition get_total_session_count (s : SubscribeManager) : nat := size (sb_channels s).
Definition get_all_channels (s : SubscribeManager) : list (Z * nat) := (fun p : Z * list Z => (p.1, unique_session_count p.2)) <$> map_to_list (sb_routes s).

(** ** Room tickets *)
Definition CT_ROOM : Z := 2.
Definition SCOPE_SUBSCRIBE : string := "subscribe".
Record RoomTicketClaims := mkTicket { tc_sub : string; tc_did : string; tc_cid : Z; tc_ct : Z; tc_scope : string; tc_exp : Z }.
Definition u64_saturating_add (a b : Z) : Z := Z.min u64_max (a + b).
Definition for_subscribe (now_secs user_id : Z) (device_id : string) (channel_id ttl_secs : Z) : RoomTicketClaims :=
  mkTicket (u64_to_string user_id) device_id channel_id CT_ROOM SCOPE_SUBSCRIBE (u64_saturating_add now_secs ttl_secs).
#[export] Instance ticket_claims_eq_dec : EqDecision RoomTicketClaims.
Proof. solve_decision. Defined.
Inductive VerifyError :=
| VMissing | VMalformedHeader | VInvalidSignature | VExpired | VBadScope | VBadChannelType | VChannelMismatch | VDeviceMismatch | VUnknownKid | VOther.
Record RoomTicketConfig := mkTicketConfig { tf_secret : option string; tf_keys : gmap string string; tf_default_kid : string; tf_leeway_secs : Z }.
Definition resolve_secret (cfg : RoomTicketConfig) (kid : option string) : option string :=
  let k := default (tf_default_kid cfg) kid in
  match tf_keys cfg !! k with
  | Some s => Some s
  | None => if decide (k = tf_default_kid cfg) then tf_secret cfg else None
  end.
(** What the JWT crate does: [ticket_decode] takes the time, the leeway and the secret,
    and tells an expired and a wrongly signed ticket from other errors. *)
Inductive TicketJwtError := TjExpired | TjSignature | TjOther.
Class TicketJwt := {
  ticket_encode : string -> string -> RoomTicketClaims -> option string;
  ticket_header : string -> option (bool * option string);
  ticket_decode : Z -> Z -> string -> string -> result RoomTicketClaims TicketJwtError
}.
Section Tickets.
Context `{J : TicketJwt}.
Definition sign (cfg : RoomTicketConfig) (kid : string) (claims : RoomTicketClaims) : result string string :=
  match resolve_secret cfg (Some kid) with
  | None => Err "unknown kid"%string
  | Some secret => match ticket_encode kid secret claims with Some t => Ok t | None => Err "encode failed"%string end
  end.
Definition sign_default (cfg : RoomTicketConfig) (claims : RoomTicketClaims) : result string string := sign cfg (tf_default_kid cfg) claims.
Definition verify (now_secs : Z) (cfg : RoomTicketConfig) (token : string) (channel_id : Z) (device_id : string) : result RoomTicketClaims VerifyError :=
  if decide (token = EmptyString) then Err VMissing
  else
    match ticket_header token with
    | None | Some (false, _) => Err VMalformedHeader
    | Some (true, kid) =>
        match resolve_secret cfg kid with
        | None => Err VUnknownKid
        | Some secret =>
            match ticket_decode now_secs (tf_leeway_secs cfg) secret token with
            | Err TjExpired => Err VExpired
            | Err TjSignature => Err VInvalidSignature
            | Err TjOther => Err VOther
            | Ok claims =>
                if negb (bool_decide (tc_scope claims = SCOPE_SUBSCRIBE)) then Err VBadScope
                else if negb (tc_ct claims =? CT_ROOM) then Err VBadChannelType
                else if negb (tc_cid claims =? channel_id) then Err VChannelMismatch
                else if negb (bool_decide (tc_did claims = device_id)) then Err VDeviceMismatch
                else Ok claims
            end
        end
    end.
End Tickets.

(** ** The history of a room

    The list of Redis holds the newest first; [decode] is the decoder of its items. *)
Definition MAX_SUBSCRIBE_HISTORY_LIMIT : nat := 200.
Record RoomConfig := mkRoomConfig { rc_history : bool; rc_limit : nat; rc_ttl : Z }.
Definition subscribe_history_limit (c : RoomConfig) : nat := Nat.min (rc_limit c) MAX_SUBSCRIBE_HISTORY_LIMIT.
Definition subscribe_history_enabled (c : RoomConfig) : bool := rc_history c && Nat.ltb 0 (subscribe_history_limit c).
(** [fault] is an error of Redis, with whether the write took effect; [encoded] is the
    serialized item. *)
Definition append_history (fault : option (ServerError * bool)) (encoded : result string string) (cid : Z) (c : RoomConfig) (l : list string)
    : result unit ServerError * list string :=
  if subscribe_history_enabled c then
    match encoded with
    | Err e => (Err (Internal ("Room 历史序列化失败: channel_id=" +:+ u64_to_string cid +:+ ", error=" +:+ e)), l)
    | Ok payload =>
        let l' := take (subscribe_history_limit c) (payload :: l) in
        match fault with
        | None => (Ok tt, l')
        | Some (e, applied) => (Err e, if applied then l' else l)
        end
    end
  else (Ok tt, l).
Definition list_recent_history {A} (fault : option ServerError) (decode : string -> option A) (c : RoomConfig) (l : list string) : result (list A) ServerError :=
  if subscribe_history_enabled c then
    match fault with
    | Some e => Err e
    | None => Ok (omap decode (reverse (take (subscribe_history_limit c) l)))
    end
  else Ok [].

(** ** The handler of subscriptions *)
Record SubscribeRequest := mkSubscribe { sq_channel_type : Z; sq_action : Z; sq_channel_id : Z; sq_param : string }.
(** The session of the request, and who it is. *)
Record SubscribeContext := mkSubscriber { sx_session : Z; sx_user : option string; sx_device : option string }.
Inductive subscribe_effect := PresenceSnapshot (session channel : Z) (users : list Z) | ReplayHistory (session channel : Z).

Section SubscribeHandler.
Context `{J : TicketJwt, Pj : PermissionColumn, Pg : Postgres, Ch : Chrono}.
(** [f] and [g] are the faults of the two reads of the members. *)
Definition subscribe_gate (f : Io) (now sync now_secs : Z) (ticket : option RoomTicketConfig) (ctx : SubscribeContext) (r : SubscribeRequest) (s : State)
    : Z * State :=
  match channel_type_from_wire_u8 (sq_channel_type r) with
  | Some Direct | Some Group =>
      match sx_user ctx with
      | None => (6, s)
      | Some text =>
          match parse_u64 text with
          | None => (6, s)
          | Some uid =>
              match get_channel_members f now sync (sq_channel_id r) s with
              | (Ok ms, s1) => (if existsb (fun m => m_user_id m =? uid) ms then 0 else 4, s1)
              | (Err _, s1) => (5, s1)
              end
          end
      end
  | Some Room =>
      match sx_user ctx with
      | None => (6, s)
      | Some _ =>
          match ticket with
          | None => (0, s)
          | Some cfg =>
              (match verify now_secs cfg (sq_param r) (sq_channel_id r) (default EmptyString (sx_device ctx)) with
               | Ok _ => 0
               | Err VMissing => 9
               | Err VExpired => 11
               | Err _ => 10
               end, s)
          end
      end
  | None => (2, s)
  end.
Definition presence_snapshot (g : Io) (now sync : Z) (ctx : SubscribeContext) (r : SubscribeRequest) (s : State) : list subscribe_effect * State :=
  match channel_type_from_wire_u8 (sq_channel_type r) with
  | Some Direct | Some Group =>
      match get_channel_members g now sync (sq_channel_id r) s with
      | (Ok ms, s1) => ([PresenceSnapshot (sx_session ctx) (sq_channel_id r) (filter (fun u => Some u <> sx_user ctx ≫= parse_u64) (m_user_id <$> ms))], s1)
      | (Err _, s1) => ([], s1)
      end
  | _ => ([], s)
  end.
(** The reason of the reply, 0 for success. *)
Definition handle_subscribe (f g : Io) (now sync now_secs : Z) (ticket : option RoomTicketConfig) (room : RoomConfig) (ctx : SubscribeContext)
    (r : SubscribeRequest) (b : SubscribeManager) (s : State) : Z * SubscribeManager * State * list subscribe_effect :=
  let '(gate, s1) := if sq_action r =? 1 then subscribe_gate f now sync now_secs ticket ctx r s else (0, s) in
  if negb (gate =? 0) then (gate, b, s1, [])
  else if sq_action r =? 1 then
    match subscribe (sx_session ctx) (sq_channel_id r) b with
    | (Ok _, b1) =>
        let '(snapshot, s2) := presence_snapshot g now sync ctx r s1 in
        let replay := bool_decide (channel_type_from_wire_u8 (sq_channel_type r) = Some Room) && subscribe_history_enabled room in
        (0, b1, s2, snapshot ++ (if replay then [ReplayHistory (sx_session ctx) (sq_channel_id r)] else []))
    | (Err e, b1) => (if decide (e = "too many subscriptions"%string) then 8 else 3, b1, s1, [])
    end
  else if sq_action r =? 2 then (0, (unsubscribe (sx_session ctx) (sq_channel_id r) b).2, s1, [])
  else (1, b, s1, []).
End SubscribeHandler.

(** ** The limit on typing notices *)
Definition MIN_INTERVAL : Z := 500000000.
Definition CLEANUP_THRESHOLD : nat := 10000.
Definition CLEANUP_TIME_TRIGGER_THRESHOLD : nat := 1024.
Definition CLEANUP_MIN_INTERVAL_MS : Z := 2000.
Definition EXPIRE_THRESHOLD : Z := 10000000000.
Definition CLEANUP_BUDGET : nat := 256.
Record TypingRateLimiter := mkLimiter {
  tl_last : gmap (Z * Z) Z; tl_start : Z; tl_last_cleanup_ms : Z; tl_dropped : Z; tl_runs : Z; tl_removed : Z
}.
Definition limiter_new (start : Z) : TypingRateLimiter := mkLimiter ∅ start 0 0 0 0.
Definition duration_since (now earlier : Z) : Z := saturating_sub now earlier.
Definition expired_keys (now : Z) (m : gmap (Z * Z) Z) : list (Z * Z) :=
  (filter (fun p => EXPIRE_THRESHOLD <= duration_since now p.2) (take CLEANUP_BUDGET (map_to_list m))).*1.
Definition cleanup_expired (now : Z) (l : TypingRateLimiter) : TypingRateLimiter :=
  let ks := filter (fun k => default false ((fun t => EXPIRE_THRESHOLD <=? duration_since now t) <$> tl_last l !! k) = true) (expired_keys now (tl_last l)) in
  mkLimiter (foldl (fun m k => delete k m) (tl_last l) ks) (tl_start l) (tl_last_cleanup_ms l) (tl_dropped l) (tl_runs l)
    (u64_add (tl_removed l) (Z.of_nat (length ks))).
Definition cleanup_expired_with_throttle (now : Z) (l : TypingRateLimiter) : TypingRateLimiter :=
  let now_ms := as_u64 (duration_since now (tl_start l) / 1000000) in
  if saturating_sub now_ms (tl_last_cleanup_ms l) <? CLEANUP_MIN_INTERVAL_MS then l
  else cleanup_expired now (mkLimiter (tl_last l) (tl_start l) now_ms (tl_dropped l) (u64_add (tl_runs l) 1) (tl_removed l)).
Definition maybe_cleanup (now : Z) (l : TypingRateLimiter) : TypingRateLimiter :=
  let n := size (tl_last l) in
  if Nat.eqb n 0 then l
  else if Nat.ltb CLEANUP_THRESHOLD n then cleanup_expired_with_throttle now l
  else if Nat.leb CLEANUP_TIME_TRIGGER_THRESHOLD n then cleanup_expired_with_throttle now l
  else l.
Definition record_allowed (now : Z) (k : Z * Z) (l : TypingRateLimiter) : TypingRateLimiter :=
  mkLimiter (<[k := now]> (tl_last l)) (tl_start l) (tl_last_cleanup_ms l) (tl_dropped l) (tl_runs l) (tl_removed l).
Definition check_and_update (now user_id channel_id : Z) (l : TypingRateLimiter) : bool * TypingRateLimiter :=
  let k := (user_id, channel_id) in
  match tl_last l !! k with
  | Some t =>
      if duration_since now t <? MIN_INTERVAL
      then (false, mkLimiter (tl_last l) (tl_start l) (tl_last_cleanup_ms l) (u64_add (tl_dropped l) 1) (tl_runs l) (tl_removed l))
      else (true, maybe_cleanup now (record_allowed now k l))
  | None => (true, maybe_cleanup now (record_allowed now k l))
  end.

(** The RPC: [shown] prints a session as the transport does, [sent] says whether a send
    succeeds; [None] is a transport that is not set. *)
Definition typing_targets (shown : Z -> string) (sender : option string) (cid : Z) (b : SubscribeManager) : list Z :=
  filter (fun sid => sender <> Some (shown sid)) (get_channel_sessions cid b).
Definition handle_typing (shown : Z -> string) (sent : option (Z -> bool)) (now : Z) (uid : Z) (sender : option string) (cid : Z)
    (l : TypingRateLimiter) (b : SubscribeManager) : list Z * TypingRateLimiter * SubscribeManager :=
  let '(allowed, l1) := check_and_update now uid cid l in
  if negb allowed then ([], l1, b)
  else
    match sent with
    | None => ([], l1, b)
    | Some ok =>
        let targets := typing_targets shown sender cid b in
        (filter (fun sid => ok sid = true) targets, l1,
         foldl (fun b sid => (unsubscribe sid cid b).2) b (filter (fun sid => ok sid = false) targets))
    end.
