(* ===== verification/SubscribeFacts.v ===== *)
(** * Subscriptions, room tickets and typing: properties *)

From Stdlib Require Import Sorting.Sorted.
From stdpp Require Import base numbers gmap list sorting strings relations.
From S2P Require Import Prelude Channel Timeline TimelineFacts Group GroupService Approval GroupFacts GroupTheorems Subscribe.
Local Open Scope Z_scope.

(** ** The two indexes agree *)
Lemma unique_from_id seen l : NoDup l -> (forall x, x ∈ l -> x ∉ seen) -> unique_from seen l = l.
Proof.
  intros Hn. revert seen. induction Hn as [|x l Hx Hn IH]; intros seen Hd; [done|]. simpl. rewrite decide_False by (apply Hd; set_solver).
  f_equal. apply IH. intros y Hy [->%elem_of_singleton|Hs]%elem_of_union; [done|]. by apply (Hd y); [set_solver|].
Qed.
Lemma unique_sessions_id l : NoDup l -> unique_sessions l = l.
Proof. intros Hn. apply unique_from_id; [done|]. set_solver. Qed.

Notation sessions_in b c := (default [] (sb_routes b !! c)).
Record sub_ok (b : SubscribeManager) : Prop := {
  su_agree : forall s c, s ∈ sessions_in b c <-> c ∈ get_session_channels s b;
  su_nodup : forall c l, sb_routes b !! c = Some l -> NoDup l /\ l <> [] /\ (length l <= sb_max_online b)%nat;
  su_sets : forall s cs, sb_channels b !! s = Some cs -> cs <> ∅ /\ (size cs <= sb_max_per_session b)%nat;
  su_limits : (1 <= sb_max_online b)%nat /\ (1 <= sb_max_per_session b)%nat
}.
Lemma sub_ok_new n k : sub_ok (new_with_limits n k).
Proof. split; simpl; try done; [|lia]. intros s c. unfold get_session_channels. simpl. rewrite !lookup_empty. simpl. set_solver. Qed.

Lemma subscribe_ok s c b : sub_ok b -> sub_ok (subscribe s c b).2.
Proof.
  intros Hok. unfold subscribe. destruct (bool_decide _) eqn:Ein; [done|]. apply bool_decide_eq_false in Ein. fold (get_session_channels s b) in *.
  destruct (match sb_channels b !! s with Some cs => _ | None => _ end) eqn:Ec; [done|].
  destruct (Nat.leb_spec (sb_max_online b) (default 0%nat (unique_session_count <$> sb_routes b !! c))) as [|Hroom]; [done|]. simpl.
  assert (s ∉ sessions_in b c) as Hs by (intros H; by apply Ein, (su_agree _ Hok)). rewrite decide_False by done.
  split; simpl; [| | |apply (su_limits _ Hok)].
  - intros s' c'. unfold get_session_channels. simpl. destruct (decide (c' = c)) as [->|Hc], (decide (s' = s)) as [->|Hns];
      rewrite ?lookup_insert_eq, ?(lookup_insert_ne _ s s'), ?(lookup_insert_ne _ c c') by done; simpl.
    + set_solver.
    + rewrite elem_of_app, (su_agree _ Hok). unfold get_session_channels. set_solver.
    + rewrite (su_agree _ Hok). unfold get_session_channels. set_solver.
    + apply (su_agree _ Hok).
  - intros c' l [[<- <-]|[_ H]]%lookup_insert_Some; [|by apply (su_nodup _ Hok c')]. split_and!; [|by destruct (sessions_in b c)|].
    + apply NoDup_app. split_and!; [|intros x Hx; set_solver|apply NoDup_singleton]. destruct (sb_routes b !! c) as [l|] eqn:E; [|constructor]. by apply (su_nodup _ Hok c).
    + rewrite length_app. simpl. destruct (sb_routes b !! c) as [l|] eqn:E; simpl in *; [|lia].
      unfold unique_session_count in Hroom. rewrite unique_sessions_id in Hroom by by apply (su_nodup _ Hok c). lia.
  - intros s' cs [[<- <-]|[_ H]]%lookup_insert_Some; [|by apply (su_sets _ Hok s')]. split; [set_solver|]. rewrite size_union by set_solver. rewrite size_singleton.
    assert (size (get_session_channels s b) < sb_max_per_session b)%nat; [|lia]. unfold get_session_channels.
    destruct (sb_channels b !! s) as [cs|]; [by apply Nat.leb_gt in Ec|]. apply (su_limits _ Hok).
Qed.

(** Taking a session out of a channel, when index B has already forgotten it. *)
Definition left_behind (s : Z) (b : SubscribeManager) (cs : gset Z) : Prop :=
  (forall s' c, s' ∈ sessions_in b c <-> c ∈ get_session_channels s' b \/ (s' = s /\ c ∈ cs)) /\
  (forall c l, sb_routes b !! c = Some l -> NoDup l /\ l <> [] /\ (length l <= sb_max_online b)%nat) /\
  (forall s' cs', sb_channels b !! s' = Some cs' -> cs' <> ∅ /\ (size cs' <= sb_max_per_session b)%nat) /\
  ((1 <= sb_max_online b)%nat /\ (1 <= sb_max_per_session b)%nat) /\ get_session_channels s b ## cs.
Lemma left_nothing s b : left_behind s b ∅ -> sub_ok b.
Proof. intros (H1 & H2 & H3 & H4 & _). split; try done. intros s' c. rewrite H1. set_solver. Qed.
Lemma leave_one s c b cs : left_behind s b ({[c]} ∪ cs) -> c ∉ cs -> left_behind s (unsubscribe_from_channel s c b) cs.
Proof.
  intros (H1 & H2 & H3 & H4 & H5) Hc. unfold unsubscribe_from_channel. destruct (sb_routes b !! c) as [l|] eqn:E.
  2: { assert (s ∈ sessions_in b c) as Hin by (apply H1; set_solver). rewrite E in Hin. by apply elem_of_nil in Hin. }
  cbv zeta. destruct (H2 c l E) as (Hn & _ & Hlen). set (l' := filter (fun x => x <> s) l).
  set (r := if decide (l' = []) then delete c (sb_routes b) else <[c := l']> (sb_routes b)).
  assert (forall c', default [] (r !! c') = if decide (c' = c) then l' else sessions_in b c') as Hr.
  { intros c'. subst r. destruct (decide (c' = c)) as [->|Hcc]; (destruct (decide (l' = [])) as [El|El]);
      rewrite ?lookup_delete_eq, ?lookup_insert_eq, ?lookup_delete_ne, ?lookup_insert_ne by done; simpl; congruence. }
  split; [|split; [|split; [exact H3|split; [exact H4|]]]].
  - intros s' c'. simpl. rewrite Hr. change (get_session_channels s' (set_indexes b r (sb_channels b))) with (get_session_channels s' b).
    case_decide as Hcc; [subst c'|rewrite H1; set_solver]. unfold l'. rewrite list_elem_of_filter. specialize (H1 s' c). rewrite E in H1. simpl in H1. rewrite H1.
    destruct (decide (s' = s)) as [->|]; [|set_solver]. split; [tauto|]. intros [Hg|[_ ?]]; [|done]. set_solver.
  - intros c' l0. simpl. intros Hl0. assert (default [] (r !! c') = l0 /\ l0 <> []) as [Hd Hne].
    { rewrite Hl0. split; [done|]. subst r. destruct (decide (l' = [])) as [El|El].
      - apply lookup_delete_Some in Hl0 as [_ Hl0]. by apply (H2 c').
      - apply lookup_insert_Some in Hl0 as [[_ <-]|[_ Hl0]]; [done|by apply (H2 c')]. }
    rewrite Hr in Hd. case_decide as Hcc.
    + subst. split_and!; [by apply NoDup_filter|done|]. unfold l'. pose proof (length_filter (fun x => x <> s) l). lia.
    + destruct (sb_routes b !! c') as [x|] eqn:Ex; simpl in Hd; [|congruence]. subst x. by apply (H2 c').
  - change (get_session_channels s (set_indexes b r (sb_channels b))) with (get_session_channels s b). set_solver.
Qed.
Lemma forget_left s b cs' keep : sub_ok b ->
  (forall s', get_session_channels s' (set_indexes b (sb_routes b) keep) = if decide (s' = s) then cs' else get_session_channels s' b) ->
  cs' ⊆ get_session_channels s b ->
  (forall s0 cs, keep !! s0 = Some cs -> cs <> ∅ /\ (size cs <= sb_max_per_session b)%nat) ->
  left_behind s (set_indexes b (sb_routes b) keep) (get_session_channels s b ∖ cs').
Proof.
  intros Hok Hg Hsub Hk. split; [|split; [apply (su_nodup _ Hok)|split; [exact Hk|split; [apply (su_limits _ Hok)|]]]].
  - intros s' c. simpl. rewrite Hg, (su_agree _ Hok). case_decide; subst; [|set_solver]. destruct (decide (c ∈ cs')); set_solver.
  - rewrite Hg, decide_True by done. set_solver.
Qed.
Lemma unsubscribe_ok s c b : sub_ok b -> sub_ok (unsubscribe s c b).2.
Proof.
  intros Hok. unfold unsubscribe. destruct (sb_channels b !! s) as [cs|] eqn:E; [|done]. cbv zeta. cbn [snd].
  assert (get_session_channels s b = cs) as Hcs by (unfold get_session_channels; by rewrite E).
  set (keep := if decide (cs ∖ {[c]} = ∅) then delete s (sb_channels b) else <[s := cs ∖ {[c]}]> (sb_channels b)).
  assert (left_behind s (set_indexes b (sb_routes b) keep) (get_session_channels s b ∖ (cs ∖ {[c]}))) as Hleft.
  { apply forget_left; [done| |set_solver|].
    - intros s'. unfold get_session_channels. simpl. subst keep. destruct (decide (s' = s)) as [->|Hns].
      + destruct (decide (cs ∖ {[c]} = ∅)) as [He|]; [by rewrite lookup_delete_eq, He|by rewrite lookup_insert_eq].
      + destruct (decide (cs ∖ {[c]} = ∅)); [by rewrite lookup_delete_ne|by rewrite lookup_insert_ne].
    - intros s0 x. subst keep. destruct (decide (cs ∖ {[c]} = ∅)); [intros [_ H]%lookup_delete_Some; by apply (su_sets _ Hok s0)|].
      intros [[_ <-]|[_ H]]%lookup_insert_Some; [|by apply (su_sets _ Hok s0)]. split; [done|].
      destruct (su_sets _ Hok s cs E) as [_ Hsz]. assert (size (cs ∖ {[c]}) <= size cs)%nat by (apply subseteq_size; set_solver). lia. }
  rewrite Hcs in Hleft. case_bool_decide as Hin.
  - apply (left_nothing s). apply leave_one; [|set_solver]. replace ({[c]} ∪ ∅) with (cs ∖ (cs ∖ {[c]})); [done|]. apply set_eq. intros x. destruct (decide (x = c)); set_solver.
  - apply (left_nothing s). replace ∅ with (cs ∖ (cs ∖ {[c]})); [done|]. set_solver.
Qed.
Lemma leave_all s l b : left_behind s b (list_to_set l) -> NoDup l -> sub_ok (foldl (fun b c => unsubscribe_from_channel s c b) b l).
Proof.
  revert b. induction l as [|c l IH]; intros b Hl Hn; simpl; [by apply (left_nothing s)|]. apply NoDup_cons in Hn as [Hc Hn].
  apply IH; [|done]. apply leave_one; [done|]. by rewrite elem_of_list_to_set.
Qed.
Lemma disconnect_ok s b : sub_ok b -> sub_ok (on_session_disconnect s b).2.
Proof.
  intros Hok. unfold on_session_disconnect. cbn [snd]. apply leave_all; [|apply NoDup_elements]. fold (get_session_channels s b).
  rewrite list_to_set_elements_L. rewrite <- (difference_empty_L (get_session_channels s b)) at 1. apply forget_left; [done| |set_solver|].
  - intros s'. unfold get_session_channels. simpl. case_decide as H; [subst; by rewrite lookup_delete_eq|by rewrite lookup_delete_ne].
  - intros s0 x [_ H]%lookup_delete_Some. by apply (su_sets _ Hok s0).
Qed.

Inductive sub_step : SubscribeManager -> SubscribeManager -> Prop :=
| SuSubscribe b s c : sub_step b (subscribe s c b).2
| SuUnsubscribe b s c : sub_step b (unsubscribe s c b).2
| SuDisconnect b s : sub_step b (on_session_disconnect s b).2.
Lemma sub_reachable_ok n k b : rtc sub_step (new_with_limits n k) b -> sub_ok b /\ sb_max_per_session b = Nat.max n 1 /\ sb_max_online b = Nat.max k 1.
Proof.
  revert b. apply (rtc_ind_r (fun b => sub_ok b /\ sb_max_per_session b = Nat.max n 1 /\ sb_max_online b = Nat.max k 1) (new_with_limits n k)); [split; [apply sub_ok_new|done]|].
  assert (forall s c b, sb_max_per_session (unsubscribe_from_channel s c b) = sb_max_per_session b /\ sb_max_online (unsubscribe_from_channel s c b) = sb_max_online b) as Hu.
  { intros s c b. unfold unsubscribe_from_channel. by destruct (sb_routes b !! c). }
  intros x y _ Hs (Hok & <- & <-). destruct Hs as [b s c|b s c|b s].
  - split; [by apply subscribe_ok|]. unfold subscribe. repeat case_match; done.
  - split; [by apply unsubscribe_ok|]. unfold unsubscribe. destruct (sb_channels b !! s); [|done]. cbn [snd]. case_bool_decide; [|done]. by rewrite !(proj1 (Hu _ _ _)), !(proj2 (Hu _ _ _)).
  - split; [by apply disconnect_ok|]. unfold on_session_disconnect. cbn [snd]. generalize (elements (default ∅ (sb_channels b !! s))) as l. intros l.
    change (sb_max_per_session b) with (sb_max_per_session (set_indexes b (sb_routes b) (delete s (sb_channels b)))).
    change (sb_max_online b) with (sb_max_online (set_indexes b (sb_routes b) (delete s (sb_channels b)))).
    generalize (set_indexes b (sb_routes b) (delete s (sb_channels b))) as b'. induction l as [|c l IH]; intros b'; [done|]. cbn [foldl].
    destruct (IH (unsubscribe_from_channel s c b')) as [-> ->]. apply Hu.
Qed.
(** The RPC and the handler change subscriptions by these calls. *)
Lemma typing_run shown sent now uid sender cid l b : rtc sub_step b (handle_typing shown sent now uid sender cid l b).2.
Proof.
  unfold handle_typing. destruct (check_and_update now uid cid l) as [[] l1]; [|apply rtc_refl]. destruct sent as [ok|]; [|apply rtc_refl]. cbn [negb snd].
  generalize (filter (fun sid => ok sid = false) (typing_targets shown sender cid b)) as ts. intros ts. revert b. induction ts as [|t ts IH]; intros b; [apply rtc_refl|].
  cbn [foldl]. eapply rtc_l; [apply SuUnsubscribe|apply IH].
Qed.

(** Subscriptions are kept the same from both sides. After any subscriptions,
    cancellations and disconnections, a session is listed for a channel exactly when
    the channel is listed for the session, once; no session has more channels and no
    channel more sessions than the limits; and a session that is gone is listed
    nowhere. *)
Theorem subscriptions_agree (n k : nat) (b : SubscribeManager) :
  rtc sub_step (new_with_limits n k) b ->
  (forall s c, s ∈ get_channel_sessions c b <-> c ∈ get_session_channels s b) /\
  (forall c, NoDup (get_channel_sessions c b) /\ (length (get_channel_sessions c b) <= Nat.max k 1)%nat) /\
  (forall s, (size (get_session_channels s b) <= Nat.max n 1)%nat) /\
  (forall s c, s ∉ get_channel_sessions c (on_session_disconnect s b).2).
Proof.
  assert (forall b, sub_ok b -> forall c, get_channel_sessions c b = sessions_in b c) as Hsame.
  { intros b' Hok c. unfold get_channel_sessions. destruct (sb_routes b' !! c) as [l|] eqn:E; [|done]. simpl. apply unique_sessions_id. by apply (su_nodup _ Hok c). }
  intros (Hok & Hn & Hk)%sub_reachable_ok. split_and!.
  - intros s c. rewrite Hsame by done. apply (su_agree _ Hok).
  - intros c. rewrite Hsame by done. destruct (sb_routes b !! c) as [l|] eqn:E; simpl; [|split; [constructor|lia]]. destruct (su_nodup _ Hok c l E) as (? & _ & ?). split; [done|lia].
  - intros s. unfold get_session_channels. destruct (sb_channels b !! s) as [cs|] eqn:E; [destruct (su_sets _ Hok s cs E) as [_ H]; rewrite <- Hn; exact H|].
    change (size (∅ : gset Z) <= Nat.max n 1)%nat. rewrite size_empty. lia.
  - intros s c. pose proof (disconnect_ok s b Hok) as Hok'. rewrite Hsame by done. rewrite (su_agree _ Hok'). unfold on_session_disconnect. cbn [snd].
    assert (forall l b', get_session_channels s (foldl (fun b c => unsubscribe_from_channel s c b) b' l) = get_session_channels s b') as Hkeep.
    { induction l as [|x l IH]; intros b'; [done|]. cbn [foldl]. rewrite IH. unfold unsubscribe_from_channel. by destruct (sb_routes b' !! x). }
    rewrite Hkeep. unfold get_session_channels. simpl. rewrite lookup_delete_eq. set_solver.
Qed.

(** ** Typing *)
Record typing_call := mkTyping { ty_time : Z; ty_key : Z * Z }.
Fixpoint allowed_calls (l : TypingRateLimiter) (calls : list typing_call) : list typing_call :=
  match calls with
  | [] => []
  | c :: rest =>
      let '(ok, l') := check_and_update (ty_time c) (ty_key c).1 (ty_key c).2 l in
      if ok then c :: allowed_calls l' rest else allowed_calls l' rest
  end.
(** A call that was allowed is remembered, or lies far back. *)
Definition remembered (l : TypingRateLimiter) (now : Z) (a : typing_call) : Prop :=
  (exists t, tl_last l !! ty_key a = Some t /\ ty_time a <= t) \/ ty_time a + EXPIRE_THRESHOLD <= now.
Lemma delete_keys_lookup {A} (ks : list (Z * Z)) (m : gmap (Z * Z) A) k : foldl (fun m k => delete k m) m ks !! k = if decide (k ∈ ks) then None else m !! k.
Proof.
  revert m. induction ks as [|x ks IH]; intros m; cbn [foldl]; [by rewrite decide_False by set_solver|]. rewrite IH.
  destruct (decide (k ∈ ks)); [by rewrite decide_True by set_solver|]. destruct (decide (k = x)) as [->|]; [rewrite decide_True by set_solver; apply lookup_delete_eq|].
  rewrite decide_False by set_solver. by apply lookup_delete_ne.
Qed.
Lemma cleanup_remembers now l a : remembered l now a -> remembered (maybe_cleanup now l) now a.
Proof.
  intros Hr. assert (forall l', tl_last l' = tl_last l -> remembered (cleanup_expired now l') now a) as Hc.
  { intros l' Hl. destruct Hr as [(t & Ht & Hle)|?]; [|by right]. unfold remembered, cleanup_expired. cbn. rewrite Hl, delete_keys_lookup.
    case_decide as Hin; [|left; by exists t]. right. apply list_elem_of_filter in Hin as [Hx _]. rewrite Ht in Hx. cbn in Hx. apply Z.leb_le in Hx.
    unfold duration_since, saturating_sub, EXPIRE_THRESHOLD in *. lia. }
  assert (remembered (cleanup_expired_with_throttle now l) now a) as Ht by (unfold cleanup_expired_with_throttle; destruct (_ <? _); [done|by apply Hc]).
  unfold maybe_cleanup. cbv zeta. destruct (Nat.eqb _ _); [done|]. destruct (Nat.ltb _ _); [done|]. by destruct (Nat.leb _ _).
Qed.
Lemma later_remembered l now now' a : now <= now' -> remembered l now a -> remembered l now' a.
Proof. intros Hle [?|?]; [by left|right; lia]. Qed.
Lemma recorded_remembers l now k a : ty_time a <= now -> remembered l now a -> remembered (record_allowed now k l) now a.
Proof.
  intros Hle [(t & Ht & Hta)|?]; [|by right]. left. cbn. destruct (decide (ty_key a = k)) as [->|]; [rewrite lookup_insert_eq; by exists now|].
  rewrite lookup_insert_ne by done. by exists t.
Qed.
Lemma check_remembers l now u c a ok l' : ty_time a <= now -> remembered l now a -> check_and_update now u c l = (ok, l') ->
  remembered l' now a /\ (ok = true -> ty_key a = (u, c) -> ty_time a + MIN_INTERVAL <= now).
Proof.
  intros Hle Hr. unfold check_and_update. cbv zeta. assert (remembered (maybe_cleanup now (record_allowed now (u, c) l)) now a) as Hk
    by by apply cleanup_remembers, recorded_remembers.
  destruct (tl_last l !! (u, c)) as [t|] eqn:E.
  - destruct (Z.ltb_spec (duration_since now t) MIN_INTERVAL) as [|Hlt]; intros [= <- <-]; [by split|]. split; [done|]. intros _ Hkey.
    destruct Hr as [(t' & Ht' & ?)|?]; [rewrite Hkey, E in Ht'; injection Ht' as <-|]; unfold duration_since, saturating_sub, MIN_INTERVAL, EXPIRE_THRESHOLD in *; lia.
  - intros [= <- <-]. split; [done|]. intros _ Hkey. destruct Hr as [(t' & Ht' & _)|?]; [by rewrite Hkey, E in Ht'|]. unfold MIN_INTERVAL, EXPIRE_THRESHOLD in *. lia.
Qed.
Lemma new_remembered l now u c l' : check_and_update now u c l = (true, l') -> remembered l' now (mkTyping now (u, c)).
Proof.
  intros E. assert (l' = maybe_cleanup now (record_allowed now (u, c) l)) as ->.
  { unfold check_and_update in E. cbv zeta in E. destruct (tl_last l !! (u, c)); [destruct (_ <? _)|]; congruence. }
  apply cleanup_remembers. left. exists now. cbn. by rewrite lookup_insert_eq.
Qed.
Definition spaced (a b : typing_call) : Prop := ty_key a = ty_key b -> ty_time a + MIN_INTERVAL <= ty_time b.
Lemma allowed_spaced calls : forall l now, Sorted Z.le (now :: (ty_time <$> calls)) ->
  (forall a, ty_time a <= now -> remembered l now a -> Forall (spaced a) (allowed_calls l calls)) /\ ForallOrdPairs spaced (allowed_calls l calls).
Proof.
  induction calls as [|[t k] calls IH]; intros l now Hs; [split; [intros; constructor|constructor]|].
  apply Sorted_inv in Hs as [Hs Hh]. apply HdRel_inv in Hh. cbn [ty_time] in *. simpl. destruct k as [u c]. cbn [fst snd].
  destruct (check_and_update t u c l) as [ok l'] eqn:E. destruct (IH l' t Hs) as [H1 H2]. split.
  - intros a Ha Hr. destruct (check_remembers l t u c a ok l') as [Hr' Hsp]; [lia|by eapply later_remembered|done|].
    destruct ok; [constructor; [by intros Hk; apply Hsp|]|]; apply H1; (lia || done).
  - destruct ok; [|done]. constructor; [|done]. apply H1; [cbn; lia|]. by eapply new_remembered.
Qed.

(** Typing notices of one user in one channel are at least half a second apart, for
    any calls at any times that do not run backwards, whatever the cleanup removes in
    between. *)
Theorem typing_is_limited (start : Z) (calls : list typing_call) :
  Sorted Z.le (ty_time <$> calls) ->
  ForallOrdPairs (fun a b => ty_key a = ty_key b -> ty_time a + MIN_INTERVAL <= ty_time b) (allowed_calls (limiter_new start) calls).
Proof.
  intros Hs. destruct calls as [|c calls]; [constructor|]. destruct (allowed_spaced (c :: calls) (limiter_new start) (ty_time c)) as [_ H]; [|exact H].
  constructor; [done|]. simpl. constructor. lia.
Qed.

(** ** Tickets *)
Section TicketProperties.
Context `{J : TicketJwt}.
(** What the code relies on of the JWT crate: a signed token shows its key in the header
    and decodes under its secret until it has expired. *)
Hypothesis jwt_opens : forall kid secret c t, ticket_encode kid secret c = Some t ->
  t <> EmptyString /\ ticket_header t = Some (true, Some kid) /\
  forall now leeway, ticket_decode now leeway secret t = if tc_exp c + leeway <? now then Err TjExpired else Ok c.

(** A ticket opens the room it was made for, on the device it was made for, until it
    expires, and nothing else: a signed ticket is accepted exactly then, and is read
    back as it was signed. *)
Theorem ticket_opens_one_room cfg kid now uid dev cid ttl t :
  sign cfg kid (for_subscribe now uid dev cid ttl) = Ok t ->
  forall now' cid' dev' claims, verify now' cfg t cid' dev' = Ok claims <->
    claims = for_subscribe now uid dev cid ttl /\ cid' = cid /\ dev' = dev /\ now' <= u64_saturating_add now ttl + tf_leeway_secs cfg.
Proof.
  unfold sign. destruct (resolve_secret cfg (Some kid)) as [secret|] eqn:Es; [|done].
  destruct (ticket_encode kid secret _) as [t'|] eqn:Ee; [|done]. intros [= <-] now' cid' dev' claims.
  destruct (jwt_opens _ _ _ _ Ee) as (Hne & Hh & Hd). unfold verify. rewrite decide_False, Hh, Es, Hd by done. cbn [for_subscribe tc_exp].
  destruct (Z.ltb_spec (u64_saturating_add now ttl + tf_leeway_secs cfg) now') as [Hlt|Hle]; [split; [done|]; intros (_ & _ & _ & ?); lia|]. cbn.
  rewrite bool_decide_true by done. cbn.
  destruct (Z.eqb_spec cid cid') as [<-|]; cbn; [|split; [done|]; intros (_ & -> & _); done].
  destruct (decide (dev = dev')) as [<-|Hdev]; [rewrite bool_decide_true by done|rewrite bool_decide_false by done]; cbn.
  - split; [intros [= <-]; done|by intros (-> & _)].
  - split; [done|]. intros (_ & _ & -> & _). done.
Qed.
End TicketProperties.

(** ** Concrete subscriptions *)
Definition demo_subscribed : SubscribeManager := (subscribe 11 7 (subscribe 10 7 (new_with_limits 2 1)).2).2.
Lemma demo_subscribed_reachable : rtc sub_step (new_with_limits 2 1) demo_subscribed.
Proof. eapply rtc_l; [apply SuSubscribe|]. apply rtc_once, SuSubscribe. Qed.
Lemma subscriptions_agree_witness :
  get_channel_sessions 7 demo_subscribed = [10] /\ (10 ∈ get_channel_sessions 7 demo_subscribed <-> 7 ∈ get_session_channels 10 demo_subscribed).
Proof.
  split; [vm_compute; reflexivity|]. exact (proj1 (subscriptions_agree 2 1 demo_subscribed demo_subscribed_reachable) 10 7).
Defined.

Definition demo_calls : list typing_call := [mkTyping 0 (1, 7); mkTyping 400000000 (1, 7); mkTyping 500000000 (1, 7); mkTyping 500000000 (2, 7)].
Lemma typing_is_limited_witness :
  ty_time <$> allowed_calls (limiter_new 0) demo_calls = [0; 500000000; 500000000] /\
  ForallOrdPairs (fun a b => ty_key a = ty_key b -> ty_time a + MIN_INTERVAL <= ty_time b) (allowed_calls (limiter_new 0) demo_calls).
Proof.
  split; [vm_compute; reflexivity|]. apply (typing_is_limited 0 demo_calls). repeat constructor; vm_compute; discriminate.
Defined.

(** A crate whose tokens carry the claims in the clear, under the secret. *)
Definition demo_claims : RoomTicketClaims := for_subscribe 100 1 "d" 9 300.
Definition demo_jwt : TicketJwt := {|
  ticket_encode := fun kid secret c => if decide (c = demo_claims /\ kid = "v1"%string /\ secret <> EmptyString) then Some secret else None;
  ticket_header := fun t => if decide (t = EmptyString) then None else Some (true, Some "v1"%string);
  ticket_decode := fun now leeway secret t => if decide (t = secret) then (if tc_exp demo_claims + leeway <? now then Err TjExpired else Ok demo_claims) else Err TjSignature
|}.
Lemma ticket_opens_one_room_witness :
  sign (J := demo_jwt) (mkTicketConfig (Some "s"%string) ∅ "v1" 30) "v1" demo_claims = Ok "s"%string /\
  verify (J := demo_jwt) 430 (mkTicketConfig (Some "s"%string) ∅ "v1" 30) "s" 9 "d" = Ok demo_claims /\
  verify (J := demo_jwt) 430 (mkTicketConfig (Some "s"%string) ∅ "v1" 30) "s" 8 "d" <> Ok demo_claims.
Proof.
  assert (sign (J := demo_jwt) (mkTicketConfig (Some "s"%string) ∅ "v1" 30) "v1" (for_subscribe 100 1 "d" 9 300) = Ok "s"%string) as Hs by (vm_compute; reflexivity).
  split; [exact Hs|].
  assert (forall now' cid' dev' claims, verify (J := demo_jwt) now' (mkTicketConfig (Some "s"%string) ∅ "v1" 30) "s" cid' dev' = Ok claims <->
    claims = for_subscribe 100 1 "d" 9 300 /\ cid' = 9 /\ dev' = "d"%string /\ now' <= u64_saturating_add 100 300 + 30) as H.
  { refine (ticket_opens_one_room (J := demo_jwt) _ (mkTicketConfig (Some "s"%string) ∅ "v1" 30) "v1" 100 1 "d" 9 300 "s" Hs).
    intros kid secret c t. cbn. case_decide as Hc; [|done]. destruct Hc as (-> & -> & Hne). intros [= <-]. rewrite decide_False by done.
    split; [done|]. split; [done|]. intros now leeway. rewrite decide_True by done. reflexivity. }
  split; [apply H; vm_compute; auto; split_and!; try done|]. intros Hbad. apply H in Hbad as (_ & Hbad & _). discriminate Hbad.
Defined.

(** The kind of a channel is taken from the request: where no tickets are configured,
    a user subscribes to the group of others by calling it a room. *)
#[local] Existing Instances run_permissions run_time demo_chrono demo_postgres demo_jwt.
Definition stranger_subscribes (kind : Z) :=
  handle_subscribe no_io no_io 3000000 0 3 None (mkRoomConfig false 0 0) (mkSubscriber 30 (Some "3"%string) (Some "d"%string)) (mkSubscribe kind 1 100 "")
    subscriptions_new (w_state run_created).
Example stranger_in_group : (stranger_subscribes 2).1.1.1 = 4 /\ (stranger_subscribes 3).1.1.1 = 0 /\ get_channel_sessions 100 (stranger_subscribes 3).1.1.2 = [30].
Proof. split; [|split]; vm_compute; reflexivity. Qed.
