(* ===== verification/Push.v ===== *)
(** * Push notifications

    Models the push intents of src/src/push: their state (intent_state.rs), the planner
    that makes and cancels them (planner.rs), the worker that sends them (worker.rs,
    types.rs), and the queries of src/src/repository/user_device_repo.rs they use.

    Each map of [IntentStateManager] has its own lock; planner events are handled one
    at a time, and the worker only reads the statuses, so an event is one step. An
    intent waits in [ps_queue] until the worker takes it; retries wait in [ps_retries].
    The providers and Redis are arguments; [ps_sent] is what the providers were asked
    to send. *)

From stdpp Require Import base numbers gmap list sorting strings.
From S2P Require Import Prelude Friend Submit Payload.
Local Open Scope Z_scope.

(** ** Types *)
Inductive PushVendor := Apns | Fcm | Hms | Xiaomi | Oppo | Vivo | Honor | Lenovo | Zte | Meizu.
#[export] Instance push_vendor_eq_dec : EqDecision PushVendor.
Proof. solve_decision. Defined.
Definition vendor_as_str (v : PushVendor) : string :=
  match v with
  | Apns => "apns" | Fcm => "fcm" | Hms => "hms" | Xiaomi => "xiaomi" | Oppo => "oppo" | Vivo => "vivo" | Honor => "honor"
  | Lenovo => "lenovo" | Zte => "zte" | Meizu => "meizu"
  end.
(** The derived [Debug]. *)
Definition vendor_debug (v : PushVendor) : string :=
  match v with
  | Apns => "Apns" | Fcm => "Fcm" | Hms => "Hms" | Xiaomi => "Xiaomi" | Oppo => "Oppo" | Vivo => "Vivo" | Honor => "Honor"
  | Lenovo => "Lenovo" | Zte => "Zte" | Meizu => "Meizu"
  end.
Record PushPayload := mkPayload {
  py_type : string; py_conversation : Z; py_channel_type : Z; py_unread_total : Z; py_message_type : string; py_show_preview : bool;
  py_message_id : Z; py_sender_id : Z; py_preview : string
}.
Inductive IntentStatus := Pending | Processing | Sent | Cancelled | Revoked.
#[export] Instance intent_status_eq_dec : EqDecision IntentStatus.
Proof. solve_decision. Defined.
Record PushIntent := mkIntent {
  pi_id : string; pi_message : Z; pi_conversation : Z; pi_user : Z; pi_device : string; pi_sender : Z; pi_payload : PushPayload;
  pi_created_at : Z; pi_not_before_ms : Z; pi_retry : Z
}.
Definition intent_new (i : string) (mid conv uid : Z) (device : string) (sender : Z) (p : PushPayload) (created not_before : Z) : PushIntent :=
  mkIntent i mid conv uid device sender p created not_before 0.
Definition for_retry (i : PushIntent) (device : string) : PushIntent :=
  mkIntent (pi_id i) (pi_message i) (pi_conversation i) (pi_user i) device (pi_sender i) (pi_payload i) (pi_created_at i) (pi_not_before_ms i) (pi_retry i + 1).
Record PushTask := mkTask {
  tk_intent : string; tk_user : Z; tk_device : string; tk_vendor : PushVendor; tk_token : string; tk_payload : PushPayload
}.

(** ** The state of the intents *)
Record IntentStateManager := mkIntents {
  is_by_message : gmap Z (list string); is_by_user : gmap Z (list string); is_by_device : gmap string (list string); is_status : gmap string IntentStatus
}.
Definition intents_new : IntentStateManager := mkIntents ∅ ∅ ∅ ∅.
Definition append `{Countable K} (m : gmap K (list string)) (k : K) (i : string) : gmap K (list string) := <[k := default [] (m !! k) ++ [i]]> m.
Definition register_device_intent (i : string) (mid uid : Z) (device : string) (s : IntentStateManager) : IntentStateManager :=
  mkIntents (append (is_by_message s) mid i) (append (is_by_user s) uid i)
    (if decide (device = EmptyString) then is_by_device s else append (is_by_device s) device i) (<[i := Pending]> (is_status s)).
Definition register_intent (i : string) (mid uid : Z) (s : IntentStateManager) : IntentStateManager := register_device_intent i mid uid EmptyString s.
Definition get_status (i : string) (s : IntentStateManager) : option IntentStatus := is_status s !! i.
(** The pending ones of a list get a new status; their number. *)
Definition mark_one (st : IntentStatus) (acc : nat * gmap string IntentStatus) (i : string) : nat * gmap string IntentStatus :=
  if decide (acc.2 !! i = Some Pending) then (S acc.1, <[i := st]> acc.2) else acc.
Definition mark (st : IntentStatus) (ids : list string) (s : IntentStateManager) : nat * IntentStateManager :=
  let '(n, m) := foldl (mark_one st) (0%nat, is_status s) ids in (n, mkIntents (is_by_message s) (is_by_user s) (is_by_device s) m).
Definition of_message (mid : Z) (s : IntentStateManager) : list string := default [] (is_by_message s !! mid).
Definition of_user (uid : Z) (s : IntentStateManager) : list string := default [] (is_by_user s !! uid).
Definition mark_revoked (mid : Z) (s : IntentStateManager) : nat * IntentStateManager := mark Revoked (of_message mid s) s.
Definition mark_cancelled (uid : Z) (s : IntentStateManager) : nat * IntentStateManager := mark Cancelled (of_user uid s) s.
Definition mark_cancelled_by_device (device : string) (s : IntentStateManager) : nat * IntentStateManager :=
  mark Cancelled (default [] (is_by_device s !! device)) s.
Definition mark_cancelled_by_message_user (mid uid : Z) (s : IntentStateManager) : nat * IntentStateManager :=
  mark Cancelled (filter (fun i => i ∈ of_user uid s) (of_message mid s)) s.
Definition users_with_intents_for_message (mid : Z) (s : IntentStateManager) : list Z :=
  merge_sort Z.le (filter (fun p : Z * list string => existsb (fun i => bool_decide (i ∈ of_message mid s)) p.2 = true) (map_to_list (is_by_user s))).*1.

(** ** Devices and settings *)
Record UserDevice := mkDevice { ud_vendor : string; ud_token : option string; ud_armed : bool }.
Record PushPreference := mkPreference { pf_show_preview : bool; pf_global_mute : bool }.
Definition preference_default : PushPreference := mkPreference true false.
(** The two fields of the stored value, where they are booleans. *)
Definition preference_from_json (v : option (option bool * option bool)) : PushPreference :=
  match v with
  | None => preference_default
  | Some (p, g) => mkPreference (default true p) (default false g)
  end.
Record PushContext := mkPushContext { px_muted : bool; px_unread_total : Z; px_show_preview : bool; px_global_mute : bool }.
Record PushTables := mkPushTables {
  pt_devices : gmap (Z * string) UserDevice;
  pt_channels : gmap (Z * Z) (bool * Z);
  pt_settings : gmap Z (option bool * option bool)
}.
Definition vendor_table : list (string * PushVendor) :=
  [("apns", Apns); ("fcm", Fcm); ("hms", Hms); ("huawei", Hms); ("huawei_push", Hms); ("harmony", Hms); ("harmonyos", Hms);
   ("xiaomi", Xiaomi); ("mi", Xiaomi); ("mipush", Xiaomi); ("mi_push", Xiaomi); ("oppo", Oppo); ("heytap", Oppo); ("heytap_push", Oppo);
   ("vivo", Vivo); ("vivo_push", Vivo); ("honor", Honor); ("honor_push", Honor); ("lenovo", Lenovo); ("lenovo_push", Lenovo);
   ("zte", Zte); ("zte_push", Zte); ("meizu", Meizu); ("meizu_push", Meizu)]%string.
(** [from_str] on a name in lower case. *)
Definition vendor_of (s : string) : option PushVendor := snd <$> head (filter (fun p : string * PushVendor => p.1 = s) vendor_table).
Section Devices.
(** [str::to_lowercase]. *)
Context (lower : string -> string).
Definition vendor_from_str (s : string) : option PushVendor := vendor_of (lower s).
Definition load_push_context (fault : option string) (t : PushTables) (uid cid : Z) : result PushContext ServerError :=
  match fault with
  | Some e => Err (Database ("查询推送上下文失败(user=" +:+ u64_to_string uid +:+ " channel=" +:+ u64_to_string cid +:+ "): " +:+ e))
  | None =>
      let p := preference_from_json (pt_settings t !! uid) in
      let unread := foldr Z.add 0 ((fun q : (Z * Z) * (bool * Z) => q.2.2) <$> filter (fun q : (Z * Z) * (bool * Z) => q.1.1 = uid /\ 0 < q.2.2) (map_to_list (pt_channels t))) in
      Ok (mkPushContext (default false (fst <$> pt_channels t !! (uid, cid))) unread (pf_show_preview p) (pf_global_mute p))
  end.
(** The armed devices of a user that have a token and a known vendor. *)
Definition pushable (p : (Z * string) * UserDevice) : option (string * PushVendor * string) :=
  if negb (ud_armed p.2) then None else tok ← ud_token p.2; v ← vendor_from_str (ud_vendor p.2); Some (p.1.2, v, tok).
Definition get_user_devices (fault : option string) (t : PushTables) (uid : Z) : result (list (string * PushVendor * string)) ServerError :=
  match fault with
  | Some e => Err (Database ("查询用户设备失败: " +:+ e))
  | None => Ok (omap pushable (filter (fun p : (Z * string) * UserDevice => p.1.1 = uid) (map_to_list (pt_devices t))))
  end.
Definition get_device (fault : option string) (t : PushTables) (uid : Z) (device : string) : result (option (PushVendor * UserDevice)) ServerError :=
  match fault with
  | Some e => Err (Database ("查询设备失败: " +:+ e))
  | None =>
      match pt_devices t !! (uid, device) with
      | None => Ok None
      | Some d => match vendor_from_str (ud_vendor d) with Some v => Ok (Some (v, d)) | None => Err (Internal ("Unknown vendor: " +:+ ud_vendor d)) end
      end
  end.
Definition invalidate_push_token (uid : Z) (device stale : string) (t : PushTables) : PushTables :=
  match pt_devices t !! (uid, device) with
  | Some d => if decide (ud_token d = Some stale) then mkPushTables (<[(uid, device) := mkDevice (ud_vendor d) None false]> (pt_devices t)) (pt_channels t) (pt_settings t) else t
  | None => t
  end.

(** ** The planner *)
Definition PUSH_CANCEL_WINDOW_MS : Z := 2000.
(** Keys of Redis with the second they expire at. *)
Record PushLimits := mkLimits { pl_dedup : gmap (Z * Z) Z; pl_rate : gmap Z (Z * Z) }.
Record PushConfig := mkPushConfig { pc_redis : bool; pc_rate_max : Z; pc_window_secs : Z; pc_max_retry : Z; pc_retries : bool }.
Definition set_nx_ex (now_secs window : Z) (k : Z * Z) (l : PushLimits) : bool * PushLimits :=
  match pl_dedup l !! k with
  | Some t => if now_secs <? t then (false, l) else (true, mkLimits (<[k := now_secs + window]> (pl_dedup l)) (pl_rate l))
  | None => (true, mkLimits (<[k := now_secs + window]> (pl_dedup l)) (pl_rate l))
  end.
Definition incr_with_ttl (now_secs window : Z) (u : Z) (l : PushLimits) : Z * PushLimits :=
  let '(n, t) := match pl_rate l !! u with Some (n, t) => if now_secs <? t then (n + 1, t) else (1, now_secs + window) | None => (1, now_secs + window) end in
  (n, mkLimits (pl_dedup l) (<[u := (n, t)]> (pl_rate l))).
(** [fd] and [fr]: the two commands fail. *)
Definition admission_allowed (c : PushConfig) (fd fr : bool) (now_secs uid conv : Z) (l : PushLimits) : bool * PushLimits :=
  if negb (pc_redis c) then (true, l)
  else
    let '(first, l1) := if fd then (true, l) else set_nx_ex now_secs (pc_window_secs c) (uid, conv) l in
    if negb first then (false, l1)
    else if fr then (true, l1)
    else let '(n, l2) := incr_with_ttl now_secs (pc_window_secs c) uid l1 in (n <=? pc_rate_max c, l2).

Record PushSystem := mkPush {
  ps_intents : IntentStateManager; ps_queue : list PushIntent; ps_retries : list (Z * PushIntent); ps_limits : PushLimits;
  ps_tables : PushTables; ps_sent : list PushTask
}.
Definition enqueue (s : PushSystem) (st : IntentStateManager) (i : PushIntent) : PushSystem :=
  mkPush st (ps_queue s ++ [i]) (ps_retries s) (ps_limits s) (ps_tables s) (ps_sent s).
Definition set_intents (s : PushSystem) (st : IntentStateManager) : PushSystem := mkPush st (ps_queue s) (ps_retries s) (ps_limits s) (ps_tables s) (ps_sent s).
Definition set_limits (s : PushSystem) (l : PushLimits) : PushSystem := mkPush (ps_intents s) (ps_queue s) (ps_retries s) l (ps_tables s) (ps_sent s).

Record MessageCommitted := mkCommittedEvent {
  mc_message : Z; mc_conversation : Z; mc_sender : Z; mc_recipient : Z; mc_preview : string; mc_channel_type : Z; mc_message_type : string;
  mc_timestamp : Z; mc_device : option string
}.
(** [i] is the new id; the queue of the worker is open. *)
Definition handle_message_committed (c : PushConfig) (fault : option string) (fd fr : bool) (now_ms : Z) (i : string) (e : MessageCommitted) (s : PushSystem)
    : PushSystem :=
  match load_push_context fault (ps_tables s) (mc_recipient e) (mc_conversation e) with
  | Err _ => s
  | Ok x =>
      if px_global_mute x || px_muted x then s
      else
        let '(allowed, l) := admission_allowed c fd fr (now_ms / 1000) (mc_recipient e) (mc_conversation e) (ps_limits s) in
        let s1 := set_limits s l in
        if negb allowed then s1
        else
          let device := default EmptyString (mc_device e) in
          let p := mkPayload "new_message" (mc_conversation e) (mc_channel_type e) (px_unread_total x) (mc_message_type e) (px_show_preview x)
                     (mc_message e) (mc_sender e) (mc_preview e) in
          enqueue s1 (register_device_intent i (mc_message e) (mc_recipient e) device (ps_intents s1))
            (intent_new i (mc_message e) (mc_conversation e) (mc_recipient e) device (mc_sender e) p (mc_timestamp e) (now_ms + PUSH_CANCEL_WINDOW_MS))
  end.
Definition handle_friend_request_received (fault : option string) (now_ms : Z) (i : string) (requester : Z) (nm : string) (target timestamp : Z) (s : PushSystem)
    : PushSystem :=
  match load_push_context fault (ps_tables s) target 0 with
  | Err _ => s
  | Ok x =>
      if px_global_mute x then s
      else
        let p := mkPayload "friend_request" 0 0 (px_unread_total x) EmptyString (px_show_preview x) 0 requester nm in
        enqueue s (register_intent i 0 target (ps_intents s)) (intent_new i 0 0 target EmptyString requester p timestamp (now_ms + PUSH_CANCEL_WINDOW_MS))
  end.
(** The silent pushes that remove a notification are not registered. *)
Definition revoke_intent (now_ms : Z) (mid conv : Z) (q : Z * string) : PushIntent :=
  intent_new q.2 mid conv q.1 EmptyString 0 (mkPayload "revoke" conv 0 0 EmptyString false mid 0 EmptyString) (now_ms / 1000) now_ms.
Definition handle_message_revoked (now_ms : Z) (ids : list string) (mid conv : Z) (s : PushSystem) : PushSystem :=
  let users := users_with_intents_for_message mid (ps_intents s) in
  let s1 := set_intents s (mark_revoked mid (ps_intents s)).2 in
  foldl (fun s q => enqueue s (ps_intents s) (revoke_intent now_ms mid conv q)) s1 (zip users ids).
Definition handle_user_online (uid : Z) (s : PushSystem) : PushSystem := set_intents s (mark_cancelled uid (ps_intents s)).2.
Definition handle_message_delivered (mid uid : Z) (device : string) (s : PushSystem) : PushSystem :=
  set_intents s (if decide (device = EmptyString) then (mark_cancelled_by_message_user mid uid (ps_intents s)).2
                 else (mark_cancelled_by_device device (ps_intents s)).2).
Definition handle_device_online (device : string) (s : PushSystem) : PushSystem := set_intents s (mark_cancelled_by_device device (ps_intents s)).2.

Inductive PlannerEvent :=
  | OnMessageCommitted (e : MessageCommitted)
  | OnMessageRevoked (message_id conversation_id : Z)
  | OnUserOnline (user_id : Z)
  | OnMessageDelivered (message_id user_id : Z) (device : string)
  | OnFriendRequestReceived (requester : Z) (requester_name : string) (target timestamp : Z)
  | OnDeviceOnline (device : string).
(** What one event needs beyond the state: new ids, and which calls fail. *)
Record PlannerEnv := mkEnv { pe_fault : option string; pe_dedup_fails : bool; pe_rate_fails : bool; pe_id : string; pe_ids : list string }.
(** The body of the loop of [PushPlanner::start]. *)
Definition plan (c : PushConfig) (env : PlannerEnv) (now_ms : Z) (e : PlannerEvent) (s : PushSystem) : PushSystem :=
  match e with
  | OnMessageCommitted e => handle_message_committed c (pe_fault env) (pe_dedup_fails env) (pe_rate_fails env) now_ms (pe_id env) e s
  | OnMessageRevoked mid conv => handle_message_revoked now_ms (pe_ids env) mid conv s
  | OnUserOnline uid => handle_user_online uid s
  | OnMessageDelivered mid uid device => handle_message_delivered mid uid device s
  | OnFriendRequestReceived r nm target ts => handle_friend_request_received (pe_fault env) now_ms (pe_id env) r nm target ts s
  | OnDeviceOnline device => handle_device_online device s
  end.

(** ** The worker *)
Definition RETRY_BACKOFF : list Z := [10; 30; 120].
Definition is_retryable (e : ServerError) : bool := match e with PushTokenInvalid _ => false | _ => true end.
Definition schedule_retry (c : PushConfig) (now_ms : Z) (i : PushIntent) (device : string) (e : ServerError) (s : PushSystem) : PushSystem :=
  if negb (is_retryable e) || negb (pc_retries c) || (pc_max_retry c <=? pi_retry i) then s
  else
    match RETRY_BACKOFF !! Z.to_nat (pi_retry i) with
    | None => s
    | Some backoff =>
        mkPush (ps_intents s) (ps_queue s) (ps_retries s ++ [(now_ms + backoff * 1000, for_retry i device)]) (ps_limits s) (ps_tables s) (ps_sent s)
    end.
(** [providers]: which vendors are configured, and what each answers to a task. *)
Definition resolve_provider (configured : PushVendor -> bool) (v : PushVendor) : option PushVendor :=
  match v with
  | Honor => if configured Honor then Some Honor else if configured Hms then Some Hms else None
  | _ => if configured v then Some v else None
  end.
Definition handle_invalid_token (ok : bool) (e : ServerError) (t : PushTask) (s : PushSystem) : PushSystem :=
  match e with
  | PushTokenInvalid _ =>
      if ok then mkPush (ps_intents s) (ps_queue s) (ps_retries s) (ps_limits s) (invalidate_push_token (tk_user t) (tk_device t) (tk_token t) (ps_tables s)) (ps_sent s)
      else s
  | _ => s
  end.
Definition log_sent (s : PushSystem) (t : PushTask) : PushSystem :=
  mkPush (ps_intents s) (ps_queue s) (ps_retries s) (ps_limits s) (ps_tables s) (ps_sent s ++ [t]).
Record Providers := mkProviders { pv_configured : PushVendor -> bool; pv_send : PushTask -> result unit ServerError; pv_update : bool }.
Definition usable_token (t : option string) : option string := tok ← t; if trim_is_empty tok then None else Some tok.
(** One device. A missing provider is an error that is retried only on the path of an
    intent for a single device. *)
Definition send_task (c : PushConfig) (v : Providers) (now_ms : Z) (i : PushIntent) (t : PushTask) (s : PushSystem) : PushSystem :=
  match resolve_provider (pv_configured v) (tk_vendor t) with
  | None =>
      if decide (pi_device i = EmptyString) then s
      else schedule_retry c now_ms i (tk_device t) (Internal ("push provider not configured for vendor " +:+ vendor_debug (tk_vendor t))) s
  | Some _ =>
      let s1 := log_sent s t in
      match pv_send v t with
      | Ok _ => s1
      | Err e => schedule_retry c now_ms i (tk_device t) e (handle_invalid_token (pv_update v) e t s1)
      end
  end.
Definition may_proceed (i : PushIntent) (s : PushSystem) : bool :=
  match get_status (pi_id i) (ps_intents s) with Some Revoked | Some Cancelled | Some Sent => false | _ => true end.
(** The tasks of an intent: one for its device, or one for each device of the user. *)
Definition tasks_of (fault : option string) (t : PushTables) (i : PushIntent) : list PushTask :=
  if decide (pi_device i = EmptyString) then
    match get_user_devices fault t (pi_user i) with
    | Err _ => []
    | Ok ds => omap (fun d : string * PushVendor * string => let '(device, vendor, tok) := d in
                       tok ← usable_token (Some tok); Some (mkTask (pi_id i) (pi_user i) device vendor tok (pi_payload i))) ds
    end
  else
    match get_device fault t (pi_user i) (pi_device i) with
    | Ok (Some (vendor, d)) =>
        if negb (ud_armed d) then []
        else match usable_token (ud_token d) with
             | None => []
             | Some tok => [mkTask (pi_id i) (pi_user i) (pi_device i) vendor tok (pi_payload i)]
             end
    | _ => []
    end.
Definition process_intent (c : PushConfig) (v : Providers) (fault : option string) (now_ms : Z) (i : PushIntent) (s : PushSystem) : PushSystem :=
  if negb (may_proceed i s) then s else foldl (fun s t => send_task c v now_ms i t s) s (tasks_of fault (ps_tables s) i).
(** The worker takes an intent whose time has come out of the queue; a retry that is due
    goes back into it, when there is room. *)
Definition take_intent (pos : nat) (s : PushSystem) : PushSystem :=
  mkPush (ps_intents s) (delete pos (ps_queue s)) (ps_retries s) (ps_limits s) (ps_tables s) (ps_sent s).
Definition requeue (pos : nat) (room : bool) (s : PushSystem) : PushSystem :=
  match ps_retries s !! pos with
  | None => s
  | Some (_, i) =>
      mkPush (ps_intents s) (if room then ps_queue s ++ [i] else ps_queue s) (delete pos (ps_retries s)) (ps_limits s) (ps_tables s) (ps_sent s)
  end.
End Devices.
