(* ===== verification/PushFacts.v ===== *)
(** * Facts about push notifications

    The planner and the worker as a step relation ([push_step]): the planner handles one
    event at a time; the worker takes an intent from its queue once its waiting time is
    over, checks its status and reads the devices, and each send is a step of its own, so
    events come between the check and the sends. Ids are fresh UUIDs. *)

From stdpp Require Import base numbers gmap list list_numbers sorting strings relations.
From S2P Require Import Prelude Friend Submit Payload Push.
Local Open Scope Z_scope.

(** ** Lists *)
Lemma NoDup_omap_key {A B K} (g : A -> option B) (f : A -> K) (h : B -> K) l :
  (forall x y, x ∈ l -> g x = Some y -> h y = f x) -> NoDup (f <$> l) -> NoDup (h <$> omap g l).
Proof.
  intros Hg. induction l as [|x l IH]; [done|]. rewrite fmap_cons, NoDup_cons. intros [Hx Hn].
  assert (IH' : NoDup (h <$> omap g l)) by (apply IH; [intros; apply Hg; set_solver|done]).
  cbn. destruct (g x) as [y|] eqn:E; [|done]. rewrite fmap_cons, NoDup_cons. split; [|done].
  rewrite (Hg x y) by set_solver. intros (z & Hz & Hin)%list_elem_of_fmap. apply list_elem_of_omap in Hin as (w & Hw & Ez).
  apply Hx. rewrite Hz, (Hg w z) by set_solver. by apply list_elem_of_fmap_2.
Qed.
Lemma sum_with_zero {A} (f : A -> nat) l : (forall x, x ∈ l -> f x = 0%nat) -> sum_list_with f l = 0%nat.
Proof. induction l as [|x l IH]; intros H; cbn; [done|]. rewrite (H x), IH by set_solver. done. Qed.
(** Of a list with distinct keys, at most one member is counted. *)
Lemma sum_with_key {A K} `{EqDecision K} (key : A -> K) (f : A -> nat) k b l :
  NoDup (key <$> l) -> (forall x, x ∈ l -> key x <> k -> f x = 0%nat) -> (forall x, x ∈ l -> (f x <= b)%nat) -> (sum_list_with f l <= b)%nat.
Proof.
  induction l as [|x l IH]; intros Hn Hz Hb; cbn; [lia|]. rewrite fmap_cons, NoDup_cons in Hn. destruct Hn as [Hx Hn].
  destruct (decide (key x = k)) as [<-|Hk].
  - rewrite (sum_with_zero f l), Nat.add_0_r; [apply Hb; set_solver|]. intros y Hy. apply Hz; [set_solver|].
    intros E. apply Hx. rewrite <-E. by apply list_elem_of_fmap_2.
  - rewrite (Hz x) by set_solver. apply IH; [done|..]; intros; [apply Hz|apply Hb]; set_solver.
Qed.
Lemma sum_with_delete {A} (f : A -> nat) l pos x : l !! pos = Some x -> sum_list_with f l = (f x + sum_list_with f (delete pos l))%nat.
Proof. intros E. by rewrite (delete_Permutation l pos x E) at 1. Qed.
Lemma elem_of_delete {A} (l : list A) pos x : x ∈ delete pos l -> x ∈ l.
Proof. revert pos. induction l as [|y l IH]; intros [|pos]; cbn; set_solver. Qed.

(** ** The indexes and the statuses *)
Definition settled (st : option IntentStatus) : Prop := st = Some Cancelled \/ st = Some Revoked.
Lemma mark_fold st ids n m j : st <> Pending ->
  (foldl (mark_one st) (n, m) ids).2 !! j = if decide (j ∈ ids /\ m !! j = Some Pending) then Some st else m !! j.
Proof.
  intros Hst. revert n m. induction ids as [|i ids IH]; intros n m; cbn [foldl]; [case_decide; set_solver|].
  change (mark_one st (n, m) i) with (if decide (m !! i = Some Pending) then (S n, <[i := st]> m) else (n, m)).
  destruct (decide (m !! i = Some Pending)) as [Hi|Hi]; rewrite IH; [|repeat case_decide; set_solver].
  destruct (decide (i = j)) as [->|Hij]; [rewrite lookup_insert_eq|rewrite lookup_insert_ne by done]; repeat case_decide; set_solver.
Qed.
Lemma mark_status st ids s j : st <> Pending ->
  get_status j (mark st ids s).2 = if decide (j ∈ ids /\ get_status j s = Some Pending) then Some st else get_status j s.
Proof.
  intros Hst. unfold mark, get_status. pose proof (mark_fold st ids 0 (is_status s) j Hst) as H.
  destruct (foldl _ _ _) as [n m]. exact H.
Qed.
Lemma mark_index st ids s : let s' := (mark st ids s).2 in
  is_by_message s' = is_by_message s /\ is_by_user s' = is_by_user s /\ is_by_device s' = is_by_device s.
Proof. cbn. unfold mark. by destruct (foldl _ _ _). Qed.
Lemma mark_of_message st ids s mid : of_message mid (mark st ids s).2 = of_message mid s.
Proof. unfold of_message. by rewrite (proj1 (mark_index st ids s)). Qed.
Lemma mark_of_user st ids s uid : of_user uid (mark st ids s).2 = of_user uid s.
Proof. unfold of_user. by rewrite (proj1 (proj2 (mark_index st ids s))). Qed.
#[export] Hint Rewrite mark_of_message mark_of_user : privchat.
Lemma append_default `{Countable K} (m : gmap K (list string)) k k' i :
  default [] (append m k i !! k') = if decide (k = k') then default [] (m !! k') ++ [i] else default [] (m !! k').
Proof. unfold append. case_decide as E; [subst; by rewrite lookup_insert_eq|by rewrite lookup_insert_ne]. Qed.
Lemma register_of_message i mid uid d s mid' :
  of_message mid' (register_device_intent i mid uid d s) = if decide (mid = mid') then of_message mid' s ++ [i] else of_message mid' s.
Proof. apply append_default. Qed.
Lemma register_of_user i mid uid d s uid' :
  of_user uid' (register_device_intent i mid uid d s) = if decide (uid = uid') then of_user uid' s ++ [i] else of_user uid' s.
Proof. apply append_default. Qed.
Lemma register_status i mid uid d s j : get_status j (register_device_intent i mid uid d s) = if decide (i = j) then Some Pending else get_status j s.
Proof. unfold get_status; cbn. case_decide as E; [subst; by rewrite lookup_insert_eq|by rewrite lookup_insert_ne]. Qed.

(** What is in the indexes has a status, one message and one user, and is not "sent". *)
Record intents_ok (s : IntentStateManager) : Prop := {
  io_message : forall mid j, j ∈ of_message mid s -> is_Some (get_status j s);
  io_user : forall uid j, j ∈ of_user uid s -> is_Some (get_status j s);
  io_one_message : forall mid mid' j, j ∈ of_message mid s -> j ∈ of_message mid' s -> mid = mid';
  io_one_user : forall uid uid' j, j ∈ of_user uid s -> j ∈ of_user uid' s -> uid = uid';
  io_status : forall j, get_status j s = None \/ get_status j s = Some Pending \/ settled (get_status j s)
}.
Lemma intents_new_ok : intents_ok intents_new.
Proof. split; unfold of_message, of_user, get_status; cbn; intros *; rewrite ?lookup_empty; cbn; set_solver. Qed.
Lemma intents_mark_ok st ids s : st = Cancelled \/ st = Revoked -> intents_ok s -> intents_ok (mark st ids s).2.
Proof.
  intros Hst [H1 H2 H3 H4 H5]. assert (Hp : st <> Pending) by naive_solver.
  split; intros *; autorewrite with privchat; try rewrite mark_status by done; [| |naive_solver|naive_solver|].
  1,2: case_decide; eauto.
  unfold settled in *. case_decide; naive_solver.
Qed.
Lemma register_ok i mid uid d s : get_status i s = None -> intents_ok s -> intents_ok (register_device_intent i mid uid d s).
Proof.
  intros Hi [H1 H2 H3 H4 H5].
  assert (Nm : forall m, i ∉ of_message m s) by (intros m [? ?]%H1; congruence).
  assert (Nu : forall u, i ∉ of_user u s) by (intros u [? ?]%H2; congruence).
  split.
  - intros m j. rewrite register_of_message, register_status. repeat case_decide; set_solver.
  - intros m j. rewrite register_of_user, register_status. repeat case_decide; set_solver.
  - intros m m' j. rewrite !register_of_message. repeat case_decide; subst; rewrite ?elem_of_app, ?list_elem_of_singleton; naive_solver.
  - intros m m' j. rewrite !register_of_user. repeat case_decide; subst; rewrite ?elem_of_app, ?list_elem_of_singleton; naive_solver.
  - intros j. rewrite register_status. case_decide; [by right; left|apply H5].
Qed.

(** ** The planner and the worker together *)
Record PushRun := mkRun { pr_now : Z; pr_sys : PushSystem; pr_flight : list (PushIntent * PushTask) }.
Definition live (r : PushRun) : list PushIntent := ps_queue (pr_sys r) ++ (ps_retries (pr_sys r)).*2 ++ (pr_flight r).*1.
Definition status (j : string) (r : PushRun) : option IntentStatus := get_status j (ps_intents (pr_sys r)).
Definition unused (r : PushRun) (j : string) : Prop := status j r = None /\ j ∉ pi_id <$> live r /\ j ∉ tk_intent <$> ps_sent (pr_sys r).
Definition named_devices (t : PushTables) : Prop := forall uid, pt_devices t !! (uid, EmptyString) = None.
Definition set_tables (s : PushSystem) (t : PushTables) : PushSystem := mkPush (ps_intents s) (ps_queue s) (ps_retries s) (ps_limits s) t (ps_sent s).

Section Run.
Context (lower : string -> string) (c : PushConfig).
(** Time passes; the planner handles an event; other code changes the tables; the worker
    begins an intent (a task may end by its timeout), sends to one device, puts a retry
    back. *)
Inductive push_step : PushRun -> PushRun -> Prop :=
  | step_tick now now' s fl : now <= now' -> push_step (mkRun now s fl) (mkRun now' s fl)
  | step_plan now s fl env e :
      unused (mkRun now s fl) (pe_id env) -> NoDup (pe_ids env) -> Forall (unused (mkRun now s fl)) (pe_ids env) ->
      push_step (mkRun now s fl) (mkRun now (plan c env now e s) fl)
  | step_tables now s fl t : named_devices t -> push_step (mkRun now s fl) (mkRun now (set_tables s t) fl)
  | step_begin now s fl pos i fault : ps_queue s !! pos = Some i -> pi_not_before_ms i <= now ->
      push_step (mkRun now s fl)
        (mkRun now (take_intent pos s) (fl ++ (pair i <$> if may_proceed i s then tasks_of lower fault (ps_tables s) i else [])))
  | step_send now s fl pos i t v : fl !! pos = Some (i, t) -> push_step (mkRun now s fl) (mkRun now (send_task c v now i t s) (delete pos fl))
  | step_abandon now s fl pos : push_step (mkRun now s fl) (mkRun now s (delete pos fl))
  | step_requeue now s fl pos due i room : ps_retries s !! pos = Some (due, i) -> due <= now ->
      push_step (mkRun now s fl) (mkRun now (requeue pos room s) fl).

(** The whole of [process_intent] is its first step and its sends, without interruption. *)
Lemma sends_run v now i ts fl s :
  rtc push_step (mkRun now s (fl ++ (pair i <$> ts))) (mkRun now (foldl (fun s t => send_task c v now i t s) s ts) fl).
Proof.
  revert s. induction ts as [|t ts IH]; intros s; cbn [fmap list_fmap foldl]; [by rewrite app_nil_r|].
  eapply rtc_l; [eapply (step_send _ _ _ (length fl)); by apply list_lookup_middle|]. rewrite delete_middle. apply IH.
Qed.
Lemma process_intent_runs v fault now s fl pos i : ps_queue s !! pos = Some i -> pi_not_before_ms i <= now ->
  rtc push_step (mkRun now s fl) (mkRun now (process_intent lower c v fault now i (take_intent pos s)) fl).
Proof.
  intros Hq Hn. eapply rtc_l; [by eapply (step_begin _ _ _ pos i fault)|]. unfold process_intent.
  change (may_proceed i (take_intent pos s)) with (may_proceed i s). change (ps_tables (take_intent pos s)) with (ps_tables s).
  destruct (may_proceed i s); cbn [negb]; [apply sends_run|]. cbn. by rewrite app_nil_r.
Qed.

(** What an event does to the state: nothing but counters; one new intent; or marks and
    silent pushes. *)
Definition is_revoke (p : PushPayload) : Prop := py_type p = "revoke"%string.
#[export] Instance is_revoke_dec p : Decision (is_revoke p).
Proof. unfold is_revoke. apply _. Defined.
Inductive plan_effect (env : PlannerEnv) (s : PushSystem) : PushSystem -> Prop :=
  | effect_limits l : plan_effect env s (set_limits s l)
  | effect_new l i : pi_id i = pe_id env -> pi_retry i = 0 -> py_message_id (pi_payload i) = pi_message i -> ~ is_revoke (pi_payload i) ->
      plan_effect env s
        (enqueue (set_limits s l) (register_device_intent (pi_id i) (pi_message i) (pi_user i) (pi_device i) (ps_intents s)) i)
  | effect_mark st ids js : st = Cancelled \/ st = Revoked -> NoDup (pi_id <$> js) -> (forall i, i ∈ js -> pi_id i ∈ pe_ids env) ->
      (forall i, i ∈ js -> pi_retry i = 0 /\ py_message_id (pi_payload i) = pi_message i /\ is_revoke (pi_payload i)) ->
      plan_effect env s (mkPush (mark st ids (ps_intents s)).2 (ps_queue s ++ js) (ps_retries s) (ps_limits s) (ps_tables s) (ps_sent s)).
Lemma enqueue_all now mid conv qs s : foldl (fun s q => enqueue s (ps_intents s) (revoke_intent now mid conv q)) s qs
  = mkPush (ps_intents s) (ps_queue s ++ (revoke_intent now mid conv <$> qs)) (ps_retries s) (ps_limits s) (ps_tables s) (ps_sent s).
Proof.
  revert s. induction qs as [|q qs IH]; intros s; cbn [foldl fmap list_fmap]; [rewrite app_nil_r; by destruct s|].
  rewrite IH. cbn. by rewrite <-app_assoc.
Qed.
Lemma effect_only_mark env st ids s : st = Cancelled \/ st = Revoked -> plan_effect env s (set_intents s (mark st ids (ps_intents s)).2).
Proof.
  intros Hst. pose proof (effect_mark env s st ids [] Hst) as H. rewrite app_nil_r in H. apply H; [constructor|set_solver..].
Qed.
Lemma revoke_effect env now mid conv s : NoDup (pe_ids env) -> plan_effect env s (handle_message_revoked now (pe_ids env) mid conv s).
Proof.
  intros Hn. unfold handle_message_revoked. rewrite enqueue_all.
  refine (effect_mark env s Revoked (of_message mid (ps_intents s)) _ _ _ _ _); [by right|..].
  - rewrite <-list_fmap_compose. change (pi_id ∘ revoke_intent now mid conv) with (snd : Z * string -> string).
    generalize (users_with_intents_for_message mid (ps_intents s)) as us. generalize dependent (pe_ids env).
    intros ids. induction ids as [|j ids IH]; intros Hn [|u us]; cbn; try constructor; apply NoDup_cons in Hn as [Hj Hn]; [|by apply IH].
    intros ([u' j'] & -> & Hin)%list_elem_of_fmap. by apply elem_of_zip_r in Hin.
  - intros i ([u j] & -> & Hin)%list_elem_of_fmap. by apply elem_of_zip_r in Hin.
  - by intros i ([u j] & -> & Hin)%list_elem_of_fmap.
Qed.
Lemma plan_has_effect env now e s : NoDup (pe_ids env) -> plan_effect env s (plan c env now e s).
Proof.
  intros Hn. assert (Hid : plan_effect env s s) by (destruct s; apply (effect_limits env (mkPush _ _ _ _ _ _))).
  destruct e as [e|mid conv|uid|mid uid d|rq nm target ts|d]; cbn [plan].
  - unfold handle_message_committed. destruct (load_push_context _ _ _ _) as [x|]; [|done]. destruct (_ || _); [done|].
    destruct (admission_allowed _ _ _ _ _ _ _) as [a l]. destruct a; cbn [negb]; [|apply effect_limits]. by apply (effect_new env s l (intent_new _ _ _ _ _ _ _ _ _)).
  - by apply revoke_effect.
  - apply effect_only_mark. by left.
  - unfold handle_message_delivered. case_decide; apply effect_only_mark; by left.
  - unfold handle_friend_request_received. destruct (load_push_context _ _ _ _) as [x|]; [|done]. destruct (px_global_mute x); [done|].
    by apply (effect_new env s (ps_limits s) (intent_new _ _ _ _ _ _ _ _ _)).
  - apply effect_only_mark. by left.
Qed.

(** ** The invariant *)
Definition cap : nat := S (min (Z.to_nat (pc_max_retry c)) 3).
Definition quota (i : PushIntent) : nat := (cap - Z.to_nat (pi_retry i))%nat.
(** The sends to device [d] that an intent [x] still has, and those it had. *)
Definition owes (x d : string) (i : PushIntent) : nat :=
  if decide (pi_id i = x /\ (pi_device i = EmptyString \/ pi_device i = d)) then quota i else 0%nat.
Definition owes_task (x d : string) (p : PushIntent * PushTask) : nat := if decide (pi_id p.1 = x /\ tk_device p.2 = d) then quota p.1 else 0%nat.
Definition sent_to (x d : string) (t : PushTask) : nat := if decide (tk_intent t = x /\ tk_device t = d) then 1%nat else 0%nat.
Definition sends (x d : string) (s : PushSystem) : nat := sum_list_with (sent_to x d) (ps_sent s).
Definition budget (x d : string) (r : PushRun) : nat :=
  (sends x d (pr_sys r) + sum_list_with (owes x d) (ps_queue (pr_sys r)) + sum_list_with (owes x d) (ps_retries (pr_sys r)).*2
   + sum_list_with (owes_task x d) (pr_flight r))%nat.

Definition filed (st : IntentStateManager) (j : string) (mid uid : Z) : Prop := j ∈ of_message mid st /\ j ∈ of_user uid st.
Definition intent_ok (st : IntentStateManager) (i : PushIntent) : Prop :=
  (is_revoke (pi_payload i) \/ filed st (pi_id i) (pi_message i) (pi_user i)) /\ py_message_id (pi_payload i) = pi_message i /\
  0 <= pi_retry i /\ (Z.to_nat (pi_retry i) < cap)%nat.
Definition task_ok (p : PushIntent * PushTask) : Prop :=
  tk_intent p.2 = pi_id p.1 /\ tk_user p.2 = pi_user p.1 /\ tk_payload p.2 = pi_payload p.1 /\
  (pi_device p.1 = EmptyString \/ pi_device p.1 = tk_device p.2) /\ tk_device p.2 <> EmptyString.
Definition sent_ok (st : IntentStateManager) (t : PushTask) : Prop :=
  is_revoke (tk_payload t) \/ filed st (tk_intent t) (py_message_id (tk_payload t)) (tk_user t).
Record run_ok (r : PushRun) : Prop := {
  ro_intents : intents_ok (ps_intents (pr_sys r));
  ro_tables : named_devices (ps_tables (pr_sys r));
  ro_live : forall i, i ∈ live r -> intent_ok (ps_intents (pr_sys r)) i;
  ro_flight : forall p, p ∈ pr_flight r -> task_ok p;
  ro_sent : forall t, t ∈ ps_sent (pr_sys r) -> sent_ok (ps_intents (pr_sys r)) t;
  ro_budget : forall x d, d <> EmptyString -> (budget x d r <= cap)%nat
}.
Lemma filed_mark st ids s j mid uid : filed (mark st ids s).2 j mid uid <-> filed s j mid uid.
Proof. unfold filed. by autorewrite with privchat. Qed.
Lemma filed_register i m u d s j mid uid : filed s j mid uid -> filed (register_device_intent i m u d s) j mid uid.
Proof. unfold filed. rewrite register_of_message, register_of_user. repeat case_decide; set_solver. Qed.
Lemma filed_new i m u d s : filed (register_device_intent i m u d s) i m u.
Proof. unfold filed. rewrite register_of_message, register_of_user, !decide_True by done. set_solver. Qed.
Lemma intent_ok_mono st st' i : (forall j mid uid, filed st j mid uid -> filed st' j mid uid) -> intent_ok st i -> intent_ok st' i.
Proof. unfold intent_ok. naive_solver. Qed.
Lemma sent_ok_mono st st' t : (forall j mid uid, filed st j mid uid -> filed st' j mid uid) -> sent_ok st t -> sent_ok st' t.
Proof. unfold sent_ok. naive_solver. Qed.

(** An id that is not in use has no sends and owes none. *)
Lemma unused_budget r x d : unused r x -> budget x d r = 0%nat.
Proof.
  intros (_ & Hl & Hs). unfold live in Hl. rewrite !fmap_app, !not_elem_of_app in Hl. destruct Hl as (Hq & Hr & Hf).
  unfold budget, sends. rewrite !sum_with_zero; [done|..]; intros i Hi.
  - unfold owes_task. rewrite decide_False; [done|]. intros [E _]. apply Hf. rewrite <-E, <-list_fmap_compose.
    by apply (list_elem_of_fmap_2 (pi_id ∘ fst)).
  - unfold owes. rewrite decide_False; [done|]. intros [<- _]. apply Hr. by apply list_elem_of_fmap_2.
  - unfold owes. rewrite decide_False; [done|]. intros [<- _]. apply Hq. by apply list_elem_of_fmap_2.
  - unfold sent_to. rewrite decide_False; [done|]. intros [<- _]. apply Hs. by apply list_elem_of_fmap_2.
Qed.
Lemma owes_le x d i : (owes x d i <= cap)%nat.
Proof. unfold owes, quota. case_decide; lia. Qed.
(** New intents with new ids keep within the budget. *)
Lemma budget_enqueue now s fl s' js x d :
  ps_sent s' = ps_sent s -> ps_queue s' = ps_queue s ++ js -> ps_retries s' = ps_retries s ->
  NoDup (pi_id <$> js) -> (forall i, i ∈ js -> unused (mkRun now s fl) (pi_id i)) -> (budget x d (mkRun now s fl) <= cap)%nat ->
  (budget x d (mkRun now s' fl) <= cap)%nat.
Proof.
  intros Es Eq Er Hn Hu Hb. unfold budget, sends in *. cbn [pr_sys pr_flight] in *. rewrite Es, Eq, Er, sum_list_with_app.
  destruct (decide (x ∈ pi_id <$> js)) as [(i & -> & Hi)%list_elem_of_fmap|Hx].
  - pose proof (unused_budget _ _ d (Hu i Hi)) as Hz. unfold budget, sends in Hz. cbn [pr_sys pr_flight] in Hz.
    assert (sum_list_with (owes (pi_id i) d) js <= cap)%nat; [|lia].
    apply (sum_with_key pi_id _ (pi_id i)); [done| |intros; apply owes_le]. intros j _ Hj. unfold owes. by rewrite decide_False by naive_solver.
  - rewrite (sum_with_zero (owes x d) js); [lia|]. intros i Hi. unfold owes. rewrite decide_False; [done|].
    intros [<- _]. by apply Hx, list_elem_of_fmap_2.
Qed.
Lemma live_in_flight r p : p ∈ pr_flight r -> p.1 ∈ live r.
Proof. intros H. unfold live. rewrite !elem_of_app. right; right. by apply list_elem_of_fmap_2. Qed.
Lemma plan_ok now s fl env s' : plan_effect env s s' -> unused (mkRun now s fl) (pe_id env) -> Forall (unused (mkRun now s fl)) (pe_ids env) ->
  run_ok (mkRun now s fl) -> run_ok (mkRun now s' fl).
Proof.
  intros He Hu Hus [H1 H2 H3 H4 H5 H6]. cbn [pr_sys pr_flight] in *. destruct He as [l|l i Hi Hr Hp Hk|st ids js Hst Hn Hj Hg].
  - by split.
  - split; cbn [pr_sys pr_flight enqueue set_limits ps_intents ps_tables ps_sent]; [|done| |done| |].
    + apply register_ok; [|done]. rewrite Hi. apply Hu.
    + intros i' Hi'. assert (i' ∈ live (mkRun now s fl) \/ i' = i) as [Hl| ->] by (unfold live in *; cbn in *; set_solver).
      * eapply intent_ok_mono; [apply filed_register|by apply H3].
      * split_and!; [right; apply filed_new|done|lia|rewrite Hr; unfold cap; lia].
    + intros t Ht. eapply sent_ok_mono; [apply filed_register|by apply H5].
    + intros x d Hd. eapply (budget_enqueue now s fl _ [i]); try done; [apply NoDup_singleton| |by apply H6].
      intros i' ->%list_elem_of_singleton. by rewrite Hi.
  - split; cbn [pr_sys pr_flight ps_intents ps_tables ps_sent]; [by apply intents_mark_ok|done| |done| |].
    + intros i Hi. assert (i ∈ live (mkRun now s fl) \/ i ∈ js) as [Hl|Hl] by (unfold live in *; cbn in *; set_solver).
      * eapply intent_ok_mono; [|by apply H3]. intros *. by rewrite filed_mark.
      * destruct (Hg i Hl) as (Hr & Hp & Hk). split_and!; [by left|done|lia|rewrite Hr; unfold cap; lia].
    + intros t Ht. eapply sent_ok_mono; [|by apply H5]. intros *. by rewrite filed_mark.
    + intros x d Hd. eapply (budget_enqueue now s fl _ js); try done; [|by apply H6].
      intros i Hi. rewrite Forall_forall in Hus. by apply Hus, Hj.
Qed.

(** The tasks of an intent are for its user, one for each device. *)
Lemma user_devices_of fault t uid ds : get_user_devices lower fault t uid = Ok ds ->
  NoDup ((fun d : string * PushVendor * string => d.1.1) <$> ds) /\ forall d, d ∈ ds -> exists u, pt_devices t !! (uid, d.1.1) = Some u.
Proof.
  unfold get_user_devices. destruct fault; [done|]. intros [= <-].
  assert (Hp : forall x y, pushable lower x = Some y -> y.1.1 = x.1.2).
  { intros x y. unfold pushable. destruct (ud_armed x.2); cbn [negb]; [|done]. intros E. apply bind_Some in E as (? & _ & E). apply bind_Some in E as (? & _ & [= <-]). done. }
  split.
  - apply (NoDup_omap_key _ (fun x : Z * string * UserDevice => x.1.2)); [intros; by apply Hp|].
    pose proof (NoDup_fst_map_to_list (pt_devices t)) as Hn. revert Hn. generalize (map_to_list (pt_devices t)) as l. clear.
    induction l as [|[[u d] x] l IH]; [constructor|]. rewrite fmap_cons, NoDup_cons. intros [Hx Hn]. rewrite filter_cons. cbn [fst].
    case_decide as E; [|by apply IH]. rewrite fmap_cons, NoDup_cons. split; [|by apply IH]. subst u. cbn [fst snd].
    intros ([[u' d'] x'] & E & [E' Hin]%list_elem_of_filter)%list_elem_of_fmap. cbn in E, E'. subst. apply Hx.
    by apply (list_elem_of_fmap_2 fst _ (uid, d', x')).
  - intros d (x & Hx & E)%list_elem_of_omap. apply list_elem_of_filter in Hx as [Eu Hx]. destruct x as [[u d'] x]. cbn in Eu. subst u.
    apply elem_of_map_to_list in Hx. exists x. by rewrite (Hp _ _ E).
Qed.
Lemma tasks_of_ok fault t i : named_devices t -> NoDup (tk_device <$> tasks_of lower fault t i) /\ forall k, k ∈ tasks_of lower fault t i -> task_ok (i, k).
Proof.
  intros Hd. unfold tasks_of. case_decide as Ei.
  - destruct (get_user_devices _ _ _ _) as [ds|] eqn:E; [|split; [constructor|set_solver]]. apply user_devices_of in E as [Hn Hin].
    assert (Hk : forall x k, x ∈ ds -> (let '(device, vendor, tok) := x in tok ← usable_token (Some tok);
        Some (mkTask (pi_id i) (pi_user i) device vendor tok (pi_payload i))) = Some k -> tk_device k = x.1.1 /\ task_ok (i, k)).
    { intros [[d v] tok] k Hx. destruct (usable_token _); cbn; [|done]. intros [= <-]. split; [done|]. split_and!; cbn; try done; [by left|].
      intros ->. destruct (Hin _ Hx) as [u Hu]. cbn in Hu. by rewrite Hd in Hu. }
    split; [eapply NoDup_omap_key; [|exact Hn]; intros; by eapply Hk|].
    intros k (x & Hx & E)%list_elem_of_omap. by eapply Hk.
  - destruct (get_device _ _ _ _ _) as [[[v d]|]|] eqn:E; try (split; [constructor|set_solver]).
    destruct (ud_armed d); cbn [negb]; [|split; [constructor|set_solver]]. destruct (usable_token _); [|split; [constructor|set_solver]].
    split; [apply NoDup_singleton|]. intros k ->%list_elem_of_singleton. split_and!; cbn; try done. by right.
Qed.

(** A send adds at most its task and at most one retry, for the same device. *)
Record send_does (i : PushIntent) (t : PushTask) (s s' : PushSystem) : Prop := {
  se_intents : ps_intents s' = ps_intents s;
  se_queue : ps_queue s' = ps_queue s;
  se_tables : named_devices (ps_tables s) -> named_devices (ps_tables s');
  se_sent : ps_sent s' = ps_sent s \/ ps_sent s' = ps_sent s ++ [t];
  se_retries : ps_retries s' = ps_retries s \/
    exists due, ps_retries s' = ps_retries s ++ [(due, for_retry i (tk_device t))] /\ (Z.to_nat (pi_retry i) + 1 < cap)%nat
}.
Lemma schedule_retry_effect now i t e s s0 : send_does i t s0 s -> ps_retries s = ps_retries s0 -> 0 <= pi_retry i ->
  send_does i t s0 (schedule_retry c now i (tk_device t) e s).
Proof.
  intros He Er Hi. unfold schedule_retry. destruct (_ || _) eqn:Eb; [done|]. apply orb_false_iff in Eb as [_ Eb]. apply Z.leb_gt in Eb.
  destruct (RETRY_BACKOFF !! _) as [b|] eqn:El; [|done]. apply lookup_lt_Some in El. cbn in El.
  destruct He as [H1 H2 H3 H4 H5]. split; cbn; try done. right. exists (now + b * 1000). rewrite Er. split; [done|]. unfold cap. lia.
Qed.
Lemma invalidate_named uid d k t : named_devices t -> named_devices (invalidate_push_token uid d k t).
Proof.
  intros H u. unfold invalidate_push_token. destruct (pt_devices t !! (uid, d)) as [x|] eqn:E; [|apply H]. case_decide; [|apply H]. cbn.
  destruct (decide ((uid, d) = (u, EmptyString))) as [Eu|Hu]; [|by rewrite lookup_insert_ne]. rewrite Eu in E. by rewrite H in E.
Qed.
Lemma send_task_effect v now i t s : 0 <= pi_retry i -> send_does i t s (send_task c v now i t s).
Proof.
  intros Hi. assert (Hid : send_does i t s s) by (split; eauto). unfold send_task.
  destruct (resolve_provider _ _); [|case_decide; [done|by apply schedule_retry_effect]].
  assert (Hlog : send_does i t s (log_sent s t)) by (split; cbn; eauto).
  destruct (pv_send v t) as [?|e]; [done|]. apply schedule_retry_effect; [| |done]; destruct e, (pv_update v); try done.
  split; cbn; eauto. apply invalidate_named.
Qed.
Lemma send_ok now s fl pos i t s' : fl !! pos = Some (i, t) -> send_does i t s s' -> run_ok (mkRun now s fl) -> run_ok (mkRun now s' (delete pos fl)).
Proof.
  intros Hpos [E1 E2 E3 E4 E5] [H1 H2 H3 H4 H5 H6]. cbn [pr_sys pr_flight] in *.
  assert (Hin : (i, t) ∈ fl) by by eapply list_elem_of_lookup_2. pose proof (H4 _ Hin) as (T1 & T2 & T3 & T4 & T5). cbn [fst snd] in *.
  pose proof (H3 i (live_in_flight (mkRun now s fl) _ Hin)) as (I1 & I2 & I3 & I4).
  assert (Hretry : (Z.to_nat (pi_retry i) + 1 < cap)%nat -> intent_ok (ps_intents s) (for_retry i (tk_device t))).
  { intros Hc. split_and!; cbn; [done|done|lia|lia]. }
  split; cbn [pr_sys pr_flight]; rewrite ?E1; [done|by apply E3| |by intros p Hp%elem_of_delete; apply H4| |].
  - intros k Hk. assert (k ∈ live (mkRun now s fl) \/ (k = for_retry i (tk_device t) /\ (Z.to_nat (pi_retry i) + 1 < cap)%nat)) as [Hl|[-> Hc]].
    + unfold live in *. cbn [pr_sys pr_flight] in *. rewrite E2 in Hk. rewrite !elem_of_app in *.
      destruct Hk as [Hk|[Hk|Hk]]; [naive_solver| |].
      * destruct E5 as [E5|(due & E5 & Hc)]; rewrite E5 in Hk; [naive_solver|]. rewrite fmap_app, elem_of_app in Hk. cbn in Hk. set_solver.
      * left; right; right. apply list_elem_of_fmap in Hk as (p & -> & Hp). by apply list_elem_of_fmap_2, (elem_of_delete _ pos).
    + by apply H3.
    + by apply Hretry.
  - intros k Hk. destruct E4 as [E4|E4]; rewrite E4 in Hk; [by apply H5|]. apply elem_of_app in Hk as [Hk| ->%list_elem_of_singleton]; [by apply H5|].
    unfold sent_ok. rewrite T1, T2, T3, I2. done.
  - intros x d Hd. specialize (H6 x d Hd). unfold budget, sends in *. cbn [pr_sys pr_flight] in *. rewrite E2.
    rewrite (sum_with_delete (owes_task x d) fl pos (i, t) Hpos) in H6. unfold owes_task at 1 in H6. cbn [fst snd] in H6.
    assert (Hs : (sum_list_with (sent_to x d) (ps_sent s') <= sum_list_with (sent_to x d) (ps_sent s) + if decide (pi_id i = x /\ tk_device t = d) then 1 else 0)%nat).
    { destruct E4 as [E4|E4]; rewrite E4; [lia|]. rewrite sum_list_with_app. cbn. unfold sent_to at 2. rewrite T1. lia. }
    assert (Hr : (sum_list_with (owes x d) (ps_retries s').*2 <= sum_list_with (owes x d) (ps_retries s).*2 + if decide (pi_id i = x /\ tk_device t = d) then quota i - 1 else 0)%nat).
    { destruct E5 as [E5|(due & E5 & Hc)]; rewrite E5; [lia|]. rewrite fmap_app, sum_list_with_app. cbn. unfold owes at 2, quota. cbn.
      repeat case_decide; try lia; naive_solver. }
    case_decide; unfold quota in *; lia.
Qed.
Lemma worker_begin_ok now s fl pos i fault : ps_queue s !! pos = Some i -> run_ok (mkRun now s fl) ->
  run_ok (mkRun now (take_intent pos s) (fl ++ (pair i <$> if may_proceed i s then tasks_of lower fault (ps_tables s) i else []))).
Proof.
  intros Hpos [H1 H2 H3 H4 H5 H6]. cbn [pr_sys pr_flight] in *. set (ts := if may_proceed i s then _ else _).
  assert (Hts : NoDup (tk_device <$> ts) /\ forall k, k ∈ ts -> task_ok (i, k)).
  { unfold ts. destruct (may_proceed i s); [by apply tasks_of_ok|]. split; [constructor|set_solver]. }
  destruct Hts as [Hn Hok]. assert (Hi : i ∈ ps_queue s) by by eapply list_elem_of_lookup_2.
  split; cbn [pr_sys pr_flight take_intent ps_intents ps_tables ps_sent]; [done|done| | |done|].
  - intros k Hk. apply H3. unfold live in *. cbn [pr_sys pr_flight take_intent ps_queue ps_retries] in *. rewrite fmap_app, !elem_of_app in Hk.
    destruct Hk as [Hk%elem_of_delete|[Hk|[Hk|Hk]]]; [set_solver..|].
    apply list_elem_of_fmap in Hk as (p & -> & (k & -> & _)%list_elem_of_fmap). set_solver.
  - intros p [Hp|Hp]%elem_of_app; [by apply H4|]. apply list_elem_of_fmap in Hp as (k & -> & Hk). by apply Hok.
  - intros x d Hd. specialize (H6 x d Hd). unfold budget, sends in *. cbn [pr_sys pr_flight take_intent ps_queue ps_retries ps_sent] in *.
    rewrite (sum_with_delete (owes x d) _ pos i Hpos) in H6. rewrite sum_list_with_app.
    assert (sum_list_with (owes_task x d) (pair i <$> ts) <= owes x d i)%nat; [|lia].
    apply (sum_with_key (fun p => tk_device p.2) _ d).
    + rewrite <-list_fmap_compose. exact Hn.
    + intros p _ Hp. unfold owes_task. by rewrite decide_False by naive_solver.
    + intros p (k & -> & Hk)%list_elem_of_fmap. destruct (Hok k Hk) as (_ & _ & _ & T4 & _). unfold owes_task, owes. cbn [fst snd] in *.
      repeat case_decide; try lia. naive_solver.
Qed.
Lemma requeue_ok now s fl pos room : run_ok (mkRun now s fl) -> run_ok (mkRun now (requeue pos room s) fl).
Proof.
  intros Hok. unfold requeue. destruct (ps_retries s !! pos) as [[due i]|] eqn:Hpos; [|done].
  destruct Hok as [H1 H2 H3 H4 H5 H6]. split; cbn [pr_sys pr_flight ps_intents ps_tables ps_sent] in *; try done.
  - intros k Hk. apply H3. unfold live in *. cbn [pr_sys pr_flight ps_queue ps_retries] in *.
    assert (Hi : i ∈ (ps_retries s).*2) by (apply (list_elem_of_fmap_2 snd _ (due, i)); by eapply list_elem_of_lookup_2).
    rewrite !elem_of_app in *. destruct Hk as [Hk|[Hk|Hk]]; [destruct room; set_solver| |naive_solver].
    right; left. apply list_elem_of_fmap in Hk as (p & -> & Hp%elem_of_delete). by apply list_elem_of_fmap_2.
  - intros x d Hd. specialize (H6 x d Hd). unfold budget, sends in *. cbn [pr_sys pr_flight ps_queue ps_retries ps_sent] in *.
    rewrite (sum_with_delete (owes x d) (ps_retries s).*2 pos i) in H6 by (by rewrite list_lookup_fmap, Hpos).
    replace (delete pos (ps_retries s).*2) with ((delete pos (ps_retries s)).*2) in H6 by (apply list_fmap_delete).
    destruct room; rewrite ?sum_list_with_app; cbn; lia.
Qed.
Lemma push_step_ok r r' : push_step r r' -> run_ok r -> run_ok r'.
Proof.
  intros Hs Hok. destruct Hs as [| | |now s fl pos i fault Hq Hn|now s fl pos i t v Hpos|now s fl pos|].
  - destruct Hok. by split.
  - eapply plan_ok; [by apply plan_has_effect|done..].
  - destruct Hok as [H1 H2 H3 H4 H5 H6]. split; try done.
  - by apply worker_begin_ok.
  - eapply send_ok; [done| |done]. apply send_task_effect.
    apply (ro_live _ Hok i), (live_in_flight (mkRun now s fl) (i, t)). by eapply list_elem_of_lookup_2.
  - destruct (fl !! pos) as [[i t]|] eqn:Hpos; [eapply send_ok; [done| |done]; split; eauto|].
    replace (delete pos fl) with fl; [done|]. clear Hok. revert pos Hpos. induction fl as [|? ? IH]; intros [|?] ?; cbn in *; try done. f_equal; auto.
  - by apply requeue_ok.
Qed.
Definition push_start (now : Z) (t : PushTables) : PushRun := mkRun now (mkPush intents_new [] [] (mkLimits ∅ ∅) t []) [].
Lemma push_start_ok now t : named_devices t -> run_ok (push_start now t).
Proof. split; cbn; [apply intents_new_ok|done|set_solver..|]. unfold budget; cbn. lia. Qed.
Lemma push_run_ok now t r : named_devices t -> rtc push_step (push_start now t) r -> run_ok r.
Proof. intros Ht. apply (rtc_ind_r (fun r => run_ok r)); [by apply push_start_ok|]. intros ? ? _ H ?. by eapply push_step_ok. Qed.

(** ** What stays as it is *)
Record later (r r' : PushRun) : Prop := {
  la_status : forall j, settled (status j r) -> settled (status j r');
  la_known : forall j, is_Some (status j r) -> is_Some (status j r');
  la_filed : forall j mid uid, is_Some (status j r) -> filed (ps_intents (pr_sys r')) j mid uid -> filed (ps_intents (pr_sys r)) j mid uid;
  la_flight : forall i t, (i, t) ∈ pr_flight r' -> settled (status (pi_id i) r) -> (i, t) ∈ pr_flight r;
  la_sent : exists new, ps_sent (pr_sys r') = ps_sent (pr_sys r) ++ new /\
              forall t, t ∈ new -> settled (status (tk_intent t) r) -> exists i, (i, t) ∈ pr_flight r
}.
Lemma later_refl r : later r r.
Proof. split; try done. exists []. rewrite app_nil_r. set_solver. Qed.
Lemma later_trans r1 r2 r3 : run_ok r2 -> later r1 r2 -> later r2 r3 -> later r1 r3.
Proof.
  intros Hok [A1 A2 A3 A4 (n1 & A5 & A6)] [B1 B2 B3 B4 (n2 & B5 & B6)]. split; eauto.
  exists (n1 ++ n2). rewrite B5, A5, app_assoc. split; [done|]. intros t [Ht|Ht]%elem_of_app Hs; [by apply A6|].
  destruct (B6 t Ht) as [i Hi]; [eauto|]. exists i. apply A4; [done|]. destruct (ro_flight _ Hok _ Hi) as [Hid _]. cbn [fst snd] in Hid. by rewrite <-Hid.
Qed.
(** A step that sends nothing and begins nothing settled. *)
Lemma later_quiet now s fl now' s' fl' :
  (forall j, settled (get_status j (ps_intents s)) -> settled (get_status j (ps_intents s'))) ->
  (forall j, is_Some (get_status j (ps_intents s)) -> is_Some (get_status j (ps_intents s'))) ->
  (forall j mid uid, is_Some (get_status j (ps_intents s)) -> filed (ps_intents s') j mid uid -> filed (ps_intents s) j mid uid) ->
  (forall i t, (i, t) ∈ fl' -> settled (get_status (pi_id i) (ps_intents s)) -> (i, t) ∈ fl) -> ps_sent s' = ps_sent s ->
  later (mkRun now s fl) (mkRun now' s' fl').
Proof. intros. split; try done. exists []. rewrite app_nil_r. set_solver. Qed.
Lemma plan_later now s fl env s' : plan_effect env s s' -> unused (mkRun now s fl) (pe_id env) -> later (mkRun now s fl) (mkRun now s' fl).
Proof.
  intros He (Hu & _). unfold status in Hu. cbn in Hu. destruct He as [l|l i Hi Hr Hp Hk|st ids js Hst Hn Hj Hg]; apply later_quiet; try done.
  - cbn. intros j [Hj|Hj]; rewrite register_status, decide_False by congruence; [by left|by right].
  - cbn. intros j Hj. rewrite register_status. case_decide; [done|done].
  - cbn. intros j mid uid [st Hst] [Hm Hv]. assert (Hne : j <> pi_id i) by congruence.
    rewrite register_of_message in Hm. rewrite register_of_user in Hv. split; repeat case_decide; set_solver.
  - cbn. intros j Hs. rewrite mark_status by naive_solver. case_decide as E; [destruct Hs; naive_solver|done].
  - cbn. intros j Hs. rewrite mark_status by naive_solver. by case_decide.
  - cbn. intros j mid uid _. by rewrite filed_mark.
Qed.
Lemma push_step_later r r' : push_step r r' -> run_ok r -> later r r'.
Proof.
  intros Hs Hok. destruct Hs as [| | |now s fl pos i fault Hq Hn|now s fl pos i t v Hpos|now s fl pos|now s fl pos due i room Hpos Hd].
  - by apply later_quiet.
  - eapply plan_later; [by apply plan_has_effect|done].
  - by apply later_quiet.
  - apply later_quiet; try done. intros k t [Ht|Ht]%elem_of_app Hk; [done|]. exfalso.
    apply list_elem_of_fmap in Ht as (t' & [= <- <-] & Ht). unfold may_proceed in Ht. destruct Hk as [Hk|Hk]; rewrite Hk in Ht; set_solver.
  - assert (Hin : (i, t) ∈ fl) by by eapply list_elem_of_lookup_2.
    destruct (send_task_effect v now i t s) as [E1 E2 _ E4 _]; [apply (ro_live _ Hok i), (live_in_flight (mkRun now s fl) (i, t)), Hin|].
    split; unfold status; cbn [pr_sys pr_flight]; rewrite ?E1; try done; [by intros ? ? Hp%elem_of_delete|].
    destruct E4 as [E4|E4]; rewrite E4; [exists []|exists [t]]; (split; [by rewrite ?app_nil_r|]); [set_solver|].
    intros k ->%list_elem_of_singleton _. by exists i.
  - apply later_quiet; try done. by intros ? ? ?%elem_of_delete.
  - unfold requeue. rewrite Hpos. by apply later_quiet.
Qed.
Lemma push_run_later r r' : run_ok r -> rtc push_step r r' -> later r r' /\ run_ok r'.
Proof.
  intros Hok. apply (rtc_ind_r (fun r' => later r r' /\ run_ok r')); [by split; [apply later_refl|]|].
  intros y z _ Hs [Hl Hy]. split; [|by eapply push_step_ok]. eapply later_trans; [done..|]. by apply push_step_later.
Qed.

(** The events that end pushes without naming a device, and the pushes they are about. *)
Definition settling (e : PlannerEvent) : Prop :=
  match e with OnMessageDelivered _ _ device => device = EmptyString | OnMessageRevoked _ _ | OnUserOnline _ => True | _ => False end.
Definition concerns (e : PlannerEvent) (mid uid : Z) : Prop :=
  match e with
  | OnMessageDelivered m u _ => m = mid /\ u = uid
  | OnMessageRevoked m _ => m = mid
  | OnUserOnline u => u = uid
  | _ => False
  end.
Lemma revoked_intents now ids mid conv s : ps_intents (handle_message_revoked now ids mid conv s) = (mark_revoked mid (ps_intents s)).2.
Proof. unfold handle_message_revoked. by rewrite enqueue_all. Qed.
Lemma settling_marks env now e s : settling e -> exists st ids, (st = Cancelled \/ st = Revoked) /\
  ps_intents (plan c env now e s) = (mark st ids (ps_intents s)).2 /\
  forall j mid uid, filed (ps_intents s) j mid uid -> intents_ok (ps_intents s) -> (j ∈ ids <-> concerns e mid uid).
Proof.
  destruct e as [|mid conv|uid|mid uid d| |]; cbn; intros He; try done.
  - exists Revoked, (of_message mid (ps_intents s)). split_and!; [by right|apply revoked_intents|].
    intros j m u [Hm Hu] Hok. split; [intros Hj; by eapply (io_one_message _ Hok)|by intros ->].
  - exists Cancelled, (of_user uid (ps_intents s)). split_and!; [by left|done|].
    intros j m u [Hm Hu] Hok. split; [intros Hj; by eapply (io_one_user _ Hok)|by intros ->].
  - subst d. exists Cancelled, (filter (fun i => i ∈ of_user uid (ps_intents s)) (of_message mid (ps_intents s))). split_and!; [by left|done|].
    intros j m u [Hm Hu] Hok. rewrite list_elem_of_filter. split.
    + intros [Hj1 Hj2]. split; [by eapply (io_one_message _ Hok)|by eapply (io_one_user _ Hok)].
    + by intros [-> ->].
Qed.
End Run.

(** C5. Once the planner has been told that a message reached its user, that it was
    recalled or that the user is online, no push that was waiting for it is sent any more,
    not even as a retry: what is still sent about it had been checked by the worker
    before the event, or is a push ordered after it, or is the silent removal of a
    notification. And no other push that waits is cancelled. *)
Theorem settled_pushes_stay_silent lower c now t0 r env e r' :
  named_devices t0 -> rtc (push_step lower c) (push_start now t0) r ->
  unused r (pe_id env) -> NoDup (pe_ids env) -> Forall (unused r) (pe_ids env) -> settling e ->
  let r1 := mkRun (pr_now r) (plan c env (pr_now r) e (pr_sys r)) (pr_flight r) in
  rtc (push_step lower c) r1 r' ->
  (exists new, ps_sent (pr_sys r') = ps_sent (pr_sys r) ++ new /\
     forall task, task ∈ new -> ~ is_revoke (tk_payload task) -> concerns e (py_message_id (tk_payload task)) (tk_user task) ->
       (exists i, (i, task) ∈ pr_flight r) \/ status (tk_intent task) r = None) /\
  (forall i, i ∈ live r -> ~ is_revoke (pi_payload i) -> ~ concerns e (pi_message i) (pi_user i) -> status (pi_id i) r1 = status (pi_id i) r).
Proof.
  intros Ht Hr Hu Hn Hus He r1 Hr'. apply (push_run_ok lower c) in Hr; [|done].
  destruct (settling_marks c env (pr_now r) e (pr_sys r) He) as (st & ids & Hst & Em & Hids). assert (Hp : st <> Pending) by naive_solver.
  assert (Hst1 : forall j, status j r1 = if decide (j ∈ ids /\ status j r = Some Pending) then Some st else status j r).
  { intros j. unfold status, r1. cbn [pr_sys]. rewrite Em. by apply mark_status. }
  assert (Hs1 : push_step lower c r r1) by (unfold r1; destruct r; by apply step_plan).
  pose proof (push_step_ok _ _ _ _ Hs1 Hr) as Hok1. destruct (push_run_later _ _ _ _ Hok1 Hr') as [[L1 L2 L3 L4 (new & L5 & L6)] Hok'].
  assert (Esent : ps_sent (pr_sys r1) = ps_sent (pr_sys r)).
  { unfold r1. cbn [pr_sys]. by destruct (plan_has_effect c env (pr_now r) e (pr_sys r) Hn). }
  split.
  - exists new. rewrite L5, Esent. split; [done|]. intros t Hin Hk Hc.
    destruct (status (tk_intent t) r) as [st0|] eqn:E0; [left|by right].
    assert (Hk1 : is_Some (status (tk_intent t) r1)) by (rewrite Hst1; case_decide; [done|by exists st0]).
    assert (Hf : filed (ps_intents (pr_sys r)) (tk_intent t) (py_message_id (tk_payload t)) (tk_user t)).
    { destruct (ro_sent _ _ Hok' t) as [?|Hf]; [rewrite L5; set_solver|done|]. apply L3 in Hf; [|done].
      revert Hf. unfold r1. cbn [pr_sys]. rewrite Em. by rewrite filed_mark. }
    apply (L6 t Hin). rewrite Hst1. apply (Hids _ _ _ Hf (ro_intents _ _ Hr)) in Hc. case_decide as Ed; [unfold settled; naive_solver|].
    destruct (io_status _ (ro_intents _ _ Hr) (tk_intent t)) as [E|[E|E]]; unfold status in *; [congruence|naive_solver|done].
  - intros i Hi Hk Hc. rewrite Hst1. case_decide as Ed; [|done]. destruct Hc. destruct (ro_live _ _ Hr i Hi) as [[?|Hf] _]; [done|].
    apply (Hids _ _ _ Hf); [by apply Hr|apply Ed].
Qed.

(** The providers are asked to deliver one push to one device at most once plus the
    configured number of retries, and never more than four times, whatever fails and
    however events, retries and sends interleave. *)
Theorem push_retries_bounded lower c now t0 r intent device :
  named_devices t0 -> rtc (push_step lower c) (push_start now t0) r -> device <> EmptyString ->
  (sends intent device (pr_sys r) <= S (min (Z.to_nat (pc_max_retry c)) 3))%nat.
Proof.
  intros Ht Hr Hd. apply (push_run_ok lower c) in Hr; [|done]. pose proof (ro_budget _ _ Hr intent device Hd) as H.
  unfold budget in H. fold (cap c). lia.
Qed.

(** ** Examples *)
Definition ex_config : PushConfig := mkPushConfig true 10 60 3 true.
Definition ex_tables : PushTables := mkPushTables {[(2, "d"%string) := mkDevice "apns" (Some "tok"%string) true]} ∅ ∅.
Definition ex_env (i : string) : PlannerEnv := mkEnv None false false i [].
Definition ex_commit (mid : Z) (device : option string) : PlannerEvent :=
  OnMessageCommitted (mkCommittedEvent mid 5 1 2 "hi" 1 "text" 0 device).
Definition ex_providers (answer : result unit ServerError) : Providers := mkProviders (fun _ => true) (fun _ => answer) true.
Definition ex_id (s : string) : string := s.
Lemma ex_named : named_devices ex_tables.
Proof. intros uid. apply lookup_singleton_ne. naive_solver. Qed.
Definition ex_committed : PushRun := mkRun 0 (plan ex_config (ex_env "a") 0 (ex_commit 7 None) (pr_sys (push_start 0 ex_tables))) [].
Lemma ex_unused_start i : unused (push_start 0 ex_tables) i.
Proof. split_and!; cbn; [by unfold status, get_status; cbn; rewrite lookup_empty|set_solver..]. Qed.
Lemma ex_committed_run : rtc (push_step ex_id ex_config) (push_start 0 ex_tables) ex_committed.
Proof. apply rtc_once, step_plan; [apply ex_unused_start|constructor..]. Qed.
(** The acknowledged message is not pushed when its time comes. *)
Definition ex_acked : PushSystem := plan ex_config (ex_env "b") 0 (OnMessageDelivered 7 2 EmptyString) (pr_sys ex_committed).
Lemma ex_silent : rtc (push_step ex_id ex_config) (mkRun 0 ex_acked []) (mkRun 2000 (take_intent 0 ex_acked) []).
Proof.
  eapply rtc_l; [apply (step_tick _ _ 0 2000); lia|]. apply rtc_once.
  assert (E : exists i, ps_queue ex_acked !! 0%nat = Some i /\ pi_not_before_ms i = 2000 /\ may_proceed i ex_acked = false) by (eexists; split_and!; vm_compute; reflexivity).
  destruct E as (i & Ei & Et & Ep). pose proof (step_begin ex_id ex_config 2000 ex_acked [] 0 i None Ei) as H. rewrite Ep in H. apply H. lia.
Qed.
Lemma settled_pushes_stay_silent_witness :
  settling (OnMessageDelivered 7 2 EmptyString) /\
  exists new, ps_sent (take_intent 0 ex_acked) = ps_sent (pr_sys ex_committed) ++ new /\
     forall task, task ∈ new -> ~ is_revoke (tk_payload task) ->
       concerns (OnMessageDelivered 7 2 EmptyString) (py_message_id (tk_payload task)) (tk_user task) ->
       (exists i, (i, task) ∈ pr_flight ex_committed) \/ status (tk_intent task) ex_committed = None.
Proof.
  split; [done|].
  refine (proj1 (settled_pushes_stay_silent ex_id ex_config 0 ex_tables ex_committed (ex_env "b") (OnMessageDelivered 7 2 EmptyString)
    (mkRun 2000 (take_intent 0 ex_acked) []) ex_named ex_committed_run _ _ _ _ ex_silent)); [|constructor|constructor|done].
  split_and!; [vm_compute; reflexivity|vm_compute; set_solver..].
Defined.

(** A provider fails; ten seconds later the push is tried once more. *)
Definition ex_task : PushTask := mkTask "a" 2 "d" Apns "tok" (mkPayload "new_message" 5 1 0 "text" true 7 1 "hi").
Definition ex_intent : PushIntent := intent_new "a" 7 5 2 EmptyString 1 (tk_payload ex_task) 0 2000.
Definition ex_begun : PushSystem := take_intent 0 (pr_sys ex_committed).
Definition ex_failed : PushSystem := send_task ex_config (ex_providers (Err (Internal "503"))) 2000 ex_intent ex_task ex_begun.
Definition ex_again : PushSystem := take_intent 0 (requeue 0 true ex_failed).
Definition ex_retried : PushSystem := send_task ex_config (ex_providers (Ok tt)) 12000 (for_retry ex_intent "d") ex_task ex_again.
Lemma ex_retry_run : rtc (push_step ex_id ex_config) (push_start 0 ex_tables) (mkRun 12000 ex_retried []).
Proof.
  etransitivity; [apply ex_committed_run|]. eapply rtc_l; [apply (step_tick _ _ 0 2000); lia|].
  eapply rtc_l; [apply (step_begin _ _ 2000 _ [] 0 ex_intent None); [vm_compute; reflexivity|vm_compute; congruence]|].
  eapply rtc_l; [apply (step_send _ _ 2000 _ _ 0 ex_intent ex_task (ex_providers (Err (Internal "503")))); vm_compute; reflexivity|].
  eapply rtc_l; [apply (step_tick _ _ 2000 12000); lia|].
  eapply rtc_l; [apply (step_requeue _ _ 12000 _ _ 0 12000 (for_retry ex_intent "d") true); [vm_compute; reflexivity|lia]|].
  eapply rtc_l; [apply (step_begin _ _ 12000 _ _ 0 (for_retry ex_intent "d") None); [vm_compute; reflexivity|vm_compute; congruence]|].
  eapply rtc_l; [apply (step_send _ _ 12000 _ _ 0 (for_retry ex_intent "d") ex_task (ex_providers (Ok tt))); vm_compute; reflexivity|].
  match goal with |- rtc _ (mkRun _ _ ?f) _ => replace f with (@nil (PushIntent * PushTask)) by (vm_compute; reflexivity) end. apply rtc_refl.
Qed.
Lemma push_retries_bounded_witness : sends "a" "d" ex_retried = 2%nat /\ (sends "a" "d" ex_retried <= 4)%nat.
Proof.
  split; [vm_compute; reflexivity|].
  by apply (push_retries_bounded ex_id ex_config 0 ex_tables (mkRun 12000 ex_retried []) "a" "d" ex_named ex_retry_run).
Defined.

(** The key that suppresses repeats is taken by a push that is then cancelled because
    the message arrived: a message of the same conversation ten seconds later, to a user
    who has gone offline in between, gets no push. *)
Example cancelled_push_suppresses_next :
  let s := plan ex_config (ex_env "c") 10000 (ex_commit 8 None) ex_acked in
  get_status "a" (ps_intents s) = Some Cancelled /\ get_status "c" (ps_intents s) = None /\ ps_queue s = ps_queue ex_acked.
Proof. vm_compute. done. Qed.
(** The acknowledgement of one message by a device cancels the pushes of every other
    message to that device. *)
Example device_ack_cancels_all :
  let c := mkPushConfig false 10 60 3 true in
  let s := plan c (ex_env "b") 0 (ex_commit 8 (Some "d"%string)) (plan c (ex_env "a") 0 (ex_commit 7 (Some "d"%string)) (pr_sys (push_start 0 ex_tables))) in
  get_status "b" (ps_intents s) = Some Pending /\
  get_status "b" (ps_intents (plan c (ex_env "x") 0 (OnMessageDelivered 7 2 "d") s)) = Some Cancelled.
Proof. vm_compute. done. Qed.
