(* ===== verification/UploadToken.v ===== *)
(** * Files and upload tokens

    Models the file records of src/src/model/file_upload.rs, the signed upload tokens of
    src/src/security/upload_token.rs, the token service of
    src/src/service/upload_token_service.rs, and the RPCs that issue and check tokens
    (src/src/rpc/file/request_upload_token.rs, mod.rs, validate_token.rs).

    Times are nanoseconds, except where the source counts seconds. The stored JSON of an
    older token carries every field, so a stored token is the record itself. SHA-256, the
    JWT crate, UUIDs and the lengths of sealed attachments are parameters. *)

From Stdlib Require Import Ascii.
From stdpp Require Import base numbers gmap list strings.
From S2P Require Import Prelude Chunked.
Local Open Scope Z_scope.

(** ** Files *)
Inductive FileType := FImage | FVideo | FVoice | FFile | FOther.
#[export] Instance file_type_eq_dec : EqDecision FileType.
Proof. solve_decision. Defined.
Definition file_type_as_str (t : FileType) : string :=
  match t with FImage => "image" | FVideo => "video" | FVoice => "voice" | FFile => "file" | FOther => "other" end.
Definition file_type_from_str (s : string) : option FileType :=
  if decide (s = "image"%string) then Some FImage
  else if decide (s = "video"%string) then Some FVideo
  else if decide (s = "voice"%string) then Some FVoice
  else if decide (s = "file"%string) then Some FFile
  else if decide (s = "other"%string) then Some FOther
  else None.
Definition MB : Z := 1024 * 1024.
Definition max_size_bytes (t : FileType) : Z :=
  match t with FImage => 10 * MB | FVideo => 100 * MB | FVoice => 10 * MB | FFile => 50 * MB | FOther => 10 * MB end.
Definition max_size_bytes_any : Z :=
  let max := max_size_bytes FImage in
  let max := if max <? max_size_bytes FVideo then max_size_bytes FVideo else max in
  let max := if max <? max_size_bytes FVoice then max_size_bytes FVoice else max in
  let max := if max <? max_size_bytes FFile then max_size_bytes FFile else max in
  if max <? max_size_bytes FOther then max_size_bytes FOther else max.
Definition http_body_limit_bytes : Z := max_size_bytes_any + 4 * 1024 * 1024.

Record AttachmentObject := mkObject {
  ao_object_id : Z; ao_plaintext_sha256 : string; ao_plaintext_size : Z; ao_sealed_sha256 : string; ao_sealed_size : Z;
  ao_file_path : string; ao_storage_source_id : Z; ao_format_version : Z; ao_encryption_key_id : Z
}.
Record FileMetadata := mkFileMetadata {
  fm_file_id : Z; fm_original_filename : string; fm_file_type : FileType; fm_mime_type : string; fm_uploader_id : Z; fm_uploader_ip : option string;
  fm_uploaded_at : Z; fm_business_type : option string; fm_business_id : option string; fm_object : AttachmentObject
}.
Definition fm_file_path (m : FileMetadata) : string := ao_file_path (fm_object m).
Definition fm_storage_source_id (m : FileMetadata) : Z := ao_storage_source_id (fm_object m).
Definition fm_sealed_size (m : FileMetadata) : Z := ao_sealed_size (fm_object m).
Definition display_size (m : FileMetadata) : Z := ao_plaintext_size (fm_object m).

(** ** Strings *)
(** [str::split] on one character. *)
Fixpoint split_char (c : ascii) (s : string) : list string :=
  match s with
  | EmptyString => [EmptyString]
  | String a r =>
      if Ascii.eqb a c then EmptyString :: split_char c r
      else match split_char c r with [] => [String a EmptyString] | x :: l => String a x :: l end
  end.
Definition is_hex (s : string) : bool := string_all is_ascii_hexdigit s.
Definition eq_ignore_ascii_case (s t : string) : bool := bool_decide (to_ascii_lowercase s = to_ascii_lowercase t).

Definition i64_to_string (z : Z) : string := if z <? 0 then "-" +:+ u64_to_string (- z) else u64_to_string z.

(** ** The claims *)
Definition TOKEN_TYP : string := "upload".
Definition TOKEN_AUD : string := "file-upload".
Definition CLAIMS_VERSION : Z := 1.
Definition MAX_TTL_SECS : Z := 86400.
Definition MAX_FILENAME_BYTES : nat := 255.
Inductive IssueMode := IssueLegacyUuid | IssueSigned.
#[export] Instance issue_mode_eq_dec : EqDecision IssueMode.
Proof. solve_decision. Defined.
Record UploadTokenConfig := mkUploadConfig {
  uc_keys : gmap string string; uc_default_kid : string; uc_leeway_secs : Z; uc_ttl_secs : Z; uc_issue_mode : IssueMode
}.
Definition resolve_secret (cfg : UploadTokenConfig) (kid : option string) : option string := uc_keys cfg !! default (uc_default_kid cfg) kid.

Inductive UploadTokenPurpose := PUpload | PClaimExisting.
#[export] Instance purpose_eq_dec : EqDecision UploadTokenPurpose.
Proof. solve_decision. Defined.
Definition purpose_code (p : UploadTokenPurpose) : string := match p with PUpload => "u" | PClaimExisting => "c" end.
Record UploadPlan := mkPlan { pl_base_unit : Z; pl_initial_request_size : Z; pl_max_request_size : Z; pl_session_threshold : Z; pl_max_parallel_parts : Z }.
Record PlanClaims := mkPlanClaims { pk_bu : Z; pk_ir : Z; pk_mr : Z; pk_st : Z; pk_mp : Z }.
Definition plan_to_claims (p : UploadPlan) : PlanClaims :=
  mkPlanClaims (pl_base_unit p) (pl_initial_request_size p) (pl_max_request_size p) (pl_session_threshold p) (pl_max_parallel_parts p).
Definition plan_of_claims (p : PlanClaims) : UploadPlan := mkPlan (pk_bu p) (pk_ir p) (pk_mr p) (pk_st p) (pk_mp p).
Record UploadTokenClaims := mkClaims {
  cl_v : Z; cl_upload_id : string; cl_aud : string; cl_uid : Z; cl_prp : string; cl_ft : string; cl_bt : string; cl_mx : Z;
  cl_filename : option string; cl_plaintext_sha256 : option string; cl_plaintext_size : option Z; cl_chunk_plain_size : option Z;
  cl_format_version : option Z; cl_encryption_key_id : option Z; cl_sealed_blob_size : option Z; cl_mime_type : option string;
  cl_node_id : option string; cl_upload_base_url : option string; cl_plan : option PlanClaims; cl_iat : Z; cl_exp : Z
}.
Definition claims_new (upload_id : string) (uid : Z) (p : UploadTokenPurpose) (file_type business_type : string) (max_size : Z) : UploadTokenClaims :=
  mkClaims CLAIMS_VERSION upload_id TOKEN_AUD uid (purpose_code p) file_type business_type max_size None None None None None None None None None None None 0 0.
Definition upload_plan (c : UploadTokenClaims) : option UploadPlan := plan_of_claims <$> cl_plan c.
Definition purpose (c : UploadTokenClaims) : option UploadTokenPurpose :=
  if decide (cl_prp c = "u"%string) then Some PUpload else if decide (cl_prp c = "c"%string) then Some PClaimExisting else None.

Inductive IssueError :=
  | IeUnknownKid | IeTtlTooLong | IeNonPositiveSize | IeFilenameTooLong | IeBadUploadPlan | IeUnsafeUploadId | IeSizeAboveMax | IeBadDigest | IeBadClaims
  | IeEncodeFailed.
Definition issue_error_display (e : IssueError) : string :=
  match e with
  | IeUnknownKid => "unknown_kid" | IeTtlTooLong => "ttl_too_long" | IeNonPositiveSize => "non_positive_size" | IeFilenameTooLong => "filename_too_long"
  | IeBadUploadPlan => "bad_upload_plan" | IeUnsafeUploadId => "unsafe_upload_id" | IeSizeAboveMax => "size_above_max" | IeBadDigest => "bad_digest"
  | IeBadClaims => "bad_claims" | IeEncodeFailed => "encode_failed"
  end.
Inductive UploadTokenError :=
  | UeMalformedHeader | UeWrongTyp | UeUnknownKid | UeInvalidSignature | UeExpired | UeWrongAudience | UeReversedTime | UeIssuedInFuture
  | UeBadClaims (e : IssueError) | UeTtlTooLong | UeUnknownVersion | UeOther.
Definition is_safe_upload_id (s : string) : bool := negb (bool_decide (s = EmptyString)) && (String.length s <=? 64)%nat && is_hex s.
Definition is_sha256_hex (s : string) : bool := (String.length s =? 64)%nat && is_hex s.
Definition validate_plan (p : UploadPlan) : result unit IssueError :=
  let bad := (pl_base_unit p =? 0) || (pl_initial_request_size p =? 0) || (pl_max_request_size p =? 0) || (pl_max_parallel_parts p =? 0)
             || negb (pl_initial_request_size p mod pl_base_unit p =? 0) || negb (pl_max_request_size p mod pl_base_unit p =? 0)
             || (pl_max_request_size p <? pl_initial_request_size p) || (8 <? pl_max_parallel_parts p) in
  if bad then Err IeBadUploadPlan else Ok tt.
Definition check_size (c : UploadTokenClaims) : result unit IssueError :=
  match cl_sealed_blob_size c with
  | None => Ok tt
  | Some size => if size <=? 0 then Err IeNonPositiveSize else if cl_mx c <? size then Err IeSizeAboveMax else Ok tt
  end.
Definition validate_claims (c : UploadTokenClaims) : result unit IssueError :=
  if negb (cl_v c =? CLAIMS_VERSION) then Err IeBadClaims
  else if negb (is_safe_upload_id (cl_upload_id c)) then Err IeUnsafeUploadId
  else if bool_decide (purpose c = None) then Err IeBadClaims
  else if bool_decide (file_type_from_str (cl_ft c) = None) then Err IeBadClaims
  else if cl_mx c <=? 0 then Err IeBadClaims
  else
    let? _ := check_size c in
    if match cl_plaintext_sha256 c with Some d => negb (is_sha256_hex d) | None => false end then Err IeBadDigest
    else if match cl_filename c with Some n => (MAX_FILENAME_BYTES <? String.length n)%nat | None => false end then Err IeFilenameTooLong
    else match upload_plan c with Some p => validate_plan p | None => Ok tt end.

(** ** Signing and checking

    [uj_header] of a token: whether it is HS256, its [typ] and its [kid]. [uj_decode] reads
    the clock of the machine, and checks the expiry with the leeway and the audience. *)
Inductive UploadJwtError := UjExpired | UjSignature | UjAudience | UjOther.
Class UploadJwt := {
  uj_encode : string -> string -> string -> UploadTokenClaims -> option string;
  uj_header : string -> option (bool * option string * option string);
  uj_decode : Z -> Z -> string -> string -> string -> result UploadTokenClaims UploadJwtError
}.
Section Tokens.
Context `{J : UploadJwt}.
Definition u64_saturating_add (a b : Z) : Z := Z.min (a + b) u64_max.
Definition stamped (now_secs ttl : Z) (c : UploadTokenClaims) : UploadTokenClaims :=
  mkClaims CLAIMS_VERSION (cl_upload_id c) TOKEN_AUD (cl_uid c) (cl_prp c) (cl_ft c) (cl_bt c) (cl_mx c) (cl_filename c) (cl_plaintext_sha256 c)
    (cl_plaintext_size c) (cl_chunk_plain_size c) (cl_format_version c) (cl_encryption_key_id c) (cl_sealed_blob_size c) (cl_mime_type c)
    (cl_node_id c) (cl_upload_base_url c) (cl_plan c) now_secs (u64_saturating_add now_secs ttl).
Definition sign (cfg : UploadTokenConfig) (now_secs : Z) (claims : UploadTokenClaims) : result string IssueError :=
  if MAX_TTL_SECS <? uc_ttl_secs cfg then Err IeTtlTooLong
  else
    let c := stamped now_secs (uc_ttl_secs cfg) claims in
    let? _ := validate_claims c in
    match resolve_secret cfg (Some (uc_default_kid cfg)) with
    | None => Err IeUnknownKid
    | Some secret => match uj_encode (uc_default_kid cfg) TOKEN_TYP secret c with Some t => Ok t | None => Err IeEncodeFailed end
    end.
Definition looks_like_signed (token : string) : bool := (length (split_char "." token) =? 3)%nat.
(** [clock] is the clock the JWT crate reads. *)
Definition verify (cfg : UploadTokenConfig) (clock now_secs : Z) (token : string) : result UploadTokenClaims UploadTokenError :=
  match uj_header token with
  | None | Some (false, _, _) => Err UeMalformedHeader
  | Some (true, typ, kid) =>
      if negb (bool_decide (typ = Some TOKEN_TYP)) then Err UeWrongTyp
      else
        match resolve_secret cfg kid with
        | None => Err UeUnknownKid
        | Some secret =>
            match uj_decode clock (uc_leeway_secs cfg) TOKEN_AUD secret token with
            | Err UjExpired => Err UeExpired
            | Err UjSignature => Err UeInvalidSignature
            | Err UjAudience => Err UeWrongAudience
            | Err UjOther => Err UeOther
            | Ok c =>
                if negb (cl_v c =? CLAIMS_VERSION) then Err UeUnknownVersion
                else if cl_exp c <=? cl_iat c then Err UeReversedTime
                else if u64_saturating_add now_secs (uc_leeway_secs cfg) <? cl_iat c then Err UeIssuedInFuture
                else if u64_saturating_add MAX_TTL_SECS (uc_leeway_secs cfg) <? cl_exp c - cl_iat c then Err UeTtlTooLong
                else match validate_claims c with Ok _ => Ok c | Err e => Err (UeBadClaims e) end
            end
        end
  end.
End Tokens.

(** ** The token service *)
Record UploadIdentity := mkIdentity {
  ui_plaintext_sha256 : option string; ui_plaintext_size : option Z; ui_declared_size : option Z; ui_mime_type : option string;
  ui_format_version : option Z; ui_encryption_key_id : option Z; ui_chunk_plain_size : option Z
}.
Record UploadToken := mkUploadToken {
  ut_token : string; ut_user_id : Z; ut_file_type : FileType; ut_max_size : Z; ut_business_type : string; ut_filename : option string;
  ut_identity : UploadIdentity; ut_purpose : UploadTokenPurpose; ut_created_at : Z; ut_expires_at : Z; ut_used : bool
}.
Definition nanos : Z := 1000000000.
Definition upload_token_new (token : string) (now user_id : Z) (ft : FileType) (max_size : Z) (bt : string) (fn : option string) (i : UploadIdentity)
    (p : UploadTokenPurpose) (ttl_secs : Z) : UploadToken :=
  mkUploadToken token user_id ft max_size bt fn i p now (now + ttl_secs * nanos) false.
Definition token_is_valid (now : Z) (t : UploadToken) : bool := negb (ut_used t) && (now <? ut_expires_at t).

Record ValidatedUploadToken := mkValidated {
  vt_upload_id : string; vt_user_id : Z; vt_purpose : UploadTokenPurpose; vt_file_type : FileType; vt_max_size : Z; vt_business_type : string;
  vt_filename : option string; vt_plaintext_sha256 : option string; vt_plaintext_size : option Z; vt_chunk_plain_size : option Z;
  vt_sealed_blob_size : option Z; vt_mime_type : option string; vt_format_version : option Z; vt_encryption_key_id : option Z;
  vt_upload_plan : option UploadPlan; vt_node_id : option string; vt_upload_base_url : option string; vt_expires_at : Z
}.
Definition matches_file (v : ValidatedUploadToken) (m : FileMetadata) : bool :=
  (fm_uploader_id m =? vt_user_id v) && bool_decide (file_type_as_str (fm_file_type m) = file_type_as_str (vt_file_type v)) &&
  match vt_plaintext_sha256 v with Some sha => eq_ignore_ascii_case (ao_plaintext_sha256 (fm_object m)) sha | None => true end &&
  match vt_sealed_blob_size v with Some size => as_i64 (ao_sealed_size (fm_object m)) =? size | None => true end &&
  match vt_plaintext_size v with Some size => as_i64 (ao_plaintext_size (fm_object m)) =? size | None => true end.

Inductive CredentialShape := ShapeSigned | ShapeLegacyUuid | ShapeUnrecognised.
Definition LEGACY_UPLOAD_ID_DOMAIN : string := "legacy-upload-id" +:+ String Ascii.zero EmptyString.
(** Redis entries with the time they expire at. *)
Record UploadTokenService := mkTokenService {
  ts_tokens : gmap string UploadToken; ts_redis : option (gmap string (UploadToken * Z)); ts_signing : option UploadTokenConfig
}.
Definition token_service_new : UploadTokenService := mkTokenService ∅ None None.
Definition new_with_redis : UploadTokenService := mkTokenService ∅ (Some ∅) None.
Definition with_signing (cfg : option UploadTokenConfig) (s : UploadTokenService) : UploadTokenService := mkTokenService (ts_tokens s) (ts_redis s) cfg.
Definition plan_for (sealed_blob_size : Z) : option UploadPlan :=
  let base := 64 * 1024 in
  if sealed_blob_size <=? base then None else Some (mkPlan base base (2 * 1024 * 1024) base 1).
Definition issues_signed (s : UploadTokenService) : bool := bool_decide (uc_issue_mode <$> ts_signing s = Some IssueSigned).
Definition ttl_secs (s : UploadTokenService) : Z := match ts_signing s with Some c => as_i64 (uc_ttl_secs c) | None => MAX_TTL_SECS end.

Section Service.
(** [sha256_hex]: SHA-256 of the bytes of a string, in hexadecimal; [uuid_ok]:
    [Uuid::parse_str] succeeds; [from_timestamp]: [DateTime::from_timestamp] of seconds. *)
Context `{J : UploadJwt} (sha256_hex : string -> string) (uuid_ok : string -> bool) (from_timestamp : Z -> option Z).
Definition derive_legacy_upload_id (token : string) : string := sha256_hex (LEGACY_UPLOAD_ID_DOMAIN +:+ token).
Definition from_claims (now : Z) (c : UploadTokenClaims) : ValidatedUploadToken :=
  mkValidated (cl_upload_id c) (cl_uid c) (default PUpload (purpose c)) (default FFile (file_type_from_str (cl_ft c))) (cl_mx c) (cl_bt c) (cl_filename c)
    (cl_plaintext_sha256 c) (cl_plaintext_size c) (cl_chunk_plain_size c) (cl_sealed_blob_size c) (cl_mime_type c) (cl_format_version c)
    (cl_encryption_key_id c) (upload_plan c) (cl_node_id c) (cl_upload_base_url c) (default now (from_timestamp (as_i64 (cl_exp c)))).
Definition from_legacy (raw_token : string) (t : UploadToken) : ValidatedUploadToken :=
  let i := ut_identity t in
  mkValidated (derive_legacy_upload_id raw_token) (ut_user_id t) (ut_purpose t) (ut_file_type t) (ut_max_size t) (ut_business_type t) (ut_filename t)
    (ui_plaintext_sha256 i) (ui_plaintext_size i) (ui_chunk_plain_size i) (ui_declared_size i) (ui_mime_type i) (ui_format_version i)
    (ui_encryption_key_id i) None None None (ut_expires_at t).
Definition classify_credential (token : string) : CredentialShape :=
  if (length (split_char "." token) =? 3)%nat then ShapeSigned else if uuid_ok token then ShapeLegacyUuid else ShapeUnrecognised.
(** [id] is the new UUID, [now'] the second reading of the clock; [fault] of Redis. *)
Definition generate_token (fault : option ServerError) (id : string) (now now' user_id : Z) (ft : FileType) (max_size : Z) (bt : string)
    (fn : option string) (i : UploadIdentity) (p : UploadTokenPurpose) (s : UploadTokenService) : result UploadToken ServerError * UploadTokenService :=
  let t := upload_token_new id now user_id ft max_size bt fn i p (ttl_secs s) in
  match ts_redis s with
  | Some r =>
      match fault with
      | Some e => (Err e, s)
      | None =>
          let ttl := Z.max ((ut_expires_at t - now') / nanos) 1 in
          (Ok t, mkTokenService (ts_tokens s) (Some (<[id := (t, now' + ttl * nanos)]> r)) (ts_signing s))
      end
  | None => (Ok t, mkTokenService (<[id := t]> (ts_tokens s)) None (ts_signing s))
  end.
Definition validate_token (fault : option ServerError) (now : Z) (token : string) (s : UploadTokenService) : result UploadToken ServerError :=
  match ts_redis s with
  | Some r =>
      match fault with
      | Some e => Err e
      | None =>
          match r !! token with
          | Some (t, until) => if (now <? until) && token_is_valid now t then Ok t else Err InvalidToken
          | None => Err InvalidToken
          end
      end
  | None => match ts_tokens s !! token with Some t => if token_is_valid now t then Ok t else Err InvalidToken | None => Err InvalidToken end
  end.
Definition validate_any (fault : option ServerError) (now now_secs : Z) (token : string) (s : UploadTokenService) : result ValidatedUploadToken ServerError :=
  match classify_credential token with
  | ShapeSigned =>
      match ts_signing s with
      | None => Err InvalidToken
      | Some cfg => match verify cfg (now / nanos) now_secs token with Ok c => Ok (from_claims now c) | Err _ => Err InvalidToken end
      end
  | ShapeLegacyUuid => let? t := validate_token fault now token s in Ok (from_legacy token t)
  | ShapeUnrecognised => Err InvalidToken
  end.
Definition normalized_identity (i : UploadIdentity) : UploadIdentity :=
  mkIdentity ((fun d => to_ascii_lowercase (trim d)) <$> ui_plaintext_sha256 i) (ui_plaintext_size i) (ui_declared_size i) (ui_mime_type i)
    (ui_format_version i) (ui_encryption_key_id i) (ui_chunk_plain_size i).
Definition identified (c : UploadTokenClaims) (fn : option string) (i : UploadIdentity) (plan : option UploadPlan) : UploadTokenClaims :=
  mkClaims (cl_v c) (cl_upload_id c) (cl_aud c) (cl_uid c) (cl_prp c) (cl_ft c) (cl_bt c) (cl_mx c) fn (ui_plaintext_sha256 i) (ui_plaintext_size i)
    (ui_chunk_plain_size i) (ui_format_version i) (ui_encryption_key_id i) (ui_declared_size i) (ui_mime_type i) (cl_node_id c) (cl_upload_base_url c)
    (plan_to_claims <$> plan) (cl_iat c) (cl_exp c).
(** [id] is the new UUID: in its simple form it is the upload id of a signed token, in the
    usual form the older token itself. *)
Definition issue_upload (fault : option ServerError) (id simple_id : string) (now now' now_secs user_id : Z) (ft : FileType) (max_size : Z) (bt : string)
    (fn : option string) (i : UploadIdentity) (p : UploadTokenPurpose) (plan : option UploadPlan) (s : UploadTokenService)
    : result (string * string * Z) ServerError * UploadTokenService :=
  let i := normalized_identity i in
  match ts_signing s with
  | Some cfg =>
      if decide (uc_issue_mode cfg = IssueSigned) then
        let c := identified (claims_new simple_id user_id p (file_type_as_str ft) bt max_size) fn i plan in
        match sign cfg now_secs c with
        | Err e => (Err (Validation ("签发上传 token 失败: " +:+ issue_error_display e)), s)
        | Ok t => (Ok (t, simple_id, i64_wrap (as_i64 now_secs + as_i64 (uc_ttl_secs cfg))), s)
        end
      else
        let '(r, s') := generate_token fault id now now' user_id ft max_size bt fn i p s in
        (let? t := r in Ok (ut_token t, derive_legacy_upload_id (ut_token t), ut_expires_at t / nanos), s')
  | None =>
      let '(r, s') := generate_token fault id now now' user_id ft max_size bt fn i p s in
      (let? t := r in Ok (ut_token t, derive_legacy_upload_id (ut_token t), ut_expires_at t / nanos), s')
  end.
Definition cleanup_expired_tokens (now : Z) (s : UploadTokenService) : UploadTokenService :=
  match ts_redis s with
  | Some _ => s
  | None => mkTokenService (filter (fun p : string * UploadToken => ~ ut_expires_at p.2 < now) (ts_tokens s)) None (ts_signing s)
  end.
Definition token_count (s : UploadTokenService) : nat := size (ts_tokens s).

(** ** The RPCs

    [sealed_len] and the constants are those of the protocol crate's attachment format. *)
Record AttachmentFormat := mkFormat {
  af_format_version : Z; af_default_chunk_plain_size : Z; af_sealed_len : Z -> Z -> result Z string
}.
Record FileConfig := mkFileConfig { fc_attachment_keys : list (Z * string); fc_file_api_base_url : option string; fc_s3_direct : bool }.
Record FrozenCrypto := mkFrozen { fz_format_version : Z; fz_encryption_key_id : Z; fz_chunk_plain_size : Z; fz_sealed_size : Z }.
Definition attachment_key_for (cfg : FileConfig) (key_id : option Z) : option (Z * string) :=
  k ← key_id; head (filter (fun p : Z * string => p.1 = k) (fc_attachment_keys cfg)).
Definition current_attachment_key (cfg : FileConfig) : option (Z * string) := head (fc_attachment_keys cfg).
Definition freeze_crypto (fmt : AttachmentFormat) (cfg : FileConfig) (plaintext_size : Z) : result FrozenCrypto string :=
  match head (fc_attachment_keys cfg) with
  | None => Err "服务端未配置附件加密密钥（[[attachment.keys]]）"%string
  | Some (key_id, _) =>
      if plaintext_size <? 0 then Err ("明文大小不能是负数: " +:+ i64_to_string plaintext_size)
      else
        let? sealed := af_sealed_len fmt (as_u64 plaintext_size) (af_default_chunk_plain_size fmt) in
        Ok (mkFrozen (af_format_version fmt) key_id (af_default_chunk_plain_size fmt) (as_i64 sealed))
  end.
Record TokenRequest := mkTokenRequest {
  tr_file_type : string; tr_plaintext_size : Z; tr_mime_type : string; tr_business_type : string; tr_filename : option string;
  tr_plaintext_sha256 : option string
}.
Record TokenResponse := mkTokenResponse {
  tp_attachment_key : option (Z * string); tp_chunk_plain_size : option Z; tp_total_size : option Z; tp_token : string; tp_upload_url : string;
  tp_already_exists : bool; tp_expires_at : option Z; tp_max_size : option Z
}.
(** [str::trim_end_matches] of a slash. *)
Fixpoint trim_end_slash (s : string) : string :=
  match s with
  | EmptyString => EmptyString
  | String a r => let r' := trim_end_slash r in if bool_decide (r' = EmptyString) && Ascii.eqb a "/" then EmptyString else String a r'
  end.
(** The checks on the request; the result is the type, the frozen parameters and the
    digest to look up. *)
Definition check_token_request (fmt : AttachmentFormat) (cfg : FileConfig) (r : TokenRequest) : result (FileType * FrozenCrypto * option string) RpcError :=
  match file_type_from_str (tr_file_type r) with
  | None => Err (rpc_validation ("无效的文件类型: " +:+ tr_file_type r))
  | Some ft =>
      match whole_file_allowed (fc_s3_direct cfg) with
      | Err _ => Err (rpc_validation "不支持该上传模式：服务端已配置 S3 直传，客户端必须声明 s3_multipart_v1")
      | Ok _ =>
          if tr_plaintext_size r <=? 0 then Err (rpc_validation "file_size 必须大于 0")
          else if match tr_filename r with Some n => (MAX_FILENAME_BYTES <? String.length n)%nat | None => false end
          then Err (rpc_validation ("文件名过长（最多 255 字节）"))
          else if max_size_bytes ft <? tr_plaintext_size r
          then Err (mkRpcError "FileTooLarge" ("文件大小超过限制（最大 " +:+ u64_to_string (max_size_bytes ft / 1024 / 1024) +:+ " MB）"))
          else
            match freeze_crypto fmt cfg (tr_plaintext_size r) with
            | Err e => Err (rpc_internal e)
            | Ok frozen =>
                match tr_plaintext_sha256 r with
                | None => Ok (ft, frozen, None)
                | Some sha =>
                    let n := to_ascii_lowercase (trim sha) in
                    if is_sha256_hex n then Ok (ft, frozen, Some n) else Err (rpc_validation "sha256 必须是 64 位十六进制（SHA-256）")
                end
            end
      end
  end.
(** [exists_object]: the lookup by digest. *)
Definition request_upload_token (fmt : AttachmentFormat) (cfg : FileConfig) (exists_object : string -> result bool ServerError)
    (fault : option ServerError) (id simple_id : string) (now now' now_secs user_id : Z) (r : TokenRequest) (s : UploadTokenService)
    : result TokenResponse RpcError * UploadTokenService :=
  match check_token_request fmt cfg r with
  | Err e => (Err e, s)
  | Ok (ft, frozen, digest) =>
      match match digest with Some n => exists_object n | None => Ok false end with
      | Err e => (Err (rpc_internal (server_error_display e)), s)
      | Ok already =>
          let i := mkIdentity (tr_plaintext_sha256 r) (Some (tr_plaintext_size r)) (Some (fz_sealed_size frozen)) (Some (tr_mime_type r))
                     (Some (fz_format_version frozen)) (Some (fz_encryption_key_id frozen)) (Some (fz_chunk_plain_size frozen)) in
          let '(res, s') := issue_upload fault id simple_id now now' now_secs user_id ft (max_size_bytes ft) (tr_business_type r) (tr_filename r) i
                              (if already then PClaimExisting else PUpload) None s in
          (match res with
           | Err e => Err (rpc_internal (server_error_display e))
           | Ok (token, _, expires) =>
               match fc_file_api_base_url cfg ≫= fun b => if trim_is_empty b then None else Some b with
               | None => Err (rpc_internal "缺少配置: file_api_base_url，拒绝签发上传 token")
               | Some base =>
                   Ok (mkTokenResponse (current_attachment_key cfg) (Some (fz_chunk_plain_size frozen)) (Some (as_u64 (fz_sealed_size frozen))) token
                         (trim_end_slash base +:+ "/files/upload") already (Some expires) (Some (max_size_bytes ft)))
               end
           end, s')
      end
  end.
(** The internal check of a token: the fields it reports, or the reason. *)
Definition validate_upload_token (fault : option ServerError) (now now_secs : Z) (token : string) (s : UploadTokenService)
    : result (Z * string * Z * string) string :=
  match validate_any fault now now_secs token s with
  | Ok v => Ok (vt_user_id v, file_type_as_str (vt_file_type v), vt_max_size v, vt_business_type v)
  | Err e => Err (server_error_display e)
  end.
End Service.
