(* ===== verification/UploadTokenFacts.v ===== *)
(** * Facts about upload tokens

    What a token was issued for is what it is accepted for, whether it is signed or looked
    up ([issued_token_validates]), and an accepted signed token is bounded in time
    ([verified_claims_bounded]). The JWT crate is used through [JwtLaws]. *)

From Stdlib Require Import Ascii.
From stdpp Require Import base numbers gmap list strings.
From S2P Require Import Prelude Chunked UploadToken.
Local Open Scope Z_scope.

(** What the code relies on of the JWT crate: a token that was encoded shows its header and
    consists of three parts, and decoding it with the same secret and audience gives the
    claims back until they expire. *)
Class JwtLaws `(J : UploadJwt) : Prop := {
  jl_header : forall kid typ secret c t, uj_encode kid typ secret c = Some t -> uj_header t = Some (true, Some typ, Some kid);
  jl_parts : forall kid typ secret c t, uj_encode kid typ secret c = Some t -> length (split_char "." t) = 3%nat;
  jl_decode : forall kid typ secret c t clock leeway, uj_encode kid typ secret c = Some t -> 0 <= leeway -> clock < cl_exp c ->
    uj_decode clock leeway (cl_aud c) secret t = Ok c
}.

(** ** Codes *)
Lemma file_type_roundtrip t : file_type_from_str (file_type_as_str t) = Some t.
Proof. by destruct t. Qed.
Lemma file_type_as_str_inj t t' : file_type_as_str t = file_type_as_str t' -> t = t'.
Proof. intros E. apply (inj Some). by rewrite <-!file_type_roundtrip, E. Qed.
Lemma purpose_roundtrip c p : cl_prp c = purpose_code p -> purpose c = Some p.
Proof. unfold purpose. intros ->. by destruct p. Qed.
Lemma max_size_any t : max_size_bytes t <= max_size_bytes_any.
Proof. destruct t; vm_compute; discriminate. Qed.
#[export] Hint Rewrite file_type_roundtrip : privchat.

(** ** Checks *)
Section Tokens.
Context `{J : UploadJwt}.
Lemma sign_inv cfg now_secs claims t : sign cfg now_secs claims = Ok t ->
  let c := stamped now_secs (uc_ttl_secs cfg) claims in
  uc_ttl_secs cfg <= MAX_TTL_SECS /\ validate_claims c = Ok tt /\
  exists secret, resolve_secret cfg (Some (uc_default_kid cfg)) = Some secret /\ uj_encode (uc_default_kid cfg) TOKEN_TYP secret c = Some t.
Proof.
  unfold sign. destruct (Z.ltb_spec MAX_TTL_SECS (uc_ttl_secs cfg)); [done|]. cbn zeta. destruct (validate_claims _) as [[]|] eqn:V; [|done].
  destruct (resolve_secret cfg (Some (uc_default_kid cfg))) as [secret|] eqn:R; [|done]. destruct (uj_encode _ _ secret _) as [t'|] eqn:E; [|done]. intros [= <-]. split_and!; [done..|]. by exists secret.
Qed.
(** A signed token that is accepted is bounded: its claims are of this version and for
    one of the two purposes, it was not issued later than the leeway allows, its lifetime
    is positive and at most a day and the leeway, its upload id is a safe file name, a
    sealed size it declares is positive and within its own limit, and its digest is one. *)
Theorem verified_claims_bounded cfg clock now_secs token c : 0 <= uc_leeway_secs cfg -> verify cfg clock now_secs token = Ok c ->
  cl_v c = CLAIMS_VERSION /\ is_Some (purpose c) /\ is_Some (file_type_from_str (cl_ft c)) /\
  cl_iat c < cl_exp c <= cl_iat c + MAX_TTL_SECS + uc_leeway_secs cfg /\ cl_iat c <= now_secs + uc_leeway_secs cfg /\
  is_safe_upload_id (cl_upload_id c) = true /\ 0 < cl_mx c /\
  (forall size, cl_sealed_blob_size c = Some size -> 0 < size <= cl_mx c) /\ (forall d, cl_plaintext_sha256 c = Some d -> is_sha256_hex d = true) /\
  (forall p, cl_plan c = Some p -> pk_ir p <= pk_mr p /\ pk_mp p <= 8 /\ pk_mr p mod pk_bu p = 0).
Proof.
  intros Hl. unfold verify. destruct (uj_header token) as [[[[|] typ] kid]|]; [|done..]. destruct (negb _); [done|]. destruct (resolve_secret cfg kid) as [secret|]; [|done].
  destruct (uj_decode _ _ _ _ _) as [c'|[]]; [|done..]. unfold u64_saturating_add. destruct (Z.eqb_spec (cl_v c') CLAIMS_VERSION) as [Ev|]; [|done]. cbn [negb].
  destruct (Z.leb_spec (cl_exp c') (cl_iat c')); [done|]. destruct (Z.ltb_spec (Z.min (now_secs + uc_leeway_secs cfg) u64_max) (cl_iat c')); [done|].
  destruct (Z.ltb_spec (Z.min (MAX_TTL_SECS + uc_leeway_secs cfg) u64_max) (cl_exp c' - cl_iat c')); [done|].
  destruct (validate_claims c') as [[]|] eqn:V; [|done]. intros [= <-]. unfold validate_claims, check_size, upload_plan, validate_plan in V.
  destruct (Z.eqb_spec (cl_v c') CLAIMS_VERSION); [|done]. destruct (is_safe_upload_id _) eqn:Hs; [|done]. cbn [negb] in V. destruct (purpose c') as [p|]; [|done].
  destruct (file_type_from_str _) as [ft|]; [|done]. cbn in V. destruct (Z.leb_spec (cl_mx c') 0); [done|]. split_and!; try done; try lia.
  - intros size Hsz. rewrite Hsz in V. destruct (Z.leb_spec size 0); [done|]. destruct (Z.ltb_spec (cl_mx c') size); [done|lia].
  - intros d Hd. rewrite Hd in V. destruct (match cl_sealed_blob_size c' with Some _ => _ | None => _ end); [|done]. cbn in V. by destruct (is_sha256_hex d).
  - intros p' Hp. rewrite Hp in V. destruct (match cl_sealed_blob_size c' with Some _ => _ | None => _ end); [|done]. cbn in V.
    destruct (match cl_plaintext_sha256 c' with Some _ => _ | None => _ end); [done|]. destruct (match cl_filename c' with Some _ => _ | None => _ end); [done|].
    destruct (_ || _) eqn:B; [done|]. rewrite !orb_false_iff, !negb_false_iff, !Z.eqb_neq, !Z.eqb_eq, !Z.ltb_ge in B. naive_solver lia.
Qed.
End Tokens.

(** ** Issuing and checking *)
Section Service.
Context `{J : UploadJwt} `{!JwtLaws J} (sha256_hex : string -> string) (uuid_ok : string -> bool) (from_timestamp : Z -> option Z).
(** What a validated token says, against what was asked for. *)
Definition grants (v : ValidatedUploadToken) (user : Z) (ft : FileType) (mx : Z) (bt : string) (fn : option string) (i : UploadIdentity) (p : UploadTokenPurpose) : Prop :=
  vt_user_id v = user /\ vt_file_type v = ft /\ vt_max_size v = mx /\ vt_business_type v = bt /\ vt_filename v = fn /\ vt_purpose v = p /\
  vt_plaintext_sha256 v = ui_plaintext_sha256 i /\ vt_plaintext_size v = ui_plaintext_size i /\ vt_sealed_blob_size v = ui_declared_size i /\
  vt_mime_type v = ui_mime_type i /\ vt_format_version v = ui_format_version i /\ vt_encryption_key_id v = ui_encryption_key_id i /\
  vt_chunk_plain_size v = ui_chunk_plain_size i.
Lemma signed_validates cfg s c now_secs t later later_secs : 
  ts_signing s = Some cfg -> sign cfg now_secs c = Ok t -> 0 <= now_secs < 2 ^ 62 -> 0 <= uc_leeway_secs cfg -> now_secs <= later_secs ->
  later / nanos < now_secs + uc_ttl_secs cfg -> 0 < uc_ttl_secs cfg ->
  validate_any sha256_hex uuid_ok from_timestamp None later later_secs t s = Ok (from_claims from_timestamp later (stamped now_secs (uc_ttl_secs cfg) c)).
Proof.
  intros Hs Hsign Hn Hl Hle Hlt Hpos. apply sign_inv in Hsign as (Httl & Hv & secret & Hsec & Henc). cbn zeta in *.
  pose proof (jl_parts _ _ _ _ _ Henc) as P. pose proof (jl_header _ _ _ _ _ Henc) as H.
  unfold validate_any, classify_credential. rewrite P. cbn [Nat.eqb]. rewrite Hs. unfold verify. rewrite H, bool_decide_true by done. cbn [negb]. rewrite Hsec.
  unfold MAX_TTL_SECS in *. assert (Exp : cl_exp (stamped now_secs (uc_ttl_secs cfg) c) = now_secs + uc_ttl_secs cfg) by (cbn; unfold u64_saturating_add, u64_max; lia).
  change TOKEN_AUD with (cl_aud (stamped now_secs (uc_ttl_secs cfg) c)). rewrite (jl_decode _ _ _ _ _ (later / nanos) _ Henc) by lia. rewrite Exp. cbn [cl_v cl_iat stamped].
  unfold u64_saturating_add, u64_max. rewrite Z.eqb_refl. cbn [negb]. rewrite (proj2 (Z.leb_gt _ _)), !(proj2 (Z.ltb_ge _ _)) by lia. by rewrite Hv.
Qed.
(** C35. A token is accepted for what it was issued for: until a second before the expiry it
    reports, a token that was just issued, signed or not, is accepted, with the upload id it
    was issued under and the user, the purpose, the type, the limit and the frozen identity
    that were asked for. *)
Theorem issued_token_validates fault id simple now now' now_secs user ft mx bt fn i p plan s token upl expires s' later later_secs :
  uuid_ok id = true -> length (split_char "." id) <> 3%nat ->
  match ts_signing s with Some cfg => 0 <= uc_leeway_secs cfg /\ 0 < uc_ttl_secs cfg | None => True end ->
  0 <= now_secs < 2 ^ 62 -> now_secs <= later_secs ->
  issue_upload sha256_hex fault id simple now now' now_secs user ft mx bt fn i p plan s = (Ok (token, upl, expires), s') -> later + nanos <= expires * nanos ->
  exists v, validate_any sha256_hex uuid_ok from_timestamp None later later_secs token s' = Ok v /\
    vt_upload_id v = upl /\ grants v user ft mx bt fn (normalized_identity i) p.
Proof.
  intros Hu Hd Hcfg Hn Hle Hi Hlater.
  assert (Legacy : forall s0, (let '(r, s1) := generate_token fault id now now' user ft mx bt fn (normalized_identity i) p s0 in
            (let? t := r in Ok (ut_token t, derive_legacy_upload_id sha256_hex (ut_token t), ut_expires_at t / nanos), s1)) = (Ok (token, upl, expires), s') ->
            exists v, validate_any sha256_hex uuid_ok from_timestamp None later later_secs token s' = Ok v /\
              vt_upload_id v = upl /\ grants v user ft mx bt fn (normalized_identity i) p).
  { intros s0 E. unfold generate_token in E. set (t := upload_token_new id now user ft mx bt fn (normalized_identity i) p (ttl_secs s0)) in E.
    assert (Hval : ut_token t = id /\ (expires = ut_expires_at t / nanos -> token_is_valid later t = true)).
    { split; [done|]. intros ->. unfold token_is_valid. cbn [ut_used t upload_token_new negb andb]. apply Z.ltb_lt. pose proof (Z.mul_div_le (ut_expires_at t) nanos). unfold nanos in *. lia. }
    assert (Fin : forall s1, validate_token None later id s1 = Ok t -> exists v, validate_any sha256_hex uuid_ok from_timestamp None later later_secs id s1 = Ok v /\
              vt_upload_id v = derive_legacy_upload_id sha256_hex id /\ grants v user ft mx bt fn (normalized_identity i) p).
    { intros s1 V. unfold validate_any, classify_credential. rewrite (proj2 (Nat.eqb_neq _ _) Hd), Hu, V. cbn. eexists. split; [done|]. by split_and!. }
    destruct (ts_redis s0) as [r|].
    - destruct fault; [done|]. injection E as <- <- <- <-. apply Fin. unfold validate_token; cbn [ts_redis]. rewrite lookup_insert_eq.
      rewrite (proj2 Hval eq_refl), andb_true_r, (proj2 (Z.ltb_lt _ _)); [done|]. pose proof (Z.mod_pos_bound (ut_expires_at t - now') nanos ltac:(done)) as B.
      pose proof (Z.div_mod (ut_expires_at t - now') nanos ltac:(done)) as B'. pose proof (Z.mul_div_le (ut_expires_at t) nanos ltac:(done)) as B''.
      change (ut_expires_at t) with (now + ttl_secs s0 * nanos) in *. unfold nanos in *. lia.
    - injection E as <- <- <- <-. apply Fin. unfold validate_token; cbn [ts_redis ts_tokens]. rewrite lookup_insert_eq. by rewrite (proj2 Hval eq_refl). }
  unfold issue_upload in Hi. cbn zeta in Hi. destruct (ts_signing s) as [cfg|] eqn:Es; [|by eapply Legacy]. destruct (decide _); [|by eapply Legacy].
  destruct (sign cfg now_secs _) as [t|] eqn:Sg; [|done]. injection Hi as <- <- <- <-. destruct Hcfg as [Hl Ht]. pose proof Sg as Sg'. apply sign_inv in Sg' as (Httl & _). unfold MAX_TTL_SECS in Httl.
  eexists. split.
  - eapply signed_validates; [done|exact Sg|done|done|done| |done]. assert (E : i64_wrap (as_i64 now_secs + as_i64 (uc_ttl_secs cfg)) = now_secs + uc_ttl_secs cfg).
    { unfold i64_wrap, as_i64, as_u64. destruct (Z.ltb_spec now_secs (2 ^ 63)), (Z.ltb_spec (uc_ttl_secs cfg) (2 ^ 63)); try lia.
      rewrite Z.mod_small by lia. destruct (Z.ltb_spec (now_secs + uc_ttl_secs cfg) (2 ^ 63)); lia. }
    rewrite E in Hlater.
    apply Z.div_lt_upper_bound; unfold nanos in *; lia.
  - split; [done|]. unfold from_claims, grants; cbn. rewrite file_type_roundtrip, (purpose_roundtrip _ p) by done. by split_and!.
Qed.
End Service.

(** ** A signed token

    A crate that knows one token. *)
#[local] Instance plan_claims_eq_dec : EqDecision PlanClaims.
Proof. solve_decision. Defined.
#[local] Instance claims_eq_dec : EqDecision UploadTokenClaims.
Proof. solve_decision. Defined.
Definition ex_cfg : UploadTokenConfig := mkUploadConfig {[ "k"%string := "s"%string ]} "k" 30 600 IssueSigned.
Definition ex_ident : UploadIdentity := mkIdentity (Some ("aaaaaaaaaaaaaaaaaaaaaaaaaaaaaaaaaaaaaaaaaaaaaaaaaaaaaaaaaaaaaaAA"%string)) (Some 2) (Some 7) None (Some 1) (Some 1) (Some 4).
Definition ex_claims : UploadTokenClaims :=
  stamped 1000 600 (identified (claims_new "ab" 42 PUpload (file_type_as_str FImage) "message" (10 * MB)) None (normalized_identity ex_ident) (Some (mkPlan 1 1 2 1 1))).
#[local] Instance ex_one_jwt : UploadJwt := {|
  uj_encode := fun kid typ secret c => if decide (kid = "k" /\ typ = "upload" /\ secret = "s" /\ c = ex_claims)%string then Some "a.b.c"%string else None;
  uj_header := fun _ => Some (true, Some "upload"%string, Some "k"%string);
  uj_decode := fun clock _ _ _ _ => if clock <? cl_exp ex_claims then Ok ex_claims else Err UjExpired
|}.
Lemma ex_one_jwt_laws : JwtLaws ex_one_jwt.
Proof.
  split; cbn; intros kid typ secret c t; [..|intros clock leeway]; destruct (decide _) as [(-> & -> & -> & ->)|]; try done; intros [= <-]; try done.
  intros _ H. by rewrite (proj2 (Z.ltb_lt _ _)).
Qed.
Definition ex_service : UploadTokenService := mkTokenService ∅ None (Some ex_cfg).
Lemma issued_token_validates_witness : exists v,
  validate_any (fun s => s) (fun _ => true) (fun _ => None) None (1500 * nanos) 1500 "a.b.c" ex_service = Ok v /\ vt_upload_id v = "ab"%string /\
  grants v 42 FImage (10 * MB) "message" None (normalized_identity ex_ident) PUpload.
Proof.
  apply (issued_token_validates (JwtLaws0 := ex_one_jwt_laws) (fun s => s) (fun _ => true) (fun _ => None) None "uuid" "ab" 0 0 1000 42 FImage (10 * MB) "message" None ex_ident PUpload
    (Some (mkPlan 1 1 2 1 1)) ex_service "a.b.c" "ab" 1600 ex_service (1500 * nanos) 1500); try (vm_compute; done); cbn; lia.
Defined.
Lemma verified_claims_bounded_witness : verify ex_cfg 1500 1500 "a.b.c" = Ok ex_claims /\ cl_exp ex_claims <= cl_iat ex_claims + MAX_TTL_SECS + 30.
Proof.
  assert (E : verify ex_cfg 1500 1500 "a.b.c" = Ok ex_claims) by (vm_compute; reflexivity). split; [exact E|].
  destruct (verified_claims_bounded ex_cfg 1500 1500 "a.b.c" ex_claims) as (_ & _ & _ & (_ & L) & _); [cbn; lia|exact E|exact L].
Defined.
