(* ===== verification/FileStore.v ===== *)
(** * Attachments: verification, publication, records

    Models src/src/service/attachment_verify.rs, the part of
    src/src/service/file_service.rs that receives, publishes and records an attachment,
    src/src/repository/file_upload_repo.rs and src/src/service/file_claim_service.rs.

    A storage source is a map from paths to contents, with the source id in the key. The
    publication of an object is one step: the kernel's hard link, or the conditional write
    of the backend. The transaction that records an upload holds the lock of its content,
    so it is one step as well; where it fails, its rows are undone while the published
    object and the numbers drawn from sequences stay. The texts of I/O errors are those of
    the faults. *)

From Stdlib Require Import Ascii.
From stdpp Require Import base numbers gmap list strings.
From S2P Require Import Prelude Chunked UploadToken.
Local Open Scope Z_scope.

(** ** Opening a sealed attachment

    The format of the protocol crate; the opener is a state, as in the source. *)
Record AttachmentHeader := mkHeader { hd_encryption_key_id : Z; hd_chunk_plain_size : Z; hd_plaintext_size : Z; hd_chunk_count : Z }.
Class AttachmentCrypto := {
  HEADER_LEN : nat; NONCE_LEN : nat; TAG_LEN : nat; FORMAT_VERSION : Z;
  chunk_count_for : Z -> Z -> result Z string;
  sealed_len : Z -> Z -> result Z string;
  parse_header : list Z -> result AttachmentHeader string;
  expected_chunk_len : AttachmentHeader -> Z -> result Z string;
  AttachmentOpener : Type;
  opener_new : list Z -> list Z -> result AttachmentOpener string;
  open_chunk : AttachmentOpener -> list Z -> result (list Z * AttachmentOpener) string;
  opener_finish : AttachmentOpener -> result unit string;
  sha256 : list Z -> string
}.
Record FrozenIdentity := mkFrozenIdentity {
  fi_plaintext_sha256 : string; fi_plaintext_size : Z; fi_sealed_size : Z; fi_format_version : Z; fi_encryption_key_id : Z; fi_chunk_plain_size : Z
}.
Definition REJECTION : string := "附件校验失败".
Definition reject : ServerError := Validation REJECTION.
Definition io_failure (context : string) : ServerError := ServiceUnavailable ("读取待校验附件失败: " +:+ context).

Section Verify.
Context `{C : AttachmentCrypto}.
(** [read_exact] of the [k]-th read: fails when the connection breaks or the stream ends. *)
Definition read_exact (io : nat -> bool) (k n : nat) (context : string) (stream : list Z) : result (list Z * list Z) ServerError :=
  if io k || (length stream <? n)%nat then Err (io_failure context) else Ok (take n stream, drop n stream).
(** The loop over the chunks, [n] of them from [index] on: the plaintext, the bytes read
    and the rest. *)
Fixpoint open_chunks (io : nat -> bool) (h : AttachmentHeader) (n : nat) (index : Z) (o : AttachmentOpener) (plain sealed stream : list Z)
    : result (list Z * list Z * AttachmentOpener * list Z) ServerError :=
  match n with
  | O => Ok (plain, sealed, o, stream)
  | S n' =>
      match expected_chunk_len h index with
      | Err _ => Err reject
      | Ok plain_len =>
          let? p := read_exact io (Z.to_nat index + 1) (NONCE_LEN + 4 + Z.to_nat plain_len + TAG_LEN) ("read chunk " +:+ u64_to_string index) stream in
          match open_chunk o p.1 with
          | Err _ => Err reject
          | Ok (x, o') => open_chunks io h n' (index + 1) o' (plain ++ x) (sealed ++ p.1) p.2
          end
      end
  end.
Definition header_agrees (h : AttachmentHeader) (frozen : FrozenIdentity) (chunks : Z) : bool :=
  (hd_encryption_key_id h =? fi_encryption_key_id frozen) && (hd_chunk_plain_size h =? fi_chunk_plain_size frozen) &&
  (hd_plaintext_size h =? fi_plaintext_size frozen) && (hd_chunk_count h =? chunks).
(** [trailing]: the read after the last chunk fails. The result is the digest of the bytes
    read. *)
Definition verify_attachment (io : nat -> bool) (trailing : bool) (stream : list Z) (observed_size : Z) (frozen : FrozenIdentity) (site_key : list Z)
    : result string ServerError :=
  match chunk_count_for (fi_plaintext_size frozen) (fi_chunk_plain_size frozen), sealed_len (fi_plaintext_size frozen) (fi_chunk_plain_size frozen) with
  | Ok chunks, Ok expected =>
      if negb (expected =? fi_sealed_size frozen) then Err reject
      else if negb (observed_size =? fi_sealed_size frozen) then Err reject
      else
        let? p := read_exact io 0 HEADER_LEN "read header" stream in
        match parse_header p.1 with
        | Err _ => Err reject
        | Ok h =>
            if negb (header_agrees h frozen chunks) then Err reject
            else if negb (fi_format_version frozen =? FORMAT_VERSION) then Err reject
            else
              match opener_new p.1 site_key with
              | Err _ => Err reject
              | Ok o =>
                  let? q := open_chunks io h (Z.to_nat chunks) 0 o [] p.1 p.2 in
                  let '(plain, sealed, o', rest) := q in
                  if trailing then Err (io_failure "read trailer")
                  else if negb (bool_decide (rest = [])) then Err reject
                  else
                    match opener_finish o' with
                    | Err _ => Err reject
                    | Ok _ =>
                        if negb (Z.of_nat (length plain) =? fi_plaintext_size frozen) then Err reject
                        else if negb (eq_ignore_ascii_case (sha256 plain) (fi_plaintext_sha256 frozen)) then Err reject
                        else Ok (sha256 sealed)
                    end
              end
        end
  | _, _ => Err reject
  end.
End Verify.

(** ** Storage *)
Record StorageSource := mkSource {
  ss_id : Z; ss_storage_type : string; ss_storage_root : string; ss_base_url : option string; ss_endpoint : option string; ss_bucket : option string;
  ss_addressing_style : option string; ss_path_prefix : option string; ss_conditional_write : bool
}.
(** Paths and their bytes. A publication on a local disk gives the temporary file its
    final name by a hard link; when the temporary name stays, the two names are one file.
    [dk_shared] keeps every such pair, with [true] as long as they are. *)
Record disk := mkDisk { dk_files : gmap (Z * string) (list Z); dk_shared : gmap ((Z * string) * (Z * string)) bool }.
#[export] Instance disk_empty : Empty disk := mkDisk ∅ ∅.
#[export] Instance disk_lookup : Lookup (Z * string) (list Z) disk := fun k d => dk_files d !! k.
(** Opening a path for writing truncates the file it names, under all its names. *)
#[export] Instance disk_write : Insert (Z * string) (list Z) disk := fun k bytes d =>
  mkDisk (<[k := bytes]> (map_imap (fun p old => Some (if decide (dk_shared d !! (k, p) = Some true) then bytes else old)) (dk_files d))) (dk_shared d).
(** Removing a name leaves the other one its bytes. *)
#[export] Instance disk_unlink : Delete (Z * string) disk := fun k d =>
  mkDisk (delete k (dk_files d)) (map_imap (fun l alive => Some (alive && bool_decide (l.1 <> k /\ l.2 <> k))) (dk_shared d)).
Definition left_linked (staging final_path : Z * string) (d : disk) : disk := mkDisk (dk_files d) (<[(staging, final_path) := true]> (dk_shared d)).
Inductive PublishOutcome := Published | ObjectPresent.

(** [f] gives the text of the I/O errors; [exdev]: the two paths are on different file
    systems, and the bytes are copied; [f 3]: the directory is not synchronized; [f 4]:
    the temporary object is not removed. *)
Definition publish_object_local (f : faults) (exdev : bool) (src : Z) (staging final_path : string) (d : disk) : result PublishOutcome ServerError * disk :=
  match f 0%nat with
  | Some e => (Err (Internal e), d)
  | None =>
      match d !! (src, staging), f 1%nat with
      | None, _ => (Err (Internal "待同步文件不存在"), d)
      | _, Some e => (Err (Internal e), d)
      | Some bytes, None =>
          match (if exdev then f 5%nat else None) with
          | Some e => (Err (Internal e), d)
          | None =>
              match d !! (src, final_path), f 2%nat with
              | Some _, _ => (Ok ObjectPresent, d)
              | None, Some e => (Err (Internal e), d)
              | None, None =>
                  let d1 := <[(src, final_path) := bytes]> d in
                  let both := if exdev then d1 else left_linked (src, staging) (src, final_path) d1 in
                  match f 3%nat with
                  | Some e => (Err (Internal e), both)
                  | None => (Ok Published, match f 4%nat with Some _ => both | None => delete (src, staging) d1 end)
                  end
              end
          end
      end
  end.
(** A backend without a file system: the conditional write is refused when it is opened or
    when it is closed. *)
Definition publish_object_remote (f : faults) (conditional : bool) (src : Z) (staging final_path : string) (d : disk) : result PublishOutcome ServerError * disk :=
  if negb conditional then (Err (Internal "该存储后端不支持条件写（if_not_exists），无法保证不覆盖已有对象，拒绝发布"), d)
  else
    match f 0%nat with
    | Some e => (Err (Internal e), d)
    | None =>
        match d !! (src, staging) with
        | None => (Err (Internal "读临时对象大小失败"), d)
        | Some bytes =>
            match f 1%nat with
            | Some e => (Err (Internal e), d)
            | None =>
                match d !! (src, final_path), f 2%nat with
                | Some _, _ => (Ok ObjectPresent, d)
                | None, Some e => (Err (Internal e), d)
                | None, None =>
                    let d1 := <[(src, final_path) := bytes]> d in
                    (Ok Published, match f 4%nat with Some _ => d1 | None => delete (src, staging) d1 end)
                end
            end
        end
    end.
Definition publish_object (f : faults) (exdev : bool) (s : StorageSource) (staging final_path : string) (d : disk) : result PublishOutcome ServerError * disk :=
  if decide (ss_storage_type s = "local"%string) then publish_object_local f exdev (ss_id s) staging final_path d
  else publish_object_remote f (ss_conditional_write s) (ss_id s) staging final_path d.
(** [str::trim_start_matches] of a slash. *)
Fixpoint trim_start_slash (s : string) : string :=
  match s with String a r => if Ascii.eqb a "/" then trim_start_slash r else s | EmptyString => EmptyString end.
Definition strip_storage_prefix (prefix : option string) (file_path : string) : string :=
  match prefix with
  | None => file_path
  | Some p => if String.prefix p file_path then trim_start_slash (String.substring (String.length p) (String.length file_path) file_path) else file_path
  end.
Definition apply_storage_prefix (prefix : option string) (file_path : string) : string :=
  match prefix with
  | Some p => if String.prefix (p +:+ "/") file_path then file_path else p +:+ "/" +:+ trim_start_slash file_path
  | None => file_path
  end.
Definition path_prefix_of (s : StorageSource) : option string :=
  p ← ss_path_prefix s; let p := trim_end_slash (trim_start_slash (trim p)) in if decide (p = EmptyString) then None else Some p.
(** [str::split_once] on ["://"]. *)
Fixpoint split_scheme (s : string) : option (string * string) :=
  if String.prefix "://" s then Some (EmptyString, String.substring 3 (String.length s) s)
  else match s with EmptyString => None | String a r => p ← split_scheme r; Some (String a p.1, p.2) end.
Definition build_access_url (sources : gmap Z StorageSource) (file_path : string) (source_id : Z) : string :=
  match sources !! source_id with
  | None => "{unsupported:storage_source_id=" +:+ u64_to_string source_id +:+ "}"
  | Some s =>
      let path := apply_storage_prefix (path_prefix_of s) file_path in
      match ss_base_url s with
      | Some base => trim_end_slash base +:+ "/" +:+ path
      | None =>
          match ss_endpoint s, ss_bucket s with
          | Some endpoint, Some bucket =>
              if decide (ss_storage_type s = "s3"%string) then
                let endpoint := trim_end_slash endpoint in
                let '(scheme, host) := default ("https"%string, endpoint) (split_scheme endpoint) in
                if decide (ss_addressing_style s = Some "virtual"%string) then scheme +:+ "://" +:+ bucket +:+ "." +:+ host +:+ "/" +:+ path
                else scheme +:+ "://" +:+ host +:+ "/" +:+ bucket +:+ "/" +:+ path
              else "/" +:+ path
          | _, _ => "/" +:+ path
          end
      end
  end.
Definition detect_file_type (mime : string) : FileType :=
  if String.prefix "image/" mime then FImage else if String.prefix "video/" mime then FVideo else FFile.
Definition staging_path (uid : Z) (upload_id : string) : string := "tmp/uploads/" +:+ u64_to_string uid +:+ "/" +:+ upload_id +:+ "/body.part".
Definition type_subdir (t : FileType) : string :=
  match t with FImage => "images" | FVideo => "videos" | FVoice => "voices" | FFile => "files" | FOther => "others" end.
Definition generate_file_path (content_sha256 : string) (t : FileType) (filename : string) : string :=
  let extension := List.last (split_char "." filename) "bin"%string in
  let hash := to_ascii_lowercase content_sha256 in
  if (String.length hash <? 4)%nat || negb (is_hex hash) then type_subdir t +:+ "/" +:+ hash +:+ "." +:+ extension
  else type_subdir t +:+ "/" +:+ String.substring 0 2 hash +:+ "/" +:+ String.substring 2 2 hash +:+ "/" +:+ hash +:+ "." +:+ extension.

(** ** The tables *)
Record UploadRow := mkUploadRow {
  ur_original_filename : string; ur_file_type : string; ur_mime_type : string; ur_object_id : Z; ur_uploader_id : Z; ur_uploader_ip : option string;
  ur_uploaded_at : Z; ur_business_type : option string; ur_business_id : option string; ur_claim_key_hash : option string
}.
Record FileStore := mkStore {
  so_disk : disk; so_objects : gmap Z AttachmentObject; so_files : gmap Z UploadRow; so_next_object : Z; so_next_file : Z
}.
Definition set_disk (s : FileStore) (d : disk) : FileStore := mkStore d (so_objects s) (so_files s) (so_next_object s) (so_next_file s).
Definition find_object (sha : string) (s : FileStore) : option AttachmentObject :=
  snd <$> head (filter (fun p : Z * AttachmentObject => ao_plaintext_sha256 p.2 = sha) (map_to_list (so_objects s))).
Definition find_object_by_plaintext_sha256 (f : faults) (sha : string) (s : FileStore) : result (option AttachmentObject) ServerError :=
  exec? f 0%nat else "按明文摘要查对象失败: " in Ok (find_object sha s).
Definition claim_row (uploader : Z) (key : string) (s : FileStore) : option Z :=
  fst <$> head (filter (fun p : Z * UploadRow => ur_uploader_id p.2 = uploader /\ ur_claim_key_hash p.2 = Some key) (map_to_list (so_files s))).
Definition find_claimed (f : faults) (uploader : Z) (key : string) (s : FileStore) : result (option Z) ServerError :=
  exec? f 0%nat else "查询秒传幂等记录失败: " in Ok (claim_row uploader key s).
Definition metadata_of (file_id : Z) (r : UploadRow) (o : AttachmentObject) : FileMetadata :=
  mkFileMetadata file_id (ur_original_filename r) (default FOther (file_type_from_str (ur_file_type r))) (ur_mime_type r) (ur_uploader_id r) (ur_uploader_ip r)
    (ur_uploaded_at r) (ur_business_type r) (ur_business_id r) o.
Definition get_row (file_id : Z) (s : FileStore) : option FileMetadata :=
  r ← so_files s !! file_id; o ← so_objects s !! ur_object_id r; Some (metadata_of file_id r o).
Definition get_by_file_id_within (f : faults) (i : nat) (file_id : Z) (s : FileStore) : result (option FileMetadata) ServerError :=
  exec? f i else "查询上传记录失败: " in Ok (get_row file_id s).
Definition get_by_file_id (f : faults) (file_id : Z) (s : FileStore) : result (option FileMetadata) ServerError :=
  exec? f 0%nat else "获取查询连接失败: " in get_by_file_id_within f 1 file_id s.
Definition next_file_id (f : faults) (i : nat) (s : FileStore) : result Z ServerError * FileStore :=
  match f i with
  | Some e => (Err (Database ("获取 next file_id 失败: " +:+ e)), s)
  | None => (Ok (so_next_file s), mkStore (so_disk s) (so_objects s) (so_files s) (so_next_object s) (so_next_file s + 1))
  end.
Definition verify_file_ownership (f : faults) (file_id user_id : Z) (s : FileStore) : result bool ServerError :=
  let? m := get_by_file_id f file_id s in Ok (match m with Some m => fm_uploader_id m =? user_id | None => false end).
Definition update_business (f : faults) (file_id : Z) (bt bid : string) (s : FileStore) : result bool ServerError * FileStore :=
  match f 0%nat with
  | Some e => (Err (Database ("更新上传记录业务关联失败: " +:+ e)), s)
  | None =>
      match so_files s !! file_id with
      | None => (Ok false, s)
      | Some r =>
          (Ok true, mkStore (so_disk s) (so_objects s)
             (<[file_id := mkUploadRow (ur_original_filename r) (ur_file_type r) (ur_mime_type r) (ur_object_id r) (ur_uploader_id r) (ur_uploader_ip r)
                             (ur_uploaded_at r) (Some bt) (Some bid) (ur_claim_key_hash r)]> (so_files s)) (so_next_object s) (so_next_file s))
      end
  end.
(** The lock timed out, or another error. *)
Definition map_lock_error (context : string) (timed_out : bool) (e : string) : ServerError :=
  if timed_out then ServiceUnavailable (context +:+ ": 锁等待超时，请重试") else Database (context +:+ ": " +:+ e).

(** ** One object for one content *)
Record UploadPlacement := mkPlacement {
  up_plaintext_sha256 : string; up_plaintext_size : Z; up_sealed_sha256 : string; up_sealed_size : Z; up_my_path : string; up_my_source_id : Z;
  up_format_version : Z; up_encryption_key_id : Z
}.
Record ResolvedPlacement := mkResolved {
  rp_object_id : Z; rp_file_path : string; rp_storage_source_id : Z; rp_format_version : Z; rp_encryption_key_id : Z; rp_duplicate : bool
}.
Definition placed (o : AttachmentObject) (dup : bool) : ResolvedPlacement :=
  mkResolved (ao_object_id o) (ao_file_path o) (ao_storage_source_id o) (ao_format_version o) (ao_encryption_key_id o) dup.
Definition at_path (src : Z) (path : string) (s : FileStore) : option AttachmentObject :=
  snd <$> head (filter (fun p : Z * AttachmentObject => ao_storage_source_id p.2 = src /\ ao_file_path p.2 = path) (map_to_list (so_objects s))).
(** The CHECK constraints of the table. *)
Definition lower_sha256 (s : string) : bool := is_sha256_hex s && bool_decide (to_ascii_lowercase s = s).
Definition object_checks (i : UploadPlacement) : bool :=
  lower_sha256 (up_plaintext_sha256 i) && lower_sha256 (up_sealed_sha256 i) && (up_format_version i =? 1) &&
  (0 <=? up_encryption_key_id i) && (up_encryption_key_id i <=? 255) && (0 <=? as_i64 (up_plaintext_size i)) && (0 <=? as_i64 (up_sealed_size i)) &&
  (0 <=? up_my_source_id i).
Definition new_object (id : Z) (i : UploadPlacement) : AttachmentObject :=
  mkObject id (up_plaintext_sha256 i) (up_plaintext_size i) (up_sealed_sha256 i) (up_sealed_size i) (up_my_path i) (up_my_source_id i) (up_format_version i)
    (up_encryption_key_id i).
(** [violation] is the message of a failed CHECK. The statements are numbered from 1. *)
Definition register_object (violation : string) (f : faults) (i : UploadPlacement) (s : FileStore) : result ResolvedPlacement ServerError * FileStore :=
  match f 6%nat with
  | Some e => (Err (Database ("登记物理对象失败: " +:+ e)), s)
  | None =>
      let id := so_next_object s in
      let s1 := mkStore (so_disk s) (so_objects s) (so_files s) (id + 1) (so_next_file s) in
      if negb (object_checks i) then (Err (Database ("登记物理对象失败: " +:+ violation)), s1)
      else
        match at_path (up_my_source_id i) (up_my_path i) s with
        | None => (Ok (placed (new_object id i) false), mkStore (so_disk s) (<[id := new_object id i]> (so_objects s)) (so_files s) (id + 1) (so_next_file s))
        | Some o =>
            match f 7%nat with
            | Some e => (Err (Database ("回读同路径对象失败: " +:+ e)), s1)
            | None => (Ok (mkResolved (ao_object_id o) (up_my_path i) (up_my_source_id i) (ao_format_version o) (ao_encryption_key_id o) true), s1)
            end
        end
  end.
Definition converge_upload (violation : string) (timeout : nat -> bool) (f : faults) (i : UploadPlacement) (s : FileStore)
    : result ResolvedPlacement ServerError * FileStore :=
  match f 1%nat with
  | Some e => (Err (Database ("设置锁等待上限失败: " +:+ e)), s)
  | None =>
      match f 2%nat with
      | Some e => (Err (map_lock_error "获取内容锁失败" (timeout 2%nat) e), s)
      | None =>
          match f 3%nat with
          | Some e => (Err (Database ("查询同内容对象失败: " +:+ e)), s)
          | None =>
              match find_object (up_plaintext_sha256 i) s with
              | None => register_object violation f i s
              | Some o =>
                  match f 4%nat with
                  | Some e => (Err (map_lock_error "获取物理对象锁失败" (timeout 4%nat) e), s)
                  | None =>
                      match f 5%nat with
                      | Some e => (Err (Database ("复查同内容对象失败: " +:+ e)), s)
                      | None =>
                          match so_objects s !! ao_object_id o with
                          | Some o' => (Ok (placed o' true), s)
                          | None => register_object violation f i s
                          end
                      end
                  end
              end
          end
      end
  end.

(** ** Publication and record *)
Record StagedObject := mkStaged {
  sg_file_id : Z; sg_file_path : string; sg_staging_path : string; sg_source_id : Z; sg_file_type : FileType; sg_written : Z; sg_stored_sha256 : string
}.
Record RecordFields := mkFields {
  rf_filename : string; rf_mime_type : string; rf_uploader_id : Z; rf_uploader_ip : option string; rf_business_type : string; rf_business_id : option string;
  rf_plaintext_sha256 : string; rf_plaintext_size : Z; rf_format_version : Z; rf_encryption_key_id : Z; rf_chunk_plain_size : Z; rf_sealed_size : Z
}.
Definition frozen (r : RecordFields) : FrozenIdentity :=
  mkFrozenIdentity (rf_plaintext_sha256 r) (rf_plaintext_size r) (rf_sealed_size r) (rf_format_version r) (rf_encryption_key_id r) (rf_chunk_plain_size r).
(** [FileService]: its sources, each with an operator, and the default one. *)
Record FileService := mkFileService { fs_sources : gmap Z StorageSource; fs_default : Z }.
Definition operator_for_source (fs : FileService) (id : Z) : result StorageSource ServerError :=
  match fs_sources fs !! id with Some s => Ok s | None => Err (Internal ("未找到存储源 id=" +:+ u64_to_string id +:+ " 的 Operator")) end.
(** The environment of one call: [en_db] are the faults of the statements, [en_publish]
    of the publication, [en_verify] of the reads. A failed COMMIT may have taken effect
    ([en_applied]). *)
Record CallEnv := mkCallEnv {
  en_db : faults; en_timeout : nat -> bool; en_violation : string; en_publish : faults; en_exdev : bool; en_verify : faults; en_read : nat -> bool;
  en_trailing : bool; en_now_ms : Z; en_applied : bool
}.

Section Files.
Context `{C : AttachmentCrypto} (fs : FileService).
(** Whether the object at a path is the one expected. *)
Definition verify_object (fault : option string) (src : Z) (path : string) (expect_size : Z) (expect_sha256 : string) (d : disk) : result bool ServerError :=
  match d !! (src, path) with
  | None => Ok false
  | Some bytes =>
      if negb (Z.of_nat (length bytes) =? expect_size) then Ok false
      else match fault with
           | Some e => Err (Internal ("核验已发布对象失败: " +:+ e))
           | None => Ok (eq_ignore_ascii_case (sha256 bytes) expect_sha256)
           end
  end.
Definition delete_staging (e : CallEnv) (src : Z) (path : string) (s : FileStore) : FileStore :=
  match fs_sources fs !! src, en_publish e 9%nat with
  | Some _, None => set_disk s (delete (src, path) (so_disk s))
  | _, _ => s
  end.
(** The bytes are where their row will point to, or the call ends. *)
Definition place_bytes (e : CallEnv) (g : StagedObject) (duplicate : bool) (s : FileStore) : result unit ServerError * FileStore :=
  if duplicate then (Ok tt, delete_staging e (sg_source_id g) (sg_staging_path g) s)
  else
    match operator_for_source fs (sg_source_id g) with
    | Err x => (Err x, s)
    | Ok src =>
        let '(out, d) := publish_object (en_publish e) (en_exdev e) src (sg_staging_path g) (sg_file_path g) (so_disk s) in
        let s1 := set_disk s d in
        match out with
        | Err x => (Err x, s1)
        | Ok Published => (Ok tt, s1)
        | Ok ObjectPresent =>
            match verify_object (en_verify e 0%nat) (sg_source_id g) (sg_file_path g) (sg_written g) (sg_stored_sha256 g) d with
            | Err x => (Err x, s1)
            | Ok false => (Err (Internal ("正式路径 " +:+ sg_file_path g +:+ " 上已有**不同内容**的对象，拒绝覆盖")), s1)
            | Ok true => (Ok tt, delete_staging e (sg_source_id g) (sg_staging_path g) s1)
            end
        end
    end.
Definition row_of (e : CallEnv) (g : StagedObject) (r : RecordFields) (object_id : Z) : UploadRow :=
  mkUploadRow (rf_filename r) (file_type_as_str (sg_file_type g)) (rf_mime_type r) object_id (rf_uploader_id r) (rf_uploader_ip r) (en_now_ms e)
    (Some (rf_business_type r)) (rf_business_id r) None.
Definition recorded_metadata (e : CallEnv) (g : StagedObject) (r : RecordFields) (p : ResolvedPlacement) : FileMetadata :=
  metadata_of (sg_file_id g) (row_of e g r (rp_object_id p))
    (mkObject (rp_object_id p) (rf_plaintext_sha256 r) (rf_plaintext_size r) (sg_stored_sha256 g) (sg_written g) (rp_file_path p) (rp_storage_source_id p)
       (rp_format_version p) (rp_encryption_key_id p)).
(** [insert_within] and the reading back of a row that was there. *)
Definition insert_or_read (e : CallEnv) (g : StagedObject) (r : RecordFields) (p : ResolvedPlacement) (s : FileStore) : result (FileMetadata * FileStore) ServerError :=
  let meta := recorded_metadata e g r p in
  exec? (en_db e) 20%nat else "插入上传记录失败: " in
  match so_files s !! sg_file_id g with
  | None => Ok (meta, mkStore (so_disk s) (so_objects s) (<[sg_file_id g := row_of e g r (rp_object_id p)]> (so_files s)) (so_next_object s) (so_next_file s))
  | Some _ =>
      let? found := get_by_file_id_within (en_db e) 21 (sg_file_id g) s in
      match found with
      | None => Err (Internal ("主键冲突却读不到 " +:+ u64_to_string (sg_file_id g)))
      | Some x =>
          if (fm_uploader_id x =? rf_uploader_id r) && (ao_object_id (fm_object x) =? rp_object_id p)
             && bool_decide (file_type_as_str (fm_file_type x) = file_type_as_str (sg_file_type g))
          then Ok (x, s)
          else Err (Internal ("file_id=" +:+ u64_to_string (sg_file_id g) +:+ " 已被另一份内容占用（uploader/摘要/大小/类型不符）"))
      end
  end.
(** The rows of [s0] with the disk and the sequences of [s]. *)
Definition rolled_back (s0 s : FileStore) : FileStore := mkStore (so_disk s) (so_objects s0) (so_files s0) (so_next_object s) (so_next_file s).
Definition publish_and_record (e : CallEnv) (g : StagedObject) (r : RecordFields) (s : FileStore) : result FileMetadata ServerError * FileStore :=
  match en_db e 0%nat with
  | Some x => (Err (Database ("开启上传收敛事务失败: " +:+ x)), s)
  | None =>
      let i := mkPlacement (rf_plaintext_sha256 r) (rf_plaintext_size r) (sg_stored_sha256 g) (sg_written g) (sg_file_path g) (sg_source_id g)
                 (rf_format_version r) (rf_encryption_key_id r) in
      match converge_upload (en_violation e) (en_timeout e) (en_db e) i s with
      | (Err x, s1) => (Err x, rolled_back s s1)
      | (Ok p, s1) =>
          match place_bytes e g (rp_duplicate p) s1 with
          | (Err x, s2) => (Err x, rolled_back s s2)
          | (Ok _, s2) =>
              match insert_or_read e g r p s2 with
              | Err x => (Err x, rolled_back s s2)
              | Ok (meta, s3) =>
                  match en_db e 22%nat with
                  | Some x => (Err (Database ("提交上传收敛事务失败: " +:+ x)), if en_applied e then s3 else rolled_back s s3)
                  | None => (Ok meta, s3)
                  end
              end
          end
      end
  end.

(** Reading the object back before it is published. *)
Definition verify_staged_object (e : CallEnv) (src : Z) (staging : string) (fi : FrozenIdentity) (site_key : list Z) (s : FileStore) : result string ServerError :=
  match so_disk s !! (src, staging), en_verify e 1%nat with
  | Some bytes, None => verify_attachment (en_read e) (en_trailing e) bytes (Z.of_nat (length bytes)) fi site_key
  | _, _ => Err (ServiceUnavailable "读取待校验附件失败")
  end.

(** ** An upload as a stream *)
Record StreamingUpload := mkStreaming {
  su_file_id : Z; su_staging_path : string; su_source_id : Z; su_file_type : FileType; su_bytes : list Z; su_written : Z; su_limit : Z
}.
(** [f 0] is the opening of the writer, which empties the temporary object. *)
Definition begin_streaming_upload (f : faults) (mime : string) (token_max_size : Z) (reserved : option Z) (token_file_type : option FileType) (uid : Z)
    (upload_id : string) (s : FileStore) : result StreamingUpload ServerError * FileStore :=
  let t := match token_file_type with Some t => t | None => detect_file_type mime end in
  let limit := Z.min (max_size_bytes t) (Z.max token_max_size 0) in
  match operator_for_source fs (fs_default fs) with
  | Err x => (Err x, s)
  | Ok src =>
      let '(id, s1) := match reserved with Some id => (Ok id, s) | None => next_file_id f 1 s end in
      match id with
      | Err x => (Err x, s1)
      | Ok id =>
          match f 0%nat with
          | Some x => (Err (Internal ("打开存储 writer 失败: " +:+ x)), s1)
          | None => (Ok (mkStreaming id (staging_path uid upload_id) (ss_id src) t [] 0 limit), s1)
          end
      end
  end.
Definition write_chunk (fault : option string) (chunk : list Z) (u : StreamingUpload) : result StreamingUpload ServerError :=
  let written := Z.min (su_written u + Z.of_nat (length chunk)) u64_max in
  if su_limit u <? written then
    Err (Validation ("文件大小超过限制: " +:+ u64_to_string written +:+ " > " +:+ u64_to_string (su_limit u) +:+ " bytes"))
  else match fault with
       | Some x => Err (Internal ("存储写入失败: " +:+ x))
       | None => Ok (mkStreaming (su_file_id u) (su_staging_path u) (su_source_id u) (su_file_type u) (su_bytes u ++ chunk) written (su_limit u))
       end.
(** [close] of the writer leaves the bytes in the temporary object. *)
Definition commit_streaming_upload (e : CallEnv) (u : StreamingUpload) (filename mime : string) (uploader : Z) (ip : option string) (bt : string)
    (bid : option string) (sha : string) (plain_size fmt key_id chunk : Z) (declared_size : option Z) (site_key : list Z) (s : FileStore)
    : result FileMetadata ServerError * FileStore :=
  match en_publish e 10%nat with
  | Some x => (Err (Internal ("存储写入收尾失败: " +:+ x)), s)
  | None =>
      let s1 := set_disk s (<[(su_source_id u, su_staging_path u) := su_bytes u]> (so_disk s)) in
      if match declared_size with Some d => negb (d =? as_i64 (su_written u)) | None => false end
      then (Err (Validation ("上传字节数与 prepare 阶段声明的不一致：声明 " +:+ i64_to_string (default 0 declared_size) +:+ "，实际 " +:+ u64_to_string (su_written u))), delete_staging e (su_source_id u) (su_staging_path u) s1)
      else
        match match declared_size with
              | Some d => if 0 <=? d then Ok (as_u64 d) else sealed_len plain_size chunk
              | None => sealed_len plain_size chunk
              end with
        | Err x => (Err (Internal ("冻结身份的密文长度算不出来: " +:+ x)), s1)
        | Ok sealed =>
            let r := mkFields filename mime uploader ip bt bid sha plain_size fmt key_id chunk sealed in
            match verify_staged_object e (su_source_id u) (su_staging_path u) (frozen r) site_key s1 with
            | Err x => (Err x, delete_staging e (su_source_id u) (su_staging_path u) s1)
            | Ok stored =>
                publish_and_record e
                  (mkStaged (su_file_id u) (generate_file_path stored (su_file_type u) filename) (su_staging_path u) (su_source_id u) (su_file_type u)
                     (su_written u) stored) r s1
            end
        end
  end.
Definition abort_streaming (fault : option string) (u : StreamingUpload) (s : FileStore) : FileStore :=
  match fault with Some _ => s | None => set_disk s (delete (su_source_id u, su_staging_path u) (so_disk s)) end.
(** The body put together from the parts of a resumable upload, in the directory of its
    session. *)
Definition assembled_path (upload_id : string) : string := "tmp/uploads/chunked/" +:+ upload_id +:+ "/body.complete.tmp".
Definition commit_chunked_upload (e : CallEnv) (upload_id manifest_file_type : string) (reserved_file_id written : Z) (r : RecordFields) (site_key : list Z)
    (s : FileStore) : result FileMetadata ServerError * FileStore :=
  let t := default FFile (file_type_from_str manifest_file_type) in
  match operator_for_source fs (fs_default fs) with
  | Err x => (Err x, s)
  | Ok src =>
      match verify_staged_object e (ss_id src) (assembled_path upload_id) (frozen r) site_key s with
      | Err x => (Err x, s)
      | Ok stored =>
          publish_and_record e (mkStaged reserved_file_id (generate_file_path stored t (rf_filename r)) (assembled_path upload_id) (ss_id src) t written stored) r s
      end
  end.
End Files.

(** ** Taking a reference to an object that exists *)
Record ReferenceMetadata := mkReference { rm_original_filename : string; rm_file_type : FileType; rm_mime_type : string; rm_business_type : string }.
Definition create_reference (f : faults) (timeout applied : bool) (now_ms object_id uploader : Z) (m : ReferenceMetadata) (key : option string) (s : FileStore)
    : result Z ServerError * FileStore :=
  match next_file_id f 0 s with
  | (Err x, s1) => (Err x, s1)
  | (Ok file_id, s1) =>
      match f 1%nat, f 2%nat, f 3%nat, f 4%nat with
      | Some x, _, _, _ => (Err (Database ("开启秒传取用事务失败: " +:+ x)), s1)
      | _, Some x, _, _ => (Err (Database ("设置锁等待上限失败: " +:+ x)), s1)
      | _, _, Some x, _ => (Err (map_lock_error "获取物理对象锁失败" timeout x), s1)
      | _, _, _, Some x => (Err (Database ("复查物理对象失败: " +:+ x)), s1)
      | None, None, None, None =>
          match so_objects s1 !! object_id with
          | None => (Err (NotFound "服务端没有这份内容，请正常上传"), s1)
          | Some _ =>
              match f 5%nat with
              | Some x => (Err (Database ("创建秒传记录失败: " +:+ x)), s1)
              | None =>
                  let row := mkUploadRow (rm_original_filename m) (file_type_as_str (rm_file_type m)) (rm_mime_type m) object_id uploader None now_ms
                               (Some (rm_business_type m)) None key in
                  let earlier := key ≫= fun k => claim_row uploader k s1 in
                  let s2 := match earlier with
                            | Some _ => s1
                            | None => mkStore (so_disk s1) (so_objects s1) (<[file_id := row]> (so_files s1)) (so_next_object s1) (so_next_file s1)
                            end in
                  match (match key with Some _ => f 6%nat | None => None end) with
                  | Some x => (Err (Database ("回读秒传记录失败: " +:+ x)), s1)
                  | None =>
                      match f 7%nat with
                      | Some x => (Err (Database ("提交秒传取用事务失败: " +:+ x)), if applied then s2 else s1)
                      | None => (Ok (default file_id earlier), s2)
                      end
                  end
              end
          end
      end
  end.

Section Claims.
Context `{J : UploadJwt} (sha256_hex : string -> string) (uuid_ok : string -> bool) (from_timestamp : Z -> option Z).
Definition claim_key_hash (token : string) : string := sha256_hex token.
(** The checks on the token; the result is its digest in lower case. *)
Definition check_claim (user_id : Z) (request_sha256 : string) (v : ValidatedUploadToken) : result string ServerError :=
  if negb (bool_decide (vt_purpose v = PClaimExisting)) then Err (Validation "该 token 用于实体上传，不能用于秒传取用")
  else if negb (vt_user_id v =? user_id) then Err (Forbidden "上传 token 不属于当前用户")
  else
    match vt_plaintext_sha256 v with
    | None => Err (Validation "该 token 未绑定内容摘要")
    | Some bound =>
        if negb (eq_ignore_ascii_case bound (trim request_sha256)) then Err (Validation "sha256 与 token 绑定的内容不一致")
        else let n := to_ascii_lowercase (trim bound) in
             if is_sha256_hex n then Ok n else Err (Validation "sha256 必须是 64 位十六进制（SHA-256）")
    end.
Definition reference_of (v : ValidatedUploadToken) : ReferenceMetadata :=
  mkReference (default EmptyString (vt_filename v)) (vt_file_type v) (default "application/octet-stream"%string (vt_mime_type v)) (vt_business_type v).
(** A claim that left no record yet. [f0], [f1], [f2]: the faults of the lookups, of the
    new reference and of reading it. *)
Definition claim_new (f0 f1 f2 : faults) (timeout applied : bool) (tf : option ServerError) (now now_secs now_ms user_id : Z)
    (token request_sha256 : string) (ts : UploadTokenService) (s : FileStore) : result FileMetadata ServerError * FileStore :=
  match validate_any sha256_hex uuid_ok from_timestamp tf now now_secs token ts with
  | Err _ => (Err (Validation "上传 token 无效或已过期"), s)
  | Ok v =>
      match check_claim user_id request_sha256 v with
      | Err x => (Err x, s)
      | Ok n =>
          match find_object_by_plaintext_sha256 (fun i => f0 (i + 3)%nat) n s with
          | Err x => (Err x, s)
          | Ok None => (Err (NotFound "服务端没有这份内容，请正常上传"), s)
          | Ok (Some o) =>
              match create_reference f1 timeout applied now_ms (ao_object_id o) user_id (reference_of v) (Some (claim_key_hash token)) s with
              | (Err x, s1) => (Err x, s1)
              | (Ok id, s1) =>
                  match get_by_file_id f2 id s1 with
                  | Err x => (Err x, s1)
                  | Ok None => (Err (Internal ("秒传记录 " +:+ u64_to_string id +:+ " 刚写入却读不到")), s1)
                  | Ok (Some m) => (Ok m, s1)
                  end
              end
          end
      end
  end.
Definition claim_existing_file (f0 f1 f2 : faults) (timeout applied : bool) (tf : option ServerError) (now now_secs now_ms user_id : Z)
    (token request_sha256 : string) (ts : UploadTokenService) (s : FileStore) : result FileMetadata ServerError * FileStore :=
  match find_claimed f0 user_id (claim_key_hash token) s with
  | Err x => (Err x, s)
  | Ok earlier =>
      match match earlier with Some id => get_by_file_id (fun i => f0 (i + 1)%nat) id s | None => Ok None end with
      | Err x => (Err x, s)
      | Ok (Some m) => (Ok m, s)
      | Ok None => claim_new f0 f1 f2 timeout applied tf now now_secs now_ms user_id token request_sha256 ts s
      end
  end.
End Claims.
