(* ===== verification/FileFacts.v ===== *)
(** * Facts about stored attachments

    What a verified attachment is ([unseal], a decryption without I/O), what the stores
    keep of published objects ([kept], [store_le]), and the invariant of the tables and
    the storage ([store_ok]), with the operations of FileStore.v that preserve it. *)

From Stdlib Require Import Ascii.
From stdpp Require Import base numbers gmap list strings.
From S2P Require Import Prelude Chunked UploadToken FileStore.
Local Open Scope Z_scope.

(** ** Opening *)
Section Unseal.
Context `{C : AttachmentCrypto}.
(** The plaintext of a sealed attachment: every byte belongs to the header or to a chunk
    that opens. *)
Definition unseal (site_key stream : list Z) : option (list Z) :=
  match parse_header (take HEADER_LEN stream), opener_new (take HEADER_LEN stream) site_key with
  | Ok h, Ok o =>
      match open_chunks (fun _ => false) h (Z.to_nat (hd_chunk_count h)) 0 o [] (take HEADER_LEN stream) (drop HEADER_LEN stream) with
      | Ok (plain, _, o', []) => match opener_finish o' with Ok _ => Some plain | Err _ => None end
      | _ => None
      end
  | _, _ => None
  end.
Lemma read_exact_ok io k n c s p : read_exact io k n c s = Ok p -> p = (take n s, drop n s) /\ (n <= length s)%nat /\ io k = false.
Proof.
  unfold read_exact. destruct (io k); cbn [orb]; [done|]. destruct (Nat.ltb_spec (length s) n); [done|]. intros [= <-]. done.
Qed.
Lemma open_chunks_bytes io h n i o plain sealed s plain' sealed' o' rest :
  open_chunks io h n i o plain sealed s = Ok (plain', sealed', o', rest) -> sealed' ++ rest = sealed ++ s.
Proof.
  revert i o plain sealed s. induction n as [|n IH]; intros i o plain sealed s; cbn [open_chunks]; [intros [=]; by subst|].
  destruct (expected_chunk_len h i); [|done]. destruct (read_exact _ _ _ _ _) as [p|] eqn:R; [|done]. cbn.
  destruct (open_chunk o p.1) as [[x o1]|]; [|done]. intros ->%IH. apply read_exact_ok in R as [-> _]. cbn.
  by rewrite <-app_assoc, take_drop.
Qed.
Lemma open_chunks_quiet io h n i o plain sealed s q :
  open_chunks io h n i o plain sealed s = Ok q -> open_chunks (fun _ => false) h n i o plain sealed s = Ok q.
Proof.
  revert i o plain sealed s. induction n as [|n IH]; intros i o plain sealed s; cbn [open_chunks]; [done|].
  destruct (expected_chunk_len h i) as [l|]; [|done]. destruct (read_exact io _ _ _ _) as [p|] eqn:R; [|done]. cbn.
  apply read_exact_ok in R as (-> & L & _). unfold read_exact. cbn [orb]. rewrite (proj2 (Nat.ltb_ge _ _)) by lia. cbn.
  destruct (open_chunk _ _) as [[x o1]|]; [|done]. apply IH.
Qed.
(** An accepted attachment opens to content of the frozen identity, and the digest is that
    of all its bytes. *)
Lemma verify_sound io trailing stream size fi key d : verify_attachment io trailing stream size fi key = Ok d ->
  size = fi_sealed_size fi /\ d = sha256 stream /\
  exists plain, unseal key stream = Some plain /\ Z.of_nat (length plain) = fi_plaintext_size fi /\
    eq_ignore_ascii_case (sha256 plain) (fi_plaintext_sha256 fi) = true.
Proof.
  unfold verify_attachment, unseal. destruct (chunk_count_for _ _) as [chunks|]; [|done]. destruct (sealed_len _ _) as [expected|]; [|done].
  destruct (_ =? _); [|done]. destruct (Z.eqb_spec size (fi_sealed_size fi)) as [->|]; [|done]. cbn [negb].
  destruct (read_exact _ _ _ _ _) as [p|] eqn:R; [|done]. cbn. apply read_exact_ok in R as (-> & _). cbn [fst snd].
  destruct (parse_header _) as [h|]; [|done]. destruct (header_agrees h fi chunks) eqn:HA; [|done]. destruct (_ =? FORMAT_VERSION); [|done]. cbn [negb].
  unfold header_agrees in HA. apply andb_true_iff in HA as [_ ->%Z.eqb_eq].
  destruct (opener_new _ _) as [o|]; [|done]. destruct (open_chunks _ _ _ _ _ _ _ _) as [q|] eqn:Q; [|done]. cbn.
  destruct q as [[[plain sealed] o'] rest]. pose proof (open_chunks_bytes _ _ _ _ _ _ _ _ _ _ _ _ Q) as B. rewrite (open_chunks_quiet _ _ _ _ _ _ _ _ _ Q).
  destruct trailing; [done|]. case_bool_decide as E; [|done]. cbn [negb]. subst rest. rewrite app_nil_r, take_drop in B. subst sealed.
  destruct (opener_finish o'); [|done]. destruct (Z.eqb_spec (Z.of_nat (length plain)) (fi_plaintext_size fi)); [|done]. cbn [negb].
  destruct (eq_ignore_ascii_case _ _) eqn:EC; [|done]. intros [= <-]. split_and!; [done|done|]. by exists plain.
Qed.
End Unseal.

(** ** Storage *)
Definition temporary (p : string) : bool := String.prefix "tmp/" p.
Lemma staging_temporary uid id : temporary (staging_path uid id) = true.
Proof. done. Qed.
Lemma assembled_temporary id : temporary (assembled_path id) = true.
Proof. done. Qed.
Lemma final_not_temporary sha t name : temporary (generate_file_path sha t name) = false.
Proof. unfold generate_file_path. case_match; by destruct t. Qed.
#[export] Hint Resolve staging_temporary assembled_temporary final_not_temporary : privchat.

Lemma disk_write_eq (d : disk) k b : <[k := b]> d !! k = Some b.
Proof. unfold lookup, disk_lookup. simpl. apply lookup_insert_eq. Qed.
Lemma disk_write_ne (d : disk) k k' b : dk_shared d = ∅ -> k <> k' -> <[k := b]> d !! k' = d !! k'.
Proof.
  intros He N. unfold lookup, disk_lookup. simpl. rewrite lookup_insert_ne, map_lookup_imap by done. destruct (dk_files d !! k'); [|done]. simpl.
  by rewrite He, lookup_empty.
Qed.
Lemma disk_unlink_ne (d : disk) k k' : k <> k' -> delete k d !! k' = d !! k'.
Proof. intros N. unfold lookup, disk_lookup. simpl. by rewrite lookup_delete_ne. Qed.
Lemma unlink_shared (d : disk) k : dk_shared (delete k d) = ∅ -> dk_shared d = ∅.
Proof.
  intros He. apply map_empty. intros l. apply (f_equal (lookup l)) in He. simpl in He. rewrite map_lookup_imap, lookup_empty in He.
  by destruct (dk_shared d !! l).
Qed.

(** What is not temporary stays as it is, as long as no publication has left its
    temporary name behind. *)
Definition kept (d d' : disk) : Prop := dk_shared d' = ∅ ->
  dk_shared d = ∅ /\ forall src p b, temporary p = false -> d !! (src, p) = Some b -> d' !! (src, p) = Some b.
#[export] Instance kept_preorder : PreOrder kept.
Proof. split; [by intros d|]. intros x y z H H' Hz. destruct (H' Hz) as [Hy K']. destruct (H Hy) as [Hx K]. split; [done|]. eauto. Qed.
Lemma kept_insert d src p b : temporary p = true \/ d !! (src, p) = None -> kept d (<[(src, p) := b]> d).
Proof.
  intros H He. split; [done|]. intros src' p' b' Hp Hd. destruct (decide ((src, p) = (src', p'))) as [[= <- <-]|N]; [|by rewrite disk_write_ne].
  destruct H as [H|H]; congruence.
Qed.
Lemma kept_delete d src p : temporary p = true -> kept d (delete (src, p) d).
Proof. intros H He%unlink_shared. split; [done|]. intros src' p' b' Hp Hd. rewrite disk_unlink_ne; [done|]. intros [= <- <-]. congruence. Qed.
Lemma kept_linked d d' k k' : kept d (left_linked k k' d').
Proof. intros He. simpl in He. by apply insert_non_empty in He. Qed.
Lemma kept_delete_then d d1 src p : kept d d1 -> temporary p = true -> kept d (delete (src, p) d1).
Proof. intros H T. etransitivity; [exact H|by apply kept_delete]. Qed.
#[export] Hint Resolve kept_delete kept_delete_then : privchat.

(** What a publication does to the storage. *)
Definition published (d d' : disk) (src : Z) (staging final : string) (out : result PublishOutcome ServerError) : Prop :=
  kept d d' /\ match out with Ok Published => d' !! (src, final) = d !! (src, staging) /\ is_Some (d !! (src, staging)) | Ok ObjectPresent => d' = d | Err _ => True end.
Lemma placed_then d src staging final bytes (linked : bool) (o : option string) : temporary staging = true -> temporary final = false ->
  d !! (src, staging) = Some bytes -> d !! (src, final) = None ->
  let d1 := <[(src, final) := bytes]> d in
  let both := if linked then left_linked (src, staging) (src, final) d1 else d1 in
  published d (match o with Some _ => both | None => delete (src, staging) d1 end) src staging final (Ok Published).
Proof.
  intros Ts Tf Hs Hf d1 both. assert (kept d d1) by (apply kept_insert; auto).
  assert (kept d both) by (destruct linked; [apply kept_linked|done]).
  assert (both !! (src, final) = Some bytes) by (transitivity (d1 !! (src, final)); [by destruct linked|apply disk_write_eq]).
  assert (Hne : (src, staging) <> (src, final)) by (intros [= E]; congruence).
  split; [destruct o; auto with privchat|]. rewrite Hs. destruct o; [done|]. rewrite disk_unlink_ne by done. split; [apply disk_write_eq|done].
Qed.
Lemma publish_object_spec f x src staging final d : temporary staging = true -> temporary final = false ->
  forall out d', publish_object f x src staging final d = (out, d') -> published d d' (ss_id src) staging final out.
Proof.
  intros Ts Tf out d'. unfold publish_object. destruct (decide _).
  - unfold publish_object_local. destruct (f 0%nat); [by intros [= <- <-]|]. destruct (d !! (ss_id src, staging)) as [bytes|] eqn:Hs; [|by intros [= <- <-]].
    destruct (f 1%nat); [by intros [= <- <-]|]. destruct (if x then f 5%nat else None); [by intros [= <- <-]|].
    destruct (d !! (ss_id src, final)) eqn:Hf; [by intros [= <- <-]|]. destruct (f 2%nat); [by intros [= <- <-]|].
    destruct (f 3%nat); intros [= <- <-].
    + split; [|done]. destruct x; [apply kept_insert; auto|apply kept_linked].
    + pose proof (placed_then d (ss_id src) staging final bytes (negb x) (f 4%nat) Ts Tf Hs Hf). by destruct x.
  - unfold publish_object_remote. destruct (ss_conditional_write src); [|by intros [= <- <-]]. destruct (f 0%nat); [by intros [= <- <-]|]. cbn [negb].
    destruct (d !! (ss_id src, staging)) as [bytes|] eqn:Hs; [|by intros [= <- <-]]. destruct (f 1%nat); [by intros [= <- <-]|].
    destruct (d !! (ss_id src, final)) eqn:Hf; [by intros [= <- <-]|]. destruct (f 2%nat); intros [= <- <-]; [done|]. by apply (placed_then d (ss_id src) staging final bytes false (f 4%nat)).
Qed.

(** When the directory cannot be synchronized the upload is answered with an error, the
    object has its name, and the next attempt, which writes the temporary name again,
    rewrites the object. *)
Example retry_rewrites_a_published_object :
  let staging := (0, "tmp/uploads/1/u/body.part"%string) in let final := (0, "public/images/a.png"%string) in
  let '(out, d) := publish_object_local (fun i => if decide (i = 3%nat) then Some "fsync"%string else None) false 0 staging.2 final.2 (<[staging := [1; 2]]> ∅) in
  out = Err (Internal "fsync") /\ d !! final = Some [1; 2] /\ <[staging := [3]]> d !! final = Some [3].
Proof. vm_compute. done. Qed.

(** ** Tables *)
Lemma head_filter_map {K A} `{Countable K} (P : K * A -> Prop) `{!forall x, Decision (P x)} (m : gmap K A) :
  match head (filter P (map_to_list m)) with
  | Some p => m !! p.1 = Some p.2 /\ P p
  | None => forall k a, m !! k = Some a -> ~ P (k, a)
  end.
Proof.
  destruct (filter P (map_to_list m)) as [|[k a] l] eqn:E; cbn.
  - intros k a Hk HP. assert (X : (k, a) ∈ filter P (map_to_list m)) by (apply list_elem_of_filter; split; [done|by apply elem_of_map_to_list]).
    rewrite E in X. set_solver.
  - assert (X : (k, a) ∈ filter P (map_to_list m)) by (rewrite E; set_solver). apply list_elem_of_filter in X as [HP X]. by apply elem_of_map_to_list in X.
Qed.
Lemma find_object_some sha s o : find_object sha s = Some o -> exists id, so_objects s !! id = Some o /\ ao_plaintext_sha256 o = sha.
Proof.
  unfold find_object. match goal with |- context [head (filter ?P _)] => pose proof (head_filter_map P (so_objects s)) as X; destruct (head (filter P _)) as [[id a]|] end; [|done].
  intros [= <-]. by exists id.
Qed.
Lemma find_object_none sha s : find_object sha s = None -> forall id o, so_objects s !! id = Some o -> ao_plaintext_sha256 o <> sha.
Proof.
  unfold find_object. match goal with |- context [head (filter ?P _)] => pose proof (head_filter_map P (so_objects s)) as X; destruct (head (filter P _)) as [[id a]|] end; [done|].
  intros _ id o Ho. exact (X id o Ho).
Qed.
Lemma at_path_spec src path s :
  match at_path src path s with
  | Some o => exists id, so_objects s !! id = Some o /\ ao_storage_source_id o = src /\ ao_file_path o = path
  | None => forall id o, so_objects s !! id = Some o -> ~ (ao_storage_source_id o = src /\ ao_file_path o = path)
  end.
Proof.
  unfold at_path. match goal with |- context [head (filter ?P _)] => pose proof (head_filter_map P (so_objects s)) as X; destruct (head (filter P _)) as [[id a]|] end; cbn.
  - exists id. naive_solver.
  - intros id o Ho. exact (X id o Ho).
Qed.
Lemma claim_row_spec u k s :
  match claim_row u k s with
  | Some f => exists r, so_files s !! f = Some r /\ ur_uploader_id r = u /\ ur_claim_key_hash r = Some k
  | None => forall f r, so_files s !! f = Some r -> ~ (ur_uploader_id r = u /\ ur_claim_key_hash r = Some k)
  end.
Proof.
  unfold claim_row. match goal with |- context [head (filter ?P _)] => pose proof (head_filter_map P (so_files s)) as X; destruct (head (filter P _)) as [[id a]|] end; cbn.
  - exists a. naive_solver.
  - intros id o Ho. exact (X id o Ho).
Qed.

(** What a step may do to the stores: objects and their bytes stay, a file keeps its
    content, its owner and its type. *)
Definition same_file (r r' : UploadRow) : Prop :=
  ur_file_type r' = ur_file_type r /\ ur_object_id r' = ur_object_id r /\ ur_uploader_id r' = ur_uploader_id r /\ ur_claim_key_hash r' = ur_claim_key_hash r.
Record store_le (s s' : FileStore) : Prop := {
  le_objects : so_objects s ⊆ so_objects s';
  le_files : forall f r, so_files s !! f = Some r -> exists r', so_files s' !! f = Some r' /\ same_file r r';
  le_disk : kept (so_disk s) (so_disk s');
  le_next_object : so_next_object s <= so_next_object s';
  le_next_file : so_next_file s <= so_next_file s'
}.
#[export] Instance store_le_preorder : PreOrder store_le.
Proof.
  split.
  - intros s. split; try done; try lia. intros f r Hr. exists r. by split.
  - intros s1 s2 s3 [] []. split; try lia; [by transitivity (so_objects s2)| |by transitivity (so_disk s2)].
    intros f r Hr. destruct (le_files0 f r Hr) as (r2 & H2 & E2). destruct (le_files1 f r2 H2) as (r3 & H3 & E3).
    exists r3. split; [done|]. unfold same_file in *. intuition congruence.
Qed.
Lemma set_disk_le s d : kept (so_disk s) d -> store_le s (set_disk s d).
Proof. intros H. split; cbn; try done; try lia. intros f r Hr. exists r. by split. Qed.
Lemma new_file_le s f r : so_files s !! f = None -> store_le s (mkStore (so_disk s) (so_objects s) (<[f := r]> (so_files s)) (so_next_object s) (so_next_file s)).
Proof.
  intros H. split; cbn; try done; try lia. intros g x Hx. exists x. split; [|done]. rewrite lookup_insert_ne; [done|congruence].
Qed.
Lemma next_file_le f i s out s' : next_file_id f i s = (out, s') ->
  store_le s s' /\ so_disk s' = so_disk s /\ so_objects s' = so_objects s /\ so_files s' = so_files s /\ so_next_object s' = so_next_object s /\
  match out with Ok id => id = so_next_file s /\ so_next_file s' = id + 1 | Err _ => s' = s end.
Proof.
  unfold next_file_id. destruct (f i); intros [= <- <-]; [by split_and!|]. cbn. split_and!; try done.
  split; cbn; try done; try lia. intros g x Hx. by exists x.
Qed.

Section Stored.
Context `{C : AttachmentCrypto} (fs : FileService) (keyring : Z -> option (list Z)).
(** Bytes whose digest, size and content are those of the object's row. *)
Definition opened (o : AttachmentObject) (body : list Z) : Prop :=
  sha256 body = ao_sealed_sha256 o /\ Z.of_nat (length body) = ao_sealed_size o /\
  exists key plain, keyring (ao_encryption_key_id o) = Some key /\ unseal key body = Some plain /\
    Z.of_nat (length plain) = ao_plaintext_size o /\ eq_ignore_ascii_case (sha256 plain) (ao_plaintext_sha256 o) = true.
(** The object's path holds bytes of the recorded size and digest, as long as no
    publication has left its temporary name behind, and bytes of that digest were opened
    with the site's key. *)
Definition intact (d : disk) (o : AttachmentObject) : Prop :=
  temporary (ao_file_path o) = false /\
  (dk_shared d = ∅ -> exists bytes, d !! (ao_storage_source_id o, ao_file_path o) = Some bytes /\ Z.of_nat (length bytes) = ao_sealed_size o /\
     eq_ignore_ascii_case (sha256 bytes) (ao_sealed_sha256 o) = true) /\
  exists body, opened o body.
Record store_ok (s : FileStore) : Prop := {
  so_intact : forall id o, so_objects s !! id = Some o -> ao_object_id o = id /\ id < so_next_object s /\ intact (so_disk s) o;
  so_one_content : forall id id' o o', so_objects s !! id = Some o -> so_objects s !! id' = Some o' -> ao_plaintext_sha256 o = ao_plaintext_sha256 o' -> id = id';
  so_one_path : forall id id' o o', so_objects s !! id = Some o -> so_objects s !! id' = Some o' ->
    ao_storage_source_id o = ao_storage_source_id o' -> ao_file_path o = ao_file_path o' -> id = id';
  so_has_object : forall f r, so_files s !! f = Some r -> is_Some (so_objects s !! ur_object_id r);
  so_below : forall f, is_Some (so_files s !! f) -> f < so_next_file s;
  so_one_claim : forall f f' r r' k, so_files s !! f = Some r -> so_files s !! f' = Some r' -> ur_uploader_id r = ur_uploader_id r' ->
    ur_claim_key_hash r = Some k -> ur_claim_key_hash r' = Some k -> f = f'
}.
Lemma intact_kept d d' o : kept d d' -> intact d o -> intact d' o.
Proof. intros K (T & X & Y). split_and!; [done| |done]. intros He. destruct (K He) as [He' K']. destruct (X He') as (b & Hb & ?). exists b. split; [by apply K'|done]. Qed.
Lemma store_ok_disk s d : kept (so_disk s) d -> store_ok s -> store_ok (set_disk s d).
Proof.
  intros K []. split; cbn; try done. intros id o Ho. destruct (so_intact0 id o Ho) as (? & ? & ?). split_and!; [done..|by eapply intact_kept].
Qed.
(** The rows of an earlier store with a later disk. *)
Lemma rolled_back_ok s s' : store_ok s -> kept (so_disk s) (so_disk s') -> so_next_object s <= so_next_object s' ->
  so_next_file s <= so_next_file s' -> store_ok (rolled_back s s').
Proof.
  intros [] K N N'. split; cbn; try done.
  - intros id o Ho. destruct (so_intact0 id o Ho) as (? & ? & ?). split_and!; [done|lia|by eapply intact_kept].
  - intros f Hf. specialize (so_below0 f Hf). lia.
Qed.
Lemma rolled_back_le s s' : kept (so_disk s) (so_disk s') -> so_next_object s <= so_next_object s' -> so_next_file s <= so_next_file s' -> store_le s (rolled_back s s').
Proof. intros. split; cbn; try done. intros f r Hr. exists r. by split. Qed.
Lemma new_file_ok s f r : store_ok s -> so_files s !! f = None -> f < so_next_file s -> is_Some (so_objects s !! ur_object_id r) ->
  (forall k g x, ur_claim_key_hash r = Some k -> so_files s !! g = Some x -> ur_uploader_id x = ur_uploader_id r -> ur_claim_key_hash x <> Some k) ->
  store_ok (mkStore (so_disk s) (so_objects s) (<[f := r]> (so_files s)) (so_next_object s) (so_next_file s)).
Proof.
  intros [] Hf Hn Ho Hc. split; cbn; try done.
  - intros g x [[-> ->]|[? ?]]%lookup_insert_Some; eauto.
  - intros g [x [[-> ->]|[? ?]]%lookup_insert_Some]; eauto.
  - intros g g' x x' k [[-> ->]|[? ?]]%lookup_insert_Some [[-> ->]|[? ?]]%lookup_insert_Some; try done; intros Eu E E'; [exfalso; by eapply Hc..|eauto].
Qed.

(** Choosing the object of a content: another's, or a new row for the one's own. *)
Definition converged (i : UploadPlacement) (s s1 : FileStore) (out : result ResolvedPlacement ServerError) : Prop :=
  so_disk s1 = so_disk s /\ so_files s1 = so_files s /\ so_next_file s1 = so_next_file s /\ so_next_object s <= so_next_object s1 /\
  match out with
  | Err _ => so_objects s1 = so_objects s
  | Ok p =>
      if rp_duplicate p then so_objects s1 = so_objects s /\ is_Some (so_objects s !! rp_object_id p)
      else
        let id := so_next_object s in
        so_objects s1 = <[id := new_object id i]> (so_objects s) /\ rp_object_id p = id /\ id < so_next_object s1 /\
        (forall j o, so_objects s !! j = Some o -> ao_plaintext_sha256 o <> up_plaintext_sha256 i) /\
        (forall j o, so_objects s !! j = Some o -> ~ (ao_storage_source_id o = up_my_source_id i /\ ao_file_path o = up_my_path i))
  end.
Lemma register_spec viol f i s out s1 : store_ok s -> (forall j o, so_objects s !! j = Some o -> ao_plaintext_sha256 o <> up_plaintext_sha256 i) ->
  register_object viol f i s = (out, s1) -> converged i s s1 out.
Proof.
  intros Hok Hnew. unfold register_object, converged. destruct (f 6%nat); [by intros [= <- <-]|]. destruct (object_checks i); cbn [negb]; [|intros [= <- <-]; cbn; split_and!; try done; lia].
  pose proof (at_path_spec (up_my_source_id i) (up_my_path i) s) as X. destruct (at_path _ _ s) as [o|].
  - destruct (f 7%nat); intros [= <- <-]; cbn; split_and!; try done; try lia. destruct X as (id & Ho & _). destruct (so_intact s Hok id o Ho) as [-> _]. done.
  - intros [= <- <-]; cbn. split_and!; try done; lia.
Qed.
Lemma converge_spec viol timeout f i s out s1 : store_ok s -> converge_upload viol timeout f i s = (out, s1) -> converged i s s1 out.
Proof.
  intros Hok. unfold converge_upload. assert (Q : forall x, converged i s s (Err x)) by (intros x; by split_and!).
  destruct (f 1%nat); [by intros [= <- <-]|]. destruct (f 2%nat); [by intros [= <- <-]|]. destruct (f 3%nat); [by intros [= <- <-]|].
  destruct (find_object _ s) as [o|] eqn:F.
  - destruct (f 4%nat); [by intros [= <- <-]|]. destruct (f 5%nat); [by intros [= <- <-]|]. apply find_object_some in F as (id & Ho & _).
    destruct (so_intact s Hok id o Ho) as (-> & _). rewrite Ho. intros [= <- <-]. unfold converged; cbn. split_and!; try done.
    destruct (so_intact s Hok id o Ho) as (-> & _). done.
  - apply register_spec; [done|]. by apply find_object_none.
Qed.

(** Bringing the bytes to their place. *)
Definition staged (g : StagedObject) (body : list Z) (s : FileStore) : Prop :=
  temporary (sg_staging_path g) = true /\ temporary (sg_file_path g) = false /\ so_disk s !! (sg_source_id g, sg_staging_path g) = Some body /\
  Z.of_nat (length body) = sg_written g /\ sha256 body = sg_stored_sha256 g.
Lemma delete_staging_eq e src path s : temporary path = true -> exists d, delete_staging fs e src path s = set_disk s d /\ kept (so_disk s) d /\
  forall src' p, temporary p = false -> d !! (src', p) = so_disk s !! (src', p).
Proof.
  intros T. unfold delete_staging. destruct (fs_sources fs !! src), (en_publish e 9%nat); try (exists (so_disk s); by destruct s).
  exists (delete (src, path) (so_disk s)). split_and!; [done|by apply kept_delete|]. intros src' p Hp. rewrite disk_unlink_ne; [done|]. intros [= <- <-]; congruence.
Qed.
Lemma eq_case_refl s : eq_ignore_ascii_case s s = true.
Proof. unfold eq_ignore_ascii_case. by rewrite bool_decide_true. Qed.
Lemma place_bytes_spec e g dup body s out s2 : (forall id src, fs_sources fs !! id = Some src -> ss_id src = id) -> staged g body s ->
  place_bytes fs e g dup s = (out, s2) -> exists d, s2 = set_disk s d /\ kept (so_disk s) d /\
  match out with
  | Ok _ => dup = false -> exists bytes, d !! (sg_source_id g, sg_file_path g) = Some bytes /\ Z.of_nat (length bytes) = sg_written g /\
      eq_ignore_ascii_case (sha256 bytes) (sg_stored_sha256 g) = true
  | Err _ => True
  end.
Proof.
  intros Hsrc (Ts & Tf & Hb & Hl & Hd). unfold place_bytes. assert (Same : s = set_disk s (so_disk s)) by by destruct s.
  destruct dup.
  { intros [= <- <-]. destruct (delete_staging_eq e (sg_source_id g) (sg_staging_path g) s Ts) as (d & -> & K & _). by exists d. }
  unfold operator_for_source. destruct (fs_sources fs !! sg_source_id g) as [src|] eqn:Es; [|intros [= <- <-]; by exists (so_disk s)].
  apply Hsrc in Es. destruct (publish_object _ _ _ _ _ _) as [o d] eqn:P. apply publish_object_spec in P as [K P]; [|done..]. rewrite Es in P.
  destruct o as [[|]|x]; [| |intros [= <- <-]; by exists d].
  - intros [= <- <-]. exists d. split_and!; [done..|]. intros _. exists body. destruct P as [-> _]. rewrite Hd. auto using eq_case_refl.
  - subst d. unfold verify_object. destruct (so_disk s !! (sg_source_id g, sg_file_path g)) as [bytes|] eqn:Eb; [|intros [= <- <-]; by exists (so_disk s)].
    destruct (Z.eqb_spec (Z.of_nat (length bytes)) (sg_written g)); cbn [negb]; [|intros [= <- <-]; by exists (so_disk s)].
    destruct (en_verify e 0%nat); [intros [= <- <-]; by exists (so_disk s)|]. destruct (eq_ignore_ascii_case _ _) eqn:Ec; [|intros [= <- <-]; by exists (so_disk s)].
    intros [= <- <-]. destruct (delete_staging_eq e (sg_source_id g) (sg_staging_path g) (set_disk s (so_disk s)) Ts) as (d & -> & K' & Keep). exists d.
    split_and!; [done..|]. intros _. exists bytes. rewrite Keep by done. done.
Qed.

(** Recording the file: a row under its id, of its owner. *)
Definition recorded_as (g : StagedObject) (r : RecordFields) (m : FileMetadata) (s : FileStore) : Prop :=
  fm_file_id m = sg_file_id g /\ exists row, so_files s !! sg_file_id g = Some row /\ ur_uploader_id row = rf_uploader_id r.
Lemma insert_spec e g r p s m s' : store_ok s -> sg_file_id g < so_next_file s -> is_Some (so_objects s !! rp_object_id p) ->
  insert_or_read e g r p s = Ok (m, s') -> store_ok s' /\ store_le s s' /\ recorded_as g r m s'.
Proof.
  intros Hok Hid Ho. unfold insert_or_read, recorded_as. destruct (en_db e 20%nat); [done|]. destruct (so_files s !! sg_file_id g) as [row|] eqn:Hf.
  - unfold get_by_file_id_within, get_row. destruct (en_db e 21%nat); [done|]. rewrite Hf. cbn. destruct (so_objects s !! ur_object_id row) as [o|]; [|done]. cbn.
    destruct (ur_uploader_id row =? rf_uploader_id r) eqn:Eu; [|done]. case_match; [|done]. intros [= <- <-]. split_and!; [done..|]. exists row. split; [done|].
    by apply Z.eqb_eq.
  - intros [= <- <-]. split_and!; [by apply new_file_ok|by apply new_file_le|done|]. cbn. rewrite lookup_insert_eq. by eexists.
Qed.
Lemma with_object_ok g r body s s1 id d : let i := mkPlacement (rf_plaintext_sha256 r) (rf_plaintext_size r) (sg_stored_sha256 g) (sg_written g) (sg_file_path g) (sg_source_id g)
                 (rf_format_version r) (rf_encryption_key_id r) in
  store_ok s -> temporary (sg_file_path g) = false -> opened (new_object id i) body -> id = so_next_object s -> kept (so_disk s) d ->
  so_files s1 = so_files s -> so_next_file s1 = so_next_file s -> so_objects s1 = <[id := new_object id i]> (so_objects s) -> id < so_next_object s1 ->
  (forall j o, so_objects s !! j = Some o -> ao_plaintext_sha256 o <> up_plaintext_sha256 i) ->
  (forall j o, so_objects s !! j = Some o -> ~ (ao_storage_source_id o = up_my_source_id i /\ ao_file_path o = up_my_path i)) ->
  (exists bytes, d !! (sg_source_id g, sg_file_path g) = Some bytes /\ Z.of_nat (length bytes) = sg_written g /\ eq_ignore_ascii_case (sha256 bytes) (sg_stored_sha256 g) = true) ->
  store_ok (set_disk s1 d).
Proof.
  intros i [] Tf Hop Eid K Ef En Eo Lt Hc Hp Hb. split; cbn; rewrite ?Ef, ?En, ?Eo.
  - intros j o [[<- <-]|[? Hj]]%lookup_insert_Some; [split_and!; [done..|]; split_and!; eauto|].
    destruct (so_intact0 j o Hj) as (? & ? & ?). split_and!; [done|lia|by eapply intact_kept].
  - intros j j' o o' [[<- <-]|[? Hj]]%lookup_insert_Some [[<- <-]|[? Hj']]%lookup_insert_Some; try done; intros E; [exfalso; eapply Hc; eauto..|eauto].
  - intros j j' o o' [[<- <-]|[? Hj]]%lookup_insert_Some [[<- <-]|[? Hj']]%lookup_insert_Some; try done; intros E E'; [exfalso; eapply Hp; eauto..|eauto].
  - intros f x Hx. destruct (decide (id = ur_object_id x)) as [<-|]; [rewrite lookup_insert_eq|rewrite lookup_insert_ne by done]; eauto.
  - done.
  - eauto.
Qed.
Lemma object_le s s1 id o d : store_ok s -> id = so_next_object s -> so_objects s1 = <[id := o]> (so_objects s) -> so_files s1 = so_files s ->
  so_next_file s1 = so_next_file s -> so_next_object s <= so_next_object s1 -> kept (so_disk s) d -> store_le s (set_disk s1 d).
Proof.
  intros [] -> Eo Ef En L K. split; cbn; rewrite ?Ef, ?Eo; try done; try lia.
  - apply insert_subseteq. destruct (so_objects s !! so_next_object s) as [x|] eqn:X; [|done]. apply so_intact0 in X as (_ & ? & _). lia.
  - intros f r Hr. exists r. by split.
Qed.
Lemma same_objects_ok s s1 d : store_ok s -> so_files s1 = so_files s -> so_objects s1 = so_objects s -> so_next_object s <= so_next_object s1 ->
  so_next_file s1 = so_next_file s -> kept (so_disk s) d -> store_ok (set_disk s1 d) /\ store_le s (set_disk s1 d).
Proof.
  intros [] Ef Eo L En K. split; split; cbn; rewrite ?Ef, ?Eo, ?En; try done; try lia.
  - intros id o Ho. destruct (so_intact0 id o Ho) as (? & ? & ?). split_and!; [done|lia|by eapply intact_kept].
  - intros f r Hr. exists r. by split.
Qed.
Hypothesis Hsrc : forall id src, fs_sources fs !! id = Some src -> ss_id src = id.
(** Publishing and recording keeps the stores in order, whatever fails. *)
Lemma publish_and_record_ok e g r body s out s' : store_ok s -> sg_file_id g < so_next_file s -> staged g body s ->
  (forall id, opened (mkObject id (rf_plaintext_sha256 r) (rf_plaintext_size r) (sg_stored_sha256 g) (sg_written g) (sg_file_path g) (sg_source_id g)
     (rf_format_version r) (rf_encryption_key_id r)) body) ->
  publish_and_record fs e g r s = (out, s') ->
  store_ok s' /\ store_le s s' /\ match out with Ok m => recorded_as g r m s' | Err _ => True end.
Proof.
  intros Hok Hid Hst Hop. unfold publish_and_record. destruct (en_db e 0%nat); [by intros [= <- <-]|].
  destruct (converge_upload _ _ _ _ s) as [p s1] eqn:Cv. apply converge_spec in Cv as (Ed & Ef & En & Lo & Cv); [|done].
  assert (Back : forall x y, kept (so_disk s) (so_disk x) -> so_next_object s <= so_next_object x -> so_next_file s <= so_next_file x ->
            store_ok (rolled_back s x) /\ store_le s (rolled_back s x) /\ match Err y : result FileMetadata ServerError with Ok m => recorded_as g r m (rolled_back s x) | Err _ => True end).
  { intros x y K L1 L2. split_and!; [by apply rolled_back_ok|by apply rolled_back_le|done]. }
  destruct p as [p|x]; [|intros [= <- <-]; apply (Back s1 x); [by rewrite Ed|lia..]].
  assert (Hst1 : staged g body s1) by (destruct Hst as (? & ? & ? & ? & ?); split_and!; by rewrite ?Ed).
  destruct (place_bytes fs e g (rp_duplicate p) s1) as [o2 s2] eqn:Pb. apply (place_bytes_spec _ _ _ body) in Pb as (d & -> & K & Pb); [|done..]. rewrite Ed in K.
  destruct o2 as [[]|x]; [|intros [= <- <-]; apply (Back _ x); cbn; [done|lia..]].
  assert (H2 : store_ok (set_disk s1 d) /\ store_le s (set_disk s1 d) /\ is_Some (so_objects (set_disk s1 d) !! rp_object_id p)).
  { destruct (rp_duplicate p).
    - destruct Cv as [Eo Hp]. destruct (same_objects_ok s s1 d) as [X Y]; [done..|]. cbn. rewrite Eo. done.
    - destruct Cv as (Eo & -> & Lt & Hc & Hp). specialize (Pb eq_refl). destruct Hst as (_ & Tf & _). split_and!.
      + eapply (with_object_ok g r body s s1); eauto.
      + by eapply object_le.
      + cbn. rewrite Eo, lookup_insert_eq. done. }
  destruct H2 as (Ok2 & Le2 & Io). destruct (insert_or_read e g r p (set_disk s1 d)) as [[m s3]|x] eqn:Ins; [|intros [= <- <-]; apply (Back _ x); cbn; [done|lia..]].
  apply insert_spec in Ins as (Ok3 & Le3 & Rec); [|cbn; lia || done..]. assert (Le : store_le s s3) by by transitivity (set_disk s1 d).
  destruct (en_db e 22%nat) as [x|]; [|by intros [= <- <-]]. destruct (en_applied e); intros [= <- <-]; [done|].
  apply (Back s3 (Database x)); apply Le.
Qed.
(** What a committed file is: its id, and a row of its owner. *)
Definition owned_file (id uploader : Z) (m : FileMetadata) (s : FileStore) : Prop :=
  fm_file_id m = id /\ exists row, so_files s !! id = Some row /\ ur_uploader_id row = uploader.

(** ** Uploads as a stream *)
Definition upload_wf (u : StreamingUpload) : Prop :=
  temporary (su_staging_path u) = true /\ Z.of_nat (length (su_bytes u)) = su_written u /\ su_written u <= su_limit u < u64_max.
Lemma begin_wf f mime mx id t uid upl s out s1 : begin_streaming_upload fs f mime mx (Some id) t uid upl s = (out, s1) ->
  s1 = s /\ match out with Ok u => upload_wf u /\ su_file_id u = id | Err _ => True end.
Proof.
  unfold begin_streaming_upload. destruct (operator_for_source _ _) as [src|]; [|by intros [= <- <-]]. destruct (f 0%nat); intros [= <- <-]; [done|].
  split; [done|]. split; [|done]. unfold upload_wf; cbn. split_and!; [done..| |];
    generalize (match t with Some t0 => t0 | None => detect_file_type mime end); intros []; unfold max_size_bytes, MB, u64_max; lia.
Qed.
Lemma write_wf fault c u u' : upload_wf u -> write_chunk fault c u = Ok u' -> upload_wf u' /\ su_file_id u' = su_file_id u /\ su_staging_path u' = su_staging_path u.
Proof.
  intros (T & L & M). unfold write_chunk. destruct (_ <? _) eqn:E; [done|]. destruct fault; [done|]. intros [= <-]. apply Z.ltb_ge in E. unfold upload_wf; cbn.
  rewrite length_app. split_and!; [done|lia|lia|lia|done|done].
Qed.
Lemma verify_staged_ok e src path fi key s d : verify_staged_object e src path fi key s = Ok d ->
  exists body plain, so_disk s !! (src, path) = Some body /\ d = sha256 body /\ unseal key body = Some plain /\
    Z.of_nat (length plain) = fi_plaintext_size fi /\ eq_ignore_ascii_case (sha256 plain) (fi_plaintext_sha256 fi) = true.
Proof.
  unfold verify_staged_object. destruct (so_disk s !! (src, path)) as [body|]; [|done]. destruct (en_verify e 1%nat); [done|].
  intros (_ & -> & plain & ?)%verify_sound. by exists body, plain.
Qed.
(** Publication of a verified temporary object. *)
Lemma publish_verified_ok e r src path id t name written key s out s' stored body plain :
  store_ok s -> id < so_next_file s -> temporary path = true -> so_disk s !! (src, path) = Some body -> Z.of_nat (length body) = written ->
  stored = sha256 body -> keyring (rf_encryption_key_id r) = Some key -> unseal key body = Some plain ->
  Z.of_nat (length plain) = rf_plaintext_size r -> eq_ignore_ascii_case (sha256 plain) (rf_plaintext_sha256 r) = true ->
  publish_and_record fs e (mkStaged id (generate_file_path stored t name) path src t written stored) r s = (out, s') ->
  store_ok s' /\ store_le s s' /\ match out with Ok m => owned_file id (rf_uploader_id r) m s' | Err _ => True end.
Proof.
  intros Hok Hid T Hb Hl -> Hk Hu Hp Hd. intros P. eapply (publish_and_record_ok _ _ _ body) in P; [exact P|done|done|..].
  - split_and!; cbn; auto with privchat.
  - intros j. split_and!; cbn; [done..|]. by exists key, plain.
Qed.
Lemma delete_staging_ok e src path s : temporary path = true -> store_ok s -> store_ok (delete_staging fs e src path s) /\ store_le s (delete_staging fs e src path s).
Proof.
  intros T Hok. destruct (delete_staging_eq e src path s T) as (d & -> & K & _). split; [by apply store_ok_disk|by apply set_disk_le].
Qed.
Lemma commit_streaming_ok e u name mime uploader ip bt bid sha size fmt key_id chunk declared key s out s' :
  store_ok s -> su_file_id u < so_next_file s -> upload_wf u -> keyring key_id = Some key ->
  commit_streaming_upload fs e u name mime uploader ip bt bid sha size fmt key_id chunk declared key s = (out, s') ->
  store_ok s' /\ store_le s s' /\ match out with Ok m => owned_file (su_file_id u) uploader m s' | Err _ => True end.
Proof.
  intros Hok Hid (T & L & M) Hk. unfold commit_streaming_upload. destruct (en_publish e 10%nat); [by intros [= <- <-]|].
  set (s1 := set_disk s _). assert (K1 : kept (so_disk s) (<[(su_source_id u, su_staging_path u) := su_bytes u]> (so_disk s))) by (apply kept_insert; auto).
  assert (Ok1 : store_ok s1) by by apply store_ok_disk. assert (Le1 : store_le s s1) by by apply set_disk_le.
  assert (In1 : so_disk s1 !! (su_source_id u, su_staging_path u) = Some (su_bytes u)) by apply disk_write_eq.
  destruct (delete_staging_ok e (su_source_id u) (su_staging_path u) s1 T Ok1) as [Ok2 Le2].
  assert (Le2' : store_le s (delete_staging fs e (su_source_id u) (su_staging_path u) s1)) by by transitivity s1.
  assert (Fin : forall sealed stored, verify_staged_object e (su_source_id u) (su_staging_path u) (frozen (mkFields name mime uploader ip bt bid sha size fmt key_id chunk sealed)) key s1 = Ok stored ->
    publish_and_record fs e (mkStaged (su_file_id u) (generate_file_path stored (su_file_type u) name) (su_staging_path u) (su_source_id u) (su_file_type u) (su_written u) stored)
      (mkFields name mime uploader ip bt bid sha size fmt key_id chunk sealed) s1 = (out, s') ->
    store_ok s' /\ store_le s s' /\ match out with Ok m => owned_file (su_file_id u) uploader m s' | Err _ => True end).
  { intros sealed stored V P. apply verify_staged_ok in V as (body & plain & Hb & -> & Hu & Hp & Hd). rewrite In1 in Hb. injection Hb as <-.
    eapply publish_verified_ok in P as (Hok' & Le' & Hres); eauto. split_and!; [done|by transitivity s1|done]. }
  destruct declared as [d|]; [destruct (_ =? _); cbn [negb]; [|by intros [= <- <-]]; destruct (0 <=? d)|];
    try (destruct (sealed_len size chunk) as [sealed|]; [|by intros [= <- <-]]); destruct (verify_staged_object _ _ _ _ _ _) eqn:V; first [exact (Fin _ _ V)|(intros [= <- <-]; done)].
Qed.
Lemma commit_chunked_ok e upl mft id written r key s out s' body :
  store_ok s -> id < so_next_file s -> keyring (rf_encryption_key_id r) = Some key ->
  so_disk s !! (fs_default fs, assembled_path upl) = Some body -> Z.of_nat (length body) = written ->
  commit_chunked_upload fs e upl mft id written r key s = (out, s') ->
  store_ok s' /\ store_le s s' /\ match out with Ok m => owned_file id (rf_uploader_id r) m s' | Err _ => True end.
Proof.
  intros Hok Hid Hk Hb Hl. unfold commit_chunked_upload, operator_for_source. destruct (fs_sources fs !! fs_default fs) as [src|] eqn:Es; [|by intros [= <- <-]].
  apply Hsrc in Es. destruct (verify_staged_object _ _ _ _ _ _) as [stored|] eqn:V; [|by intros [= <- <-]].
  apply verify_staged_ok in V as (body' & plain & Hb' & -> & Hu & Hp & Hd). rewrite Es in Hb'. simplify_eq. intros P. rewrite Es in P.
  eapply publish_verified_ok in P; eauto with privchat.
Qed.

(** ** References and business fields *)
Lemma get_metadata_row f id s m : get_by_file_id f id s = Ok (Some m) ->
  exists r o, so_files s !! id = Some r /\ so_objects s !! ur_object_id r = Some o /\ m = metadata_of id r o.
Proof.
  unfold get_by_file_id, get_by_file_id_within, get_row. destruct (f 0%nat), (f 1%nat); try done. destruct (so_files s !! id) as [r|]; [|done]. cbn.
  destruct (so_objects s !! ur_object_id r) as [o|] eqn:E; [|done]. intros [= <-]. by exists r, o.
Qed.
Lemma drawn_ok s s' : store_ok s -> so_disk s' = so_disk s -> so_objects s' = so_objects s -> so_files s' = so_files s -> so_next_object s' = so_next_object s ->
  so_next_file s <= so_next_file s' -> store_ok s'.
Proof.
  intros [] Ed Eo Ef En L. split; rewrite ?Ed, ?Eo, ?Ef, ?En; try done. intros f Hf. specialize (so_below0 f Hf). lia.
Qed.
Definition claimed (id uploader : Z) (k : string) (s : FileStore) : Prop :=
  exists row, so_files s !! id = Some row /\ ur_uploader_id row = uploader /\ ur_claim_key_hash row = Some k.
Lemma create_reference_ok f timeout applied now obj uploader m k s out s' : store_ok s ->
  create_reference f timeout applied now obj uploader m (Some k) s = (out, s') ->
  store_ok s' /\ store_le s s' /\ match out with Ok id => claimed id uploader k s' | Err _ => True end.
Proof.
  intros Hok. unfold create_reference. destruct (next_file_id f 0 s) as [o s1] eqn:N. apply next_file_le in N as (Le1 & Ed & Eo & Ef & En & N).
  destruct o as [id|x]; [|subst s1; by intros [= <- <-]]. destruct N as [-> Hn].
  assert (Ok1 : store_ok s1) by (eapply drawn_ok; eauto; apply Le1). destruct (f 1%nat), (f 2%nat), (f 3%nat), (f 4%nat); try by intros [= <- <-].
  destruct (so_objects s1 !! obj) as [ob|] eqn:Ob; [|by intros [= <- <-]]. destruct (f 5%nat); [by intros [= <- <-]|]. cbn [mbind option_bind].
  pose proof (claim_row_spec uploader k s1) as Cr. destruct (claim_row uploader k s1) as [g|].
  { destruct (f 6%nat); [by intros [= <- <-]|]. destruct (f 7%nat); [destruct applied|]; by intros [= <- <-]. }
  assert (Hfresh : so_files s1 !! so_next_file s = None).
  { rewrite Ef. destruct (so_files s !! so_next_file s) eqn:X; [|done]. assert (so_next_file s < so_next_file s) by (apply (so_below s Hok); by rewrite X). lia. }
  match goal with |- context [<[so_next_file s := ?row]> _] => pose (r := row); fold r end.
  assert (Ok2 : store_ok (mkStore (so_disk s1) (so_objects s1) (<[so_next_file s := r]> (so_files s1)) (so_next_object s1) (so_next_file s1))).
  { apply new_file_ok; [done|done|lia|by exists ob|]. intros k' g x [= <-] Hx Hu Hk. by eapply Cr. }
  pose proof (new_file_le s1 (so_next_file s) r Hfresh) as Le2. assert (Le : store_le s (mkStore (so_disk s1) (so_objects s1) (<[so_next_file s := r]> (so_files s1)) (so_next_object s1) (so_next_file s1))) by by transitivity s1.
  destruct (f 6%nat); [by intros [= <- <-]|]. destruct (f 7%nat); [destruct applied; by intros [= <- <-]|]. intros [= <- <-]. split_and!; [done..|].
  exists r. cbn. by rewrite lookup_insert_eq.
Qed.
Lemma claim_new_ok `{J : UploadJwt} hx uok ft f0 f1 f2 timeout applied tf now ns nm user token sha ts s out s' : store_ok s ->
  claim_new hx uok ft f0 f1 f2 timeout applied tf now ns nm user token sha ts s = (out, s') ->
  store_ok s' /\ store_le s s' /\ match out with Ok m => claimed (fm_file_id m) user (claim_key_hash hx token) s' | Err _ => True end.
Proof.
  intros Hok. unfold claim_new. destruct (validate_any _ _ _ _ _ _ _ _) as [v|]; [|by intros [= <- <-]]. destruct (check_claim _ _ _); [|by intros [= <- <-]].
  destruct (find_object_by_plaintext_sha256 _ _ _) as [[ob|]|]; [|by intros [= <- <-]..].
  destruct (create_reference _ _ _ _ _ _ _ _ _) as [[id|] s1] eqn:Cf; apply create_reference_ok in Cf as (? & ? & ?); [|done|by intros [= <- <-]|done].
  destruct (get_by_file_id f2 id s1) as [[m|]|] eqn:G; intros [= <- <-]; [|done..]. by apply get_metadata_row in G as (r & ob' & _ & _ & ->).
Qed.
Lemma claim_existing_ok `{J : UploadJwt} hx uok ft f0 f1 f2 timeout applied tf now ns nm user token sha ts s out s' : store_ok s ->
  claim_existing_file hx uok ft f0 f1 f2 timeout applied tf now ns nm user token sha ts s = (out, s') ->
  store_ok s' /\ store_le s s' /\ match out with Ok m => claimed (fm_file_id m) user (claim_key_hash hx token) s' | Err _ => True end.
Proof.
  intros Hok. unfold claim_existing_file, find_claimed. destruct (f0 0%nat); [by intros [= <- <-]|].
  pose proof (claim_row_spec user (claim_key_hash hx token) s) as Cr. destruct (claim_row user _ s) as [g|]; [|by apply claim_new_ok].
  destruct (get_by_file_id _ g s) as [[m|]|] eqn:G; [|by apply claim_new_ok|by intros [= <- <-]].
  intros [= <- <-]. apply get_metadata_row in G as (r & ob & Hr & _ & ->). split_and!; [done..|]. destruct Cr as (r' & ? & ? & ?). simplify_eq. by exists r'.
Qed.
Lemma update_business_ok f id bt bid s out s' : store_ok s -> update_business f id bt bid s = (out, s') -> store_ok s' /\ store_le s s'.
Proof.
  intros Hok. unfold update_business. destruct (f 0%nat); [by intros [= <- <-]|]. destruct (so_files s !! id) as [r|] eqn:E; [|by intros [= <- <-]].
  intros [= <- <-]. destruct Hok. split; split; cbn; try done; try lia.
  - intros g x [[-> <-]|[? ?]]%lookup_insert_Some; cbn; eauto.
  - intros g [x [[-> <-]|[? ?]]%lookup_insert_Some]; eauto.
  - intros g g' x x' k [[-> <-]|[? ?]]%lookup_insert_Some [[-> <-]|[? ?]]%lookup_insert_Some; cbn; eauto.
  - intros g x Hx. destruct (decide (id = g)) as [->|]; [rewrite lookup_insert_eq|rewrite lookup_insert_ne by done]; [|by exists x].
    simplify_eq. eexists; split; [done|]. by split_and!.
Qed.
End Stored.
