(* ===== verification/WholeUpload.v ===== *)
(** * Uploading a file in one request

    Models src/src/service/upload_session.rs, the handler [upload_file] of
    src/src/http/routes/upload.rs with what it calls, and the callback of an upload
    (src/src/rpc/file/upload_callback.rs) for tokens that are not of resumable uploads.

    The handler is a machine over [Phase]: [advance] takes a request from one point where
    it waits to the next, and [upload_file] runs it to its end. Between two calls of
    [advance] other requests may run, or the process may die. A death inside a step is
    the step with the I/O after it failing: the session directory and the tables are as
    the last completed write left them. A session is a directory; its [state.json] is
    replaced by a rename, so it is the old one or the new one. The lock is the one the
    kernel keeps on a file of the directory. *)

From Stdlib Require Import Ascii.
From stdpp Require Import base numbers gmap list strings.
From S2P Require Import Prelude Chunked UploadToken FileStore.
Local Open Scope Z_scope.

(** ** The session *)
Inductive UploadMode := Unselected | Whole | Resumable.
#[export] Instance upload_mode_eq_dec : EqDecision UploadMode.
Proof. solve_decision. Defined.
Inductive UploadStatus := Idle | WholeReceiving | Uploading | Completing | Completed | UploadFailed.
#[export] Instance upload_status_eq_dec : EqDecision UploadStatus.
Proof. solve_decision. Defined.
Record UploadState := mkUploadState { us_mode : UploadMode; us_status : UploadStatus; us_file_id : option Z; us_reserved_file_id : option Z }.
Definition default_state : UploadState := mkUploadState Unselected Idle None None.
Notation session_key := (Z * string)%type.
(** The stores the handlers share. [None] for a session: its directory has no state yet. *)
Record Uploads := mkUploads { ul_store : FileStore; ul_sessions : gmap session_key (option UploadState); ul_locks : gset session_key }.
Definition set_store (w : Uploads) (s : FileStore) : Uploads := mkUploads s (ul_sessions w) (ul_locks w).
Definition set_session (w : Uploads) (k : session_key) (st : option UploadState) : Uploads := mkUploads (ul_store w) (<[k := st]> (ul_sessions w)) (ul_locks w).
Definition unlock (k : session_key) (w : Uploads) : Uploads := mkUploads (ul_store w) (ul_sessions w) (ul_locks w ∖ {[k]}).
(** The state on disk. *)
Definition state_of (k : session_key) (w : Uploads) : UploadState := default default_state (mjoin (ul_sessions w !! k)).

(** The I/O of one step: the faults of the session directory, of the queries, of the
    temporary object and of the publication. *)
Record StepEnv := mkStepEnv { se_io : nat -> option ServerError; se_db : faults; se_meta : faults; se_sink : faults; se_call : CallEnv }.

Definition guard_id (upload_id : string) : result unit ServerError :=
  if bool_decide (upload_id = EmptyString) || (64 <? String.length upload_id)%nat || negb (is_hex upload_id)
  then Err (Validation "upload_id 不是安全标识") else Ok tt.
Definition open (io : nat -> option ServerError) (k : session_key) (w : Uploads) : result unit ServerError * Uploads :=
  match guard_id k.2 with
  | Err x => (Err x, w)
  | Ok _ =>
      match io 0%nat with
      | Some x => (Err x, w)
      | None =>
          let w1 := match ul_sessions w !! k with Some _ => w | None => set_session w k None end in
          match io 1%nat with Some x => (Err x, w1) | None => (Ok tt, w1) end
      end
  end.
Definition open_existing (io : nat -> option ServerError) (k : session_key) (w : Uploads) : result bool ServerError :=
  let? _ := guard_id k.2 in
  match ul_sessions w !! k with
  | None => Ok false
  | Some _ => match io 0%nat, io 1%nat with Some x, _ | _, Some x => Err x | None, None => Ok true end
  end.
Definition read_state_at (fault : option ServerError) (k : session_key) (w : Uploads) : result UploadState ServerError :=
  match fault with Some x => Err x | None => Ok (state_of k w) end.
Definition write_state_at (fault : option ServerError) (k : session_key) (st : UploadState) (w : Uploads) : result unit ServerError * Uploads :=
  match fault with Some x => (Err x, w) | None => (Ok tt, set_session w k (Some st)) end.
(** Reading, changing and writing back; the faults are those of the two. *)
Definition modify (rf wf : option ServerError) (k : session_key) (f : UploadState -> UploadState) (w : Uploads) : result unit ServerError * Uploads :=
  match read_state_at rf k w with Err x => (Err x, w) | Ok st => write_state_at wf k (f st) w end.
Definition completed_as (file_id : Z) (st : UploadState) : UploadState := mkUploadState (us_mode st) Completed (Some file_id) (us_reserved_file_id st).
Definition mark_completed (rf wf : option ServerError) (k : session_key) (file_id : Z) : Uploads -> result unit ServerError * Uploads :=
  modify rf wf k (completed_as file_id).
Definition reserved_file_id (fault : option ServerError) (k : session_key) (w : Uploads) : result (option Z) ServerError :=
  let? st := read_state_at fault k w in Ok (us_reserved_file_id st).
Definition reserve_file_id (rf wf : option ServerError) (k : session_key) (file_id : Z) : Uploads -> result unit ServerError * Uploads :=
  modify rf wf k (fun st => mkUploadState (us_mode st) (us_status st) (us_file_id st) (Some file_id)).
Definition completed_file_id (fault : option ServerError) (k : session_key) (w : Uploads) : result (option Z) ServerError :=
  let? st := read_state_at fault k w in Ok (if decide (us_status st = Completed) then us_file_id st else None).
Definition debug_option (o : option Z) : string := match o with Some z => "Some(" +:+ u64_to_string z +:+ ")" | None => "None" end.
Definition try_lock_exclusive (fault : option ServerError) (k : session_key) (w : Uploads) : result bool ServerError * Uploads :=
  match fault with
  | Some x => (Err x, w)
  | None => if decide (k ∈ ul_locks w) then (Ok false, w) else (Ok true, mkUploads (ul_store w) (ul_sessions w) ({[k]} ∪ ul_locks w))
  end.
(** The lock is given back where no guard comes out. *)
Definition begin_whole (io : nat -> option ServerError) (k : session_key) (w : Uploads) : result unit ServerError * Uploads :=
  match try_lock_exclusive (io 0%nat) k w with
  | (Err x, w1) => (Err x, w1)
  | (Ok false, w1) => (Err (Validation "同一份上传正在进行中"), w1)
  | (Ok true, w1) =>
      match read_state_at (io 1%nat) k w1 with
      | Err x => (Err x, unlock k w1)
      | Ok st =>
          if decide (us_status st = Completed) then (Err (Validation ("该上传已完成（file_id=" +:+ debug_option (us_file_id st) +:+ "）")), unlock k w1)
          else if decide (us_mode st = Resumable) then (Err (Validation "该 token 已用于分片上传，不能再走整包"), unlock k w1)
          else
            match write_state_at (io 2%nat) k (mkUploadState Whole WholeReceiving (us_file_id st) (us_reserved_file_id st)) w1 with
            | (Err x, w2) => (Err x, unlock k w2)
            | (Ok _, w2) => (Ok tt, w2)
            end
      end
  end.
(** [ModeGuard]: completing it, and dropping it without that. *)
Definition guard_complete (rf wf : option ServerError) (k : session_key) (file_id : Z) : Uploads -> result unit ServerError * Uploads :=
  modify rf wf k (completed_as file_id).
Definition guard_drop (rf wf : option ServerError) (k : session_key) (w : Uploads) : Uploads :=
  match read_state_at rf k w with
  | Err _ => w
  | Ok st =>
      if decide (us_status st = WholeReceiving) then
        (write_state_at wf k (mkUploadState (us_mode st) Idle (us_file_id st) (us_reserved_file_id st)) w).2
      else w
  end.
(** The guard is dropped before the session with its lock. *)
Definition release (io : nat -> option ServerError) (k : session_key) (w : Uploads) : Uploads := unlock k (guard_drop (io 8%nat) (io 9%nat) k w).
Definition discard_session (fault : option string) (k : session_key) (w : Uploads) : result unit ServerError * Uploads :=
  match fault with
  | Some x => (Err (Internal x), unlock k w)
  | None => (Ok tt, mkUploads (ul_store w) (delete k (ul_sessions w)) (ul_locks w ∖ {[k]}))
  end.

(** ** The handler *)
Record UploadResponse := mkUploadResponse {
  ur_file_id : Z; ur_file_url : string; ur_file_size : Z; ur_storage_source_id : Z; ur_response_mime : string; ur_response_uploaded_at : Z
}.
(** A field of the form; a file comes in pieces and may break off. *)
Inductive Field :=
  | FileField (name content_type : option string) (chunks : list (list Z)) (broken : option string)
  | BusinessId (text : option string)
  | UnknownField.
Record UploadRequest := mkUploadRequest { rq_token : option string; rq_fields : list Field; rq_broken : option string; rq_ip : option string }.
(** What has been received of the form. *)
Record Receipt := mkReceipt { rc_upload : option StreamingUpload; rc_filename : option string; rc_mime : option string; rc_business_id : option string }.
Definition no_receipt : Receipt := mkReceipt None None None None.
(** Where a request waits; the key is the token's key id with its material. *)
Inductive Phase :=
  | Opening
  | Starting
  | Begun
  | Reserved (id : Z)
  | Receiving (id : Z) (key : Z * list Z) (r : Receipt) (rest : list Field)
  | Reading (id : Z) (key : Z * list Z) (r : Receipt) (u : StreamingUpload) (fname mime : string) (chunks : list (list Z)) (broken : option string) (rest : list Field)
  | Received (id : Z) (key : Z * list Z) (r : Receipt) (u : StreamingUpload)
  | Recorded (m : FileMetadata)
  | Done (res : result UploadResponse ServerError).
Definition key_of (v : ValidatedUploadToken) : session_key := (vt_user_id v, vt_upload_id v).

Section Handler.
Context `{C : AttachmentCrypto} (fs : FileService) (material_for : Z -> option (list Z)).
Definition upload_response_of (m : FileMetadata) : UploadResponse :=
  mkUploadResponse (fm_file_id m) (build_access_url (fs_sources fs) (fm_file_path m) (fm_storage_source_id m)) (display_size m) (fm_storage_source_id m)
    (fm_mime_type m) (fm_uploaded_at m).
Definition completed_response (f : faults) (v : ValidatedUploadToken) (file_id : Z) (s : FileStore) : result UploadResponse ServerError :=
  let? m := get_by_file_id f file_id s in
  match m with
  | None => Err (Internal ("会话记录指向的 file_id=" +:+ u64_to_string file_id +:+ " 读不到"))
  | Some m =>
      if negb (matches_file v m) then Err (Internal ("file_id=" +:+ u64_to_string file_id +:+ " 与本次上传的身份不符，拒绝返回"))
      else Ok (upload_response_of m)
  end.
Definition site_key_of (key_id : Z) : result (list Z) ServerError := ok_or (material_for key_id) (ServiceUnavailable "服务端暂时无法校验该附件，请稍后重试").
(** A file system shows the bytes as they are written, other backends when the writer is
    closed. *)
Definition spill (u : StreamingUpload) (s : FileStore) : FileStore :=
  match fs_sources fs !! su_source_id u with
  | Some src =>
      if decide (ss_storage_type src = "local"%string) then set_disk s (<[(su_source_id u, su_staging_path u) := su_bytes u]> (so_disk s)) else s
  | None => s
  end.
Definition abort_receipt (fault : option string) (r : Receipt) (s : FileStore) : FileStore :=
  match rc_upload r with Some u => abort_streaming fault u s | None => s end.
(** The end of a request that holds the session. *)
Definition end_request (io : nat -> option ServerError) (k : session_key) (res : result UploadResponse ServerError) (w : Uploads) : Phase * Uploads :=
  (Done res, release io k w).

(** The choice of the file's id. *)
Definition reserve_step (e : StepEnv) (v : ValidatedUploadToken) (w : Uploads) : Phase * Uploads :=
  let k := key_of v in
  match reserved_file_id (se_io e 0%nat) k w with
  | Err x => end_request (se_io e) k (Err x) w
  | Ok (Some id) =>
      match get_by_file_id (se_db e) id (ul_store w) with
      | Err x => end_request (se_io e) k (Err x) w
      | Ok None => (Reserved id, w)
      | Ok (Some m) =>
          if negb (matches_file v m)
          then end_request (se_io e) k (Err (Internal ("预留的 file_id=" +:+ u64_to_string id +:+ " 与本次上传身份不符，拒绝继续"))) w
          else
            let w1 := (mark_completed (se_io e 1%nat) (se_io e 2%nat) k id w).2 in
            end_request (se_io e) k (completed_response (se_meta e) v id (ul_store w1)) w1
      end
  | Ok None =>
      match next_file_id (se_db e) 0 (ul_store w) with
      | (Err x, s1) => end_request (se_io e) k (Err x) (set_store w s1)
      | (Ok id, s1) =>
          match reserve_file_id (se_io e 1%nat) (se_io e 2%nat) k id (set_store w s1) with
          | (Err x, w1) => end_request (se_io e) k (Err x) w1
          | (Ok _, w1) => (Reserved id, w1)
          end
      end
  end.
(** One field of the form. *)
Definition receive_step (e : StepEnv) (q : UploadRequest) (v : ValidatedUploadToken) (id : Z) (key : Z * list Z) (r : Receipt) (rest : list Field) (w : Uploads)
    : Phase * Uploads :=
  let fail x := end_request (se_io e) (key_of v) (Err x) (set_store w (abort_receipt (se_sink e 5%nat) r (ul_store w))) in
  match rest with
  | [] =>
      match rq_broken q, rc_upload r with
      | Some m, _ => fail (Validation ("解析 multipart 失败: " +:+ m))
      | None, None => end_request (se_io e) (key_of v) (Err (Validation "缺少文件数据")) w
      | None, Some u => (Received id key r u, w)
      end
  | UnknownField :: rest' => (Receiving id key r rest', w)
  | BusinessId t :: rest' =>
      let t := t ≫= fun s => let s := trim s in if decide (s = EmptyString) then None else Some s in
      (Receiving id key (mkReceipt (rc_upload r) (rc_filename r) (rc_mime r) (match t with Some s => Some s | None => rc_business_id r end)) rest', w)
  | FileField name ctype chunks broken :: rest' =>
      match rc_upload r with
      | Some _ => fail (Validation "重复的 file 字段")
      | None =>
          let fname := default "file.bin"%string name in
          let mime := match vt_mime_type v ≫= fun m => if trim_is_empty m then None else Some m with
                      | Some m => m
                      | None => default "application/octet-stream"%string ctype
                      end in
          match begin_streaming_upload fs (se_sink e) mime (vt_max_size v) (Some id) (Some (vt_file_type v)) (vt_user_id v) (vt_upload_id v) (ul_store w) with
          | (Err x, s1) => end_request (se_io e) (key_of v) (Err x) (set_store w s1)
          | (Ok u, s1) => (Reading id key r u fname mime chunks broken rest', set_store w (spill u s1))
          end
      end
  end.
(** One piece of the file. *)
Definition read_body_step (e : StepEnv) (v : ValidatedUploadToken) (id : Z) (key : Z * list Z) (r : Receipt) (u : StreamingUpload) (fname mime : string)
    (chunks : list (list Z)) (broken : option string) (rest : list Field) (w : Uploads) : Phase * Uploads :=
  let fail x := end_request (se_io e) (key_of v) (Err x) (set_store w (abort_streaming (se_sink e 5%nat) u (ul_store w))) in
  match chunks with
  | chunk :: chunks' =>
      match write_chunk (se_sink e 0%nat) chunk u with
      | Err x => fail x
      | Ok u' => (Reading id key r u' fname mime chunks' broken rest, set_store w (spill u' (ul_store w)))
      end
  | [] =>
      match broken with
      | Some m => fail (Validation ("读取文件数据失败: " +:+ m))
      | None => (Receiving id key (mkReceipt (Some u) (Some fname) (Some mime) (rc_business_id r)) rest, w)
      end
  end.
(** The identity is the one frozen in the token. *)
Definition commit_step (e : StepEnv) (q : UploadRequest) (v : ValidatedUploadToken) (key : Z * list Z) (r : Receipt) (u : StreamingUpload) (w : Uploads)
    : Phase * Uploads :=
  let frozen_fields :=
    let? sha := ok_or (vt_plaintext_sha256 v) (Validation "token 未冻结明文摘要") in
    let? size := ok_or (vt_plaintext_size v) (Validation "token 未冻结明文大小") in
    let? fmt := ok_or (vt_format_version v) (Validation "token 未冻结密文格式版本") in
    let? chunk := ok_or (vt_chunk_plain_size v) (Validation "token 未冻结分块几何") in
    Ok (sha, as_u64 size, fmt, chunk) in
  match frozen_fields with
  | Err x => end_request (se_io e) (key_of v) (Err x) w
  | Ok (sha, size, fmt, chunk) =>
      match commit_streaming_upload fs (se_call e) u (default "file.bin"%string (rc_filename r)) (default "application/octet-stream"%string (rc_mime r))
              (vt_user_id v) (rq_ip q) (vt_business_type v) (rc_business_id r) sha size fmt key.1 chunk (vt_sealed_blob_size v) key.2 (ul_store w) with
      | (Err x, s1) => end_request (se_io e) (key_of v) (Err x) (set_store w s1)
      | (Ok m, s1) => (Recorded m, set_store w s1)
      end
  end.
Definition advance (e : StepEnv) (q : UploadRequest) (v : ValidatedUploadToken) (ph : Phase) (w : Uploads) : Phase * Uploads :=
  let k := key_of v in
  match ph with
  | Opening =>
      match open (se_io e) k w with
      | (Err x, w1) => (Done (Err x), w1)
      | (Ok _, w1) =>
          match completed_file_id (se_io e 2%nat) k w1 with
          | Err x => (Done (Err x), w1)
          | Ok (Some id) => (Done (completed_response (se_db e) v id (ul_store w1)), w1)
          | Ok None => (Starting, w1)
          end
      end
  | Starting => match begin_whole (se_io e) k w with (Err x, w1) => (Done (Err x), w1) | (Ok _, w1) => (Begun, w1) end
  | Begun => reserve_step e v w
  | Reserved id =>
      match (let? key_id := ok_or (vt_encryption_key_id v) (Validation "token 未冻结加密密钥 id") in let? m := site_key_of key_id in Ok (key_id, m)) with
      | Err x => end_request (se_io e) k (Err x) w
      | Ok key => (Receiving id key no_receipt (rq_fields q), w)
      end
  | Receiving id key r rest => receive_step e q v id key r rest w
  | Reading id key r u fname mime chunks broken rest => read_body_step e v id key r u fname mime chunks broken rest w
  | Received id key r u => commit_step e q v key r u w
  | Recorded m =>
      let w1 := (guard_complete (se_io e 0%nat) (se_io e 1%nat) k (fm_file_id m) w).2 in
      end_request (se_io e) k (Ok (upload_response_of m)) w1
  | Done res => (Done res, w)
  end.
(** The checks before the session is opened. *)
Definition admit_upload `{J : UploadJwt} (sha256_hex : string -> string) (uuid_ok : string -> bool) (from_timestamp : Z -> option Z) (s3_direct : bool)
    (fault : option ServerError) (now now_secs : Z) (q : UploadRequest) (ts : UploadTokenService) : result ValidatedUploadToken ServerError :=
  match whole_file_allowed s3_direct with
  | Err _ => Err (Validation "不支持该上传模式：服务端已配置 S3 直传，客户端必须声明 s3_multipart_v1")
  | Ok _ =>
      let? token := ok_or (rq_token q) (Validation "缺少 X-Upload-Token header") in
      let? v := validate_any sha256_hex uuid_ok from_timestamp fault now now_secs token ts in
      if negb (bool_decide (vt_purpose v = PUpload)) then Err (Validation "该 token 用于秒传取用，不能用于实体上传")
      else let? _ := match fs_sources fs !! fs_default fs with Some _ => Ok tt | None => Err (Internal "找不到默认存储源") end in Ok v
  end.
(** A request on its own, step [i] in the environment [envs i]. *)
Fixpoint run_upload (envs : nat -> StepEnv) (q : UploadRequest) (v : ValidatedUploadToken) (fuel i : nat) (ph : Phase) (w : Uploads) : Phase * Uploads :=
  match fuel, ph with
  | _, Done _ | O, _ => (ph, w)
  | S fuel', _ => let '(ph', w') := advance (envs i) q v ph w in run_upload envs q v fuel' (S i) ph' w'
  end.
(** How many steps are left at most. *)
Definition field_steps (f : Field) : nat := match f with FileField _ _ chunks _ => length chunks + 2 | _ => 1 end.
Definition fields_steps (l : list Field) : nat := sum_list_with field_steps l.
Definition phase_steps (q : UploadRequest) (ph : Phase) : nat :=
  match ph with
  | Opening => 7 + fields_steps (rq_fields q)
  | Starting => 6 + fields_steps (rq_fields q)
  | Begun => 5 + fields_steps (rq_fields q)
  | Reserved _ => 4 + fields_steps (rq_fields q)
  | Receiving _ _ _ rest => 3 + fields_steps rest
  | Reading _ _ _ _ _ _ chunks _ rest => 4 + length chunks + fields_steps rest
  | Received _ _ _ _ => 2
  | Recorded _ => 1
  | Done _ => 0
  end.
Definition upload_file `{J : UploadJwt} (sha256_hex : string -> string) (uuid_ok : string -> bool) (from_timestamp : Z -> option Z) (s3_direct : bool)
    (fault : option ServerError) (now now_secs : Z) (envs : nat -> StepEnv) (q : UploadRequest) (ts : UploadTokenService) (w : Uploads) : Phase * Uploads :=
  match admit_upload sha256_hex uuid_ok from_timestamp s3_direct fault now now_secs q ts with
  | Err x => (Done (Err x), w)
  | Ok v => run_upload envs q v (phase_steps q Opening) 0 Opening w
  end.
End Handler.

(** ** The callback *)
Inductive CallbackError := Rejected (m : string) | SessionGone (m : string) | CallbackInternal (m : string).
Definition check_callback_target_id (tombstone : option Z) (reported : Z) : result unit string :=
  match tombstone with
  | Some expected => if expected =? reported then Ok tt else Err "file_id 与该次上传不符"%string
  | None => Err "该次上传尚未完成，无法回调"%string
  end.
Section Callback.
Context (sha256_hex : string -> string).
(** The id that this operation made. *)
Definition callback_target (e : StepEnv) (v : ValidatedUploadToken) (raw_token : string) (w : Uploads) : result Z CallbackError :=
  match vt_purpose v with
  | PClaimExisting =>
      match find_claimed (se_db e) (vt_user_id v) (claim_key_hash sha256_hex raw_token) (ul_store w) with
      | Err x => Err (CallbackInternal (server_error_display x))
      | Ok None => Err (Rejected "这次秒传没有产生记录")
      | Ok (Some id) => Ok id
      end
  | PUpload =>
      match open_existing (se_io e) (key_of v) w with
      | Err x => Err (CallbackInternal ("会话不可读: " +:+ server_error_display x))
      | Ok false => Err (SessionGone "该次上传的会话已不存在")
      | Ok true =>
          match completed_file_id (se_io e 2%nat) (key_of v) w with
          | Err _ => Err (SessionGone "会话状态已损坏")
          | Ok None => Err (Rejected "该次上传尚未完成，无法回调")
          | Ok (Some id) => Ok id
          end
      end
  end.
Definition authorise_callback (e : StepEnv) (v : ValidatedUploadToken) (raw_token : string) (reported : Z) (w : Uploads) : result FileMetadata CallbackError :=
  let? expected := callback_target e v raw_token w in
  match check_callback_target_id (Some expected) reported with
  | Err m => Err (Rejected m)
  | Ok _ =>
      match get_by_file_id (se_meta e) reported (ul_store w) with
      | Err x => Err (CallbackInternal ("读取文件记录失败: " +:+ server_error_display x))
      | Ok None => Err (Rejected "file_id 不存在")
      | Ok (Some m) => if matches_file v m then Ok m else Err (Rejected "file_id 与本次上传的身份不符")
      end
  end.
Definition callback_error (e : CallbackError) : RpcError :=
  match e with
  | Rejected m => rpc_validation m
  | SessionGone m => mkRpcError "ServiceUnavailable" m
  | CallbackInternal m => rpc_internal m
  end.
End Callback.
