(* ===== verification/UploadFacts.v ===== *)
(** * Facts about uploads

    Requests that upload a file run side by side with each other, with claims and with
    resumable uploads ([upload_step]); each goes on by [advance], may be dropped when its
    client goes away, and all are lost when the process dies. The invariant [world_ok]
    gives: a session is answered with one file, whatever fails ([upload_exactly_once]);
    an object's row stays, and so do its bytes while no temporary name is left linked to
    them ([stored_objects_stay]); a claim
    token makes one file ([claim_makes_one_file]). *)

From Stdlib Require Import Ascii.
From stdpp Require Import base numbers gmap list strings relations.
From S2P Require Import Prelude Chunked UploadToken FileStore WholeUpload FileFacts.
Local Open Scope Z_scope.

Lemma chunked_temporary p : String.prefix "tmp/uploads/chunked/" p = true -> temporary p = true.
Proof. unfold temporary. destruct p as [|? [|? [|? [|? p]]]]; cbn -[ascii_dec]; repeat destruct (ascii_dec _ _); try done. by destruct p. Qed.

Section Uploads.
Context `{C : AttachmentCrypto} (fs : FileService) (keyring : Z -> option (list Z)).
Hypothesis Hsrc : forall id src, fs_sources fs !! id = Some src -> ss_id src = id.

(** ** Sessions *)
Definition reserved (k : session_key) (u : Uploads) : option Z := us_reserved_file_id (state_of k u).
Record uploads_ok (u : Uploads) (chunk_ids : gset Z) : Prop := {
  uo_store : store_ok keyring (ul_store u);
  uo_drawn : forall k id, reserved k u = Some id -> id < so_next_file (ul_store u) /\ id ∉ chunk_ids;
  uo_own : forall k k' id, reserved k u = Some id -> reserved k' u = Some id -> k = k';
  uo_tombstone : forall k id, us_file_id (state_of k u) = Some id -> reserved k u = Some id;
  uo_chunk_ids : forall id, id ∈ chunk_ids -> id < so_next_file (ul_store u)
}.
Record uploads_le (u u' : Uploads) : Prop := {
  ul_store_le : store_le (ul_store u) (ul_store u');
  ul_reserved : forall k id, reserved k u = Some id -> reserved k u' = Some id
}.
#[local] Instance uploads_le_preorder : PreOrder uploads_le.
Proof.
  split; [intros u; by split|]. intros u1 u2 u3 [] []. split; [by transitivity (ul_store u2)|auto].
Qed.
(** What a step on the sessions and the stores keeps. *)
Definition sound (cs : gset Z) (u u' : Uploads) : Prop := uploads_ok u' cs /\ uploads_le u u'.
Lemma sound_trans cs u u1 u2 : sound cs u u1 -> sound cs u1 u2 -> sound cs u u2.
Proof. intros [? ?] [? ?]. split; [done|by transitivity u1]. Qed.
Lemma sound_refl cs u : uploads_ok u cs -> sound cs u u.
Proof. by split. Qed.
Lemma state_of_set k k' st u : state_of k' (set_session u k (Some st)) = if decide (k = k') then st else state_of k' u.
Proof. unfold state_of; cbn. case_decide as E; [subst; by rewrite lookup_insert_eq|by rewrite lookup_insert_ne]. Qed.
Lemma sound_locks cs u u1 l : sound cs u u1 -> sound cs u (mkUploads (ul_store u1) (ul_sessions u1) l).
Proof. intros [[] []]. by split; split. Qed.
Lemma sound_store cs u s : uploads_ok u cs -> store_ok keyring s -> store_le (ul_store u) s -> sound cs u (set_store u s).
Proof.
  intros [] Hs Hle. pose proof (le_next_file _ _ Hle). split; split; cbn; try done.
  - intros k id Hk. destruct (uo_drawn0 k id Hk). split; [lia|done].
  - intros id Hid. specialize (uo_chunk_ids0 id Hid). lia.
Qed.
Lemma sound_session cs u k st : uploads_ok u cs -> us_reserved_file_id st = reserved k u ->
  (forall id, us_file_id st = Some id -> reserved k u = Some id) -> sound cs u (set_session u k (Some st)).
Proof.
  intros [] Hr Hf. assert (R : forall k', reserved k' (set_session u k (Some st)) = reserved k' u).
  { intros k'. unfold reserved at 1. rewrite state_of_set. case_decide; [by subst|done]. }
  split; split; cbn; try done.
  - intros k' id. rewrite R. eauto.
  - intros k1 k2 id. rewrite !R. eauto.
  - intros k' id. rewrite R, state_of_set. case_decide; [subst; auto|auto].
  - intros k' id. by rewrite R.
Qed.
Lemma modify_sound cs rf wf k f u out u' : uploads_ok u cs -> us_reserved_file_id (f (state_of k u)) = reserved k u ->
  (forall id, us_file_id (f (state_of k u)) = Some id -> reserved k u = Some id) ->
  modify rf wf k f u = (out, u') -> sound cs u u' /\ ul_locks u' = ul_locks u.
Proof.
  intros Hok Hr Hf. unfold modify, read_state_at, write_state_at. destruct rf, wf; intros [= <- <-]; try (split; [by apply sound_refl|done]).
  split; [by apply sound_session|done].
Qed.
Lemma drop_sound cs rf wf k u : uploads_ok u cs -> sound cs u (guard_drop rf wf k u) /\ ul_locks (guard_drop rf wf k u) = ul_locks u.
Proof.
  intros Hok. unfold guard_drop, read_state_at, write_state_at. destruct rf; [split; [by apply sound_refl|done]|]. case_decide; [|split; [by apply sound_refl|done]].
  destruct wf; cbn; [split; [by apply sound_refl|done]|]. split; [|done]. apply sound_session; [done..|]. apply (uo_tombstone _ _ Hok).
Qed.
Lemma release_sound cs io k u : uploads_ok u cs -> sound cs u (release io k u) /\ ul_locks (release io k u) = ul_locks u ∖ {[k]}.
Proof.
  intros Hok. unfold release, unlock. destruct (drop_sound cs (io 8%nat) (io 9%nat) k u Hok) as [S L]. cbn. rewrite L. split; [|done]. by apply sound_locks.
Qed.
Lemma open_sound cs io k u out u' : uploads_ok u cs -> open io k u = (out, u') -> sound cs u u' /\ ul_locks u' = ul_locks u.
Proof.
  intros Hok. unfold open. destruct (guard_id _); [|intros [= <- <-]; split; [by apply sound_refl|done]].
  destruct (io 0%nat); [intros [= <- <-]; split; [by apply sound_refl|done]|].
  assert (S : sound cs u (match ul_sessions u !! k with Some _ => u | None => set_session u k None end) /\
              ul_locks (match ul_sessions u !! k with Some _ => u | None => set_session u k None end) = ul_locks u).
  { destruct (ul_sessions u !! k) as [x|] eqn:E; [split; [by apply sound_refl|done]|]. split; [|done].
    assert (St : forall k', state_of k' (set_session u k None) = state_of k' u).
    { intros k'. unfold state_of; cbn. destruct (decide (k = k')) as [<-|]; [by rewrite lookup_insert_eq, E|by rewrite lookup_insert_ne]. }
    destruct Hok. split; split; unfold reserved in *; cbn; try done; intros; rewrite ?St in *; eauto. }
  destruct (io 1%nat); intros [= <- <-]; exact S.
Qed.
Lemma begin_sound cs io k u out u' : uploads_ok u cs -> begin_whole io k u = (out, u') -> sound cs u u' /\
  match out with Ok _ => k ∉ ul_locks u /\ ul_locks u' = {[k]} ∪ ul_locks u | Err _ => ul_locks u' = ul_locks u end.
Proof.
  intros Hok. unfold begin_whole, try_lock_exclusive. destruct (io 0%nat); [intros [= <- <-]; split; [by apply sound_refl|done]|].
  destruct (decide _) as [|Hk]; [intros [= <- <-]; split; [by apply sound_refl|done]|].
  assert (S : forall l, sound cs u (mkUploads (ul_store u) (ul_sessions u) l)) by (intros; apply sound_locks; by apply sound_refl).
  assert (E : forall st x l, ((Err x : result unit ServerError), unlock k (mkUploads st (ul_sessions u) ({[k]} ∪ ul_locks u))) = (out, u') -> l = ul_store u -> st = l ->
            sound cs u u' /\ match out with Ok _ => k ∉ ul_locks u /\ ul_locks u' = {[k]} ∪ ul_locks u | Err _ => ul_locks u' = ul_locks u end).
  { intros st x l [= <- <-] -> ->. unfold unlock; cbn. split; [done|]. set_solver. }
  unfold read_state_at, write_state_at. destruct (io 1%nat); [intros X; by eapply E|]. case_decide; [intros X; by eapply E|]. case_decide; [intros X; by eapply E|].
  destruct (io 2%nat); [intros X; by eapply E|]. intros [= <- <-]. split; [|done].
  eapply sound_trans; [apply (S ({[k]} ∪ ul_locks u))|]. apply sound_session; [apply S|done|]. apply (uo_tombstone _ _ Hok).
Qed.

(** ** A request *)
Definition holds (ph : Phase) : bool := match ph with Opening | Starting | Done _ => false | _ => true end.
(** The session's file exists, and is its user's. *)
Definition answered (k : session_key) (id : Z) (u : Uploads) : Prop :=
  reserved k u = Some id /\ exists row, so_files (ul_store u) !! id = Some row /\ ur_uploader_id row = k.1.
Definition receiving_ok (k : session_key) (id : Z) (key : Z * list Z) (r : option StreamingUpload) (u : Uploads) : Prop :=
  reserved k u = Some id /\ keyring key.1 = Some key.2 /\ match r with Some x => upload_wf x /\ su_file_id x = id | None => True end.
Definition phase_ok (v : ValidatedUploadToken) (ph : Phase) (u : Uploads) : Prop :=
  let k := key_of v in
  match ph with
  | Opening | Starting | Begun | Done (Err _) => True
  | Reserved id => reserved k u = Some id
  | Receiving id key r _ => receiving_ok k id key (rc_upload r) u
  | Reading id key _ x _ _ _ _ _ | Received id key _ x => receiving_ok k id key (Some x) u
  | Recorded m => answered k (fm_file_id m) u
  | Done (Ok r) => answered k (ur_file_id r) u
  end.
Lemma answered_le k id u u' : uploads_le u u' -> answered k id u -> answered k id u'.
Proof.
  intros [Hs Hr] [R (row & Hrow & Hu)]. split; [by apply Hr|]. destruct (le_files _ _ Hs id row Hrow) as (row' & ? & _ & _ & E & _). exists row'. split; [done|congruence].
Qed.
Lemma phase_le v ph u u' : uploads_le u u' -> phase_ok v ph u -> phase_ok v ph u'.
Proof.
  intros L. pose proof (ul_reserved _ _ L) as R. unfold phase_ok, receiving_ok. destruct ph as [| | |id|id key r rest|id key r x fname mime chunks broken rest|id key r x|m|[r|x]]; try done; auto.
  1-3: intros (? & ? & ?); auto. all: by apply answered_le.
Qed.
Definition advanced (cs : gset Z) (v : ValidatedUploadToken) (ph ph' : Phase) (u u' : Uploads) : Prop :=
  sound cs u u' /\ phase_ok v ph' u' /\
  ul_locks u' = (if holds ph' then {[key_of v]} ∪ ul_locks u else if holds ph then ul_locks u ∖ {[key_of v]} else ul_locks u) /\
  (holds ph' = true -> holds ph = false -> key_of v ∉ ul_locks u).
(** A held request goes on, or ends. *)
Lemma goes_on cs v ph ph' u u' : holds ph = true -> holds ph' = true -> key_of v ∈ ul_locks u -> sound cs u u' -> ul_locks u' = ul_locks u -> phase_ok v ph' u' ->
  advanced cs v ph ph' u u'.
Proof. intros H H' Hk S L P. split_and!; [done..| |congruence]. rewrite H', L. set_solver. Qed.
Lemma ends cs v ph io res u u1 : holds ph = true -> sound cs u u1 -> ul_locks u1 = ul_locks u -> phase_ok v (Done res) u1 ->
  advanced cs v ph (end_request io (key_of v) res u1).1 u (end_request io (key_of v) res u1).2.
Proof.
  intros H S L P. destruct (release_sound cs io (key_of v) u1 (proj1 S)) as [S' L']. cbn. split_and!; [by eapply sound_trans|by eapply phase_le; [apply S'|]| |done].
  cbn. rewrite H. change (ul_locks (release io (key_of v) u1) = ul_locks u ∖ {[key_of v]}). by rewrite L', L.
Qed.
Lemma completed_response_ok cs f v id u r : uploads_ok u cs -> reserved (key_of v) u = Some id -> completed_response fs f v id (ul_store u) = Ok r -> answered (key_of v) (ur_file_id r) u.
Proof.
  intros Hok Hr. unfold completed_response. destruct (get_by_file_id f id (ul_store u)) as [[m|]|] eqn:G; [|done..]. cbn.
  destruct (matches_file v m) eqn:M; [|done]. intros [= <-]. apply get_metadata_row in G as (row & o & Hrow & _ & ->). split; [done|]. exists row. split; [done|].
  unfold matches_file in M. repeat (apply andb_true_iff in M as [M _]). by apply Z.eqb_eq in M.
Qed.
Lemma sound_reserve cs u k s1 st : uploads_ok u cs -> store_ok keyring s1 -> store_le (ul_store u) s1 -> so_next_file s1 = so_next_file (ul_store u) + 1 ->
  reserved k u = None -> us_reserved_file_id st = Some (so_next_file (ul_store u)) -> us_file_id st = us_file_id (state_of k u) ->
  sound cs u (set_session (set_store u s1) k (Some st)).
Proof.
  intros [] Hs Hle Hn Hr Er Ef. assert (R : forall k', reserved k' (set_session (set_store u s1) k (Some st)) = if decide (k = k') then Some (so_next_file (ul_store u)) else reserved k' u).
  { intros k'. unfold reserved at 1. rewrite state_of_set. by case_decide. }
  assert (F : us_file_id st = None). { rewrite Ef. destruct (us_file_id (state_of k u)) eqn:X; [|done]. apply uo_tombstone0 in X. congruence. }
  split; split; cbn; try done.
  - intros k' id. rewrite R, Hn. case_decide; [intros [= <-]; split; [lia|intros X%uo_chunk_ids0; lia]|]. intros X%uo_drawn0. split; [lia|apply X].
  - intros k1 k2 id. rewrite !R. repeat case_decide; try congruence; [intros [= <-] X%uo_drawn0|intros X%uo_drawn0 [= <-]|eauto]; lia.
  - intros k' id. rewrite R, state_of_set. case_decide; [congruence|apply uo_tombstone0].
  - intros id X%uo_chunk_ids0. lia.
  - intros k' id. rewrite R. case_decide; congruence.
Qed.
Lemma reserve_advanced cs e v u : uploads_ok u cs -> key_of v ∈ ul_locks u -> let p := reserve_step fs e v u in advanced cs v Begun p.1 u p.2.
Proof.
  intros Hok Hk p. subst p. unfold reserve_step, reserved_file_id, read_state_at. pose proof (sound_refl cs u Hok) as S0.
  destruct (se_io e 0%nat); [by apply ends|]. cbn. change (us_reserved_file_id (state_of (key_of v) u)) with (reserved (key_of v) u).
  destruct (reserved (key_of v) u) as [id|] eqn:R.
  - destruct (get_by_file_id (se_db e) id (ul_store u)) as [[m|]|]; [|by apply goes_on|by apply ends]. destruct (negb _); [by apply ends|].
    destruct (mark_completed _ _ _ id u) as [o u1] eqn:M. unfold mark_completed in M. apply (modify_sound cs) in M as [S L]; [|done|done|cbn; congruence].
    cbn [snd]. apply ends; [done..|]. destruct (completed_response _ _ _ _ _) eqn:CR; [|done]. eapply completed_response_ok; [apply S| |done]. by apply (ul_reserved _ _ (proj2 S)).
  - destruct (next_file_id _ 0 (ul_store u)) as [o s1] eqn:N. apply next_file_le in N as (Le & Ed & Eo & Ef & En & N).
    assert (Ok1 : store_ok keyring s1) by (eapply drawn_ok; [apply Hok|done..|apply Le]). assert (S1 : sound cs u (set_store u s1)) by by apply sound_store; [done..|].
    destruct o as [id|x]; [|by apply ends]. destruct N as [-> Hn]. unfold reserve_file_id, modify, read_state_at, write_state_at.
    destruct (se_io e 1%nat); [by apply ends|]. destruct (se_io e 2%nat); [by apply ends|].
    apply goes_on; try done; [|cbn; unfold reserved; by rewrite state_of_set, decide_True by done].
    by apply sound_reserve.
Qed.
(** Writes to temporary objects. *)
Lemma sound_disk cs u d : uploads_ok u cs -> kept (so_disk (ul_store u)) d -> sound cs u (set_store u (set_disk (ul_store u) d)).
Proof. intros Hok K. apply sound_store; [done|apply store_ok_disk; [done|apply Hok]|by apply set_disk_le]. Qed.
Lemma same_store_sound cs u : uploads_ok u cs -> sound cs u (set_store u (ul_store u)).
Proof. intros Hok. apply sound_store; [done|apply Hok|done]. Qed.
Lemma spill_sound cs x u : uploads_ok u cs -> upload_wf x -> sound cs u (set_store u (spill fs x (ul_store u))).
Proof.
  intros Hok (T & _). unfold spill. destruct (fs_sources fs !! _) as [src|]; [|by apply same_store_sound]. case_decide; [|by apply same_store_sound].
  apply sound_disk; [done|]. apply kept_insert. auto.
Qed.
Lemma abort_sound cs fault x u : uploads_ok u cs -> upload_wf x -> sound cs u (set_store u (abort_streaming fault x (ul_store u))).
Proof.
  intros Hok (T & _). unfold abort_streaming. destruct fault; [by apply same_store_sound|]. apply sound_disk; [done|by apply kept_delete].
Qed.
Lemma receive_advanced cs e q v id key r rest u : uploads_ok u cs -> key_of v ∈ ul_locks u -> receiving_ok (key_of v) id key (rc_upload r) u ->
  let p := receive_step fs e q v id key r rest u in advanced cs v (Receiving id key r rest) p.1 u p.2.
Proof.
  intros Hok Hk Hr p. subst p. pose proof (sound_refl cs u Hok) as S0. pose proof Hr as (Hid & Hkey & Hup). unfold receive_step, abort_receipt.
  assert (Fail : forall x, advanced cs v (Receiving id key r rest)
            (end_request (se_io e) (key_of v) (Err x) (set_store u (match rc_upload r with Some y => abort_streaming (se_sink e 5%nat) y (ul_store u) | None => ul_store u end))).1 u
            (end_request (se_io e) (key_of v) (Err x) (set_store u (match rc_upload r with Some y => abort_streaming (se_sink e 5%nat) y (ul_store u) | None => ul_store u end))).2).
  { intros x. apply ends; try done. destruct (rc_upload r) in Hup |- *; [apply abort_sound; [done|apply Hup]|by apply same_store_sound]. }
  destruct rest as [|[name ctype chunks broken|t|] rest].
  - destruct (rq_broken q); [apply Fail|]. destruct (rc_upload r) as [x|] eqn:E; [|by apply ends]. by apply goes_on.
  - destruct (rc_upload r) as [x|] eqn:E; [apply Fail|].
    destruct (begin_streaming_upload _ _ _ _ _ _ _ _ _) as [[x|x] s1] eqn:B; apply begin_wf in B as [-> B]; [|apply ends; try done; by apply same_store_sound].
    destruct B as [W I]. pose proof (spill_sound cs x u Hok W) as S. by apply goes_on.
  - by apply goes_on.
  - by apply goes_on.
Qed.
Lemma read_advanced cs e v id key r x fname mime chunks broken rest u : uploads_ok u cs -> key_of v ∈ ul_locks u -> receiving_ok (key_of v) id key (Some x) u ->
  let p := read_body_step fs e v id key r x fname mime chunks broken rest u in advanced cs v (Reading id key r x fname mime chunks broken rest) p.1 u p.2.
Proof.
  intros Hok Hk Hr p. subst p. pose proof (sound_refl cs u Hok) as S0. pose proof Hr as (Hid & Hkey & W & I). unfold read_body_step.
  destruct chunks as [|c chunks].
  - destruct broken; [apply ends; try done; by apply abort_sound|]. by apply goes_on.
  - destruct (write_chunk _ c x) as [x'|] eqn:E; [|apply ends; try done; by apply abort_sound]. apply write_wf in E as (W' & I' & _); [|done].
    pose proof (spill_sound cs x' u Hok W') as S. apply goes_on; try done. split_and!; try done. congruence.
Qed.
Lemma commit_advanced cs e q v id key r x u : uploads_ok u cs -> key_of v ∈ ul_locks u -> receiving_ok (key_of v) id key (Some x) u ->
  let p := commit_step fs e q v key r x u in advanced cs v (Received id key r x) p.1 u p.2.
Proof.
  intros Hok Hk (Hid & Hkey & W & I) p. subst p. pose proof (sound_refl cs u Hok) as S0. unfold commit_step.
  match goal with |- context [match ?ff with Ok _ => _ | Err _ => _ end] => destruct ff as [[[[sha size] fmt] chunk]|] end; [|by apply ends].
  destruct (commit_streaming_upload _ _ _ _ _ _ _ _ _ _ _ _ _ _ _ _ _) as [o s1] eqn:E.
  apply (commit_streaming_ok fs keyring Hsrc) in E as (Hs & Hle & Ho); [|apply Hok|rewrite I; by apply (uo_drawn _ _ Hok (key_of v))|done|done].
  pose proof (sound_store cs u s1 Hok Hs Hle) as S. destruct o as [m|y]; [|by apply ends]. apply goes_on; try done. destruct Ho as [Em Ho]. split.
  - rewrite Em, I. by apply (ul_reserved _ _ (proj2 S)).
  - by rewrite Em.
Qed.
Lemma advance_ok cs e q v ph u ph' u' : uploads_ok u cs -> phase_ok v ph u -> (holds ph = true -> key_of v ∈ ul_locks u) ->
  advance fs keyring e q v ph u = (ph', u') -> advanced cs v ph ph' u u'.
Proof.
  intros Hok Hph Hl E. pose proof (sound_refl cs u Hok) as S0. assert (P : advanced cs v ph (advance fs keyring e q v ph u).1 u (advance fs keyring e q v ph u).2); [|by rewrite E in P].
  clear E. unfold advance. destruct ph as [| | |id|id key r rest|id key r x fname mime chunks broken rest|id key r x|m|res].
  - destruct (open _ _ u) as [o u1] eqn:O. apply (open_sound cs) in O as [S L]; [|done]. destruct o; [|by split_and!]. unfold completed_file_id, read_state_at.
    destruct (se_io e 2%nat); [by split_and!|]. cbn. destruct (decide _); [|by split_and!].
    destruct (us_file_id (state_of (key_of v) u1)) as [id|] eqn:F; [|by split_and!]. split_and!; try done. destruct (completed_response _ _ _ _ _) eqn:CR; [|done].
    eapply completed_response_ok; [apply S| |done]. by apply (uo_tombstone _ _ (proj1 S)).
  - destruct (begin_whole _ _ u) as [o u1] eqn:B. apply (begin_sound cs) in B as [S B]; [|done]. destruct o; [|by split_and!]. destruct B as [N L]. by split_and!.
  - apply reserve_advanced; auto.
  - destruct (vt_encryption_key_id v) as [kid|]; cbn; [|by apply ends; auto]. unfold site_key_of. destruct (keyring kid) eqn:K; cbn; [|by apply ends; auto].
    apply goes_on; auto. by split_and!.
  - apply receive_advanced; auto.
  - apply read_advanced; auto.
  - by eapply commit_advanced; auto.
  - destruct Hph as [R Hrow]. destruct (guard_complete _ _ _ _ u) as [o u1] eqn:M. unfold guard_complete in M. apply (modify_sound cs) in M as [S L]; [|done|done|cbn; congruence].
    cbn [snd]. apply ends; auto. eapply (answered_le (key_of v) (fm_file_id m)); [apply S|by split].
  - by split_and!.
Qed.

(** ** Runs *)
Context `{J : UploadJwt} (sha256_hex : string -> string) (uuid_ok : string -> bool) (from_timestamp : Z -> option Z).
Record Attempt := mkAttempt { at_request : UploadRequest; at_token : ValidatedUploadToken; at_phase : Phase }.
(** The replies are the sessions and users that were told of a file, with its id. *)
Record UploadWorld := mkWorld {
  uw_uploads : Uploads; uw_attempts : gmap nat Attempt; uw_chunk_ids : gset Z; uw_replies : list (session_key * Z); uw_claims : list (Z * string * Z)
}.
Definition world_init : UploadWorld := mkWorld (mkUploads (mkStore ∅ ∅ ∅ 1 1) ∅ ∅) ∅ ∅ [] [].
Definition set_uploads (w : UploadWorld) (u : Uploads) : UploadWorld := mkWorld u (uw_attempts w) (uw_chunk_ids w) (uw_replies w) (uw_claims w).
Definition set_files (w : UploadWorld) (s : FileStore) : UploadWorld := set_uploads w (set_store (uw_uploads w) s).
Definition after_advance (i : nat) (a : Attempt) (ph' : Phase) (u' : Uploads) (w : UploadWorld) : UploadWorld :=
  let a' := mkAttempt (at_request a) (at_token a) ph' in
  mkWorld u' (match ph' with Done _ => delete i (uw_attempts w) | _ => <[i := a']> (uw_attempts w) end) (uw_chunk_ids w)
    (match ph' with Done (Ok r) => (key_of (at_token a), ur_file_id r) :: uw_replies w | _ => uw_replies w end) (uw_claims w).
(** The temporary objects of resumable uploads are rewritten and removed. *)
Definition rewritten (k : Z * string) (b : option (list Z)) (d : disk) : disk := match b with Some bytes => <[k := bytes]> d | None => delete k d end.
Lemma rewritten_kept src p b d : temporary p = true -> kept d (rewritten (src, p) b d).
Proof. intros T. destruct b; [apply kept_insert; auto|by apply kept_delete]. Qed.
Inductive upload_step : UploadWorld -> UploadWorld -> Prop :=
  (** A request with a token that is accepted. *)
  | us_arrive i q v s3 fault now ns ts w :
      uw_attempts w !! i = None -> admit_upload fs sha256_hex uuid_ok from_timestamp s3 fault now ns q ts = Ok v ->
      upload_step w (mkWorld (uw_uploads w) (<[i := mkAttempt q v Opening]> (uw_attempts w)) (uw_chunk_ids w) (uw_replies w) (uw_claims w))
  | us_advance i a e ph' u' w :
      uw_attempts w !! i = Some a -> advance fs keyring e (at_request a) (at_token a) (at_phase a) (uw_uploads w) = (ph', u') ->
      upload_step w (after_advance i a ph' u' w)
  (** The client has gone: the handler is dropped where it waits. A write that was handed
      to the blocking pool ends with its step: that it may end later is left out. *)
  | us_gone i a io w :
      uw_attempts w !! i = Some a ->
      upload_step w (mkWorld (if holds (at_phase a) then release io (key_of (at_token a)) (uw_uploads w) else uw_uploads w) (delete i (uw_attempts w))
                       (uw_chunk_ids w) (uw_replies w) (uw_claims w))
  (** The process dies: the kernel gives the locks back. *)
  | us_crash w :
      upload_step w (mkWorld (mkUploads (ul_store (uw_uploads w)) (ul_sessions (uw_uploads w)) ∅) ∅ (uw_chunk_ids w) (uw_replies w) (uw_claims w))
  | us_claim f0 f1 f2 timeout applied tf now ns nm user token sha ts out s' w :
      claim_existing_file sha256_hex uuid_ok from_timestamp f0 f1 f2 timeout applied tf now ns nm user token sha ts (ul_store (uw_uploads w)) = (out, s') ->
      upload_step w (mkWorld (set_store (uw_uploads w) s') (uw_attempts w) (uw_chunk_ids w) (uw_replies w)
                       (match out with Ok m => (user, token, fm_file_id m) :: uw_claims w | Err _ => uw_claims w end))
  (** A resumable upload: its file id, its temporary objects, and its completion. *)
  | us_chunk_id f id s' w :
      next_file_id f 0 (ul_store (uw_uploads w)) = (Ok id, s') ->
      upload_step w (mkWorld (set_store (uw_uploads w) s') (uw_attempts w) ({[id]} ∪ uw_chunk_ids w) (uw_replies w) (uw_claims w))
  | us_chunk_file src p b w :
      String.prefix "tmp/uploads/chunked/" p = true ->
      upload_step w (set_files w (set_disk (ul_store (uw_uploads w)) (rewritten (src, p) b (so_disk (ul_store (uw_uploads w))))))
  | us_chunk_complete e upload_id mft id r key body out s' w :
      id ∈ uw_chunk_ids w -> keyring (rf_encryption_key_id r) = Some key ->
      so_disk (ul_store (uw_uploads w)) !! (fs_default fs, assembled_path upload_id) = Some body ->
      commit_chunked_upload fs e upload_id mft id (Z.of_nat (length body)) r key (ul_store (uw_uploads w)) = (out, s') -> upload_step w (set_files w s')
  | us_business f id bt bid out s' w :
      update_business f id bt bid (ul_store (uw_uploads w)) = (out, s') -> upload_step w (set_files w s').
Definition reachable (w : UploadWorld) : Prop := rtc upload_step world_init w.

Record world_ok (w : UploadWorld) : Prop := {
  wo_uploads : uploads_ok (uw_uploads w) (uw_chunk_ids w);
  wo_phase : forall i a, uw_attempts w !! i = Some a ->
    phase_ok (at_token a) (at_phase a) (uw_uploads w) /\ (holds (at_phase a) = true -> key_of (at_token a) ∈ ul_locks (uw_uploads w));
  wo_alone : forall i j a b, uw_attempts w !! i = Some a -> uw_attempts w !! j = Some b -> holds (at_phase a) = true -> holds (at_phase b) = true ->
    key_of (at_token a) = key_of (at_token b) -> i = j;
  wo_replies : forall k id, (k, id) ∈ uw_replies w -> answered k id (uw_uploads w);
  wo_claims : forall user token id, (user, token, id) ∈ uw_claims w -> claimed id user (claim_key_hash sha256_hex token) (ul_store (uw_uploads w))
}.
Lemma claimed_le id user k s s' : store_le s s' -> claimed id user k s -> claimed id user k s'.
Proof.
  intros L (r & Hr & Hu & Hk). destruct (le_files _ _ L id r Hr) as (r' & ? & _ & _ & ? & ?). exists r'. split_and!; congruence.
Qed.
(** A step that changes no attempt and no lock. *)
Lemma quiet_ok w u' cs' claims' : world_ok w -> uploads_ok u' cs' -> uploads_le (uw_uploads w) u' -> ul_locks u' = ul_locks (uw_uploads w) ->
  (forall user token id, (user, token, id) ∈ claims' -> claimed id user (claim_key_hash sha256_hex token) (ul_store u')) ->
  world_ok (mkWorld u' (uw_attempts w) cs' (uw_replies w) claims').
Proof.
  intros [] Hok L Hl Hc. split; cbn; try done.
  - intros i a Ha. destruct (wo_phase0 i a Ha). rewrite Hl. split; [by eapply phase_le|done].
  - intros k id Hk. eapply answered_le; eauto.
Qed.
Lemma store_step_ok w s' claims' : world_ok w -> store_ok keyring s' -> store_le (ul_store (uw_uploads w)) s' ->
  (forall user token id, (user, token, id) ∈ claims' -> claimed id user (claim_key_hash sha256_hex token) s') ->
  world_ok (mkWorld (set_store (uw_uploads w) s') (uw_attempts w) (uw_chunk_ids w) (uw_replies w) claims').
Proof.
  intros Hw Hs Hle Hc. destruct (sound_store (uw_chunk_ids w) (uw_uploads w) s' (wo_uploads _ Hw) Hs Hle). by apply quiet_ok.
Qed.
Lemma claims_stay w s' : world_ok w -> store_le (ul_store (uw_uploads w)) s' ->
  forall user token id, (user, token, id) ∈ uw_claims w -> claimed id user (claim_key_hash sha256_hex token) s'.
Proof. intros Hw L user token id H. eapply claimed_le; [done|]. by eapply wo_claims. Qed.
(** A request ends, or all do. *)
Lemma ended_ok w u' atts : world_ok w -> sound (uw_chunk_ids w) (uw_uploads w) u' -> atts ⊆ uw_attempts w ->
  (forall i a, atts !! i = Some a -> holds (at_phase a) = true -> key_of (at_token a) ∈ ul_locks u') ->
  world_ok (mkWorld u' atts (uw_chunk_ids w) (uw_replies w) (uw_claims w)).
Proof.
  intros Hw [Hok L] Sub Hl. destruct Hw. split; cbn; try done.
  - intros i a Ha. split; [|by apply (Hl i a)]. eapply phase_le; [done|]. apply (wo_phase0 i a). by eapply lookup_weaken.
  - intros i j a b Ha Hb. apply wo_alone0; by eapply lookup_weaken.
  - intros k id Hk. eapply answered_le; eauto.
  - intros user token id H. eapply claimed_le; [apply L|eauto].
Qed.
Lemma advance_world_ok w i a e ph' u' : world_ok w -> uw_attempts w !! i = Some a ->
  advance fs keyring e (at_request a) (at_token a) (at_phase a) (uw_uploads w) = (ph', u') -> world_ok (after_advance i a ph' u' w).
Proof.
  intros Hw Ha E. destruct (wo_phase _ Hw i a Ha) as [Hph Hl]. destruct (advance_ok _ _ _ _ _ _ _ _ (wo_uploads _ Hw) Hph Hl E) as ([Hok L] & Hph' & Lk & New).
  assert (Others : forall j b, j <> i -> uw_attempts w !! j = Some b -> holds (at_phase b) = true ->
            key_of (at_token b) ∈ ul_locks u' /\ (holds ph' = true -> key_of (at_token b) <> key_of (at_token a))).
  { intros j b Hj Hb Hh. destruct (wo_phase _ Hw j b Hb) as [_ Kb]. specialize (Kb Hh). rewrite Lk. split.
    - destruct (holds ph'); [set_solver|]. destruct (holds (at_phase a)) eqn:Ea; [|done]. apply elem_of_difference. split; [done|]. intros X%elem_of_singleton.
      apply Hj. by eapply wo_alone.
    - intros H' Ek. destruct (holds (at_phase a)) eqn:Ea; [apply Hj; by eapply wo_alone|]. rewrite Ek in Kb. by apply New. }
  assert (At : forall j b, (match ph' with Done _ => delete i (uw_attempts w) | _ => <[i := mkAttempt (at_request a) (at_token a) ph']> (uw_attempts w) end) !! j = Some b ->
            (j = i /\ b = mkAttempt (at_request a) (at_token a) ph') \/ (j <> i /\ uw_attempts w !! j = Some b)).
  { intros j b H. destruct (decide (j = i)) as [->|Hj]; [|right; split; [done|]; by destruct ph'; rewrite ?lookup_insert_ne, ?lookup_delete_ne in H by done].
    left. split; [done|]. destruct ph'; rewrite ?lookup_insert_eq, ?lookup_delete_eq in H; congruence. }
  split; cbn; try done.
  - intros j b [[-> ->]|[Hj Hb]]%At; [split; [done|]; cbn; intros H'; rewrite Lk, H'; set_solver|].
    split; [eapply phase_le; [done|by apply (wo_phase _ Hw j b)]|intros Hh; by apply (Others j b)].
  - intros j j' b b' [[-> ->]|[Hj Hb]]%At [[-> ->]|[Hj' Hb']]%At; cbn; intros H1 H2 Ek; [done| | |by eapply wo_alone].
    + exfalso. destruct (Others j' b' Hj' Hb' H2) as [_ X]. by apply X.
    + exfalso. destruct (Others j b Hj Hb H1) as [_ X]. by apply X.
  - intros k id Hk. assert (Old : (k, id) ∈ uw_replies w -> answered k id u') by (intros X; eapply answered_le; [done|by eapply wo_replies]).
    destruct ph' as [| | | | | | | |[r|]]; auto. apply elem_of_cons in Hk as [[= -> ->]|Hk]; auto.
  - intros user token id H. eapply claimed_le; [apply L|by eapply wo_claims].
Qed.
Lemma upload_step_ok w w' : world_ok w -> upload_step w w' -> world_ok w'.
Proof.
  intros Hw H. revert Hw. destruct H as [i q v s3 fault now ns ts w0 Hi _|i a e ph' u' w0 Ha E|i a io w0 Ha|w0|f0 f1 f2 timeout applied tf now ns nm user token sha ts out s' w0 E
            |f id s' w0 E|src p b w0 Hp|e upl mft id r key body out s' w0 Hid Hk Hb E|f id bt bid out s' w0 E]; intros Hw.
  - destruct Hw. split; cbn; try done.
    + intros j b [[<- <-]|[? ?]]%lookup_insert_Some; [done|by apply (wo_phase0 j)].
    + intros j j' b b' [[<- <-]|[? ?]]%lookup_insert_Some [[<- <-]|[? ?]]%lookup_insert_Some; try done; eauto.
  - by eapply advance_world_ok.
  - assert (Sub : delete i (uw_attempts w0) ⊆ uw_attempts w0) by apply delete_subseteq. pose proof (wo_uploads _ Hw) as Hu. destruct (holds (at_phase a)) eqn:Eh.
    + destruct (release_sound _ io (key_of (at_token a)) _ Hu) as [S L]. apply ended_ok; [done..|]. intros j b [Hj Hb]%lookup_delete_Some Hh. rewrite L.
      destruct (wo_phase _ Hw j b Hb) as [_ X]. specialize (X Hh). apply elem_of_difference. split; [done|]. intros Y%elem_of_singleton. apply Hj. by eapply wo_alone.
    + apply ended_ok; [done|by apply sound_refl|done|]. intros j b [Hj Hb]%lookup_delete_Some. by apply (wo_phase _ Hw j b).
  - apply ended_ok; [done| |apply map_empty_subseteq|done]. apply sound_locks. apply sound_refl, Hw.
  - apply claim_existing_ok with (keyring := keyring) in E as (Hs & Hle & Ho); [|apply Hw]. apply store_step_ok; [done..|]. intros user' token' id'.
    destruct out as [m|]; [|by apply claims_stay]. intros [[= -> -> ->]|H]%elem_of_cons; [done|by eapply claims_stay].
  - pose proof E as E0. apply next_file_le in E as (Le & Ed & Eo & Ef & En & -> & Hn). assert (Hs : store_ok keyring s') by (eapply drawn_ok; [apply Hw|done..|lia]).
    destruct (sound_store _ _ s' (wo_uploads _ Hw) Hs Le) as [[] L]. apply quiet_ok; [done| |done|done|by apply claims_stay]. split; try done.
    + intros k id Hk. destruct (uo_drawn0 k id Hk) as [? N]. split; [done|]. apply not_elem_of_union. split; [|done]. intros ->%elem_of_singleton.
      destruct (uo_drawn _ _ (wo_uploads _ Hw) k (so_next_file (ul_store (uw_uploads w0))) Hk). lia.
    + intros id [->%elem_of_singleton|X]%elem_of_union; [cbn; lia|auto].
  - pose proof (rewritten_kept src p b (so_disk (ul_store (uw_uploads w0))) (chunked_temporary _ Hp)) as K.
    apply store_step_ok; [done|apply store_ok_disk; [done|apply Hw]|by apply set_disk_le|apply claims_stay; [done|by apply set_disk_le]].
  - eapply (commit_chunked_ok fs keyring Hsrc) in E as (Hs & Hle & _); eauto; [|apply Hw|by apply (uo_chunk_ids _ _ (wo_uploads _ Hw))].
    apply store_step_ok; [done..|by apply claims_stay].
  - apply update_business_ok with (keyring := keyring) in E as (Hs & Hle); [|apply Hw]. apply store_step_ok; [done..|by apply claims_stay].
Qed.
Lemma upload_reachable_ok w : reachable w -> world_ok w.
Proof.
  unfold reachable. intros H. assert (Hi : world_ok world_init). { split; cbn; try done; try set_solver. split; try done; try set_solver. split; try done; by intros ? [? ?]. }
  revert Hi. induction H as [|w0 w1 w2 St _ IH]; [done|]. intros Hw. apply IH. by eapply upload_step_ok.
Qed.
(** Nothing a run does takes back what the stores and the sessions hold. *)
Lemma step_le w w' : world_ok w -> upload_step w w' -> uploads_le (uw_uploads w) (uw_uploads w').
Proof.
  intros Hw H. revert Hw. destruct H as [i q v s3 fault now ns ts w0 Hi _|i a e ph' u' w0 Ha E|i a io w0 Ha|w0|f0 f1 f2 timeout applied tf now ns nm user token sha ts out s' w0 E
            |f id s' w0 E|src p b w0 Hp|e upl mft id r key body out s' w0 Hid Hk Hb E|f id bt bid out s' w0 E]; intros Hw; cbn.
  - done.
  - destruct (wo_phase _ Hw i a Ha) as [Hph Hl]. by destruct (advance_ok _ _ _ _ _ _ _ _ (wo_uploads _ Hw) Hph Hl E) as ([_ L] & _).
  - destruct (holds _); [|done]. by apply release_sound with (cs := uw_chunk_ids w0); destruct Hw.
  - by split.
  - apply claim_existing_ok with (keyring := keyring) in E as (_ & Hle & _); [|apply Hw]. by split.
  - apply next_file_le in E as (Hle & _). by split.
  - split; [|done]. by apply set_disk_le, rewritten_kept, chunked_temporary.
  - eapply (commit_chunked_ok fs keyring Hsrc) in E as (_ & Hle & _); eauto; [by split|apply Hw|by apply (uo_chunk_ids _ _ (wo_uploads _ Hw))].
  - apply update_business_ok with (keyring := keyring) in E as (_ & Hle); [|apply Hw]. by split.
Qed.
Lemma run_le w w' : world_ok w -> rtc upload_step w w' -> uploads_le (uw_uploads w) (uw_uploads w') /\ world_ok w'.
Proof.
  intros Hw H. induction H as [|w0 w1 w2 St _ IH]; [done|]. destruct IH as [L Ok2]; [by eapply upload_step_ok|]. split; [|done].
  transitivity (uw_uploads w1); [by apply step_le|done].
Qed.

(** C8. An upload takes effect once: whatever requests run side by side, fail, lose their
    client or die with the process, a session is answered with one file id, which is the
    id of a row of the session's user, and two sessions are never answered with the same
    file. *)
Theorem upload_exactly_once w k k' id id' : reachable w -> (k, id) ∈ uw_replies w -> (k', id') ∈ uw_replies w ->
  (id = id' <-> k = k') /\ exists row, so_files (ul_store (uw_uploads w)) !! id = Some row /\ ur_uploader_id row = k.1.
Proof.
  intros Hw%upload_reachable_ok H H'. destruct (wo_replies _ Hw k id H) as [R Hrow]. destruct (wo_replies _ Hw k' id' H') as [R' _].
  split; [|done]. split; [intros ->; by eapply (uo_own _ _ (wo_uploads _ Hw))|intros ->; congruence].
Qed.
(** C9. Published attachments are there and stay: no content has two objects, every file
    has its object, bytes of an object's digest were opened with the site's key to content
    of the recorded identity, and no later step changes or removes an object's row. The
    path of the row holds bytes of the recorded size and digest, the same ones at every
    later time, as long as no publication on a local disk has left its temporary name
    behind (its directory was not synchronized, or the name was not removed): the two
    names are one file then, and a retry of that upload rewrites it. *)
Theorem stored_objects_stay w w' : reachable w -> rtc upload_step w w' ->
  let s := ul_store (uw_uploads w) in let s' := ul_store (uw_uploads w') in
  (forall oid o, so_objects s !! oid = Some o ->
     temporary (ao_file_path o) = false /\ (exists body, opened keyring o body) /\ so_objects s' !! oid = Some o /\
     (dk_shared (so_disk s') = ∅ -> exists bytes, so_disk s !! (ao_storage_source_id o, ao_file_path o) = Some bytes /\
        so_disk s' !! (ao_storage_source_id o, ao_file_path o) = Some bytes /\
        Z.of_nat (length bytes) = ao_sealed_size o /\ eq_ignore_ascii_case (sha256 bytes) (ao_sealed_sha256 o) = true) /\
     forall oid' o', so_objects s !! oid' = Some o' -> ao_plaintext_sha256 o' = ao_plaintext_sha256 o -> oid' = oid) /\
  (forall fid row, so_files s !! fid = Some row -> is_Some (so_objects s !! ur_object_id row) /\
     exists row', so_files s' !! fid = Some row' /\ same_file row row').
Proof.
  intros Hw%upload_reachable_ok R s s'. destruct (run_le w w' Hw R) as [[L _] _]. pose proof (uo_store _ _ (wo_uploads _ Hw)) as Hs. split.
  - intros oid o Ho. destruct (so_intact _ _ Hs oid o Ho) as (_ & _ & T & Hb & Hop). split_and!; [done..|by eapply lookup_weaken; [|apply L]| |].
    + intros He. destruct (le_disk _ _ L He) as [He' K]. destruct (Hb He') as (bytes & Hin & ? & ?). exists bytes. split_and!; [done|by apply K|done..].
    + intros oid' o' Ho' E. by eapply (so_one_content _ _ Hs).
  - intros fid row Hrow. split; [by eapply so_has_object|by apply L].
Qed.
(** A claim takes effect once: claims of one user with one token are all answered with
    one file, however often they are retried, and claims that differ in the user or the
    token's digest with different files. *)
Theorem claim_makes_one_file w user user' token token' id id' : reachable w -> (user, token, id) ∈ uw_claims w -> (user', token', id') ∈ uw_claims w ->
  id = id' <-> user = user' /\ claim_key_hash sha256_hex token = claim_key_hash sha256_hex token'.
Proof.
  intros Hw%upload_reachable_ok H H'. destruct (wo_claims _ Hw user token id H) as (r & Hr & Hu & Hk). destruct (wo_claims _ Hw user' token' id' H') as (r' & Hr' & Hu' & Hk').
  split; [intros ->; simplify_eq; split; congruence|]. intros [Eu Ek]. eapply (so_one_claim _ _ (uo_store _ _ (wo_uploads _ Hw))); eauto; congruence.
Qed.

(** ** A request alone *)
Lemma advance_measure e q v ph u : phase_steps q ph <> 0%nat -> (phase_steps q (advance fs keyring e q v ph u).1 < phase_steps q ph)%nat.
Proof.
  unfold advance, end_request. destruct ph as [| | |id|id key r rest|id key r x fname mime chunks broken rest|id key r x|m|res]; intros N; cbn.
  - destruct (open _ _ u) as [[|] ?]; cbn; [|lia]. destruct (completed_file_id _ _ _) as [[|]|]; cbn; lia.
  - destruct (begin_whole _ _ u) as [[|] ?]; cbn; lia.
  - unfold reserve_step, end_request. destruct (reserved_file_id _ _ _) as [[id|]|]; cbn; [|destruct (next_file_id _ _ _) as [[|] ?]; cbn; [|lia]|lia].
    + destruct (get_by_file_id _ _ _) as [[m|]|]; cbn; [destruct (negb _)| |]; cbn; lia.
    + destruct (reserve_file_id _ _ _ _ _) as [[|] ?]; cbn; lia.
  - match goal with |- context [match ?x with Ok _ => _ | Err _ => _ end] => destruct x end; cbn; lia.
  - unfold receive_step, end_request. destruct rest as [|[name ctype chunks broken|t|] rest]; cbn.
    + destruct (rq_broken q); [cbn; lia|]. destruct (rc_upload r); cbn; lia.
    + destruct (rc_upload r); [cbn; lia|]. destruct (begin_streaming_upload _ _ _ _ _ _ _ _ _) as [[|] ?]; cbn; unfold fields_steps; cbn; lia.
    + unfold fields_steps; cbn; lia.
    + unfold fields_steps; cbn; lia.
  - unfold read_body_step, end_request. destruct chunks; [destruct broken|destruct (write_chunk _ _ _)]; cbn; lia.
  - unfold commit_step, end_request. match goal with |- context [match ?x with Ok _ => _ | Err _ => _ end] => destruct x as [[[[] ?] ?]|] end; [|cbn; lia].
    destruct (commit_streaming_upload _ _ _ _ _ _ _ _ _ _ _ _ _ _ _ _ _) as [[|] ?]; cbn; lia.
  - lia.
  - done.
Qed.
Lemma run_upload_done envs q v fuel i ph u : (phase_steps q ph <= fuel)%nat -> exists res, (run_upload fs keyring envs q v fuel i ph u).1 = Done res.
Proof.
  revert i ph u. induction fuel as [|fuel IH]; intros i ph u H.
  - destruct ph; cbn in H; try lia. by eexists.
  - assert (D : (exists res, ph = Done res) \/ phase_steps q ph <> 0%nat) by (destruct ph; cbn; eauto; right; lia). destruct D as [[res ->]|N]; [by eexists|].
    pose proof (advance_measure (envs i) q v ph u N) as M. destruct (advance fs keyring (envs i) q v ph u) as [ph' u'] eqn:E. cbn in M.
    replace (run_upload fs keyring envs q v (S fuel) i ph u) with (run_upload fs keyring envs q v fuel (S i) ph' u') by (cbn [run_upload]; rewrite E; by destruct ph).
    apply IH. lia.
Qed.
Lemma run_upload_sound cs envs q v fuel i ph u ph' u' : uploads_ok u cs -> phase_ok v ph u -> (if holds ph then key_of v ∈ ul_locks u else key_of v ∉ ul_locks u) ->
  run_upload fs keyring envs q v fuel i ph u = (ph', u') ->
  sound cs u u' /\ phase_ok v ph' u' /\ (holds ph' = false -> key_of v ∉ ul_locks u').
Proof.
  revert i ph u. induction fuel as [|fuel IH]; intros i ph u Hok Hph Hl.
  - assert (E : run_upload fs keyring envs q v 0 i ph u = (ph, u)) by by destruct ph. rewrite E. intros [= <- <-]. split_and!; [by apply sound_refl|done|]. intros H. by rewrite H in Hl.
  - destruct (advance fs keyring (envs i) q v ph u) as [ph1 u1] eqn:E.
    destruct (advance_ok cs _ _ _ _ _ _ _ Hok Hph ltac:(by intros H; rewrite H in Hl) E) as (Sd & P & L & _).
    assert (Hl1 : if holds ph1 then key_of v ∈ ul_locks u1 else key_of v ∉ ul_locks u1) by (rewrite L; destruct (holds ph1), (holds ph); set_solver).
    assert (R : run_upload fs keyring envs q v (S fuel) i ph u = (ph, u) /\ (exists res, ph = Done res) \/
                run_upload fs keyring envs q v (S fuel) i ph u = run_upload fs keyring envs q v fuel (S i) ph1 u1).
    { cbn [run_upload]; rewrite E. destruct ph; eauto. }
    destruct R as [[-> [res ->]]| ->]; [intros [= <- <-]; split_and!; [by apply sound_refl|done|done]|].
    intros (S' & P' & L')%IH; [|apply Sd|done|done]. split_and!; [by eapply sound_trans|done|done].
Qed.
(** C36. An upload on its own comes to an end: from stores in order, with the session free,
    and whatever fails on the way, the handler answers within one step per piece of the
    body and seven more, it leaves the session free, and an answer of success names the
    file that the session was given. *)
Theorem upload_comes_to_an_end cs s3 fault now ns envs q ts v u :
  uploads_ok u cs -> admit_upload fs sha256_hex uuid_ok from_timestamp s3 fault now ns q ts = Ok v -> key_of v ∉ ul_locks u ->
  exists res u', upload_file fs keyring sha256_hex uuid_ok from_timestamp s3 fault now ns envs q ts u = (Done res, u') /\
    uploads_ok u' cs /\ key_of v ∉ ul_locks u' /\ match res with Ok r => answered (key_of v) (ur_file_id r) u' | Err _ => True end.
Proof.
  intros Hok Ha Hk. unfold upload_file. rewrite Ha. destruct (run_upload_done envs q v (phase_steps q Opening) 0 Opening u (le_n _)) as [res Hres].
  destruct (run_upload _ _ _ _ _ _ _ _ _) as [ph' u'] eqn:E. cbn in Hres. subst ph'. apply (run_upload_sound cs) in E as ([Hok' _] & P & L); [|done..].
  exists res, u'. split_and!; [done..|by apply L|]. by destruct res.
Qed.
(** Steps of one request in a run. *)
Definition drive (envs : nat -> StepEnv) (i n : nat) (w : UploadWorld) : UploadWorld :=
  foldl (fun w j => match uw_attempts w !! i with
                    | Some a => let p := advance fs keyring (envs j) (at_request a) (at_token a) (at_phase a) (uw_uploads w) in after_advance i a p.1 p.2 w
                    | None => w
                    end) w (seq 0 n).
Lemma drive_reachable envs i n w : reachable w -> reachable (drive envs i n w).
Proof.
  unfold drive. generalize (seq 0 n). intros l. revert w. induction l as [|j l IH]; intros w Hw; cbn; [done|]. apply IH.
  destruct (uw_attempts w !! i) as [a|] eqn:E; [|done]. eapply rtc_r; [done|]. eapply us_advance; [done|]. apply surjective_pairing.
Qed.
End Uploads.

(** ** An upload, its retry after a crash, and a claim

    A format with a header of one byte and chunks that are stored as they are. *)
Definition ex_sha : string := "aaaaaaaaaaaaaaaaaaaaaaaaaaaaaaaaaaaaaaaaaaaaaaaaaaaaaaaaaaaaaaaa".
#[local] Instance ex_crypto : AttachmentCrypto := {|
  HEADER_LEN := 1; NONCE_LEN := 0; TAG_LEN := 0; FORMAT_VERSION := 1; chunk_count_for := fun _ _ => Ok 1; sealed_len := fun size _ => Ok (size + 5);
  parse_header := fun _ => Ok (mkHeader 1 4 2 1); expected_chunk_len := fun _ _ => Ok 2; AttachmentOpener := unit; opener_new := fun _ _ => Ok tt;
  open_chunk := fun _ b => Ok (drop 4 b, tt); opener_finish := fun _ => Ok tt; sha256 := fun _ => ex_sha
|}.
#[local] Instance ex_jwt : UploadJwt := {| uj_encode := fun _ _ _ _ => None; uj_header := fun _ => None; uj_decode := fun _ _ _ _ _ => Err UjOther |}.
Definition ex_fs : FileService := mkFileService {[0 := mkSource 0 "local" "./storage" None None None None None false]} 0.
Definition ex_keyring (id : Z) : option (list Z) := if id =? 1 then Some [7] else None.
Definition ex_identity : UploadIdentity := mkIdentity (Some ex_sha) (Some 2) (Some 7) (Some "image/png"%string) (Some 1) (Some 1) (Some 4).
Definition ex_tokens : UploadTokenService :=
  mkTokenService {[ "up"%string := upload_token_new "up" 0 42 FImage (10 * MB) "message" None ex_identity PUpload 600;
                    "claim"%string := upload_token_new "claim" 0 42 FImage (10 * MB) "message" None ex_identity PClaimExisting 600 ]} None None.
Definition ex_request : UploadRequest := mkUploadRequest (Some "up"%string) [FileField (Some "a.png"%string) None [[9; 0]; [0; 0; 0; 5; 6]] None] None None.
Definition ex_digest (t : string) : string := if decide (t = "claim"%string) then "c" else "ab".
Definition ex_token : ValidatedUploadToken := from_legacy ex_digest "up" (upload_token_new "up" 0 42 FImage (10 * MB) "message" None ex_identity PUpload 600).
Definition ex_call : CallEnv := mkCallEnv no_faults (fun _ => false) EmptyString no_faults false no_faults (fun _ => false) false 1000 false.
Definition ex_quiet : StepEnv := mkStepEnv (fun _ => None) no_faults no_faults no_faults ex_call.
Lemma ex_sources id src : fs_sources ex_fs !! id = Some src -> ss_id src = id.
Proof. cbn [fs_sources ex_fs]. intros [<- <-]%lookup_singleton_Some. done. Qed.
Definition ex_arrived (i : nat) (w : UploadWorld) : UploadWorld :=
  mkWorld (uw_uploads w) (<[i := mkAttempt ex_request ex_token Opening]> (uw_attempts w)) (uw_chunk_ids w) (uw_replies w) (uw_claims w).
Notation ex_reachable := (reachable ex_fs ex_keyring ex_digest (fun _ => true) (fun _ => None)).
Lemma ex_arrive i w : uw_attempts w !! i = None -> ex_reachable w -> ex_reachable (ex_arrived i w).
Proof. intros H Hw. eapply rtc_r; [exact Hw|]. apply (us_arrive _ _ _ _ _ i ex_request ex_token false None 0 0 ex_tokens); [done|]. vm_compute. reflexivity. Qed.
(** The first request dies after its commit, before the tombstone; a second one finds the
    row of the reserved id, a third the tombstone. *)
Definition ex_drive := drive ex_fs ex_keyring (fun _ => ex_quiet).
Definition ex_died : UploadWorld :=
  let w := ex_drive 0 10 (ex_arrived 0 world_init) in
  mkWorld (mkUploads (ul_store (uw_uploads w)) (ul_sessions (uw_uploads w)) ∅) ∅ (uw_chunk_ids w) (uw_replies w) (uw_claims w).
Definition ex_retried : UploadWorld := ex_drive 2 11 (ex_arrived 2 (ex_drive 1 11 (ex_arrived 1 ex_died))).
Lemma ex_died_reachable : ex_reachable ex_died.
Proof. eapply rtc_r; [|apply us_crash]. apply drive_reachable, ex_arrive; [done|]. apply rtc_refl. Qed.
Lemma ex_retried_reachable : ex_reachable ex_retried.
Proof.
  apply drive_reachable, ex_arrive; [vm_compute; reflexivity|]. apply drive_reachable, ex_arrive; [vm_compute; reflexivity|]. apply ex_died_reachable.
Qed.
Example ex_one_file : uw_replies ex_retried = [((42, "ab"%string), 1); ((42, "ab"%string), 1)] /\ size (so_files (ul_store (uw_uploads ex_retried))) = 1%nat /\
  size (so_files (ul_store (uw_uploads ex_died))) = 1%nat /\ uw_replies ex_died = [].
Proof. vm_compute. done. Qed.
Definition ex_claim (w : UploadWorld) := claim_existing_file ex_digest (fun _ => true) (fun _ => None) no_faults no_faults no_faults false false None 0 0 2000 42 "claim" ex_sha
  ex_tokens (ul_store (uw_uploads w)).
Definition ex_claimed (w : UploadWorld) : UploadWorld :=
  mkWorld (set_store (uw_uploads w) (ex_claim w).2) (uw_attempts w) (uw_chunk_ids w) (uw_replies w)
    (match (ex_claim w).1 with Ok m => (42, "claim"%string, fm_file_id m) :: uw_claims w | Err _ => uw_claims w end).
Lemma ex_claim_step w : upload_step ex_fs ex_keyring ex_digest (fun _ => true) (fun _ => None) w (ex_claimed w).
Proof. eapply us_claim. apply surjective_pairing. Qed.
Lemma ex_claimed_reachable : ex_reachable (ex_claimed (ex_claimed ex_retried)).
Proof. exact (rtc_r _ _ _ (rtc_r _ _ _ ex_retried_reachable (ex_claim_step _)) (ex_claim_step _)). Qed.

Lemma upload_exactly_once_witness : (1 = 1 <-> (42, "ab"%string) = (42, "ab"%string)) /\
  exists row, so_files (ul_store (uw_uploads ex_retried)) !! 1 = Some row /\ ur_uploader_id row = 42.
Proof.
  apply (upload_exactly_once ex_fs ex_keyring ex_sources ex_digest (fun _ => true) (fun _ => None) ex_retried (42, "ab"%string) (42, "ab"%string) 1 1 ex_retried_reachable);
    rewrite (proj1 ex_one_file); set_solver.
Defined.
Lemma stored_objects_stay_witness : exists o bytes, so_objects (ul_store (uw_uploads ex_retried)) !! 1 = Some o /\
  so_objects (ul_store (uw_uploads (ex_claimed ex_retried))) !! 1 = Some o /\
  so_disk (ul_store (uw_uploads (ex_claimed ex_retried))) !! (ao_storage_source_id o, ao_file_path o) = Some bytes /\ Z.of_nat (length bytes) = ao_sealed_size o.
Proof.
  assert (H : exists o, so_objects (ul_store (uw_uploads ex_retried)) !! 1 = Some o) by (eexists; vm_compute; reflexivity). destruct H as [o Ho].
  destruct (stored_objects_stay ex_fs ex_keyring ex_sources ex_digest (fun _ => true) (fun _ => None) ex_retried (ex_claimed ex_retried) ex_retried_reachable
    (rtc_once _ _ (ex_claim_step ex_retried))) as [H _]. destruct (H 1 o Ho) as (_ & _ & Hl & Hb & _).
  destruct Hb as (bytes & _ & Hin & Hsz & _); [vm_compute; reflexivity|]. exists o, bytes. split; [exact Ho|]. split; [exact Hl|]. split; [exact Hin|exact Hsz].
Defined.
Lemma claim_makes_one_file_witness : uw_claims (ex_claimed (ex_claimed ex_retried)) = [(42, "claim"%string, 2); (42, "claim"%string, 2)] /\ (2 = 2 <-> 42 = 42 /\
  claim_key_hash ex_digest "claim" = claim_key_hash ex_digest "claim").
Proof.
  assert (E : uw_claims (ex_claimed (ex_claimed ex_retried)) = [(42, "claim"%string, 2); (42, "claim"%string, 2)]) by (vm_compute; reflexivity). split; [exact E|].
  refine (claim_makes_one_file ex_fs ex_keyring ex_sources ex_digest (fun _ => true) (fun _ => None) (ex_claimed (ex_claimed ex_retried)) 42 42 "claim" "claim" 2 2
    ex_claimed_reachable _ _); rewrite E; constructor.
Defined.
Lemma upload_comes_to_an_end_witness : exists res u',
  upload_file ex_fs ex_keyring ex_digest (fun _ => true) (fun _ => None) false None 0 0 (fun _ => ex_quiet) ex_request ex_tokens (uw_uploads ex_retried) = (Done res, u') /\
  (42, "ab"%string) ∉ ul_locks u'.
Proof.
  destruct (upload_comes_to_an_end ex_fs ex_keyring ex_sources ex_digest (fun _ => true) (fun _ => None) (uw_chunk_ids ex_retried) false None 0 0 (fun _ => ex_quiet) ex_request
    ex_tokens ex_token (uw_uploads ex_retried)) as (res & u' & E & _ & L & _);
    [apply (wo_uploads ex_keyring ex_digest), (upload_reachable_ok ex_fs ex_keyring ex_sources ex_digest (fun _ => true) (fun _ => None)), ex_retried_reachable
    |vm_compute; reflexivity|vm_compute; set_solver|]. exists res, u'. split; [exact E|exact L].
Defined.
