(* ===== verification/Users.v ===== *)
(** * Users, their cached profiles, and reachability

    Models the parts of src/src/repository/user_repo.rs that look up users, the
    two-level cache of src/src/infra/cache_manager.rs, the helpers of
    src/src/rpc/helpers.rs that read profiles and refuse unreachable users, and the
    settings of privacy_service.rs that a user changes ([update_privacy_settings]).

    A cached value lives in the process (L1) and in Redis (L2): [Tiers]. Either level may
    lose an entry at any time (capacity, time to live); a Redis that does not answer is
    an argument ([up]), and the code goes on without it. A failing query carries the text
    of its error ([faults]). *)

From stdpp Require Import base numbers gmap list sorting strings.
From S2P Require Import Prelude Friend Channel SendAuth.
Local Open Scope Z_scope.

(** ** The two levels of the cache *)
Record Tiers (K V : Type) `{Countable K} := mkTiers { t_l1 : gmap K V; t_l2 : gmap K V }.
Arguments mkTiers {K V _ _} _ _.
Arguments t_l1 {K V _ _} _.
Arguments t_l2 {K V _ _} _.

Section Tiers.
Context {K V : Type} `{Countable K}.

Definition get_from_redis (up : bool) (k : K) (m : gmap K V) : option V := if up then m !! k else None.
Definition set_to_redis (up : bool) (k : K) (v : V) (m : gmap K V) : gmap K V := if up then <[k := v]> m else m.

(** The common shape of a cached read: L1, then L2 with a copy back to L1. *)
Definition tiers_get (up : bool) (k : K) (t : Tiers K V) : option V * Tiers K V :=
  match t_l1 t !! k with
  | Some v => (Some v, t)
  | None =>
      match get_from_redis up k (t_l2 t) with
      | Some v => (Some v, mkTiers (<[k := v]> (t_l1 t)) (t_l2 t))
      | None => (None, t)
      end
  end.
Definition tiers_set (up : bool) (k : K) (v : V) (t : Tiers K V) : Tiers K V :=
  mkTiers (<[k := v]> (t_l1 t)) (set_to_redis up k v (t_l2 t)).

(** [v] is in one of the levels under [k]. *)
Definition held (t : Tiers K V) (k : K) (v : V) : Prop := t_l1 t !! k = Some v \/ t_l2 t !! k = Some v.

Lemma tiers_get_spec up k t o t' : tiers_get up k t = (o, t') ->
  (forall v, o = Some v -> held t k v) /\ (forall k' v, held t' k' v -> held t k' v).
Proof.
  unfold tiers_get, get_from_redis, held. destruct (t_l1 t !! k) eqn:E1; [intros [= <- <-]; naive_solver|].
  destruct up; [|intros [= <- <-]; naive_solver].
  destruct (t_l2 t !! k) eqn:E2; intros [= <- <-]; [|naive_solver]. split; [naive_solver|].
  intros k' v'; cbn. rewrite lookup_insert_Some. naive_solver.
Qed.

Lemma tiers_set_held up k v t k' v' : held (tiers_set up k v t) k' v' -> (k' = k /\ v' = v) \/ held t k' v'.
Proof.
  unfold held, tiers_set, set_to_redis; cbn. destruct up; cbn; rewrite ?lookup_insert_Some; naive_solver.
Qed.
End Tiers.

(** ** Users *)
Record User := mkUser {
  u_id : Z; u_username : option string; u_phone : option string; u_display_name : option string;
  u_email : option string; u_avatar_url : option string; u_type : Z; u_qr_key : string; u_sync_version : Z
}.

(** [CachedUserProfile]. *)
Record UserProfile := mkUserProfile {
  pf_user_id : string; pf_username : string; pf_nickname : string; pf_avatar_url : option string;
  pf_user_type : Z; pf_phone : option string; pf_email : option string
}.
Definition user_to_cached_profile (u : User) : UserProfile :=
  mkUserProfile (u64_to_string (u_id u)) (default "" (u_username u))%string (default "" (u_display_name u))%string
    (u_avatar_url u) (u_type u) (u_phone u) (u_email u).

(** The rows of privchat_users by their BIGINT id. *)
Definition user_table := gmap Z User.
Definition rows_where (P : User -> bool) (t : user_table) : list User := filter (fun u => P u = true) (map_to_list t).*2.

Section Queries.
(** [LOWER] of the database. *)
Context (pg_lower : string -> string).

Definition find_user_by_id (fault : option string) (t : user_table) (uid : Z) : result (option User) string :=
  match fault with Some e => Err e | None => Ok (t !! as_i64 uid) end.
Definition find_one (fault : option string) (P : User -> bool) (t : user_table) : result (option User) string :=
  match fault with Some e => Err e | None => Ok (head (rows_where P t)) end.
Definition find_by_username (fault : option string) (t : user_table) (name : string) : result (option User) string :=
  find_one fault (fun u => bool_decide (pg_lower <$> u_username u = Some (pg_lower name))) t.
Definition find_by_phone (fault : option string) (t : user_table) (phone : string) : result (option User) string :=
  find_one fault (fun u => bool_decide (u_phone u = Some phone)) t.
Definition find_by_email (fault : option string) (t : user_table) (email : string) : result (option User) string :=
  find_one fault (fun u => bool_decide (pg_lower <$> u_email u = Some (pg_lower email))) t.

(** [find_related_since] for a single id: the row, when its version is past [since]. *)
Definition find_related_one (fault : option string) (t : user_table) (uid since : Z) : result (option (User * Z)) string :=
  match fault with
  | Some e => Err e
  | None => Ok (match t !! as_i64 uid with
                | Some u => if as_i64 since <? u_sync_version u then Some (u, as_u64 (u_sync_version u)) else None
                | None => None
                end)
  end.
End Queries.

Definition profile_cache := Tiers Z UserProfile.
Definition user_query {A} (r : result A string) : result A ServerError :=
  match r with Ok a => Ok a | Err e => Err (Internal ("查询用户失败: " +:+ e)) end.

Definition get_user_profile_with_fallback (up up' : bool) (fault : option string) (t : user_table) (uid : Z) (c : profile_cache)
    : result (option UserProfile) ServerError * profile_cache :=
  match tiers_get up uid c with
  | (Some p, c1) => (Ok (Some p), c1)
  | (None, c1) =>
      match user_query (find_user_by_id fault t uid) with
      | Err e => (Err e, c1)
      | Ok None => (Ok None, c1)
      | Ok (Some u) => let p := user_to_cached_profile u in (Ok (Some p), tiers_set up' (u_id u) p c1)
      end
  end.
Definition get_user_profile_fresh_versioned (up : bool) (fault : option string) (t : user_table) (uid : Z) (c : profile_cache)
    : result (option (UserProfile * Z)) ServerError * profile_cache :=
  match user_query (find_related_one fault t uid 0) with
  | Err e => (Err e, c)
  | Ok None => (Ok None, c)
  | Ok (Some (u, v)) => let p := user_to_cached_profile u in (Ok (Some (p, v)), tiers_set up (u_id u) p c)
  end.
Definition get_user_profile_fresh (up : bool) (fault : option string) (t : user_table) (uid : Z) (c : profile_cache)
    : result (option UserProfile) ServerError * profile_cache :=
  let '(r, c') := get_user_profile_fresh_versioned up fault t uid c in
  (let? o := r in Ok (fst <$> o), c').

(** [invalidate_user_profile]: what a change of the profile calls. *)
Definition invalidate_user_profile (fault : option string) (uid : Z) (c : profile_cache) : result unit ServerError * profile_cache :=
  match fault with
  | Some e => (Err (Internal e), mkTiers (delete uid (t_l1 c)) (t_l2 c))
  | None => (Ok tt, mkTiers (delete uid (t_l1 c)) (delete uid (t_l2 c)))
  end.

(** ** Reachability *)
Definition ASSISTANT_USER_TYPE : Z := 3.
Definition is_unreachable_user_type (ty : Z) : bool := ty =? ASSISTANT_USER_TYPE.
Definition FIRST_SYSTEM_USER_ID : Z := 1.
Definition is_system_user (uid : Z) : bool := uid =? FIRST_SYSTEM_USER_ID.

Definition lookup_user_type (up : bool) (fault : option string) (t : user_table) (uid : Z) (c : profile_cache)
    : result (option Z) ServerError * profile_cache :=
  if is_system_user uid then (Ok (Some 1), c)
  else match tiers_get up uid c with
       | (Some p, c1) => (Ok (Some (pf_user_type p)), c1)
       | (None, c1) => (let? o := user_query (find_user_by_id fault t uid) in Ok (u_type <$> o), c1)
       end.
Definition is_unreachable_user (up : bool) (fault : option string) (t : user_table) (uid : Z) (c : profile_cache)
    : result bool ServerError * profile_cache :=
  let '(r, c') := lookup_user_type up fault t uid c in
  (let? o := r in Ok (default false (is_unreachable_user_type <$> o)), c').
Definition ensure_reachable_user (up : bool) (fault : option string) (t : user_table) (uid : Z) (not_found : RpcError) (c : profile_cache)
    : result unit RpcError * profile_cache :=
  let '(r, c') := is_unreachable_user up fault t uid c in
  (match r with
   | Ok false => Ok tt
   | Ok true => Err not_found
   | Err _ => Err (rpc_internal "校验用户身份失败")
   end, c').

(** ** Bot follows *)
Definition STATUS_FOLLOWED : Z := 1.
Definition follow_table := gmap (Z * Z) Z.
(** [bot_follow_repository.find(..).ok().flatten().map(is_followed).unwrap_or(false)]. *)
Definition is_followed_by (fault : option string) (t : follow_table) (uid bot : Z) : bool :=
  match fault with
  | Some _ => false
  | None => default false ((fun s => s =? STATUS_FOLLOWED) <$> t !! (as_i64 uid, as_i64 bot))
  end.

(** ** Changing privacy settings *)
Record PrivacySettingsUpdate := mkUpdate {
  pu_add_by_group : option bool; pu_add_by_card : option bool; pu_search_by_phone : option bool;
  pu_search_by_username : option bool; pu_search_by_email : option bool; pu_search_by_qrcode : option bool;
  pu_view_by_non_friend : option bool; pu_receive_from_non_friend : option bool
}.

(** Only the fields to change go into the patch. *)
Definition to_patch_json (u : PrivacySettingsUpdate) : list (string * bool) :=
  let put k (o : option bool) : list (string * bool) := match o with Some b => [(k, b)] | None => [] end in
  concat
    [put "allow_add_by_group"%string (pu_add_by_group u); put "allow_add_by_card"%string (pu_add_by_card u);
     put "allow_search_by_phone"%string (pu_search_by_phone u); put "allow_search_by_username"%string (pu_search_by_username u);
     put "allow_search_by_email"%string (pu_search_by_email u); put "allow_search_by_qrcode"%string (pu_search_by_qrcode u);
     put "allow_view_by_non_friend"%string (pu_view_by_non_friend u);
     put "allow_receive_message_from_non_friend"%string (pu_receive_from_non_friend u)].

(** serde_json and PostgreSQL's [jsonb]: parsing the column, an object of booleans, and
    the concatenation [||]. *)
Class PrivacyColumn := {
  PrivacyJson : Type;
  pj_is_null : PrivacyJson -> bool;
  pj_from_value : PrivacyJson -> result StoredPrivacySettings string;
  pj_object : list (string * bool) -> PrivacyJson;
  pj_concat : PrivacyJson -> PrivacyJson -> PrivacyJson
}.

Section Privacy.
Context `{PC : PrivacyColumn}.

Definition privacy_of (now : Z) (fault : option string) (column : gmap Z PrivacyJson) (uid : Z) : result UserPrivacySettings ServerError :=
  get_or_create_privacy_settings pj_is_null pj_from_value now (fun _ => fault) column uid.

(** The transaction: patch, read back, parse, commit. [applied] tells whether a COMMIT
    that reported an error took effect. *)
Definition update_privacy_settings (frozen applied : bool) (now : Z) (db : faults) (uid : Z) (u : PrivacySettingsUpdate)
    (column : gmap Z PrivacyJson) : result UserPrivacySettings ServerError * gmap Z PrivacyJson :=
  if frozen then (Err (ServiceUnavailable "隐私设置正在维护，请稍后重试"), column)
  else match db 0%nat, db 1%nat, column !! as_i64 uid with
       | Some e, _, _ => (Err (Database ("开启隐私设置事务失败: " +:+ e)), column)
       | None, Some e, _ => (Err (Database ("写入隐私设置失败: " +:+ e)), column)
       | None, None, None => (Err (NotFound ("用户 " +:+ u64_to_string uid +:+ " 不存在")), column)
       | None, None, Some v =>
           let v' := pj_concat v (pj_object (to_patch_json u)) in
           match settings_from_stored pj_is_null pj_from_value now uid (Some v') with
           | Err e => (Err e, column)
           | Ok s =>
               match db 2%nat with
               | Some e => (Err (Database ("提交隐私设置失败: " +:+ e)), if applied then <[as_i64 uid := v']> column else column)
               | None => (Ok s, <[as_i64 uid := v']> column)
               end
           end
       end.
End Privacy.

(** ** Reading an update back *)
Definition override_field (s : StoredPrivacySettings) (p : string * bool) : StoredPrivacySettings :=
  let set k o := if decide (p.1 = k) then Some p.2 else o in
  mkStored (set "allow_add_by_group"%string (st_add_by_group s)) (set "allow_add_by_card"%string (st_add_by_card s))
    (set "allow_search_by_phone"%string (st_search_by_phone s)) (set "allow_search_by_username"%string (st_search_by_username s))
    (set "allow_search_by_email"%string (st_search_by_email s)) (set "allow_search_by_qrcode"%string (st_search_by_qrcode s))
    (set "allow_view_by_non_friend"%string (st_view_by_non_friend s))
    (set "allow_receive_message_from_non_friend"%string (st_receive_from_non_friend s)).

(** [a || b] of two objects has the keys of both, those of [b] winning. *)
Class JsonbLaws (PC : PrivacyColumn) := {
  concat_not_null v l : pj_is_null v = false -> pj_is_null (pj_concat v (pj_object l)) = false;
  concat_fields v l s : pj_is_null v = false -> pj_from_value v = Ok s ->
    pj_from_value (pj_concat v (pj_object l)) = Ok (foldl override_field s l)
}.

(** The settings with the chosen fields changed. *)
Definition updated (u : PrivacySettingsUpdate) (p : UserPrivacySettings) : UserPrivacySettings :=
  mkPrivacy (ps_user_id p) (default (allow_add_by_group p) (pu_add_by_group u)) (default (allow_add_by_card p) (pu_add_by_card u))
    (default (allow_search_by_phone p) (pu_search_by_phone u)) (default (allow_search_by_username p) (pu_search_by_username u))
    (default (allow_search_by_email p) (pu_search_by_email u)) (default (allow_search_by_qrcode p) (pu_search_by_qrcode u))
    (default (allow_view_by_non_friend p) (pu_view_by_non_friend u))
    (default (allow_receive_message_from_non_friend p) (pu_receive_from_non_friend u)) (ps_updated_at p).

Lemma foldl_put s k (o : option bool) rest :
  foldl override_field s ((match o with Some b => [(k, b)] | None => [] end) ++ rest) =
  foldl override_field (match o with Some b => override_field s (k, b) | None => s end) rest.
Proof. by destruct o. Qed.

Lemma patch_applies u s p : apply_to (foldl override_field s (to_patch_json u)) p = updated u (apply_to s p).
Proof.
  unfold to_patch_json. cbn [concat]. rewrite !foldl_put. cbn [foldl].
  destruct u as [[] [] [] [] [] [] [] []], s; reflexivity.
Qed.

(** An update that is answered is what the next reading returns, and every field it does
    not name is as it was. *)
Theorem privacy_update_reads_back `{PC : PrivacyColumn, !JsonbLaws PC} now applied uid u column v old :
  column !! as_i64 uid = Some v -> pj_is_null v = false -> privacy_of now None column uid = Ok old ->
  exists column', update_privacy_settings false applied now no_faults uid u column = (Ok (updated u old), column') /\
    privacy_of now None column' uid = Ok (updated u old) /\
    forall k, k <> as_i64 uid -> column' !! k = column !! k.
Proof.
  intros Hv Hn Hold. unfold privacy_of, get_or_create_privacy_settings, settings_from_stored in Hold. rewrite Hv, Hn in Hold.
  destruct (pj_from_value v) as [s|] eqn:Hs; [|done]. injection Hold as <-.
  unfold update_privacy_settings, settings_from_stored, no_faults. rewrite Hv, concat_not_null by done. rewrite (concat_fields v _ s) by done.
  eexists. split; [by rewrite patch_applies|]. split.
  - unfold privacy_of, get_or_create_privacy_settings, settings_from_stored. rewrite lookup_insert_eq, concat_not_null by done.
    rewrite (concat_fields v _ s) by done. by rewrite patch_applies.
  - intros k Hk. by rewrite lookup_insert_ne.
Qed.
