(* ===== verification/QrCode.v ===== *)
(** * QR codes

    Models src/src/model/qrcode.rs and src/src/service/qrcode_service.rs (the keys a user
    shows to be scanned: generated, resolved, refreshed, revoked), the handlers under
    src/src/rpc/qrcode/, and the permanent card keys of src/src/rpc/user/qrcode.rs with
    src/src/rpc/qr/key.rs.

    The maps of the service lock the entry they touch, and [resolve] keeps the entry
    locked to its end: each operation is one step. [None] of [generate] is a panic: chrono
    refuses a time to live out of its range. Times are nanoseconds. *)

From stdpp Require Import base numbers gmap list sorting strings.
From S2P Require Import Prelude Channel Friend Timeline Submit Group GroupService Payload Users.
Import Friends.
Local Open Scope Z_scope.

Inductive QRType := QrUser | QrGroup | QrAuth | QrFeature.
#[export] Instance qr_type_eq_dec : EqDecision QRType.
Proof. solve_decision. Defined.
Definition qr_type_as_str (t : QRType) : string :=
  match t with QrUser => "user" | QrGroup => "group" | QrAuth => "auth" | QrFeature => "feature" end.
Definition qr_type_from_str (s : string) : option QRType :=
  if decide (s = "user"%string) then Some QrUser
  else if decide (s = "group"%string) then Some QrGroup
  else if decide (s = "auth"%string) then Some QrAuth
  else if decide (s = "feature"%string) then Some QrFeature
  else None.

(** The JSON a creator attaches to a key, and its [token] when that is a text. *)
Class QrMetadata := {
  Metadata : Type;
  metadata_token : Metadata -> option string;
  metadata_null : Metadata;
  metadata_empty : Metadata
}.

Section Records.
Context `{QM : QrMetadata}.

Record QRKeyRecord := mkKey {
  qk_key : string; qk_type : QRType; qk_target_id : string; qk_creator_id : string;
  qk_created_at : Z; qk_expire_at : option Z; qk_max_usage : option Z; qk_used_count : Z;
  qk_revoked : bool; qk_metadata : Metadata
}.
Record QRKeyOptions := mkKeyOptions {
  qo_expire_seconds : option Z; qo_max_usage : option Z; qo_revoke_old : bool; qo_one_time : bool; qo_metadata : Metadata
}.
Definition key_options_default : QRKeyOptions := mkKeyOptions None None false false metadata_null.
Record QRScanLog := mkScan { sl_key : string; sl_scanner_id : string; sl_scanned_at : Z; sl_success : bool; sl_error : option string }.

Definition key_expired (now : Z) (r : QRKeyRecord) : bool :=
  match qk_expire_at r with Some t => t <? now | None => false end.
Definition is_usage_exceeded (r : QRKeyRecord) : bool :=
  match qk_max_usage r with Some m => m <=? qk_used_count r | None => false end.
Definition key_is_valid (now : Z) (r : QRKeyRecord) : bool := negb (qk_revoked r) && negb (key_expired now r) && negb (is_usage_exceeded r).
Definition to_qr_code_string (r : QRKeyRecord) : string :=
  let base := "privchat://" +:+ qr_type_as_str (qk_type r) +:+ "/get?qrkey=" +:+ qk_key r in
  match metadata_token (qk_metadata r) with Some t => base +:+ "&token=" +:+ t | None => base end.

Definition with_revoked (r : QRKeyRecord) : QRKeyRecord :=
  mkKey (qk_key r) (qk_type r) (qk_target_id r) (qk_creator_id r) (qk_created_at r) (qk_expire_at r) (qk_max_usage r)
    (qk_used_count r) true (qk_metadata r).
Definition with_used (n : Z) (r : QRKeyRecord) : QRKeyRecord :=
  mkKey (qk_key r) (qk_type r) (qk_target_id r) (qk_creator_id r) (qk_created_at r) (qk_expire_at r) (qk_max_usage r)
    n (qk_revoked r) (qk_metadata r).

(** ** The service *)
Record QRCodeService := mkQr { qs_storage : gmap string QRKeyRecord; qs_target_index : gmap string string; qs_scan_logs : list QRScanLog }.
Definition qr_service_new : QRCodeService := mkQr ∅ ∅ [].

(** [generate_random_key]: twelve draws from the alphabet. *)
Definition CHARSET : string := "abcdefghijklmnopqrstuvwxyz0123456789".
Definition pick (alphabet : string) (i : nat) : Ascii.ascii := default Ascii.zero (String.get (i mod String.length alphabet) alphabet).
Fixpoint draw_string (alphabet : string) (draws : list nat) : string :=
  match draws with [] => EmptyString | i :: rest => String (pick alphabet i) (draw_string alphabet rest) end.
Definition generate_random_key (draw : nat -> nat) : string := draw_string CHARSET (draw <$> seq 0 12).

Definition revoke_key (key : string) (s : QRCodeService) : result unit ServerError * QRCodeService :=
  match qs_storage s !! key with
  | None => (Err (NotFound "QR Key 不存在"), s)
  | Some r => (Ok tt, mkQr (<[key := with_revoked r]> (qs_storage s)) (qs_target_index s) (qs_scan_logs s))
  end.
Definition revoke_by_target (target : string) (s : QRCodeService) : result string ServerError * QRCodeService :=
  match qs_target_index s !! target with
  | Some key =>
      match qs_storage s !! key with
      | Some r => (Ok key, mkQr (<[key := with_revoked r]> (qs_storage s)) (delete target (qs_target_index s)) (qs_scan_logs s))
      | None => (Err (NotFound "未找到该目标的 QR Key"), s)
      end
  | None => (Err (NotFound "未找到该目标的 QR Key"), s)
  end.

(** chrono's [Utc::now() + Duration::seconds(s)]. *)
Context (add_seconds : Z -> Z -> option Z).

Definition generate (now : Z) (draw : nat -> nat) (ty : QRType) (target creator : string) (o : QRKeyOptions) (s : QRCodeService)
    : option QRKeyRecord * QRCodeService :=
  let s1 := if qo_revoke_old o then (revoke_by_target target s).2 else s in
  let key := generate_random_key draw in
  match match qo_expire_seconds o with Some n => Some <$> add_seconds now n | None => Some None end with
  | None => (None, s1)
  | Some expire =>
      let r := mkKey key ty target creator now expire (if qo_one_time o then Some 1 else qo_max_usage o) 0 false (qo_metadata o) in
      (Some r, mkQr (<[key := r]> (qs_storage s1)) (<[target := key]> (qs_target_index s1)) (qs_scan_logs s1))
  end.

Definition log_scan (now : Z) (key scanner : string) (error : option string) (s : QRCodeService) : QRCodeService :=
  mkQr (qs_storage s) (qs_target_index s)
    (qs_scan_logs s ++ [mkScan key scanner now (match error with None => true | Some _ => false end) error]).

(** The checks of [resolve], in their order: the error and the text of the log. *)
Definition resolve_gate (now : Z) (token : option string) (r : QRKeyRecord) : option (ServerError * string) :=
  if qk_revoked r then Some (BadRequest "QR Key 已被撤销", "QR Key 已被撤销"%string)
  else if key_expired now r then Some (BadRequest "QR Key 已过期", "QR Key 已过期"%string)
  else if is_usage_exceeded r then Some (BadRequest "QR Key 使用次数已达上限", "QR Key 使用次数已达上限"%string)
  else if decide (qk_type r = QrGroup) then
    match metadata_token (qk_metadata r) with
    | Some expected => if decide (token = Some expected) then None else Some (Unauthorized "Token 验证失败", "Token 验证失败"%string)
    | None => None
    end
  else None.
Definition resolve (now : Z) (key : string) (scanner : Z) (token : option string) (s : QRCodeService)
    : result QRKeyRecord ServerError * QRCodeService :=
  match qs_storage s !! key with
  | None => (Err (NotFound "QR Key 不存在或已失效"), s)
  | Some r =>
      match resolve_gate now token r with
      | Some (e, text) => (Err e, log_scan now key (u64_to_string scanner) (Some text) s)
      | None =>
          let r' := with_used (as_i32 (qk_used_count r + 1)) r in
          (Ok r', log_scan now key (u64_to_string scanner) None
                    (mkQr (<[key := r']> (qs_storage s)) (qs_target_index s) (qs_scan_logs s)))
      end
  end.

Definition refresh_key (now : Z) (draw : nat -> nat) (target : string) (ty : QRType) (creator : string) (s : QRCodeService)
    : option (string * string) * QRCodeService :=
  let '(old, s1) := revoke_by_target target s in
  let '(r, s2) := generate now draw ty target creator key_options_default s1 in
  ((fun r => (match old with Ok k => k | Err _ => EmptyString end, qk_key r)) <$> r, s2).

Definition qr_get (key : string) (s : QRCodeService) : option QRKeyRecord := qs_storage s !! key.
Definition get_by_target (target : string) (s : QRCodeService) : option QRKeyRecord :=
  key ← qs_target_index s !! target; qs_storage s !! key.
Definition list_by_creator (creator : string) (include_revoked : bool) (s : QRCodeService) : list QRKeyRecord :=
  filter (fun r => qk_creator_id r = creator /\ (include_revoked = true \/ qk_revoked r = false)) (map_to_list (qs_storage s)).*2.
Definition get_scan_logs (key : string) (s : QRCodeService) : list QRScanLog := filter (fun l => sl_key l = key) (qs_scan_logs s).
End Records.

(** ** The handlers of rpc/qrcode *)
Section Handlers.
Context `{QM : QrMetadata, Pj : PermissionColumn, Pg : Postgres, Ch : Chrono}.
Context (add_seconds : Z -> Z -> option Z).

Record GenerateBody := mkGenerate {
  gb_qr_type : option string; gb_target_id : option string; gb_expire_seconds : option Z; gb_max_usage : option Z;
  gb_one_time : option bool; gb_revoke_old : option bool; gb_metadata : option Metadata
}.

Definition required (o : option string) (name : string) : result string RpcError := ok_or o (rpc_validation (name +:+ " is required")).
Definition qr_type_of (s : string) : result QRType RpcError := ok_or (qr_type_from_str s) (rpc_validation ("无效的 qr_type: " +:+ s)).

(** [is_member_of_any] of one group. *)
Definition may_generate (f : Io) (now sync : Z) (ty : QRType) (target : string) (uid : Z) (st : State) : result unit RpcError * State :=
  match ty with
  | QrUser => (if decide (target = u64_to_string uid) then Ok tt else Err (rpc_forbidden "cannot create a user QR code for another user"), st)
  | QrGroup =>
      match parse_u64 target with
      | None => (Err (rpc_validation "target_id must be a group id"), st)
      | Some gid =>
          let '(r, st') := is_channel_member f now sync gid uid st in
          (match r with
           | Err e => Err (rpc_internal ("校验群成员失败: " +:+ server_error_display e))
           | Ok true => Ok tt
           | Ok false => Err (rpc_forbidden "only group members can create a group QR code")
           end, st')
      end
  | QrAuth | QrFeature => (Ok tt, st)
  end.

(** qrcode/generate. *)
Definition handle_generate (f : Io) (now sync : Z) (draw : nat -> nat) (ctx : RpcContext) (b : GenerateBody) (st : State) (s : QRCodeService)
    : option (result QRKeyRecord RpcError) * State * QRCodeService :=
  match (let? ts := required (gb_qr_type b) "qr_type" in let? ty := qr_type_of ts in
         let? target := required (gb_target_id b) "target_id" in let? uid := get_current_user_id ctx in Ok (ty, target, uid)) with
  | Err e => (Some (Err e), st, s)
  | Ok (ty, target, uid) =>
      match may_generate f now sync ty target uid st with
      | (Err e, st') => (Some (Err e), st', s)
      | (Ok tt, st') =>
          let o := mkKeyOptions (gb_expire_seconds b) (as_i32 <$> gb_max_usage b) (default true (gb_revoke_old b))
                     (default false (gb_one_time b)) (default metadata_empty (gb_metadata b)) in
          let '(r, s') := generate add_seconds now draw ty target (u64_to_string uid) o s in
          (Ok <$> r, st', s')
      end
  end.

(** qrcode/refresh. *)
Definition handle_qr_refresh (now : Z) (draw : nat -> nat) (ctx : RpcContext) (qr_type target_id : option string) (s : QRCodeService)
    : option (result (string * string * string) RpcError) * QRCodeService :=
  match (let? ts := required qr_type "qr_type" in let? ty := qr_type_of ts in
         let? target := required target_id "target_id" in let? uid := get_current_user_id ctx in Ok (ty, target, uid)) with
  | Err e => (Some (Err e), s)
  | Ok (ty, target, uid) =>
      let '(r, s') := refresh_key add_seconds now draw target ty (u64_to_string uid) s in
      ((fun p : string * string =>
          match qr_get p.2 s' with
          | Some n => Ok (p.1, p.2, to_qr_code_string n)
          | None => Err (rpc_internal "无法获取新的 QR Key")
          end) <$> r, s')
  end.

(** qrcode/revoke. *)
Definition handle_revoke (ctx : RpcContext) (qr_key : option string) (s : QRCodeService) : result string RpcError * QRCodeService :=
  match (let? key := required qr_key "qr_key" in let? uid := get_current_user_id ctx in
         let? r := ok_or (qr_get key s) (rpc_not_found "QR Key 不存在") in
         guard? bool_decide (qk_creator_id r = u64_to_string uid) else rpc_not_found "QR Key 不存在" in Ok key) with
  | Err e => (Err e, s)
  | Ok key =>
      let '(r, s') := revoke_key key s in
      (match r with
       | Ok _ => Ok key
       | Err (NotFound m) => Err (rpc_not_found (server_error_display (NotFound m)))
       | Err e => Err (rpc_internal ("撤销 QR 码失败: " +:+ server_error_display e))
       end, s')
  end.

(** qrcode/list. *)
Definition handle_list (ctx : RpcContext) (include_revoked : option bool) (s : QRCodeService) : result (list QRKeyRecord) RpcError :=
  let? uid := get_current_user_id ctx in Ok (list_by_creator (u64_to_string uid) (default false include_revoked) s).

Definition resolve_error (e : ServerError) : RpcError :=
  match e with
  | NotFound _ => rpc_not_found (server_error_display e)
  | BadRequest _ => rpc_validation (server_error_display e)
  | Unauthorized _ => rpc_unauthorized (server_error_display e)
  | _ => rpc_internal ("解析 QR 码失败: " +:+ server_error_display e)
  end.

(** What a scan shows: the suggested action, and the group it leads to. *)
Record ResolveReply := mkResolve { rr_record : QRKeyRecord; rr_action : string; rr_group : option Channel }.

(** qrcode/resolve. The scan is counted before the target is looked at. *)
Definition handle_resolve (f : Io) (now sync : Z) (up : bool) (fault : option string) (users : user_table) (ctx : RpcContext)
    (qr_key token : option string) (c : profile_cache) (st : State) (s : QRCodeService)
    : result ResolveReply RpcError * profile_cache * State * QRCodeService :=
  match (let? key := required qr_key "qr_key" in let? uid := get_current_user_id ctx in Ok (key, uid)) with
  | Err e => (Err e, c, st, s)
  | Ok (key, uid) =>
      match resolve now key uid token s with
      | (Err e, s') => (Err (resolve_error e), c, st, s')
      | (Ok r, s') =>
          match qk_type r with
          | QrUser =>
              match parse_u64 (qk_target_id r) with
              | Some target =>
                  if decide (target = uid) then (Ok (mkResolve r "show_profile" None), c, st, s')
                  else
                    let '(g, c') := ensure_reachable_user up fault users target
                                      (rpc_not_found (server_error_display (NotFound "QR Key 不存在或已失效"))) c in
                    (let? _ := g in Ok (mkResolve r "show_profile" None), c', st, s')
              | None => (Ok (mkResolve r "show_profile" None), c, st, s')
              end
          | QrGroup =>
              match parse_u64 (qk_target_id r) with
              | None => (Err (rpc_validation ("Invalid group_id in QR code: " +:+ qk_target_id r)), c, st, s')
              | Some gid =>
                  let '(o, st') := get_channel f 0 now sync gid st in
                  (match o with
                   | Ok ch => Ok (mkResolve r "show_group" (Some ch))
                   | Err e => Err (rpc_not_found ("群组不存在: " +:+ server_error_display e))
                   end, c, st', s')
              end
          | QrAuth => (Ok (mkResolve r "confirm_login" None), c, st, s')
          | QrFeature => (Ok (mkResolve r "handle_feature" None), c, st, s')
          end
      end
  end.
End Handlers.

(** ** The permanent card key of a user *)
Section Cards.
(** The texts of sqlx: a violated unique index, and a NULL read as a text. *)
Context (violation_text null_text : string).

Definition QR_KEY_LEN : nat := 16.
Definition QR_KEY_ALPHABET : string := "ABCDEFGHIJKLMNOPQRSTUVWXYZabcdefghijklmnopqrstuvwxyz0123456789".
Definition QR_KEY_MAX_GENERATION_RETRIES : nat := 5.
Definition generate_qr_key (draw : nat -> nat) : string := draw_string QR_KEY_ALPHABET (draw <$> seq 0 QR_KEY_LEN).

Definition with_qr_key (k : string) (u : User) : User :=
  mkUser (u_id u) (u_username u) (u_phone u) (u_display_name u) (u_email u) (u_avatar_url u) (u_type u) k (u_sync_version u).

(** user/qrcode/get. *)
Definition handle_card_get (fault : option string) (ctx : RpcContext) (t : user_table) : result (string * Z) RpcError :=
  let? uid := get_current_user_id ctx in
  match fault with
  | Some e => Err (rpc_internal ("读取 qr_key 失败: " +:+ e))
  | None => let? u := ok_or (t !! as_i64 uid) (rpc_not_found "用户不存在") in Ok (u_qr_key u, uid)
  end.

(** The loop of user/qrcode/refresh from attempt [i] on: a candidate another user has
    breaks the unique index and is drawn again; another failure ends the loop. *)
Fixpoint rotate_key (n i : nat) (db : faults) (draws : nat -> nat -> nat) (uid : Z) (t : user_table) : result string RpcError * user_table :=
  match n with
  | O => (Err (rpc_internal ("qr_key UNIQUE 冲突重试 5 次仍失败: " +:+ violation_text)), t)
  | S n' =>
      let k := generate_qr_key (draws i) in
      match db i with
      | Some e => (Err (rpc_internal ("UPDATE qr_key failed: " +:+ e)), t)
      | None =>
          if existsb (fun p : Z * User => bool_decide (u_qr_key p.2 = k /\ p.1 <> as_i64 uid)) (map_to_list t)
          then rotate_key n' (S i) db draws uid t
          else (Ok k, alter (with_qr_key k) (as_i64 uid) t)
      end
  end.
(** user/qrcode/refresh. *)
Definition handle_card_refresh (fault : option string) (db : faults) (draws : nat -> nat -> nat) (ctx : RpcContext) (t : user_table)
    : result (string * string * Z) RpcError * user_table :=
  match get_current_user_id ctx with
  | Err e => (Err e, t)
  | Ok uid =>
      match fault, t !! as_i64 uid with
      | Some e, _ => (Err (rpc_internal ("读取旧 qr_key 失败: " +:+ e)), t)
      | None, None => (Err (rpc_not_found "用户不存在"), t)
      | None, Some u =>
          let '(r, t') := rotate_key QR_KEY_MAX_GENERATION_RETRIES 0 db draws uid t in
          (let? k := r in Ok (u_qr_key u, k, uid), t')
      end
  end.

(** The smallest card of a user: user/qrcode/resolve. *)
Record CardReply := mkCard { cr_user_id : Z; cr_username : string; cr_display_name : option string; cr_avatar_url : option string;
                             cr_user_type : Z; cr_is_friend : bool; cr_is_self : bool }.
Definition handle_card_resolve (fault : option string) (db : faults) (ctx : RpcContext) (qr_key : string) (t : user_table) (friends : FriendTable)
    : result CardReply RpcError :=
  let? operator := get_current_user_id ctx in
  if decide (qr_key = EmptyString) then Err (rpc_validation "qr_key is required")
  else match fault with
       | Some e => Err (rpc_internal ("解析名片码失败: " +:+ e))
       | None =>
           let? u := ok_or (head (rows_where (fun u => bool_decide (u_qr_key u = qr_key)) t)) (rpc_not_found "名片码无效或已被旋转") in
           let? name := ok_or (u_username u) (rpc_internal ("解析名片码失败: " +:+ null_text)) in
           let is_self := bool_decide (u_id u = operator) in
           if negb is_self && is_unreachable_user_type (u_type u) then Err (rpc_not_found "名片码无效或已被旋转")
           else Ok (mkCard (u_id u) name (u_display_name u) (u_avatar_url u) (u_type u)
                      (if is_self then true else is_friend db 0%nat friends operator (u_id u)) is_self)
       end.
End Cards.
