(* ===== verification/Profile.v ===== *)
(** * Who sees a profile, and who may ask to become a friend

    Models the access decisions of src/src/service/privacy_service.rs, the records of
    src/src/model/privacy.rs with their caches (src/src/infra/cache_manager.rs), and the
    handlers src/src/rpc/account/user/detail.rs, share_card.rs,
    src/src/rpc/account/search/query.rs, by_qrcode.rs, src/src/rpc/account/privacy/ and
    src/src/rpc/contact/friend/apply.rs.

    A viewer names where it met the other user (a search, a group, a conversation, a card,
    a QR code); the server checks that source and hands out a grant, with which the viewer
    may apply for friendship. A request reads the clock once ([en_now]), its queries and
    Redis accesses are numbered, and any of them may fail. The announcements after a
    request is stored (pushes, an event on the bus, invalidations) are not part of it. *)

From stdpp Require Import base numbers gmap list sorting strings.
From S2P Require Import Prelude Channel Friend SendAuth Timeline Submit Group GroupService Users QrCode.
Import Blacklist Friends.
Local Open Scope Z_scope.

(** ** Records of model/privacy.rs *)
Inductive SearchType := ByPhone | ByUsername | ByEmail | ByQrcode.
#[export] Instance search_type_eq_dec : EqDecision SearchType.
Proof. solve_decision. Defined.

Definition allows_search (p : UserPrivacySettings) (t : SearchType) : bool :=
  match t with
  | ByPhone => allow_search_by_phone p
  | ByUsername => allow_search_by_username p
  | ByEmail => allow_search_by_email p
  | ByQrcode => allow_search_by_qrcode p
  end.

Inductive UserDetailSource :=
| FromSearch (search_session_id : Z) | FromGroup (group_id : Z) | FromFriend (friend_id : option Z)
| FromCardShare (share_id : Z) | FromConversation (channel_id : Z) | FromQrcode (qr_key : string) | SelfProfile.

Definition minute_ns : Z := 60 * 10 ^ 9.
Definition hour_ns : Z := 60 * minute_ns.

Record SearchRecord := mkSearch {
  sr_session_id : Z; sr_searcher_id : Z; sr_target_id : Z; sr_hit_by : option SearchType; sr_created_at : Z; sr_expires_at : Z
}.
Definition search_record_new (now sid searcher target : Z) (hit : option SearchType) : SearchRecord :=
  mkSearch sid searcher target hit now (now + hour_ns).
Definition search_expired (now : Z) (r : SearchRecord) : bool := sr_expires_at r <? now.

Record CardShareRecord := mkShare {
  cs_share_id : Z; cs_sharer_id : Z; cs_target_user_id : Z; cs_receiver_id : Z; cs_created_at : Z;
  cs_used : bool; cs_used_at : option Z; cs_used_by : option Z
}.
Definition card_share_new (now sid sharer target receiver : Z) : CardShareRecord := mkShare sid sharer target receiver now false None None.
Definition mark_as_used (now uid : Z) (r : CardShareRecord) : CardShareRecord :=
  mkShare (cs_share_id r) (cs_sharer_id r) (cs_target_user_id r) (cs_receiver_id r) (cs_created_at r) true (Some now) (Some uid).

Record ProfileViewGrant := mkGrant {
  pg_grant_id : Z; pg_viewer_id : Z; pg_target_id : Z; pg_source_type : string; pg_source_id : string;
  pg_can_add_friend : bool; pg_deny_reason : option string; pg_username_unlocked : bool; pg_created_at : Z; pg_expires_at : Z
}.
Definition GRANT_TTL_MINUTES : Z := 10.
Definition grant_new (now gid viewer target : Z) (source_type source_id : string) (can_add : bool) (deny : option string) (unlocked : bool) : ProfileViewGrant :=
  mkGrant gid viewer target source_type source_id can_add deny unlocked now (now + GRANT_TTL_MINUTES * minute_ns).
Definition grant_expired (now : Z) (g : ProfileViewGrant) : bool := pg_expires_at g <? now.

(** ** The protocol crate's names of sources *)
Inductive DetailSourceType :=
| DsSearch | DsGroup | DsFriend | DsCardShare | DsQrcode | DsFriendPending | DsConversation | DsSelfProfile.
Class DetailSourceCodec := { detail_source_type : string -> option DetailSourceType }.

Section Profile.
Context `{QM : QrMetadata, PC : PrivacyColumn, Pj : PermissionColumn, Pg : Postgres, Ch : Chrono, DC : DetailSourceCodec}.
(** [LOWER] of the database, and [str::to_lowercase]. *)
Context (pg_lower to_lowercase : string -> string).

(** ** State *)
Record Tables := mkTables {
  tb_users : user_table; tb_friends : FriendTable; tb_blacklist : blacklist_table; tb_privacy : gmap Z PrivacyJson;
  tb_follows : follow_table; tb_username_searchable : option bool
}.
Record ProfileWorld := mkProfiles {
  pw_tables : Tables;
  pw_state : State;
  pw_profiles : profile_cache;
  pw_searches : Tiers Z SearchRecord;
  pw_cards : Tiers Z CardShareRecord;
  pw_grants : gmap Z ProfileViewGrant;
  pw_qr : QRCodeService;
  pw_qr_index : Tiers string Z;
  pw_platform : bool * bool
}.
Definition set_tables (w : ProfileWorld) x := mkProfiles x (pw_state w) (pw_profiles w) (pw_searches w) (pw_cards w) (pw_grants w) (pw_qr w) (pw_qr_index w) (pw_platform w).
Definition set_state (w : ProfileWorld) x := mkProfiles (pw_tables w) x (pw_profiles w) (pw_searches w) (pw_cards w) (pw_grants w) (pw_qr w) (pw_qr_index w) (pw_platform w).
Definition set_profiles (w : ProfileWorld) x := mkProfiles (pw_tables w) (pw_state w) x (pw_searches w) (pw_cards w) (pw_grants w) (pw_qr w) (pw_qr_index w) (pw_platform w).
Definition set_searches (w : ProfileWorld) x := mkProfiles (pw_tables w) (pw_state w) (pw_profiles w) x (pw_cards w) (pw_grants w) (pw_qr w) (pw_qr_index w) (pw_platform w).
Definition set_cards (w : ProfileWorld) x := mkProfiles (pw_tables w) (pw_state w) (pw_profiles w) (pw_searches w) x (pw_grants w) (pw_qr w) (pw_qr_index w) (pw_platform w).
Definition set_grants (w : ProfileWorld) x := mkProfiles (pw_tables w) (pw_state w) (pw_profiles w) (pw_searches w) (pw_cards w) x (pw_qr w) (pw_qr_index w) (pw_platform w).
Definition set_qr (w : ProfileWorld) x := mkProfiles (pw_tables w) (pw_state w) (pw_profiles w) (pw_searches w) (pw_cards w) (pw_grants w) x (pw_qr_index w) (pw_platform w).
Definition set_qr_index (w : ProfileWorld) x := mkProfiles (pw_tables w) (pw_state w) (pw_profiles w) (pw_searches w) (pw_cards w) (pw_grants w) (pw_qr w) x (pw_platform w).
Definition set_platform (w : ProfileWorld) x := mkProfiles (pw_tables w) (pw_state w) (pw_profiles w) (pw_searches w) (pw_cards w) (pw_grants w) (pw_qr w) (pw_qr_index w) x.

(** What a request draws from outside: the clock, the sync stamp of a loaded channel, the
    next id, the failing queries, whether Redis answers, the faults of channel loads. *)
Record Env := mkEnv { en_now : Z; en_sync : Z; en_id : Z; en_db : faults; en_up : nat -> bool; en_io : Io }.

(** Fallible code over the world. *)
Definition Act (E A : Type) := ProfileWorld -> result A E * ProfileWorld.
Definition ret {E A} (a : A) : Act E A := fun w => (Ok a, w).
Definition raise {E A} (e : E) : Act E A := fun w => (Err e, w).
Definition lift {E A} (r : result A E) : Act E A := fun w => (r, w).
Definition reads {E A} (f : ProfileWorld -> result A E) : Act E A := fun w => (f w, w).
Definition bind {E A B} (m : Act E A) (k : A -> Act E B) : Act E B :=
  fun w => match m w with (Ok a, w') => k a w' | (Err e, w') => (Err e, w') end.
Definition or_else {E F A} (m : Act E A) (g : E -> F) : Act F A :=
  fun w => match m w with (Ok a, w') => (Ok a, w') | (Err e, w') => (Err (g e), w') end.
Local Notation "'do!' x ':=' m 'in' k" := (bind m (fun x => k)) (at level 10, x pattern, m at level 100, k at level 200).

(** ** Caches *)
(** [Option::filter]. *)
Definition keep {A} (P : A -> bool) (o : option A) : option A := a ← o; if P a then Some a else None.
Definition create_search_record (e : Env) (i : nat) (searcher target : Z) (hit : option SearchType) : Act ServerError SearchRecord := fun w =>
  let r := search_record_new (en_now e) (en_id e) searcher target hit in
  (Ok r, set_searches w (tiers_set (en_up e i) (sr_session_id r) r (pw_searches w))).
Definition get_search_record (e : Env) (i : nat) (sid : Z) : Act ServerError (option SearchRecord) := fun w =>
  let t := pw_searches w in
  match keep (fun r => negb (search_expired (en_now e) r)) (t_l1 t !! sid) with
  | Some r => (Ok (Some r), w)
  | None =>
      match keep (fun r => negb (search_expired (en_now e) r)) (get_from_redis (en_up e i) sid (t_l2 t)) with
      | Some r => (Ok (Some r), set_searches w (mkTiers (<[sid := r]> (t_l1 t)) (t_l2 t)))
      | None => (Ok None, w)
      end
  end.
Definition save_profile_view_grant (e : Env) (i : nat) (g : ProfileViewGrant) : Act ServerError unit := fun w =>
  (Ok tt, set_grants w (set_to_redis (en_up e i) (pg_grant_id g) g (pw_grants w))).
Definition get_profile_view_grant (e : Env) (i : nat) (gid : Z) : Act ServerError (option ProfileViewGrant) :=
  reads (fun w => Ok (keep (fun g => negb (grant_expired (en_now e) g)) (get_from_redis (en_up e i) gid (pw_grants w)))).
Definition create_card_share (e : Env) (i : nat) (sharer target receiver : Z) : Act ServerError CardShareRecord := fun w =>
  let r := card_share_new (en_now e) (en_id e) sharer target receiver in
  (Ok r, set_cards w (tiers_set (en_up e i) (cs_share_id r) r (pw_cards w))).
Definition get_card_share (e : Env) (i : nat) (sid : Z) : Act ServerError (option CardShareRecord) := fun w =>
  let '(o, t) := tiers_get (en_up e i) sid (pw_cards w) in (Ok o, set_cards w t).
Definition mark_card_share_as_used (e : Env) (i : nat) (sid uid : Z) : Act ServerError unit :=
  do! o := get_card_share e i sid in
  match o with
  | None => raise (NotFound ("Card share not found: " +:+ u64_to_string sid))
  | Some r => fun w => (Ok tt, set_cards w (tiers_set (en_up e (S i)) sid (mark_as_used (en_now e) uid r) (pw_cards w)))
  end.
Definition find_user_by_qrcode (e : Env) (i : nat) (key : string) : Act ServerError (option Z) := fun w =>
  let '(o, t) := tiers_get (en_up e i) key (pw_qr_index w) in (Ok o, set_qr_index w t).
Definition set_qrcode_index (e : Env) (i : nat) (key : string) (uid : Z) : Act ServerError unit := fun w =>
  (Ok tt, set_qr_index w (tiers_set (en_up e i) key uid (pw_qr_index w))).

(** ** The services consulted *)
Definition privacy (e : Env) (i : nat) (uid : Z) : Act ServerError UserPrivacySettings :=
  reads (fun w => privacy_of (en_now e) (en_db e i) (tb_privacy (pw_tables w)) uid).
Definition friends (e : Env) (i : nat) (a b : Z) : Act ServerError bool := reads (fun w => try_is_friend (en_db e) i (tb_friends (pw_tables w)) a b).
Definition friends_or_not (e : Env) (i : nat) (a b : Z) (w : ProfileWorld) : bool := is_friend (en_db e) i (tb_friends (pw_tables w)) a b.
(** [check_mutual_block(..).unwrap_or((false, false))]. *)
Definition blocks_or_none (e : Env) (i : nat) (a b : Z) (w : ProfileWorld) : bool * bool :=
  match check_mutual_block (fun _ => en_db e i) (tb_blacklist (pw_tables w)) a b with Ok p => p | Err _ => (false, false) end.
Definition load_channel (e : Env) (i : nat) (cid : Z) : Act ServerError Channel := fun w =>
  let '(r, st) := get_channel (en_io e) i (en_now e) (en_sync e) cid (pw_state w) in (r, set_state w st).
Definition group_lets_add (e : Env) (i : nat) (gid : Z) (w : ProfileWorld) : bool :=
  match get_group_policy (fun _ => en_db e i) (g_policy <$> d_groups (st_db (pw_state w))) gid with
  | Ok (Some p) => gp_allow_member_add_friend p
  | _ => true
  end.
Definition reachable_user (e : Env) (i : nat) (uid : Z) (not_found : RpcError) : Act RpcError unit := fun w =>
  let '(r, c) := ensure_reachable_user (en_up e i) (en_db e i) (tb_users (pw_tables w)) uid not_found (pw_profiles w) in (r, set_profiles w c).

Definition platform_username_searchable (e : Env) (i : nat) (w : ProfileWorld) : bool * ProfileWorld :=
  let '(v, loaded) := pw_platform w in
  if loaded then (v, w)
  else let v' := match en_db e i with Some _ => v | None => default v (tb_username_searchable (pw_tables w)) end in
       (v', set_platform w (v', true)).
Definition set_platform_username_searchable (e : Env) (enabled : bool) : Act ServerError unit := fun w =>
  match en_db e 0%nat with
  | Some m => (Err (Database ("persist platform privacy setting: " +:+ m)), w)
  | None =>
      let t := pw_tables w in
      (Ok tt, set_platform (set_tables w (mkTables (tb_users t) (tb_friends t) (tb_blacklist t) (tb_privacy t) (tb_follows t) (Some enabled))) (enabled, true))
  end.

(** ** The access decision *)
Record DetailAccessVerdict := mkVerdict { dv_is_friend : bool; dv_can_add_friend : bool; dv_deny_reason : option string; dv_username_unlocked : bool }.
Definition viewable_and_addable : DetailAccessVerdict := mkVerdict false true None false.
Definition view_only (reason : string) : DetailAccessVerdict := mkVerdict false false (Some reason) false.
Definition addable_if (b : bool) : DetailAccessVerdict := if b then viewable_and_addable else view_only "personal_privacy".
Definition allowed_by_record (p : UserPrivacySettings) (r : SearchRecord) : bool :=
  match sr_hit_by r with
  | Some t => allows_search p t
  | None => allow_search_by_username p || allow_search_by_phone p || allow_search_by_email p
  end.

Definition check (b : bool) (e : ServerError) : Act ServerError unit := lift (if b then Ok tt else Err e).
Definition evaluate_search_source (e : Env) (searcher target sid : Z) : Act ServerError DetailAccessVerdict :=
  do! o := get_search_record e 0 sid in
  do! r := lift (ok_or o (NotFound ("Search record not found: " +:+ u64_to_string sid))) in
  do! _ := check (sr_searcher_id r =? searcher) (Forbidden "Search record does not belong to this user") in
  do! _ := check (sr_target_id r =? target) (Forbidden "Search record target does not match") in
  do! _ := check (negb (search_expired (en_now e) r)) (Forbidden "Search record has expired") in
  do! p := privacy e 1 target in
  do! _ := check (allowed_by_record p r) (Forbidden "User does not allow being searched") in
  ret (mkVerdict false true None (bool_decide (sr_hit_by r = Some ByUsername))).

Definition evaluate_qrcode_source (e : Env) (target : Z) (key : string) : Act ServerError DetailAccessVerdict :=
  do! r := reads (fun w => ok_or (qr_get key (pw_qr w)) (Forbidden "QR key not found")) in
  do! _ := check (negb (qk_revoked r)) (Forbidden "QR key has been revoked") in
  do! _ := check (match qk_expire_at r with Some t => en_now e <? t | None => true end) (Forbidden "QR key has expired") in
  do! _ := check (bool_decide (qk_type r = QrUser)) (Forbidden "QR key is not a user card") in
  do! _ := check (bool_decide (qk_target_id r = u64_to_string target)) (Forbidden "QR key does not point to this user") in
  do! p := privacy e 1 target in
  ret (addable_if (allows_search p ByQrcode)).

Definition not_in (what : string) (uid cid : Z) : ServerError :=
  Forbidden ("User " +:+ u64_to_string uid +:+ " is not a member of " +:+ what +:+ " " +:+ u64_to_string cid).
Definition both_members (what : string) (c : Channel) (searcher target cid : Z) : Act ServerError unit :=
  do! _ := check (bool_decide (is_Some (members c !! searcher))) (not_in what searcher cid) in
  check (bool_decide (is_Some (members c !! target))) (not_in what target cid).
Definition privileged_in (c : Channel) (uid : Z) : bool :=
  match members c !! uid with Some m => is_privileged (role m) | None => false end.
Definition evaluate_group_source (e : Env) (i : nat) (searcher target gid : Z) : Act ServerError DetailAccessVerdict :=
  do! c := load_channel e i gid in
  do! _ := both_members "group" c searcher target gid in
  do! open := reads (fun w => Ok (group_lets_add e 2 gid w)) in
  if negb open && negb (privileged_in c searcher) && negb (privileged_in c target) then ret (view_only "group_policy")
  else do! p := privacy e 1 target in ret (addable_if (allow_add_by_group p)).

Definition validate_card_share_source (e : Env) (searcher target sid : Z) : Act ServerError unit :=
  do! o := get_card_share e 0 sid in
  do! r := lift (ok_or o (NotFound ("Card share record not found: " +:+ u64_to_string sid))) in
  do! _ := check (cs_receiver_id r =? searcher) (Forbidden "Card share record does not belong to this user") in
  do! _ := check (cs_target_user_id r =? target) (Forbidden "Card share record target does not match") in
  check (negb (cs_used r)) (Forbidden "Card share record has already been used").

Definition evaluate_conversation_source (e : Env) (searcher target cid : Z) : Act ServerError DetailAccessVerdict :=
  do! c := load_channel e 0 cid in
  if decide (channel_type c = Group) then evaluate_group_source e 10 searcher target cid
  else do! _ := both_members "channel" c searcher target cid in ret viewable_and_addable.

Definition evaluate_detail_access (e : Env) (searcher target : Z) (source : UserDetailSource) : Act ServerError DetailAccessVerdict :=
  if searcher =? target then ret (mkVerdict false false (Some "self") true)
  else
    do! f := friends e 3 searcher target in
    if (f : bool) then ret (mkVerdict true false (Some "already_friend") true)
    else match source with
         | SelfProfile => raise (Forbidden "Self source claimed but searcher is not the target")
         | FromSearch sid => evaluate_search_source e searcher target sid
         | FromQrcode key => evaluate_qrcode_source e target key
         | FromGroup gid => evaluate_group_source e 0 searcher target gid
         | FromFriend _ => raise (Forbidden "Friend source claimed but users are not friends")
         | FromCardShare sid =>
             do! _ := validate_card_share_source e searcher target sid in
             do! p := privacy e 1 target in
             ret (addable_if (allow_add_by_card p))
         | FromConversation cid => evaluate_conversation_source e searcher target cid
         end.

(** ** account/user/detail *)
Definition id_of (name text : string) : result Z RpcError := ok_or (parse_u64 text) (rpc_validation ("Invalid " +:+ name +:+ ": " +:+ text)).
Definition detail_source (ty : DetailSourceType) (source_id : string) : result UserDetailSource RpcError :=
  match ty with
  | DsSearch => let? i := id_of "search_session_id" source_id in Ok (FromSearch i)
  | DsGroup => let? i := id_of "group_id" source_id in Ok (FromGroup i)
  | DsFriend => let? i := id_of "friend_id" source_id in Ok (FromFriend (Some i))
  | DsCardShare => let? i := id_of "share_id" source_id in Ok (FromCardShare i)
  | DsQrcode => Ok (FromQrcode source_id)
  | DsFriendPending => Ok (FromFriend None)
  | DsConversation => let? i := id_of "channel_id" source_id in Ok (FromConversation i)
  | DsSelfProfile => Ok SelfProfile
  end.

(** Whether the answer says that the viewer can write to the user. *)
Definition may_write (e : Env) (i : nat) (is_friend : bool) (viewer target : Z) (w : ProfileWorld) : bool :=
  if is_friend then true
  else
    let '(a, b) := blocks_or_none e i viewer target w in
    if b || a then false
    else match privacy_of (en_now e) (en_db e (S i)) (tb_privacy (pw_tables w)) target with
         | Ok p => allow_receive_message_from_non_friend p
         | Err _ => true
         end.
Definition follows (e : Env) (i : nat) (viewer target ty : Z) (w : ProfileWorld) : bool :=
  if ty =? 2 then is_followed_by (en_db e i) (tb_follows (pw_tables w)) viewer target else false.

Record DetailReply := mkDetail {
  dr_user_id : Z; dr_username : string; dr_nickname : string; dr_avatar_url : option string; dr_phone : option string;
  dr_email : option string; dr_user_type : Z; dr_is_friend : bool; dr_can_send_message : bool; dr_can_add_friend : bool;
  dr_deny_reason : option string; dr_grant_id : Z; dr_is_follow : bool; dr_sync_version : Z
}.

Definition fresh_profile (e : Env) (i : nat) (uid : Z) : Act RpcError (UserProfile * Z) := fun w =>
  let '(r, c) := get_user_profile_fresh_versioned (en_up e i) (en_db e i) (tb_users (pw_tables w)) uid (pw_profiles w) in
  (match r with
   | Ok (Some p) => Ok p
   | Ok None => Err (rpc_not_found ("User '" +:+ u64_to_string uid +:+ "' not found"))
   | Err _ => Err (rpc_internal "Database error")
   end, set_profiles w c).

(** The projection of a profile for a viewer, and the grant that goes with it. *)
Definition project (e : Env) (viewer target : Z) (v : DetailAccessVerdict) (p : UserProfile) (version : Z) (w : ProfileWorld) : DetailReply :=
  let uid := default target (parse_u64 (pf_user_id p)) in
  let is_self := viewer =? uid in
  let is_friend := friends_or_not e 6 viewer target w in
  let '(a, b) := blocks_or_none e 10 viewer target w in
  let blocked := a || b in
  mkDetail uid (if is_self || dv_is_friend v || dv_username_unlocked v then pf_username p else EmptyString) (pf_nickname p) (pf_avatar_url p)
    (if is_self then pf_phone p else None) (if is_self then pf_email p else None) (pf_user_type p)
    is_friend (may_write e 8 is_friend viewer target w)
    (negb is_self && negb blocked && dv_can_add_friend v)
    (if is_self then None else if blocked then Some "blacklist"%string else dv_deny_reason v)
    (en_id e) (follows e 7 viewer target (pf_user_type p) w) version.
Definition grant_of (e : Env) (viewer : Z) (source source_id : string) (v : DetailAccessVerdict) (r : DetailReply) : ProfileViewGrant :=
  grant_new (en_now e) (dr_grant_id r) viewer (dr_user_id r) source source_id (dr_can_add_friend r) (dr_deny_reason r) (dv_username_unlocked v).

Record DetailRequest := mkDetailReq { dq_target_user_id : Z; dq_source : string; dq_source_id : string }.
Definition not_found_user (uid : Z) : RpcError := rpc_not_found ("User '" +:+ u64_to_string uid +:+ "' not found").
(** Up to the grant: who may look, at what. *)
Definition view_profile (e : Env) (viewer : Z) (q : DetailRequest) : Act RpcError (DetailAccessVerdict * DetailReply) :=
  let target := dq_target_user_id q in
  do! _ := (if target =? viewer then ret tt else reachable_user e 4 target (not_found_user target)) in
  do! ty := lift (ok_or (detail_source_type (dq_source q)) (rpc_validation
    ("Invalid source type: " +:+ dq_source q +:+ ". Must be one of: search, group, friend, card_share, qrcode, friend_pending, conversation, self"))) in
  do! source := lift (detail_source ty (dq_source_id q)) in
  do! v := or_else (evaluate_detail_access e viewer target source) (fun er => rpc_forbidden ("Access denied: " +:+ server_error_display er)) in
  do! pv := fresh_profile e 5 target in
  do! r := reads (fun w => Ok (project e viewer target v pv.1 pv.2 w)) in
  ret (v, r).
Definition handle_detail (e : Env) (ctx : RpcContext) (q : DetailRequest) : Act RpcError DetailReply :=
  do! viewer := lift (get_current_user_id ctx) in
  do! vr := view_profile e viewer q in
  do! _ := or_else (save_profile_view_grant e 12 (grant_of e viewer (dq_source q) (dq_source_id q) vr.1 vr.2)) rpc_from in
  ret vr.2.

(** ** account/search *)
Record SearchedUser := mkSearched {
  su_user_id : Z; su_username : string; su_nickname : string; su_avatar_url : option string; su_user_type : Z;
  su_search_session_id : Z; su_is_friend : bool; su_can_send_message : bool; su_is_follow : bool
}.

(** The cascade: user name, id, phone, e-mail; a failing query counts as a miss. *)
Definition hit {A} (r : result (option A) string) : option A := match r with Ok o => o | Err _ => None end.
Definition cascade (e : Env) (searchable : bool) (raw : string) (t : user_table) : option (User * SearchType * option SearchType) :=
  let query := to_lowercase raw in
  match (if searchable then hit (find_by_username pg_lower (en_db e 0%nat) t query) else None) with
  | Some u => Some (u, ByUsername, Some ByUsername)
  | None =>
      match match parse_u64 raw with
            | Some uid => if 0 <? uid then hit (find_user_by_id (en_db e 1%nat) t uid) else None
            | None => None
            end with
      | Some u => Some (u, ByUsername, None)
      | None =>
          match hit (find_by_phone (en_db e 2%nat) t raw) with
          | Some u => Some (u, ByPhone, Some ByPhone)
          | None =>
              match hit (find_by_email pg_lower (en_db e 3%nat) t query) with
              | Some u => Some (u, ByEmail, Some ByEmail)
              | None => None
              end
          end
      end
  end.
Definition searched (e : Env) (searcher : Z) (u : User) (name : string) (sid : Z) (w : ProfileWorld) : SearchedUser :=
  let is_friend := friends_or_not e 6 searcher (u_id u) w in
  mkSearched (u_id u) name (default "" (u_display_name u))%string (u_avatar_url u) (u_type u) sid
    is_friend (may_write e 8 is_friend searcher (u_id u) w) (follows e 7 searcher (u_id u) (u_type u) w).
(** [get_or_create_privacy_settings(..).unwrap_or_else(|_| UserPrivacySettings::new(..))]. *)
Definition privacy_or_new (e : Env) (i : nat) (uid : Z) (t : Tables) : UserPrivacySettings :=
  match privacy_of (en_now e) (en_db e i) (tb_privacy t) uid with Ok p => p | Err _ => privacy_new (en_now e) uid end.
Definition handle_search (e : Env) (ctx : RpcContext) (query : string) : Act RpcError (list SearchedUser) :=
  do! searcher := lift (get_current_user_id ctx) in
  let raw := trim query in
  if decide (to_lowercase raw = EmptyString) then raise (rpc_validation "query cannot be empty")
  else
    do! searchable := (fun w => let '(b, w') := platform_username_searchable e 4 w in (Ok b, w')) in
    do! found := reads (fun w => Ok (cascade e searchable raw (tb_users (pw_tables w)))) in
    match found with
    | None => ret []
    | Some (u, ty, hit_by) =>
        if is_unreachable_user_type (u_type u) then ret []
        else
          do! p := reads (fun w => Ok (privacy_or_new e 5 (u_id u) (pw_tables w))) in
          if negb (allows_search p ty) then ret []
          else
            do! s := reads (fun w => Ok (searched e searcher u EmptyString 0 w)) in
            fun w =>
              match create_search_record e 5 searcher (u_id u) hit_by w with
              | (Ok r, w') =>
                  let name := if bool_decide (hit_by = Some ByUsername) || su_is_friend s then default "" (u_username u) else ""%string in
                  (Ok [mkSearched (su_user_id s) name (su_nickname s) (su_avatar_url s) (su_user_type s) (sr_session_id r)
                         (su_is_friend s) (su_can_send_message s) (su_is_follow s)], w')
              | (Err _, w') =>
                  (Ok [mkSearched (su_user_id s) (default "" (u_username u))%string (su_nickname s) (su_avatar_url s) (su_user_type s) 0
                         (su_is_friend s) (su_can_send_message s) (su_is_follow s)], w')
              end
    end.

(** account/search/by_qrcode, over the index that [set_qrcode_index] fills. *)
Record QrSearchReply := mkQrSearch { qr_user_id : string; qr_username : string; qr_nickname : string; qr_avatar_url : option string; qr_session_id : Z }.
Definition handle_search_by_qrcode (e : Env) (ctx : RpcContext) (key : string) : Act RpcError QrSearchReply :=
  do! searcher := lift (get_current_user_id ctx) in
  do! o := or_else (find_user_by_qrcode e 0 key) (fun _ => rpc_internal "Database error") in
  let missing := rpc_not_found ("User not found for qrcode: " +:+ key) in
  do! uid := lift (ok_or o missing) in
  do! _ := (if uid =? searcher then ret tt else reachable_user e 4 uid missing) in
  do! p := or_else (privacy e 1 uid) (fun er => rpc_internal ("Failed to get privacy settings: " +:+ server_error_display er)) in
  if negb (allow_search_by_qrcode p) then raise (rpc_forbidden "User does not allow being searched by qrcode")
  else
    do! r := or_else (create_search_record e 5 searcher uid (Some ByQrcode)) (fun er => rpc_internal ("Failed to create search record: " +:+ server_error_display er)) in
    fun w =>
      let '(o, c) := get_user_profile_fresh (en_up e 6) (en_db e 6%nat) (tb_users (pw_tables w)) uid (pw_profiles w) in
      let w' := set_profiles w c in
      (match o with
       | Ok (Some p) => Ok (mkQrSearch (pf_user_id p) (if friends_or_not e 7 searcher uid w' then pf_username p else EmptyString)
                              (pf_nickname p) (pf_avatar_url p) (sr_session_id r))
       | Ok None => Err (rpc_not_found ("User profile not found for qrcode: " +:+ key))
       | Err _ => Err (rpc_internal "Database error")
       end, w').

(** ** account/user/share_card *)
Definition handle_share_card (e : Env) (ctx : RpcContext) (target receiver : Z) : Act RpcError CardShareRecord :=
  do! sharer := lift (get_current_user_id ctx) in
  do! _ := reachable_user e 4 target (not_found_user target) in
  do! f := reads (fun w => Ok (friends_or_not e 0 sharer target w)) in
  if negb f then raise (rpc_forbidden "Only friends can share cards")
  else or_else (create_card_share e 1 sharer target receiver) (fun er => rpc_internal ("Failed to create card share: " +:+ server_error_display er)).

(** ** account/privacy *)
Definition handle_privacy_get (e : Env) (ctx : RpcContext) : Act RpcError UserPrivacySettings :=
  do! uid := lift (get_current_user_id ctx) in or_else (privacy e 0 uid) rpc_from.
Definition handle_privacy_update (frozen applied : bool) (e : Env) (ctx : RpcContext) (u : PrivacySettingsUpdate) : Act RpcError UserPrivacySettings :=
  do! uid := lift (get_current_user_id ctx) in
  or_else (fun w => let t := pw_tables w in
             let '(r, col) := update_privacy_settings frozen applied (en_now e) (en_db e) uid u (tb_privacy t) in
             (r, set_tables w (mkTables (tb_users t) (tb_friends t) (tb_blacklist t) col (tb_follows t) (tb_username_searchable t)))) rpc_from.

(** ** contact/friend/apply *)
Record ApplyRequest := mkApply {
  fa_target_user_id : Z; fa_message : option string; fa_grant_id : option string; fa_source : option string;
  fa_source_id : option string; fa_phone : option string
}.
Definition id_or_zero (s : string) : Z := default 0 (parse_u64 s).
Definition build_request_source (ty text : string) : option FriendRequestSource :=
  let i := id_or_zero text in
  if decide (ty = "search"%string) then Some (SrcSearch i)
  else if decide (ty = "group"%string) then Some (SrcGroup i)
  else if decide (ty = "card_share"%string) then Some (SrcCardShare i)
  else if decide (ty = "friend"%string) then Some (SrcSearch i)
  else if decide (ty = "conversation"%string) then Some (SrcConversation i)
  else None.
Definition legacy_request_source (source source_id phone : option string) : option FriendRequestSource :=
  match source, source_id with
  | Some ty, Some text => if decide (ty = "qrcode"%string) then Some (SrcQrcode text) else build_request_source ty text
  | _, _ => SrcPhone <$> phone
  end.
Definition legacy_detail_source (ty text : string) : result UserDetailSource RpcError :=
  if decide (ty = "search"%string) then detail_source DsSearch text
  else if decide (ty = "group"%string) then detail_source DsGroup text
  else if decide (ty = "card_share"%string) then detail_source DsCardShare text
  else if decide (ty = "friend"%string) then detail_source DsFriend text
  else if decide (ty = "qrcode"%string) then detail_source DsQrcode text
  else if decide (ty = "conversation"%string) then detail_source DsConversation text
  else Err (rpc_validation ("Invalid source type: " +:+ ty +:+ ". Must be one of: search, group, qrcode, card_share, friend, conversation")).

Definition deny_error (reason : option string) : RpcError :=
  if decide (reason = Some "group_policy"%string) then mkRpcError "GroupAddFriendDisabled" "该群不允许成员互相添加好友"
  else if decide (reason = Some "personal_privacy"%string) then mkRpcError "GroupAddFriendPersonalDisabled" "对方不允许通过此方式添加好友"
  else rpc_forbidden "Cannot add this user as friend".
Definition grant_deny_error (reason : option string) : RpcError :=
  if decide (reason = Some "already_friend"%string) then mkRpcError "AlreadyFriends" "你们已经是好友" else deny_error reason.

Definition finish_apply (e : Env) (from target : Z) (message : string) (source : option FriendRequestSource) : Act RpcError Z :=
  do! _ := (fun w => match source with
                     | Some (SrcCardShare sid) => (Ok tt, (mark_card_share_as_used e 6 sid from w).2)
                     | _ => (Ok tt, w)
                     end) in
  fun w =>
    let '(o, c) := get_user_profile_with_fallback (en_up e 8) (en_up e 9) (en_db e 8%nat) (tb_users (pw_tables w)) target (pw_profiles w) in
    let w1 := set_profiles w c in
    match o with
    | Err _ => (Err (rpc_internal "Database error"), w1)
    | Ok None => (Err (not_found_user target), w1)
    | Ok (Some _) =>
        let t := pw_tables w1 in
        match send_friend_request_with_source (en_now e) (fun i => en_db e (10 + i)%nat) (tb_friends t) from target
                (if decide (message = EmptyString) then None else Some message) source with
        | Err er => (Err (rpc_internal ("发送好友申请失败: " +:+ server_error_display er)), w1)
        | Ok (_, ft) => (Ok target, set_tables w1 (mkTables (tb_users t) ft (tb_blacklist t) (tb_privacy t) (tb_follows t) (tb_username_searchable t)))
        end
    end.

Definition apply_with_grant (e : Env) (from target : Z) (message text : string) : Act RpcError Z :=
  do! gid := lift (ok_or (parse_u64 text) (rpc_validation ("Invalid grant_id: " +:+ text))) in
  do! o := or_else (get_profile_view_grant e 0 gid) rpc_from in
  do! g := lift (ok_or o (mkRpcError "ProfileViewGrantExpired" "查看凭证已过期,请重新打开对方资料")) in
  if negb ((pg_viewer_id g =? from) && (pg_target_id g =? target)) then raise (rpc_forbidden "Profile view grant does not match this request")
  else if negb (pg_can_add_friend g) then raise (grant_deny_error (pg_deny_reason g))
  else
    do! blocks := reads (fun w => Ok (blocks_or_none e 5 from target w)) in
    if blocks.1 || blocks.2 then raise (mkRpcError "UserInBlacklist" "无法添加该用户")
    else finish_apply e from target message (build_request_source (pg_source_type g) (pg_source_id g)).

Definition apply_with_source (e : Env) (from target : Z) (message : string) (q : ApplyRequest) : Act RpcError Z :=
  match fa_source q, fa_source_id q with
  | Some ty, Some text =>
      do! source := lift (legacy_detail_source ty text) in
      do! v := or_else (evaluate_detail_access e from target source) (fun er => rpc_forbidden ("Source validation failed: " +:+ server_error_display er)) in
      if negb (dv_can_add_friend v) && negb (dv_is_friend v) then raise (deny_error (dv_deny_reason v))
      else finish_apply e from target message (legacy_request_source (fa_source q) (fa_source_id q) (fa_phone q))
  | _, _ => raise (rpc_validation "source and source_id are required (same as detail interface)")
  end.

Definition handle_apply (e : Env) (ctx : RpcContext) (q : ApplyRequest) : Act RpcError Z :=
  do! from := lift (get_current_user_id ctx) in
  let target := fa_target_user_id q in
  let message := default EmptyString (fa_message q) in
  do! _ := reachable_user e 4 target (not_found_user target) in
  match fa_grant_id q with
  | Some text => apply_with_grant e from target message text
  | None => apply_with_source e from target message q
  end.

(** ** contact/blacklist: the handlers take the owner of the list from the request *)
Definition set_blacklist (w : ProfileWorld) (b : blacklist_table) : ProfileWorld :=
  let t := pw_tables w in set_tables w (mkTables (tb_users t) (tb_friends t) b (tb_privacy t) (tb_follows t) (tb_username_searchable t)).
Definition handle_blacklist_add (e : Env) (ctx : RpcContext) (user_id blocked : Z) : Act RpcError bool := fun w =>
  match add_to_blacklist (en_now e) (en_db e) (tb_blacklist (pw_tables w)) user_id blocked None with
  | Ok (_, b) => (Ok true, set_blacklist w b)
  | Err er => (Err (rpc_internal ("添加黑名单失败: " +:+ server_error_display er)), w)
  end.
Definition handle_blacklist_remove (e : Env) (ctx : RpcContext) (user_id blocked : Z) : Act RpcError bool := fun w =>
  match remove_from_blacklist (en_db e) (tb_blacklist (pw_tables w)) user_id blocked with
  | Ok (_, b) => (Ok true, set_blacklist w b)
  | Err er => (Err (rpc_internal ("从黑名单移除失败: " +:+ server_error_display er)), w)
  end.
Definition handle_blacklist_check (e : Env) (ctx : RpcContext) (user_id target : Z) : Act RpcError bool :=
  reads (fun w => match is_blocked (en_db e) (tb_blacklist (pw_tables w)) user_id target with
                  | Ok b => Ok b
                  | Err er => Err (rpc_internal ("检查黑名单失败: " +:+ server_error_display er))
                  end).

(** ** contact/friend: the other handlers *)
Definition set_friends (w : ProfileWorld) (f : FriendTable) : ProfileWorld :=
  let t := pw_tables w in set_tables w (mkTables (tb_users t) f (tb_blacklist t) (tb_privacy t) (tb_follows t) (tb_username_searchable t)).
Definition friend_call {A B} (prefix : string) (r : result (A * FriendTable) ServerError) (k : A -> B) : Act RpcError B := fun w =>
  match r with
  | Ok (a, f) => (Ok (k a), set_friends w f)
  | Err er => (Err (rpc_internal (prefix +:+ server_error_display er)), w)
  end.
Definition handle_reject (e : Env) (ctx : RpcContext) (from : Z) : Act RpcError bool :=
  do! uid := lift (get_current_user_id ctx) in
  fun w => friend_call "Reject friend request failed: " (reject_friend_request (en_now e) (en_db e) (tb_friends (pw_tables w)) uid from) (fun _ => true) w.
Definition handle_recall (e : Env) (ctx : RpcContext) (target : Z) : Act RpcError bool :=
  do! uid := lift (get_current_user_id ctx) in
  fun w => friend_call "Recall friend request failed: " (recall_friend_request (en_now e) (en_db e) (tb_friends (pw_tables w)) uid target) (fun _ => true) w.
Definition handle_remove (e : Env) (ctx : RpcContext) (friend : Z) : Act RpcError bool :=
  do! uid := lift (get_current_user_id ctx) in
  fun w => friend_call "删除好友失败: " (remove_friend (en_now e) (en_db e) (tb_friends (pw_tables w)) uid friend) (fun _ => true) w.
Definition handle_set_alias (e : Env) (ctx : RpcContext) (friend : Z) (alias : option string) : Act RpcError bool :=
  do! uid := lift (get_current_user_id ctx) in
  fun w => friend_call "设置备注失败: " (set_alias (en_now e) (en_db e) (tb_friends (pw_tables w)) uid friend alias) (fun b => b) w.
Definition handle_friend_check (e : Env) (ctx : RpcContext) (friend : Z) : Act RpcError bool :=
  do! uid := lift (get_current_user_id ctx) in
  or_else (friends e 0 uid friend) (fun er => rpc_internal ("Check friend failed: " +:+ server_error_display er)).
(** The friendship first, then the direct channel of the two. [expired_text] is the
    protocol crate's text of the code. *)
Definition handle_accept (expired_text : string) (e : Env) (ctx : RpcContext) (from : Z) : Act RpcError Z :=
  do! uid := lift (get_current_user_id ctx) in
  fun w =>
    match accept_friend_request_with_source (en_now e) (en_db e) (tb_friends (pw_tables w)) uid from with
    | Err (NotFound _) => (Err (mkRpcError "FriendRequestExpired" expired_text), w)
    | Err er => (Err (rpc_internal ("Accept friend request failed: " +:+ server_error_display er)), w)
    | Ok (_, f) =>
        let w1 := set_friends w f in
        let '(r, st) := get_or_create_direct_channel (en_io e) (en_now e) (en_sync e) (en_id e) uid from (pw_state w1) in
        (match r with
         | Ok (cid, _) => Ok cid
         | Err er => Err (rpc_internal ("Accept friend request failed: cannot create channel - " +:+ server_error_display er))
         end, set_state w1 st)
    end.
End Profile.
