(* ===== verification/ProfileFacts.v ===== *)
(** * Facts about profiles and friend requests

    Searches, shared cards, views and applications run in any order, among any changes of
    the tables, the groups and the QR codes, and with entries of the caches lost at any
    moment ([reach]); the log keeps the calls, each with the state it found. Every record
    the server trusts then goes back to a call of the log: a profile is shown only to
    somebody who met its owner, and no more of it than the meeting allows
    ([profile_needs_a_meeting]); a friend request is stored only after such a meeting
    ([friend_request_needs_a_meeting]). *)

From stdpp Require Import base numbers gmap list sorting strings.
From S2P Require Import Prelude Channel Friend SendAuth Timeline Submit Group GroupService Users QrCode Profile.
Import Blacklist Friends.
Local Open Scope Z_scope.

Section Facts.
Context `{QM : QrMetadata, PC : PrivacyColumn, Pj : PermissionColumn, Pg : Postgres, Ch : Chrono, DC : DetailSourceCodec}.
Context (pg_lower to_lowercase : string -> string).

(** ** Calls *)
Inductive Call :=
| CSearch (e : Env) (ctx : RpcContext) (query : string) (w : ProfileWorld)
| CScan (e : Env) (ctx : RpcContext) (key : string) (w : ProfileWorld)
| CShare (e : Env) (ctx : RpcContext) (target receiver : Z) (w : ProfileWorld)
| CDetail (e : Env) (ctx : RpcContext) (q : DetailRequest) (w : ProfileWorld)
| CApply (e : Env) (ctx : RpcContext) (q : ApplyRequest) (w : ProfileWorld).

(** Everything but the records may change in any way; records may get lost. *)
Definition loses (w w' : ProfileWorld) : Prop :=
  (forall k r, held (pw_searches w') k r -> held (pw_searches w) k r) /\
  (forall k r, held (pw_cards w') k r -> held (pw_cards w) k r) /\
  (forall k g, pw_grants w' !! k = Some g -> pw_grants w !! k = Some g).

Definition no_records (w : ProfileWorld) : Prop :=
  (forall k r, ~ held (pw_searches w) k r) /\ (forall k r, ~ held (pw_cards w) k r) /\ pw_grants w = ∅.

(** A row is read back with the id it is stored under. *)
Definition users_ok (t : user_table) : Prop := forall k u, t !! k = Some u -> u_id u = as_u64 k.

Inductive reach : list Call -> ProfileWorld -> Prop :=
| reach_start w : no_records w -> users_ok (tb_users (pw_tables w)) -> reach [] w
| reach_others log w w' : reach log w -> loses w w' -> users_ok (tb_users (pw_tables w')) -> reach log w'
| reach_search log w e ctx query : reach log w ->
    reach (CSearch e ctx query w :: log) (handle_search pg_lower to_lowercase e ctx query w).2
| reach_scan log w e ctx key : reach log w -> reach (CScan e ctx key w :: log) (handle_search_by_qrcode e ctx key w).2
| reach_share log w e ctx target receiver : reach log w ->
    reach (CShare e ctx target receiver w :: log) (handle_share_card e ctx target receiver w).2
| reach_detail log w e ctx q : reach log w -> is_u64 (dq_target_user_id q) -> reach (CDetail e ctx q w :: log) (handle_detail e ctx q w).2
| reach_apply log w e ctx q : reach log w -> reach (CApply e ctx q w :: log) (handle_apply e ctx q w).2.

(** ** Sequencing *)
Lemma bind_ok {E A B} (m : Act E A) (k : A -> Act E B) w b w' : bind m k w = (Ok b, w') ->
  exists a w1, m w = (Ok a, w1) /\ k a w1 = (Ok b, w').
Proof. unfold bind. destruct (m w) as [[a|] w1]; naive_solver. Qed.
Lemma or_else_ok {E F A} (m : Act E A) (g : E -> F) w a w' : or_else m g w = (Ok a, w') -> m w = (Ok a, w').
Proof. unfold or_else. destruct (m w) as [[|] w1]; naive_solver. Qed.
Lemma lift_ok {E A} (r : result A E) w a w' : lift r w = (Ok a, w') -> r = Ok a /\ w' = w.
Proof. unfold lift. naive_solver. Qed.
Lemma reads_ok {E A} (f : ProfileWorld -> result A E) w a w' : reads f w = (Ok a, w') -> f w = Ok a /\ w' = w.
Proof. unfold reads. naive_solver. Qed.
Lemma ret_ok {E A} (a : A) w b w' : @ret _ _ _ E A a w = (Ok b, w') -> b = a /\ w' = w.
Proof. unfold ret. naive_solver. Qed.
Lemma check_ok b e w u w' : check b e w = (Ok u, w') -> b = true /\ w' = w.
Proof. unfold check, lift. destruct b; naive_solver. Qed.

(** ** Quiet code: it reads, and may move records between the levels of a cache *)
Definition quiet {E A} (m : Act E A) : Prop := forall w r w', m w = (r, w') ->
  pw_tables w' = pw_tables w /\ pw_qr w' = pw_qr w /\ loses w w'.

Lemma loses_refl w : loses w w.
Proof. unfold loses. naive_solver. Qed.
Lemma loses_trans w1 w2 w3 : loses w1 w2 -> loses w2 w3 -> loses w1 w3.
Proof. unfold loses. naive_solver. Qed.
Lemma loses_same w w' : pw_searches w' = pw_searches w -> pw_cards w' = pw_cards w -> pw_grants w' = pw_grants w -> loses w w'.
Proof. unfold loses. intros -> -> ->. naive_solver. Qed.

Lemma quiet_id {E A} (m : Act E A) : (forall w, (m w).2 = w) -> quiet m.
Proof. intros H w r w' Hm. specialize (H w). rewrite Hm in H. cbn in H. subst. auto using loses_refl. Qed.
Lemma quiet_ret {E A} (a : A) : @quiet E A (ret a).
Proof. by apply quiet_id. Qed.
Lemma quiet_raise {E A} (e : E) : @quiet E A (raise e).
Proof. by apply quiet_id. Qed.
Lemma quiet_lift {E A} (r : result A E) : quiet (lift r).
Proof. by apply quiet_id. Qed.
Lemma quiet_reads {E A} (f : ProfileWorld -> result A E) : quiet (reads f).
Proof. by apply quiet_id. Qed.
Lemma quiet_bind {E A B} (m : Act E A) (k : A -> Act E B) : quiet m -> (forall a, quiet (k a)) -> quiet (bind m k).
Proof.
  intros Hm Hk w r w'. unfold bind. destruct (m w) as [[a|e] w1] eqn:E1; destruct (Hm _ _ _ E1) as (T1 & Q1 & L1).
  - intros (T2 & Q2 & L2)%Hk. split_and!; [congruence..|by eapply loses_trans].
  - by intros [= <- <-].
Qed.
Lemma quiet_or_else {E F A} (m : Act E A) (g : E -> F) : quiet m -> quiet (or_else m g).
Proof. intros Hm w r w'. unfold or_else. destruct (m w) as [[a|e] w1] eqn:E1; intros [= <- <-]; by eapply Hm. Qed.
Lemma quiet_if {E A} (b : bool) (m n : Act E A) : quiet m -> quiet n -> quiet (if b then m else n).
Proof. by destruct b. Qed.

Lemma quiet_get_search e i sid : quiet (get_search_record e i sid).
Proof.
  intros w r w'. unfold get_search_record, keep. destruct (t_l1 (pw_searches w) !! sid) as [x|] eqn:E1; cbn.
  1: destruct (negb (search_expired (en_now e) x)); [intros [= <- <-]; auto using loses_refl|].
  all: unfold get_from_redis; destruct (en_up e i); cbn; [|intros [= <- <-]; auto using loses_refl].
  all: destruct (t_l2 (pw_searches w) !! sid) as [y|] eqn:E2; cbn; [|intros [= <- <-]; auto using loses_refl].
  all: destruct (negb (search_expired (en_now e) y)); intros [= <- <-]; [|auto using loses_refl].
  all: split_and!; [done..|]; unfold loses, held; cbn; split_and!; [|done..]; intros k z; rewrite lookup_insert_Some; naive_solver.
Qed.
Lemma quiet_get_card e i sid : quiet (get_card_share e i sid).
Proof.
  intros w r w'. unfold get_card_share. destruct (tiers_get _ _ _) as [o t] eqn:E. intros [= <- <-].
  apply tiers_get_spec in E as [_ H]. split_and!; [done..|]. unfold loses; cbn. naive_solver.
Qed.
Lemma quiet_load e i cid : quiet (load_channel e i cid).
Proof. intros w r w'. unfold load_channel. destruct (get_channel _ _ _ _ _ _). intros [= <- <-]. split_and!; [done..|by apply loses_same]. Qed.
Lemma quiet_reachable e i uid nf : quiet (reachable_user e i uid nf).
Proof. intros w r w'. unfold reachable_user. destruct (ensure_reachable_user _ _ _ _ _ _). intros [= <- <-]. split_and!; [done..|by apply loses_same]. Qed.
Lemma quiet_fresh e i uid : quiet (fresh_profile e i uid).
Proof. intros w r w'. unfold fresh_profile. destruct (get_user_profile_fresh_versioned _ _ _ _ _). intros [= <- <-]. split_and!; [done..|by apply loses_same]. Qed.
Lemma quiet_find_qr e i key : quiet (find_user_by_qrcode e i key).
Proof. intros w r w'. unfold find_user_by_qrcode. destruct (tiers_get _ _ _). intros [= <- <-]. split_and!; [done..|by apply loses_same]. Qed.
End Facts.

Create HintDb profile.
#[export] Hint Resolve quiet_ret quiet_raise quiet_lift quiet_reads quiet_bind quiet_or_else quiet_get_search quiet_get_card
  quiet_load quiet_reachable quiet_fresh quiet_find_qr : profile.

(** [quieten] shows that code built from quiet parts is quiet. *)
Ltac quieten :=
  repeat first
    [ solve [auto with profile]
    | apply quiet_bind; [|intros ?]
    | apply quiet_or_else
    | match goal with
      | |- quiet (if ?b then _ else _) => destruct b
      | |- quiet (match ?x with _ => _ end) => destruct x
      | |- quiet (let '(_, _) := ?x in _) => destruct x
      end ].

Section Meetings.
Context `{QM : QrMetadata, PC : PrivacyColumn, Pj : PermissionColumn, Pg : Postgres, Ch : Chrono, DC : DetailSourceCodec}.
Context (pg_lower to_lowercase : string -> string).
Notation reach := (reach pg_lower to_lowercase).
Notation do_search := (handle_search pg_lower to_lowercase).

Lemma quiet_evaluate e v u src : quiet (evaluate_detail_access e v u src).
Proof.
  unfold evaluate_detail_access, friends, evaluate_search_source, evaluate_qrcode_source, evaluate_conversation_source,
    evaluate_group_source, validate_card_share_source, both_members, privacy, check.
  quieten.
Qed.

Lemma quiet_view e viewer q : quiet (view_profile e viewer q).
Proof. pose proof quiet_evaluate. unfold view_profile. quieten. Qed.

(** ** Where records come from *)
Definition searched_in (log : list Call) (r : SearchRecord) : Prop :=
  sr_expires_at r = sr_created_at r + hour_ns /\
  ((exists e ctx query w searchable found ty p, CSearch e ctx query w ∈ log /\ get_current_user_id ctx = Ok (sr_searcher_id r) /\
      en_now e = sr_created_at r /\ u_id found = sr_target_id r /\
      cascade pg_lower to_lowercase e searchable (trim query) (tb_users (pw_tables w)) = Some (found, ty, sr_hit_by r) /\
      allows_search p ty = true /\
      (privacy_of (en_now e) (en_db e 5%nat) (tb_privacy (pw_tables w)) (sr_target_id r) = Ok p \/ p = privacy_new (en_now e) (sr_target_id r))) \/
   (exists e ctx key w p, CScan e ctx key w ∈ log /\ get_current_user_id ctx = Ok (sr_searcher_id r) /\
      en_now e = sr_created_at r /\ sr_hit_by r = Some ByQrcode /\ held (pw_qr_index w) key (sr_target_id r) /\
      privacy_of (en_now e) (en_db e 1%nat) (tb_privacy (pw_tables w)) (sr_target_id r) = Ok p /\ allow_search_by_qrcode p = true)).

Definition shared_in (log : list Call) (r : CardShareRecord) : Prop :=
  exists e ctx w, CShare e ctx (cs_target_user_id r) (cs_receiver_id r) w ∈ log /\
    get_current_user_id ctx = Ok (cs_sharer_id r) /\ en_now e = cs_created_at r /\
    either_status (tb_friends (pw_tables w)) 1 (cs_sharer_id r) (cs_target_user_id r) = true.

(** The grant was given with an answer of account/user/detail, to a call made earlier. *)
Definition viewed_in (log : list Call) (g : ProfileViewGrant) : Prop :=
  exists e ctx q w r later earlier, log = later ++ CDetail e ctx q w :: earlier /\ reach earlier w /\ is_u64 (dq_target_user_id q) /\
    (handle_detail e ctx q w).1 = Ok r /\ get_current_user_id ctx = Ok (pg_viewer_id g) /\
    pg_target_id g = dr_user_id r /\ pg_can_add_friend g = dr_can_add_friend r /\
    pg_created_at g = en_now e /\ pg_expires_at g = pg_created_at g + GRANT_TTL_MINUTES * minute_ns.

Definition records_ok (log : list Call) (w : ProfileWorld) : Prop :=
  (forall k r, held (pw_searches w) k r -> searched_in log r) /\
  (forall k r, held (pw_cards w) k r -> shared_in log r) /\
  (forall k g, pw_grants w !! k = Some g -> viewed_in log g).

Lemma searched_in_cons c log r : searched_in log r -> searched_in (c :: log) r.
Proof.
  intros [H [(e & ctx & q & w & s & f & ty & p & Hin & H1)|(e & ctx & k & w & p & Hin & H1)]]; (split; [done|]).
  - left. exists e, ctx, q, w, s, f, ty, p. split; [by right|done].
  - right. exists e, ctx, k, w, p. split; [by right|done].
Qed.
Lemma shared_in_cons c log r : shared_in log r -> shared_in (c :: log) r.
Proof. intros (e & ctx & w & ? & ?). exists e, ctx, w. split; [by right|done]. Qed.
Lemma viewed_in_cons c log g : viewed_in log g -> viewed_in (c :: log) g.
Proof. intros (e & ctx & q & w & r & l & l' & -> & ?). by exists e, ctx, q, w, r, (c :: l), l'. Qed.

Lemma records_loses log w w' : records_ok log w -> loses w w' -> records_ok log w'.
Proof. unfold records_ok, loses. intros (HS & HC & HG) (S' & C' & G'). split_and!; eauto. Qed.
Lemma records_cons c log w : records_ok log w -> records_ok (c :: log) w.
Proof. intros (HS & HC & HG). split_and!; intros; [eapply searched_in_cons, HS|eapply shared_in_cons, HC|eapply viewed_in_cons, HG]; eassumption. Qed.
Lemma quiet_records {E A} (m : Act E A) log w r w' : quiet m -> m w = (r, w') -> records_ok log w -> records_ok log w'.
Proof. intros Hq Hm Hok. destruct (Hq _ _ _ Hm) as (_ & _ & L). by eapply records_loses. Qed.

(** ** What each handler writes *)
(** A record added to one of the stores, the rest only losing entries. *)
Definition adds_search (w w' : ProfileWorld) (r : SearchRecord) : Prop :=
  exists w1 up, loses w w1 /\ w' = set_searches w1 (tiers_set up (sr_session_id r) r (pw_searches w1)).

Lemma adds_search_records log w w' r : records_ok log w -> adds_search w w' r -> searched_in log r -> records_ok log w'.
Proof.
  intros Hok (w1 & up & L & ->) Hr. destruct (records_loses _ _ _ Hok L) as (HS & HC & HG).
  split_and!; [|done..]. intros k x [[-> ->]|H]%tiers_set_held; [done|]. by eapply HS.
Qed.
Lemma loses_reads {E A} (m : Act E A) w r w' w'' : quiet m -> m w = (r, w') -> loses w' w'' -> loses w w''.
Proof. intros Hq Hm. destruct (Hq _ _ _ Hm) as (_ & _ & L). by apply loses_trans. Qed.

Lemma search_effect e ctx query w : let w' := (do_search e ctx query w).2 in
  loses w w' \/ exists r, adds_search w w' r /\ searched_in [CSearch e ctx query w] r.
Proof.
  unfold handle_search, bind, lift, reads. destruct (get_current_user_id ctx) as [uid|] eqn:Hu; [|left; apply loses_refl].
  cbn. case_decide; [left; apply loses_refl|].
  destruct (platform_username_searchable e 4 w) as [b w1] eqn:Hp.
  assert (Hw1 : pw_tables w1 = pw_tables w /\ loses w w1).
  { unfold platform_username_searchable in Hp. destruct (pw_platform w) as [? []]; simplify_eq; [auto using loses_refl|]. split; [done|by apply loses_same]. }
  destruct Hw1 as [Ht L]. cbn. rewrite Ht.
  destruct (cascade _ _ e b (trim query) _) as [[[u ty] hit]|] eqn:Hc; [|by left]. destruct (is_unreachable_user_type (u_type u)); [by left|]. cbn. rewrite ?Ht.
  set (p := privacy_or_new e 5 (u_id u) (pw_tables w)).
  destruct (allows_search p ty) eqn:Ha; [|by left]. cbn. right. exists (search_record_new (en_now e) (en_id e) uid (u_id u) hit).
  split; [by exists w1, (en_up e 5)|]. split; [done|]. left. exists e, ctx, query, w, b, u, ty, p.
  split_and!; cbn; [set_solver|done..|]. unfold p, privacy_or_new. destruct (privacy_of _ _ _ _); auto.
Qed.

Lemma scan_effect e ctx key w : let w' := (handle_search_by_qrcode e ctx key w).2 in
  loses w w' \/ exists r, adds_search w w' r /\ searched_in [CScan e ctx key w] r.
Proof.
  unfold handle_search_by_qrcode, bind, lift, or_else, reads. destruct (get_current_user_id ctx) as [uid|] eqn:Hu; [|left; apply loses_refl]. cbn.
  unfold find_user_by_qrcode. destruct (tiers_get (en_up e 0) key (pw_qr_index w)) as [o t] eqn:Ho. cbn.
  set (w1 := set_qr_index w t). assert (L1 : loses w w1) by (by apply loses_same). destruct o as [target|]; cbn; [|by left].
  assert (Hh : held (pw_qr_index w) key target) by (apply tiers_get_spec in Ho as [H _]; by apply H).
  destruct ((if target =? uid then ret tt else reachable_user e 4 target _) w1) as [g w2] eqn:Hr.
  assert (L2 : pw_tables w2 = pw_tables w /\ loses w w2).
  { destruct (target =? uid); [injection Hr as <- <-; done|]. destruct (quiet_reachable _ _ _ _ _ _ _ Hr) as (-> & _ & L). split; [done|by eapply loses_trans]. }
  destruct L2 as [Ht L2]. destruct g as [[]|]; cbn; [|by left]. unfold privacy, reads. rewrite Ht.
  destruct (privacy_of _ _ _ _) as [p|] eqn:Hp; cbn; [|by left]. destruct (allow_search_by_qrcode p) eqn:Ha; cbn; [|by left].
  right. exists (search_record_new (en_now e) (en_id e) uid target (Some ByQrcode)). split.
  - destruct (get_user_profile_fresh _ _ _ _ _) as [r c]. cbn. exists (set_profiles w2 c), (en_up e 5). split; [|done].
    eapply loses_trans; [done|by apply loses_same].
  - split; [done|]. right. exists e, ctx, key, w, p. split_and!; cbn; [set_solver|done..].
Qed.

Lemma share_effect e ctx target receiver w : let w' := (handle_share_card e ctx target receiver w).2 in
  loses w w' \/ exists w1 up r, loses w w1 /\ w' = set_cards w1 (tiers_set up (cs_share_id r) r (pw_cards w1)) /\ shared_in [CShare e ctx target receiver w] r.
Proof.
  unfold handle_share_card, bind, lift, or_else, reads. destruct (get_current_user_id ctx) as [uid|] eqn:Hu; [|left; apply loses_refl]. cbn.
  destruct (reachable_user e 4 target _ w) as [g w1] eqn:Hr. destruct (quiet_reachable _ _ _ _ _ _ _ Hr) as (Ht & _ & L).
  destruct g as [[]|]; cbn; [|by left]. unfold friends_or_not, is_friend. rewrite Ht.
  destruct (try_is_friend _ _ _ _ _) as [[]|] eqn:Hf; cbn; [|by left..]. right.
  exists w1, (en_up e 1), (card_share_new (en_now e) (en_id e) uid target receiver). split_and!; [done..|].
  exists e, ctx, w. split_and!; cbn; [set_solver|done..|]. unfold try_is_friend in Hf. destruct (en_db e 0%nat); [done|]. by injection Hf.
Qed.

Lemma detail_effect e ctx q w : let w' := (handle_detail e ctx q w).2 in
  loses w w' \/
  exists w1 up viewer r v, loses w w1 /\ (handle_detail e ctx q w).1 = Ok r /\ get_current_user_id ctx = Ok viewer /\
    w' = set_grants w1 (set_to_redis up (dr_grant_id r) (grant_of e viewer (dq_source q) (dq_source_id q) v r) (pw_grants w1)).
Proof.
  unfold handle_detail, bind, lift, or_else. destruct (get_current_user_id ctx) as [viewer|] eqn:Hu; [|left; apply loses_refl].
  destruct (view_profile e viewer q w) as [[[v r]|] w1] eqn:Hv; pose proof (quiet_view _ _ _ _ _ _ Hv) as (_ & _ & L); [|by left].
  right. exists w1, (en_up e 12), viewer, r, v. done.
Qed.

(** A card may be marked as used, once the rest is done. *)
Definition marks (w w' : ProfileWorld) : Prop :=
  loses w w' \/ exists w1 up sid r uid now, loses w w1 /\ held (pw_cards w1) sid r /\
    pw_searches w' = pw_searches w1 /\ pw_grants w' = pw_grants w1 /\ pw_cards w' = tiers_set up sid (mark_as_used now uid r) (pw_cards w1).
Definition marking {E A} (m : Act E A) : Prop := forall w, marks w (m w).2.
Lemma marking_quiet {E A} (m : Act E A) : quiet m -> marking m.
Proof. intros Hq w. left. destruct (m w) as [r w'] eqn:Hm. by destruct (Hq _ _ _ Hm) as (_ & _ & L). Qed.
Lemma marking_bind {E A B} (m : Act E A) (k : A -> Act E B) : quiet m -> (forall a, marking (k a)) -> marking (bind m k).
Proof.
  intros Hq Hk w. unfold bind. destruct (m w) as [[a|] w1] eqn:Hm; destruct (Hq _ _ _ Hm) as (_ & _ & L); [|by left].
  destruct (Hk a w1) as [L'|(w2 & up & sid & r & uid & now & L' & H)]; [left; by eapply loses_trans|].
  right. exists w2, up, sid, r, uid, now. split; [by eapply loses_trans|done].
Qed.

Lemma finish_marks e from target msg src : marking (finish_apply e from target msg src).
Proof.
  intros w. unfold finish_apply, bind.
  assert (H : exists w1, (match src with Some (SrcCardShare sid) => (Ok tt, (mark_card_share_as_used e 6 sid from w).2) | _ => (Ok tt, w) end
                         : result unit RpcError * ProfileWorld) = (Ok tt, w1) /\ marks w w1).
  { destruct src as [[]|]; try (exists w; split; [done|left; apply loses_refl]). eexists; split; [done|].
    unfold mark_card_share_as_used, bind. destruct (get_card_share e 6 share_id w) as [[o|] w1] eqn:Hg; destruct (quiet_get_card _ _ _ _ _ _ Hg) as (_ & _ & L); [|by left].
    destruct o as [r|]; [|by left]. right. exists w1, (en_up e 7), share_id, r, from, (en_now e). split_and!; [done| |done..].
    unfold get_card_share, tiers_get, get_from_redis in Hg. unfold held.
    destruct (t_l1 (pw_cards w) !! share_id) eqn:E1; [injection Hg as <- <-; by left|].
    destruct (en_up e 6); [|done]. destruct (t_l2 (pw_cards w) !! share_id) eqn:E2; [|done]. injection Hg as <- <-. cbn. left. by rewrite lookup_insert_eq. }
  destruct H as (w1 & -> & Hm). destruct (get_user_profile_with_fallback _ _ _ _ _ _) as [o c].
  assert (K : forall w2, pw_searches w2 = pw_searches w1 -> pw_cards w2 = pw_cards w1 -> pw_grants w2 = pw_grants w1 -> marks w w2).
  { intros w2 E1 E2 E3. destruct Hm as [L|(w0 & up & sid & r & uid & now & L & Hh & H1 & H2 & H3)];
      [left; eapply loses_trans; [done|by apply loses_same]|right; exists w0, up, sid, r, uid, now; split_and!; [done..|congruence|congruence|congruence]]. }
  destruct o as [[p|]|]; [|by apply K..]. destruct (send_friend_request_with_source _ _ _ _ _ _ _) as [[? ?]|]; by apply K.
Qed.

Lemma apply_marks e ctx q : marking (handle_apply e ctx q).
Proof.
  pose proof quiet_evaluate. pose proof finish_marks. unfold handle_apply, apply_with_grant, apply_with_source, get_profile_view_grant.
  repeat first
    [ apply marking_bind; [solve [quieten]|intros ?]
    | solve [auto]
    | match goal with
      | |- marking (if ?b then _ else _) => destruct b
      | |- marking (match ?x with _ => _ end) => destruct x
      end
    | solve [apply marking_quiet; quieten] ].
Qed.

Lemma records_marks log w w' : records_ok log w -> marks w w' -> records_ok log w'.
Proof.
  intros Hok [L|(w1 & up & sid & r & uid & now & L & Hh & H1 & H2 & H3)]; [by eapply records_loses|].
  destruct (records_loses _ _ _ Hok L) as (HS & HC & HG). unfold records_ok. rewrite H1, H2, H3. split_and!; [done| |done].
  intros k x [[-> ->]|Hx]%tiers_set_held; [|by eapply HC]. exact (HC _ _ Hh).
Qed.

(** ** Records of reachable states *)
Lemma searched_in_mono (c : Call) log r : searched_in [c] r -> searched_in (c :: log) r.
Proof.
  intros [H [(e & ctx & q & w & s & f & ty & p & <-%list_elem_of_singleton & H1)|(e & ctx & k & w & p & <-%list_elem_of_singleton & H1)]]; (split; [done|]).
  - left. exists e, ctx, q, w, s, f, ty, p. split; [by left|done].
  - right. exists e, ctx, k, w, p. split; [by left|done].
Qed.

Lemma reach_records log w : reach log w -> records_ok log w.
Proof.
  induction 1 as [w (H1 & H2 & H3) _|log w w' _ IH L _|log w e ctx query _ IH|log w e ctx key _ IH|log w e ctx target receiver _ IH|log w e ctx q Hr IH Hq|log w e ctx q _ IH].
  - split_and!; [naive_solver..|]. rewrite H3. intros k g. by rewrite lookup_empty.
  - by eapply records_loses.
  - destruct (search_effect e ctx query w) as [L|(r & Ha & Hr)]; [by eapply records_loses; [apply records_cons|]|].
    eapply adds_search_records; [by apply records_cons|done|by apply searched_in_mono].
  - destruct (scan_effect e ctx key w) as [L|(r & Ha & Hr)]; [by eapply records_loses; [apply records_cons|]|].
    eapply adds_search_records; [by apply records_cons|done|by apply searched_in_mono].
  - destruct (share_effect e ctx target receiver w) as [L|(w1 & up & r & L & -> & Hs)]; [by eapply records_loses; [apply records_cons|]|].
    apply records_cons with (c := CShare e ctx target receiver w) in IH. destruct (records_loses _ _ _ IH L) as (HS & HC & HG).
    split_and!; [done| |done]. intros k x [[-> ->]|Hx]%tiers_set_held; [|by eapply HC].
    destruct Hs as (e' & ctx' & w' & Hin & Hs). exists e', ctx', w'. split; [|done]. set_solver.
  - destruct (detail_effect e ctx q w) as [L|(w1 & up & viewer & r & v & L & Hd & Hu & ->)]; [by eapply records_loses; [apply records_cons|]|].
    apply records_cons with (c := CDetail e ctx q w) in IH. destruct (records_loses _ _ _ IH L) as (HS & HC & HG).
    split_and!; [done..|]. intros k g. cbn. unfold set_to_redis. destruct up; [|by apply HG].
    rewrite lookup_insert_Some. intros [[<- <-]|[_ Hg]]; [|by eapply HG]. by exists e, ctx, q, w, r, [], log.
  - eapply records_marks; [by apply records_cons|apply apply_marks].
Qed.

(** ** Meetings *)
Inductive Meeting :=
| MSelf | MFriend | MSearch (r : SearchRecord) | MQr (r : QRKeyRecord) | MGroup (gid : Z) (c : Channel)
| MDirect (cid : Z) (c : Channel) | MCard (r : CardShareRecord).

Definition settings_of (e : Env) (w : ProfileWorld) (u : Z) (P : UserPrivacySettings -> bool) : Prop :=
  exists p, privacy_of (en_now e) (en_db e 1%nat) (tb_privacy (pw_tables w)) u = Ok p /\ P p = true.
Definition in_channel (e : Env) (w : ProfileWorld) (cid : Z) (c : Channel) (v u : Z) : Prop :=
  (get_channel (en_io e) 0 (en_now e) (en_sync e) cid (pw_state w)).1 = Ok c /\ is_Some (members c !! v) /\ is_Some (members c !! u).

(** [v] has met [u]: at the time of the request, or by a call of the log. *)
Definition met (log : list Call) (e : Env) (w : ProfileWorld) (v u : Z) (m : Meeting) : Prop :=
  match m with
  | MSelf => v = u
  | MFriend => either_status (tb_friends (pw_tables w)) 1 v u = true
  | MSearch r => searched_in log r /\ sr_searcher_id r = v /\ sr_target_id r = u /\ en_now e <= sr_created_at r + hour_ns /\
                 settings_of e w u (fun p => allowed_by_record p r)
  | MQr r => (exists key, qs_storage (pw_qr w) !! key = Some r) /\ qk_type r = QrUser /\ qk_target_id r = u64_to_string u /\
             qk_revoked r = false /\ (forall t, qk_expire_at r = Some t -> en_now e < t)
  | MGroup gid c => in_channel e w gid c v u
  | MDirect cid c => in_channel e w cid c v u /\ channel_type c <> Group
  | MCard r => shared_in log r /\ cs_receiver_id r = v /\ cs_target_user_id r = u /\ cs_used r = false
  end.

(** The meeting lets [v] ask to become a friend. *)
Definition lets_add (e : Env) (w : ProfileWorld) (v u : Z) (m : Meeting) : Prop :=
  match m with
  | MSelf | MFriend => False
  | MSearch _ | MDirect _ _ => True
  | MQr _ => settings_of e w u allow_search_by_qrcode
  | MGroup gid c => (group_lets_add e 2 gid w || privileged_in c v || privileged_in c u = true) /\ settings_of e w u allow_add_by_group
  | MCard _ => settings_of e w u allow_add_by_card
  end.
(** The meeting shows that [v] knows, or may know, the account name. *)
Definition knows_name (m : Meeting) : Prop :=
  match m with MSelf | MFriend => True | MSearch r => sr_hit_by r = Some ByUsername | _ => False end.

Definition justified (log : list Call) (e : Env) (w : ProfileWorld) (v u : Z) (d : DetailAccessVerdict) : Prop :=
  exists m, met log e w v u m /\ (dv_can_add_friend d = true -> lets_add e w v u m) /\
    (dv_username_unlocked d = true -> knows_name m) /\ (dv_is_friend d = true -> m = MFriend).

Lemma add_if_ok (b : bool) : dv_can_add_friend (addable_if b) = true -> b = true.
Proof. by destruct b. Qed.
Lemma addable_if_flags b : dv_username_unlocked (addable_if b) = false /\ dv_is_friend (addable_if b) = false.
Proof. by destruct b. Qed.

Lemma search_justified log e v u sid w d w' : records_ok log w -> evaluate_search_source e v u sid w = (Ok d, w') -> justified log e w v u d.
Proof.
  intros (HS & _ & _) H. apply bind_ok in H as (o & w1 & Hg & H). destruct (quiet_get_search _ _ _ _ _ _ Hg) as (Ht & _ & _).
  apply bind_ok in H as (r & ? & [Ho ->]%lift_ok & H). apply ok_or_Ok in Ho as ->.
  apply bind_ok in H as ([] & ? & [H1 ->]%check_ok & H). apply bind_ok in H as ([] & ? & [H2 ->]%check_ok & H). apply bind_ok in H as ([] & ? & [H3 ->]%check_ok & H).
  apply bind_ok in H as (p & ? & [Hp ->]%reads_ok & H). apply bind_ok in H as ([] & ? & [Ha ->]%check_ok & [-> ->]%ret_ok).
  rewrite Ht in Hp. assert (Hh : exists k, held (pw_searches w) k r).
  { unfold get_search_record, keep in Hg. exists sid. unfold held.
    destruct (t_l1 (pw_searches w) !! sid) as [x|] eqn:E1; cbn in Hg.
    1: destruct (negb (search_expired (en_now e) x)); [left; congruence|].
    all: unfold get_from_redis in Hg; destruct (en_up e 0); [|done]; destruct (t_l2 (pw_searches w) !! sid) as [y|] eqn:E2; cbn in Hg; [|done].
    all: destruct (negb (search_expired (en_now e) y)); [right; congruence|done]. }
  destruct Hh as [k Hh]. pose proof (HS _ _ Hh) as Hs.   exists (MSearch r). cbn. split_and!; [done|lia|lia| |by exists p|done| |done].
  - unfold search_expired in *. destruct Hs as [Hx _]. lia.
  - by intros ?%bool_decide_eq_true.
Qed.

Lemma qr_justified log e v u key w d w' : evaluate_qrcode_source e u key w = (Ok d, w') -> justified log e w v u d.
Proof.
  intros H. apply bind_ok in H as (r & ? & [Hr ->]%reads_ok & H). apply ok_or_Ok in Hr.
  apply bind_ok in H as ([] & ? & [H1 ->]%check_ok & H). apply bind_ok in H as ([] & ? & [H2 ->]%check_ok & H).
  apply bind_ok in H as ([] & ? & [H3%bool_decide_eq_true ->]%check_ok & H). apply bind_ok in H as ([] & ? & [H4%bool_decide_eq_true ->]%check_ok & H).
  apply bind_ok in H as (p & ? & [Hp ->]%reads_ok & [-> ->]%ret_ok).
  destruct (addable_if_flags (allows_search p ByQrcode)) as [F1 F2].
  exists (MQr r). rewrite F1, F2. cbn. split_and!; [by exists key|done..|by apply negb_true_iff| | |done|done].
  - intros t Ht. rewrite Ht in H2. lia.
  - intros Ha%add_if_ok. by exists p.
Qed.

Lemma load_ok e i cid w c w' : load_channel e i cid w = (Ok c, w') ->
  get_channel (en_io e) i (en_now e) (en_sync e) cid (pw_state w) = (Ok c, pw_state w') /\ w' = set_state w (pw_state w') /\
  d_groups (st_db (pw_state w')) = d_groups (st_db (pw_state w)) /\ cs_channels (st_sv (pw_state w')) !! cid = Some c.
Proof.
  unfold load_channel, get_channel. destruct (get_channel_opt _ _ _ _ _ _) as [o st] eqn:E. intros H.
  destruct o as [c'|]; cbn in H; simplify_eq. cbn. split_and!; [done..| |]; unfold get_channel_opt in E; destruct (cs_channels (st_sv (pw_state w)) !! cid) eqn:Ec; simplify_eq; [done| |done|];
    destruct (find_by_id _ _ _ _ _ _) as [[conv|]|]; simplify_eq; [done|]. cbn. by rewrite lookup_insert_eq.
Qed.

Lemma members_ok what c v u cid w x w' : both_members what c v u cid w = (Ok x, w') -> is_Some (members c !! v) /\ is_Some (members c !! u) /\ w' = w.
Proof. intros H. apply bind_ok in H as ([] & ? & [?%bool_decide_eq_true ->]%check_ok & [?%bool_decide_eq_true ->]%check_ok). done. Qed.

(** A group, loaded in whatever state of its cache. *)
Lemma group_justified log e i v u gid c w d w' :
  (get_channel (en_io e) 0 (en_now e) (en_sync e) gid (pw_state w)).1 = Ok c ->
  forall w0, load_channel e i gid w0 = (Ok c, w0) \/ w0 = w /\ i = 0%nat -> pw_tables w0 = pw_tables w ->
  d_groups (st_db (pw_state w0)) = d_groups (st_db (pw_state w)) ->
  evaluate_group_source e i v u gid w0 = (Ok d, w') -> justified log e w v u d.
Proof.
  intros Hc w0 Hw0 Ht Hd H. apply bind_ok in H as (c' & w1 & Hl & H).
  assert (c' = c) as -> by (destruct Hw0 as [Hw0|[-> ->]]; [congruence|]; apply load_ok in Hl as (Hl & _); rewrite Hl in Hc; by injection Hc).
  apply load_ok in Hl as (_ & Hw1 & Hd1 & _). assert (Ht1 : pw_tables w1 = pw_tables w) by (by rewrite Hw1). clear Hw1.
  apply bind_ok in H as ([] & ? & (M1 & M2 & ->)%members_ok & H). apply bind_ok in H as (open & ? & [Ho ->]%reads_ok & H).
  assert (Hopen : open = group_lets_add e 2 gid w). { injection Ho as <-. unfold group_lets_add. by rewrite Hd1, Hd. } clear Ho.
  destruct (negb open && negb (privileged_in c v) && negb (privileged_in c u)) eqn:Hb.
  - apply ret_ok in H as [-> ->]. exists (MGroup gid c). cbn. done.
  - apply bind_ok in H as (p & ? & [Hp ->]%reads_ok & [-> ->]%ret_ok). rewrite Ht1 in Hp.
    destruct (addable_if_flags (allow_add_by_group p)) as [F1 F2]. exists (MGroup gid c). rewrite F1, F2. cbn. split_and!; [done..| |done|done].
    intros Ha%add_if_ok. split; [|by exists p]. rewrite <- Hopen. by destruct open, (privileged_in c v), (privileged_in c u).
Qed.

Lemma conversation_justified log e v u cid w d w' : evaluate_conversation_source e v u cid w = (Ok d, w') -> justified log e w v u d.
Proof.
  intros H. apply bind_ok in H as (c & w1 & Hl & H). pose proof Hl as (Hg & Hw1 & Hd & Hc)%load_ok.
  assert (Ht : pw_tables w1 = pw_tables w) by (by rewrite Hw1). case_decide as Hty.
  - eapply (group_justified log e 10); [by rewrite Hg| |done|done|done]. left.
    unfold load_channel, get_channel, get_channel_opt. rewrite Hc. cbn. clear. by destruct w1.
  - apply bind_ok in H as ([] & ? & (M1 & M2 & ->)%members_ok & [-> ->]%ret_ok). exists (MDirect cid c). cbn.
    unfold in_channel. rewrite Hg. done.
Qed.

Lemma card_justified log e v u sid w d w' : records_ok log w ->
  bind (validate_card_share_source e v u sid) (fun _ => bind (privacy e 1 u) (fun p => ret (addable_if (allow_add_by_card p)))) w = (Ok d, w') ->
  justified log e w v u d.
Proof.
  intros (_ & HC & _) H. apply bind_ok in H as ([] & w1 & Hv & H). apply bind_ok in Hv as (o & w2 & Hg & Hv).
  destruct (quiet_get_card _ _ _ _ _ _ Hg) as (Ht & _ & _). apply bind_ok in Hv as (r & ? & [Ho ->]%lift_ok & Hv). apply ok_or_Ok in Ho as ->.
  apply bind_ok in Hv as ([] & ? & [H1 ->]%check_ok & Hv). apply bind_ok in Hv as ([] & ? & [H2 ->]%check_ok & [H3 ->]%check_ok).
  apply bind_ok in H as (p & ? & [Hp ->]%reads_ok & [-> ->]%ret_ok). rewrite Ht in Hp.
  assert (Hh : held (pw_cards w) sid r).
  { unfold get_card_share in Hg. destruct (tiers_get _ _ _) as [o t] eqn:E. apply tiers_get_spec in E as [E _]. injection Hg as -> _. by apply E. }
  destruct (addable_if_flags (allow_add_by_card p)) as [F1 F2].
  exists (MCard r). rewrite F1, F2. cbn. split_and!; [by eapply HC|lia|lia|by apply negb_true_iff| |done|done]. intros Ha%add_if_ok. by exists p.
Qed.

Lemma evaluate_justified log e v u src w d w' : records_ok log w -> evaluate_detail_access e v u src w = (Ok d, w') -> justified log e w v u d.
Proof.
  intros Hok. unfold evaluate_detail_access. destruct (Z.eqb_spec v u) as [->|Hne]; [intros [-> ->]%ret_ok; by exists MSelf|].
  intros H. apply bind_ok in H as (f & ? & [Hf ->]%reads_ok & H). unfold try_is_friend in Hf. destruct (en_db e 3%nat); [done|]. injection Hf as <-.
  destruct (either_status (tb_friends (pw_tables w)) 1 v u) eqn:Hst; [apply ret_ok in H as [-> ->]; by exists MFriend|].
  destruct src as [sid|gid|fid|sid|cid|key|].
  - by eapply search_justified.
  - assert (exists c w1, load_channel e 0 gid w = (Ok c, w1)) as (c & w1 & Hl) by (apply bind_ok in H as (c & w1 & Hl & _); eauto).
    apply load_ok in Hl as (Hg & _). eapply (group_justified log e 0); [by rewrite Hg|by right|done|done|done].
  - done.
  - by eapply card_justified.
  - by eapply conversation_justified.
  - by eapply qr_justified.
  - done.
Qed.

(** Every handler leaves the users alone. *)
Definition keeps {E A} (m : Act E A) : Prop := forall w, tb_users (pw_tables (m w).2) = tb_users (pw_tables w).
Lemma keeps_quiet {E A} (m : Act E A) : quiet m -> keeps m.
Proof. intros Hq w. destruct (m w) as [x w1] eqn:Hm. destruct (Hq _ _ _ Hm) as (H & _). cbn. by rewrite H. Qed.
Lemma keeps_bind {E A B} (m : Act E A) (k : A -> Act E B) : keeps m -> (forall a, keeps (k a)) -> keeps (bind m k).
Proof. intros Hm Hk w. unfold bind. specialize (Hm w). destruct (m w) as [[a|] w1]; cbn in Hm; [|done]. by rewrite Hk. Qed.
Lemma keeps_or_else {E F A} (m : Act E A) (g : E -> F) : keeps m -> keeps (or_else m g).
Proof. intros Hm w. unfold or_else. specialize (Hm w). by destruct (m w) as [[|] w1]. Qed.
Lemma keeps_mark e i sid uid : keeps (mark_card_share_as_used e i sid uid).
Proof. unfold mark_card_share_as_used. apply keeps_bind; [apply keeps_quiet, quiet_get_card|]. intros [r|]; [by intros w|apply keeps_quiet; quieten]. Qed.
Lemma keeps_finish e from target msg src : keeps (finish_apply e from target msg src).
Proof.
  unfold finish_apply. apply keeps_bind.
  - intros w. destruct src as [[]|]; [done|done|apply keeps_mark|done..].
  - intros _ w. destruct (get_user_profile_with_fallback _ _ _ _ _ _) as [[[p|]|] c]; [|done..].
    by destruct (send_friend_request_with_source _ _ _ _ _ _ _) as [[? ?]|].
Qed.

Ltac keep_users :=
  repeat first
    [ solve [auto using keeps_finish]
    | solve [intros ?; reflexivity]
    | solve [apply keeps_quiet; quieten]
    | apply keeps_bind; [|intros ?]
    | apply keeps_or_else
    | match goal with
      | |- keeps (if ?b then _ else _) => destruct b
      | |- keeps (match ?x with _ => _ end) => destruct x
      | |- keeps (fun w => _) => intros w
      end ].

Lemma keeps_search e ctx query : keeps (do_search e ctx query).
Proof.
  unfold handle_search. keep_users. unfold platform_username_searchable. by destruct (pw_platform w) as [? []].
Qed.
Lemma keeps_scan e ctx key : keeps (handle_search_by_qrcode e ctx key).
Proof. unfold handle_search_by_qrcode, privacy. keep_users; by destruct (get_user_profile_fresh _ _ _ _ _). Qed.
Lemma keeps_share e ctx target receiver : keeps (handle_share_card e ctx target receiver).
Proof. unfold handle_share_card. keep_users. Qed.
Lemma keeps_detail e ctx q : keeps (handle_detail e ctx q).
Proof. pose proof quiet_view. unfold handle_detail. keep_users. Qed.
Lemma keeps_apply e ctx q : keeps (handle_apply e ctx q).
Proof. pose proof quiet_evaluate. unfold handle_apply, apply_with_grant, apply_with_source, get_profile_view_grant. keep_users. Qed.

Lemma reach_users log w : reach log w -> users_ok (tb_users (pw_tables w)).
Proof. induction 1; rewrite ?keeps_search, ?keeps_scan, ?keeps_share, ?keeps_detail, ?keeps_apply; done. Qed.

Lemma blocks_clear e i a b w : blocks_or_none e i a b w = (false, false) -> en_db e i = None ->
  tb_blacklist (pw_tables w) !! pair_key a b = None /\ tb_blacklist (pw_tables w) !! pair_key b a = None.
Proof.
  intros H Hdb. unfold blocks_or_none in H. assert (Hc : forall t x y, check_mutual_block (fun _ => en_db e i) t x y = check_mutual_block no_faults t x y).
  { intros. unfold check_mutual_block. by rewrite Hdb. }
  rewrite Hc, check_mutual_block_spec in H. injection H as H1 H2. apply bool_decide_eq_false in H1, H2. by rewrite !eq_None_not_Some.
Qed.

(** What [account/user/detail] answers: the owner's id, and no more than the meeting allows. *)
Definition answer_ok (log : list Call) (e : Env) (w : ProfileWorld) (v u : Z) (r : DetailReply) : Prop :=
  dr_user_id r = u /\
  exists m, met log e w v u m /\
    (dr_username r <> EmptyString -> knows_name m) /\
    (dr_phone r <> None \/ dr_email r <> None -> v = u) /\
    (dr_can_add_friend r = true -> v <> u /\ lets_add e w v u m /\
       (en_db e 10%nat = None -> tb_blacklist (pw_tables w) !! pair_key v u = None /\ tb_blacklist (pw_tables w) !! pair_key u v = None)).

Lemma fresh_id e i u w p w' : users_ok (tb_users (pw_tables w)) -> is_u64 u -> fresh_profile e i u w = (Ok p, w') -> parse_u64 (pf_user_id p.1) = Some u.
Proof.
  intros Hus Hu. unfold fresh_profile, get_user_profile_fresh_versioned, user_query, find_related_one. destruct (en_db e i); [done|].
  destruct (tb_users (pw_tables w) !! as_i64 u) as [x|] eqn:Hx; cbn; [|done]. destruct (as_i64 0 <? u_sync_version x); cbn; [|done].
  intros [= <- _]. cbn. apply Hus in Hx. rewrite Hx, as_u64_as_i64 by done. by apply parse_u64_to_string.
Qed.

Lemma view_answers log e w v q d r w' : reach log w -> is_u64 (dq_target_user_id q) -> view_profile e v q w = (Ok (d, r), w') ->
  answer_ok log e w v (dq_target_user_id q) r.
Proof.
  intros Hr Hu H. unfold view_profile in H. set (u := dq_target_user_id q) in *. pose proof (reach_records _ _ Hr) as Hok. pose proof (reach_users _ _ Hr) as Hus.
  apply bind_ok in H as ([] & w1 & H1 & H).
  assert (W1 : w1 = set_profiles w (pw_profiles w1)).
  { destruct (u =? v); [apply ret_ok in H1 as [_ ->]; by destruct w|]. unfold reachable_user in H1.
    destruct (ensure_reachable_user _ _ _ _ _ _). by injection H1 as _ <-. }
  apply bind_ok in H as (ty & ? & [_ ->]%lift_ok & H). apply bind_ok in H as (src & ? & [_ ->]%lift_ok & H).
  apply bind_ok in H as (d' & w2 & He%or_else_ok & H). apply bind_ok in H as (p & w3 & Hp & H).
  apply bind_ok in H as (r' & ? & [Hpr ->]%reads_ok & [[= -> ->] ->]%ret_ok). injection Hpr as <-.
  destruct (quiet_evaluate _ _ _ _ _ _ _ He) as (T2 & _ & _). destruct (quiet_fresh _ _ _ _ _ _ Hp) as (T3 & _ & _).
  assert (T : pw_tables w3 = pw_tables w) by (rewrite T3, T2, W1; done).
  assert (Hid : parse_u64 (pf_user_id p.1) = Some u).
  { eapply fresh_id; [|exact Hu|exact Hp]. by rewrite T2, W1. }
  assert (J : justified log e w v u d').
  { assert (J1 : justified log e w1 v u d'); [|by rewrite W1 in J1]. eapply evaluate_justified; [|done]. rewrite W1. eapply records_loses; [done|by apply loses_same]. }
  unfold answer_ok, project. rewrite Hid. cbn. split; [by destruct (blocks_or_none _ _ _ _ _)|].
  destruct (blocks_or_none e 10 v u w3) as [a b] eqn:Hb. cbn. destruct (Z.eqb_spec v u) as [->|Hne]; cbn; [by exists MSelf|].
  destruct J as (m & Hm & Ha & Hn & Hf). exists m. split_and!; [done| | |].
  - destruct (dv_is_friend d') eqn:Ef; [rewrite Hf by done; done|]. destruct (dv_username_unlocked d'); [intros _; by apply Hn|done].
  - naive_solver.
  - intros [Hab%negb_true_iff Hadd]%andb_true_iff. apply orb_false_iff in Hab as [-> ->]. split_and!; [done|by apply Ha|].
    intros Hdb. rewrite <- T. by eapply blocks_clear.
Qed.


Lemma detail_answers log e w ctx q r w' v : reach log w -> is_u64 (dq_target_user_id q) -> get_current_user_id ctx = Ok v ->
  handle_detail e ctx q w = (Ok r, w') -> answer_ok log e w v (dq_target_user_id q) r /\
  (v <> dq_target_user_id q -> exists ty,
     (lookup_user_type (en_up e 4) (en_db e 4%nat) (tb_users (pw_tables w)) (dq_target_user_id q) (pw_profiles w)).1 = Ok ty /\ ty <> Some ASSISTANT_USER_TYPE).
Proof.
  intros Hr Hu Hv H. unfold handle_detail in H. apply bind_ok in H as (x & ? & [Hx ->]%lift_ok & H). assert (x = v) as -> by congruence.
  apply bind_ok in H as ([d r'] & w1 & Hview & H). apply bind_ok in H as ([] & ? & _ & [-> _]%ret_ok). cbn. split; [by eapply view_answers|].
  intros Hne. unfold view_profile in Hview. apply bind_ok in Hview as ([] & w2 & H1 & _). destruct (Z.eqb_spec (dq_target_user_id q) v); [congruence|].
  unfold reachable_user, ensure_reachable_user, is_unreachable_user in H1. destruct (lookup_user_type _ _ _ _ _) as [[ty|] c]; cbn in H1; [|done].
  exists ty. split; [done|]. intros ->. cbn in H1. done.
Qed.

(** C10. A profile is shown only after a meeting. Whatever calls were made before, and
    whatever became of the tables, the groups, the QR codes and the caches meanwhile: when
    account/user/detail answers, the answer is about the user that was asked for, that
    user is no personal assistant to others, and the viewer is that user, or a friend, or
    found them by a search of its own within the last hour that their settings allow, or
    holds a valid QR key of theirs, or is in a group or conversation with them, or was
    given their card by a friend of theirs. The account name is shown only to the user, to
    friends and to who searched by that name; phone and e-mail only to the user; and the
    answer offers to add the user only when the user's own settings for that way of
    meeting allow it, when in a group also its policy or one of the two being owner or
    administrator does (a policy that is missing or cannot be read allows it), and, if the
    blacklist can be read, neither has blocked the other (a blacklist that cannot be read
    counts as empty). *)
Theorem profile_needs_a_meeting log w e ctx q r w' v :
  reach log w -> is_u64 (dq_target_user_id q) -> get_current_user_id ctx = Ok v -> handle_detail e ctx q w = (Ok r, w') ->
  let u := dq_target_user_id q in
  (v <> u -> exists ty, (lookup_user_type (en_up e 4) (en_db e 4%nat) (tb_users (pw_tables w)) u (pw_profiles w)).1 = Ok ty /\
     ty <> Some ASSISTANT_USER_TYPE) /\
  dr_user_id r = u /\
  exists m, met log e w v u m /\
    (dr_username r <> EmptyString -> knows_name m) /\
    (dr_phone r <> None \/ dr_email r <> None -> v = u) /\
    (dr_can_add_friend r = true -> v <> u /\ lets_add e w v u m /\
       (en_db e 10%nat = None -> tb_blacklist (pw_tables w) !! pair_key v u = None /\ tb_blacklist (pw_tables w) !! pair_key u v = None)).
Proof. intros Hr Hu Hv H u. destruct (detail_answers _ _ _ _ _ _ _ _ Hr Hu Hv H) as [Ha Ht]. split; [exact Ht|exact Ha]. Qed.

(** ** Applications *)
Lemma finish_ok e from target msg src w x w' : finish_apply e from target msg src w = (Ok x, w') ->
  from <> target /\ is_friend (fun i => en_db e (10 + i)%nat) 0 (tb_friends (pw_tables w)) from target = false /\
  (row_status (tb_friends (pw_tables w')) (pair_key from target) = Some 0 \/ row_status (tb_friends (pw_tables w)) (pair_key from target) = Some 1).
Proof.
  unfold finish_apply, bind. intros H.
  set (w1 := (match src with Some (SrcCardShare sid) => (mark_card_share_as_used e 6 sid from w).2 | _ => w end)).
  assert (T1 : pw_tables w1 = pw_tables w).
  { unfold w1. destruct src as [[]|]; try done. unfold mark_card_share_as_used, bind. destruct (get_card_share e 6 share_id w) as [[[?|]|] ?] eqn:Hg;
      destruct (quiet_get_card _ _ _ _ _ _ Hg) as (Ht & _ & _); exact Ht. }
  replace (match src with Some (SrcCardShare sid) => (Ok tt, (mark_card_share_as_used e 6 sid from w).2) | _ => (Ok tt, w) end : result unit RpcError * ProfileWorld)
    with (Ok tt : result unit RpcError, w1) in H by (unfold w1; by destruct src as [[]|]).
  destruct (get_user_profile_with_fallback _ _ _ _ _ _) as [[[p|]|] c]; try done. cbn in H. rewrite T1 in H.
  destruct (send_friend_request_with_source _ _ _ _ _ _ _) as [[t ft]|] eqn:Hs; [|done]. injection H as _ <-. cbn.
  unfold send_friend_request_with_source in Hs. destruct (Z.eqb_spec from target); [done|]. destruct (is_friend _ _ _ _ _) eqn:Hf; [done|].
  split_and!; [done..|]. destruct (source_to_strings src) as [a b]. cbn in Hs. destruct (en_db e 11%nat); [done|]. injection Hs as _ <-.
  rewrite upsert_row_status, decide_True by done. unfold row_status.
  destruct (ft_rows (tb_friends (pw_tables w)) !! pair_key from target) as [row|]; cbn; [|by left].
  destruct (Z.eqb_spec (fr_status row) 1) as [->|]; auto.
Qed.

(** A view of [u] by [v] at most ten minutes ago that offered to add [u]. *)
Definition viewed_lately (log : list Call) (e : Env) (v u : Z) : Prop :=
  exists e1 w1 m later ctx1 q1 earlier, log = later ++ CDetail e1 ctx1 q1 w1 :: earlier /\ en_now e <= en_now e1 + GRANT_TTL_MINUTES * minute_ns /\
    get_current_user_id ctx1 = Ok v /\ dq_target_user_id q1 = u /\ met earlier e1 w1 v u m /\ lets_add e1 w1 v u m.

Lemma grant_shows log e w g k : records_ok log w -> pw_grants w !! k = Some g -> grant_expired (en_now e) g = false -> pg_can_add_friend g = true ->
  viewed_lately log e (pg_viewer_id g) (pg_target_id g).
Proof.
  intros (_ & _ & HG) Hg Hx Ha. destruct (HG _ _ Hg) as (e1 & ctx1 & q1 & w1 & r & later & earlier & -> & Hr & Hu & Hd & Hv & Ht & Hc & Hnow & Hex).
  destruct (handle_detail e1 ctx1 q1 w1) as [x w1'] eqn:Hh. cbn in Hd. subst x.
  destruct (detail_answers _ _ _ _ _ _ _ _ Hr Hu Hv Hh) as [[Hid (m & Hm & _ & _ & Hadd)] _]. rewrite Hc in Ha. destruct (Hadd Ha) as (_ & Hl & _).
  rewrite Ht, Hid. exists e1, w1, m, later, ctx1, q1, earlier. split_and!; try done. unfold grant_expired in Hx. lia.
Qed.

(** C11. A friend request needs a meeting. Whatever happened before: when
    contact/friend/apply accepts a request of [v] to [u], the two are different users, the
    request is stored as pending (or an older friendship row is kept), and either [v] has
    looked at the profile of [u] within the last ten minutes after a meeting that lets
    users add each other, and nobody blocks the other when the blacklist can be read; or
    [v] meets [u] in the request itself, in a way that lets it add [u] (or as a friend,
    when the second look at the friendship fails). *)
Theorem friend_request_needs_a_meeting log w e ctx q x w' v :
  reach log w -> get_current_user_id ctx = Ok v -> handle_apply e ctx q w = (Ok x, w') ->
  let u := fa_target_user_id q in
  v <> u /\
  (row_status (tb_friends (pw_tables w')) (pair_key v u) = Some 0 \/ row_status (tb_friends (pw_tables w)) (pair_key v u) = Some 1) /\
  ((viewed_lately log e v u /\
    (en_db e 5%nat = None -> tb_blacklist (pw_tables w) !! pair_key v u = None /\ tb_blacklist (pw_tables w) !! pair_key u v = None)) \/
   exists m, met log e w v u m /\ (lets_add e w v u m \/ m = MFriend /\ en_db e 10%nat <> None)).
Proof.
  intros Hr Hv H u. pose proof (reach_records _ _ Hr) as Hok. unfold handle_apply in H. fold u in H.
  apply bind_ok in H as (v' & ? & [Hv' ->]%lift_ok & H). assert (v' = v) as -> by congruence.
  apply bind_ok in H as ([] & w1 & H1 & H). assert (W1 : w1 = set_profiles w (pw_profiles w1)).
  { unfold reachable_user in H1. destruct (ensure_reachable_user _ _ _ _ _ _). by injection H1 as _ <-. }
  assert (T1 : pw_tables w1 = pw_tables w) by (by rewrite W1). assert (G1 : pw_grants w1 = pw_grants w) by (by rewrite W1). clear H1.
  destruct (fa_grant_id q) as [text|].
  - unfold apply_with_grant in H. apply bind_ok in H as (gid & ? & [_ ->]%lift_ok & H). apply bind_ok in H as (o & ? & [Ho ->]%or_else_ok%reads_ok & H).
    apply bind_ok in H as (g & ? & [Hg ->]%lift_ok & H). apply ok_or_Ok in Hg as ->.
    destruct ((pg_viewer_id g =? v) && (pg_target_id g =? u)) eqn:Hm; cbn [negb] in H; [|done]. apply andb_true_iff in Hm as [Hgv%Z.eqb_eq Hgu%Z.eqb_eq].
    destruct (pg_can_add_friend g) eqn:Ha; cbn [negb] in H; [|done]. apply bind_ok in H as (bl & ? & [Hb ->]%reads_ok & H). injection Hb as <-.
    destruct (blocks_or_none e 5 v u w1) as [a b] eqn:Hb. cbn in H. destruct a, b; cbn in H; try done.
    apply finish_ok in H as (Hne & _ & Hrow). rewrite T1 in Hrow. split_and!; [done..|]. left. split.
    + unfold get_from_redis, keep in Ho. destruct (en_up e 0); [|done]. injection Ho as Ho.
      destruct (pw_grants w1 !! gid) as [g'|] eqn:Hg; cbn in Ho; [|done]. destruct (grant_expired (en_now e) g') eqn:Hx; cbn in Ho; [done|].
      injection Ho as ->. rewrite <- Hgv, <- Hgu. eapply grant_shows; [done|by rewrite <- G1|done|done].
    + intros Hdb. rewrite <- T1. by eapply blocks_clear.
  - unfold apply_with_source in H. destruct (fa_source q) as [ty|], (fa_source_id q) as [text|]; try done.
    apply bind_ok in H as (src & ? & [_ ->]%lift_ok & H). apply bind_ok in H as (d & w2 & He%or_else_ok & H).
    destruct (quiet_evaluate _ _ _ _ _ _ _ He) as (T2 & _ & _).
    assert (J : justified log e w v u d).
    { assert (J1 : justified log e w1 v u d); [|by rewrite W1 in J1]. eapply evaluate_justified; [|done]. rewrite W1. eapply records_loses; [done|by apply loses_same]. }
    destruct (negb (dv_can_add_friend d) && negb (dv_is_friend d)) eqn:Hd; [done|]. apply finish_ok in H as (Hne & Hnf & Hrow).
    rewrite T2, T1 in Hrow, Hnf. split_and!; [done..|]. right. destruct J as (m & Hm & Ha & _ & Hf). exists m. split; [done|].
    destruct (dv_can_add_friend d); [left; by apply Ha|]. cbn in Hd. apply negb_false_iff in Hd. right. specialize (Hf Hd). subst m. split; [done|].
    intros Hdb. unfold is_friend, try_is_friend in Hnf. cbn in Hnf, Hm. rewrite Hdb in Hnf. congruence.
Qed.
End Meetings.

(** ** A run: 7 searches for "bob", opens the profile found and applies *)
#[local] Instance run_metadata : QrMetadata := {| Metadata := option string; metadata_token := fun m => m; metadata_null := None; metadata_empty := None |}.
Definition field (k : string) (l : list (string * bool)) : option bool := snd <$> last (filter (fun p => p.1 = k) l).
#[local] Instance run_privacy : PrivacyColumn := {|
  PrivacyJson := list (string * bool);
  pj_is_null := fun _ => false;
  pj_from_value := fun l => Ok (mkStored (field "allow_add_by_group" l) (field "allow_add_by_card" l) (field "allow_search_by_phone" l)
    (field "allow_search_by_username" l) (field "allow_search_by_email" l) (field "allow_search_by_qrcode" l)
    (field "allow_view_by_non_friend" l) (field "allow_receive_message_from_non_friend" l));
  pj_object := fun l => l;
  pj_concat := fun a b => a ++ b
|}.
#[local] Instance run_sources : DetailSourceCodec := {| detail_source_type := fun s =>
  if decide (s = "search"%string) then Some DsSearch else if decide (s = "qrcode"%string) then Some DsQrcode else None |}.
#[local] Instance run_permission_column : PermissionColumn := {| PermJson := unit; permissions_of_json := fun _ => None; empty_object := tt |}.
#[local] Instance run_chrono : Chrono := {| timestamp := fun t => t / 10 ^ 9; timestamp_millis := fun t => t / 10 ^ 6; from_timestamp_millis := fun m => Some (m * 10 ^ 6) |}.
#[local] Instance run_postgres : Postgres := {| pg_message := fun _ => "violation"%string |}.

Definition same (s : string) : string := s.
Definition bob : User := mkUser 8 (Some "bob"%string) (Some "+49"%string) (Some "Bob"%string) None None 0 "k" 1.
Definition run_tables : Tables := mkTables {[8 := bob]} friend_table_new ∅ ∅ ∅ None.
Definition run_start : ProfileWorld :=
  mkProfiles run_tables (mkState (mkGroupDb ∅ ∅ ∅ ∅ [] ∅ ∅ ∅) service_new) (mkTiers ∅ ∅) (mkTiers ∅ ∅) (mkTiers ∅ ∅) ∅ qr_service_new (mkTiers ∅ ∅) (true, false).
Definition run_env (now id : Z) : Env := mkEnv now 0 id no_faults (fun _ => true) no_io.
Definition alice : RpcContext := mkRpcContext (Some "7"%string) None.
Definition run_search : list Call * ProfileWorld :=
  ([CSearch (run_env 100 55) alice "bob" run_start], (handle_search same same (run_env 100 55) alice "bob" run_start).2).
Definition run_view : DetailRequest := mkDetailReq 8 "search" "55".
Definition run_viewed : result DetailReply RpcError * ProfileWorld := handle_detail (run_env 200 66) alice run_view run_search.2.
Definition run_apply : ApplyRequest := mkApply 8 None (Some "66"%string) None None None.

Lemma run_search_reach : reach same same run_search.1 run_search.2.
Proof.
  refine (reach_search same same [] run_start (run_env 100 55) alice "bob" (reach_start same same run_start _ _)).
  - split_and!; [intros k r; unfold held; cbn; rewrite lookup_empty; naive_solver..|done].
  - intros k u H. change (({[8 := bob]} : gmap Z User) !! k = Some u) in H. apply lookup_singleton_Some in H as [<- <-]. done.
Qed.
Lemma run_view_reach : reach same same (CDetail (run_env 200 66) alice run_view run_search.2 :: run_search.1) run_viewed.2.
Proof. refine (reach_detail same same _ _ (run_env 200 66) alice run_view run_search_reach _). done. Qed.

Lemma profile_needs_a_meeting_witness :
  (exists r, run_viewed.1 = Ok r /\ dr_username r = "bob"%string /\ dr_phone r = None /\ dr_can_add_friend r = true) /\
  exists m, met same same run_search.1 (run_env 200 66) run_search.2 7 8 m.
Proof.
  destruct run_viewed as [[r|] w'] eqn:E.
  2: { exfalso. assert (H : is_ok run_viewed.1 = true) by (vm_compute; reflexivity). rewrite E in H. discriminate H. }
  split.
  - exists r. split; [done|]. assert (H : match run_viewed.1 with Ok r => (dr_username r, dr_phone r, dr_can_add_friend r) | Err _ => (EmptyString, None, false) end
      = ("bob"%string, None, true)) by (vm_compute; reflexivity). rewrite E in H. by injection H.
  - destruct (profile_needs_a_meeting same same run_search.1 run_search.2 (run_env 200 66) alice run_view r w' 7) as (_ & _ & m & Hm & _).
    + exact run_search_reach.
    + split; reflexivity || discriminate.
    + reflexivity.
    + exact E.
    + exists m. exact Hm.
Defined.

Lemma friend_request_needs_a_meeting_witness :
  is_ok (handle_apply (run_env 300 77) alice run_apply run_viewed.2).1 = true /\
  row_status (tb_friends (pw_tables (handle_apply (run_env 300 77) alice run_apply run_viewed.2).2)) (7, 8) = Some 0.
Proof.
  assert (K : is_ok (handle_apply (run_env 300 77) alice run_apply run_viewed.2).1 = true) by (vm_compute; reflexivity).
  split; [exact K|]. destruct (handle_apply (run_env 300 77) alice run_apply run_viewed.2) as [[x|] w'] eqn:E; [|discriminate K].
  destruct (friend_request_needs_a_meeting same same _ run_viewed.2 (run_env 300 77) alice run_apply x w' 7 run_view_reach eq_refl E) as (_ & [H|H] & _); [exact H|].
  exfalso. assert (N : row_status (tb_friends (pw_tables run_viewed.2)) (7, 8) = None) by (vm_compute; reflexivity).
  change (row_status (tb_friends (pw_tables run_viewed.2)) (7, 8) = Some 1) in H. rewrite N in H. discriminate H.
Defined.

(** The column of the run behaves as [jsonb] does. *)
Lemma field_snoc k a p : field k (a ++ [p]) = if decide (p.1 = k) then Some p.2 else field k a.
Proof.
  unfold field. rewrite filter_app. cbn. case_decide; [by rewrite last_snoc|by rewrite app_nil_r].
Qed.
#[local] Instance run_laws : JsonbLaws run_privacy.
Proof.
  split; [done|]. intros v l s _. cbn. intros [= <-]. revert v. induction l as [|p l IH]; intros v; cbn; [by rewrite app_nil_r|].
  rewrite (cons_middle p v l), (assoc_L app), IH. f_equal. unfold override_field. cbn. by rewrite !field_snoc.
Qed.
Definition shy : @PrivacyJson run_privacy := [("allow_add_by_group"%string, false)].
Definition no_cards : PrivacySettingsUpdate := mkUpdate None (Some false) None None None None None None.
Lemma privacy_update_reads_back_witness :
  exists column, update_privacy_settings false false 1 no_faults 7 no_cards {[7 := shy]} = (Ok (mkPrivacy 7 false false true true true true false true 1), column).
Proof.
  destruct (privacy_update_reads_back 1 false 7 no_cards {[7 := shy]} shy (mkPrivacy 7 false true true true true true false true 1)) as (c & H & _).
  - reflexivity.
  - reflexivity.
  - reflexivity.
  - exists c. exact H.
Defined.
