(* ===== verification/QrFacts.v ===== *)
(** * Facts about QR codes

    A key is scanned no more often than its limit allows, never after its time, and never
    again once it is revoked ([qr_keys_run_out]). The permanent card key of a user is not
    a key of this service, so that a scanned card is refused as the source of a profile
    view ([card_keys_are_no_source]); a refresh for somebody else's id makes a key that is
    accepted ([refresh_forges_a_card]). *)

From stdpp Require Import base numbers gmap list sorting strings relations.
From S2P Require Import Prelude Channel Friend SendAuth Timeline Submit Group GroupService Payload Users QrCode Profile ProfileFacts.
Import Blacklist Friends.
Local Open Scope Z_scope.

#[local] Arguments generate_random_key _ : simpl never.

Section Keys.
Context `{QM : QrMetadata} (add_seconds : Z -> Z -> option Z).

(** New keys are drawn at random from 36^12; a draw does not hit a key that exists. *)
Inductive key_step (s : QRCodeService) : QRCodeService -> Prop :=
| QGenerate now draw ty target creator o : qs_storage s !! generate_random_key draw = None ->
    (forall m, qo_max_usage o = Some m -> m < 2 ^ 31) -> key_step s (generate add_seconds now draw ty target creator o s).2
| QRefresh now draw target ty creator : qs_storage s !! generate_random_key draw = None ->
    key_step s (refresh_key add_seconds now draw target ty creator s).2
| QResolve now key scanner token : key_step s (resolve now key scanner token s).2
| QRevoke key : key_step s (revoke_key key s).2
| QRevokeTarget target : key_step s (revoke_by_target target s).2.

Definition success_of (k : string) (l : QRScanLog) : Prop := sl_key l = k /\ sl_success l = true.
#[export] Instance success_of_dec k l : Decision (success_of k l).
Proof. unfold success_of. apply _. Defined.
Definition successes (k : string) (s : QRCodeService) : Z := Z.of_nat (length (filter (success_of k) (qs_scan_logs s))).

(** What stays with a key whatever is done to it. *)
Definition same_key (r r' : QRKeyRecord) : Prop :=
  qk_key r' = qk_key r /\ qk_type r' = qk_type r /\ qk_target_id r' = qk_target_id r /\ qk_creator_id r' = qk_creator_id r /\
  qk_expire_at r' = qk_expire_at r /\ qk_max_usage r' = qk_max_usage r.

Definition key_ok (s : QRCodeService) (k : string) (r : QRKeyRecord) : Prop :=
  qk_key r = k /\ String.length k = 12%nat /\
  (forall m, qk_max_usage r = Some m -> m < 2 ^ 31 /\ qk_used_count r = successes k s /\ successes k s <= Z.max 0 m) /\
  (forall l t, l ∈ qs_scan_logs s -> success_of k l -> qk_expire_at r = Some t -> sl_scanned_at l <= t).
Definition service_ok (s : QRCodeService) : Prop :=
  (forall k r, qs_storage s !! k = Some r -> key_ok s k r) /\
  (forall k, qs_storage s !! k = None -> filter (success_of k) (qs_scan_logs s) = []) /\
  (forall t k, qs_target_index s !! t = Some k -> exists r, qs_storage s !! k = Some r /\ qk_target_id r = t).

Lemma draw_string_length alphabet draws : String.length (draw_string alphabet draws) = length draws.
Proof. induction draws as [|i draws IH]; [done|]. cbn. by rewrite IH. Qed.
Lemma random_key_length draw : String.length (generate_random_key draw) = 12%nat.
Proof. unfold generate_random_key. by rewrite draw_string_length, length_fmap, length_seq. Qed.

(** Revoking changes a flag. *)
Lemma revoke_ok s k r index : service_ok s -> qs_storage s !! k = Some r ->
  (forall t x, index !! t = Some x -> qs_target_index s !! t = Some x) -> service_ok (mkQr (<[k := with_revoked r]> (qs_storage s)) index (qs_scan_logs s)).
Proof.
  intros (HK & HN & HI) Hr Hix. split_and!; cbn.
  - intros k' r'. rewrite lookup_insert_Some. intros [[<- <-]|[_ H]]; [exact (HK _ _ Hr)|exact (HK _ _ H)].
  - intros k' [H _]%lookup_insert_None. exact (HN _ H).
  - intros t x Hx. destruct (HI _ _ (Hix _ _ Hx)) as (r' & H & <-). destruct (decide (k = x)) as [->|Hne].
    + exists (with_revoked r). rewrite lookup_insert_eq. assert (r' = r) as -> by congruence. done.
    + exists r'. by rewrite lookup_insert_ne.
Qed.
Lemma revoke_target_ok t s : service_ok s -> service_ok (revoke_by_target t s).2.
Proof.
  intros Hok. unfold revoke_by_target. destruct (qs_target_index s !! t) as [k|] eqn:Ht; [|done]. destruct (qs_storage s !! k) as [r|] eqn:Hr; [|done].
  eapply revoke_ok; [done|done|]. intros t' x [_ H]%lookup_delete_Some. done.
Qed.
Lemma key_insert_ok s k r : service_ok s -> qs_storage s !! k = None -> qk_key r = k -> String.length k = 12%nat -> qk_used_count r = 0 ->
  (forall m, qk_max_usage r = Some m -> m < 2 ^ 31) ->
  service_ok (mkQr (<[k := r]> (qs_storage s)) (<[qk_target_id r := k]> (qs_target_index s)) (qs_scan_logs s)).
Proof.
  intros (HK & HN & HI) Hn Hk Hl Hu Hm. split_and!; cbn.
  - intros k' r'. rewrite lookup_insert_Some. intros [[<- <-]|[_ H]]; [|exact (HK _ _ H)]. split_and!; [done..| |].
    + intros m Hmax. unfold successes; cbn. rewrite (HN _ Hn). cbn. split_and!; [by apply Hm|done|lia].
    + intros l t Hin Hs. exfalso. assert (l ∈ filter (success_of k) (qs_scan_logs s)) as Hl' by (by apply list_elem_of_filter). rewrite (HN _ Hn) in Hl'. by apply not_elem_of_nil in Hl'.
  - intros k' [H _]%lookup_insert_None. exact (HN _ H).
  - intros t x. rewrite lookup_insert_Some. intros [[<- <-]|[_ H]]; [exists r; by rewrite lookup_insert_eq|].
    destruct (HI _ _ H) as (r' & Hr' & Ht). exists r'. rewrite lookup_insert_ne; [done|]. by intros ->; rewrite Hn in Hr'.
Qed.
Lemma generate_ok now draw ty target creator o s : service_ok s -> qs_storage s !! generate_random_key draw = None ->
  (forall m, qo_max_usage o = Some m -> m < 2 ^ 31) -> service_ok (generate add_seconds now draw ty target creator o s).2.
Proof.
  intros Hok Hn Hm. unfold generate. set (s1 := if qo_revoke_old o then (revoke_by_target target s).2 else s).
  assert (H1 : service_ok s1) by (unfold s1; destruct (qo_revoke_old o); [by apply revoke_target_ok|done]).
  assert (N1 : qs_storage s1 !! generate_random_key draw = None).
  { unfold s1. destruct (qo_revoke_old o); [|done]. unfold revoke_by_target. destruct (qs_target_index s !! target) as [k|]; [|done].
    destruct (qs_storage s !! k) as [r|] eqn:Hr; [|done]. cbn. rewrite lookup_insert_ne; [done|]. congruence. }
  destruct (match qo_expire_seconds o with Some n => Some <$> add_seconds now n | None => Some None end) as [ex|]; [|done]. cbn.
  eapply (key_insert_ok _ _ (mkKey _ _ _ _ _ _ _ _ _ _)); cbn; [done|done|done|apply random_key_length|done|]. intros m. destruct (qo_one_time o); [intros [= <-]; lia|apply Hm].
Qed.
Lemma refresh_ok now draw target ty creator s : service_ok s -> qs_storage s !! generate_random_key draw = None ->
  service_ok (refresh_key add_seconds now draw target ty creator s).2.
Proof.
  intros Hok Hn. unfold refresh_key. pose proof (revoke_target_ok target _ Hok) as H1. destruct (revoke_by_target target s) as [old s1] eqn:E.
  assert (N1 : qs_storage s1 !! generate_random_key draw = None).
  { unfold revoke_by_target in E. destruct (qs_target_index s !! target) as [k|]; [|by injection E as <- <-].
    destruct (qs_storage s !! k) as [r|] eqn:Hr; injection E as <- <-; [|done]. cbn. rewrite lookup_insert_ne; [done|]. congruence. }
  pose proof (generate_ok now draw ty target creator key_options_default s1 H1 N1 ltac:(done)) as H2.
  by destruct (generate _ _ _ _ _ _ _ _) as [r s2].
Qed.

Lemma successes_log k now key who err s : successes k (log_scan now key who err s) =
  successes k s + (if decide (key = k /\ err = None) then 1 else 0).
Proof.
  unfold successes, log_scan. cbn [qs_scan_logs]. rewrite filter_app, length_app. cbn [filter list_filter].
  destruct (decide (success_of k _)) as [[H1 H2]|H1], (decide (key = k /\ err = None)) as [H3|H3]; cbn in *; try lia; exfalso.
  - apply H3. by destruct err.
  - apply H1. destruct H3 as [-> ->]. done.
Qed.

Lemma resolve_ok now key scanner token s : service_ok s -> service_ok (resolve now key scanner token s).2.
Proof.
  intros (HK & HN & HI). unfold resolve. destruct (qs_storage s !! key) as [r|] eqn:Hr; [|done].
  destruct (resolve_gate now token r) as [[e text]|] eqn:Hg; cbn.
  - split_and!; cbn; [|intros k Hk; rewrite filter_app, (HN _ Hk); cbn; by rewrite decide_False by (by intros [? ?])|done].
    intros k r' Hr'. destruct (HK _ _ Hr') as (H1 & H2 & H3 & H4). split_and!; [done..| |].
    + intros m Hm. rewrite successes_log, decide_False by naive_solver. rewrite Z.add_0_r. by apply H3.
    + cbn. intros l t [Hl| ->%list_elem_of_singleton]%elem_of_app Hs; [by eapply H4|]. by destruct Hs.
  - assert (G : key_expired now r = false /\ is_usage_exceeded r = false).
    { unfold resolve_gate in Hg. destruct (qk_revoked r), (key_expired now r), (is_usage_exceeded r); done. }
    destruct G as [Gx Gu]. split_and!; cbn.
    + intros k r'. rewrite lookup_insert_Some. intros [[<- <-]|[Hne Hr']].
      * destruct (HK _ _ Hr) as (H1 & H2 & H3 & H4). split_and!; cbn; [done..| |].
        -- intros m Hm. destruct (H3 m Hm) as (Hm1 & Hu & Hle). rewrite successes_log. unfold successes; cbn. fold (successes key s).
           rewrite decide_True by done. unfold is_usage_exceeded in Gu. rewrite Hm in Gu. apply Z.leb_gt in Gu. unfold as_i32.
           assert (0 <= successes key s) by (unfold successes; lia). rewrite Hu in *. rewrite Z.mod_small by lia.
           destruct (Z.ltb_spec (successes key s + 1) (2 ^ 31)); lia.
        -- intros l t [Hl| ->%list_elem_of_singleton]%elem_of_app Hs Ht; [by eapply H4|]. cbn. unfold key_expired in Gx. rewrite Ht in Gx. lia.
      * destruct (HK _ _ Hr') as (H1 & H2 & H3 & H4). split_and!; cbn; [done..| |].
        -- intros m Hm. rewrite successes_log, decide_False by naive_solver. rewrite Z.add_0_r. by apply H3.
        -- intros l t [Hl| ->%list_elem_of_singleton]%elem_of_app Hs; [by eapply H4|]. destruct Hs; cbn in *; congruence.
    + intros k [Hk Hne]%lookup_insert_None. rewrite filter_app, (HN _ Hk). cbn. by rewrite decide_False by (intros [? ?]; cbn in *; congruence).
    + intros t k Hk. destruct (HI _ _ Hk) as (r' & Hr' & <-). destruct (decide (key = k)) as [->|Hne].
      * eexists. rewrite lookup_insert_eq. split; [done|]. by assert (r' = r) as -> by congruence.
      * exists r'. by rewrite lookup_insert_ne.
Qed.

Lemma key_step_ok s s' : service_ok s -> key_step s s' -> service_ok s'.
Proof.
  intros Hok [now draw ty target creator o Hn Hm|now draw target ty creator Hn|now key scanner token|key|target].
  - by apply generate_ok.
  - by apply refresh_ok.
  - by apply resolve_ok.
  - unfold revoke_key. destruct (qs_storage s !! key) as [r|] eqn:Hr; [|done]. by eapply revoke_ok.
  - by apply revoke_target_ok.
Qed.
Lemma key_reachable_ok s : rtc key_step qr_service_new s -> service_ok s.
Proof.
  intros H. cut (forall a, rtc key_step a s -> service_ok a -> service_ok s).
  - intros K. apply (K _ H). split_and!; [intros k r; cbn; by rewrite lookup_empty|done|intros t k; cbn; by rewrite lookup_empty].
  - clear. induction 1; eauto using key_step_ok.
Qed.

(** ** The life of a key *)
Definition goes_on (k : string) (s s' : QRCodeService) : Prop := forall r, qs_storage s !! k = Some r ->
  exists r', qs_storage s' !! k = Some r' /\ same_key r r' /\
    (qk_revoked r = true -> qk_revoked r' = true /\ successes k s' = successes k s).
Lemma goes_on_trans k s1 s2 s3 : goes_on k s1 s2 -> goes_on k s2 s3 -> goes_on k s1 s3.
Proof.
  intros H1 H2 r Hr. destruct (H1 r Hr) as (r1 & Hr1 & S1 & R1). destruct (H2 r1 Hr1) as (r2 & Hr2 & S2 & R2).
  exists r2. split_and!; [done| |].
  - unfold same_key in *. destruct S1 as (? & ? & ? & ? & ? & ?), S2 as (? & ? & ? & ? & ? & ?). split_and!; congruence.
  - intros [Hv1 E1]%R1. destruct (R2 Hv1) as [Hv2 E2]. split; [done|congruence].
Qed.
Lemma goes_on_revoked k s key r index : qs_storage s !! key = Some r -> goes_on k s (mkQr (<[key := with_revoked r]> (qs_storage s)) index (qs_scan_logs s)).
Proof.
  intros Hr r0 H0. cbn. destruct (decide (key = k)) as [->|Hne].
  - assert (r0 = r) as -> by congruence. exists (with_revoked r). by rewrite lookup_insert_eq.
  - exists r0. by rewrite lookup_insert_ne.
Qed.
Lemma goes_on_refl k s : goes_on k s s.
Proof. intros r Hr. by exists r. Qed.
Lemma goes_on_revoke_target k target s : goes_on k s (revoke_by_target target s).2.
Proof.
  unfold revoke_by_target. destruct (qs_target_index s !! target) as [x|]; [|apply goes_on_refl].
  destruct (qs_storage s !! x) as [r|] eqn:Hr; [by apply goes_on_revoked|apply goes_on_refl].
Qed.
Lemma goes_on_generate k now draw ty target creator o s : qs_storage s !! generate_random_key draw = None ->
  goes_on k s (generate add_seconds now draw ty target creator o s).2.
Proof.
  intros Hn. unfold generate. set (s1 := if qo_revoke_old o then (revoke_by_target target s).2 else s).
  assert (H1 : goes_on k s s1) by (unfold s1; destruct (qo_revoke_old o); [apply goes_on_revoke_target|apply goes_on_refl]).
  destruct (match qo_expire_seconds o with Some n => Some <$> add_seconds now n | None => Some None end) as [ex|]; [|done]. cbn.
  intros r Hr. destruct (H1 r Hr) as (r1 & Hr1 & ?). exists r1. cbn. rewrite lookup_insert_ne; [done|]. intros <-. congruence.
Qed.

Lemma step_goes_on k s s' : key_step s s' -> goes_on k s s'.
Proof.
  intros [now draw ty target creator o Hn Hm|now draw target ty creator Hn|now key scanner token|key|target].
  - by apply goes_on_generate.
  - unfold refresh_key. pose proof (goes_on_revoke_target k target s) as H1. destruct (revoke_by_target target s) as [old s1] eqn:E. cbn in H1.
    assert (N1 : qs_storage s1 !! generate_random_key draw = None).
    { unfold revoke_by_target in E. destruct (qs_target_index s !! target) as [x|]; [|by injection E as <- <-].
      destruct (qs_storage s !! x) as [r|] eqn:Hr; injection E as <- <-; [|done]. cbn. rewrite lookup_insert_ne; [done|]. congruence. }
    pose proof (goes_on_generate k now draw ty target creator key_options_default s1 N1) as H2.
    destruct (generate _ _ _ _ _ _ _ _) as [r s2]. cbn in *. by eapply goes_on_trans.
  - unfold resolve. destruct (qs_storage s !! key) as [r|] eqn:Hr; [|apply goes_on_refl]. destruct (resolve_gate now token r) as [[e text]|] eqn:Hg; cbn.
    + intros r0 Hr0. exists r0. cbn. split_and!; [done..|]. intros Hv. split; [done|]. rewrite successes_log, decide_False by naive_solver. lia.
    + intros r0 Hr0. cbn. destruct (decide (key = k)) as [->|Hne].
      * assert (r0 = r) as -> by congruence. eexists. rewrite lookup_insert_eq. split_and!; [done|done|]. cbn. intros Hv. unfold resolve_gate in Hg. by rewrite Hv in Hg.
      * exists r0. rewrite lookup_insert_ne by done. split_and!; [done..|]. intros Hv. split; [done|]. rewrite successes_log, decide_False by naive_solver. cbn. unfold successes; cbn. lia.
  - unfold revoke_key. destruct (qs_storage s !! key) as [r|] eqn:Hr; [by apply goes_on_revoked|apply goes_on_refl].
  - apply goes_on_revoke_target.
Qed.
Lemma run_goes_on k s s' : rtc key_step s s' -> goes_on k s s'.
Proof. induction 1; [apply goes_on_refl|]. eapply goes_on_trans; [by apply step_goes_on|done]. Qed.

(** C21. A QR key runs out. Whatever was generated, scanned, refreshed and revoked: a key
    with a limit has been scanned successfully at most that often, and never after its
    time; from then on it keeps its target, its creator, its time and its limit whatever
    is done next, and once it is revoked it stays so and no scan of it succeeds again. *)
Theorem qr_keys_run_out s k r :
  rtc key_step qr_service_new s -> qs_storage s !! k = Some r ->
  (forall m, qk_max_usage r = Some m -> successes k s <= Z.max 0 m) /\
  (forall l t, l ∈ qs_scan_logs s -> sl_key l = k -> sl_success l = true -> qk_expire_at r = Some t -> sl_scanned_at l <= t) /\
  forall s', rtc key_step s s' -> exists r', qs_storage s' !! k = Some r' /\ same_key r r' /\
    (qk_revoked r = true -> qk_revoked r' = true /\ successes k s' = successes k s).
Proof.
  intros Hs Hr. destruct (key_reachable_ok _ Hs) as (HK & _). destruct (HK _ _ Hr) as (_ & _ & H3 & H4). split_and!.
  - intros m Hm. by apply (H3 m Hm).
  - intros l t Hl Hk Hv. by apply H4.
  - intros s' H. by apply (run_goes_on k) in H; apply H.
Qed.
End Keys.

(** ** Runs *)
#[local] Instance scan_metadata : QrMetadata := {| Metadata := option string; metadata_token := fun m => m; metadata_null := None; metadata_empty := None |}.
Definition scan_seconds (now s : Z) : option Z := Some (now + s * 10 ^ 9).
Definition once : QRKeyOptions := mkKeyOptions (Some 60) None true true None.
Definition scan_made : QRCodeService := (generate scan_seconds 0 (fun i => i) QrUser "7" "7" once qr_service_new).2.
Definition scan_done : QRCodeService := (resolve 5 (generate_random_key (fun i => i)) 9 None scan_made).2.
Definition scan_again : QRCodeService := (resolve 6 (generate_random_key (fun i => i)) 10 None scan_done).2.
Lemma scan_run : rtc (key_step scan_seconds) qr_service_new scan_again.
Proof.
  eapply rtc_l; [refine (QGenerate scan_seconds _ 0 (fun i => i) QrUser "7" "7" once _ _); [reflexivity|done]|].
  eapply rtc_l; [exact (QResolve scan_seconds _ 5 (generate_random_key (fun i => i)) 9 None)|]. apply rtc_once. exact (QResolve scan_seconds _ 6 (generate_random_key (fun i => i)) 10 None).
Qed.

Lemma qr_keys_run_out_witness :
  (length (qs_scan_logs scan_again) = 2%nat /\ successes (generate_random_key (fun i => i)) scan_again = 1) /\
  successes (generate_random_key (fun i => i)) scan_again <= 1.
Proof.
  split; [vm_compute; split; reflexivity|].
  destruct (qs_storage scan_again !! generate_random_key (fun i => i)) as [r|] eqn:E.
  2: { exfalso. assert (H : bool_decide (is_Some (qs_storage scan_again !! generate_random_key (fun i => i))) = true) by (vm_compute; reflexivity).
       rewrite E in H. vm_compute in H. discriminate H. }
  destruct (qr_keys_run_out scan_seconds scan_again _ r scan_run E) as (H & _ & _).
  refine (H 1 _). assert (M : (x ← qs_storage scan_again !! generate_random_key (fun i => i); qk_max_usage x) = Some 1) by (vm_compute; reflexivity).
  rewrite E in M. exact M.
Defined.

(** ** Cards and keys *)
Section Cards.
Context `{QM : QrMetadata, PC : PrivacyColumn, Pj : PermissionColumn, Pg : Postgres, Ch : Chrono, DC : DetailSourceCodec}.
Context (add_seconds : Z -> Z -> option Z).

(** The key on a user's permanent card has sixteen characters, those of the service have
    twelve: a card that was scanned is never accepted as the source of a view. *)
Theorem card_keys_are_no_source e u draw w :
  rtc (key_step add_seconds) qr_service_new (pw_qr w) ->
  (evaluate_qrcode_source e u (generate_qr_key draw) w).1 = Err (Forbidden "QR key not found").
Proof.
  intros H. unfold evaluate_qrcode_source, bind, reads, qr_get. destruct (qs_storage (pw_qr w) !! generate_qr_key draw) as [r|] eqn:Hr; [|done].
  exfalso. destruct (key_reachable_ok _ _ H) as (HK & _). destruct (HK _ _ Hr) as (_ & L & _). unfold generate_qr_key in L.
  rewrite draw_string_length, length_fmap, length_seq in L. done.
Qed.
End Cards.

(** ** What the checks let through *)
#[local] Instance leak_privacy : PrivacyColumn := {|
  PrivacyJson := unit; pj_is_null := fun _ => true; pj_from_value := fun _ => Err EmptyString; pj_object := fun _ => tt; pj_concat := fun _ _ => tt |}.
#[local] Instance leak_sources : DetailSourceCodec := {| detail_source_type := fun s =>
  if decide (s = "search"%string) then Some DsSearch else if decide (s = "qrcode"%string) then Some DsQrcode else None |}.
#[local] Instance leak_permissions : PermissionColumn := {| PermJson := unit; permissions_of_json := fun _ => None; empty_object := tt |}.
#[local] Instance leak_chrono : Chrono := {| timestamp := fun t => t; timestamp_millis := fun t => t; from_timestamp_millis := Some |}.
#[local] Instance leak_postgres : Postgres := {| pg_message := fun _ => EmptyString |}.
Definition carol : User := mkUser 8 (Some "carol"%string) None (Some "Carol"%string) None None 0 "k" 1.
Definition leak_world (bl : blacklist_table) (qr : QRCodeService) : ProfileWorld :=
  mkProfiles (mkTables {[8 := carol]} friend_table_new bl ∅ ∅ None) (mkState (mkGroupDb ∅ ∅ ∅ ∅ [] ∅ ∅ ∅) service_new)
    (mkTiers ∅ ∅) (mkTiers ∅ ∅) (mkTiers ∅ ∅) ∅ qr (mkTiers ∅ ∅) (true, true).
Definition leak_env : Env := mkEnv 100 0 55 no_faults (fun _ => true) no_io.
Definition mallory : RpcContext := mkRpcContext (Some "7"%string) None.

(** qrcode/refresh does not compare the target with the caller, as qrcode/generate does:
    user 7 makes a card of user 8, which then opens the profile and lets 7 apply. *)
Theorem refresh_forges_a_card :
  let key := generate_random_key (fun i => i) in
  let p := handle_qr_refresh scan_seconds 90 (fun i => i) mallory (Some "user"%string) (Some "8"%string) qr_service_new in
  let r := (handle_detail leak_env mallory (mkDetailReq 8 "qrcode" key) (leak_world ∅ p.2)).1 in
  match p.1 with Some (Ok (_, k, _)) => k = key | _ => False end /\
  match r with Ok r => dr_nickname r = "Carol"%string /\ dr_can_add_friend r = true | Err _ => False end.
Proof. vm_compute. split; [reflexivity|]. split; reflexivity. Qed.

(** Without a grant the blacklist is not asked: user 8 blocks user 7, whose request is
    stored all the same. *)
Theorem blocked_user_applies_by_source :
  let w := (handle_search (fun s => s) (fun s => s) leak_env mallory "carol" (leak_world {[(8, 7) := (None, 0)]} qr_service_new)).2 in
  let p := handle_apply leak_env mallory (mkApply 8 None None (Some "search"%string) (Some "55"%string) None) w in
  is_ok p.1 = true /\ row_status (tb_friends (pw_tables p.2)) (7, 8) = Some 0.
Proof. vm_compute. split; reflexivity. Qed.

(** The blacklist handlers believe the owner named in the request: user 7 takes itself
    off the list of user 8. *)
Theorem blacklist_changed_by_another_user :
  tb_blacklist (pw_tables (handle_blacklist_remove leak_env mallory 8 7 (leak_world {[(8, 7) := (None, 0)]} qr_service_new)).2) !! (8, 7) = None.
Proof. vm_compute. reflexivity. Qed.
