(* ===== verification/ClientState.v ===== *)
(** * The security state of a client

    Models src/src/security/client_state.rs: the five states a client can be put into, the
    trust score of a device with its record of violations, and the manager that moves a
    client from state to state when it violates a limit.

    Instants and durations are nanoseconds. Where the source reads the clock more than
    once in a method, the model reads it once. *)

From stdpp Require Import base numbers gmap list strings.
From S2P Require Import Prelude.
Local Open Scope Z_scope.

Definition secs (n : Z) : Z := n * 1000000000.
Definition millis (n : Z) : Z := n * 1000000.

Inductive ClientState := Normal | Throttled | WriteDisabled | ShadowBanned | Disconnected.
#[export] Instance client_state_eq_dec : EqDecision ClientState.
Proof. solve_decision. Defined.

Definition can_send_message (s : ClientState) : bool :=
  match s with Normal | Throttled | ShadowBanned => true | _ => false end.
Definition can_write_rpc (s : ClientState) : bool :=
  match s with Normal | Throttled | ShadowBanned => true | _ => false end.
Definition can_read_rpc (s : ClientState) : bool := negb (bool_decide (s = Disconnected)).
Definition should_silent_drop (s : ClientState) : bool := bool_decide (s = ShadowBanned).
Definition get_throttle_delay (s : ClientState) : option Z :=
  match s with Throttled => Some (millis 500) | _ => None end.

Inductive ViolationType :=
| RateExceeded | AuthFailed | MalformedRequest | SuspiciousActivity | ProtocolAttack | Spam | FanoutAbuse.
#[export] Instance violation_eq_dec : EqDecision ViolationType.
Proof. solve_decision. Defined.

Record StateTransition := mkTransition { tr_from : ClientState; tr_to : ClientState; tr_reason : ViolationType; tr_duration : option Z }.
Record ViolationRecord := mkViolation { vr_type : ViolationType; vr_timestamp : Z; vr_penalty : Z }.

(** ** Trust *)
Record TrustScore := mkTrust {
  ts_user_id : Z; ts_device_id : string; ts_score : Z; ts_account_age_days : Z;
  ts_violations : list ViolationRecord; ts_last_updated : Z
}.
Definition trust_new (now user_id : Z) (device_id : string) : TrustScore := mkTrust user_id device_id 100 0 [] now.

Definition violation_penalty (v : ViolationType) : Z :=
  match v with
  | RateExceeded => 5 | AuthFailed => 10 | MalformedRequest => 20 | SuspiciousActivity => 30
  | ProtocolAttack => 100 | Spam => 50 | FanoutAbuse => 40
  end.

(** A violation costs points; the last hundred are kept. *)
Definition last_hundred {A} (l : list A) : list A := if (100 <? length l)%nat then drop (length l - 100) l else l.
Definition record_violation (now : Z) (v : ViolationType) (t : TrustScore) : TrustScore :=
  let penalty := violation_penalty v in
  mkTrust (ts_user_id t) (ts_device_id t) (saturating_sub (ts_score t) penalty) (ts_account_age_days t)
    (last_hundred (ts_violations t ++ [mkViolation v now penalty])) now.
(** The sum is of two [u32]. *)
Definition trust_reward (now points : Z) (t : TrustScore) : TrustScore :=
  mkTrust (ts_user_id t) (ts_device_id t) (Z.min (as_u32 (ts_score t + points)) 1000) (ts_account_age_days t) (ts_violations t) now.
Definition daily_recovery (t : TrustScore) : TrustScore :=
  if ts_score t <? 500
  then mkTrust (ts_user_id t) (ts_device_id t) (Z.min (as_u32 (ts_score t + 10)) 500) (ts_account_age_days t) (ts_violations t) (ts_last_updated t)
  else t.

(** ** The manager *)
Record ClientStateManager := mkManager {
  sm_state : ClientState; sm_trust : TrustScore; sm_history : list StateTransition; sm_expiry : option Z
}.
Definition manager_new (now user_id : Z) (device_id : string) : ClientStateManager :=
  mkManager Normal (trust_new now user_id device_id) [] None.

Definition current_state (now : Z) (m : ClientStateManager) : ClientState :=
  match sm_expiry m with
  | Some expiry => if expiry <=? now then Normal else sm_state m
  | None => sm_state m
  end.
Definition with_trust (g : TrustScore -> TrustScore) (m : ClientStateManager) : ClientStateManager :=
  mkManager (sm_state m) (g (sm_trust m)) (sm_history m) (sm_expiry m).

Definition transition_to (now : Z) (new : ClientState) (reason : ViolationType) (duration : option Z) (m : ClientStateManager) : ClientStateManager :=
  mkManager new (record_violation now reason (sm_trust m))
    (sm_history m ++ [mkTransition (sm_state m) new reason duration])
    match duration with Some d => Some (now + d) | None => None end.

(** Where a violation leads, and for how long. *)
Definition escalation (current : ClientState) (v : ViolationType) : ClientState * Z :=
  match current, v with
  | Normal, RateExceeded => (Throttled, secs 60)
  | Throttled, RateExceeded => (WriteDisabled, secs 300)
  | WriteDisabled, _ => (ShadowBanned, secs 3600)
  | _, ProtocolAttack => (Disconnected, secs 1800)
  | _, Spam => (ShadowBanned, secs 7200)
  | _, _ => (Throttled, secs 30)
  end.
Definition auto_escalate (now : Z) (v : ViolationType) (m : ClientStateManager) : ClientStateManager :=
  let '(target, d) := escalation (current_state now m) v in transition_to now target v (Some d) m.

(** ** Facts *)

(** What holds of every trust score: within its range, with a bounded record. *)
Definition trust_ok (t : TrustScore) : Prop := 0 <= ts_score t <= 1000 /\ (length (ts_violations t) <= 100)%nat.

Lemma trust_new_ok now u d : trust_ok (trust_new now u d).
Proof. split; cbn; lia. Qed.
Lemma last_hundred_length {A} (l : list A) : (length (last_hundred l) <= 100)%nat.
Proof. unfold last_hundred. destruct (Nat.ltb_spec 100 (length l)); [rewrite length_drop; lia|done]. Qed.
Lemma record_violation_ok now v t : trust_ok t -> trust_ok (record_violation now v t).
Proof. intros [Hs Hl]. split; [|apply last_hundred_length]. cbn. unfold saturating_sub. destruct v; cbn; lia. Qed.
Lemma trust_reward_ok now p t : 0 <= p -> trust_ok t -> trust_ok (trust_reward now p t).
Proof. intros Hp [Hs Hl]. split; cbn; [|done]. unfold as_u32. pose proof (Z.mod_pos_bound (ts_score t + p) (2 ^ 32) ltac:(lia)). lia. Qed.
Lemma daily_recovery_ok t : trust_ok t -> trust_ok (daily_recovery t).
Proof.
  intros [Hs Hl]. unfold daily_recovery. destruct (Z.ltb_spec (ts_score t) 500); [|done]. split; cbn; [|done].
  unfold as_u32. rewrite Z.mod_small by lia. lia.
Qed.
#[export] Hint Resolve trust_new_ok record_violation_ok daily_recovery_ok : privchat.

(** An escalation ends within two hours. *)
Lemma escalation_bounded c v : 0 < (escalation c v).2 <= secs 7200.
Proof. destruct c, v; cbn; unfold secs; lia. Qed.
Lemma escalation_not_normal c v : (escalation c v).1 <> Normal.
Proof. by destruct c, v. Qed.
Lemma escalated_state now v m : current_state now (auto_escalate now v m) = (escalation (current_state now m) v).1.
Proof.
  unfold auto_escalate. pose proof (escalation_bounded (current_state now m) v) as Hb. destruct (escalation _ v) as [target d]. cbn in *.
  destruct (Z.leb_spec (now + d) now); [lia|done].
Qed.
