(* ===== verification/RateLimit.v ===== *)
(** * Rate limits

    Models src/src/security/rate_limiter.rs: the price list of RPC methods, token buckets,
    the table of buckets that is split over sixteen locks, the check of a call against up
    to four buckets, and the price of a message by its recipients.

    An [f64] is a binary64 number of the Standard Library's specification of floating
    point ([spec_float] with 53 bits and exponents below 1024), with rounding to nearest
    even as in Rust; comparisons and the saturating cast to [u32] are those of Rust, NaN
    included. The hash of a key is an argument: which lock a key belongs to never shows.

    [check_and_consume] is written against [BucketStore], which is what the limiter needs
    of the table. The source's table ([sharded]) and a plain map ([flat]) are instances;
    [sharded_limiter_is_one_map] relates them. *)

From Stdlib Require Import SpecFloat.
From stdpp Require Import base numbers gmap list strings relations.
From S2P Require Import Prelude ClientState.
Local Open Scope Z_scope.

(** ** Numbers *)
Notation f64 := spec_float.
Definition f64_mul : f64 -> f64 -> f64 := SFmul 53 1024.
Definition f64_add : f64 -> f64 -> f64 := SFadd 53 1024.
Definition f64_sub : f64 -> f64 -> f64 := SFsub 53 1024.
Definition f64_div : f64 -> f64 -> f64 := SFdiv 53 1024.
Definition f64_of (z : Z) : f64 := binary_normalize 53 1024 z 0 false.
(** The literal [n / d], correctly rounded. *)
Definition f64_lit (n d : Z) : f64 := f64_div (f64_of n) (f64_of d).
Definition f64_is_nan (x : f64) : bool := match x with S754_nan => true | _ => false end.
Definition f64_ltb : f64 -> f64 -> bool := SFltb.
(** [a >= b]. *)
Definition f64_geb (a b : f64) : bool := SFleb b a.
(** [f64::min]. *)
Definition f64_min (a b : f64) : f64 :=
  if f64_is_nan a then b else if f64_is_nan b then a else if f64_ltb a b then a else b.
(** [x.ceil() as u32]. *)
Definition f64_ceil_u32 (x : f64) : Z :=
  match x with
  | S754_nan | S754_zero _ | S754_infinity true | S754_finite true _ _ => 0
  | S754_infinity false => u32_max
  | S754_finite false m e => Z.min u32_max (if 0 <=? e then Z.pos m * 2 ^ e else div_ceil (Z.pos m) (2 ^ (- e)))
  end.
(** [Duration::as_secs_f64]. *)
Definition as_secs_f64 (d : Z) : f64 :=
  f64_add (f64_of (d / 1000000000)) (f64_div (f64_of (d mod 1000000000)) (f64_of 1000000000)).

(** ** Prices *)
Record RpcCost := mkCost { rc_tokens : Z; rc_is_stateful : bool; rc_is_sensitive : bool }.
Definition cost_light (n : Z) : RpcCost := mkCost n false false.
Definition cost_stateful (n : Z) : RpcCost := mkCost n true false.
Definition cost_sensitive (n : Z) : RpcCost := mkCost n true true.

Definition one_of (m : string) (l : list string) : bool := bool_decide (m ∈ l).
Definition get_cost (m : string) : RpcCost :=
  if one_of m ["auth.login"; "auth.register"] then cost_sensitive 50
  else if one_of m ["sync.pull"; "sync.getDifference"] then cost_stateful 20
  else if one_of m ["messages.readHistory"; "messages.ack"] then cost_stateful 2
  else if one_of m ["account.updateStatus"] then cost_stateful 10
  else if one_of m ["users.getProfile"; "users.getInfo"] then cost_light 1
  else if one_of m ["contacts.getList"] then cost_light 5
  else if one_of m ["contacts.search"] then cost_light 10
  else if one_of m ["messages.send"] then cost_stateful 5
  else if one_of m ["channels.createChannel"] then cost_stateful 20
  else if one_of m ["channels.inviteMembers"] then cost_stateful 15
  else if one_of m ["sync.getFullState"] then cost_stateful 100
  else if one_of m ["channels.getAllMembers"] then cost_stateful 50
  else cost_light 5.

(** [TrustScore::get_rate_multiplier]. *)
Definition get_rate_multiplier (t : TrustScore) : f64 :=
  let s := ts_score t in
  if s <=? 100 then f64_lit 1 2 else if s <=? 300 then f64_lit 8 10 else if s <=? 600 then f64_of 1
  else if s <=? 800 then f64_lit 3 2 else if s <=? 1000 then f64_of 2 else f64_of 1.

Definition get_rpc_specific_rate (m : string) (k : f64) : f64 * f64 :=
  let rates a b := (f64_mul (f64_of a) k, f64_mul (f64_of b) k) in
  if one_of m ["auth.login"; "auth.register"] then rates 1 3
  else if one_of m ["sync.pull"] then rates 2 5
  else if one_of m ["contacts.search"] then rates 5 10
  else if one_of m ["users.getProfile"] then rates 50 100
  else rates 10 20.

(** ** A bucket *)
Record TokenBucket := mkBucket { tb_tokens : f64; tb_capacity : f64; tb_refill_rate : f64; tb_last_update : Z }.
Definition bucket_new (now : Z) (capacity rate : f64) : TokenBucket := mkBucket capacity capacity rate now.
Definition refill (now : Z) (b : TokenBucket) : TokenBucket :=
  let elapsed := as_secs_f64 (Z.max 0 (now - tb_last_update b)) in
  mkBucket (f64_min (f64_add (tb_tokens b) (f64_mul elapsed (tb_refill_rate b))) (tb_capacity b)) (tb_capacity b) (tb_refill_rate b) now.
Definition try_consume (now : Z) (cost : f64) (b : TokenBucket) : bool * TokenBucket :=
  let b := refill now b in
  if f64_geb (tb_tokens b) cost
  then (true, mkBucket (f64_sub (tb_tokens b) cost) (tb_capacity b) (tb_refill_rate b) (tb_last_update b))
  else (false, b).
Definition remaining (now : Z) (b : TokenBucket) : f64 * TokenBucket := let b := refill now b in (tb_tokens b, b).

(** ** Keys and tables *)
Inductive RateLimitKey :=
| LimitUser (u : Z) | LimitUserRpc (u : Z) (method : string) | LimitUserChannel (u c : Z) | LimitChannel (c : Z) | LimitIp (ip : string).
#[export] Instance rate_limit_key_eq_dec : EqDecision RateLimitKey.
Proof. solve_decision. Defined.
#[export] Instance rate_limit_key_countable : Countable RateLimitKey.
Proof.
  apply (inj_countable'
    (fun k => match k with
      | LimitUser u => inl u | LimitUserRpc u m => inr (inl (u, m)) | LimitUserChannel u c => inr (inr (inl (u, c)))
      | LimitChannel c => inr (inr (inr (inl c))) | LimitIp ip => inr (inr (inr (inr ip))) end)
    (fun e => match e with
      | inl u => LimitUser u | inr (inl (u, m)) => LimitUserRpc u m | inr (inr (inl (u, c))) => LimitUserChannel u c
      | inr (inr (inr (inl c))) => LimitChannel c | inr (inr (inr (inr ip))) => LimitIp ip end)).
  by intros [].
Defined.

Class BucketStore (S : Type) := {
  try_consume_internal : Z -> RateLimitKey -> f64 -> f64 -> f64 -> S -> bool * S
}.

Notation shard := (gmap RateLimitKey TokenBucket).
(** [entry(key).or_insert_with(..)] and the bucket's answer. *)
Definition consume_in (now : Z) (k : RateLimitKey) (cost rate capacity : f64) (m : shard) : bool * shard :=
  let '(ok, b) := try_consume now cost (default (bucket_new now capacity rate) (m !! k)) in (ok, <[k := b]> m).

Definition SHARD_COUNT : Z := 16.
Record ShardedBuckets := mkShards { sb_shards : list shard }.
Definition sharded_new : ShardedBuckets := mkShards (replicate (Z.to_nat SHARD_COUNT) ∅).

Section Sharded.
Context (hash_key : RateLimitKey -> Z).
Definition shard_index (k : RateLimitKey) : nat := Z.to_nat (hash_key k mod SHARD_COUNT).
Definition get_shard (k : RateLimitKey) (s : ShardedBuckets) : shard := default ∅ (sb_shards s !! shard_index k).
Definition sharded_consume (now : Z) (k : RateLimitKey) (cost rate capacity : f64) (s : ShardedBuckets) : bool * ShardedBuckets :=
  let '(ok, m) := consume_in now k cost rate capacity (get_shard k s) in
  (ok, mkShards (<[shard_index k := m]> (sb_shards s))).
#[local] Instance sharded : BucketStore ShardedBuckets := {| try_consume_internal := sharded_consume |}.
End Sharded.

#[export] Instance flat : BucketStore shard := {| try_consume_internal := consume_in |}.

(** ** The limiter *)
Record RateLimitConfig := mkRates {
  user_tokens_per_second : f64; user_burst_capacity : f64;
  channel_messages_per_second : f64; channel_burst_capacity : f64;
  ip_connections_per_second : f64; ip_burst_capacity : f64
}.
Definition rate_limit_default : RateLimitConfig := mkRates (f64_of 50) (f64_of 100) (f64_of 3) (f64_of 10) (f64_of 5) (f64_of 10).

Section Limiter.
Context {St : Type} `{B : BucketStore St} (cfg : RateLimitConfig).

(** The buckets of a conversation, for a message only. *)
Definition check_channel (now user_id conv_id : Z) (k : f64) (s : St) : (bool * option ViolationType) * St :=
  let '(ok, s) := try_consume_internal now (LimitUserChannel user_id conv_id) (f64_of 1)
    (f64_mul (channel_messages_per_second cfg) k) (f64_mul (channel_burst_capacity cfg) k) s in
  if negb ok then ((false, Some FanoutAbuse), s) else
  let '(ok, s) := try_consume_internal now (LimitChannel conv_id) (f64_of 1)
    (f64_mul (channel_messages_per_second cfg) (f64_of 10)) (f64_mul (channel_burst_capacity cfg) (f64_of 10)) s in
  if negb ok then ((false, Some FanoutAbuse), s) else ((true, None), s).

Definition check_and_consume (now user_id : Z) (method : string) (channel_id : option Z) (t : TrustScore) (s : St)
    : (bool * option ViolationType) * St :=
  let cost := f64_of (rc_tokens (get_cost method)) in
  let k := get_rate_multiplier t in
  let '(ok, s) := try_consume_internal now (LimitUser user_id) cost
    (f64_mul (user_tokens_per_second cfg) k) (f64_mul (user_burst_capacity cfg) k) s in
  if negb ok then ((false, Some RateExceeded), s) else
  let rate := get_rpc_specific_rate method k in
  let '(ok, s) := try_consume_internal now (LimitUserRpc user_id method) cost rate.1 rate.2 s in
  if negb ok then ((false, Some RateExceeded), s) else
  match channel_id with
  | Some conv_id => if String.prefix "messages.send" method then check_channel now user_id conv_id k s else ((true, None), s)
  | None => ((true, None), s)
  end.

Definition check_ip_connection (now : Z) (ip : string) (s : St) : bool * St :=
  try_consume_internal now (LimitIp ip) (f64_of 1) (ip_connections_per_second cfg) (ip_burst_capacity cfg) s.
End Limiter.

(** ** The price of a message *)
Definition fanout_multiplier (n : Z) : f64 :=
  if (1 <=? n) && (n <=? 10) then f64_of 1 else if (11 <=? n) && (n <=? 100) then f64_of 2
  else if (101 <=? n) && (n <=? 500) then f64_of 5 else if (501 <=? n) && (n <=? 1000) then f64_of 10 else f64_of 20.
Definition size_multiplier (n : Z) : f64 :=
  if n <=? 1024 then f64_of 1 else if n <=? 10240 then f64_lit 3 2 else if n <=? 102400 then f64_of 2 else f64_of 3.
Definition calculate_message_cost (recipient_count message_size : Z) (is_media : bool) : Z :=
  f64_ceil_u32 (f64_mul (f64_mul (f64_mul (f64_of 1) (fanout_multiplier recipient_count)) (size_multiplier message_size))
    (if is_media then f64_of 2 else f64_of 1)).
