(* ===== verification/RateLimitFacts.v ===== *)
(** * Facts about rate limits

    The table split over sixteen locks answers like one map, whatever the hash
    ([sharded_limiter_is_one_map]); calls that share no bucket do not influence each other
    ([limits_are_separate]); a method that costs more than its bucket can hold is never
    admitted ([priced_out_is_refused]). *)

From Stdlib Require Import SpecFloat.
From stdpp Require Import base numbers gmap list strings relations.
From S2P Require Import Prelude ClientState RateLimit.
Local Open Scope Z_scope.

#[local] Arguments f64_of _ : simpl never.
#[local] Arguments f64_lit _ _ : simpl never.
#[local] Arguments f64_mul _ _ : simpl never.

(** ** Sequences of calls *)
Inductive limit_call :=
| CallRpc (now user_id : Z) (method : string) (channel_id : option Z) (t : TrustScore)
| CallConnect (now : Z) (ip : string).

Section Calls.
Context {St : Type} `{B : BucketStore St} (cfg : RateLimitConfig).
Definition answer (c : limit_call) (s : St) : (bool * option ViolationType) * St :=
  match c with
  | CallRpc now u m ch t => check_and_consume cfg now u m ch t s
  | CallConnect now ip => let '(ok, s) := check_ip_connection cfg now ip s in ((ok, None), s)
  end.
Fixpoint run_calls (cs : list limit_call) (s : St) : list (bool * option ViolationType) * St :=
  match cs with
  | [] => ([], s)
  | c :: cs => let '(a, s) := answer c s in let '(l, s) := run_calls cs s in (a :: l, s)
  end.
End Calls.

(** The buckets a call may ask, with the capacity it would create them with. *)
Definition call_takes (cfg : RateLimitConfig) (c : limit_call) : list (RateLimitKey * f64) :=
  match c with
  | CallRpc _ u m ch t =>
      let k := get_rate_multiplier t in
      (LimitUser u, f64_mul (user_burst_capacity cfg) k) :: (LimitUserRpc u m, (get_rpc_specific_rate m k).2) ::
      match ch with
      | Some c => if String.prefix "messages.send" m
                  then [(LimitUserChannel u c, f64_mul (channel_burst_capacity cfg) k); (LimitChannel c, f64_mul (channel_burst_capacity cfg) (f64_of 10))]
                  else []
      | None => []
      end
  | CallConnect _ ip => [(LimitIp ip, ip_burst_capacity cfg)]
  end.
Definition takes_only (cfg : RateLimitConfig) (K : RateLimitKey -> f64 -> Prop) (c : limit_call) : Prop :=
  Forall (fun p => K p.1 p.2) (call_takes cfg c).

(** ** One store answers like another *)
Section Simulation.
Context {S1 S2 : Type} (B1 : BucketStore S1) (B2 : BucketStore S2) (R : S1 -> S2 -> Prop) (K : RateLimitKey -> f64 -> Prop).
Definition same_answer {A} (p : A * S1) (q : A * S2) : Prop := p.1 = q.1 /\ R p.2 q.2.
Context (Hsim : forall now k cost rate cap s1 s2, K k cap -> R s1 s2 ->
  same_answer (try_consume_internal now k cost rate cap s1) (try_consume_internal now k cost rate cap s2)).

Ltac sim_step :=
  match goal with H : R ?x ?y, HK : K ?k ?p |- context [try_consume_internal ?n ?k ?c ?r ?p ?x] =>
    let E := fresh in let HR := fresh in
    destruct (Hsim n k c r p x y HK H) as [E HR];
    destruct (try_consume_internal n k c r p x) as [? ?], (try_consume_internal n k c r p y) as [[] ?];
    cbn in E, HR; subst; clear H HK; cbn; [|try by split]
  end.

Lemma answer_sim cfg c s1 s2 : takes_only cfg K c -> R s1 s2 -> same_answer (answer (B := B1) cfg c s1) (answer (B := B2) cfg c s2).
Proof.
  intros HT HR. destruct c as [now u m ch t|now ip]; unfold takes_only in HT; cbn [answer call_takes] in *.
  - apply Forall_cons in HT as [HK HT]; apply Forall_cons in HT as [HK' HT]; cbn [fst snd] in *. unfold check_and_consume; cbv zeta. sim_step. sim_step.
    destruct ch as [c|]; [|by split]. destruct (String.prefix _ _); [|by split].
    apply Forall_cons in HT as [HK HT]; apply Forall_cons in HT as [HK' HT]; cbn [fst snd] in *. unfold check_channel. sim_step. sim_step. by split.
  - apply Forall_cons in HT as [HK HT]. cbn [fst snd] in HK. unfold check_ip_connection. sim_step. by split.
Qed.
Lemma run_calls_sim cfg cs s1 s2 : Forall (takes_only cfg K) cs -> R s1 s2 ->
  same_answer (run_calls (B := B1) cfg cs s1) (run_calls (B := B2) cfg cs s2).
Proof.
  intros HT. revert s1 s2. induction HT as [|c cs Hc HT IH]; intros s1 s2 HR; cbn; [by split|].
  destruct (answer_sim cfg c _ _ Hc HR) as [Ha HR']. destruct (answer _ c s1) as [a t1], (answer _ c s2) as [a' t2]. cbn in Ha, HR'. subst a'.
  destruct (IH _ _ HR') as [Hl HR'']. destruct (run_calls _ cs t1), (run_calls _ cs t2). cbn in *. subst. by split.
Qed.
End Simulation.

(** What the buckets keep, the calls keep. *)
Section Kept.
Context {St : Type} (B : BucketStore St) (I : St -> Prop) (K : RateLimitKey -> f64 -> Prop).
Context (Hkeep : forall now k cost rate cap s, K k cap -> I s -> I (try_consume_internal now k cost rate cap s).2).
Lemma answer_keeps cfg c s : takes_only cfg K c -> I s -> I (answer cfg c s).2.
Proof.
  intros HT HI. refine (proj2 (proj2 (answer_sim B B (fun x y => x = y /\ I x) K _ cfg c s s HT (conj eq_refl HI)))).
  intros now k cost rate cap s1 s2 HK [-> Hs]. split; [done|]. split; [done|by apply Hkeep].
Qed.
End Kept.

(** ** The sixteen shards *)
Section Shards.
Context (hash_key : RateLimitKey -> Z).

Definition one_table (s : ShardedBuckets) (m : shard) : Prop :=
  length (sb_shards s) = Z.to_nat SHARD_COUNT /\ forall k, get_shard hash_key k s !! k = m !! k.

Lemma shard_index_lt k : (shard_index hash_key k < Z.to_nat SHARD_COUNT)%nat.
Proof. unfold shard_index. pose proof (Z.mod_pos_bound (hash_key k) SHARD_COUNT ltac:(done)). lia. Qed.
Lemma one_table_new : one_table sharded_new ∅.
Proof.
  split; [done|]. intros k. unfold get_shard, sharded_new; cbn [sb_shards].
  rewrite lookup_replicate_2 by apply shard_index_lt. done.
Qed.

Lemma sharded_sim now k cost rate cap s m : True -> one_table s m ->
  same_answer one_table (sharded_consume hash_key now k cost rate cap s) (consume_in now k cost rate cap m).
Proof.
  intros _ [Hlen Hk]. unfold sharded_consume, consume_in. rewrite (Hk k).
  destruct (try_consume _ _ _) as [ok b]. split; [done|]. split; cbn; [by rewrite length_insert|].
  intros k'. unfold get_shard; cbn. destruct (decide (shard_index hash_key k = shard_index hash_key k')) as [He|Hne].
  - rewrite <- He, list_lookup_insert_eq by (rewrite Hlen; apply shard_index_lt). cbn. rewrite !lookup_insert. case_decide; [done|].
    rewrite <- (Hk k'). unfold get_shard. by rewrite <- He.
  - rewrite list_lookup_insert_ne by done. rewrite lookup_insert_ne by congruence. apply Hk.
Qed.

Lemma sharded_run_flat cfg cs :
  (run_calls (B := sharded hash_key) cfg cs sharded_new).1 = (run_calls (B := flat) cfg cs ∅).1.
Proof.
  apply (run_calls_sim (sharded hash_key) flat one_table (fun _ _ => True) sharded_sim); [|apply one_table_new].
  apply Forall_true. intros c. by apply Forall_true.
Qed.

(** The limiter keeps its token buckets in sixteen tables, each behind a lock of its own
    and chosen by the hash of the key. Whatever the hash function, whatever the limits, and
    for every sequence of RPCs, messages and connections at any times, it gives the same
    answers as a limiter with a single table. *)
Theorem sharded_limiter_is_one_map cfg cs :
  (run_calls (B := sharded hash_key) cfg cs sharded_new).1 = (run_calls (B := flat) cfg cs ∅).1.
Proof. apply sharded_run_flat. Qed.
End Shards.

(** ** Calls that share no bucket *)
Definition call_keys (c : limit_call) : list RateLimitKey := (call_takes rate_limit_default c).*1.
Lemma call_keys_of cfg c : (call_takes cfg c).*1 = call_keys c.
Proof. destruct c as [? ? ? [?|] ?|]; cbn; [|done..]. by destruct (String.prefix _ _). Qed.

Definition agree_on (P : RateLimitKey -> Prop) (m m' : shard) : Prop := forall k, P k -> m !! k = m' !! k.

Section Separate.
Context (P : RateLimitKey -> Prop).

Lemma consume_agree now k cost rate (cap : f64) m m' : P k -> agree_on P m m' ->
  same_answer (agree_on P) (consume_in now k cost rate cap m) (consume_in now k cost rate cap m').
Proof.
  intros Hk Ha. unfold consume_in. rewrite (Ha k Hk). destruct (try_consume _ _ _) as [ok b]. split; [done|].
  intros k' Hk'. cbn. rewrite !lookup_insert. case_decide; [done|by apply Ha].
Qed.
Lemma consume_apart m' now k cost rate (cap : f64) m : ~ P k -> agree_on P m m' -> agree_on P (consume_in now k cost rate cap m).2 m'.
Proof.
  intros Hk Ha. unfold consume_in. destruct (try_consume _ _ _) as [ok b]. intros k' Hk'. cbn.
  rewrite lookup_insert_ne by congruence. by apply Ha.
Qed.
Lemma takes_only_keys cfg (Q : RateLimitKey -> Prop) c : (forall k, k ∈ call_keys c -> Q k) -> takes_only cfg (fun k _ => Q k) c.
Proof.
  intros H. apply Forall_forall. intros p Hp. apply H. rewrite <- (call_keys_of cfg). by apply list_elem_of_fmap_2.
Qed.

(** The answers to the calls that are [mine], in a run with others and alone. *)
Fixpoint answers_to (mine : limit_call -> bool) (cs : list limit_call) (l : list (bool * option ViolationType)) : list (bool * option ViolationType) :=
  match cs, l with
  | c :: cs, a :: l => if mine c then a :: answers_to mine cs l else answers_to mine cs l
  | _, _ => []
  end.
Lemma run_apart cfg (mine : limit_call -> bool) cs m m' : agree_on P m m' ->
  Forall (fun c => forall k, k ∈ call_keys c -> (if mine c then P k else ~ P k)) cs ->
  answers_to mine cs (run_calls cfg cs m).1 = (run_calls cfg (base.filter (fun c => mine c = true) cs) m').1.
Proof.
  intros Ha HT. revert m m' Ha. induction HT as [|c cs Hc HT IH]; intros m m' Ha; [done|]. cbn [run_calls].
  rewrite filter_cons. destruct (mine c) eqn:E; case_decide; try done.
  - destruct (answer_sim flat flat (agree_on P) (fun k _ => P k) consume_agree cfg c m m') as [Hx Ha']; [by apply takes_only_keys|done|].
    cbn [run_calls]. destruct (answer cfg c m) as [a n], (answer cfg c m') as [a' n']. cbn in Hx, Ha'. subst a'. specialize (IH _ _ Ha').
    destruct (run_calls cfg cs n), (run_calls cfg _ n'). cbn in *. rewrite E. by f_equal.
  - pose proof (answer_keeps flat (fun m => agree_on P m m') (fun k _ => ~ P k) (consume_apart m') cfg c m) as Ha'.
    specialize (Ha' (takes_only_keys _ _ _ Hc) Ha). destruct (answer cfg c m) as [a n]. cbn in Ha'. specialize (IH _ _ Ha').
    destruct (run_calls cfg cs n). cbn in *. by rewrite E.
Qed.
End Separate.

(** Limits are separate: when a set of calls shares no bucket with the other calls of a
    run (calls of different users that are not messages into one conversation, connections
    of different addresses), it gets the answers it would get without the others. *)
Theorem limits_are_separate hash_key cfg mine cs :
  (forall c c', c ∈ cs -> c' ∈ cs -> mine c = true -> mine c' = false -> call_keys c ## call_keys c') ->
  answers_to mine cs (run_calls (B := sharded hash_key) cfg cs sharded_new).1 =
  (run_calls (B := sharded hash_key) cfg (base.filter (fun c => mine c = true) cs) sharded_new).1.
Proof.
  intros Hd. rewrite !sharded_run_flat. apply (run_apart (fun k => exists c, c ∈ cs /\ mine c = true /\ k ∈ call_keys c)); [done|].
  apply Forall_forall. intros c Hc k Hk. destruct (mine c) eqn:E; [by exists c|].
  intros (c' & Hc' & E' & Hk'). exact (Hd c' c Hc' Hc E' E k Hk' Hk).
Qed.

(** ** Methods that cost more than their bucket holds *)
Lemma f64_ltb_trans x y z : f64_ltb x y = true -> f64_ltb y z = true -> f64_ltb x z = true.
Proof.
  unfold f64_ltb, SFltb.
  destruct x as [s|s| |s m e], y as [s'|s'| |s' m' e'], z as [t|t| |t m'' e'']; cbn; try done; try (by destruct s); try (by destruct s'); try (by destruct t);
    try (by destruct s, s'); try (by destruct s, t); try (by destruct s', t); try (by destruct s, s', t).
  destruct s, s', t; try done;
    destruct (Z.compare_spec e e'), (Z.compare_spec e' e''); subst; try done;
    change (Pos.compare_cont Eq) with Pos.compare;
    repeat match goal with |- context [Z.compare ?a ?b] => destruct (Z.compare_spec a b); subst; try lia; try done end;
    repeat match goal with |- context [Pos.compare ?a ?b] => destruct (Pos.compare_spec a b); subst; try lia; try done end.
Qed.
Lemma f64_min_below x c y : f64_ltb c y = true -> f64_ltb (f64_min x c) y = true.
Proof.
  intros H. unfold f64_min. destruct (f64_is_nan x); [done|]. destruct (f64_is_nan c) eqn:E; [by destruct c|].
  destruct (f64_ltb x c) eqn:E'; [by eapply f64_ltb_trans|done].
Qed.
Lemma f64_ltb_geb x y : f64_ltb x y = true -> f64_geb x y = false.
Proof.
  unfold f64_ltb, f64_geb, SFltb, SFleb. intros H.
  destruct x as [s|s| |s m e], y as [s'|s'| |s' m' e']; cbn in *; try done; try (by destruct s); try (by destruct s'); try (by destruct s, s').
  destruct s, s'; try done; rewrite (Z.compare_antisym e e'); destruct (Z.compare e e'); try done;
    change (Pos.compare_cont Eq) with Pos.compare in *; rewrite (Pos.compare_antisym m m'); by destruct (Pos.compare m m').
Qed.

Lemma try_consume_capacity now cost b : tb_capacity (try_consume now cost b).2 = tb_capacity b.
Proof. unfold try_consume. by case_match. Qed.
Lemma small_bucket_refuses now cost b : f64_ltb (tb_capacity b) cost = true -> (try_consume now cost b).1 = false.
Proof.
  intros H. unfold try_consume; cbn [refill tb_tokens].
  by rewrite f64_ltb_geb by (by apply f64_min_below).
Qed.

Definition multipliers : list f64 := [f64_lit 1 2; f64_lit 8 10; f64_of 1; f64_lit 3 2; f64_of 2].
Lemma multiplier_in t : get_rate_multiplier t ∈ multipliers.
Proof. unfold get_rate_multiplier, multipliers. repeat case_match; set_solver. Qed.

(** The largest bucket of the method, at any trust, is below its price. *)
Definition priced_out (m : string) : bool :=
  forallb (fun k => f64_ltb (get_rpc_specific_rate m k).2 (f64_of (rc_tokens (get_cost m)))) multipliers.

Section PricedOut.
Context (m : string) (Hm : priced_out m = true).
Notation price := (f64_of (rc_tokens (get_cost m))).
Definition small_at (k : RateLimitKey) (cap : f64) : Prop := forall u, k = LimitUserRpc u m -> f64_ltb cap price = true.
Definition small_buckets (s : shard) : Prop := forall k b, s !! k = Some b -> small_at k (tb_capacity b).

Lemma priced_out_small t : f64_ltb (get_rpc_specific_rate m (get_rate_multiplier t)).2 price = true.
Proof.
  pose proof Hm as H. unfold priced_out in H. rewrite forallb_forall in H. apply H. apply list_elem_of_In, multiplier_in.
Qed.
Lemma calls_small cfg c : takes_only cfg small_at c.
Proof.
  apply Forall_forall. intros [k cap] Hin u. cbn. intros ->. destruct c as [now v m' ch t|now ip]; cbn [call_takes] in Hin.
  - rewrite !elem_of_cons in Hin. destruct Hin as [?|[[= <- <- ->]|Hin]]; [congruence|apply priced_out_small|].
    destruct ch as [c|]; [|set_solver]. destruct (String.prefix _ _); set_solver.
  - set_solver.
Qed.
Lemma consume_small now k cost rate cap s : small_at k cap -> small_buckets s -> small_buckets (consume_in now k cost rate cap s).2.
Proof.
  intros Hk Hs. unfold consume_in. destruct (try_consume _ _ _) as [ok b] eqn:E. cbn. intros k' b'. rewrite lookup_insert_Some.
  intros [[<- <-]|[_ H]]; [|by apply Hs]. change b with (ok, b).2. rewrite <- E, try_consume_capacity. destruct (s !! k) as [b0|] eqn:E0; [by apply Hs|done].
Qed.
Lemma small_refuses cfg now u ch t s : small_buckets s -> (check_and_consume cfg now u m ch t s).1 = (false, Some RateExceeded).
Proof.
  intros Hs. unfold check_and_consume; cbv zeta. cbn [try_consume_internal flat]. set (cap := f64_mul (user_burst_capacity cfg) _).
  assert (small_at (LimitUser u) cap) as Hk by done. set (rate := f64_mul (user_tokens_per_second cfg) _).
  pose proof (consume_small now _ price rate cap s Hk Hs) as Hs1. destruct (consume_in _ (LimitUser u) _ _ _ _) as [[] s1]; [|done].
  cbn [negb]. unfold consume_in. destruct (try_consume _ _ _) as [ok b] eqn:E.
  assert (ok = false) as ->; [|done]. change ok with (ok, b).1. rewrite <- E. apply small_bucket_refuses.
  destruct (s1 !! LimitUserRpc u m) as [b0|] eqn:E0; [by eapply Hs1|apply priced_out_small].
Qed.
Lemma run_small cfg cs s i now u ch t : small_buckets s -> cs !! i = Some (CallRpc now u m ch t) ->
  (run_calls cfg cs s).1 !! i = Some (false, Some RateExceeded).
Proof.
  revert s i. induction cs as [|c cs IH]; intros s i Hs Hi; [done|]. cbn [run_calls].
  pose proof (answer_keeps flat small_buckets small_at consume_small cfg c s (calls_small cfg c) Hs) as Hs'. destruct i as [|i]; cbn in Hi.
  - injection Hi as ->. cbn [answer] in *. pose proof (small_refuses cfg now u ch t s Hs) as Ha.
    destruct (check_and_consume _ _ _ _ _ _ _) as [a s']. cbn in Ha. subst a. by destruct (run_calls cfg cs s').
  - destruct (answer cfg c s) as [a s']. specialize (IH s' i Hs' Hi). by destruct (run_calls cfg cs s').
Qed.
End PricedOut.

(** A method whose price is above the capacity of its bucket is refused as a violation every
    time, for every user, trust and configuration, whatever happened before. *)
Theorem priced_out_is_refused hash_key cfg cs i now u m ch t : priced_out m = true -> cs !! i = Some (CallRpc now u m ch t) ->
  (run_calls (B := sharded hash_key) cfg cs sharded_new).1 !! i = Some (false, Some RateExceeded).
Proof. intros Hm Hi. rewrite sharded_run_flat. by eapply run_small. Qed.

(** Logins, registrations and the pull of a sync are such methods. *)
Theorem logins_are_priced_out : forallb priced_out ["auth.login"; "auth.register"; "sync.pull"; "sync.getFullState"; "channels.getAllMembers"] = true.
Proof. vm_compute. reflexivity. Qed.
