(* ===== verification/Security.v ===== *)
(** * The security service

    Models src/src/security/security_service.rs (the checks of connections, messages and
    RPCs, the records of addresses that misbehave, bans and their clean-up, and the methods
    of the administration), src/src/middleware/security_middleware.rs, the security section
    of the configuration file (src/src/config.rs) and the acceptance of a connection in
    src/src/server.rs.

    A check holds the lock of the client states from its first statement to its last, so
    that it is one step; the table of addresses is locked inside. The limiter is used
    through [BucketStore]. Instants are nanoseconds on one clock that is read once per
    operation. *)

From stdpp Require Import base numbers gmap list strings.
From S2P Require Import Prelude ClientState RateLimit Connection.
Local Open Scope Z_scope.

Inductive SecurityMode := ObserveOnly | EnforceLight | EnforceFull.
#[export] Instance security_mode_eq_dec : EqDecision SecurityMode.
Proof. solve_decision. Defined.

(** ** Addresses *)
Record IpProtectionRecord := mkIp { ip_recent : list Z; ip_temp_ban_until : option Z; ip_permanent_ban : bool }.
Definition ip_new : IpProtectionRecord := mkIp [] None false.

Definition is_banned (now : Z) (r : IpProtectionRecord) : bool :=
  ip_permanent_ban r || match ip_temp_ban_until r with Some until => now <? until | None => false end.
Definition add_violation (now : Z) (r : IpProtectionRecord) : IpProtectionRecord :=
  mkIp (base.filter (fun t => Z.max 0 (now - t) < secs 3600) (ip_recent r ++ [now])) (ip_temp_ban_until r) (ip_permanent_ban r).
Definition recent_count (since : Z) (r : IpProtectionRecord) : Z := Z.of_nat (length (base.filter (fun t => since < t) (ip_recent r))).
Definition should_temp_ban (now : Z) (r : IpProtectionRecord) : bool := 10 <=? recent_count (now - secs 300) r.
Definition should_permanent_ban (now : Z) (r : IpProtectionRecord) : bool := 50 <=? recent_count (now - secs 3600) r.

(** ** Results *)
Record SecurityCheckResult := mkCheck {
  cr_allowed : bool; cr_client_state : ClientState; cr_silent_drop : bool; cr_throttle_delay : option Z; cr_reason : option string
}.
Definition check_allow (c : ClientState) : SecurityCheckResult := mkCheck true c false (get_throttle_delay c) None.
Definition check_deny (reason : string) : SecurityCheckResult := mkCheck false Disconnected false None (Some reason).
Definition check_shadow_ban : SecurityCheckResult := mkCheck true ShadowBanned true None (Some "Shadow banned"%string).

(** ** Configuration *)
Record SecurityConfig := mkSecurityConfig { sc_mode : SecurityMode; sc_shadow_ban : bool; sc_ip_ban : bool; sc_rate_limit : RateLimitConfig }.
Definition security_config_default : SecurityConfig := mkSecurityConfig ObserveOnly true true rate_limit_default.
Definition early_stage : SecurityConfig :=
  mkSecurityConfig ObserveOnly false true (mkRates (f64_of 100) (f64_of 200) (f64_of 10) (f64_of 30) (f64_of 10) (f64_of 20)).
Definition production : SecurityConfig := mkSecurityConfig EnforceLight false true rate_limit_default.
Definition strict : SecurityConfig :=
  mkSecurityConfig EnforceFull true true (mkRates (f64_of 30) (f64_of 60) (f64_of 2) (f64_of 5) (f64_of 3) (f64_of 5)).

(** The section of the configuration file, and what it becomes. *)
Record SecurityProtectionConfig := mkProtection { sp_mode : string; sp_shadow_ban : bool; sp_ip_ban : bool; sp_rate_limit : RateLimitConfig }.
Definition protection_default : SecurityProtectionConfig := mkProtection "observe" false true rate_limit_default.
Definition security_config_from (c : SecurityProtectionConfig) : SecurityConfig :=
  mkSecurityConfig
    (if one_of (sp_mode c) ["observe"; "observe_only"] then ObserveOnly
     else if one_of (sp_mode c) ["enforce_light"; "light"] then EnforceLight
     else if one_of (sp_mode c) ["enforce_full"; "full"] then EnforceFull
     else ObserveOnly)
    (sp_shadow_ban c) (sp_ip_ban c) (sp_rate_limit c).

(** ** The service *)
Section Service.
Context {St : Type} `{B : BucketStore St} (cfg : SecurityConfig).

Record SecurityService := mkSecurity {
  ss_clients : gmap (Z * string) ClientStateManager; ss_limiter : St; ss_ips : gmap string IpProtectionRecord
}.
Definition security_new (limiter : St) : SecurityService := mkSecurity ∅ limiter ∅.

Definition client_of (now u : Z) (d : string) (s : SecurityService) : ClientStateManager :=
  default (manager_new now u d) (ss_clients s !! (u, d)).
Definition with_client (u : Z) (d : string) (m : ClientStateManager) (s : SecurityService) : SecurityService :=
  mkSecurity (<[(u, d) := m]> (ss_clients s)) (ss_limiter s) (ss_ips s).
Definition with_limiter (l : St) (s : SecurityService) : SecurityService := mkSecurity (ss_clients s) l (ss_ips s).
Definition with_ips (ips : gmap string IpProtectionRecord) (s : SecurityService) : SecurityService :=
  mkSecurity (ss_clients s) (ss_limiter s) ips.

Definition ip_violated (now : Z) (r : IpProtectionRecord) : IpProtectionRecord :=
  let r := add_violation now r in
  if should_permanent_ban now r then mkIp (ip_recent r) (ip_temp_ban_until r) true
  else if should_temp_ban now r then mkIp (ip_recent r) (Some (now + secs 1800)) (ip_permanent_ban r)
  else r.
Definition record_ip_violation (now : Z) (ip : string) (s : SecurityService) : SecurityService :=
  with_ips (<[ip := ip_violated now (default ip_new (ss_ips s !! ip))]> (ss_ips s)) s.

Definition ip_is_banned (now : Z) (ip : string) (s : SecurityService) : bool :=
  match ss_ips s !! ip with Some r => is_banned now r | None => false end.

Definition check_connection (now : Z) (ip : string) (s : SecurityService) : SecurityCheckResult * SecurityService :=
  if decide (sc_mode cfg = ObserveOnly) then (check_allow Normal, s)
  else if negb (sc_ip_ban cfg) then (check_allow Normal, s)
  else if ip_is_banned now ip s then (check_deny ("IP " +:+ ip +:+ " is banned"), s)
  else
    let '(ok, l) := check_ip_connection (sc_rate_limit cfg) now ip (ss_limiter s) in
    let s := with_limiter l s in
    if negb ok then
      if decide (sc_mode cfg = EnforceLight) then (check_allow Throttled, s)
      else (check_deny ("IP " +:+ ip +:+ " connection rate limit exceeded"), record_ip_violation now ip s)
    else (check_allow Normal, s).

(** The answer of a check whose client was refused by the limiter with a violation. *)
Definition over_limit (now u : Z) (d : string) (v : ViolationType) (m : ClientStateManager) (s : SecurityService)
    : SecurityCheckResult * SecurityService :=
  if decide (sc_mode cfg = EnforceLight)
  then (check_deny "Rate limit exceeded", with_client u d (with_trust (record_violation now v) m) s)
  else
    let m := auto_escalate now v m in
    let s := with_client u d m s in
    if should_silent_drop (current_state now m) && sc_shadow_ban cfg then (check_shadow_ban, s)
    else (check_deny "Rate limit exceeded", s).

Definition check_send_message (now u : Z) (d : string) (channel_id recipient_count message_size : Z) (is_media : bool) (s : SecurityService)
    : SecurityCheckResult * SecurityService :=
  if decide (sc_mode cfg = ObserveOnly) then (check_allow Normal, s) else
  let m := client_of now u d s in
  let s := with_client u d m s in
  let current := current_state now m in
  if bool_decide (sc_mode cfg = EnforceLight) && bool_decide (current = WriteDisabled \/ current = ShadowBanned \/ current = Disconnected)
  then (check_allow Throttled, s)
  else if bool_decide (sc_mode cfg = EnforceFull) && negb (can_send_message current) then
    if should_silent_drop current && sc_shadow_ban cfg then (check_shadow_ban, s)
    else (check_deny "Write operations disabled", s)
  else
    let message_cost := if decide (sc_mode cfg = EnforceFull) then calculate_message_cost recipient_count message_size is_media else 1 in
    let '((allowed, violation), l) := check_and_consume (sc_rate_limit cfg) now u "messages.send" (Some channel_id) (sm_trust m) (ss_limiter s) in
    let s := with_limiter l s in
    match allowed, violation with
    | false, Some v => over_limit now u d v m s
    | _, _ =>
        if bool_decide (sc_mode cfg = EnforceFull) && (100 <? recipient_count) && (10 <? message_cost) then
          let s := with_client u d (auto_escalate now FanoutAbuse m) s in
          if sc_shadow_ban cfg then (check_shadow_ban, s) else (check_allow current, s)
        else (check_allow current, s)
    end.

Definition is_write_rpc (method : string) : bool :=
  String.prefix "messages." method || String.prefix "channels.create" method || String.prefix "channels.invite" method.
Definition check_rpc (now u : Z) (d method : string) (channel_id : option Z) (s : SecurityService) : SecurityCheckResult * SecurityService :=
  if decide (sc_mode cfg = ObserveOnly) then (check_allow Normal, s) else
  let m := client_of now u d s in
  let s := with_client u d m s in
  let current := current_state now m in
  if bool_decide (sc_mode cfg = EnforceLight) && bool_decide (current = Throttled) then (check_allow Throttled, s)
  else if bool_decide (sc_mode cfg = EnforceFull) && (is_write_rpc method && negb (can_write_rpc current)) then
    if should_silent_drop current && sc_shadow_ban cfg then (check_shadow_ban, s) else (check_deny "Write RPC disabled", s)
  else if bool_decide (sc_mode cfg = EnforceFull) && negb (can_read_rpc current) then (check_deny "Disconnected", s)
  else
    let '((allowed, violation), l) := check_and_consume (sc_rate_limit cfg) now u method channel_id (sm_trust m) (ss_limiter s) in
    let s := with_limiter l s in
    match allowed, violation with
    | true, _ => (check_allow current, s)
    | false, Some v => over_limit now u d v m s
    | false, None => (check_deny "Rate limit exceeded", s)
    end.

Definition record_auth_failure (now u : Z) (d ip : string) (s : SecurityService) : SecurityService :=
  record_ip_violation now ip (with_client u d (auto_escalate now AuthFailed (client_of now u d s)) s).
Definition on_client (u : Z) (d : string) (g : ClientStateManager -> ClientStateManager) (s : SecurityService) : SecurityService :=
  match ss_clients s !! (u, d) with Some m => with_client u d (g m) s | None => s end.
Definition reward_good_behavior (now u : Z) (d : string) (s : SecurityService) : SecurityService :=
  on_client u d (with_trust (trust_reward now 1)) s.

(** ** Administration *)
Definition get_user_state (now u : Z) (d : string) (s : SecurityService) : option ClientState := current_state now <$> ss_clients s !! (u, d).
Definition get_trust_score (u : Z) (d : string) (s : SecurityService) : option Z := (fun m => ts_score (sm_trust m)) <$> ss_clients s !! (u, d).
Definition manual_ban (now u : Z) (d : string) (reason : ViolationType) (duration : option Z) (s : SecurityService) : SecurityService :=
  with_client u d (transition_to now ShadowBanned reason duration (client_of now u d s)) s.
Definition manual_unban (now u : Z) (d : string) (s : SecurityService) : SecurityService :=
  on_client u d (transition_to now Normal RateExceeded None) s.
Definition list_banned (now : Z) (s : SecurityService) : list (Z * string * ClientState * option Z) :=
  (fun p => (p.1, current_state now p.2, Some (ts_score (sm_trust p.2)))) <$>
    base.filter (fun p => current_state now p.2 = ShadowBanned) (map_to_list (ss_clients s)).
Definition get_user_device_states (now u : Z) (ds : list string) (s : SecurityService) : list (string * option ClientState * option Z) :=
  (fun d => (d, get_user_state now u d s, get_trust_score u d s)) <$> ds.
Fixpoint unban_all_user_devices (now u : Z) (ds : list string) (s : SecurityService) : Z * SecurityService :=
  match ds with
  | [] => (0, s)
  | d :: ds =>
      let hit := if ss_clients s !! (u, d) then 1 else 0 in
      let '(n, s) := unban_all_user_devices now u ds (manual_unban now u d s) in (hit + n, s)
  end.

Definition ip_kept (now : Z) (r : IpProtectionRecord) : bool :=
  match ip_temp_ban_until r with Some until => negb (until <=? now) | None => true end &&
  (negb (ip_permanent_ban r) || negb (bool_decide (ip_recent r = []))).
Definition cleanup_expired_data (now : Z) (s : SecurityService) : SecurityService :=
  with_ips (base.filter (fun p => ip_kept now p.2 = true) (ss_ips s)) s.

(** ** The middleware

    The delay it sleeps for, and its answer. *)
Definition middleware_connection (now : Z) (ip : string) (s : SecurityService) : result unit ServerError * SecurityService :=
  let '(r, s) := check_connection now ip s in
  (if negb (cr_allowed r) then Err (RateLimit "Connection denied") else Ok tt, s).
Definition middleware_answer (fallback : string) (r : SecurityCheckResult) : option Z * result SecurityCheckResult ServerError :=
  if cr_silent_drop r then (None, Ok r)
  else (cr_throttle_delay r, if negb (cr_allowed r) then Err (RateLimit (default fallback (cr_reason r))) else Ok r).
Definition middleware_rpc (now u : Z) (d method : string) (channel_id : option Z) (s : SecurityService)
    : option Z * result SecurityCheckResult ServerError * SecurityService :=
  let '(r, s) := check_rpc now u d method channel_id s in (middleware_answer "Rate limit exceeded" r, s).
Definition middleware_send (now u : Z) (d : string) (channel_id recipient_count message_size : Z) (is_media : bool) (s : SecurityService)
    : option Z * result SecurityCheckResult ServerError * SecurityService :=
  let '(r, s) := check_send_message now u d channel_id recipient_count message_size is_media s in
  (middleware_answer "Message rate limit exceeded" r, s).

(** ** Accepting a connection

    [now_ms] is the wall clock the connection table reads; [transport]: the transport is
    set. The first result is the session the transport is asked to close. *)
Record ServerStats := mkStats {
  st_total_connections : Z; st_active_sessions : Z; st_messages_sent : Z; st_messages_received : Z; st_uptime_seconds : Z
}.
Definition stats_new : ServerStats := mkStats 0 0 0 0 0.
Definition stats_connected (st : ServerStats) : ServerStats :=
  mkStats (u64_add (st_total_connections st) 1) (u64_add (st_active_sessions st) 1) (st_messages_sent st) (st_messages_received st) (st_uptime_seconds st).
Definition on_connected (transport : bool) (now now_ms session : Z) (ip : string) (cm : ConnectionManager) (s : SecurityService) (st : ServerStats)
    : option Z * ConnectionManager * SecurityService * ServerStats :=
  let cm := register_connecting now_ms session cm in
  let '(r, s) := middleware_connection now ip s in
  match r with
  | Err _ => (force_close_session transport session cm, s, st)
  | Ok _ => (None, cm, s, stats_connected st)
  end.
End Service.
Arguments SecurityService : clear implicits.
