(* ===== verification/SecurityFacts.v ===== *)
(** * Facts about the security service

    Runs of the service on one clock, with any limiter behind [BucketStore]. Every trust
    score stays within its range; a penalty is over two hours after the last violation
    ([penalties_end]); an address banned for its violations is kept out until its time is
    over, whatever else happens ([banned_ip_stays_out]). The last section shows what the
    checks let through or refuse against the comments beside them. *)

From stdpp Require Import base numbers gmap list strings relations.
From S2P Require Import Prelude ClientState RateLimit RateLimitFacts Connection Security.
Local Open Scope Z_scope.

#[local] Arguments secs _ : simpl never.
#[local] Arguments f64_of _ : simpl never.
#[local] Arguments f64_mul _ _ : simpl never.

Section Runs.
Context {St : Type} `{B : BucketStore St} (cfg : SecurityConfig).
(** The durations an administrator bans for. *)
Context (admin : option Z -> Prop).
Notation Svc := (SecurityService St).

Inductive sec_step (now : Z) (s : Svc) : Svc -> Prop :=
| SConnect ip : sec_step now s (check_connection cfg now ip s).2
| SSend u d c n size media : sec_step now s (check_send_message cfg now u d c n size media s).2
| SRpc u d m c : sec_step now s (check_rpc cfg now u d m c s).2
| SAuthFailure u d ip : sec_step now s (record_auth_failure now u d ip s)
| SReward u d : sec_step now s (reward_good_behavior now u d s)
| SBan u d v dur : admin dur -> sec_step now s (manual_ban now u d v dur s)
| SUnban u d : sec_step now s (manual_unban now u d s)
| SUnbanAll u ds : sec_step now s (unban_all_user_devices now u ds s).2
| SCleanup : sec_step now s (cleanup_expired_data now s).

(** From a time and a service to a later time and what has become of it. *)
Inductive sec_run (t : Z) (s : Svc) : Z -> Svc -> Prop :=
| RunNil : sec_run t s t s
| RunStep t' s' now s'' : sec_run t s t' s' -> t' <= now -> sec_step now s' s'' -> sec_run t s now s''.

Lemma sec_run_time t s t' s' : sec_run t s t' s' -> t <= t'.
Proof. induction 1; lia. Qed.

(** ** What holds of every client *)
Section Clients.
Context (P : Z -> ClientStateManager -> Prop).
Definition all_clients (now : Z) (s : Svc) : Prop := map_Forall (fun _ m => P now m) (ss_clients s).
Context (Hnew : forall now u d, P now (manager_new now u d)).
Context (Hesc : forall now v m, P now m -> P now (auto_escalate now v m)).
Context (Hviol : forall now v m, P now m -> P now (with_trust (record_violation now v) m)).
Context (Hrew : forall now m, P now m -> P now (with_trust (trust_reward now 1) m)).
Context (Hban : forall now v dur m, admin dur -> P now m -> P now (transition_to now ShadowBanned v dur m)).
Context (Hunban : forall now m, P now m -> P now (transition_to now Normal RateExceeded None m)).
Context (Hlater : forall now now' m, now <= now' -> P now m -> P now' m).

Lemma client_of_all now u d s : all_clients now s -> P now (client_of now u d s).
Proof. intros H. unfold client_of. destruct (ss_clients s !! (u, d)) eqn:E; [by eapply H|apply Hnew]. Qed.
Lemma with_client_all now u d m s : P now m -> all_clients now s -> all_clients now (with_client u d m s).
Proof. intros Hm H. by apply map_Forall_insert_2. Qed.
Lemma over_limit_all now u d v m s : P now m -> all_clients now s -> all_clients now (over_limit cfg now u d v m s).2.
Proof. intros Hm H. unfold over_limit. repeat case_match; cbn; apply with_client_all; auto. Qed.
Lemma on_client_all now u d g s : (forall m, P now m -> P now (g m)) -> all_clients now s -> all_clients now (on_client u d g s).
Proof. intros Hg H. unfold on_client. destruct (ss_clients s !! (u, d)) eqn:E; [|done]. apply with_client_all; [|done]. apply Hg. by eapply H. Qed.
Lemma unban_all_clients now u ds s : all_clients now s -> all_clients now (unban_all_user_devices now u ds s).2.
Proof.
  revert s. induction ds as [|d ds IH]; intros s H; [done|]. cbn. specialize (IH (manual_unban now u d s)).
  destruct (unban_all_user_devices now u ds _). apply IH. apply on_client_all; auto.
Qed.
Lemma with_limiter_all now l s : all_clients now s -> all_clients now (with_limiter l s).
Proof. done. Qed.
Lemma step_clients now s s' : sec_step now s s' -> all_clients now s -> all_clients now s'.
Proof.
  intros Hs H. pose proof (fun u d => client_of_all now u d s H) as Hc. destruct Hs.
  - unfold check_connection. repeat case_match; done.
  - unfold check_send_message. repeat case_match; cbn [snd]; auto 6 using with_client_all, with_limiter_all, over_limit_all.
  - unfold check_rpc. repeat case_match; cbn [snd]; auto 6 using with_client_all, with_limiter_all, over_limit_all.
  - apply with_client_all; auto.
  - apply on_client_all; auto.
  - apply with_client_all; auto.
  - apply on_client_all; auto.
  - by apply unban_all_clients.
  - done.
Qed.
Lemma run_clients t s t' s' : sec_run t s t' s' -> all_clients t s -> all_clients t' s'.
Proof.
  intros Hr H. induction Hr as [|t1 s1 now s2 Hr IH Ht Hs]; [done|]. apply (step_clients _ _ _ Hs).
  eapply map_Forall_impl; [exact IH|]. intros ? m. by apply Hlater.
Qed.
End Clients.

(** Trust stays within its range. *)
Lemma run_trust_ok l t t' s : sec_run t (security_new l) t' s -> map_Forall (fun _ m => trust_ok (sm_trust m)) (ss_clients s).
Proof.
  intros Hr. refine (run_clients (fun _ m => trust_ok (sm_trust m)) _ _ _ _ _ _ _ _ _ _ _ Hr _); cbn; auto with privchat.
  - intros now v m Hm. unfold auto_escalate. destruct (escalation _ _); cbn. auto with privchat.
  - intros now m Hm. by apply trust_reward_ok.
  - apply map_Forall_empty.
Qed.

(** A penalty has an end, at most [limit] after the present. *)
Definition penalty_bounded (limit now : Z) (m : ClientStateManager) : Prop :=
  match sm_expiry m with Some e => e <= now + limit | None => sm_state m = Normal end.
Lemma run_penalties limit l t t' s : secs 7200 <= limit -> (forall dur, admin dur -> exists d, dur = Some d /\ d <= limit) ->
  sec_run t (security_new l) t' s -> all_clients (penalty_bounded limit) t' s.
Proof.
  intros Hl Ha Hr. refine (run_clients (penalty_bounded limit) _ _ _ _ _ _ _ _ _ _ _ Hr _); unfold penalty_bounded; try done.
  - intros now v m _. unfold auto_escalate. pose proof (escalation_bounded (current_state now m) v). destruct (escalation _ _); cbn in *. lia.
  - intros now v dur m (d & -> & Hd)%Ha _. cbn. lia.
  - intros now now' m Hn Hm. destruct (sm_expiry m); [lia|done].
Qed.

(** ** Addresses *)
Definition banned_until (T : Z) (ip : string) (s : Svc) : Prop :=
  exists r until, ss_ips s !! ip = Some r /\ ip_temp_ban_until r = Some until /\ T <= until /\ ip_recent r <> [].

Lemma ip_violated_recent now r : ip_recent (ip_violated now r) <> [].
Proof.
  assert (now ∈ ip_recent (add_violation now r)) as H.
  { cbn. apply list_elem_of_filter. split; [unfold secs; lia|]. apply elem_of_app. right. by apply list_elem_of_singleton. }
  unfold ip_violated. repeat case_match; cbn [ip_recent]; intros E; rewrite E in H; by apply not_elem_of_nil in H.
Qed.
Lemma ip_violated_until now T r until : ip_temp_ban_until r = Some until -> T <= until -> T <= now + secs 1800 ->
  exists until', ip_temp_ban_until (ip_violated now r) = Some until' /\ T <= until'.
Proof. intros Hu HT Hn. unfold ip_violated. repeat case_match; cbn; eauto. Qed.
Lemma record_ip_until now T ip ip' s : T <= now + secs 1800 -> banned_until T ip s -> banned_until T ip (record_ip_violation now ip' s).
Proof.
  intros Hn (r & until & Hr & Hu & HT & Hne). unfold banned_until; cbn. destruct (decide (ip' = ip)) as [->|Hip].
  - rewrite lookup_insert_eq, Hr. cbn. destruct (ip_violated_until now T r until Hu HT Hn) as (until' & H & H'). eauto 6 using ip_violated_recent.
  - rewrite lookup_insert_ne by done. eauto 6.
Qed.
Lemma same_ips_until T ip s s' : ss_ips s' = ss_ips s -> banned_until T ip s -> banned_until T ip s'.
Proof. unfold banned_until. by intros ->. Qed.
Lemma unban_all_ips now u ds (s : Svc) : ss_ips (unban_all_user_devices now u ds s).2 = ss_ips s.
Proof.
  revert s. induction ds as [|d ds IH]; intros s; [done|]. cbn. specialize (IH (manual_unban now u d s)).
  destruct (unban_all_user_devices now u ds _). cbn in *. rewrite IH. unfold manual_unban, on_client. by case_match.
Qed.
Lemma step_until now T ip s s' : now < T -> T <= now + secs 1800 -> sec_step now s s' -> banned_until T ip s -> banned_until T ip s'.
Proof.
  intros Hlt Hn Hs Hb. destruct Hs.
  - unfold check_connection. repeat case_match; cbn [snd]; try done. by apply record_ip_until.
  - eapply same_ips_until; [|done]. unfold check_send_message, over_limit. by repeat case_match.
  - eapply same_ips_until; [|done]. unfold check_rpc, over_limit. by repeat case_match.
  - by apply record_ip_until.
  - eapply same_ips_until; [|done]. unfold reward_good_behavior, on_client. by case_match.
  - done.
  - eapply same_ips_until; [|done]. unfold manual_unban, on_client. by case_match.
  - eapply same_ips_until; [apply unban_all_ips|done].
  - destruct Hb as (r & until & Hr & Hu & HT & Hne). exists r, until. split; [|done]. cbn. apply map_lookup_filter_Some. split; [done|]. cbn.
    unfold ip_kept. rewrite Hu. destruct (Z.leb_spec until now); [lia|]. rewrite (bool_decide_eq_false_2 _ Hne). cbn. by rewrite orb_true_r.
Qed.
Lemma run_until T ip t s t' s' : sec_run t s t' s' -> T <= t + secs 1800 -> t' < T -> banned_until T ip s -> banned_until T ip s'.
Proof.
  intros Hr HT Hlt Hb. induction Hr as [|t1 s1 now s2 Hr IH Ht Hs]; [done|]. pose proof (sec_run_time _ _ _ _ Hr).
  eapply step_until; [exact Hlt|lia|exact Hs|]. apply IH. lia.
Qed.

(** A refused connection leaves nothing but an entry that the transport's end removes. *)
Lemma closing_connecting now_ms session cm : cm_b cm !! session = None -> mark_closing session (register_connecting now_ms session cm) = register_connecting now_ms session cm.
Proof. intros H. unfold mark_closing, register_connecting. rewrite H. cbn. by rewrite lookup_insert_eq. Qed.
Lemma banned_refused T ip transport now now_ms session cm s st : sc_mode cfg <> ObserveOnly -> sc_ip_ban cfg = true ->
  cm_b cm !! session = None -> now < T -> banned_until T ip s ->
  on_connected cfg transport now now_ms session ip cm s st = (if transport then Some session else None, register_connecting now_ms session cm, s, st).
Proof.
  intros Hm Hip Hs Hlt (r & until & Hr & Hu & HT & _). rewrite <- (closing_connecting now_ms session cm Hs). unfold on_connected, middleware_connection, check_connection, ip_is_banned, is_banned.
  rewrite decide_False by done. rewrite Hip, Hr, Hu. cbn [negb].
  destruct (Z.ltb_spec now until); [|lia]. by rewrite orb_true_r.
Qed.

(** A violation of an address: in the full mode, a connection beyond the rate of the
    address; in any mode, a failed login that is reported (no handler reports one). *)
Inductive ip_violation (now : Z) (ip : string) (s : Svc) : Svc -> Prop :=
| VConnection : sc_mode cfg = EnforceFull -> ip_is_banned now ip s = false ->
    (check_ip_connection (sc_rate_limit cfg) now ip (ss_limiter s)).1 = false -> ip_violation now ip s (check_connection cfg now ip s).2
| VLogin u d : ip_violation now ip s (record_auth_failure now u d ip s).
Lemma violation_recorded now ip s s1 : sc_ip_ban cfg = true -> ip_violation now ip s s1 ->
  ss_ips s1 = <[ip := ip_violated now (default ip_new (ss_ips s !! ip))]> (ss_ips s).
Proof.
  intros Hip [Hm Hb Hl|u d]; [|done]. unfold check_connection. rewrite Hm, Hip, Hb. cbn [negb]. rewrite decide_False by done.
  destruct (check_ip_connection _ _ _ _) as [ok l]. cbn in Hl. subst ok. cbn. by rewrite decide_False.
Qed.

(** C20. In both enforcing modes, with bans of addresses switched on: a violation of an
    address that is its tenth within five minutes, and not its fiftieth within an hour,
    keeps the address out for thirty minutes. Violations are connections beyond the
    address's rate, in the full mode, and failed logins that are reported. Whatever the
    service does in between (other checks, more violations, unbans of users, clean-ups),
    a new connection from the address changes no table of the service, is not counted, and
    the transport is asked to close it; until it does, the session stays in the connection
    table as one that has not been authenticated. *)
Theorem banned_ip_stays_out ip now s s1 t' s' transport x x_ms session cm st :
  sc_mode cfg <> ObserveOnly -> sc_ip_ban cfg = true -> ip_violation now ip s s1 ->
  let r := add_violation now (default ip_new (ss_ips s !! ip)) in
  should_temp_ban now r = true -> should_permanent_ban now r = false ->
  sec_run now s1 t' s' -> t' <= x < now + secs 1800 -> cm_b cm !! session = None ->
  on_connected cfg transport x x_ms session ip cm s' st = (if transport then Some session else None, register_connecting x_ms session cm, s', st).
Proof.
  intros Hm Hip Hv r Ht Hp Hr Hx Hs. apply (banned_refused (now + secs 1800)); [done..|lia|].
  eapply run_until; [exact Hr|lia|lia|]. exists (ip_violated now (default ip_new (ss_ips s !! ip))), (now + secs 1800). split_and!.
  - rewrite (violation_recorded _ _ _ _ Hip Hv). by rewrite lookup_insert_eq.
  - unfold ip_violated. fold r. by rewrite Hp, Ht.
  - lia.
  - apply ip_violated_recent.
Qed.
End Runs.

(** ** Penalties *)

(** Penalties end, and trust stays within its range: in every run in which
    administrators ban for at most two hours, each device has a trust score from 0 to 1000
    and at most a hundred recorded violations, and two hours after the last step of the
    service it is in the normal state again, whatever it did. *)
Theorem penalties_end {St : Type} `{B : BucketStore St} cfg l t t' (s : SecurityService St) :
  sec_run cfg (fun dur => exists n, dur = Some n /\ n <= secs 7200) t (security_new l) t' s ->
  forall u d m, ss_clients s !! (u, d) = Some m ->
    0 <= ts_score (sm_trust m) <= 1000 /\ (length (ts_violations (sm_trust m)) <= 100)%nat /\
    forall now, t' + secs 7200 <= now -> get_user_state now u d s = Some Normal.
Proof.
  intros Hr u d m Hm. destruct (run_trust_ok _ _ _ _ _ _ Hr _ _ Hm) as [Hs Hv]. split; [done|]. split; [done|].
  intros now Hn. unfold get_user_state. rewrite Hm. cbn. f_equal. unfold current_state.
  pose proof (run_penalties _ _ (secs 7200) _ _ _ _ (Z.le_refl _) (fun _ H => H) Hr _ _ Hm) as Hb. cbn in Hb. unfold penalty_bounded in Hb.
  destruct (sm_expiry m) as [e|]; [|done]. destruct (Z.leb_spec e now); [done|lia].
Qed.

(** ** What the checks do beside their comments *)
Section Gaps.
Context {St : Type} `{B : BucketStore St} (cfg : SecurityConfig).

(** A message of a shadow-banned client that the limiter admits is delivered like any other:
    the answer allows it and does not ask for a silent drop. *)
Theorem shadow_ban_is_not_enforced now u d c n size media (s : SecurityService St) :
  sc_mode cfg = EnforceFull -> current_state now (client_of now u d s) = ShadowBanned -> n <= 100 ->
  (check_and_consume (sc_rate_limit cfg) now u "messages.send" (Some c) (sm_trust (client_of now u d s)) (ss_limiter s)).1 = (true, None) ->
  (check_send_message cfg now u d c n size media s).1 = check_allow ShadowBanned.
Proof.
  intros Hm Hc Hn Hl. unfold check_send_message. rewrite Hm, Hc. cbn [with_client ss_limiter].
  destruct (check_and_consume _ _ _ _ _ _ _) as [[allowed v] l]. cbn in Hl. injection Hl as -> ->. cbn.
  destruct (Z.ltb_spec 100 n); [lia|done].
Qed.

(** A violation of a client that is shadow-banned or disconnected replaces the ban by a
    throttling of thirty seconds, after which the client is free. *)
Theorem violations_shorten_bans now v m :
  current_state now m = ShadowBanned \/ current_state now m = Disconnected -> v <> ProtocolAttack -> v <> Spam ->
  current_state now (auto_escalate now v m) = Throttled /\ current_state (now + secs 30) (auto_escalate now v m) = Normal.
Proof.
  intros Hc Hp Hs. rewrite escalated_state. unfold auto_escalate.
  assert (escalation (current_state now m) v = (Throttled, secs 30)) as -> by (destruct Hc as [-> | ->]; by destruct v).
  split; [done|]. unfold current_state; cbn. by rewrite Z.leb_refl.
Qed.

(** In the light mode the RPCs of a throttled client are not counted: it calls without
    limit. *)
Theorem throttled_rpcs_pass now u d method c (s : SecurityService St) :
  sc_mode cfg = EnforceLight -> current_state now (client_of now u d s) = Throttled ->
  (check_rpc cfg now u d method c s).1 = check_allow Throttled /\ ss_limiter (check_rpc cfg now u d method c s).2 = ss_limiter s.
Proof. intros Hm Hc. unfold check_rpc. by rewrite Hm, Hc. Qed.

Lemma crowd_cost n size media : 1000 < n -> 20 <= calculate_message_cost n size media.
Proof.
  intros Hn. unfold calculate_message_cost, fanout_multiplier.
  destruct (Z.leb_spec n 10), (Z.leb_spec n 100), (Z.leb_spec n 500), (Z.leb_spec n 1000); try lia. rewrite !andb_false_r.
  unfold size_multiplier. repeat case_match; vm_compute; done.
Qed.
(** In the full mode with shadow bans no message to more than a thousand recipients is
    delivered, not even the first. *)
Theorem crowds_are_dropped now u d c n size media (s : SecurityService St) :
  sc_mode cfg = EnforceFull -> sc_shadow_ban cfg = true -> 1000 < n ->
  let r := (check_send_message cfg now u d c n size media s).1 in cr_allowed r = false \/ cr_silent_drop r = true.
Proof.
  intros Hm Hs Hn. pose proof (crowd_cost n size media Hn) as Hc. unfold check_send_message. rewrite Hm. cbn [decide].
  repeat (rewrite decide_False by done). rewrite !bool_decide_eq_false_2 by done. cbn [andb].
  rewrite (bool_decide_eq_true_2 (EnforceFull = EnforceFull)) by done. cbn [andb].
  destruct (negb (can_send_message _)); [case_match; auto|]. destruct (check_and_consume _ _ _ _ _ _ _) as [[allowed v] l].
  rewrite decide_True by done. destruct (Z.ltb_spec 100 n); [|lia]. destruct (Z.ltb_spec 10 (calculate_message_cost n size media)); [|lia]. rewrite Hs.
  destruct allowed, v as [v|]; auto. unfold over_limit. rewrite decide_False by (by rewrite Hm). case_match; auto.
Qed.

(** An address that is never banned for a time but for good stays banned; a clean-up after
    a temporary ban ran out also removes the permanent one. *)
Theorem cleanup_lifts_permanent_bans now ip until vs (s : SecurityService St) :
  ss_ips s !! ip = Some (mkIp vs (Some until) true) -> until <= now ->
  ip_is_banned now ip s = true /\ ip_is_banned now ip (cleanup_expired_data now s) = false.
Proof.
  intros Hr Hu. unfold ip_is_banned. rewrite Hr. split; [done|]. cbn.
  rewrite (proj2 (map_lookup_filter_None _ _ ip)); [done|]. right. intros r' Hr'. rewrite Hr in Hr'. injection Hr' as <-. cbn.
  unfold ip_kept; cbn. by destruct (Z.leb_spec until now); [|lia].
Qed.
End Gaps.

(** ** Instances *)
Section Instances.
#[local] Instance one_lock : BucketStore ShardedBuckets := sharded (fun _ => 0).
Notation Service := (SecurityService ShardedBuckets).
Definition idle : Service := security_new sharded_new.
Definition address : string := "10.0.0.7".
(** Failed logins, one a second from time 0 on. *)
Fixpoint failures (n : nat) : Service :=
  match n with O => idle | S k => record_auth_failure (secs (Z.of_nat k)) 1 "phone" address (failures k) end.
Definition any_ban (_ : option Z) : Prop := True.
Definition short_ban (dur : option Z) : Prop := exists n, dur = Some n /\ n <= secs 7200.
Definition swept : Service := cleanup_expired_data (secs 600) (record_auth_failure (secs 9) 1 "phone" address (failures 9)).
Definition banned : Service := manual_ban (secs 5) 1 "phone" Spam (Some (secs 3600)) (failures 4).

Lemma failures_run n : sec_run production short_ban 0 idle (secs (Z.of_nat (Nat.pred n))) (failures n).
Proof. induction n as [|n IH]; [apply RunNil|]. cbn [failures Nat.pred]. eapply RunStep; [exact IH|unfold secs; lia|apply SAuthFailure]. Qed.

Lemma swept_run : sec_run production any_ban (secs 9) (record_auth_failure (secs 9) 1 "phone" address (failures 9)) (secs 600) swept.
Proof. unfold swept. eapply RunStep; [apply RunNil|unfold secs; lia|apply SCleanup]. Qed.
Lemma banned_run : sec_run production short_ban 0 idle (secs 5) banned.
Proof.
  unfold banned. eapply RunStep; [apply (failures_run 4)|unfold secs; cbn; lia|]. apply SBan. exists (secs 3600). split; [done|unfold secs; lia].
Qed.

(** Connections at one moment, more than the strict configuration lets through. *)
Fixpoint flood (n : nat) : Service := match n with O => idle | S k => (check_connection strict 0 address (flood k)).2 end.
Lemma flood_free : ip_is_banned 0 address (flood 14) = false.
Proof. vm_compute. reflexivity. Qed.
Lemma flood_over : (check_ip_connection (sc_rate_limit strict) 0 address (ss_limiter (flood 14))).1 = false.
Proof. vm_compute. reflexivity. Qed.
Lemma flood_S k : flood (S k) = (check_connection strict 0 address (flood k)).2.
Proof. reflexivity. Qed.
Lemma flood_violates : ip_violation strict 0 address (flood 14) (flood 15).
Proof. rewrite (flood_S 14). generalize flood_free flood_over. generalize (flood 14). intros f Hf Ho. by apply VConnection. Qed.
Lemma banned_ip_stays_out_witness :
  on_connected strict true (secs 1200) 0 7 address (new_with_node_id "node") (cleanup_expired_data (secs 600) (flood 15)) stats_new =
    (Some 7, register_connecting 0 7 (new_with_node_id "node"), cleanup_expired_data (secs 600) (flood 15), stats_new).
Proof.
  apply (banned_ip_stays_out strict any_ban address 0 (flood 14) (flood 15) (secs 600)).
  - done.
  - reflexivity.
  - exact flood_violates.
  - vm_compute. reflexivity.
  - vm_compute. reflexivity.
  - eapply RunStep; [apply RunNil|unfold secs; lia|apply SCleanup].
  - unfold secs. lia.
  - reflexivity.
Defined.

Lemma penalties_end_witness :
  0 <= ts_score (sm_trust (client_of 0 1 "phone" banned)) <= 1000 /\ get_user_state (secs 7205) 1 "phone" banned = Some Normal.
Proof.
  destruct (penalties_end production sharded_new 0 (secs 5) banned) with (u := 1) (d := "phone"%string) (m := client_of 0 1 "phone" banned) as (Hs & _ & Hn).
  - exact banned_run.
  - vm_compute. reflexivity.
  - split; [exact Hs|]. apply Hn. unfold secs. lia.
Defined.

Lemma cleanup_lifts_permanent_bans_witness :
  ip_is_banned (secs 4000) address (failures 50) = true /\
  ip_is_banned (secs 4000) address (cleanup_expired_data (secs 4000) (failures 50)) = false.
Proof.
  eapply (cleanup_lifts_permanent_bans (secs 4000) address (secs 1848)); [vm_compute; reflexivity|unfold secs; lia].
Defined.

Lemma shadow_ban_is_not_enforced_witness :
  (check_send_message strict (secs 6) 1 "phone" 9 2 10 false banned).1 = check_allow ShadowBanned.
Proof. apply shadow_ban_is_not_enforced; [reflexivity|vm_compute; reflexivity|lia|vm_compute; reflexivity]. Defined.

Lemma limits_are_separate_witness :
  let cs := [CallRpc 0 1 "messages.send" (Some 5) (trust_new 0 1 "a"); CallConnect 0 "x"; CallRpc 0 2 "users.getInfo" None (trust_new 0 2 "b")] in
  let mine c := match c with CallRpc _ u _ _ _ => u =? 1 | _ => false end in
  answers_to mine cs (run_calls (B := one_lock) rate_limit_default cs sharded_new).1 =
  (run_calls (B := one_lock) rate_limit_default (base.filter (fun c => mine c = true) cs) sharded_new).1.
Proof.
  intros cs mine. apply (limits_are_separate (fun _ => 0)). intros c c' Hc Hc' Hm Hm'.
  unfold cs in Hc, Hc'. rewrite !elem_of_cons in Hc, Hc'.
  destruct Hc as [-> |[-> |[-> |H]]]; try discriminate Hm; try (by apply not_elem_of_nil in H);
    destruct Hc' as [-> |[-> |[-> |H']]]; try discriminate Hm'; try (by apply not_elem_of_nil in H'); cbn; set_solver.
Defined.

Lemma priced_out_is_refused_witness :
  let c := CallRpc 0 1 "auth.login" None (trust_new 0 1 "a") in
  (run_calls (B := sharded (fun _ => 0)) rate_limit_default [c] sharded_new).1 !! 0%nat = Some (false, Some RateExceeded).
Proof.
  intros c. assert (priced_out "auth.login" = true) as Hm by (vm_compute; reflexivity).
  exact (priced_out_is_refused (fun _ => 0) rate_limit_default [c] 0 0 1 "auth.login" None (trust_new 0 1 "a") Hm eq_refl).
Defined.
End Instances.
